(* ===== verification/_CoqProject ===== *)
-Q . S2P
Prelude.v
BaseData.v
TopicFilter.v
Validation.v
Properties.v
Packets.v
Framing.v
AckCodec.v
ControlCodec.v
PublishCodec.v
SubscribeCodec.v
ConnectCodec.v
Codec.v
Stream.v
Leveled.v
Time.v
PriorityQueue.v
Options.v
ClientTypes.v
Commands.v
ClientError.v
Inflight.v
ClientSession.v
ServerSession.v
ExactlyOnce.v
EngineState.v
EngineCore.v
EngineProtocol.v
Engine.v
EncodeFacts.v
EngineInv.v
EngineSteps.v
EngineQueues.v
EngineHandlers.v
EngineConnect.v
EngineReceive.v
EngineInput.v
EngineSafety.v
EngineTimers.v
EngineDelivery.v
EngineFindings.v
EngineSession.v
EngineHost.v
HostSafety.v
Worker.v
WorkerSafety.v
WorkerAnswers.v
AsyncClient.v
BlockingClient.v
BlockingFacts.v
ThreadedClient.v
ThreadedFacts.v
QuicState.v
QuicEngine.v
QuicTick.v
QuicScript.v
QuicSafety.v
QuicTickSafety.v
QuicFacts.v
TlsEngine.v
TlsSafety.v
FfiTypes.v
FfiFacts.v
FfiOptions.v
FfiEvents.v
FfiEngine.v
FfiSafety.v
FfiObjects.v
FfiHistory.v
FfiTransports.v
Grpc.v
RawPacket.v
Proxy.v
NoIoClient.v
