(* ===== verification/Prelude.v ===== *)
(** * FlowSDK: a verification development for the MQTT protocol core

    FlowSDK is an MQTT 5 / 3.1.1 client SDK.  Its protocol core is synchronous and free of I/O:
    a codec for the control packets, a stream parser that cuts frames out of a byte stream,
    session objects that keep the state of the QoS 1 and 2 handshakes, an inflight queue with
    receive-maximum accounting and retransmission deadlines, a bounded priority queue, and an
    engine that ties them together for the blocking, async and QUIC clients.  Around the core
    are engines that run MQTT over a TLS connection and over the streams of a QUIC connection, the
    objects that hand these engines to foreign programs, and two proxies that carry MQTT through
    a gRPC stream.  This library models the core from the bottom up, through the engines to the
    public clients, the foreign-function objects and the proxies, and proves that it does what it
    promises.

    ** The parts and the files that model them

    - [Prelude]: results with visible panics ([result]: [Ok], [Err], [Panic]), slices, machine
      integers, UTF-8, the weakest precondition [safe] with its automation ([safe_auto], hint
      database [safe]), length rewriting ([zlia], rewrite database [zlen]).
    - [BaseData] ([src/mqtt_serde/base_data.rs], [parser/mod.rs], [mod.rs]): two- and four-byte
      integers, variable byte integers, binary data, UTF-8 strings and pairs, parser helpers.
    - [TopicFilter] ([src/mqtt_serde/mod.rs]): topic filter and shared subscription validation.
    - [Validation] ([src/mqtt_serde/validation.rs]): the rules every packet is checked against.
    - [Properties] ([src/mqtt_serde/mqttv5/common/properties.rs]): the MQTT 5 property codec.
    - [Packets] ([src/mqtt_serde/control_packet.rs], the structs of [mqttv5/] and [mqttv3/]):
      packet records, [MqttPacket], the trait [MqttControlPacket] as a record of operations,
      the default encoders, per-packet validation.
    - [Framing]: the specification of a frame and the contracts [decodes_frame] (an encoder and
      decoder pair) and [decoded] (a decoder alone) the packet codecs discharge.
    - [AckCodec], [ControlCodec], [PublishCodec], [SubscribeCodec], [ConnectCodec]: the encoder
      and decoder of every packet of both versions.
    - [Codec]: encoding and decoding of [MqttPacket], the version dispatch.
    - [Stream] ([src/mqtt_serde/parser/stream.rs], [packet_frame_len] of [parser/leveled.rs]):
      [MqttParser] and [MqttStream].
    - [Leveled] ([parser/leveled.rs], [MqttParser::next_parsed], [into_range] of
      [payload.rs]): the reduced-depth parse levels.
    - [Time] ([src/time.rs]): [Timestamp]; the class [TimePoint] and its laws.
    - [PriorityQueue] ([src/priority_queue.rs]).
    - [ClientError] ([src/mqtt_client/error.rs]: the error type, its classes, its texts and its
      conversions), [Inflight] ([src/mqtt_client/inflight.rs],
      [inflight/host.rs]).
    - [ClientSession], [ServerSession] ([src/mqtt_session/]), and [ExactlyOnce], their
      composition over a connection that can be lost.

    - [Options] ([src/mqtt_client/opts.rs]), [ClientTypes] ([types.rs]), [Commands]
      ([commands.rs]): the configuration with its setters, the results of operations with the
      reason code table, the commands with their builders.
    - [EngineState] (the data of [src/mqtt_client/engine.rs] and [engine/protocol_state.rs]),
      [EngineCore] (deadlines, loss and reconnection, the output buffer and the three send
      queues), [EngineProtocol] (CONNECT, negotiation, the receiving side, validation of
      acknowledgements), [Engine] (commands, the dispatch of incoming packets, input, ticks,
      output, and the calls with an explicit clock of [engine/explicit.rs]).
    - [EngineHost] ([engine/host.rs]): the same calls on the host's clock.
    - [EngineSession] ([engine/session_state.rs], [src/mqtt_session/client_store.rs]): taking and
      restoring checkpoints.
    - [NoIoClient] ([src/mqtt_client/no_io_client.rs], [no_io_client/host.rs]): the client.
    - [QuicState] (the data of [QuicMqttEngine] in [engine.rs], and the QUIC library as the
      classes [Quic], [QuicHost] and [QuicLaws]), [QuicEngine] (connections, the 0-RTT journal,
      streams, commands on streams, closing), [QuicTick] ([handle_tick]: transport events,
      reading and flushing streams, routing of replayed packets), [QuicScript] (an instance of
      the classes that plays a scripted peer and records what it is sent); [QuicSafety],
      [QuicTickSafety], [QuicFacts]: the theorems about it.
    - [TlsEngine] ([src/mqtt_client/tls_engine.rs]): MQTT over a TLS connection, without I/O; the
      class [Tls] is the TLS library, [HostClock] the readings of the clock.  [TlsSafety]: the
      theorem about it.  [HostSafety]: what engines under a host's clock share.
    - The foreign-function interface ([src/flowsdk_ffi/src/engine.rs] and [engine/]): [FfiTypes]
      ([properties.rs], [ffi_types.rs], [runtime.rs]: properties, options and commands with their
      checks), [FfiEvents] (events and their list with the C accessors), [FfiEngine] (the three
      objects with every method, written once over the class [HostEngine] where the source
      repeats it; checkpoints; [advanced.rs], [session.rs], [quic.rs]).  [FfiFacts], [FfiOptions]:
      what the checks accept; [FfiSafety] (the interface [HostEngineLaws], discharged for the
      three engines), [FfiObjects], [FfiTransports]: no call panics; [FfiHistory]: events and
      checkpoints over histories of calls.
    - The clients with I/O, whose outside is a script or a class: [Worker]
      ([src/mqtt_client/tokio_async_client/worker.rs]: the task of the asynchronous client; the
      class [TokioHost] has the outcomes of writes, closes and callbacks), [WorkerSafety],
      [WorkerAnswers] and [AsyncClient] ([tokio_async_client.rs]: the configuration, what each
      method sends to the task, and the theorems); [BlockingClient] ([client.rs]) with
      [BlockingFacts]; [ThreadedClient] ([async_client.rs], on top of [BlockingClient]) with
      [ThreadedFacts].
    - [RawPacket] ([src/mqtt_client/raw_packet.rs], [raw_packet/malformed.rs]): the byte editor
      and the generators of malformed packets.
    - [Grpc] ([src/mqtt_grpc_duality/src/lib.rs] and the [.proto] files): the messages and every
      conversion between packets and messages.  [Proxy] ([bin/r-proxy.rs], [bin/s-proxy.rs]):
      the wait for the CONNECT, the forwarding loops, the session table and routing.
    - [EncodeFacts], [EngineInv], [EngineSteps], [EngineQueues], [EngineHandlers],
      [EngineConnect], [EngineReceive], [EngineInput]: what encoders never do, the engine's
      invariant, and the proof that each operation keeps it; [EngineSafety], [EngineTimers],
      [EngineDelivery]: the theorems about the engine; [EngineFindings]: runs that panic when a
      hypothesis of the main theorem is dropped.

    The engine calls the codec to encode what it sends, the parser of [Stream] and [Leveled] for
    what it receives, [PriorityQueue] for messages waiting to be sent, [Inflight] for those sent
    and not acknowledged, and takes packet identifiers from [ClientSession].  Its code is a state
    monad over [MqttEngine] with panics ([St]); [←?] is the source's [?], which returns an error
    with the changes made so far.

    State is a record with the fields of the source struct; an operation takes the record and
    returns the new one, in [result] when the source returns a [Result] or can panic.  Bytes
    and integers are [Z] with their width written out; a [String] is its UTF-8 bytes.  Names
    are those of the source, prefixed by the type ([InflightQueue_acknowledge] is
    [InflightQueue::acknowledge]); record fields carry a short prefix.

    ** What is proved

    - Codec: decoding inverts encoding for all packets of both versions with arbitrary bytes
      behind them, for a CONNECT if it is one the decoder accepts back ([encodable]); accepted packets are well typed and valid and consume their frame exactly;
      no panics; canonical variable byte integers; the validators decide declarative rules; the
      single-pass PUBLISH encoders agree with the default encoder.
    - Stream: the parser refines a function of the unread bytes ([stream_step]), makes progress,
      and reading is independent of fragmentation and delivers encoded packets in order.
    - Inflight queue: an invariant over its four coupled fields, refinement of a list in
      admission order, exact quota accounting over all runs, exact retransmission.
    - Priority queue: refinement of a list in leaving order, stable order, eviction.
    - Sessions: identifier allocation, resending, topic matching against the protocol's
      relation, forwarding, send quota over all runs, and for the two sessions together
      exactly-once delivery and completion of QoS 2 messages under connection loss, where what
      is delivered is read off the queue for the subscribers and the retained messages.

    - Options and commands: built options are in range, the subscription builder.
    - Engine: an invariant over the clock, the parser, the queues, the ownership of packet
      identifiers and the output buffer; over every sequence of calls, with any input from the
      network, no call panics or fails to end ([engine_never_panics]); a refused command changes
      nothing but the clock and the identifier counter; output is whole packets; identifiers are never shared; reconnection backs off;
      sleeping until [next_tick_at] misses nothing; incoming QoS 2 messages are delivered once.
    - Checkpoints: an untrusted checkpoint is refused without effect or restored into the
      invariant; a checkpoint survives a restart unchanged.
    - Client: the composition of client, host clock, checkpoints and engine never panics.
    - MQTT over QUIC: no sequence of calls, transport events and peer bytes makes a call panic
      or loop; a refused command leaves nothing behind; an accepted one is on exactly one stream.
    - MQTT over TLS: over every sequence of calls and every behaviour of the TLS library no call
      panics, and what is handed to TLS is a sequence of whole packets.
    - Foreign functions: whatever a foreign program passes and calls, no method of the three
      objects panics; the checks of the bindings agree with the core's; accepted commands and
      options make valid packets; events are translated one by one and handed over in order; a
      checkpoint is restored at most once, before the transport starts.
    - Asynchronous client: whatever its callers, the transport and the event handler do, the task
      never panics; the channels of its callers are answered, dropped because the caller is gone,
      displaced or waiting, each exactly once, and none waits when the task ends.
    - Blocking and threaded clients: no call panics (for the thread, when the attempts to
      reconnect are limited), and every call returns by the time its connection has ended, which
      is its only bound ([blocking_reads_on]); a QoS 2 exchange with a correct peer sends and keeps
      exactly what it should; the delays back off.  [blocking_defects] and [threaded_defects] show
      where these clients fail.
    - Raw packets: what the edits do, and what the decoders make of every generated packet.
    - Proxies: a packet survives the conversion to a message and back byte for byte; the
      r-proxy finds the CONNECT and loses nothing behind it; the two proxies together are a pair
      of wires while no connection, send or write fails; packets reach the broker loop of their
      session only, while no other session takes over its client; the loops return, and a failed
      write ends them ([proxy_defects]: what makes the s-proxy panic, and what gets stuck).

    The theorems about the engine, and those about the clients, transports and foreign-function
    objects built on it, are about a client that keeps its session ([sessionless] is false), whose
    QoS 0 messages carry no packet identifier ([publish_command_ok]), whose configured deadlines
    are representable from its starting time on ([check_time_range], which the fallible
    constructors check), over fewer than about [u32::MAX] calls (the reconnection counter is a
    [u32]; over QUIC, calls times the events ready at a time).  [EngineFindings] shows that the
    first two cannot be dropped.

    ** Build assumptions, bounds and fuel

    The default features are modelled ([std], [strict-protocol-compliance]), without
    [shared-payloads].  Arithmetic overflow and failed indexing are [Panic], as in a build with
    overflow checks; additions of [usize] lengths of buffers in memory are not bounded.  Loops
    of the source are structural recursions or take a fuel that is proved sufficient:
    [vbi_fuel] covers the five digits of a [u32]; the property parser takes the length of its
    buffer (each property consumes a byte); the retransmission, identifier and draining loops
    take the iteration count of the source; [collect] takes one step more than there are bytes.
    In the engine, flushing, replaying and queue processing take one round more than the list
    they work off is long, reading takes two more than there are bytes in the parser's buffer,
    and [take_outgoing] two more than the pending work ([pending_work]); the polling loops of the
    QUIC engine take the measures of the class [Quic] (what is left to poll) and one more, the
    forwarding loops of the proxies one more than there are bytes in the buffer, the blocking
    client's receive loop one more than there are bytes left in its stream, and the threaded
    client's attempts to connect two more than the limit and the connections of the script.  Running out is
    [Panic], so the theorems that nothing panics include that these loops end.
    Round trips are stated for encodings of at most [MAX_REMAINING + 5] bytes, the protocol's
    bound, which the encoder does not check.

    ** Parameters

    The iteration order of hash maps is an arbitrary enumeration of the entries, given to each
    operation that iterates.  The clock is any instance of [TimePoint] with [TimePointLaws];
    [Timestamp] is proved to be one; what [Instant::now] returns is an argument about which
    nothing is assumed.  The class [Runtime] holds what the standard library leaves open to the
    engine: the order in which its hash maps are read, by [RuntimeLaws] some order, and the text
    of the library's errors.  [std::io::Read] is the script of what its calls return; it is finite and ends
    with the end of the stream, so a peer that stays silent without closing, on which a read
    blocks, is outside the model, and one that never stops sending is its finite beginnings.
    Sends into channels and writes to sockets of the proxies and of the blocking client have
    scripts that say which fail and after how many bytes.  The
    endpoint and connections of quinn-proto are the operations of [Quic] and [QuicHost];
    [QuicLaws] states what the engine relies on: each polling loop ends, and a write accepts a
    prefix of what it is given.  [Tls] and [TlsLaws] are the same for rustls.  [ErrorText] and
    [FfiText] are the [Debug] texts of the standard library and of derived implementations,
    [SessionCodec] is serde's encoding of checkpoints (by [SessionCodecLaws] a decoded checkpoint
    is well typed), [TlsFiles] and [QuicFiles] read certificates and addresses, and
    [QuicEventBound] bounds the events a connection has ready at a time.  [TokioHost] is what the
    asynchronous client's task meets; by [TokioHostLaws] its hash maps are read in some order.

    ** Not modelled

    The ticket cache of rustls behind [clear_quic_session_cache] (the engine's own bookkeeping of
    caches is modelled); sockets, the tokio runtime and dialling, with the QUIC client's loop
    around its engine; of the proxies the listening sockets, the gRPC channel with its metadata
    and the tasks around the loops; of the foreign-function interface the C functions that convert pointers and call a
    method, the JSON encoding of events, reading certificates from files and the stubs of builds
    without TLS; examples and the test client that sends raw packets.  The TLS options only
    carry values to the TLS library.  Conversion of errors to text is modelled only where a decoder or the engine puts
    the text into a value.  The application's [ClientSessionStore] and serialization through
    serde are outside the library; a checkpoint read from storage is an arbitrary one. *)
From stdpp Require Export base tactics list strings pretty numbers option sets gmap.
From Stdlib Require Export ZArith Lia.

#[global] Open Scope Z_scope.

(** ** Results: Rust's [Result], with panics made visible

    [Panic] stands for every abnormal stop of the source: an out-of-range index or slice, an
    [assert!], an [unwrap] of [None], and an arithmetic overflow of a build with overflow
    checks.  A function of the source that cannot fail is a plain Rocq function. *)
Inductive result (E A : Type) : Type :=
  | Ok (a : A)
  | Err (e : E)
  | Panic.
Arguments Ok {_ _} _.
Arguments Err {_ _} _.
Arguments Panic {_ _}.

#[export] Instance result_ret E : MRet (result E) := λ A x, Ok x.
#[export] Instance result_bind E : MBind (result E) := λ A B f m,
  match m with Ok x => f x | Err e => Err e | Panic => Panic end.
#[export] Instance result_fmap E : FMap (result E) := λ A B f m,
  match m with Ok x => Ok (f x) | Err e => Err e | Panic => Panic end.

#[export] Instance result_eq_dec `{EqDecision E, EqDecision A} : EqDecision (result E A).
Proof. solve_decision. Defined.

(** A computation of the source without an error value: it returns or panics. *)
Abbreviation panics := (result Empty_set).

(** [o.unwrap()] and [o.expect(..)] *)
Definition unwrap {E A} (o : option A) : result E A :=
  match o with Some x => Ok x | None => Panic end.

(** [o.ok_or(e)] *)
Definition ok_or {E A} (o : option A) (e : E) : result E A :=
  match o with Some x => Ok x | None => Err e end.

(** The absence of a panic, as a decidable predicate on results. *)
Definition is_Panic {E A} (r : result E A) : bool :=
  match r with Panic => true | _ => false end.

Definition is_Ok {E A} (r : result E A) : bool :=
  match r with Ok _ => true | _ => false end.

Section result_lemmas.
Context {E A B : Type}.
Implicit Types (m : result E A) (f : A → result E B).

Lemma bind_Ok_inv m f b :
  m ≫= f = Ok b → ∃ a, m = Ok a ∧ f a = Ok b.
Proof. destruct m; simpl; naive_solver. Qed.

Lemma bind_Panic_inv m f :
  m ≫= f = Panic → m = Panic ∨ ∃ a, m = Ok a ∧ f a = Panic.
Proof. destruct m; simpl; naive_solver. Qed.

Lemma Ok_inj (x y : A) : Ok (E:=E) x = Ok y → x = y.
Proof. by intros [=]. Qed.

Lemma ok_or_Ok_inv (o : option A) (e : E) x : ok_or o e = Ok x → o = Some x.
Proof. destruct o; simpl; naive_solver. Qed.

Lemma ok_or_no_panic (o : option A) (e : E) : ok_or o e ≠ Panic.
Proof. by destruct o. Qed.
End result_lemmas.

(** ** Assignments to record fields

    [r <| f := v |>] is [r] with the field [f] assigned [v], [r <| f ::= g |>] with [g] applied
    to it.  A record takes part by an instance of [Rebuild], the function that takes a value
    apart and puts it together again; the update of one field is found by replacing the
    occurrence of its projection there. *)
Class Rebuild (R : Type) : Type := rebuild : R → R.
Class Field {R F : Type} (proj : R → F) : Type := update : (F → F) → R → R.
Arguments update {R F} proj {_} f r.

Ltac derive_field :=
  match goal with
  | |- @Field ?R ?F ?proj =>
      let copy := eval cbv delta [rebuild] in (@rebuild R _) in
      let copy := eval red in copy in
      let abstracted := eval pattern proj in copy in
      match abstracted with
      | ?build _ => exact (λ f, build (λ r, f (proj r)))
      end
  end.
#[export] Hint Extern 1 (Field _) => derive_field : typeclass_instances.

Declare Scope record_scope.
#[global] Open Scope record_scope.
#[warnings="-postfix-notation-not-level-1"]
Notation "e <| p ::= f |>" := (update p f e) (at level 12, left associativity) : record_scope.
#[warnings="-postfix-notation-not-level-1"]
Notation "e <| p := v |>" := (update p (λ _, v) e) (at level 12, left associativity) : record_scope.

(** ** Byte sequences, lengths and slices

    A [u8] buffer is a [list Z]; every length, offset and size is a [Z] (Rust's [usize]).
    The slice forms of the source are kept apart: [buffer.get(a..b)] returns an option,
    [buffer[a..b]] panics when out of range. *)
Abbreviation bytes := (list Z).

Definition zlen {A} (l : list A) : Z := Z.of_nat (length l).

Arguments zlen {_} _ : simpl never.

Definition get_at (b : bytes) (i : Z) : option Z :=
  if (0 <=? i) && (i <? zlen b) then b !! Z.to_nat i else None.
Definition get_from (b : bytes) (off : Z) : option bytes :=
  if (0 <=? off) && (off <=? zlen b) then Some (drop (Z.to_nat off) b) else None.
Definition get_range (b : bytes) (lo hi : Z) : option bytes :=
  if (0 <=? lo) && (lo <=? hi) && (hi <=? zlen b)
  then Some (take (Z.to_nat (hi - lo)) (drop (Z.to_nat lo) b)) else None.

Definition index_at {E} (b : bytes) (i : Z) : result E Z :=
  match get_at b i with Some x => Ok x | None => Panic end.
Definition index_from {E} (b : bytes) (off : Z) : result E bytes :=
  match get_from b off with Some x => Ok x | None => Panic end.
Definition index_range {E} (b : bytes) (lo hi : Z) : result E bytes :=
  match get_range b lo hi with Some x => Ok x | None => Panic end.

(** [a - b] on [usize], with the overflow check of a debug build. *)
Definition usub {E} (a b : Z) : result E Z :=
  if b <=? a then Ok (a - b) else Panic.

(** ** Machine integers *)
Definition is_u8 (z : Z) : Prop := 0 <= z < 256.
Definition is_u16 (z : Z) : Prop := 0 <= z < 65536.
Definition is_u32 (z : Z) : Prop := 0 <= z < 4294967296.
Definition is_u64 (z : Z) : Prop := 0 <= z < 18446744073709551616.

Definition u8_MAX : Z := 255.
Definition u16_MAX : Z := 65535.
Definition u32_MAX : Z := 4294967295.
Definition u64_MAX : Z := 18446744073709551615.

(** The casts [as u8], [as u16], [as u32] truncate. *)
Definition as_u8 (z : Z) : Z := z mod 256.
Definition as_u16 (z : Z) : Z := z mod 65536.
Definition as_u32 (z : Z) : Z := z mod 4294967296.

(** [val.to_be_bytes()] and [from_be_bytes] for [u16] and [u32]. *)
Definition u16_to_be_bytes (v : Z) : bytes := [v / 256 mod 256; v mod 256].
Definition u32_to_be_bytes (v : Z) : bytes :=
  [v / 16777216 mod 256; v / 65536 mod 256; v / 256 mod 256; v mod 256].
Definition u16_from_be_bytes (b : bytes) : Z :=
  match b with [b0; b1] => b0 * 256 + b1 | _ => 0 end.
Definition u32_from_be_bytes (b : bytes) : Z :=
  match b with
  | [b0; b1; b2; b3] => b0 * 16777216 + b1 * 65536 + b2 * 256 + b3
  | _ => 0
  end.

Arguments u16_to_be_bytes _ : simpl never.
Arguments u32_to_be_bytes _ : simpl never.

Definition bool_as_u8 (b : bool) : Z := if b then 1 else 0.

Lemma u16_be_roundtrip v : is_u16 v → u16_from_be_bytes (u16_to_be_bytes v) = v.
Proof. unfold is_u16; intros; unfold u16_to_be_bytes, u32_to_be_bytes; simpl. Z.div_mod_to_equations; lia. Qed.

Lemma u32_be_roundtrip v : is_u32 v → u32_from_be_bytes (u32_to_be_bytes v) = v.
Proof. unfold is_u32; intros; unfold u16_to_be_bytes, u32_to_be_bytes; simpl. Z.div_mod_to_equations; lia. Qed.

Lemma zlen_app {A} (l k : list A) : zlen (l ++ k) = zlen l + zlen k.
Proof. unfold zlen. rewrite length_app. lia. Qed.
Lemma zlen_cons {A} (x : A) l : zlen (x :: l) = 1 + zlen l.
Proof. unfold zlen. simpl. lia. Qed.
Lemma zlen_nil {A} : zlen (@nil A) = 0.
Proof. done. Qed.
Lemma zlen_nonneg {A} (l : list A) : 0 <= zlen l.
Proof. unfold zlen. lia. Qed.
Lemma zlen_drop {A} (l : list A) n :
  0 <= n <= zlen l → zlen (drop (Z.to_nat n) l) = zlen l - n.
Proof. unfold zlen. rewrite length_drop. lia. Qed.
Lemma zlen_take {A} (l : list A) n :
  0 <= n <= zlen l → zlen (take (Z.to_nat n) l) = n.
Proof. unfold zlen. rewrite length_take. lia. Qed.
Lemma zlen_0_nil {A} (l : list A) : zlen l = 0 → l = [].
Proof. destruct l; unfold zlen; simpl; [done|lia]. Qed.

Create Rewrite HintDb zlen.
Lemma zlen_u16_be v : zlen (u16_to_be_bytes v) = 2.
Proof. done. Qed.
Lemma zlen_u32_be v : zlen (u32_to_be_bytes v) = 4.
Proof. done. Qed.

#[export] Hint Rewrite @zlen_app @zlen_cons @zlen_nil zlen_u16_be zlen_u32_be : zlen.

(** Linear arithmetic over lengths: normalise them, then [lia] with all of them nonnegative. *)
Ltac zlen_pos :=
  repeat match goal with
  | |- context [zlen ?l] => learn_zlen l
  | _ : context [zlen ?l] |- _ => learn_zlen l
  end
with learn_zlen l :=
  match goal with
  | _ : 0 <= zlen l |- _ => fail 1
  | _ => pose proof (zlen_nonneg l)
  end.
Ltac zlia := autorewrite with zlen in *; zlen_pos; lia.

(** ** Positions in a buffer

    [suffix_at b off s] says that the bytes of [b] from offset [off] on are [s]: the form in
    which the round-trip proofs follow an offset through a decoder. *)
Definition suffix_at (b : bytes) (off : Z) (s : bytes) : Prop :=
  ∃ pre, b = pre ++ s ∧ zlen pre = off.

Section suffix_at.
Implicit Types (b s x : bytes) (off : Z).

Lemma suffix_at_0 b : suffix_at b 0 b.
Proof. by exists []. Qed.

Lemma suffix_at_app b off x s :
  suffix_at b off (x ++ s) → suffix_at b (off + zlen x) s.
Proof.
  intros (pre & -> & <-). exists (pre ++ x).
  rewrite zlen_app, (assoc (++)). done.
Qed.

Lemma suffix_at_cons b off y s :
  suffix_at b off (y :: s) → suffix_at b (off + 1) s.
Proof. apply (suffix_at_app b off [y] s). Qed.

Lemma suffix_at_len b off s : suffix_at b off s → zlen b = off + zlen s.
Proof. intros (pre & -> & <-). by rewrite zlen_app. Qed.

Lemma suffix_at_nonneg b off s : suffix_at b off s → 0 <= off.
Proof. intros (pre & -> & <-). apply zlen_nonneg. Qed.

Lemma suffix_at_get_from b off s : suffix_at b off s → get_from b off = Some s.
Proof.
  intros (pre & -> & <-). unfold get_from.
  pose proof (zlen_nonneg pre); pose proof (zlen_nonneg s).
  replace ((0 <=? zlen pre) && (zlen pre <=? zlen (pre ++ s))) with true
    by (rewrite zlen_app; lia).
  unfold zlen. rewrite Nat2Z.id. by rewrite drop_app_length.
Qed.

Lemma suffix_at_index_from {E} b off s :
  suffix_at b off s → index_from (E:=E) b off = Ok s.
Proof. intros H. unfold index_from. by rewrite (suffix_at_get_from _ _ _ H). Qed.

Lemma suffix_at_get_at b off y s : suffix_at b off (y :: s) → get_at b off = Some y.
Proof.
  intros (pre & -> & <-). unfold get_at.
  pose proof (zlen_nonneg pre); pose proof (zlen_nonneg s).
  replace ((0 <=? zlen pre) && (zlen pre <? zlen (pre ++ y :: s))) with true
    by (rewrite zlen_app, zlen_cons; lia).
  unfold zlen. rewrite Nat2Z.id. by apply list_lookup_middle.
Qed.

Lemma suffix_at_index_at {E} b off y s :
  suffix_at b off (y :: s) → index_at (E:=E) b off = Ok y.
Proof. intros H. unfold index_at. by rewrite (suffix_at_get_at _ _ _ _ H). Qed.

Lemma suffix_at_get_range b off hi x s :
  suffix_at b off (x ++ s) → hi = off + zlen x → get_range b off hi = Some x.
Proof.
  intros (pre & -> & <-) ->. unfold get_range.
  pose proof (zlen_nonneg pre); pose proof (zlen_nonneg s); pose proof (zlen_nonneg x).
  replace ((0 <=? zlen pre) && (zlen pre <=? zlen pre + zlen x)
           && (zlen pre + zlen x <=? zlen (pre ++ x ++ s))) with true
    by (rewrite !zlen_app; lia).
  replace (zlen pre + zlen x - zlen pre) with (zlen x) by lia.
  unfold zlen. rewrite !Nat2Z.id, drop_app_length, take_app_length. done.
Qed.

Lemma suffix_at_index_range {E} b off hi x s :
  suffix_at b off (x ++ s) → hi = off + zlen x → index_range (E:=E) b off hi = Ok x.
Proof. intros H1 H2. unfold index_range. by rewrite (suffix_at_get_range _ _ _ _ _ H1 H2). Qed.
End suffix_at.

Lemma get_from_Some b off s :
  get_from b off = Some s → 0 <= off <= zlen b ∧ s = drop (Z.to_nat off) b.
Proof. unfold get_from. case_match eqn:H; [|done]. intros [= <-]. split; [lia|done]. Qed.

Lemma get_from_zlen b off s : get_from b off = Some s → zlen s = zlen b - off ∧ 0 <= off <= zlen b.
Proof. intros [H ->]%get_from_Some. rewrite zlen_drop; lia. Qed.

Lemma get_range_zlen b lo hi s :
  get_range b lo hi = Some s → zlen s = hi - lo ∧ 0 <= lo <= hi ∧ hi <= zlen b.
Proof.
  unfold get_range. case_match eqn:H; [|done]. intros [= <-].
  split; [|lia]. rewrite zlen_take; [done|]. rewrite zlen_drop; lia.
Qed.

Lemma get_at_Some b i x : get_at b i = Some x → 0 <= i < zlen b.
Proof. unfold get_at. case_match eqn:H; [|done]. lia. Qed.

Lemma get_at_in_range b i : 0 <= i < zlen b → is_Some (get_at b i).
Proof.
  intros Hi. unfold get_at. replace ((0 <=? i) && (i <? zlen b)) with true by lia.
  apply lookup_lt_is_Some. unfold zlen in Hi. lia.
Qed.

Lemma index_at_Panic {E} b i : index_at (E:=E) b i = Panic → ~ 0 <= i < zlen b.
Proof.
  unfold index_at. intros H Hi. destruct (get_at_in_range b i Hi) as [x Hx].
  by rewrite Hx in H.
Qed.

Lemma index_from_Panic {E} b i : index_from (E:=E) b i = Panic → ~ 0 <= i <= zlen b.
Proof. unfold index_from, get_from. destruct (_ && _) eqn:Hc; [done|]. intros _. lia. Qed.

Lemma index_range_Panic {E} b lo hi :
  index_range (E:=E) b lo hi = Panic → ~ (0 <= lo <= hi ∧ hi <= zlen b).
Proof.
  unfold index_range, get_range. destruct (_ && _) eqn:Hc; [done|]. intros _. lia.
Qed.

(** ** Safe results

    [safe r Q]: [r] does not panic, and if it returns, [Q] holds of the value.  This is the
    weakest precondition of the result monad; the "never panics" and the "what is returned is
    well formed" theorems are instances of it. *)
Definition safe {E A} (r : result E A) (Q : A → Prop) : Prop :=
  match r with Ok a => Q a | Err _ => True | Panic => False end.

Section safe.
Context {E A B : Type}.

Lemma safe_bind (m : result E A) (f : A → result E B) P Q :
  safe m P → (∀ a, P a → m = Ok a → safe (f a) Q) → safe (m ≫= f) Q.
Proof. destruct m; simpl; naive_solver. Qed.

Lemma safe_bind_assoc {C} (m : result E A) (f : A → result E B) (g : B → result E C) Q :
  safe (m ≫= λ a, f a ≫= g) Q → safe ((m ≫= f) ≫= g) Q.
Proof. by destruct m. Qed.

Lemma safe_bind_Ok (a : A) (f : A → result E B) Q : safe (f a) Q → safe (Ok a ≫= f) Q.
Proof. done. Qed.

Lemma safe_mono (m : result E A) (P Q : A → Prop) :
  safe m P → (∀ a, P a → Q a) → safe m Q.
Proof. destruct m; simpl; naive_solver. Qed.

Lemma safe_Ok_inv (m : result E A) P a : safe m P → m = Ok a → P a.
Proof. by intros H ->. Qed.

Lemma safe_no_panic (m : result E A) P : safe m P → m ≠ Panic.
Proof. by intros H ->. Qed.

Lemma safe_ok_or (o : option A) (e : E) : safe (ok_or o e) (λ x, o = Some x).
Proof. by destruct o. Qed.
End safe.

#[export] Instance safe_proper {E A} :
  Proper (eq ==> pointwise_relation A iff ==> iff) (@safe E A).
Proof. intros m ? <- P Q HPQ. destruct m; simpl; [apply HPQ|done|done]. Qed.

(** Every element of a buffer is a byte; slices inherit it. *)
Definition u8s (b : bytes) : Prop := Forall is_u8 b.

(** A literal buffer. *)
Ltac u8s_lit := unfold u8s; repeat constructor; unfold is_u8; lia.

Lemma u8s_nil : u8s [].
Proof. constructor. Qed.
Lemma u8s_app a b : u8s (a ++ b) ↔ u8s a ∧ u8s b.
Proof. apply Forall_app. Qed.
Lemma u8s_cons x b : u8s (x :: b) ↔ is_u8 x ∧ u8s b.
Proof. unfold u8s. by rewrite Forall_cons_iff. Qed.
Lemma u8s_get_at b i x : u8s b → get_at b i = Some x → is_u8 x.
Proof.
  unfold get_at. intros Hb H. destruct (_ && _); [|done].
  by eapply (Forall_lookup_1 is_u8).
Qed.
Lemma u8s_get_from b off s : u8s b → get_from b off = Some s → u8s s.
Proof. intros Hb [_ ->]%get_from_Some. by apply Forall_drop. Qed.
Lemma u8s_get_range b lo hi s : u8s b → get_range b lo hi = Some s → u8s s.
Proof.
  intros Hb. unfold get_range. destruct (_ && _); [|done]. intros [= <-].
  by apply Forall_take, Forall_drop.
Qed.

Lemma safe_index_at {E} b i :
  u8s b → 0 <= i < zlen b → safe (index_at (E:=E) b i) (λ x, get_at b i = Some x ∧ is_u8 x).
Proof.
  intros Hb Hi. unfold index_at. destruct (get_at_in_range b i Hi) as [x Hx].
  rewrite Hx. simpl. split; [done|]. by eapply u8s_get_at.
Qed.

Lemma safe_index_from {E} b off :
  u8s b → 0 <= off <= zlen b → safe (index_from (E:=E) b off) (λ s, zlen s = zlen b - off ∧ u8s s).
Proof.
  intros Hb H. unfold index_from. destruct (get_from b off) as [s|] eqn:Hs.
  - split; [by apply get_from_zlen in Hs as [? _]|by eapply u8s_get_from].
  - unfold get_from in Hs. destruct (_ && _) eqn:Hc; [done|lia].
Qed.

Lemma safe_index_range {E} b lo hi :
  u8s b → 0 <= lo <= hi → hi <= zlen b →
  safe (index_range (E:=E) b lo hi) (λ s, zlen s = hi - lo ∧ u8s s).
Proof.
  intros Hb H1 H2. unfold index_range. destruct (get_range b lo hi) as [s|] eqn:Hs.
  - split; [by apply get_range_zlen in Hs as [? _]|by eapply u8s_get_range].
  - unfold get_range in Hs. destruct (_ && _) eqn:Hc; [done|lia].
Qed.

Lemma safe_get_from {E} b off (e : E) :
  u8s b →
  safe (ok_or (get_from b off) e) (λ s, zlen s = zlen b - off ∧ 0 <= off <= zlen b ∧ u8s s).
Proof.
  intros Hb. eapply safe_mono; [apply safe_ok_or|]. intros s Hs; simpl in Hs.
  split_and!; [apply get_from_zlen in Hs; lia..|eapply u8s_get_from; eassumption].
Qed.

Lemma safe_get_range {E} b lo hi (e : E) :
  u8s b →
  safe (ok_or (get_range b lo hi) e)
    (λ s, zlen s = hi - lo ∧ 0 <= lo <= hi ∧ hi <= zlen b ∧ u8s s).
Proof.
  intros Hb. eapply safe_mono; [apply safe_ok_or|]. intros s Hs; simpl in Hs.
  split_and!; [apply get_range_zlen in Hs; lia..|eapply u8s_get_range; eassumption].
Qed.

Lemma safe_get_at {E} b i (e : E) :
  u8s b → safe (ok_or (get_at b i) e) (λ x, 0 <= i < zlen b ∧ is_u8 x).
Proof.
  intros Hb. eapply safe_mono; [apply safe_ok_or|]. intros x Hx; simpl in Hx.
  split; [by apply get_at_Some in Hx|eapply u8s_get_at; eassumption].
Qed.

Lemma safe_usub {E} a b : b <= a → safe (usub (E:=E) a b) (λ c, c = a - b).
Proof. intros. unfold usub. rewrite (proj2 (Z.leb_le b a)) by lia. done. Qed.

(** A parser that takes a buffer and reports how many bytes it consumed is [bounded] when it
    never panics and consumes at least one byte and no more than the buffer has; [Q] is what
    holds of the value it returns. *)
Definition bounded {E A} (P : bytes → result E (A * Z)) (Q : A → Prop) : Prop :=
  ∀ b, u8s b → safe (P b) (λ r, 0 < r.2 <= zlen b ∧ Q r.1).

Create HintDb safe discriminated.
#[global] Hint Constants Opaque : safe.
#[export] Hint Resolve safe_get_from safe_get_range safe_get_at : safe.
#[export] Hint Extern 2 (safe (index_at _ _) _) => eapply safe_index_at; [assumption|lia] : safe.
#[export] Hint Extern 2 (safe (index_from _ _) _) => eapply safe_index_from; [assumption|lia] : safe.
#[export] Hint Extern 2 (safe (index_range _ _ _) _) => eapply safe_index_range; [assumption|lia..] : safe.
#[export] Hint Extern 2 (safe (usub _ _) _) => eapply safe_usub; lia : safe.

Ltac zsimp := autorewrite with zlen in *.

(** Run the result monad on known results, leaving data untouched. *)
Ltac rsimp := cbn [mbind result_bind fmap result_fmap mret result_ret ok_or fst snd negb andb orb].

(** Split the conjunctions among the hypotheses. *)
Ltac split_hyps := repeat match goal with H : _ ∧ _ |- _ => destruct H end.

(** One step of a proof that a computation is safe. *)
Ltac safe_step :=
  match goal with
  | |- safe ((if ?b then _ else _) ≫= _) _ => destruct b eqn:?
  | |- safe (match ?x with _ => _ end ≫= _) _ => destruct x eqn:?; simpl in *
  | |- safe ((_ ≫= _) ≫= _) _ => apply safe_bind_assoc
  | |- safe (Ok _ ≫= _) _ => apply safe_bind_Ok; cbv beta iota
  | |- safe (Err _ ≫= _) _ => exact I
  | |- safe (_ ≫= _) _ =>
      eapply safe_bind; [solve [eauto with safe] | intros ? ? ?; simpl in *; split_hyps]
  | |- safe (Err _) _ => exact I
  | |- safe (if ?b then _ else _) _ => destruct b eqn:?
  | |- safe (let '(_, _) := ?x in _) _ => destruct x as [? ?]; simpl in *
  | |- safe (match ?x with _ => _ end) _ => destruct x eqn:?; simpl in *
  end.
Ltac safe_auto := repeat safe_step.

(** Forward inversion of a computation known to have returned. *)
Ltac res_step :=
  match goal with
  | H : _ ≫= _ = Ok _ |- _ =>
      apply bind_Ok_inv in H; destruct H as (? & ? & H); simpl in H
  | H : ok_or _ _ = Ok _ |- _ => apply ok_or_Ok_inv in H
  | H : Ok _ = Ok _ |- _ => apply Ok_inj in H; try subst
  | H : (_, _) = (_, _) |- _ => apply pair_equal_spec in H; destruct H; try subst
  | H : Err _ = Ok _ |- _ => discriminate H
  | H : Panic = Ok _ |- _ => discriminate H
  | H : (if ?b then _ else _) = Ok _ |- _ => destruct b eqn:?
  | H : (let '(_, _) := ?x in _) = Ok _ |- _ => destruct x as [? ?]; simpl in H
  | x : () |- _ => destruct x
  end.
Ltac res_inv := repeat res_step.

(** ** Strings

    A Rust [String] or [&str] is its UTF-8 bytes.  [str] gives the bytes of an ASCII literal of
    the source; [contains], [starts_with] and [split] on an ASCII character work on the bytes,
    as an ASCII byte of valid UTF-8 is always that character. *)
Definition str (s : string) : bytes :=
  (λ a, Z.of_N (Ascii.N_of_ascii a)) <$> String.list_ascii_of_string s.

Definition contains_char (s : bytes) (c : Z) : bool := existsb (Z.eqb c) s.

Definition bytes_eqb (a b : bytes) : bool := bool_decide (a = b).

Fixpoint starts_with (s p : bytes) : bool :=
  match p, s with
  | [], _ => true
  | c :: p', d :: s' => (c =? d) && starts_with s' p'
  | _ :: _, [] => false
  end.

(** [s.split(c)]: never empty, one more piece than there are separators. *)
Fixpoint split_on (c : Z) (s : bytes) : list bytes :=
  match s with
  | [] => [[]]
  | d :: s' =>
      if d =? c then [] :: split_on c s'
      else match split_on c s' with
           | [] => [[d]]
           | piece :: rest => (d :: piece) :: rest
           end
  end.

(** UTF-8 validation ([String::from_utf8]): [None] when valid, otherwise the number of valid
    leading bytes and the length of the invalid sequence ([None]: the input ends in it). *)
Definition utf8_cont (b : Z) : bool := (128 <=? b) && (b <=? 191).
Definition utf8_in (b lo hi : Z) : bool := (lo <=? b) && (b <=? hi).

Fixpoint utf8_validate (pos : Z) (s : bytes) : option (Z * option Z) :=
  match s with
  | [] => None
  | b0 :: s1 =>
      if b0 <? 128 then utf8_validate (pos + 1) s1
      else if utf8_in b0 194 223 then
        match s1 with
        | [] => Some (pos, None)
        | b1 :: s2 => if utf8_cont b1 then utf8_validate (pos + 2) s2 else Some (pos, Some 1)
        end
      else if utf8_in b0 224 239 then
        match s1 with
        | [] => Some (pos, None)
        | b1 :: s2 =>
            if (b0 =? 224) && utf8_in b1 160 191 || utf8_in b0 225 236 && utf8_in b1 128 191
               || (b0 =? 237) && utf8_in b1 128 159 || utf8_in b0 238 239 && utf8_in b1 128 191
            then match s2 with
                 | [] => Some (pos, None)
                 | b2 :: s3 =>
                     if utf8_cont b2 then utf8_validate (pos + 3) s3 else Some (pos, Some 2)
                 end
            else Some (pos, Some 1)
        end
      else if utf8_in b0 240 244 then
        match s1 with
        | [] => Some (pos, None)
        | b1 :: s2 =>
            if (b0 =? 240) && utf8_in b1 144 191 || utf8_in b0 241 243 && utf8_in b1 128 191
               || (b0 =? 244) && utf8_in b1 128 143
            then match s2 with
                 | [] => Some (pos, None)
                 | b2 :: s3 =>
                     if utf8_cont b2
                     then match s3 with
                          | [] => Some (pos, None)
                          | b3 :: s4 =>
                              if utf8_cont b3 then utf8_validate (pos + 4) s4
                              else Some (pos, Some 3)
                          end
                     else Some (pos, Some 2)
                 end
            else Some (pos, Some 1)
        end
      else Some (pos, Some 1)
  end.

(** The type invariant of a Rust [String]. *)
Definition is_string (s : bytes) : Prop := utf8_validate 0 s = None.

Example utf8_validate_ok : utf8_validate 0 (str "caf" ++ [195; 169]) = None.
Proof. reflexivity. Qed.
Example utf8_validate_bad : utf8_validate 0 (str "ab" ++ [237; 160; 128]) = Some (2, Some 1).
Proof. reflexivity. Qed.

(** Decimal and two-digit hexadecimal rendering, as [format!] does for the error messages. *)
Definition fmt_dec (z : Z) : string := pretty z.
Definition hex_digit (d : Z) : string :=
  match String.get (Z.to_nat d) "0123456789abcdef" with
  | Some a => String a ""
  | None => ""
  end.
Definition fmt_02x (z : Z) : string :=
  String.append (hex_digit (z / 16)) (hex_digit (z mod 16)).

(** ** Checking a bounded statement by evaluation *)
Lemma forall_range (n : nat) (P : Z → bool) :
  forallb P (seqZ 0 (Z.of_nat n)) = true → ∀ x, 0 <= x < Z.of_nat n → P x = true.
Proof.
  rewrite forallb_forall. intros H x Hx. apply H, list_elem_of_In, elem_of_seqZ. lia.
Qed.

Lemma existsb_false_not_in (c : Z) s : contains_char s c = false ↔ c ∉ s.
Proof.
  unfold contains_char. rewrite <- not_true_iff_false, existsb_exists.
  setoid_rewrite <- list_elem_of_In. setoid_rewrite Z.eqb_eq.
  split; [intros H Hc; apply H; by exists c | by intros H (x & Hx & ->)].
Qed.

(** ** Lists *)
Lemma filter_none {A} (P : A → Prop) `{∀ x, Decision (P x)} l :
  Forall (λ x, ~ P x) l → filter P l = [].
Proof. induction 1; [done|]. by rewrite filter_cons_False. Qed.

Lemma filter_all {A} (P : A → Prop) `{∀ x, Decision (P x)} l :
  Forall P l → filter P l = l.
Proof. induction 1; [done|]. rewrite filter_cons_True by done. by f_equal. Qed.

(** ** Stateful computations

    [St S A] is a method of a type with state [S] that returns an [A] or panics; [St S (E + A)]
    is one that returns a [Result], whose changes to the state stay when it returns an error:
    [x ←? m; k] is [let x = m?; k]. *)
Definition St (S A : Type) : Type := S → panics (A * S).

#[export] Instance St_ret S : MRet (St S) := λ A a s, Ok (a, s).
#[export] Instance St_bind S : MBind (St S) := λ A B f m s,
  match m s with Ok (a, s) => f a s | Err e => Err e | Panic => Panic end.

Section St.
Context {S : Type}.

Definition get_st : St S S := λ s, Ok (s, s).
Definition modify (f : S → S) : St S () := λ s, Ok ((), f s).
Definition panic {A} : St S A := λ _, Panic.

(** A computation that may panic, and [r.expect(..)]. *)
Definition lift {A} (r : panics A) : St S A := λ s,
  match r with Ok a => Ok (a, s) | Err e => Err e | Panic => Panic end.
Definition expect {E A} (r : result E A) : St S A := λ s,
  match r with Ok a => Ok (a, s) | _ => Panic end.

(** A [Result] computed without changing the state. *)
Definition try {E A} (r : result E A) : St S (E + A) := λ s,
  match r with Ok a => Ok (inr a, s) | Err e => Ok (inl e, s) | Panic => Panic end.

Definition ok {E A} (a : A) : St S (E + A) := mret (inr a).
Definition err {E A} (e : E) : St S (E + A) := mret (inl e).

Definition try_bind {E A B} (f : A → St S (E + B)) (m : St S (E + A)) : St S (E + B) :=
  r ← m; match r with inl e => err e | inr a => f a end.
End St.

Notation "x ←? m ; k" := (try_bind (λ x, k) m)
  (at level 20, m at level 100, k at level 200, right associativity,
   format "x  ←?  m ;  '//' k") : stdpp_scope.
Notation "' x ←? m ; k" := (try_bind (λ x : _, match x with x => k end) m)
  (at level 20, x pattern, m at level 100, k at level 200, only parsing) : stdpp_scope.

(** A computation on a part of the state. *)
Definition zoom {S S' A} (get : S → S') (put : S' → S → S) (m : St S' A) : St S A := λ s,
  match m (get s) with
  | Ok (a, s') => Ok (a, put s' s)
  | Err e => Err e
  | Panic => Panic
  end.

(** What a run establishes: it does not panic and ends in [Q]. *)
Definition runs {S A} (m : St S A) (s : S) (Q : A → S → Prop) : Prop :=
  match m s with Ok (a, s') => Q a s' | _ => False end.

Section runs.
Context {S A B : Type}.
Implicit Types (m : St S A) (s : S).

Lemma runs_ret (a : A) s Q : Q a s → runs (mret a) s Q.
Proof. done. Qed.

Lemma runs_bind m (f : A → St S B) s Q :
  runs m s (λ a s', runs (f a) s' Q) → runs (m ≫= f) s Q.
Proof. unfold runs, mbind, St_bind. by destruct (m s) as [[a s']| |]. Qed.

Lemma runs_bind_inv m (f : A → St S B) s Q :
  runs (m ≫= f) s Q → runs m s (λ a s', runs (f a) s' Q).
Proof. unfold runs, mbind, St_bind. by destruct (m s) as [[a s']| |]. Qed.

Lemma runs_mono m s (Q Q' : A → S → Prop) :
  runs m s Q → (∀ a s', Q a s' → Q' a s') → runs m s Q'.
Proof. unfold runs. destruct (m s) as [[a s']| |]; auto. Qed.

Lemma runs_and m s (Q Q' : A → S → Prop) :
  runs m s Q → runs m s Q' → runs m s (λ a s', Q a s' ∧ Q' a s').
Proof. unfold runs. destruct (m s) as [[a s']| |]; auto. Qed.

Lemma runs_Ok m s Q : runs m s Q ↔ ∃ a s', m s = Ok (a, s') ∧ Q a s'.
Proof. unfold runs. destruct (m s) as [[a s']| |]; naive_solver. Qed.

Lemma runs_get s Q : Q s s → runs get_st s Q.
Proof. done. Qed.
Lemma runs_modify f s Q : Q tt (f s) → runs (modify f) s Q.
Proof. done. Qed.
Lemma runs_expect {E} (r : result E A) s (Q : A → S → Prop) :
  (∃ a, r = Ok a ∧ Q a s) → runs (expect r) s Q.
Proof. by intros (a & -> & ?). Qed.
Lemma runs_lift (r : panics A) s (Q : A → S → Prop) :
  (∃ a, r = Ok a ∧ Q a s) → runs (lift r) s Q.
Proof. by intros (a & -> & ?). Qed.
Lemma runs_try {E} (r : result E A) s (Q : E + A → S → Prop) :
  safe r (λ a, Q (inr a) s) → (∀ e, r = Err e → Q (inl e) s) → runs (try r) s Q.
Proof. unfold runs, try. destruct r; simpl; naive_solver. Qed.
Lemma runs_try_bind {E C} (m : St S (E + A)) (f : A → St S (E + C)) s Q :
  runs m s (λ r s', match r with inl e => Q (inl e) s' | inr a => runs (f a) s' Q end) →
  runs (try_bind f m) s Q.
Proof.
  unfold runs, try_bind, mbind, St_bind. by destruct (m s) as [[[e|a] s']| |].
Qed.
End runs.

(** A check of the code, with what it establishes. *)
Lemma runs_result {S E A} (r : result E A) (s : S) Q :
  r ≠ Panic → (∀ error, r = Err error → Q (inl error) s) → (∀ a, r = Ok a → Q (inr a) s) →
  runs (try r) s Q.
Proof. intros Hp He Ha. unfold runs, try. destruct r; by auto. Qed.

(** A computation of checks panics when one of them does. *)
Lemma bind_no_panic {E A C} (m : result E A) (f : A → result E C) :
  m ≠ Panic → (∀ a, f a ≠ Panic) → (m ≫= f) ≠ Panic.
Proof. intros Hm Hf. destruct m as [a| |]; [apply Hf|done..]. Qed.

(** ** What a computation gives

    [gives m s Q]: if [m] returns from [s], its result and final state are in [Q].  That it
    returns is stated with [runs]. *)
Definition gives {S A} (m : St S A) (s : S) (Q : A → S → Prop) : Prop :=
  match m s with Ok (a, s') => Q a s' | _ => True end.

Section gives.
Context {S : Type}.
Implicit Types (s : S).

Lemma gives_ret {A} (a : A) s Q : Q a s → gives (mret a) s Q.
Proof. done. Qed.
Lemma gives_bind {A B} (m : St S A) (f : A → St S B) s Q :
  gives m s (λ a s', gives (f a) s' Q) → gives (m ≫= f) s Q.
Proof. unfold gives, mbind, St_bind. by destruct (m s) as [[a s']| |]. Qed.
Lemma gives_try_bind {E A B} (m : St S (E + A)) (f : A → St S (E + B)) s Q :
  gives m s (λ r s', match r with inl e => Q (inl e) s' | inr a => gives (f a) s' Q end) →
  gives (try_bind f m) s Q.
Proof. unfold gives, try_bind, mbind, St_bind. by destruct (m s) as [[[e|a] s']| |]. Qed.
Lemma gives_mono {A} (m : St S A) s (Q Q' : A → S → Prop) :
  gives m s Q → (∀ a s', Q a s' → Q' a s') → gives m s Q'.
Proof. unfold gives. destruct (m s) as [[a s']| |]; auto. Qed.
Lemma gives_get s Q : Q s s → gives get_st s Q.
Proof. done. Qed.
Lemma gives_modify f s Q : Q tt (f s) → gives (modify f) s Q.
Proof. done. Qed.
Lemma gives_try {E A} (r : result E A) s Q :
  (∀ e, r = Err e → Q (inl e) s) → (∀ a, r = Ok a → Q (inr a) s) → gives (try r) s Q.
Proof. unfold gives, try. destruct r; auto. Qed.
Lemma gives_expect {E A} (r : result E A) s Q :
  (∀ a, r = Ok a → Q a s) → gives (expect r) s Q.
Proof. unfold gives, expect. destruct r; auto. Qed.
Lemma gives_and {A} (m : St S A) s (Q Q' : A → S → Prop) :
  gives m s Q → gives m s Q' → gives m s (λ a s', Q a s' ∧ Q' a s').
Proof. unfold gives. by destruct (m s) as [[a s']| |]. Qed.
Lemma runs_gives {A} (m : St S A) s Q : runs m s Q → gives m s Q.
Proof. unfold runs, gives. by destruct (m s) as [[a s']| |]. Qed.
End gives.

(** One step of the way a method is written. *)
Ltac gives_step :=
  lazymatch goal with
  | |- gives (mbind _ _) _ _ => apply gives_bind
  | |- gives (try_bind _ _) _ _ => apply gives_try_bind
  | |- gives get_st _ _ => apply gives_get
  | |- gives (modify _) _ _ => apply gives_modify
  | |- gives (mret _) _ _ => apply gives_ret
  | |- gives (ok _) _ _ => apply gives_ret
  | |- gives (err _) _ _ => apply gives_ret
  | |- gives (try _) _ _ => apply gives_try
  | |- gives (expect _) _ _ => apply gives_expect
  end; cbv beta zeta.

(** ** Invariants of stateful computations

    [preserves I J m]: from a state in [I], [m] returns and leaves the state in [J].  The lemmas
    follow the way a method is written, the tactic [preserve] applies them; the lemmas on the
    methods a method calls are hints of the database [preserve]. *)
Definition preserves {S A} (I J : S → Prop) (m : St S A) : Prop :=
  ∀ s, I s → runs m s (λ _ s', J s').

Section preserves.
Context {S : Type}.
Implicit Types (I J K : S → Prop).

Lemma preserves_ret {A} I (a : A) : preserves I I (mret a).
Proof. by intros s Hs. Qed.
Lemma preserves_bind {A B} I J K (m : St S A) (f : A → St S B) :
  preserves I J m → (∀ a, preserves J K (f a)) → preserves I K (m ≫= f).
Proof.
  intros Hm Hf s Hs. apply runs_bind. eapply runs_mono; [by apply Hm|]. intros a s' Hs'. by apply Hf.
Qed.
Lemma preserves_try_bind {E A B} I J (m : St S (E + A)) (f : A → St S (E + B)) :
  preserves I J m → (∀ a, preserves J J (f a)) → preserves I J (try_bind f m).
Proof.
  intros Hm Hf s Hs. apply runs_try_bind. eapply runs_mono; [by apply Hm|].
  intros [e|a] s' Hs'; [done|by apply Hf].
Qed.
(** What is read of the state satisfies the invariant from then on. *)
Lemma preserves_get {A} I K (f : S → St S A) :
  (∀ s, I s → preserves I K (f s)) → preserves I K (get_st ≫= f).
Proof. intros Hf s Hs. apply runs_bind, runs_get. by apply Hf. Qed.
Lemma preserves_modify I J f : (∀ s, I s → J (f s)) → preserves I J (modify f).
Proof. intros Hf s Hs. by apply runs_modify, Hf. Qed.
Lemma preserves_try {E A} I (r : result E A) : r ≠ Panic → preserves I I (try r).
Proof. intros Hr s Hs. by destruct r. Qed.
(** The branch after a [Result] keeps the value it was computed from. *)
Lemma preserves_try_Ok {E A B} I (r : result E A) (f : A → St S (E + B)) :
  r ≠ Panic → (∀ a, r = Ok a → preserves I I (f a)) → preserves I I (try_bind f (try r)).
Proof. intros Hr Hf s Hs. destruct r as [a|e|]; [by apply Hf|done..]. Qed.
Lemma preserves_expect_bind {E A B} I K (r : result E A) (f : A → St S B) a :
  r = Ok a → preserves I K (f a) → preserves I K (expect r ≫= f).
Proof. intros -> Hf s Hs. by apply Hf. Qed.
Lemma preserves_lift_bind {A B} I K (r : panics A) (f : A → St S B) a :
  r = Ok a → preserves I K (f a) → preserves I K (lift r ≫= f).
Proof. intros -> Hf s Hs. by apply Hf. Qed.
Lemma preserves_weaken {A} I I' J J' (m : St S A) :
  preserves I J m → (∀ s, I' s → I s) → (∀ s, J s → J' s) → preserves I' J' m.
Proof. intros Hm HI HJ s Hs. eapply runs_mono; [by apply Hm, HI|]. auto. Qed.
(** An error of the first part may leave the weaker invariant. *)
Lemma preserves_try_then {E A C} I J (m : St S (E + A)) (f : A → St S (E + C)) :
  (∀ s, I s → J s) → preserves I I m → (∀ a, preserves I J (f a)) → preserves I J (try_bind f m).
Proof.
  intros HIJ Hm Hf s Hs. apply runs_try_bind. eapply runs_mono; [by apply Hm|].
  intros [e|a] s' Hs'; [by apply HIJ|by apply Hf].
Qed.
Lemma preserves_and {A} I J K L (m : St S A) :
  preserves I J m → preserves K L m → preserves (λ s, I s ∧ K s) (λ s, J s ∧ L s) m.
Proof. intros Hm Hm' s [HI HK]. apply runs_and; [by apply Hm|by apply Hm']. Qed.
End preserves.

Section zoom.
Context {S S' A : Type} (get : S → S') (put : S' → S → S).
Implicit Types (m : St S' A).

Lemma runs_zoom m s (Q : A → S → Prop) :
  runs m (get s) (λ a s', Q a (put s' s)) → runs (zoom get put m) s Q.
Proof. unfold runs, zoom. by destruct (m (get s)) as [[a s']| |]. Qed.
Lemma preserves_zoom m (I J : S' → Prop) (K L : S → Prop) :
  preserves I J m → (∀ s, K s → I (get s)) → (∀ s s', K s → J s' → L (put s' s)) →
  preserves K L (zoom get put m).
Proof.
  intros Hm HI HL s Hs. apply runs_zoom. eapply runs_mono; [by apply Hm, HI|]. intros a s' Hs'. by apply HL.
Qed.
End zoom.

Create HintDb preserve.
Ltac preserve_step :=
  lazymatch goal with
  | |- ∀ _, _ => intros ?
  | |- preserves ?I ?I (mret _) => apply preserves_ret
  | |- preserves ?I ?I (ok _) => apply preserves_ret
  | |- preserves ?I ?I (err _) => apply preserves_ret
  | |- preserves _ _ (mbind _ get_st) => apply preserves_get; intros ? ?; cbv beta zeta
  | |- preserves ?I ?I (mbind _ _) => apply (preserves_bind I I I)
  | |- preserves ?I ?I (try_bind _ _) => apply (preserves_try_bind I I)
  | |- preserves _ _ (match ?x with _ => _ end) => destruct x eqn:?
  | |- preserves _ _ _ => first
      [ solve [eauto with preserve]
      | apply preserves_modify; solve [eauto with preserve]
      | apply preserves_try; solve [eauto with preserve] ]
  end.
Ltac preserve := repeat (preserve_step; cbv beta zeta).
