(* ===== verification/BaseData.v ===== *)
(** * Base data types of the MQTT wire format

    Models [src/mqtt_serde/base_data.rs] (two- and four-byte integers, variable byte integers,
    binary data, UTF-8 strings), the error type and the thin parser helpers of
    [src/mqtt_serde/parser/mod.rs], and the checked string encoders of [src/mqtt_serde/mod.rs].
    Proves the codec laws every packet relies on: encode/decode round trips, bounds on what a
    decoder consumes, and the absence of panics. *)
From S2P Require Import Prelude.

(** ** [parser::ParseError] *)
Inductive ParseError : Type :=
  | More (hint : Z) (msg : string)
  | IoError
  | ParseErr (msg : string)
  | IncompleteProperty
  | Utf8Error (valid_up_to : Z) (error_len : option Z)
  | FromUtf8Error
  | StringTooLong
  | BufferTooShort
  | BufferEmpty
  | InvalidLength
  | InvalidPropertyId
  | InvalidPacketType
  | UnSuppProtoVsn
  | InternalError (msg : string)
  | InvalidVariableByteInteger.

#[export] Instance ParseError_eq_dec : EqDecision ParseError.
Proof. solve_decision. Defined.

Abbreviation res := (result ParseError).

(** ** [TwoByteInteger], [FourByteInteger] *)
Definition TwoByteInteger_encode (val : Z) : bytes := u16_to_be_bytes val.

Definition TwoByteInteger_decode (b : bytes) : res (Z * Z) :=
  if zlen b <? 2 then Err BufferTooShort else
  array ← index_range b 0 2;
  Ok (u16_from_be_bytes array, 2).

Definition FourByteInteger_encode (val : Z) : bytes := u32_to_be_bytes val.

Definition FourByteInteger_decode (b : bytes) : res (Z * Z) :=
  if zlen b <? 4 then Err BufferTooShort else
  array ← index_range b 0 4;
  Ok (u32_from_be_bytes array, 4).

(** ** [VariableByteInteger]

    The two loops on a [u32] shift seven bits out per turn, so five turns are enough
    ([vbi_encode_fuel], [vbi_encoded_len_fuel]); the decoder recurses on the unread bytes. *)
Definition vbi_fuel : nat := 5.

Fixpoint VariableByteInteger_encoded_len_loop (fuel : nat) (val len : Z) : Z :=
  match fuel with
  | O => len
  | S fuel' =>
      if 128 <=? val
      then VariableByteInteger_encoded_len_loop fuel' (Z.shiftr val 7) (len + 1)
      else len
  end.

Definition VariableByteInteger_encoded_len (val : Z) : Z :=
  VariableByteInteger_encoded_len_loop vbi_fuel val 1.

Fixpoint VariableByteInteger_encode_loop (fuel : nat) (num : Z) : bytes :=
  match fuel with
  | O => []
  | S fuel' =>
      let byte := num mod 128 in
      let num := num / 128 in
      let byte := if 0 <? num then Z.lor byte 128 else byte in
      byte :: (if num =? 0 then [] else VariableByteInteger_encode_loop fuel' num)
  end.

Definition VariableByteInteger_encode_into (val : Z) (b : bytes) : bytes :=
  b ++ VariableByteInteger_encode_loop vbi_fuel val.

Definition VariableByteInteger_encode (val : Z) : bytes :=
  VariableByteInteger_encode_into val [].

Fixpoint VariableByteInteger_decode_loop (unread : bytes) (i multiplier value : Z)
    : res (Z * Z) :=
  match unread with
  | [] => Err (More 1 "vbi: not enough bytes for remaining length")
  | byte :: unread' =>
      if (127 <? byte) && (i =? 3)
      then Err (ParseErr "invalid remaining length, MSB is 1") else
      let value := value + Z.land byte 127 * multiplier in
      if 268435455 <? value then Panic else
      let multiplier := multiplier * 128 in
      let i := i + 1 in
      if Z.land byte 128 =? 0 then Ok (value, i)
      else VariableByteInteger_decode_loop unread' i multiplier value
  end.

Definition VariableByteInteger_decode (buffer : bytes) : res (Z * Z) :=
  if bool_decide (buffer = []) then Err BufferTooShort else
  '(value, i) ← VariableByteInteger_decode_loop buffer 0 1 0;
  last ← (if 1 <? i then index_at buffer (i - 1) else Ok 1);
  if (1 <? i) && (last =? 0)
  then Err (ParseErr "Variable Byte Integer encoding is not minimal")
  else Ok (value, i).

(** ** [BinaryData], [Utf8String], [Utf8StringPair] *)
Definition BinaryData_encode (data : bytes) : bytes :=
  u16_to_be_bytes (as_u16 (zlen data)) ++ data.

Definition BinaryData_decode (b : bytes) : res (bytes * Z) :=
  '(len, _) ← TwoByteInteger_decode b;
  let start := 2 in
  let end_ := start + len in
  if zlen b <? end_ then Err BufferTooShort else
  data ← index_range b start end_;
  Ok (data, end_).

(** [validate_mqtt_utf8_string] of [mqtt_serde/mod.rs]. *)
Definition validate_mqtt_utf8_string (s : bytes) : res () :=
  if contains_char s 0
  then Err (ParseErr "UTF-8 string contains null character (U+0000)")
  else Ok ().

Definition Utf8String_encode (s : bytes) : bytes := BinaryData_encode s.

Definition from_utf8 (data : bytes) : res bytes :=
  match utf8_validate 0 data with
  | None => Ok data
  | Some (valid_up_to, error_len) => Err (Utf8Error valid_up_to error_len)
  end.

Definition Utf8String_decode (b : bytes) : res (bytes * Z) :=
  '(data, len) ← BinaryData_decode b;
  s ← from_utf8 data;
  _ ← validate_mqtt_utf8_string s;
  Ok (s, len).

Definition Utf8StringPair_encode (key value : bytes) : bytes :=
  Utf8String_encode key ++ Utf8String_encode value.

Definition Utf8StringPair_decode (b : bytes) : res ((bytes * bytes) * Z) :=
  '(key, key_len) ← Utf8String_decode b;
  tail ← index_from b key_len;
  '(value, value_len) ← Utf8String_decode tail;
  Ok ((key, value), key_len + value_len).

(** ** Checked encoders of [mqtt_serde/mod.rs] *)
Definition encode_binary_data (data : bytes) : res bytes :=
  if u16_MAX <? zlen data then Err StringTooLong else Ok (BinaryData_encode data).

Definition encode_utf8_string (s : bytes) : res bytes :=
  if u16_MAX <? zlen s then Err StringTooLong else
  _ ← validate_mqtt_utf8_string s;
  Ok (Utf8String_encode s).

Definition decode_binary_data (buffer : bytes) : res (bytes * Z) := BinaryData_decode buffer.

(** ** Helpers of [parser/mod.rs] *)
Definition packet_type (buffer : bytes) : res Z :=
  if bool_decide (buffer = []) then Err BufferEmpty else
  b0 ← index_at buffer 0;
  Ok (Z.shiftr b0 4).

Definition vbi (buffer : bytes) : res (Z * Z) :=
  '(value, consumed) ← VariableByteInteger_decode buffer;
  Ok (value, consumed).

Definition parse_remaining_length (buffer : bytes) : res (Z * Z) := vbi buffer.
Definition parse_utf8_string (buffer : bytes) : res (bytes * Z) := Utf8String_decode buffer.
Definition parse_packet_id (buffer : bytes) : res (Z * Z) := TwoByteInteger_decode buffer.
Definition parse_binary_data (buffer : bytes) : res (bytes * Z) := BinaryData_decode buffer.
Definition parse_vbi (buffer : bytes) : res (Z * Z) := vbi buffer.

Definition read_u8 (buffer : bytes) : res Z :=
  if bool_decide (buffer = []) then Err BufferTooShort else index_at buffer 0.

Arguments TwoByteInteger_encode _ : simpl never.
Arguments FourByteInteger_encode _ : simpl never.
Arguments BinaryData_encode _ : simpl never.
Arguments Utf8String_encode _ : simpl never.
Arguments VariableByteInteger_encode _ : simpl never.

(** ** Round trips of the base types *)
Lemma TwoByteInteger_roundtrip v rest :
  is_u16 v → TwoByteInteger_decode (TwoByteInteger_encode v ++ rest) = Ok (v, 2).
Proof.
  intros Hv. unfold TwoByteInteger_decode, TwoByteInteger_encode.
  replace (_ <? 2) with false by zlia.
  erewrite suffix_at_index_range by (apply suffix_at_0 || done). rsimp.
  by rewrite (u16_be_roundtrip v Hv).
Qed.

Lemma FourByteInteger_roundtrip v rest :
  is_u32 v → FourByteInteger_decode (FourByteInteger_encode v ++ rest) = Ok (v, 4).
Proof.
  intros Hv. unfold FourByteInteger_decode, FourByteInteger_encode.
  replace (_ <? 4) with false by zlia.
  erewrite suffix_at_index_range by (apply suffix_at_0 || done). rsimp.
  by rewrite (u32_be_roundtrip v Hv).
Qed.

Lemma zlen_BinaryData_encode d : zlen (BinaryData_encode d) = 2 + zlen d.
Proof. unfold BinaryData_encode. zsimp. done. Qed.

Lemma zlen_Utf8String_encode d : zlen (Utf8String_encode d) = 2 + zlen d.
Proof. apply zlen_BinaryData_encode. Qed.

Lemma BinaryData_roundtrip d rest :
  zlen d <= u16_MAX →
  BinaryData_decode (BinaryData_encode d ++ rest) = Ok (d, 2 + zlen d).
Proof.
  unfold u16_MAX. intros Hd. pose proof (zlen_nonneg d). pose proof (zlen_nonneg rest).
  unfold BinaryData_decode, BinaryData_encode, as_u16. rewrite <- app_assoc.
  rewrite Z.mod_small by lia. fold (TwoByteInteger_encode (zlen d)).
  rewrite TwoByteInteger_roundtrip by (unfold is_u16; lia). rsimp.
  replace (_ <? _) with false by zlia.
  erewrite suffix_at_index_range; [done| |done].
  apply (suffix_at_app _ 0 (TwoByteInteger_encode (zlen d)) (d ++ rest)), suffix_at_0.
Qed.

Lemma Utf8String_roundtrip s rest :
  zlen s <= u16_MAX → is_string s → contains_char s 0 = false →
  Utf8String_decode (Utf8String_encode s ++ rest) = Ok (s, 2 + zlen s).
Proof.
  intros Hl Hs Hn. unfold Utf8String_decode, Utf8String_encode.
  rewrite BinaryData_roundtrip by done. rsimp.
  unfold from_utf8. rewrite Hs. rsimp.
  unfold validate_mqtt_utf8_string. by rewrite Hn.
Qed.

Lemma Utf8StringPair_roundtrip k v rest :
  zlen k <= u16_MAX → is_string k → contains_char k 0 = false →
  zlen v <= u16_MAX → is_string v → contains_char v 0 = false →
  Utf8StringPair_decode (Utf8StringPair_encode k v ++ rest)
  = Ok ((k, v), zlen (Utf8StringPair_encode k v)).
Proof.
  intros. unfold Utf8StringPair_decode, Utf8StringPair_encode. rewrite <- app_assoc.
  rewrite Utf8String_roundtrip by done. rsimp.
  assert (index_from (E:=ParseError)
    (Utf8String_encode k ++ Utf8String_encode v ++ rest) (2 + zlen k)
    = Ok (Utf8String_encode v ++ rest)) as ->.
  { apply suffix_at_index_from. rewrite <- zlen_BinaryData_encode.
    apply (suffix_at_app _ 0 (Utf8String_encode k)), suffix_at_0. }
  rsimp. rewrite Utf8String_roundtrip by done. rsimp.
  by rewrite zlen_app, !zlen_BinaryData_encode.
Qed.

Lemma encode_utf8_string_Ok s b :
  encode_utf8_string s = Ok b →
  b = Utf8String_encode s ∧ zlen s <= u16_MAX ∧ contains_char s 0 = false.
Proof.
  unfold encode_utf8_string, validate_mqtt_utf8_string.
  destruct (_ <? _) eqn:Hl; [done|]. destruct (contains_char s 0) eqn:Hn; [done|].
  intros [= <-]. split; [done|]. split; [|done]. unfold u16_MAX in *. lia.
Qed.

Lemma encode_binary_data_Ok d b :
  encode_binary_data d = Ok b → b = BinaryData_encode d ∧ zlen d <= u16_MAX.
Proof.
  unfold encode_binary_data. destruct (_ <? _) eqn:Hl; [done|].
  intros [= <-]. split; [done|]. lia.
Qed.

(** ** Variable byte integers *)
Lemma vbi_byte_bits x :
  0 <= x < 128 →
  Z.lor x 128 = x + 128 ∧ Z.land (x + 128) 127 = x ∧ Z.land (x + 128) 128 = 128 ∧
  Z.land x 127 = x ∧ Z.land x 128 = 0.
Proof.
  intros Hx.
  pose proof (forall_range 128 (λ x, (Z.lor x 128 =? x + 128)
    && (Z.land (x + 128) 127 =? x) && (Z.land (x + 128) 128 =? 128)
    && (Z.land x 127 =? x) && (Z.land x 128 =? 0)) eq_refl x Hx) as H.
  simpl in H. lia.
Qed.

Section vbi_encode.
Implicit Types (fuel : nat) (n : Z).

(** One turn of the encoder: a final byte, or a continuation byte and the rest. *)
Lemma vbi_encode_loop_S fuel n :
  0 <= n →
  VariableByteInteger_encode_loop (S fuel) n =
    if n <? 128 then [n]
    else (n mod 128 + 128) :: VariableByteInteger_encode_loop fuel (n / 128).
Proof.
  intros Hn. simpl. destruct (Z.ltb_spec n 128).
  - rewrite Z.div_small, Z.mod_small by lia. done.
  - assert (0 < n / 128) by (apply Z.div_str_pos; lia).
    replace (0 <? n / 128) with true by lia. replace (n / 128 =? 0) with false by lia.
    f_equal. apply vbi_byte_bits. apply Z.mod_pos_bound. lia.
Qed.

Lemma vbi_encode_loop_fuel fuel fuel' n :
  0 <= n < 128 ^ Z.of_nat fuel → (1 <= fuel <= fuel')%nat →
  VariableByteInteger_encode_loop fuel' n = VariableByteInteger_encode_loop fuel n.
Proof.
  revert fuel' n. induction fuel as [|fuel IH]; intros fuel' n Hn Hf; [lia|].
  destruct fuel' as [|fuel']; [lia|].
  rewrite !vbi_encode_loop_S by lia. destruct (Z.ltb_spec n 128); [done|].
  rewrite Nat2Z.inj_succ, Z.pow_succ_r in Hn by lia.
  destruct fuel as [|fuel]; [simpl in Hn; lia|].
  f_equal. apply IH; [|lia].
  split; [apply Z.div_pos; lia|]. apply Z.div_lt_upper_bound; lia.
Qed.

Lemma vbi_encode_loop_last fuel n :
  0 < n < 128 ^ Z.of_nat fuel →
  ∃ pre l, VariableByteInteger_encode_loop fuel n = pre ++ [l] ∧ 0 < l < 128.
Proof.
  revert n. induction fuel as [|fuel IH]; intros n Hn; [simpl in Hn; lia|].
  rewrite vbi_encode_loop_S by lia. destruct (Z.ltb_spec n 128).
  { exists [], n. split; [done|lia]. }
  rewrite Nat2Z.inj_succ, Z.pow_succ_r in Hn by lia.
  destruct (IH (n / 128)) as (pre & l & -> & Hl).
  { split; [apply Z.div_str_pos; lia|]. apply Z.div_lt_upper_bound; lia. }
  by exists ((n mod 128 + 128) :: pre), l.
Qed.

Lemma vbi_encoded_len_loop_spec fuel n len :
  0 <= n < 128 ^ Z.of_nat fuel →
  VariableByteInteger_encoded_len_loop fuel n (len + 1)
  = len + zlen (VariableByteInteger_encode_loop fuel n) ∨ fuel = O.
Proof.
  revert n len. induction fuel as [|fuel IH]; intros n len Hn; [by right|left].
  rewrite vbi_encode_loop_S by lia. cbn [VariableByteInteger_encoded_len_loop].
  destruct (Z.leb_spec 128 n), (Z.ltb_spec n 128); try lia; [|done].
  rewrite Nat2Z.inj_succ, Z.pow_succ_r in Hn by lia.
  rewrite Z.shiftr_div_pow2, zlen_cons by lia. change (2 ^ 7) with 128.
  destruct (IH (n / 128) (len + 1)) as [-> | ->]; [|lia|].
  - split; [apply Z.div_pos; lia|]. apply Z.div_lt_upper_bound; lia.
  - simpl in Hn. lia.
Qed.
End vbi_encode.

(** The decoder reads back what the encoder wrote, in any number [k <= 4 - i] of bytes. *)
Lemma vbi_decode_loop_encode (k : nat) n i mult value rest :
  0 <= n < 128 ^ Z.of_nat k → 0 <= i → i + Z.of_nat k <= 4 → 0 < mult →
  value + n * mult <= 268435455 → 0 <= value →
  VariableByteInteger_decode_loop (VariableByteInteger_encode_loop k n ++ rest) i mult value
  = Ok (value + n * mult, i + zlen (VariableByteInteger_encode_loop k n)) ∨ k = O.
Proof.
  revert n i mult value. induction k as [|k IH]; intros n i mult value Hn Hi Hk Hm Hv H0;
    [by right|left].
  rewrite vbi_encode_loop_S by lia. destruct (Z.ltb_spec n 128).
  { destruct (vbi_byte_bits n) as (_&_&_&E1&E2); [lia|].
    simpl. replace (127 <? n) with false by lia. simpl. rewrite E1, E2.
    replace (268435455 <? _) with false by lia. done. }
  rewrite Nat2Z.inj_succ, Z.pow_succ_r in Hn by lia.
  destruct k as [|k]; [simpl in Hn; lia|].
  assert (0 <= n / 128 < 128 ^ Z.of_nat (S k)) as Hd.
  { split; [apply Z.div_pos; lia|]. apply Z.div_lt_upper_bound; lia. }
  pose proof (Z.mod_pos_bound n 128 ltac:(lia)) as Hb.
  destruct (vbi_byte_bits (n mod 128) Hb) as (_&E1&E2&_&_).
  pose proof (Z.div_mod n 128 ltac:(lia)) as Hdm.
  cbn [app VariableByteInteger_decode_loop].
  replace (i =? 3) with false by lia. rewrite andb_false_r, E1, E2.
  assert (n * mult = (n / 128) * (mult * 128) + n mod 128 * mult) as Hmul by nia.
  replace (268435455 <? _) with false by nia. simpl (128 =? 0).
  destruct (IH (n / 128) (i + 1) (mult * 128) (value + n mod 128 * mult)) as [-> |?];
    [lia|lia|lia|lia|nia|nia| |done].
  rewrite zlen_cons. f_equal. f_equal; lia.
Qed.

Lemma vbi_encode_eq (k : nat) v :
  (1 <= k <= 5)%nat → 0 <= v < 128 ^ Z.of_nat k →
  VariableByteInteger_encode v = VariableByteInteger_encode_loop k v.
Proof.
  intros Hk Hv. unfold VariableByteInteger_encode, VariableByteInteger_encode_into.
  cbn [app]. by apply vbi_encode_loop_fuel.
Qed.

Lemma vbi_encode_into_app v b :
  VariableByteInteger_encode_into v b = b ++ VariableByteInteger_encode v.
Proof. done. Qed.

Lemma zlen_vbi_encode v :
  is_u32 v → zlen (VariableByteInteger_encode v) = VariableByteInteger_encoded_len v.
Proof.
  intros Hv. unfold is_u32 in Hv. unfold VariableByteInteger_encoded_len.
  destruct (vbi_encoded_len_loop_spec vbi_fuel v 0) as [E|E]; [|done..].
  change (128 ^ Z.of_nat vbi_fuel) with 34359738368. lia.
Qed.

Lemma vbi_encode_bound v :
  0 <= v <= 268435455 → 1 <= zlen (VariableByteInteger_encode v) <= 4.
Proof.
  intros Hv. rewrite (vbi_encode_eq 4) by (simpl; lia).
  assert (∀ (k : nat) n, 1 <= zlen (VariableByteInteger_encode_loop (S k) n) <= Z.of_nat (S k))
    as H.
  { intros k; induction k as [|k IH]; intros n.
    - simpl. destruct (_ =? 0); unfold zlen; simpl; lia.
    - cbn [VariableByteInteger_encode_loop] in *. rewrite zlen_cons.
      destruct (n / 128 =? 0); [unfold zlen; simpl; lia|].
      specialize (IH (n / 128)). lia. }
  apply (H 3%nat).
Qed.

Lemma VariableByteInteger_roundtrip v rest :
  0 <= v <= 268435455 →
  VariableByteInteger_decode (VariableByteInteger_encode v ++ rest)
  = Ok (v, zlen (VariableByteInteger_encode v)).
Proof.
  intros Hv. pose proof (vbi_encode_bound v Hv) as Hlen. revert Hlen.
  rewrite (vbi_encode_eq 4) by (simpl; lia). intros Hlen.
  unfold VariableByteInteger_decode. set (enc := VariableByteInteger_encode_loop 4 v) in *.
  rewrite bool_decide_eq_false_2.
  2:{ intros E. apply (f_equal zlen) in E. rewrite zlen_app, zlen_nil in E.
      pose proof (zlen_nonneg rest). lia. }
  destruct (vbi_decode_loop_encode 4 v 0 1 0 rest) as [E|E];
    [simpl; lia|lia|lia|lia|lia|lia| |done].
  fold enc in E. rewrite E. rsimp. rewrite Z.mul_1_r, !Z.add_0_l.
  destruct (Z.ltb_spec 1 (zlen enc)) as [H1|H1]; [|done].
  assert (0 < v) as Hpos.
  { destruct (Z.eq_dec v 0) as [->|]; [|lia]. subst enc. unfold zlen in H1. simpl in H1. lia. }
  destruct (vbi_encode_loop_last 4 v) as (pre & l & Hl & Hl0); [simpl; lia|].
  fold enc in Hl. rewrite Hl. rewrite <- app_assoc. simpl app.
  erewrite suffix_at_index_at.
  2:{ exists pre. split; [done|]. zsimp. lia. }
  rsimp. replace (l =? 0) with false by lia. done.
Qed.

(** The five turns of fuel are enough: more fuel encodes every [u32] the same way. *)
Lemma vbi_encode_fuel (k : nat) v :
  is_u32 v → (5 <= k)%nat →
  VariableByteInteger_encode_loop k v = VariableByteInteger_encode_loop vbi_fuel v.
Proof.
  intros Hv Hk. apply vbi_encode_loop_fuel; [|unfold vbi_fuel; lia].
  unfold is_u32 in Hv. change (128 ^ Z.of_nat vbi_fuel) with 34359738368. lia.
Qed.

(** ** What the decoders accept *)

(** Shape of the bytes a successful variable-byte decode has read: continuation bytes [ds],
    then a final byte [l]; the value is their little-endian base-128 combination. *)
Fixpoint vbi_value (ds : bytes) (l : Z) : Z :=
  match ds with
  | [] => l
  | d :: ds' => (d - 128) + 128 * vbi_value ds' l
  end.

Lemma vbi_decode_loop_inv unread i mult value v j :
  Forall is_u8 unread → 0 <= i <= 3 →
  VariableByteInteger_decode_loop unread i mult value = Ok (v, j) →
  ∃ ds l tail, unread = ds ++ l :: tail ∧ Forall (λ d, 128 <= d < 256) ds ∧ 0 <= l < 128 ∧
    j = i + zlen ds + 1 ∧ j <= 4 ∧ v = value + vbi_value ds l * mult ∧ v <= 268435455.
Proof.
  revert i mult value. induction unread as [|b unread IH]; intros i mult value Hu8 Hi H; [done|].
  apply Forall_cons_1 in Hu8 as [Hb Hu8]. unfold is_u8 in Hb.
  cbn [VariableByteInteger_decode_loop] in H.
  destruct ((127 <? b) && (i =? 3)) eqn:Hmsb; [done|].
  destruct (268435455 <? value + Z.land b 127 * mult) eqn:Hmax; [done|].
  destruct (Z.land b 128 =? 0) eqn:Hfin.
  - assert (b < 128) as Hlt.
    { destruct (Z.ltb_spec b 128); [done|].
      destruct (vbi_byte_bits (b - 128)) as (_&_&E&_&_); [lia|].
      replace (b - 128 + 128) with b in E by lia. lia. }
    destruct (vbi_byte_bits b) as (_&_&_&E&_); [lia|]. rewrite E in H, Hmax.
    injection H as <- <-. exists [], b, unread. simpl.
    split_and!; [done|constructor|zlia..].
  - assert (128 <= b) as Hge.
    { destruct (Z.ltb_spec b 128); [|done].
      destruct (vbi_byte_bits b) as (_&_&_&_&E); [lia|]. lia. }
    destruct (vbi_byte_bits (b - 128)) as (_&E&_&_&_); [lia|].
    replace (b - 128 + 128) with b in E by lia. rewrite E in H, Hmax.
    apply IH in H as (ds & l & tail & -> & Hds & Hl & -> & Hj & -> & Hv); [|done|lia].
    exists (b :: ds), l, tail. rewrite zlen_cons. cbn [app vbi_value].
    split_and!; [done|apply Forall_cons_2; [lia|done]|lia..].
Qed.

Lemma vbi_value_nonneg ds l :
  Forall (λ d, 128 <= d < 256) ds → 0 <= l → 0 <= vbi_value ds l.
Proof. intros H Hl. induction H; simpl; lia. Qed.

Lemma vbi_encode_value (k : nat) ds l :
  Forall (λ d, 128 <= d < 256) ds → 0 <= l < 128 → (ds = [] ∨ 0 < l) →
  (length ds < k)%nat →
  VariableByteInteger_encode_loop k (vbi_value ds l) = ds ++ [l].
Proof.
  revert k. induction ds as [|d ds IH]; intros k Hds Hl Hnz Hk;
    (destruct k as [|k]; simpl in Hk; [lia|]).
  - rewrite vbi_encode_loop_S by (simpl; lia). simpl. by replace (l <? 128) with true by lia.
  - apply Forall_cons_1 in Hds as [Hd Hds].
    pose proof (vbi_value_nonneg ds l Hds ltac:(lia)) as Hn.
    assert (0 < vbi_value ds l) as Hpos.
    { destruct Hnz as [?|Hl0]; [done|]. clear -Hds Hl0.
      induction Hds; simpl; lia. }
    simpl vbi_value. rewrite vbi_encode_loop_S by lia.
    replace (_ <? 128) with false by lia.
    replace ((d - 128 + 128 * vbi_value ds l) / 128) with (vbi_value ds l)
      by (Z.div_mod_to_equations; lia).
    replace ((d - 128 + 128 * vbi_value ds l) mod 128) with (d - 128)
      by (Z.div_mod_to_equations; lia).
    rewrite (IH k); [|done..| destruct Hnz; [done|by right]|lia]. simpl. f_equal. lia.
Qed.

Lemma VariableByteInteger_decode_canonical b v n :
  Forall is_u8 b → VariableByteInteger_decode b = Ok (v, n) →
  0 <= v <= 268435455 ∧ 1 <= n <= 4 ∧ n <= zlen b ∧
  take (Z.to_nat n) b = VariableByteInteger_encode v.
Proof.
  intros Hu8 H. unfold VariableByteInteger_decode in H.
  case_bool_decide; [done|]. apply bind_Ok_inv in H as ([v' i] & Hloop & H).
  apply vbi_decode_loop_inv in Hloop as (ds & l & tail & -> & Hds & Hl & Hi & Hi4 & Hv & Hmax);
    [|done|lia].
  rewrite Z.mul_1_r, Z.add_0_l in *.
  pose proof (vbi_value_nonneg ds l Hds ltac:(lia)). pose proof (zlen_nonneg ds).
  assert (ds = [] ∨ 0 < l) as Hnz.
  { destruct ds as [|d ds]; [by left|right].
    rewrite zlen_cons in *. pose proof (zlen_nonneg ds).
    replace (1 <? i) with true in H by lia.
    erewrite suffix_at_index_at in H.
    2:{ exists (d :: ds). split; [done|]. zsimp. lia. }
    cbn [mbind result_bind andb] in H. destruct (l =? 0) eqn:?; [done|lia]. }
  assert ((v', i) = (v, n)) as [= -> ->].
  { destruct (1 <? i) eqn:?; simpl in H; [|congruence].
    apply bind_Ok_inv in H as (? & _ & H). simpl in H. by destruct (_ =? 0) in H; simplify_eq. }
  split; [lia|]. split; [lia|]. split; [zlia|].
  replace (ds ++ l :: tail) with ((ds ++ [l]) ++ tail) by by rewrite <- app_assoc.
  replace (Z.to_nat n) with (length (ds ++ [l])).
  2:{ rewrite length_app. simpl. unfold zlen in *. lia. }
  rewrite take_app_length, Hv. rewrite (vbi_encode_eq 4).
  - symmetry. apply vbi_encode_value; [done..|]. unfold zlen in *. lia.
  - lia.
  - simpl. lia.
Qed.

(** ** Safety: the decoders never panic and stay inside the buffer *)
Lemma u16_from_be_u16 b : u8s b → is_u16 (u16_from_be_bytes b).
Proof.
  unfold is_u16. intros Hb. destruct b as [|x [|y [|]]]; simpl; try lia.
  rewrite !u8s_cons in Hb. unfold is_u8 in *. lia.
Qed.
Lemma u32_from_be_u32 b : u8s b → is_u32 (u32_from_be_bytes b).
Proof.
  unfold is_u32. intros Hb. destruct b as [|x [|y [|z [|w [|]]]]]; simpl; try lia.
  rewrite !u8s_cons in Hb. unfold is_u8 in *. lia.
Qed.

Lemma bounded_TwoByteInteger : bounded TwoByteInteger_decode is_u16.
Proof.
  intros b Hb. unfold TwoByteInteger_decode. safe_auto. simpl.
  split; [lia|]. by apply u16_from_be_u16.
Qed.

Lemma bounded_FourByteInteger : bounded FourByteInteger_decode is_u32.
Proof.
  intros b Hb. unfold FourByteInteger_decode. safe_auto. simpl.
  split; [lia|]. by apply u32_from_be_u32.
Qed.

Lemma safe_TwoByteInteger b :
  u8s b → safe (TwoByteInteger_decode b) (λ r, r.2 = 2 ∧ 2 <= zlen b ∧ is_u16 r.1).
Proof.
  intros Hb. unfold TwoByteInteger_decode. safe_auto. simpl.
  split_and!; [done|lia|by apply u16_from_be_u16].
Qed.
#[export] Hint Resolve safe_TwoByteInteger : safe.

Lemma bounded_BinaryData : bounded BinaryData_decode u8s.
Proof.
  intros b Hb. unfold BinaryData_decode, is_u16 in *. safe_step. safe_step.
  unfold is_u16 in *. safe_auto. simpl. split; [lia|done].
Qed.

(** A string read from the wire is valid UTF-8 and has no U+0000. *)
Definition wire_string (s : bytes) : Prop :=
  u8s s ∧ is_string s ∧ contains_char s 0 = false.

Lemma bounded_Utf8String : bounded Utf8String_decode wire_string.
Proof.
  intros b Hb. unfold Utf8String_decode, from_utf8, validate_mqtt_utf8_string, wire_string.
  eapply safe_bind; [by apply bounded_BinaryData|]. intros [d n] [Hn Hd] _. simpl in *.
  destruct (utf8_validate 0 d) as [[]|] eqn:Hu; [done|]. rsimp.
  destruct (contains_char d 0) eqn:Hc; [done|]. simpl. done.
Qed.

Lemma bounded_Utf8StringPair :
  bounded Utf8StringPair_decode (λ p, wire_string p.1 ∧ wire_string p.2).
Proof.
  intros b Hb. unfold Utf8StringPair_decode.
  eapply safe_bind; [by apply bounded_Utf8String|]. intros [k n] [Hn Hk] _. simpl in *.
  safe_step. eapply safe_bind; [by apply bounded_Utf8String|]. intros [v m] [Hm Hv] _.
  simpl in *. split; [lia|done].
Qed.

Lemma vbi_decode_loop_safe unread i mult value :
  u8s unread → 0 <= i <= 3 → mult = 128 ^ i → 0 <= value < mult →
  safe (VariableByteInteger_decode_loop unread i mult value)
    (λ r, 0 <= r.1 <= 268435455 ∧ i + 1 <= r.2 <= 4 ∧ r.2 - i <= zlen unread).
Proof.
  revert i mult value. induction unread as [|b unread IH]; intros i mult value Hb Hi Hm Hv; [done|].
  rewrite u8s_cons in Hb. destruct Hb as [Hb Hu]. unfold is_u8 in Hb.
  cbn [VariableByteInteger_decode_loop].
  destruct ((127 <? b) && (i =? 3)) eqn:Hmsb; [done|].
  assert (0 <= Z.land b 127 < 128) as Hland.
  { change 127 with (Z.ones 7). rewrite Z.land_ones by lia. apply Z.mod_pos_bound. lia. }
  assert (128 ^ i <= 2097152) as Hpow.
  { change 2097152 with (128 ^ 3). apply Z.pow_le_mono_r; lia. }
  replace (268435455 <? _) with false by nia.
  destruct (Z.land b 128 =? 0) eqn:Hfin.
  { simpl. split_and!; [nia|nia|lia|lia|zlia]. }
  assert (i <> 3).
  { intros ->. destruct (vbi_byte_bits b) as (_&_&_&_&E); [lia|]. lia. }
  eapply safe_mono.
  - apply IH; [done|lia| |nia]. rewrite Hm, Z.pow_add_r by lia. lia.
  - intros [v j]. rewrite zlen_cons. simpl. lia.
Qed.

Lemma safe_vbi_decode b :
  u8s b →
  safe (VariableByteInteger_decode b)
    (λ r, 0 <= r.1 <= 268435455 ∧ 1 <= r.2 <= 4 ∧ r.2 <= zlen b).
Proof.
  intros Hb. unfold VariableByteInteger_decode. case_bool_decide; [done|].
  eapply safe_bind; [apply (vbi_decode_loop_safe b 0 1 0); [done|lia|done|lia]|].
  intros [v n] (H1 & H2 & H3) _. simpl in *.
  destruct (1 <? n) eqn:Hn; rsimp.
  - safe_step. destruct (_ =? 0); simpl; [done|lia].
  - simpl. lia.
Qed.

Lemma safe_vbi b :
  u8s b → safe (vbi b) (λ r, 0 <= r.1 <= 268435455 ∧ 1 <= r.2 <= 4 ∧ r.2 <= zlen b).
Proof.
  intros Hb. unfold vbi. eapply safe_bind; [by apply safe_vbi_decode|].
  by intros [v n] H _.
Qed.

Lemma safe_packet_type b :
  u8s b → safe (packet_type b) (λ t, 1 <= zlen b ∧ ∃ x, get_at b 0 = Some x ∧ is_u8 x ∧ t = Z.shiftr x 4).
Proof.
  intros Hb. unfold packet_type. case_bool_decide as Hn; [done|].
  assert (1 <= zlen b) by (destruct b; [done|zlia]).
  safe_step. simpl. split; [done|]. naive_solver.
Qed.

Lemma safe_parse_utf8_string b :
  u8s b → safe (parse_utf8_string b) (λ r, 0 < r.2 <= zlen b ∧ wire_string r.1).
Proof. intros. by apply bounded_Utf8String. Qed.
Lemma safe_parse_binary_data b :
  u8s b → safe (parse_binary_data b) (λ r, 0 < r.2 <= zlen b ∧ u8s r.1).
Proof. intros. by apply bounded_BinaryData. Qed.
Lemma safe_decode_binary_data b :
  u8s b → safe (decode_binary_data b) (λ r, 0 < r.2 <= zlen b ∧ u8s r.1).
Proof. intros. by apply bounded_BinaryData. Qed.
Lemma safe_parse_packet_id b :
  u8s b → safe (parse_packet_id b) (λ r, r.2 = 2 ∧ 2 <= zlen b ∧ is_u16 r.1).
Proof. apply safe_TwoByteInteger. Qed.
Lemma safe_parse_remaining_length b :
  u8s b → safe (parse_remaining_length b)
    (λ r, 0 <= r.1 <= 268435455 ∧ 1 <= r.2 <= 4 ∧ r.2 <= zlen b).
Proof. apply safe_vbi. Qed.
Lemma safe_parse_vbi b :
  u8s b → safe (parse_vbi b) (λ r, 0 <= r.1 <= 268435455 ∧ 1 <= r.2 <= 4 ∧ r.2 <= zlen b).
Proof. apply safe_vbi. Qed.

#[export] Hint Resolve safe_packet_type safe_parse_utf8_string safe_parse_binary_data
  safe_decode_binary_data safe_parse_packet_id safe_parse_remaining_length safe_parse_vbi : safe.

(** The first byte a decoder of a fixed header looks at. *)
Lemma get_at_0 x b : get_at (x :: b) 0 = Some x.
Proof. unfold get_at. by replace ((0 <=? 0) && (0 <? zlen (x :: b))) with true by zlia. Qed.

Lemma packet_type_cons x b : packet_type (x :: b) = Ok (Z.shiftr x 4).
Proof.
  unfold packet_type. rewrite bool_decide_eq_false_2 by done.
  unfold index_at. by rewrite get_at_0.
Qed.

Lemma parse_remaining_length_encode v rest :
  0 <= v <= 268435455 →
  parse_remaining_length (VariableByteInteger_encode v ++ rest)
  = Ok (v, zlen (VariableByteInteger_encode v)).
Proof.
  intros Hv. unfold parse_remaining_length, vbi.
  by rewrite VariableByteInteger_roundtrip.
Qed.

(** ** Theorems *)

(** Variable byte integers round trip.  Every value the protocol allows is decoded from its
    encoding, whatever follows, with exactly the encoded bytes consumed; the encoding takes one
    to four bytes, the number [encoded_len] computes. *)
Theorem vbi_roundtrip v rest :
  0 <= v <= 268435455 →
  VariableByteInteger_decode (VariableByteInteger_encode v ++ rest)
    = Ok (v, VariableByteInteger_encoded_len v) ∧
  1 <= VariableByteInteger_encoded_len v <= 4.
Proof.
  intros Hv. rewrite <- zlen_vbi_encode by (unfold is_u32; lia).
  split; [by apply VariableByteInteger_roundtrip|by apply vbi_encode_bound].
Qed.

Lemma vbi_roundtrip_witness :
  VariableByteInteger_decode (VariableByteInteger_encode 16384 ++ [7])
    = Ok (16384, VariableByteInteger_encoded_len 16384) ∧
  1 <= VariableByteInteger_encoded_len 16384 <= 4.
Proof. apply (vbi_roundtrip 16384 [7]). lia. Defined.

(** The decoder of variable byte integers accepts canonical encodings only: whatever it
    accepts is, byte for byte, the encoder's output for the value it returns (so overlong forms
    are rejected), of at most four bytes. *)
Theorem vbi_decode_canonical b v n :
  u8s b → VariableByteInteger_decode b = Ok (v, n) →
  0 <= v <= 268435455 ∧ 1 <= n <= 4 ∧ take (Z.to_nat n) b = VariableByteInteger_encode v.
Proof. intros Hb H. destruct (VariableByteInteger_decode_canonical b v n Hb H) as (?&?&?&?). done. Qed.

Lemma vbi_decode_canonical_witness :
  0 <= 321 <= 268435455 ∧ 1 <= 2 <= 4 ∧ take (Z.to_nat 2) [193; 2; 9] = VariableByteInteger_encode 321.
Proof. apply (vbi_decode_canonical [193; 2; 9] 321 2); [u8s_lit|reflexivity]. Defined.

(** The base decoders are total.  On every byte sequence each returns a value or an error,
    never a panic, and a returned length is positive and within the buffer. *)
Theorem base_decoders_bounded :
  bounded TwoByteInteger_decode is_u16 ∧ bounded FourByteInteger_decode is_u32 ∧
  bounded VariableByteInteger_decode (λ v, 0 <= v <= 268435455) ∧
  bounded BinaryData_decode u8s ∧ bounded Utf8String_decode wire_string ∧
  bounded Utf8StringPair_decode (λ p, wire_string p.1 ∧ wire_string p.2).
Proof.
  split_and!; [apply bounded_TwoByteInteger|apply bounded_FourByteInteger| |
    apply bounded_BinaryData|apply bounded_Utf8String|apply bounded_Utf8StringPair].
  intros b Hb. eapply safe_mono; [by apply safe_vbi_decode|]. intros [v n]; simpl. lia.
Qed.
