(* ===== verification/TopicFilter.v ===== *)
(** * Topic filters and shared subscriptions

    Models [validate_topic_filter] and [validate_shared_subscription] of
    [src/mqtt_serde/mod.rs], and proves that the level-by-level scan decides the wildcard rules
    of MQTT: a level with [#] is exactly ["#"] and the last one, a level with [+] is exactly
    ["+"]. *)
From S2P Require Import Prelude BaseData.

(** ASCII codes the scan looks for. *)
Definition SLASH : Z := 47.
Definition HASH : Z := 35.
Definition PLUS : Z := 43.

(** The [while let Some(level)] loop, with its one-level lookahead. *)
Fixpoint validate_filter_levels (levels : list bytes) : res () :=
  match levels with
  | [] => Ok ()
  | level :: next =>
      let is_last := bool_decide (next = []) in
      _ ← (if contains_char level HASH then
             if negb (bytes_eqb level (str "#")) then
               Err (ParseErr
                 "Multi-level wildcard (#) must be the only character in topic level")
             else if negb is_last then
               Err (ParseErr
                 "Multi-level wildcard (#) must be the last level in topic filter")
             else Ok ()
           else Ok ());
      _ ← (if contains_char level PLUS then
             if negb (bytes_eqb level (str "+")) then
               Err (ParseErr
                 "Single-level wildcard (+) must be the only character in topic level")
             else Ok ()
           else Ok ());
      validate_filter_levels next
  end.

Definition validate_topic_filter (topic_filter : bytes) : res () :=
  _ ← validate_mqtt_utf8_string topic_filter;
  if bool_decide (topic_filter = []) then
    Err (ParseErr "Topic filter cannot be empty")
  else if 65535 <? zlen topic_filter then Err StringTooLong
  else validate_filter_levels (split_on SLASH topic_filter).

(** [s.split_once(c)] and [s.splitn(n, c)]. *)
Fixpoint split_once (c : Z) (s : bytes) : option (bytes * bytes) :=
  match s with
  | [] => None
  | d :: s' =>
      if d =? c then Some ([], s')
      else match split_once c s' with
           | Some (a, r) => Some (d :: a, r)
           | None => None
           end
  end.

Fixpoint splitn (n : nat) (c : Z) (s : bytes) : list bytes :=
  match n with
  | O => []
  | S O => [s]
  | S n' =>
      match split_once c s with
      | None => [s]
      | Some (a, r) => a :: splitn n' c r
      end
  end.

Definition shared_format_error : ParseError :=
  ParseErr "Invalid shared subscription format: must be $share/ShareName/TopicFilter".

Definition validate_shared_subscription (topic_filter : bytes) : res () :=
  if starts_with topic_filter (str "$share/") then
    let parts := splitn 3 SLASH topic_filter in
    share_name ← ok_or (parts !! 1%nat) shared_format_error;
    actual_topic_filter ← ok_or (parts !! 2%nat) shared_format_error;
    if bool_decide (share_name = []) || contains_char share_name PLUS
       || contains_char share_name HASH then
      Err (ParseErr "Shared subscription ShareName cannot be empty or contain wildcards")
    else if bool_decide (actual_topic_filter = []) then
      Err (ParseErr "Shared subscription TopicFilter cannot be empty")
    else
      _ ← validate_topic_filter actual_topic_filter;
      Ok ()
  else Ok ().

(** ** The wildcard rules, declaratively *)
Definition level_ok (is_last : Prop) (level : bytes) : Prop :=
  (HASH ∈ level → level = str "#" ∧ is_last) ∧ (PLUS ∈ level → level = str "+").

Definition levels_ok (levels : list bytes) : Prop :=
  ∀ i level, levels !! i = Some level → level_ok (S i = length levels) level.

Definition topic_filter_ok (s : bytes) : Prop :=
  s ≠ [] ∧ 0 ∉ s ∧ zlen s <= 65535 ∧ levels_ok (split_on SLASH s).

Lemma contains_char_true s c : contains_char s c = true ↔ c ∈ s.
Proof.
  pose proof (existsb_false_not_in c s). destruct (contains_char s c); split; try done.
  - intros _. destruct (decide (c ∈ s)); [done|naive_solver].
  - intros Hc. exfalso. naive_solver.
Qed.

Lemma contains_char_spec s c : contains_char s c = bool_decide (c ∈ s).
Proof.
  destruct (contains_char s c) eqn:H; symmetry.
  - by apply bool_decide_eq_true, contains_char_true.
  - by apply bool_decide_eq_false, existsb_false_not_in.
Qed.

Lemma levels_ok_cons level next :
  levels_ok (level :: next) ↔ level_ok (next = []) level ∧ levels_ok next.
Proof.
  unfold levels_ok. split.
  - intros H. split.
    + destruct (H O level eq_refl) as [H1 H2]. split; [|done].
      intros Hc. destruct (H1 Hc) as [? Hl]. split; [done|].
      destruct next; [done|simpl in Hl; lia].
    + intros i l Hl. destruct (H (S i) l Hl) as [H1 H2]. split; [|done].
      intros Hc. destruct (H1 Hc). simpl in *. split; [done|lia].
  - intros [[H1 H2] H3] [|i] l Hl; simpl in Hl.
    + injection Hl as <-. split; [|done]. intros Hc. destruct (H1 Hc) as [? ->]. done.
    + destruct (H3 i l Hl) as [H4 H5]. split; [|done].
      intros Hc. destruct (H4 Hc). simpl. split; [done|lia].
Qed.

Lemma validate_filter_levels_spec levels :
  validate_filter_levels levels = Ok () ↔ levels_ok levels.
Proof.
  induction levels as [|level next IH].
  { split; [by intros _ i l|done]. }
  rewrite levels_ok_cons, <- IH. unfold level_ok. cbn [validate_filter_levels].
  rewrite !contains_char_spec. unfold bytes_eqb.
  repeat (case_bool_decide; rsimp); naive_solver.
Qed.

Lemma validate_topic_filter_spec s :
  validate_topic_filter s = Ok () ↔ topic_filter_ok s.
Proof.
  unfold validate_topic_filter, validate_mqtt_utf8_string, topic_filter_ok.
  rewrite <- validate_filter_levels_spec, contains_char_spec.
  repeat (case_bool_decide; rsimp); [naive_solver..|].
  destruct (Z.ltb_spec 65535 (zlen s)); naive_solver lia.
Qed.

Lemma validate_topic_filter_no_panic s : validate_topic_filter s ≠ Panic.
Proof.
  unfold validate_topic_filter, validate_mqtt_utf8_string.
  destruct (contains_char s 0); [done|]. rsimp. case_bool_decide; [done|].
  destruct (_ <? _); [done|]. clear.
  induction (split_on SLASH s) as [|level next IH]; [done|].
  cbn [validate_filter_levels].
  repeat (case_match; rsimp); done.
Qed.

Lemma safe_validate_topic_filter s : safe (validate_topic_filter s) (λ _, topic_filter_ok s).
Proof.
  pose proof (validate_topic_filter_no_panic s).
  destruct (validate_topic_filter s) as [[]|e|] eqn:E; [|done|done].
  by apply validate_topic_filter_spec.
Qed.

Lemma safe_validate_shared_subscription s : safe (validate_shared_subscription s) (λ _, True).
Proof.
  unfold validate_shared_subscription. destruct (starts_with _ _); [|done].
  eapply safe_bind; [apply safe_ok_or|]. intros share _ _.
  eapply safe_bind; [apply safe_ok_or|]. intros actual _ _.
  destruct (_ || _); [done|]. case_bool_decide; [done|].
  eapply safe_bind; [apply safe_validate_topic_filter|]. done.
Qed.
#[export] Hint Resolve safe_validate_topic_filter safe_validate_shared_subscription : safe.

Lemma topic_filter_ok_len s : topic_filter_ok s → zlen s <= u16_MAX ∧ contains_char s 0 = false.
Proof.
  intros (_ & Hn & Hl & _). split; [unfold u16_MAX; lia|].
  by apply existsb_false_not_in.
Qed.

Example validate_topic_filter_ex1 : validate_topic_filter (str "home/+/#") = Ok ().
Proof. reflexivity. Qed.
Example validate_topic_filter_ex2 : validate_topic_filter (str "home/#/x") ≠ Ok ().
Proof. discriminate. Qed.
Example validate_shared_ex1 : validate_shared_subscription (str "$share/g/a/b") = Ok ().
Proof. reflexivity. Qed.
Example validate_shared_ex2 : validate_shared_subscription (str "$share/group1") ≠ Ok ().
Proof. discriminate. Qed.

(** ** Theorems *)

(** [validate_topic_filter] decides the protocol's topic filter grammar (MQTT 4.7.1): it
    accepts exactly the filters [topic_filter_ok] describes, in which a multi-level wildcard is
    a whole level and the last one, and a single-level wildcard is a whole level. *)
Theorem topic_filter_decided s : validate_topic_filter s = Ok () ↔ topic_filter_ok s.
Proof. apply validate_topic_filter_spec. Qed.
