(* ===== verification/Validation.v ===== *)
(** * Protocol validation

    Models the [Property] type of [src/mqtt_serde/mqttv5/common/properties.rs], the packet kinds
    of [src/mqtt_serde/control_packet.rs] and the whole of [src/mqtt_serde/validation.rs]
    (the checks of the [strict-protocol-compliance] feature, on by default).  Proves that the
    bit-mask duplicate check of [validation::properties] decides the declarative rule: only
    allowed properties, no repeated singleton, every value in range. *)
From S2P Require Import Prelude BaseData TopicFilter.

(** ** [ControlPacketType] *)
Inductive ControlPacketType : Type :=
  | CONNECT | CONNACK | PUBLISH | PUBACK | PUBREC | PUBREL | PUBCOMP | SUBSCRIBE | SUBACK
  | UNSUBSCRIBE | UNSUBACK | PINGREQ | PINGRESP | DISCONNECT | AUTH.

#[export] Instance ControlPacketType_eq_dec : EqDecision ControlPacketType.
Proof. solve_decision. Defined.

(** [t as u8] *)
Definition ControlPacketType_as_u8 (t : ControlPacketType) : Z :=
  match t with
  | CONNECT => 1 | CONNACK => 2 | PUBLISH => 3 | PUBACK => 4 | PUBREC => 5 | PUBREL => 6
  | PUBCOMP => 7 | SUBSCRIBE => 8 | SUBACK => 9 | UNSUBSCRIBE => 10 | UNSUBACK => 11
  | PINGREQ => 12 | PINGRESP => 13 | DISCONNECT => 14 | AUTH => 15
  end.

Definition ControlPacketType_try_from (value : Z) : res ControlPacketType :=
  match value with
  | 1 => Ok CONNECT | 2 => Ok CONNACK | 3 => Ok PUBLISH | 4 => Ok PUBACK | 5 => Ok PUBREC
  | 6 => Ok PUBREL | 7 => Ok PUBCOMP | 8 => Ok SUBSCRIBE | 9 => Ok SUBACK
  | 10 => Ok UNSUBSCRIBE | 11 => Ok UNSUBACK | 12 => Ok PINGREQ | 13 => Ok PINGRESP
  | 14 => Ok DISCONNECT | 15 => Ok AUTH
  | _ => Err InvalidPacketType
  end.

Definition ControlPacketType_from_first_byte (byte : Z) : res (ControlPacketType * Z) :=
  pkt_type ← ControlPacketType_try_from (Z.shiftr byte 4);
  let flags := Z.land byte 15 in
  Ok (pkt_type, flags).

(** ** [Property] *)
Inductive Property : Type :=
  | PayloadFormatIndicator (v : Z)
  | MessageExpiryInterval (v : Z)
  | ContentType (v : bytes)
  | ResponseTopic (v : bytes)
  | CorrelationData (v : bytes)
  | SubscriptionIdentifier (v : Z)
  | SessionExpiryInterval (v : Z)
  | AssignedClientIdentifier (v : bytes)
  | ServerKeepAlive (v : Z)
  | AuthenticationMethod (v : bytes)
  | AuthenticationData (v : bytes)
  | RequestProblemInformation (v : Z)
  | WillDelayInterval (v : Z)
  | RequestResponseInformation (v : Z)
  | ResponseInformation (v : bytes)
  | ServerReference (v : bytes)
  | ReasonString (v : bytes)
  | ReceiveMaximum (v : Z)
  | TopicAliasMaximum (v : Z)
  | TopicAlias (v : Z)
  | MaximumQoS (v : Z)
  | RetainAvailable (v : Z)
  | UserProperty (k v : bytes)
  | MaximumPacketSize (v : Z)
  | WildcardSubscriptionAvailable (v : Z)
  | SubscriptionIdentifierAvailable (v : Z)
  | SharedSubscriptionAvailable (v : Z).

#[export] Instance Property_eq_dec : EqDecision Property.
Proof. solve_decision. Defined.

(** The types of the fields: what the Rust types guarantee of every [Property] value. *)
Definition wf_property (p : Property) : Prop :=
  match p with
    | PayloadFormatIndicator v | RequestProblemInformation v | RequestResponseInformation v |
      MaximumQoS v | RetainAvailable v | WildcardSubscriptionAvailable v |
      SubscriptionIdentifierAvailable v | SharedSubscriptionAvailable v => is_u8 v
    | ServerKeepAlive v | ReceiveMaximum v | TopicAliasMaximum v | TopicAlias v => is_u16 v
    | MessageExpiryInterval v | SubscriptionIdentifier v | SessionExpiryInterval v |
      WillDelayInterval v | MaximumPacketSize v => is_u32 v
    | ContentType v | ResponseTopic v | AssignedClientIdentifier v | AuthenticationMethod v |
      ResponseInformation v | ServerReference v | ReasonString v => u8s v ∧ is_string v
    | CorrelationData v | AuthenticationData v => u8s v
    | UserProperty k v => u8s k ∧ is_string k ∧ u8s v ∧ is_string v
  end.

(** ** [validation.rs] *)
Definition validation_require (valid : bool) (message : string) : res () :=
  if valid then Ok () else Err (ParseErr message).

Definition validation_string (value : bytes) : res () :=
  if u16_MAX <? zlen value then Err StringTooLong
  else validate_mqtt_utf8_string value.

Definition validation_topic (value : bytes) : res () :=
  _ ← validation_string value;
  _ ← validation_require (negb (bool_decide (value = []))) "Topic name cannot be empty";
  validation_require (negb (contains_char value PLUS || contains_char value HASH))
    "Topic name cannot contain wildcards".

Definition validation_packet_id (value : Z) : res () :=
  validation_require (negb (value =? 0)) "Packet identifier cannot be zero".

Definition validation_publish (qos : Z) (dup : bool) (id : option Z) : res () :=
  _ ← validation_require (qos <=? 2) "PUBLISH QoS cannot exceed 2";
  _ ← validation_require (negb (qos =? 0) || negb dup) "PUBLISH DUP must be zero for QoS 0";
  if 0 <? qos then
    id ← ok_or id (ParseErr "Missing packet identifier");
    validation_packet_id id
  else Ok ().

Definition validation_connect_flags (flags : Z) : res () :=
  _ ← validation_require (Z.land flags 1 =? 0) "CONNECT reserved flag must be zero";
  _ ← validation_require (negb (Z.land (Z.shiftr flags 3) 3 =? 3)) "Will QoS cannot exceed 2";
  validation_require (negb (Z.land flags 4 =? 0) || (Z.land flags 56 =? 0))
    "Will QoS and RETAIN require the Will flag".

Definition validation_fixed_header (byte : Z) : res () :=
  let kind := Z.shiftr byte 4 in
  let flags := Z.land byte 15 in
  let valid :=
    if kind =? 3 then
      let qos := Z.land (Z.shiftr flags 1) 3 in
      (qos <=? 2) && (negb (qos =? 0) || (Z.land flags 8 =? 0))
    else if (kind =? 6) || (kind =? 8) || (kind =? 10) then flags =? 2
    else if (1 <=? kind) && (kind <=? 15) then flags =? 0
    else false in
  validation_require valid "Invalid MQTT fixed header flags".

Inductive PropertyContext : Type :=
  | CtxConnect | CtxConnAck | CtxPublish | CtxWill | CtxSubscribe | CtxUnsubscribe | CtxAck
  | CtxDisconnect | CtxAuth.

#[export] Instance PropertyContext_eq_dec : EqDecision PropertyContext.
Proof. solve_decision. Defined.

Definition validation_property_value (property : Property) : res () :=
  match property with
  | PayloadFormatIndicator v | RequestProblemInformation v | RequestResponseInformation v
  | MaximumQoS v | RetainAvailable v | WildcardSubscriptionAvailable v
  | SubscriptionIdentifierAvailable v | SharedSubscriptionAvailable v =>
      validation_require (v <=? 1) "Property value must be 0 or 1"
  | ReceiveMaximum v | TopicAlias v =>
      validation_require (negb (v =? 0)) "Property value cannot be zero"
  | MaximumPacketSize v =>
      validation_require (negb (v =? 0)) "Maximum Packet Size cannot be zero"
  | SubscriptionIdentifier v =>
      validation_require ((1 <=? v) && (v <=? 268435455)) "Invalid Subscription Identifier"
  | ResponseTopic v => validation_topic v
  | AssignedClientIdentifier v =>
      _ ← validation_string v;
      validation_require (negb (bool_decide (v = [])))
        "Assigned Client Identifier cannot be empty"
  | ContentType v | AuthenticationMethod v | ResponseInformation v | ServerReference v
  | ReasonString v => validation_string v
  | UserProperty k v =>
      _ ← validation_string k;
      validation_string v
  | CorrelationData v | AuthenticationData v =>
      if u16_MAX <? zlen v then Err StringTooLong else Ok ()
  | _ => Ok ()
  end.

(** The [(id, allowed)] table of [validation::properties]. *)
Definition property_rule (context : PropertyContext) (property : Property) : Z * bool :=
  match property with
    | PayloadFormatIndicator _ => (1, match context with CtxPublish | CtxWill => true | _ =>
      false end)
    | MessageExpiryInterval _ => (2, match context with CtxPublish | CtxWill => true | _ =>
      false end)
    | ContentType _ => (3, match context with CtxPublish | CtxWill => true | _ => false end)
    | ResponseTopic _ => (8, match context with CtxPublish | CtxWill => true | _ => false end)
    | CorrelationData _ => (9, match context with CtxPublish | CtxWill => true | _ => false end)
    | SubscriptionIdentifier _ => (11, match context with CtxPublish | CtxSubscribe => true | _
      => false end)
    | SessionExpiryInterval _ => (17, match context with CtxConnect | CtxConnAck | CtxDisconnect
      => true | _ => false end)
    | AssignedClientIdentifier _ => (18, match context with CtxConnAck => true | _ => false end)
    | ServerKeepAlive _ => (19, match context with CtxConnAck => true | _ => false end)
    | AuthenticationMethod _ => (21, match context with CtxConnect | CtxConnAck | CtxAuth =>
      true | _ => false end)
    | AuthenticationData _ => (22, match context with CtxConnect | CtxConnAck | CtxAuth => true
      | _ => false end)
    | RequestProblemInformation _ => (23, match context with CtxConnect => true | _ => false
      end)
    | WillDelayInterval _ => (24, match context with CtxWill => true | _ => false end)
    | RequestResponseInformation _ => (25, match context with CtxConnect => true | _ => false
      end)
    | ResponseInformation _ => (26, match context with CtxConnAck => true | _ => false end)
    | ServerReference _ => (28, match context with CtxConnAck | CtxDisconnect => true | _ =>
      false end)
    | ReasonString _ => (31, match context with CtxConnAck | CtxAck | CtxDisconnect | CtxAuth =>
      true | _ => false end)
    | ReceiveMaximum _ => (33, match context with CtxConnect | CtxConnAck => true | _ => false
      end)
    | TopicAliasMaximum _ => (34, match context with CtxConnect | CtxConnAck => true | _ =>
      false end)
    | TopicAlias _ => (35, match context with CtxPublish => true | _ => false end)
    | MaximumQoS _ => (36, match context with CtxConnAck => true | _ => false end)
    | RetainAvailable _ => (37, match context with CtxConnAck => true | _ => false end)
    | UserProperty _ _ => (38, true)
    | MaximumPacketSize _ => (39, match context with CtxConnect | CtxConnAck => true | _ =>
      false end)
    | WildcardSubscriptionAvailable _ => (40, match context with CtxConnAck => true | _ => false
      end)
    | SubscriptionIdentifierAvailable _ => (41, match context with CtxConnAck => true | _ =>
      false end)
    | SharedSubscriptionAvailable _ => (42, match context with CtxConnAck => true | _ => false
      end)
  end.

(** The loop over the properties, with the bit mask [seen] of the identifiers met so far. *)
Fixpoint validation_properties_loop (context : PropertyContext) (properties : list Property)
    (seen : Z) : res Z :=
  match properties with
  | [] => Ok seen
  | property :: rest =>
      let '(id, allowed) := property_rule context property in
      _ ← validation_require allowed "Property is not allowed in this packet";
      let repeatable := (id =? 38) || ((id =? 11) && bool_decide (context = CtxPublish)) in
      _ ← validation_require (repeatable || (Z.land seen (Z.shiftl 1 id) =? 0))
            "Duplicate singleton property";
      let seen := Z.lor seen (Z.shiftl 1 id) in
      _ ← validation_property_value property;
      validation_properties_loop context rest seen
  end.

Definition validation_properties (properties : list Property) (context : PropertyContext)
    : res () :=
  seen ← validation_properties_loop context properties 0;
  if bool_decide (context = CtxConnect) then
    validation_require
      ((Z.land seen (Z.shiftl 1 22) =? 0) || negb (Z.land seen (Z.shiftl 1 21) =? 0))
      "CONNECT Authentication Data requires Authentication Method"
  else Ok ().

Definition validation_reason (kind : ControlPacketType) (code : Z) : res () :=
  let allowed : bytes :=
    match kind with
    | CONNACK => [0; 128; 129; 130; 131; 132; 133; 134; 135; 136; 137; 138; 140; 144; 149; 151;
                  153; 154; 155; 156; 157; 159]
    | PUBACK | PUBREC => [0; 16; 128; 131; 135; 144; 145; 151; 153]
    | PUBREL | PUBCOMP => [0; 146]
    | SUBACK => [0; 1; 2; 128; 131; 135; 143; 145; 151; 158; 161; 162]
    | UNSUBACK => [0; 17; 128; 131; 135; 143; 145]
    | DISCONNECT => [0; 4; 128; 129; 130; 131; 135; 137; 139; 141; 142; 143; 144; 147; 148; 149;
                     150; 151; 152; 153; 154; 155; 156; 157; 158; 159; 160; 161; 162]
    | AUTH => [0; 24; 25]
    | _ => []
    end in
  validation_require (existsb (Z.eqb code) allowed) "Invalid reason code for packet type".

(** ** No check panics, and what each one establishes *)
Lemma validation_require_Ok b m : validation_require b m = Ok () ↔ b = true.
Proof. unfold validation_require. destruct b; naive_solver. Qed.

Lemma safe_require b m : safe (validation_require b m) (λ _, b = true).
Proof. unfold validation_require. by destruct b. Qed.
#[export] Hint Resolve safe_require : safe.

Lemma validation_string_Ok v :
  validation_string v = Ok () ↔ zlen v <= u16_MAX ∧ contains_char v 0 = false.
Proof.
  unfold validation_string, validate_mqtt_utf8_string, u16_MAX.
  destruct (Z.ltb_spec 65535 (zlen v)); [split; [done|lia]|].
  destruct (contains_char v 0); naive_solver.
Qed.

Lemma safe_string v :
  safe (validation_string v) (λ _, zlen v <= u16_MAX ∧ contains_char v 0 = false).
Proof.
  destruct (validation_string v) as [[]| |] eqn:E; [by apply validation_string_Ok|done|].
  unfold validation_string, validate_mqtt_utf8_string in E. by repeat case_match.
Qed.
#[export] Hint Resolve safe_string : safe.

(** What [validation_topic] establishes of a topic name. *)
Definition topic_name_ok (v : bytes) : Prop :=
  zlen v <= u16_MAX ∧ contains_char v 0 = false ∧ v ≠ [] ∧ PLUS ∉ v ∧ HASH ∉ v.

Lemma validation_topic_Ok v : validation_topic v = Ok () ↔ topic_name_ok v.
Proof.
  unfold validation_topic, topic_name_ok. rewrite !contains_char_spec. split.
  - intros H. res_inv. apply validation_string_Ok in H0 as [? Hc].
    rewrite contains_char_spec in Hc.
    rewrite !validation_require_Ok in *. repeat case_bool_decide; naive_solver.
  - intros (H1 & H2 & H3 & H4 & H5).
    rewrite (proj2 (validation_string_Ok v)) by (by rewrite contains_char_spec).
    rsimp. rewrite (bool_decide_eq_false_2 _ H3), (bool_decide_eq_false_2 _ H4),
      (bool_decide_eq_false_2 _ H5). done.
Qed.

Lemma safe_topic v : safe (validation_topic v) (λ _, topic_name_ok v).
Proof.
  destruct (validation_topic v) as [[]| |] eqn:E; [by apply validation_topic_Ok|done|].
  exfalso. revert E. apply (safe_no_panic _ (λ _, True)). unfold validation_topic.
  repeat safe_step. eapply safe_mono; [apply safe_require|done].
Qed.
#[export] Hint Resolve safe_topic : safe.

Lemma safe_publish qos dup id :
  safe (validation_publish qos dup id)
    (λ _, qos <= 2 ∧ (qos = 0 → dup = false) ∧ (0 < qos → ∃ i, id = Some i ∧ i <> 0)).
Proof.
  unfold validation_publish, validation_packet_id. safe_step. safe_step.
  destruct (Z.ltb_spec 0 qos).
  - destruct id as [i|]; [|done]. rsimp. eapply safe_mono; [apply safe_require|].
    intros [] Hi; simpl in Hi. simpl. split_and!; [lia|lia|]. intros _. exists i. split; [done|lia].
  - simpl. split_and!; [lia| |lia]. intros ->. by destruct dup.
Qed.

Lemma safe_packet_id v : safe (validation_packet_id v) (λ _, v <> 0).
Proof. eapply safe_mono; [apply safe_require|]. simpl. lia. Qed.
Lemma safe_reason k c : safe (validation_reason k c) (λ _, True).
Proof. eapply safe_mono; [apply safe_require|done]. Qed.
Lemma safe_fixed_header b : safe (validation_fixed_header b) (λ _, True).
Proof. eapply safe_mono; [apply safe_require|done]. Qed.
Lemma safe_connect_flags b :
  safe (validation_connect_flags b) (λ _, Z.land b 1 = 0 ∧ Z.land (Z.shiftr b 3) 3 ≠ 3).
Proof.
  unfold validation_connect_flags. repeat safe_step.
  eapply safe_mono; [apply safe_require|]. simpl. lia.
Qed.
#[export] Hint Resolve safe_publish safe_packet_id safe_reason safe_fixed_header
  safe_connect_flags : safe.

Lemma safe_property_value p : safe (validation_property_value p) (λ _, True).
Proof.
  destruct p; simpl; try done;
    repeat (first [exact I | safe_step
      | eapply safe_mono; [solve [eauto with safe]|done] | simpl]).
Qed.
#[export] Hint Resolve safe_property_value : safe.

(** ** [validation::properties]: the bit mask decides the declarative rule *)
Definition property_id_of (p : Property) : Z := (property_rule CtxConnect p).1.
Definition property_allowed (context : PropertyContext) (p : Property) : bool :=
  (property_rule context p).2.
Definition property_repeatable (context : PropertyContext) (id : Z) : bool :=
  (id =? 38) || ((id =? 11) && bool_decide (context = CtxPublish)).

(** The identifiers that may occur only once. *)
Definition singleton_ids (context : PropertyContext) (ps : list Property) : list Z :=
  filter (λ id, property_repeatable context id = false) (property_id_of <$> ps).

Definition properties_ok (context : PropertyContext) (ps : list Property) : Prop :=
  Forall (λ p, property_allowed context p = true ∧ validation_property_value p = Ok ()) ps ∧
  NoDup (singleton_ids context ps) ∧
  (context = CtxConnect → 22 ∈ (property_id_of <$> ps) → 21 ∈ (property_id_of <$> ps)).

Lemma property_rule_id context p : (property_rule context p).1 = property_id_of p.
Proof. by destruct p. Qed.
Lemma property_id_nonneg p : 0 <= property_id_of p.
Proof. by destruct p. Qed.

Lemma mask_testbit seen id :
  0 <= id → (Z.land seen (Z.shiftl 1 id) =? 0) = negb (Z.testbit seen id).
Proof.
  intros Hid. rewrite Z.shiftl_1_l.
  destruct (Z.testbit seen id) eqn:Hb; simpl.
  - apply Z.eqb_neq. intros H. apply (f_equal (λ z, Z.testbit z id)) in H.
    rewrite Z.land_spec, Hb, Z.pow2_bits_true, Z.bits_0 in H by lia. done.
  - apply Z.eqb_eq. apply Z.bits_inj'. intros n Hn.
    rewrite Z.land_spec, Z.bits_0. destruct (Z.eq_dec n id) as [->|Hne].
    + by rewrite Hb.
    + rewrite Z.pow2_bits_false by lia. apply andb_false_r.
Qed.

Lemma mask_set_testbit seen id j :
  0 <= id → 0 <= j →
  Z.testbit (Z.lor seen (Z.shiftl 1 id)) j = Z.testbit seen j || (id =? j).
Proof. intros. by rewrite Z.lor_spec, Z.shiftl_1_l, Z.pow2_bits_eqb. Qed.

Lemma properties_loop_seen context ps seen seen' :
  validation_properties_loop context ps seen = Ok seen' →
  ∀ j, 0 <= j →
    Z.testbit seen' j = Z.testbit seen j || bool_decide (j ∈ property_id_of <$> ps).
Proof.
  revert seen. induction ps as [|p ps IH]; intros seen H j Hj; simpl in H.
  { injection H as <-. rewrite bool_decide_eq_false_2 by set_solver.
    by rewrite orb_false_r. }
  destruct (property_rule context p) as [id allowed] eqn:Hr. res_inv.
  rewrite (IH _ H j Hj). pose proof (property_rule_id context p) as Hid.
  rewrite Hr in Hid. simpl in Hid. subst id.
  rewrite mask_set_testbit by (done || apply property_id_nonneg).
  rewrite <- orb_assoc. f_equal. rewrite fmap_cons.
  destruct (Z.eqb_spec (property_id_of p) j); repeat case_bool_decide; set_solver.
Qed.

Lemma singleton_ids_elem context ps id :
  id ∈ singleton_ids context ps → 0 <= id ∧ property_repeatable context id = false.
Proof.
  unfold singleton_ids. rewrite list_elem_of_filter, list_elem_of_fmap.
  intros (Hr & p & -> & _). split; [apply property_id_nonneg|done].
Qed.

Lemma properties_loop_spec context ps seen :
  (∃ seen', validation_properties_loop context ps seen = Ok seen') ↔
  Forall (λ p, property_allowed context p = true ∧ validation_property_value p = Ok ()) ps ∧
  NoDup (singleton_ids context ps) ∧
  (∀ id, id ∈ singleton_ids context ps → Z.testbit seen id = false).
Proof.
  revert seen. induction ps as [|p ps IH]; intros seen.
  { simpl. split; [|eauto]. intros _. split_and!; [constructor|constructor|set_solver]. }
  cbn [validation_properties_loop]. unfold validation_require. rewrite Forall_cons_iff.
  unfold singleton_ids. rewrite fmap_cons, filter_cons. fold (singleton_ids context ps).
  pose proof (property_rule_id context p) as Hid. pose proof (property_id_nonneg p) as Hnn.
  unfold property_allowed at 1. destruct (property_rule context p) as [id allowed].
  simpl in Hid. subst id. cbn [snd].
  fold (property_repeatable context (property_id_of p)). rewrite mask_testbit by done.
  assert (∀ id, id ∈ singleton_ids context ps →
    Z.testbit (Z.lor seen (Z.shiftl 1 (property_id_of p))) id
    = Z.testbit seen id || (property_id_of p =? id)) as Hset.
  { intros id [? _]%singleton_ids_elem. by apply mask_set_testbit. }
  destruct allowed; rsimp; [|naive_solver].
  destruct (property_repeatable context (property_id_of p)) eqn:Hrep.
  - rewrite decide_False by done. rsimp.
    destruct (validation_property_value p) as [[]| |]; rsimp; [|naive_solver..].
    rewrite IH. assert (∀ id, id ∈ singleton_ids context ps → (property_id_of p =? id) = false)
      as Hne.
    { intros id [_ Hr]%singleton_ids_elem. apply Z.eqb_neq. congruence. }
    split; intros (H1 & H2 & H3).
    + split_and!; [done..|]. intros id Hin. specialize (H3 id Hin).
      rewrite Hset, Hne, orb_false_r in H3 by done. done.
    + split_and!; [naive_solver|done|]. intros id Hin.
      rewrite Hset, Hne, orb_false_r by done. auto.
  - rewrite decide_True by done. rsimp. rewrite NoDup_cons.
    destruct (Z.testbit seen (property_id_of p)) eqn:Hbit; rsimp.
    { split; [naive_solver|]. intros (_ & _ & H).
      rewrite (H (property_id_of p)) in Hbit by set_solver. done. }
    destruct (validation_property_value p) as [[]| |]; rsimp; [|naive_solver..].
    rewrite IH. split.
    + intros (H1 & H2 & H3). split_and!; [done..| |done|].
      * intros Hin. specialize (H3 _ Hin). rewrite Hset, Z.eqb_refl, orb_true_r in H3; done.
      * intros id [->|Hin]%elem_of_cons; [done|]. specialize (H3 id Hin).
        rewrite Hset in H3 by done. by apply orb_false_iff in H3 as [? _].
    + intros ([_ H1] & [H2 H3] & H4). split_and!; [done..|]. intros id Hin.
      rewrite Hset by done. rewrite H4 by set_solver. simpl. apply Z.eqb_neq. naive_solver.
Qed.

Lemma validation_properties_spec ps context :
  validation_properties ps context = Ok () ↔ properties_ok context ps.
Proof.
  unfold validation_properties, properties_ok.
  pose proof (properties_loop_spec context ps 0) as Hspec.
  assert ((∀ id, id ∈ singleton_ids context ps → Z.testbit 0 id = false)) as H0.
  { intros. apply Z.bits_0. }
  destruct (validation_properties_loop context ps 0) as [seen| |] eqn:Hl; rsimp;
    [|split; [done|naive_solver]..].
  destruct (proj1 Hspec (ex_intro _ _ eq_refl)) as (H1 & H2 & _).
  pose proof (properties_loop_seen _ _ _ _ Hl 22 ltac:(lia)) as Hb22.
  pose proof (properties_loop_seen _ _ _ _ Hl 21 ltac:(lia)) as Hb21.
  rewrite Z.bits_0, orb_false_l in Hb21, Hb22.
  destruct (decide (context = CtxConnect)) as [Hc|Hc].
  2:{ rewrite bool_decide_eq_false_2 by done. naive_solver. }
  rewrite bool_decide_eq_true_2 by done.
  rewrite validation_require_Ok, !mask_testbit, Hb21, Hb22, negb_involutive by lia.
  clear Hspec H0 Hl Hb21 Hb22. split.
  - intros Hb. split_and!; [done..|]. intros _ H22.
    rewrite (bool_decide_eq_true_2 _ H22) in Hb. by apply bool_decide_eq_true in Hb.
  - intros (_ & _ & H). destruct (bool_decide (22 ∈ _)) eqn:E; [|done]. simpl.
    apply bool_decide_eq_true, H; [done|]. by apply bool_decide_eq_true in E.
Qed.

Lemma safe_properties ps context :
  safe (validation_properties ps context) (λ _, properties_ok context ps).
Proof.
  destruct (validation_properties ps context) as [[]| |] eqn:E;
    [by apply validation_properties_spec|done|].
  exfalso. revert E. apply (safe_no_panic _ (λ _, True)). unfold validation_properties.
  eapply safe_bind with (P := λ _, True).
  - generalize 0. induction ps as [|p ps IH]; intros seen; [done|].
    cbn [validation_properties_loop]. safe_step. repeat safe_step. apply IH.
  - intros. case_bool_decide; [|done]. eapply safe_mono; [apply safe_require|done].
Qed.
#[export] Hint Resolve safe_properties : safe.

(** ** [validation::subscription]

    The record is [TopicSubscription] of [mqttv5/subscribe.rs]. *)
Record TopicSubscription : Type := {
  ts_topic_filter : bytes;
  ts_qos : Z;
  ts_no_local : bool;
  ts_retain_as_published : bool;
  ts_retain_handling : Z;
}.

#[export] Instance TopicSubscription_eq_dec : EqDecision TopicSubscription.
Proof. solve_decision. Defined.

Definition validation_subscription (subscription : TopicSubscription) : res () :=
  _ ← validate_topic_filter (ts_topic_filter subscription);
  _ ← validate_shared_subscription (ts_topic_filter subscription);
  _ ← validation_require (ts_qos subscription <=? 2) "Subscription QoS cannot exceed 2";
  _ ← validation_require (ts_retain_handling subscription <=? 2)
        "Retain Handling cannot exceed 2";
  validation_require
    (negb (ts_no_local subscription)
     || negb (starts_with (ts_topic_filter subscription) (str "$share/")))
    "No Local is not allowed on a shared subscription".

Lemma safe_subscription s :
  safe (validation_subscription s)
    (λ _, topic_filter_ok (ts_topic_filter s) ∧ ts_qos s <= 2 ∧ ts_retain_handling s <= 2 ∧
          (ts_no_local s = true → starts_with (ts_topic_filter s) (str "$share/") = false)).
Proof.
  unfold validation_subscription. do 4 safe_step.
  eapply safe_mono; [apply safe_require|]. intros [] Hnl; simpl in *.
  split_and!; [done|lia|lia|]. intros Hl. rewrite Hl in Hnl. by destruct (starts_with _ _).
Qed.
#[export] Hint Resolve safe_subscription : safe.

(** ** Theorems *)

(** [validation::properties] decides the declarative rule: it accepts a property list in a
    packet context exactly when every property is allowed there with a value in range, no
    property that may occur once is repeated (its 64-bit mask never mixes identifiers up), and
    in CONNECT authentication data comes with an authentication method. *)
Theorem properties_decided ps context :
  validation_properties ps context = Ok () ↔ properties_ok context ps.
Proof. apply validation_properties_spec. Qed.
