(* ===== verification/Properties.v ===== *)
(** * MQTT 5 properties on the wire

    Models the codec half of [src/mqtt_serde/mqttv5/common/properties.rs]: property
    identifiers, the per-property encoder, the prepared property section [PropertyEncoder] and
    the property parsers.  Proves that the precomputed length is the length written, that the
    parser reads back what the encoder wrote, and that the parser is total and stays inside the
    property section. *)
From S2P Require Import Prelude BaseData TopicFilter Validation.

(** ** [PropertyID] *)
Inductive PropertyID : Type :=
  | ID_PayloadFormatIndicator
  | ID_MessageExpiryInterval
  | ID_ContentType
  | ID_ResponseTopic
  | ID_CorrelationData
  | ID_SubscriptionIdentifier
  | ID_SessionExpiryInterval
  | ID_AssignedClientIdentifier
  | ID_ServerKeepAlive
  | ID_AuthenticationMethod
  | ID_AuthenticationData
  | ID_RequestProblemInformation
  | ID_WillDelayInterval
  | ID_RequestResponseInformation
  | ID_ResponseInformation
  | ID_ServerReference
  | ID_ReasonString
  | ID_ReceiveMaximum
  | ID_TopicAliasMaximum
  | ID_TopicAlias
  | ID_MaximumQoS
  | ID_RetainAvailable
  | ID_UserProperty
  | ID_MaximumPacketSize
  | ID_WildcardSubscriptionAvailable
  | ID_SubscriptionIdentifierAvailable
  | ID_SharedSubscriptionAvailable.

(** [fn property_id]: [property as u8]. *)
Definition property_id (property : PropertyID) : Z :=
  match property with
  | ID_PayloadFormatIndicator => 1
  | ID_MessageExpiryInterval => 2
  | ID_ContentType => 3
  | ID_ResponseTopic => 8
  | ID_CorrelationData => 9
  | ID_SubscriptionIdentifier => 11
  | ID_SessionExpiryInterval => 17
  | ID_AssignedClientIdentifier => 18
  | ID_ServerKeepAlive => 19
  | ID_AuthenticationMethod => 21
  | ID_AuthenticationData => 22
  | ID_RequestProblemInformation => 23
  | ID_WillDelayInterval => 24
  | ID_RequestResponseInformation => 25
  | ID_ResponseInformation => 26
  | ID_ServerReference => 28
  | ID_ReasonString => 31
  | ID_ReceiveMaximum => 33
  | ID_TopicAliasMaximum => 34
  | ID_TopicAlias => 35
  | ID_MaximumQoS => 36
  | ID_RetainAvailable => 37
  | ID_UserProperty => 38
  | ID_MaximumPacketSize => 39
  | ID_WildcardSubscriptionAvailable => 40
  | ID_SubscriptionIdentifierAvailable => 41
  | ID_SharedSubscriptionAvailable => 42
  end.

Definition PropertyID_try_from (value : Z) : res PropertyID :=
  match value with
  | 1 => Ok ID_PayloadFormatIndicator
  | 2 => Ok ID_MessageExpiryInterval
  | 3 => Ok ID_ContentType
  | 8 => Ok ID_ResponseTopic
  | 9 => Ok ID_CorrelationData
  | 11 => Ok ID_SubscriptionIdentifier
  | 17 => Ok ID_SessionExpiryInterval
  | 18 => Ok ID_AssignedClientIdentifier
  | 19 => Ok ID_ServerKeepAlive
  | 21 => Ok ID_AuthenticationMethod
  | 22 => Ok ID_AuthenticationData
  | 23 => Ok ID_RequestProblemInformation
  | 24 => Ok ID_WillDelayInterval
  | 25 => Ok ID_RequestResponseInformation
  | 26 => Ok ID_ResponseInformation
  | 28 => Ok ID_ServerReference
  | 31 => Ok ID_ReasonString
  | 33 => Ok ID_ReceiveMaximum
  | 34 => Ok ID_TopicAliasMaximum
  | 35 => Ok ID_TopicAlias
  | 36 => Ok ID_MaximumQoS
  | 37 => Ok ID_RetainAvailable
  | 38 => Ok ID_UserProperty
  | 39 => Ok ID_MaximumPacketSize
  | 40 => Ok ID_WildcardSubscriptionAvailable
  | 41 => Ok ID_SubscriptionIdentifierAvailable
  | 42 => Ok ID_SharedSubscriptionAvailable
  | _ => Err InvalidPropertyId
  end.

(** ** Encoding *)
Definition binary_len (len : Z) : res Z :=
  if u16_MAX <? len then Err StringTooLong else Ok (2 + len).

Definition Property_encoded_len (self : Property) : res Z :=
  _ ← validation_property_value self;
  value_len ←
    match self with
    | PayloadFormatIndicator _ | RequestProblemInformation _ | RequestResponseInformation _
    | MaximumQoS _ | RetainAvailable _ | WildcardSubscriptionAvailable _
    | SubscriptionIdentifierAvailable _ | SharedSubscriptionAvailable _ => Ok 1
    | ServerKeepAlive _ | ReceiveMaximum _ | TopicAliasMaximum _ | TopicAlias _ => Ok 2
    | MessageExpiryInterval _ | SessionExpiryInterval _ | WillDelayInterval _
    | MaximumPacketSize _ => Ok 4
    | SubscriptionIdentifier val => Ok (VariableByteInteger_encoded_len val)
    | ContentType val | ResponseTopic val | AssignedClientIdentifier val
    | AuthenticationMethod val | ResponseInformation val | ServerReference val
    | ReasonString val => binary_len (zlen val)
    | CorrelationData val | AuthenticationData val => binary_len (zlen val)
    | UserProperty key val =>
        a ← binary_len (zlen key);
        b ← binary_len (zlen val);
        Ok (a + b)
    end;
  Ok (1 + value_len).

Definition append_binary (data b : bytes) : bytes :=
  b ++ u16_to_be_bytes (as_u16 (zlen data)) ++ data.

(** [bytes.push(x)] is [b ++ [x]]. *)
Definition Property_encode_validated (self : Property) (b : bytes) : bytes :=
  match self with
  | PayloadFormatIndicator val =>
      (b ++ [property_id ID_PayloadFormatIndicator]) ++ [val]
  | MessageExpiryInterval val =>
      (b ++ [property_id ID_MessageExpiryInterval]) ++ u32_to_be_bytes val
  | ContentType val =>
      append_binary val (b ++ [property_id ID_ContentType])
  | ResponseTopic val =>
      append_binary val (b ++ [property_id ID_ResponseTopic])
  | CorrelationData val =>
      append_binary val (b ++ [property_id ID_CorrelationData])
  | SubscriptionIdentifier val =>
      VariableByteInteger_encode_into val (b ++ [property_id ID_SubscriptionIdentifier])
  | SessionExpiryInterval val =>
      (b ++ [property_id ID_SessionExpiryInterval]) ++ u32_to_be_bytes val
  | AssignedClientIdentifier val =>
      append_binary val (b ++ [property_id ID_AssignedClientIdentifier])
  | ServerKeepAlive val =>
      (b ++ [property_id ID_ServerKeepAlive]) ++ u16_to_be_bytes val
  | AuthenticationMethod val =>
      append_binary val (b ++ [property_id ID_AuthenticationMethod])
  | AuthenticationData val =>
      append_binary val (b ++ [property_id ID_AuthenticationData])
  | RequestProblemInformation val =>
      (b ++ [property_id ID_RequestProblemInformation]) ++ [val]
  | WillDelayInterval val =>
      (b ++ [property_id ID_WillDelayInterval]) ++ u32_to_be_bytes val
  | RequestResponseInformation val =>
      (b ++ [property_id ID_RequestResponseInformation]) ++ [val]
  | ResponseInformation val =>
      append_binary val (b ++ [property_id ID_ResponseInformation])
  | ServerReference val =>
      append_binary val (b ++ [property_id ID_ServerReference])
  | ReasonString val =>
      append_binary val (b ++ [property_id ID_ReasonString])
  | ReceiveMaximum val =>
      (b ++ [property_id ID_ReceiveMaximum]) ++ u16_to_be_bytes val
  | TopicAliasMaximum val =>
      (b ++ [property_id ID_TopicAliasMaximum]) ++ u16_to_be_bytes val
  | TopicAlias val =>
      (b ++ [property_id ID_TopicAlias]) ++ u16_to_be_bytes val
  | MaximumQoS val =>
      (b ++ [property_id ID_MaximumQoS]) ++ [val]
  | RetainAvailable val =>
      (b ++ [property_id ID_RetainAvailable]) ++ [val]
  | UserProperty key val =>
      append_binary val (append_binary key (b ++ [property_id ID_UserProperty]))
  | MaximumPacketSize val =>
      (b ++ [property_id ID_MaximumPacketSize]) ++ u32_to_be_bytes val
  | WildcardSubscriptionAvailable val =>
      (b ++ [property_id ID_WildcardSubscriptionAvailable]) ++ [val]
  | SubscriptionIdentifierAvailable val =>
      (b ++ [property_id ID_SubscriptionIdentifierAvailable]) ++ [val]
  | SharedSubscriptionAvailable val =>
      (b ++ [property_id ID_SharedSubscriptionAvailable]) ++ [val]
  end.

(** [PropertyEncoder]: the properties and the computed size of their encodings. *)
Record PropertyEncoder : Type := { pe_properties : list Property; pe_body_len : Z }.

Fixpoint PropertyEncoder_body_len (properties : list Property) (body_len : Z) : res Z :=
  match properties with
  | [] => Ok body_len
  | property :: rest =>
      len ← Property_encoded_len property;
      PropertyEncoder_body_len rest (body_len + len)
  end.

Definition PropertyEncoder_new (properties : list Property) : res PropertyEncoder :=
  body_len ← PropertyEncoder_body_len properties 0;
  Ok {| pe_properties := properties; pe_body_len := body_len |}.

Definition PropertyEncoder_encoded_len (self : PropertyEncoder) : Z :=
  VariableByteInteger_encoded_len (as_u32 (pe_body_len self)) + pe_body_len self.

Definition PropertyEncoder_encode_into (self : PropertyEncoder) (b : bytes) : bytes :=
  fold_left (λ b property, Property_encode_validated property b) (pe_properties self)
    (VariableByteInteger_encode_into (as_u32 (pe_body_len self)) b).

Definition encode_properities_hdr (properties : list Property) : res bytes :=
  properties ← PropertyEncoder_new properties;
  Ok (PropertyEncoder_encode_into properties []).

(** ** Parsing

    The four value shapes of [parse_property]: a byte, a big-endian [u16] or [u32], a string,
    binary data, and a variable byte integer, each read at [offset]. *)
Section parse_values.
Context (buffer : bytes) (offset : Z).

Definition property_u8 (mk : Z → Property) : res (Property * Z) :=
  val ← ok_or (get_at buffer offset) IncompleteProperty;
  Ok (mk val, offset + 1).

Definition property_u16 (mk : Z → Property) : res (Property * Z) :=
  slice ← ok_or (get_range buffer offset (offset + 2)) IncompleteProperty;
  Ok (mk (u16_from_be_bytes slice), offset + 2).

Definition property_u32 (mk : Z → Property) : res (Property * Z) :=
  slice ← ok_or (get_range buffer offset (offset + 4)) IncompleteProperty;
  Ok (mk (u32_from_be_bytes slice), offset + 4).

Definition property_str (mk : bytes → Property) : res (Property * Z) :=
  tail ← index_from buffer offset;
  '(val, consumed) ← parse_utf8_string tail;
  Ok (mk val, offset + consumed).

Definition property_bin (mk : bytes → Property) : res (Property * Z) :=
  tail ← index_from buffer offset;
  '(val, consumed) ← decode_binary_data tail;
  Ok (mk val, offset + consumed).

Definition property_vbi (mk : Z → Property) : res (Property * Z) :=
  tail ← index_from buffer offset;
  '(val, consumed) ← parse_vbi tail;
  Ok (mk (as_u32 val), offset + consumed).

Definition property_pair (mk : bytes → bytes → Property) : res (Property * Z) :=
  tail ← index_from buffer offset;
  '(key, consumed_key) ← parse_utf8_string tail;
  let offset := offset + consumed_key in
  tail ← index_from buffer offset;
  '(val, consumed_val) ← parse_utf8_string tail;
  let offset := offset + consumed_val in
  Ok (mk key val, offset).
End parse_values.

(** [PropertyID::try_from(..).map_err(..)] *)
Definition parse_property_id (value : Z) : res PropertyID :=
  match PropertyID_try_from value with
  | Ok id => Ok id
  | Err _ => Err (ParseErr "Unknown property ID")
  | Panic => Panic
  end.

Definition parse_property (buffer : bytes) : res (Property * Z) :=
  let offset := 0 in
  '(id, consumed) ← parse_vbi buffer;
  let offset := offset + consumed in
  property ← parse_property_id id;
  match property with
  | ID_PayloadFormatIndicator => property_u8 buffer offset PayloadFormatIndicator
  | ID_MessageExpiryInterval => property_u32 buffer offset MessageExpiryInterval
  | ID_ContentType => property_str buffer offset ContentType
  | ID_ResponseTopic => property_str buffer offset ResponseTopic
  | ID_CorrelationData => property_bin buffer offset CorrelationData
  | ID_SubscriptionIdentifier => property_vbi buffer offset SubscriptionIdentifier
  | ID_SessionExpiryInterval => property_u32 buffer offset SessionExpiryInterval
  | ID_AssignedClientIdentifier => property_str buffer offset AssignedClientIdentifier
  | ID_ServerKeepAlive => property_u16 buffer offset ServerKeepAlive
  | ID_AuthenticationMethod => property_str buffer offset AuthenticationMethod
  | ID_AuthenticationData => property_bin buffer offset AuthenticationData
  | ID_RequestProblemInformation => property_u8 buffer offset RequestProblemInformation
  | ID_WillDelayInterval => property_u32 buffer offset WillDelayInterval
  | ID_RequestResponseInformation => property_u8 buffer offset RequestResponseInformation
  | ID_ResponseInformation => property_str buffer offset ResponseInformation
  | ID_ServerReference => property_str buffer offset ServerReference
  | ID_ReasonString => property_str buffer offset ReasonString
  | ID_ReceiveMaximum => property_u16 buffer offset ReceiveMaximum
  | ID_TopicAliasMaximum => property_u16 buffer offset TopicAliasMaximum
  | ID_TopicAlias => property_u16 buffer offset TopicAlias
  | ID_MaximumQoS => property_u8 buffer offset MaximumQoS
  | ID_RetainAvailable => property_u8 buffer offset RetainAvailable
  | ID_UserProperty => property_pair buffer offset UserProperty
  | ID_MaximumPacketSize => property_u32 buffer offset MaximumPacketSize
  | ID_WildcardSubscriptionAvailable => property_u8 buffer offset WildcardSubscriptionAvailable
  | ID_SubscriptionIdentifierAvailable => property_u8 buffer offset SubscriptionIdentifierAvailable
  | ID_SharedSubscriptionAvailable => property_u8 buffer offset SharedSubscriptionAvailable
  end.

(** [while offset < buffer.len()]: every turn consumes at least one byte, so [length buffer]
    turns are enough ([parse_properties_total]). *)
Fixpoint parse_properties_loop (fuel : nat) (buffer : bytes) (properties : list Property)
    (offset : Z) : res (list Property * Z) :=
  if offset <? zlen buffer then
    match fuel with
    | O => Panic
    | S fuel' =>
        tail ← index_from buffer offset;
        '(prop, consumed) ← parse_property tail;
        _ ← validation_property_value prop;
        parse_properties_loop fuel' buffer (properties ++ [prop]) (offset + consumed)
    end
  else Ok (properties, offset).

Definition parse_properties (buffer : bytes) : res (list Property * Z) :=
  parse_properties_loop (length buffer) buffer [] 0.

Definition parse_properties_hdr (buffer : bytes) : res (list Property * Z) :=
  let offset := 0 in
  '(prop_len, consumed) ← parse_vbi buffer;
  let offset := offset + consumed in
  if zlen buffer <? offset + prop_len then Err IncompleteProperty else
  section ← index_range buffer offset (offset + prop_len);
  '(props, consumed) ← parse_properties section;
  let offset := offset + consumed in
  Ok (props, offset).


(** ** The length written is the length computed *)
(** The bytes of one property, as appended to any buffer. *)
Definition property_bytes (p : Property) : bytes := Property_encode_validated p [].

Lemma encode_validated_app p b :
  Property_encode_validated p b = b ++ property_bytes p.
Proof.
  unfold property_bytes.
  destruct p; simpl; unfold append_binary, VariableByteInteger_encode_into;
    rewrite <- ?app_assoc; done.
Qed.

Lemma zlen_append_binary d b : zlen (append_binary d b) = zlen b + 2 + zlen d.
Proof. unfold append_binary. zlia. Qed.
Lemma zlen_vbi_encode_into v b :
  is_u32 v →
  zlen (VariableByteInteger_encode_into v b) = zlen b + VariableByteInteger_encoded_len v.
Proof. intros. by rewrite vbi_encode_into_app, zlen_app, zlen_vbi_encode. Qed.

Lemma binary_len_Ok n m : binary_len n = Ok m → m = 2 + n.
Proof. unfold binary_len. destruct (_ <? _); naive_solver. Qed.

Lemma Property_encoded_len_Ok p n :
  wf_property p → Property_encoded_len p = Ok n →
  n = zlen (property_bytes p) ∧ validation_property_value p = Ok ().
Proof.
  intros Hwf H. unfold Property_encoded_len in H.
  apply bind_Ok_inv in H as ([] & Hv & H). split; [|done]. clear Hv.
  unfold property_bytes.
  destruct p; simpl in Hwf; cbn [Property_encode_validated]; cbn [mbind result_bind] in H;
    rewrite ?zlen_append_binary;
    [res_inv; rewrite ?zlen_append_binary; repeat match goal with
       H : binary_len _ = Ok _ |- _ => apply binary_len_Ok in H; subst end;
     rewrite ?zlen_vbi_encode_into by done; zsimp; lia ..].
Qed.

Definition properties_bytes (ps : list Property) : bytes := ps ≫= property_bytes.

Lemma PropertyEncoder_body_len_Ok ps acc n :
  Forall wf_property ps → PropertyEncoder_body_len ps acc = Ok n →
  n = acc + zlen (properties_bytes ps) ∧
  Forall (λ p, validation_property_value p = Ok ()) ps.
Proof.
  intros Hwf. revert acc. induction Hwf as [|p ps Hp Hps IH]; intros acc H; simpl in H.
  { injection H as <-. split; [simpl; rewrite (zlen_nil (A:=Z)); lia|constructor]. }
  apply bind_Ok_inv in H as (len & Hlen & H).
  apply Property_encoded_len_Ok in Hlen as [-> Hv]; [|done].
  apply IH in H as [-> ?]. unfold properties_bytes; rewrite bind_cons, zlen_app.
  split; [lia|by constructor].
Qed.

Lemma fold_encode_validated ps b :
  fold_left (λ b property, Property_encode_validated property b) ps b
  = b ++ properties_bytes ps.
Proof.
  revert b. induction ps as [|p ps IH]; intros b; simpl.
  { by rewrite app_nil_r. }
  rewrite IH, encode_validated_app. by rewrite <- app_assoc.
Qed.

Lemma PropertyEncoder_encode_into_app e b :
  PropertyEncoder_encode_into e b
  = b ++ VariableByteInteger_encode (as_u32 (pe_body_len e)) ++ properties_bytes (pe_properties e).
Proof.
  unfold PropertyEncoder_encode_into.
  by rewrite fold_encode_validated, vbi_encode_into_app, <- app_assoc.
Qed.

Lemma PropertyEncoder_new_Ok ps e :
  Forall wf_property ps → PropertyEncoder_new ps = Ok e →
  pe_properties e = ps ∧ pe_body_len e = zlen (properties_bytes ps) ∧
  Forall (λ p, validation_property_value p = Ok ()) ps.
Proof.
  unfold PropertyEncoder_new. intros Hwf H. apply bind_Ok_inv in H as (n & Hn & [= <-]).
  by apply PropertyEncoder_body_len_Ok in Hn as [-> ?].
Qed.

Lemma is_u32_as_u32 v : is_u32 (as_u32 v).
Proof. unfold is_u32, as_u32. apply Z.mod_pos_bound. lia. Qed.

(** The reservation of [encode_into] is exactly what it writes. *)
Lemma PropertyEncoder_encoded_len_exact ps e b :
  Forall wf_property ps → PropertyEncoder_new ps = Ok e →
  zlen (PropertyEncoder_encode_into e b) = zlen b + PropertyEncoder_encoded_len e.
Proof.
  intros Hwf H. destruct (PropertyEncoder_new_Ok _ _ Hwf H) as (E1 & E2 & _).
  rewrite PropertyEncoder_encode_into_app, !zlen_app, zlen_vbi_encode by apply is_u32_as_u32.
  unfold PropertyEncoder_encoded_len. rewrite E1, E2. lia.
Qed.

(** The section as a function of the property list. *)
Definition properties_section (ps : list Property) : bytes :=
  VariableByteInteger_encode (as_u32 (zlen (properties_bytes ps))) ++ properties_bytes ps.

Lemma encode_properities_hdr_Ok ps b :
  Forall wf_property ps → encode_properities_hdr ps = Ok b →
  b = properties_section ps ∧ Forall (λ p, validation_property_value p = Ok ()) ps.
Proof.
  unfold encode_properities_hdr. intros Hwf H. apply bind_Ok_inv in H as (e & He & [= <-]).
  apply PropertyEncoder_new_Ok in He as (E1 & E2 & ?); [|done].
  rewrite PropertyEncoder_encode_into_app, E1, E2. done.
Qed.

(** ** The parser reads back what the encoder wrote *)
Lemma parse_property_id_ok id : parse_property_id (property_id id) = Ok id.
Proof. by destruct id. Qed.

Lemma parse_vbi_id id rest : parse_vbi (property_id id :: rest) = Ok (property_id id, 1).
Proof.
  pose proof (VariableByteInteger_roundtrip (property_id id) rest) as H.
  unfold parse_vbi, vbi.
  assert (VariableByteInteger_encode (property_id id) = [property_id id]) as E by by destruct id.
  rewrite E in H. cbn [app] in H.
  change (zlen [property_id id]) with 1 in H. rewrite H; [done|]. destruct id; simpl; lia.
Qed.

Lemma suffix_at_tail x s : suffix_at (x :: s) (0 + 1) s.
Proof. by exists [x]. Qed.

Section property_values.
Variables (x : Z) (rest : bytes).

Lemma property_u8_ok mk v :
  property_u8 (x :: v :: rest) (0 + 1) mk = Ok (mk v, 2).
Proof.
  unfold property_u8. by rewrite (suffix_at_get_at _ _ _ _ (suffix_at_tail x (v :: rest))).
Qed.

Lemma property_u16_ok mk v :
  is_u16 v → property_u16 (x :: u16_to_be_bytes v ++ rest) (0 + 1) mk = Ok (mk v, 3).
Proof.
  intros Hv. unfold property_u16.
  erewrite suffix_at_get_range by (apply suffix_at_tail || done). rsimp.
  by rewrite u16_be_roundtrip.
Qed.

Lemma property_u32_ok mk v :
  is_u32 v → property_u32 (x :: u32_to_be_bytes v ++ rest) (0 + 1) mk = Ok (mk v, 5).
Proof.
  intros Hv. unfold property_u32.
  erewrite suffix_at_get_range by (apply suffix_at_tail || done). rsimp.
  by rewrite u32_be_roundtrip.
Qed.

Lemma property_str_ok mk v :
  is_string v → validation_string v = Ok () →
  property_str (x :: Utf8String_encode v ++ rest) (0 + 1) mk = Ok (mk v, 3 + zlen v).
Proof.
  intros Hs [Hl Hn]%validation_string_Ok. unfold property_str.
  rewrite (suffix_at_index_from _ _ _ (suffix_at_tail _ _)). rsimp.
  unfold parse_utf8_string. rewrite Utf8String_roundtrip by done. rsimp.
  do 2 f_equal. lia.
Qed.

Lemma property_bin_ok mk v :
  zlen v <= u16_MAX →
  property_bin (x :: BinaryData_encode v ++ rest) (0 + 1) mk = Ok (mk v, 3 + zlen v).
Proof.
  intros Hl. unfold property_bin.
  rewrite (suffix_at_index_from _ _ _ (suffix_at_tail _ _)). rsimp.
  unfold decode_binary_data. rewrite BinaryData_roundtrip by done. rsimp.
  do 2 f_equal. lia.
Qed.

Lemma property_vbi_ok mk v :
  0 <= v <= 268435455 →
  property_vbi (x :: VariableByteInteger_encode v ++ rest) (0 + 1) mk
  = Ok (mk v, 1 + zlen (VariableByteInteger_encode v)).
Proof.
  intros Hl. unfold property_vbi.
  rewrite (suffix_at_index_from _ _ _ (suffix_at_tail _ _)). rsimp.
  unfold parse_vbi, vbi. rewrite VariableByteInteger_roundtrip by done. rsimp.
  unfold as_u32. rewrite Z.mod_small by lia. done.
Qed.

Lemma property_pair_ok mk k v :
  is_string k → validation_string k = Ok () → is_string v → validation_string v = Ok () →
  property_pair (x :: Utf8String_encode k ++ Utf8String_encode v ++ rest) (0 + 1) mk
  = Ok (mk k v, 5 + zlen k + zlen v).
Proof.
  intros Hk [Hlk Hnk]%validation_string_Ok Hv [Hlv Hnv]%validation_string_Ok.
  unfold property_pair.
  rewrite (suffix_at_index_from _ _ _ (suffix_at_tail _ _)). rsimp.
  unfold parse_utf8_string. rewrite Utf8String_roundtrip by done. rsimp.
  pose proof (suffix_at_tail x (Utf8String_encode k ++ Utf8String_encode v ++ rest)) as H.
  apply suffix_at_app in H. unfold Utf8String_encode in H at 2.
  rewrite zlen_BinaryData_encode in H.
  rewrite (suffix_at_index_from _ _ _ H). rsimp.
  rewrite Utf8String_roundtrip by done. rsimp. do 2 f_equal. lia.
Qed.
End property_values.

Lemma append_binary_nil d x : append_binary d [x] = x :: BinaryData_encode d.
Proof. done. Qed.

Lemma append_binary_pair k v x :
  append_binary v (append_binary k [x]) = x :: Utf8String_encode k ++ Utf8String_encode v.
Proof. unfold append_binary, Utf8String_encode, BinaryData_encode. by rewrite <- !app_assoc. Qed.

Lemma validation_topic_string v : validation_topic v = Ok () → validation_string v = Ok ().
Proof. unfold validation_topic. intros H. by apply bind_Ok_inv in H as ([] & ? & _). Qed.

Lemma parse_property_roundtrip p rest :
  wf_property p → validation_property_value p = Ok () →
  parse_property (property_bytes p ++ rest) = Ok (p, zlen (property_bytes p)).
Proof.
  intros Hwf Hv. unfold property_bytes.
  destruct p; simpl in Hwf; cbn [Property_encode_validated]; rewrite ?app_nil_l;
    rewrite ?append_binary_pair, ?append_binary_nil, ?vbi_encode_into_app; cbn [app];
    unfold parse_property; rewrite parse_vbi_id; rsimp; rewrite parse_property_id_ok; rsimp;
    cbn [validation_property_value] in Hv; try rewrite <- app_assoc;
    unfold Utf8String_encode;
    try rewrite zlen_cons, ?zlen_app, ?zlen_BinaryData_encode.
  all: try (rewrite (property_u8_ok _ _ _ v); done).
  all: try (rewrite (property_u16_ok _ _ _ v) by done; done).
  all: try (rewrite (property_u32_ok _ _ _ v) by done; done).
  all: try (rewrite (property_str_ok _ _ _ v) by
      (first [apply Hwf | done | by apply validation_topic_string
             | by apply bind_Ok_inv in Hv as ([] & ? & _)]); do 2 f_equal; lia).
  all: try (rewrite (property_bin_ok _ _ _ v) by
      (destruct (Z.ltb_spec u16_MAX (zlen v)); [done|lia]); do 2 f_equal; lia).
  - apply validation_require_Ok in Hv. rewrite property_vbi_ok by lia. done.
  - apply bind_Ok_inv in Hv as ([] & Hk & Hv).
    rewrite property_pair_ok by (done || apply Hwf). do 2 f_equal. lia.
Qed.

Lemma zlen_property_bytes_pos p : 0 < zlen (property_bytes p).
Proof.
  unfold property_bytes. destruct p; simpl; unfold append_binary, VariableByteInteger_encode_into;
    zlia.
Qed.

Lemma parse_properties_loop_roundtrip ps fuel b acc offset :
  Forall wf_property ps → Forall (λ p, validation_property_value p = Ok ()) ps →
  suffix_at b offset (properties_bytes ps) → (length ps <= fuel)%nat →
  parse_properties_loop fuel b acc offset = Ok (acc ++ ps, zlen b).
Proof.
  intros Hwf. revert fuel acc offset.
  induction Hwf as [|p ps Hp Hps IH]; intros fuel acc offset Hv Hs Hf.
  - pose proof (suffix_at_len _ _ _ Hs) as Hl. simpl in Hl. rewrite zlen_nil in Hl.
    destruct fuel; simpl; replace (offset <? zlen b) with false by lia;
      rewrite app_nil_r; do 2 f_equal; lia.
  - apply Forall_cons_iff in Hv as [Hv Hvs]. unfold properties_bytes in Hs.
    rewrite bind_cons in Hs. fold (properties_bytes ps) in Hs.
    destruct fuel as [|fuel]; simpl in Hf; [lia|]. cbn [parse_properties_loop].
    pose proof (suffix_at_len _ _ _ Hs) as Hl. pose proof (zlen_property_bytes_pos p).
    replace (offset <? zlen b) with true by zlia.
    rewrite (suffix_at_index_from _ _ _ Hs). rsimp.
    rewrite parse_property_roundtrip by done. rsimp. rewrite Hv. rsimp.
    rewrite IH; [by rewrite <- app_assoc|done|by apply suffix_at_app|lia].
Qed.

Lemma length_le_properties_bytes ps : (length ps <= length (properties_bytes ps))%nat.
Proof.
  unfold properties_bytes. induction ps as [|p ps IH]; [simpl; lia|].
  rewrite bind_cons, length_app. pose proof (zlen_property_bytes_pos p) as H. unfold zlen in H.
  cbn [length]. lia.
Qed.

Lemma parse_properties_roundtrip ps :
  Forall wf_property ps → Forall (λ p, validation_property_value p = Ok ()) ps →
  parse_properties (properties_bytes ps) = Ok (ps, zlen (properties_bytes ps)).
Proof.
  intros. unfold parse_properties.
  rewrite (parse_properties_loop_roundtrip ps) by
    (done || apply suffix_at_0 || apply length_le_properties_bytes). done.
Qed.

Lemma properties_section_roundtrip ps rest :
  Forall wf_property ps → Forall (λ p, validation_property_value p = Ok ()) ps →
  zlen (properties_bytes ps) <= 268435455 →
  parse_properties_hdr (properties_section ps ++ rest) = Ok (ps, zlen (properties_section ps)).
Proof.
  intros Hwf Hv Hl. pose proof (zlen_nonneg (properties_bytes ps)) as H0.
  unfold parse_properties_hdr, properties_section, as_u32.
  rewrite Z.mod_small by lia. rewrite <- app_assoc. unfold parse_vbi, vbi.
  rewrite VariableByteInteger_roundtrip by lia. rsimp.
  set (h := VariableByteInteger_encode _).
  replace (_ <? _) with false by zlia.
  erewrite suffix_at_index_range; [|apply (suffix_at_app _ 0 h), suffix_at_0|lia]. rsimp.
  rewrite parse_properties_roundtrip by done. rsimp. do 2 f_equal. rewrite zlen_app. lia.
Qed.

(** ** Safety of the parsers *)
Lemma wire_string_wf s : wire_string s → u8s s ∧ is_string s.
Proof. intros (? & ? & _). done. Qed.

Lemma safe_parse_property_id v : safe (parse_property_id v) (λ _, True).
Proof. destruct v as [|p|p]; try exact I. do 6 (destruct p; try exact I). Qed.
#[export] Hint Resolve safe_parse_property_id : safe.

Section property_values_safe.
Variables (b : bytes) (off : Z).
Hypotheses (Hb : u8s b) (Hoff : 0 < off) (Hoff_le : off <= zlen b).

Definition property_post (r : Property * Z) : Prop := 0 < r.2 <= zlen b ∧ wf_property r.1.

Lemma property_u8_safe mk :
  (∀ v, is_u8 v → wf_property (mk v)) → safe (property_u8 b off mk) property_post.
Proof. intros Hmk. unfold property_u8. safe_step. split; simpl; [lia|auto]. Qed.

Lemma property_u16_safe mk :
  (∀ v, is_u16 v → wf_property (mk v)) → safe (property_u16 b off mk) property_post.
Proof.
  intros Hmk. unfold property_u16. safe_step. split; simpl; [lia|].
  by apply Hmk, u16_from_be_u16.
Qed.

Lemma property_u32_safe mk :
  (∀ v, is_u32 v → wf_property (mk v)) → safe (property_u32 b off mk) property_post.
Proof.
  intros Hmk. unfold property_u32. safe_step. split; simpl; [lia|].
  by apply Hmk, u32_from_be_u32.
Qed.

Lemma property_str_safe mk :
  (∀ v, u8s v ∧ is_string v → wf_property (mk v)) → safe (property_str b off mk) property_post.
Proof.
  intros Hmk. unfold property_str. safe_auto. split; simpl; [lia|].
  by apply Hmk, wire_string_wf.
Qed.

Lemma property_bin_safe mk :
  (∀ v, u8s v → wf_property (mk v)) → safe (property_bin b off mk) property_post.
Proof. intros Hmk. unfold property_bin. safe_auto. split; simpl; [lia|auto]. Qed.

Lemma property_vbi_safe mk :
  (∀ v, is_u32 v → wf_property (mk v)) → safe (property_vbi b off mk) property_post.
Proof.
  intros Hmk. unfold property_vbi. safe_auto. split; simpl; [lia|].
  apply Hmk, is_u32_as_u32.
Qed.

Lemma property_pair_safe mk :
  (∀ k v, u8s k ∧ is_string k ∧ u8s v ∧ is_string v → wf_property (mk k v)) →
  safe (property_pair b off mk) property_post.
Proof.
  intros Hmk. unfold property_pair. safe_auto. split; simpl; [lia|].
  apply Hmk. unfold wire_string in *. naive_solver.
Qed.
End property_values_safe.

Lemma bounded_parse_property : bounded parse_property wf_property.
Proof.
  intros b Hb. unfold parse_property. safe_step. safe_step. safe_step.
  match goal with |- safe (match ?x with _ => _ end) _ => destruct x end;
    first [ apply property_u8_safe | apply property_u16_safe | apply property_u32_safe
          | apply property_str_safe | apply property_bin_safe | apply property_vbi_safe
          | apply property_pair_safe ]; (done || lia).
Qed.

Lemma parse_properties_loop_safe fuel b acc offset :
  u8s b → 0 <= offset <= zlen b → zlen b - offset <= Z.of_nat fuel → Forall wf_property acc →
  safe (parse_properties_loop fuel b acc offset) (λ r, r.2 = zlen b ∧ Forall wf_property r.1).
Proof.
  intros Hb. revert acc offset. induction fuel as [|fuel IH]; intros acc offset Ho Hf Hacc;
    cbn [parse_properties_loop]; destruct (Z.ltb_spec offset (zlen b)); try lia;
    try (simpl; split; [lia|done]).
  safe_step. eapply safe_bind; [by apply bounded_parse_property|].
  intros [p n] [Hn Hp] _. simpl in *. safe_step.
  apply IH; [lia|lia|]. apply Forall_app; auto.
Qed.

Lemma parse_properties_safe b :
  u8s b → safe (parse_properties b) (λ r, r.2 = zlen b ∧ Forall wf_property r.1).
Proof.
  intros Hb. apply parse_properties_loop_safe; [done| | |constructor]; unfold zlen; lia.
Qed.

Lemma bounded_parse_properties_hdr : bounded parse_properties_hdr (Forall wf_property).
Proof.
  intros b Hb. unfold parse_properties_hdr. safe_step. safe_step. safe_step.
  { done. }
  safe_step. eapply safe_bind; [by apply parse_properties_safe|].
  intros [ps n] [Hn Hps] _. simpl in *. split; [lia|done].
Qed.

Lemma safe_parse_properties_hdr b :
  u8s b → safe (parse_properties_hdr b) (λ r, 0 < r.2 <= zlen b ∧ Forall wf_property r.1).
Proof. apply bounded_parse_properties_hdr. Qed.
#[export] Hint Resolve safe_parse_properties_hdr : safe.

(** ** Theorems *)

(** A property section round trips.  What [encode_properities_hdr] writes for a list of
    well-typed properties is parsed back to that list by [parse_properties_hdr], whatever
    follows, with exactly the written bytes consumed. *)
Theorem property_section_roundtrip ps b rest :
  Forall wf_property ps → encode_properities_hdr ps = Ok b → zlen b <= 268435455 →
  parse_properties_hdr (b ++ rest) = Ok (ps, zlen b).
Proof.
  intros Hwf Hb Hl. apply encode_properities_hdr_Ok in Hb as [-> Hv]; [|done].
  apply properties_section_roundtrip; [done..|].
  unfold properties_section in Hl. rewrite zlen_app in Hl. zlen_pos. lia.
Qed.

Definition sample_properties : list Property :=
  [SubscriptionIdentifier 300; UserProperty (str "k") (str "v"); TopicAlias 5].

Lemma property_section_roundtrip_witness :
  parse_properties_hdr ([13; 11; 172; 2; 38; 0; 1; 107; 0; 1; 118; 35; 0; 5] ++ [255])
  = Ok (sample_properties, 14).
Proof.
  apply (property_section_roundtrip sample_properties); [|reflexivity|vm_compute; discriminate].
  repeat constructor; cbn; try (unfold is_u32, is_u16; lia); try done.
Defined.

(** The prepared property section is sized exactly: the length [PropertyEncoder] reserves
    before writing is the number of bytes its infallible writer appends. *)
Theorem property_encoder_len_exact ps e b :
  Forall wf_property ps → PropertyEncoder_new ps = Ok e →
  zlen (PropertyEncoder_encode_into e b) = zlen b + PropertyEncoder_encoded_len e.
Proof. apply PropertyEncoder_encoded_len_exact. Qed.

Lemma property_encoder_len_exact_witness :
  zlen (PropertyEncoder_encode_into
          {| pe_properties := sample_properties; pe_body_len := 13 |} [1; 2])
  = zlen [1; 2] + PropertyEncoder_encoded_len
          {| pe_properties := sample_properties; pe_body_len := 13 |}.
Proof.
  apply (property_encoder_len_exact sample_properties); [|reflexivity].
  repeat constructor; cbn; try (unfold is_u32, is_u16; lia); try done.
Defined.

(** The property parser is total.  On every byte sequence it terminates without a panic
    (the loop's fuel never runs out), consumes between one byte and the whole buffer, and
    returns well-typed properties only. *)
Theorem property_parser_total b :
  u8s b → safe (parse_properties_hdr b) (λ r, 0 < r.2 <= zlen b ∧ Forall wf_property r.1).
Proof. apply bounded_parse_properties_hdr. Qed.

Lemma property_parser_total_witness :
  safe (parse_properties_hdr [3; 1; 1]) (λ r, 0 < r.2 <= zlen [3; 1; 1] ∧ Forall wf_property r.1).
Proof. apply property_parser_total. u8s_lit. Defined.
