(* ===== verification/Packets.v ===== *)
(** * The MQTT control packets

    Models the packet types of [src/mqtt_serde/mqttv5/*.rs] and [src/mqtt_serde/mqttv3/*.rs],
    their [validate] methods, the sum type [MqttPacket] of
    [src/mqtt_serde/control_packet.rs] with its [packet_type], [validate] and [set_dup], the
    trait [MqttControlPacket] with its default encoders, [ParseOk] and [validated_packet] of
    [src/mqtt_serde/parser/mod.rs].

    A packet field keeps its source name, prefixed by the packet's ([c5_client_id] is
    [client_id] of the v5 [MqttConnect]).  The acknowledgement packets that one source macro
    generates ([v5_packet_id_ack!], [v3_packet_id_ack!]) share one record here. *)
From S2P Require Import Prelude BaseData TopicFilter Validation Properties.

(** ** MQTT 5 packets *)
Record WillProperties : Type := {
  wp_will_delay_interval : option Z;
  wp_payload_format_indicator : option Z;
  wp_message_expiry_interval : option Z;
  wp_content_type : option bytes;
  wp_response_topic : option bytes;
  wp_correlation_data : option bytes;
  wp_user_properties : list Property;
}.

#[export] Instance Rebuild_WillProperties : Rebuild WillProperties := λ w, {|
  wp_will_delay_interval := wp_will_delay_interval w;
  wp_payload_format_indicator := wp_payload_format_indicator w;
  wp_message_expiry_interval := wp_message_expiry_interval w;
  wp_content_type := wp_content_type w; wp_response_topic := wp_response_topic w;
  wp_correlation_data := wp_correlation_data w; wp_user_properties := wp_user_properties w;
|}.

Definition WillProperties_new : WillProperties := {|
  wp_will_delay_interval := None; wp_payload_format_indicator := None;
  wp_message_expiry_interval := None; wp_content_type := None; wp_response_topic := None;
  wp_correlation_data := None; wp_user_properties := [];
|}.

Record Will5 : Type := {
  w5_will_qos : Z;
  w5_will_retain : bool;
  w5_will_topic : bytes;
  w5_will_message : bytes;
  w5_properties : WillProperties;
}.

Definition Will5_new (will_topic will_message : bytes) (will_qos : Z) (will_retain : bool)
    : Will5 := {|
  w5_will_qos := will_qos; w5_will_retain := will_retain; w5_will_topic := will_topic;
  w5_will_message := will_message; w5_properties := WillProperties_new;
|}.

Record MqttConnect5 : Type := {
  c5_protocol_name : bytes;
  c5_protocol_version : Z;
  c5_keep_alive : Z;
  c5_client_id : bytes;
  c5_will : option Will5;
  c5_username : option bytes;
  c5_password : option bytes;
  c5_properties : list Property;
  c5_clean_start : bool;
}.

Definition MqttConnect5_new (client_id : bytes) (username password : option bytes)
    (will : option Will5) (keep_alive : Z) (clean_start : bool) (properties : list Property)
    : MqttConnect5 := {|
  c5_protocol_name := str "MQTT"; c5_protocol_version := 5; c5_keep_alive := keep_alive;
  c5_client_id := client_id; c5_will := will; c5_username := username; c5_password := password;
  c5_properties := properties; c5_clean_start := clean_start;
|}.

Record MqttConnAck5 : Type := {
  ca5_session_present : bool;
  ca5_reason_code : Z;
  ca5_properties : option (list Property);
}.

Record MqttPublish5 : Type := {
  p5_topic_name : bytes;
  p5_qos : Z;
  p5_dup : bool;
  p5_retain : bool;
  p5_packet_id : option Z;
  p5_payload : bytes;
  p5_properties : list Property;
}.

(** [MqttPubAck], [MqttPubRec], [MqttPubRel] and [MqttPubComp] of MQTT 5. *)
Record PacketIdAck5 : Type := {
  a5_packet_id : Z;
  a5_reason_code : Z;
  a5_properties : list Property;
}.

Definition PacketIdAck5_new (packet_id reason_code : Z) (properties : list Property)
    : PacketIdAck5 :=
  {| a5_packet_id := packet_id; a5_reason_code := reason_code; a5_properties := properties |}.

Record MqttSubscribe5 : Type := {
  s5_packet_id : Z;
  s5_subscriptions : list TopicSubscription;
  s5_properties : list Property;
}.

(** [MqttSubAck] and [MqttUnsubAck] of MQTT 5 have the same fields. *)
Record ReasonCodesAck5 : Type := {
  r5_packet_id : Z;
  r5_reason_codes : bytes;
  r5_properties : list Property;
}.

Record MqttUnsubscribe5 : Type := {
  u5_packet_id : Z;
  u5_topic_filters : list bytes;
  u5_properties : list Property;
}.

Record MqttDisconnect5 : Type := {
  d5_reason_code : Z;
  d5_properties : list Property;
}.

Record MqttAuth : Type := {
  au_reason_code : Z;
  au_properties : list Property;
}.

(** ** MQTT 3.1.1 packets *)
Record Will3 : Type := {
  w3_retain : bool;
  w3_qos : Z;
  w3_topic : bytes;
  w3_message : bytes;
}.

Record MqttConnect3 : Type := {
  c3_protocol_name : bytes;
  c3_protocol_version : Z;
  c3_clean_session : bool;
  c3_keep_alive : Z;
  c3_client_id : bytes;
  c3_will : option Will3;
  c3_username : option bytes;
  c3_password : option bytes;
}.

Record MqttConnAck3 : Type := {
  ca3_session_present : bool;
  ca3_return_code : Z;
}.

Record MqttPublish3 : Type := {
  p3_dup : bool;
  p3_qos : Z;
  p3_retain : bool;
  p3_topic_name : bytes;
  p3_message_id : option Z;
  p3_payload : bytes;
}.

(** [MqttPubAck], [MqttPubRec], [MqttPubRel], [MqttPubComp] and [MqttUnsubAck] of MQTT 3. *)
Record PacketIdAck3 : Type := {
  a3_message_id : Z;
}.

Record SubscriptionTopic : Type := {
  st_topic_filter : bytes;
  st_qos : Z;
}.

Record MqttSubscribe3 : Type := {
  s3_message_id : Z;
  s3_subscriptions : list SubscriptionTopic;
}.

Record MqttSubAck3 : Type := {
  sa3_message_id : Z;
  sa3_return_codes : bytes;
}.

Record MqttUnsubscribe3 : Type := {
  u3_message_id : Z;
  u3_topic_filters : list bytes;
}.

(** ** [MqttPacket] *)
Inductive MqttPacket : Type :=
  | Connect5 (p : MqttConnect5)
  | ConnAck5 (p : MqttConnAck5)
  | Publish5 (p : MqttPublish5)
  | PubAck5 (p : PacketIdAck5)
  | PubRec5 (p : PacketIdAck5)
  | PubRel5 (p : PacketIdAck5)
  | PubComp5 (p : PacketIdAck5)
  | Subscribe5 (p : MqttSubscribe5)
  | SubAck5 (p : ReasonCodesAck5)
  | Unsubscribe5 (p : MqttUnsubscribe5)
  | UnsubAck5 (p : ReasonCodesAck5)
  | PingReq5
  | PingResp5
  | Disconnect5 (p : MqttDisconnect5)
  | Auth (p : MqttAuth)
  | Connect3 (p : MqttConnect3)
  | ConnAck3 (p : MqttConnAck3)
  | Publish3 (p : MqttPublish3)
  | PubAck3 (p : PacketIdAck3)
  | PubRec3 (p : PacketIdAck3)
  | PubRel3 (p : PacketIdAck3)
  | PubComp3 (p : PacketIdAck3)
  | Subscribe3 (p : MqttSubscribe3)
  | SubAck3 (p : MqttSubAck3)
  | Unsubscribe3 (p : MqttUnsubscribe3)
  | UnsubAck3 (p : PacketIdAck3)
  | PingReq3
  | PingResp3
  | Disconnect3.

Definition MqttPacket_packet_type (self : MqttPacket) : ControlPacketType :=
  match self with
  | Connect5 _ | Connect3 _ => CONNECT
  | ConnAck5 _ | ConnAck3 _ => CONNACK
  | Publish5 _ | Publish3 _ => PUBLISH
  | PubAck5 _ | PubAck3 _ => PUBACK
  | PubRec5 _ | PubRec3 _ => PUBREC
  | PubRel5 _ | PubRel3 _ => PUBREL
  | PubComp5 _ | PubComp3 _ => PUBCOMP
  | Subscribe5 _ | Subscribe3 _ => SUBSCRIBE
  | SubAck5 _ | SubAck3 _ => SUBACK
  | Unsubscribe5 _ | Unsubscribe3 _ => UNSUBSCRIBE
  | UnsubAck5 _ | UnsubAck3 _ => UNSUBACK
  | PingReq5 | PingReq3 => PINGREQ
  | PingResp5 | PingResp3 => PINGRESP
  | Disconnect5 _ | Disconnect3 => DISCONNECT
  | Auth _ => AUTH
  end.

Definition MqttPacket_set_dup (self : MqttPacket) (dup : bool) : MqttPacket :=
  match self with
  | Publish5 p => Publish5 {|
      p5_topic_name := p5_topic_name p; p5_qos := p5_qos p; p5_dup := dup;
      p5_retain := p5_retain p; p5_packet_id := p5_packet_id p; p5_payload := p5_payload p;
      p5_properties := p5_properties p |}
  | Publish3 p => Publish3 {|
      p3_dup := dup; p3_qos := p3_qos p; p3_retain := p3_retain p;
      p3_topic_name := p3_topic_name p; p3_message_id := p3_message_id p;
      p3_payload := p3_payload p |}
  | _ => self
  end.

(** ** [validate] *)

(** [for x in l { f(x)?; }] *)
Fixpoint for_each {A} (f : A → res ()) (l : list A) : res () :=
  match l with
  | [] => Ok ()
  | x :: l' => _ ← f x; for_each f l'
  end.

(** [if let Some(x) = o { f(x)?; }] *)
Definition if_some {A} (o : option A) (f : A → res ()) : res () :=
  match o with Some x => f x | None => Ok () end.

Definition MqttConnect5_validate (self : MqttConnect5) : res () :=
  _ ← validation_string (c5_protocol_name self);
  _ ← validation_string (c5_client_id self);
  _ ← if_some (c5_username self) validation_string;
  _ ← if_some (c5_will self) (λ will,
        _ ← validation_require (w5_will_qos will <=? 2) "Will QoS cannot exceed 2";
        validation_topic (w5_will_topic will));
  _ ← validation_properties (c5_properties self) CtxConnect;
  Ok ().

Definition MqttConnAck5_validate (self : MqttConnAck5) : res () :=
  _ ← validation_reason CONNACK (ca5_reason_code self);
  _ ← validation_properties (default [] (ca5_properties self)) CtxConnAck;
  validation_require (negb (ca5_session_present self) || (ca5_reason_code self =? 0))
    "Failed CONNACK cannot set Session Present".

Definition is_TopicAlias (p : Property) : bool :=
  match p with TopicAlias _ => true | _ => false end.

Definition MqttPublish5_validate (self : MqttPublish5) : res () :=
  _ ← validation_publish (p5_qos self) (p5_dup self) (p5_packet_id self);
  _ ← validation_properties (p5_properties self) CtxPublish;
  if bool_decide (p5_topic_name self = []) then
    validation_require (existsb is_TopicAlias (p5_properties self))
      "Empty topic requires a Topic Alias"
  else validation_topic (p5_topic_name self).

Definition PacketIdAck5_validate (packet_type : ControlPacketType) (self : PacketIdAck5)
    : res () :=
  _ ← validation_packet_id (a5_packet_id self);
  _ ← validation_reason packet_type (a5_reason_code self);
  validation_properties (a5_properties self) CtxAck.

Definition MqttSubscribe5_validate (self : MqttSubscribe5) : res () :=
  _ ← validation_packet_id (s5_packet_id self);
  _ ← validation_require (negb (bool_decide (s5_subscriptions self = [])))
        "SUBSCRIBE must contain a subscription";
  _ ← validation_properties (s5_properties self) CtxSubscribe;
  for_each validation_subscription (s5_subscriptions self).

Definition MqttSubAck5_validate (self : ReasonCodesAck5) : res () :=
  _ ← validation_packet_id (r5_packet_id self);
  _ ← validation_require (negb (bool_decide (r5_reason_codes self = [])))
        "SUBACK must contain a reason code";
  _ ← validation_properties (r5_properties self) CtxAck;
  for_each (validation_reason SUBACK) (r5_reason_codes self).

Definition MqttUnsubscribe5_validate (self : MqttUnsubscribe5) : res () :=
  _ ← validation_packet_id (u5_packet_id self);
  _ ← validation_require (negb (bool_decide (u5_topic_filters self = [])))
        "UNSUBSCRIBE must contain a topic filter";
  _ ← validation_properties (u5_properties self) CtxUnsubscribe;
  for_each (λ filter,
    _ ← validate_topic_filter filter;
    validate_shared_subscription filter) (u5_topic_filters self).

Definition MqttUnsubAck5_validate (self : ReasonCodesAck5) : res () :=
  _ ← validation_packet_id (r5_packet_id self);
  _ ← validation_require (negb (bool_decide (r5_reason_codes self = [])))
        "UNSUBACK must contain a reason code";
  _ ← validation_properties (r5_properties self) CtxAck;
  for_each (validation_reason UNSUBACK) (r5_reason_codes self).

Definition MqttDisconnect5_validate (self : MqttDisconnect5) : res () :=
  _ ← validation_reason DISCONNECT (d5_reason_code self);
  validation_properties (d5_properties self) CtxDisconnect.

Definition MqttAuth_validate (self : MqttAuth) : res () :=
  _ ← validation_reason AUTH (au_reason_code self);
  validation_properties (au_properties self) CtxAuth.

Definition MqttConnect3_validate (self : MqttConnect3) : res () :=
  _ ← validation_string (c3_protocol_name self);
  _ ← validation_string (c3_client_id self);
  _ ← if_some (c3_username self) validation_string;
  _ ← if_some (c3_will self) (λ will,
        _ ← validation_require (w3_qos will <=? 2) "Will QoS cannot exceed 2";
        validation_topic (w3_topic will));
  Ok ().

Definition MqttConnAck3_validate (self : MqttConnAck3) : res () :=
  _ ← validation_require (ca3_return_code self <=? 5) "Invalid CONNACK return code";
  validation_require (negb (ca3_session_present self) || (ca3_return_code self =? 0))
    "Failed CONNACK cannot set Session Present".

Definition MqttPublish3_validate (self : MqttPublish3) : res () :=
  _ ← validation_publish (p3_qos self) (p3_dup self) (p3_message_id self);
  validation_topic (p3_topic_name self).

Definition PacketIdAck3_validate (self : PacketIdAck3) : res () :=
  validation_packet_id (a3_message_id self).

Definition MqttSubscribe3_validate (self : MqttSubscribe3) : res () :=
  _ ← validation_packet_id (s3_message_id self);
  _ ← validation_require (negb (bool_decide (s3_subscriptions self = [])))
        "SUBSCRIBE must contain a subscription";
  for_each (λ sub,
    _ ← validate_topic_filter (st_topic_filter sub);
    validation_require (st_qos sub <=? 2) "Subscription QoS cannot exceed 2")
    (s3_subscriptions self).

(** [matches!(code, 0 | 1 | 2 | 0x80)] *)
Definition suback3_code_ok (code : Z) : bool :=
  (code =? 0) || (code =? 1) || (code =? 2) || (code =? 128).

Definition MqttSubAck3_validate (self : MqttSubAck3) : res () :=
  _ ← validation_packet_id (sa3_message_id self);
  _ ← validation_require (negb (bool_decide (sa3_return_codes self = [])))
        "SUBACK must contain a reason code";
  for_each (λ code, validation_require (suback3_code_ok code) "Invalid SUBACK return code")
    (sa3_return_codes self).

Definition MqttUnsubscribe3_validate (self : MqttUnsubscribe3) : res () :=
  _ ← validation_packet_id (u3_message_id self);
  _ ← validation_require (negb (bool_decide (u3_topic_filters self = [])))
        "UNSUBSCRIBE must contain a topic filter";
  for_each validate_topic_filter (u3_topic_filters self).

Definition MqttPacket_validate (self : MqttPacket) : res () :=
  match self with
  | Connect5 p => MqttConnect5_validate p
  | ConnAck5 p => MqttConnAck5_validate p
  | Publish5 p => MqttPublish5_validate p
  | PubAck5 p => PacketIdAck5_validate PUBACK p
  | PubRec5 p => PacketIdAck5_validate PUBREC p
  | PubRel5 p => PacketIdAck5_validate PUBREL p
  | PubComp5 p => PacketIdAck5_validate PUBCOMP p
  | Subscribe5 p => MqttSubscribe5_validate p
  | SubAck5 p => MqttSubAck5_validate p
  | Unsubscribe5 p => MqttUnsubscribe5_validate p
  | UnsubAck5 p => MqttUnsubAck5_validate p
  | PingReq5 => Ok ()
  | PingResp5 => Ok ()
  | Disconnect5 p => MqttDisconnect5_validate p
  | Auth p => MqttAuth_validate p
  | Connect3 p => MqttConnect3_validate p
  | ConnAck3 p => MqttConnAck3_validate p
  | Publish3 p => MqttPublish3_validate p
  | PubAck3 p => PacketIdAck3_validate p
  | PubRec3 p => PacketIdAck3_validate p
  | PubRel3 p => PacketIdAck3_validate p
  | PubComp3 p => PacketIdAck3_validate p
  | Subscribe3 p => MqttSubscribe3_validate p
  | SubAck3 p => MqttSubAck3_validate p
  | Unsubscribe3 p => MqttUnsubscribe3_validate p
  | UnsubAck3 p => PacketIdAck3_validate p
  | PingReq3 => Ok ()
  | PingResp3 => Ok ()
  | Disconnect3 => Ok ()
  end.

(** ** [ParseOk] *)
Inductive ParseOk : Type :=
  | Continue (hint consumed : Z)
  | Packet (packet : MqttPacket) (consumed : Z)
  | TopicName (topic_name : bytes) (consumed : Z).

Definition parse_topic_name (buffer : bytes) : res ParseOk :=
  '(name, consumed) ← parse_utf8_string buffer;
  Ok (TopicName name consumed).

Definition validated_packet (packet : MqttPacket) (consumed : Z) : res ParseOk :=
  _ ← MqttPacket_validate packet;
  Ok (Packet packet consumed).

(** ** The trait [MqttControlPacket]

    A value of this record is one [impl MqttControlPacket for P]; the default methods are
    functions over it. *)
Record MqttControlPacket (P : Type) : Type := {
  mcp_validate : P → res ();
  mcp_control_packet_type : Z;
  mcp_flags : P → Z;
  mcp_variable_header : P → res bytes;
  mcp_payload : P → res bytes;
  mcp_from_bytes : bytes → res ParseOk;
}.
Arguments mcp_validate {_} _ _.
Arguments mcp_control_packet_type {_} _.
Arguments mcp_flags {_} _ _.
Arguments mcp_variable_header {_} _ _.
Arguments mcp_payload {_} _ _.
Arguments mcp_from_bytes {_} _ _.

Section default_methods.
Context {P : Type} (impl : MqttControlPacket P).

Definition fixed_header (self : P) (len : Z) : bytes :=
  let byte1 := Z.lor (as_u8 (Z.shiftl (mcp_control_packet_type impl) 4)) (mcp_flags impl self) in
  VariableByteInteger_encode_into (as_u32 len) [byte1].

(** [encode_to_buffer] changes the caller's buffer only when it succeeds. *)
Definition encode_to_buffer (self : P) (b : bytes) : res bytes :=
  _ ← mcp_validate impl self;
  vhdr ← mcp_variable_header impl self;
  payload ← mcp_payload impl self;
  let remaining_length := zlen vhdr + zlen payload in
  Ok (b ++ fixed_header self remaining_length ++ vhdr ++ payload).

Definition to_bytes (self : P) : res bytes :=
  _ ← mcp_validate impl self;
  vhdr ← mcp_variable_header impl self;
  payload ← mcp_payload impl self;
  let remaining_length := zlen vhdr + zlen payload in
  let fixed_hdr := fixed_header self remaining_length in
  Ok (fixed_hdr ++ vhdr ++ payload).
End default_methods.

(** ** [encode_publish_into] *)
Definition encode_publish_header_into (flags : Z) (topic : bytes) (packet_id : option Z)
    (properties_len payload_len : Z) (b : bytes) : bytes :=
  let remaining_length :=
    2 + zlen topic + bool_as_u8 (bool_decide (is_Some packet_id)) * 2
      + properties_len + payload_len in
  let b := b ++ [Z.lor 48 flags] in
  let b := VariableByteInteger_encode_into (as_u32 remaining_length) b in
  let b := b ++ u16_to_be_bytes (as_u16 (zlen topic)) in
  let b := b ++ topic in
  match packet_id with
  | Some id => b ++ u16_to_be_bytes id
  | None => b
  end.

Definition encode_publish_into (flags : Z) (topic : bytes) (packet_id : option Z)
    (properties payload b : bytes) : bytes :=
  let b := encode_publish_header_into flags topic packet_id (zlen properties) (zlen payload) b in
  b ++ properties ++ payload.

(** ** Typing: what the field types of the source guarantee *)
Definition wf_str (s : bytes) : Prop := u8s s ∧ is_string s.
Definition wf_opt {A} (P : A → Prop) (o : option A) : Prop :=
  match o with Some x => P x | None => True end.

Definition wf_will_properties (w : WillProperties) : Prop :=
  wf_opt is_u32 (wp_will_delay_interval w) ∧ wf_opt is_u8 (wp_payload_format_indicator w) ∧
  wf_opt is_u32 (wp_message_expiry_interval w) ∧ wf_opt wf_str (wp_content_type w) ∧
  wf_opt wf_str (wp_response_topic w) ∧ wf_opt u8s (wp_correlation_data w) ∧
  Forall wf_property (wp_user_properties w).

Definition wf_will5 (w : Will5) : Prop :=
  is_u8 (w5_will_qos w) ∧ wf_str (w5_will_topic w) ∧ u8s (w5_will_message w) ∧
  wf_will_properties (w5_properties w).

Definition wf_connect5 (p : MqttConnect5) : Prop :=
  wf_str (c5_protocol_name p) ∧ is_u8 (c5_protocol_version p) ∧ is_u16 (c5_keep_alive p) ∧
  wf_str (c5_client_id p) ∧ wf_opt wf_will5 (c5_will p) ∧ wf_opt wf_str (c5_username p) ∧
  wf_opt u8s (c5_password p) ∧ Forall wf_property (c5_properties p).

Definition wf_connack5 (p : MqttConnAck5) : Prop :=
  is_u8 (ca5_reason_code p) ∧ wf_opt (Forall wf_property) (ca5_properties p).

Definition wf_publish5 (p : MqttPublish5) : Prop :=
  wf_str (p5_topic_name p) ∧ is_u8 (p5_qos p) ∧ wf_opt is_u16 (p5_packet_id p) ∧
  u8s (p5_payload p) ∧ Forall wf_property (p5_properties p).

Definition wf_ack5 (p : PacketIdAck5) : Prop :=
  is_u16 (a5_packet_id p) ∧ is_u8 (a5_reason_code p) ∧ Forall wf_property (a5_properties p).

Definition wf_subscription (s : TopicSubscription) : Prop :=
  wf_str (ts_topic_filter s) ∧ is_u8 (ts_qos s) ∧ is_u8 (ts_retain_handling s).

Definition wf_subscribe5 (p : MqttSubscribe5) : Prop :=
  is_u16 (s5_packet_id p) ∧ Forall wf_subscription (s5_subscriptions p) ∧
  Forall wf_property (s5_properties p).

Definition wf_reason_codes5 (p : ReasonCodesAck5) : Prop :=
  is_u16 (r5_packet_id p) ∧ u8s (r5_reason_codes p) ∧ Forall wf_property (r5_properties p).

Definition wf_unsubscribe5 (p : MqttUnsubscribe5) : Prop :=
  is_u16 (u5_packet_id p) ∧ Forall wf_str (u5_topic_filters p) ∧
  Forall wf_property (u5_properties p).

Definition wf_disconnect5 (p : MqttDisconnect5) : Prop :=
  is_u8 (d5_reason_code p) ∧ Forall wf_property (d5_properties p).

Definition wf_auth (p : MqttAuth) : Prop :=
  is_u8 (au_reason_code p) ∧ Forall wf_property (au_properties p).

Definition wf_will3 (w : Will3) : Prop :=
  is_u8 (w3_qos w) ∧ wf_str (w3_topic w) ∧ u8s (w3_message w).

Definition wf_connect3 (p : MqttConnect3) : Prop :=
  wf_str (c3_protocol_name p) ∧ is_u8 (c3_protocol_version p) ∧ is_u16 (c3_keep_alive p) ∧
  wf_str (c3_client_id p) ∧ wf_opt wf_will3 (c3_will p) ∧ wf_opt wf_str (c3_username p) ∧
  wf_opt u8s (c3_password p).

Definition wf_publish3 (p : MqttPublish3) : Prop :=
  wf_str (p3_topic_name p) ∧ is_u8 (p3_qos p) ∧ wf_opt is_u16 (p3_message_id p) ∧
  u8s (p3_payload p).

Definition wf_subscription3 (s : SubscriptionTopic) : Prop :=
  wf_str (st_topic_filter s) ∧ is_u8 (st_qos s).

Definition wf_packet (p : MqttPacket) : Prop :=
  match p with
  | Connect5 p => wf_connect5 p
  | ConnAck5 p => wf_connack5 p
  | Publish5 p => wf_publish5 p
  | PubAck5 p | PubRec5 p | PubRel5 p | PubComp5 p => wf_ack5 p
  | Subscribe5 p => wf_subscribe5 p
  | SubAck5 p | UnsubAck5 p => wf_reason_codes5 p
  | Unsubscribe5 p => wf_unsubscribe5 p
  | Disconnect5 p => wf_disconnect5 p
  | Auth p => wf_auth p
  | Connect3 p => wf_connect3 p
  | ConnAck3 p => is_u8 (ca3_return_code p)
  | Publish3 p => wf_publish3 p
  | PubAck3 p | PubRec3 p | PubRel3 p | PubComp3 p | UnsubAck3 p => is_u16 (a3_message_id p)
  | Subscribe3 p => is_u16 (s3_message_id p) ∧ Forall wf_subscription3 (s3_subscriptions p)
  | SubAck3 p => is_u16 (sa3_message_id p) ∧ u8s (sa3_return_codes p)
  | Unsubscribe3 p => is_u16 (u3_message_id p) ∧ Forall wf_str (u3_topic_filters p)
  | PingReq5 | PingResp5 | PingReq3 | PingResp3 | Disconnect3 => True
  end.

(** ** Validation never panics *)
Lemma safe_for_each {A} (f : A → res ()) l :
  (∀ x, safe (f x) (λ _, True)) → safe (for_each f l) (λ _, True).
Proof.
  intros Hf. induction l as [|x l IH]; [done|]. simpl.
  eapply safe_bind; [apply Hf|]. intros [] _ _. apply IH.
Qed.

Lemma for_each_Ok {A} (f : A → res ()) l :
  for_each f l = Ok () ↔ Forall (λ x, f x = Ok ()) l.
Proof.
  induction l as [|x l IH]; simpl; [split; [constructor|done]|].
  rewrite Forall_cons_iff, <- IH. destruct (f x) as [[]| |]; naive_solver.
Qed.

Lemma safe_if_some {A} (o : option A) f :
  (∀ x, safe (f x) (λ _, True)) → safe (if_some o f) (λ _, True).
Proof. intros. by destruct o; simpl. Qed.

Lemma safe_weak {E A} (m : result E A) P : safe m P → safe m (λ _, True).
Proof. intros H. by eapply safe_mono. Qed.

Lemma safe_MqttPacket_validate p : safe (MqttPacket_validate p) (λ _, True).
Proof.
  destruct p; simpl; try exact I;
    unfold MqttConnect5_validate, MqttConnAck5_validate, MqttPublish5_validate,
      PacketIdAck5_validate, MqttSubscribe5_validate, MqttSubAck5_validate,
      MqttUnsubscribe5_validate, MqttUnsubAck5_validate, MqttDisconnect5_validate,
      MqttAuth_validate, MqttConnect3_validate, MqttConnAck3_validate, MqttPublish3_validate,
      PacketIdAck3_validate, MqttSubscribe3_validate, MqttSubAck3_validate,
      MqttUnsubscribe3_validate;
    repeat first
      [ exact I
      | apply safe_for_each; intros ?
      | apply safe_if_some; intros ?
      | eapply safe_weak; solve [eauto with safe]
      | eapply (safe_bind _ _ (λ _, True)); [|intros ? _ _]
      | case_match ].
Qed.
