(* ===== verification/Framing.v ===== *)
(** * Framing: the fixed header every codec shares

    The specification side of the packet codecs.  [frame byte1 body] is the wire form of a
    control packet (MQTT 2.1): the type-and-flags byte, the length of the body as a variable
    byte integer, the body.  [decodes_frame] and [decoded] state what an encoder/decoder pair
    and a decoder alone promise; the packet codecs discharge them, and the dispatcher and the
    stream parser are proved against them. *)
From S2P Require Import Prelude BaseData TopicFilter Validation Properties Packets.

(** [format!("Inconsistent offset {} != total: {}", offset, total_len)] *)
Definition inconsistent_offset (offset total_len : Z) : ParseError :=
  InternalError ("Inconsistent offset " +:+ fmt_dec offset +:+ " != total: " +:+ fmt_dec total_len).

(** The largest remaining length of a control packet. *)
Definition MAX_REMAINING : Z := 268435455.

Definition frame (byte1 : Z) (body : bytes) : bytes :=
  byte1 :: VariableByteInteger_encode (zlen body) ++ body.

(** The size of the first packet of a buffer, as its fixed header gives it. *)
Definition frame_size (b : bytes) : option Z :=
  match VariableByteInteger_decode (drop 1 b) with
  | Ok (size, vbi_len) => Some (1 + vbi_len + size)
  | _ => None
  end.

(** The contract of a decoder on its own: no panic, and a packet is returned only when the
    whole frame is there, with exactly the frame's size as the number of consumed bytes,
    well typed and validated; [Continue] tells how many bytes the frame lacks. *)
Definition decoded (b : bytes) (r : ParseOk) : Prop :=
  match r with
  | Packet p n => frame_size b = Some n ∧ 2 <= n <= zlen b ∧ wf_packet p ∧
                  MqttPacket_validate p = Ok ()
  | Continue h c => c = 0 ∧ 0 < h ∧ (frame_size b = Some (zlen b + h) ∨ (zlen b = 1 ∧ h = 1))
  | TopicName _ _ => False
  end.

(** The contract of an encoder/decoder pair. *)
Definition decodes_frame (from_bytes : bytes → res ParseOk) (byte1 : Z) (body : bytes)
    (p : MqttPacket) : Prop :=
  ∀ rest, from_bytes (frame byte1 body ++ rest) = Ok (Packet p (zlen (frame byte1 body))).

Lemma zlen_frame byte1 body :
  zlen (frame byte1 body) = 1 + zlen (VariableByteInteger_encode (zlen body)) + zlen body.
Proof. unfold frame. zlia. Qed.

(** What a decoder finds at the start of a frame. *)
Section frame_facts.
Variables (byte1 : Z) (body rest : bytes).
Let b := frame byte1 body ++ rest.
Let vl := zlen (VariableByteInteger_encode (zlen body)).

Lemma frame_packet_type : packet_type b = Ok (Z.shiftr byte1 4).
Proof. apply packet_type_cons. Qed.

Lemma frame_first {E} : index_at (E:=E) b 0 = Ok byte1.
Proof. unfold index_at, b, frame. cbn [app]. by rewrite get_at_0. Qed.

Lemma frame_get_first : get_at b 0 = Some byte1.
Proof. unfold b, frame. cbn [app]. by rewrite get_at_0. Qed.

Lemma frame_tail {E} :
  index_from (E:=E) b 1 = Ok (VariableByteInteger_encode (zlen body) ++ body ++ rest).
Proof.
  apply suffix_at_index_from. exists [byte1]. unfold b, frame. cbn [app].
  by rewrite <- app_assoc.
Qed.

Lemma frame_remaining :
  zlen body <= MAX_REMAINING →
  parse_remaining_length (VariableByteInteger_encode (zlen body) ++ body ++ rest)
  = Ok (zlen body, vl).
Proof.
  unfold MAX_REMAINING. intros. pose proof (zlen_nonneg body).
  by apply parse_remaining_length_encode.
Qed.

Lemma frame_body : suffix_at b (1 + vl) (body ++ rest).
Proof.
  exists (byte1 :: VariableByteInteger_encode (zlen body)). unfold b, vl, frame.
  split; [cbn [app]; by rewrite <- app_assoc|]. by zsimp.
Qed.

Lemma frame_zlen : zlen b = 1 + vl + zlen body + zlen rest.
Proof. unfold b, vl. rewrite zlen_app, zlen_frame. done. Qed.

Lemma frame_vl_pos : zlen body <= MAX_REMAINING → 1 <= vl <= 4.
Proof. unfold MAX_REMAINING. intros. apply vbi_encode_bound. zlia. Qed.
End frame_facts.

(** Run the opening of a decoder on a frame; leaves the body's position, the buffer's length
    and the bounds of the header. *)
Ltac run_header :=
  match goal with
  | H : zlen ?body <= MAX_REMAINING |- context [frame ?byte1 ?body ++ ?rest] =>
      pose proof (frame_body byte1 body rest);
      pose proof (frame_zlen byte1 body rest);
      pose proof (frame_vl_pos body H);
      pose proof (zlen_nonneg body); pose proof (zlen_nonneg rest);
      let vl := fresh "vl" in let b := fresh "buf" in
      rewrite ?zlen_frame;
      rewrite ?frame_packet_type, ?frame_first, ?frame_get_first, ?frame_tail; rsimp;
      rewrite ?(frame_remaining body rest H); rsimp;
      set (vl := zlen (VariableByteInteger_encode (zlen body))) in *;
      set (b := frame byte1 body ++ rest) in *;
      clearbody vl b
  end.

(** Decide the outermost conditions by arithmetic. *)
Ltac run_if :=
  match goal with
  | |- context [if ?c then _ else _] =>
      first [replace c with true by lia | replace c with false by lia]
  end; rsimp.

(** Move an offset. *)
Lemma suffix_at_eq b off off' s : suffix_at b off s → off = off' → suffix_at b off' s.
Proof. by intros ? <-. Qed.

(** ** The default encoder writes a frame *)
Lemma vbi_encoded_len_big n : MAX_REMAINING < n → is_u32 n → VariableByteInteger_encoded_len n = 5.
Proof.
  unfold MAX_REMAINING, is_u32. intros Hbig Hs.
  unfold VariableByteInteger_encoded_len, vbi_fuel. cbn [VariableByteInteger_encoded_len_loop].
  rewrite !Z.shiftr_div_pow2 by lia. rewrite !Z.div_div by lia. change (2 ^ 7) with 128.
  repeat match goal with |- context [128 <=? ?e] =>
    first [replace (128 <=? e) with true by (Z.div_mod_to_equations; lia)
          |replace (128 <=? e) with false by (Z.div_mod_to_equations; lia)] end.
  reflexivity.
Qed.

Lemma zlen_vbi_encode_pos v : 1 <= zlen (VariableByteInteger_encode v).
Proof.
  unfold VariableByteInteger_encode, VariableByteInteger_encode_into.
  cbn [app VariableByteInteger_encode_loop vbi_fuel]. zlia.
Qed.

(** A packet whose total size is within the protocol's bound has its true remaining length in
    the header, although the encoder never checks the bound. *)
Lemma frame_of_header byte1 (body : bytes) :
  1 + zlen (VariableByteInteger_encode (as_u32 (zlen body))) + zlen body <= MAX_REMAINING + 5 →
  zlen body <= MAX_REMAINING ∧
  byte1 :: VariableByteInteger_encode (as_u32 (zlen body)) ++ body = frame byte1 body.
Proof.
  unfold MAX_REMAINING. intros Hl. pose proof (zlen_nonneg body).
  pose proof (zlen_vbi_encode_pos (as_u32 (zlen body))).
  assert (as_u32 (zlen body) = zlen body) as E by (unfold as_u32; rewrite Z.mod_small; lia).
  rewrite E in *. split; [|done].
  destruct (Z.leb_spec (zlen body) 268435455); [done|].
  assert (is_u32 (zlen body)) by (unfold is_u32; lia).
  rewrite zlen_vbi_encode, vbi_encoded_len_big in Hl by (unfold MAX_REMAINING; done || lia). lia.
Qed.

Section default_encoder.
Context {P : Type} (impl : MqttControlPacket P).

Definition first_byte (self : P) : Z :=
  Z.lor (as_u8 (Z.shiftl (mcp_control_packet_type impl) 4)) (mcp_flags impl self).

Lemma fixed_header_eq self n :
  fixed_header impl self n = first_byte self :: VariableByteInteger_encode (as_u32 n).
Proof. done. Qed.

Lemma encode_to_buffer_to_bytes self b :
  encode_to_buffer impl self b = bs ← to_bytes impl self; Ok (b ++ bs).
Proof.
  unfold encode_to_buffer, to_bytes.
  destruct (mcp_validate impl self), (mcp_variable_header impl self), (mcp_payload impl self);
    reflexivity.
Qed.

Lemma to_bytes_frame self bs :
  to_bytes impl self = Ok bs → zlen bs <= MAX_REMAINING + 5 →
  mcp_validate impl self = Ok () ∧
  ∃ vh pl, mcp_variable_header impl self = Ok vh ∧ mcp_payload impl self = Ok pl ∧
    zlen (vh ++ pl) <= MAX_REMAINING ∧ bs = frame (first_byte self) (vh ++ pl).
Proof.
  unfold to_bytes. intros H Hl.
  apply bind_Ok_inv in H as ([] & Hv & H). apply bind_Ok_inv in H as (vh & Hvh & H).
  apply bind_Ok_inv in H as (pl & Hpl & H). rewrite fixed_header_eq in H.
  rewrite <- zlen_app in H. apply Ok_inj in H. subst bs.
  rewrite <- app_comm_cons in *.
  destruct (frame_of_header (first_byte self) (vh ++ pl)) as [H1 H2].
  { rewrite zlen_cons, (zlen_app (VariableByteInteger_encode _)) in Hl. lia. }
  split; [done|]. exists vh, pl. split_and!; done.
Qed.
End default_encoder.

(** ** The contract from the decoder's side *)
Lemma frame_size_parse b size vl :
  parse_remaining_length (drop 1 b) = Ok (size, vl) → frame_size b = Some (1 + vl + size).
Proof.
  unfold parse_remaining_length, vbi, frame_size.
  destruct (VariableByteInteger_decode (drop 1 b)) as [[v n]| |]; [|done..].
  rsimp. intros H. by res_inv.
Qed.

Lemma index_from_1 {E} b s : index_from (E:=E) b 1 = Ok s → s = drop 1 b.
Proof. unfold index_from, get_from. case_match; [|done]. case_match; naive_solver. Qed.

Lemma safe_validated b p n :
  frame_size b = Some n → 2 <= n <= zlen b → wf_packet p →
  safe (validated_packet p n) (decoded b).
Proof.
  intros. unfold validated_packet.
  destruct (MqttPacket_validate p) as [[]| |] eqn:E; rsimp; [done|done|].
  pose proof (safe_MqttPacket_validate p) as Hs. by rewrite E in Hs.
Qed.

Lemma decoded_Continue b h :
  frame_size b = Some (zlen b + h) → 0 < h → decoded b (Continue h 0).
Proof. intros. simpl. auto. Qed.

(** ** Reading parts of a body *)
Lemma validated_packet_Ok p n :
  MqttPacket_validate p = Ok () → validated_packet p n = Ok (Packet p n).
Proof. intros H. unfold validated_packet. by rewrite H. Qed.

(** The properties of a validated packet have valid values. *)
Lemma validated_property_values ps context :
  validation_properties ps context = Ok () →
  Forall (λ p, validation_property_value p = Ok ()) ps.
Proof.
  intros [H _]%validation_properties_spec. eapply Forall_impl; [exact H|]. naive_solver.
Qed.

(** Reading a property section at a position of a buffer. *)
Lemma parse_properties_at ps h rest :
  encode_properities_hdr ps = Ok h → Forall wf_property ps → zlen h <= MAX_REMAINING →
  parse_properties_hdr (h ++ rest) = Ok (ps, zlen h).
Proof.
  unfold MAX_REMAINING. intros Hh Hwf Hl.
  apply encode_properities_hdr_Ok in Hh as [-> Hv]; [|done].
  apply properties_section_roundtrip; [done..|].
  unfold properties_section in Hl. rewrite zlen_app in Hl. zlen_pos. lia.
Qed.

Lemma parse_packet_id_at id rest :
  is_u16 id → parse_packet_id (u16_to_be_bytes id ++ rest) = Ok (id, 2).
Proof. apply TwoByteInteger_roundtrip. Qed.

(** The first byte of a packet without data in its flags. *)
Lemma header_byte kind flags :
  0 <= flags < 16 →
  let byte1 := Z.lor (as_u8 (Z.shiftl (ControlPacketType_as_u8 kind) 4)) flags in
  Z.shiftr byte1 4 = ControlPacketType_as_u8 kind ∧ Z.land byte1 15 = flags.
Proof.
  intros Hf.
  pose proof (forall_range 16 (λ f, let b := Z.lor (as_u8 (Z.shiftl (ControlPacketType_as_u8 kind) 4)) f in
    (Z.shiftr b 4 =? ControlPacketType_as_u8 kind) && (Z.land b 15 =? f))) as H.
  specialize (H ltac:(by destruct kind) flags Hf). simpl in *. lia.
Qed.

Lemma encode_utf8_string_valid s :
  validation_string s = Ok () → encode_utf8_string s = Ok (Utf8String_encode s).
Proof.
  intros [Hl Hc]%validation_string_Ok. unfold encode_utf8_string, validate_mqtt_utf8_string.
  rewrite Hc. by replace (u16_MAX <? zlen s) with false by lia.
Qed.

Lemma parse_string_at s rest :
  is_string s → validation_string s = Ok () →
  parse_utf8_string (Utf8String_encode s ++ rest) = Ok (s, 2 + zlen s).
Proof. intros Hs [Hl Hn]%validation_string_Ok. by apply Utf8String_roundtrip. Qed.

Lemma encode_properities_hdr_pos ps h :
  Forall wf_property ps → encode_properities_hdr ps = Ok h → 1 <= zlen h.
Proof.
  intros Hwf Hh. apply encode_properities_hdr_Ok in Hh as [-> _]; [|done].
  unfold properties_section. rewrite zlen_app.
  pose proof (zlen_vbi_encode_pos (as_u32 (zlen (properties_bytes ps)))). zlen_pos. lia.
Qed.

(** ** The opening of a decoder on an arbitrary buffer *)
Lemma safe_header {A} b (k : Z → Z → res A) Q :
  u8s b → 1 <= zlen b →
  (∀ size vl, frame_size b = Some (1 + vl + size) → 0 <= size → 1 <= vl → 1 + vl <= zlen b →
    safe (k size vl) Q) →
  safe (tail ← index_from b 1; '(size, vl) ← parse_remaining_length tail; k size vl) Q.
Proof.
  intros Hb H1 Hk. eapply safe_bind; [by apply safe_index_from; [|lia]|].
  intros tail [Hl Ht] E. apply index_from_1 in E as ->.
  eapply safe_bind; [by apply safe_parse_remaining_length|].
  intros [size vl] (Hs & Hv & Hle) E. simpl in *.
  apply frame_size_parse in E. apply Hk; [done|lia..].
Qed.

(** Safety of a decoder: run it, close the leaves with the decoder contract. *)
Ltac safe_leaf :=
  match goal with
  | |- safe (Ok (Continue _ _)) _ =>
      apply decoded_Continue; [match goal with H : frame_size _ = _ |- _ => rewrite H end; f_equal|]; lia
  | |- safe (validated_packet _ _) _ =>
      apply safe_validated;
        [match goal with H : frame_size _ = _ |- _ => rewrite H end; f_equal; lia|lia|]
  end.
Ltac safe_decoder :=
  repeat first
    [ safe_leaf
    | match goal with |- safe (index_from _ 1 ≫= _) _ =>
        eapply safe_header; [assumption|lia|intros ? ? ? ? ? ?] end
    | safe_step ].
