(* ===== verification/AckCodec.v ===== *)
(** * Codecs of the acknowledgement packets

    Models the packets generated by [v5_packet_id_ack!] (PUBACK, PUBREC, PUBREL, PUBCOMP) and
    [v3_packet_id_ack!] (the same and UNSUBACK), the SUBACK of both versions and the v5
    UNSUBACK: [src/mqtt_serde/mqttv5/{packet_id_ack,suback,unsuback}.rs] and
    [src/mqtt_serde/mqttv3/{packet_id_ack,suback}.rs].  Each decoder is shown to read back what
    the encoder wrote and to satisfy the decoder contract [decoded] on every buffer. *)
From S2P Require Import Prelude BaseData TopicFilter Validation Properties Packets Framing.

(** ** [v5_packet_id_ack!] *)
Section v5_packet_id_ack.
Context (kind : ControlPacketType) (pkt_flags : Z) (packet_name : string)
  (packet_variant : PacketIdAck5 → MqttPacket).

Definition PacketIdAck5_variable_header (self : PacketIdAck5) : res bytes :=
  let b := u16_to_be_bytes (a5_packet_id self) in
  if (a5_reason_code self =? 0) && bool_decide (a5_properties self = []) then Ok b else
  let b := b ++ [a5_reason_code self] in
  props ← encode_properities_hdr (a5_properties self);
  Ok (b ++ props).

Definition PacketIdAck5_from_bytes (buffer : bytes) : res ParseOk :=
  pkt_type ← packet_type buffer;
  if negb (pkt_type =? ControlPacketType_as_u8 kind) then Err InvalidPacketType else
  b0 ← index_at buffer 0;
  let flags := Z.land b0 15 in
  if negb (flags =? pkt_flags)
  then Err (ParseErr ("Invalid " +:+ packet_name +:+ " flags: expected 0x"
                      +:+ fmt_02x pkt_flags +:+ ", got 0x" +:+ fmt_02x flags)) else
  tail ← index_from buffer 1;
  '(size, vbi_len) ← parse_remaining_length tail;
  let offset := 1 + vbi_len in
  let total_len := offset + size in
  if zlen buffer <? total_len then Ok (Continue (total_len - zlen buffer) 0) else
  tail ← ok_or (get_from buffer offset) BufferTooShort;
  '(packet_id, consumed) ← parse_packet_id tail;
  let offset := offset + consumed in
  '(reason_code, offset) ←
    (if 2 <? size then
       code ← ok_or (get_at buffer offset) BufferTooShort;
       Ok (code, offset + 1)
     else Ok (0, offset));
  '(properties, consumed) ←
    (if offset <? total_len then
       tail ← ok_or (get_range buffer offset total_len) BufferTooShort;
       parse_properties_hdr tail
     else Ok ([], 0));
  let offset := offset + consumed in
  if negb (offset =? total_len) then Err (inconsistent_offset offset total_len) else
  validated_packet
    (packet_variant {| a5_packet_id := packet_id; a5_reason_code := reason_code;
                       a5_properties := properties |}) offset.

Definition v5_packet_id_ack : MqttControlPacket PacketIdAck5 := {|
  mcp_validate := PacketIdAck5_validate kind;
  mcp_control_packet_type := ControlPacketType_as_u8 kind;
  mcp_flags := λ _, pkt_flags;
  mcp_variable_header := PacketIdAck5_variable_header;
  mcp_payload := λ _, Ok [];
  mcp_from_bytes := PacketIdAck5_from_bytes;
|}.
End v5_packet_id_ack.

Definition MqttPubAck5 := v5_packet_id_ack PUBACK 0 "PUBACK" PubAck5.
Definition MqttPubRec5 := v5_packet_id_ack PUBREC 0 "PUBREC" PubRec5.
Definition MqttPubRel5 := v5_packet_id_ack PUBREL 2 "PUBREL" PubRel5.
Definition MqttPubComp5 := v5_packet_id_ack PUBCOMP 0 "PUBCOMP" PubComp5.

(** ** [v3_packet_id_ack!] *)
Section v3_packet_id_ack.
Context (kind : ControlPacketType) (pkt_flags : Z) (packet_name : string)
  (packet_variant : PacketIdAck3 → MqttPacket).

Definition PacketIdAck3_from_bytes (buffer : bytes) : res ParseOk :=
  pkt_type ← packet_type buffer;
  if negb (pkt_type =? ControlPacketType_as_u8 kind) then Err InvalidPacketType else
  b0 ← index_at buffer 0;
  let flags := Z.land b0 15 in
  if negb (flags =? pkt_flags)
  then Err (ParseErr (packet_name +:+ " packet has invalid fixed header flags")) else
  tail ← index_from buffer 1;
  '(size, vbi_len) ← parse_remaining_length tail;
  let total_len := 1 + vbi_len + size in
  if zlen buffer <? total_len then Ok (Continue (total_len - zlen buffer) 0) else
  if negb (size =? 2)
  then Err (ParseErr (packet_name +:+ " packet must have remaining length of 2")) else
  hi ← index_at buffer (1 + vbi_len);
  lo ← index_at buffer (1 + vbi_len + 1);
  let message_id := u16_from_be_bytes [hi; lo] in
  validated_packet (packet_variant {| a3_message_id := message_id |}) total_len.

Definition v3_packet_id_ack : MqttControlPacket PacketIdAck3 := {|
  mcp_validate := PacketIdAck3_validate;
  mcp_control_packet_type := ControlPacketType_as_u8 kind;
  mcp_flags := λ _, pkt_flags;
  mcp_variable_header := λ self, Ok (u16_to_be_bytes (a3_message_id self));
  mcp_payload := λ _, Ok [];
  mcp_from_bytes := PacketIdAck3_from_bytes;
|}.
End v3_packet_id_ack.

Definition MqttPubAck3 := v3_packet_id_ack PUBACK 0 "PUBACK" PubAck3.
Definition MqttPubRec3 := v3_packet_id_ack PUBREC 0 "PUBREC" PubRec3.
Definition MqttPubRel3 := v3_packet_id_ack PUBREL 2 "PUBREL" PubRel3.
Definition MqttPubComp3 := v3_packet_id_ack PUBCOMP 0 "PUBCOMP" PubComp3.
Definition MqttUnsubAck3 := v3_packet_id_ack UNSUBACK 0 "UNSUBACK" UnsubAck3.

(** ** SUBACK and UNSUBACK of MQTT 5

    [suback.rs] and [unsuback.rs] are the same text up to the packet's name and type. *)
Section reason_codes_ack5.
Context (kind : ControlPacketType) (packet_name : string)
  (validate : ReasonCodesAck5 → res ()) (packet_variant : ReasonCodesAck5 → MqttPacket).

Definition ReasonCodesAck5_variable_header (self : ReasonCodesAck5) : res bytes :=
  if r5_packet_id self =? 0
  then Err (ParseErr (packet_name +:+ " packet_id must be > 0")) else
  let b := u16_to_be_bytes (r5_packet_id self) in
  props ← encode_properities_hdr (r5_properties self);
  Ok (b ++ props).

Definition ReasonCodesAck5_payload (self : ReasonCodesAck5) : res bytes :=
  if bool_decide (r5_reason_codes self = [])
  then Err (ParseErr (packet_name +:+ " payload must contain at least one reason code"))
  else Ok (r5_reason_codes self).

Definition ReasonCodesAck5_from_bytes (buffer : bytes) : res ParseOk :=
  pkt_type ← packet_type buffer;
  if negb (pkt_type =? ControlPacketType_as_u8 kind) then Err InvalidPacketType else
  b0 ← index_at buffer 0;
  _ ← validation_fixed_header b0;
  tail ← index_from buffer 1;
  '(size, vbi_len) ← parse_remaining_length tail;
  let offset := 1 + vbi_len in
  let total_len := offset + size in
  if zlen buffer <? total_len then Ok (Continue (total_len - zlen buffer) 0) else
  tail ← ok_or (get_from buffer offset) BufferTooShort;
  '(packet_id, consumed) ← parse_packet_id tail;
  let offset := offset + consumed in
  if packet_id =? 0
  then Err (ParseErr (packet_name +:+ " packet_id must be > 0")) else
  tail ← ok_or (get_range buffer offset total_len) BufferTooShort;
  '(properties, consumed) ← parse_properties_hdr tail;
  let offset := offset + consumed in
  reason_codes ← ok_or (get_range buffer offset total_len) BufferTooShort;
  if bool_decide (reason_codes = [])
  then Err (ParseErr (packet_name +:+ " payload must contain at least one reason code")) else
  validated_packet
    (packet_variant {| r5_packet_id := packet_id; r5_reason_codes := reason_codes;
                       r5_properties := properties |}) total_len.

Definition reason_codes_ack5 : MqttControlPacket ReasonCodesAck5 := {|
  mcp_validate := validate;
  mcp_control_packet_type := ControlPacketType_as_u8 kind;
  mcp_flags := λ _, 0;
  mcp_variable_header := ReasonCodesAck5_variable_header;
  mcp_payload := ReasonCodesAck5_payload;
  mcp_from_bytes := ReasonCodesAck5_from_bytes;
|}.
End reason_codes_ack5.

Definition MqttSubAck5 := reason_codes_ack5 SUBACK "SUBACK" MqttSubAck5_validate SubAck5.
Definition MqttUnsubAck5 :=
  reason_codes_ack5 UNSUBACK "UNSUBACK" MqttUnsubAck5_validate UnsubAck5.

(** ** SUBACK of MQTT 3.1.1 *)
Definition MqttSubAck3_payload (self : MqttSubAck3) : res bytes :=
  _ ← for_each (λ code,
        if negb (suback3_code_ok code)
        then Err (ParseErr ("Invalid SUBACK return code: " +:+ fmt_dec code)) else Ok ())
        (sa3_return_codes self);
  Ok (sa3_return_codes self).

Definition MqttSubAck3_from_bytes (buffer : bytes) : res ParseOk :=
  pkt_type ← packet_type buffer;
  if negb (pkt_type =? ControlPacketType_as_u8 SUBACK) then Err InvalidPacketType else
  b0 ← index_at buffer 0;
  let flags := Z.land b0 15 in
  if negb (flags =? 0)
  then Err (ParseErr "SUBACK packet has invalid fixed header flags") else
  tail ← index_from buffer 1;
  '(size, vbi_len) ← parse_remaining_length tail;
  let offset := 1 + vbi_len in
  let total_len := offset + size in
  if zlen buffer <? total_len then Ok (Continue (total_len - zlen buffer) 0) else
  if size <? 2
  then Err (ParseErr "SUBACK packet must have a 2-byte message identifier") else
  hi ← index_at buffer offset;
  lo ← index_at buffer (offset + 1);
  let message_id := u16_from_be_bytes [hi; lo] in
  let offset := offset + 2 in
  return_codes ← index_range buffer offset total_len;
  _ ← for_each (λ code,
        if negb (suback3_code_ok code)
        then Err (ParseErr ("Invalid SUBACK return code in payload: " +:+ fmt_dec code))
        else Ok ()) return_codes;
  validated_packet
    (SubAck3 {| sa3_message_id := message_id; sa3_return_codes := return_codes |}) total_len.

Definition MqttSubAck3_impl : MqttControlPacket MqttSubAck3 := {|
  mcp_validate := MqttSubAck3_validate;
  mcp_control_packet_type := ControlPacketType_as_u8 SUBACK;
  mcp_flags := λ _, 0;
  mcp_variable_header := λ self, Ok (u16_to_be_bytes (sa3_message_id self));
  mcp_payload := MqttSubAck3_payload;
  mcp_from_bytes := MqttSubAck3_from_bytes;
|}.

(** ** Round trips *)
Lemma v5_ack_roundtrip kind flags name variant p vh :
  0 <= flags < 16 → wf_ack5 p → MqttPacket_validate (variant p) = Ok () →
  PacketIdAck5_validate kind p = Ok () →
  PacketIdAck5_variable_header p = Ok vh → zlen (vh ++ []) <= MAX_REMAINING →
  decodes_frame (PacketIdAck5_from_bytes kind flags name variant)
    (first_byte (v5_packet_id_ack kind flags name variant) p) (vh ++ []) (variant p).
Proof.
  intros Hf (Hid & Hrc & Hps) Hval _ Hvh Hlen rest.
  unfold first_byte; cbn [mcp_control_packet_type mcp_flags v5_packet_id_ack].
  destruct (header_byte kind flags Hf) as [E1 E2].
  rewrite app_nil_r in *. unfold PacketIdAck5_from_bytes. run_header.
  rewrite E1, E2, !Z.eqb_refl. rsimp. run_if.
  rewrite (suffix_at_get_from _ _ _ H). rsimp.
  unfold PacketIdAck5_variable_header in Hvh.
  destruct ((a5_reason_code p =? 0) && bool_decide (a5_properties p = [])) eqn:Hempty.
  - apply Ok_inj in Hvh. subst vh. rewrite parse_packet_id_at by done. rsimp.
    rewrite zlen_u16_be in *. repeat run_if.
    apply andb_true_iff in Hempty as [Hz Hn]. apply bool_decide_eq_true in Hn.
    replace {| a5_packet_id := _ |} with p
      by (destruct p; simpl in *; f_equal; [lia|done]).
    rewrite validated_packet_Ok by done. do 2 f_equal; lia.
  - apply bind_Ok_inv in Hvh as (h & Hh & Hvh). apply Ok_inj in Hvh. subst vh.
    rewrite <- !app_assoc in *. rewrite parse_packet_id_at by done. rsimp.
    zsimp. pose proof (zlen_nonneg h).
    pose proof (encode_properities_hdr_pos _ _ Hps Hh).
    run_if.
    apply (suffix_at_app _ _ (u16_to_be_bytes _)) in H. rewrite zlen_u16_be in H.
    rewrite (suffix_at_get_at _ _ _ _ H). rsimp. run_if.
    apply suffix_at_cons in H. erewrite (suffix_at_get_range _ _ _ h rest) by (exact H || lia).
    rsimp. rewrite <- (app_nil_r h) at 1.
    rewrite (parse_properties_at (a5_properties p)) by (done || lia). rsimp. run_if.
    replace {| a5_packet_id := _ |} with p by by destruct p.
    rewrite validated_packet_Ok by done. do 2 f_equal; lia.
Qed.

Lemma v3_ack_roundtrip kind flags name variant p :
  0 <= flags < 16 → is_u16 (a3_message_id p) → MqttPacket_validate (variant p) = Ok () →
  let vh := u16_to_be_bytes (a3_message_id p) in
  decodes_frame (PacketIdAck3_from_bytes kind flags name variant)
    (first_byte (v3_packet_id_ack kind flags name variant) p) (vh ++ []) (variant p).
Proof.
  intros Hf Hid Hval vh rest.
  unfold first_byte; cbn [mcp_control_packet_type mcp_flags v3_packet_id_ack].
  destruct (header_byte kind flags Hf) as [E1 E2].
  rewrite app_nil_r. assert (zlen vh <= MAX_REMAINING) as Hlen by done.
  unfold PacketIdAck3_from_bytes. run_header.
  rewrite E1, E2, !Z.eqb_refl. rsimp. change (zlen vh) with 2 in *. repeat run_if.
  change (vh ++ rest) with (a3_message_id p / 256 mod 256 :: a3_message_id p mod 256 :: rest) in H.
  rewrite (suffix_at_index_at _ _ _ _ H). rsimp.
  rewrite (suffix_at_index_at _ _ _ _ (suffix_at_cons _ _ _ _ H)). rsimp.
  fold (u16_to_be_bytes (a3_message_id p)). rewrite u16_be_roundtrip by done.
  replace {| a3_message_id := _ |} with p by by destruct p.
  rewrite validated_packet_Ok by done. done.
Qed.

(** ** Safety *)
Lemma v5_ack_safe kind flags name variant b :
  (∀ p, wf_packet (variant p) ↔ wf_ack5 p) → u8s b →
  safe (PacketIdAck5_from_bytes kind flags name variant b) (decoded b).
Proof.
  intros Hvar Hb. unfold PacketIdAck5_from_bytes. safe_decoder; apply Hvar; done.
Qed.

Lemma u16_from_two_u8 x y : is_u8 x → is_u8 y → is_u16 (u16_from_be_bytes [x; y]).
Proof. intros. apply u16_from_be_u16. unfold u8s. auto. Qed.

Lemma v3_ack_safe kind flags name variant b :
  (∀ p, wf_packet (variant p) ↔ is_u16 (a3_message_id p)) → u8s b →
  safe (PacketIdAck3_from_bytes kind flags name variant b) (decoded b).
Proof.
  intros Hvar Hb. unfold PacketIdAck3_from_bytes. safe_decoder; apply Hvar.
  by apply u16_from_two_u8.
Qed.

Lemma reason_codes_ack5_roundtrip kind name validate variant p vh pl :
  validation_fixed_header (as_u8 (Z.shiftl (ControlPacketType_as_u8 kind) 4)) = Ok () →
  wf_reason_codes5 p → MqttPacket_validate (variant p) = Ok () →
  ReasonCodesAck5_variable_header name p = Ok vh → ReasonCodesAck5_payload name p = Ok pl →
  zlen (vh ++ pl) <= MAX_REMAINING →
  decodes_frame (ReasonCodesAck5_from_bytes kind name variant)
    (first_byte (reason_codes_ack5 kind name validate variant) p) (vh ++ pl) (variant p).
Proof.
  intros Hfh (Hid & Hrc & Hps) Hval Hvh Hpl Hlen rest.
  unfold first_byte; cbn [mcp_control_packet_type mcp_flags reason_codes_ack5].
  destruct (header_byte kind 0 ltac:(lia)) as [E1 E2]. rewrite Z.lor_0_r in *.
  unfold ReasonCodesAck5_from_bytes. run_header. rewrite E1, Z.eqb_refl. rsimp.
  rewrite Hfh. rsimp. run_if. rewrite (suffix_at_get_from _ _ _ H). rsimp.
  unfold ReasonCodesAck5_variable_header in Hvh. destruct (_ =? 0) eqn:Hz in Hvh; [done|].
  apply bind_Ok_inv in Hvh as (h & Hh & Hvh). apply Ok_inj in Hvh. subst vh.
  unfold ReasonCodesAck5_payload in Hpl. destruct (bool_decide _) eqn:Hne in Hpl; [done|].
  apply Ok_inj in Hpl. subst pl. rewrite <- !app_assoc in *.
  rewrite parse_packet_id_at by done. rsimp. zsimp. rewrite Hz.
  apply (suffix_at_app _ _ (u16_to_be_bytes _)) in H. rewrite zlen_u16_be in H.
  rewrite app_assoc in H. erewrite suffix_at_get_range by (exact H || (zsimp; lia)). rsimp.
  rewrite (parse_properties_at (r5_properties p)) by (done || (zlen_pos; lia)). rsimp.
  rewrite <- app_assoc in H. apply suffix_at_app in H.
  erewrite suffix_at_get_range by (exact H || lia). rsimp. rewrite Hne.
  replace {| r5_packet_id := _ |} with p by by destruct p.
  rewrite validated_packet_Ok by done. do 2 f_equal; lia.
Qed.

Lemma MqttSubAck3_roundtrip p vh pl :
  is_u16 (sa3_message_id p) → MqttSubAck3_validate p = Ok () →
  vh = u16_to_be_bytes (sa3_message_id p) → MqttSubAck3_payload p = Ok pl →
  zlen (vh ++ pl) <= MAX_REMAINING →
  decodes_frame MqttSubAck3_from_bytes (first_byte MqttSubAck3_impl p) (vh ++ pl) (SubAck3 p).
Proof.
  intros Hid Hval -> Hpl Hlen rest. unfold MqttSubAck3_from_bytes.
  change (first_byte MqttSubAck3_impl p) with 144. run_header.
  change (Z.shiftr 144 4) with 9. rsimp. change (9 =? _) with true. rsimp.
  change (Z.land 144 15 =? 0) with true. rsimp. run_if.
  unfold MqttSubAck3_payload in Hpl. apply bind_Ok_inv in Hpl as ([] & Hcodes & Hpl).
  apply Ok_inj in Hpl. subst pl. rewrite <- app_assoc in H. zsimp. zlen_pos. run_if.
  pose proof H as H'.
  change (u16_to_be_bytes (sa3_message_id p) ++ sa3_return_codes p ++ rest)
    with (sa3_message_id p / 256 mod 256 :: sa3_message_id p mod 256 ::
          sa3_return_codes p ++ rest) in H'.
  rewrite (suffix_at_index_at _ _ _ _ H'). rsimp.
  rewrite (suffix_at_index_at _ _ _ _ (suffix_at_cons _ _ _ _ H')). rsimp.
  fold (u16_to_be_bytes (sa3_message_id p)). rewrite u16_be_roundtrip by done.
  apply suffix_at_app in H. rewrite zlen_u16_be in H.
  erewrite suffix_at_index_range by (exact H || lia). rsimp.
  rewrite (proj2 (for_each_Ok _ _)).
  2:{ apply for_each_Ok in Hcodes. eapply Forall_impl; [exact Hcodes|]. intros c; cbv beta.
      by destruct (suback3_code_ok c). }
  rsimp. replace {| sa3_message_id := _ |} with p by by destruct p.
  rewrite validated_packet_Ok by done. do 2 f_equal; lia.
Qed.

Lemma reason_codes_ack5_safe kind name variant b :
  (∀ p, wf_packet (variant p) ↔ wf_reason_codes5 p) → u8s b →
  safe (ReasonCodesAck5_from_bytes kind name variant b) (decoded b).
Proof.
  intros Hvar Hb. unfold ReasonCodesAck5_from_bytes. safe_decoder. by apply Hvar.
Qed.

Lemma MqttSubAck3_safe b : u8s b → safe (MqttSubAck3_from_bytes b) (decoded b).
Proof.
  intros Hb. unfold MqttSubAck3_from_bytes. safe_decoder.
  eapply safe_bind; [apply safe_for_each; intros; by case_match|]. intros [] _ _.
  safe_decoder. split; simpl; [by apply u16_from_two_u8|done].
Qed.
