(* ===== verification/ControlCodec.v ===== *)
(** * Codecs of CONNACK, DISCONNECT, AUTH and the PING packets

    Models [src/mqtt_serde/mqttv5/{connack,disconnect,auth,pingreq,pingresp}.rs] and
    [src/mqtt_serde/mqttv3/{connack,disconnect,pingreq,pingresp}.rs]. *)
From S2P Require Import Prelude BaseData TopicFilter Validation Properties Packets Framing.

(** ** CONNACK *)
Definition MqttConnAck5_variable_header (self : MqttConnAck5) : res bytes :=
  let b := [if ca5_session_present self then 1 else 0] in
  let b := b ++ [ca5_reason_code self] in
  let properties := default [] (ca5_properties self) in
  props ← encode_properities_hdr properties;
  Ok (b ++ props).

Definition parse_connack (buffer : bytes) : res ParseOk :=
  pkt_type ← packet_type buffer;
  if negb (pkt_type =? ControlPacketType_as_u8 CONNACK) then Err InvalidPacketType else
  b0 ← index_at buffer 0;
  _ ← validation_fixed_header b0;
  tail ← index_from buffer 1;
  '(size, vbi_len) ← parse_remaining_length tail;
  let offset := 1 + vbi_len in
  let total_len := offset + size in
  if zlen buffer <? total_len then Ok (Continue (total_len - zlen buffer) 0) else
  session_present_byte ← ok_or (get_at buffer offset) BufferTooShort;
  let session_present := Z.land session_present_byte 1 =? 1 in
  if negb (Z.land session_present_byte 254 =? 0)
  then Err (ParseErr "CONNACK Connect Acknowledge Flags reserved bits must be 0") else
  reason_code ← ok_or (get_at buffer (offset + 1)) BufferTooShort;
  let offset := offset + 2 in
  tail ← ok_or (get_from buffer offset) BufferTooShort;
  '(properties, consumed) ← parse_properties_hdr tail;
  let offset := offset + consumed in
  let properties := if bool_decide (properties = []) then None else Some properties in
  if negb (offset =? total_len) then Err InvalidLength else
  validated_packet
    (ConnAck5 {| ca5_session_present := session_present; ca5_reason_code := reason_code;
                 ca5_properties := properties |}) offset.

Definition MqttConnAck5_impl : MqttControlPacket MqttConnAck5 := {|
  mcp_validate := MqttConnAck5_validate;
  mcp_control_packet_type := ControlPacketType_as_u8 CONNACK;
  mcp_flags := λ _, 0;
  mcp_variable_header := MqttConnAck5_variable_header;
  mcp_payload := λ _, Ok [];
  mcp_from_bytes := parse_connack;
|}.

Definition MqttConnAck3_variable_header (self : MqttConnAck3) : res bytes :=
  if 5 <? ca3_return_code self then Err (ParseErr "Invalid CONNACK return code") else
  let session_present_byte := bool_as_u8 (ca3_session_present self) in
  Ok [session_present_byte; ca3_return_code self].

Definition MqttConnAck3_from_bytes (buffer : bytes) : res ParseOk :=
  pkt_type ← packet_type buffer;
  if negb (pkt_type =? ControlPacketType_as_u8 CONNACK) then Err InvalidPacketType else
  b0 ← index_at buffer 0;
  let flags := Z.land b0 15 in
  if negb (flags =? 0)
  then Err (ParseErr "CONNACK packet has invalid fixed header flags") else
  tail ← index_from buffer 1;
  '(size, vbi_len) ← parse_remaining_length tail;
  let total_len := 1 + vbi_len + size in
  if zlen buffer <? total_len then Ok (Continue (total_len - zlen buffer) 0) else
  if negb (size =? 2)
  then Err (ParseErr "CONNACK packet must have a remaining length of 2") else
  let vh_offset := 1 + vbi_len in
  session_present_byte ← index_at buffer vh_offset;
  if negb (Z.land session_present_byte 254 =? 0)
  then Err (ParseErr "CONNACK session present flags reserved bits must be 0") else
  let session_present := session_present_byte =? 1 in
  return_code ← index_at buffer (vh_offset + 1);
  if 5 <? return_code then Err (ParseErr "Invalid CONNACK return code") else
  validated_packet
    (ConnAck3 {| ca3_session_present := session_present; ca3_return_code := return_code |})
    total_len.

Definition MqttConnAck3_impl : MqttControlPacket MqttConnAck3 := {|
  mcp_validate := MqttConnAck3_validate;
  mcp_control_packet_type := ControlPacketType_as_u8 CONNACK;
  mcp_flags := λ _, 0;
  mcp_variable_header := MqttConnAck3_variable_header;
  mcp_payload := λ _, Ok [];
  mcp_from_bytes := MqttConnAck3_from_bytes;
|}.

(** ** DISCONNECT *)
Definition MqttDisconnect5_new (reason_code : Z) (properties : list Property)
    : MqttDisconnect5 :=
  {| d5_reason_code := reason_code; d5_properties := properties |}.

Definition MqttDisconnect5_variable_header (self : MqttDisconnect5) : res bytes :=
  if (d5_reason_code self =? 0) && bool_decide (d5_properties self = []) then Ok [] else
  let b := [d5_reason_code self] in
  props ← encode_properities_hdr (d5_properties self);
  Ok (b ++ props).

Definition MqttDisconnect5_from_bytes (buffer : bytes) : res ParseOk :=
  pkt_type ← packet_type buffer;
  if negb (pkt_type =? ControlPacketType_as_u8 DISCONNECT) then Err InvalidPacketType else
  tail ← index_from buffer 1;
  '(size, vbi_len) ← parse_remaining_length tail;
  let offset := 1 + vbi_len in
  let total_len := offset + size in
  if zlen buffer <? total_len then Ok (Continue (total_len - zlen buffer) 0) else
  b0 ← index_at buffer 0;
  let flags := Z.land b0 15 in
  if negb (flags =? 0)
  then Err (ParseErr "DISCONNECT packet has invalid fixed header flags") else
  '(reason_code, properties, offset) ←
    (if 0 <? size then
       if total_len <=? offset then Err BufferTooShort else
       reason_code ← index_at buffer offset;
       let offset := offset + 1 in
       if offset <? total_len then
         tail ← ok_or (get_range buffer offset total_len) BufferTooShort;
         '(properties, consumed) ← parse_properties_hdr tail;
         Ok (reason_code, properties, offset + consumed)
       else Ok (reason_code, [], offset)
     else Ok (0, [], offset));
  if negb (offset =? total_len) then Err (inconsistent_offset offset total_len) else
  validated_packet (Disconnect5 (MqttDisconnect5_new reason_code properties)) total_len.

Definition MqttDisconnect5_impl : MqttControlPacket MqttDisconnect5 := {|
  mcp_validate := MqttDisconnect5_validate;
  mcp_control_packet_type := ControlPacketType_as_u8 DISCONNECT;
  mcp_flags := λ _, 0;
  mcp_variable_header := MqttDisconnect5_variable_header;
  mcp_payload := λ _, Ok [];
  mcp_from_bytes := MqttDisconnect5_from_bytes;
|}.

Definition MqttDisconnect3_from_bytes (buffer : bytes) : res ParseOk :=
  pkt_type ← packet_type buffer;
  if negb (pkt_type =? ControlPacketType_as_u8 DISCONNECT) then Err InvalidPacketType else
  b0 ← index_at buffer 0;
  let flags := Z.land b0 15 in
  if negb (flags =? 0)
  then Err (ParseErr "DISCONNECT packet has invalid fixed header flags") else
  tail ← index_from buffer 1;
  '(size, vbi_len) ← parse_remaining_length tail;
  let offset := 1 + vbi_len in
  let total_len := offset + size in
  if zlen buffer <? total_len then Ok (Continue (total_len - zlen buffer) 0) else
  if negb (size =? 0)
  then Err (ParseErr "MQTT v3.1.1 DISCONNECT packet must have remaining length of 0") else
  Ok (Packet Disconnect3 total_len).

(** A packet without fields: the unit type, no variable header and no payload. *)
Definition empty_packet (kind : ControlPacketType) (from_bytes : bytes → res ParseOk)
    : MqttControlPacket () := {|
  mcp_validate := λ _, Ok ();
  mcp_control_packet_type := ControlPacketType_as_u8 kind;
  mcp_flags := λ _, 0;
  mcp_variable_header := λ _, Ok [];
  mcp_payload := λ _, Ok [];
  mcp_from_bytes := from_bytes;
|}.

Definition MqttDisconnect3_impl := empty_packet DISCONNECT MqttDisconnect3_from_bytes.

(** ** AUTH *)
Definition MqttAuth_new (reason_code : Z) (properties : list Property) : MqttAuth :=
  {| au_reason_code := reason_code; au_properties := properties |}.

Definition MqttAuth_variable_header (self : MqttAuth) : res bytes :=
  let b := [au_reason_code self] in
  props ← encode_properities_hdr (au_properties self);
  Ok (b ++ props).

Definition MqttAuth_from_bytes (buffer : bytes) : res ParseOk :=
  pkt_type ← packet_type buffer;
  if negb (pkt_type =? ControlPacketType_as_u8 AUTH) then Err InvalidPacketType else
  tail ← index_from buffer 1;
  '(size, vbi_len) ← parse_remaining_length tail;
  let offset := 1 + vbi_len in
  let total_len := offset + size in
  if zlen buffer <? total_len then Ok (Continue (total_len - zlen buffer) 0) else
  b0 ← index_at buffer 0;
  let flags := Z.land b0 15 in
  if negb (flags =? 0)
  then Err (ParseErr "AUTH packet has invalid fixed header flags") else
  if size =? 0 then validated_packet (Auth (MqttAuth_new 0 [])) total_len else
  if total_len <=? offset then Err BufferTooShort else
  reason_code ← index_at buffer offset;
  let offset := offset + 1 in
  tail ← ok_or (get_range buffer offset total_len) BufferTooShort;
  '(properties, consumed) ← parse_properties_hdr tail;
  let offset := offset + consumed in
  if negb (offset =? total_len) then Err (inconsistent_offset offset total_len) else
  validated_packet (Auth (MqttAuth_new reason_code properties)) total_len.

Definition MqttAuth_impl : MqttControlPacket MqttAuth := {|
  mcp_validate := MqttAuth_validate;
  mcp_control_packet_type := ControlPacketType_as_u8 AUTH;
  mcp_flags := λ _, 0;
  mcp_variable_header := MqttAuth_variable_header;
  mcp_payload := λ _, Ok [];
  mcp_from_bytes := MqttAuth_from_bytes;
|}.

(** ** PINGREQ, PINGRESP *)
Section ping.
Context (kind : ControlPacketType) (packet_name : string) (packet : MqttPacket).

Definition ping5_from_bytes (buffer : bytes) : res ParseOk :=
  pkt_type ← packet_type buffer;
  if negb (pkt_type =? ControlPacketType_as_u8 kind) then Err InvalidPacketType else
  tail ← index_from buffer 1;
  '(size, vbi_len) ← parse_remaining_length tail;
  let offset := 1 + vbi_len in
  let total_len := offset + size in
  if zlen buffer <? total_len then Ok (Continue (total_len - zlen buffer) 0) else
  if negb (size =? 0)
  then Err (ParseErr (packet_name +:+ " packet must have remaining length of 0")) else
  b0 ← index_at buffer 0;
  let flags := Z.land b0 15 in
  if negb (flags =? 0)
  then Err (ParseErr (packet_name +:+ " packet has invalid fixed header flags")) else
  Ok (Packet packet total_len).

Definition ping3_from_bytes (buffer : bytes) : res ParseOk :=
  pkt_type ← packet_type buffer;
  if negb (pkt_type =? ControlPacketType_as_u8 kind) then Err InvalidPacketType else
  b0 ← index_at buffer 0;
  let flags := Z.land b0 15 in
  if negb (flags =? 0)
  then Err (ParseErr (packet_name +:+ " packet has invalid fixed header flags")) else
  tail ← index_from buffer 1;
  if bool_decide (tail = []) then Ok (Continue 1 0) else
  tail ← index_from buffer 1;
  '(size, vbi_len) ← parse_remaining_length tail;
  let total_len := 1 + vbi_len + size in
  if zlen buffer <? total_len then Ok (Continue (total_len - zlen buffer) 0) else
  if negb (size =? 0)
  then Err (ParseErr (packet_name +:+ " packet must have a remaining length of 0")) else
  Ok (Packet packet total_len).
End ping.

Definition MqttPingReq5 := empty_packet PINGREQ (ping5_from_bytes PINGREQ "PINGREQ" PingReq5).
Definition MqttPingResp5 := empty_packet PINGRESP (ping5_from_bytes PINGRESP "PINGRESP" PingResp5).
Definition MqttPingReq3 := empty_packet PINGREQ (ping3_from_bytes PINGREQ "PINGREQ" PingReq3).
Definition MqttPingResp3 := empty_packet PINGRESP (ping3_from_bytes PINGRESP "PINGRESP" PingResp3).

(** ** Round trips *)

(** [None] and [Some []] are the same CONNACK on the wire; the decoder returns [None]. *)
Definition MqttConnAck5_norm (p : MqttConnAck5) : MqttConnAck5 := {|
  ca5_session_present := ca5_session_present p;
  ca5_reason_code := ca5_reason_code p;
  ca5_properties :=
    if bool_decide (default [] (ca5_properties p) = []) then None else ca5_properties p;
|}.

Lemma MqttConnAck5_norm_validate p :
  MqttConnAck5_validate (MqttConnAck5_norm p) = MqttConnAck5_validate p.
Proof.
  destruct p as [sp rc [ps|]]; unfold MqttConnAck5_validate, MqttConnAck5_norm; simpl; [|done].
  destruct ps; done.
Qed.

Lemma MqttConnAck5_roundtrip p vh :
  wf_connack5 p → MqttConnAck5_validate p = Ok () → MqttConnAck5_variable_header p = Ok vh →
  zlen (vh ++ []) <= MAX_REMAINING →
  decodes_frame parse_connack (first_byte MqttConnAck5_impl p) (vh ++ [])
    (ConnAck5 (MqttConnAck5_norm p)).
Proof.
  intros [Hrc Hps] Hval Hvh Hlen rest. rewrite app_nil_r in *.
  change (first_byte MqttConnAck5_impl p) with 32. unfold parse_connack. run_header.
  change (Z.shiftr 32 4) with 2. change (2 =? _) with true. rsimp.
  change (validation_fixed_header 32) with (Ok (E:=ParseError) ()). rsimp. run_if.
  unfold MqttConnAck5_variable_header in Hvh. apply bind_Ok_inv in Hvh as (h & Hh & Hvh).
  apply Ok_inj in Hvh. subst vh. rewrite <- !app_assoc in *. cbn [app] in H. zsimp.
  rewrite (suffix_at_get_at _ _ _ _ H). rsimp. apply suffix_at_cons in H.
  assert (negb (Z.land (if ca5_session_present p then 1 else 0) 254 =? 0) = false) as ->
    by by destruct (ca5_session_present p).
  rewrite (suffix_at_get_at _ _ _ _ H). rsimp. apply suffix_at_cons in H.
  eapply suffix_at_eq in H; [|shelve]. rewrite (suffix_at_get_from _ _ _ H). rsimp.
  rewrite (parse_properties_at (default [] (ca5_properties p)));
    [| done | by destruct (ca5_properties p) | zlen_pos; lia].
  rsimp. run_if.
  replace (ConnAck5 _) with (ConnAck5 (MqttConnAck5_norm p)).
  - rewrite validated_packet_Ok; [do 2 f_equal; lia|].
    cbn [MqttPacket_validate]. by rewrite MqttConnAck5_norm_validate.
  - unfold MqttConnAck5_norm. do 2 f_equal; [by destruct (ca5_session_present p)|].
    destruct (ca5_properties p); simpl; [by case_bool_decide|done].
  Unshelve. lia.
Qed.

Lemma MqttConnAck3_roundtrip p vh :
  is_u8 (ca3_return_code p) → MqttConnAck3_validate p = Ok () →
  MqttConnAck3_variable_header p = Ok vh →
  decodes_frame MqttConnAck3_from_bytes (first_byte MqttConnAck3_impl p) (vh ++ [])
    (ConnAck3 p).
Proof.
  intros Hrc Hval Hvh rest. rewrite app_nil_r in *.
  unfold MqttConnAck3_variable_header in Hvh.
  destruct (5 <? ca3_return_code p) eqn:Hrc5; [done|]. apply Ok_inj in Hvh. subst vh.
  assert (zlen [bool_as_u8 (ca3_session_present p); ca3_return_code p] <= MAX_REMAINING) as Hlen
    by done.
  change (first_byte MqttConnAck3_impl p) with 32. unfold MqttConnAck3_from_bytes. run_header.
  change (Z.shiftr 32 4) with 2. change (2 =? _) with true. rsimp.
  change (Z.land 32 15 =? 0) with true. rsimp. zsimp. repeat run_if.
  rewrite (suffix_at_index_at _ _ _ _ H). rsimp.
  assert (negb (Z.land (bool_as_u8 (ca3_session_present p)) 254 =? 0) = false) as ->
    by by destruct (ca3_session_present p).
  rewrite (suffix_at_index_at _ _ _ _ (suffix_at_cons _ _ _ _ H)). rsimp. rewrite Hrc5.
  replace {| ca3_session_present := _ |} with p by (destruct p as [[] ?]; done).
  rewrite validated_packet_Ok by done. do 2 f_equal; lia.
Qed.

Lemma MqttDisconnect5_roundtrip p vh :
  wf_disconnect5 p → MqttDisconnect5_validate p = Ok () →
  MqttDisconnect5_variable_header p = Ok vh → zlen (vh ++ []) <= MAX_REMAINING →
  decodes_frame MqttDisconnect5_from_bytes (first_byte MqttDisconnect5_impl p) (vh ++ [])
    (Disconnect5 p).
Proof.
  intros [Hrc Hps] Hval Hvh Hlen rest. rewrite app_nil_r in *.
  change (first_byte MqttDisconnect5_impl p) with 224.
  unfold MqttDisconnect5_from_bytes. run_header.
  change (Z.shiftr 224 4) with 14. change (14 =? _) with true. rsimp. repeat run_if.
  rewrite ?frame_tail; rsimp.
  unfold MqttDisconnect5_variable_header in Hvh.
  destruct ((d5_reason_code p =? 0) && bool_decide (d5_properties p = [])) eqn:Hempty.
  - apply Ok_inj in Hvh. subst vh. change (Z.land 224 15 =? 0) with true. rsimp.
    rewrite zlen_nil in *. repeat run_if.
    apply andb_true_iff in Hempty as [Hz Hn]. apply bool_decide_eq_true in Hn.
    replace (MqttDisconnect5_new 0 []) with p
      by (destruct p; unfold MqttDisconnect5_new; simpl in *; f_equal; [lia|done]).
    rewrite validated_packet_Ok by done. do 2 f_equal; lia.
  - apply bind_Ok_inv in Hvh as (h & Hh & Hvh). apply Ok_inj in Hvh. subst vh.
    change (Z.land 224 15 =? 0) with true. rsimp. cbn [app] in *. zsimp. zlen_pos.
    pose proof (encode_properities_hdr_pos _ _ Hps Hh). repeat run_if.
    rewrite (suffix_at_index_at _ _ _ _ H). rsimp. apply suffix_at_cons in H. repeat run_if.
    erewrite suffix_at_get_range by (exact H || lia). rsimp. rewrite <- (app_nil_r h) at 1.
    rewrite (parse_properties_at (d5_properties p)) by (done || lia). rsimp. repeat run_if.
    replace (MqttDisconnect5_new _ _) with p by by destruct p.
    rewrite validated_packet_Ok by done. do 2 f_equal; lia.
Qed.

Lemma MqttAuth_roundtrip p vh :
  wf_auth p → MqttAuth_validate p = Ok () →
  MqttAuth_variable_header p = Ok vh → zlen (vh ++ []) <= MAX_REMAINING →
  decodes_frame MqttAuth_from_bytes (first_byte MqttAuth_impl p) (vh ++ []) (Auth p).
Proof.
  intros [Hrc Hps] Hval Hvh Hlen rest. rewrite app_nil_r in *.
  change (first_byte MqttAuth_impl p) with 240. unfold MqttAuth_from_bytes. run_header.
  change (Z.shiftr 240 4) with 15. change (15 =? _) with true. rsimp. repeat run_if.
  unfold MqttAuth_variable_header in Hvh.
  apply bind_Ok_inv in Hvh as (h & Hh & Hvh). apply Ok_inj in Hvh. subst vh.
  change (Z.land 240 15 =? 0) with true. rsimp. cbn [app] in *. zsimp. zlen_pos.
  pose proof (encode_properities_hdr_pos _ _ Hps Hh). repeat run_if.
  rewrite (suffix_at_index_at _ _ _ _ H). rsimp. apply suffix_at_cons in H.
  erewrite suffix_at_get_range by (exact H || lia). rsimp. rewrite <- (app_nil_r h) at 1.
  rewrite (parse_properties_at (au_properties p)) by (done || lia). rsimp. repeat run_if.
  replace (MqttAuth_new _ _) with p by by destruct p.
  rewrite validated_packet_Ok by done. do 2 f_equal; lia.
Qed.

Lemma empty_packet_first_byte kind from_bytes x :
  first_byte (empty_packet kind from_bytes) x
  = Z.lor (as_u8 (Z.shiftl (ControlPacketType_as_u8 kind) 4)) 0.
Proof. done. Qed.

(** The packets without fields. *)
Lemma empty_packet_roundtrip kind from_bytes packet :
  from_bytes = MqttDisconnect3_from_bytes ∧ packet = Disconnect3 ∧ kind = DISCONNECT ∨
  (∃ name, from_bytes = ping5_from_bytes kind name packet) ∨
  (∃ name, from_bytes = ping3_from_bytes kind name packet) →
  decodes_frame from_bytes (first_byte (empty_packet kind from_bytes) ()) ([] ++ []) packet.
Proof.
  intros Hf rest. rewrite empty_packet_first_byte.
  destruct (header_byte kind 0 ltac:(lia)) as [E1 E2].
  assert (zlen (@nil Z) <= MAX_REMAINING) as Hlen by done. cbn [app].
  destruct Hf as [(-> & -> & ->)|[[name ->]|[name ->]]];
    [unfold MqttDisconnect3_from_bytes|unfold ping5_from_bytes|unfold ping3_from_bytes];
    (run_header; [..]); rewrite E1, E2, ?Z.eqb_refl; rsimp; change (zlen []) with 0 in *;
    repeat run_if; try (do 2 f_equal; lia).
Qed.

(** ** Safety *)
Lemma parse_connack_safe b : u8s b → safe (parse_connack b) (decoded b).
Proof.
  intros Hb. unfold parse_connack. safe_decoder. split; simpl; [done|]. by case_bool_decide.
Qed.

Lemma MqttConnAck3_safe b : u8s b → safe (MqttConnAck3_from_bytes b) (decoded b).
Proof. intros Hb. unfold MqttConnAck3_from_bytes. safe_decoder. done. Qed.

Lemma MqttDisconnect5_safe b : u8s b → safe (MqttDisconnect5_from_bytes b) (decoded b).
Proof. intros Hb. unfold MqttDisconnect5_from_bytes. safe_decoder; split; simpl; done. Qed.

Lemma MqttAuth_safe b : u8s b → safe (MqttAuth_from_bytes b) (decoded b).
Proof. intros Hb. unfold MqttAuth_from_bytes. safe_decoder; split; simpl; done. Qed.

Lemma decoded_empty b packet n :
  wf_packet packet → MqttPacket_validate packet = Ok () → frame_size b = Some n →
  2 <= n <= zlen b → safe (Ok (Packet packet n) : res ParseOk) (decoded b).
Proof. intros. simpl. done. Qed.

Lemma MqttDisconnect3_safe b : u8s b → safe (MqttDisconnect3_from_bytes b) (decoded b).
Proof.
  intros Hb. unfold MqttDisconnect3_from_bytes. safe_decoder.
  apply decoded_empty; [done..|lia].
Qed.

Lemma ping5_safe kind name packet b :
  wf_packet packet → MqttPacket_validate packet = Ok () → u8s b →
  safe (ping5_from_bytes kind name packet b) (decoded b).
Proof.
  intros Hw Hv Hb. unfold ping5_from_bytes. safe_decoder. apply decoded_empty; [done..|lia].
Qed.

Lemma ping3_safe kind name packet b :
  wf_packet packet → MqttPacket_validate packet = Ok () → u8s b →
  safe (ping3_from_bytes kind name packet b) (decoded b).
Proof.
  intros Hw Hv Hb. unfold ping3_from_bytes. safe_step. safe_step; [exact I|]. safe_step.
  safe_step; [exact I|]. safe_step. case_bool_decide as Hn.
  { simpl. subst. rewrite zlen_nil in *. split_and!; [lia..|]. right. lia. }
  safe_decoder. apply decoded_empty; [done..|lia].
Qed.
