(* ===== verification/PublishCodec.v ===== *)
(** * The PUBLISH codec

    Models [src/mqtt_serde/mqttv5/publish.rs] and [src/mqtt_serde/mqttv3/publish.rs] with their
    own single-pass encoders ([encode_to_buffer] over [encode_publish_into] of
    [control_packet.rs]).  Besides the round trips, the single-pass encoders are shown to write
    exactly what the trait's default encoder would: they are optimisations of it. *)
From S2P Require Import Prelude BaseData TopicFilter Validation Properties Packets Framing.

(** ** MQTT 5 *)
Definition MqttPublish5_flags (self : MqttPublish5) : Z :=
  let val := as_u8 (Z.shiftl (p5_qos self) 1) in
  let val := if p5_dup self then Z.lor val 8 else val in
  let val := if p5_retain self then Z.lor val 1 else val in
  val.

Definition MqttPublish5_variable_header (self : MqttPublish5) : res bytes :=
  b ← encode_utf8_string (p5_topic_name self);
  b ← (if 0 <? p5_qos self then
         match p5_packet_id self with
         | Some packet_id => Ok (b ++ u16_to_be_bytes packet_id)
         | None => Err (ParseErr "QoS > 0 requires a packet identifier")
         end
       else Ok b);
  props ← encode_properities_hdr (p5_properties self);
  Ok (b ++ props).

Definition MqttPublish5_encode_to_buffer (self : MqttPublish5) (b : bytes) : res bytes :=
  _ ← MqttPublish5_validate self;
  if u16_MAX <? zlen (p5_topic_name self) then Err StringTooLong else
  packet_id ←
    (if 0 <? p5_qos self then
       id ← ok_or (p5_packet_id self) (ParseErr "QoS > 0 requires a packet identifier");
       Ok (Some id)
     else Ok None);
  if bool_decide (p5_properties self = []) then
    Ok (encode_publish_into (MqttPublish5_flags self) (p5_topic_name self) packet_id [0]
          (p5_payload self) b)
  else
    properties ← PropertyEncoder_new (p5_properties self);
    let b := encode_publish_header_into (MqttPublish5_flags self) (p5_topic_name self) packet_id
               (PropertyEncoder_encoded_len properties) (zlen (p5_payload self)) b in
    let b := PropertyEncoder_encode_into properties b in
    Ok (b ++ p5_payload self).

Definition MqttPublish5_to_bytes (self : MqttPublish5) : res bytes :=
  MqttPublish5_encode_to_buffer self [].

Definition MqttPublish5_qos (flags : Z) : Z := Z.shiftr (Z.land flags 6) 1.

Definition MqttPublish5_from_bytes (buffer : bytes) : res ParseOk :=
  first_byte ← ok_or (get_at buffer 0) BufferTooShort;
  pkt_type ← packet_type buffer;
  if negb (pkt_type =? ControlPacketType_as_u8 PUBLISH) then Err InvalidPacketType else
  let dup := negb (Z.land first_byte 8 =? 0) in
  let qos := MqttPublish5_qos first_byte in
  if qos =? 3
  then Err (ParseErr "PUBLISH QoS bits must not be set to 11 (invalid QoS 3)") else
  let retain := negb (Z.land first_byte 1 =? 0) in
  if (qos =? 0) && dup
  then Err (ParseErr "PUBLISH DUP flag must be 0 for QoS 0 messages") else
  tail ← index_from buffer 1;
  '(msgsize, consumed) ← parse_remaining_length tail;
  let offset := 1 + consumed in
  let packet_size := msgsize + offset in
  if zlen buffer <? packet_size then Ok (Continue (packet_size - zlen buffer) 0) else
  tail ← ok_or (get_from buffer offset) BufferTooShort;
  topic ← parse_topic_name tail;
  '(topic_name, consumed) ←
    match topic with
    | TopicName name consumed => Ok (name, consumed)
    | _ => Err (ParseErr "Expected TopicName")
    end;
  let offset := offset + consumed in
  if contains_char topic_name HASH || contains_char topic_name PLUS
  then Err (ParseErr "PUBLISH Topic Name must not contain wildcard characters (# or +)") else
  '(packet_id_opt, offset) ←
    (if 0 <? qos then
       tail ← ok_or (get_from buffer offset) BufferTooShort;
       '(packet_id, consumed) ← parse_packet_id tail;
       Ok (Some packet_id, offset + consumed)
     else Ok (None, offset));
  tail ← ok_or (get_from buffer offset) BufferTooShort;
  '(properties, consumed) ← parse_properties_hdr tail;
  let offset := offset + consumed in
  payload_len ← usub packet_size offset;
  payload ← ok_or (get_range buffer offset (offset + payload_len)) BufferTooShort;
  let offset := offset + payload_len in
  if negb (offset =? packet_size) then Err InvalidLength else
  validated_packet
    (Publish5 {| p5_topic_name := topic_name; p5_qos := qos; p5_dup := dup;
                 p5_retain := retain; p5_packet_id := packet_id_opt; p5_payload := payload;
                 p5_properties := properties |}) offset.

Definition MqttPublish5_impl : MqttControlPacket MqttPublish5 := {|
  mcp_validate := MqttPublish5_validate;
  mcp_control_packet_type := ControlPacketType_as_u8 PUBLISH;
  mcp_flags := MqttPublish5_flags;
  mcp_variable_header := MqttPublish5_variable_header;
  mcp_payload := λ self, Ok (p5_payload self);
  mcp_from_bytes := MqttPublish5_from_bytes;
|}.

(** ** MQTT 3.1.1 *)
Definition MqttPublish3_flags (self : MqttPublish3) : Z :=
  Z.lor (Z.lor (as_u8 (Z.shiftl (bool_as_u8 (p3_dup self)) 3)) (as_u8 (Z.shiftl (p3_qos self) 1)))
    (bool_as_u8 (p3_retain self)).

Definition MqttPublish3_variable_header (self : MqttPublish3) : res bytes :=
  let vh := Utf8String_encode (p3_topic_name self) in
  if 0 <? p3_qos self then
    msg_id ← ok_or (p3_message_id self) (ParseErr "Message ID is required for QoS > 0");
    Ok (vh ++ TwoByteInteger_encode msg_id)
  else Ok vh.

Definition MqttPublish3_encode_to_buffer (self : MqttPublish3) (b : bytes) : res bytes :=
  _ ← MqttPublish3_validate self;
  packet_id ←
    (if 0 <? p3_qos self then
       id ← ok_or (p3_message_id self) (ParseErr "Message ID is required for QoS > 0");
       Ok (Some id)
     else Ok None);
  Ok (encode_publish_into (MqttPublish3_flags self) (p3_topic_name self) packet_id []
        (p3_payload self) b).

Definition MqttPublish3_to_bytes (self : MqttPublish3) : res bytes :=
  MqttPublish3_encode_to_buffer self [].

Definition MqttPublish3_from_bytes (buffer : bytes) : res ParseOk :=
  pkt_type ← packet_type buffer;
  if negb (pkt_type =? ControlPacketType_as_u8 PUBLISH) then Err InvalidPacketType else
  b0 ← index_at buffer 0;
  let flags := Z.land b0 15 in
  let dup := 0 <? Z.land flags 8 in
  let qos := Z.shiftr (Z.land flags 6) 1 in
  let retain := 0 <? Z.land flags 1 in
  if 2 <? qos then Err (ParseErr "Invalid QoS level") else
  tail ← index_from buffer 1;
  '(size, vbi_len) ← parse_remaining_length tail;
  let offset := 1 + vbi_len in
  let total_len := offset + size in
  if zlen buffer <? total_len then Ok (Continue (total_len - zlen buffer) 0) else
  section ← index_range buffer offset total_len;
  '(topic_name, consumed) ← parse_utf8_string section;
  let offset := offset + consumed in
  '(message_id, offset) ←
    (if 0 <? qos then
       if total_len <? offset + 2 then Err (ParseErr "Missing message ID for QoS > 0") else
       hi ← index_at buffer offset;
       lo ← index_at buffer (offset + 1);
       Ok (Some (u16_from_be_bytes [hi; lo]), offset + 2)
     else Ok (None, offset));
  payload ← index_range buffer offset total_len;
  validated_packet
    (Publish3 {| p3_dup := dup; p3_qos := qos; p3_retain := retain;
                 p3_topic_name := topic_name; p3_message_id := message_id;
                 p3_payload := payload |}) total_len.

Definition MqttPublish3_impl : MqttControlPacket MqttPublish3 := {|
  mcp_validate := MqttPublish3_validate;
  mcp_control_packet_type := ControlPacketType_as_u8 PUBLISH;
  mcp_flags := MqttPublish3_flags;
  mcp_variable_header := MqttPublish3_variable_header;
  mcp_payload := λ self, Ok (p3_payload self);
  mcp_from_bytes := MqttPublish3_from_bytes;
|}.

(** ** The single-pass encoders are the default encoder *)
Lemma encode_publish_header_into_eq flags topic packet_id plen paylen b :
  encode_publish_header_into flags topic packet_id plen paylen b
  = b ++ Z.lor 48 flags ::
      VariableByteInteger_encode
        (as_u32 (zlen (BinaryData_encode topic ++ from_option u16_to_be_bytes [] packet_id)
                 + plen + paylen))
      ++ BinaryData_encode topic ++ from_option u16_to_be_bytes [] packet_id.
Proof.
  unfold encode_publish_header_into, BinaryData_encode. rewrite vbi_encode_into_app.
  destruct packet_id as [id|]; cbn [from_option];
    (rewrite bool_decide_eq_true_2 by eauto) || (rewrite bool_decide_eq_false_2 by (by intros []));
    cbn [bool_as_u8]; rewrite <- ?app_assoc; cbn [app]; zsimp;
    do 4 f_equal; try (f_equal; lia).
  all: rewrite ?app_nil_r; try done; do 2 f_equal; lia.
Qed.

Lemma validate_publish_topic p :
  MqttPublish5_validate p = Ok () → validation_string (p5_topic_name p) = Ok ().
Proof.
  unfold MqttPublish5_validate. intros H.
  apply bind_Ok_inv in H as ([] & _ & H). apply bind_Ok_inv in H as ([] & _ & H).
  case_bool_decide as Hn; [by rewrite Hn|]. by apply validation_topic_string.
Qed.

Lemma encode_properities_hdr_nil : encode_properities_hdr [] = Ok [0].
Proof. reflexivity. Qed.

(** The packet identifier a PUBLISH carries on the wire. *)
Definition publish_pid (qos : Z) (id : option Z) : option Z := if 0 <? qos then id else None.

Lemma validation_publish_pid qos dup id (e : ParseError) :
  validation_publish qos dup id = Ok () →
  (if 0 <? qos then i ← ok_or id e; Ok (Some i) else Ok None) = Ok (publish_pid qos id) ∧
  ((0 <? qos) = true → ∃ i, id = Some i).
Proof.
  intros H. apply (safe_Ok_inv _ _ _ (safe_publish qos dup id)) in H as (_ & _ & H).
  unfold publish_pid. destruct (Z.ltb_spec 0 qos) as [Hq|]; [|done].
  destruct (H Hq) as (i & -> & _). eauto.
Qed.

(** The bytes both encoders append: header byte, remaining length, topic and identifier
    [vh], property section, payload. *)
Definition publish_wire (flags : Z) (topic : bytes) (pid : option Z) (props payload : bytes)
    : bytes :=
  let vh := BinaryData_encode topic ++ from_option u16_to_be_bytes [] pid in
  Z.lor 48 flags :: VariableByteInteger_encode (as_u32 (zlen (vh ++ props ++ payload)))
    ++ vh ++ props ++ payload.

Lemma encode_publish_into_wire flags topic pid props payload b :
  encode_publish_into flags topic pid props payload b
  = b ++ publish_wire flags topic pid props payload.
Proof.
  unfold encode_publish_into, publish_wire. rewrite encode_publish_header_into_eq.
  rewrite !zlen_app, <- !Z.add_assoc, <- !zlen_app.
  by rewrite <- !app_assoc, <- app_comm_cons, <- !app_assoc.
Qed.

Lemma MqttPublish5_validate_inv p :
  MqttPublish5_validate p = Ok () →
  validation_publish (p5_qos p) (p5_dup p) (p5_packet_id p) = Ok () ∧
  validation_properties (p5_properties p) CtxPublish = Ok () ∧
  validation_string (p5_topic_name p) = Ok ().
Proof.
  intros H. split_and!; [..|by apply validate_publish_topic];
    unfold MqttPublish5_validate in H; apply bind_Ok_inv in H as ([] & ? & H); [done|].
  by apply bind_Ok_inv in H as ([] & ? & H).
Qed.

Lemma MqttPublish5_encode_single_pass p b :
  wf_publish5 p → MqttPublish5_validate p = Ok () →
  MqttPublish5_encode_to_buffer p b =
    props ← encode_properities_hdr (p5_properties p);
    Ok (b ++ publish_wire (MqttPublish5_flags p) (p5_topic_name p)
          (publish_pid (p5_qos p) (p5_packet_id p)) props (p5_payload p)).
Proof.
  intros (_ & _ & _ & _ & Hps) Hv. destruct (MqttPublish5_validate_inv _ Hv) as (Hp & _ & Ht).
  unfold MqttPublish5_encode_to_buffer. rewrite Hv. rsimp.
  apply validation_string_Ok in Ht as [Hl _].
  replace (u16_MAX <? zlen (p5_topic_name p)) with false by lia.
  edestruct validation_publish_pid as [-> _]; [exact Hp|]. rsimp.
  case_bool_decide as Hn.
  - rewrite Hn, encode_properities_hdr_nil. rsimp. by rewrite encode_publish_into_wire.
  - unfold encode_properities_hdr.
    destruct (PropertyEncoder_new (p5_properties p)) as [e| |] eqn:He; rsimp; [|done..].
    pose proof (PropertyEncoder_encoded_len_exact _ _ [] Hps He) as Hlen.
    rewrite zlen_nil, Z.add_0_l in Hlen. rewrite <- Hlen.
    rewrite <- encode_publish_into_wire. unfold encode_publish_into.
    rewrite !PropertyEncoder_encode_into_app. cbn [app]. by rewrite <- !app_assoc.
Qed.

Lemma MqttPublish5_encode_two_pass p b :
  MqttPublish5_validate p = Ok () →
  encode_to_buffer MqttPublish5_impl p b =
    props ← encode_properities_hdr (p5_properties p);
    Ok (b ++ publish_wire (MqttPublish5_flags p) (p5_topic_name p)
          (publish_pid (p5_qos p) (p5_packet_id p)) props (p5_payload p)).
Proof.
  intros Hv. destruct (MqttPublish5_validate_inv _ Hv) as (Hp & _ & Ht).
  unfold encode_to_buffer. cbn [mcp_validate mcp_variable_header mcp_payload MqttPublish5_impl].
  rewrite Hv. rsimp. unfold MqttPublish5_variable_header.
  rewrite encode_utf8_string_valid by done. rsimp.
  assert ((if 0 <? p5_qos p then
      match p5_packet_id p with
      | Some id => Ok (Utf8String_encode (p5_topic_name p) ++ u16_to_be_bytes id)
      | None => Err (ParseErr "QoS > 0 requires a packet identifier") end
    else Ok (Utf8String_encode (p5_topic_name p)))
    = Ok (Utf8String_encode (p5_topic_name p) ++ from_option u16_to_be_bytes []
            (publish_pid (p5_qos p) (p5_packet_id p)))) as ->.
  { destruct (validation_publish_pid _ _ _ IoError Hp) as [_ Hid]. unfold publish_pid.
    destruct (0 <? p5_qos p); [destruct Hid as [i ->]; done|]. cbn. by rewrite app_nil_r. }
  rsimp. destruct (encode_properities_hdr (p5_properties p)) as [h| |]; rsimp; [|done..].
  unfold publish_wire, Utf8String_encode. rewrite fixed_header_eq.
  change (first_byte _ p) with (Z.lor 48 (MqttPublish5_flags p)).
  by rewrite <- zlen_app, <- ?app_assoc, <- app_comm_cons.
Qed.

Lemma MqttPublish5_encode_default p b :
  wf_publish5 p →
  MqttPublish5_encode_to_buffer p b = encode_to_buffer MqttPublish5_impl p b.
Proof.
  intros Hwf. destruct (MqttPublish5_validate p) as [[]| |] eqn:Hv.
  - by rewrite MqttPublish5_encode_single_pass, MqttPublish5_encode_two_pass.
  - unfold MqttPublish5_encode_to_buffer, encode_to_buffer. simpl. by rewrite Hv.
  - unfold MqttPublish5_encode_to_buffer, encode_to_buffer. simpl. by rewrite Hv.
Qed.

Lemma MqttPublish3_validate_inv p :
  MqttPublish3_validate p = Ok () →
  validation_publish (p3_qos p) (p3_dup p) (p3_message_id p) = Ok () ∧
  validation_string (p3_topic_name p) = Ok ().
Proof.
  unfold MqttPublish3_validate. intros H. apply bind_Ok_inv in H as ([] & ? & H).
  split; [done|]. by apply validation_topic_string.
Qed.

Lemma MqttPublish3_encode_default p b :
  MqttPublish3_encode_to_buffer p b = encode_to_buffer MqttPublish3_impl p b.
Proof.
  unfold MqttPublish3_encode_to_buffer, encode_to_buffer.
  cbn [mcp_validate mcp_variable_header mcp_payload MqttPublish3_impl].
  destruct (MqttPublish3_validate p) as [[]| |] eqn:Hv; rsimp; [|done..].
  destruct (MqttPublish3_validate_inv _ Hv) as [Hp _].
  edestruct validation_publish_pid as [-> Hid]; [exact Hp|]. rsimp.
  assert (MqttPublish3_variable_header p = Ok (Utf8String_encode (p3_topic_name p)
    ++ from_option u16_to_be_bytes [] (publish_pid (p3_qos p) (p3_message_id p)))) as ->.
  { unfold MqttPublish3_variable_header, publish_pid.
    destruct (0 <? p3_qos p); [destruct Hid as [i ->]; done|]. cbn. by rewrite app_nil_r. }
  rsimp. rewrite encode_publish_into_wire. unfold publish_wire, Utf8String_encode.
  rewrite fixed_header_eq. change (first_byte _ p) with (Z.lor 48 (MqttPublish3_flags p)).
  by rewrite <- zlen_app, <- ?app_assoc, <- app_comm_cons.
Qed.

(** ** Round trips *)

(** A QoS 0 PUBLISH has no packet identifier on the wire. *)
Definition MqttPublish5_norm (p : MqttPublish5) : MqttPublish5 := {|
  p5_topic_name := p5_topic_name p; p5_qos := p5_qos p; p5_dup := p5_dup p;
  p5_retain := p5_retain p; p5_packet_id := publish_pid (p5_qos p) (p5_packet_id p);
  p5_payload := p5_payload p; p5_properties := p5_properties p |}.

Definition MqttPublish3_norm (p : MqttPublish3) : MqttPublish3 := {|
  p3_dup := p3_dup p; p3_qos := p3_qos p; p3_retain := p3_retain p;
  p3_topic_name := p3_topic_name p;
  p3_message_id := publish_pid (p3_qos p) (p3_message_id p); p3_payload := p3_payload p |}.

Lemma validation_publish_norm qos dup id :
  validation_publish qos dup (publish_pid qos id) = validation_publish qos dup id.
Proof. unfold validation_publish, publish_pid. by destruct (0 <? qos). Qed.

Lemma MqttPublish5_norm_validate p :
  MqttPublish5_validate (MqttPublish5_norm p) = MqttPublish5_validate p.
Proof. unfold MqttPublish5_validate. simpl. by rewrite validation_publish_norm. Qed.

Lemma MqttPublish3_norm_validate p :
  MqttPublish3_validate (MqttPublish3_norm p) = MqttPublish3_validate p.
Proof. unfold MqttPublish3_validate. simpl. by rewrite validation_publish_norm. Qed.

Lemma qos_cases q : 0 <= q <= 2 → q = 0 ∨ q = 1 ∨ q = 2.
Proof. lia. Qed.

(** The flags survive the first byte. *)
Lemma MqttPublish5_first_byte p :
  0 <= p5_qos p <= 2 →
  let byte1 := Z.lor 48 (MqttPublish5_flags p) in
  Z.shiftr byte1 4 = 3 ∧ negb (Z.land byte1 8 =? 0) = p5_dup p ∧
  MqttPublish5_qos byte1 = p5_qos p ∧ negb (Z.land byte1 1 =? 0) = p5_retain p.
Proof.
  intros Hq. unfold MqttPublish5_flags, MqttPublish5_qos.
  destruct (qos_cases _ Hq) as [-> |[-> | ->]], (p5_dup p), (p5_retain p); done.
Qed.

Lemma MqttPublish3_first_byte p :
  0 <= p3_qos p <= 2 →
  let byte1 := Z.lor 48 (MqttPublish3_flags p) in
  Z.shiftr byte1 4 = 3 ∧ (0 <? Z.land (Z.land byte1 15) 8) = p3_dup p ∧
  Z.shiftr (Z.land (Z.land byte1 15) 6) 1 = p3_qos p ∧
  (0 <? Z.land (Z.land byte1 15) 1) = p3_retain p.
Proof.
  intros Hq. unfold MqttPublish3_flags.
  destruct (qos_cases _ Hq) as [-> |[-> | ->]], (p3_dup p), (p3_retain p); done.
Qed.

Lemma validation_publish_inv qos dup id :
  validation_publish qos dup id = Ok () →
  qos <= 2 ∧ (qos = 0 → dup = false) ∧ (0 < qos → ∃ i, id = Some i ∧ i <> 0).
Proof. apply (safe_Ok_inv _ _ _ (safe_publish qos dup id)). Qed.

Lemma MqttPublish5_topic_chars p :
  MqttPublish5_validate p = Ok () →
  contains_char (p5_topic_name p) HASH || contains_char (p5_topic_name p) PLUS = false.
Proof.
  unfold MqttPublish5_validate. intros H. apply bind_Ok_inv in H as ([] & _ & H).
  apply bind_Ok_inv in H as ([] & _ & H). case_bool_decide as Hn; [by rewrite Hn|].
  apply validation_topic_Ok in H as (_ & _ & _ & H1 & H2). rewrite !contains_char_spec.
  by rewrite !bool_decide_eq_false_2.
Qed.

Lemma MqttPublish5_roundtrip p props :
  wf_publish5 p → MqttPublish5_validate p = Ok () →
  encode_properities_hdr (p5_properties p) = Ok props →
  let body := (BinaryData_encode (p5_topic_name p) ++
    from_option u16_to_be_bytes [] (publish_pid (p5_qos p) (p5_packet_id p))) ++
    props ++ p5_payload p in
  zlen body <= MAX_REMAINING →
  decodes_frame MqttPublish5_from_bytes (Z.lor 48 (MqttPublish5_flags p)) body
    (Publish5 (MqttPublish5_norm p)).
Proof.
  intros ([Ht8 Ht] & Hq & Hid & Hpl & Hps) Hval Hprops body Hlen rest.
  destruct (MqttPublish5_validate_inv _ Hval) as (Hp & _ & Hts).
  apply validation_publish_inv in Hp as (Hq2 & Hdup & Hpid).
  destruct (MqttPublish5_first_byte p ltac:(unfold is_u8 in Hq; lia)) as (E1 & E2 & E3 & E4).
  unfold MqttPublish5_from_bytes. run_header. rewrite E1, E2, E3, E4. rsimp.
  change (3 =? _) with true. rsimp. replace (p5_qos p =? 3) with false by lia.
  replace ((p5_qos p =? 0) && p5_dup p) with false.
  2:{ destruct (Z.eqb_spec (p5_qos p) 0) as [E|]; [by rewrite (Hdup E)|done]. }
  run_if. unfold body in H. rewrite <- !app_assoc in H.
  rewrite (suffix_at_get_from _ _ _ H). rsimp. unfold parse_topic_name.
  rewrite (parse_string_at (p5_topic_name p)) by done. rsimp.
  rewrite (MqttPublish5_topic_chars p Hval).
  apply suffix_at_app in H. rewrite zlen_BinaryData_encode in H.
  unfold body in *. clear body. rewrite !zlen_app, ?zlen_BinaryData_encode in *. zlen_pos.
  set (pid := publish_pid (p5_qos p) (p5_packet_id p)) in *.
  assert ((if 0 <? p5_qos p
      then (tail ← ok_or (get_from buf (1 + vl + (2 + zlen (p5_topic_name p)))) BufferTooShort;
            '(packet_id, consumed) ← parse_packet_id tail;
            Ok (Some packet_id, 1 + vl + (2 + zlen (p5_topic_name p)) + consumed))
      else Ok (None, 1 + vl + (2 + zlen (p5_topic_name p))))
    = Ok (pid, 1 + vl + (2 + zlen (p5_topic_name p)) + zlen (from_option u16_to_be_bytes [] pid)))
    as ->.
  { unfold pid, publish_pid in *. destruct (Z.ltb_spec 0 (p5_qos p)) as [Hq0|].
    - destruct (Hpid Hq0) as (i & Ei & _). rewrite Ei in *. cbn [from_option] in *.
      rewrite (suffix_at_get_from _ _ _ H). rsimp. by rewrite parse_packet_id_at.
    - cbn [from_option]. change (zlen []) with 0. by rewrite Z.add_0_r. }
  rsimp. apply suffix_at_app in H. rewrite (suffix_at_get_from _ _ _ H). rsimp.
  rewrite (parse_properties_at (p5_properties p)) by (done || lia). rsimp.
  apply suffix_at_app in H. unfold usub. run_if.
  erewrite suffix_at_get_range by (exact H || lia). rsimp. run_if.
  replace (Publish5 _) with (Publish5 (MqttPublish5_norm p)) by done.
  rewrite validated_packet_Ok by (cbn [MqttPacket_validate]; by rewrite MqttPublish5_norm_validate).
  do 2 f_equal; lia.
Qed.

(** ** Safety

    The v5 decoder computes [packet_size - offset] without a check, and its topic and
    properties are parsed from the whole buffer: it is safe on a buffer that holds no more than
    the frame, which is what the stream parser hands it. *)
Lemma qos_bits a : is_u8 a → is_u8 (Z.shiftr (Z.land a 6) 1).
Proof.
  intros Ha. pose proof (forall_range 256 (λ a, let q := Z.shiftr (Z.land a 6) 1 in
    (0 <=? q) && (q <? 256)) eq_refl a Ha) as H. simpl in H. unfold is_u8. lia.
Qed.

Lemma land_15_u8 a : is_u8 (Z.land a 15).
Proof.
  unfold is_u8. change 15 with (Z.ones 4). rewrite Z.land_ones by lia.
  pose proof (Z.mod_pos_bound a (2 ^ 4) ltac:(lia)). lia.
Qed.

Lemma MqttPublish5_safe b :
  u8s b → (∀ n, frame_size b = Some n → zlen b <= n) →
  safe (MqttPublish5_from_bytes b) (decoded b).
Proof.
  intros Hb Hone. unfold MqttPublish5_from_bytes, parse_topic_name.
  safe_step. safe_step. safe_step; [exact I|]. safe_step; [exact I|]. safe_step; [exact I|].
  eapply safe_header; [done|lia|]. intros size vl Hfs Hs Hvl Hle.
  pose proof (Hone _ Hfs). safe_decoder.
  all: unfold wf_packet, wf_publish5, wf_str, wire_string in *; simpl; split_hyps.
  all: split_and!; try done; by apply qos_bits.
Qed.

Lemma MqttPublish3_safe b : u8s b → safe (MqttPublish3_from_bytes b) (decoded b).
Proof.
  intros Hb. unfold MqttPublish3_from_bytes. safe_decoder.
  all: unfold wf_packet, wf_publish3, wf_str, wire_string in *; simpl; split_hyps.
  all: split_and!; try done; try (apply qos_bits, land_15_u8).
  unfold is_u8, is_u16 in *; lia.
Qed.

Lemma MqttPublish3_roundtrip p :
  wf_publish3 p → MqttPublish3_validate p = Ok () →
  let body := (BinaryData_encode (p3_topic_name p) ++
    from_option u16_to_be_bytes [] (publish_pid (p3_qos p) (p3_message_id p))) ++
    [] ++ p3_payload p in
  zlen body <= MAX_REMAINING →
  decodes_frame MqttPublish3_from_bytes (Z.lor 48 (MqttPublish3_flags p)) body
    (Publish3 (MqttPublish3_norm p)).
Proof.
  intros ([Ht8 Ht] & Hq & Hid & Hpl) Hval body Hlen rest.
  destruct (MqttPublish3_validate_inv _ Hval) as [Hp Hts].
  apply validation_publish_inv in Hp as (Hq2 & _ & Hpid).
  destruct (MqttPublish3_first_byte p ltac:(unfold is_u8 in Hq; lia)) as (E1 & E2 & E3 & E4).
  unfold MqttPublish3_from_bytes. run_header. rewrite E1, E2, E3, E4. rsimp.
  change (3 =? _) with true. rsimp. replace (2 <? p3_qos p) with false by lia. run_if.
  erewrite suffix_at_index_range by (exact H || lia). rsimp. unfold body. rewrite <- !app_assoc.
  rewrite (parse_string_at (p3_topic_name p)) by done. rsimp.
  unfold body in *. clear body. rewrite <- !app_assoc in H. cbn [app] in *.
  apply suffix_at_app in H. rewrite zlen_BinaryData_encode in H.
  rewrite !zlen_app, ?zlen_BinaryData_encode in *. zlen_pos.
  set (pid := publish_pid (p3_qos p) (p3_message_id p)) in *.
  set (off := 1 + vl + (2 + zlen (p3_topic_name p))) in *.
  set (total := 1 + vl + _).
  assert (total = off + zlen (from_option u16_to_be_bytes [] pid) + zlen (p3_payload p)) as Htot
    by (unfold total, off; lia).
  clearbody total.
  assert ((if 0 <? p3_qos p
      then (if total <? off + 2 then Err (ParseErr "Missing message ID for QoS > 0")
            else hi ← index_at buf off; lo ← index_at buf (off + 1);
                 Ok (Some (u16_from_be_bytes [hi; lo]), off + 2))
      else Ok (None, off))
    = Ok (pid, off + zlen (from_option u16_to_be_bytes [] pid))) as ->.
  { unfold pid, publish_pid in *. destruct (Z.ltb_spec 0 (p3_qos p)) as [Hq0|].
    - destruct (Hpid Hq0) as (i & Ei & _). rewrite Ei in *. cbn [from_option wf_opt] in *.
      rewrite zlen_u16_be in *. run_if.
      change (u16_to_be_bytes i ++ p3_payload p ++ rest)
        with (i / 256 mod 256 :: i mod 256 :: p3_payload p ++ rest) in H.
      rewrite (suffix_at_index_at _ _ _ _ H). rsimp.
      rewrite (suffix_at_index_at _ _ _ _ (suffix_at_cons _ _ _ _ H)). rsimp.
      fold (u16_to_be_bytes i). by rewrite u16_be_roundtrip.
    - cbn [from_option]. change (zlen []) with 0. by rewrite Z.add_0_r. }
  rsimp. apply suffix_at_app in H. erewrite suffix_at_index_range by (exact H || lia).
  rsimp. replace (Publish3 _) with (Publish3 (MqttPublish3_norm p)) by done.
  rewrite validated_packet_Ok by (cbn [MqttPacket_validate]; by rewrite MqttPublish3_norm_validate).
  do 2 f_equal; unfold off in *; lia.
Qed.

(** On any buffer, what the v5 decoder returns (when it returns) obeys the contract. *)
Lemma usub_Ok {E} a b c : usub (E:=E) a b = Ok c → c = a - b ∧ b <= a.
Proof. unfold usub. destruct (Z.leb_spec b a); [|done]. intros [= <-]. lia. Qed.

Lemma bind_assoc_res {A B C} (m : res A) (f : A → res B) (g : B → res C) :
  (m ≫= f) ≫= g = m ≫= λ a, f a ≫= g.
Proof. by destruct m. Qed.

(** Forward through a decoder known to have returned, with what each step establishes. *)
Ltac fwd_step :=
  match goal with
  | H : (if ?c then _ else _) = Ok _ |- _ => destruct c eqn:?; try discriminate H
  | H : ((if ?c then _ else _) ≫= _) = Ok _ |- _ => destruct c eqn:?; try discriminate H
  | H : (Ok _ ≫= _) = Ok _ |- _ => cbn [mbind result_bind] in H
  | H : ((let '(_, _) := ?x in _) ≫= _) = Ok _ |- _ => destruct x as [? ?]; simpl in *
  | H : ((_ ≫= _) ≫= _) = Ok _ |- _ => rewrite bind_assoc_res in H
  | H : (usub _ _ ≫= _) = Ok _ |- _ =>
      apply bind_Ok_inv in H; destruct H as (? & ?Hsub & H); apply usub_Ok in Hsub; split_hyps
  | H : (?m ≫= _) = Ok _ |- _ =>
      let S := fresh "S" in
      eassert (safe m _) as S by (eauto with safe);
      apply bind_Ok_inv in H; destruct H as (? & ?Hm & H);
      apply (safe_Ok_inv _ _ _ S) in Hm; clear S; simpl in Hm, H; split_hyps
  | H : (let '(_, _) := ?x in _) = Ok _ |- _ => destruct x as [? ?]; simpl in *
  end.


Lemma MqttPublish5_sound b r :
  u8s b → MqttPublish5_from_bytes b = Ok r → decoded b r.
Proof.
  intros Hb H. unfold MqttPublish5_from_bytes in H. do 5 fwd_step.
  apply bind_Ok_inv in H as (tail & Ht & H). apply index_from_1 in Ht as ->.
  assert (u8s (drop 1 b)) as Hd by by apply Forall_drop.
  pose proof (safe_parse_remaining_length _ Hd) as Hs.
  apply bind_Ok_inv in H as ([size vl] & Hrl & H). rewrite Hrl in Hs. simpl in Hs.
  apply frame_size_parse in Hrl. destruct Hs as (Hs1 & Hs2 & _).
  destruct (_ <? _) eqn:Hc in H.
  { apply Ok_inj in H. subst r. apply decoded_Continue; [rewrite Hrl; f_equal; lia|lia]. }
  unfold parse_topic_name in H. repeat fwd_step.
  all: eapply safe_Ok_inv; [|exact H]; apply safe_validated;
    [rewrite Hrl; f_equal; lia|lia|];
    unfold wf_packet, wf_publish5, wf_str, wire_string in *; simpl; split_hyps;
    split_and!; try done; by apply qos_bits.
Qed.

(** ** Theorems *)

(** The single-pass PUBLISH encoders are the trait's default encoder: same bytes appended
    to the caller's buffer, same errors. *)
Theorem publish_encoders_agree p5 p3 b :
  wf_publish5 p5 →
  MqttPublish5_encode_to_buffer p5 b = encode_to_buffer MqttPublish5_impl p5 b ∧
  MqttPublish3_encode_to_buffer p3 b = encode_to_buffer MqttPublish3_impl p3 b.
Proof.
  intros Hwf. split; [by apply MqttPublish5_encode_default|apply MqttPublish3_encode_default].
Qed.

Definition sample_publish3 : MqttPublish3 := {|
  p3_dup := true; p3_qos := 2; p3_retain := false; p3_topic_name := str "t";
  p3_message_id := Some 7; p3_payload := [9] |}.

Definition sample_publish5 : MqttPublish5 := {|
  p5_topic_name := str "a/b"; p5_qos := 0; p5_dup := false; p5_retain := false;
  p5_packet_id := None; p5_payload := []; p5_properties := [TopicAlias 3] |}.

Lemma publish_encoders_agree_witness :
  MqttPublish5_encode_to_buffer sample_publish5 [0]
    = encode_to_buffer MqttPublish5_impl sample_publish5 [0] ∧
  MqttPublish3_encode_to_buffer sample_publish3 [0]
    = encode_to_buffer MqttPublish3_impl sample_publish3 [0].
Proof.
  apply publish_encoders_agree. unfold wf_publish5, wf_str. cbn.
  split_and!; try done; try (unfold is_u8; lia); unfold u8s; repeat constructor; done.
Defined.
