(* ===== verification/SubscribeCodec.v ===== *)
(** * The SUBSCRIBE and UNSUBSCRIBE codecs

    Models [src/mqtt_serde/mqttv5/{subscribe,unsubscribe}.rs] and
    [src/mqtt_serde/mqttv3/{subscribe,unsubscribe}.rs]. *)
From S2P Require Import Prelude BaseData TopicFilter Validation Properties Packets Framing.

(** [for x in l { bytes.extend(f(x)?); }] *)
Fixpoint extend_each {A} (f : A → res bytes) (l : list A) (b : bytes) : res bytes :=
  match l with
  | [] => Ok b
  | x :: l' => e ← f x; extend_each f l' (b ++ e)
  end.

(** [while offset < end { let (x, consumed) = item(offset)?; acc.push(x); offset += consumed; }]

    Every item takes at least one byte, so a turn per byte of the buffer is enough
    ([parse_items_safe]). *)
Fixpoint parse_items {A} (fuel : nat) (item : Z → res (A * Z)) (acc : list A)
    (offset end_ : Z) : res (list A * Z) :=
  if offset <? end_ then
    match fuel with
    | O => Panic
    | S fuel' =>
        '(x, consumed) ← item offset;
        parse_items fuel' item (acc ++ [x]) (offset + consumed) end_
    end
  else Ok (acc, offset).

(** ** SUBSCRIBE, MQTT 5 *)
Definition encode_subscription_options (self : TopicSubscription) : Z :=
  let options := 0 in
  let options := Z.lor options (Z.land (ts_qos self) 3) in
  let options := if ts_no_local self then Z.lor options 4 else options in
  let options := if ts_retain_as_published self then Z.lor options 8 else options in
  let options := Z.lor options (as_u8 (Z.shiftl (Z.land (ts_retain_handling self) 3) 4)) in
  options.

Definition decode_subscription_options (options : Z) : Z * bool * bool * Z :=
  let qos := Z.land options 3 in
  let no_local := negb (Z.land options 4 =? 0) in
  let retain_as_published := negb (Z.land options 8 =? 0) in
  let retain_handling := Z.land (Z.shiftr options 4) 3 in
  (qos, no_local, retain_as_published, retain_handling).

Definition TopicSubscription_to_bytes (self : TopicSubscription) : res bytes :=
  _ ← validation_subscription self;
  b ← encode_utf8_string (ts_topic_filter self);
  Ok (b ++ [encode_subscription_options self]).

Definition TopicSubscription_from_bytes (buffer : bytes) : res (TopicSubscription * Z) :=
  let offset := 0 in
  tail ← index_from buffer offset;
  '(topic_filter, consumed) ← parse_utf8_string tail;
  let offset := offset + consumed in
  _ ← validate_topic_filter topic_filter;
  _ ← validate_shared_subscription topic_filter;
  options ← ok_or (get_at buffer offset) BufferTooShort;
  let offset := offset + 1 in
  if negb (Z.land options 192 =? 0)
  then Err (ParseErr "SUBSCRIBE Subscription Options reserved bits must be 0") else
  let '(qos, no_local, retain_as_published, retain_handling) :=
    decode_subscription_options options in
  if no_local && starts_with topic_filter (str "$share/")
  then Err (ParseErr "SUBSCRIBE No Local flag must not be set on Shared Subscriptions") else
  let subscription := {|
    ts_topic_filter := topic_filter; ts_qos := qos; ts_no_local := no_local;
    ts_retain_as_published := retain_as_published; ts_retain_handling := retain_handling |} in
  _ ← validation_subscription subscription;
  Ok (subscription, offset).

Definition MqttSubscribe5_variable_header (self : MqttSubscribe5) : res bytes :=
  if s5_packet_id self =? 0 then Err (ParseErr "SUBSCRIBE packet_id must be > 0") else
  let b := u16_to_be_bytes (s5_packet_id self) in
  props ← encode_properities_hdr (s5_properties self);
  Ok (b ++ props).

Definition MqttSubscribe5_payload (self : MqttSubscribe5) : res bytes :=
  if bool_decide (s5_subscriptions self = [])
  then Err (ParseErr "SUBSCRIBE payload must contain at least one subscription") else
  extend_each TopicSubscription_to_bytes (s5_subscriptions self) [].

Definition MqttSubscribe5_from_bytes (buffer : bytes) : res ParseOk :=
  pkt_type ← packet_type buffer;
  if negb (pkt_type =? ControlPacketType_as_u8 SUBSCRIBE) then Err InvalidPacketType else
  b0 ← index_at buffer 0;
  let flags := Z.land b0 15 in
  if negb (flags =? 2)
  then Err (ParseErr "SUBSCRIBE fixed header flags must be 0010") else
  tail ← index_from buffer 1;
  '(size, vbi_len) ← parse_remaining_length tail;
  let offset := 1 + vbi_len in
  let total_len := offset + size in
  if zlen buffer <? total_len then Ok (Continue (total_len - zlen buffer) 0) else
  tail ← ok_or (get_from buffer offset) BufferTooShort;
  '(packet_id, consumed) ← parse_packet_id tail;
  let offset := offset + consumed in
  if packet_id =? 0 then Err (ParseErr "SUBSCRIBE packet_id must be > 0") else
  tail ← ok_or (get_range buffer offset total_len) BufferTooShort;
  '(properties, consumed) ← parse_properties_hdr tail;
  let offset := offset + consumed in
  '(subscriptions, offset) ←
    parse_items (length buffer)
      (λ offset, tail ← index_from buffer offset; TopicSubscription_from_bytes tail)
      [] offset total_len;
  if bool_decide (subscriptions = [])
  then Err (ParseErr "SUBSCRIBE payload must contain at least one subscription") else
  if negb (offset =? total_len) then Err (inconsistent_offset offset total_len) else
  validated_packet
    (Subscribe5 {| s5_packet_id := packet_id; s5_subscriptions := subscriptions;
                   s5_properties := properties |}) offset.

Definition MqttSubscribe5_impl : MqttControlPacket MqttSubscribe5 := {|
  mcp_validate := MqttSubscribe5_validate;
  mcp_control_packet_type := ControlPacketType_as_u8 SUBSCRIBE;
  mcp_flags := λ _, 2;
  mcp_variable_header := MqttSubscribe5_variable_header;
  mcp_payload := MqttSubscribe5_payload;
  mcp_from_bytes := MqttSubscribe5_from_bytes;
|}.

(** ** UNSUBSCRIBE, MQTT 5 *)
Definition MqttUnsubscribe5_variable_header (self : MqttUnsubscribe5) : res bytes :=
  if u5_packet_id self =? 0 then Err (ParseErr "UNSUBSCRIBE packet_id must be > 0") else
  let b := u16_to_be_bytes (u5_packet_id self) in
  props ← encode_properities_hdr (u5_properties self);
  Ok (b ++ props).

Definition MqttUnsubscribe5_payload (self : MqttUnsubscribe5) : res bytes :=
  if bool_decide (u5_topic_filters self = [])
  then Err (ParseErr "UNSUBSCRIBE payload must contain at least one topic filter") else
  extend_each encode_utf8_string (u5_topic_filters self) [].

Definition MqttUnsubscribe5_from_bytes (buffer : bytes) : res ParseOk :=
  pkt_type ← packet_type buffer;
  if negb (pkt_type =? ControlPacketType_as_u8 UNSUBSCRIBE) then Err InvalidPacketType else
  b0 ← index_at buffer 0;
  let flags := Z.land b0 15 in
  if negb (flags =? 2)
  then Err (ParseErr "UNSUBSCRIBE fixed header flags must be 0010") else
  tail ← index_from buffer 1;
  '(size, vbi_len) ← parse_remaining_length tail;
  let offset := 1 + vbi_len in
  let total_len := offset + size in
  if zlen buffer <? total_len then Ok (Continue (total_len - zlen buffer) 0) else
  tail ← ok_or (get_from buffer offset) BufferTooShort;
  '(packet_id, consumed) ← parse_packet_id tail;
  let offset := offset + consumed in
  if packet_id =? 0 then Err (ParseErr "UNSUBSCRIBE packet_id must be > 0") else
  tail ← ok_or (get_range buffer offset total_len) BufferTooShort;
  '(properties, consumed) ← parse_properties_hdr tail;
  let offset := offset + consumed in
  '(topic_filters, offset) ←
    parse_items (length buffer)
      (λ offset, tail ← index_from buffer offset; parse_utf8_string tail)
      [] offset total_len;
  if bool_decide (topic_filters = [])
  then Err (ParseErr "UNSUBSCRIBE payload must contain at least one topic filter") else
  if negb (offset =? total_len) then Err (inconsistent_offset offset total_len) else
  validated_packet
    (Unsubscribe5 {| u5_packet_id := packet_id; u5_topic_filters := topic_filters;
                     u5_properties := properties |}) offset.

Definition MqttUnsubscribe5_impl : MqttControlPacket MqttUnsubscribe5 := {|
  mcp_validate := MqttUnsubscribe5_validate;
  mcp_control_packet_type := ControlPacketType_as_u8 UNSUBSCRIBE;
  mcp_flags := λ _, 2;
  mcp_variable_header := MqttUnsubscribe5_variable_header;
  mcp_payload := MqttUnsubscribe5_payload;
  mcp_from_bytes := MqttUnsubscribe5_from_bytes;
|}.

(** ** SUBSCRIBE, MQTT 3.1.1 *)
Definition SubscriptionTopic_to_bytes (sub : SubscriptionTopic) : res bytes :=
  if 2 <? st_qos sub then Err (ParseErr "Invalid QoS level") else
  Ok (Utf8String_encode (st_topic_filter sub) ++ [st_qos sub]).

Definition MqttSubscribe3_payload (self : MqttSubscribe3) : res bytes :=
  extend_each SubscriptionTopic_to_bytes (s3_subscriptions self) [].

(** One turn of the payload loop. *)
Definition SubscriptionTopic_parse (buffer : bytes) (payload_end offset : Z)
    : res (SubscriptionTopic * Z) :=
  section ← index_range buffer offset payload_end;
  '(topic_filter, consumed) ← parse_utf8_string section;
  let offset := offset + consumed in
  if payload_end <=? offset
  then Err (ParseErr "SUBSCRIBE payload is missing QoS byte") else
  qos ← index_at buffer offset;
  if 2 <? qos then Err (ParseErr "Invalid QoS level in payload") else
  Ok ({| st_topic_filter := topic_filter; st_qos := qos |}, consumed + 1).

Definition MqttSubscribe3_from_bytes (buffer : bytes) : res ParseOk :=
  pkt_type ← packet_type buffer;
  if negb (pkt_type =? ControlPacketType_as_u8 SUBSCRIBE) then Err InvalidPacketType else
  b0 ← index_at buffer 0;
  let flags := Z.land b0 15 in
  if negb (flags =? 2)
  then Err (ParseErr "SUBSCRIBE packet has invalid fixed header flags") else
  tail ← index_from buffer 1;
  '(size, vbi_len) ← parse_remaining_length tail;
  let offset := 1 + vbi_len in
  let total_len := offset + size in
  if zlen buffer <? total_len then Ok (Continue (total_len - zlen buffer) 0) else
  if size <? 2
  then Err (ParseErr "SUBSCRIBE packet must have a 2-byte message identifier") else
  hi ← index_at buffer offset;
  lo ← index_at buffer (offset + 1);
  let message_id := u16_from_be_bytes [hi; lo] in
  let offset := offset + 2 in
  let payload_end := total_len in
  '(subscriptions, offset) ←
    parse_items (length buffer) (SubscriptionTopic_parse buffer payload_end) []
      offset payload_end;
  if negb (offset =? total_len)
  then Err (InternalError "Failed to consume entire SUBSCRIBE packet") else
  validated_packet
    (Subscribe3 {| s3_message_id := message_id; s3_subscriptions := subscriptions |}) total_len.

Definition MqttSubscribe3_impl : MqttControlPacket MqttSubscribe3 := {|
  mcp_validate := MqttSubscribe3_validate;
  mcp_control_packet_type := ControlPacketType_as_u8 SUBSCRIBE;
  mcp_flags := λ _, 2;
  mcp_variable_header := λ self, Ok (TwoByteInteger_encode (s3_message_id self));
  mcp_payload := MqttSubscribe3_payload;
  mcp_from_bytes := MqttSubscribe3_from_bytes;
|}.

(** ** UNSUBSCRIBE, MQTT 3.1.1 *)
Definition MqttUnsubscribe3_payload (self : MqttUnsubscribe3) : res bytes :=
  extend_each (λ topic, Ok (Utf8String_encode topic)) (u3_topic_filters self) [].

Definition MqttUnsubscribe3_from_bytes (buffer : bytes) : res ParseOk :=
  pkt_type ← packet_type buffer;
  if negb (pkt_type =? ControlPacketType_as_u8 UNSUBSCRIBE) then Err InvalidPacketType else
  b0 ← index_at buffer 0;
  let flags := Z.land b0 15 in
  if negb (flags =? 2)
  then Err (ParseErr "UNSUBSCRIBE packet has invalid fixed header flags") else
  tail ← index_from buffer 1;
  '(size, vbi_len) ← parse_remaining_length tail;
  let offset := 1 + vbi_len in
  let total_len := offset + size in
  if zlen buffer <? total_len then Ok (Continue (total_len - zlen buffer) 0) else
  if size <? 2
  then Err (ParseErr "UNSUBSCRIBE packet must have a 2-byte message identifier") else
  hi ← index_at buffer offset;
  lo ← index_at buffer (offset + 1);
  let message_id := u16_from_be_bytes [hi; lo] in
  let offset := offset + 2 in
  let payload_end := total_len in
  '(topic_filters, offset) ←
    parse_items (length buffer)
      (λ offset, section ← index_range buffer offset payload_end; parse_utf8_string section)
      [] offset payload_end;
  if negb (offset =? total_len)
  then Err (InternalError "Failed to consume entire UNSUBSCRIBE packet") else
  validated_packet
    (Unsubscribe3 {| u3_message_id := message_id; u3_topic_filters := topic_filters |})
    total_len.

Definition MqttUnsubscribe3_impl : MqttControlPacket MqttUnsubscribe3 := {|
  mcp_validate := MqttUnsubscribe3_validate;
  mcp_control_packet_type := ControlPacketType_as_u8 UNSUBSCRIBE;
  mcp_flags := λ _, 2;
  mcp_variable_header := λ self, Ok (TwoByteInteger_encode (u3_message_id self));
  mcp_payload := MqttUnsubscribe3_payload;
  mcp_from_bytes := MqttUnsubscribe3_from_bytes;
|}.

(** ** The payload loops *)
Section items.
Context {A : Type} (enc : A → res bytes) (good : A → Prop).

Lemma extend_each_Ok l b out :
  extend_each enc l b = Ok out →
  ∃ encs, Forall2 (λ x e, enc x = Ok e) l encs ∧ out = b ++ concat encs.
Proof.
  revert b. induction l as [|x l IH]; intros b H; simpl in H.
  { apply Ok_inj in H. subst. exists []. split; [constructor|by rewrite app_nil_r]. }
  apply bind_Ok_inv in H as (e & He & H). apply IH in H as (encs & H & ->).
  exists (e :: encs). split; [by constructor|]. simpl. by rewrite app_assoc.
Qed.

Lemma parse_items_roundtrip fuel buf item l encs acc off end_ rest :
  Forall2 (λ x e, enc x = Ok e) l encs → Forall good l →
  suffix_at buf off (concat encs ++ rest) → end_ = off + zlen (concat encs) →
  (length (concat encs) <= fuel)%nat →
  (∀ x e o s, enc x = Ok e → good x → suffix_at buf o (e ++ s) → o + zlen e <= end_ →
     item o = Ok (x, zlen e) ∧ 0 < zlen e) →
  parse_items fuel item acc off end_ = Ok (acc ++ l, end_).
Proof.
  intros Henc. revert fuel acc off.
  induction Henc as [|x e l encs He Henc IH]; intros fuel acc off Hg Hs -> Hf Hitem.
  - simpl concat. rewrite zlen_nil, Z.add_0_r.
    destruct fuel; simpl; rewrite Z.ltb_irrefl, app_nil_r; done.
  - simpl concat in *. rewrite <- app_assoc in Hs. apply Forall_cons_iff in Hg as [Hx Hg].
    rewrite length_app in Hf. rewrite zlen_app in *.
    destruct (Hitem x e off (concat encs ++ rest)) as [Hi Hpos];
      [done..|pose proof (zlen_nonneg (concat encs)); lia|].
    assert (0 < length e)%nat by (unfold zlen in Hpos; lia).
    destruct fuel as [|fuel]; [lia|]. cbn [parse_items].
    pose proof (zlen_nonneg (concat encs)).
    replace (off <? _) with true by lia. rewrite Hi. rsimp.
    rewrite IH; [by rewrite <- app_assoc; do 2 f_equal; lia|done|by apply suffix_at_app|lia|lia|].
    intros x' e' o s ? ? ? ?. apply (Hitem x' e' o s); [done..|lia].
Qed.

End items.

Lemma parse_items_safe {A} (good : A → Prop) fuel (buf : bytes) item (acc : list A) off end_ :
  0 <= off → end_ <= zlen buf → zlen buf - off <= Z.of_nat fuel → off <= zlen buf →
  Forall good acc →
  (∀ o, 0 <= o < end_ → safe (item o) (λ r, 0 < r.2 ∧ o + r.2 <= zlen buf ∧ good r.1)) →
  safe (parse_items fuel item acc off end_)
    (λ r, off <= r.2 ∧ end_ <= r.2 <= zlen buf ∧ Forall good r.1).
Proof.
  intros Ho He Hf Hl Hacc Hitem. revert acc off Ho Hf Hl Hacc.
  induction fuel as [|fuel IH]; intros acc off Ho Hf Hl Hacc; cbn [parse_items];
    destruct (Z.ltb_spec off end_); try lia; try (simpl; split_and!; [lia..|done]).
  eapply safe_bind; [apply Hitem; lia|]. intros [x n] (Hn & Hb & Hx) _. simpl in *.
  eapply safe_mono; [apply IH; [lia..|apply Forall_app; auto]|]. intros [] ?; simpl in *.
  split_and!; try lia; tauto.
Qed.

Lemma zlen_concat_le buf off (encs : list bytes) rest :
  suffix_at buf off (concat encs ++ rest) → (length (concat encs) <= length buf)%nat.
Proof. intros (pre & -> & _). rewrite !length_app. lia. Qed.

(** ** One item *)
Lemma subscription_options_roundtrip s :
  0 <= ts_qos s <= 2 → 0 <= ts_retain_handling s <= 2 →
  Z.land (encode_subscription_options s) 192 = 0 ∧
  decode_subscription_options (encode_subscription_options s)
  = (ts_qos s, ts_no_local s, ts_retain_as_published s, ts_retain_handling s).
Proof.
  intros Hq Hr. unfold encode_subscription_options.
  assert (ts_qos s = 0 ∨ ts_qos s = 1 ∨ ts_qos s = 2) as [-> |[-> | ->]] by lia;
  assert (ts_retain_handling s = 0 ∨ ts_retain_handling s = 1 ∨ ts_retain_handling s = 2)
    as [-> |[-> | ->]] by lia;
  destruct (ts_no_local s), (ts_retain_as_published s); done.
Qed.

Lemma subscription_Ok_inv s :
  validation_subscription s = Ok () →
  validate_topic_filter (ts_topic_filter s) = Ok () ∧
  validate_shared_subscription (ts_topic_filter s) = Ok () ∧
  ts_qos s <= 2 ∧ ts_retain_handling s <= 2 ∧
  ts_no_local s && starts_with (ts_topic_filter s) (str "$share/") = false.
Proof.
  intros H. pose proof (safe_Ok_inv _ _ _ (safe_subscription s) H) as (_ & Hq & Hr & Hn).
  unfold validation_subscription in H. apply bind_Ok_inv in H as ([] & H1 & H).
  apply bind_Ok_inv in H as ([] & H2 & _). split_and!; [done..|].
  destruct (ts_no_local s); [by rewrite Hn|done].
Qed.

Lemma topic_filter_string s :
  validate_topic_filter s = Ok () → validation_string s = Ok ().
Proof.
  intros H. apply validate_topic_filter_spec in H. apply validation_string_Ok.
  by apply topic_filter_ok_len.
Qed.

Lemma TopicSubscription_roundtrip s e rest :
  wf_subscription s → TopicSubscription_to_bytes s = Ok e →
  TopicSubscription_from_bytes (e ++ rest) = Ok (s, zlen e) ∧ 0 < zlen e.
Proof.
  intros ([_ Hs] & Hq & Hr) He. unfold TopicSubscription_to_bytes in He.
  apply bind_Ok_inv in He as ([] & Hv & He).
  destruct (subscription_Ok_inv _ Hv) as (H1 & H2 & H3 & H4 & H5).
  pose proof (topic_filter_string _ H1) as Hstr.
  rewrite encode_utf8_string_valid in He by done. cbn [mbind result_bind] in He.
  apply Ok_inj in He. subst e. unfold is_u8 in *.
  destruct (subscription_options_roundtrip s) as [E1 E2]; [lia..|].
  unfold Utf8String_encode. rewrite zlen_app, zlen_BinaryData_encode, zlen_cons, zlen_nil.
  split; [|zlen_pos; lia]. rewrite <- app_assoc. unfold TopicSubscription_from_bytes.
  rewrite (suffix_at_index_from _ _ _ (suffix_at_0 _)). rsimp.
  fold (Utf8String_encode (ts_topic_filter s)).
  rewrite parse_string_at by done. rsimp. rewrite H1. rsimp. rewrite H2. rsimp.
  pose proof (suffix_at_app _ 0 _ _ (suffix_at_0
    (Utf8String_encode (ts_topic_filter s) ++ [encode_subscription_options s] ++ rest))) as Ho.
  unfold Utf8String_encode in Ho at 2. rewrite zlen_BinaryData_encode in Ho.
  rewrite (suffix_at_get_at _ _ _ _ Ho). rsimp. rewrite E1, E2. cbn [Z.eqb negb].
  rewrite H5. replace {| ts_topic_filter := _ |} with s by by destruct s.
  rewrite Hv. rsimp. do 2 f_equal; lia.
Qed.

Lemma TopicSubscription_safe b :
  u8s b →
  safe (TopicSubscription_from_bytes b) (λ r, 0 < r.2 <= zlen b ∧ wf_subscription r.1).
Proof.
  intros Hb. unfold TopicSubscription_from_bytes, decode_subscription_options.
  pose proof (zlen_nonneg b). safe_auto. simpl. split; [lia|].
  match goal with Ho : is_u8 ?a, Hz : negb (Z.land ?a 192 =? 0) = false |- _ =>
    pose proof (forall_range 256 (λ a, (Z.land a 3 <? 4) && (0 <=? Z.land a 3)
      && (Z.land (Z.shiftr a 4) 3 <? 4) && (0 <=? Z.land (Z.shiftr a 4) 3)) eq_refl a Ho) as Hbits
  end.
  unfold wf_subscription, wf_str, wire_string, is_u8 in *. simpl in *. split_hyps.
  split_and!; (done || lia).
Qed.
#[export] Hint Resolve TopicSubscription_safe : safe.

(** ** Round trips of the packets *)
Lemma MqttSubscribe5_roundtrip p vh pl :
  wf_subscribe5 p → MqttSubscribe5_validate p = Ok () →
  MqttSubscribe5_variable_header p = Ok vh → MqttSubscribe5_payload p = Ok pl →
  zlen (vh ++ pl) <= MAX_REMAINING →
  decodes_frame MqttSubscribe5_from_bytes (first_byte MqttSubscribe5_impl p) (vh ++ pl)
    (Subscribe5 p).
Proof.
  intros (Hid & Hsubs & Hps) Hval Hvh Hpl Hlen rest.
  change (first_byte MqttSubscribe5_impl p) with 130. unfold MqttSubscribe5_from_bytes.
  run_header. change (Z.shiftr 130 4) with 8. change (8 =? _) with true. rsimp.
  change (Z.land 130 15 =? 2) with true. rsimp. run_if.
  unfold MqttSubscribe5_variable_header in Hvh. destruct (_ =? 0) eqn:Hz in Hvh; [done|].
  apply bind_Ok_inv in Hvh as (h & Hh & Hvh). apply Ok_inj in Hvh. subst vh.
  unfold MqttSubscribe5_payload in Hpl. destruct (bool_decide _) eqn:Hne in Hpl; [done|].
  apply extend_each_Ok in Hpl as (encs & Hencs & ->). cbn [app] in *.
  rewrite <- !app_assoc in *. rewrite (suffix_at_get_from _ _ _ H). rsimp.
  rewrite parse_packet_id_at by done. rsimp. zsimp. zlen_pos. rewrite Hz.
  apply (suffix_at_app _ _ (u16_to_be_bytes _)) in H. rewrite zlen_u16_be in H.
  rewrite app_assoc in H. erewrite suffix_at_get_range by (exact H || (zsimp; lia)). rsimp.
  rewrite (parse_properties_at (s5_properties p)) by (done || lia). rsimp.
  rewrite <- app_assoc in H. apply suffix_at_app in H.
  erewrite parse_items_roundtrip with (good := wf_subscription);
    [|done|done|exact H|lia|by eapply zlen_concat_le|].
  2:{ intros x e o s He Hx Hs _. rewrite (suffix_at_index_from _ _ _ Hs). rsimp.
      by apply TopicSubscription_roundtrip. }
  rsimp. cbn [app]. rewrite Hne. run_if.
  replace {| s5_packet_id := _ |} with p by by destruct p.
  rewrite validated_packet_Ok by done. do 2 f_equal; lia.
Qed.

Lemma MqttUnsubscribe5_filters p :
  MqttUnsubscribe5_validate p = Ok () →
  Forall (λ f, validation_string f = Ok ()) (u5_topic_filters p).
Proof.
  unfold MqttUnsubscribe5_validate. intros H. do 3 (apply bind_Ok_inv in H as ([] & _ & H)).
  apply for_each_Ok in H. eapply Forall_impl; [exact H|]. intros f Hf.
  apply bind_Ok_inv in Hf as ([] & Hf & _). by apply topic_filter_string.
Qed.

Lemma string_item_roundtrip x e rest :
  wf_str x ∧ validation_string x = Ok () → encode_utf8_string x = Ok e →
  parse_utf8_string (e ++ rest) = Ok (x, zlen e) ∧ 0 < zlen e.
Proof.
  intros [[_ Hs] Hv] He. rewrite encode_utf8_string_valid in He by done.
  apply Ok_inj in He. subst e. rewrite parse_string_at by done.
  unfold Utf8String_encode. rewrite zlen_BinaryData_encode. split; [done|zlen_pos; lia].
Qed.

Lemma MqttUnsubscribe5_roundtrip p vh pl :
  wf_unsubscribe5 p → MqttUnsubscribe5_validate p = Ok () →
  MqttUnsubscribe5_variable_header p = Ok vh → MqttUnsubscribe5_payload p = Ok pl →
  zlen (vh ++ pl) <= MAX_REMAINING →
  decodes_frame MqttUnsubscribe5_from_bytes (first_byte MqttUnsubscribe5_impl p) (vh ++ pl)
    (Unsubscribe5 p).
Proof.
  intros (Hid & Hfs & Hps) Hval Hvh Hpl Hlen rest.
  change (first_byte MqttUnsubscribe5_impl p) with 162. unfold MqttUnsubscribe5_from_bytes.
  run_header. change (Z.shiftr 162 4) with 10. change (10 =? _) with true. rsimp.
  change (Z.land 162 15 =? 2) with true. rsimp. run_if.
  unfold MqttUnsubscribe5_variable_header in Hvh. destruct (_ =? 0) eqn:Hz in Hvh; [done|].
  apply bind_Ok_inv in Hvh as (h & Hh & Hvh). apply Ok_inj in Hvh. subst vh.
  unfold MqttUnsubscribe5_payload in Hpl. destruct (bool_decide _) eqn:Hne in Hpl; [done|].
  apply extend_each_Ok in Hpl as (encs & Hencs & ->). cbn [app] in *.
  rewrite <- !app_assoc in *. rewrite (suffix_at_get_from _ _ _ H). rsimp.
  rewrite parse_packet_id_at by done. rsimp. zsimp. zlen_pos. rewrite Hz.
  apply (suffix_at_app _ _ (u16_to_be_bytes _)) in H. rewrite zlen_u16_be in H.
  rewrite app_assoc in H. erewrite suffix_at_get_range by (exact H || (zsimp; lia)). rsimp.
  rewrite (parse_properties_at (u5_properties p)) by (done || lia). rsimp.
  rewrite <- app_assoc in H. apply suffix_at_app in H.
  erewrite parse_items_roundtrip with (good := λ x, wf_str x ∧ validation_string x = Ok ());
    [|done| |exact H|lia|by eapply zlen_concat_le|].
  2:{ apply Forall_and. split; [done|by apply MqttUnsubscribe5_filters]. }
  2:{ intros x e o s He Hx Hs _. rewrite (suffix_at_index_from _ _ _ Hs). rsimp.
      by apply string_item_roundtrip. }
  rsimp. cbn [app]. rewrite Hne. run_if.
  replace {| u5_packet_id := _ |} with p by by destruct p.
  rewrite validated_packet_Ok by done. do 2 f_equal; lia.
Qed.

(** The two bytes of a message identifier. *)
Lemma message_id_at {E} buf off id s :
  suffix_at buf off (u16_to_be_bytes id ++ s) → is_u16 id →
  ∃ hi lo, index_at (E:=E) buf off = Ok hi ∧ index_at (E:=E) buf (off + 1) = Ok lo ∧
    u16_from_be_bytes [hi; lo] = id.
Proof.
  intros H Hid. exists (id / 256 mod 256), (id mod 256).
  change (u16_to_be_bytes id ++ s) with (id / 256 mod 256 :: id mod 256 :: s) in H.
  split_and!; [by eapply suffix_at_index_at|by eapply suffix_at_index_at, suffix_at_cons|].
  by apply u16_be_roundtrip.
Qed.

Definition good_subscription3 (s : SubscriptionTopic) : Prop :=
  wf_subscription3 s ∧ validation_string (st_topic_filter s) = Ok ().

Lemma SubscriptionTopic_roundtrip buf end_ x e o s :
  SubscriptionTopic_to_bytes x = Ok e → good_subscription3 x →
  suffix_at buf o (e ++ s) → o + zlen e <= end_ → end_ <= zlen buf →
  SubscriptionTopic_parse buf end_ o = Ok (x, zlen e) ∧ 0 < zlen e.
Proof.
  intros He [[[_ Hs] Hq] Hv] Hsuf Hend Hbuf. unfold SubscriptionTopic_to_bytes in He.
  destruct (2 <? st_qos x) eqn:Hq2; [done|]. apply Ok_inj in He. subst e.
  unfold SubscriptionTopic_parse.
  set (enc := Utf8String_encode (st_topic_filter x)) in *.
  assert (zlen enc = 2 + zlen (st_topic_filter x)) as Hel by apply zlen_BinaryData_encode.
  pose proof (suffix_at_len _ _ _ Hsuf) as Hbl. pose proof (suffix_at_nonneg _ _ _ Hsuf).
  rewrite <- app_assoc in Hsuf. zsimp. zlen_pos.
  (* the item and what follows it up to [end_] *)
  set (more := take (Z.to_nat (end_ - (o + (zlen enc + 1)))) s).
  assert (index_range (E:=ParseError) buf o end_ = Ok (enc ++ [st_qos x] ++ more)) as ->.
  { eapply (suffix_at_index_range _ _ _ _ (drop (Z.to_nat (end_ - (o + (zlen enc + 1)))) s)).
    - rewrite <- !app_assoc. unfold more. by rewrite take_drop.
    - unfold more. rewrite !zlen_app, zlen_take by lia. change (zlen [st_qos x]) with 1. lia. }
  rsimp. unfold enc. rewrite parse_string_at by done. rsimp. run_if. fold enc.
  apply suffix_at_app in Hsuf. rewrite <- Hel.
  rewrite (suffix_at_index_at _ _ _ _ Hsuf). rsimp. rewrite Hq2.
  split; [|lia]. destruct x. simpl. done.
Qed.

Lemma MqttSubscribe3_filters p :
  MqttSubscribe3_validate p = Ok () →
  Forall (λ s, validation_string (st_topic_filter s) = Ok ()) (s3_subscriptions p).
Proof.
  unfold MqttSubscribe3_validate. intros H. do 2 (apply bind_Ok_inv in H as ([] & _ & H)).
  apply for_each_Ok in H. eapply Forall_impl; [exact H|]. intros f Hf.
  apply bind_Ok_inv in Hf as ([] & Hf & _). by apply topic_filter_string.
Qed.

Lemma MqttSubscribe3_roundtrip p pl :
  is_u16 (s3_message_id p) → Forall wf_subscription3 (s3_subscriptions p) →
  MqttSubscribe3_validate p = Ok () → MqttSubscribe3_payload p = Ok pl →
  let vh := TwoByteInteger_encode (s3_message_id p) in
  zlen (vh ++ pl) <= MAX_REMAINING →
  decodes_frame MqttSubscribe3_from_bytes (first_byte MqttSubscribe3_impl p) (vh ++ pl)
    (Subscribe3 p).
Proof.
  intros Hid Hsubs Hval Hpl vh Hlen rest. unfold vh, TwoByteInteger_encode in *. clear vh.
  change (first_byte MqttSubscribe3_impl p) with 130. unfold MqttSubscribe3_from_bytes.
  run_header. change (Z.shiftr 130 4) with 8. change (8 =? _) with true. rsimp.
  change (Z.land 130 15 =? 2) with true. rsimp. run_if.
  apply extend_each_Ok in Hpl as (encs & Hencs & ->). cbn [app] in *.
  rewrite <- !app_assoc in *. zsimp. zlen_pos. run_if.
  destruct (message_id_at (E:=ParseError) _ _ _ _ H Hid) as (hi & lo & -> & E & Eid).
  rsimp. rewrite E. rsimp. rewrite Eid.
  apply suffix_at_app in H. rewrite zlen_u16_be in H.
  erewrite parse_items_roundtrip with (good := good_subscription3);
    [|done| |exact H|lia|by eapply zlen_concat_le|].
  2:{ apply Forall_and. split; [done|by apply MqttSubscribe3_filters]. }
  2:{ intros x e o s He Hx Hs Ho. eapply SubscriptionTopic_roundtrip; [done..|lia]. }
  rsimp. cbn [app]. run_if.
  replace {| s3_message_id := _ |} with p by by destruct p.
  rewrite validated_packet_Ok by done. do 2 f_equal; lia.
Qed.

Lemma string_section_roundtrip buf end_ x e o s :
  Ok (Utf8String_encode x) = Ok (E:=ParseError) e → wf_str x ∧ validation_string x = Ok () →
  suffix_at buf o (e ++ s) → o + zlen e <= end_ → end_ <= zlen buf →
  (section ← index_range buf o end_; parse_utf8_string section) = Ok (x, zlen e) ∧ 0 < zlen e.
Proof.
  intros He Hx Hsuf Hend Hbuf.
  pose proof (suffix_at_len _ _ _ Hsuf) as Hbl. pose proof (suffix_at_nonneg _ _ _ Hsuf).
  zsimp. zlen_pos. set (more := take (Z.to_nat (end_ - (o + zlen e))) s).
  assert (index_range (E:=ParseError) buf o end_ = Ok (e ++ more)) as ->.
  { eapply (suffix_at_index_range _ _ _ _ (drop (Z.to_nat (end_ - (o + zlen e))) s)).
    - rewrite <- app_assoc. unfold more. by rewrite take_drop.
    - unfold more. rewrite zlen_app, zlen_take by lia. lia. }
  rsimp. apply string_item_roundtrip; [done|]. rewrite encode_utf8_string_valid; [done|apply Hx].
Qed.

Lemma MqttUnsubscribe3_roundtrip p pl :
  is_u16 (u3_message_id p) → Forall wf_str (u3_topic_filters p) →
  MqttUnsubscribe3_validate p = Ok () → MqttUnsubscribe3_payload p = Ok pl →
  let vh := TwoByteInteger_encode (u3_message_id p) in
  zlen (vh ++ pl) <= MAX_REMAINING →
  decodes_frame MqttUnsubscribe3_from_bytes (first_byte MqttUnsubscribe3_impl p) (vh ++ pl)
    (Unsubscribe3 p).
Proof.
  intros Hid Hfs Hval Hpl vh Hlen rest. unfold vh, TwoByteInteger_encode in *. clear vh.
  change (first_byte MqttUnsubscribe3_impl p) with 162. unfold MqttUnsubscribe3_from_bytes.
  run_header. change (Z.shiftr 162 4) with 10. change (10 =? _) with true. rsimp.
  change (Z.land 162 15 =? 2) with true. rsimp. run_if.
  apply extend_each_Ok in Hpl as (encs & Hencs & ->). cbn [app] in *.
  rewrite <- !app_assoc in *. zsimp. zlen_pos. run_if.
  destruct (message_id_at (E:=ParseError) _ _ _ _ H Hid) as (hi & lo & -> & E & Eid).
  rsimp. rewrite E. rsimp. rewrite Eid.
  apply suffix_at_app in H. rewrite zlen_u16_be in H.
  erewrite parse_items_roundtrip with (good := λ x, wf_str x ∧ validation_string x = Ok ())
    (enc := λ topic, Ok (Utf8String_encode topic)) (encs := encs);
    [|exact Hencs| |exact H|lia|by eapply zlen_concat_le|].
  2:{ apply Forall_and. split; [done|]. unfold MqttUnsubscribe3_validate in Hval.
      do 2 (apply bind_Ok_inv in Hval as ([] & _ & Hval)). apply for_each_Ok in Hval.
      eapply Forall_impl; [exact Hval|]. intros f Hf. by apply topic_filter_string. }
  2:{ intros x e o s He Hx Hs Ho. eapply string_section_roundtrip; [done..|lia]. }
  rsimp. cbn [app]. run_if.
  replace {| u3_message_id := _ |} with p by by destruct p.
  rewrite validated_packet_Ok by done. do 2 f_equal; lia.
Qed.

(** ** Safety *)
Ltac safe_items good b :=
  eapply safe_bind;
    [apply (parse_items_safe good _ b); [lia|lia|unfold zlen; lia|lia|constructor|intros ? ?]
    |intros [? ?] (? & [? ?] & ?) _; simpl in *].

Lemma MqttSubscribe5_safe b : u8s b → safe (MqttSubscribe5_from_bytes b) (decoded b).
Proof.
  intros Hb. unfold MqttSubscribe5_from_bytes. safe_decoder.
  safe_items wf_subscription b.
  - safe_step. eapply safe_mono; [by apply TopicSubscription_safe|].
    intros [] [? ?]; simpl in *. split_and!; (lia || done).
  - safe_decoder. done.
Qed.

Lemma safe_string_items b o :
  u8s b → 0 <= o <= zlen b →
  safe (tail ← index_from b o; parse_utf8_string tail)
    (λ r, 0 < r.2 ∧ o + r.2 <= zlen b ∧ wf_str r.1).
Proof.
  intros Hb Ho. safe_step. eapply safe_mono; [by apply safe_parse_utf8_string|].
  intros [] [? Hw]; simpl in *. split_and!; [lia..|]. split; apply Hw.
Qed.

Lemma MqttUnsubscribe5_safe b : u8s b → safe (MqttUnsubscribe5_from_bytes b) (decoded b).
Proof.
  intros Hb. unfold MqttUnsubscribe5_from_bytes. safe_decoder.
  safe_items wf_str b; [apply safe_string_items; [done|lia]|]. safe_decoder. done.
Qed.

Lemma MqttSubscribe3_safe b : u8s b → safe (MqttSubscribe3_from_bytes b) (decoded b).
Proof.
  intros Hb. unfold MqttSubscribe3_from_bytes. safe_decoder.
  safe_items wf_subscription3 b.
  - unfold SubscriptionTopic_parse. safe_auto. simpl. unfold wf_subscription3, wf_str, wire_string in *.
    split_hyps. split_and!; (lia || done).
  - safe_decoder. split; simpl; [|done]. unfold is_u8, is_u16 in *. lia.
Qed.

Lemma MqttUnsubscribe3_safe b : u8s b → safe (MqttUnsubscribe3_from_bytes b) (decoded b).
Proof.
  intros Hb. unfold MqttUnsubscribe3_from_bytes. safe_decoder.
  safe_items wf_str b.
  - safe_step. eapply safe_mono; [by apply safe_parse_utf8_string|].
    intros [] [? Hw]; simpl in *. split_and!; [lia..|]. split; apply Hw.
  - safe_decoder. split; simpl; [|done]. unfold is_u8, is_u16 in *. lia.
Qed.
