(* ===== verification/ConnectCodec.v ===== *)
(** * The CONNECT codec

    Models [src/mqtt_serde/mqttv5/{connect,will}.rs] and [src/mqtt_serde/mqttv3/connect.rs].
    The round trips carry the side conditions the decoders impose and the encoders do not
    check ([connect5_encodable], [connect3_encodable]). *)
From S2P Require Import Prelude BaseData TopicFilter Validation Properties Packets Framing.

(** ** MQTT 5 *)
Definition MqttConnect5_connect_flags (self : MqttConnect5) : Z :=
  let flags := 0 in
  let flags := if bool_decide (is_Some (c5_username self)) then Z.lor flags 128 else flags in
  let flags := if bool_decide (is_Some (c5_password self)) then Z.lor flags 64 else flags in
  let flags :=
    match c5_will self with
    | Some will =>
        let flags := Z.lor flags 4 in
        let flags := Z.lor flags (as_u8 (Z.shiftl (w5_will_qos will) 3)) in
        if w5_will_retain will then Z.lor flags 32 else flags
    | None => flags
    end in
  let flags := if c5_clean_start self then Z.lor flags 2 else flags in
  flags.

Definition MqttConnect5_variable_header (self : MqttConnect5) : res bytes :=
  b ← encode_utf8_string (c5_protocol_name self);
  let b := b ++ [c5_protocol_version self] in
  let b := b ++ [MqttConnect5_connect_flags self] in
  let b := b ++ u16_to_be_bytes (c5_keep_alive self) in
  props ← encode_properities_hdr (c5_properties self);
  Ok (b ++ props).

(** [if let Some(x) = o { v.push(mk(x)); }] *)
Definition push_some {A} (mk : A → Property) (o : option A) : list Property :=
  match o with Some x => [mk x] | None => [] end.

(** The property list [payload] builds from a [WillProperties]. *)
Definition will_properties (w : WillProperties) : list Property :=
  push_some WillDelayInterval (wp_will_delay_interval w) ++
  push_some PayloadFormatIndicator (wp_payload_format_indicator w) ++
  push_some MessageExpiryInterval (wp_message_expiry_interval w) ++
  push_some ContentType (wp_content_type w) ++
  push_some ResponseTopic (wp_response_topic w) ++
  push_some CorrelationData (wp_correlation_data w) ++
  wp_user_properties w.

Definition Will5_payload (will : Will5) : res bytes :=
  let props := will_properties (w5_properties will) in
  _ ← validation_properties props CtxWill;
  ps ← encode_properities_hdr props;
  topic ← encode_utf8_string (w5_will_topic will);
  message ← encode_binary_data (w5_will_message will);
  Ok (ps ++ topic ++ message).

(** [if let Some(x) = o { bytes.extend(f(x)?); }] *)
Definition extend_some {A} (f : A → res bytes) (o : option A) : res bytes :=
  match o with Some x => f x | None => Ok [] end.

Definition MqttConnect5_payload (self : MqttConnect5) : res bytes :=
  id ← encode_utf8_string (c5_client_id self);
  will ← extend_some Will5_payload (c5_will self);
  username ← extend_some encode_utf8_string (c5_username self);
  password ← extend_some encode_binary_data (c5_password self);
  Ok (id ++ will ++ username ++ password).

Definition set_will_property (w : WillProperties) (property : Property) : WillProperties :=
  let '(Build_WillProperties wdi pfi mei ct rt cd ups) := w in
  match property with
  | WillDelayInterval value => Build_WillProperties (Some value) pfi mei ct rt cd ups
  | PayloadFormatIndicator value => Build_WillProperties wdi (Some value) mei ct rt cd ups
  | MessageExpiryInterval value => Build_WillProperties wdi pfi (Some value) ct rt cd ups
  | ContentType value => Build_WillProperties wdi pfi mei (Some value) rt cd ups
  | ResponseTopic value => Build_WillProperties wdi pfi mei ct (Some value) cd ups
  | CorrelationData value => Build_WillProperties wdi pfi mei ct rt (Some value) ups
  | UserProperty key value =>
      Build_WillProperties wdi pfi mei ct rt cd (ups ++ [UserProperty key value])
  | _ => w
  end.

Definition Will5_from_bytes (buffer : bytes) (connect_flags : Z) : res (Will5 * Z) :=
  let offset := 0 in
  '(properties, consumed) ← parse_properties_hdr buffer;
  _ ← validation_properties properties CtxWill;
  let offset := offset + consumed in
  tail ← index_from buffer offset;
  '(will_topic, consumed) ← parse_utf8_string tail;
  let offset := offset + consumed in
  tail ← index_from buffer offset;
  '(will_message, consumed) ← parse_binary_data tail;
  let offset := offset + consumed in
  let will_qos := Z.land (Z.shiftr connect_flags 3) 3 in
  let will_retain := negb (Z.land connect_flags 32 =? 0) in
  let will := Will5_new will_topic will_message will_qos will_retain in
  let will := {|
    w5_will_qos := w5_will_qos will; w5_will_retain := w5_will_retain will;
    w5_will_topic := w5_will_topic will; w5_will_message := w5_will_message will;
    w5_properties := fold_left set_will_property properties (w5_properties will) |} in
  Ok (will, offset).

(** The checks of the connect flags byte. *)
Definition check_connect5_flags (connect_flags : Z) : res () :=
  if negb (Z.land connect_flags 1 =? 0)
  then Err (ParseErr "CONNECT packet reserved flag is not 0") else
  let will_flag := negb (Z.land connect_flags 4 =? 0) in
  let will_qos := Z.land (Z.shiftr connect_flags 3) 3 in
  let will_retain := negb (Z.land connect_flags 32 =? 0) in
  if negb will_flag then
    if negb (will_qos =? 0) then Err (ParseErr "Will QoS must be 0 if Will Flag is 0") else
    if will_retain then Err (ParseErr "Will Retain must be 0 if Will Flag is 0") else Ok ()
  else if will_qos =? 3 then Err (ParseErr "Will QoS cannot be 3") else Ok ().

(** The optional parts of the payload: the value and the offset after it. *)
Definition connect5_will (buffer : bytes) (connect_flags offset : Z) : res (option Will5 * Z) :=
  let will_flag := negb (Z.land connect_flags 4 =? 0) in
  if will_flag then
    tail ← index_from buffer offset;
    '(will, consumed) ← Will5_from_bytes tail connect_flags;
    let offset := offset + consumed in
    if bool_decide (w5_will_topic will = []) || bool_decide (w5_will_message will = [])
    then Err (ParseErr "Will topic or message cannot be empty") else
    Ok (Some will, offset)
  else Ok (None, offset).

Definition connect5_username (buffer : bytes) (connect_flags offset : Z)
    : res (option bytes * Z) :=
  if negb (Z.land connect_flags 128 =? 0) then
    tail ← ok_or (get_from buffer offset) BufferTooShort;
    '(username, consumed) ← parse_utf8_string tail;
    let offset := offset + consumed in
    if bool_decide (username = []) then Err (ParseErr "Username cannot be empty") else
    Ok (Some username, offset)
  else Ok (None, offset).

Definition connect5_password (buffer : bytes) (connect_flags offset : Z)
    : res (option bytes * Z) :=
  if negb (Z.land connect_flags 64 =? 0) then
    tail ← ok_or (get_from buffer offset) BufferTooShort;
    '(password, consumed) ← parse_binary_data tail;
    let offset := offset + consumed in
    if bool_decide (password = []) then Err (ParseErr "Password cannot be empty") else
    Ok (Some password, offset)
  else Ok (None, offset).

Definition MqttConnect5_from_bytes (buffer : bytes) : res ParseOk :=
  pkt_type ← packet_type buffer;
  if negb (pkt_type =? ControlPacketType_as_u8 CONNECT) then Err InvalidPacketType else
  b0 ← index_at buffer 0;
  _ ← validation_fixed_header b0;
  tail ← index_from buffer 1;
  '(size, vbi_len) ← parse_remaining_length tail;
  let offset := 1 + vbi_len in
  let total_len := offset + size in
  if zlen buffer <? total_len then Ok (Continue (total_len - zlen buffer) 0) else
  tail ← ok_or (get_from buffer offset) BufferTooShort;
  '(protocol_name, consumed) ← parse_utf8_string tail;
  if negb (bool_decide (protocol_name = str "MQTT")) then Err UnSuppProtoVsn else
  let offset := offset + consumed in
  protocol_version ← ok_or (get_at buffer offset) BufferTooShort;
  let offset := offset + 1 in
  connect_flags ← ok_or (get_at buffer offset) BufferTooShort;
  let offset := offset + 1 in
  _ ← check_connect5_flags connect_flags;
  slice ← ok_or (get_range buffer offset (offset + 2)) BufferTooShort;
  let keep_alive := u16_from_be_bytes slice in
  let offset := offset + 2 in
  tail ← ok_or (get_from buffer offset) BufferTooShort;
  '(properties, consumed) ← parse_properties_hdr tail;
  let offset := offset + consumed in
  tail ← ok_or (get_from buffer offset) BufferTooShort;
  '(client_id, consumed) ← parse_utf8_string tail;
  let offset := offset + consumed in
  '(will, offset) ← connect5_will buffer connect_flags offset;
  '(username, offset) ← connect5_username buffer connect_flags offset;
  '(password, offset) ← connect5_password buffer connect_flags offset;
  let packet := Connect5 {|
    c5_protocol_name := protocol_name; c5_protocol_version := protocol_version;
    c5_keep_alive := keep_alive; c5_client_id := client_id; c5_will := will;
    c5_username := username; c5_password := password; c5_properties := properties;
    c5_clean_start := negb (Z.land connect_flags 2 =? 0) |} in
  if negb (offset =? total_len) then Err (inconsistent_offset offset total_len) else
  validated_packet packet offset.

Definition MqttConnect5_impl : MqttControlPacket MqttConnect5 := {|
  mcp_validate := MqttConnect5_validate;
  mcp_control_packet_type := ControlPacketType_as_u8 CONNECT;
  mcp_flags := λ _, 0;
  mcp_variable_header := MqttConnect5_variable_header;
  mcp_payload := MqttConnect5_payload;
  mcp_from_bytes := MqttConnect5_from_bytes;
|}.

(** ** MQTT 3.1.1 *)
Definition MqttConnect3_new (client_id : bytes) (keep_alive : Z) (clean_session : bool)
    : MqttConnect3 := {|
  c3_protocol_name := str "MQTT"; c3_protocol_version := 4; c3_clean_session := clean_session;
  c3_keep_alive := keep_alive; c3_client_id := client_id; c3_will := None;
  c3_username := None; c3_password := None |}.

Definition MqttConnect3_connect_flags (self : MqttConnect3) : Z :=
  let flags := 0 in
  let flags := if c3_clean_session self then Z.lor flags 2 else flags in
  let flags :=
    match c3_will self with
    | Some will =>
        let flags := Z.lor flags 4 in
        let flags := Z.lor flags (as_u8 (Z.shiftl (w3_qos will) 3)) in
        if w3_retain will then Z.lor flags 32 else flags
    | None => flags
    end in
  let flags := if bool_decide (is_Some (c3_username self)) then Z.lor flags 128 else flags in
  let flags := if bool_decide (is_Some (c3_password self)) then Z.lor flags 64 else flags in
  flags.

Definition MqttConnect3_variable_header (self : MqttConnect3) : res bytes :=
  let vh := Utf8String_encode (c3_protocol_name self) in
  let vh := vh ++ [c3_protocol_version self] in
  let vh := vh ++ [MqttConnect3_connect_flags self] in
  Ok (vh ++ TwoByteInteger_encode (c3_keep_alive self)).

Definition MqttConnect3_payload (self : MqttConnect3) : res bytes :=
  let payload := Utf8String_encode (c3_client_id self) in
  let payload :=
    match c3_will self with
    | Some will =>
        payload ++ Utf8String_encode (w3_topic will)
          ++ TwoByteInteger_encode (as_u16 (zlen (w3_message will))) ++ w3_message will
    | None => payload
    end in
  let payload :=
    match c3_username self with
    | Some username => payload ++ Utf8String_encode username
    | None => payload
    end in
  let payload :=
    match c3_password self with
    | Some password =>
        payload ++ TwoByteInteger_encode (as_u16 (zlen password)) ++ password
    | None => payload
    end in
  Ok payload.

(** The length-prefixed byte arrays (will message, password). *)
Definition connect3_byte_array (buffer : bytes) (offset : Z) : res (bytes * Z) :=
  tail ← index_from buffer offset;
  '(len, _) ← TwoByteInteger_decode tail;
  let offset := offset + 2 in
  if zlen buffer <? offset + len then Err BufferTooShort else
  data ← index_range buffer offset (offset + len);
  Ok (data, offset + len).

Definition connect3_will (buffer : bytes) (flags offset : Z) : res (option Will3 * Z) :=
  let will_flag := 0 <? Z.land flags 4 in
  let will_qos := Z.shiftr (Z.land flags 24) 3 in
  let will_retain := 0 <? Z.land flags 32 in
  if will_flag then
    tail ← index_from buffer offset;
    '(topic, consumed) ← parse_utf8_string tail;
    let offset := offset + consumed in
    '(message, offset) ← connect3_byte_array buffer offset;
    Ok (Some {| w3_retain := will_retain; w3_qos := will_qos; w3_topic := topic;
                w3_message := message |}, offset)
  else Ok (None, offset).

Definition connect3_username (buffer : bytes) (flags offset : Z) : res (option bytes * Z) :=
  let username_flag := 0 <? Z.land flags 128 in
  if username_flag then
    tail ← index_from buffer offset;
    '(u, consumed) ← parse_utf8_string tail;
    Ok (Some u, offset + consumed)
  else Ok (None, offset).

Definition connect3_password (buffer : bytes) (flags offset : Z) : res (option bytes * Z) :=
  let password_flag := 0 <? Z.land flags 64 in
  if password_flag then
    '(p, offset) ← connect3_byte_array buffer offset;
    Ok (Some p, offset)
  else Ok (None, offset).

Definition MqttConnect3_from_bytes (buffer : bytes) : res ParseOk :=
  pkt_type ← packet_type buffer;
  if negb (pkt_type =? ControlPacketType_as_u8 CONNECT) then Err InvalidPacketType else
  b0 ← index_at buffer 0;
  _ ← validation_fixed_header b0;
  tail ← index_from buffer 1;
  '(size, vbi_len) ← parse_remaining_length tail;
  let offset := 1 + vbi_len in
  let total_len := offset + size in
  if zlen buffer <? total_len then Ok (Continue (total_len - zlen buffer) 0) else
  tail ← index_from buffer offset;
  '(proto_name, consumed) ← parse_utf8_string tail;
  let offset := offset + consumed in
  if zlen buffer <=? offset then Err BufferTooShort else
  version ← index_at buffer offset;
  let offset := offset + 1 in
  if negb (version =? 4) && negb (version =? 3)
  then Err (ParseErr "Invalid protocol version") else
  if negb (bool_decide (proto_name = str "MQTT") && (version =? 4)
           || bool_decide (proto_name = str "MQIsdp") && (version =? 3))
  then Err (ParseErr "Invalid protocol name") else
  if zlen buffer <=? offset then Err BufferTooShort else
  flags ← index_at buffer offset;
  _ ← validation_connect_flags flags;
  let offset := offset + 1 in
  let clean_session := 0 <? Z.land flags 2 in
  let username_flag := 0 <? Z.land flags 128 in
  let password_flag := 0 <? Z.land flags 64 in
  if negb (Z.land flags 1 =? 0)
  then Err (ParseErr "CONNECT reserved flag bit is not 0") else
  if password_flag && negb username_flag
  then Err (ParseErr "Password flag requires username flag") else
  tail ← index_from buffer offset;
  '(keep_alive, _) ← TwoByteInteger_decode tail;
  let offset := offset + 2 in
  tail ← index_from buffer offset;
  '(client_id, consumed) ← parse_utf8_string tail;
  let offset := offset + consumed in
  '(will, offset) ← connect3_will buffer flags offset;
  '(username, offset) ← connect3_username buffer flags offset;
  '(password, offset) ← connect3_password buffer flags offset;
  if negb (offset =? total_len)
  then Err (InternalError "Failed to consume entire CONNECT packet") else
  validated_packet
    (Connect3 {|
       c3_protocol_name := proto_name; c3_protocol_version := version;
       c3_clean_session := clean_session; c3_keep_alive := keep_alive;
       c3_client_id := client_id; c3_will := will; c3_username := username;
       c3_password := password |}) total_len.

Definition MqttConnect3_impl : MqttControlPacket MqttConnect3 := {|
  mcp_validate := MqttConnect3_validate;
  mcp_control_packet_type := ControlPacketType_as_u8 CONNECT;
  mcp_flags := λ _, 0;
  mcp_variable_header := MqttConnect3_variable_header;
  mcp_payload := MqttConnect3_payload;
  mcp_from_bytes := MqttConnect3_from_bytes;
|}.

(** ** The will *)
Definition is_UserProperty (p : Property) : bool :=
  match p with UserProperty _ _ => true | _ => false end.

Lemma fold_user_properties ups w :
  Forall (λ p, is_UserProperty p = true) ups →
  fold_left set_will_property ups w
  = Build_WillProperties (wp_will_delay_interval w) (wp_payload_format_indicator w)
      (wp_message_expiry_interval w) (wp_content_type w) (wp_response_topic w)
      (wp_correlation_data w) (wp_user_properties w ++ ups).
Proof.
  intros H. revert w. induction H as [|p ups Hp H IH]; intros w; simpl.
  { destruct w; simpl. by rewrite app_nil_r. }
  rewrite IH. destruct p; try done. destruct w; simpl. by rewrite <- app_assoc.
Qed.

(** Reading the property list back gives the record it was built from. *)
Lemma will_properties_roundtrip w :
  Forall (λ p, is_UserProperty p = true) (wp_user_properties w) →
  fold_left set_will_property (will_properties w) WillProperties_new = w.
Proof.
  intros H. unfold will_properties. rewrite !fold_left_app.
  destruct w as [wdi pfi mei ct rt cd ups]; simpl in *.
  destruct wdi, pfi, mei, ct, rt, cd; simpl; rewrite fold_user_properties by done; done.
Qed.

Lemma wf_will_properties_list w :
  wf_will_properties w → Forall wf_property (will_properties w).
Proof.
  unfold wf_will_properties, will_properties, wf_str. intros (H1 & H2 & H3 & H4 & H5 & H6 & H7).
  rewrite !Forall_app. split_and!; [..|done];
    match goal with |- Forall _ (push_some _ ?o) => destruct o end; simpl in *;
    first [by apply Forall_singleton|constructor].
Qed.

Lemma parse_binary_at d rest :
  zlen d <= u16_MAX → parse_binary_data (BinaryData_encode d ++ rest) = Ok (d, 2 + zlen d).
Proof. apply BinaryData_roundtrip. Qed.

Lemma Will5_roundtrip w e rest flags :
  wf_will5 w → Forall (λ p, is_UserProperty p = true) (wp_user_properties (w5_properties w)) →
  validation_topic (w5_will_topic w) = Ok () → Will5_payload w = Ok e →
  zlen e <= MAX_REMAINING →
  Z.land (Z.shiftr flags 3) 3 = w5_will_qos w → negb (Z.land flags 32 =? 0) = w5_will_retain w →
  Will5_from_bytes (e ++ rest) flags = Ok (w, zlen e).
Proof.
  intros (Hq & [_ Ht] & Hm & Hp) Hups Htopic He Hlen E1 E2. unfold Will5_payload in He.
  apply bind_Ok_inv in He as ([] & Hv & He). apply bind_Ok_inv in He as (ps & Hps & He).
  apply validation_topic_string in Htopic. rewrite encode_utf8_string_valid in He by done.
  cbn [mbind result_bind] in He. apply bind_Ok_inv in He as (m & Hmsg & He).
  apply encode_binary_data_Ok in Hmsg as [-> Hml]. apply Ok_inj in He. subst e.
  rewrite !zlen_app in Hlen. zlen_pos. rewrite <- !app_assoc. unfold Will5_from_bytes.
  rewrite (parse_properties_at (will_properties (w5_properties w)))
    by (done || lia || by apply wf_will_properties_list).
  rsimp. rewrite Hv. rsimp. rewrite Z.add_0_l.
  pose proof (suffix_at_app _ 0 _ _ (suffix_at_0 (ps ++ Utf8String_encode (w5_will_topic w) ++
    BinaryData_encode (w5_will_message w) ++ rest))) as Hs. rewrite Z.add_0_l in Hs.
  rewrite (suffix_at_index_from _ _ _ Hs). rsimp. rewrite parse_string_at by done. rsimp.
  apply suffix_at_app in Hs. unfold Utf8String_encode in Hs at 2.
  rewrite zlen_BinaryData_encode in Hs. rewrite (suffix_at_index_from _ _ _ Hs). rsimp.
  rewrite parse_binary_at by done. rsimp. rewrite E1, E2. unfold Will5_new.
  cbn [w5_will_qos w5_will_retain w5_will_topic w5_will_message w5_properties].
  rewrite will_properties_roundtrip by done. unfold Utf8String_encode.
  rewrite !zlen_app, !zlen_BinaryData_encode. destruct w; simpl. do 2 f_equal; lia.
Qed.

(** ** The flags byte *)
Definition will_qos_ok (qos : Z) : Prop := qos = 0 ∨ qos = 1 ∨ qos = 2.

Lemma connect5_flags_spec p :
  wf_opt (λ w, will_qos_ok (w5_will_qos w)) (c5_will p) →
  let f := MqttConnect5_connect_flags p in
  check_connect5_flags f = Ok () ∧
  negb (Z.land f 4 =? 0) = bool_decide (is_Some (c5_will p)) ∧
  negb (Z.land f 128 =? 0) = bool_decide (is_Some (c5_username p)) ∧
  negb (Z.land f 64 =? 0) = bool_decide (is_Some (c5_password p)) ∧
  negb (Z.land f 2 =? 0) = c5_clean_start p ∧
  wf_opt (λ w, Z.land (Z.shiftr f 3) 3 = w5_will_qos w ∧
               negb (Z.land f 32 =? 0) = w5_will_retain w) (c5_will p).
Proof.
  intros Hw. unfold MqttConnect5_connect_flags.
  destruct (c5_will p) as [[qos [] wt wm wp]|], (c5_username p), (c5_password p),
    (c5_clean_start p); simpl in Hw; try (destruct Hw as [-> |[-> | ->]]); done.
Qed.

Lemma connect3_flags_spec p :
  wf_opt (λ w, will_qos_ok (w3_qos w)) (c3_will p) →
  let f := MqttConnect3_connect_flags p in
  validation_connect_flags f = Ok () ∧ (Z.land f 1 =? 0) = true ∧
  (0 <? Z.land f 4) = bool_decide (is_Some (c3_will p)) ∧
  (0 <? Z.land f 128) = bool_decide (is_Some (c3_username p)) ∧
  (0 <? Z.land f 64) = bool_decide (is_Some (c3_password p)) ∧
  (0 <? Z.land f 2) = c3_clean_session p ∧
  wf_opt (λ w, Z.shiftr (Z.land f 24) 3 = w3_qos w ∧
               (0 <? Z.land f 32) = w3_retain w) (c3_will p).
Proof.
  intros Hw. unfold MqttConnect3_connect_flags.
  destruct (c3_will p) as [[[] qos wt wm]|], (c3_username p), (c3_password p),
    (c3_clean_session p); simpl in Hw; try (destruct Hw as [-> |[-> | ->]]); done.
Qed.

(** ** Round trip, MQTT 5 *)

(** What the decoder requires of a CONNECT and the encoder does not check. *)
Definition connect5_encodable (p : MqttConnect5) : Prop :=
  c5_protocol_name p = str "MQTT" ∧
  wf_opt (λ w, w5_will_message w ≠ [] ∧
    Forall (λ p, is_UserProperty p = true) (wp_user_properties (w5_properties w))) (c5_will p) ∧
  c5_username p ≠ Some [] ∧ c5_password p ≠ Some [].

Lemma MqttConnect5_validate_inv p :
  MqttConnect5_validate p = Ok () →
  validation_string (c5_protocol_name p) = Ok () ∧ validation_string (c5_client_id p) = Ok () ∧
  wf_opt (λ u, validation_string u = Ok ()) (c5_username p) ∧
  wf_opt (λ w, w5_will_qos w <= 2 ∧ validation_topic (w5_will_topic w) = Ok ()) (c5_will p).
Proof.
  unfold MqttConnect5_validate. intros H.
  apply bind_Ok_inv in H as ([] & H1 & H). apply bind_Ok_inv in H as ([] & H2 & H).
  apply bind_Ok_inv in H as ([] & H3 & H). apply bind_Ok_inv in H as ([] & H4 & _).
  split_and!; [done..|by destruct (c5_username p)|].
  destruct (c5_will p) as [w|]; [|done]. simpl in *.
  apply bind_Ok_inv in H4 as ([] & Hq & Ht). apply validation_require_Ok in Hq.
  split; [lia|done].
Qed.

Section connect5_parts.
Variables (buf : bytes) (off : Z) (p : MqttConnect5) (s : bytes).
Hypotheses (Hwf : wf_connect5 p) (Henc : connect5_encodable p)
  (Hval : MqttConnect5_validate p = Ok ()).
Let f := MqttConnect5_connect_flags p.

Lemma connect5_will_qos : wf_opt (λ w, will_qos_ok (w5_will_qos w)) (c5_will p).
Proof.
  destruct (MqttConnect5_validate_inv _ Hval) as (_ & _ & _ & Hw).
  destruct Hwf as (_ & _ & _ & _ & Hww & _). destruct (c5_will p) as [w|]; [|done].
  simpl in *. destruct Hw as [Hw _]. destruct Hww as [Hq _].
  unfold will_qos_ok, is_u8 in *. lia.
Qed.

Lemma connect5_will_at e :
  extend_some Will5_payload (c5_will p) = Ok e → zlen e <= MAX_REMAINING →
  suffix_at buf off (e ++ s) →
  connect5_will buf f off = Ok (c5_will p, off + zlen e).
Proof.
  intros He Hl Hs. unfold connect5_will, f.
  destruct (connect5_flags_spec p connect5_will_qos) as (_ & -> & _ & _ & _ & Hf).
  destruct (MqttConnect5_validate_inv _ Hval) as (_ & _ & _ & Hw).
  destruct Hwf as (_ & _ & _ & _ & Hww & _). destruct Henc as (_ & Hwe & _).
  destruct (c5_will p) as [w|]; cbn [extend_some wf_opt] in *.
  - rewrite bool_decide_eq_true_2 by eauto. destruct Hf as [E1 E2].
    destruct Hwe as [Hm Hups]. destruct Hw as [_ Ht].
    rewrite (suffix_at_index_from _ _ _ Hs). rsimp.
    rewrite (Will5_roundtrip w e) by done. rsimp.
    apply validation_topic_Ok in Ht as (_ & _ & Hne & _).
    by rewrite !bool_decide_eq_false_2.
  - rewrite bool_decide_eq_false_2 by (by intros []).
    apply Ok_inj in He. subst e. by rewrite zlen_nil, Z.add_0_r.
Qed.

Lemma connect5_username_at e :
  extend_some encode_utf8_string (c5_username p) = Ok e → suffix_at buf off (e ++ s) →
  connect5_username buf f off = Ok (c5_username p, off + zlen e).
Proof.
  intros He Hs. unfold connect5_username, f.
  destruct (connect5_flags_spec p connect5_will_qos) as (_ & _ & -> & _).
  destruct (MqttConnect5_validate_inv _ Hval) as (_ & _ & Hu & _).
  destruct Hwf as (_ & _ & _ & _ & _ & Hwu & _). destruct Henc as (_ & _ & Hne & _).
  destruct (c5_username p) as [u|]; cbn [extend_some wf_opt] in *.
  - rewrite bool_decide_eq_true_2 by eauto. destruct Hwu as [_ Hwu].
    rewrite encode_utf8_string_valid in He by done. apply Ok_inj in He. subst e.
    rewrite (suffix_at_get_from _ _ _ Hs). rsimp. rewrite parse_string_at by done. rsimp.
    rewrite bool_decide_eq_false_2 by congruence.
    unfold Utf8String_encode. by rewrite zlen_BinaryData_encode.
  - rewrite bool_decide_eq_false_2 by (by intros []).
    apply Ok_inj in He. subst e. by rewrite zlen_nil, Z.add_0_r.
Qed.

Lemma connect5_password_at e :
  extend_some encode_binary_data (c5_password p) = Ok e → suffix_at buf off (e ++ s) →
  connect5_password buf f off = Ok (c5_password p, off + zlen e).
Proof.
  intros He Hs. unfold connect5_password, f.
  destruct (connect5_flags_spec p connect5_will_qos) as (_ & _ & _ & -> & _).
  destruct Henc as (_ & _ & _ & Hne).
  destruct (c5_password p) as [u|]; cbn [extend_some] in *.
  - rewrite bool_decide_eq_true_2 by eauto.
    apply encode_binary_data_Ok in He as [-> Hl].
    rewrite (suffix_at_get_from _ _ _ Hs). rsimp. rewrite parse_binary_at by done. rsimp.
    rewrite bool_decide_eq_false_2 by congruence. by rewrite zlen_BinaryData_encode.
  - rewrite bool_decide_eq_false_2 by (by intros []).
    apply Ok_inj in He. subst e. by rewrite zlen_nil, Z.add_0_r.
Qed.
End connect5_parts.

Lemma MqttConnect5_roundtrip p vh pl :
  wf_connect5 p → connect5_encodable p → MqttConnect5_validate p = Ok () →
  MqttConnect5_variable_header p = Ok vh → MqttConnect5_payload p = Ok pl →
  zlen (vh ++ pl) <= MAX_REMAINING →
  decodes_frame MqttConnect5_from_bytes (first_byte MqttConnect5_impl p) (vh ++ pl)
    (Connect5 p).
Proof.
  intros Hwf Henc Hval Hvh Hpl Hlen rest.
  destruct (MqttConnect5_validate_inv _ Hval) as (Hpn & Hci & _).
  pose proof Hwf as ([_ Hwpn] & Hver & Hka & [_ Hwci] & _ & _ & _ & Hps).
  change (first_byte MqttConnect5_impl p) with 16. unfold MqttConnect5_from_bytes. run_header.
  change (Z.shiftr 16 4) with 1. change (1 =? _) with true. rsimp.
  change (validation_fixed_header 16) with (Ok (E:=ParseError) ()). rsimp. run_if.
  unfold MqttConnect5_variable_header in Hvh. rewrite encode_utf8_string_valid in Hvh by done.
  cbn [mbind result_bind] in Hvh. apply bind_Ok_inv in Hvh as (h & Hh & Hvh).
  apply Ok_inj in Hvh. subst vh.
  unfold MqttConnect5_payload in Hpl. rewrite encode_utf8_string_valid in Hpl by done.
  cbn [mbind result_bind] in Hpl. apply bind_Ok_inv in Hpl as (we & Hwe & Hpl).
  apply bind_Ok_inv in Hpl as (ue & Hue & Hpl). apply bind_Ok_inv in Hpl as (pe & Hpe & Hpl).
  apply Ok_inj in Hpl. subst pl. rewrite <- !app_assoc in *.
  rewrite (suffix_at_get_from _ _ _ H). rsimp. rewrite parse_string_at by done. rsimp.
  rewrite bool_decide_eq_true_2 by apply Henc. rsimp.
  apply suffix_at_app in H. unfold Utf8String_encode in *.
  rewrite !zlen_app, !zlen_BinaryData_encode in *. zsimp. zlen_pos.
  cbn [app] in H. rewrite (suffix_at_get_at _ _ _ _ H). rsimp. apply suffix_at_cons in H.
  rewrite (suffix_at_get_at _ _ _ _ H). rsimp. apply suffix_at_cons in H.
  destruct (connect5_flags_spec p (connect5_will_qos p Hwf Hval)) as (-> & _ & _ & _ & -> & _).
  rsimp. erewrite suffix_at_get_range by (exact H || done). rsimp.
  rewrite u16_be_roundtrip by done. apply suffix_at_app in H. rewrite zlen_u16_be in H.
  rewrite (suffix_at_get_from _ _ _ H). rsimp.
  rewrite (parse_properties_at (c5_properties p)) by (done || lia). rsimp.
  apply suffix_at_app in H. rewrite (suffix_at_get_from _ _ _ H). rsimp.
  rewrite (parse_string_at (c5_client_id p)) by done. rsimp.
  apply suffix_at_app in H. rewrite zlen_BinaryData_encode in H.
  rewrite (connect5_will_at _ _ p _ Hwf Henc Hval we Hwe ltac:(lia) H). rsimp.
  apply suffix_at_app in H.
  rewrite (connect5_username_at _ _ p _ Hwf Henc Hval ue Hue H). rsimp.
  apply suffix_at_app in H.
  rewrite (connect5_password_at _ _ p _ Hwf Henc Hval pe Hpe H). rsimp. run_if.
  replace (Connect5 _) with (Connect5 p) by by destruct p.
  rewrite validated_packet_Ok by done. do 2 f_equal; lia.
Qed.

(** ** Round trip, MQTT 3.1.1 *)

(** The v3 encoder truncates the lengths of the will message and the password to 16 bits, and
    accepts a password without a username; the decoder knows two protocol names. *)
Definition connect3_encodable (p : MqttConnect3) : Prop :=
  (c3_protocol_name p = str "MQTT" ∧ c3_protocol_version p = 4 ∨
   c3_protocol_name p = str "MQIsdp" ∧ c3_protocol_version p = 3) ∧
  wf_opt (λ w, zlen (w3_message w) <= u16_MAX) (c3_will p) ∧
  wf_opt (λ d, zlen d <= u16_MAX) (c3_password p) ∧
  (is_Some (c3_password p) → is_Some (c3_username p)).

Lemma MqttConnect3_validate_inv p :
  MqttConnect3_validate p = Ok () →
  validation_string (c3_protocol_name p) = Ok () ∧ validation_string (c3_client_id p) = Ok () ∧
  wf_opt (λ u, validation_string u = Ok ()) (c3_username p) ∧
  wf_opt (λ w, w3_qos w <= 2 ∧ validation_string (w3_topic w) = Ok ()) (c3_will p).
Proof.
  unfold MqttConnect3_validate. intros H.
  apply bind_Ok_inv in H as ([] & H1 & H). apply bind_Ok_inv in H as ([] & H2 & H).
  apply bind_Ok_inv in H as ([] & H3 & H). apply bind_Ok_inv in H as ([] & H4 & _).
  split_and!; [done..|by destruct (c3_username p)|].
  destruct (c3_will p) as [w|]; [|done]. simpl in *.
  apply bind_Ok_inv in H4 as ([] & Hq & Ht). apply validation_require_Ok in Hq.
  split; [lia|by apply validation_topic_string].
Qed.

(** The v3 payload, part by part. *)
Definition connect3_will_bytes (o : option Will3) : bytes :=
  match o with
  | Some w => Utf8String_encode (w3_topic w) ++ BinaryData_encode (w3_message w)
  | None => []
  end.

Lemma MqttConnect3_payload_eq p :
  MqttConnect3_payload p =
    Ok (Utf8String_encode (c3_client_id p) ++ connect3_will_bytes (c3_will p) ++
        from_option Utf8String_encode [] (c3_username p) ++
        from_option BinaryData_encode [] (c3_password p)).
Proof.
  unfold MqttConnect3_payload, connect3_will_bytes.
  assert (∀ d, TwoByteInteger_encode (as_u16 (zlen d)) ++ d = BinaryData_encode d) as E by done.
  destruct (c3_will p), (c3_username p), (c3_password p); cbn [from_option];
    rewrite ?E, <- ?app_assoc, ?app_nil_r, ?app_nil_l; done.
Qed.

Lemma connect3_byte_array_at buf off d s :
  zlen d <= u16_MAX → suffix_at buf off (BinaryData_encode d ++ s) →
  connect3_byte_array buf off = Ok (d, off + zlen (BinaryData_encode d)).
Proof.
  unfold u16_MAX. intros Hd Hs. unfold connect3_byte_array.
  rewrite (suffix_at_index_from _ _ _ Hs). rsimp.
  pose proof (suffix_at_len _ _ _ Hs) as Hl. rewrite zlen_BinaryData_encode.
  unfold BinaryData_encode, as_u16 in *. rewrite Z.mod_small in * by (zlen_pos; lia).
  rewrite <- app_assoc in *. fold (TwoByteInteger_encode (zlen d)).
  rewrite TwoByteInteger_roundtrip by (unfold is_u16; zlen_pos; lia). rsimp.
  zsimp. zlen_pos. run_if. apply suffix_at_app in Hs. rewrite zlen_u16_be in Hs.
  erewrite suffix_at_index_range by (exact Hs || lia). rsimp. do 2 f_equal; lia.
Qed.

Section connect3_parts.
Variables (buf : bytes) (off : Z) (p : MqttConnect3) (s : bytes).
Hypotheses (Hwf : wf_connect3 p) (Henc : connect3_encodable p)
  (Hval : MqttConnect3_validate p = Ok ()).
Let f := MqttConnect3_connect_flags p.

Lemma connect3_will_qos : wf_opt (λ w, will_qos_ok (w3_qos w)) (c3_will p).
Proof.
  destruct (MqttConnect3_validate_inv _ Hval) as (_ & _ & _ & Hw).
  destruct Hwf as (_ & _ & _ & _ & Hww & _). destruct (c3_will p) as [w|]; [|done].
  simpl in *. destruct Hw as [Hw _]. destruct Hww as [Hq _].
  unfold will_qos_ok, is_u8 in *. lia.
Qed.

Lemma connect3_will_at :
  suffix_at buf off (connect3_will_bytes (c3_will p) ++ s) →
  connect3_will buf f off = Ok (c3_will p, off + zlen (connect3_will_bytes (c3_will p))).
Proof.
  intros Hs. unfold connect3_will, f.
  destruct (connect3_flags_spec p connect3_will_qos) as (_ & _ & -> & _ & _ & _ & Hf).
  destruct (MqttConnect3_validate_inv _ Hval) as (_ & _ & _ & Hw).
  destruct Hwf as (_ & _ & _ & _ & Hww & _). destruct Henc as (_ & Hwe & _).
  destruct (c3_will p) as [w|]; cbn [connect3_will_bytes wf_opt] in *.
  - rewrite bool_decide_eq_true_2 by eauto. destruct Hf as [-> ->].
    destruct Hww as (_ & [_ Ht] & _). destruct Hw as [_ Hw]. rewrite <- app_assoc in Hs.
    rewrite (suffix_at_index_from _ _ _ Hs). rsimp. rewrite parse_string_at by done. rsimp.
    apply suffix_at_app in Hs. unfold Utf8String_encode in *.
    rewrite zlen_app. rewrite !zlen_BinaryData_encode in *.
    rewrite (connect3_byte_array_at _ _ _ s Hwe Hs). rsimp. rewrite zlen_BinaryData_encode.
    destruct w; simpl. do 2 f_equal; lia.
  - rewrite bool_decide_eq_false_2 by (by intros []). by rewrite zlen_nil, Z.add_0_r.
Qed.

Lemma connect3_username_at :
  suffix_at buf off (from_option Utf8String_encode [] (c3_username p) ++ s) →
  connect3_username buf f off
  = Ok (c3_username p, off + zlen (from_option Utf8String_encode [] (c3_username p))).
Proof.
  intros Hs. unfold connect3_username, f.
  destruct (connect3_flags_spec p connect3_will_qos) as (_ & _ & _ & -> & _).
  destruct (MqttConnect3_validate_inv _ Hval) as (_ & _ & Hu & _).
  destruct Hwf as (_ & _ & _ & _ & _ & Hwu & _).
  destruct (c3_username p) as [u|]; cbn [from_option wf_opt] in *.
  - rewrite bool_decide_eq_true_2 by eauto. destruct Hwu as [_ Hwu].
    rewrite (suffix_at_index_from _ _ _ Hs). rsimp. rewrite parse_string_at by done. rsimp.
    unfold Utf8String_encode. by rewrite zlen_BinaryData_encode.
  - rewrite bool_decide_eq_false_2 by (by intros []). by rewrite zlen_nil, Z.add_0_r.
Qed.

Lemma connect3_password_at :
  suffix_at buf off (from_option BinaryData_encode [] (c3_password p) ++ s) →
  connect3_password buf f off
  = Ok (c3_password p, off + zlen (from_option BinaryData_encode [] (c3_password p))).
Proof.
  intros Hs. unfold connect3_password, f.
  destruct (connect3_flags_spec p connect3_will_qos) as (_ & _ & _ & _ & -> & _).
  destruct Henc as (_ & _ & Hl & _).
  destruct (c3_password p) as [u|]; cbn [from_option wf_opt] in *.
  - rewrite bool_decide_eq_true_2 by eauto. by rewrite (connect3_byte_array_at _ _ _ s Hl Hs).
  - rewrite bool_decide_eq_false_2 by (by intros []). by rewrite zlen_nil, Z.add_0_r.
Qed.

Lemma connect3_flag_checks :
  validation_connect_flags f = Ok () ∧ (Z.land f 1 =? 0) = true ∧
  (0 <? Z.land f 64) && negb (0 <? Z.land f 128) = false ∧
  (0 <? Z.land f 2) = c3_clean_session p.
Proof.
  destruct (connect3_flags_spec p connect3_will_qos) as (? & ? & _ & E1 & E2 & ? & _).
  split_and!; [done..| |done]. unfold f. rewrite E1, E2.
  destruct Henc as (_ & _ & _ & Hpu).
  destruct (c3_password p); [|done]. destruct Hpu as [? ->]; [eauto|]. done.
Qed.
End connect3_parts.

Lemma connect3_protocol p :
  connect3_encodable p →
  negb (c3_protocol_version p =? 4) && negb (c3_protocol_version p =? 3) = false ∧
  negb (bool_decide (c3_protocol_name p = str "MQTT") && (c3_protocol_version p =? 4)
        || bool_decide (c3_protocol_name p = str "MQIsdp") && (c3_protocol_version p =? 3))
  = false.
Proof. by intros ([[-> ->]|[-> ->]] & _). Qed.

Lemma MqttConnect3_roundtrip p vh pl :
  wf_connect3 p → connect3_encodable p → MqttConnect3_validate p = Ok () →
  MqttConnect3_variable_header p = Ok vh → MqttConnect3_payload p = Ok pl →
  zlen (vh ++ pl) <= MAX_REMAINING →
  decodes_frame MqttConnect3_from_bytes (first_byte MqttConnect3_impl p) (vh ++ pl)
    (Connect3 p).
Proof.
  intros Hwf Henc Hval Hvh Hpl Hlen rest.
  destruct (MqttConnect3_validate_inv _ Hval) as (Hpn & Hci & _).
  pose proof Hwf as ([_ Hwpn] & Hver & Hka & [_ Hwci] & _).
  destruct (connect3_protocol p Henc) as [Ev En].
  change (first_byte MqttConnect3_impl p) with 16. unfold MqttConnect3_from_bytes. run_header.
  change (Z.shiftr 16 4) with 1. change (1 =? _) with true. rsimp.
  change (validation_fixed_header 16) with (Ok (E:=ParseError) ()). rsimp. run_if.
  unfold MqttConnect3_variable_header in Hvh. apply Ok_inj in Hvh. subst vh.
  rewrite MqttConnect3_payload_eq in Hpl. apply Ok_inj in Hpl. subst pl.
  rewrite <- !app_assoc in *.
  rewrite (suffix_at_index_from _ _ _ H). rsimp. rewrite parse_string_at by done. rsimp.
  pose proof (suffix_at_len _ _ _ H) as Hbl.
  apply suffix_at_app in H. 
  rewrite !zlen_app, !zlen_Utf8String_encode in *. unfold TwoByteInteger_encode in *.
  zsimp. zlen_pos. cbn [app] in H. run_if.
  rewrite (suffix_at_index_at _ _ _ _ H). rsimp. apply suffix_at_cons in H.
  rewrite Ev, En. run_if.
  rewrite (suffix_at_index_at _ _ _ _ H). rsimp. apply suffix_at_cons in H.
  destruct (connect3_flag_checks p Hwf Henc Hval) as (-> & -> & -> & ->). rsimp.
  rewrite (suffix_at_index_from _ _ _ H). rsimp.
  fold (TwoByteInteger_encode (c3_keep_alive p)). rewrite TwoByteInteger_roundtrip by done. rsimp.
  apply suffix_at_app in H. rewrite zlen_u16_be in H.
  rewrite (suffix_at_index_from _ _ _ H). rsimp.
  rewrite (parse_string_at (c3_client_id p)) by done.
  rsimp. apply suffix_at_app in H. rewrite zlen_Utf8String_encode in H.
  rewrite (connect3_will_at _ _ p _ Hwf Henc Hval H). rsimp. apply suffix_at_app in H.
  rewrite (connect3_username_at _ _ p _ Hwf Hval H). rsimp. apply suffix_at_app in H.
  rewrite (connect3_password_at _ _ p _ Hwf Henc Hval H). rsimp.
  run_if.
  replace (Connect3 _) with (Connect3 p) by by destruct p.
  rewrite validated_packet_Ok by done. do 2 f_equal; lia.
Qed.

(** ** Safety *)
Lemma set_will_property_wf ps w :
  Forall wf_property ps → wf_will_properties w →
  wf_will_properties (fold_left set_will_property ps w).
Proof.
  intros H. revert w. induction H as [|p ps Hp H IH]; intros w Hw; [done|]. apply IH. clear IH H.
  destruct w, Hw as (H1 & H2 & H3 & H4 & H5 & H6 & H7); simpl in *.
  destruct p; simpl in *; unfold wf_will_properties; simpl; split_and!; try done.
  apply Forall_app. split; [done|]. by apply Forall_singleton.
Qed.

Lemma connect_qos_u8 f : is_u8 (Z.land (Z.shiftr f 3) 3).
Proof.
  unfold is_u8. change 3 with (Z.ones 2) at 2 4. rewrite Z.land_ones by lia.
  pose proof (Z.mod_pos_bound (Z.shiftr f 3) (2 ^ 2) ltac:(lia)). lia.
Qed.

Lemma safe_Will5_from_bytes b flags :
  u8s b → safe (Will5_from_bytes b flags) (λ r, 0 < r.2 <= zlen b ∧ wf_will5 r.1).
Proof.
  intros Hb. unfold Will5_from_bytes. safe_auto. simpl.
  split; [lia|]. unfold wf_will5, wf_str, wire_string in *. simpl. split_hyps.
  split_and!; [apply connect_qos_u8..|done|done|done|].
  by apply set_will_property_wf.
Qed.
#[export] Hint Resolve safe_Will5_from_bytes : safe.

(** What the optional parts guarantee of a buffer. *)
Abbreviation part_post b off Q := (λ r, off <= r.2 <= zlen b ∧ wf_opt Q r.1).

Section connect_parts_safe.
Variables (b : bytes) (flags off : Z).
Hypotheses (Hb : u8s b) (Hoff : 0 <= off) (Hle : off <= zlen b).

Lemma safe_connect5_will : safe (connect5_will b flags off) (part_post b off wf_will5).
Proof. unfold connect5_will. safe_auto; split; simpl; (lia || done). Qed.

Lemma safe_connect5_username : safe (connect5_username b flags off) (part_post b off wf_str).
Proof.
  unfold connect5_username. safe_auto; split; simpl; try (lia || done).
  by apply wire_string_wf.
Qed.

Lemma safe_connect5_password : safe (connect5_password b flags off) (part_post b off u8s).
Proof. unfold connect5_password. safe_auto; split; simpl; (lia || done). Qed.

Lemma safe_connect3_byte_array :
  safe (connect3_byte_array b off) (λ r, off <= r.2 <= zlen b ∧ u8s r.1).
Proof.
  unfold connect3_byte_array. unfold is_u16. safe_step. safe_step. safe_step.
  unfold is_u16 in *. split_hyps. safe_auto. split; simpl; (lia || done).
Qed.
End connect_parts_safe.
#[export] Hint Extern 2 (safe (connect3_byte_array _ _) _) =>
  apply safe_connect3_byte_array; first [assumption | lia] : safe.

Section connect3_parts_safe.
Variables (b : bytes) (flags off : Z).
Hypotheses (Hb : u8s b) (Hoff : 0 <= off) (Hle : off <= zlen b) (Hf : is_u8 flags).

Lemma safe_connect3_will : safe (connect3_will b flags off) (part_post b off wf_will3).
Proof.
  unfold connect3_will. safe_auto; split; simpl; try (lia || done).
  pose proof (forall_range 256 (λ f, let q := Z.shiftr (Z.land f 24) 3 in
    (0 <=? q) && (q <? 256)) eq_refl flags Hf). simpl in *.
  unfold wf_will3, wf_str, wire_string in *. unfold is_u8. simpl. split_hyps.
  split_and!; (done || lia).
Qed.

Lemma safe_connect3_username : safe (connect3_username b flags off) (part_post b off wf_str).
Proof.
  unfold connect3_username. safe_auto; split; simpl; try (lia || done).
  by apply wire_string_wf.
Qed.

Lemma safe_connect3_password : safe (connect3_password b flags off) (part_post b off u8s).
Proof. unfold connect3_password. safe_auto; split; simpl; (lia || done). Qed.
End connect3_parts_safe.

#[export] Hint Extern 2 (safe (connect5_will _ _ _) _) =>
  apply safe_connect5_will; first [assumption | lia] : safe.
#[export] Hint Extern 2 (safe (connect5_username _ _ _) _) =>
  apply safe_connect5_username; first [assumption | lia] : safe.
#[export] Hint Extern 2 (safe (connect5_password _ _ _) _) =>
  apply safe_connect5_password; first [assumption | lia] : safe.
#[export] Hint Extern 2 (safe (connect3_will _ _ _) _) =>
  apply safe_connect3_will; first [assumption | lia] : safe.
#[export] Hint Extern 2 (safe (connect3_username _ _ _) _) =>
  apply safe_connect3_username; first [assumption | lia] : safe.
#[export] Hint Extern 2 (safe (connect3_password _ _ _) _) =>
  apply safe_connect3_password; first [assumption | lia] : safe.

Lemma safe_check_connect5_flags f : safe (check_connect5_flags f) (λ _, True).
Proof. unfold check_connect5_flags. by repeat case_match. Qed.
#[export] Hint Resolve safe_check_connect5_flags : safe.

Lemma MqttConnect5_safe b : u8s b → safe (MqttConnect5_from_bytes b) (decoded b).
Proof.
  intros Hb. unfold MqttConnect5_from_bytes. safe_decoder.
  unfold wf_packet, wf_connect5, wf_str, wire_string in *. simpl. split_hyps.
  split_and!; try done. by apply u16_from_be_u16.
Qed.

Lemma MqttConnect3_safe b : u8s b → safe (MqttConnect3_from_bytes b) (decoded b).
Proof.
  intros Hb. unfold MqttConnect3_from_bytes. safe_decoder.
  unfold wf_packet, wf_connect3, wf_str, wire_string in *. simpl. split_hyps.
  split_and!; done.
Qed.
