(* ===== verification/Codec.v ===== *)
(** * The packet codec as a whole

    Models [MqttPacket::{to_bytes, from_bytes_v5, from_bytes_v3, from_bytes_with_version}] of
    [src/mqtt_serde/control_packet.rs] over the packet codecs, and proves the codec's laws:
    decoding inverts encoding whatever bytes follow, an accepted packet is well typed,
    validated and takes exactly its frame, and only the v5 PUBLISH decoder can panic, on a
    buffer that goes past the frame. *)
From S2P Require Import Prelude BaseData TopicFilter Validation Properties Packets Framing.
From S2P Require Import AckCodec ControlCodec PublishCodec SubscribeCodec ConnectCodec.

Definition MqttPacket_to_bytes (self : MqttPacket) : res bytes :=
  match self with
  | Connect5 p => to_bytes MqttConnect5_impl p
  | ConnAck5 p => to_bytes MqttConnAck5_impl p
  | Publish5 p => MqttPublish5_to_bytes p
  | PubAck5 p => to_bytes MqttPubAck5 p
  | PubRec5 p => to_bytes MqttPubRec5 p
  | PubRel5 p => to_bytes MqttPubRel5 p
  | PubComp5 p => to_bytes MqttPubComp5 p
  | Subscribe5 p => to_bytes MqttSubscribe5_impl p
  | SubAck5 p => to_bytes MqttSubAck5 p
  | Unsubscribe5 p => to_bytes MqttUnsubscribe5_impl p
  | UnsubAck5 p => to_bytes MqttUnsubAck5 p
  | PingReq5 => to_bytes MqttPingReq5 ()
  | PingResp5 => to_bytes MqttPingResp5 ()
  | Disconnect5 p => to_bytes MqttDisconnect5_impl p
  | Auth p => to_bytes MqttAuth_impl p
  | Connect3 p => to_bytes MqttConnect3_impl p
  | ConnAck3 p => to_bytes MqttConnAck3_impl p
  | Publish3 p => MqttPublish3_to_bytes p
  | PubAck3 p => to_bytes MqttPubAck3 p
  | PubRec3 p => to_bytes MqttPubRec3 p
  | PubRel3 p => to_bytes MqttPubRel3 p
  | PubComp3 p => to_bytes MqttPubComp3 p
  | Subscribe3 p => to_bytes MqttSubscribe3_impl p
  | SubAck3 p => to_bytes MqttSubAck3_impl p
  | Unsubscribe3 p => to_bytes MqttUnsubscribe3_impl p
  | UnsubAck3 p => to_bytes MqttUnsubAck3 p
  | PingReq3 => to_bytes MqttPingReq3 ()
  | PingResp3 => to_bytes MqttPingResp3 ()
  | Disconnect3 => to_bytes MqttDisconnect3_impl ()
  end.

(** The decoder of each packet type. *)
Definition v5_decoder (kind : ControlPacketType) : bytes → res ParseOk :=
  match kind with
  | CONNECT => mcp_from_bytes MqttConnect5_impl
  | CONNACK => mcp_from_bytes MqttConnAck5_impl
  | PUBLISH => mcp_from_bytes MqttPublish5_impl
  | PUBACK => mcp_from_bytes MqttPubAck5
  | PUBREC => mcp_from_bytes MqttPubRec5
  | PUBREL => mcp_from_bytes MqttPubRel5
  | PUBCOMP => mcp_from_bytes MqttPubComp5
  | SUBSCRIBE => mcp_from_bytes MqttSubscribe5_impl
  | SUBACK => mcp_from_bytes MqttSubAck5
  | UNSUBSCRIBE => mcp_from_bytes MqttUnsubscribe5_impl
  | UNSUBACK => mcp_from_bytes MqttUnsubAck5
  | PINGREQ => mcp_from_bytes MqttPingReq5
  | PINGRESP => mcp_from_bytes MqttPingResp5
  | DISCONNECT => mcp_from_bytes MqttDisconnect5_impl
  | AUTH => mcp_from_bytes MqttAuth_impl
  end.

Definition v3_decoder (kind : ControlPacketType) : bytes → res ParseOk :=
  match kind with
  | CONNECT => mcp_from_bytes MqttConnect3_impl
  | CONNACK => mcp_from_bytes MqttConnAck3_impl
  | PUBLISH => mcp_from_bytes MqttPublish3_impl
  | PUBACK => mcp_from_bytes MqttPubAck3
  | PUBREC => mcp_from_bytes MqttPubRec3
  | PUBREL => mcp_from_bytes MqttPubRel3
  | PUBCOMP => mcp_from_bytes MqttPubComp3
  | SUBSCRIBE => mcp_from_bytes MqttSubscribe3_impl
  | SUBACK => mcp_from_bytes MqttSubAck3_impl
  | UNSUBSCRIBE => mcp_from_bytes MqttUnsubscribe3_impl
  | UNSUBACK => mcp_from_bytes MqttUnsubAck3
  | PINGREQ => mcp_from_bytes MqttPingReq3
  | PINGRESP => mcp_from_bytes MqttPingResp3
  | DISCONNECT => mcp_from_bytes MqttDisconnect3_impl
  | AUTH => λ _, Err InvalidPacketType
  end.

Definition MqttPacket_from_bytes_v5 (buffer : bytes) : res ParseOk :=
  packet_type_byte ← packet_type buffer;
  kind ← ControlPacketType_try_from packet_type_byte;
  v5_decoder kind buffer.

Definition MqttPacket_from_bytes_v3 (buffer : bytes) : res ParseOk :=
  packet_type_byte ← packet_type buffer;
  kind ← ControlPacketType_try_from packet_type_byte;
  v3_decoder kind buffer.

Definition MqttPacket_from_bytes_with_version (buffer : bytes) (mqtt_version : Z)
    : res ParseOk :=
  match mqtt_version with
  | 3 | 4 => MqttPacket_from_bytes_v3 buffer
  | 5 => MqttPacket_from_bytes_v5 buffer
  | _ => Err InvalidPacketType
  end.

(** ** Round trip *)

(** The CONNECTs the decoders accept back.  This restricts every theorem that says [encodable]
    (or [encodes]): the encoders also emit a CONNECT with another protocol name, with an empty
    will payload, username or password or another property among the user properties of its
    will (MQTT 5), or with an oversized will message or password or a password without username
    (MQTT 3.1.1), which the decoders refuse or read differently.  No other packet is restricted. *)
Definition encodable (p : MqttPacket) : Prop :=
  match p with
  | Connect5 p => connect5_encodable p
  | Connect3 p => connect3_encodable p
  | _ => True
  end.

(** The fields that have two forms in memory and one on the wire. *)
Definition wire_form (p : MqttPacket) : MqttPacket :=
  match p with
  | ConnAck5 p => ConnAck5 (MqttConnAck5_norm p)
  | Publish5 p => Publish5 (MqttPublish5_norm p)
  | Publish3 p => Publish3 (MqttPublish3_norm p)
  | p => p
  end.

Definition is_v5 (p : MqttPacket) : bool :=
  match p with
  | Connect5 _ | ConnAck5 _ | Publish5 _ | PubAck5 _ | PubRec5 _ | PubRel5 _ | PubComp5 _
  | Subscribe5 _ | SubAck5 _ | Unsubscribe5 _ | UnsubAck5 _ | PingReq5 | PingResp5
  | Disconnect5 _ | Auth _ => true
  | _ => false
  end.

(** The decoder that goes with a packet. *)
Definition packet_decoder (p : MqttPacket) : bytes → res ParseOk :=
  if is_v5 p then MqttPacket_from_bytes_v5 else MqttPacket_from_bytes_v3.

Lemma try_from_as_u8 kind :
  ControlPacketType_try_from (ControlPacketType_as_u8 kind) = Ok kind.
Proof. by destruct kind. Qed.

Section dispatch.
Variables (byte1 : Z) (body : bytes) (kind : ControlPacketType) (q : MqttPacket).
Hypothesis Hkind : Z.shiftr byte1 4 = ControlPacketType_as_u8 kind.

Lemma v5_dispatch :
  decodes_frame (v5_decoder kind) byte1 body q →
  decodes_frame MqttPacket_from_bytes_v5 byte1 body q.
Proof.
  intros H rest. unfold MqttPacket_from_bytes_v5. rewrite frame_packet_type, Hkind. rsimp.
  rewrite try_from_as_u8. rsimp. apply H.
Qed.

Lemma v3_dispatch :
  decodes_frame (v3_decoder kind) byte1 body q →
  decodes_frame MqttPacket_from_bytes_v3 byte1 body q.
Proof.
  intros H rest. unfold MqttPacket_from_bytes_v3. rewrite frame_packet_type, Hkind. rsimp.
  rewrite try_from_as_u8. rsimp. apply H.
Qed.
End dispatch.

(** The packet-type nibble of a packet encoded by the default encoder. *)
Lemma default_first_byte {P} (impl : MqttControlPacket P) p kind :
  mcp_control_packet_type impl = ControlPacketType_as_u8 kind → 0 <= mcp_flags impl p < 16 →
  Z.shiftr (first_byte impl p) 4 = ControlPacketType_as_u8 kind.
Proof. intros E Hf. unfold first_byte. rewrite E. by apply header_byte. Qed.

(** From a codec's own round trip to the packet's. *)
Lemma default_encoder_roundtrip {P} (impl : MqttControlPacket P) (p : P) bs
    (from_bytes : bytes → res ParseOk) (decoder : ControlPacketType → bytes → res ParseOk)
    kind q :
  (∀ byte1 body, Z.shiftr byte1 4 = ControlPacketType_as_u8 kind →
     decodes_frame (decoder kind) byte1 body q → decodes_frame from_bytes byte1 body q) →
  mcp_control_packet_type impl = ControlPacketType_as_u8 kind → 0 <= mcp_flags impl p < 16 →
  to_bytes impl p = Ok bs → zlen bs <= MAX_REMAINING + 5 →
  (∀ vh pl, mcp_validate impl p = Ok () → mcp_variable_header impl p = Ok vh →
     mcp_payload impl p = Ok pl → zlen (vh ++ pl) <= MAX_REMAINING →
     decodes_frame (decoder kind) (first_byte impl p) (vh ++ pl) q) →
  ∃ byte1 body, bs = frame byte1 body ∧ decodes_frame from_bytes byte1 body q.
Proof.
  intros Hdisp Hkind Hf Hbs Hl Hcodec.
  destruct (to_bytes_frame impl p bs Hbs Hl) as (Hv & vh & pl & Hvh & Hpl & Hlen & ->).
  exists (first_byte impl p), (vh ++ pl). split; [done|].
  apply Hdisp; [by apply default_first_byte|]. by apply Hcodec.
Qed.

Lemma publish5_packet_roundtrip p bs :
  wf_publish5 p → MqttPublish5_to_bytes p = Ok bs → zlen bs <= MAX_REMAINING + 5 →
  ∃ byte1 body, bs = frame byte1 body ∧
    decodes_frame MqttPacket_from_bytes_v5 byte1 body (Publish5 (MqttPublish5_norm p)).
Proof.
  intros Hwf Hbs Hl. unfold MqttPublish5_to_bytes in Hbs.
  assert (MqttPublish5_validate p = Ok ()) as Hv.
  { unfold MqttPublish5_encode_to_buffer in Hbs. by apply bind_Ok_inv in Hbs as ([] & ? & _). }
  rewrite MqttPublish5_encode_single_pass in Hbs by done.
  apply bind_Ok_inv in Hbs as (props & Hprops & Hbs). apply Ok_inj in Hbs. subst bs.
  unfold publish_wire in *. rewrite app_nil_l in *.
  rewrite zlen_cons, (zlen_app (VariableByteInteger_encode _)) in Hl.
  destruct (frame_of_header (Z.lor 48 (MqttPublish5_flags p)) _ ltac:(rewrite <- Z.add_assoc; exact Hl))
    as [Hlen ->].
  eexists _, _. split; [done|].
  destruct (MqttPublish5_validate_inv _ Hv) as (Hp & _).
  apply validation_publish_inv in Hp as (Hq & _).
  eapply (v5_dispatch _ _ PUBLISH).
  - apply MqttPublish5_first_byte. destruct Hwf as (_ & Hq8 & _). unfold is_u8 in Hq8. lia.
  - by apply MqttPublish5_roundtrip.
Qed.

Lemma publish3_packet_roundtrip p bs :
  wf_publish3 p → MqttPublish3_to_bytes p = Ok bs → zlen bs <= MAX_REMAINING + 5 →
  ∃ byte1 body, bs = frame byte1 body ∧
    decodes_frame MqttPacket_from_bytes_v3 byte1 body (Publish3 (MqttPublish3_norm p)).
Proof.
  intros Hwf Hbs Hl. unfold MqttPublish3_to_bytes, MqttPublish3_encode_to_buffer in Hbs.
  apply bind_Ok_inv in Hbs as ([] & Hv & Hbs).
  destruct (MqttPublish3_validate_inv _ Hv) as (Hp & _).
  edestruct validation_publish_pid as [E _]; [exact Hp|]. rewrite E in Hbs.
  cbn [mbind result_bind] in Hbs. apply Ok_inj in Hbs. subst bs.
  rewrite encode_publish_into_wire in *. unfold publish_wire in *. rewrite app_nil_l in *.
  rewrite zlen_cons, (zlen_app (VariableByteInteger_encode _)) in Hl.
  destruct (frame_of_header (Z.lor 48 (MqttPublish3_flags p)) _ ltac:(rewrite <- Z.add_assoc; exact Hl))
    as [Hlen ->].
  eexists _, _. split; [done|].
  apply validation_publish_inv in Hp as (Hq & _).
  eapply (v3_dispatch _ _ PUBLISH).
  - apply MqttPublish3_first_byte. destruct Hwf as (_ & Hq8 & _). unfold is_u8 in Hq8. lia.
  - by apply MqttPublish3_roundtrip.
Qed.

Ltac default_roundtrip disp decoder kind :=
  match goal with H : to_bytes ?impl ?p = Ok ?bs |- _ =>
    eapply (default_encoder_roundtrip impl p bs _ decoder kind)
  end;
    [intros ? ? ? ?; by eapply disp | done | cbn; lia | eassumption | done
    | intros vh pl Hval Hvh Hpl Hlen; cbn in Hval, Hvh, Hpl; res_inv].

Lemma packet_roundtrip_frame p bs :
  wf_packet p → encodable p → MqttPacket_to_bytes p = Ok bs → zlen bs <= MAX_REMAINING + 5 →
  ∃ byte1 body, bs = frame byte1 body ∧ decodes_frame (packet_decoder p) byte1 body (wire_form p).
Proof.
  intros Hwf Henc Hbs Hl. unfold packet_decoder.
  destruct p; cbn [MqttPacket_to_bytes is_v5 wire_form wf_packet encodable] in *.
  - default_roundtrip v5_dispatch v5_decoder CONNECT. by apply MqttConnect5_roundtrip.
  - default_roundtrip v5_dispatch v5_decoder CONNACK.  by apply MqttConnAck5_roundtrip.
  - by apply publish5_packet_roundtrip.
  - default_roundtrip v5_dispatch v5_decoder PUBACK.  by apply v5_ack_roundtrip.
  - default_roundtrip v5_dispatch v5_decoder PUBREC.  by apply v5_ack_roundtrip.
  - default_roundtrip v5_dispatch v5_decoder PUBREL.  by apply v5_ack_roundtrip.
  - default_roundtrip v5_dispatch v5_decoder PUBCOMP.  by apply v5_ack_roundtrip.
  - default_roundtrip v5_dispatch v5_decoder SUBSCRIBE. by apply MqttSubscribe5_roundtrip.
  - default_roundtrip v5_dispatch v5_decoder SUBACK. by apply reason_codes_ack5_roundtrip.
  - default_roundtrip v5_dispatch v5_decoder UNSUBSCRIBE. by apply MqttUnsubscribe5_roundtrip.
  - default_roundtrip v5_dispatch v5_decoder UNSUBACK. by apply reason_codes_ack5_roundtrip.
  - default_roundtrip v5_dispatch v5_decoder PINGREQ.  apply empty_packet_roundtrip. eauto.
  - default_roundtrip v5_dispatch v5_decoder PINGRESP.  apply empty_packet_roundtrip. eauto.
  - default_roundtrip v5_dispatch v5_decoder DISCONNECT.  by apply MqttDisconnect5_roundtrip.
  - default_roundtrip v5_dispatch v5_decoder AUTH.  by apply MqttAuth_roundtrip.
  - default_roundtrip v3_dispatch v3_decoder CONNECT. by apply MqttConnect3_roundtrip.
  - default_roundtrip v3_dispatch v3_decoder CONNACK.  by apply MqttConnAck3_roundtrip.
  - by apply publish3_packet_roundtrip.
  - default_roundtrip v3_dispatch v3_decoder PUBACK.  by apply v3_ack_roundtrip.
  - default_roundtrip v3_dispatch v3_decoder PUBREC.  by apply v3_ack_roundtrip.
  - default_roundtrip v3_dispatch v3_decoder PUBREL.  by apply v3_ack_roundtrip.
  - default_roundtrip v3_dispatch v3_decoder PUBCOMP.  by apply v3_ack_roundtrip.
  - default_roundtrip v3_dispatch v3_decoder SUBSCRIBE.  destruct Hwf.
    by apply MqttSubscribe3_roundtrip.
  - default_roundtrip v3_dispatch v3_decoder SUBACK.  destruct Hwf. by apply MqttSubAck3_roundtrip.
  - default_roundtrip v3_dispatch v3_decoder UNSUBSCRIBE.  destruct Hwf.
    by apply MqttUnsubscribe3_roundtrip.
  - default_roundtrip v3_dispatch v3_decoder UNSUBACK.  by apply v3_ack_roundtrip.
  - default_roundtrip v3_dispatch v3_decoder PINGREQ.  apply empty_packet_roundtrip. eauto.
  - default_roundtrip v3_dispatch v3_decoder PINGRESP.  apply empty_packet_roundtrip. eauto.
  - default_roundtrip v3_dispatch v3_decoder DISCONNECT.  apply empty_packet_roundtrip. eauto.
Qed.

(** ** Safety of the dispatchers *)
Lemma safe_try_from v : safe (ControlPacketType_try_from v) (λ k, v = ControlPacketType_as_u8 k).
Proof. destruct v as [|v|v]; try exact I. do 4 (destruct v; try exact I; try done). Qed.

(** The buffer holds no more than its first frame. *)
Definition one_frame (b : bytes) : Prop := ∀ n, frame_size b = Some n → zlen b <= n.

Lemma v5_decoder_safe kind b :
  u8s b → (kind = PUBLISH → one_frame b) → safe (v5_decoder kind b) (decoded b).
Proof.
  intros Hb Hone. destruct kind; simpl.
  - by apply MqttConnect5_safe.
  - by apply parse_connack_safe.
  - apply MqttPublish5_safe; [done|]. by apply Hone.
  - by apply v5_ack_safe.
  - by apply v5_ack_safe.
  - by apply v5_ack_safe.
  - by apply v5_ack_safe.
  - by apply MqttSubscribe5_safe.
  - by apply reason_codes_ack5_safe.
  - by apply MqttUnsubscribe5_safe.
  - by apply reason_codes_ack5_safe.
  - by apply ping5_safe.
  - by apply ping5_safe.
  - by apply MqttDisconnect5_safe.
  - by apply MqttAuth_safe.
Qed.

Lemma v3_decoder_safe kind b : u8s b → safe (v3_decoder kind b) (decoded b).
Proof.
  intros Hb. destruct kind; simpl.
  - by apply MqttConnect3_safe.
  - by apply MqttConnAck3_safe.
  - by apply MqttPublish3_safe.
  - by apply v3_ack_safe.
  - by apply v3_ack_safe.
  - by apply v3_ack_safe.
  - by apply v3_ack_safe.
  - by apply MqttSubscribe3_safe.
  - by apply MqttSubAck3_safe.
  - by apply MqttUnsubscribe3_safe.
  - by apply v3_ack_safe.
  - by apply ping3_safe.
  - by apply ping3_safe.
  - by apply MqttDisconnect3_safe.
  - done.
Qed.

Lemma from_bytes_v5_safe b :
  u8s b → one_frame b → safe (MqttPacket_from_bytes_v5 b) (decoded b).
Proof.
  intros Hb Hone. unfold MqttPacket_from_bytes_v5. safe_step.
  eapply safe_bind; [apply safe_try_from|]. intros kind _ _. by apply v5_decoder_safe.
Qed.

Lemma from_bytes_v3_safe b : u8s b → safe (MqttPacket_from_bytes_v3 b) (decoded b).
Proof.
  intros Hb. unfold MqttPacket_from_bytes_v3. safe_step.
  eapply safe_bind; [apply safe_try_from|]. intros kind _ _. by apply v3_decoder_safe.
Qed.

Lemma from_bytes_v5_sound b r :
  u8s b → MqttPacket_from_bytes_v5 b = Ok r → decoded b r.
Proof.
  intros Hb H. unfold MqttPacket_from_bytes_v5 in H. apply bind_Ok_inv in H as (t & _ & H).
  apply bind_Ok_inv in H as (kind & _ & H).
  destruct (decide (kind = PUBLISH)) as [->|Hne].
  - by apply MqttPublish5_sound.
  - eapply safe_Ok_inv; [|exact H]. by apply v5_decoder_safe.
Qed.

Lemma with_version_cases b version r :
  MqttPacket_from_bytes_with_version b version = r →
  r = MqttPacket_from_bytes_v5 b ∨ r = MqttPacket_from_bytes_v3 b ∨ r = Err InvalidPacketType.
Proof.
  intros <-. destruct version as [|v|v]; [auto| |auto]. do 3 (destruct v; auto).
Qed.

Lemma from_bytes_sound b version r :
  u8s b → MqttPacket_from_bytes_with_version b version = Ok r → decoded b r.
Proof.
  intros Hb H. destruct (with_version_cases _ _ _ H) as [E|[E|E]]; [|..|done].
  - by apply from_bytes_v5_sound.
  - eapply safe_Ok_inv; [by apply from_bytes_v3_safe|done].
Qed.

Lemma from_bytes_safe b version :
  u8s b → one_frame b →
  safe (MqttPacket_from_bytes_with_version b version) (decoded b).
Proof.
  intros Hb Hone. destruct (with_version_cases b version _ eq_refl) as [-> |[-> | ->]]; [..|done].
  - by apply from_bytes_v5_safe.
  - by apply from_bytes_v3_safe.
Qed.

(** The version number that goes with a packet. *)
Definition version_for (p : MqttPacket) (version : Z) : bool :=
  if is_v5 p then version =? 5 else (version =? 3) || (version =? 4).

Lemma from_bytes_version p version b :
  version_for p version = true →
  MqttPacket_from_bytes_with_version b version = packet_decoder p b.
Proof.
  unfold version_for, packet_decoder. destruct (is_v5 p); intros H.
  - by apply Z.eqb_eq in H as ->.
  - apply orb_true_iff in H as [H|H]; apply Z.eqb_eq in H as ->; done.
Qed.

Lemma packet_roundtrip p bs rest version :
  wf_packet p → encodable p → version_for p version = true →
  MqttPacket_to_bytes p = Ok bs → zlen bs <= MAX_REMAINING + 5 →
  MqttPacket_from_bytes_with_version (bs ++ rest) version = Ok (Packet (wire_form p) (zlen bs)).
Proof.
  intros Hwf Henc Hver Hbs Hl.
  destruct (packet_roundtrip_frame p bs Hwf Henc Hbs Hl) as (byte1 & body & -> & H).
  rewrite (from_bytes_version p) by done. apply H.
Qed.

(** ** Theorems *)

(** C2: decoding inverts encoding.  A well-typed packet that encodes to [bs] within the
    protocol's size bound is decoded from [bs] by the decoder of its version, whatever bytes
    [rest] follow it, with exactly [bs] consumed, for every packet type of MQTT 5 and 3.1.1.  The
    result is the packet up to [wire_form]: a QoS 0 PUBLISH has no packet identifier on the
    wire, and a CONNACK no empty property list.  A CONNECT must be [encodable]: the encoder also
    emits CONNECTs that the decoder refuses (see [connect5_empty_fields_rejected] and
    [connect3_encoder_unchecked]). *)
Theorem codec_roundtrip p bs rest version :
  wf_packet p → encodable p → version_for p version = true →
  MqttPacket_to_bytes p = Ok bs → zlen bs <= MAX_REMAINING + 5 →
  MqttPacket_from_bytes_with_version (bs ++ rest) version = Ok (Packet (wire_form p) (zlen bs)).
Proof. apply packet_roundtrip. Qed.

Definition sample_publish : MqttPacket := Publish5 {|
  p5_topic_name := str "a/b"; p5_qos := 1; p5_dup := false; p5_retain := true;
  p5_packet_id := Some 258; p5_payload := [1; 2; 3];
  p5_properties := [PayloadFormatIndicator 1; UserProperty (str "k") (str "v")] |}.

Definition sample_publish_bytes : bytes :=
  [51; 20; 0; 3; 97; 47; 98; 1; 2; 9; 1; 1; 38; 0; 1; 107; 0; 1; 118; 1; 2; 3].

Lemma sample_publish_wf : wf_packet sample_publish.
Proof.
  unfold wf_packet, wf_publish5, wf_str. cbn.
  split_and!; try done; try (unfold is_u8, is_u16; lia); unfold u8s; repeat constructor; done.
Qed.

Lemma codec_roundtrip_witness :
  MqttPacket_to_bytes sample_publish = Ok sample_publish_bytes ∧
  MqttPacket_from_bytes_with_version (sample_publish_bytes ++ [192; 0]) 5
  = Ok (Packet (wire_form sample_publish) 22).
Proof.
  split; [reflexivity|].
  apply (codec_roundtrip sample_publish sample_publish_bytes [192; 0] 5);
    [exact sample_publish_wf|exact I|reflexivity|reflexivity|vm_compute; discriminate].
Defined.

(** C39: what a decoder accepts is a frame.  Whenever any of the decoders returns, on any
    buffer, a returned packet is well typed, passes its own validation and consumes exactly
    the size its fixed header announces, all of it present in the buffer; an incomplete
    answer asks for exactly the bytes that are missing (or one, when only one byte is there). *)
Theorem codec_decode_sound b version r :
  u8s b → MqttPacket_from_bytes_with_version b version = Ok r → decoded b r.
Proof. apply from_bytes_sound. Qed.

Lemma codec_decode_sound_witness :
  u8s (sample_publish_bytes ++ [192; 0]) ∧
  decoded (sample_publish_bytes ++ [192; 0]) (Packet (wire_form sample_publish) 22).
Proof.
  assert (u8s (sample_publish_bytes ++ [192; 0])) as H.
  { u8s_lit. }
  split; [exact H|]. apply (codec_decode_sound _ 5); [exact H|reflexivity].
Defined.

(** No byte sequence makes the MQTT 3.1.1 decoders panic. *)
Theorem codec_v3_no_panic b : u8s b → MqttPacket_from_bytes_v3 b ≠ Panic.
Proof. intros Hb. eapply safe_no_panic, from_bytes_v3_safe, Hb. Qed.

Lemma codec_v3_no_panic_witness : MqttPacket_from_bytes_v3 [130; 2; 0] ≠ Panic.
Proof. apply codec_v3_no_panic. u8s_lit. Defined.

(** No byte sequence that ends with its first frame (or before) makes a decoder of either
    version panic: this covers every buffer the stream parser passes to a decoder. *)
Theorem codec_no_panic b version :
  u8s b → one_frame b → MqttPacket_from_bytes_with_version b version ≠ Panic.
Proof. intros Hb Hone. by eapply safe_no_panic, from_bytes_safe. Qed.

Lemma codec_no_panic_witness :
  MqttPacket_from_bytes_with_version [48; 2; 0; 5] 5 ≠ Panic.
Proof.
  apply codec_no_panic.
  - u8s_lit.
  - intros n [= <-]. vm_compute. discriminate.
Defined.

(** The bound of [codec_no_panic] is needed: a five-byte topic that overruns a two-byte
    PUBLISH body into the bytes after the frame makes [packet_size - offset] underflow. *)
Theorem publish5_overrun_panics :
  MqttPacket_from_bytes_v5 [48; 2; 0; 5; 97; 97; 97; 97; 97; 0] = Panic ∧
  frame_size [48; 2; 0; 5; 97; 97; 97; 97; 97; 0] = Some 4.
Proof. split; reflexivity. Qed.

(** The MQTT 3.1.1 CONNECT encoder emits packets its own decoder rejects.  A password of
    65536 bytes gets the length prefix 0 (the length is cast to [u16] unchecked), and a
    password without a username is encoded although the decoder refuses it. *)
Theorem connect3_encoder_unchecked :
  let long := {| c3_protocol_name := str "MQTT"; c3_protocol_version := 4;
    c3_clean_session := true; c3_keep_alive := 60; c3_client_id := str "c"; c3_will := None;
    c3_username := Some (str "u"); c3_password := Some (replicate (Z.to_nat 65536) 120) |} in
  let nouser := {| c3_protocol_name := str "MQTT"; c3_protocol_version := 4;
    c3_clean_session := true; c3_keep_alive := 60; c3_client_id := str "c"; c3_will := None;
    c3_username := None; c3_password := Some (str "p") |} in
  (bs ← MqttPacket_to_bytes (Connect3 long); MqttPacket_from_bytes_v3 bs)
    = Err (InternalError "Failed to consume entire CONNECT packet") ∧
  (bs ← MqttPacket_to_bytes (Connect3 nouser); MqttPacket_from_bytes_v3 bs)
    = Err (ParseErr "Password flag requires username flag") ∧
  is_Ok (MqttPacket_to_bytes (Connect3 long)) = true ∧
  is_Ok (MqttPacket_to_bytes (Connect3 nouser)) = true.
Proof. vm_compute. split_and!; reflexivity. Qed.

(** The MQTT 5 CONNECT decoder rejects a zero-length will payload, username and password,
    which the encoder emits and the protocol allows (MQTT 5, 3.1.3.4 to 3.1.3.6). *)
Theorem connect5_empty_fields_rejected :
  let conn will user pass := Connect5 (MqttConnect5_new (str "c") user pass will 60 true []) in
  let roundtrip p := bs ← MqttPacket_to_bytes p; MqttPacket_from_bytes_v5 bs in
  roundtrip (conn (Some (Will5_new (str "w") [] 0 false)) None None)
    = Err (ParseErr "Will topic or message cannot be empty") ∧
  roundtrip (conn None (Some []) None) = Err (ParseErr "Username cannot be empty") ∧
  roundtrip (conn None None (Some [])) = Err (ParseErr "Password cannot be empty") ∧
  is_Ok (MqttPacket_to_bytes (conn (Some (Will5_new (str "w") [] 0 false)) None None)) = true ∧
  is_Ok (MqttPacket_to_bytes (conn None (Some []) None)) = true ∧
  is_Ok (MqttPacket_to_bytes (conn None None (Some []))) = true.
Proof. vm_compute. split_and!; reflexivity. Qed.
