(* ===== verification/Stream.v ===== *)
(** * The stream parser

    Models [MqttParser] of [src/mqtt_serde/parser/stream.rs] (the default, owned-buffer build)
    with [packet_frame_len] of [src/mqtt_serde/parser/leveled.rs].  The parser keeps a growing
    buffer and a read offset, compacts lazily and hands exactly one frame to the packet
    decoders.  It is proved to refine a function on the unread bytes alone ([stream_step]);
    from that follow: no panic, progress on every complete frame, delivery of every encoded
    packet in order, and independence of how the transport cuts the byte stream. *)
From S2P Require Import Prelude BaseData TopicFilter Validation Properties Packets Framing.
From S2P Require Import AckCodec ControlCodec PublishCodec SubscribeCodec ConnectCodec Codec.

(** ** [packet_frame_len] *)
Definition packet_frame_len (buffer : bytes) : res (option Z) :=
  if zlen buffer <? 2 then Ok None else
  tail ← index_from buffer 1;
  match parse_remaining_length tail with
  | Ok (remaining_len, vbi_bytes) =>
      let total := 1 + vbi_bytes + remaining_len in
      if zlen buffer <? total then Ok None else Ok (Some total)
  | Err (More _ _) => Ok None
  | Err e => Err e
  | Panic => Panic
  end.

(** ** [MqttParser] *)
Inductive ParseLevel : Type := Full | HeadersParsed | RawBody | TypeOnly.

Definition ParseLevel_from (value : Z) : ParseLevel :=
  match value with
  | 1 => HeadersParsed
  | 2 => RawBody
  | 3 => TypeOnly
  | _ => Full
  end.

Record MqttParser : Type := {
  mp_buffer : bytes;
  mp_read_offset : Z;
  mp_mqtt_version : Z;
  mp_parse_level : ParseLevel;
}.

Definition MqttParser_new (buffer_size mqtt_version : Z) : MqttParser :=
  {| mp_buffer := []; mp_read_offset := 0; mp_mqtt_version := mqtt_version;
     mp_parse_level := Full |}.

Definition MqttParser_with_level (buffer_size mqtt_version : Z) (parse_level : ParseLevel)
    : MqttParser :=
  {| mp_buffer := []; mp_read_offset := 0; mp_mqtt_version := mqtt_version;
     mp_parse_level := parse_level |}.

Definition MqttParser_set_parse_level (self : MqttParser) (level : ParseLevel) : MqttParser :=
  {| mp_buffer := mp_buffer self; mp_read_offset := mp_read_offset self;
     mp_mqtt_version := mp_mqtt_version self; mp_parse_level := level |}.

(** [buffer()]: the unread bytes. *)
Definition MqttParser_buffer (self : MqttParser) : res bytes :=
  index_from (mp_buffer self) (mp_read_offset self).

(** A new buffer and read offset, the rest unchanged. *)
Definition with_buffer (self : MqttParser) (b : bytes) (off : Z) : MqttParser :=
  {| mp_buffer := b; mp_read_offset := off; mp_mqtt_version := mp_mqtt_version self;
     mp_parse_level := mp_parse_level self |}.

(** [compact]: [copy_within] moves the unread bytes to the front, [truncate] drops the rest. *)
Definition MqttParser_compact (self : MqttParser) : res MqttParser :=
  if negb (mp_read_offset self =? 0) then
    unread ← MqttParser_buffer self;
    let moved := unread ++ drop (length unread) (mp_buffer self) in
    Ok (with_buffer self (take (length unread) moved) 0)
  else Ok self.

Definition MqttParser_feed (self : MqttParser) (data : bytes) : res MqttParser :=
  unread ← MqttParser_buffer self;
  self ← (if negb (mp_read_offset self =? 0) && (zlen unread <=? mp_read_offset self)
          then MqttParser_compact self else Ok self);
  Ok (with_buffer self (mp_buffer self ++ data) (mp_read_offset self)).

Definition MqttParser_advance (self : MqttParser) (consumed : Z) : res MqttParser :=
  unread ← MqttParser_buffer self;
  if zlen unread <? consumed then Panic else
  let read_offset := mp_read_offset self + consumed in
  if read_offset =? zlen (mp_buffer self) then Ok (with_buffer self [] 0)
  else Ok (with_buffer self (mp_buffer self) read_offset).

(** [take_frame]: the bytes of the frame and the parser past it. *)
Definition MqttParser_take_frame (self : MqttParser) (len : Z) : res (bytes * MqttParser) :=
  unread ← MqttParser_buffer self;
  frame ← index_range unread 0 len;
  self ← MqttParser_advance self len;
  Ok (frame, self).

Definition MqttParser_buffer_mut (self : MqttParser) : res MqttParser := MqttParser_compact self.

(** [set_mqtt_vsn]: the version found, and the parser that remembers it. *)
Definition MqttParser_set_mqtt_vsn (self : MqttParser) (offset : Z) : res (Z * MqttParser) :=
  if negb (mp_mqtt_version self =? 0) then Ok (mp_mqtt_version self, self) else
  buffer ← MqttParser_buffer self;
  b ← index_at buffer offset;
  if negb (b =? 16)
  then Err (ParseErr "Expected CONNECT packet to determine MQTT version") else
  let offset := offset + 1 in
  tail ← index_from buffer offset;
  '(_, consumed) ← parse_vbi tail;
  let offset := offset + consumed in
  tail ← index_from buffer offset;
  '(_, consumed) ← parse_utf8_string tail;
  let vsn_offset := offset + consumed in
  if zlen buffer <? vsn_offset + 1
  then Err (More (vsn_offset + 1 - zlen buffer) "MQTT version") else
  vsn ← index_at buffer vsn_offset;
  Ok (vsn, {| mp_buffer := mp_buffer self; mp_read_offset := mp_read_offset self;
              mp_mqtt_version := vsn; mp_parse_level := mp_parse_level self |}).

(** [next_packet]: an error leaves the parser as it was. *)
Definition MqttParser_next_packet (self : MqttParser)
    : res (option MqttPacket * MqttParser) :=
  if mp_mqtt_version self =? 0 then Panic else
  unread ← MqttParser_buffer self;
  if bool_decide (unread = []) then Ok (None, self) else
  frame_len ← packet_frame_len unread;
  match frame_len with
  | None => Ok (None, self)
  | Some frame_len =>
      frame ← index_range unread 0 frame_len;
      r ← MqttPacket_from_bytes_with_version frame (mp_mqtt_version self);
      match r with
      | Packet packet consumed =>
          self ← MqttParser_advance self consumed;
          Ok (Some packet, self)
      | Continue _ _ => Ok (None, self)
      | TopicName _ _ => Err (ParseErr "Unexpected ParseOk variant")
      end
  end.

(** ** [MqttStream]

    The reader behind the stream is a script: what each further call of [Read::read] returns,
    at most the 1024 bytes it is offered ([Ok []] or the end of the script is the end of the
    stream).  The item of the iterator, the reads not made yet and the parser are returned. *)
Record MqttStream : Type := { ms_parser : MqttParser; ms_stream : list (res bytes) }.

Definition MqttStream_new (stream : list (res bytes)) (buffer_size mqtt_version : Z) : MqttStream :=
  {| ms_parser := MqttParser_new buffer_size mqtt_version; ms_stream := stream |}.

(** [buffer.resize(initial_len + 1024, 0)], [read] into the new part, [truncate] to what came. *)
Definition read_into (buffer data : bytes) : bytes :=
  let initial_len := length buffer in
  let buffer := buffer ++ replicate 1024 0 in
  let buffer := take initial_len buffer ++ take 1024 data
                ++ drop (initial_len + length (take 1024 data)) buffer in
  take (initial_len + length data) buffer.

(** [next]: the recursion of the source consumes one read of the script each time. *)
Fixpoint MqttStream_next_loop (parser : MqttParser) (stream : list (res bytes))
    : res (option (res MqttPacket) * MqttStream) :=
  match MqttParser_next_packet parser with
  | Ok (Some packet, parser) =>
      Ok (Some (Ok packet), {| ms_parser := parser; ms_stream := stream |})
  | Ok (None, parser) =>
      parser ← MqttParser_buffer_mut parser;
      match stream with
      | [] | Ok [] :: _ =>
          Ok (None, {| ms_parser := parser; ms_stream := tail stream |})
      | Ok data :: stream =>
          MqttStream_next_loop
            (with_buffer parser (read_into (mp_buffer parser) data) (mp_read_offset parser)) stream
      | Err e :: stream =>
          Ok (Some (Err e), {| ms_parser := parser; ms_stream := stream |})
      | Panic :: _ => Panic
      end
  | Err e => Ok (Some (Err e), {| ms_parser := parser; ms_stream := stream |})
  | Panic => Panic
  end.

Definition MqttStream_next (self : MqttStream) : res (option (res MqttPacket) * MqttStream) :=
  MqttStream_next_loop (ms_parser self) (ms_stream self).

(** ** The specification: a function of the unread bytes *)
Definition stream_step (version : Z) (s : bytes) : res (option (MqttPacket * bytes)) :=
  frame_len ← packet_frame_len s;
  match frame_len with
  | None => Ok None
  | Some n =>
      r ← MqttPacket_from_bytes_with_version (take (Z.to_nat n) s) version;
      match r with
      | Packet p _ => Ok (Some (p, drop (Z.to_nat n) s))
      | _ => Ok None
      end
  end.

Definition unread (self : MqttParser) : bytes :=
  drop (Z.to_nat (mp_read_offset self)) (mp_buffer self).

(** The invariant: the offset is inside the buffer, and at its end only when it is empty. *)
Definition parser_inv (self : MqttParser) : Prop :=
  0 <= mp_read_offset self <= zlen (mp_buffer self) ∧
  (mp_read_offset self = zlen (mp_buffer self) → mp_buffer self = []) ∧
  u8s (mp_buffer self) ∧ mp_mqtt_version self ≠ 0.

(** What an operation that changes the unread bytes to [s] and nothing else promises. *)
Definition parser_at (self self' : MqttParser) (s : bytes) : Prop :=
  parser_inv self' ∧ unread self' = s ∧
  mp_mqtt_version self' = mp_mqtt_version self ∧ mp_parse_level self' = mp_parse_level self.

(** ** [packet_frame_len] against the frame's size *)
Lemma vbi_decode_loop_app s x i mult value :
  match VariableByteInteger_decode_loop s i mult value with
  | Err (More _ _) => True
  | r => VariableByteInteger_decode_loop (s ++ x) i mult value = r
  end.
Proof.
  revert i mult value. induction s as [|b s IH]; intros i mult value; [done|].
  cbn [app VariableByteInteger_decode_loop].
  destruct (_ && _); [done|]. destruct (_ <? _); [done|]. destruct (_ =? _); [done|]. apply IH.
Qed.

Lemma parse_remaining_length_app s x :
  s ≠ [] →
  match parse_remaining_length s with
  | Err (More _ _) => True
  | r => parse_remaining_length (s ++ x) = r
  end.
Proof.
  intros Hs. unfold parse_remaining_length, vbi, VariableByteInteger_decode.
  rewrite (bool_decide_eq_false_2 (s = [])) by done.
  rewrite (bool_decide_eq_false_2 (s ++ x = [])) by (destruct s; done).
  pose proof (vbi_decode_loop_app s x 0 1 0) as H.
  destruct (VariableByteInteger_decode_loop s 0 1 0) as [[v i]|[]|] eqn:E; rsimp; try done;
    rewrite H; rsimp; try done.
  assert ((if 1 <? i then index_at (s ++ x) (i - 1) else Ok 1)
    = (if 1 <? i then index_at (E:=ParseError) s (i - 1) else Ok 1)) as ->.
  { destruct (1 <? i) eqn:Hi; [|done]. unfold index_at, get_at.
    assert (i <= zlen s) as Hle.
    { clear -E. assert (∀ s i m v r j, VariableByteInteger_decode_loop s i m v = Ok (r, j) →
        j <= i + zlen s) as G.
      { clear. intros s. induction s as [|b s IH]; intros i m v r j H; [done|].
        cbn [VariableByteInteger_decode_loop] in H. rewrite zlen_cons.
        destruct (_ && _); [done|]. destruct (_ <? _); [done|]. destruct (_ =? _).
        - apply Ok_inj in H. pose proof (zlen_nonneg s).
          apply pair_equal_spec in H as [_ <-]. lia.
        - apply IH in H. lia. }
      apply G in E. lia. }
    pose proof (zlen_nonneg x). rewrite zlen_app.
    replace ((0 <=? i - 1) && (i - 1 <? zlen s + zlen x)) with true by lia.
    replace ((0 <=? i - 1) && (i - 1 <? zlen s)) with true by lia.
    rewrite lookup_app_l; [done|]. unfold zlen in Hle. lia. }
  destruct (if 1 <? i then _ else _) as [l|[]|]; rsimp; try done.
  by destruct (_ && _).
Qed.

Lemma frame_size_Some b n :
  frame_size b = Some n ↔
  ∃ size vl, parse_remaining_length (drop 1 b) = Ok (size, vl) ∧ n = 1 + vl + size.
Proof.
  unfold parse_remaining_length, vbi, frame_size.
  destruct (VariableByteInteger_decode (drop 1 b)) as [[v l]| |]; rsimp; [|naive_solver..].
  split; [intros [= <-]; eauto|]. intros (? & ? & H & ->). by res_inv.
Qed.

Lemma drop_1_app (b x : bytes) : 1 <= zlen b → drop 1 (b ++ x) = drop 1 b ++ x.
Proof. destruct b; [by intros H|]. done. Qed.

Lemma frame_size_app b x n : frame_size b = Some n → frame_size (b ++ x) = Some n.
Proof.
  rewrite !frame_size_Some. intros (size & vl & H & ->). exists size, vl. split; [|done].
  assert (drop 1 b ≠ []) as Hne by (intros E; by rewrite E in H).
  rewrite drop_1_app by (destruct b; [done|zlia]).
  pose proof (parse_remaining_length_app (drop 1 b) x Hne) as Happ. by rewrite H in Happ.
Qed.

Lemma index_from_drop {E} b off :
  0 <= off <= zlen b → index_from (E:=E) b off = Ok (drop (Z.to_nat off) b).
Proof. intros. unfold index_from, get_from. by replace (_ && _) with true by lia. Qed.

Lemma index_range_take {E} b n :
  0 <= n <= zlen b → index_range (E:=E) b 0 n = Ok (take (Z.to_nat n) b).
Proof.
  intros. unfold index_range, get_range. replace (_ && _ && _) with true by lia.
  by rewrite Z.sub_0_r.
Qed.

(** What it answers: the size of the frame, once all of it is there. *)
Lemma packet_frame_len_spec b :
  u8s b → safe (packet_frame_len b) (λ o, match o with
    | Some n => frame_size b = Some n ∧ 2 <= n <= zlen b
    | None => ∀ n, frame_size b = Some n → zlen b < n
    end).
Proof.
  intros Hb. unfold packet_frame_len. destruct (zlen b <? 2) eqn:H2.
  { intros n (size & vl & E & ->)%frame_size_Some.
    assert (drop 1 b = []) as Hd by (apply drop_ge; unfold zlen in H2; lia). by rewrite Hd in E. }
  rewrite index_from_drop by lia. rsimp. change (Z.to_nat 1) with 1%nat.
  pose proof (safe_parse_remaining_length (drop 1 b) (Forall_drop _ _ _ Hb)) as Hs.
  destruct (parse_remaining_length (drop 1 b)) as [[size vl]|[]|] eqn:E; try done.
  - apply frame_size_parse in E. simpl in Hs. destruct (zlen b <? 1 + vl + size) eqn:Hl; simpl.
    + intros n Hn. rewrite E in Hn. injection Hn as <-. lia.
    + rewrite E. split; [done|lia].
  - intros n (? & ? & E' & _)%frame_size_Some. congruence.
Qed.

Lemma packet_frame_len_app b x :
  match packet_frame_len b with Ok None => True | r => packet_frame_len (b ++ x) = r end.
Proof.
  unfold packet_frame_len. destruct (zlen b <? 2) eqn:H2; [done|].
  rewrite zlen_app. pose proof (zlen_nonneg x). replace (zlen b + zlen x <? 2) with false by lia.
  rewrite !index_from_drop by zlia. rsimp. change (Z.to_nat 1) with 1%nat.
  rewrite drop_1_app by lia.
  assert (drop 1 b ≠ []) as Hne by (destruct b as [|? [|]]; done).
  pose proof (parse_remaining_length_app (drop 1 b) x Hne) as Happ.
  destruct (parse_remaining_length (drop 1 b)) as [[size vl]|[]|]; try done; rewrite Happ; try done.
  destruct (zlen b <? 1 + vl + size) eqn:Hl; [done|].
  by replace (zlen b + zlen x <? _) with false by lia.
Qed.

(** A frame cut out of a buffer is one frame: nothing follows it. *)
Lemma take_one_frame b n :
  frame_size b = Some n → 2 <= n <= zlen b → one_frame (take (Z.to_nat n) b).
Proof.
  intros Hn Hle m Hm. apply (frame_size_app _ (drop (Z.to_nat n) b)) in Hm.
  rewrite take_drop in Hm. unfold zlen in *. rewrite length_take. replace m with n by congruence. lia.
Qed.

Lemma frame_size_take b n m :
  frame_size (take (Z.to_nat n) b) = Some m → frame_size b = Some m.
Proof. intros Hm%(frame_size_app _ (drop (Z.to_nat n) b)). by rewrite take_drop in Hm. Qed.

(** A complete frame is never answered with "more data needed": it is delivered, with exactly
    its bytes consumed, or refused. *)
Lemma complete_frame_decoded version b n :
  u8s b → frame_size b = Some n → 2 <= n <= zlen b →
  safe (MqttPacket_from_bytes_with_version (take (Z.to_nat n) b) version)
    (λ r, ∃ p, r = Packet p n ∧ wf_packet p ∧ MqttPacket_validate p = Ok ()).
Proof.
  intros Hb Hn Hle. eapply safe_mono.
  { apply from_bytes_safe; [by apply Forall_take|by apply take_one_frame]. }
  assert (zlen (take (Z.to_nat n) b) = n) as Hz by (unfold zlen in *; rewrite length_take; lia).
  intros [h c|p m|]; unfold decoded; rewrite ?Hz; [| |done].
  - intros (_ & Hh & [Hm%frame_size_take|[? _]]); [|lia].
    rewrite Hn in Hm. injection Hm. lia.
  - intros (Hm%frame_size_take & _ & Hwf & Hv). exists p. replace m with n by congruence. done.
Qed.

(** ** The specification is total, makes progress and looks no further than one frame *)
Lemma stream_step_spec version s :
  u8s s → safe (stream_step version s) (λ o, match o with
    | Some (p, r) => ∃ n, frame_size s = Some n ∧ 2 <= n <= zlen s ∧ r = drop (Z.to_nat n) s ∧
                          wf_packet p ∧ MqttPacket_validate p = Ok ()
    | None => ∀ n, frame_size s = Some n → zlen s < n
    end).
Proof.
  intros Hs. unfold stream_step. eapply safe_bind; [by apply packet_frame_len_spec|].
  intros [n|] Hn _; [|done]. destruct Hn as [Hn Hle].
  eapply safe_bind; [by apply complete_frame_decoded|].
  intros r (p & -> & Hwf & Hv) _. exists n. split_and!; [done|lia..|done|done|done].
Qed.

Lemma stream_step_app version s x :
  match stream_step version s with
  | Ok None => True
  | Ok (Some (p, r)) => stream_step version (s ++ x) = Ok (Some (p, r ++ x))
  | Err e => stream_step version (s ++ x) = Err e
  | Panic => True
  end.
Proof.
  unfold stream_step. pose proof (packet_frame_len_app s x) as Happ.
  destruct (packet_frame_len s) as [[n|]| |] eqn:E; rsimp; try done; rewrite Happ; rsimp; [|done].
  assert (Z.to_nat n <= length s)%nat as Hle.
  { unfold packet_frame_len in E. res_inv; [done|].
    repeat case_match; try done. simplify_eq. unfold zlen in *. lia. }
  rewrite take_app_le, drop_app_le by done.
  destruct (MqttPacket_from_bytes_with_version _ _) as [[]| |]; done.
Qed.

Lemma stream_step_u8s version s p r :
  u8s s → stream_step version s = Ok (Some (p, r)) → u8s r ∧ (length r < length s)%nat.
Proof.
  intros Hs E. pose proof (safe_Ok_inv _ _ _ (stream_step_spec version s Hs) E) as H.
  destruct H as (n & _ & Hle & -> & _). split; [by apply Forall_drop|].
  rewrite length_drop. unfold zlen in Hle. lia.
Qed.

(** ** The parser refines it *)
Lemma parser_at_intro self b off :
  u8s b → 0 <= off <= zlen b → (off = zlen b → b = []) → mp_mqtt_version self ≠ 0 →
  parser_at self (with_buffer self b off) (drop (Z.to_nat off) b).
Proof. done. Qed.

Lemma parser_at_trans p1 p2 p3 s s' : parser_at p1 p2 s → parser_at p2 p3 s' → parser_at p1 p3 s'.
Proof. unfold parser_at. intuition congruence. Qed.

Section parser.
Variable self : MqttParser.
Hypothesis Hinv : parser_inv self.

Lemma unread_buffer : MqttParser_buffer self = Ok (unread self).
Proof. destruct Hinv as (? & _). by apply index_from_drop. Qed.

Lemma unread_u8s : u8s (unread self).
Proof. destruct Hinv as (_ & _ & ? & _). by apply Forall_drop. Qed.

Lemma zlen_unread : zlen (unread self) = zlen (mp_buffer self) - mp_read_offset self.
Proof. destruct Hinv as (? & _). unfold unread, zlen in *. rewrite length_drop. lia. Qed.

Lemma parser_at_self : parser_at self self (unread self).
Proof. by split_and!. Qed.

Lemma compact_spec :
  ∃ self', MqttParser_compact self = Ok self' ∧ parser_at self self' (unread self) ∧
    mp_read_offset self' = 0.
Proof.
  unfold MqttParser_compact. destruct (mp_read_offset self =? 0) eqn:E; simpl.
  { exists self. split_and!; [done|apply parser_at_self|lia]. }
  rewrite unread_buffer. rsimp. eexists. split; [done|].
  rewrite take_app_le, take_ge by lia. split; [|done].
  apply (parser_at_intro self (unread self) 0); [apply unread_u8s|zlia| |apply Hinv].
  intros H. by apply zlen_0_nil.
Qed.

Lemma feed_spec data :
  u8s data →
  ∃ self', MqttParser_feed self data = Ok self' ∧ parser_at self self' (unread self ++ data).
Proof.
  intros Hd. unfold MqttParser_feed. rewrite unread_buffer. rsimp.
  assert (∃ p, (if negb (mp_read_offset self =? 0) && (zlen (unread self) <=? mp_read_offset self)
    then MqttParser_compact self else Ok self) = Ok p ∧ parser_at self p (unread self))
    as (p & -> & (Hp & Hl & Hb & Hv) & Hu & Hver & Hlvl).
  { destruct (_ && _); [|eauto using parser_at_self].
    destruct compact_spec as (p & ? & ? & _). eauto. }
  rsimp. eexists. split; [done|]. rewrite <- Hu. unfold unread.
  rewrite <- drop_app_le by (unfold zlen in Hp; lia).
  apply (parser_at_trans self p _ (unread p)); [by split_and!|].
  apply (parser_at_intro p); [by apply Forall_app|zlia| |done].
  intros E. rewrite zlen_app in E. zlen_pos.
  assert (zlen data = 0) as ->%zlen_0_nil by lia. rewrite app_nil_r in *. apply Hl. zlia.
Qed.

Lemma advance_spec n :
  0 <= n <= zlen (unread self) →
  ∃ self', MqttParser_advance self n = Ok self' ∧
    parser_at self self' (drop (Z.to_nat n) (unread self)).
Proof.
  intros Hn. unfold MqttParser_advance. rewrite unread_buffer. rsimp.
  replace (zlen (unread self) <? n) with false by lia. pose proof zlen_unread as Hz.
  destruct Hinv as (Hp & Hl & Hb & Hv).
  destruct (_ + _ =? _) eqn:E; eexists; (split; [done|]).
  - rewrite drop_ge by (unfold zlen in *; lia).
    apply (parser_at_intro self [] 0); [constructor|by split|done..].
  - unfold unread. rewrite drop_drop, <- Z2Nat.inj_add by lia.
    apply parser_at_intro; [done|lia..|done].
Qed.

(** The whole of [next_packet]. *)
Lemma next_packet_spec :
  match stream_step (mp_mqtt_version self) (unread self) with
  | Ok (Some (p, r)) => ∃ self', MqttParser_next_packet self = Ok (Some p, self') ∧
                                 parser_at self self' r
  | Ok None => MqttParser_next_packet self = Ok (None, self)
  | Err e => MqttParser_next_packet self = Err e
  | Panic => False
  end.
Proof.
  pose proof unread_u8s as Hu. unfold MqttParser_next_packet.
  destruct Hinv as (_ & _ & _ & Hv). apply Z.eqb_neq in Hv. rewrite Hv, unread_buffer. rsimp.
  case_bool_decide as Hnil; [by rewrite Hnil|].
  unfold stream_step. pose proof (packet_frame_len_spec (unread self) Hu) as Hs.
  destruct (packet_frame_len (unread self)) as [[n|]| |]; rsimp; try done.
  destruct Hs as [Hn Hle]. rewrite index_range_take by lia. rsimp.
  pose proof (complete_frame_decoded (mp_mqtt_version self) _ _ Hu Hn Hle) as Hd.
  destruct (MqttPacket_from_bytes_with_version _ _) as [r| |]; rsimp; try done.
  destruct Hd as (p & -> & _). destruct (advance_spec n ltac:(lia)) as (self' & -> & H).
  rsimp. eauto.
Qed.
End parser.

Lemma new_parser_at size version :
  version ≠ 0 → parser_inv (MqttParser_new size version) ∧ unread (MqttParser_new size version) = [].
Proof.
  intros Hv. split; [|done]. unfold parser_inv. simpl. split_and!; [done..|constructor|done].
Qed.

(** ** The stream reader

    [collect] runs the iterator to its first error or its end, as a [for] loop or
    [collect::<Result<_, _>>()] over it does: the packets, and the unread bytes or the error it
    stopped with ([None] when the fuel is too small).  [scan] is its specification on the bytes. *)
Fixpoint collect (fuel : nat) (self : MqttStream) : option (list MqttPacket * res bytes) :=
  match fuel with
  | O => None
  | S fuel =>
      match MqttStream_next self with
      | Ok (Some (Ok p), self) => '(ps, o) ← collect fuel self; Some (p :: ps, o)
      | Ok (Some (Err e), _) => Some ([], Err e)
      | Ok (None, self) => Some ([], Ok (unread (ms_parser self)))
      | _ => Some ([], Panic)
      end
  end.

Fixpoint scan_loop (fuel : nat) (version : Z) (s : bytes) : option (list MqttPacket * res bytes) :=
  match fuel with
  | O => None
  | S fuel =>
      match stream_step version s with
      | Ok (Some (p, r)) => '(ps, o) ← scan_loop fuel version r; Some (p :: ps, o)
      | Ok None => Some ([], Ok s)
      | Err e => Some ([], Err e)
      | Panic => Some ([], Panic)
      end
  end.

Definition scan (version : Z) (s : bytes) : option (list MqttPacket * res bytes) :=
  scan_loop (S (length s)) version s.

(** What [Read::read] delivers: between one byte and the 1024 it is offered. *)
Definition chunk_ok (c : bytes) : Prop := c ≠ [] ∧ (length c <= 1024)%nat ∧ u8s c.

Lemma read_into_app b c : (length c <= 1024)%nat → read_into b c = b ++ c.
Proof.
  intros Hc. unfold read_into. rewrite (take_ge c) by done. rewrite (take_app_le b), (take_ge b) by lia.
  rewrite app_assoc, take_app_le by (rewrite length_app; lia).
  rewrite take_ge; [done|]. rewrite length_app. lia.
Qed.

Lemma next_loop_spec chunks parser :
  parser_inv parser → Forall chunk_ok chunks →
  match stream_step (mp_mqtt_version parser) (unread parser ++ concat chunks) with
  | Ok (Some (p, r)) => ∃ parser' chunks',
      MqttStream_next_loop parser (Ok <$> chunks)
      = Ok (Some (Ok p), {| ms_parser := parser'; ms_stream := Ok <$> chunks' |}) ∧
      parser_inv parser' ∧ mp_mqtt_version parser' = mp_mqtt_version parser ∧
      Forall chunk_ok chunks' ∧ unread parser' ++ concat chunks' = r
  | Ok None => ∃ parser',
      MqttStream_next_loop parser (Ok <$> chunks)
      = Ok (None, {| ms_parser := parser'; ms_stream := [] |}) ∧
      unread parser' = unread parser ++ concat chunks
  | Err e => ∃ self', MqttStream_next_loop parser (Ok <$> chunks) = Ok (Some (Err e), self')
  | Panic => False
  end.
Proof.
  revert parser. induction chunks as [|c chunks IH]; intros parser Hinv Hch;
    (pose proof (next_packet_spec parser Hinv) as Hn;
     pose proof (stream_step_app (mp_mqtt_version parser) (unread parser)) as Happ).
  - rewrite app_nil_r. cbn [MqttStream_next_loop fmap list_fmap].
    destruct (stream_step _ (unread parser)) as [[[p r]|]| |]; [| | |done].
    + destruct Hn as (p' & -> & Hi & <- & Hv & _). exists p', []. by rewrite app_nil_r.
    + rewrite Hn. destruct (compact_spec parser Hinv) as (p' & Hc & (_ & Hu & _) & _).
      unfold MqttParser_buffer_mut. rewrite Hc. rsimp. eauto.
    + rewrite Hn. eauto.
  - apply Forall_cons_1 in Hch as [(Hne & Hl & Hu8) Hch]. specialize (Happ (concat (c :: chunks))).
    cbn [MqttStream_next_loop fmap list_fmap].
    destruct (stream_step _ (unread parser)) as [[[p r]|]| |]; [| | |done].
    + rewrite Happ. destruct Hn as (p' & -> & Hi & <- & Hv & _).
      exists p', (c :: chunks). split_and!; try done. by constructor.
    + rewrite Hn. destruct (compact_spec parser Hinv) as (p1 & Hc & (Hi & Hu & Hv & _) & H0).
      unfold MqttParser_buffer_mut. rewrite Hc. rsimp.
      set (p2 := with_buffer p1 (read_into (mp_buffer p1) c) (mp_read_offset p1)).
      assert (parser_at p1 p2 (unread parser ++ c)) as (Hi2 & Hu2 & Hv2 & _).
      { unfold p2. rewrite H0, read_into_app, <- Hu by done. unfold unread. rewrite H0.
        destruct Hi as (_ & _ & Hb & Hver).
        apply (parser_at_intro p1 (mp_buffer p1 ++ c) 0); [by apply Forall_app|zlia| |done].
        rewrite zlen_app. intros E. destruct c; [done|]. zlia. }
      specialize (IH p2 Hi2 Hch). rewrite Hu2, Hv2, Hv, <- app_assoc in IH.
      cbn [concat]. destruct c; [done|]. exact IH.
    + rewrite Happ, Hn. eauto.
Qed.

Lemma collect_scan fuel parser chunks :
  parser_inv parser → Forall chunk_ok chunks →
  (length (unread parser ++ concat chunks) < fuel)%nat →
  collect fuel {| ms_parser := parser; ms_stream := Ok <$> chunks |}
  = scan_loop fuel (mp_mqtt_version parser) (unread parser ++ concat chunks)
  ∧ is_Some (scan_loop fuel (mp_mqtt_version parser) (unread parser ++ concat chunks)).
Proof.
  revert parser chunks. induction fuel as [|fuel IH]; intros parser chunks Hi Hch Hf; [lia|].
  cbn [collect scan_loop]. unfold MqttStream_next. cbn [ms_parser ms_stream].
  pose proof (next_loop_spec chunks parser Hi Hch) as Hn.
  assert (u8s (unread parser ++ concat chunks)) as Hu.
  { apply u8s_app. split; [by apply unread_u8s|].
    apply Forall_concat. eapply Forall_impl; [exact Hch|]. by intros ? (_ & _ & ?). }
  destruct (stream_step _ _) as [[[p r]|]| |] eqn:E; [| | |done].
  - destruct Hn as (parser' & chunks' & -> & Hi' & Hv & Hch' & Hr).
    apply stream_step_u8s in E as [_ Hlt]; [|done]. rewrite <- Hr in *.
    destruct (IH parser' chunks' Hi' Hch' ltac:(lia)) as [-> Hs]. rewrite <- Hv.
    split; [done|]. destruct Hs as [[? ?] ->]. eauto.
  - destruct Hn as (parser' & -> & Hr). simpl. rewrite Hr. eauto.
  - destruct Hn as (self' & ->). eauto.
Qed.

(** ** Encoded packets *)
Definition encodes (version : Z) (p : MqttPacket) (bs : bytes) : Prop :=
  wf_packet p ∧ encodable p ∧ version_for p version = true ∧
  MqttPacket_to_bytes p = Ok bs ∧ zlen bs <= MAX_REMAINING + 5.

Lemma frame_len_of_frame byte1 body rest :
  zlen (frame byte1 body) <= MAX_REMAINING + 5 →
  packet_frame_len (frame byte1 body ++ rest) = Ok (Some (zlen (frame byte1 body))).
Proof.
  intros Hl. assert (zlen body <= MAX_REMAINING) as Hb.
  { rewrite zlen_frame in Hl. pose proof (zlen_vbi_encode_pos (zlen body)).
    apply (frame_of_header byte1 body). unfold as_u32.
    rewrite Z.mod_small; [done|]. unfold MAX_REMAINING in *. zlia. }
  unfold packet_frame_len. run_header. repeat run_if. done.
Qed.

Lemma stream_step_encoded version p bs rest :
  encodes version p bs → stream_step version (bs ++ rest) = Ok (Some (wire_form p, rest)).
Proof.
  intros (Hwf & Henc & Hver & Hbs & Hl). unfold stream_step.
  assert (packet_frame_len (bs ++ rest) = Ok (Some (zlen bs))) as ->.
  { destruct (packet_roundtrip_frame p bs Hwf Henc Hbs Hl) as (byte1 & body & -> & _).
    by apply frame_len_of_frame. }
  rsimp. unfold zlen at 1 2. rewrite Nat2Z.id, take_app_length, drop_app_length.
  pose proof (packet_roundtrip p bs [] version Hwf Henc Hver Hbs Hl) as H.
  rewrite app_nil_r in H. by rewrite H.
Qed.

Lemma scan_encoded version ps bss fuel :
  Forall2 (encodes version) ps bss → (length bss < fuel)%nat →
  scan_loop fuel version (concat bss) = Some (wire_form <$> ps, Ok []).
Proof.
  intros H. revert fuel. induction H as [|p bs ps bss Hp _ IH]; intros [|fuel] Hf; simpl in Hf; try lia.
  - done.
  - cbn [scan_loop concat]. rewrite (stream_step_encoded version p bs) by done.
    rewrite IH by lia. done.
Qed.

Lemma encodes_length version ps bss :
  Forall2 (encodes version) ps bss → (length bss <= length (concat bss))%nat.
Proof.
  induction 1 as [|p bs ps bss (Hwf & Henc & _ & Hbs & Hl) _ IH]; [done|].
  destruct (packet_roundtrip_frame p bs Hwf Henc Hbs Hl) as (byte1 & body & -> & _).
  cbn [concat length]. rewrite length_app. unfold frame. cbn [length]. lia.
Qed.

(** ** Theorems *)

(** The stream parser refines [stream_step].  Feeding bytes to a parser never panics and
    appends them to what was unread; whatever the buffer, the read offset and the compactions
    before it, the next [next_packet] answers as the function [stream_step] of those bytes
    does, the unread bytes, the version and the parse level being all it depends on and all
    it changes. *)
Theorem parser_refines_stream_step self data :
  parser_inv self → u8s data →
  ∃ self', MqttParser_feed self data = Ok self' ∧ parser_at self self' (unread self ++ data) ∧
  match stream_step (mp_mqtt_version self) (unread self ++ data) with
  | Ok (Some (p, r)) => ∃ self'', MqttParser_next_packet self' = Ok (Some p, self'') ∧
                                  parser_at self self'' r
  | Ok None => MqttParser_next_packet self' = Ok (None, self')
  | Err e => MqttParser_next_packet self' = Err e
  | Panic => False
  end.
Proof.
  intros Hinv Hd. destruct (feed_spec self Hinv data Hd) as (p & Hf & Hp).
  exists p. split; [done|]. split; [done|].
  pose proof (next_packet_spec p ltac:(apply Hp)) as Hn. destruct Hp as (Hi & Hu & Hv & Hl).
  rewrite Hv, Hu in Hn. destruct (stream_step _ _) as [[[q r]|]| |]; try done.
  destruct Hn as (p' & ? & Hp'). exists p'. split; [done|].
  by apply (parser_at_trans self p p' (unread self ++ data)).
Qed.

(** A consumed packet and half of the next in front of the fed bytes. *)
Definition sample_parser : MqttParser :=
  {| mp_buffer := [192; 0; 208]; mp_read_offset := 2; mp_mqtt_version := 5; mp_parse_level := Full |}.

Lemma sample_parser_inv : parser_inv sample_parser.
Proof. unfold parser_inv. simpl. split_and!; [done..|u8s_lit|done]. Qed.

Lemma parser_refines_stream_step_witness :
  ∃ self', MqttParser_feed sample_parser [0; 192] = Ok self' ∧
    MqttParser_next_packet self' = Ok (Some PingResp5, with_buffer self' [208; 0; 192] 2).
Proof.
  destruct (parser_refines_stream_step sample_parser [0; 192] sample_parser_inv ltac:(u8s_lit))
    as (self' & H & _).
  exists self'. split; [exact H|]. vm_compute in H. apply Ok_inj in H. subst self'. reflexivity.
Defined.

(** The parser makes progress.  On any bytes [next_packet] returns: it says "more data"
    only while the frame the fixed header announces is incomplete; a complete frame is either
    delivered as a well-typed, validated packet with exactly its bytes consumed, or refused
    with an error. *)
Theorem next_packet_progress self :
  parser_inv self →
  match MqttParser_next_packet self with
  | Ok (None, self') =>
      self' = self ∧ ∀ n, frame_size (unread self) = Some n → zlen (unread self) < n
  | Ok (Some p, self') =>
      wf_packet p ∧ MqttPacket_validate p = Ok () ∧ parser_inv self' ∧
      ∃ n, frame_size (unread self) = Some n ∧ 2 <= n <= zlen (unread self) ∧
           unread self' = drop (Z.to_nat n) (unread self)
  | Err _ => True
  | Panic => False
  end.
Proof.
  intros Hinv. pose proof (next_packet_spec self Hinv) as Hn.
  pose proof (stream_step_spec (mp_mqtt_version self) _ (unread_u8s self Hinv)) as Hs.
  destruct (stream_step _ _) as [[[p r]|]| |]; simpl in Hs; [| | |done].
  - destruct Hn as (self' & -> & Hi & Hu & _). destruct Hs as (n & Hn & Hle & -> & Hwf & Hv).
    split_and!; try done; eauto.
  - rewrite Hn. done.
  - by rewrite Hn.
Qed.

Lemma next_packet_progress_witness :
  match MqttParser_next_packet sample_parser with Panic => False | _ => True end.
Proof.
  pose proof (next_packet_progress sample_parser sample_parser_inv) as H.
  destruct (MqttParser_next_packet sample_parser); [exact I|exact I|exact H].
Defined.

(** C34: reading is independent of fragmentation.  A stream reader over any cutting of the byte
    stream into reads runs to its end or its first error without panicking, and its packets,
    its error and the bytes it is left with are a function of the concatenated bytes alone;
    as many steps as there are bytes, and one, are enough. *)
Theorem stream_fragmentation version buffer_size chunks :
  version ≠ 0 → Forall chunk_ok chunks →
  let s := concat chunks in
  collect (S (length s)) (MqttStream_new (Ok <$> chunks) buffer_size version) = scan version s ∧
  is_Some (scan version s).
Proof.
  intros Hv Hch s. destruct (new_parser_at buffer_size version Hv) as [Hi Hu].
  pose proof (collect_scan (S (length s)) _ chunks Hi Hch) as H.
  rewrite Hu in H. apply H. apply Nat.lt_succ_diag_r.
Qed.

Lemma stream_fragmentation_witness :
  collect 8 (MqttStream_new [Ok [192]; Ok [0; 208]; Ok [0; 192; 0; 64]] 16384 5)
  = scan 5 [192; 0; 208; 0; 192; 0; 64].
Proof.
  apply (stream_fragmentation 5 16384 [[192]; [0; 208]; [0; 192; 0; 64]]); [done|].
  repeat constructor; unfold is_u8; try done; simpl; lia.
Defined.

(** C16: delivery.  However the transport cuts a sequence of encoded packets into reads, the
    stream reader delivers exactly those packets, in order (up to [wire_form]), and ends with
    no byte left over. *)
Theorem stream_delivery version buffer_size ps bss chunks :
  version ≠ 0 → Forall chunk_ok chunks →
  Forall2 (encodes version) ps bss → concat chunks = concat bss →
  collect (S (length (concat chunks))) (MqttStream_new (Ok <$> chunks) buffer_size version)
  = Some (wire_form <$> ps, Ok []).
Proof.
  intros Hv Hch Henc Hc. destruct (new_parser_at buffer_size version Hv) as [Hi Hu].
  pose proof (collect_scan (S (length (concat chunks))) _ chunks Hi Hch) as H.
  rewrite Hu in H. unfold MqttStream_new. destruct H as [-> _]; [apply Nat.lt_succ_diag_r|].
  cbn [app]. rewrite Hc. apply scan_encoded; [done|].
  apply encodes_length in Henc. lia.
Qed.

Lemma stream_delivery_witness :
  collect 25 (MqttStream_new [Ok (take 7 sample_publish_bytes); Ok (drop 7 sample_publish_bytes ++ [192]);
    Ok [0]] 16384 5) = Some ([sample_publish; PingReq5], Ok []).
Proof.
  apply (stream_delivery 5 16384 [sample_publish; PingReq5] [sample_publish_bytes; [192; 0]]
    [take 7 sample_publish_bytes; drop 7 sample_publish_bytes ++ [192]; [0]]); [done| | |reflexivity].
  - repeat constructor; unfold is_u8; try done; simpl; lia.
  - constructor; [|constructor; [|constructor]]; unfold encodes; split_and!;
      try exact sample_publish_wf; try exact I; try reflexivity; vm_compute; discriminate.
Defined.
