(* ===== verification/Leveled.v ===== *)
(** * Leveled parsing

    Models [src/mqtt_serde/parser/leveled.rs] (the four parse depths and the per-packet header
    parsers), [into_range] of [src/mqtt_serde/payload.rs] (owned payloads, the default) and
    [MqttParser::next_parsed] of [src/mqtt_serde/parser/stream.rs].  The levels are proved to
    cut the stream into the same frames and to answer with projections of the same packet. *)
From S2P Require Import Prelude BaseData TopicFilter Validation Properties Packets Framing.
From S2P Require Import AckCodec ControlCodec PublishCodec SubscribeCodec ConnectCodec Codec.
From S2P Require Import Stream.

(** ** The results *)
Record TypeOnlyPacket : Type := { to_packet_type : ControlPacketType; to_flags : Z }.

Record RawBodyPacket : Type := {
  rb_packet_type : ControlPacketType;
  rb_flags : Z;
  rb_remaining : bytes;
}.

Inductive VariableHeader : Type :=
  | VhConnectV5 (protocol_name : bytes) (protocol_version : Z) (clean_start : bool)
      (keep_alive connect_flags : Z) (properties : list Property)
  | VhConnAckV5 (session_present : bool) (reason_code : Z) (properties : option (list Property))
  | VhPublishV5 (topic_name : bytes) (qos : Z) (dup retain : bool) (packet_id : option Z)
      (properties : list Property)
  | VhPubAckV5 (packet_id reason_code : Z) (properties : list Property)
  | VhPubRecV5 (packet_id reason_code : Z) (properties : list Property)
  | VhPubRelV5 (packet_id reason_code : Z) (properties : list Property)
  | VhPubCompV5 (packet_id reason_code : Z) (properties : list Property)
  | VhSubscribeV5 (packet_id : Z) (properties : list Property)
  | VhSubAckV5 (packet_id : Z) (properties : list Property)
  | VhUnsubscribeV5 (packet_id : Z) (properties : list Property)
  | VhUnsubAckV5 (packet_id : Z) (properties : list Property)
  | VhDisconnectV5 (reason_code : Z) (properties : list Property)
  | VhAuthV5 (reason_code : Z) (properties : list Property)
  | VhConnectV3 (protocol_name : bytes) (protocol_version : Z) (clean_session : bool)
      (keep_alive connect_flags : Z)
  | VhConnAckV3 (session_present : bool) (return_code : Z)
  | VhPublishV3 (topic_name : bytes) (qos : Z) (dup retain : bool) (message_id : option Z)
  | VhPacketIdOnlyV3 (message_id : Z)
  | VhEmpty.

Record HeadersParsedPacket : Type := {
  hp_packet_type : ControlPacketType;
  hp_flags : Z;
  hp_mqtt_version : Z;
  hp_variable_header : VariableHeader;
  hp_raw_payload : bytes;
}.

Inductive ParsedPacket : Type :=
  | ParsedFull (pkt : MqttPacket)
  | ParsedHeaders (pkt : HeadersParsedPacket)
  | ParsedRawBody (pkt : RawBodyPacket)
  | ParsedTypeOnly (pkt : TypeOnlyPacket).

Definition ParsedPacket_packet_type (self : ParsedPacket) : ControlPacketType :=
  match self with
  | ParsedFull pkt => MqttPacket_packet_type pkt
  | ParsedHeaders p => hp_packet_type p
  | ParsedRawBody p => rb_packet_type p
  | ParsedTypeOnly p => to_packet_type p
  end.

Definition ParsedPacket_as_packet (self : ParsedPacket) : option MqttPacket :=
  match self with ParsedFull pkt => Some pkt | _ => None end.

Definition ParsedPacket_into_packet (self : ParsedPacket) : res MqttPacket :=
  match self with ParsedFull pkt => Ok pkt | _ => Panic end.

Inductive LeveledParseOk : Type :=
  | LContinue (hint consumed : Z)
  | LPacket (pkt : ParsedPacket) (consumed : Z).

(** ** [into_range]: [truncate] to the end, [drain] the front ([drain] panics out of range) *)
Definition into_range (payload : bytes) (lo hi : Z) : res bytes :=
  index_from (take (Z.to_nat hi) payload) lo.

(** ** Level 3 *)
Definition parse_type_only (buffer : bytes) : res LeveledParseOk :=
  if bool_decide (buffer = []) then Err BufferEmpty else
  b0 ← index_at buffer 0;
  '(pkt_type, flags) ← ControlPacketType_from_first_byte b0;
  if zlen buffer <? 2 then Ok (LContinue 1 0) else
  tail ← index_from buffer 1;
  match parse_remaining_length tail with
  | Ok (remaining_len, vbi_bytes) =>
      let total_len := 1 + vbi_bytes + remaining_len in
      if zlen buffer <? total_len then Ok (LContinue (total_len - zlen buffer) 0) else
      Ok (LPacket (ParsedTypeOnly {| to_packet_type := pkt_type; to_flags := flags |}) total_len)
  | Err (More n _) => Ok (LContinue n 0)
  | Err e => Err e
  | Panic => Panic
  end.

(** ** Level 2 *)
Definition parse_raw_body (buffer : bytes) : res LeveledParseOk :=
  if bool_decide (buffer = []) then Err BufferEmpty else
  b0 ← index_at buffer 0;
  '(pkt_type, flags) ← ControlPacketType_from_first_byte b0;
  if zlen buffer <? 2 then Ok (LContinue 1 0) else
  tail ← index_from buffer 1;
  match parse_remaining_length tail with
  | Ok (remaining_len, vbi_bytes) =>
      let remaining_start := 1 + vbi_bytes in
      let total_len := remaining_start + remaining_len in
      if zlen buffer <? total_len then Ok (LContinue (total_len - zlen buffer) 0) else
      remaining ← into_range buffer remaining_start total_len;
      Ok (LPacket (ParsedRawBody {| rb_packet_type := pkt_type; rb_flags := flags;
                                    rb_remaining := remaining |}) total_len)
  | Err (More n _) => Ok (LContinue n 0)
  | Err e => Err e
  | Panic => Panic
  end.

(** ** Level 1: the header parsers of the packets *)
Definition parse_packet_id_raw (buffer : bytes) : res (Z * Z) :=
  if zlen buffer <? 2 then Err BufferTooShort else
  b0 ← index_at buffer 0;
  b1 ← index_at buffer 1;
  Ok (u16_from_be_bytes [b0; b1], 2).

(** [body.get(offset..).ok_or(ParseError::BufferTooShort)?] *)
Definition get_from_or (body : bytes) (offset : Z) : res bytes :=
  ok_or (get_from body offset) BufferTooShort.

Definition parse_publish_header_v5 (flags : Z) (body : bytes) : res (VariableHeader * Z) :=
  let offset := 0 in
  let dup := negb (Z.land flags 8 =? 0) in
  let qos := Z.shiftr (Z.land flags 6) 1 in
  let retain := negb (Z.land flags 1 =? 0) in
  b ← get_from_or body offset;
  '(topic_name, consumed) ← parse_utf8_string b;
  let offset := offset + consumed in
  '(packet_id, offset) ← (if 0 <? qos then
      b ← index_from body offset;
      '(id, consumed) ← parse_packet_id_raw b;
      Ok (Some id, offset + consumed)
    else Ok (None, offset));
  b ← get_from_or body offset;
  '(properties, consumed) ← parse_properties_hdr b;
  Ok (VhPublishV5 topic_name qos dup retain packet_id properties, offset + consumed).

(** Protocol name, version, flags and keep-alive: what both CONNECT parsers read first. *)
Definition parse_connect_start (body : bytes) : res ((bytes * Z) * (Z * Z) * Z) :=
  let offset := 0 in
  '(protocol_name, consumed) ← parse_utf8_string body;
  let offset := offset + consumed in
  protocol_version ← ok_or (get_at body offset) BufferTooShort;
  let offset := offset + 1 in
  connect_flags ← ok_or (get_at body offset) BufferTooShort;
  let offset := offset + 1 in
  if zlen body <? offset + 2 then Err BufferTooShort else
  b0 ← index_at body offset;
  b1 ← index_at body (offset + 1);
  Ok ((protocol_name, protocol_version), (connect_flags, u16_from_be_bytes [b0; b1]), offset + 2).

Definition parse_connect_header_v5 (body : bytes) : res (VariableHeader * Z) :=
  '(name, (connect_flags, keep_alive), offset) ← parse_connect_start body;
  b ← get_from_or body offset;
  '(properties, consumed) ← parse_properties_hdr b;
  Ok (VhConnectV5 name.1 name.2 (negb (Z.land connect_flags 2 =? 0)) keep_alive
        connect_flags properties, offset + consumed).

Definition parse_connack_header_v5 (body : bytes) : res (VariableHeader * Z) :=
  if zlen body <? 2 then Err BufferTooShort else
  b0 ← index_at body 0;
  let session_present := negb (Z.land b0 1 =? 0) in
  reason_code ← index_at body 1;
  let offset := 2 in
  b ← get_from_or body offset;
  '(props, consumed) ← parse_properties_hdr b;
  let properties := if bool_decide (props = []) then None else Some props in
  Ok (VhConnAckV5 session_present reason_code properties, offset + consumed).

(** The four packets with an identifier and properties have the same body in the source. *)
Definition parse_id_props_v5 (vhdr : Z → list Property → VariableHeader) (body : bytes)
    : res (VariableHeader * Z) :=
  let offset := 0 in
  '(packet_id, consumed) ← parse_packet_id_raw body;
  let offset := offset + consumed in
  b ← get_from_or body offset;
  '(properties, consumed) ← parse_properties_hdr b;
  Ok (vhdr packet_id properties, offset + consumed).

Definition parse_subscribe_header_v5 := parse_id_props_v5 VhSubscribeV5.
Definition parse_suback_header_v5 := parse_id_props_v5 VhSubAckV5.
Definition parse_unsubscribe_header_v5 := parse_id_props_v5 VhUnsubscribeV5.
Definition parse_unsuback_header_v5 := parse_id_props_v5 VhUnsubAckV5.

Inductive VhdrV5Kind : Type := KPubAck | KPubRec | KPubRel | KPubComp.

Definition parse_ack_with_props_v5 (body : bytes) (kind : VhdrV5Kind) : res (VariableHeader * Z) :=
  let offset := 0 in
  '(packet_id, consumed) ← parse_packet_id_raw body;
  let offset := offset + consumed in
  '(reason_code, properties, offset) ← (if offset <? zlen body then
      rc ← index_at body offset;
      let offset := offset + 1 in
      if offset <? zlen body then
        b ← index_from body offset;
        '(props, consumed) ← parse_properties_hdr b;
        Ok (rc, props, offset + consumed)
      else Ok (rc, [], offset)
    else Ok (0, [], offset));
  let vhdr :=
    match kind with
    | KPubAck => VhPubAckV5 packet_id reason_code properties
    | KPubRec => VhPubRecV5 packet_id reason_code properties
    | KPubRel => VhPubRelV5 packet_id reason_code properties
    | KPubComp => VhPubCompV5 packet_id reason_code properties
    end in
  Ok (vhdr, offset).

(** DISCONNECT and AUTH: the same body in the source. *)
Definition parse_reason_props_v5 (vhdr : Z → list Property → VariableHeader) (body : bytes)
    (remaining_len : Z) : res (VariableHeader * Z) :=
  if remaining_len =? 0 then Ok (vhdr 0 [], 0) else
  reason_code ← index_at body 0;
  let offset := 1 in
  '(properties, offset) ← (if offset <? zlen body then
      b ← index_from body offset;
      '(props, consumed) ← parse_properties_hdr b;
      Ok (props, offset + consumed)
    else Ok ([], offset));
  Ok (vhdr reason_code properties, offset).

Definition parse_disconnect_header_v5 := parse_reason_props_v5 VhDisconnectV5.
Definition parse_auth_header_v5 := parse_reason_props_v5 VhAuthV5.

Definition parse_publish_header_v3 (flags : Z) (body : bytes) : res (VariableHeader * Z) :=
  let offset := 0 in
  let dup := negb (Z.land flags 8 =? 0) in
  let qos := Z.shiftr (Z.land flags 6) 1 in
  let retain := negb (Z.land flags 1 =? 0) in
  '(topic_name, consumed) ← parse_utf8_string body;
  let offset := offset + consumed in
  '(message_id, offset) ← (if 0 <? qos then
      b ← index_from body offset;
      '(id, consumed) ← parse_packet_id_raw b;
      Ok (Some id, offset + consumed)
    else Ok (None, offset));
  Ok (VhPublishV3 topic_name qos dup retain message_id, offset).

Definition parse_connect_header_v3 (body : bytes) : res (VariableHeader * Z) :=
  '(name, (connect_flags, keep_alive), offset) ← parse_connect_start body;
  Ok (VhConnectV3 name.1 name.2 (negb (Z.land connect_flags 2 =? 0)) keep_alive connect_flags,
      offset).

Definition parse_connack_header_v3 (body : bytes) : res (VariableHeader * Z) :=
  if zlen body <? 2 then Err BufferTooShort else
  b0 ← index_at body 0;
  let session_present := negb (Z.land b0 1 =? 0) in
  return_code ← index_at body 1;
  Ok (VhConnAckV3 session_present return_code, 2).

Definition parse_id_only_v3 (body : bytes) : res (VariableHeader * Z) :=
  '(id, consumed) ← parse_packet_id_raw body;
  Ok (VhPacketIdOnlyV3 id, consumed).

(** The [match pkt_type] of the two level-1 parsers. *)
Definition headers_v5 (pkt_type : ControlPacketType) (flags : Z) (packet_body : bytes)
    (remaining_len : Z) : res (VariableHeader * Z) :=
  match pkt_type with
  | PUBLISH => parse_publish_header_v5 flags packet_body
  | CONNECT => parse_connect_header_v5 packet_body
  | CONNACK => parse_connack_header_v5 packet_body
  | SUBSCRIBE => parse_subscribe_header_v5 packet_body
  | SUBACK => parse_suback_header_v5 packet_body
  | UNSUBSCRIBE => parse_unsubscribe_header_v5 packet_body
  | UNSUBACK => parse_unsuback_header_v5 packet_body
  | PUBACK => parse_ack_with_props_v5 packet_body KPubAck
  | PUBREC => parse_ack_with_props_v5 packet_body KPubRec
  | PUBREL => parse_ack_with_props_v5 packet_body KPubRel
  | PUBCOMP => parse_ack_with_props_v5 packet_body KPubComp
  | DISCONNECT => parse_disconnect_header_v5 packet_body remaining_len
  | AUTH => parse_auth_header_v5 packet_body remaining_len
  | PINGREQ | PINGRESP => Ok (VhEmpty, 0)
  end.

Definition headers_v3 (pkt_type : ControlPacketType) (flags : Z) (packet_body : bytes)
    (remaining_len : Z) : res (VariableHeader * Z) :=
  match pkt_type with
  | PUBLISH => parse_publish_header_v3 flags packet_body
  | CONNECT => parse_connect_header_v3 packet_body
  | CONNACK => parse_connack_header_v3 packet_body
  | PUBACK | PUBREC | PUBREL | PUBCOMP | UNSUBACK => parse_id_only_v3 packet_body
  | SUBSCRIBE | SUBACK | UNSUBSCRIBE => parse_id_only_v3 packet_body
  | PINGREQ | PINGRESP | DISCONNECT => Ok (VhEmpty, 0)
  | AUTH => Err (ParseErr "AUTH packet is not supported in MQTT v3")
  end.

(** [parse_headers_only_v5] and [parse_headers_only_v3] differ in that match and in the version
    they report. *)
Definition parse_headers_only_with
    (headers : ControlPacketType → Z → bytes → Z → res (VariableHeader * Z)) (version : Z)
    (buffer : bytes) : res LeveledParseOk :=
  if bool_decide (buffer = []) then Err BufferEmpty else
  b0 ← index_at buffer 0;
  '(pkt_type, flags) ← ControlPacketType_from_first_byte b0;
  if zlen buffer <? 2 then Ok (LContinue 1 0) else
  tail ← index_from buffer 1;
  match parse_remaining_length tail with
  | Ok (remaining_len, vbi_bytes) =>
      let fixed_hdr_len := 1 + vbi_bytes in
      let total_len := fixed_hdr_len + remaining_len in
      if zlen buffer <? total_len then Ok (LContinue (total_len - zlen buffer) 0) else
      packet_body ← index_range buffer fixed_hdr_len total_len;
      '(variable_header, vhdr_consumed) ← headers pkt_type flags packet_body remaining_len;
      raw_payload ← into_range buffer (fixed_hdr_len + vhdr_consumed) total_len;
      Ok (LPacket (ParsedHeaders {| hp_packet_type := pkt_type; hp_flags := flags;
                                    hp_mqtt_version := version;
                                    hp_variable_header := variable_header;
                                    hp_raw_payload := raw_payload |}) total_len)
  | Err (More n _) => Ok (LContinue n 0)
  | Err e => Err e
  | Panic => Panic
  end.

Definition parse_headers_only_v5 : bytes → res LeveledParseOk :=
  parse_headers_only_with headers_v5 5.
Definition parse_headers_only_v3 : bytes → res LeveledParseOk :=
  parse_headers_only_with headers_v3 4.

Definition parse_headers_only (buffer : bytes) (mqtt_version : Z) : res LeveledParseOk :=
  match mqtt_version with
  | 3 | 4 => parse_headers_only_v3 buffer
  | 5 => parse_headers_only_v5 buffer
  | _ => Err InvalidPacketType
  end.

(** ** [next_parsed]: the answer, and the parser after it, also after an error *)
(** The two levels that take the frame out of the buffer before they parse it. *)
Definition next_framed (self : MqttParser) (buffer : bytes) (parse : bytes → res LeveledParseOk)
    : res (option ParsedPacket) * MqttParser :=
  match packet_frame_len buffer with
  | Ok (Some total_len) =>
      match MqttParser_take_frame self total_len with
      | Ok (packet_bytes, self) =>
          match parse packet_bytes with
          | Ok (LPacket pkt _) => (Ok (Some pkt), self)
          | Err e => (Err e, self)
          | _ => (Panic, self)
          end
      | Err e => (Err e, self)
      | Panic => (Panic, self)
      end
  | Ok None => (Ok None, self)
  | Err e => (Err e, self)
  | Panic => (Panic, self)
  end.

Definition MqttParser_next_parsed (self : MqttParser) : res (option ParsedPacket) * MqttParser :=
  match MqttParser_buffer self with
  | Ok buffer =>
      if bool_decide (buffer = []) then (Ok None, self) else
      match mp_parse_level self with
      | Full =>
          match MqttParser_next_packet self with
          | Ok (packet, self) => (Ok (ParsedFull <$> packet), self)
          | Err e => (Err e, self)
          | Panic => (Panic, self)
          end
      | TypeOnly =>
          match parse_type_only buffer with
          | Ok (LPacket pkt consumed) =>
              match MqttParser_advance self consumed with
              | Ok self => (Ok (Some pkt), self)
              | Err e => (Err e, self)
              | Panic => (Panic, self)
              end
          | Ok (LContinue _ _) => (Ok None, self)
          | Err e => (Err e, self)
          | Panic => (Panic, self)
          end
      | RawBody => next_framed self buffer parse_raw_body
      | HeadersParsed =>
          if mp_mqtt_version self =? 0 then (Panic, self) else
          next_framed self buffer (λ b, parse_headers_only b (mp_mqtt_version self))
      end
  | Err e => (Err e, self)
  | Panic => (Panic, self)
  end.

#[export] Instance ParseLevel_eq_dec : EqDecision ParseLevel.
Proof. solve_decision. Defined.

(** ** The specification

    What a level answers on the unread bytes, and the bytes it leaves: the parsers on one frame,
    the frame taken off, also when the frame is refused by the two levels that take it first. *)
Definition leveled_parse (level : ParseLevel) (version : Z) (s : bytes) : res LeveledParseOk :=
  match level with
  | Full =>
      r ← MqttPacket_from_bytes_with_version s version;
      match r with
      | Packet p n => Ok (LPacket (ParsedFull p) n)
      | Continue h c => Ok (LContinue h c)
      | TopicName _ _ => Err (ParseErr "Unexpected ParseOk variant")
      end
  | HeadersParsed => parse_headers_only s version
  | RawBody => parse_raw_body s
  | TypeOnly => parse_type_only s
  end.

Definition drops_bad_frames (level : ParseLevel) : bool :=
  match level with Full | TypeOnly => false | HeadersParsed | RawBody => true end.

(** The first byte of a frame. *)
Definition kind_and_flags (s : bytes) : res (ControlPacketType * Z) :=
  b0 ← index_at s 0; ControlPacketType_from_first_byte b0.

(** ** Safety of the header parsers *)
Lemma safe_parse_packet_id_raw b :
  u8s b → safe (parse_packet_id_raw b) (λ r, r.2 = 2 ∧ 2 <= zlen b ∧ is_u16 r.1).
Proof.
  intros Hb. unfold parse_packet_id_raw. safe_auto. simpl. split_and!; [done|lia|].
  by apply u16_from_two_u8.
Qed.

Lemma safe_get_from_or b off :
  u8s b → safe (get_from_or b off) (λ s, zlen s = zlen b - off ∧ 0 <= off <= zlen b ∧ u8s s).
Proof. apply safe_get_from. Qed.

Lemma safe_parse_connect_start b :
  u8s b → safe (parse_connect_start b) (λ r, 0 <= r.2 <= zlen b).
Proof. intros Hb. unfold parse_connect_start. safe_auto. simpl in *. lia. Qed.

#[export] Hint Resolve safe_parse_packet_id_raw safe_get_from_or safe_parse_connect_start : safe.

(** A header parser that neither panics nor reads past the body. *)
Definition header_safe (body : bytes) (r : res (VariableHeader * Z)) : Prop :=
  safe r (λ v, 0 <= v.2 <= zlen body).

Ltac header_safe := unfold header_safe; zlen_pos; safe_auto; simpl in *; zlen_pos; try lia.

Lemma id_props_header_safe vhdr body : u8s body → header_safe body (parse_id_props_v5 vhdr body).
Proof. intros Hb. unfold parse_id_props_v5. header_safe. Qed.

Lemma ack_header_safe body kind : u8s body → header_safe body (parse_ack_with_props_v5 body kind).
Proof. intros Hb. unfold parse_ack_with_props_v5. header_safe. Qed.

Lemma reason_props_header_safe vhdr body :
  u8s body → header_safe body (parse_reason_props_v5 vhdr body (zlen body)).
Proof. intros Hb. unfold parse_reason_props_v5. pose proof (zlen_nonneg body). header_safe. Qed.

Lemma headers_v5_safe kind flags body :
  u8s body → header_safe body (headers_v5 kind flags body (zlen body)).
Proof.
  intros Hb. destruct kind; cbn [headers_v5];
    try (by apply id_props_header_safe); try (by apply ack_header_safe);
    try (by apply reason_props_header_safe).
  - unfold parse_connect_header_v5. header_safe.
  - unfold parse_connack_header_v5. header_safe.
  - unfold parse_publish_header_v5. header_safe.
  - header_safe.
  - header_safe.
Qed.

Lemma headers_v3_safe kind flags body :
  u8s body → header_safe body (headers_v3 kind flags body (zlen body)).
Proof.
  intros Hb. destruct kind; cbn [headers_v3];
    try (unfold parse_id_only_v3; by header_safe).
  - unfold parse_connect_header_v3. header_safe.
  - unfold parse_connack_header_v3. header_safe.
  - unfold parse_publish_header_v3. header_safe.
Qed.

(** ** A frame cut out of a buffer has the same fixed header *)
Lemma vbi_loop_progress s i m v r j :
  VariableByteInteger_decode_loop s i m v = Ok (r, j) → i < j.
Proof.
  revert i m v. induction s as [|b s IH]; intros i m v H; [done|].
  cbn [VariableByteInteger_decode_loop] in H.
  destruct (_ && _); [done|]. destruct (_ <? _); [done|]. destruct (_ =? _).
  - res_inv. lia.
  - apply IH in H. lia.
Qed.

Lemma vbi_loop_more x y i m v n c r j :
  VariableByteInteger_decode_loop x i m v = Err (More n c) →
  VariableByteInteger_decode_loop (x ++ y) i m v = Ok (r, j) → zlen x < j - i.
Proof.
  revert i m v. induction x as [|b x IH]; intros i m v Hx H.
  - apply vbi_loop_progress in H. change (zlen []) with 0. lia.
  - cbn [app VariableByteInteger_decode_loop] in Hx, H. rewrite zlen_cons.
    destruct (_ && _); [done|]. destruct (_ <? _); [done|]. destruct (_ =? _); [done|].
    specialize (IH _ _ _ Hx H). lia.
Qed.

Lemma parse_remaining_length_more x y n c size vl :
  parse_remaining_length x = Err (More n c) → parse_remaining_length (x ++ y) = Ok (size, vl) →
  zlen x < vl.
Proof.
  unfold parse_remaining_length, vbi, VariableByteInteger_decode.
  case_bool_decide as Hx; [done|].
  rewrite bool_decide_eq_false_2 by (by destruct x).
  destruct (VariableByteInteger_decode_loop x 0 1 0) as [[v i]|e|] eqn:E; rsimp; [|intros [= ->]|done].
  { destruct (1 <? i); rsimp; [|done].
    destruct (index_at x (i - 1)) eqn:Ei; rsimp; [by destruct (_ =? 0)|exfalso|done].
    unfold index_at in Ei. by destruct (get_at x (i - 1)). }
  intros H. apply bind_Ok_inv in H as ([? ?] & H & ?).
  apply bind_Ok_inv in H as ([v j] & H & H'). apply bind_Ok_inv in H' as (l & _ & H').
  res_inv. pose proof (vbi_loop_more _ _ _ _ _ _ _ _ _ E H). lia.
Qed.

Lemma packet_frame_len_Some s n :
  packet_frame_len s = Ok (Some n) → 2 <= zlen s ∧ n <= zlen s ∧
  ∃ size vl, n = 1 + vl + size ∧ parse_remaining_length (drop 1 s) = Ok (size, vl).
Proof.
  unfold packet_frame_len. destruct (zlen s <? 2) eqn:?; [done|].
  rewrite index_from_drop by lia. rsimp. change (Z.to_nat 1) with 1%nat.
  destruct (parse_remaining_length (drop 1 s)) as [[size vl]|[]|]; try done.
  destruct (zlen s <? 1 + vl + size) eqn:?; [done|]. intros H. res_inv. simplify_eq.
  split_and!; [lia..|]. eauto.
Qed.

Lemma packet_frame_len_take s n :
  u8s s → packet_frame_len s = Ok (Some n) →
  packet_frame_len (take (Z.to_nat n) s) = Ok (Some n).
Proof.
  intros Hu H. pose proof (packet_frame_len_app (take (Z.to_nat n) s) (drop (Z.to_nat n) s)) as Happ.
  rewrite take_drop, H in Happ.
  destruct (packet_frame_len_Some _ _ H) as (H2 & Hle & size & vl & -> & Hp).
  pose proof (safe_Ok_inv _ _ _ (safe_parse_remaining_length _ (Forall_drop _ 1 _ Hu)) Hp)
    as (Hs & Hvl & _). cbn [fst snd] in *.
  set (f := take _ s) in *.
  assert (zlen f = 1 + vl + size) as Hf by (unfold f; rewrite zlen_take; lia).
  destruct (packet_frame_len f) as [[m|]|e|] eqn:E; try done. exfalso.
  unfold packet_frame_len in E. replace (zlen f <? 2) with false in E by lia.
  rewrite index_from_drop in E by lia. cbn [mbind result_bind] in E.
  change (Z.to_nat 1) with 1%nat in E.
  assert (drop 1 s = drop 1 f ++ drop (Z.to_nat (1 + vl + size)) s) as Hsf.
  { rewrite <- drop_1_app by lia. unfold f. by rewrite take_drop. }
  assert (zlen (drop 1 f) = vl + size) as Hd by (unfold zlen in *; rewrite length_drop; lia).
  rewrite Hsf in Hp. pose proof (parse_remaining_length_app (drop 1 f)
    (drop (Z.to_nat (1 + vl + size)) s)) as Hr.
  destruct (parse_remaining_length (drop 1 f)) as [[z l]|[]|] eqn:Ef; try done.
  - rewrite Hp in Hr. assert (drop 1 f ≠ []) as Hne by (intros Hn; rewrite Hn in Hd; zlia).
    specialize (Hr Hne). res_inv; lia || done.
  - pose proof (parse_remaining_length_more _ _ _ _ _ _ Ef Hp). lia.
Qed.

Lemma frame_len_take_zlen s n :
  packet_frame_len s = Ok (Some n) → u8s s → 2 <= n ∧ zlen (take (Z.to_nat n) s) = n.
Proof.
  intros H Hu. pose proof (safe_Ok_inv _ _ _ (packet_frame_len_spec s Hu) H) as [_ Hn].
  rewrite zlen_take by lia. lia.
Qed.

(** ** The opening the three parsers share *)
Definition opening (k : ControlPacketType → Z → Z → Z → res LeveledParseOk) (buffer : bytes)
    : res LeveledParseOk :=
  if bool_decide (buffer = []) then Err BufferEmpty else
  b0 ← index_at buffer 0;
  '(pkt_type, flags) ← ControlPacketType_from_first_byte b0;
  if zlen buffer <? 2 then Ok (LContinue 1 0) else
  tail ← index_from buffer 1;
  match parse_remaining_length tail with
  | Ok (remaining_len, vbi_bytes) =>
      if zlen buffer <? 1 + vbi_bytes + remaining_len
      then Ok (LContinue (1 + vbi_bytes + remaining_len - zlen buffer) 0)
      else k pkt_type flags remaining_len vbi_bytes
  | Err (More n _) => Ok (LContinue n 0)
  | Err e => Err e
  | Panic => Panic
  end.

Lemma kind_and_flags_safe s : u8s s → s ≠ [] → safe (kind_and_flags s) (λ _, True).
Proof.
  intros Hs Hne. unfold kind_and_flags, ControlPacketType_from_first_byte.
  assert (0 < zlen s) by (destruct s; [done|zlia]).
  eapply safe_bind; [apply safe_index_at; [done|lia]|]. intros b _ _.
  eapply safe_bind; [apply safe_try_from|]. done.
Qed.

Lemma kind_and_flags_take s n : 1 <= n → kind_and_flags (take (Z.to_nat n) s) = kind_and_flags s.
Proof.
  intros Hn. unfold kind_and_flags. assert (index_at (E:=ParseError) (take (Z.to_nat n) s) 0 = index_at s 0) as ->; [|done].
  destruct s as [|b s]; [by rewrite take_nil|].
  destruct (Z.to_nat n) as [|m] eqn:E; [lia|]. cbn [take]. unfold index_at. by rewrite !get_at_0.
Qed.

Lemma opening_spec k s :
  u8s s → s ≠ [] →
  match packet_frame_len s with
  | Ok (Some n) => ∃ size vl, n = 1 + vl + size ∧ 0 <= size ∧ 1 <= vl ∧ n <= zlen s ∧
      opening k s = '(kind, flags) ← kind_and_flags s; k kind flags size vl
  | Ok None => ∃ h, opening k s = '(_, _) ← kind_and_flags s; Ok (LContinue h 0)
  | Err e => opening k s = '(_, _) ← kind_and_flags s; Err e
  | Panic => False
  end.
Proof.
  intros Hu Hne. pose proof (safe_no_panic _ _ (packet_frame_len_spec s Hu)) as Hnp.
  unfold opening, kind_and_flags. rewrite bool_decide_eq_false_2 by done.
  destruct (packet_frame_len s) as [[n|]|e|] eqn:E; [..|done].
  - destruct (packet_frame_len_Some _ _ E) as (H2 & Hle & size & vl & -> & Hp).
    pose proof (safe_Ok_inv _ _ _ (safe_parse_remaining_length _ (Forall_drop _ 1 _ Hu)) Hp)
      as (Hs & Hvl & _). cbn [fst snd] in *.
    exists size, vl. split_and!; [done|lia..|].
    destruct (index_at s 0); rsimp; [|done..].
    destruct (ControlPacketType_from_first_byte _) as [[kd fl]| |]; rsimp; [|done..].
    replace (zlen s <? 2) with false by lia. rewrite index_from_drop by lia. rsimp.
    change (Z.to_nat 1) with 1%nat. rewrite Hp. by replace (zlen s <? _) with false by lia.
  - unfold packet_frame_len in E. destruct (zlen s <? 2) eqn:H2.
    { exists 1. by destruct (index_at s 0); rsimp. }
    rewrite index_from_drop in * by lia. cbn [mbind result_bind] in E |- *.
    destruct (parse_remaining_length _) as [[size vl]|[]|] eqn:Hp; try done.
    + destruct (zlen s <? 1 + vl + size); [|done]. eexists. by destruct (index_at s 0); rsimp.
    + eexists. by destruct (index_at s 0); rsimp.
  - unfold packet_frame_len in E. destruct (zlen s <? 2) eqn:H2; [done|].
    rewrite index_from_drop in * by lia. cbn [mbind result_bind] in E |- *.
    destruct (parse_remaining_length _) as [[size vl]|[]|] eqn:Hp; try done;
      try (apply (f_equal (λ r, match r with Err e => Some e | _ => None end)) in E; simplify_eq;
           by destruct (index_at s 0); rsimp).
    by destruct (zlen s <? 1 + vl + size).
Qed.

(** ** A decoded packet is of the kind the first byte says *)
Definition yields (kind : ControlPacketType) (r : res ParseOk) : Prop :=
  ∀ p n, r = Ok (Packet p n) → MqttPacket_packet_type p = kind.

Lemma yields_bind {A} kind (m : res A) f : (∀ a, yields kind (f a)) → yields kind (m ≫= f).
Proof. intros H p n E. apply bind_Ok_inv in E as (a & _ & E). by eapply H. Qed.

Lemma yields_validated kind q m :
  MqttPacket_packet_type q = kind → yields kind (validated_packet q m).
Proof. intros <- p n H. unfold validated_packet in H. res_inv. by simplify_eq. Qed.

Lemma yields_Err kind e : yields kind (Err e).
Proof. done. Qed.

Lemma yields_Continue kind h c : yields kind (Ok (Continue h c)).
Proof. done. Qed.

Lemma yields_Packet kind p n : MqttPacket_packet_type p = kind → yields kind (Ok (Packet p n)).
Proof. intros <- q m H. by simplify_eq. Qed.

Ltac yields :=
  repeat match goal with
  | |- yields _ (Err _) => apply yields_Err
  | |- yields _ (Ok (Continue _ _)) => apply yields_Continue
  | |- yields _ (Ok (Packet _ _)) => apply yields_Packet
  | |- yields _ (_ ≫= _) => apply yields_bind; intros
  | |- yields _ (validated_packet _ _) => apply yields_validated
  | |- yields _ (let '(_, _) := ?x in _) => destruct x
  | |- yields _ (if ?b then _ else _) => destruct b
  | |- yields _ (match ?x with _ => _ end) => destruct x
  end; try done.

Lemma v5_decoder_kind kind s : yields kind (v5_decoder kind s).
Proof.
  destruct kind; simpl; unfold MqttConnect5_from_bytes, parse_connack, MqttPublish5_from_bytes,
    PacketIdAck5_from_bytes, ReasonCodesAck5_from_bytes, MqttSubscribe5_from_bytes,
    MqttUnsubscribe5_from_bytes, ping5_from_bytes, MqttDisconnect5_from_bytes,
    MqttAuth_from_bytes; yields.
Qed.

Lemma v3_decoder_kind kind s : yields kind (v3_decoder kind s).
Proof.
  destruct kind; simpl; unfold MqttConnect3_from_bytes, MqttConnAck3_from_bytes,
    MqttPublish3_from_bytes, PacketIdAck3_from_bytes, MqttSubAck3_from_bytes,
    MqttSubscribe3_from_bytes, MqttUnsubscribe3_from_bytes, ping3_from_bytes,
    MqttDisconnect3_from_bytes; yields.
Qed.

Lemma decoded_kind_and_flags version s p n :
  MqttPacket_from_bytes_with_version s version = Ok (Packet p n) →
  ∃ flags, kind_and_flags s = Ok (MqttPacket_packet_type p, flags).
Proof.
  assert (∀ decoder, (∀ kind s, yields kind (decoder kind s)) →
    (b ← packet_type s; kind ← ControlPacketType_try_from b; decoder kind s) = Ok (Packet p n) →
    ∃ flags, kind_and_flags s = Ok (MqttPacket_packet_type p, flags)) as Hgen.
  { intros decoder Hd H. apply bind_Ok_inv in H as (b & Hb & H).
    apply bind_Ok_inv in H as (kind & Hk & H). apply Hd in H as ->.
    unfold packet_type in Hb. case_bool_decide; [done|].
    apply bind_Ok_inv in Hb as (b0 & Hb0 & E). apply Ok_inj in E. subst b.
    unfold kind_and_flags, ControlPacketType_from_first_byte. rewrite Hb0. rsimp. rewrite Hk. rsimp. eauto. }
  unfold MqttPacket_from_bytes_with_version. intros H.
  repeat case_match; try done; revert H; apply Hgen; apply v3_decoder_kind || apply v5_decoder_kind.
Qed.

(** ** The levels on a complete frame *)
Lemma leveled_opening level version s :
  level ≠ Full → (level = HeadersParsed → 3 <= version <= 5) →
  ∃ k, leveled_parse level version s = opening k s ∧
    ∀ kind flags size vl, u8s s → 0 <= size → 1 <= vl → 1 + vl + size <= zlen s →
      safe (k kind flags size vl) (λ r, ∃ pkt, r = LPacket pkt (1 + vl + size) ∧
        ParsedPacket_packet_type pkt = kind).
Proof.
  intros Hl Hv. destruct level; [done|..].
  - assert (∀ headers vsn,
      (∀ kind flags body, u8s body → header_safe body (headers kind flags body (zlen body))) →
      ∃ k, parse_headers_only_with headers vsn s = opening k s ∧
        ∀ kind flags size vl, u8s s → 0 <= size → 1 <= vl → 1 + vl + size <= zlen s →
        safe (k kind flags size vl) (λ r, ∃ pkt, r = LPacket pkt (1 + vl + size) ∧
          ParsedPacket_packet_type pkt = kind)) as Hgen.
    { intros headers vsn Hh.
      eexists (λ kind flags size vl, _). split; [reflexivity|]. cbv beta.
      intros kind flags size vl Hu Hs Hvl Hle.
      eapply safe_bind; [apply safe_index_range; [done|lia..]|]. intros body [Hb Hbu] _.
      replace size with (zlen body) by lia.
      eapply safe_bind; [by apply Hh|]. intros [vh c] Hc _. cbn [snd] in Hc.
      eapply safe_bind; [apply safe_index_from; [by apply Forall_take|rewrite zlen_take; lia]|].
      intros pl _ _. replace (1 + vl + zlen body) with (1 + vl + size) by lia. eexists. done. }
    specialize (Hv eq_refl). unfold leveled_parse, parse_headers_only.
    assert (version = 3 ∨ version = 4 ∨ version = 5) as [-> |[-> | ->]] by lia; apply Hgen;
      auto using headers_v3_safe, headers_v5_safe.
  - eexists (λ kind flags size vl, _). split; [reflexivity|]. cbv beta.
    intros kind flags size vl Hu Hs Hvl Hle.
    eapply safe_bind; [apply safe_index_from; [by apply Forall_take|rewrite zlen_take; lia]|].
    intros rem _ _. eexists. done.
  - eexists (λ kind flags size vl, _). split; [reflexivity|]. cbv beta.
    intros. eexists. done.
Qed.

Lemma frame_parsed level version s n :
  u8s s → packet_frame_len s = Ok (Some n) →
  safe (leveled_parse level version (take (Z.to_nat n) s)) (λ r, ∃ pkt flags,
    r = LPacket pkt n ∧ kind_and_flags s = Ok (ParsedPacket_packet_type pkt, flags)).
Proof.
  intros Hu Hn. destruct (frame_len_take_zlen _ _ Hn Hu) as [H2 Hz].
  pose proof (safe_Ok_inv _ _ _ (packet_frame_len_spec s Hu) Hn) as [Hfs Hle].
  destruct (decide (level = Full)) as [-> |Hl].
  { cbn [leveled_parse]. eapply safe_bind; [by apply complete_frame_decoded|].
    intros r (p & -> & _) E. apply decoded_kind_and_flags in E as [flags E].
    rewrite kind_and_flags_take in E by lia. exists (ParsedFull p), flags. done. }
  destruct (decide (level = HeadersParsed ∧ ~ 3 <= version <= 5)) as [[-> Hv]|Hv].
  { simpl. unfold parse_headers_only. repeat case_match; try done; lia. }
  destruct (leveled_opening level version (take (Z.to_nat n) s)) as (k & -> & Hk); [done|intros ->; destruct (decide (3 <= version <= 5)); [done|by destruct Hv]|].
  pose proof (opening_spec k (take (Z.to_nat n) s)) as Ho.
  rewrite (packet_frame_len_take _ _ Hu Hn) in Ho. rewrite kind_and_flags_take in Ho by lia.
  destruct Ho as (size & vl & -> & Hs & Hvl & Hle' & ->).
  { by apply Forall_take. } { intros E. rewrite E in Hz. zlia. }
  eapply safe_bind; [apply kind_and_flags_safe; [done|by destruct s; [change (zlen []) with 0 in Hle; lia|]]|].
  intros [kind flags] _ E. eapply safe_mono; [apply Hk; [by apply Forall_take|lia..]|].
  intros r (pkt & -> & <-). eauto.
Qed.

(** The type-only parser looks at the whole buffer, and sees the frame. *)
Lemma parse_type_only_buffer s :
  u8s s → s ≠ [] →
  match packet_frame_len s with
  | Ok (Some n) => parse_type_only s = parse_type_only (take (Z.to_nat n) s)
  | Ok None => safe (parse_type_only s) (λ r, ∃ h, r = LContinue h 0)
  | Err _ => safe (parse_type_only s) (λ _, False)
  | Panic => False
  end.
Proof.
  intros Hu Hne. set (k := λ kind flags size vl,
    Ok (E:=ParseError) (LPacket (ParsedTypeOnly {| to_packet_type := kind; to_flags := flags |}) (1 + vl + size))).
  assert (∀ b, parse_type_only b = opening k b) as Hk by reflexivity. rewrite !Hk.
  pose proof (opening_spec k s Hu Hne) as Ho. pose proof (kind_and_flags_safe s Hu Hne) as Hkf.
  destruct (packet_frame_len s) as [[n|]|e|] eqn:E; [| | |done].
  - destruct (frame_len_take_zlen _ _ E Hu) as [H2 Hz].
    pose proof (opening_spec k (take (Z.to_nat n) s)) as Ht.
    rewrite (packet_frame_len_take _ _ Hu E), kind_and_flags_take in Ht by lia.
    destruct Ht as (z' & l' & En & _ & _ & _ & Ht).
    { by apply Forall_take. } { intros En. rewrite En in Hz. zlia. }
    destruct Ho as (z & l & En' & _ & _ & _ & ->). rewrite Hk, Ht. unfold k. by rewrite <- En, <- En'.
  - destruct Ho as (h & ->). by destruct (kind_and_flags s) as [[]| |]; simpl; eauto.
  - rewrite Ho. by destruct (kind_and_flags s) as [[]| |].
Qed.

(** ** The whole of [next_parsed] *)
Section next_parsed.
Variable self : MqttParser.
Hypothesis Hinv : parser_inv self.
Let s := unread self.
Let level := mp_parse_level self.
Let version := mp_mqtt_version self.

(** Where the parser stands after an error. *)
Definition after_error (e : ParseError) (self' : MqttParser) : Prop :=
  match packet_frame_len s with
  | Ok (Some n) => leveled_parse level version (take (Z.to_nat n) s) = Err e ∧
                   if drops_bad_frames level then parser_at self self' (drop (Z.to_nat n) s)
                   else self' = self
  | _ => self' = self
  end.

Definition next_parsed_answers (out : res (option ParsedPacket) * MqttParser) : Prop :=
  match out with
  | (Ok None, self') => self' = self ∧ packet_frame_len s = Ok None
  | (Ok (Some pkt), self') => ∃ n flags,
      packet_frame_len s = Ok (Some n) ∧
      leveled_parse level version (take (Z.to_nat n) s) = Ok (LPacket pkt n) ∧
      kind_and_flags s = Ok (ParsedPacket_packet_type pkt, flags) ∧
      parser_at self self' (drop (Z.to_nat n) s)
  | (Err e, self') => after_error e self'
  | (Panic, _) => False
  end.

Lemma next_framed_answers parse :
  drops_bad_frames level = true → leveled_parse level version = parse →
  next_parsed_answers (next_framed self s parse).
Proof.
  intros Hd Hp. unfold next_framed. pose proof (unread_u8s self Hinv) as Hu. fold s in Hu.
  pose proof (safe_no_panic _ _ (packet_frame_len_spec s Hu)) as Hnp.
  destruct (packet_frame_len s) as [[n|]|e|] eqn:E; [| |by simpl; unfold after_error; rewrite E|done].
  2:{ by split. }
  destruct (frame_len_take_zlen _ _ E Hu) as [H2 Hz].
  pose proof (safe_Ok_inv _ _ _ (packet_frame_len_spec s Hu) E) as [_ Hn].
  unfold MqttParser_take_frame. rewrite unread_buffer by done. fold s. rsimp.
  rewrite index_range_take by lia. rsimp.
  destruct (advance_spec self Hinv n ltac:(fold s; lia)) as (self' & -> & Hat). rsimp.
  pose proof (frame_parsed level version s n Hu E) as Hf. rewrite Hp in Hf.
  destruct (parse (take (Z.to_nat n) s)) as [r|e|] eqn:Er; [| |done].
  - destruct Hf as (pkt & flags & -> & Hk). exists n, flags. by rewrite Hp.
  - simpl. unfold after_error. by rewrite E, Hd, Hp.
Qed.

Lemma next_parsed_spec : next_parsed_answers (MqttParser_next_parsed self).
Proof.
  unfold MqttParser_next_parsed. rewrite unread_buffer by done. fold s.
  pose proof (unread_u8s self Hinv) as Hu. fold s in Hu.
  case_bool_decide as Hne; [split; [done|]; by rewrite Hne|].
  fold level. destruct level eqn:Hl; unfold level in Hl.
  - pose proof (next_packet_spec self Hinv) as Hn. fold s version in Hn.
    unfold stream_step in Hn.
    pose proof (safe_no_panic _ _ (packet_frame_len_spec s Hu)) as Hnp.
    unfold next_parsed_answers, after_error, level. rewrite Hl. cbn [drops_bad_frames].
    destruct (packet_frame_len s) as [[n|]|e|] eqn:E; cbn [mbind result_bind] in Hn; [| | |done].
    + pose proof (frame_parsed Full version s n Hu E) as Hf. cbn [leveled_parse] in Hf.
      destruct (MqttPacket_from_bytes_with_version _ _) as [r|e|] eqn:Er;
        cbn [mbind result_bind] in *; [|rewrite Hn; cbn [leveled_parse]; by rewrite Er|done].
      pose proof (safe_Ok_inv _ _ _ (packet_frame_len_spec s Hu) E) as [Hfs Hle].
      destruct (safe_Ok_inv _ _ _ (complete_frame_decoded version s n Hu Hfs Hle) Er) as (p & -> & _).
      destruct Hf as (pkt & flags & Hp & Hk). simplify_eq.
      destruct Hn as (self' & -> & Hat). exists n, flags. cbn [leveled_parse]. by rewrite Er.
    + by rewrite Hn.
    + by rewrite Hn.
  - replace (mp_mqtt_version self =? 0) with false by (destruct Hinv as (_ & _ & _ & ?); lia).
    by apply next_framed_answers; unfold level; rewrite Hl.
  - by apply next_framed_answers; unfold level; rewrite Hl.
  - pose proof (parse_type_only_buffer s Hu Hne) as Ht.
    unfold next_parsed_answers, after_error, level. rewrite Hl. cbn [drops_bad_frames leveled_parse].
    destruct (packet_frame_len s) as [[n|]|e|] eqn:E; [| | |done].
    + rewrite Ht. pose proof (frame_parsed TypeOnly version s n Hu E) as Hf. cbn [leveled_parse] in Hf.
      pose proof (safe_Ok_inv _ _ _ (packet_frame_len_spec s Hu) E) as [_ Hn].
      destruct (parse_type_only (take _ s)) as [r|e|] eqn:Er; [|done|done].
      destruct Hf as (pkt & flags & -> & Hk).
      destruct (advance_spec self Hinv n ltac:(fold s; lia)) as (self' & -> & Hat).
      exists n, flags. done.
    + destruct (parse_type_only s) as [r|e|]; [|done|done]. by destruct Ht as (h & ->).
    + by destruct (parse_type_only s).
Qed.
End next_parsed.

(** ** The views of an encoded packet *)

(** Apply an operation to the packet inside a [MqttPacket]. *)
Definition packet_with {A} (k : ∀ P, MqttControlPacket P → P → A) (p : MqttPacket) : A :=
  match p with
  | Connect5 p => k _ MqttConnect5_impl p
  | ConnAck5 p => k _ MqttConnAck5_impl p
  | Publish5 p => k _ MqttPublish5_impl p
  | PubAck5 p => k _ MqttPubAck5 p
  | PubRec5 p => k _ MqttPubRec5 p
  | PubRel5 p => k _ MqttPubRel5 p
  | PubComp5 p => k _ MqttPubComp5 p
  | Subscribe5 p => k _ MqttSubscribe5_impl p
  | SubAck5 p => k _ MqttSubAck5 p
  | Unsubscribe5 p => k _ MqttUnsubscribe5_impl p
  | UnsubAck5 p => k _ MqttUnsubAck5 p
  | PingReq5 => k _ MqttPingReq5 ()
  | PingResp5 => k _ MqttPingResp5 ()
  | Disconnect5 p => k _ MqttDisconnect5_impl p
  | Auth p => k _ MqttAuth_impl p
  | Connect3 p => k _ MqttConnect3_impl p
  | ConnAck3 p => k _ MqttConnAck3_impl p
  | Publish3 p => k _ MqttPublish3_impl p
  | PubAck3 p => k _ MqttPubAck3 p
  | PubRec3 p => k _ MqttPubRec3 p
  | PubRel3 p => k _ MqttPubRel3 p
  | PubComp3 p => k _ MqttPubComp3 p
  | Subscribe3 p => k _ MqttSubscribe3_impl p
  | SubAck3 p => k _ MqttSubAck3_impl p
  | Unsubscribe3 p => k _ MqttUnsubscribe3_impl p
  | UnsubAck3 p => k _ MqttUnsubAck3 p
  | PingReq3 => k _ MqttPingReq3 ()
  | PingResp3 => k _ MqttPingResp3 ()
  | Disconnect3 => k _ MqttDisconnect3_impl ()
  end.

Definition packet_flags : MqttPacket → Z := packet_with (λ _ impl p, mcp_flags impl p).
Definition packet_variable_header : MqttPacket → res bytes :=
  packet_with (λ _ impl p, mcp_variable_header impl p).
Definition packet_payload : MqttPacket → res bytes :=
  packet_with (λ _ impl p, mcp_payload impl p).

(** The fields of a packet that are in its variable header. *)
Definition header_of (p : MqttPacket) : VariableHeader :=
  match p with
  | Connect5 p => VhConnectV5 (c5_protocol_name p) (c5_protocol_version p) (c5_clean_start p)
      (c5_keep_alive p) (MqttConnect5_connect_flags p) (c5_properties p)
  | ConnAck5 p => VhConnAckV5 (ca5_session_present p) (ca5_reason_code p)
      (ca5_properties (MqttConnAck5_norm p))
  | Publish5 p => VhPublishV5 (p5_topic_name p) (p5_qos p) (p5_dup p) (p5_retain p)
      (publish_pid (p5_qos p) (p5_packet_id p)) (p5_properties p)
  | PubAck5 p => VhPubAckV5 (a5_packet_id p) (a5_reason_code p) (a5_properties p)
  | PubRec5 p => VhPubRecV5 (a5_packet_id p) (a5_reason_code p) (a5_properties p)
  | PubRel5 p => VhPubRelV5 (a5_packet_id p) (a5_reason_code p) (a5_properties p)
  | PubComp5 p => VhPubCompV5 (a5_packet_id p) (a5_reason_code p) (a5_properties p)
  | Subscribe5 p => VhSubscribeV5 (s5_packet_id p) (s5_properties p)
  | SubAck5 p => VhSubAckV5 (r5_packet_id p) (r5_properties p)
  | Unsubscribe5 p => VhUnsubscribeV5 (u5_packet_id p) (u5_properties p)
  | UnsubAck5 p => VhUnsubAckV5 (r5_packet_id p) (r5_properties p)
  | Disconnect5 p => VhDisconnectV5 (d5_reason_code p) (d5_properties p)
  | Auth p => VhAuthV5 (au_reason_code p) (au_properties p)
  | Connect3 p => VhConnectV3 (c3_protocol_name p) (c3_protocol_version p) (c3_clean_session p)
      (c3_keep_alive p) (MqttConnect3_connect_flags p)
  | ConnAck3 p => VhConnAckV3 (ca3_session_present p) (ca3_return_code p)
  | Publish3 p => VhPublishV3 (p3_topic_name p) (p3_qos p) (p3_dup p) (p3_retain p)
      (publish_pid (p3_qos p) (p3_message_id p))
  | PubAck3 p | PubRec3 p | PubRel3 p | PubComp3 p | UnsubAck3 p =>
      VhPacketIdOnlyV3 (a3_message_id p)
  | Subscribe3 p => VhPacketIdOnlyV3 (s3_message_id p)
  | SubAck3 p => VhPacketIdOnlyV3 (sa3_message_id p)
  | Unsubscribe3 p => VhPacketIdOnlyV3 (u3_message_id p)
  | PingReq5 | PingResp5 | PingReq3 | PingResp3 | Disconnect3 => VhEmpty
  end.

(** What each level shows of a packet with variable header [vh] and payload [pl]. *)
Definition level_view (level : ParseLevel) (p : MqttPacket) (vh pl : bytes) : ParsedPacket :=
  let kind := MqttPacket_packet_type p in
  let flags := packet_flags p in
  match level with
  | Full => ParsedFull (wire_form p)
  | HeadersParsed => ParsedHeaders {| hp_packet_type := kind; hp_flags := flags;
      hp_mqtt_version := if is_v5 p then 5 else 4; hp_variable_header := header_of p;
      hp_raw_payload := pl |}
  | RawBody => ParsedRawBody {| rb_packet_type := kind; rb_flags := flags;
      rb_remaining := vh ++ pl |}
  | TypeOnly => ParsedTypeOnly {| to_packet_type := kind; to_flags := flags |}
  end.

(** ** The parts an encoded packet is made of *)
Definition packet_byte1 (p : MqttPacket) : Z :=
  Z.lor (as_u8 (Z.shiftl (ControlPacketType_as_u8 (MqttPacket_packet_type p)) 4)) (packet_flags p).

Lemma to_bytes_default p : wf_packet p → MqttPacket_to_bytes p = packet_with (@to_bytes) p.
Proof.
  intros Hwf. destruct p; try reflexivity; cbn [MqttPacket_to_bytes packet_with].
  - unfold MqttPublish5_to_bytes. rewrite MqttPublish5_encode_default by done.
    rewrite encode_to_buffer_to_bytes. by destruct (to_bytes _ _).
  - unfold MqttPublish3_to_bytes. rewrite MqttPublish3_encode_default.
    rewrite encode_to_buffer_to_bytes. by destruct (to_bytes _ _).
Qed.

Lemma to_bytes_parts p bs :
  wf_packet p → MqttPacket_to_bytes p = Ok bs → zlen bs <= MAX_REMAINING + 5 →
  MqttPacket_validate p = Ok () ∧
  ∃ vh pl, packet_variable_header p = Ok vh ∧ packet_payload p = Ok pl ∧
    zlen (vh ++ pl) <= MAX_REMAINING ∧ bs = frame (packet_byte1 p) (vh ++ pl).
Proof.
  intros Hwf Hbs Hl. rewrite to_bytes_default in Hbs by done.
  destruct p; cbn [packet_with] in Hbs; exact (to_bytes_frame _ _ _ Hbs Hl).
Qed.

Lemma packet_flags_bound p :
  wf_packet p → MqttPacket_validate p = Ok () → 0 <= packet_flags p < 16.
Proof.
  intros Hwf Hv. destruct p; try by (cbn; lia); cbn [packet_flags packet_with mcp_flags
    MqttPublish5_impl MqttPublish3_impl wf_packet MqttPacket_validate] in *.
  - destruct (MqttPublish5_validate_inv _ Hv) as (Hp & _).
    apply validation_publish_inv in Hp as (Hq & _). destruct Hwf as (_ & Hq8 & _).
    unfold is_u8 in Hq8. unfold packet_flags, packet_with; simpl. unfold MqttPublish5_flags.
    assert (0 <= p5_qos p <= 2) as Hq' by lia.
    destruct (qos_cases _ Hq') as [-> |[-> | ->]], (p5_dup p), (p5_retain p); done.
  - destruct (MqttPublish3_validate_inv _ Hv) as (Hp & _).
    apply validation_publish_inv in Hp as (Hq & _). destruct Hwf as (_ & Hq8 & _).
    unfold is_u8 in Hq8. unfold packet_flags, packet_with; simpl. unfold MqttPublish3_flags.
    assert (0 <= p3_qos p <= 2) as Hq' by lia.
    destruct (qos_cases _ Hq') as [-> |[-> | ->]], (p3_dup p), (p3_retain p); done.
Qed.

Lemma packet_byte1_kind p :
  wf_packet p → MqttPacket_validate p = Ok () →
  ControlPacketType_from_first_byte (packet_byte1 p)
  = Ok (MqttPacket_packet_type p, packet_flags p).
Proof.
  intros Hwf Hv. unfold ControlPacketType_from_first_byte, packet_byte1.
  destruct (header_byte (MqttPacket_packet_type p) _ (packet_flags_bound p Hwf Hv)) as [-> ->].
  rewrite try_from_as_u8. done.
Qed.

(** ** The header parsers invert the variable headers *)
Lemma parse_packet_id_raw_at id rest :
  is_u16 id → parse_packet_id_raw (u16_to_be_bytes id ++ rest) = Ok (id, 2).
Proof.
  intros Hid. unfold parse_packet_id_raw. zlen_pos.
  replace (zlen (u16_to_be_bytes id ++ rest) <? 2) with false by zlia.
  change (u16_to_be_bytes id ++ rest) with (id / 256 mod 256 :: id mod 256 :: rest).
  unfold index_at. rewrite get_at_0. rsimp.
  rewrite (suffix_at_get_at _ 1 (id mod 256) rest) by (by exists [id / 256 mod 256]). rsimp.
  fold (u16_to_be_bytes id). by rewrite u16_be_roundtrip.
Qed.

Lemma id_props_header vhdr id ps h pl :
  is_u16 id → Forall wf_property ps → encode_properities_hdr ps = Ok h → zlen h <= MAX_REMAINING →
  parse_id_props_v5 vhdr ((u16_to_be_bytes id ++ h) ++ pl)
  = Ok (vhdr id ps, zlen (u16_to_be_bytes id ++ h)).
Proof.
  intros Hid Hps Hh Hl. unfold parse_id_props_v5, get_from_or. rewrite <- app_assoc.
  rewrite parse_packet_id_raw_at by done. rsimp.
  rewrite (suffix_at_get_from _ (0 + 2) (h ++ pl)) by (by exists (u16_to_be_bytes id)). rsimp.
  rewrite (parse_properties_at ps) by done. rsimp. by rewrite zlen_app.
Qed.

Lemma ack_header p vh kind :
  wf_ack5 p → PacketIdAck5_variable_header p = Ok vh → zlen (vh ++ []) <= MAX_REMAINING →
  parse_ack_with_props_v5 (vh ++ []) kind
  = Ok (match kind with
        | KPubAck => VhPubAckV5 | KPubRec => VhPubRecV5
        | KPubRel => VhPubRelV5 | KPubComp => VhPubCompV5
        end (a5_packet_id p) (a5_reason_code p) (a5_properties p), zlen vh).
Proof.
  intros (Hid & Hrc & Hps) Hvh Hl. rewrite app_nil_r in *.
  unfold parse_ack_with_props_v5. unfold PacketIdAck5_variable_header in Hvh.
  destruct ((a5_reason_code p =? 0) && bool_decide (a5_properties p = [])) eqn:Hempty.
  - apply Ok_inj in Hvh. subst vh. rewrite <- (app_nil_r (u16_to_be_bytes _)) at 1.
    rewrite parse_packet_id_raw_at by done. rsimp. rewrite zlen_u16_be. rsimp.
    apply andb_true_iff in Hempty as [Hz Hn]. apply bool_decide_eq_true in Hn. rewrite Hn.
    replace (a5_reason_code p) with 0 by lia. by destruct kind.
  - apply bind_Ok_inv in Hvh as (h & Hh & Hvh). apply Ok_inj in Hvh. subst vh.
    rewrite <- !app_assoc in *. pose proof (encode_properities_hdr_pos _ _ Hps Hh).
    rewrite parse_packet_id_raw_at by done. rsimp. cbn [app] in *.
    set (b := u16_to_be_bytes (a5_packet_id p) ++ a5_reason_code p :: h) in *.
    assert (zlen b = 3 + zlen h) as Hb by (unfold b; zlia).
    rewrite Hb in *. run_if.
    assert (suffix_at b (0 + 2) (a5_reason_code p :: h)) as Hs by (by eexists).
    rewrite (suffix_at_index_at _ _ _ _ Hs). rsimp. apply suffix_at_cons in Hs. run_if.
    rewrite (suffix_at_index_from _ _ _ Hs). rsimp. rewrite <- (app_nil_r h) at 1.
    rewrite (parse_properties_at (a5_properties p)) by (done || lia). rsimp.
    replace (0 + 2 + 1 + zlen h) with (3 + zlen h) by lia. by destruct kind.
Qed.

Lemma reason_props_header (vhdr : Z → list Property → VariableHeader) rc ps h :
  Forall wf_property ps → encode_properities_hdr ps = Ok h → zlen ([rc] ++ h) <= MAX_REMAINING →
  parse_reason_props_v5 vhdr ([rc] ++ h) (zlen ([rc] ++ h)) = Ok (vhdr rc ps, zlen ([rc] ++ h)).
Proof.
  intros Hps Hh Hl. unfold parse_reason_props_v5. cbn [app] in *.
  pose proof (encode_properities_hdr_pos _ _ Hps Hh). zsimp. repeat run_if.
  unfold index_at. rewrite get_at_0. rsimp.
  rewrite (suffix_at_index_from _ 1 h) by (by exists [rc]). rsimp. rewrite <- (app_nil_r h) at 1.
  rewrite (parse_properties_at ps) by (done || lia). done.
Qed.

Lemma disconnect5_header p vh :
  wf_disconnect5 p → MqttDisconnect5_variable_header p = Ok vh →
  zlen (vh ++ []) <= MAX_REMAINING →
  parse_disconnect_header_v5 (vh ++ []) (zlen (vh ++ [])) = Ok (header_of (Disconnect5 p), zlen vh).
Proof.
  intros [Hrc Hps] Hvh Hl. rewrite app_nil_r in *. unfold MqttDisconnect5_variable_header in Hvh.
  destruct ((d5_reason_code p =? 0) && bool_decide (d5_properties p = [])) eqn:Hempty.
  - apply Ok_inj in Hvh. subst vh. apply andb_true_iff in Hempty as [Hz Hn].
    apply bool_decide_eq_true in Hn. simpl. rewrite Hn. by replace (d5_reason_code p) with 0 by lia.
  - apply bind_Ok_inv in Hvh as (h & Hh & Hvh). apply Ok_inj in Hvh. subst vh.
    by apply reason_props_header.
Qed.

Lemma connack5_header p vh :
  wf_connack5 p → MqttConnAck5_variable_header p = Ok vh → zlen (vh ++ []) <= MAX_REMAINING →
  parse_connack_header_v5 (vh ++ []) = Ok (header_of (ConnAck5 p), zlen vh).
Proof.
  intros Hwf Hvh Hl. rewrite app_nil_r in *. unfold MqttConnAck5_variable_header in Hvh.
  apply bind_Ok_inv in Hvh as (h & Hh & Hvh). apply Ok_inj in Hvh. subst vh. cbn [app] in *.
  unfold parse_connack_header_v5, get_from_or. zsimp. zlen_pos. repeat run_if.
  unfold index_at. rewrite get_at_0. rsimp.
  set (b0 := if ca5_session_present p then 1 else 0).
  rewrite (suffix_at_get_at _ 1 (ca5_reason_code p) h) by (by exists [b0]). rsimp.
  rewrite (suffix_at_get_from _ 2 h) by (by exists [b0; ca5_reason_code p]). rsimp.
  rewrite <- (app_nil_r h) at 1.
  rewrite (parse_properties_at (default [] (ca5_properties p))).
  2: done. 2:{ destruct Hwf as [_ Hps]. by destruct (ca5_properties p). } 2: lia.
  rsimp. replace (negb (Z.land b0 1 =? 0)) with (ca5_session_present p)
    by (unfold b0; by destruct (ca5_session_present p)).
  unfold header_of, MqttConnAck5_norm. cbn [ca5_properties].
  do 2 f_equal; [|lia]. f_equal. by destruct (ca5_properties p) as [[]|].
Qed.

Lemma connack3_header p :
  parse_connack_header_v3 [bool_as_u8 (ca3_session_present p); ca3_return_code p]
  = Ok (header_of (ConnAck3 p), 2).
Proof. unfold parse_connack_header_v3. simpl. by destruct (ca3_session_present p). Qed.

(** What both CONNECT headers start with. *)
Lemma connect_start name ver flags ka s :
  is_string name → validation_string name = Ok () → is_u16 ka →
  let pre := ((Utf8String_encode name ++ [ver]) ++ [flags]) ++ u16_to_be_bytes ka in
  parse_connect_start (pre ++ s) = Ok ((name, ver), (flags, ka), zlen pre).
Proof.
  intros Hn Hv Hka pre. unfold parse_connect_start.
  pose proof (suffix_at_0 (pre ++ s)) as H. set (b := pre ++ s) in *.
  assert (b = Utf8String_encode name ++ [ver] ++ [flags] ++ u16_to_be_bytes ka ++ s) as Hb
    by (unfold b, pre; by rewrite <- !app_assoc).
  assert (zlen pre = 6 + zlen name) as Hp.
  { unfold pre. rewrite !zlen_app. unfold Utf8String_encode. rewrite zlen_BinaryData_encode.
    rewrite zlen_u16_be. change (zlen [ver]) with 1. change (zlen [flags]) with 1. lia. }
  assert (zlen b = 6 + zlen name + zlen s) as Hlb by (unfold b; rewrite zlen_app; lia).
  rewrite Hb in H at 2. rewrite Hb at 1. rewrite parse_string_at by done. rsimp.
  apply suffix_at_app in H. unfold Utf8String_encode in H. rewrite zlen_BinaryData_encode in H.
  cbn [app] in H. rewrite (suffix_at_get_at _ _ _ _ H). rsimp. apply suffix_at_cons in H.
  rewrite (suffix_at_get_at _ _ _ _ H). rsimp. apply suffix_at_cons in H.
  zlen_pos. run_if.
  change (u16_to_be_bytes ka ++ s) with (ka / 256 mod 256 :: ka mod 256 :: s) in H.
  rewrite (suffix_at_index_at _ _ _ _ H). rsimp. apply suffix_at_cons in H.
  rewrite (suffix_at_index_at _ _ _ _ H). rsimp. fold (u16_to_be_bytes ka).
  rewrite u16_be_roundtrip by done. do 2 f_equal. lia.
Qed.

Lemma connect5_header p vh pl :
  wf_connect5 p → MqttConnect5_validate p = Ok () → MqttConnect5_variable_header p = Ok vh →
  zlen (vh ++ pl) <= MAX_REMAINING →
  parse_connect_header_v5 (vh ++ pl) = Ok (header_of (Connect5 p), zlen vh).
Proof.
  intros Hwf Hval Hvh Hl. destruct (MqttConnect5_validate_inv _ Hval) as (Hpn & _).
  pose proof Hwf as ([_ Hwpn] & Hver & Hka & _ & _ & _ & _ & Hps).
  unfold MqttConnect5_variable_header in Hvh. rewrite encode_utf8_string_valid in Hvh by done.
  cbn [mbind result_bind] in Hvh. apply bind_Ok_inv in Hvh as (h & Hh & Hvh).
  apply Ok_inj in Hvh. subst vh. unfold parse_connect_header_v5, get_from_or.
  pose proof (connect_start (c5_protocol_name p) (c5_protocol_version p)
    (MqttConnect5_connect_flags p) (c5_keep_alive p) (h ++ pl) Hwpn Hpn Hka) as Hs. cbv zeta in Hs.
  set (pre := ((_ ++ [_]) ++ [_]) ++ u16_to_be_bytes _) in *. rewrite <- (app_assoc pre) in *.
  rewrite Hs. rsimp.
  rewrite (suffix_at_get_from _ (zlen pre) (h ++ pl)) by (by exists pre). rsimp.
  rewrite (parse_properties_at (c5_properties p)).
  2, 3: done. 2:{ rewrite !zlen_app in Hl. zlen_pos. lia. }
  rsimp. destruct (connect5_flags_spec p (connect5_will_qos p Hwf Hval)) as (_ & _ & _ & _ & -> & _).
  by rewrite zlen_app.
Qed.

Lemma connect3_header p vh pl :
  wf_connect3 p → MqttConnect3_validate p = Ok () → MqttConnect3_variable_header p = Ok vh →
  parse_connect_header_v3 (vh ++ pl) = Ok (header_of (Connect3 p), zlen vh).
Proof.
  intros Hwf Hval Hvh. destruct (MqttConnect3_validate_inv _ Hval) as (Hpn & _).
  pose proof Hwf as ([_ Hwpn] & Hver & Hka & _).
  unfold MqttConnect3_variable_header in Hvh. apply Ok_inj in Hvh. subst vh.
  unfold parse_connect_header_v3, TwoByteInteger_encode. rewrite connect_start by done. rsimp.
  destruct (connect3_flags_spec p (connect3_will_qos p Hwf Hval)) as (_ & _ & _ & _ & _ & Hc & _).
  cbn [header_of]. rewrite <- Hc. do 3 f_equal.
  set (f := MqttConnect3_connect_flags p).
  assert (0 <= Z.land f 2) by (apply Z.land_nonneg; lia). lia.
Qed.

(** The optional identifier of a PUBLISH. *)
Lemma publish_pid_raw qos pid b off s :
  wf_opt is_u16 pid → (0 < qos → is_Some pid) →
  suffix_at b off (from_option u16_to_be_bytes [] (publish_pid qos pid) ++ s) →
  (if 0 <? qos then
     t ← index_from b off; '(id, consumed) ← parse_packet_id_raw t; Ok (Some id, off + consumed)
   else Ok (None, off))
  = Ok (E:=ParseError) (publish_pid qos pid,
        off + zlen (from_option u16_to_be_bytes [] (publish_pid qos pid))).
Proof.
  intros Hp Hq Hs. unfold publish_pid in *. destruct (Z.ltb_spec 0 qos) as [H|].
  - destruct (Hq H) as [i ->]. cbn [from_option] in *.
    rewrite (suffix_at_index_from _ _ _ Hs). rsimp. by rewrite parse_packet_id_raw_at.
  - cbn [from_option]. change (zlen []) with 0. by rewrite Z.add_0_r.
Qed.

Lemma publish_flags_bits (dup retain : bool) qos flags :
  0 <= qos <= 2 →
  flags = MqttPublish5_flags {| p5_topic_name := []; p5_qos := qos; p5_dup := dup;
    p5_retain := retain; p5_packet_id := None; p5_payload := []; p5_properties := [] |} →
  negb (Z.land flags 8 =? 0) = dup ∧ Z.shiftr (Z.land flags 6) 1 = qos ∧
  negb (Z.land flags 1 =? 0) = retain.
Proof.
  intros Hq ->. destruct (qos_cases _ Hq) as [-> |[-> | ->]], dup, retain; done.
Qed.

Lemma publish5_header p vh pl :
  wf_publish5 p → MqttPublish5_validate p = Ok () → MqttPublish5_variable_header p = Ok vh →
  zlen (vh ++ pl) <= MAX_REMAINING →
  parse_publish_header_v5 (MqttPublish5_flags p) (vh ++ pl) = Ok (header_of (Publish5 p), zlen vh).
Proof.
  intros ([Ht8 Ht] & Hq & Hid & Hpl & Hps) Hval Hvh Hl.
  destruct (MqttPublish5_validate_inv _ Hval) as (Hp & _ & Hts).
  apply validation_publish_inv in Hp as (Hq2 & Hdup & Hpid).
  assert (∃ h, encode_properities_hdr (p5_properties p) = Ok h ∧
    vh = (Utf8String_encode (p5_topic_name p) ++ from_option u16_to_be_bytes []
           (publish_pid (p5_qos p) (p5_packet_id p))) ++ h) as (h & Hh & ->).
  { unfold MqttPublish5_variable_header in Hvh. rewrite encode_utf8_string_valid in Hvh by done.
    cbn [mbind result_bind] in Hvh. apply bind_Ok_inv in Hvh as (b & Eb & Hvh).
    apply bind_Ok_inv in Hvh as (h & Hh & Hvh). apply Ok_inj in Hvh. exists h.
    split; [done|]. subst vh. unfold publish_pid. f_equal.
    destruct (Z.ltb_spec 0 (p5_qos p)) as [H0|].
    - destruct (Hpid H0) as (i & Ei & _). rewrite Ei in *. by apply Ok_inj in Eb.
    - apply Ok_inj in Eb. cbn [from_option]. by rewrite app_nil_r. }
  destruct (publish_flags_bits (p5_dup p) (p5_retain p) (p5_qos p) (MqttPublish5_flags p))
    as (E1 & E2 & E3); [unfold is_u8 in Hq; lia|done|].
  unfold parse_publish_header_v5, get_from_or. rewrite E1, E2, E3.
  rewrite <- !app_assoc in *.
  pose proof (λ r, parse_string_at (p5_topic_name p) r Ht Hts) as Hstr.
  set (b := Utf8String_encode _ ++ _ ++ _) in *.
  pose proof (suffix_at_0 b) as Hs. rewrite (suffix_at_get_from _ _ _ Hs). rsimp. unfold b in Hs at 2.
  rewrite (Hstr _ : parse_utf8_string b = _). rsimp.
  apply suffix_at_app in Hs. rewrite zlen_Utf8String_encode in Hs.
  rewrite (publish_pid_raw _ _ _ _ _ Hid) by (done || (intros H0; destruct (Hpid H0) as (? & -> & _); eauto)).
  rsimp. apply suffix_at_app in Hs. rewrite (suffix_at_get_from _ _ _ Hs). rsimp.
  rewrite (parse_properties_at (p5_properties p)).
  2, 3: done. 2:{ unfold b in Hl. rewrite !zlen_app in Hl. zlen_pos. lia. }
  rsimp. rewrite !zlen_app, zlen_Utf8String_encode. do 2 f_equal. lia.
Qed.

Lemma publish3_header p vh pl :
  wf_publish3 p → MqttPublish3_validate p = Ok () → MqttPublish3_variable_header p = Ok vh →
  parse_publish_header_v3 (MqttPublish3_flags p) (vh ++ pl) = Ok (header_of (Publish3 p), zlen vh).
Proof.
  intros ([Ht8 Ht] & Hq & Hid & Hpl) Hval Hvh.
  destruct (MqttPublish3_validate_inv _ Hval) as (Hp & Hts).
  apply validation_publish_inv in Hp as (Hq2 & Hdup & Hpid).
  assert (vh = Utf8String_encode (p3_topic_name p) ++ from_option u16_to_be_bytes []
           (publish_pid (p3_qos p) (p3_message_id p))) as ->.
  { unfold MqttPublish3_variable_header in Hvh. unfold publish_pid.
    destruct (Z.ltb_spec 0 (p3_qos p)) as [H0|].
    - destruct (Hpid H0) as (i & Ei & _). rewrite Ei in *. by apply Ok_inj in Hvh.
    - apply Ok_inj in Hvh. cbn [from_option]. by rewrite app_nil_r. }
  destruct (publish_flags_bits (p3_dup p) (p3_retain p) (p3_qos p) (MqttPublish3_flags p))
    as (E1 & E2 & E3); [unfold is_u8 in Hq; lia| |].
  { assert (0 <= p3_qos p <= 2) as Hq' by (unfold is_u8 in Hq; lia). unfold MqttPublish3_flags.
    by destruct (qos_cases _ Hq') as [-> |[-> | ->]], (p3_dup p), (p3_retain p). }
  unfold parse_publish_header_v3. rewrite E1, E2, E3.
  pose proof (λ r, parse_string_at (p3_topic_name p) r Ht Hts) as Hstr.
  rewrite <- !app_assoc. set (b := Utf8String_encode _ ++ _ ++ _) in *.
  pose proof (suffix_at_0 b) as Hs. unfold b in Hs at 2.
  rewrite (Hstr _ : parse_utf8_string b = _). rsimp.
  apply suffix_at_app in Hs. rewrite zlen_Utf8String_encode in Hs.
  rewrite (publish_pid_raw _ _ _ _ _ Hid) by (done || (intros H0; destruct (Hpid H0) as (? & -> & _); eauto)).
  rsimp. rewrite !zlen_app, zlen_Utf8String_encode. do 2 f_equal.
Qed.

Lemma header_roundtrip p vh pl :
  wf_packet p → MqttPacket_validate p = Ok () →
  packet_variable_header p = Ok vh → packet_payload p = Ok pl → zlen (vh ++ pl) <= MAX_REMAINING →
  (if is_v5 p then headers_v5 else headers_v3) (MqttPacket_packet_type p) (packet_flags p)
    (vh ++ pl) (zlen (vh ++ pl)) = Ok (header_of p, zlen vh).
Proof.
  intros Hwf Hval Hvh Hpl Hl.
  assert (∀ vhdr id ps, is_u16 id → Forall wf_property ps →
    (if id =? 0 then Err (ParseErr "") else
     props ← encode_properities_hdr ps; Ok (u16_to_be_bytes id ++ props)) = Ok vh →
    parse_id_props_v5 vhdr (vh ++ pl) = Ok (vhdr id ps, zlen vh)) as Hidp.
  { intros vhdr id ps Hid Hps H. destruct (id =? 0); [done|].
    apply bind_Ok_inv in H as (h & Hh & H). apply Ok_inj in H. subst vh.
    apply id_props_header; [done..|]. rewrite !zlen_app in Hl. zlen_pos. lia. }
  assert (∀ id, is_u16 id → Ok (E:=ParseError) (u16_to_be_bytes id) = Ok vh →
    parse_id_only_v3 (vh ++ pl) = Ok (VhPacketIdOnlyV3 id, zlen vh)) as Hid3.
  { intros id Hid H. apply Ok_inj in H. subst vh. unfold parse_id_only_v3.
    rewrite parse_packet_id_raw_at by done. done. }
  destruct p; unfold packet_variable_header, packet_payload, packet_flags in *;
    cbn [packet_with is_v5 MqttPacket_packet_type headers_v5 headers_v3 wf_packet
         MqttPacket_validate] in *;
    cbn in Hvh, Hpl; try (apply Ok_inj in Hpl; subst pl).
  - by apply connect5_header.
  - by apply connack5_header.
  - by apply publish5_header.
  - by apply ack_header.
  - by apply ack_header.
  - by apply ack_header.
  - by apply ack_header.
  - destruct Hwf as (Hid & _ & Hps). apply Hidp; [done..|].
    unfold MqttSubscribe5_variable_header in Hvh. by destruct (_ =? 0) in Hvh |- *.
  - destruct Hwf as (Hid & _ & Hps). apply Hidp; [done..|].
    unfold ReasonCodesAck5_variable_header in Hvh. by destruct (_ =? 0) in Hvh |- *.
  - destruct Hwf as (Hid & _ & Hps). apply Hidp; [done..|].
    unfold MqttUnsubscribe5_variable_header in Hvh. by destruct (_ =? 0) in Hvh |- *.
  - destruct Hwf as (Hid & _ & Hps). apply Hidp; [done..|].
    unfold ReasonCodesAck5_variable_header in Hvh. by destruct (_ =? 0) in Hvh |- *.
  - by apply Ok_inj in Hvh as <-.
  - by apply Ok_inj in Hvh as <-.
  - by apply disconnect5_header.
  - destruct Hwf as [_ Hps]. unfold MqttAuth_variable_header in Hvh.
    apply bind_Ok_inv in Hvh as (h & Hh & Hvh). apply Ok_inj in Hvh. subst vh.
    rewrite app_nil_r in *. by apply reason_props_header.
  - by apply connect3_header.
  - unfold MqttConnAck3_variable_header in Hvh. destruct (5 <? _); [done|].
    apply Ok_inj in Hvh. subst vh. apply connack3_header.
  - by apply publish3_header.
  - by apply Hid3.
  - by apply Hid3.
  - by apply Hid3.
  - by apply Hid3.
  - destruct Hwf. by apply Hid3.
  - destruct Hwf. by apply Hid3.
  - destruct Hwf. by apply Hid3.
  - by apply Hid3.
  - by apply Ok_inj in Hvh as <-.
  - by apply Ok_inj in Hvh as <-.
  - by apply Ok_inj in Hvh as <-.
Qed.

(** ** The levels on an encoded packet *)
Lemma into_range_at b lo hi x s :
  suffix_at b lo (x ++ s) → hi = lo + zlen x → into_range b lo hi = Ok x.
Proof.
  intros (pre & -> & <-) ->. unfold into_range. apply suffix_at_index_from. exists pre.
  split; [|done]. rewrite app_assoc. replace (Z.to_nat _) with (length (pre ++ x)).
  - by rewrite take_app_length.
  - rewrite length_app. unfold zlen. lia.
Qed.

Lemma opening_frame k byte1 body kf :
  zlen body <= MAX_REMAINING → ControlPacketType_from_first_byte byte1 = Ok kf →
  opening k (frame byte1 body)
  = k kf.1 kf.2 (zlen body) (zlen (VariableByteInteger_encode (zlen body))).
Proof.
  intros Hl Hk. pose proof (frame_vl_pos body Hl). pose proof (zlen_frame byte1 body) as Hz.
  zlen_pos. unfold opening. rewrite bool_decide_eq_false_2 by done.
  pose proof (frame_first (E:=ParseError) byte1 body []) as Hf0.
  pose proof (frame_tail (E:=ParseError) byte1 body []) as Hf1.
  rewrite !app_nil_r in *. rewrite Hf0. rsimp. rewrite Hk. destruct kf as [kind flags]. rsimp.
  repeat run_if. rewrite Hf1. rsimp. pose proof (frame_remaining body [] Hl) as Hr.
  rewrite app_nil_r in Hr. rewrite Hr. by replace (zlen (frame byte1 body) <? _) with false by lia.
Qed.

Lemma leveled_parse_encoded level version p bs :
  encodes version p bs →
  ∃ vh pl, packet_variable_header p = Ok vh ∧ packet_payload p = Ok pl ∧
    leveled_parse level version bs = Ok (LPacket (level_view level p vh pl) (zlen bs)).
Proof.
  intros (Hwf & Henc & Hver & Hbs & Hl).
  destruct (to_bytes_parts p bs Hwf Hbs Hl) as (Hv & vh & pl & Hvh & Hpl & Hlen & Ebs).
  exists vh, pl. split; [done|]. split; [done|].
  pose proof (packet_byte1_kind p Hwf Hv) as Hk.
  pose proof (frame_body (packet_byte1 p) (vh ++ pl) []) as Hbody. rewrite !app_nil_r in Hbody.
  pose proof (zlen_frame (packet_byte1 p) (vh ++ pl)) as Hz.
  destruct level; cbn [leveled_parse level_view].
  - pose proof (packet_roundtrip p bs [] version Hwf Henc Hver Hbs Hl) as Hr.
    rewrite app_nil_r in Hr. by rewrite Hr.
  - subst bs.
    assert (parse_headers_only (frame (packet_byte1 p) (vh ++ pl)) version
      = parse_headers_only_with (if is_v5 p then headers_v5 else headers_v3)
          (if is_v5 p then 5 else 4) (frame (packet_byte1 p) (vh ++ pl))) as ->.
    { unfold version_for, parse_headers_only in *. destruct (is_v5 p).
      - by replace version with 5 by lia.
      - by assert (version = 3 ∨ version = 4) as [-> | ->] by lia. }
    etransitivity; [by eapply (opening_frame (λ kind flags size vl, _))|]. cbv beta. rsimp.
    erewrite (suffix_at_index_range _ _ _ (vh ++ pl) []) by (rewrite ?app_nil_r; done). rsimp.
    rewrite header_roundtrip by done. rsimp. apply suffix_at_app in Hbody.
    rewrite (into_range_at _ _ _ pl []);
      [|by rewrite app_nil_r|rewrite (zlen_app vh pl) at 2; lia].
    rsimp. by rewrite Hz.
  - subst bs. etransitivity; [by eapply (opening_frame (λ kind flags size vl, _))|]. cbv beta. rsimp.
    erewrite (into_range_at _ _ _ (vh ++ pl) []) by (rewrite ?app_nil_r; done).
    rsimp. by rewrite Hz.
  - subst bs. etransitivity; [by eapply (opening_frame (λ kind flags size vl, _))|]. cbv beta. rsimp.
    by rewrite Hz.
Qed.

(** ** [set_mqtt_vsn] on the CONNECT a connection starts with *)
Definition connect_version (p : MqttPacket) : option Z :=
  match p with
  | Connect5 p => Some (c5_protocol_version p)
  | Connect3 p => Some (c3_protocol_version p)
  | _ => None
  end.

Lemma connect_start_bytes p vh :
  encodable p → MqttPacket_validate p = Ok () → packet_variable_header p = Ok vh →
  match connect_version p with
  | Some v => ∃ name s, vh = Utf8String_encode name ++ v :: s ∧
      is_string name ∧ validation_string name = Ok () ∧ zlen name <= 6 ∧ packet_byte1 p = 16
  | None => True
  end.
Proof.
  intros Henc Hv Hvh. destruct p; try exact I; cbn [connect_version MqttPacket_validate] in *;
    unfold packet_variable_header in Hvh; cbn in Hvh.
  - destruct (MqttConnect5_validate_inv _ Hv) as (Hn & _). destruct Henc as (En & _).
    unfold MqttConnect5_variable_header in Hvh. rewrite encode_utf8_string_valid in Hvh by done.
    cbn [mbind result_bind] in Hvh. apply bind_Ok_inv in Hvh as (h & _ & Hvh).
    apply Ok_inj in Hvh. subst vh. eexists (c5_protocol_name p), _. rewrite <- !app_assoc.
    split; [done|]. split_and!; [by rewrite En|done|by rewrite En|done].
  - destruct (MqttConnect3_validate_inv _ Hv) as (Hn & _). destruct Henc as (En & _).
    apply Ok_inj in Hvh. subst vh. eexists (c3_protocol_name p), _. rewrite <- !app_assoc.
    split; [done|].
    split_and!; [by destruct En as [[-> _]|[-> _]]|done|by destruct En as [[-> _]|[-> _]]|done].
Qed.

(** ** Theorems *)

(** Whatever the parse level, the parser cuts the stream into the same frames and never
    panics.  [next_parsed] asks for more bytes exactly while the first frame is incomplete; what
    it delivers is the level's parse of that frame alone, of the packet type in its first byte,
    and the frame is consumed.  A refused frame stays in the buffer at the [Full] and [TypeOnly]
    levels, and is taken off at the [RawBody] and [HeadersParsed] levels. *)
Theorem leveled_frames self :
  parser_inv self → next_parsed_answers self (MqttParser_next_parsed self).
Proof. apply next_parsed_spec. Qed.

Definition sample_leveled (level : ParseLevel) : MqttParser :=
  {| mp_buffer := [192; 0; 0; 0; 208]; mp_read_offset := 2; mp_mqtt_version := 5;
     mp_parse_level := level |}.

Lemma sample_leveled_inv level : parser_inv (sample_leveled level).
Proof. unfold parser_inv. simpl. split_and!; [done..|u8s_lit|done]. Qed.

(** The second frame has packet type 0: [RawBody] drops it, [TypeOnly] keeps it. *)
Lemma leveled_frames_witness :
  next_parsed_answers (sample_leveled RawBody) (MqttParser_next_parsed (sample_leveled RawBody)) ∧
  next_parsed_answers (sample_leveled TypeOnly) (MqttParser_next_parsed (sample_leveled TypeOnly)) ∧
  unread (MqttParser_next_parsed (sample_leveled RawBody)).2 = [208] ∧
  unread (MqttParser_next_parsed (sample_leveled TypeOnly)).2 = [0; 0; 208].
Proof.
  split; [exact (leveled_frames _ (sample_leveled_inv RawBody))|].
  split; [exact (leveled_frames _ (sample_leveled_inv TypeOnly))|]. split; reflexivity.
Defined.

(** C38: the levels show the same packet.  When the unread bytes start with an encoded packet,
    [next_parsed] delivers at once, and consumes exactly that packet: the decoded packet
    ([Full]), its header fields with the bytes [payload()] wrote ([HeadersParsed]), the bytes of
    variable header and payload ([RawBody]), or its type and flags ([TypeOnly]). *)
Theorem leveled_views self p bs rest :
  parser_inv self → encodes (mp_mqtt_version self) p bs → unread self = bs ++ rest →
  ∃ vh pl self', packet_variable_header p = Ok vh ∧ packet_payload p = Ok pl ∧
    MqttParser_next_parsed self = (Ok (Some (level_view (mp_parse_level self) p vh pl)), self') ∧
    parser_at self self' rest.
Proof.
  intros Hinv Henc Hu. pose proof (next_parsed_spec self Hinv) as Hn.
  destruct (leveled_parse_encoded (mp_parse_level self) _ _ _ Henc) as (vh & pl & Hvh & Hpl & Hp).
  destruct Henc as (Hwf & Henc & Hver & Hbs & Hl).
  assert (packet_frame_len (bs ++ rest) = Ok (Some (zlen bs))) as Hf.
  { destruct (packet_roundtrip_frame p bs Hwf Henc Hbs Hl) as (byte1 & body & -> & _).
    by apply frame_len_of_frame. }
  assert (take (Z.to_nat (zlen bs)) (bs ++ rest) = bs) as Ht
    by (unfold zlen; by rewrite Nat2Z.id, take_app_length).
  unfold next_parsed_answers, after_error in Hn. rewrite Hu, Hf, Ht in Hn.
  exists vh, pl. destruct (MqttParser_next_parsed self) as [[[pkt|]|e|] self'] eqn:E; [| | |done].
  - destruct Hn as (n & flags & En & Hpk & _ & Hat). simplify_eq.
    rewrite Ht, Hp in Hpk. apply Ok_inj in Hpk. simplify_eq. exists self'. split_and!; try done.
    unfold zlen in Hat. by rewrite Nat2Z.id, drop_app_length in Hat.
  - by destruct Hn.
  - destruct Hn as [Hn _]. by rewrite Hp in Hn.
Qed.

(** The bytes of a PUBLISH with one byte of the next packet behind it. *)
Definition sample_views (level : ParseLevel) : MqttParser :=
  {| mp_buffer := sample_publish_bytes ++ [208]; mp_read_offset := 0; mp_mqtt_version := 5;
     mp_parse_level := level |}.

Lemma leveled_views_witness :
  ∃ vh pl self', MqttParser_next_parsed (sample_views HeadersParsed)
    = (Ok (Some (level_view HeadersParsed sample_publish vh pl)), self') ∧ unread self' = [208].
Proof.
  destruct (leveled_views (sample_views HeadersParsed) sample_publish sample_publish_bytes [208])
    as (vh & pl & self' & _ & _ & Hn & _ & Hu & _).
  - unfold parser_inv. simpl. split_and!; [done..|u8s_lit|done].
  - split_and!; [exact sample_publish_wf|exact I|reflexivity|reflexivity|vm_compute; discriminate].
  - reflexivity.
  - exists vh, pl, self'. split; [exact Hn|exact Hu].
Defined.

(** The version of a connection is found.  On a parser that does not know the version yet,
    [set_mqtt_vsn] reads it from the encoded CONNECT that opens the connection, whatever
    follows, and remembers it without consuming anything; [next_packet] then delivers that
    CONNECT. *)
Theorem version_detected self p bs rest version :
  connect_version p = Some version → encodes version p bs →
  u8s (mp_buffer self) → mp_mqtt_version self = 0 →
  mp_buffer self = bs ++ rest → mp_read_offset self = 0 →
  ∃ self' self'', MqttParser_set_mqtt_vsn self 0 = Ok (version, self') ∧
    unread self' = bs ++ rest ∧ mp_mqtt_version self' = version ∧
    MqttParser_next_packet self' = Ok (Some p, self'') ∧ unread self'' = rest.
Proof.
  intros Hc Henc Hu Hv0 Hb Ho.
  set (self' := {| mp_buffer := mp_buffer self; mp_read_offset := mp_read_offset self;
    mp_mqtt_version := version; mp_parse_level := mp_parse_level self |}).
  pose proof (stream_step_encoded version p bs rest Henc) as Hstep.
  destruct Henc as (Hwf & Hec & Hver & Hbs & Hl).
  destruct (to_bytes_parts p bs Hwf Hbs Hl) as (Hv & vh & pl & Hvh & Hpl & Hlen & Ebs).
  pose proof (connect_start_bytes p vh Hec Hv Hvh) as Hs. rewrite Hc in Hs.
  destruct Hs as (name & s & Evh & Hn & Hns & _ & E16). rewrite E16 in Ebs.
  assert (wire_form p = p) as Hw by (by destruct p).
  assert (unread self' = bs ++ rest) as Hun.
  { unfold unread, self'. cbn [mp_buffer mp_read_offset]. by rewrite Ho, Hb. }
  assert (parser_inv self') as Hinv.
  { unfold parser_inv, self'. cbn [mp_buffer mp_read_offset mp_mqtt_version].
    rewrite Ho. split; [zlia|]. split; [intros E; symmetry in E; by apply zlen_0_nil|].
    split; [done|]. unfold version_for in Hver. destruct (is_v5 p); lia. }
  pose proof (next_packet_spec self' Hinv) as Hnext. rewrite Hun in Hnext.
  change (mp_mqtt_version self') with version in Hnext. rewrite Hstep, Hw in Hnext.
  destruct Hnext as (self'' & Hnext & _ & Hun' & _).
  exists self', self''. split; [|done].
  unfold MqttParser_set_mqtt_vsn. rewrite Hv0. rsimp. change (0 =? 0) with true. rsimp.
  unfold MqttParser_buffer. rewrite Ho, (suffix_at_index_from _ 0 _ (suffix_at_0 _)). rsimp.
  rewrite Hb, Ebs. rewrite frame_first. rsimp. change (16 =? 16) with true. rsimp.
  rewrite frame_tail. rsimp. unfold parse_vbi. fold (parse_remaining_length).
  pose proof (frame_remaining (vh ++ pl) rest Hlen) as Hrem. unfold parse_remaining_length in Hrem.
  rewrite Hrem. rsimp. pose proof (frame_body 16 (vh ++ pl) rest) as Hbody.
  pose proof (frame_zlen 16 (vh ++ pl) rest) as Hz.
  set (b := frame 16 (vh ++ pl) ++ rest) in *. set (vl := zlen (VariableByteInteger_encode _)) in *.
  rewrite Z.add_0_l, (suffix_at_index_from _ _ _ Hbody). rsimp.
  rewrite Evh in Hbody, Hz |- *. rewrite <- !app_assoc in *. rewrite parse_string_at by done. rsimp.
  apply suffix_at_app in Hbody. rewrite zlen_Utf8String_encode in Hbody. cbn [app] in Hbody.
  rewrite !zlen_app, zlen_Utf8String_encode in Hz. zsimp. zlen_pos. run_if.
  rewrite (suffix_at_index_at _ _ _ _ Hbody). rsimp. unfold self'. by rewrite Ho, Hb, Ebs.
Qed.

Definition sample_connect : MqttPacket :=
  Connect5 (MqttConnect5_new (str "c1") None None None 60 true []).
Definition sample_connect_bytes : bytes :=
  [16; 15; 0; 4; 77; 81; 84; 84; 5; 2; 0; 60; 0; 0; 2; 99; 49].
Definition unversioned : MqttParser :=
  {| mp_buffer := sample_connect_bytes ++ [192]; mp_read_offset := 0; mp_mqtt_version := 0;
     mp_parse_level := Full |}.

Lemma sample_connect_encodes : encodes 5 sample_connect sample_connect_bytes.
Proof.
  split_and!; [|split_and!; done|reflexivity|reflexivity|vm_compute; discriminate].
  unfold sample_connect, wf_packet, wf_connect5, wf_str. simpl.
  split_and!; try done; try u8s_lit; unfold is_u8, is_u16; lia.
Qed.

Lemma version_detected_witness :
  ∃ self' self'', MqttParser_set_mqtt_vsn unversioned 0 = Ok (5, self') ∧
    MqttParser_next_packet self' = Ok (Some sample_connect, self'') ∧ unread self'' = [192].
Proof.
  destruct (version_detected unversioned sample_connect sample_connect_bytes [192] 5)
    as (self' & self'' & H1 & _ & _ & H2 & H3);
    [reflexivity|exact sample_connect_encodes|u8s_lit|reflexivity..|].
  exists self', self''. auto.
Defined.
