(* ===== verification/Time.v ===== *)
(** * Time

    Models [src/time.rs]: [Timestamp] (nanoseconds in a [u64]) with its conversions, and the
    trait [TimePoint] the portable components are generic in, as a class of operations
    ([TimePoint]) and a class of what its users rely on ([TimePointLaws]).  [Timestamp] is an
    instance of both; the operating system's [Instant] is the other implementation, known only
    through the laws.  A [Duration] is its number of nanoseconds. *)
From S2P Require Import Prelude.

(** ** Orders

    [Ord]: the comparison of the trait, with the laws its documentation demands. *)
Class Ord (A : Type) : Type := {
  cmp : A → A → comparison;
  cmp_eq x y : cmp x y = Eq ↔ x = y;
  cmp_opp x y : cmp y x = CompOpp (cmp x y);
  cmp_lt_trans x y z : cmp x y = Lt → cmp y z = Lt → cmp x z = Lt;
}.

Definition ord_lt `{Ord A} (x y : A) : bool := match cmp x y with Lt => true | _ => false end.
Definition ord_le `{Ord A} (x y : A) : bool := match cmp x y with Gt => false | _ => true end.

#[export] Instance Ord_Z : Ord Z.
Proof.
  refine {| cmp := Z.compare |}.
  - apply Z.compare_eq_iff.
  - intros. apply Z.compare_antisym.
  - intros x y z. rewrite !Z.compare_lt_iff. lia.
Defined.

Section ord.
Context `{Ord A}.
Implicit Types x y z : A.

Lemma ord_le_not_lt x y : ord_le x y = negb (ord_lt y x).
Proof. unfold ord_le, ord_lt. rewrite (cmp_opp x y). by destruct (cmp x y). Qed.
Lemma ord_lt_not_le x y : ord_lt x y = negb (ord_le y x).
Proof. rewrite ord_le_not_lt. by rewrite negb_involutive. Qed.
Lemma ord_le_lt_eq x y : ord_le x y = true ↔ ord_lt x y = true ∨ x = y.
Proof.
  unfold ord_le, ord_lt. rewrite <- (cmp_eq x y). destruct (cmp x y); naive_solver.
Qed.
Lemma ord_lt_trans x y z : ord_lt x y = true → ord_lt y z = true → ord_lt x z = true.
Proof.
  unfold ord_lt. destruct (cmp x y) eqn:E1, (cmp y z) eqn:E2; try done.
  by rewrite (cmp_lt_trans x y z).
Qed.
Lemma ord_lt_irrefl x : ord_lt x x = false.
Proof. unfold ord_lt. by rewrite (proj2 (cmp_eq x x) eq_refl). Qed.
Lemma ord_le_refl x : ord_le x x = true.
Proof. unfold ord_le. by rewrite (proj2 (cmp_eq x x) eq_refl). Qed.
Lemma ord_le_trans x y z : ord_le x y = true → ord_le y z = true → ord_le x z = true.
Proof.
  rewrite !ord_le_lt_eq. intros [H1| ->] [H2| ->]; eauto using ord_lt_trans.
Qed.
Lemma ord_le_lt_trans x y z : ord_le x y = true → ord_lt y z = true → ord_lt x z = true.
Proof. rewrite ord_le_lt_eq. intros [?| ->]; eauto using ord_lt_trans. Qed.
Lemma ord_lt_le_trans x y z : ord_lt x y = true → ord_le y z = true → ord_lt x z = true.
Proof. rewrite ord_le_lt_eq. intros ? [?| ->]; eauto using ord_lt_trans. Qed.
Lemma ord_lt_le x y : ord_lt x y = true → ord_le x y = true.
Proof. rewrite ord_le_lt_eq. auto. Qed.
Lemma ord_le_total x y : ord_le x y = true ∨ ord_le y x = true.
Proof. rewrite (ord_le_not_lt x y). destruct (ord_lt y x) eqn:E; eauto using ord_lt_le. Qed.
Lemma ord_le_antisym x y : ord_le x y = true → ord_le y x = true → x = y.
Proof.
  rewrite ord_le_lt_eq. intros [E|?] Hyx; [|done].
  rewrite ord_le_not_lt in Hyx. by rewrite E in Hyx.
Qed.
End ord.

(** ** [Timestamp] *)
Record Timestamp : Type := { ts_nanos : Z }.

Inductive TimeError : Type := MkTimeError.

(** The checked operations of [u64]. *)
Definition checked_mul_u64 (a b : Z) : option Z := if a * b <=? u64_MAX then Some (a * b) else None.
Definition checked_add_u64 (a b : Z) : option Z := if a + b <=? u64_MAX then Some (a + b) else None.
Definition checked_sub_u64 (a b : Z) : option Z := if b <=? a then Some (a - b) else None.
Definition saturating_sub (a b : Z) : Z := Z.max 0 (a - b).
Definition try_u64 (z : Z) : option Z := if (0 <=? z) && (z <=? u64_MAX) then Some z else None.

Definition Timestamp_ZERO : Timestamp := {| ts_nanos := 0 |}.

Definition Timestamp_from_nanos (nanos : Z) : Timestamp := {| ts_nanos := nanos |}.

Definition Timestamp_try_from_millis (millis : Z) : result TimeError Timestamp :=
  ok_or (Timestamp_from_nanos <$> checked_mul_u64 millis 1000000) MkTimeError.

Definition Timestamp_try_from_uptime_millis (millis : Z) : result TimeError Timestamp :=
  millis ← ok_or (try_u64 millis) MkTimeError;
  Timestamp_try_from_millis millis.

Definition Timestamp_as_nanos (self : Timestamp) : Z := ts_nanos self.

Definition Timestamp_as_millis (self : Timestamp) : Z := ts_nanos self / 1000000.

Definition Timestamp_as_millis_ceil (self : Timestamp) : Z :=
  ts_nanos self / 1000000 + (if ts_nanos self mod 1000000 =? 0 then 0 else 1).

Definition Timestamp_checked_add (self : Timestamp) (duration : Z) : option Timestamp :=
  nanos ← try_u64 duration;
  Timestamp_from_nanos <$> checked_add_u64 (ts_nanos self) nanos.

Definition Timestamp_checked_duration_since (self earlier : Timestamp) : option Z :=
  checked_sub_u64 (ts_nanos self) (ts_nanos earlier).

Definition Timestamp_saturating_duration_since (self earlier : Timestamp) : Z :=
  saturating_sub (ts_nanos self) (ts_nanos earlier).

(** [#[derive(PartialOrd, Ord)]] *)
#[export] Instance Ord_Timestamp : Ord Timestamp.
Proof.
  refine {| cmp a b := Z.compare (ts_nanos a) (ts_nanos b) |}.
  - intros [x] [y]. simpl. rewrite Z.compare_eq_iff. naive_solver.
  - intros. apply Z.compare_antisym.
  - intros x y z. rewrite !Z.compare_lt_iff. lia.
Defined.

(** ** [TimePoint] *)
Class TimePoint (T : Type) `{Ord T} : Type := {
  tp_checked_add : T → Z → option T;
  tp_saturating_duration_since : T → T → Z;
}.

(** What the users of a clock rely on. *)
Class TimePointLaws (T : Type) `{TimePoint T} : Prop := {
  tp_add_mono (t t' u u' : T) (d : Z) :
    ord_le t t' = true → tp_checked_add t d = Some u → tp_checked_add t' d = Some u' →
    ord_le u u' = true;
  tp_add_ge (t u : T) (d : Z) :
    0 <= d → tp_checked_add t d = Some u → ord_le t u = true;
  tp_add_defined (t t' : T) (d : Z) :
    ord_le t t' = true → is_Some (tp_checked_add t' d) → is_Some (tp_checked_add t d);
  tp_add_smaller (t : T) (d d' : Z) :
    0 <= d <= d' → is_Some (tp_checked_add t d') → is_Some (tp_checked_add t d);
  tp_since_add (t u : T) (d : Z) :
    0 <= d → tp_checked_add t d = Some u → tp_saturating_duration_since u t = d;
  tp_since_reached (t t' u : T) (d : Z) :
    0 < d → tp_checked_add t d = Some u →
    (d <=? tp_saturating_duration_since t' t) = ord_le u t';
  tp_add_zero (t u : T) : tp_checked_add t 0 = Some u → u = t;
}.

#[export] Instance TimePoint_Timestamp : TimePoint Timestamp := {
  tp_checked_add := Timestamp_checked_add;
  tp_saturating_duration_since := Timestamp_saturating_duration_since;
}.

Lemma Timestamp_le t t' : ord_le t t' = true ↔ ts_nanos t <= ts_nanos t'.
Proof. unfold ord_le. simpl. destruct (Z.compare_spec (ts_nanos t) (ts_nanos t')); split; lia || done. Qed.

Lemma Timestamp_checked_add_Some t d u :
  Timestamp_checked_add t d = Some u ↔
  0 <= d <= u64_MAX ∧ ts_nanos t + d <= u64_MAX ∧ ts_nanos u = ts_nanos t + d.
Proof.
  unfold Timestamp_checked_add, try_u64, checked_add_u64. destruct t as [t], u as [u]. simpl.
  destruct (_ && _) eqn:E; simpl; [|split; [done|lia]].
  destruct (t + d <=? u64_MAX) eqn:E'; simpl; [|split; [done|lia]].
  unfold Timestamp_from_nanos. split; [intros H; injection H as H; lia|]. intros (_ & _ & ->). done.
Qed.

#[export] Instance TimePointLaws_Timestamp : TimePointLaws Timestamp.
Proof.
  split.
  - intros t t' u u' d. rewrite !Timestamp_le. simpl.
    rewrite !Timestamp_checked_add_Some. lia.
  - intros t u d. rewrite Timestamp_le. simpl. rewrite Timestamp_checked_add_Some. lia.
  - intros t t' d. rewrite Timestamp_le. simpl.
    intros Hle [u (? & ? & ?)%Timestamp_checked_add_Some].
    exists {| ts_nanos := ts_nanos t + d |}. apply Timestamp_checked_add_Some. simpl. lia.
  - intros t d d' Hd. simpl. intros [u (? & ? & ?)%Timestamp_checked_add_Some].
    exists {| ts_nanos := ts_nanos t + d |}. apply Timestamp_checked_add_Some. simpl. lia.
  - intros t u d Hd. simpl. rewrite Timestamp_checked_add_Some.
    unfold Timestamp_saturating_duration_since, saturating_sub. lia.
  - intros t t' u d Hd. simpl. rewrite Timestamp_checked_add_Some.
    unfold Timestamp_saturating_duration_since, saturating_sub. intros (? & ? & ?).
    destruct (ord_le u t') eqn:E; [apply Timestamp_le in E; lia|].
    apply Z.leb_gt. apply not_true_iff_false in E. rewrite Timestamp_le in E. lia.
  - intros [t] [u]. simpl. rewrite Timestamp_checked_add_Some. simpl. intros Hu. f_equal. lia.
Qed.

(** ** Theorems *)

(** Converting a timestamp to milliseconds never fires a timer early.  [as_millis_ceil] is
    the first whole millisecond at or after the timestamp and [as_millis] the last one at or
    before it, neither leaves [u64]; a millisecond count of a signed uptime is accepted exactly
    when it is not negative and its nanoseconds fit, and converts back to itself. *)
Theorem timestamp_millis t :
  is_u64 (ts_nanos t) →
  (∀ m, ts_nanos t <= m * 1000000 ↔ Timestamp_as_millis_ceil t <= m) ∧
  (∀ m, m * 1000000 <= ts_nanos t ↔ m <= Timestamp_as_millis t) ∧
  is_u64 (Timestamp_as_millis_ceil t) ∧ is_u64 (Timestamp_as_millis t) ∧
  ∀ m, match Timestamp_try_from_uptime_millis m with
       | Ok u => 0 <= m ∧ is_u64 (ts_nanos u) ∧ Timestamp_as_millis u = m ∧
                 Timestamp_as_millis_ceil u = m
       | Err _ => m < 0 ∨ u64_MAX < m * 1000000
       | Panic => False
       end.
Proof.
  unfold is_u64, Timestamp_as_millis_ceil, Timestamp_as_millis. intros Ht. split_and!.
  - intros m. destruct (_ =? _) eqn:E; Z.div_mod_to_equations; lia.
  - intros m. Z.div_mod_to_equations; lia.
  - destruct (_ =? _); Z.div_mod_to_equations; lia.
  - destruct (_ =? _); Z.div_mod_to_equations; lia.
  - Z.div_mod_to_equations; lia.
  - Z.div_mod_to_equations; lia.
  - intros m. unfold Timestamp_try_from_uptime_millis, try_u64, Timestamp_try_from_millis,
      checked_mul_u64, u64_MAX. destruct (_ && _) eqn:E; simpl; [|lia].
    destruct (m * 1000000 <=? _) eqn:E'; simpl; [|lia].
    rewrite Z.div_mul, Z.mod_mul by done. simpl. lia.
Qed.

Lemma timestamp_millis_witness :
  Timestamp_as_millis_ceil {| ts_nanos := 1500001 |} = 2 ∧
  1500001 <= 2 * 1000000.
Proof.
  split; [reflexivity|].
  apply (proj1 (timestamp_millis {| ts_nanos := 1500001 |} ltac:(unfold is_u64; simpl; lia))).
  vm_compute. discriminate.
Defined.
