(* ===== verification/PriorityQueue.v ===== *)
(** * The bounded priority queue

    Models [PriorityQueue] of [src/priority_queue.rs], generic in the priority ([Ord]) and the
    element.  The [BTreeMap] is the list of its entries in ascending key order, the [VecDeque]
    of a priority its list.  The specification is the list of elements in the order they leave
    the queue: [enqueue] inserts behind every element of the same or a higher priority and,
    over capacity, evicts the earliest element of the lowest priority; [dequeue] and [peek]
    take the head.  Serialization to a file is not modelled. *)
From stdpp Require Import sorting.
From S2P Require Import Prelude Time.

Section PriorityQueue.
Context {P T : Type} `{Ord P}.

Record PriorityQueue : Type := {
  pq_map : list (P * list T);
  pq_capacity : Z;
  pq_size : Z;
}.

Definition PriorityQueue_new (capacity : Z) : PriorityQueue :=
  {| pq_map := []; pq_capacity := capacity; pq_size := 0 |}.

(** [map.entry(priority).or_default().push_back(item)] *)
Fixpoint btree_push_back (priority : P) (item : T) (map : list (P * list T)) : list (P * list T) :=
  match map with
  | [] => [(priority, [item])]
  | (k, q) :: map' =>
      match cmp priority k with
      | Lt => (priority, [item]) :: map
      | Eq => (k, q ++ [item]) :: map'
      | Gt => (k, q) :: btree_push_back priority item map'
      end
  end.

Definition PriorityQueue_drop_lowest_priority (self : PriorityQueue) : panics PriorityQueue :=
  match pq_map self with
  | [] => Ok self
  | (k, deque) :: map =>
      let deque := tail deque in
      let map := match deque with [] => map | _ => (k, deque) :: map end in
      size ← usub (pq_size self) 1;
      Ok {| pq_map := map; pq_capacity := pq_capacity self; pq_size := size |}
  end.

Definition PriorityQueue_enqueue (self : PriorityQueue) (priority : P) (item : T)
    : panics PriorityQueue :=
  let self := {| pq_map := btree_push_back priority item (pq_map self);
                 pq_capacity := pq_capacity self; pq_size := pq_size self + 1 |} in
  if pq_capacity self <? pq_size self
  then PriorityQueue_drop_lowest_priority self else Ok self.

(** [dequeue]: the [?] on the entry and on the element return [None] with nothing removed. *)
Definition PriorityQueue_dequeue (self : PriorityQueue) : panics (option (P * T) * PriorityQueue) :=
  if pq_size self =? 0 then Ok (None, self) else
  match last (pq_map self) with
  | None => Ok (None, self)
  | Some (prio, []) => Ok (None, self)
  | Some (prio, item :: deque) =>
      let front := removelast (pq_map self) in
      let map := match deque with [] => front | _ => front ++ [(prio, deque)] end in
      size ← usub (pq_size self) 1;
      Ok (Some (prio, item), {| pq_map := map; pq_capacity := pq_capacity self; pq_size := size |})
  end.

Definition PriorityQueue_peek (self : PriorityQueue) : option (P * T) :=
  '(prio, deque) ← last (pq_map self);
  item ← head deque;
  Some (prio, item).

(** [iter_mut] as the elements it visits, and the queue after a function was applied to each. *)
Definition PriorityQueue_iter_mut (f : T → T) (self : PriorityQueue) : PriorityQueue :=
  {| pq_map := (λ e : P * list T, (e.1, f <$> e.2)) <$> pq_map self;
     pq_capacity := pq_capacity self; pq_size := pq_size self |}.

Definition PriorityQueue_iter (self : PriorityQueue) : list (P * T) :=
  flat_map (λ '(priority, queue), (λ item, (priority, item)) <$> queue) (reverse (pq_map self)).

Definition PriorityQueue_len (self : PriorityQueue) : Z := pq_size self.

Definition PriorityQueue_is_empty (self : PriorityQueue) : bool := pq_size self =? 0.

Definition PriorityQueue_clear (self : PriorityQueue) : PriorityQueue :=
  {| pq_map := []; pq_capacity := pq_capacity self; pq_size := 0 |}.

(** ** The specification *)

(** Behind every element of the same or a higher priority. *)
Fixpoint insert_stable (priority : P) (item : T) (l : list (P * T)) : list (P * T) :=
  match l with
  | [] => [(priority, item)]
  | e :: l' => if ord_lt e.1 priority then (priority, item) :: l
               else e :: insert_stable priority item l'
  end.

(** Without the earliest element of the lowest priority: the first one that no later element
    undercuts. *)
Fixpoint evict (l : list (P * T)) : list (P * T) :=
  match l with
  | [] => []
  | e :: l' => if forallb (λ e', ord_le e.1 e'.1) l' then l' else e :: evict l'
  end.

Definition enqueue_spec (capacity : Z) (priority : P) (item : T) (l : list (P * T))
    : list (P * T) :=
  let l := insert_stable priority item l in
  if capacity <? zlen l then evict l else l.

(** The elements in the order they leave the queue. *)
Fixpoint contents_of (map : list (P * list T)) : list (P * T) :=
  match map with
  | [] => []
  | (k, q) :: map => contents_of map ++ (pair k <$> q)
  end.
Definition contents (self : PriorityQueue) : list (P * T) := contents_of (pq_map self).

(** Keys ascend strictly, no entry is empty. *)
Definition above (k : P) (e : P * list T) : Prop := ord_lt k e.1 = true.
Inductive btree_wf : list (P * list T) → Prop :=
  | btree_wf_nil : btree_wf []
  | btree_wf_cons k q map :
      q ≠ [] → Forall (above k) map → btree_wf map → btree_wf ((k, q) :: map).

Definition pq_inv (self : PriorityQueue) : Prop :=
  btree_wf (pq_map self) ∧ pq_size self = zlen (contents self) ∧
  pq_size self <= pq_capacity self.

(** ** Lemmas *)
Lemma contents_above k map :
  Forall (above k) map → Forall (λ e, ord_lt k e.1 = true) (contents_of map).
Proof.
  induction 1 as [|[k' q] map Hk _ IH]; [constructor|]. simpl. apply Forall_app. split; [done|].
  apply Forall_fmap. by apply Forall_true.
Qed.

Lemma contents_snoc map k q : contents_of (map ++ [(k, q)]) = (pair k <$> q) ++ contents_of map.
Proof.
  induction map as [|[k' q'] map IH]; simpl; [by rewrite app_nil_r|].
  by rewrite IH, app_assoc.
Qed.

Lemma insert_stable_app_l p x l r :
  Forall (λ e, ord_lt e.1 p = false) l → insert_stable p x (l ++ r) = l ++ insert_stable p x r.
Proof. induction 1 as [|e l He _ IH]; simpl; [done|]. by rewrite He, IH. Qed.

Lemma insert_stable_app_r p x l r :
  Forall (λ e, ord_lt e.1 p = true) r → insert_stable p x (l ++ r) = insert_stable p x l ++ r.
Proof.
  intros Hr. induction l as [|e l IH]; simpl.
  - destruct Hr as [|e r He _]; simpl; [done|]. by rewrite He.
  - destruct (ord_lt _ _); [done|]. by rewrite IH.
Qed.

Lemma ord_lt_asym (x y : P) : ord_lt x y = true → ord_lt y x = false.
Proof. intros E. rewrite ord_lt_not_le, (ord_lt_le _ _ E). done. Qed.

Lemma contents_push p x map :
  btree_wf map → contents_of (btree_push_back p x map) = insert_stable p x (contents_of map).
Proof.
  induction 1 as [|k q map Hq Hab Hwf IH]; [done|]. simpl.
  pose proof (contents_above k map Hab) as Hc.
  destruct (cmp p k) eqn:E.
  - apply cmp_eq in E as ->. simpl. rewrite insert_stable_app_l.
    2: { eapply Forall_impl; [exact Hc|]. intros e. apply ord_lt_asym. }
    f_equal. rewrite fmap_app. rewrite <- (app_nil_r (pair k <$> q)) at 2.
    rewrite insert_stable_app_l; [done|]. apply Forall_fmap, Forall_true.
    intros y. simpl. apply ord_lt_irrefl.
  - assert (ord_lt p k = true) as Hpk by (unfold ord_lt; by rewrite E). simpl.
    rewrite <- (app_nil_r (contents_of map ++ (pair k <$> q))) at 2.
    rewrite insert_stable_app_l; [done|]. apply Forall_app. split.
    + eapply Forall_impl; [exact Hc|]. intros e He. by apply ord_lt_asym, (ord_lt_trans p k).
    + apply Forall_fmap, Forall_true. intros y. by apply ord_lt_asym.
  - assert (ord_lt k p = true) as Hkp by (unfold ord_lt; by rewrite cmp_opp, E). simpl.
    rewrite IH, insert_stable_app_r; [done|]. apply Forall_fmap, Forall_true. by intros y.
Qed.

Lemma push_wf p x map : btree_wf map → btree_wf (btree_push_back p x map).
Proof.
  induction 1 as [|k q map Hq Hab Hwf IH]; simpl; [by repeat constructor|].
  destruct (cmp p k) eqn:E.
  - constructor; [by destruct q|done|done].
  - assert (ord_lt p k = true) as Hpk by (unfold ord_lt; by rewrite E).
    constructor; [done| |by constructor]. constructor; [done|].
    eapply Forall_impl; [exact Hab|]. intros e He. by apply (ord_lt_trans p k).
  - assert (ord_lt k p = true) as Hkp by (unfold ord_lt; by rewrite cmp_opp, E).
    constructor; [done| |done]. clear -Hab Hkp. induction Hab as [|[k' q'] map Hk' Hab IH]; simpl.
    + by repeat constructor.
    + destruct (cmp p k') eqn:E; repeat constructor; done.
Qed.

Lemma push_size p x map : zlen (insert_stable p x map) = 1 + zlen map.
Proof.
  induction map as [|e map IH]; simpl; [done|].
  destruct (ord_lt _ _); rewrite !zlen_cons, ?IH; lia.
Qed.

Lemma evict_lowest k x l r :
  Forall (λ e, ord_lt k e.1 = true) l → Forall (λ e, e.1 = k) r →
  evict (l ++ (k, x) :: r) = l ++ r.
Proof.
  intros Hl Hr. induction Hl as [|e l He _ IH]; simpl.
  - assert (forallb (λ e', ord_le k e'.1) r = true) as ->; [|done].
    apply forallb_forall. intros e' Hin%list_elem_of_In.
    rewrite (proj1 (Forall_forall _ _) Hr e' Hin). apply ord_le_refl.
  - assert (forallb (λ e', ord_le e.1 e'.1) (l ++ (k, x) :: r) = false) as ->.
    { apply not_true_iff_false. rewrite forallb_forall. intros Hall.
      assert (In (k, x) (l ++ (k, x) :: r)) as Hin by (apply in_app_iff; right; by left).
      specialize (Hall _ Hin). simpl in Hall. by rewrite ord_le_not_lt, He in Hall. }
    by rewrite IH.
Qed.

Lemma evict_zlen l : l ≠ [] → zlen (evict l) = zlen l - 1.
Proof.
  induction l as [|e l IH]; [done|]. intros _. simpl. destruct (forallb _ _) eqn:E.
  - rewrite zlen_cons. lia.
  - rewrite !zlen_cons, IH; [lia|]. intros ->. done.
Qed.

Lemma Forall_fst_fmap (k : P) (q : list T) : Forall (λ e : P * T, e.1 = k) (pair k <$> q).
Proof. apply Forall_fmap, Forall_true. done. Qed.

(** Splitting off the highest priority. *)
Lemma btree_wf_snoc map k q :
  btree_wf (map ++ [(k, q)]) ↔
  btree_wf map ∧ q ≠ [] ∧ Forall (λ e : P * list T, ord_lt e.1 k = true) map.
Proof.
  induction map as [|[k' q'] map IH]; simpl.
  - split; [inversion 1; subst|]; repeat constructor; naive_solver.
  - split.
    + inversion 1 as [|? ? ? Hq Hab Hwf]; subst. apply Forall_app in Hab as [Hab Hk].
      apply IH in Hwf as (? & ? & ?). apply Forall_cons_1 in Hk as [Hk _].
      split_and!; [by constructor|done|by constructor].
    + intros (Hwf & Hq & Hlt). inversion Hwf; subst. apply Forall_cons_1 in Hlt as [Hk Hlt].
      constructor; [done| |by apply IH]. apply Forall_app. split; [done|]. by repeat constructor.
Qed.

Lemma contents_pos map k q : btree_wf ((k, q) :: map) → 1 <= zlen (contents_of ((k, q) :: map)).
Proof.
  inversion 1 as [|? ? ? Hq _ _]; subst. simpl. rewrite zlen_app.
  destruct q; [done|]. rewrite fmap_cons, zlen_cons. zlen_pos. lia.
Qed.

(** Every operation keeps the invariant and does what the specification says. *)
Lemma drop_lowest_spec self :
  btree_wf (pq_map self) → pq_size self = zlen (contents self) →
  ∃ self', PriorityQueue_drop_lowest_priority self = Ok self' ∧ btree_wf (pq_map self') ∧
    contents self' = evict (contents self) ∧ pq_size self' = zlen (contents self') ∧
    pq_capacity self' = pq_capacity self.
Proof.
  unfold PriorityQueue_drop_lowest_priority, contents. intros Hwf Hs.
  destruct (pq_map self) as [|[k q] map] eqn:Em.
  { exists self. rewrite Em. by split_and!. }
  pose proof (contents_pos _ _ _ Hwf) as Hpos. inversion Hwf as [|? ? ? Hq Hab Hwf']; subst.
  destruct q as [|x q]; [done|]. unfold usub. replace (1 <=? pq_size self) with true by lia.
  rsimp. eexists. split; [done|]. cbn [pq_map pq_capacity pq_size tail].
  assert (contents_of (match q with [] => map | _ => (k, q) :: map end)
    = contents_of map ++ (pair k <$> q)) as Hc.
  { destruct q; [by rewrite app_nil_r|done]. }
  rewrite Hc. cbn [contents_of] in *. rewrite fmap_cons in *.
  rewrite (evict_lowest k x) by (apply contents_above || apply Forall_fst_fmap; done).
  split_and!; [|done| |done].
  - destruct q; [done|]. by constructor.
  - rewrite Hs, !zlen_app, zlen_cons. lia.
Qed.

Lemma enqueue_ok self priority item :
  pq_inv self → 0 <= pq_capacity self →
  ∃ self', PriorityQueue_enqueue self priority item = Ok self' ∧ pq_inv self' ∧
    contents self' = enqueue_spec (pq_capacity self) priority item (contents self) ∧
    pq_capacity self' = pq_capacity self.
Proof.
  intros (Hwf & Hs & Hle) Hcap. unfold PriorityQueue_enqueue, enqueue_spec.
  rewrite push_size. cbn [pq_capacity pq_size].
  set (q1 := {| pq_map := btree_push_back priority item (pq_map self);
                pq_capacity := pq_capacity self; pq_size := pq_size self + 1 |}).
  assert (contents q1 = insert_stable priority item (contents self)) as Hc by by apply contents_push.
  assert (btree_wf (pq_map q1)) as Hwf1 by by apply push_wf.
  assert (pq_size q1 = zlen (contents q1)) as Hs1 by (rewrite Hc, push_size; simpl; lia).
  replace (1 + zlen (contents self)) with (pq_size self + 1) by lia.
  destruct (_ <? _) eqn:E.
  - destruct (drop_lowest_spec q1 Hwf1 Hs1) as (q2 & Hq2 & Hwf2 & Hc2 & Hs2 & Hcap2).
    exists q2. rewrite <- Hc. split_and!; [done| |done|done]. split_and!; [done..|].
    rewrite Hs2, Hc2, Hcap2, evict_zlen; [simpl in *; lia|].
    intros E'. rewrite E', zlen_nil in Hs1. simpl in Hs1. zlen_pos. lia.
  - exists q1. rewrite <- Hc. split_and!; [done| |done|done]. split_and!; [done..|simpl; lia].
Qed.

Lemma dequeue_ok self :
  pq_inv self →
  ∃ self', PriorityQueue_dequeue self = Ok (head (contents self), self') ∧ pq_inv self' ∧
    contents self' = tail (contents self) ∧ pq_capacity self' = pq_capacity self.
Proof.
  intros (Hwf & Hs & Hle). unfold PriorityQueue_dequeue, contents in *.
  destruct (pq_map self) as [|[k q] map _] eqn:Em using rev_ind.
  { simpl in Hs. replace (pq_size self =? 0) with true by (rewrite zlen_nil in Hs; lia).
    exists self. rewrite Em. split_and!; try done. unfold pq_inv, contents. rewrite Em.
    split_and!; done || constructor. }
  rewrite contents_snoc in *. apply btree_wf_snoc in Hwf as (Hwf & Hq & Hlt).
  destruct q as [|x q]; [done|]. rewrite fmap_cons in *. rewrite last_snoc.
  cbn [app] in Hs. rewrite zlen_cons in Hs. pose proof (zlen_nonneg ((pair k <$> q) ++ contents_of map)).
  replace (pq_size self =? 0) with false by lia. unfold usub.
  replace (1 <=? pq_size self) with true by lia. rsimp. rewrite removelast_last.
  eexists. split; [done|].
  assert (contents_of (match q with [] => map | _ => map ++ [(k, q)] end)
    = (pair k <$> q) ++ contents_of map) as Hc by (destruct q; [done|apply contents_snoc]).
  cbn [app head tail]. split_and!; [|done|done].
  unfold pq_inv, contents. cbn [pq_map pq_size pq_capacity]. rewrite Hc. split_and!; [|lia..].
  destruct q; [done|]. apply btree_wf_snoc. done.
Qed.

Lemma peek_ok self : btree_wf (pq_map self) → PriorityQueue_peek self = head (contents self).
Proof.
  unfold PriorityQueue_peek, contents. intros Hwf.
  destruct (pq_map self) as [|[k q] map _] using rev_ind; [done|].
  rewrite contents_snoc, last_snoc. apply btree_wf_snoc in Hwf as (_ & Hq & _).
  by destruct q.
Qed.

Lemma iter_contents self : PriorityQueue_iter self = contents self.
Proof.
  unfold PriorityQueue_iter, contents. induction (pq_map self) as [|[k q] map IH]; [done|].
  rewrite reverse_cons, flat_map_app, IH. simpl. by rewrite app_nil_r.
Qed.
Lemma iter_mut_contents f self :
  contents (PriorityQueue_iter_mut f self) = (λ e : P * T, (e.1, f e.2)) <$> contents self.
Proof.
  unfold contents, PriorityQueue_iter_mut. cbn [pq_map].
  induction (pq_map self) as [|[k q] map IH]; [done|].
  rewrite fmap_cons. cbn [contents_of fst snd]. rewrite fmap_app, <- list_fmap_compose, IH.
  f_equal. by rewrite <- list_fmap_compose.
Qed.

Lemma iter_mut_inv f self : pq_inv self → pq_inv (PriorityQueue_iter_mut f self).
Proof.
  intros (Hwf & Hs & Hc). unfold pq_inv. rewrite iter_mut_contents. cbn [pq_size pq_capacity PriorityQueue_iter_mut].
  split_and!; [|unfold zlen in *; by rewrite length_fmap|done].
  unfold PriorityQueue_iter_mut. cbn [pq_map]. clear Hs Hc. induction Hwf as [|k q map Hq Hab Hwf IH]; [constructor|].
  rewrite fmap_cons. constructor; [by destruct q| |done].
  apply Forall_fmap. eapply Forall_impl; [exact Hab|]. done.
Qed.
End PriorityQueue.

(** ** Runs of the queue *)
Section runs.
Context {P T : Type} `{Ord P}.
Implicit Types (l : list (P * T)) (q : PriorityQueue (P:=P) (T:=T)).

Definition descending : list (P * T) → Prop := StronglySorted (λ e e', ord_le e'.1 e.1 = true).

(** The elements of one priority, in order. *)
Definition of_priority (k : P) (l : list (P * T)) : list T :=
  snd <$> filter (λ e, cmp e.1 k = Eq) l.

Fixpoint enqueue_all (q : PriorityQueue) (l : list (P * T)) : panics PriorityQueue :=
  match l with
  | [] => Ok q
  | (p, x) :: l => q ← PriorityQueue_enqueue q p x; enqueue_all q l
  end.

(** [dequeue] until it returns [None]. *)
Fixpoint drain (fuel : nat) (q : PriorityQueue) : panics (list (P * T)) :=
  match fuel with
  | O => Ok []
  | S fuel =>
      '(e, q) ← PriorityQueue_dequeue q;
      match e with
      | None => Ok []
      | Some e => l ← drain fuel q; Ok (e :: l)
      end
  end.

Lemma insert_stable_perm p (x : T) l : insert_stable p x l ≡ₚ (p, x) :: l.
Proof.
  induction l as [|e l IH]; simpl; [done|]. destruct (ord_lt _ _); [done|].
  rewrite IH. apply Permutation_swap.
Qed.

Lemma insert_stable_descending p (x : T) l : descending l → descending (insert_stable p x l).
Proof.
  unfold descending. induction 1 as [|e l Hs IH Hall]; simpl; [repeat constructor|].
  destruct (ord_lt _ _) eqn:E.
  - constructor; [by constructor|]. constructor; [by apply ord_lt_le|].
    eapply Forall_impl; [exact Hall|]. intros e' He'. simpl.
    apply (ord_le_trans _ e.1); [done|by apply ord_lt_le].
  - constructor; [done|]. rewrite insert_stable_perm. constructor; [|done].
    simpl. by rewrite ord_le_not_lt, E.
Qed.

Lemma of_priority_insert k p (x : T) l :
  descending l →
  of_priority k (insert_stable p x l) = of_priority k l ++ of_priority k [(p, x)].
Proof.
  unfold of_priority. induction 1 as [|e l Hs IH Hall]; simpl; [done|].
  destruct (ord_lt _ _) eqn:E.
  - rewrite <- fmap_app. rewrite filter_cons. destruct (decide _) as [Hpk|Hpk].
    + simpl in Hpk. apply cmp_eq in Hpk as ->.
      assert (filter (λ e', cmp e'.1 k = Eq) (e :: l) = []) as ->.
      { apply filter_none. constructor.
        - intros Heq%cmp_eq. subst k. by rewrite ord_lt_irrefl in E.
        - eapply Forall_impl; [exact Hall|]. simpl. intros e' He' Heq%cmp_eq. subst k.
          rewrite ord_le_not_lt in He'. by rewrite E in He'. }
      rewrite filter_cons_True, filter_nil by (by apply cmp_eq). done.
    + simpl in Hpk. rewrite (filter_cons_False _ (p, x)) by done. by rewrite filter_nil, app_nil_r.
  - rewrite !(filter_cons _ e). destruct (decide (cmp e.1 k = Eq)); [|done].
    rewrite !fmap_cons, IH. done.
Qed.

Lemma enqueue_all_ok l q :
  pq_inv q → descending (contents q) → zlen (contents q) + zlen l <= pq_capacity q →
  ∃ q', enqueue_all q l = Ok q' ∧ pq_inv q' ∧ descending (contents q') ∧
    contents q' ≡ₚ contents q ++ l ∧
    ∀ k, of_priority k (contents q') = of_priority k (contents q) ++ of_priority k l.
Proof.
  revert q. induction l as [|[p x] l IH]; intros q Hinv Hd Hcap; simpl.
  { exists q. unfold of_priority. rewrite app_nil_r. split_and!; try done. intros k. simpl.
    by rewrite app_nil_r. }
  rewrite zlen_cons in Hcap. zlen_pos. pose proof (zlen_nonneg (contents q)).
  destruct (enqueue_ok q p x Hinv ltac:(lia)) as (q1 & -> & Hinv1 & Hc1 & Hcap1). rsimp.
  unfold enqueue_spec in Hc1. rewrite push_size in Hc1.
  replace (_ <? _) with false in Hc1 by lia.
  destruct (IH q1) as (q' & Hq' & Hinv' & Hd' & Hp' & Hk'); [done|..].
  { rewrite Hc1. by apply insert_stable_descending. }
  { rewrite Hc1, push_size, Hcap1. lia. }
  exists q'. split_and!; [done..| |].
  - rewrite Hp', Hc1, insert_stable_perm. simpl. apply Permutation_middle.
  - intros k. rewrite Hk', Hc1, of_priority_insert by done. rewrite <- app_assoc.
    f_equal. unfold of_priority. rewrite <- fmap_app, <- filter_app. done.
Qed.

Lemma drain_ok fuel q : pq_inv q → (length (contents q) < fuel)%nat → drain fuel q = Ok (contents q).
Proof.
  revert q. induction fuel as [|fuel IH]; intros q Hinv Hf; [lia|]. simpl.
  destruct (dequeue_ok q Hinv) as (q' & -> & Hinv' & Hc' & _). rsimp.
  destruct (contents q) as [|e l] eqn:E; simpl in *; [done|].
  rewrite IH; [|done|rewrite Hc'; lia]. by rewrite Hc'.
Qed.

Lemma new_inv capacity : 0 <= capacity → pq_inv (PriorityQueue_new (P:=P) (T:=T) capacity).
Proof. intros. split_and!; [constructor|done|done]. Qed.

Lemma evict_split l :
  l ≠ [] → ∃ e l1 l2, l = l1 ++ e :: l2 ∧ evict l = l1 ++ l2 ∧
    Forall (λ e', ord_lt e.1 e'.1 = true) l1 ∧ Forall (λ e', ord_le e.1 e'.1 = true) l2.
Proof.
  induction l as [|e0 l IH]; [done|]. intros _. simpl. destruct (forallb _ _) eqn:E.
  { exists e0, [], l. split_and!; try done. apply Forall_forall. intros e' Hin%list_elem_of_In.
    by apply (proj1 (forallb_forall _ _) E). }
  destruct IH as (e & l1 & l2 & -> & -> & H1 & H2); [by intros ->|].
  exists e, (e0 :: l1), l2. split_and!; [done..| |done]. constructor; [|done].
  destruct (ord_lt e.1 e0.1) eqn:E'; [done|]. exfalso. apply not_true_iff_false in E. apply E.
  apply forallb_forall. intros e' Hin. assert (ord_le e0.1 e.1 = true) as Hle.
  { by rewrite ord_le_not_lt, E'. }
  apply (ord_le_trans _ e.1); [done|]. apply in_app_iff in Hin as [Hin|[<-|Hin]].
  - apply ord_lt_le. apply list_elem_of_In in Hin. by apply (proj1 (Forall_forall _ _) H1).
  - apply ord_le_refl.
  - apply list_elem_of_In in Hin. by apply (proj1 (Forall_forall _ _) H2).
Qed.
End runs.

(** ** Theorems *)

(** C40: the priority queue implements its specification.  From every queue that satisfies the
    invariant (keys ascending, no empty entry, [size] the number of elements and at most
    [capacity]) [enqueue], [dequeue] and [peek] return without panicking, keep the invariant,
    and act on the list of elements in leaving order: insertion behind the same and higher
    priorities with eviction over capacity, removal of the head, inspection of the head. *)
Theorem priority_queue_refines {P T : Type} `{Ord P} (self : PriorityQueue (P:=P) (T:=T)) priority item :
  pq_inv self → 0 <= pq_capacity self →
  (∃ self', PriorityQueue_enqueue self priority item = Ok self' ∧ pq_inv self' ∧
     contents self' = enqueue_spec (pq_capacity self) priority item (contents self) ∧
     pq_capacity self' = pq_capacity self) ∧
  (∃ self', PriorityQueue_dequeue self = Ok (head (contents self), self') ∧ pq_inv self' ∧
     contents self' = tail (contents self) ∧ pq_capacity self' = pq_capacity self) ∧
  PriorityQueue_peek self = head (contents self) ∧ PriorityQueue_iter self = contents self ∧
  PriorityQueue_len self = zlen (contents self).
Proof.
  intros Hinv Hcap. split_and!; [by apply enqueue_ok|by apply dequeue_ok| |apply iter_contents|apply Hinv].
  apply peek_ok, Hinv.
Qed.

Definition sample_queue : PriorityQueue (P:=Z) (T:=Z) :=
  {| pq_map := [(1, [10; 11]); (5, [50])]; pq_capacity := 3; pq_size := 3 |}.

Lemma sample_queue_inv : pq_inv sample_queue.
Proof. split_and!; [repeat constructor; done|done|done]. Qed.

Lemma priority_queue_refines_witness :
  PriorityQueue_peek sample_queue = Some (5, 50) ∧
  ∃ self', PriorityQueue_enqueue sample_queue 2 20 = Ok self' ∧ pq_inv self' ∧
    contents self' = [(5, 50); (2, 20); (1, 11)] ∧ pq_capacity self' = 3.
Proof.
  pose proof (priority_queue_refines sample_queue 2 20 sample_queue_inv ltac:(simpl; lia)) as H.
  split; [apply H|]. exact (proj1 H).
Defined.

(** The queue is a stable priority order.  Elements enqueued within the capacity are all
    dequeued again, higher priorities first and, at one priority, in the order they came. *)
Theorem priority_queue_order {P T : Type} `{Ord P} capacity (l : list (P * T)) :
  zlen l <= capacity →
  ∃ q out, enqueue_all (PriorityQueue_new capacity) l = Ok q ∧ drain (S (length l)) q = Ok out ∧
    out ≡ₚ l ∧ descending out ∧ ∀ k, of_priority k out = of_priority k l.
Proof.
  intros Hl. zlen_pos.
  destruct (enqueue_all_ok l (PriorityQueue_new capacity)) as (q & Hq & Hinv & Hd & Hp & Hk).
  { apply new_inv. lia. }
  { constructor. }
  { simpl. done. }
  exists q, (contents q). split_and!; [done| |done..]. apply drain_ok; [done|].
  rewrite Hp. simpl. lia.
Qed.

Lemma priority_queue_order_witness :
  ∃ q out, enqueue_all (PriorityQueue_new 3) [(1, 10); (5, 50); (1, 11)] = Ok q ∧
    drain 4 q = Ok out ∧ out ≡ₚ [(1, 10); (5, 50); (1, 11)] ∧ descending out ∧
    ∀ k, of_priority k out = of_priority k [(1, 10); (5, 50); (1, 11)].
Proof. apply (priority_queue_order 3 [(1, 10); (5, 50); (1, 11)]). vm_compute. discriminate. Defined.

(** A full queue evicts the oldest element of the lowest priority, the new element
    included, and nothing else. *)
Theorem priority_queue_eviction {P T : Type} `{Ord P} (self : PriorityQueue (P:=P) (T:=T)) priority item :
  pq_inv self → 0 <= pq_capacity self → pq_size self = pq_capacity self →
  ∃ self' e before after, PriorityQueue_enqueue self priority item = Ok self' ∧
    insert_stable priority item (contents self) = before ++ e :: after ∧
    contents self' = before ++ after ∧
    Forall (λ e', ord_lt e.1 e'.1 = true) before ∧ Forall (λ e', ord_le e.1 e'.1 = true) after.
Proof.
  intros Hinv Hcap Hfull. destruct (enqueue_ok self priority item Hinv Hcap) as (self' & He & _ & Hc & _).
  unfold enqueue_spec in Hc. rewrite push_size in Hc. destruct Hinv as (_ & Hs & _).
  replace (_ <? _) with true in Hc by lia.
  destruct (evict_split (insert_stable priority item (contents self))) as (e & l1 & l2 & Hl & Hev & H1 & H2).
  { intros E. pose proof (push_size priority item (contents self)) as Hz.
    rewrite E, zlen_nil in Hz. zlen_pos. lia. }
  exists self', e, l1, l2. split_and!; try done. congruence.
Qed.

Lemma priority_queue_eviction_witness :
  ∃ self' e before after, PriorityQueue_enqueue sample_queue 0 7 = Ok self' ∧
    insert_stable 0 7 (contents sample_queue) = before ++ e :: after ∧
    contents self' = before ++ after ∧
    Forall (λ e', ord_lt e.1 e'.1 = true) before ∧ Forall (λ e', ord_le e.1 e'.1 = true) after.
Proof. apply (priority_queue_eviction sample_queue 0 7 sample_queue_inv); [done|reflexivity]. Defined.
