(* ===== verification/Options.v ===== *)
(** * Client options

    Models [src/mqtt_client/opts.rs]: [OperationTimeouts], [MqttClientOptions] with its default
    and its builder methods, in the default feature set (without the TLS fields).  A [Duration]
    is its number of nanoseconds.  The methods that panic on an illegal argument return in
    [panics]. *)
From S2P Require Import Prelude BaseData TopicFilter Validation Properties Packets.

(** [Duration::from_secs] and [Duration::from_millis] *)
Definition Duration_from_secs (secs : Z) : Z := secs * 1000000000.
Definition Duration_from_millis (millis : Z) : Z := millis * 1000000.

Record OperationTimeouts : Type := {
  ot_connect : option Z;
  ot_publish : option Z;
  ot_subscribe : option Z;
  ot_unsubscribe : option Z;
}.

Definition OperationTimeouts_default : OperationTimeouts :=
  {| ot_connect := None; ot_publish := None; ot_subscribe := None; ot_unsubscribe := None |}.

Definition OperationTimeouts_cloud : OperationTimeouts := {|
  ot_connect := Some (Duration_from_secs 30);
  ot_publish := Some (Duration_from_secs 10);
  ot_subscribe := Some (Duration_from_secs 10);
  ot_unsubscribe := Some (Duration_from_secs 10);
|}.

Record MqttClientOptions : Type := {
  mo_operation_timeouts : OperationTimeouts;
  mo_incoming_receive_maximum : option Z;
  mo_max_incoming_packet_size : option Z;
  mo_max_incoming_buffer_bytes : option Z;
  mo_max_outgoing_buffer_bytes : option Z;
  mo_peer : bytes;
  mo_client_id : bytes;
  mo_clean_start : bool;
  mo_keep_alive : Z;
  mo_username : option bytes;
  mo_password : option bytes;
  mo_will : option Will5;
  mo_reconnect : bool;
  mo_mqtt_version : Z;
  mo_sessionless : bool;
  mo_subscription_topics : list TopicSubscription;
  mo_auto_ack : bool;
  mo_session_expiry_interval : option Z;
  mo_maximum_packet_size : option Z;
  mo_request_response_information : option bool;
  mo_request_problem_information : option bool;
  mo_reconnect_base_delay_ms : Z;
  mo_reconnect_max_delay_ms : Z;
  mo_max_reconnect_attempts : Z;
  mo_retransmission_timeout_ms : Z;
  mo_ping_timeout_multiplier : Z;
  mo_max_outgoing_packet_count : Z;
  mo_max_event_count : Z;
  mo_receive_maximum : Z;
  mo_connect_properties : list Property;
  mo_parser_buffer_size : Z;
  mo_auto_keepalive : bool;
}.

#[export] Instance Rebuild_MqttClientOptions : Rebuild MqttClientOptions := λ o, {|
  mo_operation_timeouts := mo_operation_timeouts o;
  mo_incoming_receive_maximum := mo_incoming_receive_maximum o;
  mo_max_incoming_packet_size := mo_max_incoming_packet_size o;
  mo_max_incoming_buffer_bytes := mo_max_incoming_buffer_bytes o;
  mo_max_outgoing_buffer_bytes := mo_max_outgoing_buffer_bytes o;
  mo_peer := mo_peer o; mo_client_id := mo_client_id o; mo_clean_start := mo_clean_start o;
  mo_keep_alive := mo_keep_alive o; mo_username := mo_username o;
  mo_password := mo_password o; mo_will := mo_will o; mo_reconnect := mo_reconnect o;
  mo_mqtt_version := mo_mqtt_version o; mo_sessionless := mo_sessionless o;
  mo_subscription_topics := mo_subscription_topics o; mo_auto_ack := mo_auto_ack o;
  mo_session_expiry_interval := mo_session_expiry_interval o;
  mo_maximum_packet_size := mo_maximum_packet_size o;
  mo_request_response_information := mo_request_response_information o;
  mo_request_problem_information := mo_request_problem_information o;
  mo_reconnect_base_delay_ms := mo_reconnect_base_delay_ms o;
  mo_reconnect_max_delay_ms := mo_reconnect_max_delay_ms o;
  mo_max_reconnect_attempts := mo_max_reconnect_attempts o;
  mo_retransmission_timeout_ms := mo_retransmission_timeout_ms o;
  mo_ping_timeout_multiplier := mo_ping_timeout_multiplier o;
  mo_max_outgoing_packet_count := mo_max_outgoing_packet_count o;
  mo_max_event_count := mo_max_event_count o; mo_receive_maximum := mo_receive_maximum o;
  mo_connect_properties := mo_connect_properties o;
  mo_parser_buffer_size := mo_parser_buffer_size o; mo_auto_keepalive := mo_auto_keepalive o;
|}.

Definition MqttClientOptions_default : MqttClientOptions := {|
  mo_operation_timeouts := OperationTimeouts_default;
  mo_incoming_receive_maximum := None;
  mo_max_incoming_packet_size := None;
  mo_max_incoming_buffer_bytes := None;
  mo_max_outgoing_buffer_bytes := None;
  mo_peer := str "localhost:1883";
  mo_client_id := str "mqtt_client";
  mo_clean_start := true;
  mo_keep_alive := 60;
  mo_username := None;
  mo_password := None;
  mo_will := None;
  mo_reconnect := false;
  mo_mqtt_version := 5;
  mo_sessionless := false;
  mo_subscription_topics := [];
  mo_auto_ack := true;
  mo_session_expiry_interval := None;
  mo_maximum_packet_size := None;
  mo_request_response_information := None;
  mo_request_problem_information := None;
  mo_reconnect_base_delay_ms := 1000;
  mo_reconnect_max_delay_ms := 60000;
  mo_max_reconnect_attempts := 0;
  mo_retransmission_timeout_ms := 5000;
  mo_ping_timeout_multiplier := 2;
  mo_max_outgoing_packet_count := 1000;
  mo_max_event_count := 1000;
  mo_receive_maximum := 65535;
  mo_connect_properties := [];
  mo_parser_buffer_size := 16384;
  mo_auto_keepalive := true;
|}.

(** ** The builder

    One constructor per builder method; [MqttClientOptions_set] runs the method. *)
Inductive OptionsSetter : Type :=
  | Set_operation_timeouts (timeouts : OperationTimeouts)
  | Set_incoming_receive_maximum (maximum : Z)
  | Set_max_incoming_packet_size (size : Z)
  | Set_max_incoming_buffer_bytes (size : Z)
  | Set_max_outgoing_buffer_bytes (size : Z)
  | Set_peer (peer : bytes)
  | Set_client_id (client_id : bytes)
  | Set_clean_start (clean_start : bool)
  | Set_keep_alive (keep_alive : Z)
  | Set_auto_keepalive (enabled : bool)
  | Set_username (username : bytes)
  | Set_password (password : bytes)
  | Set_will (will : Will5)
  | Set_reconnect (reconnect : bool)
  | Set_sessionless (sessionless : bool)
  | Set_subscription_topics (topics : list TopicSubscription)
  | Set_add_subscription_topic (topic : TopicSubscription)
  | Set_auto_ack (auto_ack : bool)
  | Set_mqtt_version (version : Z)
  | Set_session_expiry_interval (interval : Z)
  | Set_maximum_packet_size (size : Z)
  | Set_no_maximum_packet_size
  | Set_request_response_information (request : bool)
  | Set_request_problem_information (request : bool)
  | Set_connect_properties (properties : list Property)
  | Set_reconnect_base_delay_ms (delay_ms : Z)
  | Set_reconnect_max_delay_ms (delay_ms : Z)
  | Set_max_reconnect_attempts (attempts : Z)
  | Set_retransmission_timeout_ms (timeout_ms : Z)
  | Set_ping_timeout_multiplier (multiplier : Z)
  | Set_max_outgoing_packet_count (count : Z)
  | Set_max_event_count (count : Z)
  | Set_receive_maximum (max : Z)
  | Set_parser_buffer_size (size : Z).

Definition MqttClientOptions_set (self : MqttClientOptions) (s : OptionsSetter)
    : panics MqttClientOptions :=
  match s with
  | Set_operation_timeouts t => Ok (self <| mo_operation_timeouts := t |>)
  | Set_incoming_receive_maximum m => Ok (self <| mo_incoming_receive_maximum := Some m |>)
  | Set_max_incoming_packet_size n => Ok (self <| mo_max_incoming_packet_size := Some n |>)
  | Set_max_incoming_buffer_bytes n => Ok (self <| mo_max_incoming_buffer_bytes := Some n |>)
  | Set_max_outgoing_buffer_bytes n => Ok (self <| mo_max_outgoing_buffer_bytes := Some n |>)
  | Set_peer p => Ok (self <| mo_peer := p |>)
  | Set_client_id c => Ok (self <| mo_client_id := c |>)
  | Set_clean_start b => Ok (self <| mo_clean_start := b |>)
  | Set_keep_alive k => Ok (self <| mo_keep_alive := k |>)
  | Set_auto_keepalive b => Ok (self <| mo_auto_keepalive := b |>)
  | Set_username u => Ok (self <| mo_username := Some u |>)
  | Set_password p => Ok (self <| mo_password := Some p |>)
  | Set_will w => Ok (self <| mo_will := Some w |>)
  | Set_reconnect b => Ok (self <| mo_reconnect := b |>)
  | Set_sessionless b => Ok (self <| mo_sessionless := b |>)
  | Set_subscription_topics l => Ok (self <| mo_subscription_topics := l |>)
  | Set_add_subscription_topic t => Ok (self <| mo_subscription_topics ::= λ l, l ++ [t] |>)
  | Set_auto_ack b => Ok (self <| mo_auto_ack := b |>)
  | Set_mqtt_version version =>
      if negb (version =? 3) && negb (version =? 4) && negb (version =? 5) then Panic
      else Ok (self <| mo_mqtt_version := version |>)
  | Set_session_expiry_interval i => Ok (self <| mo_session_expiry_interval := Some i |>)
  | Set_maximum_packet_size size =>
      if size =? 0 then Panic else Ok (self <| mo_maximum_packet_size := Some size |>)
  | Set_no_maximum_packet_size => Ok (self <| mo_maximum_packet_size := None |>)
  | Set_request_response_information b => Ok (self <| mo_request_response_information := Some b |>)
  | Set_request_problem_information b => Ok (self <| mo_request_problem_information := Some b |>)
  | Set_connect_properties l => Ok (self <| mo_connect_properties := l |>)
  | Set_reconnect_base_delay_ms d => Ok (self <| mo_reconnect_base_delay_ms := d |>)
  | Set_reconnect_max_delay_ms d => Ok (self <| mo_reconnect_max_delay_ms := d |>)
  | Set_max_reconnect_attempts n => Ok (self <| mo_max_reconnect_attempts := n |>)
  | Set_retransmission_timeout_ms t => Ok (self <| mo_retransmission_timeout_ms := t |>)
  | Set_ping_timeout_multiplier m => Ok (self <| mo_ping_timeout_multiplier := m |>)
  | Set_max_outgoing_packet_count n => Ok (self <| mo_max_outgoing_packet_count := n |>)
  | Set_max_event_count n => Ok (self <| mo_max_event_count := n |>)
  | Set_receive_maximum m => Ok (self <| mo_receive_maximum := m |>)
  | Set_parser_buffer_size n => Ok (self <| mo_parser_buffer_size := n |>)
  end.

(** [MqttClientOptions::builder().s1().s2(). ... .build()] *)
Fixpoint build_options (self : MqttClientOptions) (setters : list OptionsSetter)
    : panics MqttClientOptions :=
  match setters with
  | [] => Ok self
  | s :: setters => self ← MqttClientOptions_set self s; build_options self setters
  end.

(** ** Well-formed options

    Every field in the range of its Rust type, a protocol version the client speaks, and a
    maximum packet size MQTT 5 allows. *)
Definition is_usize (z : Z) : Prop := is_u64 z.

Definition wf_timeouts (t : OperationTimeouts) : Prop :=
  wf_opt (λ d, 0 <= d) (ot_connect t) ∧ wf_opt (λ d, 0 <= d) (ot_publish t) ∧
  wf_opt (λ d, 0 <= d) (ot_subscribe t) ∧ wf_opt (λ d, 0 <= d) (ot_unsubscribe t).

Record wf_options (o : MqttClientOptions) : Prop := {
  wo_timeouts : wf_timeouts (mo_operation_timeouts o);
  wo_incoming_receive_maximum : wf_opt is_u16 (mo_incoming_receive_maximum o);
  wo_incoming_packet_size : wf_opt is_usize (mo_max_incoming_packet_size o);
  wo_incoming_buffer : wf_opt is_usize (mo_max_incoming_buffer_bytes o);
  wo_outgoing_buffer : wf_opt is_usize (mo_max_outgoing_buffer_bytes o);
  wo_peer : wf_str (mo_peer o);
  wo_client_id : wf_str (mo_client_id o);
  wo_keep_alive : is_u16 (mo_keep_alive o);
  wo_username : wf_opt wf_str (mo_username o);
  wo_password : wf_opt u8s (mo_password o);
  wo_will : wf_opt wf_will5 (mo_will o);
  wo_mqtt_version : mo_mqtt_version o = 3 ∨ mo_mqtt_version o = 4 ∨ mo_mqtt_version o = 5;
  wo_subscription_topics : Forall wf_subscription (mo_subscription_topics o);
  wo_session_expiry : wf_opt is_u32 (mo_session_expiry_interval o);
  wo_maximum_packet_size : wf_opt (λ n, 0 < n < 4294967296) (mo_maximum_packet_size o);
  wo_base_delay : is_u64 (mo_reconnect_base_delay_ms o);
  wo_max_delay : is_u64 (mo_reconnect_max_delay_ms o);
  wo_attempts : is_u32 (mo_max_reconnect_attempts o);
  wo_retransmission : is_u64 (mo_retransmission_timeout_ms o);
  wo_ping_multiplier : is_u32 (mo_ping_timeout_multiplier o);
  wo_outgoing_count : is_usize (mo_max_outgoing_packet_count o);
  wo_event_count : is_usize (mo_max_event_count o);
  wo_receive_maximum : is_u16 (mo_receive_maximum o);
  wo_connect_properties : Forall wf_property (mo_connect_properties o);
  wo_parser_buffer : is_usize (mo_parser_buffer_size o);
}.

(** The arguments the type checker lets through. *)
Definition typed_setter (s : OptionsSetter) : Prop :=
  match s with
  | Set_operation_timeouts t => wf_timeouts t
  | Set_incoming_receive_maximum n | Set_receive_maximum n | Set_keep_alive n => is_u16 n
  | Set_max_incoming_packet_size n | Set_max_incoming_buffer_bytes n
  | Set_max_outgoing_buffer_bytes n | Set_max_outgoing_packet_count n | Set_max_event_count n
  | Set_parser_buffer_size n => is_usize n
  | Set_peer b | Set_client_id b | Set_username b => wf_str b
  | Set_password b => u8s b
  | Set_will w => wf_will5 w
  | Set_subscription_topics l => Forall wf_subscription l
  | Set_add_subscription_topic t => wf_subscription t
  | Set_mqtt_version v => is_u8 v
  | Set_session_expiry_interval n | Set_maximum_packet_size n | Set_max_reconnect_attempts n
  | Set_ping_timeout_multiplier n => is_u32 n
  | Set_connect_properties l => Forall wf_property l
  | Set_reconnect_base_delay_ms n | Set_reconnect_max_delay_ms n
  | Set_retransmission_timeout_ms n => is_u64 n
  | _ => True
  end.

(** The arguments the builder methods do not panic on. *)
Definition accepted_setter (s : OptionsSetter) : bool :=
  match s with
  | Set_mqtt_version v => (v =? 3) || (v =? 4) || (v =? 5)
  | Set_maximum_packet_size n => negb (n =? 0)
  | _ => true
  end.

Lemma default_options_wf : wf_options MqttClientOptions_default.
Proof.
  split; simpl; unfold wf_timeouts, wf_str, is_usize, is_u16, is_u32, is_u64; simpl;
    first [lia | repeat constructor; (lia || done)].
Qed.

Lemma set_option_wf o s :
  wf_options o → typed_setter s →
  if accepted_setter s then ∃ o', MqttClientOptions_set o s = Ok o' ∧ wf_options o'
  else MqttClientOptions_set o s = Panic.
Proof.
  intros Ho Hs. destruct (accepted_setter s) eqn:Ha.
  - destruct s; simpl in *;
      repeat match goal with
      | |- context [?n =? ?k] => destruct (Z.eqb_spec n k); simpl in *
      end; try done;
      (eexists; split; [reflexivity|]); destruct Ho; split; simpl; auto;
      unfold is_u32 in *; try lia.
    apply Forall_app. auto.
  - destruct s; simpl in *; try done.
    + by destruct (version =? 3), (version =? 4), (version =? 5).
    + by destruct (size =? 0).
Qed.

Lemma build_options_wf setters o :
  wf_options o → Forall typed_setter setters →
  if forallb accepted_setter setters
  then ∃ o', build_options o setters = Ok o' ∧ wf_options o'
  else build_options o setters = Panic.
Proof.
  revert o. induction setters as [|s setters IH]; intros o Ho Ht; simpl; [eauto|].
  apply Forall_cons_1 in Ht as [Hs Ht]. pose proof (set_option_wf o s Ho Hs) as H.
  destruct (accepted_setter s); simpl.
  - destruct H as (o' & -> & Ho'). simpl. by apply IH.
  - by rewrite H.
Qed.

(** ** Theorems *)

(** Options are well formed by construction.  A chain of builder calls with arguments of
    the right types panics exactly when it sets a protocol version other than 3, 4 and 5 or a
    maximum packet size of 0, and otherwise ends in options whose fields are in range: the
    configuration every other component starts from. *)
Theorem built_options_wf setters :
  Forall typed_setter setters →
  if forallb accepted_setter setters
  then ∃ o, build_options MqttClientOptions_default setters = Ok o ∧ wf_options o
  else build_options MqttClientOptions_default setters = Panic.
Proof. apply build_options_wf, default_options_wf. Qed.

Lemma built_options_wf_witness :
  ∃ o, build_options MqttClientOptions_default
         [Set_mqtt_version 4; Set_keep_alive 30; Set_maximum_packet_size 1024] = Ok o ∧
       wf_options o.
Proof.
  apply (built_options_wf [Set_mqtt_version 4; Set_keep_alive 30; Set_maximum_packet_size 1024]).
  repeat constructor; unfold is_u8, is_u16, is_u32; simpl; lia.
Defined.
