(* ===== verification/ClientTypes.v ===== *)
(** * Results of operations

    Models [src/mqtt_client/types.rs]: the results the client reports for each operation, their
    success predicates, and the names of the MQTT 5 reason codes. *)
From S2P Require Import Prelude BaseData TopicFilter Validation.

(** [reason_code_to_string] of Table 2-6 of MQTT 5. *)
Definition reason_code_to_string (code : Z) : string :=
  match code with
  | 0 => "Success"
  | 1 => "Granted QoS 1"
  | 2 => "Granted QoS 2"
  | 4 => "Disconnect with Will Message"
  | 16 => "No matching subscribers"
  | 17 => "No subscription existed"
  | 24 => "Continue authentication"
  | 25 => "Re-authenticate"
  | 128 => "Unspecified error"
  | 129 => "Malformed Packet"
  | 130 => "Protocol Error"
  | 131 => "Implementation specific error"
  | 132 => "Unsupported Protocol Version"
  | 133 => "Client Identifier not valid"
  | 134 => "Bad User Name or Password"
  | 135 => "Not authorized"
  | 136 => "Server unavailable"
  | 137 => "Server busy"
  | 138 => "Banned"
  | 139 => "Server shutting down"
  | 140 => "Bad authentication method"
  | 141 => "Keep Alive timeout"
  | 142 => "Session taken over"
  | 143 => "Topic Filter invalid"
  | 144 => "Topic Name invalid"
  | 145 => "Packet Identifier in use"
  | 146 => "Packet Identifier not found"
  | 147 => "Receive Maximum exceeded"
  | 148 => "Topic Alias invalid"
  | 149 => "Packet too large"
  | 150 => "Message rate too high"
  | 151 => "Quota exceeded"
  | 152 => "Administrative action"
  | 153 => "Payload format invalid"
  | 154 => "Retain not supported"
  | 155 => "QoS not supported"
  | 156 => "Use another server"
  | 157 => "Server moved"
  | 158 => "Shared Subscriptions not supported"
  | 159 => "Connection rate exceeded"
  | 160 => "Maximum connect time"
  | 161 => "Subscription Identifiers not supported"
  | 162 => "Wildcard Subscriptions not supported"
  | _ => "Unknown reason code"
  end.

Record ConnectionResult : Type := {
  cr_reason_code : Z;
  cr_session_present : bool;
  cr_properties : option (list Property);
}.

Definition ConnectionResult_is_success (self : ConnectionResult) : bool := cr_reason_code self =? 0.
Definition ConnectionResult_is_failure (self : ConnectionResult) : bool :=
  negb (cr_reason_code self =? 0).
Definition ConnectionResult_reason_description (self : ConnectionResult) : string :=
  reason_code_to_string (cr_reason_code self).

Record AuthResult : Type := { ar_reason_code : Z; ar_properties : list Property }.

Definition AuthResult_is_success (self : AuthResult) : bool := ar_reason_code self =? 0.
Definition AuthResult_is_continue (self : AuthResult) : bool := ar_reason_code self =? 24.
Definition AuthResult_is_re_authenticate (self : AuthResult) : bool := ar_reason_code self =? 25.
Definition AuthResult_reason_description (self : AuthResult) : string :=
  match ar_reason_code self with
  | 0 => "Success"
  | 24 => "Continue authentication"
  | 25 => "Re-authenticate"
  | _ => "Unknown authentication reason code"
  end.

Record SubscribeResult : Type := {
  sr_packet_id : Z;
  sr_reason_codes : list Z;
  sr_properties : list Property;
}.

Definition SubscribeResult_is_success (self : SubscribeResult) : bool :=
  forallb (λ code, code <=? 2) (sr_reason_codes self).
Definition SubscribeResult_successful_subscriptions (self : SubscribeResult) : Z :=
  zlen (List.filter (λ code, code <=? 2) (sr_reason_codes self)).

Record UnsubscribeResult : Type := {
  ur_packet_id : Z;
  ur_reason_codes : list Z;
  ur_properties : list Property;
}.

Definition UnsubscribeResult_is_success (self : UnsubscribeResult) : bool :=
  forallb (λ code, (code =? 0) || (code =? 17)) (ur_reason_codes self).

Record PublishResult : Type := {
  pr_packet_id : option Z;
  pr_reason_code : option Z;
  pr_properties : option (list Property);
  pr_qos : Z;
}.

Definition PublishResult_is_success (self : PublishResult) : bool :=
  match pr_reason_code self with None => true | Some code => code <? 128 end.
Definition PublishResult_reason_description (self : PublishResult) : string :=
  match pr_reason_code self with
  | None => "Success (QoS 0)"
  | Some code => reason_code_to_string code
  end.

Record PingResult : Type := { pg_success : bool }.

(** ** Theorems *)

Lemma subscribe_all_or_count self :
  SubscribeResult_is_success self = true ↔
  SubscribeResult_successful_subscriptions self = zlen (sr_reason_codes self).
Proof.
  destruct self as [id codes ps].
  unfold SubscribeResult_is_success, SubscribeResult_successful_subscriptions; simpl.
  assert (Hle : ∀ l : list Z, zlen (List.filter (λ code, code <=? 2) l) <= zlen l).
  { induction l as [|c l IH]; simpl; [done|]. destruct (c <=? 2); zlia. }
  induction codes as [|c codes IH]; simpl; [done|].
  specialize (Hle codes). destruct (c <=? 2); simpl; rewrite !zlen_cons; [rewrite IH|]; split; intros; (done || lia).
Qed.

(** The codes some packet may carry. *)
Definition legal_codes : list Z :=
  List.filter (λ code, existsb (λ kind, is_Ok (validation_reason kind code))
      [CONNACK; PUBACK; PUBREC; PUBREL; PUBCOMP; SUBACK; UNSUBACK; DISCONNECT; AUTH])
    (seqZ 0 256).

Lemma legal_codes_spec kind code : validation_reason kind code = Ok () → code ∈ legal_codes.
Proof.
  intros H. apply (proj1 (validation_require_Ok _ _)) in H.
  apply existsb_exists in H as (c & Hin & ->%Z.eqb_eq). apply list_elem_of_In in Hin.
  revert c Hin. apply Forall_forall. destruct kind; apply (bool_decide_unpack _); by vm_compute.
Qed.

Lemma names_apart :
  Forall (λ c, reason_code_to_string c ≠ "Unknown reason code"%string ∧
    Forall (λ c', reason_code_to_string c' = reason_code_to_string c → c' = c) legal_codes)
    legal_codes.
Proof. apply (bool_decide_unpack _). by vm_compute. Qed.

(** The reason codes are named and their names read apart.  Every code the validation of
    some packet type accepts has a name of its own in the table of reason codes, so a reported
    description identifies the code; and on the codes each acknowledgement may carry, the
    success predicates of the results agree with the protocol's split at 0x80. *)
Theorem reason_codes_named kind code :
  validation_reason kind code = Ok () →
  reason_code_to_string code ≠ "Unknown reason code"%string ∧
  (∀ kind' code', validation_reason kind' code' = Ok () →
     reason_code_to_string code' = reason_code_to_string code → code' = code) ∧
  (kind = PUBACK ∨ kind = PUBREC → ∀ id ps qos,
     PublishResult_is_success {| pr_packet_id := id; pr_reason_code := Some code;
                                 pr_properties := ps; pr_qos := qos |} = (code <? 128)) ∧
  (kind = SUBACK → ∀ id ps,
     SubscribeResult_is_success {| sr_packet_id := id; sr_reason_codes := [code];
                                   sr_properties := ps |} = (code <? 128)) ∧
  (kind = UNSUBACK → ∀ id ps,
     UnsubscribeResult_is_success {| ur_packet_id := id; ur_reason_codes := [code];
                                     ur_properties := ps |} = (code <? 128)).
Proof.
  intros H. pose proof (legal_codes_spec _ _ H) as Hl.
  pose proof (proj1 (Forall_forall _ _) names_apart _ Hl) as [Hn Ha]. split; [done|]. split.
  { intros kind' code' H' He. rewrite Forall_forall in Ha.
    by apply Ha; [apply (legal_codes_spec kind')|]. }
  apply (proj1 (validation_require_Ok _ _)) in H.
  apply existsb_exists in H as (c & Hin & ->%Z.eqb_eq).
  split; [done|]; split; intros -> id ps; revert c Hin Hl Hn Ha;
    unfold SubscribeResult_is_success, UnsubscribeResult_is_success;
    refine (proj1 (List.Forall_forall _ _) _); repeat constructor.
Qed.

Lemma reason_codes_named_witness :
  validation_reason DISCONNECT 139 = Ok () ∧
  reason_code_to_string 139 ≠ "Unknown reason code"%string.
Proof. split; [done|]. by apply (reason_codes_named DISCONNECT 139). Defined.
