(* ===== verification/Commands.v ===== *)
(** * Client commands

    Models [src/mqtt_client/commands.rs] (with owned payloads, the default): the PUBLISH,
    SUBSCRIBE and UNSUBSCRIBE commands of the application, their builders, and the conversion
    of a PUBLISH command to the packets of MQTT 5 and 3.1.1. *)
From S2P Require Import Prelude BaseData TopicFilter Validation Properties Packets.

(** ** The packet constructors the commands use *)
Definition MqttPublish5_new_with_prop (qos : Z) (topic_name : bytes) (packet_id : option Z)
    (payload : bytes) (retain dup : bool) (properties : list Property) : MqttPublish5 := {|
  p5_topic_name := topic_name; p5_qos := qos; p5_dup := dup; p5_retain := retain;
  p5_packet_id := packet_id; p5_payload := payload; p5_properties := properties;
|}.

Definition MqttPublish3_new (topic_name : bytes) (qos : Z) (payload : bytes)
    (message_id : option Z) (retain dup : bool) : MqttPublish3 := {|
  p3_dup := dup; p3_qos := qos; p3_retain := retain; p3_topic_name := topic_name;
  p3_message_id := message_id; p3_payload := payload;
|}.

Definition TopicSubscription_new (topic_filter : bytes) (qos : Z)
    (no_local retain_as_published : bool) (retain_handling : Z) : TopicSubscription := {|
  ts_topic_filter := topic_filter; ts_qos := qos; ts_no_local := no_local;
  ts_retain_as_published := retain_as_published; ts_retain_handling := retain_handling;
|}.

Definition TopicSubscription_new_simple (topic_filter : bytes) (qos : Z) : TopicSubscription :=
  TopicSubscription_new topic_filter qos false false 0.

#[export] Instance Rebuild_TopicSubscription : Rebuild TopicSubscription := λ t, {|
  ts_topic_filter := ts_topic_filter t; ts_qos := ts_qos t; ts_no_local := ts_no_local t;
  ts_retain_as_published := ts_retain_as_published t;
  ts_retain_handling := ts_retain_handling t;
|}.

(** ** PUBLISH *)
Record PublishCommand : Type := {
  pc_topic_name : bytes;
  pc_payload : bytes;
  pc_qos : Z;
  pc_retain : bool;
  pc_dup : bool;
  pc_packet_id : option Z;
  pc_properties : list Property;
  pc_priority : Z;
}.

#[export] Instance Rebuild_PublishCommand : Rebuild PublishCommand := λ c, {|
  pc_topic_name := pc_topic_name c; pc_payload := pc_payload c; pc_qos := pc_qos c;
  pc_retain := pc_retain c; pc_dup := pc_dup c; pc_packet_id := pc_packet_id c;
  pc_properties := pc_properties c; pc_priority := pc_priority c;
|}.

Definition PublishCommand_new (topic_name payload : bytes) (qos : Z) (retain dup : bool)
    (packet_id : option Z) (properties : list Property) (priority : Z) : PublishCommand := {|
  pc_topic_name := topic_name; pc_payload := payload; pc_qos := qos; pc_retain := retain;
  pc_dup := dup; pc_packet_id := packet_id; pc_properties := properties;
  pc_priority := priority;
|}.

Definition PublishCommand_simple (topic payload : bytes) (qos : Z) (retain : bool)
    : PublishCommand :=
  PublishCommand_new topic payload qos retain false None [] 128.

Definition PublishCommand_with_priority (topic payload : bytes) (qos : Z) (retain : bool)
    (priority : Z) : PublishCommand :=
  PublishCommand_new topic payload qos retain false None [] priority.

Definition PublishCommand_to_mqtt_publish (self : PublishCommand) : MqttPublish5 :=
  MqttPublish5_new_with_prop (pc_qos self) (pc_topic_name self) (pc_packet_id self)
    (pc_payload self) (pc_retain self) (pc_dup self) (pc_properties self).

Definition PublishCommand_into_mqtt_publish (self : PublishCommand) : MqttPublish5 :=
  MqttPublish5_new_with_prop (pc_qos self) (pc_topic_name self) (pc_packet_id self)
    (pc_payload self) (pc_retain self) (pc_dup self) (pc_properties self).

Definition PublishCommand_to_mqttv3_publish (self : PublishCommand) : MqttPublish3 :=
  MqttPublish3_new (pc_topic_name self) (pc_qos self) (pc_payload self) (pc_packet_id self)
    (pc_retain self) (pc_dup self).

Definition PublishCommand_into_mqttv3_publish (self : PublishCommand) : MqttPublish3 :=
  MqttPublish3_new (pc_topic_name self) (pc_qos self) (pc_payload self) (pc_packet_id self)
    (pc_retain self) (pc_dup self).

Record PublishCommandBuilder : Type := {
  pb_topic_name : option bytes;
  pb_payload : bytes;
  pb_qos : Z;
  pb_retain : bool;
  pb_dup : bool;
  pb_packet_id : option Z;
  pb_properties : list Property;
  pb_priority : Z;
}.

#[export] Instance Rebuild_PublishCommandBuilder : Rebuild PublishCommandBuilder := λ b, {|
  pb_topic_name := pb_topic_name b; pb_payload := pb_payload b; pb_qos := pb_qos b;
  pb_retain := pb_retain b; pb_dup := pb_dup b; pb_packet_id := pb_packet_id b;
  pb_properties := pb_properties b; pb_priority := pb_priority b;
|}.

Inductive PublishBuilderError : Type := NoTopic.

Definition PublishCommandBuilder_new : PublishCommandBuilder := {|
  pb_topic_name := None; pb_payload := []; pb_qos := 0; pb_retain := false; pb_dup := false;
  pb_packet_id := None; pb_properties := []; pb_priority := 128;
|}.

(** The methods of the builder; those that append a property share [add_property]. *)
Section PublishCommandBuilder.
Implicit Type self : PublishCommandBuilder.

Definition PublishCommandBuilder_topic self topic := self <| pb_topic_name := Some topic |>.
Definition PublishCommandBuilder_payload self payload := self <| pb_payload := payload |>.
Definition PublishCommandBuilder_qos self qos := self <| pb_qos := qos |>.
Definition PublishCommandBuilder_retain self retain := self <| pb_retain := retain |>.
Definition PublishCommandBuilder_dup self dup := self <| pb_dup := dup |>.
Definition PublishCommandBuilder_with_packet_id self id := self <| pb_packet_id := Some id |>.
Definition PublishCommandBuilder_add_property self (property : Property) :=
  self <| pb_properties ::= λ l, l ++ [property] |>.
Definition PublishCommandBuilder_with_message_expiry_interval self seconds :=
  PublishCommandBuilder_add_property self (MessageExpiryInterval seconds).
Definition PublishCommandBuilder_with_content_type self content_type :=
  PublishCommandBuilder_add_property self (ContentType content_type).
Definition PublishCommandBuilder_with_response_topic self topic :=
  PublishCommandBuilder_add_property self (ResponseTopic topic).
Definition PublishCommandBuilder_with_correlation_data self data :=
  PublishCommandBuilder_add_property self (CorrelationData data).
Definition PublishCommandBuilder_with_topic_alias self alias :=
  PublishCommandBuilder_add_property self (TopicAlias alias).
Definition PublishCommandBuilder_with_user_property self key value :=
  PublishCommandBuilder_add_property self (UserProperty key value).
Definition PublishCommandBuilder_priority self priority := self <| pb_priority := priority |>.

Definition PublishCommandBuilder_build self : result PublishBuilderError PublishCommand :=
  topic_name ← ok_or (pb_topic_name self) NoTopic;
  Ok {| pc_topic_name := topic_name; pc_payload := pb_payload self; pc_qos := pb_qos self;
        pc_retain := pb_retain self; pc_dup := pb_dup self; pc_packet_id := pb_packet_id self;
        pc_properties := pb_properties self; pc_priority := pb_priority self |}.
End PublishCommandBuilder.

(** ** SUBSCRIBE *)
Record SubscribeCommand : Type := {
  sc_packet_id : option Z;
  sc_subscriptions : list TopicSubscription;
  sc_properties : list Property;
}.

Definition SubscribeCommand_new (packet_id : option Z) (subscriptions : list TopicSubscription)
    (properties : list Property) : SubscribeCommand := {|
  sc_packet_id := packet_id; sc_subscriptions := subscriptions; sc_properties := properties;
|}.

Definition SubscribeCommand_single (topic : bytes) (qos : Z) : SubscribeCommand :=
  let subscription := TopicSubscription_new topic qos false false 0 in
  SubscribeCommand_new None [subscription] [].

Record SubscribeCommandBuilder : Type := {
  sb_topics : list TopicSubscription;
  sb_properties : list Property;
  sb_packet_id : option Z;
}.

#[export] Instance Rebuild_SubscribeCommandBuilder : Rebuild SubscribeCommandBuilder := λ b,
  {| sb_topics := sb_topics b; sb_properties := sb_properties b; sb_packet_id := sb_packet_id b |}.

Inductive SubscribeBuilderError : Type := NoTopics.

(** [if let Some(last) = topics.last_mut() { .. } else { panic!(..) }] *)
Definition last_mut {A} (l : list A) (f : A → A) : panics (list A) :=
  match last l with
  | Some x => Ok (take (length l - 1) l ++ [f x])
  | None => Panic
  end.

Section SubscribeCommandBuilder.
Implicit Type self : SubscribeCommandBuilder.

Definition SubscribeCommandBuilder_new : SubscribeCommandBuilder :=
  {| sb_topics := []; sb_properties := []; sb_packet_id := None |}.

Definition SubscribeCommandBuilder_add_topic self topic qos :=
  let subscription := TopicSubscription_new_simple topic qos in
  self <| sb_topics ::= λ l, l ++ [subscription] |>.

Definition SubscribeCommandBuilder_add_topic_with_options self topic qos no_local
    retain_as_published retain_handling :=
  let subscription :=
    TopicSubscription_new topic qos no_local retain_as_published retain_handling in
  self <| sb_topics ::= λ l, l ++ [subscription] |>.

Definition SubscribeCommandBuilder_with_no_local self no_local : panics SubscribeCommandBuilder :=
  topics ← last_mut (sb_topics self) (λ t, t <| ts_no_local := no_local |>);
  Ok (self <| sb_topics := topics |>).

Definition SubscribeCommandBuilder_with_retain_as_published self rap
    : panics SubscribeCommandBuilder :=
  topics ← last_mut (sb_topics self) (λ t, t <| ts_retain_as_published := rap |>);
  Ok (self <| sb_topics := topics |>).

Definition SubscribeCommandBuilder_with_retain_handling self rh : panics SubscribeCommandBuilder :=
  if 2 <? rh then Panic else
  topics ← last_mut (sb_topics self) (λ t, t <| ts_retain_handling := rh |>);
  Ok (self <| sb_topics := topics |>).

Definition SubscribeCommandBuilder_add_property self (property : Property) :=
  self <| sb_properties ::= λ l, l ++ [property] |>.

Definition SubscribeCommandBuilder_with_subscription_id self id :=
  SubscribeCommandBuilder_add_property self (SubscriptionIdentifier id).

Definition SubscribeCommandBuilder_with_packet_id self id := self <| sb_packet_id := Some id |>.

Definition SubscribeCommandBuilder_build self : result SubscribeBuilderError SubscribeCommand :=
  if bool_decide (sb_topics self = []) then Err NoTopics else
  Ok {| sc_packet_id := sb_packet_id self; sc_subscriptions := sb_topics self;
        sc_properties := sb_properties self |}.
End SubscribeCommandBuilder.

(** ** UNSUBSCRIBE *)
Record UnsubscribeCommand : Type := {
  uc_packet_id : option Z;
  uc_topics : list bytes;
  uc_properties : list Property;
}.

Definition UnsubscribeCommand_new (packet_id : option Z) (topics : list bytes)
    (properties : list Property) : UnsubscribeCommand :=
  {| uc_packet_id := packet_id; uc_topics := topics; uc_properties := properties |}.

Definition UnsubscribeCommand_from_topics (topics : list bytes) : UnsubscribeCommand :=
  UnsubscribeCommand_new None topics [].

(** ** The subscription builder

    A chain of calls, and what it builds: a fold over the calls that keeps the list of topics. *)
Inductive SubscribeCall : Type :=
  | Add_topic (topic : bytes) (qos : Z)
  | Add_topic_with_options (topic : bytes) (qos : Z) (no_local retain_as_published : bool)
      (retain_handling : Z)
  | With_no_local (no_local : bool)
  | With_retain_as_published (rap : bool)
  | With_retain_handling (rh : Z)
  | Add_property (property : Property)
  | With_packet_id (id : Z).

Definition subscribe_call (self : SubscribeCommandBuilder) (c : SubscribeCall)
    : panics SubscribeCommandBuilder :=
  match c with
  | Add_topic t q => Ok (SubscribeCommandBuilder_add_topic self t q)
  | Add_topic_with_options t q nl rap rh =>
      Ok (SubscribeCommandBuilder_add_topic_with_options self t q nl rap rh)
  | With_no_local b => SubscribeCommandBuilder_with_no_local self b
  | With_retain_as_published b => SubscribeCommandBuilder_with_retain_as_published self b
  | With_retain_handling rh => SubscribeCommandBuilder_with_retain_handling self rh
  | Add_property p => Ok (SubscribeCommandBuilder_add_property self p)
  | With_packet_id id => Ok (SubscribeCommandBuilder_with_packet_id self id)
  end.

Fixpoint subscribe_calls (self : SubscribeCommandBuilder) (cs : list SubscribeCall)
    : panics SubscribeCommandBuilder :=
  match cs with
  | [] => Ok self
  | c :: cs => self ← subscribe_call self c; subscribe_calls self cs
  end.

(** The filters a chain subscribes to, and whether each option has a topic to apply to. *)
Definition added_filter (c : SubscribeCall) : option bytes :=
  match c with
  | Add_topic t _ | Add_topic_with_options t _ _ _ _ => Some t
  | _ => None
  end.

Fixpoint chain_legal (started : bool) (cs : list SubscribeCall) : bool :=
  match cs with
  | [] => true
  | c :: cs =>
      match c with
      | Add_topic _ _ | Add_topic_with_options _ _ _ _ _ => chain_legal true cs
      | With_no_local _ | With_retain_as_published _ => started && chain_legal started cs
      | With_retain_handling rh => started && (rh <=? 2) && chain_legal started cs
      | _ => chain_legal started cs
      end
  end.

Lemma last_mut_filters l f :
  (∀ t, ts_topic_filter (f t) = ts_topic_filter t) →
  match l with
  | [] => last_mut l f = Panic
  | _ => ∃ l', last_mut l f = Ok l' ∧ l' ≠ [] ∧ ts_topic_filter <$> l' = ts_topic_filter <$> l
  end.
Proof.
  intros Hf. destruct l as [|t l _] using rev_ind; [done|].
  assert (Hl : ∃ l', last_mut (l ++ [t]) f = Ok l' ∧ l' ≠ [] ∧
    ts_topic_filter <$> l' = ts_topic_filter <$> (l ++ [t])).
  { exists (l ++ [f t]). unfold last_mut. rewrite last_snoc, length_app. simpl.
    replace (length l + 1 - 1)%nat with (length l) by lia. rewrite take_app_length.
    split; [done|]. split; [by destruct l|]. rewrite !fmap_app. simpl. by rewrite Hf. }
  by destruct l.
Qed.

Lemma subscribe_call_spec b c cs :
  let started := negb (bool_decide (sb_topics b = [])) in
  chain_legal started (c :: cs) =
    (is_Ok (subscribe_call b c) &&
     match subscribe_call b c with
     | Ok b' => chain_legal (negb (bool_decide (sb_topics b' = []))) cs
     | _ => false
     end) ∧
  (is_Ok (subscribe_call b c) = false → subscribe_call b c = Panic) ∧
  (∀ b', subscribe_call b c = Ok b' → ts_topic_filter <$> sb_topics b' =
     (ts_topic_filter <$> sb_topics b) ++ option_list (added_filter c)).
Proof.
  intros started. assert (Hsnoc : ∀ l (t : TopicSubscription), bool_decide (l ++ [t] = []) = false).
  { intros. apply bool_decide_eq_false. by destruct l. }
  assert (Hmut : ∀ f, (∀ t, ts_topic_filter (f t) = ts_topic_filter t) → 
     started = true ∧ (∃ l', last_mut (sb_topics b) f = Ok l' ∧ bool_decide (l' = []) = false ∧
        ts_topic_filter <$> l' = ts_topic_filter <$> sb_topics b) ∨
     started = false ∧ last_mut (sb_topics b) f = Panic).
  { intros f Hf. pose proof (last_mut_filters (sb_topics b) f Hf) as H. subst started.
    destruct (sb_topics b); [by right|]. left. destruct H as (l' & ? & ? & ?).
    split; [done|]. exists l'. by rewrite bool_decide_eq_false. }
  destruct c; simpl.
  1,2: rewrite Hsnoc; split; [done|]; split; [done|]; intros b' [= <-]; simpl;
    by rewrite fmap_app.
  1-3: unfold SubscribeCommandBuilder_with_no_local,
         SubscribeCommandBuilder_with_retain_as_published,
         SubscribeCommandBuilder_with_retain_handling.
  3: destruct (Z.ltb_spec 2 rh), (Z.leb_spec rh 2); try lia; simpl;
     [rewrite andb_false_r; naive_solver|rewrite ?andb_true_r].
  1-3: match goal with |- context [last_mut _ ?f] =>
         destruct (Hmut f) as [[-> (l' & -> & Hl & Hf)]|[-> ->]]; [done|..] end; simpl;
       rewrite ?app_nil_r; [rewrite Hl; split; [done|]; split; [done|]; by intros b' [= <-]|done].
  all: split; [done|]; split; [done|]; intros b' [= <-]; simpl; by rewrite app_nil_r.
Qed.

(** The subscription builder.  A chain of builder calls panics exactly when an option is
    set before any topic was added or a retain handling above 2 is asked for; otherwise the
    built command subscribes to the added filters in the order of the calls, and building fails
    exactly when no topic was added. *)
Theorem subscribe_builder cs :
  let filters := omap added_filter cs in
  if chain_legal false cs then
    ∃ b, subscribe_calls SubscribeCommandBuilder_new cs = Ok b ∧
      match SubscribeCommandBuilder_build b with
      | Ok cmd => filters ≠ [] ∧ ts_topic_filter <$> sc_subscriptions cmd = filters
      | Err NoTopics => filters = []
      | Panic => False
      end
  else subscribe_calls SubscribeCommandBuilder_new cs = Panic.
Proof.
  assert (H : ∀ b,
    if chain_legal (negb (bool_decide (sb_topics b = []))) cs then
      ∃ b', subscribe_calls b cs = Ok b' ∧
        ts_topic_filter <$> sb_topics b' =
          (ts_topic_filter <$> sb_topics b) ++ omap added_filter cs
    else subscribe_calls b cs = Panic).
  { induction cs as [|c cs IH]; intros b.
    { exists b. csimpl. by rewrite app_nil_r. }
    destruct (subscribe_call_spec b c cs) as (-> & Hp & Hf). cbn [subscribe_calls].
    destruct (subscribe_call b c) as [b'| |]; [|by specialize (Hp eq_refl)..].
    simpl. specialize (IH b'). destruct (chain_legal _ cs); [|done].
    destruct IH as (b'' & Hc & Hl). exists b''. rewrite Hl, (Hf b' eq_refl). split; [done|].
    rewrite <- (assoc (++)). csimpl. by destruct (added_filter c). }
  specialize (H SubscribeCommandBuilder_new). simpl in *.
  destruct (chain_legal false cs); [|done]. destruct H as (b & Hb & Hl). exists b. split; [done|].
  unfold SubscribeCommandBuilder_build. simpl in Hl. rewrite <- Hl. case_bool_decide as He.
  - by rewrite He.
  - simpl. split; [|done]. by destruct (sb_topics b).
Qed.
