(* ===== verification/ClientError.v ===== *)
(** * Client errors

    Models [MqttClientError] of [src/mqtt_client/error.rs] and its classification.  The
    operating system's [io::ErrorKind] is known by the variants the source names. *)
From S2P Require Import Prelude.

Inductive ErrorKind : Type :=
  | ConnectionReset | BrokenPipe | UnexpectedEof | ConnectionAborted | TimedOut
  | KindNotConnected | WouldBlock | InvalidInput | InvalidData | Interrupted | KindOther
  | OtherKind (code : Z).

Inductive MqttClientError : Type :=
  | ConnectionRefused (reason_code : Z) (description : string)
  | ConnectionLost (reason : string)
  | NetworkError (kind : ErrorKind) (message : string)
  | ProtocolViolation (message : string)
  | PacketParsing (parse_error : string) (raw_data : bytes)
  | InvalidPacketId (packet_id : Z)
  | UnexpectedPacket (expected received : string)
  | NoActiveSession
  | SessionExpired
  | PacketIdExhausted
  | OperationTimeout (operation : string) (timeout_ms : Z)
  | OperationCancelled (operation : string)
  | PublishFailed (packet_id : option Z) (reason_code : Z) (reason_string : option string)
  | SubscribeFailed (topics : list string) (reason_codes : list Z)
  | UnsubscribeFailed (topics : list string) (reason_codes : list Z)
  | InvalidState (expected actual : string)
  | NotConnected
  | AlreadyConnected
  | BufferFull (buffer_type : string) (capacity : Z)
  | ChannelClosed (channel : string)
  | AuthenticationFailed (method : option string) (reason_code : Z) (reason_string : option string)
  | InvalidConfiguration (field reason : string)
  | InternalClientError (message : string).

#[export] Instance ErrorKind_eq_dec : EqDecision ErrorKind.
Proof. solve_decision. Defined.
#[export] Instance MqttClientError_eq_dec : EqDecision MqttClientError.
Proof. solve_decision. Defined.

Definition is_recoverable (self : MqttClientError) : bool :=
  match self with
  | NetworkError _ _ => true
  | ConnectionLost _ | OperationTimeout _ _ | SessionExpired | NotConnected | NoActiveSession
  | BufferFull _ _ => true
  | _ => false
  end.

Definition should_reconnect (self : MqttClientError) : bool :=
  match self with
  | ConnectionLost _ => true
  | NetworkError (ConnectionReset | BrokenPipe | UnexpectedEof | ConnectionAborted) _ => true
  | _ => false
  end.

Definition is_fatal (self : MqttClientError) : bool :=
  match self with
  | InvalidConfiguration _ _ | ProtocolViolation _ | InternalClientError _ => true
  | _ => false
  end.

Definition is_auth_error (self : MqttClientError) : bool :=
  match self with
  | AuthenticationFailed _ _ _ => true
  | ConnectionRefused reason_code _ =>
      (reason_code =? 134) || (reason_code =? 135) || (reason_code =? 140)
  | _ => false
  end.

(** ** Text and conversions

    [{:?}] of strings and of [io::ErrorKind], and [hex::encode], come from the standard library's
    Unicode tables and from a crate: the class [ErrorText]. *)
Class ErrorText : Type := {
  kind_debug : ErrorKind → string;
  str_debug : string → string;
  hex_encode : bytes → string;
}.

(** [{:02X}] of a [u8], and the [{:?}] of a list of printed elements. *)
Definition hex_digit_upper (n : Z) : string :=
  default "" (["0"; "1"; "2"; "3"; "4"; "5"; "6"; "7"; "8"; "9"; "A"; "B"; "C"; "D"; "E"; "F"]
                !! Z.to_nat n).
Definition fmt_02X (n : Z) : string := hex_digit_upper (Z.shiftr n 4) +:+ hex_digit_upper (Z.land n 15).
Definition fmt_list (l : list string) : string := "[" +:+ String.concat ", " l +:+ "]".
Definition fmt_opt {A} (prefix suffix : string) (f : A → string) (o : option A) : string :=
  from_option (λ a, prefix +:+ f a +:+ suffix) "" o.

Section text.
Context `{!ErrorText}.

Definition user_message (self : MqttClientError) : string :=
  match self with
  | ConnectionRefused reason_code description =>
      "Connection refused by broker: " +:+ description +:+ " (code: 0x" +:+ fmt_02X reason_code +:+ ")"
  | ConnectionLost reason => "Connection to broker lost: " +:+ reason
  | NetworkError kind message => "Network error (" +:+ kind_debug kind +:+ "): " +:+ message
  | ProtocolViolation message => "MQTT protocol violation: " +:+ message
  | PacketParsing parse_error raw_data =>
      let data_preview :=
        if 20 <? zlen raw_data
        then hex_encode (take 20 raw_data) +:+ "... (" +:+ pretty (zlen raw_data) +:+ " bytes)"
        else hex_encode raw_data in
      "Failed to parse MQTT packet: " +:+ parse_error +:+ " (data: " +:+ data_preview +:+ ")"
  | InvalidPacketId packet_id => "Invalid packet identifier: " +:+ pretty packet_id
  | UnexpectedPacket expected received =>
      "Expected " +:+ expected +:+ " packet, received " +:+ received
  | NoActiveSession => "No active session. Connect to broker first."
  | SessionExpired => "Session expired on broker. Reconnection required."
  | PacketIdExhausted =>
      "All packet identifiers are in use. Wait for pending operations to complete."
  | OperationTimeout operation timeout_ms =>
      "Operation '" +:+ operation +:+ "' timed out after " +:+ pretty timeout_ms +:+ " ms"
  | OperationCancelled operation => "Operation '" +:+ operation +:+ "' was cancelled"
  | PublishFailed packet_id reason_code reason_string =>
      "Publish failed" +:+ fmt_opt " (packet ID: " ")" pretty packet_id +:+ " - code: 0x"
      +:+ fmt_02X reason_code +:+ fmt_opt ": " "" id reason_string
  | SubscribeFailed topics reason_codes =>
      "Subscribe failed for topics " +:+ fmt_list (str_debug <$> topics) +:+ " with reason codes: "
      +:+ fmt_list (pretty <$> reason_codes)
  | UnsubscribeFailed topics reason_codes =>
      "Unsubscribe failed for topics " +:+ fmt_list (str_debug <$> topics)
      +:+ " with reason codes: " +:+ fmt_list (pretty <$> reason_codes)
  | InvalidState expected actual =>
      "Invalid state: expected " +:+ expected +:+ ", but was " +:+ actual
  | NotConnected => "Not connected to broker. Call connect() first."
  | AlreadyConnected => "Already connected to broker."
  | BufferFull buffer_type capacity =>
      buffer_type +:+ " buffer full (capacity: " +:+ pretty capacity +:+ "). Try again later."
  | ChannelClosed channel => "Internal channel '" +:+ channel +:+ "' closed unexpectedly"
  | AuthenticationFailed method reason_code reason_string =>
      "Authentication failed" +:+ fmt_opt " (method: " ")" id method +:+ " - code: 0x"
      +:+ fmt_02X reason_code +:+ fmt_opt ": " "" id reason_string
  | InvalidConfiguration field reason =>
      "Invalid configuration for '" +:+ field +:+ "': " +:+ reason
  | InternalClientError message => "Internal error: " +:+ message
  end.

(** [io::Error]: its kind and its text. *)
Record IoErrorValue : Type := { io_kind : ErrorKind; io_text : string }.

Definition from_io_error (error : IoErrorValue) (context : string) : MqttClientError :=
  NetworkError (io_kind error) (context +:+ ": " +:+ io_text error).
(** [impl From<io::Error> for MqttClientError] *)
Definition MqttClientError_from_io (error : IoErrorValue) : MqttClientError :=
  NetworkError (io_kind error) (io_text error).
Definition io_error_new (kind : ErrorKind) (text : string) : IoErrorValue :=
  {| io_kind := kind; io_text := text |}.
(** [impl From<MqttClientError> for io::Error] *)
Definition IoError_from (error : MqttClientError) : IoErrorValue :=
  match error with
  | OperationTimeout operation timeout_ms =>
      io_error_new TimedOut
        (operation +:+ " operation timed out after " +:+ pretty timeout_ms +:+ "ms")
  | NetworkError kind message => io_error_new kind message
  | ConnectionLost reason => io_error_new ConnectionReset reason
  | NotConnected => io_error_new KindNotConnected "Client is not connected to broker"
  | ChannelClosed channel =>
      io_error_new BrokenPipe ("Channel '" +:+ channel +:+ "' was closed unexpectedly")
  | BufferFull buffer_type capacity =>
      io_error_new WouldBlock (buffer_type +:+ " buffer is full (capacity: " +:+ pretty capacity +:+ ")")
  | InvalidConfiguration field reason =>
      io_error_new InvalidInput ("Invalid configuration for '" +:+ field +:+ "': " +:+ reason)
  | ProtocolViolation message => io_error_new InvalidData message
  | PacketParsing parse_error _ => io_error_new InvalidData parse_error
  | OperationCancelled operation =>
      io_error_new Interrupted (operation +:+ " operation was cancelled")
  | other => io_error_new KindOther (user_message other)
  end.
End text.

(** ** Theorems *)

(** The classification is consistent.  An error that triggers a reconnection is
    recoverable, a fatal or an authentication error is neither recoverable nor a reason to
    reconnect, and no error is both fatal and an authentication failure. *)
Theorem error_classes e :
  implb (should_reconnect e) (is_recoverable e) = true ∧
  implb (is_fatal e || is_auth_error e) (negb (is_recoverable e) && negb (should_reconnect e)) = true ∧
  is_fatal e && is_auth_error e = false.
Proof. destruct e as [| |[]| | | | | | | | | | | | | | | | | | | |]; simpl; rewrite ?implb_true_r, ?orb_false_r; auto. Qed.

(** An error of the operating system survives the way through the client's error type, and an
    error that triggers a reconnection still does after the way through [io::Error]. *)
Theorem io_error_roundtrip `{!ErrorText} (error : IoErrorValue) e :
  IoError_from (MqttClientError_from_io error) = error ∧
  implb (should_reconnect e) (should_reconnect (MqttClientError_from_io (IoError_from e))) = true.
Proof. split; [by destruct error|]. by destruct e as [| |[]| | | | | | | | | | | | | | | | | | | |]. Qed.
