(* ===== verification/Inflight.v ===== *)
(** * The inflight queue

    Models [InflightQueue] of [src/mqtt_client/inflight.rs] and its host wrappers
    ([src/mqtt_client/inflight/host.rs]), generic in the clock ([TimePoint], used through
    [TimePointLaws] only).  The map of entries, the admission order, the deadline queue and the
    publish quota are separate fields, as in the code; the invariant ties them together and the
    specification is one list of outstanding exchanges in admission order. *)
From stdpp Require Import sorting.
From S2P Require Import Prelude BaseData TopicFilter Validation Properties Packets Time.
From S2P Require Import ClientError.

Record InflightEntry (T : Type) : Type := {
  ie_packet_id : Z;
  ie_packet : MqttPacket;
  ie_sent_at : T;
  ie_retry_count : Z;
  ie_qos : Z;
  ie_stream : option Z;
}.
Arguments ie_packet_id {_} _.
Arguments ie_packet {_} _.
Arguments ie_sent_at {_} _.
Arguments ie_retry_count {_} _.
Arguments ie_qos {_} _.
Arguments ie_stream {_} _.

Record InflightQueue (T : Type) : Type := {
  iq_entries : gmap Z (InflightEntry T);
  iq_admission_order : list Z;
  iq_deadline_queue : list (Z * T);
  iq_receive_maximum : Z;
  iq_mqtt_version : Z;
  iq_retransmission_timeout : Z;
  iq_publish_quota_used : Z;
  iq_last_update : option T;
}.
Arguments iq_entries {_} _.
Arguments iq_admission_order {_} _.
Arguments iq_deadline_queue {_} _.
Arguments iq_receive_maximum {_} _.
Arguments iq_mqtt_version {_} _.
Arguments iq_retransmission_timeout {_} _.
Arguments iq_publish_quota_used {_} _.
Arguments iq_last_update {_} _.

(** The kinds of packet the quota distinguishes. *)
Definition is_publish (packet : MqttPacket) : bool :=
  match packet with Publish5 _ | Publish3 _ => true | _ => false end.
Definition is_publish_exchange (packet : MqttPacket) : bool :=
  match packet with Publish5 _ | Publish3 _ | PubRel5 _ | PubRel3 _ => true | _ => false end.

Section Inflight.
Context {T : Type} `{TimePoint T}.
Implicit Types (self : InflightQueue T) (now : T).

(** Assignments to the fields. *)
Definition with_entries self (entries : gmap Z (InflightEntry T)) : InflightQueue T :=
  {| iq_entries := entries; iq_admission_order := iq_admission_order self;
     iq_deadline_queue := iq_deadline_queue self; iq_receive_maximum := iq_receive_maximum self;
     iq_mqtt_version := iq_mqtt_version self;
     iq_retransmission_timeout := iq_retransmission_timeout self;
     iq_publish_quota_used := iq_publish_quota_used self; iq_last_update := iq_last_update self |}.
Definition with_admission_order self (order : list Z) : InflightQueue T :=
  {| iq_entries := iq_entries self; iq_admission_order := order;
     iq_deadline_queue := iq_deadline_queue self; iq_receive_maximum := iq_receive_maximum self;
     iq_mqtt_version := iq_mqtt_version self;
     iq_retransmission_timeout := iq_retransmission_timeout self;
     iq_publish_quota_used := iq_publish_quota_used self; iq_last_update := iq_last_update self |}.
Definition with_deadline_queue self (queue : list (Z * T)) : InflightQueue T :=
  {| iq_entries := iq_entries self; iq_admission_order := iq_admission_order self;
     iq_deadline_queue := queue; iq_receive_maximum := iq_receive_maximum self;
     iq_mqtt_version := iq_mqtt_version self;
     iq_retransmission_timeout := iq_retransmission_timeout self;
     iq_publish_quota_used := iq_publish_quota_used self; iq_last_update := iq_last_update self |}.
Definition with_receive_maximum self (m : Z) : InflightQueue T :=
  {| iq_entries := iq_entries self; iq_admission_order := iq_admission_order self;
     iq_deadline_queue := iq_deadline_queue self; iq_receive_maximum := m;
     iq_mqtt_version := iq_mqtt_version self;
     iq_retransmission_timeout := iq_retransmission_timeout self;
     iq_publish_quota_used := iq_publish_quota_used self; iq_last_update := iq_last_update self |}.
Definition with_publish_quota_used self (used : Z) : InflightQueue T :=
  {| iq_entries := iq_entries self; iq_admission_order := iq_admission_order self;
     iq_deadline_queue := iq_deadline_queue self; iq_receive_maximum := iq_receive_maximum self;
     iq_mqtt_version := iq_mqtt_version self;
     iq_retransmission_timeout := iq_retransmission_timeout self;
     iq_publish_quota_used := used; iq_last_update := iq_last_update self |}.
Definition with_last_update self (t : T) : InflightQueue T :=
  {| iq_entries := iq_entries self; iq_admission_order := iq_admission_order self;
     iq_deadline_queue := iq_deadline_queue self; iq_receive_maximum := iq_receive_maximum self;
     iq_mqtt_version := iq_mqtt_version self;
     iq_retransmission_timeout := iq_retransmission_timeout self;
     iq_publish_quota_used := iq_publish_quota_used self; iq_last_update := Some t |}.

Definition InflightQueue_new (receive_maximum mqtt_version retransmission_timeout : Z)
    : InflightQueue T :=
  {| iq_entries := ∅; iq_admission_order := []; iq_deadline_queue := [];
     iq_receive_maximum := if receive_maximum =? 0 then u16_MAX else receive_maximum;
     iq_mqtt_version := mqtt_version; iq_retransmission_timeout := retransmission_timeout;
     iq_publish_quota_used := 0; iq_last_update := None |}.

Definition InflightQueue_check_time self now : result MqttClientError () :=
  if (match iq_last_update self with Some last => ord_lt now last | None => false end)
     || (negb (iq_mqtt_version self =? 5)
         && negb (bool_decide (is_Some (tp_checked_add now (iq_retransmission_timeout self)))))
  then Err (InvalidConfiguration "monotonic_time"
              "inflight timestamp moved backwards or its deadline overflowed")
  else Ok ().

Definition InflightQueue_can_push_publish self : bool :=
  iq_publish_quota_used self <? iq_receive_maximum self.

Definition InflightQueue_update_receive_maximum self (receive_maximum : Z) : InflightQueue T :=
  if 0 <? receive_maximum then with_receive_maximum self receive_maximum else self.

Definition InflightQueue_refresh_deadline self (packet_id : Z) now
    : result MqttClientError (InflightQueue T) :=
  if negb (iq_mqtt_version self =? 5) then
    let queue := filter (λ e, e.1 ≠ packet_id) (iq_deadline_queue self) in
    deadline ← unwrap (tp_checked_add now (iq_retransmission_timeout self));
    Ok (with_deadline_queue self (queue ++ [(packet_id, deadline)]))
  else Ok self.

(** The operations that can fail do so before they change anything. *)
Definition InflightQueue_push_with_stream_at self (packet_id : Z) (packet : MqttPacket) (qos : Z)
    (stream : option Z) now : result MqttClientError (InflightQueue T) :=
  _ ← InflightQueue_check_time self now;
  if (packet_id =? 0) || bool_decide (is_Some (iq_entries self !! packet_id))
  then Err (InvalidPacketId packet_id) else
  let publish := is_publish packet in
  if publish && negb (InflightQueue_can_push_publish self)
  then Err (BufferFull "inflight_publish" (iq_receive_maximum self)) else
  let self := if publish then with_publish_quota_used self (iq_publish_quota_used self + 1)
              else self in
  let self := with_entries self
    (<[packet_id := {| ie_packet_id := packet_id; ie_packet := packet; ie_sent_at := now;
                       ie_retry_count := 0; ie_qos := qos; ie_stream := stream |}]>
     (iq_entries self)) in
  let self := with_admission_order self (iq_admission_order self ++ [packet_id]) in
  let self := with_last_update self now in
  InflightQueue_refresh_deadline self packet_id now.

Definition InflightQueue_push_at self (packet_id : Z) (packet : MqttPacket) (qos : Z) now
    : result MqttClientError (InflightQueue T) :=
  InflightQueue_push_with_stream_at self packet_id packet qos None now.

Definition InflightQueue_get self (packet_id : Z) : option (InflightEntry T) :=
  iq_entries self !! packet_id.
Definition InflightQueue_contains self (packet_id : Z) : bool :=
  bool_decide (is_Some (iq_entries self !! packet_id)).

(** The entry with a new packet, stream and time of sending. *)
Definition entry_with (e : InflightEntry T) (packet : MqttPacket) (stream : option Z)
    (retry_count : Z) (sent_at : T) : InflightEntry T :=
  {| ie_packet_id := ie_packet_id e; ie_packet := packet; ie_sent_at := sent_at;
     ie_retry_count := retry_count; ie_qos := ie_qos e; ie_stream := stream |}.

Definition InflightQueue_transition_pubrel_at self (packet_id : Z) (packet : MqttPacket) now
    : result MqttClientError (InflightQueue T) :=
  _ ← InflightQueue_check_time self now;
  self ← (match iq_entries self !! packet_id with
          | Some entry =>
              let entry := entry_with entry packet (ie_stream entry) (ie_retry_count entry) now in
              InflightQueue_refresh_deadline
                (with_entries self (<[packet_id := entry]> (iq_entries self))) packet_id now
          | None => Ok self
          end);
  Ok (with_last_update self now).

Definition InflightQueue_resume_on_stream_at self (packet_id : Z) (stream : Z) now
    : result MqttClientError (InflightQueue T) :=
  _ ← InflightQueue_check_time self now;
  self ← (match iq_entries self !! packet_id with
          | Some entry =>
              let entry := entry_with entry (ie_packet entry) (Some stream)
                             (ie_retry_count entry) now in
              InflightQueue_refresh_deadline
                (with_entries self (<[packet_id := entry]> (iq_entries self))) packet_id now
          | None => Ok self
          end);
  Ok (with_last_update self now).

Definition InflightQueue_acknowledge self (packet_id : Z)
    : option (InflightEntry T) * InflightQueue T :=
  match iq_entries self !! packet_id with
  | None => (None, self)
  | Some entry =>
      let self := with_entries self (delete packet_id (iq_entries self)) in
      let self := with_admission_order self
                    (filter (λ id, id ≠ packet_id) (iq_admission_order self)) in
      let self := with_deadline_queue self
                    (filter (λ e, e.1 ≠ packet_id) (iq_deadline_queue self)) in
      let self := if is_publish_exchange (ie_packet entry)
                  then with_publish_quota_used self (saturating_sub (iq_publish_quota_used self) 1)
                  else self in
      (Some entry, self)
  end.

(** [retry_count.saturating_add(1)] *)
Definition next_retry (count : Z) : Z := Z.min u32_MAX (count + 1).

(** The loop of [get_expired_with_stream_at], over the number of rounds it allows. *)
Fixpoint expire_loop (rounds : nat) self now (expired : list (MqttPacket * option Z))
    : result MqttClientError (list (MqttPacket * option Z) * InflightQueue T) :=
  match rounds with
  | O => Ok (expired, self)
  | S rounds =>
      match iq_deadline_queue self with
      | [] => Ok (expired, self)
      | (id, deadline) :: rest =>
          if ord_lt now deadline then Ok (expired, self) else
          let self := with_deadline_queue self rest in
          match iq_entries self !! id with
          | None => expire_loop rounds self now expired
          | Some entry =>
              let entry := entry_with entry (ie_packet entry) (ie_stream entry)
                             (next_retry (ie_retry_count entry)) now in
              let self := with_entries self (<[id := entry]> (iq_entries self)) in
              let expired := expired ++ [(ie_packet entry, ie_stream entry)] in
              self ← InflightQueue_refresh_deadline self id now;
              expire_loop rounds self now expired
          end
      end
  end.

Definition InflightQueue_get_expired_with_stream_at self now
    : result MqttClientError (list (MqttPacket * option Z) * InflightQueue T) :=
  _ ← InflightQueue_check_time self now;
  let self := with_last_update self now in
  expire_loop (length (iq_deadline_queue self)) self now [].

Definition InflightQueue_get_expired_at self now
    : result MqttClientError (list MqttPacket * InflightQueue T) :=
  '(expired, self) ← InflightQueue_get_expired_with_stream_at self now;
  Ok (expired.*1, self).

Definition InflightQueue_get_all_for_reconnect self : list MqttPacket :=
  ie_packet <$> omap (λ id, iq_entries self !! id) (iq_admission_order self).

Definition InflightQueue_snapshot_for_reconnect self : list (Z * MqttPacket) :=
  (λ entry, (ie_packet_id entry, ie_packet entry))
  <$> omap (λ id, iq_entries self !! id) (iq_admission_order self).

Definition InflightQueue_next_expiration self : option T := snd <$> head (iq_deadline_queue self).

Definition InflightQueue_clear self : InflightQueue T :=
  {| iq_entries := ∅; iq_admission_order := []; iq_deadline_queue := [];
     iq_receive_maximum := iq_receive_maximum self; iq_mqtt_version := iq_mqtt_version self;
     iq_retransmission_timeout := iq_retransmission_timeout self;
     iq_publish_quota_used := 0; iq_last_update := iq_last_update self |}.

Definition InflightQueue_len self : Z := Z.of_nat (size (iq_entries self)).
Definition InflightQueue_is_empty self : bool := InflightQueue_len self =? 0.

(** *** The host wrappers: [clock] is what [Instant::now()] returns *)
Definition InflightQueue_host_now self (clock : T) : T :=
  match iq_last_update self with
  | None => clock
  | Some last => if ord_lt clock last then last else clock
  end.

Definition InflightQueue_push self (clock : T) (id : Z) (packet : MqttPacket) (qos : Z)
    : result MqttClientError (InflightQueue T) :=
  InflightQueue_push_at self id packet qos (InflightQueue_host_now self clock).

Definition InflightQueue_push_with_stream self (clock : T) (id : Z) (packet : MqttPacket) (qos : Z)
    (stream : option Z) : result MqttClientError (InflightQueue T) :=
  InflightQueue_push_with_stream_at self id packet qos stream (InflightQueue_host_now self clock).

(** [let _ = ..]: an error is dropped, with the queue unchanged. *)
Definition ignore_error self (r : result MqttClientError (InflightQueue T))
    : panics (InflightQueue T) :=
  match r with Ok self' => Ok self' | Err _ => Ok self | Panic => Panic end.

Definition InflightQueue_transition_pubrel self (clock : T) (id : Z) (packet : MqttPacket)
    : panics (InflightQueue T) :=
  ignore_error self
    (InflightQueue_transition_pubrel_at self id packet (InflightQueue_host_now self clock)).

Definition InflightQueue_resume_on_stream self (clock : T) (id stream : Z)
    : panics (InflightQueue T) :=
  ignore_error self
    (InflightQueue_resume_on_stream_at self id stream (InflightQueue_host_now self clock)).

Definition InflightQueue_get_expired self now : panics (list MqttPacket * InflightQueue T) :=
  match InflightQueue_get_expired_at self now with
  | Ok r => Ok r | Err _ => Ok ([], self) | Panic => Panic
  end.

Definition InflightQueue_get_expired_with_stream self now
    : panics (list (MqttPacket * option Z) * InflightQueue T) :=
  match InflightQueue_get_expired_with_stream_at self now with
  | Ok r => Ok r | Err _ => Ok ([], self) | Panic => Panic
  end.
End Inflight.

(** ** The invariant *)
Lemma NoDup_fmap_filter {A B} (f : A → B) (P : A → Prop) `{∀ x, Decision (P x)} l :
  NoDup (f <$> l) → NoDup (f <$> filter P l).
Proof. intros Hnd. eapply sublist_NoDup; [exact Hnd|]. apply fmap_sublist, sublist_filter. Qed.

Lemma StronglySorted_filter {A} (R : A → A → Prop) (P : A → Prop) `{∀ x, Decision (P x)} l :
  StronglySorted R l → StronglySorted R (filter P l).
Proof.
  induction 1 as [|x l _ IH Hall]; [constructor|]. rewrite filter_cons. destruct (decide _); [|done].
  constructor; [done|]. apply Forall_forall. intros y [_ Hy]%list_elem_of_filter.
  by apply (proj1 (Forall_forall _ _) Hall).
Qed.

Section invariant.
Context {T : Type} `{TimePoint T}.
Implicit Types (self : InflightQueue T) (now : T).

(** One deadline per exchange, [timeout] after it was last sent, in ascending order; [but]
    exempts one identifier. *)
Definition deadline_le (e e' : Z * T) : Prop := ord_le e.2 e'.2 = true.

Record deadlines_but (timeout : Z) (entries : gmap Z (InflightEntry T)) (but : Z → Prop)
    (queue : list (Z * T)) : Prop := {
  dl_nodup : NoDup queue.*1;
  dl_dom id : ~ but id → id ∈ queue.*1 ↔ is_Some (entries !! id);
  dl_time id d : ~ but id → (id, d) ∈ queue →
    ∃ e, entries !! id = Some e ∧ tp_checked_add (ie_sent_at e) timeout = Some d;
  dl_sorted : StronglySorted deadline_le queue;
}.

Definition nobody (id : Z) : Prop := False.

Lemma not_nobody id : ~ nobody id.
Proof. by intros []. Qed.

Record inflight_inv self : Prop := {
  ii_nodup : NoDup (iq_admission_order self);
  ii_dom id : id ∈ iq_admission_order self ↔ is_Some (iq_entries self !! id);
  ii_id id e : iq_entries self !! id = Some e → ie_packet_id e = id ∧ id ≠ 0;
  ii_sent id e : iq_entries self !! id = Some e →
    ∃ last, iq_last_update self = Some last ∧ ord_le (ie_sent_at e) last = true;
  ii_v5 : iq_mqtt_version self = 5 → iq_deadline_queue self = [];
  ii_deadlines : iq_mqtt_version self ≠ 5 →
    deadlines_but (iq_retransmission_timeout self) (iq_entries self) nobody (iq_deadline_queue self);
  ii_receive_maximum : 0 < iq_receive_maximum self;
}.

(** The specification: the outstanding exchanges in admission order. *)
Definition exchanges self : list (InflightEntry T) :=
  omap (λ id, iq_entries self !! id) (iq_admission_order self).

(** The clock has not moved back and the deadline is representable. *)
Definition time_ok self now : Prop :=
  (∀ last, iq_last_update self = Some last → ord_le last now = true) ∧
  (iq_mqtt_version self ≠ 5 → is_Some (tp_checked_add now (iq_retransmission_timeout self))).

Lemma check_time_cases self now :
  (InflightQueue_check_time self now = Ok () ∧ time_ok self now) ∨
  (InflightQueue_check_time self now = Err (InvalidConfiguration "monotonic_time"
     "inflight timestamp moved backwards or its deadline overflowed") ∧ ~ time_ok self now).
Proof.
  unfold InflightQueue_check_time, time_ok. destruct (_ || _) eqn:E; [right|left]; (split; [done|]).
  - intros [H1 H2]. apply orb_true_iff in E as [E|E].
    + destruct (iq_last_update self) as [last|]; [|done]. specialize (H1 last eq_refl).
      by rewrite ord_le_not_lt, E in H1.
    + apply andb_true_iff in E as [E1 E2]. apply negb_true_iff in E1, E2.
      case_bool_decide; [done|]. apply Z.eqb_neq in E1. auto.
  - apply orb_false_iff in E as [E1 E2]. split.
    + intros last E. rewrite E in E1. by rewrite ord_le_not_lt, E1.
    + intros Hv. apply Z.eqb_neq in Hv. rewrite Hv in E2. simpl in E2.
      by case_bool_decide.
Qed.

(** *** Deadlines *)
Section deadlines.
Context (timeout : Z) (entries : gmap Z (InflightEntry T)).

Lemma deadlines_weaken but but' queue :
  (∀ id, but id → but' id) → deadlines_but timeout entries but queue →
  deadlines_but timeout entries but' queue.
Proof. intros Hb []. split; eauto. Qed.

Lemma deadlines_cons id d queue :
  deadlines_but timeout entries nobody ((id, d) :: queue) →
  deadlines_but timeout entries (eq id) queue.
Proof.
  intros [Hnd Hdom Htime Hs]. simpl in *. apply NoDup_cons in Hnd as [Hni Hnd]. split; [done|..].
  - intros id' Hne. rewrite <- (Hdom id' (not_nobody _)). rewrite elem_of_cons. naive_solver.
  - intros id' d' Hne Hin. apply Htime; [apply not_nobody|]. apply elem_of_cons. auto.
  - by inversion Hs.
Qed.

Lemma deadlines_refresh `{!TimePointLaws T} id e d queue :
  deadlines_but timeout entries (eq id) queue →
  (∀ id' e', entries !! id' = Some e' → ord_le (ie_sent_at e') (ie_sent_at e) = true) →
  tp_checked_add (ie_sent_at e) timeout = Some d →
  deadlines_but timeout (<[id := e]> entries) nobody
    (filter (λ x, x.1 ≠ id) queue ++ [(id, d)]).
Proof.
  intros [Hnd Hdom Htime Hs] Hle Hd.
  assert (∀ id', id' ∈ (filter (λ x, x.1 ≠ id) queue).*1 ↔ id' ≠ id ∧ id' ∈ queue.*1) as Hin.
  { intros id'. rewrite !list_elem_of_fmap. setoid_rewrite list_elem_of_filter. naive_solver. }
  assert (∀ x, x ∈ filter (λ x, x.1 ≠ id) queue → x.1 ≠ id ∧ x ∈ queue) as Hin'.
  { intros x. by rewrite list_elem_of_filter. }
  split.
  - rewrite fmap_app. apply NoDup_app. split_and!.
    + by apply NoDup_fmap_filter.
    + intros id' [Hne _]%Hin. simpl. set_solver.
    + apply NoDup_singleton.
  - intros id' _. rewrite fmap_app, elem_of_app, Hin. simpl. rewrite list_elem_of_singleton.
    destruct (decide (id' = id)) as [->|Hne].
    + rewrite lookup_insert_eq. split; eauto.
    + rewrite lookup_insert_ne, <- Hdom by congruence. naive_solver.
  - intros id' d' _ [[Hne Hq]%Hin'|Hq]%elem_of_app.
    + simpl in Hne. rewrite lookup_insert_ne by congruence. apply Htime; [congruence|done].
    + apply list_elem_of_singleton in Hq. simplify_eq. rewrite lookup_insert_eq. eauto.
  - apply StronglySorted_app_2.
    + intros [i x] y [Hne Hq]%Hin' ->%list_elem_of_singleton. unfold deadline_le. simpl in *.
      apply Htime in Hq as (e' & He' & Hx); [|congruence].
      eapply tp_add_mono; [|exact Hx|exact Hd]. by eapply Hle.
    + by apply StronglySorted_filter.
    + repeat constructor.
Qed.

Lemma deadlines_delete id queue :
  deadlines_but timeout entries nobody queue →
  deadlines_but timeout (delete id entries) nobody (filter (λ x, x.1 ≠ id) queue).
Proof.
  intros [Hnd Hdom Htime Hs]. split.
  - by apply NoDup_fmap_filter.
  - intros id' _. specialize (Hdom id' (not_nobody _)). rewrite lookup_delete_is_Some, <- Hdom.
    rewrite !list_elem_of_fmap. setoid_rewrite list_elem_of_filter. naive_solver.
  - intros id' d' _ [Hne Hq]%list_elem_of_filter. simpl in Hne.
    apply Htime in Hq as (e & He & Hd); [|apply not_nobody]. exists e. by rewrite lookup_delete_ne by congruence.
  - by apply StronglySorted_filter.
Qed.
End deadlines.

(** *** Sending or resending one exchange *)
Context `{!TimePointLaws T}.

(** What all operations keep. *)
Definition same_config self self' : Prop :=
  iq_receive_maximum self' = iq_receive_maximum self ∧
  iq_mqtt_version self' = iq_mqtt_version self ∧
  iq_retransmission_timeout self' = iq_retransmission_timeout self.

(** An entry sent at [now] is put in place and its deadline refreshed. *)
Lemma touch_ok self self1 id e now :
  inflight_inv self → time_ok self now → ie_packet_id e = id → id ≠ 0 → ie_sent_at e = now →
  iq_entries self1 = <[id := e]> (iq_entries self) →
  NoDup (iq_admission_order self1) →
  (∀ i, i ∈ iq_admission_order self1 ↔ i = id ∨ i ∈ iq_admission_order self) →
  (iq_mqtt_version self = 5 → iq_deadline_queue self1 = []) →
  (iq_mqtt_version self ≠ 5 → deadlines_but (iq_retransmission_timeout self) (iq_entries self)
     (eq id) (iq_deadline_queue self1)) →
  same_config self self1 →
  ∃ queue, InflightQueue_refresh_deadline self1 id now = Ok (with_deadline_queue self1 queue) ∧
    inflight_inv (with_last_update (with_deadline_queue self1 queue) now) ∧
    (∀ d, tp_checked_add now (iq_retransmission_timeout self) = Some d →
      queue = if iq_mqtt_version self =? 5 then []
              else filter (λ x, x.1 ≠ id) (iq_deadline_queue self1) ++ [(id, d)]).
Proof.
  intros Hinv [Ht Hd] Hid Hid0 Hnow He1 Hnd Ho Hq5 Hq (Hrm & Hv & Hto).
  unfold InflightQueue_refresh_deadline. rewrite Hv, Hto.
  assert (∀ i x, iq_entries self !! i = Some x → ord_le (ie_sent_at x) now = true) as Hsent.
  { intros i x (last & Hl & Hle)%(ii_sent _ Hinv). by apply (ord_le_trans _ last); [|apply Ht]. }
  assert (∀ queue, (iq_mqtt_version self = 5 → queue = []) →
    (iq_mqtt_version self ≠ 5 → deadlines_but (iq_retransmission_timeout self)
      (<[id := e]> (iq_entries self)) nobody queue) →
    inflight_inv (with_last_update (with_deadline_queue self1 queue) now)) as Hmk.
  { intros queue H5 Hn5. split; cbn; rewrite ?He1, ?Hv, ?Hto, ?Hrm; try done.
    - intros i. rewrite Ho, (ii_dom _ Hinv), lookup_insert_is_Some'. naive_solver.
    - intros i x. destruct (decide (i = id)) as [->|Hne].
      + rewrite lookup_insert_eq. intros [= <-]. done.
      + rewrite lookup_insert_ne by done. apply (ii_id _ Hinv).
    - intros i x Hx. exists now. split; [done|]. destruct (decide (i = id)) as [->|Hne].
      + rewrite lookup_insert_eq in Hx. injection Hx as <-. rewrite Hnow. apply ord_le_refl.
      + rewrite lookup_insert_ne in Hx by done. by eapply Hsent.
    - apply (ii_receive_maximum _ Hinv). }
  destruct (iq_mqtt_version self =? 5) eqn:E5; simpl.
  - apply Z.eqb_eq in E5. exists (iq_deadline_queue self1). split; [by destruct self1|].
    split; [|auto]. apply Hmk; [auto|done].
  - apply Z.eqb_neq in E5. destruct (Hd E5) as [d Hdd]. rewrite Hdd. rsimp. eexists. split; [done|].
    split; [|intros d' [= <-]; done]. apply Hmk; [done|]. intros _.
    apply (deadlines_refresh _ _); [by apply Hq| |by rewrite Hnow]. rewrite Hnow. exact Hsent.
Qed.

Lemma exchanges_insert_fresh (m : gmap Z (InflightEntry T)) (order : list Z) id e :
  id ∉ order →
  omap (λ i, <[id := e]> m !! i) (order ++ [id]) = omap (λ i, m !! i) order ++ [e].
Proof.
  intros Hni. rewrite omap_app. simpl. rewrite lookup_insert_eq. f_equal.
  apply list_omap_ext, Forall_Forall2_diag, Forall_forall. intros i Hi.
  by rewrite lookup_insert_ne by (by intros ->).
Qed.

(** Replacing one exchange, the others and the order unchanged. *)
Definition update_exchange (id : Z) (e : InflightEntry T) (l : list (InflightEntry T)) :
    list (InflightEntry T) :=
  (λ x, if decide (ie_packet_id x = id) then e else x) <$> l.

Lemma exchanges_update (m : gmap Z (InflightEntry T)) (order : list Z) id e :
  (∀ i x, m !! i = Some x → ie_packet_id x = i) → is_Some (m !! id) →
  omap (λ i, <[id := e]> m !! i) order = update_exchange id e (omap (λ i, m !! i) order).
Proof.
  intros Hid [x0 Hx0]. induction order as [|i order IH]; [done|]. csimpl.
  destruct (decide (i = id)) as [->|Hne].
  - rewrite lookup_insert_eq, Hx0. unfold update_exchange in *.
    csimpl. rewrite decide_True by by apply Hid. by rewrite IH.
  - rewrite lookup_insert_ne by done. destruct (m !! i) as [x|] eqn:E; [|done].
    unfold update_exchange in *. csimpl. apply Hid in E. rewrite decide_False by congruence.
    by rewrite IH.
Qed.

Lemma exchanges_delete (m : gmap Z (InflightEntry T)) (order : list Z) id :
  (∀ i x, m !! i = Some x → ie_packet_id x = i) →
  omap (λ i, delete id m !! i) (filter (λ i, i ≠ id) order)
  = filter (λ x, ie_packet_id x ≠ id) (omap (λ i, m !! i) order).
Proof.
  intros Hid. induction order as [|i order IH]; [done|]. rewrite filter_cons.
  cbn [omap list_omap]. destruct (decide (i ≠ id)) as [Hne|Heq].
  - cbn [omap list_omap]. rewrite lookup_delete_ne by done.
    destruct (m !! i) as [x|] eqn:E; [|done]. rewrite filter_cons, decide_True, IH; [done|].
    apply Hid in E. congruence.
  - assert (i = id) as -> by lia. rewrite IH. destruct (m !! id) as [x|] eqn:E; [|done].
    rewrite filter_cons, decide_False; [done|]. apply Hid in E. auto.
Qed.
End invariant.

(** ** The operations keep the invariant and implement the list specification *)
Section operations.
Context {T : Type} `{TimePointLaws T}.
Implicit Types (self : InflightQueue T) (now : T).

Lemma entries_ids self :
  inflight_inv self → ∀ i x, iq_entries self !! i = Some x → ie_packet_id x = i.
Proof. intros Hinv i x Hx. by apply (ii_id _ Hinv) in Hx as [? _]. Qed.

Lemma with_last_update_id self now : iq_last_update self = Some now → with_last_update self now = self.
Proof. destruct self. simpl. by intros ->. Qed.

(** The entry [push_with_stream_at] creates. *)
Definition new_entry (packet_id : Z) (packet : MqttPacket) (qos : Z) (stream : option Z) now :
    InflightEntry T :=
  {| ie_packet_id := packet_id; ie_packet := packet; ie_sent_at := now; ie_retry_count := 0;
     ie_qos := qos; ie_stream := stream |}.

Lemma push_ok self packet_id packet qos stream now :
  inflight_inv self →
  match InflightQueue_push_with_stream_at self packet_id packet qos stream now with
  | Ok self' =>
      time_ok self now ∧ packet_id ≠ 0 ∧ iq_entries self !! packet_id = None ∧
      (is_publish packet = true → iq_publish_quota_used self < iq_receive_maximum self) ∧
      inflight_inv self' ∧ same_config self self' ∧
      exchanges self' = exchanges self ++ [new_entry packet_id packet qos stream now] ∧
      iq_entries self' = <[packet_id := new_entry packet_id packet qos stream now]> (iq_entries self) ∧
      iq_publish_quota_used self'
      = iq_publish_quota_used self + (if is_publish packet then 1 else 0)
  | Err e => ~ time_ok self now ∨ packet_id = 0 ∨ is_Some (iq_entries self !! packet_id) ∨
      (is_publish packet = true ∧ iq_receive_maximum self <= iq_publish_quota_used self)
  | Panic => False
  end.
Proof.
  intros Hinv. unfold InflightQueue_push_with_stream_at.
  destruct (check_time_cases self now) as [[-> Ht]|[-> Ht]]; rsimp; [|auto].
  destruct (packet_id =? 0) eqn:E0; [right; left; lia|]. apply Z.eqb_neq in E0.
  case_bool_decide as Hex; simpl; [auto|]. apply eq_None_not_Some in Hex.
  unfold InflightQueue_can_push_publish.
  destruct (is_publish packet && negb _) eqn:Eq.
  { apply andb_true_iff in Eq as [Ep Eq]. right. right. right. split; [done|].
    apply negb_true_iff in Eq. lia. }
  set (e := new_entry packet_id packet qos stream now).
  set (self0 := if is_publish packet
    then with_publish_quota_used self (iq_publish_quota_used self + 1) else self).
  set (self1 := with_last_update _ now).
  assert (packet_id ∉ iq_admission_order self) as Hni.
  { rewrite (ii_dom _ Hinv), Hex. by intros [? ?]. }
  assert (iq_entries self1 = <[packet_id := e]> (iq_entries self) ∧
    iq_admission_order self1 = iq_admission_order self ++ [packet_id] ∧
    iq_deadline_queue self1 = iq_deadline_queue self ∧ same_config self self1 ∧
    iq_publish_quota_used self1
      = iq_publish_quota_used self + (if is_publish packet then 1 else 0))
    as (He & Ho & Hq & Hc & Hu).
  { unfold self1, self0. destruct (is_publish packet); simpl; split_and!; done || lia. }
  destruct (touch_ok self self1 packet_id e now) as (queue & -> & Hinv' & _); try done.
  { rewrite Ho. apply NoDup_app. split_and!; [apply Hinv| |apply NoDup_singleton]. set_solver. }
  { intros i. rewrite Ho. set_solver. }
  { rewrite Hq. apply Hinv. }
  { rewrite Hq. intros Hv. eapply deadlines_weaken; [|by apply Hinv]. by intros ? []. }
  rewrite with_last_update_id in Hinv' by done.
  split_and!; try done; [|apply Hc..|].
  { intros Ep. rewrite Ep in Eq. simpl in Eq. apply negb_false_iff in Eq. lia. }
  unfold exchanges. change (iq_entries (with_deadline_queue self1 queue)) with (iq_entries self1).
  change (iq_admission_order (with_deadline_queue self1 queue)) with (iq_admission_order self1).
  rewrite He, Ho. by apply exchanges_insert_fresh.
Qed.

(** The common shape of [transition_pubrel_at] and [resume_on_stream_at]. *)
Definition resend_at self (packet_id : Z) (f : InflightEntry T → InflightEntry T) now :
    result MqttClientError (InflightQueue T) :=
  _ ← InflightQueue_check_time self now;
  self ← (match iq_entries self !! packet_id with
          | Some entry =>
              InflightQueue_refresh_deadline
                (with_entries self (<[packet_id := f entry]> (iq_entries self))) packet_id now
          | None => Ok self
          end);
  Ok (with_last_update self now).

Lemma resend_ok self packet_id f now :
  inflight_inv self →
  (∀ e, ie_packet_id (f e) = ie_packet_id e ∧ ie_sent_at (f e) = now) →
  match resend_at self packet_id f now with
  | Ok self' =>
      time_ok self now ∧ inflight_inv self' ∧ same_config self self' ∧
      iq_publish_quota_used self' = iq_publish_quota_used self ∧
      match iq_entries self !! packet_id with
      | Some e => exchanges self' = update_exchange packet_id (f e) (exchanges self) ∧
                  iq_entries self' = <[packet_id := f e]> (iq_entries self)
      | None => exchanges self' = exchanges self ∧ iq_entries self' = iq_entries self
      end
  | Err e => ~ time_ok self now
  | Panic => False
  end.
Proof.
  intros Hinv Hf. unfold resend_at.
  destruct (check_time_cases self now) as [[-> Ht]|[-> Ht]]; rsimp; [|done].
  destruct (iq_entries self !! packet_id) as [e|] eqn:He; rsimp.
  - destruct (ii_id _ Hinv _ _ He) as [Hid Hid0].
    destruct (touch_ok self (with_entries self (<[packet_id := f e]> (iq_entries self))) packet_id
      (f e) now) as (queue & -> & Hinv' & _); try done; try apply Hf.
    + by rewrite (proj1 (Hf e)).
    + apply Hinv.
    + intros i. simpl. rewrite (ii_dom _ Hinv). naive_solver.
    + apply Hinv.
    + intros Hv. eapply deadlines_weaken; [|by apply Hinv]. by intros ? [].
    + rsimp. split_and!; try done. unfold exchanges. cbn.
      apply exchanges_update; [by apply entries_ids|eauto].
  - split_and!; try done. destruct Ht as [Ht _].
    destruct Hinv as [? ? ? Hs ? ? ?]. split; try done. intros id e Hx. exists now. split; [done|].
    apply Hs in Hx as (last & Hl & Hle). apply (ord_le_trans _ last); [done|by apply Ht].
Qed.

Lemma transition_pubrel_resend self packet_id packet now :
  InflightQueue_transition_pubrel_at self packet_id packet now
  = resend_at self packet_id
      (λ e, entry_with e packet (ie_stream e) (ie_retry_count e) now) now.
Proof. reflexivity. Qed.

Lemma resume_on_stream_resend self packet_id stream now :
  InflightQueue_resume_on_stream_at self packet_id stream now
  = resend_at self packet_id
      (λ e, entry_with e (ie_packet e) (Some stream) (ie_retry_count e) now) now.
Proof. reflexivity. Qed.

Lemma acknowledge_ok self packet_id :
  inflight_inv self →
  let '(entry, self') := InflightQueue_acknowledge self packet_id in
  entry = iq_entries self !! packet_id ∧ inflight_inv self' ∧ same_config self self' ∧
  exchanges self' = filter (λ e, ie_packet_id e ≠ packet_id) (exchanges self) ∧
  iq_entries self' = delete packet_id (iq_entries self) ∧
  iq_publish_quota_used self'
  = match entry with
    | Some e => if is_publish_exchange (ie_packet e)
                then saturating_sub (iq_publish_quota_used self) 1 else iq_publish_quota_used self
    | None => iq_publish_quota_used self
    end.
Proof.
  intros Hinv. unfold InflightQueue_acknowledge.
  destruct (iq_entries self !! packet_id) as [e|] eqn:He.
  - set (self' := if is_publish_exchange _ then _ else _).
    assert (iq_entries self' = delete packet_id (iq_entries self) ∧
      iq_admission_order self' = filter (λ id, id ≠ packet_id) (iq_admission_order self) ∧
      iq_deadline_queue self' = filter (λ e, e.1 ≠ packet_id) (iq_deadline_queue self) ∧
      iq_last_update self' = iq_last_update self ∧ same_config self self' ∧
      iq_publish_quota_used self' = if is_publish_exchange (ie_packet e)
        then saturating_sub (iq_publish_quota_used self) 1 else iq_publish_quota_used self)
      as (Hen & Ho & Hq & Hl & Hc & Hu).
    { unfold self'. by destruct (is_publish_exchange _). }
    split_and!; try done.
    + destruct Hc as (Hrm & Hv & Hto). split; rewrite ?Hen, ?Ho, ?Hq, ?Hl, ?Hrm, ?Hv, ?Hto.
      * apply NoDup_filter, Hinv.
      * intros id. rewrite list_elem_of_filter, (ii_dom _ Hinv), lookup_delete_is_Some. naive_solver.
      * intros id x Hx%lookup_delete_Some. apply (ii_id _ Hinv). by destruct Hx.
      * intros id x Hx%lookup_delete_Some. apply (ii_sent _ Hinv id). by destruct Hx.
      * intros H5. by rewrite (ii_v5 _ Hinv H5).
      * intros H5. by apply deadlines_delete, Hinv.
      * apply Hinv.
    + unfold exchanges. rewrite Hen, Ho. by apply exchanges_delete, entries_ids.
  - split_and!; try done; [|by rewrite delete_id].
    symmetry. apply filter_all, Forall_forall. intros x Hx.
    unfold exchanges in Hx. apply list_elem_of_omap in Hx as (i & _ & Hx).
    apply (entries_ids _ Hinv) in Hx as Hi. congruence.
Qed.

Lemma clear_ok self :
  inflight_inv self → inflight_inv (InflightQueue_clear self) ∧
  exchanges (InflightQueue_clear self) = [] ∧ InflightQueue_is_empty (InflightQueue_clear self) = true.
Proof.
  intros Hinv. split_and!; try done. split; simpl; try done.
  - constructor.
  - intros id. rewrite lookup_empty. split; [by intros ?%not_elem_of_nil|by intros [? ?]].
  - intros _. split; simpl; [by apply NoDup_nil| | |constructor].
    + intros id _. rewrite lookup_empty. split; [by intros ?%not_elem_of_nil|by intros [? ?]].
    + by intros id d _ ?%not_elem_of_nil.
  - apply Hinv.
Qed.

(** *** Retransmission *)
Definition retried now (e : InflightEntry T) : InflightEntry T :=
  entry_with e (ie_packet e) (ie_stream e) (next_retry (ie_retry_count e)) now.

(** What is sent again for the exchanges of [due], and the entries afterwards. *)
Definition resent self (due : list (Z * T)) : list (MqttPacket * option Z) :=
  omap (λ x, (λ e, (ie_packet e, ie_stream e)) <$> iq_entries self !! x.1) due.
Definition retried_entries self self' (due : list (Z * T)) now : Prop :=
  ∀ id, iq_entries self' !! id
        = (λ e, if decide (id ∈ due.*1) then retried now e else e) <$> iq_entries self !! id.

Lemma resent_ext self self' due :
  (∀ id, id ∈ due.*1 → iq_entries self' !! id = iq_entries self !! id) →
  resent self' due = resent self due.
Proof.
  intros Hx. unfold resent. apply list_omap_ext, Forall_Forall2_diag, Forall_forall.
  intros x Hin. rewrite Hx; [done|]. by apply (list_elem_of_fmap_2 fst).
Qed.

Section expire.
Context (now d0 : T).

(** The state in which a round of the loop runs. *)
Definition expiring self : Prop :=
  inflight_inv self ∧ iq_last_update self = Some now ∧ iq_mqtt_version self ≠ 5 ∧
  tp_checked_add now (iq_retransmission_timeout self) = Some d0.

Lemma expire_one self id d queue :
  expiring self → iq_deadline_queue self = (id, d) :: queue →
  ∃ e self', iq_entries self !! id = Some e ∧ id ∉ queue.*1 ∧
    InflightQueue_refresh_deadline
      (with_entries (with_deadline_queue self queue) (<[id := retried now e]> (iq_entries self)))
      id now = Ok self' ∧
    expiring self' ∧ same_config self self' ∧
    iq_admission_order self' = iq_admission_order self ∧
    iq_publish_quota_used self' = iq_publish_quota_used self ∧
    iq_entries self' = <[id := retried now e]> (iq_entries self) ∧
    iq_deadline_queue self' = queue ++ [(id, d0)].
Proof.
  intros (Hinv & Hl & Hv & Hd) Hq. pose proof (ii_deadlines _ Hinv Hv) as Hdl. rewrite Hq in Hdl.
  assert (is_Some (iq_entries self !! id)) as [e He].
  { apply (dl_dom _ _ _ _ Hdl); [apply not_nobody|]. simpl. set_solver. }
  pose proof (dl_nodup _ _ _ _ Hdl) as Hnd. simpl in Hnd. apply NoDup_cons in Hnd as [Hni _].
  destruct (ii_id _ Hinv _ _ He) as [Hid Hid0].
  destruct (touch_ok self
    (with_entries (with_deadline_queue self queue) (<[id := retried now e]> (iq_entries self)))
    id (retried now e) now) as (queue' & Hr & Hinv' & Hqueue); try done.
  - split; [|by rewrite Hd]. intros last Hlast. rewrite Hl in Hlast. simplify_eq. apply ord_le_refl.
  - apply Hinv.
  - intros i. simpl. rewrite (ii_dom _ Hinv). naive_solver.
  - intros _. by apply deadlines_cons in Hdl.
  - exists e. eexists. split; [done|]. split; [done|]. split; [exact Hr|].
    specialize (Hqueue d0 Hd). apply Z.eqb_neq in Hv as Hv'. rewrite Hv' in Hqueue. simpl in Hqueue.
    rewrite filter_all in Hqueue.
    2: { apply Forall_forall. intros x Hx E. apply Hni. rewrite <- E.
      by apply (list_elem_of_fmap_2 fst). }
    rewrite with_last_update_id in Hinv' by done. subst queue'. done.
Qed.

Lemma expire_loop_ok due self later done_ expired :
  expiring self → iq_deadline_queue self = due ++ later ++ done_ →
  Forall (λ x, ord_lt now x.2 = false) due → Forall (λ x, ord_lt now x.2 = true) later →
  ∃ self', expire_loop (length due + length later) self now expired
      = Ok (expired ++ resent self due, self') ∧
    expiring self' ∧ same_config self self' ∧
    iq_admission_order self' = iq_admission_order self ∧
    iq_publish_quota_used self' = iq_publish_quota_used self ∧
    retried_entries self self' due now ∧
    iq_deadline_queue self' = later ++ done_ ++ ((λ x, (x.1, d0)) <$> due).
Proof.
  revert self done_ expired. induction due as [|[id d] due IH]; intros self done_ expired Hex Hq Hdue Hlater.
  - exists self. rewrite !app_nil_r. simpl. split_and!; try done.
    + destruct Hlater as [|[i x] later Hx _]; [done|]. simpl in Hq |- *. rewrite Hq. simpl in Hx.
      by rewrite Hx.
    + intros id. by destruct (iq_entries self !! id).
  - apply Forall_cons_1 in Hdue as [Hd Hdue]. cbn [app] in Hq.
    destruct (expire_one self id d _ Hex Hq)
      as (e & self1 & He & Hni & Hr & Hex1 & Hc1 & Ho1 & Hu1 & Hen1 & Hq1).
    cbn [length Nat.add expire_loop]. simpl in Hd. rewrite Hq, Hd. simpl in He |- *. rewrite He.
    unfold retried in Hr. rewrite Hr. rsimp.
    rewrite <- app_assoc in Hq1. rewrite <- app_assoc in Hq1.
    destruct (IH self1 (done_ ++ [(id, d0)]) (expired ++ [(ie_packet e, ie_stream e)]) Hex1)
      as (self' & Hloop & Hex' & Hc' & Ho' & Hu' & Hen' & Hq'); [done..|].
    rewrite !fmap_app in Hni. assert (id ∉ due.*1) as Hid by set_solver.
    exists self'. split_and!; try (congruence || done).
    + rewrite Hloop. do 2 f_equal. rewrite <- app_assoc. f_equal.
      rewrite (resent_ext self self1).
      * unfold resent. csimpl. done.
      * intros i Hi. rewrite Hen1, lookup_insert_ne; [done|]. by intros ->.
    + destruct Hc1 as (? & ? & ?), Hc' as (? & ? & ?). split_and!; congruence.
    + intros i. rewrite (Hen' i), Hen1. destruct (decide (i = id)) as [->|Hne].
      * rewrite lookup_insert_eq, He. csimpl. rewrite decide_False by done.
        by rewrite decide_True by set_solver.
      * rewrite lookup_insert_ne by done. destruct (iq_entries self !! i); [|done]. csimpl.
        f_equal. apply decide_ext. set_solver.
    + rewrite Hq'. csimpl. by rewrite <- app_assoc.
Qed.
End expire.

(** A sorted queue splits at [now]. *)
Lemma due_split now (queue : list (Z * T)) :
  StronglySorted deadline_le queue →
  queue = filter (λ x, ord_lt now x.2 = false) queue ++ filter (λ x, ord_lt now x.2 = true) queue.
Proof.
  induction 1 as [|x queue _ IH Hall]; [done|]. rewrite !filter_cons.
  destruct (ord_lt now x.2) eqn:E.
  - rewrite decide_False, decide_True by congruence.
    assert (Forall (λ y, ord_lt now y.2 = true) queue) as Hlt.
    { eapply Forall_impl; [exact Hall|]. intros y Hy. by eapply ord_lt_le_trans. }
    rewrite filter_none by (eapply Forall_impl; [exact Hlt|]; simpl; congruence).
    simpl. f_equal. by rewrite filter_all.
  - rewrite decide_True, decide_False by congruence. cbn [app]. by f_equal.
Qed.

Lemma get_expired_ok self now :
  inflight_inv self → time_ok self now → iq_mqtt_version self ≠ 5 →
  let due := filter (λ x, ord_lt now x.2 = false) (iq_deadline_queue self) in
  ∃ d0 self', tp_checked_add now (iq_retransmission_timeout self) = Some d0 ∧
    InflightQueue_get_expired_with_stream_at self now = Ok (resent self due, self') ∧
    inflight_inv self' ∧ same_config self self' ∧
    iq_admission_order self' = iq_admission_order self ∧
    iq_publish_quota_used self' = iq_publish_quota_used self ∧
    retried_entries self self' due now ∧
    iq_deadline_queue self' = filter (λ x, ord_lt now x.2 = true) (iq_deadline_queue self)
                              ++ ((λ x, (x.1, d0)) <$> due).
Proof.
  intros Hinv [Ht Hd] Hv due. destruct (Hd Hv) as [d0 Hd0]. exists d0.
  pose proof (due_split now _ (dl_sorted _ _ _ _ (ii_deadlines _ Hinv Hv))) as Hsplit.
  unfold InflightQueue_get_expired_with_stream_at.
  destruct (check_time_cases self now) as [[-> _]|[_ []]]; [|done]. rsimp.
  destruct (expire_loop_ok now d0 due (with_last_update self now)
    (filter (λ x, ord_lt now x.2 = true) (iq_deadline_queue self)) [] [])
    as (self' & Hloop & (Hinv' & _) & Hc & Ho & Hu & Hen & Hq).
  - split_and!; try done. destruct Hinv as [? ? ? Hs ? ? ?]. split; try done.
    intros id e Hx. exists now. split; [done|]. apply Hs in Hx as (last & Hl & Hle).
    apply (ord_le_trans _ last); [done|by apply Ht].
  - by rewrite app_nil_r.
  - apply Forall_forall. by intros x [? _]%list_elem_of_filter.
  - apply Forall_forall. by intros x [? _]%list_elem_of_filter.
  - exists self'. split_and!; try done. etrans; [|exact Hloop]. f_equal.
    change (iq_deadline_queue (with_last_update self now)) with (iq_deadline_queue self).
    rewrite Hsplit at 1. by rewrite length_app.
Qed.
End operations.

(** ** The time of the last update *)
Section last_update.
Context {T : Type} `{TimePointLaws T}.
Implicit Types (self : InflightQueue T) (now : T).

Lemma refresh_last_update self id now self' :
  InflightQueue_refresh_deadline self id now = Ok self' → iq_last_update self' = iq_last_update self.
Proof.
  unfold InflightQueue_refresh_deadline. destruct (negb _); [|by intros [= <-]].
  destruct (tp_checked_add _ _); [|done]. rsimp. by intros [= <-].
Qed.
Lemma push_last_update self id packet qos stream now self' :
  InflightQueue_push_with_stream_at self id packet qos stream now = Ok self' →
  iq_last_update self' = Some now.
Proof.
  unfold InflightQueue_push_with_stream_at. intros ([] & _ & Hp)%bind_Ok_inv.
  destruct (_ || _); [done|]. destruct (_ && _); [done|]. by apply refresh_last_update in Hp.
Qed.
Lemma transition_last_update self id packet now self' :
  InflightQueue_transition_pubrel_at self id packet now = Ok self' → iq_last_update self' = Some now.
Proof.
  unfold InflightQueue_transition_pubrel_at. intros ([] & _ & Hp)%bind_Ok_inv.
  apply bind_Ok_inv in Hp as (q & _ & [= <-]%Ok_inj). done.
Qed.
Lemma expire_last_update rounds self now out out' self' :
  expire_loop rounds self now out = Ok (out', self') → iq_last_update self' = iq_last_update self.
Proof.
  revert self out. induction rounds as [|rounds IH]; intros self out; simpl; [by intros [= <- <-]|].
  destruct (iq_deadline_queue self) as [|[id d] rest]; [by intros [= <- <-]|].
  destruct (ord_lt now d); [by intros [= <- <-]|].
  destruct (iq_entries self !! id); [|by intros ->%IH].
  intros (q & Hq & Hl)%bind_Ok_inv. rewrite (IH _ _ Hl). by apply refresh_last_update in Hq.
Qed.
Lemma get_expired_last_update self now out self' :
  InflightQueue_get_expired_with_stream_at self now = Ok (out, self') →
  iq_last_update self' = Some now.
Proof.
  unfold InflightQueue_get_expired_with_stream_at. intros ([] & _ & Hp)%bind_Ok_inv.
  by apply expire_last_update in Hp.
Qed.
End last_update.

(** ** The publish quota over runs *)
Section quota.
Context {T : Type} `{TimePointLaws T}.
Implicit Types (self : InflightQueue T) (now : T).

(** The PUBLISH exchanges that are not completed. *)
Definition outstanding self : Z :=
  zlen (filter (λ e, is_publish_exchange (ie_packet e) = true) (exchanges self)).

(** One operation of a client.  A PUBREL enters the queue only by the transition of a PUBLISH
    exchange. *)
Inductive inflight_step : InflightQueue T → InflightQueue T → Prop :=
  | step_push self id packet qos stream now self' :
      is_publish packet = is_publish_exchange packet →
      InflightQueue_push_with_stream_at self id packet qos stream now = Ok self' →
      inflight_step self self'
  | step_transition_pubrel self id packet now self' :
      is_publish_exchange packet = true →
      (∀ e, iq_entries self !! id = Some e → is_publish_exchange (ie_packet e) = true) →
      InflightQueue_transition_pubrel_at self id packet now = Ok self' →
      inflight_step self self'
  | step_resume_on_stream self id stream now self' :
      InflightQueue_resume_on_stream_at self id stream now = Ok self' →
      inflight_step self self'
  | step_acknowledge self id :
      inflight_step self (InflightQueue_acknowledge self id).2
  | step_get_expired self now out self' :
      InflightQueue_get_expired_with_stream_at self now = Ok (out, self') →
      inflight_step self self'
  | step_update_receive_maximum self m :
      inflight_step self (InflightQueue_update_receive_maximum self m)
  | step_clear self :
      inflight_step self (InflightQueue_clear self).

Lemma outstanding_pointwise self self' (g : Z → InflightEntry T → InflightEntry T) :
  iq_admission_order self' = iq_admission_order self →
  (∀ i, iq_entries self' !! i = g i <$> iq_entries self !! i) →
  (∀ i e, iq_entries self !! i = Some e →
     is_publish_exchange (ie_packet (g i e)) = is_publish_exchange (ie_packet e)) →
  outstanding self' = outstanding self.
Proof.
  intros Ho He Hg. unfold outstanding, exchanges. rewrite Ho. clear Ho.
  induction (iq_admission_order self) as [|i order IH]; [done|]. csimpl. rewrite He.
  destruct (iq_entries self !! i) as [e|] eqn:E; csimpl; [|done].
  rewrite !filter_cons. apply Hg in E. rewrite E.
  destruct (decide _); [|done]. rewrite !zlen_cons. by rewrite IH.
Qed.

Lemma exchanges_take_one self id e :
  inflight_inv self → iq_entries self !! id = Some e →
  exchanges self ≡ₚ e :: filter (λ x, ie_packet_id x ≠ id) (exchanges self).
Proof.
  intros Hinv He. unfold exchanges. rewrite <- exchanges_delete by by apply entries_ids.
  assert (id ∈ iq_admission_order self) as Hin by (apply (ii_dom _ Hinv); eauto).
  pose proof (ii_nodup _ Hinv) as Hnd. apply list_elem_of_split in Hin as (o1 & o2 & Ho).
  rewrite Ho in *. apply NoDup_app in Hnd as (_ & Hn1 & Hn2). apply NoDup_cons in Hn2 as [Hn2 _].
  assert (id ∉ o1) as Hn1' by (intros Hi; apply (Hn1 id Hi); set_solver).
  rewrite filter_app, filter_cons, decide_False by auto.
  rewrite !filter_all by (apply Forall_forall; intros x Hx ->; done).
  rewrite !omap_app. csimpl. rewrite He, <- Permutation_middle. f_equiv. f_equiv;
    apply reflexive_eq, list_omap_ext, Forall_Forall2_diag, Forall_forall; intros x Hx;
    (rewrite lookup_delete_ne; [done|by intros ->]).
Qed.

Definition quota_inv self : Prop := inflight_inv self ∧ iq_publish_quota_used self = outstanding self.

Lemma get_expired_v5 self now :
  inflight_inv self → iq_mqtt_version self = 5 →
  InflightQueue_get_expired_with_stream_at self now
  = (_ ← InflightQueue_check_time self now; Ok ([], with_last_update self now)).
Proof.
  intros Hinv Hv. unfold InflightQueue_get_expired_with_stream_at.
  cbn [iq_deadline_queue with_last_update]. rewrite (ii_v5 _ Hinv Hv). done.
Qed.

Lemma with_last_update_inv self now :
  inflight_inv self → time_ok self now → inflight_inv (with_last_update self now).
Proof.
  intros [? ? ? Hs ? ? ?] [Ht _]. split; try done. intros id e Hx. exists now. split; [done|].
  apply Hs in Hx as (last & Hl & Hle). apply (ord_le_trans _ last); [done|by apply Ht].
Qed.

Lemma get_expired_step self now out self' :
  inflight_inv self → InflightQueue_get_expired_with_stream_at self now = Ok (out, self') →
  inflight_inv self' ∧ outstanding self' = outstanding self ∧
  iq_publish_quota_used self' = iq_publish_quota_used self.
Proof.
  intros Hinv Hx. destruct (check_time_cases self now) as [[Hc Ht]|[Hc Ht]].
  2: { unfold InflightQueue_get_expired_with_stream_at in Hx. by rewrite Hc in Hx. }
  destruct (decide (iq_mqtt_version self = 5)) as [Hv|Hv].
  - rewrite (get_expired_v5 _ _ Hinv Hv), Hc in Hx. rsimp. simpl in Hx. simplify_eq.
    split_and!; [by apply with_last_update_inv|done|done].
  - destruct (get_expired_ok self now Hinv Ht Hv) as (d0 & s & _ & Hs & Hi & _ & Ho & Hu & He & _).
    rewrite Hx in Hs. simplify_eq. split_and!; [done| |done].
    set (due := filter _ _) in *.
    apply (outstanding_pointwise _ _ (λ i e, if decide (i ∈ due.*1) then retried now e else e));
      [done|exact He|]. intros i e _. by destruct (decide (i ∈ due.*1)).
Qed.

Lemma resend_step self id f now self' :
  inflight_inv self →
  (∀ e, ie_packet_id (f e) = ie_packet_id e ∧ ie_sent_at (f e) = now) →
  (∀ e, iq_entries self !! id = Some e →
     is_publish_exchange (ie_packet (f e)) = is_publish_exchange (ie_packet e)) →
  resend_at self id f now = Ok self' →
  inflight_inv self' ∧ outstanding self' = outstanding self ∧
  iq_publish_quota_used self' = iq_publish_quota_used self.
Proof.
  intros Hinv Hf Hp Hr. pose proof (resend_ok self id f now Hinv Hf) as Hok. rewrite Hr in Hok.
  destruct Hok as (_ & Hi & _ & Hu & Hx). split_and!; [done| |done].
  unfold outstanding. destruct (iq_entries self !! id) as [e|] eqn:E; destruct Hx as [Hx _]; rewrite Hx;
    [|done]. specialize (Hp e eq_refl).
  assert (Forall (λ x, ie_packet_id x = id → x = e) (exchanges self)) as Hone.
  { apply Forall_forall. intros x (i & _ & Hi')%list_elem_of_omap Hid.
    apply (entries_ids _ Hinv) in Hi' as Hxi. congruence. }
  clear Hx. unfold update_exchange. induction Hone as [|x l Hxe _ IH]; [done|]. csimpl. rewrite !filter_cons.
  assert (is_publish_exchange (ie_packet (if decide (ie_packet_id x = id) then f e else x))
    = is_publish_exchange (ie_packet x)) as ->.
  { destruct (decide _) as [Hid|]; [|done]. by rewrite (Hxe Hid). }
  destruct (decide (is_publish_exchange (ie_packet x) = true)); [|done].
  rewrite !zlen_cons. by rewrite IH.
Qed.

Lemma inflight_step_quota self self' : quota_inv self → inflight_step self self' → quota_inv self'.
Proof.
  intros [Hinv Hq] Hstep. revert Hinv Hq.
  destruct Hstep as [self id packet qos stream now self' Hp Hx|self id packet now self' Hp He Hx
    |self id stream now self' Hx|self id|self now out self' Hx|self m|self]; intros Hinv Hq.
  - pose proof (push_ok self id packet qos stream now Hinv) as Hok. rewrite Hx in Hok.
    destruct Hok as (_ & _ & _ & _ & Hi & _ & Hex & _ & Hu). split; [done|].
    unfold outstanding in *. rewrite Hu, Hex, filter_app, zlen_app, Hq, Hp. f_equal.
    simpl. rewrite filter_cons, filter_nil. simpl. by destruct (is_publish_exchange packet).
  - rewrite transition_pubrel_resend in Hx. eapply resend_step in Hx as (? & ? & ?); [|done..|].
    + split; [done|congruence].
    + intros e Hee. simpl. rewrite Hp. symmetry. by apply He.
  - rewrite resume_on_stream_resend in Hx. eapply resend_step in Hx as (? & ? & ?); [|done..|].
    + split; [done|congruence].
    + done.
  - pose proof (acknowledge_ok self id Hinv) as Hok.
    destruct (InflightQueue_acknowledge self id) as [entry self'] eqn:E.
    destruct Hok as (Hen & Hi & _ & Hex & _ & Hu). split; [done|]. simpl.
    rewrite Hu. unfold outstanding. rewrite Hex. subst entry.
    destruct (iq_entries self !! id) as [e|] eqn:Ee.
    + unfold outstanding in Hq. pose proof (exchanges_take_one self id e Hinv Ee) as Hperm.
      assert (zlen (filter (λ e, is_publish_exchange (ie_packet e) = true) (exchanges self))
        = zlen (filter (λ e, is_publish_exchange (ie_packet e) = true)
            (e :: filter (λ x, ie_packet_id x ≠ id) (exchanges self)))) as Hz.
      { unfold zlen. by rewrite <- Hperm. }
      rewrite Hz, filter_cons in Hq. unfold saturating_sub.
      destruct (is_publish_exchange (ie_packet e)); simpl in Hq; [rewrite zlen_cons in Hq|];
        zlen_pos; lia.
    + rewrite Hq. unfold outstanding. rewrite (filter_all (λ x, ie_packet_id x ≠ id)); [done|].
      apply Forall_forall. intros x (i & _ & Hx)%list_elem_of_omap Hid.
      apply (entries_ids _ Hinv) in Hx as Hi'. congruence.
  - apply get_expired_step in Hx as (? & ? & ?); [|done]. split; [done|congruence].
  - unfold InflightQueue_update_receive_maximum. destruct (0 <? m) eqn:Em; [|done].
    split; [|done]. destruct Hinv. split; try done. simpl. lia.
  - destruct (clear_ok self Hinv) as (? & He & _). split; [done|]. unfold outstanding.
    by rewrite He.
Qed.

Lemma new_inflight_inv receive_maximum version timeout :
  0 <= receive_maximum → quota_inv (InflightQueue_new (T:=T) receive_maximum version timeout).
Proof.
  intros Hr. split; [|done].
  destruct (clear_ok (T:=T) {| iq_entries := ∅; iq_admission_order := []; iq_deadline_queue := [];
    iq_receive_maximum := if receive_maximum =? 0 then u16_MAX else receive_maximum;
    iq_mqtt_version := version; iq_retransmission_timeout := timeout;
    iq_publish_quota_used := 0; iq_last_update := None |}) as [Hi _]; [|exact Hi].
  split; simpl; try done.
  - constructor.
  - intros id. rewrite lookup_empty. split; [by intros ?%not_elem_of_nil|by intros [? ?]].
  - intros _. split; simpl; [by apply NoDup_nil| | |constructor].
    + intros id _. rewrite lookup_empty. split; [by intros ?%not_elem_of_nil|by intros [? ?]].
    + by intros id d _ ?%not_elem_of_nil.
  - destruct (receive_maximum =? 0) eqn:E; unfold u16_MAX; lia.
Qed.

Lemma reachable_quota self self' : quota_inv self → rtc inflight_step self self' → quota_inv self'.
Proof. intros Hq Hrtc. induction Hrtc; eauto using inflight_step_quota. Qed.
End quota.

(** ** Theorems *)

(** C33: the inflight queue accounts for every PUBLISH.  In every state a client reaches, by any
    sequence of pushes, PUBREC transitions, stream resumptions, acknowledgements, expiry ticks,
    receive-maximum updates and clears, the quota in use is exactly the number of outstanding
    PUBLISH exchanges, and a further PUBLISH with a fresh identifier is accepted exactly while
    that number is below the receive maximum (and counted). *)
Theorem inflight_quota {T} `{TimePointLaws T} receive_maximum version timeout (self : InflightQueue T)
    id packet qos stream now :
  0 <= receive_maximum →
  rtc inflight_step (InflightQueue_new receive_maximum version timeout) self →
  is_publish packet = true → id ≠ 0 → iq_entries self !! id = None → time_ok self now →
  iq_publish_quota_used self = outstanding self ∧
  match InflightQueue_push_with_stream_at self id packet qos stream now with
  | Ok self' => outstanding self < iq_receive_maximum self ∧ outstanding self' = outstanding self + 1
  | Err _ => iq_receive_maximum self <= outstanding self
  | Panic => False
  end.
Proof.
  intros Hr Hrtc Hp Hid Hfresh Ht.
  assert (quota_inv self) as [Hinv Hq].
  { eapply reachable_quota; [|exact Hrtc]. by apply new_inflight_inv. }
  split; [done|]. pose proof (push_ok self id packet qos stream now Hinv) as Hok.
  destruct (InflightQueue_push_with_stream_at self id packet qos stream now) as [self'|e|] eqn:E; [..|done].
  - destruct Hok as (_ & _ & _ & Hlt & _ & _ & _ & _ & Hu). split; [rewrite <- Hq; by apply Hlt|].
    assert (quota_inv self') as [_ Hq'].
    { eapply inflight_step_quota; [by split|]. eapply step_push; [|exact E].
      rewrite Hp. by destruct packet. }
    rewrite <- Hq', Hu, Hq, Hp. done.
  - rewrite Hfresh in Hok. destruct Hok as [?|[?|[[? ?]|[_ ?]]]]; [done..|lia].
Qed.

Definition sample_exchange : MqttPacket := Publish3 {|
  p3_topic_name := str "a"; p3_qos := 1; p3_dup := false; p3_retain := false;
  p3_message_id := Some 7; p3_payload := [] |}.

(** The queue with one exchange open, room for one or for two. *)
Definition sample_tracked (receive_maximum : Z) : InflightQueue Timestamp :=
  match InflightQueue_push_with_stream_at (InflightQueue_new receive_maximum 4 1000) 7
          sample_exchange 1 None {| ts_nanos := 5 |} with
  | Ok q => q
  | _ => InflightQueue_new receive_maximum 4 1000
  end.
Lemma sample_tracked_reachable :
  rtc inflight_step (InflightQueue_new 1 4 1000) (sample_tracked 1) ∧
  rtc inflight_step (InflightQueue_new 2 4 1000) (sample_tracked 2).
Proof.
  split; apply rtc_once; (eapply (step_push _ 7 sample_exchange 1 None {| ts_nanos := 5 |});
    [reflexivity|vm_compute; reflexivity]).
Qed.
Lemma sample_tracked_time receive_maximum :
  receive_maximum = 1 ∨ receive_maximum = 2 → time_ok (sample_tracked receive_maximum) {| ts_nanos := 6 |}.
Proof.
  intros [->| ->]; (split; [intros last Hlast; vm_compute in Hlast; injection Hlast as <-; vm_compute; done|]);
    intros _; vm_compute; eauto.
Qed.

(** With room for two the next PUBLISH is accepted and counted, with room for one refused. *)
Lemma inflight_quota_witness :
  (iq_publish_quota_used (sample_tracked 2) = 1 ∧
   match InflightQueue_push_with_stream_at (sample_tracked 2) 8 sample_exchange 1 None
           {| ts_nanos := 6 |} with
   | Ok q => outstanding q = outstanding (sample_tracked 2) + 1 | _ => False end) ∧
  match InflightQueue_push_with_stream_at (sample_tracked 1) 8 sample_exchange 1 None
          {| ts_nanos := 6 |} with
  | Err _ => iq_receive_maximum (sample_tracked 1) <= outstanding (sample_tracked 1) | _ => False end.
Proof.
  destruct (inflight_quota 2 4 1000 (sample_tracked 2) 8 sample_exchange 1 None {| ts_nanos := 6 |}
    ltac:(lia) (proj2 sample_tracked_reachable) eq_refl ltac:(lia) eq_refl
    (sample_tracked_time 2 (or_intror eq_refl))) as [_ H2].
  destruct (inflight_quota 1 4 1000 (sample_tracked 1) 8 sample_exchange 1 None {| ts_nanos := 6 |}
    ltac:(lia) (proj1 sample_tracked_reachable) eq_refl ltac:(lia) eq_refl
    (sample_tracked_time 1 (or_introl eq_refl))) as [_ H1].
  split; [split; [vm_compute; reflexivity|]|].
  - destruct (InflightQueue_push_with_stream_at (sample_tracked 2) 8 sample_exchange 1 None
      {| ts_nanos := 6 |}) as [q|e|] eqn:E; [exact (proj2 H2)|vm_compute in E; discriminate E|exact H2].
  - destruct (InflightQueue_push_with_stream_at (sample_tracked 1) 8 sample_exchange 1 None
      {| ts_nanos := 6 |}) as [q|e|] eqn:E; [vm_compute in E; discriminate E|exact H1|exact H1].
Defined.

(** Replay keeps the admission order.  The packets replayed on a reconnection are those of
    the outstanding exchanges in the order they were admitted: a push appends, a PUBREC
    replaces the packet in place, an acknowledgement removes exactly its exchange; errors
    change nothing, nothing panics, and the invariant is kept throughout. *)
Theorem inflight_replay_order {T} `{TimePointLaws T} (self : InflightQueue T) id packet qos stream now :
  inflight_inv self →
  InflightQueue_get_all_for_reconnect self = ie_packet <$> exchanges self ∧
  match InflightQueue_push_with_stream_at self id packet qos stream now with
  | Ok self' => inflight_inv self' ∧
      exchanges self' = exchanges self ++ [new_entry id packet qos stream now]
  | Err _ => ~ time_ok self now ∨ id = 0 ∨ is_Some (iq_entries self !! id) ∨
      (is_publish packet = true ∧ iq_receive_maximum self <= iq_publish_quota_used self)
  | Panic => False
  end ∧
  match InflightQueue_transition_pubrel_at self id packet now with
  | Ok self' => inflight_inv self' ∧
      exchanges self' = match iq_entries self !! id with
        | Some e => update_exchange id (entry_with e packet (ie_stream e) (ie_retry_count e) now)
                      (exchanges self)
        | None => exchanges self
        end
  | Err _ => ~ time_ok self now
  | Panic => False
  end ∧
  let '(entry, self') := InflightQueue_acknowledge self id in
  entry = iq_entries self !! id ∧ inflight_inv self' ∧
  exchanges self' = filter (λ e, ie_packet_id e ≠ id) (exchanges self).
Proof.
  intros Hinv. split; [done|]. split; [|split].
  - pose proof (push_ok self id packet qos stream now Hinv) as Hok.
    destruct (InflightQueue_push_with_stream_at _ _ _ _ _ _); naive_solver.
  - rewrite transition_pubrel_resend.
    pose proof (resend_ok self id (λ e, entry_with e packet (ie_stream e) (ie_retry_count e) now) now
      Hinv ltac:(done)) as Hok.
    destruct (resend_at _ _ _ _); [|done..]. destruct Hok as (_ & Hi & _ & _ & Hx). split; [done|].
    destruct (iq_entries self !! id); apply Hx.
  - pose proof (acknowledge_ok self id Hinv) as Hok.
    destruct (InflightQueue_acknowledge self id). naive_solver.
Qed.

Definition sample_inflight : InflightQueue Timestamp :=
  {| iq_entries := {[ 7 := {| ie_packet_id := 7; ie_packet := sample_exchange;
       ie_sent_at := {| ts_nanos := 5 |}; ie_retry_count := 0; ie_qos := 1; ie_stream := None |} ]};
     iq_admission_order := [7]; iq_deadline_queue := [(7, {| ts_nanos := 1005 |})];
     iq_receive_maximum := 1; iq_mqtt_version := 4; iq_retransmission_timeout := 1000;
     iq_publish_quota_used := 1; iq_last_update := Some {| ts_nanos := 5 |} |}.

Lemma sample_inflight_inv : inflight_inv sample_inflight.
Proof.
  pose proof (push_ok (T:=Timestamp) (InflightQueue_new 1 4 1000) 7 sample_exchange 1 None
    {| ts_nanos := 5 |}) as H.
  specialize (H (proj1 (new_inflight_inv 1 4 1000 ltac:(lia)))).
  destruct (InflightQueue_push_with_stream_at _ _ _ _ _ _) as [self'|e|] eqn:E.
  - assert (self' = sample_inflight) as <- by (vm_compute in E; by simplify_eq). apply H.
  - vm_compute in E. discriminate E.
  - vm_compute in E. discriminate E.
Qed.

Lemma inflight_replay_order_witness :
  InflightQueue_get_all_for_reconnect sample_inflight = [sample_exchange] ∧
  exchanges (InflightQueue_acknowledge sample_inflight 7).2 = [].
Proof.
  pose proof (inflight_replay_order sample_inflight 7 sample_exchange 1 None {| ts_nanos := 6 |}
    sample_inflight_inv) as (H & _ & _ & _).
  split; [exact H|]. vm_compute. reflexivity.
Defined.

(** Retransmission.  Below MQTT 5 a tick resends exactly the exchanges whose deadline has
    come, each once, oldest deadline first, on the stream they were sent on; each of them is
    retried (counted, its next deadline one timeout away) and no other changes.  The timer the
    queue asks for is the earliest deadline of all.  Under MQTT 5 nothing is resent. *)
Theorem inflight_retransmission {T} `{TimePointLaws T} (self : InflightQueue T) now :
  inflight_inv self → time_ok self now →
  let due := filter (λ x, ord_lt now x.2 = false) (iq_deadline_queue self) in
  ∃ self', InflightQueue_get_expired_with_stream_at self now
    = Ok (if iq_mqtt_version self =? 5 then [] else resent self due, self') ∧
  inflight_inv self' ∧ iq_admission_order self' = iq_admission_order self ∧
  (if iq_mqtt_version self =? 5 then iq_entries self' = iq_entries self
   else retried_entries self self' due now) ∧
  (iq_mqtt_version self ≠ 5 → ∀ id e, iq_entries self !! id = Some e →
    ∃ d first, tp_checked_add (ie_sent_at e) (iq_retransmission_timeout self) = Some d ∧
      InflightQueue_next_expiration self = Some first ∧ ord_le first d = true ∧
      (id ∈ due.*1 ↔ ord_lt now d = false)).
Proof.
  intros Hinv Ht due. destruct (decide (iq_mqtt_version self = 5)) as [Hv|Hv].
  - exists (with_last_update self now). rewrite Hv. simpl.
    rewrite get_expired_v5 by done. destruct (check_time_cases self now) as [[-> _]|[_ []]]; [|done].
    split_and!; [done|by apply with_last_update_inv|done..].
  - destruct (get_expired_ok self now Hinv Ht Hv) as (d0 & s & _ & Hs & Hi & _ & Ho & _ & He & _).
    exists s. apply Z.eqb_neq in Hv as Hv'. rewrite Hv'. split_and!; [done..|].
    intros _ id e Hid. pose proof (ii_deadlines _ Hinv Hv) as [Hnd Hdom Htime Hsort].
    assert (id ∈ (iq_deadline_queue self).*1) as Hin.
    { apply (Hdom id (not_nobody _)). eauto. }
    apply list_elem_of_fmap in Hin as ([i d] & -> & Hin). simpl in *.
    destruct (Htime i d (not_nobody _) Hin) as (e' & He' & Hd). simplify_eq.
    destruct (iq_deadline_queue self) as [|[i0 first] queue] eqn:Eq; [by apply not_elem_of_nil in Hin|].
    exists d, first. split_and!; [done|unfold InflightQueue_next_expiration; by rewrite Eq| |].
    + apply StronglySorted_inv in Hsort as [_ Hall]. apply elem_of_cons in Hin as [Hin|Hin].
      * simplify_eq. apply ord_le_refl.
      * by apply (proj1 (Forall_forall _ _) Hall) in Hin.
    + subst due. rewrite <- Eq in *. rewrite list_elem_of_fmap. split.
      * intros ([i' d'] & -> & [Hlt Hin']%list_elem_of_filter). simpl in *.
        destruct (Htime i' d' (not_nobody _) Hin') as (e'' & He'' & Hd'). congruence.
      * intros Hlt. exists (i, d). split; [done|]. by apply list_elem_of_filter.
Qed.

Lemma inflight_retransmission_witness :
  ∃ self', InflightQueue_get_expired_with_stream_at sample_inflight {| ts_nanos := 1005 |}
    = Ok ([(sample_exchange, None)], self').
Proof.
  destruct (inflight_retransmission sample_inflight {| ts_nanos := 1005 |} sample_inflight_inv)
    as (self' & H & _).
  - split; [|intros _; vm_compute; eauto]. intros last Hlast. simpl in Hlast. injection Hlast as <-.
    reflexivity.
  - exists self'. exact H.
Defined.
