(* ===== verification/ClientSession.v ===== *)
(** * The client session

    Models [ClientSession] of [src/mqtt_session/client_session.rs].  The maps are finite maps;
    their iteration order, which the standard [HashMap] leaves open, is the parameter [iter]:
    any enumeration of the entries. *)
From S2P Require Import Prelude BaseData TopicFilter Validation Properties Packets.

Record ClientSession : Type := {
  cs_unacknowledged_publishes : gmap Z MqttPublish5;
  cs_unacknowledged_pubrels : gmap Z PacketIdAck5;
  cs_packet_id_counter : Z;
}.

(** The entries of a map in some order. *)
Definition enumerates {V} (iter : gmap Z V → list (Z * V)) : Prop :=
  ∀ m, iter m ≡ₚ map_to_list m.

Definition ClientSession_new : ClientSession :=
  {| cs_unacknowledged_publishes := ∅; cs_unacknowledged_pubrels := ∅;
     cs_packet_id_counter := 0 |}.

Definition ClientSession_clear (self : ClientSession) : ClientSession :=
  {| cs_unacknowledged_publishes := ∅; cs_unacknowledged_pubrels := ∅;
     cs_packet_id_counter := cs_packet_id_counter self |}.

Definition ClientSession_restore_packet_id_counter (self : ClientSession) (counter : Z)
    : ClientSession :=
  {| cs_unacknowledged_publishes := cs_unacknowledged_publishes self;
     cs_unacknowledged_pubrels := cs_unacknowledged_pubrels self;
     cs_packet_id_counter := counter |}.

Definition ClientSession_next_packet_id (self : ClientSession) : Z * ClientSession :=
  let counter := if (cs_packet_id_counter self =? u16_MAX) || (cs_packet_id_counter self =? 0)
                 then 1 else cs_packet_id_counter self + 1 in
  (counter, ClientSession_restore_packet_id_counter self counter).

(** A session with new maps. *)
Definition cs_with (self : ClientSession) (publishes : gmap Z MqttPublish5)
    (pubrels : gmap Z PacketIdAck5) : ClientSession :=
  {| cs_unacknowledged_publishes := publishes; cs_unacknowledged_pubrels := pubrels;
     cs_packet_id_counter := cs_packet_id_counter self |}.

Definition ClientSession_handle_outgoing_publish (self : ClientSession) (publish : MqttPublish5)
    : ClientSession :=
  match p5_packet_id publish with
  | Some packet_id =>
      if (0 <? p5_qos publish)
         && negb (bool_decide (is_Some (cs_unacknowledged_publishes self !! packet_id)))
      then cs_with self (<[packet_id := publish]> (cs_unacknowledged_publishes self))
             (cs_unacknowledged_pubrels self)
      else self
  | None => self
  end.

Definition ClientSession_handle_outgoing_pubrel (self : ClientSession) (pubrel : PacketIdAck5)
    : ClientSession :=
  cs_with self (cs_unacknowledged_publishes self)
    (<[a5_packet_id pubrel := pubrel]> (cs_unacknowledged_pubrels self)).

(** A PUBLISH of QoS 1 or 2 without a packet identifier panics ([unwrap]). *)
Definition ClientSession_handle_incoming_publish (self : ClientSession) (publish : MqttPublish5)
    : panics (option MqttPacket) :=
  match p5_qos publish with
  | 1 => id ← unwrap (p5_packet_id publish); Ok (Some (PubAck5 (PacketIdAck5_new id 0 [])))
  | 2 => id ← unwrap (p5_packet_id publish); Ok (Some (PubRec5 (PacketIdAck5_new id 0 [])))
  | _ => Ok None
  end.

Definition ClientSession_handle_incoming_puback (self : ClientSession) (puback : PacketIdAck5)
    : ClientSession :=
  cs_with self (delete (a5_packet_id puback) (cs_unacknowledged_publishes self))
    (cs_unacknowledged_pubrels self).

Definition ClientSession_handle_incoming_pubrec (self : ClientSession) (pubrec : PacketIdAck5)
    : option PacketIdAck5 * ClientSession :=
  let self' := cs_with self (delete (a5_packet_id pubrec) (cs_unacknowledged_publishes self))
                 (cs_unacknowledged_pubrels self) in
  if a5_reason_code pubrec <? 128
  then (Some (PacketIdAck5_new (a5_packet_id pubrec) 0 []), self')
  else (None, self').

Definition ClientSession_handle_incoming_pubrel (self : ClientSession) (pubrel : PacketIdAck5)
    : PacketIdAck5 :=
  PacketIdAck5_new (a5_packet_id pubrel) 0 [].

Definition ClientSession_handle_incoming_pubcomp (self : ClientSession) (pubcomp : PacketIdAck5)
    : ClientSession :=
  cs_with self (cs_unacknowledged_publishes self)
    (delete (a5_packet_id pubcomp) (cs_unacknowledged_pubrels self)).

Definition with_dup (publish : MqttPublish5) : MqttPublish5 :=
  {| p5_topic_name := p5_topic_name publish; p5_qos := p5_qos publish; p5_dup := true;
     p5_retain := p5_retain publish; p5_packet_id := p5_packet_id publish;
     p5_payload := p5_payload publish; p5_properties := p5_properties publish |}.

Definition ClientSession_resend_pending_messages
    (iter_publishes : gmap Z MqttPublish5 → list (Z * MqttPublish5))
    (iter_pubrels : gmap Z PacketIdAck5 → list (Z * PacketIdAck5))
    (self : ClientSession) : list MqttPacket :=
  omap (λ '(packet_id, publish),
          if bool_decide (is_Some (cs_unacknowledged_pubrels self !! packet_id)) then None
          else Some (Publish5 (with_dup publish)))
    (iter_publishes (cs_unacknowledged_publishes self))
  ++ ((λ e, PubRel5 e.2) <$> iter_pubrels (cs_unacknowledged_pubrels self)).

(** ** Packet identifiers *)

(** The identifiers handed out by [n] successive calls. *)
Fixpoint packet_ids (n : nat) (self : ClientSession) : list Z :=
  match n with
  | O => []
  | S n => let '(id, self) := ClientSession_next_packet_id self in id :: packet_ids n self
  end.

Lemma packet_ids_spec n self :
  0 <= cs_packet_id_counter self <= u16_MAX →
  packet_ids n self
  = (λ k, (cs_packet_id_counter self + Z.of_nat k) mod u16_MAX + 1) <$> seq 0 n.
Proof.
  revert self. induction n as [|n IH]; intros self Hc; [done|].
  cbn [packet_ids ClientSession_next_packet_id seq]. rewrite fmap_cons.
  assert ((if (cs_packet_id_counter self =? u16_MAX) || (cs_packet_id_counter self =? 0) then 1
    else cs_packet_id_counter self + 1) = cs_packet_id_counter self mod u16_MAX + 1) as ->.
  { unfold u16_MAX in *. destruct (_ || _) eqn:E.
    - assert (cs_packet_id_counter self = 65535 ∨ cs_packet_id_counter self = 0) as [-> | ->] by lia; done.
    - rewrite Z.mod_small by lia. done. }
  rewrite Z.add_0_r. f_equal. rewrite IH; simpl.
  2: { unfold u16_MAX in *. Z.div_mod_to_equations. lia. }
  rewrite <- fmap_S_seq, <- list_fmap_compose. apply list_fmap_ext. intros _ k _. simpl. f_equal.
  rewrite <- Z.add_assoc, Z.add_mod_idemp_l by done. f_equal. lia.
Qed.

Lemma packet_ids_range n self :
  0 <= cs_packet_id_counter self <= u16_MAX →
  Forall (λ id, 1 <= id <= u16_MAX) (packet_ids n self).
Proof.
  intros Hc. rewrite packet_ids_spec by done. apply Forall_fmap, Forall_true. intros k. simpl.
  unfold u16_MAX. Z.div_mod_to_equations. lia.
Qed.

Lemma packet_ids_nodup n self :
  0 <= cs_packet_id_counter self <= u16_MAX → Z.of_nat n <= u16_MAX → NoDup (packet_ids n self).
Proof.
  intros Hc Hn. rewrite packet_ids_spec by done. apply NoDup_fmap_2_strong; [|apply NoDup_seq].
  intros i j Hi%elem_of_seq Hj%elem_of_seq E. unfold u16_MAX in *.
  Z.div_mod_to_equations. lia.
Qed.

(** ** The invariant and resending *)
Definition cs_inv (self : ClientSession) : Prop :=
  (∀ id p, cs_unacknowledged_publishes self !! id = Some p → p5_packet_id p = Some id ∧ 0 < p5_qos p) ∧
  (∀ id r, cs_unacknowledged_pubrels self !! id = Some r → a5_packet_id r = id).

Lemma cs_with_inv self publishes pubrels :
  (∀ id p, publishes !! id = Some p →
     cs_unacknowledged_publishes self !! id = Some p ∨ (p5_packet_id p = Some id ∧ 0 < p5_qos p)) →
  (∀ id r, pubrels !! id = Some r →
     cs_unacknowledged_pubrels self !! id = Some r ∨ a5_packet_id r = id) →
  cs_inv self → cs_inv (cs_with self publishes pubrels).
Proof. intros Hp Hr [H1 H2]. split; simpl; intros id x Hx; [edestruct Hp|edestruct Hr]; eauto. Qed.

(** Every operation keeps it. *)
Lemma cs_inv_steps self p a :
  cs_inv self →
  cs_inv (ClientSession_handle_outgoing_publish self p) ∧
  cs_inv (ClientSession_handle_outgoing_pubrel self a) ∧
  cs_inv (ClientSession_handle_incoming_puback self a) ∧
  cs_inv (ClientSession_handle_incoming_pubrec self a).2 ∧
  cs_inv (ClientSession_handle_incoming_pubcomp self a) ∧
  cs_inv (ClientSession_clear self) ∧
  cs_inv (ClientSession_next_packet_id self).2.
Proof.
  intros Hinv. split_and!.
  - unfold ClientSession_handle_outgoing_publish. destruct (p5_packet_id p) as [id|] eqn:Hid; [|done].
    destruct (_ && _) eqn:E; [|done]. apply andb_true_iff in E as [E _].
    apply cs_with_inv; [|auto|done]. intros id' p'. destruct (decide (id' = id)) as [->|Hne].
    + rewrite lookup_insert_eq. intros [= <-]. right. split; [done|lia].
    + rewrite lookup_insert_ne by done. auto.
  - apply cs_with_inv; [auto| |done]. intros id r. destruct (decide (id = a5_packet_id a)) as [->|Hne].
    + rewrite lookup_insert_eq. intros [= <-]. auto.
    + rewrite lookup_insert_ne by done. auto.
  - apply cs_with_inv; [|auto|done]. intros id' p' [_ ?]%lookup_delete_Some. auto.
  - unfold ClientSession_handle_incoming_pubrec. destruct (_ <? _); simpl;
      (apply cs_with_inv; [|auto|done]); intros id' p' [_ ?]%lookup_delete_Some; auto.
  - apply cs_with_inv; [auto| |done]. intros id' p' [_ ?]%lookup_delete_Some. auto.
  - split; simpl; intros id x; by rewrite lookup_empty.
  - done.
Qed.

Lemma cs_new_inv : cs_inv ClientSession_new.
Proof. split; simpl; intros id x; by rewrite lookup_empty. Qed.

(** The identifier a packet is about. *)
Definition exchange_id (p : MqttPacket) : option Z :=
  match p with
  | Publish5 p => p5_packet_id p
  | PubAck5 a | PubRec5 a | PubRel5 a | PubComp5 a => Some (a5_packet_id a)
  | _ => None
  end.

Section resend.
Context (iter_publishes : gmap Z MqttPublish5 → list (Z * MqttPublish5)).
Context (iter_pubrels : gmap Z PacketIdAck5 → list (Z * PacketIdAck5)).
Hypothesis Hpubs : enumerates iter_publishes.
Hypothesis Hrels : enumerates iter_pubrels.

Lemma resend_elem self pk :
  pk ∈ ClientSession_resend_pending_messages iter_publishes iter_pubrels self ↔
  (∃ id p, cs_unacknowledged_publishes self !! id = Some p ∧
           cs_unacknowledged_pubrels self !! id = None ∧ pk = Publish5 (with_dup p)) ∨
  (∃ id r, cs_unacknowledged_pubrels self !! id = Some r ∧ pk = PubRel5 r).
Proof.
  unfold ClientSession_resend_pending_messages. rewrite elem_of_app, list_elem_of_omap, list_elem_of_fmap.
  f_equiv.
  - split.
    + intros ([id p] & Hin & Hp). rewrite (Hpubs _) in Hin. apply elem_of_map_to_list in Hin.
      case_bool_decide as Hr; [done|]. apply eq_None_not_Some in Hr. naive_solver.
    + intros (id & p & Hp & Hr & ->). exists (id, p). rewrite (Hpubs _), elem_of_map_to_list.
      split; [done|]. by rewrite bool_decide_eq_false_2 by (rewrite Hr; intros [? ?]; done).
  - split.
    + intros ([id r] & -> & Hin). rewrite (Hrels _) in Hin. apply elem_of_map_to_list in Hin. eauto.
    + intros (id & r & Hr & ->). exists (id, r). by rewrite (Hrels _), elem_of_map_to_list.
Qed.

Lemma enumerates_keys {V} (iter : gmap Z V → list (Z * V)) m : enumerates iter → NoDup (iter m).*1.
Proof. intros Hi. rewrite (Hi m). apply NoDup_fst_map_to_list. Qed.

Lemma resend_nodup self :
  cs_inv self →
  NoDup (exchange_id <$> ClientSession_resend_pending_messages iter_publishes iter_pubrels self).
Proof.
  intros [Hp Hr]. unfold ClientSession_resend_pending_messages. rewrite fmap_app.
  set (l1 := iter_publishes _). set (l2 := iter_pubrels _).
  assert (∀ x, x ∈ l1 → cs_unacknowledged_publishes self !! x.1 = Some x.2) as H1.
  { intros [id p]. unfold l1. by rewrite (Hpubs _), elem_of_map_to_list. }
  assert (∀ x, x ∈ l2 → cs_unacknowledged_pubrels self !! x.1 = Some x.2) as H2.
  { intros [id p]. unfold l2. by rewrite (Hrels _), elem_of_map_to_list. }
  assert (exchange_id <$> ((λ e, PubRel5 e.2) <$> l2) = Some <$> l2.*1) as ->.
  { rewrite <- !list_fmap_compose. apply Forall_fmap_ext_1, Forall_forall. intros x Hx. simpl.
    by rewrite (Hr _ _ (H2 _ Hx)). }
  set (f := λ '(packet_id, publish), _).
  assert (exchange_id <$> omap f l1
    = Some <$> (filter (λ x, cs_unacknowledged_pubrels self !! x.1 = None) l1).*1) as ->.
  { clear -H1 Hp. induction l1 as [|[id p] l1 IH]; [done|].
    assert (f (id, p) = if bool_decide (is_Some (cs_unacknowledged_pubrels self !! id)) then None
      else Some (Publish5 (with_dup p))) as Ef by done.
    change (omap f ((id, p) :: l1)) with
      (match f (id, p) with Some y => y :: omap f l1 | None => omap f l1 end).
    rewrite filter_cons, Ef. cbn [fst].
    assert (∀ x, x ∈ l1 → cs_unacknowledged_publishes self !! x.1 = Some x.2) as H1'.
    { intros x Hx. apply H1. set_solver. }
    destruct (cs_unacknowledged_pubrels self !! id) as [r|].
    - rewrite bool_decide_eq_true_2, decide_False by eauto. auto.
    - rewrite bool_decide_eq_false_2, decide_True by (done || by intros [? ?]).
      csimpl. rewrite (IH H1'). destruct (Hp id p) as [-> _]; [|done].
      apply (H1 (id, p)). set_solver. }
  rewrite <- fmap_app. apply NoDup_fmap_2; [apply _|]. apply NoDup_app. split_and!.
  - apply (sublist_NoDup _ l1.*1); [by apply (enumerates_keys iter_publishes)|].
    apply fmap_sublist, sublist_filter.
  - intros id (x & -> & [Hx _]%list_elem_of_filter)%list_elem_of_fmap (y & Heq & Hy)%list_elem_of_fmap.
    apply H2 in Hy. rewrite <- Heq, Hx in Hy. done.
  - by apply (enumerates_keys iter_pubrels).
Qed.
End resend.

(** ** Theorems *)

(** Packet identifiers.  From any counter a session can have, the identifiers it hands out
    are never zero, and any 65535 consecutive ones are pairwise different. *)
Theorem client_packet_ids n self :
  0 <= cs_packet_id_counter self <= u16_MAX → Z.of_nat n <= u16_MAX →
  NoDup (packet_ids n self) ∧ Forall (λ id, 1 <= id <= u16_MAX) (packet_ids n self).
Proof. intros. split; [by apply packet_ids_nodup|by apply packet_ids_range]. Qed.

Lemma client_packet_ids_witness :
  NoDup (packet_ids 3 (ClientSession_restore_packet_id_counter ClientSession_new 65534)) ∧
  Forall (λ id, 1 <= id <= u16_MAX)
    (packet_ids 3 (ClientSession_restore_packet_id_counter ClientSession_new 65534)).
Proof.
  apply (client_packet_ids 3 (ClientSession_restore_packet_id_counter ClientSession_new 65534));
    vm_compute; intuition discriminate.
Defined.

(** What a client resends after a reconnection: each exchange once, whatever order the maps
    are enumerated in; a PUBLISH, marked as a duplicate, while it is unacknowledged, the PUBREL
    once it was released, and nothing else. *)
Theorem client_resend iter_publishes iter_pubrels self :
  enumerates iter_publishes → enumerates iter_pubrels → cs_inv self →
  let out := ClientSession_resend_pending_messages iter_publishes iter_pubrels self in
  NoDup (exchange_id <$> out) ∧
  ∀ pk, pk ∈ out ↔
    (∃ id p, cs_unacknowledged_publishes self !! id = Some p ∧
             cs_unacknowledged_pubrels self !! id = None ∧ pk = Publish5 (with_dup p)) ∨
    (∃ id r, cs_unacknowledged_pubrels self !! id = Some r ∧ pk = PubRel5 r).
Proof. intros Hp Hr Hinv out. split; [by apply resend_nodup|]. intros pk. by apply resend_elem. Qed.

Definition sample_qos2 : MqttPublish5 :=
  {| p5_topic_name := str "a"; p5_qos := 2; p5_dup := false; p5_retain := false;
     p5_packet_id := Some 3; p5_payload := [1]; p5_properties := [] |}.

Definition sample_session : ClientSession :=
  ClientSession_handle_outgoing_pubrel
    (ClientSession_handle_outgoing_publish ClientSession_new sample_qos2)
    (PacketIdAck5_new 4 0 []).

Lemma client_resend_witness :
  PubRel5 (PacketIdAck5_new 4 0 [])
  ∈ ClientSession_resend_pending_messages map_to_list map_to_list sample_session.
Proof.
  apply (client_resend map_to_list map_to_list sample_session).
  - intros m. reflexivity.
  - intros m. reflexivity.
  - apply (cs_inv_steps _ sample_qos2 (PacketIdAck5_new 4 0 [])).
    apply (cs_inv_steps _ sample_qos2 (PacketIdAck5_new 4 0 [])), cs_new_inv.
  - right. exists 4. eexists. split; vm_compute; reflexivity.
Defined.
