(* ===== verification/ServerSession.v ===== *)
(** * The server session

    Models [ServerSession] of [src/mqtt_session/server_session.rs] with its topic matching.
    The iteration order of the hash maps is a parameter of the operations that iterate
    ([iter_*]: any enumeration of the entries). *)
From S2P Require Import Prelude BaseData TopicFilter Validation Properties Packets ClientSession.

Record Subscription : Type := {
  sub_options : TopicSubscription;
  sub_identifier : option Z;
}.

Record ServerSession : Type := {
  ss_subscriptions : gmap bytes Subscription;
  ss_unacknowledged_publishes : gmap Z MqttPublish5;
  ss_pending_publishes : list MqttPublish5;
  ss_received_qos2 : gset Z;
  ss_retained_publishes : gmap bytes MqttPublish5;
  ss_packet_id_counter : Z;
  ss_unacknowledged_pubrels : gmap Z PacketIdAck5;
  ss_will : option MqttPublish5;
  ss_session_expiry_interval : Z;
  ss_receive_maximum : Z;
}.

(** Assignments to the fields. *)
Definition ss_with_subscriptions (self : ServerSession) (v : gmap bytes Subscription) : ServerSession :=
  {| ss_subscriptions := v; ss_unacknowledged_publishes := ss_unacknowledged_publishes self;
     ss_pending_publishes := ss_pending_publishes self; ss_received_qos2 := ss_received_qos2 self;
     ss_retained_publishes := ss_retained_publishes self;
     ss_packet_id_counter := ss_packet_id_counter self;
     ss_unacknowledged_pubrels := ss_unacknowledged_pubrels self; ss_will := ss_will self;
     ss_session_expiry_interval := ss_session_expiry_interval self;
     ss_receive_maximum := ss_receive_maximum self |}.
Definition ss_with_publishes (self : ServerSession) (v : gmap Z MqttPublish5) : ServerSession :=
  {| ss_subscriptions := ss_subscriptions self; ss_unacknowledged_publishes := v;
     ss_pending_publishes := ss_pending_publishes self; ss_received_qos2 := ss_received_qos2 self;
     ss_retained_publishes := ss_retained_publishes self;
     ss_packet_id_counter := ss_packet_id_counter self;
     ss_unacknowledged_pubrels := ss_unacknowledged_pubrels self; ss_will := ss_will self;
     ss_session_expiry_interval := ss_session_expiry_interval self;
     ss_receive_maximum := ss_receive_maximum self |}.
Definition ss_with_pending (self : ServerSession) (v : list MqttPublish5) : ServerSession :=
  {| ss_subscriptions := ss_subscriptions self;
     ss_unacknowledged_publishes := ss_unacknowledged_publishes self;
     ss_pending_publishes := v; ss_received_qos2 := ss_received_qos2 self;
     ss_retained_publishes := ss_retained_publishes self;
     ss_packet_id_counter := ss_packet_id_counter self;
     ss_unacknowledged_pubrels := ss_unacknowledged_pubrels self; ss_will := ss_will self;
     ss_session_expiry_interval := ss_session_expiry_interval self;
     ss_receive_maximum := ss_receive_maximum self |}.
Definition ss_with_received (self : ServerSession) (v : gset Z) : ServerSession :=
  {| ss_subscriptions := ss_subscriptions self;
     ss_unacknowledged_publishes := ss_unacknowledged_publishes self;
     ss_pending_publishes := ss_pending_publishes self; ss_received_qos2 := v;
     ss_retained_publishes := ss_retained_publishes self;
     ss_packet_id_counter := ss_packet_id_counter self;
     ss_unacknowledged_pubrels := ss_unacknowledged_pubrels self; ss_will := ss_will self;
     ss_session_expiry_interval := ss_session_expiry_interval self;
     ss_receive_maximum := ss_receive_maximum self |}.
Definition ss_with_retained (self : ServerSession) (v : gmap bytes MqttPublish5) : ServerSession :=
  {| ss_subscriptions := ss_subscriptions self;
     ss_unacknowledged_publishes := ss_unacknowledged_publishes self;
     ss_pending_publishes := ss_pending_publishes self; ss_received_qos2 := ss_received_qos2 self;
     ss_retained_publishes := v; ss_packet_id_counter := ss_packet_id_counter self;
     ss_unacknowledged_pubrels := ss_unacknowledged_pubrels self; ss_will := ss_will self;
     ss_session_expiry_interval := ss_session_expiry_interval self;
     ss_receive_maximum := ss_receive_maximum self |}.
Definition ss_with_counter (self : ServerSession) (v : Z) : ServerSession :=
  {| ss_subscriptions := ss_subscriptions self;
     ss_unacknowledged_publishes := ss_unacknowledged_publishes self;
     ss_pending_publishes := ss_pending_publishes self; ss_received_qos2 := ss_received_qos2 self;
     ss_retained_publishes := ss_retained_publishes self; ss_packet_id_counter := v;
     ss_unacknowledged_pubrels := ss_unacknowledged_pubrels self; ss_will := ss_will self;
     ss_session_expiry_interval := ss_session_expiry_interval self;
     ss_receive_maximum := ss_receive_maximum self |}.
Definition ss_with_pubrels (self : ServerSession) (v : gmap Z PacketIdAck5) : ServerSession :=
  {| ss_subscriptions := ss_subscriptions self;
     ss_unacknowledged_publishes := ss_unacknowledged_publishes self;
     ss_pending_publishes := ss_pending_publishes self; ss_received_qos2 := ss_received_qos2 self;
     ss_retained_publishes := ss_retained_publishes self;
     ss_packet_id_counter := ss_packet_id_counter self;
     ss_unacknowledged_pubrels := v; ss_will := ss_will self;
     ss_session_expiry_interval := ss_session_expiry_interval self;
     ss_receive_maximum := ss_receive_maximum self |}.

Definition ServerSession_new (receive_maximum : Z) : ServerSession :=
  {| ss_subscriptions := ∅; ss_unacknowledged_publishes := ∅; ss_pending_publishes := [];
     ss_received_qos2 := ∅; ss_retained_publishes := ∅; ss_packet_id_counter := 0;
     ss_unacknowledged_pubrels := ∅; ss_will := None; ss_session_expiry_interval := 0;
     ss_receive_maximum := receive_maximum |}.

(** ** Topic matching *)
Fixpoint topic_levels_match (filters topics : list bytes) : bool :=
  match filters with
  | [] => bool_decide (topics = [])
  | level :: filters =>
      if bool_decide (level = str "#") then bool_decide (filters = [])
      else if bool_decide (level = str "+") then
        match topics with [] => false | _ :: topics => topic_levels_match filters topics end
      else
        match topics with
        | [] => false
        | topic :: topics =>
            if bool_decide (topic = level) then topic_levels_match filters topics else false
        end
  end.

Definition topic_matches (filter topic : bytes) : bool :=
  if starts_with topic (str "$")
     && (starts_with filter (str "+") || starts_with filter (str "#")) then false
  else topic_levels_match (split_on SLASH filter) (split_on SLASH topic).

(** ** Forwarding *)
Definition is_subscription_identifier (p : Property) : bool :=
  match p with SubscriptionIdentifier _ => true | _ => false end.

Definition forwarded_publish (publish : MqttPublish5) (subscription : Subscription)
    (retained_replay : bool) : MqttPublish5 :=
  {| p5_topic_name := p5_topic_name publish;
     p5_qos := Z.min (p5_qos publish) (ts_qos (sub_options subscription));
     p5_dup := false;
     p5_retain := retained_replay
                  || (p5_retain publish && ts_retain_as_published (sub_options subscription));
     p5_packet_id := None;
     p5_payload := p5_payload publish;
     p5_properties := filter (λ p, is_subscription_identifier p = false) (p5_properties publish)
                      ++ match sub_identifier subscription with
                         | Some identifier => [SubscriptionIdentifier identifier]
                         | None => []
                         end |}.

(** [find_map] over the properties of a SUBSCRIBE. *)
Definition subscribe_identifier (properties : list Property) : option Z :=
  head (omap (λ p, match p with SubscriptionIdentifier i => Some i | _ => None end) properties).

(** ** SUBSCRIBE and UNSUBSCRIBE *)
Definition subscribe_one (iter_retained : gmap bytes MqttPublish5 → list (bytes * MqttPublish5))
    (identifier : option Z) (self : ServerSession) (options : TopicSubscription) : ServerSession :=
  let subscription := {| sub_options := options; sub_identifier := identifier |} in
  let existed := bool_decide (is_Some (ss_subscriptions self !! ts_topic_filter options)) in
  let self :=
    if negb (starts_with (ts_topic_filter options) (str "$share/"))
       && ((ts_retain_handling options =? 0)
           || ((ts_retain_handling options =? 1) && negb existed))
    then ss_with_pending self
           (ss_pending_publishes self
            ++ omap (λ '(_, publish),
                 if topic_matches (ts_topic_filter options) (p5_topic_name publish)
                 then Some (forwarded_publish publish subscription true) else None)
               (iter_retained (ss_retained_publishes self)))
    else self in
  ss_with_subscriptions self
    (<[ts_topic_filter options := subscription]> (ss_subscriptions self)).

Definition ServerSession_handle_incoming_subscribe
    (iter_retained : gmap bytes MqttPublish5 → list (bytes * MqttPublish5))
    (self : ServerSession) (subscribe : MqttSubscribe5) : ServerSession :=
  let identifier := subscribe_identifier (s5_properties subscribe) in
  fold_left (subscribe_one iter_retained identifier) (s5_subscriptions subscribe) self.

Definition ServerSession_handle_incoming_unsubscribe (self : ServerSession)
    (unsubscribe : MqttUnsubscribe5) : ServerSession :=
  fold_left (λ self topic_filter,
      ss_with_subscriptions self (delete topic_filter (ss_subscriptions self)))
    (u5_topic_filters unsubscribe) self.

(** ** Incoming PUBLISH *)
Definition retained_copy (publish : MqttPublish5) : MqttPublish5 :=
  {| p5_topic_name := p5_topic_name publish; p5_qos := p5_qos publish; p5_dup := false;
     p5_retain := p5_retain publish; p5_packet_id := None; p5_payload := p5_payload publish;
     p5_properties := p5_properties publish |}.

(** Retaining and forwarding a message that is not a duplicate. *)
Definition accept_publish (iter_subscriptions : gmap bytes Subscription → list (bytes * Subscription))
    (self : ServerSession) (publish : MqttPublish5) : ServerSession :=
  let self :=
    if p5_retain publish then
      if bool_decide (p5_payload publish = [])
      then ss_with_retained self (delete (p5_topic_name publish) (ss_retained_publishes self))
      else ss_with_retained self
             (<[p5_topic_name publish := retained_copy publish]> (ss_retained_publishes self))
    else self in
  ss_with_pending self
    (ss_pending_publishes self
     ++ omap (λ '(filter, subscription),
          if topic_matches filter (p5_topic_name publish)
          then Some (forwarded_publish publish subscription false) else None)
        (iter_subscriptions (ss_subscriptions self))).

Definition ServerSession_handle_incoming_publish
    (iter_subscriptions : gmap bytes Subscription → list (bytes * Subscription))
    (self : ServerSession) (publish : MqttPublish5) : panics (option MqttPacket * ServerSession) :=
  let respond self :=
    match p5_qos publish with
    | 1 => id ← unwrap (p5_packet_id publish);
           Ok (Some (PubAck5 (PacketIdAck5_new id 0 [])), self)
    | 2 => id ← unwrap (p5_packet_id publish);
           Ok (Some (PubRec5 (PacketIdAck5_new id 0 [])), self)
    | _ => Ok (None, self)
    end in
  if p5_qos publish =? 2 then
    id ← unwrap (p5_packet_id publish);
    if bool_decide (id ∈ ss_received_qos2 self)
    then Ok (Some (PubRec5 (PacketIdAck5_new id 0 [])), self)
    else respond (accept_publish iter_subscriptions
                    (ss_with_received self ({[ id ]} ∪ ss_received_qos2 self)) publish)
  else respond (accept_publish iter_subscriptions self publish).

(** ** Acknowledgements *)
Definition ServerSession_handle_incoming_puback (self : ServerSession) (puback : PacketIdAck5)
    : ServerSession :=
  match ss_unacknowledged_publishes self !! a5_packet_id puback with
  | Some publish =>
      if p5_qos publish =? 1
      then ss_with_publishes self
             (delete (a5_packet_id puback) (ss_unacknowledged_publishes self))
      else self
  | None => self
  end.

Definition ServerSession_handle_incoming_pubrec (self : ServerSession) (pubrec : PacketIdAck5)
    : option PacketIdAck5 * ServerSession :=
  match ss_unacknowledged_pubrels self !! a5_packet_id pubrec with
  | Some pubrel => ((if a5_reason_code pubrec <? 128 then Some pubrel else None), self)
  | None =>
      match ss_unacknowledged_publishes self !! a5_packet_id pubrec with
      | None => (None, self)
      | Some publish =>
          if negb (p5_qos publish =? 2) then (None, self) else
          let self := ss_with_publishes self
            (delete (a5_packet_id pubrec) (ss_unacknowledged_publishes self)) in
          if a5_reason_code pubrec <? 128 then
            let pubrel := PacketIdAck5_new (a5_packet_id pubrec) 0 [] in
            (Some pubrel,
             ss_with_pubrels self
               (<[a5_packet_id pubrec := pubrel]> (ss_unacknowledged_pubrels self)))
          else (None, self)
      end
  end.

Definition ServerSession_handle_incoming_pubrel (self : ServerSession) (pubrel : PacketIdAck5)
    : PacketIdAck5 * ServerSession :=
  let known := bool_decide (a5_packet_id pubrel ∈ ss_received_qos2 self) in
  (PacketIdAck5_new (a5_packet_id pubrel) (if known then 0 else 146) [],
   ss_with_received self (ss_received_qos2 self ∖ {[ a5_packet_id pubrel ]})).

Definition ServerSession_handle_incoming_pubcomp (self : ServerSession) (pubcomp : PacketIdAck5)
    : ServerSession :=
  ss_with_pubrels self (delete (a5_packet_id pubcomp) (ss_unacknowledged_pubrels self)).

(** ** Sending *)
Definition in_use (self : ServerSession) (id : Z) : bool :=
  bool_decide (is_Some (ss_unacknowledged_publishes self !! id))
  || bool_decide (is_Some (ss_unacknowledged_pubrels self !! id)).

(** [checked_add(1).unwrap_or(1)] on a [u16]. *)
Definition next_counter (counter : Z) : Z := if counter =? u16_MAX then 1 else counter + 1.

Fixpoint next_packet_id_loop (rounds : nat) (self : ServerSession) : option Z * ServerSession :=
  match rounds with
  | O => (None, self)
  | S rounds =>
      let self := ss_with_counter self (next_counter (ss_packet_id_counter self)) in
      if negb (in_use self (ss_packet_id_counter self))
      then (Some (ss_packet_id_counter self), self)
      else next_packet_id_loop rounds self
  end.

Definition ServerSession_next_packet_id (self : ServerSession) : option Z * ServerSession :=
  next_packet_id_loop (Z.to_nat u16_MAX) self.

Definition with_packet_id (publish : MqttPublish5) (id : option Z) : MqttPublish5 :=
  {| p5_topic_name := p5_topic_name publish; p5_qos := p5_qos publish; p5_dup := p5_dup publish;
     p5_retain := p5_retain publish; p5_packet_id := id; p5_payload := p5_payload publish;
     p5_properties := p5_properties publish |}.

Fixpoint take_pending_loop (rounds : nat) (self : ServerSession) (available_slots : Z)
    (packets : list MqttPacket) : panics (list MqttPacket * ServerSession) :=
  match rounds with
  | O => Ok (packets, self)
  | S rounds =>
      match ss_pending_publishes self with
      | [] => Panic
      | publish :: rest =>
          let self := ss_with_pending self rest in
          if 0 <? p5_qos publish then
            if available_slots =? 0 then
              take_pending_loop rounds (ss_with_pending self (rest ++ [publish]))
                available_slots packets
            else
              match ServerSession_next_packet_id self with
              | (None, self) => Ok (packets, ss_with_pending self (publish :: rest))
              | (Some id, self) =>
                  let publish := with_packet_id publish (Some id) in
                  let self := ss_with_publishes self
                                (<[id := publish]> (ss_unacknowledged_publishes self)) in
                  take_pending_loop rounds self (available_slots - 1)
                    (packets ++ [Publish5 publish])
              end
          else take_pending_loop rounds self available_slots (packets ++ [Publish5 publish])
      end
  end.

Definition ServerSession_take_pending_messages (self : ServerSession)
    : panics (list MqttPacket * ServerSession) :=
  let inflight := Z.of_nat (size (ss_unacknowledged_publishes self))
                  + Z.of_nat (size (ss_unacknowledged_pubrels self)) in
  let available_slots := Z.max 0 (ss_receive_maximum self - inflight) in
  take_pending_loop (length (ss_pending_publishes self)) self available_slots [].

Definition ServerSession_resend_pending_messages
    (iter_publishes : gmap Z MqttPublish5 → list (Z * MqttPublish5))
    (iter_pubrels : gmap Z PacketIdAck5 → list (Z * PacketIdAck5))
    (self : ServerSession) : panics (list MqttPacket * ServerSession) :=
  let resent := ((λ e, Publish5 (with_dup e.2)) <$> iter_publishes (ss_unacknowledged_publishes self))
                ++ ((λ e, PubRel5 e.2) <$> iter_pubrels (ss_unacknowledged_pubrels self)) in
  '(packets, self) ← ServerSession_take_pending_messages self;
  Ok (resent ++ packets, self).

(** ** Topic matching against MQTT 4.7 *)
Definition wildcard (level : bytes) : Prop := level = str "#" ∨ level = str "+".

Inductive levels_match : list bytes → list bytes → Prop :=
  | match_end : levels_match [] []
  | match_rest topics : levels_match [str "#"] topics
  | match_one filters topic topics :
      levels_match filters topics → levels_match (str "+" :: filters) (topic :: topics)
  | match_level level filters topics :
      ~ wildcard level → levels_match filters topics →
      levels_match (level :: filters) (level :: topics).

Lemma topic_levels_match_spec filters topics :
  topic_levels_match filters topics = true ↔ levels_match filters topics.
Proof.
  revert topics. induction filters as [|level filters IH]; intros topics; simpl.
  { rewrite bool_decide_eq_true. split; [intros ->; constructor|by inversion 1]. }
  case_bool_decide as E1; [subst level; rewrite bool_decide_eq_true; split|].
  { intros ->. constructor. }
  { inversion 1 as [| | |? ? ? Hw]; subst; [done|]. exfalso. apply Hw. by left. }
  case_bool_decide as E2.
  - subst level. destruct topics as [|topic topics].
    + split; [done|]. inversion 1.
    + rewrite IH. split; [by constructor|]. inversion 1 as [| | |? ? ? Hw]; subst; [done|].
      exfalso. apply Hw. by right.
  - destruct topics as [|topic topics].
    + split; [done|]. inversion 1; subst; done.
    + case_bool_decide as E3.
      * subst topic. rewrite IH. split; [|by inversion 1].
        intros ?. constructor; [|done]. by intros [?|?].
      * split; [done|]. inversion 1; subst; done.
Qed.

(** ** Packet identifiers *)
Lemma next_packet_id_loop_spec rounds self :
  0 <= ss_packet_id_counter self <= u16_MAX →
  ∃ n, next_packet_id_loop rounds self = (n, ss_with_counter self
         (match n with Some id => id | None => ss_packet_id_counter (next_packet_id_loop rounds self).2 end))
       ∧ 0 <= ss_packet_id_counter (next_packet_id_loop rounds self).2 <= u16_MAX
       ∧ match n with
         | Some id => 1 <= id <= u16_MAX ∧ in_use self id = false
         | None => ∀ k, (k < rounds)%nat →
             in_use self ((ss_packet_id_counter self + Z.of_nat k) mod u16_MAX + 1) = true
         end.
Proof.
  revert self. induction rounds as [|rounds IH]; intros self Hc.
  { exists None. simpl. split_and!; [by destruct self|lia..|]. intros k Hk. lia. }
  assert (next_counter (ss_packet_id_counter self) = ss_packet_id_counter self mod u16_MAX + 1) as Hn.
  { unfold next_counter, u16_MAX in *. destruct (_ =? _) eqn:E.
    - assert (ss_packet_id_counter self = 65535) as -> by lia. done.
    - rewrite Z.mod_small by lia. done. }
  cbn [next_packet_id_loop].
  set (self1 := ss_with_counter self (next_counter (ss_packet_id_counter self))).
  assert (1 <= ss_packet_id_counter self1 <= u16_MAX) as Hc1.
  { simpl. rewrite Hn. unfold u16_MAX. Z.div_mod_to_equations. lia. }
  destruct (in_use self1 (ss_packet_id_counter self1)) eqn:Eu; simpl.
  - destruct (IH self1) as (n & Hl & Hr & Hu); [lia|]. exists n.
    split_and!; [rewrite Hl at 1; by destruct n|lia..|]. destruct n as [id|]; [done|].
    intros [|k] Hk; [by rewrite Z.add_0_r, <- Hn|].
    specialize (Hu k ltac:(lia)). rewrite <- Hu. unfold self1. cbn [ss_packet_id_counter ss_with_counter].
    rewrite Hn. f_equal. f_equal. rewrite <- Z.add_assoc, Z.add_mod_idemp_l by done. f_equal. lia.
  - exists (Some (ss_packet_id_counter self1)). simpl in *. split_and!; [done|lia..|done].
Qed.

(** All identifiers are tried before giving up. *)
Lemma next_packet_id_spec self :
  0 <= ss_packet_id_counter self <= u16_MAX →
  ∃ n c, ServerSession_next_packet_id self = (n, ss_with_counter self c) ∧ 0 <= c <= u16_MAX ∧
    match n with
    | Some id => 1 <= id <= u16_MAX ∧ in_use self id = false
    | None => ∀ id, 1 <= id <= u16_MAX → in_use self id = true
    end.
Proof.
  intros Hc. unfold ServerSession_next_packet_id.
  destruct (next_packet_id_loop_spec (Z.to_nat u16_MAX) self Hc) as (n & Hl & Hr & Hu).
  eexists n, _. split; [exact Hl|]. split.
  { destruct n as [id|]; [|done]. change (0 <= id <= u16_MAX). destruct Hu as [? _]. lia. }
  destruct n as [id|]; [done|]. intros id Hid.
  specialize (Hu (Z.to_nat ((id - 1 - ss_packet_id_counter self) mod u16_MAX))).
  assert (0 < u16_MAX) as Hpos by done.
  pose proof (Z.mod_pos_bound (id - 1 - ss_packet_id_counter self) u16_MAX Hpos) as Hb.
  rewrite Z2Nat.id in Hu by lia. rewrite Z.add_mod_idemp_r in Hu by done.
  replace (ss_packet_id_counter self + (id - 1 - ss_packet_id_counter self)) with (id - 1) in Hu by lia.
  rewrite (Z.mod_small (id - 1)), Z.sub_add in Hu by lia. apply Hu. lia.
Qed.

(** ** The invariant *)
Definition inflight (self : ServerSession) : Z :=
  Z.of_nat (size (ss_unacknowledged_publishes self))
  + Z.of_nat (size (ss_unacknowledged_pubrels self)).

Record ss_inv (self : ServerSession) : Prop := {
  si_publishes id p : ss_unacknowledged_publishes self !! id = Some p →
    p5_packet_id p = Some id ∧ 0 < p5_qos p ∧ 1 <= id <= u16_MAX;
  si_pubrels id r : ss_unacknowledged_pubrels self !! id = Some r →
    a5_packet_id r = id ∧ 1 <= id <= u16_MAX;
  si_disjoint id : ss_unacknowledged_publishes self !! id = None ∨
    ss_unacknowledged_pubrels self !! id = None;
  si_counter : 0 <= ss_packet_id_counter self <= u16_MAX;
  si_receive_maximum : 0 <= ss_receive_maximum self <= u16_MAX;
  si_quota : inflight self <= ss_receive_maximum self;
}.

Lemma in_use_false self id :
  in_use self id = false ↔
  ss_unacknowledged_publishes self !! id = None ∧ ss_unacknowledged_pubrels self !! id = None.
Proof. unfold in_use. rewrite orb_false_iff, !bool_decide_eq_false, !eq_None_not_Some. done. Qed.

(** Identifiers run out only when all of them are outstanding. *)
Lemma all_in_use self :
  (∀ id, 1 <= id <= u16_MAX → in_use self id = true) → u16_MAX <= inflight self.
Proof.
  intros Hall. unfold inflight.
  set (used := dom (D:=gset Z) (ss_unacknowledged_publishes self)
               ∪ dom (D:=gset Z) (ss_unacknowledged_pubrels self)).
  assert (list_to_set (C:=gset Z) (seqZ 1 u16_MAX) ⊆ used) as Hsub.
  { intros id Hid%elem_of_list_to_set%elem_of_seqZ. specialize (Hall id ltac:(lia)).
    apply orb_true_iff in Hall as [Hx|Hx]; apply bool_decide_eq_true in Hx; unfold used;
      rewrite elem_of_union, !elem_of_dom; auto. }
  apply subseteq_size in Hsub. rewrite size_list_to_set in Hsub by apply NoDup_seqZ.
  rewrite length_seqZ in Hsub.
  assert (size used <= size (ss_unacknowledged_publishes self)
    + size (ss_unacknowledged_pubrels self))%nat as Hle.
  { unfold used. rewrite size_union_alt, <- !size_dom. pose proof (subseteq_size
      (dom (D:=gset Z) (ss_unacknowledged_pubrels self) ∖ dom (ss_unacknowledged_publishes self))
      (dom (ss_unacknowledged_pubrels self)) ltac:(set_solver)). lia. }
  lia.
Qed.

(** A free identifier while the quota allows one more exchange. *)
Lemma next_packet_id_free self :
  ss_inv self → inflight self < ss_receive_maximum self →
  ∃ id c, ServerSession_next_packet_id self = (Some id, ss_with_counter self c) ∧
    0 <= c <= u16_MAX ∧ 1 <= id <= u16_MAX ∧
    ss_unacknowledged_publishes self !! id = None ∧ ss_unacknowledged_pubrels self !! id = None.
Proof.
  intros Hinv Hlt. destruct (next_packet_id_spec self (si_counter _ Hinv)) as (n & c & Hn & Hc & Hu).
  destruct n as [id|].
  - destruct Hu as [Hid Hu%in_use_false]. naive_solver.
  - apply all_in_use in Hu. pose proof (si_receive_maximum _ Hinv). lia.
Qed.

(** The fields the invariant is about. *)
Lemma ss_inv_ext self self' :
  ss_unacknowledged_publishes self' = ss_unacknowledged_publishes self →
  ss_unacknowledged_pubrels self' = ss_unacknowledged_pubrels self →
  ss_receive_maximum self' = ss_receive_maximum self →
  0 <= ss_packet_id_counter self' <= u16_MAX → ss_inv self → ss_inv self'.
Proof.
  intros Hp Hr Hm Hc [H1 H2 H3 H4 H5 H6]. unfold inflight in *.
  split; unfold inflight; rewrite ?Hp, ?Hr, ?Hm; done.
Qed.

Lemma accept_publish_fields iter self publish :
  let self' := accept_publish iter self publish in
  ss_unacknowledged_publishes self' = ss_unacknowledged_publishes self ∧
  ss_unacknowledged_pubrels self' = ss_unacknowledged_pubrels self ∧
  ss_receive_maximum self' = ss_receive_maximum self ∧
  ss_packet_id_counter self' = ss_packet_id_counter self ∧
  ss_received_qos2 self' = ss_received_qos2 self ∧
  ss_subscriptions self' = ss_subscriptions self.
Proof.
  unfold accept_publish. destruct (p5_retain publish); [case_bool_decide|]; done.
Qed.

Lemma subscribe_inv iter self subscribe :
  ss_inv self → ss_inv (ServerSession_handle_incoming_subscribe iter self subscribe).
Proof.
  unfold ServerSession_handle_incoming_subscribe. generalize (subscribe_identifier (s5_properties subscribe)).
  intros identifier. revert self. induction (s5_subscriptions subscribe) as [|o l IH]; intros self Hinv; [done|].
  simpl. apply IH. eapply ss_inv_ext; [..|exact Hinv]; unfold subscribe_one;
    destruct (negb _ && _); try done; apply Hinv.
Qed.

Lemma unsubscribe_inv self unsubscribe :
  ss_inv self → ss_inv (ServerSession_handle_incoming_unsubscribe self unsubscribe).
Proof.
  unfold ServerSession_handle_incoming_unsubscribe. revert self.
  induction (u5_topic_filters unsubscribe) as [|f l IH]; intros self Hinv; [done|]. simpl. apply IH.
  eapply ss_inv_ext; [..|exact Hinv]; [done..|]. apply Hinv.
Qed.

Lemma delete_publish_inv self id :
  ss_inv self →
  ss_inv (ss_with_publishes self (delete id (ss_unacknowledged_publishes self))) ∧
  (is_Some (ss_unacknowledged_publishes self !! id) →
   inflight (ss_with_publishes self (delete id (ss_unacknowledged_publishes self)))
   = inflight self - 1).
Proof.
  intros [H1 H2 H3 H4 H5 H6]. assert (is_Some (ss_unacknowledged_publishes self !! id) →
    inflight (ss_with_publishes self (delete id (ss_unacknowledged_publishes self)))
    = inflight self - 1) as Hin.
  { intros [p Hp]. unfold inflight. cbn [ss_unacknowledged_publishes ss_unacknowledged_pubrels ss_with_publishes].
    pose proof (map_size_delete_Some id (ss_unacknowledged_publishes self) ltac:(eauto)) as Hs.
    rewrite Hs. assert (size (ss_unacknowledged_publishes self) ≠ 0%nat).
    { intros E%map_size_empty_inv. by rewrite E, lookup_empty in Hp. }
    lia. }
  split; [|done]. split; simpl; try done.
  - intros i p [_ Hp]%lookup_delete_Some. auto.
  - intros i. rewrite lookup_delete_None. destruct (H3 i); auto.
  - destruct (ss_unacknowledged_publishes self !! id) eqn:E; [rewrite Hin by eauto; lia|].
    unfold inflight in *. simpl. by rewrite delete_id.
Qed.

Lemma puback_inv self a : ss_inv self → ss_inv (ServerSession_handle_incoming_puback self a).
Proof.
  intros Hinv. unfold ServerSession_handle_incoming_puback. case_match; [|done].
  destruct (_ =? _); [|done]. by apply delete_publish_inv.
Qed.

Lemma pubcomp_inv self a : ss_inv self → ss_inv (ServerSession_handle_incoming_pubcomp self a).
Proof.
  intros [H1 H2 H3 H4 H5 H6]. split; simpl; try done.
  - intros i p [_ Hp]%lookup_delete_Some. auto.
  - intros i. rewrite lookup_delete_None. destruct (H3 i); auto.
  - unfold inflight in *. cbn [ss_unacknowledged_publishes ss_unacknowledged_pubrels ss_with_pubrels
      ServerSession_handle_incoming_pubcomp].
    rewrite map_size_delete. destruct (ss_unacknowledged_pubrels self !! a5_packet_id a); unfold id; lia.
Qed.

Lemma pubrec_inv self a : ss_inv self → ss_inv (ServerSession_handle_incoming_pubrec self a).2.
Proof.
  intros Hinv. unfold ServerSession_handle_incoming_pubrec.
  destruct (ss_unacknowledged_pubrels self !! a5_packet_id a) eqn:Er; [done|].
  destruct (ss_unacknowledged_publishes self !! a5_packet_id a) as [p|] eqn:Ep; [|done].
  destruct (negb _); [done|]. destruct (delete_publish_inv self (a5_packet_id a) Hinv) as [Hinv' Hin].
  destruct (_ <? _); [|done]. specialize (Hin ltac:(eauto)).
  destruct (si_publishes _ Hinv _ _ Ep) as (_ & _ & Hid). pose proof (si_quota _ Hinv) as Hq.
  destruct Hinv' as [H1 H2 H3 H4 H5 H6]. cbn [snd].
  split; cbn [ss_unacknowledged_publishes ss_unacknowledged_pubrels ss_with_pubrels
    ss_with_publishes ss_packet_id_counter ss_receive_maximum] in *; try done.
  - intros i r. destruct (decide (i = a5_packet_id a)) as [->|Hne].
    + rewrite lookup_insert_eq. by intros [= <-].
    + rewrite lookup_insert_ne by done. auto.
  - intros i. destruct (decide (i = a5_packet_id a)) as [->|Hne].
    + left. apply lookup_delete_eq.
    + rewrite lookup_insert_ne by done. auto.
  - unfold inflight in *. cbn [ss_unacknowledged_publishes ss_unacknowledged_pubrels ss_with_pubrels
      ss_with_publishes] in *. rewrite map_size_insert_None by done. lia.
Qed.

(** ** Draining the pending messages

    [split_pending slots pending]: the messages that leave and those that stay, both in order. *)
Fixpoint split_pending (slots : Z) (pending : list MqttPublish5) : list MqttPublish5 * list MqttPublish5 :=
  match pending with
  | [] => ([], [])
  | p :: pending =>
      if 0 <? p5_qos p then
        if slots =? 0 then let '(sent, kept) := split_pending slots pending in (sent, p :: kept)
        else let '(sent, kept) := split_pending (slots - 1) pending in (p :: sent, kept)
      else let '(sent, kept) := split_pending slots pending in (p :: sent, kept)
  end.

(** A message leaves as it is at QoS 0; otherwise under an identifier that was free before and
    is stored with it after. *)
Definition sent_as (self self' : ServerSession) (p : MqttPublish5) (pk : MqttPacket) : Prop :=
  if 0 <? p5_qos p then
    ∃ id, pk = Publish5 (with_packet_id p (Some id)) ∧ 1 <= id <= u16_MAX ∧
      ss_unacknowledged_publishes self !! id = None ∧ ss_unacknowledged_pubrels self !! id = None ∧
      ss_unacknowledged_publishes self' !! id = Some (with_packet_id p (Some id))
  else pk = Publish5 p.

Definition assigned_id (pk : MqttPacket) : option Z :=
  match pk with Publish5 p => if 0 <? p5_qos p then p5_packet_id p else None | _ => None end.

(** What draining leaves alone. *)
Definition same_but_sending (self self' : ServerSession) : Prop :=
  ss_subscriptions self' = ss_subscriptions self ∧
  ss_received_qos2 self' = ss_received_qos2 self ∧
  ss_retained_publishes self' = ss_retained_publishes self ∧
  ss_unacknowledged_pubrels self' = ss_unacknowledged_pubrels self ∧
  ss_receive_maximum self' = ss_receive_maximum self ∧
  ss_unacknowledged_publishes self ⊆ ss_unacknowledged_publishes self'.

Lemma sent_as_mono self self1 self' p pk :
  same_but_sending self self1 → sent_as self1 self' p pk → sent_as self self' p pk.
Proof.
  intros (_ & _ & _ & Hr & _ & Hp) Hs. unfold sent_as in *. destruct (0 <? p5_qos p); [|done].
  destruct Hs as (id & -> & Hid & H1 & H2 & H3). exists id.
  rewrite <- Hr. split_and!; try (done || lia). by eapply lookup_weaken_None.
Qed.

Lemma same_but_sending_trans self self1 self' :
  same_but_sending self self1 → same_but_sending self1 self' → same_but_sending self self'.
Proof.
  intros (? & ? & ? & ? & ? & Hp) (? & ? & ? & ? & ? & Hp').
  split_and!; try congruence. by etrans.
Qed.

(** Storing a numbered message keeps the invariant and takes one slot. *)
Lemma store_publish_inv self id c p rest :
  ss_inv self → inflight self < ss_receive_maximum self → 0 < p5_qos p →
  0 <= c <= u16_MAX → 1 <= id <= u16_MAX →
  ss_unacknowledged_publishes self !! id = None → ss_unacknowledged_pubrels self !! id = None →
  let self' := ss_with_publishes (ss_with_counter (ss_with_pending self rest) c)
    (<[id := with_packet_id p (Some id)]> (ss_unacknowledged_publishes self)) in
  ss_inv self' ∧ inflight self' = inflight self + 1.
Proof.
  intros [H1 H2 H3 H4 H5 H6] Hlt Hq Hc Hid Hp Hr self'.
  assert (inflight self' = inflight self + 1) as Hin.
  { unfold inflight. cbn [self' ss_unacknowledged_publishes ss_unacknowledged_pubrels ss_with_publishes
      ss_with_counter ss_with_pending]. rewrite map_size_insert_None by done. lia. }
  split; [|done]. split; cbn [self' ss_unacknowledged_publishes ss_unacknowledged_pubrels
    ss_with_publishes ss_with_counter ss_with_pending ss_packet_id_counter ss_receive_maximum]; try done.
  - intros i x. destruct (decide (i = id)) as [->|Hne].
    + rewrite lookup_insert_eq. by intros [= <-].
    + rewrite lookup_insert_ne by done. auto.
  - intros i. destruct (decide (i = id)) as [->|Hne]; [auto|]. rewrite lookup_insert_ne by done. auto.
  - change (inflight self' <= ss_receive_maximum self). lia.
Qed.

Lemma take_pending_loop_ok rest self rotated packets :
  ss_inv self → ss_pending_publishes self = rest ++ rotated →
  ∃ out self', take_pending_loop (length rest) self
      (ss_receive_maximum self - inflight self) packets = Ok (packets ++ out, self') ∧
    ss_inv self' ∧ same_but_sending self self' ∧
    ss_pending_publishes self'
      = rotated ++ (split_pending (ss_receive_maximum self - inflight self) rest).2 ∧
    Forall2 (sent_as self self') (split_pending (ss_receive_maximum self - inflight self) rest).1 out ∧
    NoDup (omap assigned_id out).
Proof.
  revert self rotated packets. induction rest as [|p rest IH]; intros self rotated packets Hinv Hp.
  { exists [], self. rewrite !app_nil_r. split_and!; try done; constructor. }
  cbn [length take_pending_loop]. rewrite Hp. cbn [app].
  pose proof (si_quota _ Hinv) as Hq0.
  assert (∀ l, ss_inv (ss_with_pending self l)) as Hpend.
  { intros l. eapply ss_inv_ext; [..|exact Hinv]; [done..|]. apply Hinv. }
  destruct (0 <? p5_qos p) eqn:Eq; cbn [split_pending]; rewrite Eq.
  - destruct (ss_receive_maximum self - inflight self =? 0) eqn:Es.
    + destruct (IH (ss_with_pending (ss_with_pending self (rest ++ rotated)) ((rest ++ rotated) ++ [p]))
        (rotated ++ [p]) packets) as (out & self' & Hl & Hi & Hs & Hpe & Hf & Hnd).
      { eapply ss_inv_ext; [..|exact Hinv]; [done..|]. apply Hinv. }
      { cbn. by rewrite app_assoc. }
      exists out, self'. change (inflight (ss_with_pending _ _)) with (inflight self) in *.
      cbn [ss_receive_maximum ss_with_pending] in *.
      destruct (split_pending _ rest) as [sent kept]. cbn [fst snd] in *.
      split_and!; try done. rewrite Hpe, <- app_assoc. done.
    + destruct (next_packet_id_free (ss_with_pending self (rest ++ rotated)) (Hpend _))
        as (id & c & Hn & Hc & Hid & H1 & H2).
      { change (inflight self < ss_receive_maximum self). lia. }
      rewrite Hn. cbn in H1, H2.
      destruct (store_publish_inv self id c p (rest ++ rotated) Hinv) as [Hi1 Hin1]; try done; try lia.
      set (self1 := ss_with_publishes _ _) in *.
      assert (same_but_sending self self1) as Hs1.
      { split_and!; try done. cbn. by apply insert_subseteq. }
      destruct (IH self1 rotated (packets ++ [Publish5 (with_packet_id p (Some id))]) Hi1 eq_refl)
        as (out & self' & Hl & Hi & Hs & Hpe & Hf & Hnd).
      assert (ss_receive_maximum self1 - inflight self1 = ss_receive_maximum self - inflight self - 1)
        as Hslots by (rewrite Hin1; cbn; lia).
      rewrite Hslots in *. exists (Publish5 (with_packet_id p (Some id)) :: out), self'.
      destruct (split_pending _ rest) as [sent kept]. cbn [fst snd] in *.
      split_and!; try done.
      * etrans; [exact Hl|]. by rewrite <- app_assoc.
      * by eapply same_but_sending_trans.
      * constructor.
        { unfold sent_as. rewrite Eq. exists id. split_and!; try done; try lia.
          eapply lookup_weaken; [|apply Hs]. cbn. by rewrite lookup_insert_eq. }
        eapply Forall2_impl; [exact Hf|]. intros x y. by apply sent_as_mono.
      * csimpl. rewrite Eq. constructor; [|done].
        intros (pk & Hpk & Ha)%list_elem_of_omap.
        apply list_elem_of_lookup_1 in Hpk as [i Hpk].
        destruct (Forall2_lookup_r _ _ _ _ _ Hf Hpk) as (x & _ & Hx). unfold sent_as in Hx.
        destruct (0 <? p5_qos x) eqn:Ex; [|subst pk; simpl in Ha; by rewrite Ex in Ha].
        destruct Hx as (id' & -> & _ & Hnone & _). simpl in Ha. rewrite Ex in Ha. injection Ha as ->.
        cbn in Hnone. by rewrite lookup_insert_eq in Hnone.
  - destruct (IH (ss_with_pending self (rest ++ rotated)) rotated (packets ++ [Publish5 p]) (Hpend _) eq_refl)
      as (out & self' & Hl & Hi & Hs & Hpe & Hf & Hnd).
    change (inflight (ss_with_pending _ _)) with (inflight self) in *.
    cbn [ss_receive_maximum ss_with_pending] in *.
    exists (Publish5 p :: out), self'. destruct (split_pending _ rest) as [sent kept]. cbn [fst snd] in *.
    split_and!; try done.
    + etrans; [exact Hl|]. by rewrite <- app_assoc.
    + constructor; [unfold sent_as; by rewrite Eq|done].
    + csimpl. by rewrite Eq.
Qed.

Lemma take_pending_ok self :
  ss_inv self →
  let slots := ss_receive_maximum self - inflight self in
  ∃ out self', ServerSession_take_pending_messages self = Ok (out, self') ∧
    ss_inv self' ∧ same_but_sending self self' ∧
    ss_pending_publishes self' = (split_pending slots (ss_pending_publishes self)).2 ∧
    Forall2 (sent_as self self') (split_pending slots (ss_pending_publishes self)).1 out ∧
    NoDup (omap assigned_id out).
Proof.
  intros Hinv slots. unfold ServerSession_take_pending_messages.
  destruct (take_pending_loop_ok (ss_pending_publishes self) self [] [] Hinv) as (out & self' & Hl & H).
  { by rewrite app_nil_r. }
  exists out, self'. split; [|done]. etrans; [|exact Hl]. f_equal.
  pose proof (si_quota _ Hinv). unfold inflight in *. lia.
Qed.

(** ** Incoming messages *)
Section incoming.
Context (iter : gmap bytes Subscription → list (bytes * Subscription)).

(** The acknowledgement a message is answered with. *)
Definition ack_of (p : MqttPublish5) (id : Z) : option MqttPacket :=
  if p5_qos p =? 1 then Some (PubAck5 (PacketIdAck5_new id 0 []))
  else if p5_qos p =? 2 then Some (PubRec5 (PacketIdAck5_new id 0 [])) else None.

Lemma incoming_publish_ok self p id :
  p5_packet_id p = Some id →
  ServerSession_handle_incoming_publish iter self p
  = Ok (ack_of p id,
        if p5_qos p =? 2 then
          if bool_decide (id ∈ ss_received_qos2 self) then self
          else accept_publish iter (ss_with_received self ({[ id ]} ∪ ss_received_qos2 self)) p
        else accept_publish iter self p).
Proof.
  intros Hid. unfold ServerSession_handle_incoming_publish, ack_of. rewrite Hid. rsimp.
  destruct (decide (p5_qos p = 2)) as [E|E].
  - rewrite E. simpl. by case_bool_decide.
  - apply Z.eqb_neq in E as E'. rewrite E'. destruct (decide (p5_qos p = 1)) as [E1|E1].
    + by rewrite E1.
    + apply Z.eqb_neq in E1 as E1'. rewrite E1'.
      destruct (p5_qos p) as [|[q|q|]|q]; try done. by destruct q.
Qed.

Lemma incoming_publish_inv self p r self' :
  ss_inv self → ServerSession_handle_incoming_publish iter self p = Ok (r, self') → ss_inv self'.
Proof.
  intros Hinv Hx.
  assert (∀ s, ss_inv s → ss_inv (accept_publish iter s p)) as Hacc.
  { intros s Hs. destruct (accept_publish_fields iter s p) as (H1 & H2 & H3 & H4 & _).
    eapply ss_inv_ext; [done..| |exact Hs]. rewrite H4. apply Hs. }
  assert (∀ s, (match p5_qos p with
    | 1 => id ← unwrap (p5_packet_id p); Ok (Some (PubAck5 (PacketIdAck5_new id 0 [])), s)
    | 2 => id ← unwrap (p5_packet_id p); Ok (Some (PubRec5 (PacketIdAck5_new id 0 [])), s)
    | _ => Ok (E:=Empty_set) (None, s) end) = Ok (r, self') → self' = s) as Hresp.
  { intros s. destruct (p5_qos p) as [|[q|q|]|q]; try (by intros [= _ <-]).
    - destruct q; try (by intros [= _ <-]). destruct (p5_packet_id p); [|done]. by intros [= _ <-].
    - destruct (p5_packet_id p); [|done]. by intros [= _ <-]. }
  unfold ServerSession_handle_incoming_publish in Hx. destruct (p5_qos p =? 2).
  - apply bind_Ok_inv in Hx as (id & _ & Hx). case_bool_decide.
    + apply Ok_inj in Hx. by simplify_eq.
    + apply Hresp in Hx as ->. apply Hacc. apply (ss_inv_ext self); try done. apply Hinv.
  - apply Hresp in Hx as ->. by apply Hacc.
Qed.
End incoming.

(** One operation of a server on a session, whatever order its maps are enumerated in, where an
    incoming message is one of [admits]. *)
Inductive server_step_by (admits : MqttPublish5 → Prop) : ServerSession → ServerSession → Prop :=
  | step_subscribe iter self s :
      server_step_by admits self (ServerSession_handle_incoming_subscribe iter self s)
  | step_unsubscribe self u :
      server_step_by admits self (ServerSession_handle_incoming_unsubscribe self u)
  | step_publish iter self p r self' :
      admits p → ServerSession_handle_incoming_publish iter self p = Ok (r, self') →
      server_step_by admits self self'
  | step_puback self a : server_step_by admits self (ServerSession_handle_incoming_puback self a)
  | step_pubrec self a : server_step_by admits self (ServerSession_handle_incoming_pubrec self a).2
  | step_pubrel self a : server_step_by admits self (ServerSession_handle_incoming_pubrel self a).2
  | step_pubcomp self a : server_step_by admits self (ServerSession_handle_incoming_pubcomp self a)
  | step_take_pending self out self' :
      ServerSession_take_pending_messages self = Ok (out, self') → server_step_by admits self self'
  | step_resend ip ir self out self' :
      ServerSession_resend_pending_messages ip ir self = Ok (out, self') → server_step_by admits self self'.

(** Any operation of a server. *)
Definition server_step : ServerSession → ServerSession → Prop := server_step_by (λ _, True).

Lemma take_pending_inv self out self' :
  ss_inv self → ServerSession_take_pending_messages self = Ok (out, self') → ss_inv self'.
Proof. intros Hinv Hx. destruct (take_pending_ok self Hinv) as (? & ? & Hy & ? & _). congruence. Qed.

Lemma server_step_inv admits self self' : ss_inv self → server_step_by admits self self' → ss_inv self'.
Proof.
  intros Hinv Hstep. destruct Hstep.
  - by apply subscribe_inv.
  - by apply unsubscribe_inv.
  - by eapply incoming_publish_inv.
  - by apply puback_inv.
  - by apply pubrec_inv.
  - eapply ss_inv_ext; [..|exact Hinv]; [done..|]. apply Hinv.
  - by apply pubcomp_inv.
  - by eapply take_pending_inv.
  - unfold ServerSession_resend_pending_messages in *.
    destruct (ServerSession_take_pending_messages self) as [[out' s]| |] eqn:E; [|done..].
    match goal with Hx : _ = Ok _ |- _ => rsimp; simpl in Hx; apply Ok_inj in Hx end.
    simplify_eq. by eapply take_pending_inv.
Qed.

Lemma server_new_inv rm : 0 <= rm <= u16_MAX → ss_inv (ServerSession_new rm).
Proof.
  intros Hr. split; simpl; try done; try (intros id x; by rewrite lookup_empty).
  - intros id. left. apply lookup_empty.
  - unfold inflight. cbn [ServerSession_new ss_unacknowledged_publishes ss_unacknowledged_pubrels]. rewrite !map_size_empty. lia.
Qed.

Lemma server_reachable_inv self self' : ss_inv self → rtc server_step self self' → ss_inv self'.
Proof. intros Hi Hrtc. induction Hrtc as [|s1 s2 s3 Hs]; [done|]. apply server_step_inv in Hs; auto. Qed.

(** ** Theorems *)

(** Topic filters match as MQTT 4.7 says.  [topic_matches] decides the matching relation on
    the levels of filter and topic ([+] one level, a final [#] any remaining ones, the parent
    included, every other level itself), except that a filter starting with a wildcard matches
    no topic that starts with [$]. *)
Theorem topic_matching filter topic :
  topic_matches filter topic = true ↔
  levels_match (split_on SLASH filter) (split_on SLASH topic) ∧
  ~ (starts_with topic (str "$") = true ∧
     (starts_with filter (str "+") = true ∨ starts_with filter (str "#") = true)).
Proof.
  unfold topic_matches. rewrite <- topic_levels_match_spec.
  destruct (starts_with topic (str "$")), (starts_with filter (str "+")),
    (starts_with filter (str "#")); simpl; naive_solver.
Qed.

(** C35: the send quota.  In every state a session reaches, by any sequence of subscriptions,
    messages, acknowledgements and transmissions, the exchanges in flight (unacknowledged
    PUBLISH and unfinished PUBREL) never exceed the client's receive maximum, no identifier is
    used for both, every identifier in flight is between 1 and 65535, and draining the pending
    messages does not panic. *)
Theorem server_send_quota receive_maximum self :
  0 <= receive_maximum <= u16_MAX → rtc server_step (ServerSession_new receive_maximum) self →
  inflight self <= ss_receive_maximum self ∧
  (∀ id, in_use self id = true → 1 <= id <= u16_MAX) ∧
  (∀ id, ss_unacknowledged_publishes self !! id = None ∨ ss_unacknowledged_pubrels self !! id = None) ∧
  ServerSession_take_pending_messages self ≠ Panic.
Proof.
  intros Hr Hrtc. assert (ss_inv self) as Hinv.
  { eapply server_reachable_inv; [|exact Hrtc]. by apply server_new_inv. }
  split_and!; [apply Hinv| |apply Hinv|].
  - intros id Hid. unfold in_use in Hid. apply orb_true_iff in Hid as [Hid|Hid];
      apply bool_decide_eq_true in Hid as [x Hx].
    + apply (si_publishes _ Hinv) in Hx. naive_solver.
    + apply (si_pubrels _ Hinv) in Hx. naive_solver.
  - destruct (take_pending_ok self Hinv) as (? & ? & -> & _). done.
Qed.

Definition sample_message (qos : Z) (payload : bytes) : MqttPublish5 :=
  {| p5_topic_name := str "a/b"; p5_qos := qos; p5_dup := false; p5_retain := false;
     p5_packet_id := None; p5_payload := payload; p5_properties := [] |}.

(** Three messages pending, room for one exchange. *)
Definition sample_server : ServerSession :=
  ss_with_pending (ServerSession_new 1)
    [sample_message 1 [1]; sample_message 1 [2]; sample_message 0 [3]].

Lemma sample_server_inv : ss_inv sample_server.
Proof.
  apply (ss_inv_ext (ServerSession_new 1)); try reflexivity;
    [|apply server_new_inv]; unfold u16_MAX; simpl; lia.
Qed.

(** It is reached by a subscription, three messages of other clients on its topic and the end
    of the subscription; draining it then leaves one exchange in flight and one message. *)
Definition sample_source (qos : Z) (id : option Z) (payload : bytes) : MqttPublish5 :=
  with_packet_id (sample_message qos payload) id.
Definition drained_server : ServerSession :=
  match ServerSession_take_pending_messages sample_server with
  | Ok (_, self) => self
  | _ => sample_server
  end.

Lemma sample_server_reachable : rtc server_step (ServerSession_new 1) sample_server.
Proof.
  eapply rtc_l; [apply (step_subscribe _ map_to_list _ {| s5_packet_id := 1; s5_properties := [];
    s5_subscriptions := [{| ts_topic_filter := str "a/b"; ts_qos := 1; ts_no_local := false;
      ts_retain_as_published := false; ts_retain_handling := 0 |}] |})|].
  eapply rtc_l; [eapply (step_publish _ map_to_list _ (sample_source 1 (Some 7) [1])); [done|vm_compute; reflexivity]|].
  eapply rtc_l; [eapply (step_publish _ map_to_list _ (sample_source 1 (Some 8) [2])); [done|vm_compute; reflexivity]|].
  eapply rtc_l; [eapply (step_publish _ map_to_list _ (sample_source 0 None [3])); [done|vm_compute; reflexivity]|].
  apply rtc_once. match goal with |- server_step ?s _ =>
    exact (step_unsubscribe _ s {| u5_packet_id := 2; u5_properties := [];
      u5_topic_filters := [str "a/b"] |}) end.
Qed.

Lemma drained_server_reachable : rtc server_step (ServerSession_new 1) drained_server.
Proof.
  etrans; [exact sample_server_reachable|]. apply rtc_once.
  eapply step_take_pending. vm_compute. reflexivity.
Qed.

Lemma server_send_quota_witness :
  (inflight sample_server <= 1 ∧ ServerSession_take_pending_messages sample_server ≠ Panic) ∧
  inflight drained_server = 1 ∧ ss_pending_publishes drained_server = [sample_message 1 [2]] ∧
  inflight drained_server <= ss_receive_maximum drained_server ∧
  (in_use drained_server 1 = true → 1 <= 1 <= u16_MAX) ∧
  ServerSession_take_pending_messages drained_server ≠ Panic.
Proof.
  pose proof (server_send_quota 1 sample_server ltac:(unfold u16_MAX; lia) sample_server_reachable) as H.
  pose proof (server_send_quota 1 drained_server ltac:(unfold u16_MAX; lia) drained_server_reachable) as H'.
  split; [split; apply H|]. split; [vm_compute; reflexivity|]. split; [vm_compute; reflexivity|].
  exact (conj (proj1 H') (conj (proj1 (proj2 H') 1) (proj2 (proj2 (proj2 H'))))).
Defined.

(** Draining the pending messages.  Up to the quota left, messages leave in the order they
    were queued, those of QoS 0 without a slot; the rest stay queued in their order.  Each
    message of QoS 1 or 2 leaves under its own identifier, free before and stored with the
    message for retransmission after; nothing else of the session changes. *)
Theorem server_take_pending self :
  ss_inv self →
  let slots := ss_receive_maximum self - inflight self in
  ∃ out self', ServerSession_take_pending_messages self = Ok (out, self') ∧
    ss_inv self' ∧ same_but_sending self self' ∧
    ss_pending_publishes self' = (split_pending slots (ss_pending_publishes self)).2 ∧
    Forall2 (sent_as self self') (split_pending slots (ss_pending_publishes self)).1 out ∧
    NoDup (omap assigned_id out).
Proof. apply take_pending_ok. Qed.

Lemma server_take_pending_witness :
  ∃ out self', ServerSession_take_pending_messages sample_server = Ok (out, self') ∧
    ss_pending_publishes self' = [sample_message 1 [2]] ∧
    Forall2 (sent_as sample_server self') [sample_message 1 [1]; sample_message 0 [3]] out.
Proof.
  destruct (server_take_pending sample_server sample_server_inv)
    as (out & self' & H & _ & _ & Hp & Hf & _).
  exists out, self'. split; [exact H|]. split; [exact Hp|exact Hf].
Defined.

(** Forwarding.  A message of QoS 2 whose identifier is still owned is answered with PUBREC
    and changes nothing; every other message is forwarded once to each matching subscription
    and to no other, with the lower of the two QoS, as a new message without identifier or
    duplicate flag and with that subscription's identifier only; it replaces or clears the
    retained message of its topic when it says so. *)
Theorem server_forwarding iter self p id :
  (∀ m, iter m ≡ₚ map_to_list m) → p5_packet_id p = Some id →
  ∃ self', ServerSession_handle_incoming_publish iter self p = Ok (ack_of p id, self') ∧
  if (p5_qos p =? 2) && bool_decide (id ∈ ss_received_qos2 self) then self' = self
  else
    (∃ fw, ss_pending_publishes self' = ss_pending_publishes self ++ fw ∧
       fw ≡ₚ omap (λ '(f, s), if topic_matches f (p5_topic_name p)
                              then Some (forwarded_publish p s false) else None)
                  (map_to_list (ss_subscriptions self))) ∧
    ss_retained_publishes self'
    = (if p5_retain p then
         if bool_decide (p5_payload p = []) then delete (p5_topic_name p) (ss_retained_publishes self)
         else <[p5_topic_name p := retained_copy p]> (ss_retained_publishes self)
       else ss_retained_publishes self) ∧
    ss_received_qos2 self' = (if p5_qos p =? 2 then {[ id ]} else ∅) ∪ ss_received_qos2 self ∧
    ss_unacknowledged_publishes self' = ss_unacknowledged_publishes self ∧
    ss_unacknowledged_pubrels self' = ss_unacknowledged_pubrels self.
Proof.
  intros Hiter Hid. rewrite (incoming_publish_ok iter self p id Hid). eexists. split; [done|].
  assert (∀ s, let s' := accept_publish iter s p in
    (∃ fw, ss_pending_publishes s' = ss_pending_publishes s ++ fw ∧
       fw ≡ₚ omap (λ '(f, s), if topic_matches f (p5_topic_name p)
                              then Some (forwarded_publish p s false) else None)
                  (map_to_list (ss_subscriptions s))) ∧
    ss_retained_publishes s'
    = (if p5_retain p then
         if bool_decide (p5_payload p = []) then delete (p5_topic_name p) (ss_retained_publishes s)
         else <[p5_topic_name p := retained_copy p]> (ss_retained_publishes s)
       else ss_retained_publishes s)) as Hacc.
  { intros s. unfold accept_publish.
    destruct (p5_retain p); [case_bool_decide|]; cbn; (split; [|done]);
      (eexists; split; [done|]); apply omap_Permutation, Hiter. }
  destruct (p5_qos p =? 2) eqn:E; cbn [andb];
    [destruct (bool_decide (id ∈ ss_received_qos2 self)); [done|]|].
  - destruct (Hacc (ss_with_received self ({[ id ]} ∪ ss_received_qos2 self))) as [Hf Hr].
    pose proof (accept_publish_fields iter (ss_with_received self ({[ id ]} ∪ ss_received_qos2 self)) p)
      as (H1 & H2 & _ & _ & H5 & _). split_and!; done.
  - destruct (Hacc self) as [Hf Hr].
    pose proof (accept_publish_fields iter self p) as (H1 & H2 & _ & _ & H5 & _).
    split_and!; try done. rewrite H5. set_solver.
Qed.

Lemma server_forwarding_witness :
  ∃ self', ServerSession_handle_incoming_publish map_to_list (ServerSession_new 5) sample_qos2
           = Ok (Some (PubRec5 (PacketIdAck5_new 3 0 [])), self') ∧ ss_received_qos2 self' = {[ 3 ]}.
Proof.
  destruct (server_forwarding map_to_list (ServerSession_new 5) sample_qos2 3) as (self' & H & _ & _ & Hr & _).
  - intros m. reflexivity.
  - reflexivity.
  - exists self'. split; [exact H|]. rewrite Hr. vm_compute. reflexivity.
Defined.
