(* ===== verification/ExactlyOnce.v ===== *)
(** * QoS 2 end to end

    [ClientSession] and [ServerSession] composed over a connection that can be lost at any time.
    The connection delivers packets in order (it is a byte stream with the framing of [Stream]);
    a loss drops everything in transit in both directions, after which the client resends what
    [resend_pending_messages] returns.  The server may interleave any operation of its own.  The
    messages the client submitted are logged, and so is every PUBLISH the server handles, with
    its session before and after: what was delivered is read off the two, from the copies the
    server queued for its subscriptions and from its retained messages.  The theorem is
    exactly-once delivery. *)
From S2P Require Import Prelude BaseData TopicFilter Validation Properties Packets.
From S2P Require Import ClientSession ServerSession.

(** A PUBLISH the server has handled, between the sessions [ar_before] and [ar_after]. *)
Record arrival : Type := {
  ar_publish : MqttPublish5;
  ar_before : ServerSession;
  ar_after : ServerSession;
}.

(** The copies a message is forwarded in: one for each subscription that matches its topic. *)
Definition copies_for (subscriptions : gmap bytes Subscription) (p : MqttPublish5) : list MqttPublish5 :=
  omap (λ '(f, s), if topic_matches f (p5_topic_name p)
                   then Some (forwarded_publish p s false) else None)
       (map_to_list subscriptions).

(** The retained messages a message leaves. *)
Definition retained_after (retained : gmap bytes MqttPublish5) (p : MqttPublish5)
    : gmap bytes MqttPublish5 :=
  if p5_retain p then
    if bool_decide (p5_payload p = []) then delete (p5_topic_name p) retained
    else <[p5_topic_name p := retained_copy p]> retained
  else retained.

(** The server forwarded the message: it queued one copy for each matching subscription and
    no other, behind what was queued, and updated the retained message of the topic. *)
Definition forwards (a : arrival) : Prop :=
  (∃ queued, ss_pending_publishes (ar_after a) = ss_pending_publishes (ar_before a) ++ queued ∧
     queued ≡ₚ copies_for (ss_subscriptions (ar_before a)) (ar_publish a)) ∧
  ss_retained_publishes (ar_after a) = retained_after (ss_retained_publishes (ar_before a)) (ar_publish a).

(** The server did nothing with the message: it queued no copy and retained nothing. *)
Definition ignores (a : arrival) : Prop :=
  ss_pending_publishes (ar_after a) = ss_pending_publishes (ar_before a) ∧
  ss_retained_publishes (ar_after a) = ss_retained_publishes (ar_before a).

(** The messages a sequence of arrivals delivered, up to the duplicate flag. *)
Inductive delivers : list arrival → list MqttPublish5 → Prop :=
  | delivers_nil : delivers [] []
  | delivers_first arrivals ms a :
      delivers arrivals ms → forwards a →
      delivers (arrivals ++ [a]) (ms ++ [with_dup (ar_publish a)])
  | delivers_again arrivals ms a :
      delivers arrivals ms → ignores a → delivers (arrivals ++ [a]) ms.

Record link : Type := {
  lk_client : ClientSession;
  lk_server : ServerSession;
  lk_up : list MqttPacket;
  lk_down : list MqttPacket;
  lk_sent : list MqttPublish5;
  lk_arrivals : list arrival;
}.

Definition link_new (receive_maximum : Z) : link :=
  {| lk_client := ClientSession_new; lk_server := ServerSession_new receive_maximum;
     lk_up := []; lk_down := []; lk_sent := []; lk_arrivals := [] |}.

Inductive link_step : link → link → Prop :=
  (** The application publishes a QoS 2 message under a free identifier. *)
  | do_publish l p id :
      p5_qos p = 2 → p5_packet_id p = Some id →
      cs_unacknowledged_publishes (lk_client l) !! id = None →
      cs_unacknowledged_pubrels (lk_client l) !! id = None →
      link_step l
        {| lk_client := ClientSession_handle_outgoing_publish (lk_client l) p;
           lk_server := lk_server l; lk_up := lk_up l ++ [Publish5 p]; lk_down := lk_down l;
           lk_sent := lk_sent l ++ [p]; lk_arrivals := lk_arrivals l |}
  (** A PUBLISH arrives at the server. *)
  | do_up_publish l iter p up r server :
      (∀ m, iter m ≡ₚ map_to_list m) → lk_up l = Publish5 p :: up →
      ServerSession_handle_incoming_publish iter (lk_server l) p = Ok (r, server) →
      link_step l
        {| lk_client := lk_client l; lk_server := server; lk_up := up;
           lk_down := lk_down l ++ option_list r; lk_sent := lk_sent l;
           lk_arrivals := lk_arrivals l ++
             [{| ar_publish := p; ar_before := lk_server l; ar_after := server |}] |}
  (** A PUBREL arrives at the server. *)
  | do_up_pubrel l a up :
      lk_up l = PubRel5 a :: up →
      let '(comp, server) := ServerSession_handle_incoming_pubrel (lk_server l) a in
      link_step l
        {| lk_client := lk_client l; lk_server := server; lk_up := up;
           lk_down := lk_down l ++ [PubComp5 comp]; lk_sent := lk_sent l;
           lk_arrivals := lk_arrivals l |}
  (** A PUBREC arrives at the client, which records and sends the PUBREL it answers with. *)
  | do_down_pubrec l a down rel client :
      lk_down l = PubRec5 a :: down →
      ClientSession_handle_incoming_pubrec (lk_client l) a = (Some rel, client) →
      link_step l
        {| lk_client := ClientSession_handle_outgoing_pubrel client rel;
           lk_server := lk_server l; lk_up := lk_up l ++ [PubRel5 rel]; lk_down := down;
           lk_sent := lk_sent l; lk_arrivals := lk_arrivals l |}
  (** A PUBCOMP arrives at the client. *)
  | do_down_pubcomp l a down :
      lk_down l = PubComp5 a :: down →
      link_step l
        {| lk_client := ClientSession_handle_incoming_pubcomp (lk_client l) a;
           lk_server := lk_server l; lk_up := lk_up l; lk_down := down;
           lk_sent := lk_sent l; lk_arrivals := lk_arrivals l |}
  (** The connection is lost and reestablished, and the client resends. *)
  | do_reconnect l iter_publishes iter_pubrels :
      enumerates iter_publishes → enumerates iter_pubrels →
      link_step l
        {| lk_client := lk_client l; lk_server := lk_server l;
           lk_up := ClientSession_resend_pending_messages iter_publishes iter_pubrels (lk_client l);
           lk_down := []; lk_sent := lk_sent l; lk_arrivals := lk_arrivals l |}
  (** Anything else the server does on the session: no other QoS 2 message comes in, and no
      PUBREL for an exchange of this client. *)
  | do_server l server :
      server_step_by (λ p, p5_qos p ≠ 2) (lk_server l) server → ss_received_qos2 server = ss_received_qos2 (lk_server l) →
      link_step l
        {| lk_client := lk_client l; lk_server := server; lk_up := lk_up l; lk_down := lk_down l;
           lk_sent := lk_sent l; lk_arrivals := lk_arrivals l |}.

(** ** The protocol seen from one identifier *)
Definition about (id : Z) (l : list MqttPacket) : list MqttPacket :=
  filter (λ pk, exchange_id pk = Some id) l.

(** The messages under an identifier, up to the duplicate flag. *)
Definition log_of (id : Z) (l : list MqttPublish5) : list MqttPublish5 :=
  with_dup <$> filter (λ p, p5_packet_id p = Some id) l.

(** The arrivals of messages under an identifier. *)
Definition arrivals_of (id : Z) (l : list arrival) : list arrival :=
  filter (λ a, p5_packet_id (ar_publish a) = Some id) l.

Record view : Type := {
  v_publish : option MqttPublish5;
  v_pubrel : option PacketIdAck5;
  v_received : bool;
  v_up : list MqttPacket;
  v_down : list MqttPacket;
  v_sent : list MqttPublish5;
  v_delivered : list MqttPublish5;
}.

Definition view_of (id : Z) (l : link) (ms : list MqttPublish5) : view :=
  {| v_publish := cs_unacknowledged_publishes (lk_client l) !! id;
     v_pubrel := cs_unacknowledged_pubrels (lk_client l) !! id;
     v_received := bool_decide (id ∈ ss_received_qos2 (lk_server l));
     v_up := about id (lk_up l); v_down := about id (lk_down l);
     v_sent := log_of id (lk_sent l); v_delivered := ms |}.

(** The message [p], possibly marked as a duplicate. *)
Definition copy_of (p : MqttPublish5) (pk : MqttPacket) : Prop :=
  ∃ q, pk = Publish5 q ∧ with_dup q = with_dup p.

(** The five phases of an exchange and what may be in transit in each. *)
Inductive phase (id : Z) : view → Prop :=
  | idle s :
      phase id {| v_publish := None; v_pubrel := None; v_received := false; v_up := [];
                  v_down := []; v_sent := s; v_delivered := s |}
  | publishing p up s :
      up = [] ∨ (∃ pk, up = [pk] ∧ copy_of p pk) →
      phase id {| v_publish := Some p; v_pubrel := None; v_received := false; v_up := up;
                  v_down := []; v_sent := s ++ [with_dup p]; v_delivered := s |}
  | received p up down s :
      (up = [] ∧ down = []) ∨ (∃ pk, up = [pk] ∧ copy_of p pk ∧ down = []) ∨
      (up = [] ∧ down = [PubRec5 (PacketIdAck5_new id 0 [])]) →
      phase id {| v_publish := Some p; v_pubrel := None; v_received := true; v_up := up;
                  v_down := down; v_sent := s; v_delivered := s |}
  | releasing up s :
      up = [] ∨ up = [PubRel5 (PacketIdAck5_new id 0 [])] →
      phase id {| v_publish := None; v_pubrel := Some (PacketIdAck5_new id 0 []);
                  v_received := true; v_up := up; v_down := []; v_sent := s; v_delivered := s |}
  | completing up down s :
      (up = [] ∧ down = []) ∨ (up = [PubRel5 (PacketIdAck5_new id 0 [])] ∧ down = []) ∨
      (∃ rc, up = [] ∧ down = [PubComp5 (PacketIdAck5_new id rc [])]) →
      phase id {| v_publish := None; v_pubrel := Some (PacketIdAck5_new id 0 []);
                  v_received := false; v_up := up; v_down := down; v_sent := s; v_delivered := s |}.

(** What has been delivered under the identifier, and the phase that goes with it. *)
Definition phase_at (id : Z) (l : link) : Prop :=
  ∃ ms, delivers (arrivals_of id (lk_arrivals l)) ms ∧ phase id (view_of id l ms).

(** The client only has QoS 2 messages under their own identifiers. *)
Definition qos2_client (c : ClientSession) : Prop :=
  cs_inv c ∧ ∀ id p, cs_unacknowledged_publishes c !! id = Some p → p5_qos p = 2.

Definition link_inv (l : link) : Prop :=
  qos2_client (lk_client l) ∧ (∀ id, phase_at id l) ∧
  (∀ pk, pk ∈ lk_up l → is_Some (exchange_id pk)) ∧ (∀ pk, pk ∈ lk_down l → is_Some (exchange_id pk)).

(** ** Lemmas *)
Lemma about_app id l k : about id (l ++ k) = about id l ++ about id k.
Proof. apply filter_app. Qed.

Lemma about_cons_eq id pk l : exchange_id pk = Some id → about id (pk :: l) = pk :: about id l.
Proof. intros E. unfold about. by rewrite filter_cons_True. Qed.

Lemma about_cons_ne id pk l : exchange_id pk ≠ Some id → about id (pk :: l) = about id l.
Proof. intros E. unfold about. by rewrite filter_cons_False. Qed.

Lemma log_of_app id l k : log_of id (l ++ k) = log_of id l ++ log_of id k.
Proof. unfold log_of. by rewrite filter_app, fmap_app. Qed.

Lemma log_of_one id p : p5_packet_id p = Some id → log_of id [p] = [with_dup p].
Proof. intros E. unfold log_of. by rewrite filter_cons_True. Qed.

Lemma log_of_other id p : p5_packet_id p ≠ Some id → log_of id [p] = [].
Proof. intros E. unfold log_of. by rewrite filter_cons_False. Qed.

Lemma arrivals_of_app id l k : arrivals_of id (l ++ k) = arrivals_of id l ++ arrivals_of id k.
Proof. apply filter_app. Qed.

Lemma arrivals_of_one id a : p5_packet_id (ar_publish a) = Some id → arrivals_of id [a] = [a].
Proof. intros E. unfold arrivals_of. by rewrite filter_cons_True. Qed.

Lemma arrivals_of_other id a : p5_packet_id (ar_publish a) ≠ Some id → arrivals_of id [a] = [].
Proof. intros E. unfold arrivals_of. by rewrite filter_cons_False. Qed.

(** A server that has a subscription for the message cannot both forward and ignore it, so
    what such arrivals delivered is not a matter of choice. *)
Lemma forwards_not_ignores a :
  copies_for (ss_subscriptions (ar_before a)) (ar_publish a) ≠ [] → forwards a → ~ ignores a.
Proof.
  intros Hne [(queued & Hq & Hperm) _] [Hi _]. rewrite Hi in Hq.
  assert (queued = []) as -> by (by apply (app_inv_head (ss_pending_publishes (ar_before a)));
    rewrite app_nil_r).
  by apply Permutation_nil_l in Hperm.
Qed.

(** The server forwards the first copy of a QoS 2 message and ignores those that follow
    while it owns the identifier; both are answered with PUBREC. *)
Lemma publish_arrival iter self p id r self' :
  (∀ m, iter m ≡ₚ map_to_list m) → p5_qos p = 2 → p5_packet_id p = Some id →
  ServerSession_handle_incoming_publish iter self p = Ok (r, self') →
  let a := {| ar_publish := p; ar_before := self; ar_after := self' |} in
  r = Some (PubRec5 (PacketIdAck5_new id 0 [])) ∧
  ss_received_qos2 self' = {[ id ]} ∪ ss_received_qos2 self ∧
  if bool_decide (id ∈ ss_received_qos2 self) then ignores a else forwards a.
Proof.
  intros Hiter Hq Hid Hx. destruct (server_forwarding iter self p id Hiter Hid) as (s & Hs & Hf).
  rewrite Hx in Hs. apply Ok_inj in Hs. simplify_eq. unfold ack_of. rewrite Hq in *. simpl in *.
  split; [done|]. case_bool_decide as Hin; simpl in Hf.
  - subst. split; [set_solver|done].
  - destruct Hf as (Hp & Hr & Hrec & _). split; [done|]. by split.
Qed.

(** What is resent about one identifier. *)
Lemma about_resend iter_publishes iter_pubrels c id :
  enumerates iter_publishes → enumerates iter_pubrels → cs_inv c →
  about id (ClientSession_resend_pending_messages iter_publishes iter_pubrels c)
  = match cs_unacknowledged_pubrels c !! id, cs_unacknowledged_publishes c !! id with
    | Some r, _ => [PubRel5 r]
    | None, Some p => [Publish5 (with_dup p)]
    | None, None => []
    end.
Proof.
  intros Hp Hr Hinv. set (out := ClientSession_resend_pending_messages _ _ _).
  assert (∀ pk, pk ∈ about id out ↔ pk ∈ (match cs_unacknowledged_pubrels c !! id,
      cs_unacknowledged_publishes c !! id with
    | Some r, _ => [PubRel5 r] | None, Some p => [Publish5 (with_dup p)] | None, None => [] end)) as Hin.
  { intros pk. unfold about, out. rewrite list_elem_of_filter, resend_elem by done.
    destruct Hinv as [H1 H2]. split.
    - intros [Hid [(i & p & Hi & Hn & ->)|(i & r & Hi & ->)]]; simpl in Hid.
      + destruct (H1 _ _ Hi) as [E _]. rewrite E in Hid. simplify_eq. rewrite Hn, Hi. set_solver.
      + pose proof (H2 _ _ Hi). simplify_eq. rewrite Hi. set_solver.
    - destruct (cs_unacknowledged_pubrels c !! id) as [r|] eqn:Er.
      + intros ->%list_elem_of_singleton. split; [simpl; by rewrite (H2 _ _ Er)|]. right. eauto.
      + destruct (cs_unacknowledged_publishes c !! id) as [p|] eqn:Ep; [|by intros ?%not_elem_of_nil].
        intros ->%list_elem_of_singleton. split; [simpl; apply (H1 _ _ Ep)|]. left. eauto. }
  assert (NoDup (about id out)) as Hnd.
  { apply NoDup_filter. eapply NoDup_fmap_1. by apply (resend_nodup _ _ Hp Hr c Hinv). }
  assert (NoDup (match cs_unacknowledged_pubrels c !! id, cs_unacknowledged_publishes c !! id with
    | Some r, _ => [PubRel5 r] | None, Some p => [Publish5 (with_dup p)] | None, None => [] end)) as Hnd'.
  { destruct (cs_unacknowledged_pubrels c !! id), (cs_unacknowledged_publishes c !! id);
      apply NoDup_singleton || apply NoDup_nil_2. }
  pose proof (NoDup_Permutation _ _ Hnd Hnd' Hin) as Hperm.
  destruct (cs_unacknowledged_pubrels c !! id), (cs_unacknowledged_publishes c !! id);
    first [by apply Permutation_singleton_r in Hperm|by apply Permutation_nil_r in Hperm].
Qed.

(** A view from its components. *)
Lemma phase_of id l vp vr vrec vu vd vs vdl :
  phase id {| v_publish := vp; v_pubrel := vr; v_received := vrec; v_up := vu; v_down := vd;
              v_sent := vs; v_delivered := vdl |} →
  cs_unacknowledged_publishes (lk_client l) !! id = vp →
  cs_unacknowledged_pubrels (lk_client l) !! id = vr →
  bool_decide (id ∈ ss_received_qos2 (lk_server l)) = vrec →
  about id (lk_up l) = vu → about id (lk_down l) = vd →
  log_of id (lk_sent l) = vs → delivers (arrivals_of id (lk_arrivals l)) vdl →
  phase_at id l.
Proof. intros Hp <- <- <- <- <- <- Hd. by exists vdl. Qed.

(** The phase of an identifier the step is not about. *)
Lemma phase_frame id l l' :
  phase_at id l →
  cs_unacknowledged_publishes (lk_client l') !! id = cs_unacknowledged_publishes (lk_client l) !! id →
  cs_unacknowledged_pubrels (lk_client l') !! id = cs_unacknowledged_pubrels (lk_client l) !! id →
  (id ∈ ss_received_qos2 (lk_server l') ↔ id ∈ ss_received_qos2 (lk_server l)) →
  about id (lk_up l') = about id (lk_up l) → about id (lk_down l') = about id (lk_down l) →
  log_of id (lk_sent l') = log_of id (lk_sent l) →
  arrivals_of id (lk_arrivals l') = arrivals_of id (lk_arrivals l) →
  phase_at id l'.
Proof.
  intros (ms & Hd & Hp) H1 H2 H3 H4 H5 H6 H7. eapply phase_of; [exact Hp|done|done| |done..|].
  - by apply bool_decide_ext.
  - by rewrite H7.
Qed.

(** The components of a phase, as equations on those of the link. *)
Ltac phase_cases H :=
  let v := fresh "v" in let E := fresh "E" in
  let ms := fresh "ms" in let Hdel := fresh "Hdel" in
  destruct H as (ms & Hdel & H);
  match type of H with phase _ ?w => remember w as v eqn:E in H end;
  destruct H as [vs|pm vu vs Hu|pm vu vd vs Hu|vu vs Hu|vu vd vs Hu];
  unfold view_of in E; injection E as Evp Evr Evrec Evu Evd Evs Evdl.

Section steps.
Variable l : link.
Hypothesis Hinv : link_inv l.

Lemma step_publish_inv p id :
  p5_qos p = 2 → p5_packet_id p = Some id →
  cs_unacknowledged_publishes (lk_client l) !! id = None →
  cs_unacknowledged_pubrels (lk_client l) !! id = None →
  link_inv {| lk_client := ClientSession_handle_outgoing_publish (lk_client l) p;
              lk_server := lk_server l; lk_up := lk_up l ++ [Publish5 p]; lk_down := lk_down l;
              lk_sent := lk_sent l ++ [p]; lk_arrivals := lk_arrivals l |}.
Proof.
  intros Hq Hid Hp Hr. destruct Hinv as ([Hc Hqos] & Hph & Hup & Hdown).
  assert (ClientSession_handle_outgoing_publish (lk_client l) p
    = cs_with (lk_client l) (<[id := p]> (cs_unacknowledged_publishes (lk_client l)))
        (cs_unacknowledged_pubrels (lk_client l))) as Hout.
  { unfold ClientSession_handle_outgoing_publish. rewrite Hid, Hq.
    by rewrite bool_decide_eq_false_2 by (rewrite Hp; by intros [? ?]). }
  split; [|split; [|split]].
  - split; [exact (proj1 (cs_inv_steps _ p (PacketIdAck5_new 0 0 []) Hc))|].
    intros i x. cbn [lk_client]. rewrite Hout. cbn. destruct (decide (i = id)) as [->|Hne].
    + rewrite lookup_insert_eq. by intros [= <-].
    + rewrite lookup_insert_ne by done. apply Hqos.
  - intros i. specialize (Hph i). destruct (decide (i = id)) as [->|Hne].
    + phase_cases Hph; try congruence.
      eapply phase_of; [apply (publishing id p [Publish5 p] ms)|..]; cbn [lk_client lk_server lk_up
        lk_down lk_sent lk_arrivals]; try done.
      * right. exists (Publish5 p). split; [done|]. by exists p.
      * rewrite Hout. cbn. by rewrite lookup_insert_eq.
      * by rewrite Hout.
      * rewrite about_app. replace (about id (lk_up l)) with (@nil MqttPacket) by congruence.
        simpl. by rewrite about_cons_eq.
      * rewrite log_of_app, log_of_one by done. f_equal. congruence.
    + eapply phase_frame; [exact Hph|..]; cbn [lk_client lk_server lk_up lk_down lk_sent lk_arrivals];
        try done.
      * rewrite Hout. cbn. by rewrite lookup_insert_ne.
      * by rewrite Hout.
      * rewrite about_app, about_cons_ne by (simpl; congruence). by rewrite app_nil_r.
      * rewrite log_of_app, log_of_other by congruence. by rewrite app_nil_r.
  - intros pk [Hin|Hin]%elem_of_app; [by apply Hup|]. apply list_elem_of_singleton in Hin as ->.
    simpl. rewrite Hid. eauto.
  - done.
Qed.

(** The head of the upward queue is all that is in transit about its identifier. *)
Lemma up_head pk up :
  lk_up l = pk :: up → ∃ id, exchange_id pk = Some id ∧ about id (lk_up l) = pk :: about id up ∧
    ∀ i, i ≠ id → about i (lk_up l) = about i up.
Proof.
  intros Hl. destruct Hinv as (_ & _ & Hup & _).
  destruct (Hup pk) as [id Hid]; [rewrite Hl; set_solver|]. exists id. rewrite Hl.
  split_and!; [done|by apply about_cons_eq|]. intros i Hne. apply about_cons_ne. congruence.
Qed.

Lemma down_head pk down :
  lk_down l = pk :: down → ∃ id, exchange_id pk = Some id ∧
    about id (lk_down l) = pk :: about id down ∧ ∀ i, i ≠ id → about i (lk_down l) = about i down.
Proof.
  intros Hl. destruct Hinv as (_ & _ & _ & Hdown).
  destruct (Hdown pk) as [id Hid]; [rewrite Hl; set_solver|]. exists id. rewrite Hl.
  split_and!; [done|by apply about_cons_eq|]. intros i Hne. apply about_cons_ne. congruence.
Qed.

Lemma step_up_publish_inv iter p up r server :
  (∀ m, iter m ≡ₚ map_to_list m) → lk_up l = Publish5 p :: up →
  ServerSession_handle_incoming_publish iter (lk_server l) p = Ok (r, server) →
  link_inv {| lk_client := lk_client l; lk_server := server; lk_up := up;
              lk_down := lk_down l ++ option_list r; lk_sent := lk_sent l;
              lk_arrivals := lk_arrivals l ++
                [{| ar_publish := p; ar_before := lk_server l; ar_after := server |}] |}.
Proof.
  intros Hiter Hl Hx. destruct (up_head _ _ Hl) as (id & Hid & Habout & Hother). simpl in Hid.
  destruct Hinv as ([Hc Hqos] & Hph & Hup & Hdown).
  (* the phase of [id] decides whether the message is new *)
  assert (p5_qos p = 2 ∧ ∃ pm ms, cs_unacknowledged_publishes (lk_client l) !! id = Some pm ∧
    cs_unacknowledged_pubrels (lk_client l) !! id = None ∧ with_dup p = with_dup pm ∧
    about id up = [] ∧ about id (lk_down l) = [] ∧ delivers (arrivals_of id (lk_arrivals l)) ms ∧
    log_of id (lk_sent l) = ms
      ++ (if bool_decide (id ∈ ss_received_qos2 (lk_server l)) then [] else [with_dup pm]))
    as (Hq & pm & ms & Hpm & Hpr & Hdup & Hup0 & Hdown0 & Hdel & Hlog).
  { pose proof (Hph id) as Hp. phase_cases Hp; rewrite Habout in Evu; rewrite <- ?Evrec.
    - done.
    - destruct Hu as [Hu|(pk & Hu & q & -> & Hdup)]; [congruence|].
      assert (p = q) as <- by congruence.
      assert (p5_qos p = p5_qos pm) as Hqq by (by injection Hdup).
      split; [rewrite Hqq; eapply Hqos; by symmetry|]. exists pm, ms. split_and!; congruence.
    - destruct Hu as [[? _]|[(pk & Hu & (q & -> & Hdup) & Hd)|[? _]]]; [congruence| |congruence].
      assert (p = q) as <- by congruence.
      assert (p5_qos p = p5_qos pm) as Hqq by (by injection Hdup).
      split; [rewrite Hqq; eapply Hqos; by symmetry|]. exists pm, ms. rewrite app_nil_r.
      split_and!; congruence.
    - destruct Hu as [?|?]; congruence.
    - destruct Hu as [[? _]|[[? _]|(? & ? & _)]]; congruence. }
  destruct (publish_arrival iter (lk_server l) p id r server Hiter Hq Hid Hx) as (-> & Hrec & Harr).
  split; [done|]. split; [|split].
  - intros i. destruct (decide (i = id)) as [->|Hne].
    + eapply phase_of; [apply (received id pm [] [PubRec5 (PacketIdAck5_new id 0 [])] (log_of id (lk_sent l)))|..];
        cbn [lk_client lk_server lk_up lk_down lk_sent lk_arrivals]; try done.
      * auto.
      * apply bool_decide_eq_true. rewrite Hrec. set_solver.
      * rewrite about_app, Hdown0. simpl. by rewrite about_cons_eq.
      * rewrite arrivals_of_app, arrivals_of_one, Hlog by done. case_bool_decide.
        { rewrite app_nil_r. by apply delivers_again. }
        { rewrite <- Hdup. by apply (delivers_first _ _ _ Hdel Harr). }
    + eapply phase_frame; [exact (Hph i)|..];
        cbn [lk_client lk_server lk_up lk_down lk_sent lk_arrivals]; try done.
      * rewrite Hrec. set_solver.
      * by rewrite Hother.
      * rewrite about_app. simpl. rewrite about_cons_ne by (simpl; congruence). by rewrite app_nil_r.
      * rewrite arrivals_of_app, arrivals_of_other by (simpl; congruence). by rewrite app_nil_r.
  - intros pk Hpk. apply Hup. rewrite Hl. set_solver.
  - intros pk [Hpk|Hpk]%elem_of_app; [by apply Hdown|].
    apply list_elem_of_singleton in Hpk as ->. simpl. eauto.
Qed.

Lemma step_up_pubrel_inv a up :
  lk_up l = PubRel5 a :: up →
  let '(comp, server) := ServerSession_handle_incoming_pubrel (lk_server l) a in
  link_inv {| lk_client := lk_client l; lk_server := server; lk_up := up;
              lk_down := lk_down l ++ [PubComp5 comp]; lk_sent := lk_sent l;
              lk_arrivals := lk_arrivals l |}.
Proof.
  intros Hl. destruct (up_head _ _ Hl) as (id & Hid & Habout & Hother). simpl in Hid.
  injection Hid as Hid. destruct Hinv as (Hc & Hph & Hup & Hdown).
  assert (cs_unacknowledged_publishes (lk_client l) !! id = None ∧
    cs_unacknowledged_pubrels (lk_client l) !! id = Some (PacketIdAck5_new id 0 []) ∧
    about id up = [] ∧ about id (lk_down l) = [] ∧
    delivers (arrivals_of id (lk_arrivals l)) (log_of id (lk_sent l))) as (Hpm & Hpr & Hup0 & Hdown0 & Hlog).
  { pose proof (Hph id) as Hp. phase_cases Hp; rewrite Habout in Evu.
    - done.
    - destruct Hu as [Hu|(pk & Hu & q & -> & _)]; congruence.
    - destruct Hu as [[? _]|[(pk & Hu & (q & -> & _) & _)|[? _]]]; congruence.
    - destruct Hu as [?|?]; split_and!; congruence.
    - destruct Hu as [[? ?]|[[? ?]|(? & ? & ?)]]; split_and!; congruence. }
  cbn [ServerSession_handle_incoming_pubrel]. set (rc := if bool_decide _ then _ else _).
  split; [done|]. split; [|split].
  - intros i. destruct (decide (i = id)) as [->|Hne].
    + eapply phase_of; [apply (completing id [] [PubComp5 (PacketIdAck5_new id rc [])]
        (log_of id (lk_sent l)))|..];
        cbn [lk_client lk_server lk_up lk_down lk_sent lk_arrivals ss_received_qos2 ss_with_received];
        try done.
      * eauto.
      * apply bool_decide_eq_false. rewrite Hid. set_solver.
      * rewrite about_app, Hdown0, Hid. by apply about_cons_eq.
    + eapply phase_frame; [exact (Hph i)|..];
        cbn [lk_client lk_server lk_up lk_down lk_sent lk_arrivals ss_received_qos2 ss_with_received];
        try done.
      * rewrite Hid. set_solver.
      * by rewrite Hother.
      * rewrite about_app, about_cons_ne by (simpl; congruence). by rewrite app_nil_r.
  - intros pk Hpk. apply Hup. rewrite Hl. set_solver.
  - intros pk [Hpk|Hpk]%elem_of_app; [by apply Hdown|].
    apply list_elem_of_singleton in Hpk as ->. simpl. eauto.
Qed.

Lemma step_down_pubrec_inv a down rel client :
  lk_down l = PubRec5 a :: down →
  ClientSession_handle_incoming_pubrec (lk_client l) a = (Some rel, client) →
  link_inv {| lk_client := ClientSession_handle_outgoing_pubrel client rel;
              lk_server := lk_server l; lk_up := lk_up l ++ [PubRel5 rel]; lk_down := down;
              lk_sent := lk_sent l; lk_arrivals := lk_arrivals l |}.
Proof.
  intros Hl Hx. destruct (down_head _ _ Hl) as (id & Hid & Habout & Hother). simpl in Hid.
  injection Hid as Hid. destruct Hinv as ([Hc Hqos] & Hph & Hup & Hdown).
  assert (rel = PacketIdAck5_new id 0 [] ∧ client = cs_with (lk_client l)
    (delete id (cs_unacknowledged_publishes (lk_client l)))
    (cs_unacknowledged_pubrels (lk_client l))) as [-> ->].
  { unfold ClientSession_handle_incoming_pubrec in Hx. rewrite Hid in Hx.
    destruct (_ <? _); by simplify_eq. }
  assert (id ∈ ss_received_qos2 (lk_server l) ∧
    cs_unacknowledged_pubrels (lk_client l) !! id = None ∧
    about id (lk_up l) = [] ∧ about id down = [] ∧
    delivers (arrivals_of id (lk_arrivals l)) (log_of id (lk_sent l))) as (Hrec & Hpr & Hup0 & Hdown0 & Hlog).
  { pose proof (Hph id) as Hp. phase_cases Hp; rewrite Habout in Evd.
    - done.
    - done.
    - destruct Hu as [[_ ?]|[(pk & _ & _ & ?)|[? ?]]]; [congruence..|].
      symmetry in Evrec. apply bool_decide_eq_true in Evrec. split_and!; congruence.
    - done.
    - destruct Hu as [[_ ?]|[[_ ?]|(? & _ & ?)]]; congruence. }
  unfold ClientSession_handle_outgoing_pubrel. cbn [a5_packet_id PacketIdAck5_new].
  split; [|split; [|split]].
  - split; cbn [lk_client].
    + refine (proj1 (proj2 (cs_inv_steps _ sample_qos2 (PacketIdAck5_new id 0 []) _))).
      apply cs_with_inv; [|auto|done]. intros i x [_ ?]%lookup_delete_Some. auto.
    + intros i x. cbn. intros [_ Hx']%lookup_delete_Some. by eapply Hqos.
  - intros i. destruct (decide (i = id)) as [->|Hne].
    + eapply phase_of; [apply (releasing id [PubRel5 (PacketIdAck5_new id 0 [])] (log_of id (lk_sent l)))|..];
        cbn [lk_client lk_server lk_up lk_down lk_sent lk_arrivals cs_with
          cs_unacknowledged_publishes cs_unacknowledged_pubrels]; try done.
      * auto.
      * apply lookup_delete_eq.
      * apply lookup_insert_eq.
      * by apply bool_decide_eq_true.
      * rewrite about_app, Hup0. by apply about_cons_eq.
    + eapply phase_frame; [exact (Hph i)|..];
        cbn [lk_client lk_server lk_up lk_down lk_sent lk_arrivals cs_with
          cs_unacknowledged_publishes cs_unacknowledged_pubrels]; try done.
      * by rewrite lookup_delete_ne.
      * by rewrite lookup_insert_ne.
      * rewrite about_app, about_cons_ne by (simpl; congruence). by rewrite app_nil_r.
      * by rewrite Hother.
  - intros pk [Hpk|Hpk]%elem_of_app; [by apply Hup|].
    apply list_elem_of_singleton in Hpk as ->. simpl. eauto.
  - intros pk Hpk. apply Hdown. rewrite Hl. set_solver.
Qed.

Lemma step_down_pubcomp_inv a down :
  lk_down l = PubComp5 a :: down →
  link_inv {| lk_client := ClientSession_handle_incoming_pubcomp (lk_client l) a;
              lk_server := lk_server l; lk_up := lk_up l; lk_down := down;
              lk_sent := lk_sent l; lk_arrivals := lk_arrivals l |}.
Proof.
  intros Hl. destruct (down_head _ _ Hl) as (id & Hid & Habout & Hother). simpl in Hid.
  injection Hid as Hid. destruct Hinv as ([Hc Hqos] & Hph & Hup & Hdown).
  assert (bool_decide (id ∈ ss_received_qos2 (lk_server l)) = false ∧
    cs_unacknowledged_publishes (lk_client l) !! id = None ∧
    about id (lk_up l) = [] ∧ about id down = [] ∧
    delivers (arrivals_of id (lk_arrivals l)) (log_of id (lk_sent l))) as (Hrec & Hpm & Hup0 & Hdown0 & Hlog).
  { pose proof (Hph id) as Hp. phase_cases Hp; rewrite Habout in Evd.
    - done.
    - done.
    - destruct Hu as [[_ ?]|[(pk & _ & _ & ?)|[? ?]]]; congruence.
    - done.
    - destruct Hu as [[_ ?]|[[_ ?]|(? & ? & ?)]]; [congruence..|]. split_and!; congruence. }
  unfold ClientSession_handle_incoming_pubcomp. rewrite Hid.
  split; [|split; [|split]].
  - split; cbn [lk_client]; [|done].
    apply cs_with_inv; [auto| |done]. intros i x [_ ?]%lookup_delete_Some. auto.
  - intros i. destruct (decide (i = id)) as [->|Hne].
    + eapply phase_of; [apply (idle id (log_of id (lk_sent l)))|..];
        cbn [lk_client lk_server lk_up lk_down lk_sent lk_arrivals cs_with
          cs_unacknowledged_publishes cs_unacknowledged_pubrels]; try done.
      apply lookup_delete_eq.
    + eapply phase_frame; [exact (Hph i)|..];
        cbn [lk_client lk_server lk_up lk_down lk_sent lk_arrivals cs_with
          cs_unacknowledged_publishes cs_unacknowledged_pubrels]; try done.
      * by rewrite lookup_delete_ne.
      * by rewrite Hother.
  - done.
  - intros pk Hpk. apply Hdown. rewrite Hl. set_solver.
Qed.

Lemma step_reconnect_inv iter_publishes iter_pubrels :
  enumerates iter_publishes → enumerates iter_pubrels →
  link_inv {| lk_client := lk_client l; lk_server := lk_server l;
              lk_up := ClientSession_resend_pending_messages iter_publishes iter_pubrels (lk_client l);
              lk_down := []; lk_sent := lk_sent l; lk_arrivals := lk_arrivals l |}.
Proof.
  intros Hp Hr. destruct Hinv as ([Hc Hqos] & Hph & Hup & Hdown).
  split; [done|]. split; [|split; [|by intros pk ?%not_elem_of_nil]].
  - intros i. pose proof (about_resend _ _ (lk_client l) i Hp Hr Hc) as Hab.
    specialize (Hph i). phase_cases Hph; exists ms; (split; [done|]); unfold view_of;
      cbn [lk_client lk_server lk_up lk_down lk_sent lk_arrivals];
      change (about i []) with (@nil MqttPacket);
      rewrite Hab, <- Evp, <- Evr, <- Evrec, <- Evs, <- Evdl.
    + constructor.
    + constructor. right. eexists. split; [done|]. by eexists.
    + constructor. right. left. eexists. split; [done|]. split; [by eexists|done].
    + constructor. auto.
    + constructor. auto.
  - intros pk. cbn [lk_up]. rewrite resend_elem by done.
    intros [(id & p & Hx & _ & ->)|(id & r & _ & ->)]; simpl; [|eauto].
    destruct Hc as [Hc _]. destruct (Hc _ _ Hx) as [-> _]. eauto.
Qed.
End steps.

Lemma link_step_inv l l' : link_inv l → link_step l l' → link_inv l'.
Proof.
  intros Hinv Hstep. destruct Hstep as [l p id ? ? ? ?|l iter p up r server Hi Hl Hx|l a up Hl
    |l a down rel client Hl Hx|l a down Hl|l ip ir Hp Hr|l server Hs Hr].
  - by eapply step_publish_inv.
  - by eapply step_up_publish_inv.
  - by apply (step_up_pubrel_inv l Hinv a up).
  - by eapply step_down_pubrec_inv.
  - by apply step_down_pubcomp_inv.
  - by apply step_reconnect_inv.
  - destruct Hinv as (Hc & Hph & Hup & Hdown). split; [done|]. split; [|done].
    intros i. eapply phase_frame; [exact (Hph i)|..]; try done. cbn. by rewrite Hr.
Qed.

Lemma link_new_inv receive_maximum : link_inv (link_new receive_maximum).
Proof.
  split; [|split; [|split]].
  - split; [apply cs_new_inv|]. intros id p. cbn. by rewrite lookup_empty.
  - intros id. eapply phase_of; [apply (idle id [])|..]; try done; cbn; [by rewrite ?lookup_empty..|constructor].
  - by intros pk ?%not_elem_of_nil.
  - by intros pk ?%not_elem_of_nil.
Qed.

Lemma link_reachable_inv l l' : link_inv l → rtc link_step l l' → link_inv l'.
Proof. intros Hi Hrtc. induction Hrtc; eauto using link_step_inv. Qed.

(** ** Completion

    After a reconnection every unfinished exchange has a packet in transit, each delivery moves
    it one message further, and the handshake is finite. *)
Definition active_at (id : Z) (l : link) : Prop :=
  (cs_unacknowledged_publishes (lk_client l) !! id = None ∧
   cs_unacknowledged_pubrels (lk_client l) !! id = None) ∨
  about id (lk_up l ++ lk_down l) ≠ [].
Definition active (l : link) : Prop := ∀ id, active_at id l.

(** The messages of the handshake still to come. *)
Definition rank (pk : MqttPacket) : nat :=
  match pk with Publish5 _ => 4 | PubRec5 _ => 3 | PubRel5 _ => 2 | _ => 1 end.
Definition measure (l : link) : nat := sum_list_with rank (lk_up l ++ lk_down l).

Lemma active_frame id l l' :
  active l → active_at id l' →
  (∀ i, i ≠ id →
    cs_unacknowledged_publishes (lk_client l') !! i = cs_unacknowledged_publishes (lk_client l) !! i ∧
    cs_unacknowledged_pubrels (lk_client l') !! i = cs_unacknowledged_pubrels (lk_client l) !! i ∧
    about i (lk_up l' ++ lk_down l') = about i (lk_up l ++ lk_down l)) →
  active l'.
Proof.
  intros Ha Hid Hne i. destruct (decide (i = id)) as [->|Hi]; [done|].
  destruct (Hne i Hi) as (H1 & H2 & H3). unfold active_at. rewrite H1, H2, H3. apply Ha.
Qed.

Lemma about_move i id pk pk' l k :
  exchange_id pk = Some id → exchange_id pk' = Some id → i ≠ id →
  about i (l ++ k ++ [pk']) = about i ((pk :: l) ++ k).
Proof.
  intros H1 H2 Hi. cbn [app]. rewrite (about_cons_ne i pk) by congruence.
  rewrite !about_app, (about_cons_ne i pk') by congruence. by rewrite app_nil_r.
Qed.

Lemma about_nonempty id pk l : pk ∈ l → exchange_id pk = Some id → about id l ≠ [].
Proof.
  intros Hin Hid E. assert (pk ∈ about id l) as Hx by by apply list_elem_of_filter.
  rewrite E in Hx. by apply not_elem_of_nil in Hx.
Qed.

Lemma deliver_up l pk up :
  link_inv l → active l → lk_up l = pk :: up →
  ∃ l', link_step l l' ∧ active l' ∧ (measure l' < measure l)%nat ∧ lk_sent l' = lk_sent l.
Proof.
  intros Hinv Ha Hl. destruct (up_head l Hinv _ _ Hl) as (id & Hid & Habout & _).
  destruct Hinv as ([Hc Hqos] & Hph & _ & _).
  assert ((∃ p, pk = Publish5 p ∧ p5_qos p = 2) ∨ ∃ a, pk = PubRel5 a) as [(p & -> & Hq)|[a ->]].
  { pose proof (Hph id) as Hp. phase_cases Hp; rewrite Habout in Evu.
    - done.
    - destruct Hu as [Hu|(pk' & Hu & q & -> & Hdup)]; [congruence|]. left. exists q.
      split; [congruence|]. assert (p5_qos q = p5_qos pm) as -> by (by injection Hdup).
      eapply Hqos. by symmetry.
    - destruct Hu as [[? _]|[(pk' & Hu & (q & -> & Hdup) & _)|[? _]]]; [congruence| |congruence].
      left. exists q. split; [congruence|].
      assert (p5_qos q = p5_qos pm) as -> by (by injection Hdup). eapply Hqos. by symmetry.
    - destruct Hu as [Hu|Hu]; [congruence|]. right. exists (PacketIdAck5_new id 0 []). congruence.
    - destruct Hu as [[? _]|[[Hu _]|(? & ? & _)]]; [congruence| |congruence].
      right. exists (PacketIdAck5_new id 0 []). congruence. }
  - simpl in Hid. eexists. split.
    { eapply (do_up_publish _ map_to_list); [done|done|]. exact (incoming_publish_ok map_to_list _ p id Hid). }
    unfold ack_of. rewrite Hq. cbn [Z.eqb Pos.eqb option_list]. split_and!; [| |done].
    + eapply (active_frame id l); [done|right; cbn [lk_up lk_down]|].
      * eapply (about_nonempty _ (PubRec5 (PacketIdAck5_new id 0 []))); [set_solver|done].
      * intros i Hi. cbn [lk_client lk_up lk_down]. split_and!; [done|done|].
        rewrite Hl. by apply (about_move i id).
    + unfold measure. cbn [lk_up lk_down]. rewrite Hl, !sum_list_with_app. simpl. lia.
  - simpl in Hid. injection Hid as Hid. eexists. split; [exact (do_up_pubrel l a up Hl)|].
    cbn [ServerSession_handle_incoming_pubrel]. split_and!; [| |done].
    + eapply (active_frame id l); [done|right; cbn [lk_up lk_down]|].
      * eapply about_nonempty; [rewrite !elem_of_app; right; right; by apply list_elem_of_singleton|].
        simpl. by rewrite Hid.
      * intros i Hi. cbn [lk_client lk_up lk_down]. split_and!; [done|done|].
        rewrite Hl. apply (about_move i id); [simpl; by rewrite Hid..|done].
    + unfold measure. cbn [lk_up lk_down]. rewrite Hl, !sum_list_with_app. simpl. lia.
Qed.

Lemma deliver_down l pk down :
  link_inv l → active l → lk_up l = [] → lk_down l = pk :: down →
  ∃ l', link_step l l' ∧ active l' ∧ (measure l' < measure l)%nat ∧ lk_sent l' = lk_sent l.
Proof.
  intros Hinv Ha Hup Hl. destruct (down_head l Hinv _ _ Hl) as (id & Hid & Habout & _).
  destruct Hinv as (_ & Hph & _ & _).
  assert (pk = PubRec5 (PacketIdAck5_new id 0 []) ∨
    (∃ rc, pk = PubComp5 (PacketIdAck5_new id rc []) ∧
       cs_unacknowledged_publishes (lk_client l) !! id = None)) as [->|(rc & -> & Hp0)].
  { pose proof (Hph id) as Hp. phase_cases Hp; rewrite Habout in Evd; try done.
    - destruct Hu as [[_ ?]|[(? & _ & _ & ?)|[_ ?]]]; [congruence..|]. left. congruence.
    - destruct Hu as [[_ ?]|[[_ ?]|(rc & _ & ?)]]; [congruence..|]. right. exists rc.
      split; congruence. }
  - eexists. split; [eapply do_down_pubrec; [exact Hl|reflexivity]|].
    unfold ClientSession_handle_outgoing_pubrel. split_and!; [| |done].
    + eapply (active_frame id l); [done|right; cbn [lk_up lk_down]|].
      * eapply (about_nonempty _ (PubRel5 (PacketIdAck5_new id 0 []))); [set_solver|done].
      * intros i Hi. cbn [lk_client lk_up lk_down cs_with cs_unacknowledged_publishes
          cs_unacknowledged_pubrels a5_packet_id PacketIdAck5_new].
        rewrite lookup_delete_ne, lookup_insert_ne, Hup, Hl by done.
        split_and!; try done. cbn [app]. by rewrite !about_cons_ne by (simpl; congruence).
    + unfold measure. cbn [lk_up lk_down]. rewrite Hup, Hl. simpl. lia.
  - eexists. split; [exact (do_down_pubcomp l _ down Hl)|].
    unfold ClientSession_handle_incoming_pubcomp. split_and!; [| |done].
    + eapply (active_frame id l); [done|left; cbn; by rewrite lookup_delete_eq|].
      intros i Hi. cbn [lk_client lk_up lk_down cs_with cs_unacknowledged_publishes
        cs_unacknowledged_pubrels a5_packet_id PacketIdAck5_new].
      rewrite lookup_delete_ne, Hup, Hl by done. split_and!; try done.
      cbn [app]. by rewrite about_cons_ne by (simpl; congruence).
    + unfold measure. cbn [lk_up lk_down]. rewrite Hup, Hl. simpl. lia.
Qed.

Lemma drain_link l :
  link_inv l → active l →
  ∃ l', rtc link_step l l' ∧ link_inv l' ∧ active l' ∧ lk_up l' = [] ∧ lk_down l' = [] ∧
    lk_sent l' = lk_sent l.
Proof.
  remember (measure l) as n eqn:Hn. revert l Hn.
  induction n as [n IH] using lt_wf_ind. intros l -> Hinv Ha.
  assert ((lk_up l = [] ∧ lk_down l = []) ∨
    ∃ l', link_step l l' ∧ active l' ∧ (measure l' < measure l)%nat ∧ lk_sent l' = lk_sent l)
    as [[Hu Hd]|(l1 & Hs & Ha1 & Hm & Hsent)].
  { destruct (lk_up l) as [|pk up] eqn:Eu; [|right; by eapply deliver_up].
    destruct (lk_down l) as [|pk down] eqn:Ed; [by left|]. right. by eapply deliver_down. }
  - by exists l.
  - destruct (IH (measure l1) Hm l1 eq_refl) as (l' & Hrtc & Hi & Ha' & Hu & Hd & Hsent'); [|done|].
    { by eapply link_step_inv. }
    exists l'. split_and!; try done; [by eapply rtc_l|congruence].
Qed.

(** ** Theorems *)

(** C3: exactly once.  Whatever the application publishes, however often the connection is lost
    and whatever the server does in between: what the arrivals under an identifier delivered
    (one copy queued for each matching subscription and the retained message updated for the
    first copy of a message; queue and retained messages untouched for every other copy) are
    the messages the client submitted under it, in order and none twice, except possibly the
    last one, which the client still holds; once the client has no open exchange under the
    identifier there is no exception. *)
Theorem qos2_exactly_once receive_maximum l id :
  rtc link_step (link_new receive_maximum) l →
  ∃ ms, delivers (arrivals_of id (lk_arrivals l)) ms ∧
  (ms = log_of id (lk_sent l) ∨
   ∃ p, cs_unacknowledged_publishes (lk_client l) !! id = Some p ∧
        log_of id (lk_sent l) = ms ++ [with_dup p]) ∧
  (cs_unacknowledged_publishes (lk_client l) !! id = None → ms = log_of id (lk_sent l)).
Proof.
  intros Hrtc. pose proof (link_reachable_inv _ _ (link_new_inv receive_maximum) Hrtc) as (_ & Hph & _).
  specialize (Hph id). phase_cases Hph; exists ms; (split; [done|]); rewrite <- Evs, <- Evp; naive_solver.
Qed.

(** A run with a loss: the server has a subscription for the topic, the message is published
    and arrives, the connection is lost before the PUBREC is read, and the copy the client
    resends arrives too. *)
Definition sample_subscribe : MqttSubscribe5 :=
  {| s5_packet_id := 1; s5_properties := [];
     s5_subscriptions := [{| ts_topic_filter := str "a"; ts_qos := 1; ts_no_local := false;
                             ts_retain_as_published := false; ts_retain_handling := 0 |}] |}.
Definition subscribed_server : ServerSession :=
  ServerSession_handle_incoming_subscribe map_to_list (ServerSession_new 5) sample_subscribe.
Definition received_server : ServerSession :=
  match ServerSession_handle_incoming_publish map_to_list subscribed_server sample_qos2 with
  | Ok (_, server) => server
  | _ => subscribed_server
  end.
Definition sample_client : ClientSession :=
  ClientSession_handle_outgoing_publish ClientSession_new sample_qos2.

(** The link when the message has been published but has not arrived. *)
Definition sample_link : link :=
  {| lk_client := sample_client; lk_server := subscribed_server; lk_up := [Publish5 sample_qos2];
     lk_down := []; lk_sent := [sample_qos2]; lk_arrivals := [] |}.

(** The link when both copies have arrived. *)
Definition resent_link : link :=
  {| lk_client := sample_client; lk_server := received_server; lk_up := [];
     lk_down := [PubRec5 (PacketIdAck5_new 3 0 [])]; lk_sent := [sample_qos2];
     lk_arrivals := [{| ar_publish := sample_qos2; ar_before := subscribed_server;
                        ar_after := received_server |};
                     {| ar_publish := with_dup sample_qos2; ar_before := received_server;
                        ar_after := received_server |}] |}.

Lemma sample_link_reachable : rtc link_step (link_new 5) sample_link.
Proof.
  eapply rtc_l; [apply (do_server (link_new 5) subscribed_server); [apply step_subscribe|reflexivity]|].
  apply rtc_once. match goal with |- link_step ?l _ =>
    exact (do_publish l sample_qos2 3 eq_refl eq_refl eq_refl eq_refl) end.
Qed.

Lemma resent_link_reachable : rtc link_step (link_new 5) resent_link.
Proof.
  etrans; [exact sample_link_reachable|].
  assert (∀ K `{Countable K} V, ∀ m : gmap K V, map_to_list m ≡ₚ map_to_list m) as Hen by done.
  eapply rtc_l; [eapply (do_up_publish _ map_to_list _ [] (Some (PubRec5 (PacketIdAck5_new 3 0 [])))
    received_server); [apply Hen|reflexivity|vm_compute; reflexivity]|].
  eapply rtc_l; [apply (do_reconnect _ map_to_list map_to_list); intros m; apply Hen|].
  apply rtc_once. match goal with |- link_step ?l _ =>
    refine (do_up_publish l map_to_list (with_dup sample_qos2) []
      (Some (PubRec5 (PacketIdAck5_new 3 0 []))) received_server _ _ _) end;
    [apply Hen|vm_compute; reflexivity..].
Qed.

Lemma qos2_exactly_once_witness :
  ∃ ms, delivers (lk_arrivals resent_link) ms ∧
    (ms = [with_dup sample_qos2] ∨ [with_dup sample_qos2] = ms ++ [with_dup sample_qos2]) ∧
    length (lk_arrivals resent_link) = 2%nat ∧
    length (ss_pending_publishes (lk_server resent_link)) = 1%nat.
Proof.
  destruct (qos2_exactly_once 5 resent_link 3 resent_link_reachable) as (ms & Hd & Hm & _).
  exists ms. split; [exact Hd|]. split; [|split; vm_compute; reflexivity].
  destruct Hm as [Hm|(p & Hp & Hm)]; [left; exact Hm|right].
  injection Hp as <-. exact Hm.
Defined.

(** C37: no exchange is stuck.  From every state the system can reach, a reconnection and the
    delivery of what is then in transit complete every exchange: all submitted messages have
    been forwarded exactly once and the client holds nothing any more. *)
Theorem qos2_completion receive_maximum l :
  rtc link_step (link_new receive_maximum) l →
  ∃ l', rtc link_step l l' ∧ lk_sent l' = lk_sent l ∧ lk_up l' = [] ∧ lk_down l' = [] ∧
    ∀ id, delivers (arrivals_of id (lk_arrivals l')) (log_of id (lk_sent l)) ∧
      cs_unacknowledged_publishes (lk_client l') !! id = None ∧
      cs_unacknowledged_pubrels (lk_client l') !! id = None.
Proof.
  intros Hrtc. pose proof (link_reachable_inv _ _ (link_new_inv receive_maximum) Hrtc) as Hinv.
  assert (∀ V, enumerates (V:=V) map_to_list) as Hen by (intros V m; reflexivity).
  set (l1 := {| lk_client := lk_client l; lk_server := lk_server l;
    lk_up := ClientSession_resend_pending_messages map_to_list map_to_list (lk_client l);
    lk_down := []; lk_sent := lk_sent l; lk_arrivals := lk_arrivals l |}).
  assert (link_step l l1) as Hstep by (by apply do_reconnect).
  destruct (drain_link l1) as (l' & Hr & Hi & Ha & Hup' & Hdown' & Hs).
  { by eapply link_step_inv. }
  { intros id. unfold active_at. cbn [l1 lk_client lk_up lk_down]. rewrite app_nil_r.
    rewrite about_resend by (try apply Hen; apply Hinv).
    destruct (cs_unacknowledged_pubrels (lk_client l) !! id), (cs_unacknowledged_publishes (lk_client l) !! id);
      auto. }
  exists l'. split_and!; [by eapply rtc_l|done|done|done|].
  intros id. destruct (Ha id) as [[H1 H2]|Hne].
  - split; [|done]. destruct Hi as (_ & Hph & _). specialize (Hph id).
    phase_cases Hph; rewrite H1 in Evp; try done; cbn [l1 lk_sent] in Hs; congruence.
  - by rewrite Hup', Hdown' in Hne.
Qed.

Lemma qos2_completion_witness :
  ∃ l', rtc link_step resent_link l' ∧
    delivers (arrivals_of 3 (lk_arrivals l')) [with_dup sample_qos2].
Proof.
  destruct (qos2_completion 5 resent_link resent_link_reachable) as (l' & H & _ & _ & _ & Hid).
  exists l'. split; [exact H|]. exact (proj1 (Hid 3)).
Defined.
