(* ===== verification/EngineState.v ===== *)
(** * The state of the protocol engine

    Models the data of [src/mqtt_client/engine.rs] and [engine/protocol_state.rs]: the events,
    [ReceiveStage], [ProtocolState] and [MqttEngine] with their constructors, and the printed
    forms of errors and enumerations the engine puts into its events.  The engine is generic in
    the clock ([TimePoint]).  What the standard library leaves open, the iteration order of hash
    maps and the text of its own errors, is the class [Runtime]. *)
From S2P Require Import Prelude BaseData TopicFilter Validation Properties Packets Framing Codec.
From S2P Require Import Stream Leveled Time PriorityQueue ClientError Options ClientTypes.
From S2P Require Import Commands Inflight ClientSession.

(** ** Events *)
Inductive OperationKind : Type := OpConnect | OpPublish | OpSubscribe | OpUnsubscribe.

#[export] Instance OperationKind_eq_dec : EqDecision OperationKind.
Proof. solve_decision. Defined.
#[export] Instance OperationKind_countable : Countable OperationKind.
Proof.
  refine (inj_countable'
    (λ k, match k with OpConnect => 0 | OpPublish => 1 | OpSubscribe => 2 | OpUnsubscribe => 3 end)
    (λ n, match n with 0 => OpConnect | 1 => OpPublish | 2 => OpSubscribe | _ => OpUnsubscribe end)
    _).
  by intros [].
Defined.

Inductive QuicZeroRttStatus : Type := Disabled | Unavailable | Attempted | Accepted | Rejected.

Inductive MqttEvent : Type :=
  | OperationFailed (operation : OperationKind) (packet_id : option Z) (error : MqttClientError)
  | Connected (result : ConnectionResult)
  | AuthReceived (result : AuthResult)
  | Disconnected (reason : option Z)
  | DisconnectReceived (reason_code : Z) (properties : list Property)
  | Published (result : PublishResult)
  | Subscribed (result : SubscribeResult)
  | Unsubscribed (result : UnsubscribeResult)
  | PublishReceived (packet_id : option Z) (stream : option Z)
  | MessageReceived (message : MqttPublish5)
  | PubRelReceived (packet_id : Z) (stream : option Z)
  | PingResponse (result : PingResult)
  | ErrorEvent (error : MqttClientError)
  | TransportClosed (reason : string) (by_peer : bool) (error_code : option Z)
  | StreamClosed (stream_id : Z) (reason : string) (by_peer : bool)
  | StreamReset (stream_id error_code : Z)
  | StreamStopped (stream_id error_code : Z)
  | ReconnectNeeded
  | ReconnectScheduled (attempt delay : Z)
  | ZeroRttStatusChanged (status : QuicZeroRttStatus).

(** ** Printed forms: [Display] of [ParseError], [Debug] of the enumerations *)
Definition OperationKind_debug (k : OperationKind) : string :=
  match k with
  | OpConnect => "Connect" | OpPublish => "Publish" | OpSubscribe => "Subscribe"
  | OpUnsubscribe => "Unsubscribe"
  end.

Definition ControlPacketType_debug (t : ControlPacketType) : string :=
  match t with
  | CONNECT => "CONNECT" | CONNACK => "CONNACK" | PUBLISH => "PUBLISH" | PUBACK => "PUBACK"
  | PUBREC => "PUBREC" | PUBREL => "PUBREL" | PUBCOMP => "PUBCOMP" | SUBSCRIBE => "SUBSCRIBE"
  | SUBACK => "SUBACK" | UNSUBSCRIBE => "UNSUBSCRIBE" | UNSUBACK => "UNSUBACK"
  | PINGREQ => "PINGREQ" | PINGRESP => "PINGRESP" | DISCONNECT => "DISCONNECT" | AUTH => "AUTH"
  end.

Definition ParseLevel_debug (l : ParseLevel) : string :=
  match l with
  | Full => "Full" | HeadersParsed => "HeadersParsed" | RawBody => "RawBody"
  | TypeOnly => "TypeOnly"
  end.

(** [core::str::Utf8Error]'s [Display]. *)
Definition Utf8Error_to_string (valid_up_to : Z) (error_len : option Z) : string :=
  match error_len with
  | Some n => "invalid utf-8 sequence of " +:+ pretty n +:+ " bytes from index " +:+
              pretty valid_up_to
  | None => "incomplete utf-8 byte sequence from index " +:+ pretty valid_up_to
  end.

(** ** Protocol state *)
Inductive ReceiveStage : Type := RsPublish (qos : Z) | RsPubRec | RsPubRel.

#[export] Instance ReceiveStage_eq_dec : EqDecision ReceiveStage.
Proof. solve_decision. Defined.

(** An incoming exchange: the logical channel and the packet identifier. *)
Abbreviation ReceivedKey := (option Z * Z)%type.
(** A pending operation, and its deadline with the configured duration. *)
Abbreviation DeadlineKey := (OperationKind * option Z)%type.

Class Runtime (T : Type) : Type := {
  io_error_text : string;
  from_utf8_error_text : string;
  iter_deadlines : gmap DeadlineKey (T * Z) → list (DeadlineKey * (T * Z));
  iter_unbound : gset ReceivedKey → list ReceivedKey;
}.

Class RuntimeLaws (T : Type) `{Runtime T} : Prop := {
  iter_deadlines_perm m : iter_deadlines m ≡ₚ map_to_list m;
  iter_unbound_perm s : iter_unbound s ≡ₚ elements s;
}.

Definition ParseError_to_string {T} `{Runtime T} (e : ParseError) : string :=
  match e with
  | More hint msg => "More data needed (" +:+ pretty hint +:+ " bytes): " +:+ msg
  | IoError => "IO Error: " +:+ io_error_text
  | ParseErr msg => "Parse Error: " +:+ msg
  | IncompleteProperty => "Incomplete Property"
  | Utf8Error v l => "UTF-8 Error: " +:+ Utf8Error_to_string v l
  | FromUtf8Error => "From UTF-8 Error: " +:+ from_utf8_error_text
  | StringTooLong => "String Too Long"
  | BufferTooShort => "Buffer Too Short"
  | BufferEmpty => "Buffer is Empty"
  | InvalidLength => "Invalid Length"
  | InvalidPropertyId => "Invalid Property ID"
  | InvalidPacketType => "Invalid Packet Type"
  | UnSuppProtoVsn => "Unsupported Protocol Version"
  | InternalError msg => "Internal Error: " +:+ msg
  | InvalidVariableByteInteger => "Invalid Variable Byte Integer"
  end.

Definition from_parse_error {T} `{Runtime T} (e : ParseError) : MqttClientError :=
  PacketParsing (ParseError_to_string e) [].

(** [r.map_err(MqttClientError::from)] *)
Definition map_parse_error {T} `{Runtime T} {A} (r : res A) : result MqttClientError A :=
  match r with Ok a => Ok a | Err e => Err (from_parse_error e) | Panic => Panic end.

Record ProtocolState (T : Type) : Type := {
  ps_reserved : gset Z;
  ps_received : gmap ReceivedKey ReceiveStage;
  ps_received_unbound : gset ReceivedKey;
  ps_received_on_connection : gset ReceivedKey;
  ps_incoming_quota_used : Z;
  ps_incoming_aliases : gmap Z bytes;
  ps_outgoing_aliases : gmap Z bytes;
  ps_incoming_alias_maximum : Z;
  ps_outgoing_alias_maximum : Z;
  ps_incoming_receive_maximum : Z;
  ps_maximum_packet_size : option Z;
  ps_maximum_qos : Z;
  ps_retain_available : bool;
  ps_wildcard_available : bool;
  ps_shared_available : bool;
  ps_subscription_ids_available : bool;
  ps_keep_alive : Z;
  ps_session_expiry : Z;
  ps_has_session : bool;
  ps_connecting : bool;
  ps_input_closed : bool;
  ps_reauthenticating : bool;
  ps_queued_bytes : Z;
  ps_control_reserve : Z;
  ps_replay_reserve : Z;
  ps_responses : list MqttPacket;
  ps_deadlines : gmap DeadlineKey (T * Z);
}.
Arguments ps_reserved {_} _.
Arguments ps_received {_} _.
Arguments ps_received_unbound {_} _.
Arguments ps_received_on_connection {_} _.
Arguments ps_incoming_quota_used {_} _.
Arguments ps_incoming_aliases {_} _.
Arguments ps_outgoing_aliases {_} _.
Arguments ps_incoming_alias_maximum {_} _.
Arguments ps_outgoing_alias_maximum {_} _.
Arguments ps_incoming_receive_maximum {_} _.
Arguments ps_maximum_packet_size {_} _.
Arguments ps_maximum_qos {_} _.
Arguments ps_retain_available {_} _.
Arguments ps_wildcard_available {_} _.
Arguments ps_shared_available {_} _.
Arguments ps_subscription_ids_available {_} _.
Arguments ps_keep_alive {_} _.
Arguments ps_session_expiry {_} _.
Arguments ps_has_session {_} _.
Arguments ps_connecting {_} _.
Arguments ps_input_closed {_} _.
Arguments ps_reauthenticating {_} _.
Arguments ps_queued_bytes {_} _.
Arguments ps_control_reserve {_} _.
Arguments ps_replay_reserve {_} _.
Arguments ps_responses {_} _.
Arguments ps_deadlines {_} _.

#[export] Instance Rebuild_ProtocolState T : Rebuild (ProtocolState T) := λ s, {|
  ps_reserved := ps_reserved s; ps_received := ps_received s;
  ps_received_unbound := ps_received_unbound s;
  ps_received_on_connection := ps_received_on_connection s;
  ps_incoming_quota_used := ps_incoming_quota_used s;
  ps_incoming_aliases := ps_incoming_aliases s; ps_outgoing_aliases := ps_outgoing_aliases s;
  ps_incoming_alias_maximum := ps_incoming_alias_maximum s;
  ps_outgoing_alias_maximum := ps_outgoing_alias_maximum s;
  ps_incoming_receive_maximum := ps_incoming_receive_maximum s;
  ps_maximum_packet_size := ps_maximum_packet_size s; ps_maximum_qos := ps_maximum_qos s;
  ps_retain_available := ps_retain_available s; ps_wildcard_available := ps_wildcard_available s;
  ps_shared_available := ps_shared_available s;
  ps_subscription_ids_available := ps_subscription_ids_available s;
  ps_keep_alive := ps_keep_alive s; ps_session_expiry := ps_session_expiry s;
  ps_has_session := ps_has_session s; ps_connecting := ps_connecting s;
  ps_input_closed := ps_input_closed s; ps_reauthenticating := ps_reauthenticating s;
  ps_queued_bytes := ps_queued_bytes s; ps_control_reserve := ps_control_reserve s;
  ps_replay_reserve := ps_replay_reserve s; ps_responses := ps_responses s;
  ps_deadlines := ps_deadlines s;
|}.

Definition ProtocolState_new {T} (keep_alive : Z) : ProtocolState T := {|
  ps_reserved := ∅;
  ps_received := ∅;
  ps_received_unbound := ∅;
  ps_received_on_connection := ∅;
  ps_incoming_quota_used := 0;
  ps_incoming_aliases := ∅;
  ps_outgoing_aliases := ∅;
  ps_incoming_alias_maximum := 0;
  ps_outgoing_alias_maximum := 0;
  ps_incoming_receive_maximum := u16_MAX;
  ps_maximum_packet_size := None;
  ps_maximum_qos := 2;
  ps_retain_available := true;
  ps_wildcard_available := true;
  ps_shared_available := true;
  ps_subscription_ids_available := true;
  ps_keep_alive := keep_alive;
  ps_session_expiry := 0;
  ps_has_session := false;
  ps_connecting := false;
  ps_input_closed := false;
  ps_reauthenticating := false;
  ps_queued_bytes := 0;
  ps_control_reserve := 6;
  ps_replay_reserve := 0;
  ps_responses := [];
  ps_deadlines := ∅;
|}.

(** ** The engine *)
Record MqttEngine (T : Type) : Type := {
  me_now : T;
  me_state : ProtocolState T;
  me_options : MqttClientOptions;
  me_session : option ClientSession;
  me_priority_queue : PriorityQueue (P:=Z) (T:=MqttPacket);
  me_is_connected : bool;
  me_last_packet_sent : T;
  me_last_packet_received : T;
  me_ping_sent_at : option T;
  me_parser : MqttParser;
  me_outgoing_buffer : list bytes;
  me_stream_retransmissions : list (Z * bytes);
  me_inflight_queue : InflightQueue T;
  me_previous_inflight : list (Z * MqttPacket);
  me_transport_manages_session : bool;
  me_session_replay : list (Z * MqttPacket);
  me_configured_subscriptions_pending : bool;
  me_events : list MqttEvent;
  me_reconnect_attempts : Z;
  me_next_reconnect_at : option T;
  me_reconnect_base_delay : Z;
  me_reconnect_max_delay : Z;
  me_max_reconnect_attempts : Z;
}.
Arguments me_now {_} _.
Arguments me_state {_} _.
Arguments me_options {_} _.
Arguments me_session {_} _.
Arguments me_priority_queue {_} _.
Arguments me_is_connected {_} _.
Arguments me_last_packet_sent {_} _.
Arguments me_last_packet_received {_} _.
Arguments me_ping_sent_at {_} _.
Arguments me_parser {_} _.
Arguments me_outgoing_buffer {_} _.
Arguments me_stream_retransmissions {_} _.
Arguments me_inflight_queue {_} _.
Arguments me_previous_inflight {_} _.
Arguments me_transport_manages_session {_} _.
Arguments me_session_replay {_} _.
Arguments me_configured_subscriptions_pending {_} _.
Arguments me_events {_} _.
Arguments me_reconnect_attempts {_} _.
Arguments me_next_reconnect_at {_} _.
Arguments me_reconnect_base_delay {_} _.
Arguments me_reconnect_max_delay {_} _.
Arguments me_max_reconnect_attempts {_} _.

#[export] Instance Rebuild_MqttEngine T : Rebuild (MqttEngine T) := λ e, {|
  me_now := me_now e; me_state := me_state e; me_options := me_options e;
  me_session := me_session e; me_priority_queue := me_priority_queue e;
  me_is_connected := me_is_connected e; me_last_packet_sent := me_last_packet_sent e;
  me_last_packet_received := me_last_packet_received e; me_ping_sent_at := me_ping_sent_at e;
  me_parser := me_parser e; me_outgoing_buffer := me_outgoing_buffer e;
  me_stream_retransmissions := me_stream_retransmissions e;
  me_inflight_queue := me_inflight_queue e; me_previous_inflight := me_previous_inflight e;
  me_transport_manages_session := me_transport_manages_session e;
  me_session_replay := me_session_replay e;
  me_configured_subscriptions_pending := me_configured_subscriptions_pending e;
  me_events := me_events e; me_reconnect_attempts := me_reconnect_attempts e;
  me_next_reconnect_at := me_next_reconnect_at e;
  me_reconnect_base_delay := me_reconnect_base_delay e;
  me_reconnect_max_delay := me_reconnect_max_delay e;
  me_max_reconnect_attempts := me_max_reconnect_attempts e;
|}.

Definition MqttEngine_new_at {T} (options : MqttClientOptions) (now : T) : MqttEngine T :=
  let parser := MqttParser_new (mo_parser_buffer_size options) (mo_mqtt_version options) in
  let retransmission_timeout := Duration_from_millis (mo_retransmission_timeout_ms options) in
  {| me_now := now;
     me_state := ProtocolState_new (mo_keep_alive options);
     me_inflight_queue := InflightQueue_new (mo_receive_maximum options)
                            (mo_mqtt_version options) retransmission_timeout;
     me_session := None;
     me_previous_inflight := [];
     me_transport_manages_session := false;
     me_session_replay := [];
     me_configured_subscriptions_pending := false;
     me_priority_queue := PriorityQueue_new (mo_max_outgoing_packet_count options);
     me_is_connected := false;
     me_last_packet_sent := now;
     me_last_packet_received := now;
     me_ping_sent_at := None;
     me_parser := parser;
     me_outgoing_buffer := [];
     me_stream_retransmissions := [];
     me_events := [];
     me_reconnect_attempts := 0;
     me_next_reconnect_at := None;
     me_reconnect_base_delay := Duration_from_millis (mo_reconnect_base_delay_ms options);
     me_reconnect_max_delay := Duration_from_millis (mo_reconnect_max_delay_ms options);
     me_max_reconnect_attempts := mo_max_reconnect_attempts options;
     me_options := options |}.

(** The concrete runtime of the examples: maps are read in key order. *)
Definition Runtime_ordered T : Runtime T := {|
  io_error_text := "io error";
  from_utf8_error_text := "invalid utf-8";
  iter_deadlines m := map_to_list m;
  iter_unbound s := elements s;
|}.
Lemma RuntimeLaws_ordered T : @RuntimeLaws T (Runtime_ordered T).
Proof. by split. Qed.
