(* ===== verification/EngineCore.v ===== *)
(** * The engine: connection state, identifiers and output

    Models the internal half of [src/mqtt_client/engine.rs], [engine/protocol_state.rs] and
    [engine/explicit.rs]: time, deadlines, loss of the connection and reconnection, packet
    identifiers, the checks against what the broker supports, the output buffer, and the three
    queues that feed it (protocol responses, session replay, application messages).  Methods
    with [&self] are functions of the engine, methods with [&mut self] computations in
    [St (MqttEngine T)].  A loop takes a fuel; running out of it is a [Panic], so that the
    absence of panics includes termination. *)
From S2P Require Import Prelude BaseData TopicFilter Validation Properties Packets Framing Codec.
From S2P Require Import Stream Leveled Time PriorityQueue ClientError Options ClientTypes.
From S2P Require Import Commands Inflight ClientSession EngineState.

(** [fn invalid] *)
Definition invalid (field reason : string) : MqttClientError := InvalidConfiguration field reason.

(** [usize::saturating_add] *)
Definition usize_saturating_add (a b : Z) : Z := Z.min u64_MAX (a + b).

(** [iter.find_map(f)] *)
Definition find_map {A B} (f : A → option B) (l : list A) : option B := head (omap f l).

(** [for x in l { f(x) }] *)
Fixpoint for_each_st {S A} (l : list A) (f : A → St S ()) : St S () :=
  match l with
  | [] => mret ()
  | x :: l => f x;; for_each_st l f
  end.

Definition authentication_method (p : Property) : option bytes :=
  match p with AuthenticationMethod m => Some m | _ => None end.
Definition topic_alias (p : Property) : option Z :=
  match p with TopicAlias v => Some v | _ => None end.

(** [properties.retain(|p| !matches!(p, Property::TopicAlias(_)))] on a PUBLISH *)
Definition strip_alias (packet : MqttPacket) : MqttPacket :=
  match packet with
  | Publish5 p =>
      Publish5 {| p5_topic_name := p5_topic_name p; p5_qos := p5_qos p; p5_dup := p5_dup p;
                  p5_retain := p5_retain p; p5_packet_id := p5_packet_id p;
                  p5_payload := p5_payload p;
                  p5_properties := List.filter (λ x, negb (is_TopicAlias x)) (p5_properties p) |}
  | _ => packet
  end.

Section EngineCore.
Context {T : Type} `{TimePoint T, !Runtime T}.
Implicit Types (self e : MqttEngine T) (now : T).
Local Abbreviation M := (St (MqttEngine T)).

(** Assignments to the protocol state, and [self.events.push(..)]. *)
Definition on_state (f : ProtocolState T → ProtocolState T) : M () :=
  modify (λ e, e <| me_state ::= f |>).
Definition push_event (event : MqttEvent) : M () :=
  modify (λ e, e <| me_events ::= λ l, l ++ [event] |>).
Definition extend_events (events : list MqttEvent) : M () :=
  modify (λ e, e <| me_events ::= λ l, l ++ events |>).

Definition take_events : M (list MqttEvent) :=
  e ← get_st; modify (λ e, e <| me_events := [] |>);; mret (me_events e).

(** ** Time *)

(** [Duration * u32], which panics when the seconds overflow a [u64]. *)
Definition Duration_mul (d n : Z) : panics Z :=
  if d * n <=? (u64_MAX + 1) * 1000000000 - 1 then Ok (d * n) else Panic.

Definition horizon (options : MqttClientOptions) : panics (list Z) :=
  keepalive ← Duration_mul (Duration_from_secs u16_MAX)
                (Z.max (mo_ping_timeout_multiplier options) 1);
  let timeouts := mo_operation_timeouts options in
  Ok ([keepalive; Duration_from_millis (mo_retransmission_timeout_ms options);
       Duration_from_millis (mo_reconnect_base_delay_ms options);
       Duration_from_millis (mo_reconnect_max_delay_ms options)]
      ++ omap id [ot_connect timeouts; ot_publish timeouts; ot_subscribe timeouts;
                  ot_unsubscribe timeouts]).

Definition clock_error (reason : string) : MqttClientError :=
  InvalidConfiguration "monotonic_time" reason.

Definition check_time_range (options : MqttClientOptions) now : result MqttClientError () :=
  match horizon options with
  | Ok durations =>
      if existsb (λ d, negb (bool_decide (is_Some (tp_checked_add now d)))) durations
      then Err (clock_error "timestamp cannot represent the configured deadline horizon")
      else Ok ()
  | _ => Panic
  end.

Definition begin_update now : M (MqttClientError + ()) :=
  e ← get_st;
  if ord_lt now (me_now e) then err (clock_error "timestamp moved backwards") else
  _ ←? try (check_time_range (me_options e) now);
  modify (λ e, e <| me_now := now |>);;
  ok ().

Definition deadline_from (start : T) (duration : Z) : panics T :=
  unwrap (tp_checked_add start duration).

(** ** Deadlines of operations *)
Definition start_deadline (operation : OperationKind) (id : option Z) : M () :=
  e ← get_st;
  let timeouts := mo_operation_timeouts (me_options e) in
  let duration := match operation with
                  | OpConnect => ot_connect timeouts
                  | OpPublish => ot_publish timeouts
                  | OpSubscribe => ot_subscribe timeouts
                  | OpUnsubscribe => ot_unsubscribe timeouts
                  end in
  match duration with
  | Some duration =>
      at_ ← lift (deadline_from (me_now e) duration);
      on_state (λ s, s <| ps_deadlines ::= <[(operation, id) := (at_, duration)]> |>)
  | None => mret ()
  end.

Definition finish_operation (id : Z) : M () :=
  on_state (λ s, s <| ps_reserved ::= λ r, r ∖ {[id]} |>);;
  e ← get_st;
  (if bool_decide (ps_reserved (me_state e) = ∅)
   then on_state (λ s, s <| ps_replay_reserve := 0 |>) else mret ());;
  on_state (λ s, s <| ps_deadlines ::= filter (λ d, d.1.2 ≠ Some id) |>).

Definition operation_of (packet : MqttPacket) : OperationKind :=
  match packet with
  | Subscribe3 _ | Subscribe5 _ => OpSubscribe
  | Unsubscribe3 _ | Unsubscribe5 _ => OpUnsubscribe
  | _ => OpPublish
  end.

(** [self.inflight_queue.acknowledge(id)] *)
Definition acknowledge (id : Z) : M (option (InflightEntry T)) :=
  e ← get_st;
  let '(entry, queue) := InflightQueue_acknowledge (me_inflight_queue e) id in
  modify (λ e, e <| me_inflight_queue := queue |>);;
  mret entry.

Definition fail_operation (id : Z) (packet : MqttPacket) (error : MqttClientError) : M () :=
  acknowledge id;;
  finish_operation id;;
  push_event (OperationFailed (operation_of packet) (Some id) error).

(** ** Loss of the connection *)
Definition close_input : M () :=
  modify (λ e, e <| me_is_connected := false |>);;
  on_state (λ s, s <| ps_connecting := false |> <| ps_input_closed := true |>
                   <| ps_reauthenticating := false |> <| ps_responses := [] |>
                   <| ps_deadlines := ∅ |> <| ps_received_on_connection := ∅ |>
                   <| ps_incoming_quota_used := 0 |>);;
  e ← get_st;
  parser ← expect (MqttParser_buffer_mut (me_parser e));
  modify (λ e, e <| me_parser := with_buffer parser [] (mp_read_offset parser) |>
                 <| me_ping_sent_at := None |>).

(** The encoded length of the queued packets; each [to_bytes().expect(..)] may panic. *)
Fixpoint encoded_bytes (packets : list MqttPacket) : panics Z :=
  match packets with
  | [] => Ok 0
  | packet :: packets =>
      match MqttPacket_to_bytes packet with
      | Ok bytes => rest ← encoded_bytes packets; Ok (zlen bytes + rest)
      | _ => Panic
      end
  end.

Definition reset_for_new_transport_inner : M () :=
  close_input;;
  modify (λ e, e <| me_outgoing_buffer := [] |> <| me_configured_subscriptions_pending := false |>
                 <| me_stream_retransmissions := [] |>
                 <| me_inflight_queue ::= λ q, InflightQueue_update_receive_maximum q
                                                 (mo_receive_maximum (me_options e)) |>);;
  on_state (λ s, s <| ps_incoming_aliases := ∅ |> <| ps_outgoing_aliases := ∅ |>);;
  modify (λ e, e <| me_priority_queue ::= PriorityQueue_iter_mut strip_alias |>);;
  e ← get_st;
  queued_bytes ← lift (encoded_bytes (PriorityQueue_iter (me_priority_queue e)).*2);
  on_state (λ s, s <| ps_queued_bytes := queued_bytes |> <| ps_outgoing_alias_maximum := 0 |>
                   <| ps_maximum_packet_size := None |> <| ps_maximum_qos := 2 |>
                   <| ps_retain_available := true |> <| ps_wildcard_available := true |>
                   <| ps_shared_available := true |> <| ps_subscription_ids_available := true |>
                   <| ps_keep_alive := mo_keep_alive (me_options e) |>
                   <| ps_received ::= filter (λ r, r.2 ≠ RsPublish 1) |>);;
  on_state (λ s, s <| ps_received_unbound := dom (ps_received s) |>);;
  (if mo_sessionless (me_options e) then
     on_state (λ s, s <| ps_has_session := false |>);;
     e ← get_st;
     for_each_st (InflightQueue_snapshot_for_reconnect (me_inflight_queue e))
       (λ '(id, packet), fail_operation id packet SessionExpired);;
     e ← get_st;
     modify (λ e, e <| me_session_replay := [] |>);;
     for_each_st (me_session_replay e)
       (λ '(id, packet), fail_operation id packet SessionExpired);;
     on_state (λ s, s <| ps_received := ∅ |> <| ps_received_unbound := ∅ |>)
   else mret ());;
  modify (λ e, e <| me_parser := MqttParser_new (mo_parser_buffer_size (me_options e))
                                   (mo_mqtt_version (me_options e)) |>
                 <| me_next_reconnect_at := None |>
                 <| me_last_packet_sent := me_now e |> <| me_last_packet_received := me_now e |>
                 <| me_ping_sent_at := None |>).

(** [Duration::as_millis] *)
Definition Duration_as_millis (d : Z) : Z := d / 1000000.
Definition u128_saturating_mul (a b : Z) : Z := Z.min (2 ^ 128 - 1) (a * b).

Definition schedule_reconnect_inner now : M () :=
  e ← get_st;
  if bool_decide (is_Some (me_next_reconnect_at e)) then mret () else
  if (0 <? me_max_reconnect_attempts e)
     && (me_max_reconnect_attempts e <=? me_reconnect_attempts e)
  then modify (λ e, e <| me_next_reconnect_at := None |>) else
  let exponent := Z.min (me_reconnect_attempts e) 10 in
  let multiplier := Z.shiftl 1 exponent in
  let delay_ms := u128_saturating_mul (Duration_as_millis (me_reconnect_base_delay e)) multiplier in
  let delay_ms := Z.min delay_ms (Duration_as_millis (me_reconnect_max_delay e)) in
  let delay := Duration_from_millis (delay_ms mod (u64_MAX + 1)) in
  at_ ← lift (deadline_from now delay);
  modify (λ e, e <| me_next_reconnect_at := Some at_ |>);;
  (if me_reconnect_attempts e =? u32_MAX then panic
   else modify (λ e, e <| me_reconnect_attempts ::= λ n, n + 1 |>));;
  e ← get_st;
  push_event (ReconnectScheduled (me_reconnect_attempts e) delay).

Definition reset_reconnect_state : M () :=
  modify (λ e, e <| me_reconnect_attempts := 0 |> <| me_next_reconnect_at := None |>).

Definition connection_lost_at now : M () :=
  e ← get_st;
  let scheduled := me_next_reconnect_at e in
  reset_for_new_transport_inner;;
  modify (λ e, e <| me_next_reconnect_at := scheduled |>);;
  if mo_reconnect (me_options e) then schedule_reconnect_inner now else mret ().

Definition handle_connection_lost_inner : M () :=
  e ← get_st; connection_lost_at (me_now e).

Definition fail_connection (error : MqttClientError) : M () :=
  e ← get_st;
  connection_lost_at (me_now e);;
  push_event (ErrorEvent error);;
  push_event (Disconnected None).

Definition check_deadlines now : M () :=
  e ← get_st;
  let expired := List.filter (λ '(_, (at_, _)), ord_le at_ now)
                   (iter_deadlines (ps_deadlines (me_state e))) in
  for_each_st expired (λ '(operation, packet_id, (_, duration)),
    on_state (λ s, s <| ps_deadlines ::= delete (operation, packet_id) |>);;
    push_event (OperationFailed operation packet_id
      (OperationTimeout (OperationKind_debug operation)
                        (Z.min (Duration_as_millis duration) u64_MAX)));;
    if bool_decide (operation = OpConnect) then connection_lost_at now else mret ()).

(** [set_reconnect] *)
Definition set_reconnect (enabled : bool) : M () :=
  modify (λ e, e <| me_options ::= λ o, o <| mo_reconnect := enabled |> |>);;
  if negb enabled then
    modify (λ e, e <| me_next_reconnect_at := None |>
                   <| me_events ::= List.filter (λ event,
                        match event with
                        | ReconnectNeeded | ReconnectScheduled _ _ => false
                        | _ => true
                        end) |>)
  else mret ().

(** ** Checks *)
Definition ensure_outgoing_allowed self (packet_type : ControlPacketType)
    : result MqttClientError () :=
  if (mo_mqtt_version (me_options self) =? 5) && ps_connecting (me_state self)
     && existsb (λ p, bool_decide (is_Some (authentication_method p)))
          (mo_connect_properties (me_options self))
     && negb (match packet_type with AUTH | DISCONNECT => true | _ => false end)
  then Err (InvalidState "AUTH or DISCONNECT until CONNACK"
              (ControlPacketType_debug packet_type +:+ " during initial enhanced authentication"))
  else Ok ().

Definition unsupported self (qos : Z) (retain : bool) : bool :=
  (ps_maximum_qos (me_state self) <? qos) || (retain && negb (ps_retain_available (me_state self))).

Definition validate_packet_capabilities self (packet : MqttPacket) : result MqttClientError () :=
  let check qos retain :=
    if unsupported self qos retain
    then Err (invalid "PUBLISH" "Broker does not support requested QoS or retain") else Ok () in
  match packet with
  | Publish5 p => check (p5_qos p) (p5_retain p)
  | Publish3 p => check (p3_qos p) (p3_retain p)
  | _ => Ok ()
  end.

Definition exceeds (limit : option Z) (n : Z) : bool :=
  match limit with Some max => max <? n | None => false end.

Definition check_packet_size self (encoded : bytes) : result MqttClientError () :=
  match mo_max_outgoing_buffer_bytes (me_options self) with
  | Some capacity => if capacity <? zlen encoded then Err (BufferFull "outgoing packet" capacity)
                     else Ok ()
  | None => Ok ()
  end ≫= λ _,
  if exceeds (ps_maximum_packet_size (me_state self)) (zlen encoded)
  then Err (invalid "packet size" "Packet exceeds the broker's Maximum Packet Size") else Ok ().

Definition sum_len (l : list bytes) : Z := foldr (λ b n, zlen b + n) 0 l.

Definition outgoing_bytes self : Z :=
  ps_queued_bytes (me_state self) + sum_len (me_outgoing_buffer self).

Definition check_output_capacity self (additional : Z) : result MqttClientError () :=
  match mo_max_outgoing_buffer_bytes (me_options self) with
  | Some capacity =>
      if capacity <? usize_saturating_add (outgoing_bytes self) additional
      then Err (BufferFull "outgoing bytes" capacity) else Ok ()
  | None => Ok ()
  end.

(** ** Output *)
Definition enqueue_packet_inner (packet : MqttPacket) : M (MqttClientError + ()) :=
  e ← get_st;
  _ ←? try (ensure_outgoing_allowed e (MqttPacket_packet_type packet));
  if mo_max_outgoing_packet_count (me_options e) <=? zlen (me_outgoing_buffer e)
  then err (BufferFull "outgoing" (mo_max_outgoing_packet_count (me_options e))) else
  _ ←? try (validate_packet_capabilities e packet);
  encoded ←? try (map_parse_error (MqttPacket_to_bytes packet));
  _ ←? try (check_packet_size e encoded);
  _ ←? try (check_output_capacity e (zlen encoded));
  modify (λ e, e <| me_outgoing_buffer ::= λ l, l ++ [encoded] |>
                 <| me_last_packet_sent := me_now e |>);;
  ok ().

(** [flush_responses]: the responses leave in order until one does not fit. *)
Fixpoint flush_responses_loop (fuel : nat) : M () :=
  match fuel with
  | O => panic
  | S fuel =>
      e ← get_st;
      match ps_responses (me_state e) with
      | [] => mret ()
      | packet :: responses =>
          let oversized :=
            match mo_max_outgoing_buffer_bytes (me_options e), MqttPacket_to_bytes packet with
            | Some capacity, Ok encoded =>
                if capacity <? zlen encoded then Some capacity else None
            | _, _ => None
            end in
          match oversized with
          | Some capacity => fail_connection (BufferFull "protocol response" capacity)
          | None =>
              r ← enqueue_packet_inner packet;
              match r with
              | inr _ =>
                  on_state (λ s, s <| ps_responses ::= tail |>);;
                  flush_responses_loop fuel
              | inl (BufferFull _ _) => mret ()
              | inl error => fail_connection error
              end
          end
      end
  end.

Definition flush_responses : M () :=
  e ← get_st; flush_responses_loop (S (length (ps_responses (me_state e)))).

(** [process_replay]: session state is sent again in order, within the quota. *)
Definition replay_qos (packet : MqttPacket) : Z :=
  match packet with Publish5 p => p5_qos p | Publish3 p => p3_qos p | _ => 2 end.

Fixpoint process_replay_loop (fuel : nat) : M () :=
  match fuel with
  | O => panic
  | S fuel =>
      e ← get_st;
      match me_session_replay e with
      | [] => mret ()
      | (id, packet) :: _ =>
          if is_publish packet && negb (InflightQueue_can_push_publish (me_inflight_queue e))
          then mret () else
          r ← enqueue_packet_inner packet;
          match r with
          | inr _ =>
              modify (λ e, e <| me_session_replay ::= tail |>);;
              e ← get_st;
              r ← try (InflightQueue_push_at (me_inflight_queue e) id packet (replay_qos packet)
                         (me_now e));
              match r with
              | inl error => fail_operation id packet error
              | inr queue =>
                  modify (λ e, e <| me_inflight_queue := queue |>);;
                  start_deadline OpPublish (Some id)
              end;;
              process_replay_loop fuel
          | inl (BufferFull _ _) => mret ()
          | inl error =>
              modify (λ e, e <| me_session_replay ::= tail |>);;
              fail_operation id packet error;;
              process_replay_loop fuel
          end
      end
  end.

Definition process_replay : M () :=
  e ← get_st;
  if me_transport_manages_session e then mret ()
  else process_replay_loop (S (length (me_session_replay e))).

(** [process_queue]: application messages, by priority. *)
Definition dequeue : M (option (Z * MqttPacket)) :=
  e ← get_st;
  '(item, queue) ← lift (PriorityQueue_dequeue (me_priority_queue e));
  modify (λ e, e <| me_priority_queue := queue |>);;
  mret item.

Definition needs_ack (packet : MqttPacket) : bool :=
  match packet with
  | Publish5 p => 0 <? p5_qos p
  | Publish3 p => 0 <? p3_qos p
  | _ => false
  end.

Definition queued_id (packet : MqttPacket) : option Z :=
  match packet with
  | Publish5 p => p5_packet_id p
  | Publish3 p => p3_message_id p
  | _ => None
  end.

(** A packet that passed all checks leaves the queue and, with QoS above 0, becomes inflight. *)
Definition send_queued (encoded : bytes) : M () :=
  item ← dequeue;
  match item with
  | None => mret ()
  | Some (_, packet) =>
      (if needs_ack packet then
         pid ← expect (unwrap (E:=Empty_set) (queued_id packet));
         e ← get_st;
         queue ← expect (InflightQueue_push_at (me_inflight_queue e) pid packet
                           (replay_qos packet) (me_now e));
         modify (λ e, e <| me_inflight_queue := queue |>);;
         start_deadline OpPublish (Some pid)
       else mret ());;
      modify (λ e, e <| me_outgoing_buffer ::= λ l, l ++ [encoded] |>
                     <| me_last_packet_sent := me_now e |>)
  end.

Definition refuse_queued (error : MqttClientError) : M () :=
  item ← dequeue;
  match item with
  | None => mret ()
  | Some (_, packet) =>
      match queued_id packet with
      | Some id => fail_operation id packet error
      | None => push_event (ErrorEvent error)
      end
  end.

Fixpoint process_queue_loop (fuel : nat) (first_encoding : option bytes) : M () :=
  match fuel with
  | O => panic
  | S fuel =>
      e ← get_st;
      if zlen (me_outgoing_buffer e) <? mo_max_outgoing_packet_count (me_options e) then
        match PriorityQueue_peek (me_priority_queue e) with
        | None => mret ()
        | Some (_, packet) =>
            if needs_ack packet && negb (InflightQueue_can_push_publish (me_inflight_queue e))
            then mret () else
            match (match first_encoding with
                   | Some encoded => Ok encoded
                   | None => MqttPacket_to_bytes packet
                   end) with
            | Ok encoded =>
                on_state (λ s, s <| ps_queued_bytes ::= λ n, saturating_sub n (zlen encoded) |>);;
                e ← get_st;
                r ← try (_ ← validate_packet_capabilities e packet; check_packet_size e encoded);
                match r with
                | inl error => refuse_queued error
                | inr _ => send_queued encoded
                end;;
                process_queue_loop fuel None
            | Err error =>
                item ← dequeue;
                (if bool_decide (is_Some item)
                 then push_event (ErrorEvent (from_parse_error error)) else mret ());;
                process_queue_loop fuel None
            | Panic => panic
            end
        end
      else mret ()
  end.

Definition process_queue_with_encoding (first_encoding : option bytes) : M () :=
  e ← get_st;
  if negb (me_is_connected e) then mret () else
  flush_responses;;
  e ← get_st;
  if negb (me_is_connected e) then mret () else
  process_replay;;
  e ← get_st;
  if negb (me_is_connected e) || negb (bool_decide (ps_responses (me_state e) = []))
     || negb (bool_decide (me_session_replay e = []))
  then mret () else
  process_queue_loop (S (Z.to_nat (PriorityQueue_len (me_priority_queue e)))) first_encoding.

Definition process_queue : M () := process_queue_with_encoding None.

(** ** Packet identifiers *)
Fixpoint engine_next_packet_id_loop (rounds : nat) (session : ClientSession)
    : M (MqttClientError + Z) :=
  match rounds with
  | O => modify (λ e, e <| me_session := Some session |>);; err PacketIdExhausted
  | S rounds =>
      let '(id, session) := ClientSession_next_packet_id session in
      e ← get_st;
      if negb (bool_decide (id ∈ ps_reserved (me_state e)))
         && negb (InflightQueue_contains (me_inflight_queue e) id)
      then modify (λ e, e <| me_session := Some session |>);; ok id
      else engine_next_packet_id_loop rounds session
  end.

Definition next_packet_id : M (MqttClientError + Z) :=
  e ← get_st;
  session ←? try (ok_or (me_session e)
                    (ProtocolViolation "No session available for packet ID allocation"));
  engine_next_packet_id_loop (Z.to_nat u16_MAX) session.

Definition candidate_id (requested : option Z) : M (MqttClientError + Z) :=
  match requested with
  | Some id =>
      e ← get_st;
      if (id =? 0) || bool_decide (id ∈ ps_reserved (me_state e))
         || InflightQueue_contains (me_inflight_queue e) id
      then err (InvalidPacketId id) else ok id
  | None => next_packet_id
  end.
End EngineCore.
