(* ===== verification/EngineProtocol.v ===== *)
(** * The engine: negotiation and the receiving side

    Models the protocol rules of [src/mqtt_client/engine/protocol_state.rs] and the CONNECT
    packet of [engine.rs]: the CONNECT properties, negotiation by CONNACK, topic aliases, the
    receiving side of the QoS 1 and 2 handshakes, and the validation of acknowledgements. *)
From S2P Require Import Prelude BaseData TopicFilter Validation Properties Packets Framing.
From S2P Require Import ConnectCodec Codec Stream Leveled Time PriorityQueue ClientError Options.
From S2P Require Import ClientTypes Commands Inflight ClientSession EngineState EngineCore.

Definition is_auth_data (p : Property) : bool :=
  match p with AuthenticationData _ => true | _ => false end.
Definition is_auth_method (p : Property) : bool :=
  match p with AuthenticationMethod _ => true | _ => false end.
Definition is_user_property (p : Property) : bool :=
  match p with UserProperty _ _ => true | _ => false end.

(** [mem::discriminant(a) == mem::discriminant(b)]: the variants of [Property] are told apart by
    their property identifiers. *)
Definition same_variant (a b : Property) : bool := property_id_of a =? property_id_of b.

Section Engine.
Context {T : Type} `{TimePoint T, !Runtime T}.
Implicit Types (self e : MqttEngine T) (now : T).
Local Abbreviation M := (St (MqttEngine T)).

(** ** CONNECT *)

(** One property of CONNECT: whether it is refused. *)
Definition connect_property_error (property : Property) : option MqttClientError :=
  match property with
  | ReceiveMaximum 0 | MaximumPacketSize 0 =>
      Some (invalid "CONNECT" "Receive Maximum and Maximum Packet Size must be nonzero")
  | RequestResponseInformation v | RequestProblemInformation v =>
      if 1 <? v then Some (invalid "CONNECT" "Boolean property must be 0 or 1") else None
  | SessionExpiryInterval _ | ReceiveMaximum _ | MaximumPacketSize _ | TopicAliasMaximum _
  | UserProperty _ _ | AuthenticationMethod _ | AuthenticationData _ => None
  | _ => Some (invalid "CONNECT" "Property is not valid in CONNECT")
  end.

Fixpoint merge_properties (properties merged : list Property)
    : result MqttClientError (list Property) :=
  match properties with
  | [] => Ok merged
  | property :: properties =>
      match connect_property_error property with
      | Some error => Err error
      | None =>
          match (if is_user_property property then None
                 else List.find (λ p, same_variant p property) merged) with
          | Some existing =>
              if bool_decide (existing ≠ property)
              then Err (invalid "CONNECT" "Conflicting singleton property values")
              else merge_properties properties merged
          | None => merge_properties properties (merged ++ [property])
          end
      end
  end.

Definition connect_properties self : result MqttClientError (list Property) :=
  let options := me_options self in
  let properties := mo_connect_properties options
    ++ (SessionExpiryInterval <$> option_list (mo_session_expiry_interval options))
    ++ (MaximumPacketSize <$> option_list (mo_maximum_packet_size options))
    ++ ((λ b, RequestResponseInformation (bool_as_u8 b))
          <$> option_list (mo_request_response_information options))
    ++ ((λ b, RequestProblemInformation (bool_as_u8 b))
          <$> option_list (mo_request_problem_information options))
    ++ (ReceiveMaximum <$> option_list (mo_incoming_receive_maximum options)) in
  merged ← merge_properties properties [];
  if existsb is_auth_data merged && negb (existsb is_auth_method merged)
  then Err (invalid "CONNECT" "Authentication Data requires Authentication Method")
  else Ok merged.

Definition connect_packet self : result MqttClientError MqttPacket :=
  let options := me_options self in
  properties ← (if mo_mqtt_version options =? 5 then connect_properties self else Ok []);
  Ok (if mo_mqtt_version options =? 5 then
        Connect5 (MqttConnect5_new (mo_client_id options) (mo_username options)
                    (mo_password options) (mo_will options) (mo_keep_alive options)
                    (mo_clean_start options) properties)
      else
        let connect := MqttConnect3_new (mo_client_id options) (mo_keep_alive options)
                         (mo_clean_start options) in
        Connect3 {| c3_protocol_name := c3_protocol_name connect;
                    c3_protocol_version := c3_protocol_version connect;
                    c3_clean_session := c3_clean_session connect;
                    c3_keep_alive := c3_keep_alive connect;
                    c3_client_id := c3_client_id connect;
                    c3_will := (λ will, {| w3_retain := w5_will_retain will;
                                           w3_qos := w5_will_qos will;
                                           w3_topic := w5_will_topic will;
                                           w3_message := w5_will_message will |})
                               <$> mo_will options;
                    c3_username := mo_username options;
                    c3_password := mo_password options |}).

(** The loop over the CONNECT properties in [connect]. *)
Definition remember_connect_property (property : Property) (s : ProtocolState T)
    : ProtocolState T :=
  match property with
  | SessionExpiryInterval v => s <| ps_session_expiry := v |>
  | ReceiveMaximum v => s <| ps_incoming_receive_maximum := v |>
  | TopicAliasMaximum v => s <| ps_incoming_alias_maximum := v |>
  | _ => s
  end.

(** The deferred exchanges of an earlier connection, refreshed by the current ones: an entry
    with a known identifier is replaced in place, any other one appended. *)
Fixpoint refresh_previous (entries : list (Z * MqttPacket)) (positions : gmap Z nat)
    (previous : list (Z * MqttPacket)) : panics (list (Z * MqttPacket)) :=
  match entries with
  | [] => Ok previous
  | (id, packet) :: entries =>
      match positions !! id with
      | Some index =>
          old ← unwrap (previous !! index);
          refresh_previous entries positions (<[index := (old.1, packet)]> previous)
      | None => refresh_previous entries (<[id := length previous]> positions)
                  (previous ++ [(id, packet)])
      end
  end.

(** [previous.iter().enumerate().map(|(index, (id, _))| (id, index)).collect()] *)
Definition positions_of (previous : list (Z * MqttPacket)) : gmap Z nat :=
  list_to_map (reverse (imap (λ index p, (p.1, index)) previous)).

Definition connect_inner : M (MqttClientError + ()) :=
  e ← get_st;
  if me_is_connected e then err AlreadyConnected else
  if ps_connecting (me_state e) then err (InvalidState "disconnected" "awaiting CONNACK") else
  if (mo_max_outgoing_packet_count (me_options e) =? 0) || (mo_max_event_count (me_options e) =? 0)
  then err (InvalidConfiguration "buffer limits" "Packet and event limits must be nonzero") else
  packet ←? try (connect_packet e);
  match packet with
  | Connect5 connect =>
      on_state (λ s, foldl (λ s p, remember_connect_property p s) s (c5_properties connect))
  | _ => mret ()
  end;;
  modify (λ e, e <| me_session ::= λ s,
                      match s with None => Some ClientSession_new | Some s => Some s end |>);;
  encoded ←? try (map_parse_error (MqttPacket_to_bytes packet));
  let reserve := Z.max (zlen encoded) 6 in
  _ ←? enqueue_packet_inner packet;
  e ← get_st;
  let previous := filter (λ p, p.1 ∈ ps_reserved (me_state e)) (me_previous_inflight e) in
  let entries := InflightQueue_snapshot_for_reconnect (me_inflight_queue e)
                 ++ me_session_replay e in
  previous ← lift (refresh_previous entries (positions_of previous) previous);
  modify (λ e, e <| me_previous_inflight := previous |> <| me_session_replay := [] |>);;
  on_state (λ s, s <| ps_control_reserve := reserve |> <| ps_input_closed := false |>
                   <| ps_connecting := true |> <| ps_reauthenticating := false |>);;
  modify (λ e, e <| me_next_reconnect_at := None |>);;
  start_deadline OpConnect None;;
  ok ().

(** ** Negotiation: the properties of CONNACK *)
Definition set_receive_maximum (v : Z) : M () :=
  modify (λ e, e <| me_inflight_queue ::= λ q,
    InflightQueue_update_receive_maximum q (Z.min v (mo_receive_maximum (me_options e))) |>).

(** One property; the changes before an error stay. *)
Definition negotiate_property (p : Property) : M (MqttClientError + ()) :=
  let not_boolean := err (invalid "CONNACK" "Boolean property must be 0 or 1") in
  let limit_zero := err (invalid "CONNACK" "Limit must be nonzero") in
  match p with
  | ReceiveMaximum v => if v =? 0 then limit_zero else set_receive_maximum v;; ok ()
  | MaximumPacketSize v =>
      if v =? 0 then limit_zero
      else on_state (λ s, s <| ps_maximum_packet_size := Some v |>);; ok ()
  | MaximumQoS v =>
      if 1 <? v then err (invalid "CONNACK" "Maximum QoS must be 0 or 1")
      else on_state (λ s, s <| ps_maximum_qos := v |>);; ok ()
  | RetainAvailable v =>
      if 1 <? v then not_boolean
      else on_state (λ s, s <| ps_retain_available := negb (v =? 0) |>);; ok ()
  | WildcardSubscriptionAvailable v =>
      if 1 <? v then not_boolean
      else on_state (λ s, s <| ps_wildcard_available := negb (v =? 0) |>);; ok ()
  | SharedSubscriptionAvailable v =>
      if 1 <? v then not_boolean
      else on_state (λ s, s <| ps_shared_available := negb (v =? 0) |>);; ok ()
  | SubscriptionIdentifierAvailable v =>
      if 1 <? v then not_boolean
      else on_state (λ s, s <| ps_subscription_ids_available := negb (v =? 0) |>);; ok ()
  | ServerKeepAlive v => on_state (λ s, s <| ps_keep_alive := v |>);; ok ()
  | TopicAliasMaximum v => on_state (λ s, s <| ps_outgoing_alias_maximum := v |>);; ok ()
  | AssignedClientIdentifier v =>
      if bool_decide (v = []) then err (invalid "CONNACK" "Assigned client ID is empty")
      else modify (λ e, e <| me_options ::= λ o, o <| mo_client_id := v |> |>);; ok ()
  | SessionExpiryInterval v => on_state (λ s, s <| ps_session_expiry := v |>);; ok ()
  | AuthenticationMethod _ | AuthenticationData _ | ResponseInformation _ | ServerReference _
  | ReasonString _ | UserProperty _ _ => ok ()
  | _ => err (invalid "CONNACK" "Property is not valid in CONNACK")
  end.

Fixpoint negotiate_loop (previous properties : list Property) : M (MqttClientError + ()) :=
  match properties with
  | [] => ok ()
  | p :: properties =>
      if negb (is_user_property p) && existsb (λ q, same_variant q p) previous
      then err (invalid "CONNACK" "Duplicate singleton property") else
      _ ←? negotiate_property p;
      negotiate_loop (previous ++ [p]) properties
  end.

Definition negotiate (properties : list Property) : M (MqttClientError + ()) :=
  _ ←? negotiate_loop [] properties;
  e ← get_st;
  packet ←? try (connect_packet e);
  encoded ←? try (map_parse_error (MqttPacket_to_bytes packet));
  let reserve := Z.max (zlen encoded) 6 in
  if exceeds (mo_max_outgoing_buffer_bytes (me_options e)) reserve
  then err (invalid "max_outgoing_buffer_bytes"
              "The reconnect CONNECT packet exceeds the outgoing byte limit") else
  on_state (λ s, s <| ps_control_reserve := reserve |>);;
  ok ().

(** ** The receiving side *)
Definition received_key self (key : ReceivedKey) : option ReceivedKey :=
  if bool_decide (is_Some (ps_received (me_state self) !! key)) then Some key
  else List.find (λ k : ReceivedKey, k.2 =? key.2) (iter_unbound (ps_received_unbound (me_state self))).

Definition bind_received (previous key : ReceivedKey) : M () :=
  on_state (λ s, s <| ps_received_unbound ::= λ u, u ∖ {[previous]} |>);;
  if bool_decide (previous ≠ key) then
    on_state (λ s, match ps_received s !! previous with
                   | Some stage =>
                       s <| ps_received ::= λ m, <[key := stage]> (delete previous m) |>
                   | None => s
                   end)
  else mret ().

Definition accept_incoming (packet_type : ControlPacketType) : M bool :=
  e ← get_st;
  if ps_input_closed (me_state e) then mret false else
  let valid := match packet_type with
               | CONNACK => ps_connecting (me_state e) && negb (me_is_connected e)
               | AUTH | DISCONNECT =>
                   me_is_connected e ||
                   ((mo_mqtt_version (me_options e) =? 5) && ps_connecting (me_state e))
               | _ => me_is_connected e
               end in
  (if negb valid
   then fail_connection (ProtocolViolation ("Unexpected " +:+ ControlPacketType_debug packet_type
                                            +:+ " in the current connection state"))
   else mret ());;
  mret valid.

(** [resolve_incoming]: the publication with its topic filled in from the alias. *)
Definition with_topic (p : MqttPublish5) (topic : bytes) : MqttPublish5 :=
  MqttPublish5_new_with_prop (p5_qos p) topic (p5_packet_id p) (p5_payload p) (p5_retain p)
    (p5_dup p) (p5_properties p).

Definition resolve_incoming (publish : MqttPublish5) : M (MqttClientError + MqttPublish5) :=
  e ← get_st;
  let aliases := omap topic_alias (p5_properties publish) in
  publish ←?
    match aliases with
    | [] => ok publish
    | alias :: _ =>
        if negb (zlen aliases =? 1) || (alias =? 0)
           || (ps_incoming_alias_maximum (me_state e) <? alias)
        then err (invalid "Topic Alias" "Invalid incoming alias") else
        if bool_decide (p5_topic_name publish = []) then
          match ps_incoming_aliases (me_state e) !! alias with
          | Some topic => ok (with_topic publish topic)
          | None => err (invalid "Topic Alias" "Undefined incoming alias")
          end
        else
          on_state (λ s, s <| ps_incoming_aliases ::= <[alias := p5_topic_name publish]> |>);;
          ok publish
    end;
  if bool_decide (p5_topic_name publish = [])
  then err (invalid "PUBLISH" "Empty topic without a defined alias") else ok publish.

(** [receive_publish]: whether the message is new. *)
Definition receive_publish (qos : Z) (id : option Z) (stream : option Z)
    : M (MqttClientError + bool) :=
  match (if 0 <? qos then id else None) with
  | None => ok true
  | Some id =>
      if id =? 0 then err (InvalidPacketId id) else
      let key := (stream, id) in
      e ← get_st;
      let previous := received_key e key in
      let stage := previous ≫= λ k, ps_received (me_state e) !! k in
      if match stage with
         | Some stage => negb (eqb (qos =? 1) (bool_decide (stage = RsPublish 1)))
         | None => false
         end
      then err (InvalidPacketId id) else
      _ ←? (if negb (bool_decide (key ∈ ps_received_on_connection (me_state e))) then
              if ps_incoming_receive_maximum (me_state e) <=? ps_incoming_quota_used (me_state e)
              then err (ProtocolViolation "Incoming Receive Maximum exceeded")
              else on_state (λ s, s <| ps_received_on_connection ::= λ r, {[key]} ∪ r |>
                                    <| ps_incoming_quota_used ::= λ n, n + 1 |>);; ok ()
            else ok ());
      match previous with
      | Some previous => bind_received previous key;; ok false
      | None => on_state (λ s, s <| ps_received ::= <[key := RsPublish qos]> |>);; ok true
      end
  end.

Definition ack_stage_ok (kind : Z) (stage : ReceiveStage) : bool :=
  match stage with
  | RsPublish q => ((kind =? 4) && (q =? 1)) || ((kind =? 5) && (q =? 2))
  | RsPubRec => kind =? 5
  | RsPubRel => kind =? 7
  end.

Definition ack_reason_ok (kind reason : Z) : bool :=
  if kind =? 7 then (reason =? 0) || (reason =? 146)
  else existsb (Z.eqb reason) [0; 16; 128; 131; 135; 144; 145; 151; 153].

Definition ack_property_ok (p : Property) : bool :=
  match p with ReasonString _ | UserProperty _ _ => true | _ => false end.
Definition is_reason_string (p : Property) : bool :=
  match p with ReasonString _ => true | _ => false end.

Definition manual_ack_packet self (id kind reason : Z) (properties : list Property)
    (stream : option Z) : result MqttClientError MqttPacket :=
  if id =? 0 then Err (InvalidPacketId id) else
  let valid := match ps_received (me_state self) !! (stream, id) with
               | Some stage => ack_stage_ok kind stage
               | None => false
               end in
  if negb valid then Err (InvalidPacketId id) else
  let v5 := mo_mqtt_version (me_options self) =? 5 in
  if negb v5 && (negb (reason =? 0) || negb (bool_decide (properties = [])))
  then Err (invalid "acknowledgement" "MQTT 3 does not support reason codes or properties") else
  if negb (ack_reason_ok kind reason)
  then Err (invalid "acknowledgement" "Invalid reason code") else
  if existsb (λ p, negb (ack_property_ok p)) properties
     || (1 <? zlen (List.filter is_reason_string properties))
  then Err (invalid "acknowledgement" "Invalid properties") else
  match v5, kind with
  | true, 4 => Ok (PubAck5 (PacketIdAck5_new id reason properties))
  | true, 5 => Ok (PubRec5 (PacketIdAck5_new id reason properties))
  | true, 7 => Ok (PubComp5 (PacketIdAck5_new id reason properties))
  | _, 4 => Ok (PubAck3 {| a3_message_id := id |})
  | _, 5 => Ok (PubRec3 {| a3_message_id := id |})
  | _, 7 => Ok (PubComp3 {| a3_message_id := id |})
  | _, _ => Panic
  end.

Definition commit_receive_ack (id kind reason : Z) (stream : option Z) : M () :=
  let key := (stream, id) in
  on_state (λ s, s <| ps_received_unbound ::= λ u, u ∖ {[key]} |>);;
  if (kind =? 5) && (reason <? 128) then
    on_state (λ s, s <| ps_received ::= alter (λ _, RsPubRec) key |>)
  else
    on_state (λ s, s <| ps_received ::= delete key |>
                     <| ps_received_on_connection ::= λ r, r ∖ {[key]} |>
                     <| ps_incoming_quota_used ::= λ n, saturating_sub n 1 |>).

Definition manual_ack (id kind reason : Z) (properties : list Property) : M (MqttClientError + ()) :=
  e ← get_st;
  packet ←? try (manual_ack_packet e id kind reason properties None);
  _ ←? enqueue_packet_inner packet;
  commit_receive_ack id kind reason None;;
  ok ().

Definition puback_inner (id reason : Z) (properties : list Property) := manual_ack id 4 reason properties.
Definition pubrec_inner (id reason : Z) (properties : list Property) := manual_ack id 5 reason properties.
Definition pubcomp_inner (id reason : Z) (properties : list Property) := manual_ack id 7 reason properties.

(** The events and the direct responses a handler returns. *)
Abbreviation Reply := (list MqttEvent * list MqttPacket)%type.

(** [self.fail_connection(error); return (self.take_events(), vec![])] *)
Definition fail_reply (error : MqttClientError) : M Reply :=
  fail_connection error;; events ← take_events; mret (events, []).

Definition receive_message (publish : MqttPublish5) (stream : option Z) : M Reply :=
  r ← resolve_incoming publish;
  match r with
  | inl error => fail_reply error
  | inr publish =>
      let qos := p5_qos publish in
      let pid := p5_packet_id publish in
      r ← receive_publish qos pid stream;
      match r with
      | inl error => fail_reply error
      | inr deliver =>
          let events := if deliver : bool
                        then [PublishReceived pid stream; MessageReceived publish] else [] in
          match (if 0 <? qos then pid else None) with
          | None => mret (events, [])
          | Some id =>
              e ← get_st;
              let already_acknowledged :=
                bool_decide (ps_received (me_state e) !! (stream, id) = Some RsPubRec) in
              if mo_auto_ack (me_options e) || already_acknowledged then
                let kind := if qos =? 1 then 4 else 5 in
                r ← try (manual_ack_packet e id kind 0 [] stream);
                match r with
                | inr packet => commit_receive_ack id kind 0 stream;; mret (events, [packet])
                | inl error => mret (events ++ [ErrorEvent error], [])
                end
              else mret (events, [])
          end
      end
  end.

(** [receive_pubrel]: what the state of the exchange makes of a PUBREL. *)
Definition receive_pubrel (id : Z) (stream : option Z) : M Reply :=
  if id =? 0 then fail_reply (InvalidPacketId id) else
  let key := (stream, id) in
  e ← get_st;
  let refused := mret ([ErrorEvent (InvalidPacketId id)], []) in
  let release (reason : Z) : M Reply :=
    let events := [PubRelReceived id stream] in
    e ← get_st;
    if mo_auto_ack (me_options e) then
      packet ← expect (manual_ack_packet e id 7 reason [] stream);
      commit_receive_ack id 7 reason stream;;
      mret (events, [packet])
    else mret (events, []) in
  match received_key e key with
  | Some previous =>
      match ps_received (me_state e) !! previous with
      | Some RsPubRec | Some RsPubRel =>
          bind_received previous key;;
          on_state (λ s, s <| ps_received ::= <[key := RsPubRel]> |>);;
          release 0
      | _ => refused
      end
  | None =>
      if existsb (λ k : ReceivedKey, k.2 =? id) (map_to_list (ps_received (me_state e))).*1
      then refused
      else
        let reason := if mo_mqtt_version (me_options e) =? 5 then 146 else 0 in
        on_state (λ s, s <| ps_received ::= <[key := RsPubRel]> |>);;
        release reason
  end.

(** [validate_ack]: an acknowledgement must answer an outstanding packet of its kind. *)
Definition ack_id_kind (packet : MqttPacket) : option (Z * Z) :=
  match packet with
  | PubAck5 p => Some (a5_packet_id p, 4)
  | PubAck3 p => Some (a3_message_id p, 4)
  | PubRec5 p => Some (a5_packet_id p, 5)
  | PubRec3 p => Some (a3_message_id p, 5)
  | PubComp5 p => Some (a5_packet_id p, 7)
  | PubComp3 p => Some (a3_message_id p, 7)
  | SubAck5 p => Some (r5_packet_id p, 9)
  | SubAck3 p => Some (sa3_message_id p, 9)
  | UnsubAck5 p => Some (r5_packet_id p, 11)
  | UnsubAck3 p => Some (a3_message_id p, 11)
  | _ => None
  end.

Definition ack_matches (sent : MqttPacket) (kind : Z) : bool :=
  match sent with
  | Publish5 p => if (kind =? 4) || (kind =? 5) then p5_qos p =? (if kind =? 4 then 1 else 2) else false
  | Publish3 p => if (kind =? 4) || (kind =? 5) then p3_qos p =? (if kind =? 4 then 1 else 2) else false
  | PubRel5 _ | PubRel3 _ => (kind =? 5) || (kind =? 7)
  | Subscribe5 _ | Subscribe3 _ => kind =? 9
  | Unsubscribe5 _ | Unsubscribe3 _ => kind =? 11
  | _ => false
  end.

Definition ack_counts (sent ack : MqttPacket) : option (Z * Z) :=
  match sent, ack with
  | Subscribe3 sent, SubAck3 ack => Some (zlen (s3_subscriptions sent), zlen (sa3_return_codes ack))
  | Subscribe5 sent, SubAck5 ack => Some (zlen (s5_subscriptions sent), zlen (r5_reason_codes ack))
  | _, _ => None
  end.

Definition validate_ack self (packet : MqttPacket) (stream : option Z)
    : result MqttClientError () :=
  match ack_id_kind packet with
  | None => Ok ()
  | Some (id, kind) =>
      match InflightQueue_get (me_inflight_queue self) id with
      | None => Err (InvalidPacketId id)
      | Some entry =>
          if negb (ack_matches (ie_packet entry) kind) || bool_decide (ie_stream entry ≠ stream)
          then Err (InvalidPacketId id) else
          match ack_counts (ie_packet entry) packet with
          | Some (expected, actual) =>
              if negb (expected =? actual)
              then Err (ProtocolViolation ("SUBACK has " +:+ pretty actual +:+ " results for "
                                           +:+ pretty expected +:+ " subscription filters"))
              else Ok ()
          | None => Ok ()
          end
      end
  end.
End Engine.
