(* ===== verification/Engine.v ===== *)
(** * The engine: commands, incoming packets, timers

    Models the public half of [src/mqtt_client/engine.rs] with its explicit-time entry points
    ([engine/explicit.rs]): the commands of the application, the handler of every incoming
    packet, restoring a session, input, timers and output. *)
From S2P Require Import Prelude BaseData TopicFilter Validation Properties Packets Framing Codec.
From S2P Require Import Stream Leveled Time PriorityQueue ClientError Options ClientTypes.
From S2P Require Import Commands Inflight ClientSession EngineState EngineCore EngineProtocol.

Section Engine.
Context {T : Type} `{TimePoint T, !Runtime T}.
Implicit Types (self e : MqttEngine T) (now : T).
Local Abbreviation M := (St (MqttEngine T)).

(** ** Accessors *)
Definition parse_level self : ParseLevel := mp_parse_level (me_parser self).
Definition has_pending_output self : bool :=
  negb (bool_decide (me_outgoing_buffer self = []))
  || negb (bool_decide (ps_responses (me_state self) = [])).

Definition set_parse_level (level : ParseLevel) : M () :=
  modify (λ e, e <| me_parser ::= λ p, MqttParser_set_parse_level p level |>).

Definition is_Full (level : ParseLevel) : bool := match level with Full => true | _ => false end.

Definition try_set_parse_level (level : ParseLevel) : M (MqttClientError + ()) :=
  e ← get_st;
  if negb (is_Full level)
     && (negb (me_is_connected e) || negb (InflightQueue_is_empty (me_inflight_queue e))
         || negb (PriorityQueue_is_empty (me_priority_queue e)))
  then err (InvalidState "connected with no outstanding operations"
              "connecting or waiting for acknowledgements") else
  set_parse_level level;; ok ().

Definition require_full_parser self : result MqttClientError () :=
  if negb (is_Full (parse_level self))
  then Err (InvalidState "Full parser for acknowledgement-bearing operations"
              (ParseLevel_debug (parse_level self)))
  else Ok ().

Definition take_stream_retransmissions : M (list (Z * bytes)) :=
  e ← get_st;
  modify (λ e, e <| me_stream_retransmissions := [] |>);;
  mret (me_stream_retransmissions e).

(** ** PUBLISH *)

(** [validate_publish]: the alias to register and the command with its topic filled in. *)
Definition validate_publish self (command : PublishCommand)
    : result MqttClientError (option (Z * bytes) * PublishCommand) :=
  if unsupported self (pc_qos command) (pc_retain command)
  then Err (invalid "PUBLISH" "Broker does not support requested QoS or retain") else
  let aliases := omap topic_alias (pc_properties command) in
  match aliases with
  | [] => Ok (None, command)
  | alias :: _ =>
      if negb (zlen aliases =? 1) || (alias =? 0)
         || (ps_outgoing_alias_maximum (me_state self) <? alias)
      then Err (invalid "Topic Alias" "Alias exceeds negotiated maximum or is duplicated") else
      if bool_decide (pc_topic_name command = []) then
        topic ← ok_or (ps_outgoing_aliases (me_state self) !! alias)
                  (invalid "Topic Alias" "Undefined alias");
        Ok (None, command <| pc_topic_name := topic |>)
      else Ok (Some (alias, pc_topic_name command), command)
  end.

(** The packet of a command, and the identifier it is given. *)
Definition publish_packet self (command : PublishCommand) : MqttPacket :=
  if mo_mqtt_version (me_options self) =? 5
  then Publish5 (PublishCommand_into_mqtt_publish command)
  else Publish3 (PublishCommand_into_mqttv3_publish command).

Definition publish_id (command : PublishCommand)
    : M (MqttClientError + (option Z * PublishCommand)) :=
  if 0 <? pc_qos command then
    pid ←? candidate_id (pc_packet_id command);
    ok (Some pid, command <| pc_packet_id := Some pid |>)
  else ok (None, command).

Definition register_alias (alias : option (Z * bytes)) : M () :=
  match alias with
  | Some (id, topic) => on_state (λ s, s <| ps_outgoing_aliases ::= <[id := topic]> |>)
  | None => mret ()
  end.

Definition reserve_id (id : Z) (len : Z) : M () :=
  on_state (λ s, s <| ps_reserved ::= λ r, {[id]} ∪ r |>
                   <| ps_replay_reserve ::= λ n, Z.max n len |>).

Definition publish_inner (command : PublishCommand) : M (MqttClientError + option Z) :=
  e ← get_st;
  _ ←? (if 0 <? pc_qos command then try (require_full_parser e) else ok ());
  '(alias, command) ←? try (validate_publish e command);
  if mo_max_outgoing_packet_count (me_options e) <=? PriorityQueue_len (me_priority_queue e)
  then err (BufferFull "publish queue" (mo_max_outgoing_packet_count (me_options e))) else
  '(pid, command) ←? publish_id command;
  let priority := pc_priority command in
  let packet := publish_packet e command in
  encoded ←? try (map_parse_error (MqttPacket_to_bytes packet));
  e ← get_st;
  _ ←? try (check_packet_size e encoded);
  let reserve := Z.max (ps_control_reserve (me_state e)) (ps_replay_reserve (me_state e)) in
  _ ←? try (check_output_capacity e (usize_saturating_add (zlen encoded) reserve));
  on_state (λ s, s <| ps_queued_bytes ::= λ n, n + zlen encoded |>);;
  match pid with Some id => reserve_id id (zlen encoded) | None => mret () end;;
  register_alias alias;;
  let first_encoding :=
    if PriorityQueue_is_empty (me_priority_queue e) then Some encoded else None in
  queue ← lift (PriorityQueue_enqueue (me_priority_queue e) priority packet);
  modify (λ e, e <| me_priority_queue := queue |>);;
  process_queue_with_encoding first_encoding;;
  ok pid.

Definition publish_encoded_inner (command : PublishCommand) (stream : option Z)
    : M (MqttClientError + (option Z * bytes)) :=
  e ← get_st;
  _ ←? try (ensure_outgoing_allowed e PUBLISH);
  _ ←? (if 0 <? pc_qos command then try (require_full_parser e) else ok ());
  '(alias, command) ←? try (validate_publish e command);
  '(pid, command) ←? publish_id command;
  let qos := pc_qos command in
  let packet := publish_packet e command in
  encoded ←? try (map_parse_error (MqttPacket_to_bytes packet));
  e ← get_st;
  _ ←? try (check_packet_size e encoded);
  _ ←? (if 0 <? qos then
          pid ← expect (unwrap (E:=Empty_set) pid);
          queue ←? try (InflightQueue_push_with_stream_at (me_inflight_queue e) pid packet qos
                          stream (me_now e));
          modify (λ e, e <| me_inflight_queue := queue |>);; ok ()
        else ok ());
  match pid with
  | Some id => reserve_id id (zlen encoded);; start_deadline OpPublish (Some id)
  | None => mret ()
  end;;
  register_alias alias;;
  modify (λ e, e <| me_last_packet_sent := me_now e |>);;
  ok (pid, encoded).

(** ** SUBSCRIBE and UNSUBSCRIBE *)
Definition is_subscription_id (p : Property) : bool :=
  match p with SubscriptionIdentifier _ => true | _ => false end.

Definition validate_subscribe self (command : SubscribeCommand) : result MqttClientError () :=
  let s := me_state self in
  if negb (ps_subscription_ids_available s) && existsb is_subscription_id (sc_properties command)
  then Err (invalid "SUBSCRIBE" "Broker does not support subscription identifiers") else
  if existsb (λ t,
       (negb (ps_wildcard_available s)
        && (contains_char (ts_topic_filter t) PLUS || contains_char (ts_topic_filter t) HASH))
       || (negb (ps_shared_available s) && starts_with (ts_topic_filter t) (str "$share/")))
     (sc_subscriptions command)
  then Err (invalid "SUBSCRIBE" "Broker does not support this subscription") else Ok ().

Definition subscribe_packet self (pid : Z) (command : SubscribeCommand) : MqttPacket :=
  if mo_mqtt_version (me_options self) =? 5
  then Subscribe5 {| s5_packet_id := pid; s5_subscriptions := sc_subscriptions command;
                     s5_properties := sc_properties command |}
  else Subscribe3 {| s3_message_id := pid;
                     s3_subscriptions := (λ t, {| st_topic_filter := ts_topic_filter t;
                                                  st_qos := ts_qos t |})
                                         <$> sc_subscriptions command |}.

Definition unsubscribe_packet self (pid : Z) (command : UnsubscribeCommand) : MqttPacket :=
  if mo_mqtt_version (me_options self) =? 5
  then Unsubscribe5 {| u5_packet_id := pid; u5_topic_filters := uc_topics command;
                       u5_properties := uc_properties command |}
  else Unsubscribe3 {| u3_message_id := pid; u3_topic_filters := uc_topics command |}.

(** The part the two commands share: queue the packet and track it, or encode and track it. *)
Definition queue_tracked (pid : Z) (packet : MqttPacket) (operation : OperationKind)
    : M (MqttClientError + Z) :=
  _ ←? enqueue_packet_inner packet;
  e ← get_st;
  queue ←? try (InflightQueue_push_at (me_inflight_queue e) pid packet 1 (me_now e));
  modify (λ e, e <| me_inflight_queue := queue |>);;
  on_state (λ s, s <| ps_reserved ::= λ r, {[pid]} ∪ r |>);;
  start_deadline operation (Some pid);;
  ok pid.

Definition encode_tracked (pid : Z) (packet : MqttPacket) (operation : OperationKind)
    (stream : option Z) : M (MqttClientError + (Z * bytes)) :=
  encoded ←? try (map_parse_error (MqttPacket_to_bytes packet));
  e ← get_st;
  _ ←? try (check_packet_size e encoded);
  queue ←? try (InflightQueue_push_with_stream_at (me_inflight_queue e) pid packet 1 stream
                  (me_now e));
  modify (λ e, e <| me_inflight_queue := queue |>);;
  on_state (λ s, s <| ps_reserved ::= λ r, {[pid]} ∪ r |>);;
  start_deadline operation (Some pid);;
  modify (λ e, e <| me_last_packet_sent := me_now e |>);;
  ok (pid, encoded).

Definition subscribe_inner (command : SubscribeCommand) : M (MqttClientError + Z) :=
  e ← get_st;
  _ ←? try (ensure_outgoing_allowed e SUBSCRIBE);
  _ ←? try (require_full_parser e);
  _ ←? try (validate_subscribe e command);
  pid ←? candidate_id (sc_packet_id command);
  queue_tracked pid (subscribe_packet e pid command) OpSubscribe.

Definition unsubscribe_inner (command : UnsubscribeCommand) : M (MqttClientError + Z) :=
  e ← get_st;
  _ ←? try (ensure_outgoing_allowed e UNSUBSCRIBE);
  _ ←? try (require_full_parser e);
  pid ←? candidate_id (uc_packet_id command);
  queue_tracked pid (unsubscribe_packet e pid command) OpUnsubscribe.

Definition subscribe_encoded_inner (command : SubscribeCommand) (stream : option Z)
    : M (MqttClientError + (Z * bytes)) :=
  e ← get_st;
  _ ←? try (ensure_outgoing_allowed e SUBSCRIBE);
  _ ←? try (require_full_parser e);
  _ ←? try (validate_subscribe e command);
  pid ←? candidate_id (sc_packet_id command);
  encode_tracked pid (subscribe_packet e pid command) OpSubscribe stream.

Definition unsubscribe_encoded_inner (command : UnsubscribeCommand) (stream : option Z)
    : M (MqttClientError + (Z * bytes)) :=
  e ← get_st;
  _ ←? try (ensure_outgoing_allowed e UNSUBSCRIBE);
  _ ←? try (require_full_parser e);
  pid ←? candidate_id (uc_packet_id command);
  encode_tracked pid (unsubscribe_packet e pid command) OpUnsubscribe stream.

(** ** DISCONNECT, AUTH, PINGREQ *)
Definition disconnect_packet self : MqttPacket :=
  if mo_mqtt_version (me_options self) =? 5
  then Disconnect5 {| d5_reason_code := 0; d5_properties := [] |} else Disconnect3.

Definition client_disconnect_reason (reason_code : Z) : bool :=
  (reason_code =? 0) || (reason_code =? 4)
  || ((128 <=? reason_code) && (reason_code <=? 131)) || (reason_code =? 144)
  || ((147 <=? reason_code) && (reason_code <=? 153)).

Definition nonzero_session_expiry (p : Property) : bool :=
  match p with SessionExpiryInterval v => negb (v =? 0) | _ => false end.

Definition try_disconnect_with_inner (reason_code : Z) (properties : list Property)
    : M (MqttClientError + ()) :=
  e ← get_st;
  let v5 := mo_mqtt_version (me_options e) =? 5 in
  if negb (client_disconnect_reason reason_code)
  then err (InvalidConfiguration "DISCONNECT reason code" "Not a client DISCONNECT reason code") else
  if negb v5 && (negb (reason_code =? 0) || negb (bool_decide (properties = [])))
  then err (InvalidConfiguration "DISCONNECT" "Reason codes and properties require MQTT 5") else
  if (ps_session_expiry (me_state e) =? 0) && existsb nonzero_session_expiry properties
  then err (ProtocolViolation "DISCONNECT cannot extend a zero session expiry interval") else
  if negb (me_is_connected e) then
    modify (λ e, e <| me_next_reconnect_at := None |>);;
    close_input;; ok ()
  else
    let packet := if v5 then Disconnect5 {| d5_reason_code := reason_code;
                                            d5_properties := properties |}
                  else disconnect_packet e in
    _ ←? enqueue_packet_inner packet;
    modify (λ e, e <| me_next_reconnect_at := None |>);;
    close_input;; ok ().

Definition try_disconnect_inner : M (MqttClientError + ()) := try_disconnect_with_inner 0 [].
Definition disconnect_inner : M (MqttClientError + ()) := try_disconnect_inner.

Definition try_auth_inner (reason_code : Z) (properties : list Property)
    : M (MqttClientError + ()) :=
  e ← get_st;
  if negb (mo_mqtt_version (me_options e) =? 5)
     || negb ((reason_code =? 24) || (reason_code =? 25))
  then err (InvalidConfiguration "AUTH"
              "Client AUTH requires MQTT 5 and reason code 0x18 or 0x19") else
  method ←? try (ok_or (find_map authentication_method (mo_connect_properties (me_options e)))
                   (InvalidConfiguration "AUTH" "CONNECT must specify an authentication method"));
  if existsb (λ p, match authentication_method p with
                   | Some value => bool_decide (value ≠ method)
                   | None => false
                   end) properties
  then err (ProtocolViolation "Authentication method cannot change during a connection") else
  let s := me_state e in
  let valid_state := if reason_code =? 25 then me_is_connected e && negb (ps_reauthenticating s)
                     else ps_connecting s || ps_reauthenticating s in
  if negb valid_state || ps_input_closed s
  then err (ProtocolViolation "AUTH is not valid in the current authentication state") else
  let properties := if existsb is_auth_method properties then properties
                    else AuthenticationMethod method :: properties in
  _ ←? enqueue_packet_inner (Auth {| au_reason_code := reason_code; au_properties := properties |});
  (if reason_code =? 25 then on_state (λ s, s <| ps_reauthenticating := true |>) else mret ());;
  ok ().

Definition auth_inner (reason_code : Z) (properties : list Property) : M (MqttClientError + ()) :=
  try_auth_inner reason_code properties.

Definition auth_received (reason_code : Z) (properties : list Property) : M (option MqttEvent) :=
  e ← get_st;
  let expected := find_map authentication_method (mo_connect_properties (me_options e)) in
  let methods := omap authentication_method properties in
  let s := me_state e in
  let valid_state := match reason_code with
                     | 0 => me_is_connected e && ps_reauthenticating s
                     | 24 => ps_connecting s || ps_reauthenticating s
                     | _ => false
                     end in
  if bool_decide (expected = None) || negb valid_state || negb (zlen methods =? 1)
     || bool_decide (head methods ≠ expected)
  then
    fail_connection (ProtocolViolation "Server AUTH must use the CONNECT authentication method during an active authentication exchange");;
    mret None
  else
    (if reason_code =? 0 then on_state (λ s, s <| ps_reauthenticating := false |>) else mret ());;
    mret (Some (AuthReceived {| ar_reason_code := reason_code; ar_properties := properties |})).

Definition pingreq_packet self : MqttPacket :=
  if mo_mqtt_version (me_options self) =? 5 then PingReq5 else PingReq3.

Definition send_ping_inner_at now : M (MqttClientError + ()) :=
  e ← get_st;
  _ ←? enqueue_packet_inner (pingreq_packet e);
  modify (λ e, e <| me_last_packet_sent := now |> <| me_ping_sent_at := Some now |>);;
  ok ().

Definition send_ping_inner : M (MqttClientError + ()) := e ← get_st; send_ping_inner_at (me_now e).
Definition try_send_ping_inner : M (MqttClientError + ()) :=
  e ← get_st; send_ping_inner_at (me_now e).

(** ** Restoring a session after CONNACK *)
Definition is_pubrel (packet : MqttPacket) : bool :=
  match packet with PubRel3 _ | PubRel5 _ => true | _ => false end.

(** [sort_by_key] with a boolean key, stable: PUBREL first. *)
Definition pubrel_first (previous : list (Z * MqttPacket)) : list (Z * MqttPacket) :=
  List.filter (λ p, is_pubrel p.2) previous ++ List.filter (λ p, negb (is_pubrel p.2)) previous.

Definition restore_one (replay_unacknowledged : bool) (previous : Z * MqttPacket) : M () :=
  let '(id, packet) := previous in
  if replay_unacknowledged && is_publish_exchange packet then
    let packet := strip_alias (MqttPacket_set_dup packet true) in
    acknowledge id;;
    modify (λ e, e <| me_session_replay ::= λ l, l ++ [(id, packet)] |>)
  else fail_operation id packet SessionExpired.

(** [restore_session], returning the errors it appends to [events]. *)
Definition restore_session (session_present : bool) : M (list MqttEvent) :=
  e ← get_st;
  let previous := me_previous_inflight e in
  modify (λ e, e <| me_previous_inflight := [] |>);;
  let options := me_options e in
  let resumed := session_present && negb (mo_sessionless options) in
  let replay_unacknowledged := resumed
    || (negb (mo_mqtt_version options =? 5) && negb (mo_clean_start options)
        && negb (mo_sessionless options)) in
  let previous := if replay_unacknowledged then pubrel_first previous else previous in
  for_each_st previous (restore_one replay_unacknowledged);;
  events ← (if negb resumed then
              on_state (λ s, s <| ps_received := ∅ |> <| ps_received_unbound := ∅ |>);;
              e ← get_st;
              let topics := mo_subscription_topics (me_options e) in
              if me_transport_manages_session e then
                modify (λ e, e <| me_configured_subscriptions_pending :=
                                    negb (bool_decide (topics = [])) |>);;
                mret []
              else if negb (bool_decide (topics = [])) then
                r ← subscribe_inner (SubscribeCommand_new None topics []);
                mret match r with inl error => [ErrorEvent error] | inr _ => [] end
              else mret []
            else mret []);
  process_replay;;
  mret events.

(** ** Incoming packets *)
Definition publish_result (id : Z) (reason : option Z) (properties : option (list Property))
    (qos : Z) : MqttEvent :=
  Published {| pr_packet_id := Some id; pr_reason_code := reason; pr_properties := properties;
               pr_qos := qos |}.

(** [if let Some(entry) = acknowledge(id) { finish_operation(id); push(Published ..) }] *)
Definition complete_publish (id : Z) (reason : option Z) (properties : option (list Property))
    : M (list MqttEvent) :=
  entry ← acknowledge id;
  match entry with
  | Some entry =>
      finish_operation id;; mret [publish_result id reason properties (ie_qos entry)]
  | None => mret []
  end.

(** [acknowledge(id); finish_operation(id)] *)
Definition complete_operation (id : Z) : M () := acknowledge id;; finish_operation id.

(** [transition_pubrel_at(..).expect(..)], then the PUBREL as a response *)
Definition release_publish (id : Z) (rel : MqttPacket) : M (list MqttEvent * list MqttPacket) :=
  e ← get_st;
  queue ← expect (InflightQueue_transition_pubrel_at (me_inflight_queue e) id rel (me_now e));
  modify (λ e, e <| me_inflight_queue := queue |>);;
  mret ([], [rel]).

(** The common end of CONNACK. *)
Definition connected (reason_code : Z) (session_present : bool)
    (properties : option (list Property)) : M (list MqttEvent) :=
  let success := reason_code =? 0 in
  modify (λ e, e <| me_is_connected := success |>);;
  (if success then on_state (λ s, s <| ps_has_session := true |>);; reset_reconnect_state
   else mret ());;
  match find_map (λ p, match p with ReceiveMaximum max => Some max | _ => None end)
          (default [] properties) with
  | Some max => set_receive_maximum max
  | None => mret ()
  end;;
  restored ← (if success then restore_session session_present
              else handle_connection_lost_inner;; mret []);
  mret (Connected {| cr_reason_code := reason_code; cr_session_present := session_present;
                     cr_properties := properties |} :: restored).

Definition end_connecting : M () :=
  on_state (λ s, s <| ps_connecting := false |> <| ps_deadlines ::= delete (OpConnect, None) |>).

Definition handle_connack5 (ack : MqttConnAck5) : M (list MqttEvent * list MqttPacket) :=
  e ← get_st;
  if ca5_session_present ack && negb (ps_has_session (me_state e))
  then fail_reply (ProtocolViolation "CONNACK reports Session Present without local session state") else
  let expected := find_map authentication_method (mo_connect_properties (me_options e)) in
  let received := find_map authentication_method (default [] (ca5_properties ack)) in
  if ((ca5_reason_code ack =? 0) && bool_decide (received ≠ expected))
     || (bool_decide (expected = None) && bool_decide (is_Some received))
  then fail_reply (ProtocolViolation "CONNACK authentication method does not match CONNECT") else
  end_connecting;;
  r ← negotiate (default [] (ca5_properties ack));
  match r with
  | inl error => fail_reply error
  | inr _ =>
      events ← connected (ca5_reason_code ack) (ca5_session_present ack) (ca5_properties ack);
      mret (events, [])
  end.

Definition handle_connack3 (ack : MqttConnAck3) : M (list MqttEvent * list MqttPacket) :=
  e ← get_st;
  if ca3_session_present ack && negb (ps_has_session (me_state e))
  then fail_reply (ProtocolViolation "CONNACK reports Session Present without local session state") else
  end_connecting;;
  events ← connected (ca3_return_code ack) (ca3_session_present ack) None;
  mret (events, []).

Definition ping_answered : M () := modify (λ e, e <| me_ping_sent_at := None |>).

(** The dispatch of [handle_packet] after the checks. *)
Definition dispatch_packet (packet : MqttPacket) (stream : option Z)
    : M (list MqttEvent * list MqttPacket) :=
  let events (m : M (list MqttEvent)) : M (list MqttEvent * list MqttPacket) :=
    l ← m; mret (l, []) in
  match packet with
  | ConnAck5 ack => handle_connack5 ack
  | ConnAck3 ack => handle_connack3 ack
  | PubAck5 ack =>
      events (complete_publish (a5_packet_id ack) (Some (a5_reason_code ack))
                (Some (a5_properties ack)))
  | PubAck3 ack => events (complete_publish (a3_message_id ack) (Some 0) None)
  | Publish5 p => receive_message p stream
  | Publish3 p =>
      receive_message (MqttPublish5_new_with_prop (p3_qos p) (p3_topic_name p) (p3_message_id p)
                         (p3_payload p) (p3_retain p) (p3_dup p) []) stream
  | SubAck5 ack =>
      complete_operation (r5_packet_id ack);;
      mret ([Subscribed {| sr_packet_id := r5_packet_id ack; sr_reason_codes := r5_reason_codes ack;
                           sr_properties := r5_properties ack |}], [])
  | SubAck3 ack =>
      complete_operation (sa3_message_id ack);;
      mret ([Subscribed {| sr_packet_id := sa3_message_id ack;
                           sr_reason_codes := sa3_return_codes ack; sr_properties := [] |}], [])
  | UnsubAck5 ack =>
      complete_operation (r5_packet_id ack);;
      mret ([Unsubscribed {| ur_packet_id := r5_packet_id ack;
                             ur_reason_codes := r5_reason_codes ack;
                             ur_properties := r5_properties ack |}], [])
  | UnsubAck3 ack =>
      complete_operation (a3_message_id ack);;
      mret ([Unsubscribed {| ur_packet_id := a3_message_id ack; ur_reason_codes := [];
                             ur_properties := [] |}], [])
  | PingResp5 | PingResp3 => ping_answered;; mret ([PingResponse {| pg_success := true |}], [])
  | PubRec5 rec =>
      if 128 <=? a5_reason_code rec
      then events (complete_publish (a5_packet_id rec) (Some (a5_reason_code rec))
                     (Some (a5_properties rec)))
      else release_publish (a5_packet_id rec) (PubRel5 (PacketIdAck5_new (a5_packet_id rec) 0 []))
  | PubRec3 rec =>
      release_publish (a3_message_id rec) (PubRel3 {| a3_message_id := a3_message_id rec |})
  | PubRel5 rel => receive_pubrel (a5_packet_id rel) stream
  | PubRel3 rel => receive_pubrel (a3_message_id rel) stream
  | PubComp5 comp =>
      events (complete_publish (a5_packet_id comp) (Some (a5_reason_code comp))
                (Some (a5_properties comp)))
  | PubComp3 comp => events (complete_publish (a3_message_id comp) (Some 0) None)
  | Auth auth =>
      event ← auth_received (au_reason_code auth) (au_properties auth);
      mret (option_list event, [])
  | Disconnect5 d =>
      handle_connection_lost_inner;;
      mret ([DisconnectReceived (d5_reason_code d) (d5_properties d)], [])
  | _ => mret ([], [])
  end.

Definition handle_packet (packet : MqttPacket) (stream : option Z)
    : M (list MqttEvent * list MqttPacket) :=
  accepted ← accept_incoming (MqttPacket_packet_type packet);
  if negb accepted then events ← take_events; mret (events, []) else
  e ← get_st;
  r ← try (validate_ack e packet stream);
  match r with
  | inl error =>
      if negb (mo_mqtt_version (me_options e) =? 5)
         || match error with ProtocolViolation _ => true | _ => false end
      then fail_reply error
      else mret ([ErrorEvent error], [])
  | inr _ => dispatch_packet packet stream
  end.

(** Packets of the reduced parse levels. *)
Definition reduced_publish (qos : Z) (packet_id : option Z) (stream : option Z)
    (auto_ack : bool) (puback pubrec : Z → MqttPacket) : option MqttEvent * option MqttPacket :=
  (Some (PublishReceived packet_id stream),
   if auto_ack && (qos =? 1) then puback <$> packet_id
   else if auto_ack && (qos =? 2) then pubrec <$> packet_id
   else None).

Definition handle_type_only (packet : TypeOnlyPacket) (stream : option Z)
    : M (option MqttEvent * option MqttPacket) :=
  match to_packet_type packet with
  | PUBLISH =>
      let qos := Z.land (Z.shiftr (to_flags packet) 1) 3 in
      mret (Some (if qos =? 0 then PublishReceived None stream
                  else ErrorEvent (ProtocolViolation
                    ("type-only parser cannot acknowledge incoming QoS " +:+ pretty qos
                     +:+ " PUBLISH"))), None)
  | PINGRESP => ping_answered;; mret (Some (PingResponse {| pg_success := true |}), None)
  | DISCONNECT => handle_connection_lost_inner;; mret (Some (Disconnected None), None)
  | _ => mret (None, None)
  end.

Definition handle_headers_parsed (packet : HeadersParsedPacket) (stream : option Z)
    : M (option MqttEvent * option MqttPacket) :=
  e ← get_st;
  let auto_ack := mo_auto_ack (me_options e) in
  match hp_variable_header packet with
  | VhPublishV5 _ qos _ _ packet_id _ =>
      mret (reduced_publish qos packet_id stream auto_ack
              (λ id, PubAck5 (PacketIdAck5_new id 0 [])) (λ id, PubRec5 (PacketIdAck5_new id 0 [])))
  | VhPublishV3 _ qos _ _ message_id =>
      mret (reduced_publish qos message_id stream auto_ack
              (λ id, PubAck3 {| a3_message_id := id |}) (λ id, PubRec3 {| a3_message_id := id |}))
  | VhPubRelV5 packet_id _ _ =>
      mret (Some (PubRelReceived packet_id stream),
            if auto_ack then Some (PubComp5 (PacketIdAck5_new packet_id 0 [])) else None)
  | VhPacketIdOnlyV3 message_id =>
      match hp_packet_type packet with
      | PUBREL =>
          mret (Some (PubRelReceived message_id stream),
                if auto_ack then Some (PubComp3 {| a3_message_id := message_id |}) else None)
      | _ => mret (None, None)
      end
  | VhEmpty =>
      match hp_packet_type packet with
      | PINGRESP => ping_answered;; mret (Some (PingResponse {| pg_success := true |}), None)
      | DISCONNECT => handle_connection_lost_inner;; mret (Some (Disconnected None), None)
      | _ => mret (None, None)
      end
  | VhAuthV5 reason_code properties =>
      event ← auth_received reason_code properties; mret (event, None)
  | VhDisconnectV5 reason_code properties =>
      handle_connection_lost_inner;;
      mret (Some (DisconnectReceived reason_code properties), None)
  | _ => mret (None, None)
  end.

Definition handle_reduced_packet (packet : ParsedPacket) (stream : option Z)
    : M (option MqttEvent * option MqttPacket) :=
  accepted ← accept_incoming (ParsedPacket_packet_type packet);
  if negb accepted then mret (None, None) else
  match packet with
  | ParsedTypeOnly packet => handle_type_only packet stream
  | ParsedHeaders packet => handle_headers_parsed packet stream
  | ParsedRawBody _ =>
      mret (Some (ErrorEvent (InvalidState "Full, HeadersParsed, or TypeOnly parser level"
                                "RawBody parser level")), None)
  | ParsedFull _ => panic
  end.

(** ** Input *)
Definition maximum_packet_size_of (p : Property) : option Z :=
  match p with MaximumPacketSize v => Some v | _ => None end.

Definition option_min (a b : option Z) : option Z :=
  match a, b with
  | Some a, Some b => Some (Z.min a b)
  | Some a, None => Some a
  | None, b => b
  end.

Definition validate_input_buffer (options : MqttClientOptions) (b : bytes)
    : result MqttClientError () :=
  match mo_max_incoming_buffer_bytes options with
  | Some capacity => if capacity <? zlen b then Err (BufferFull "incoming bytes" capacity) else Ok ()
  | None => Ok ()
  end ≫= λ _,
  let advertised := match mo_maximum_packet_size options with
                    | Some v => Some v
                    | None => find_map maximum_packet_size_of (mo_connect_properties options)
                    end in
  match option_min (mo_max_incoming_packet_size options) advertised with
  | Some capacity =>
      if 2 <=? zlen b then
        match parse_vbi (drop 1 b) with
        | Ok (length, n) =>
            if capacity <? length + n + 1 then Err (BufferFull "incoming packet" capacity) else Ok ()
        | _ => Ok ()
        end
      else Ok ()
  | None => Ok ()
  end.

(** The loop of [handle_incoming]: every round takes a packet off the buffer or ends it. *)
Fixpoint incoming_loop (fuel : nat) : M () :=
  match fuel with
  | O => panic
  | S fuel =>
      e ← get_st;
      if negb (bool_decide (ps_responses (me_state e) = [])) || ps_input_closed (me_state e)
      then mret () else
      buffer ← expect (MqttParser_buffer (me_parser e));
      r ← try (validate_input_buffer (me_options e) buffer);
      match r with
      | inl error => fail_connection error
      | inr _ =>
          if mo_max_event_count (me_options e) <=? zlen (me_events e) then mret () else
          let '(r, parser) := MqttParser_next_parsed (me_parser e) in
          modify (λ e, e <| me_parser := parser |>);;
          r ← try r;
          match r with
          | inr (Some (ParsedFull packet)) =>
              modify (λ e, e <| me_last_packet_received := me_now e |>);;
              '(events, responses) ← handle_packet packet None;
              extend_events events;;
              on_state (λ s, s <| ps_responses ::= λ l, l ++ responses |>);;
              flush_responses;;
              incoming_loop fuel
          | inr (Some packet) =>
              modify (λ e, e <| me_last_packet_received := me_now e |>);;
              '(event, response) ← handle_reduced_packet packet None;
              extend_events (option_list event);;
              match response with
              | Some response =>
                  on_state (λ s, s <| ps_responses ::= λ l, l ++ [response] |>);;
                  flush_responses
              | None => mret ()
              end;;
              incoming_loop fuel
          | inr None => mret ()
          | inl error => fail_connection (from_parse_error error)
          end
      end
  end.

Definition handle_incoming_inner (data : bytes) : M (list MqttEvent) :=
  e ← get_st;
  if ps_input_closed (me_state e) then take_events else
  buffer ← expect (MqttParser_buffer (me_parser e));
  let overflow :=
    match mo_max_incoming_buffer_bytes (me_options e) with
    | Some capacity =>
        if capacity <? usize_saturating_add (zlen buffer) (zlen data) then Some capacity else None
    | None => None
    end in
  match overflow with
  | Some capacity => fail_connection (BufferFull "incoming bytes" capacity);; take_events
  | None =>
      parser ← expect (MqttParser_feed (me_parser e) data);
      modify (λ e, e <| me_parser := parser |>);;
      flush_responses;;
      incoming_loop (S (S (length buffer + length data)));;
      process_queue;;
      take_events
  end.

(** [ingest_parsed_stream_packet_into]: the events it appends and the encoded responses. *)
Definition encode_response (events : list MqttEvent) (encoded : bytes) (response : MqttPacket)
    : panics (list MqttEvent * bytes) :=
  match MqttPacket_to_bytes response with
  | Ok b => Ok (events, encoded ++ b)
  | Err error => Ok (events ++ [ErrorEvent (from_parse_error error)], encoded)
  | Panic => Panic
  end.

Fixpoint encode_responses (responses : list MqttPacket) (events : list MqttEvent) (encoded : bytes)
    : panics (list MqttEvent * bytes) :=
  match responses with
  | [] => Ok (events, encoded)
  | response :: responses =>
      '(events, encoded) ← encode_response events encoded response;
      encode_responses responses events encoded
  end.

Definition ingest_parsed_stream_packet_into (packet : ParsedPacket) (stream : Z)
    (events : list MqttEvent) : M (list MqttEvent * bytes) :=
  modify (λ e, e <| me_last_packet_received := me_now e |>);;
  taken ← take_events;
  let events := events ++ taken in
  '(events, encoded) ←
    match packet with
    | ParsedFull packet =>
        '(packet_events, responses) ← handle_packet packet (Some stream);
        lift (encode_responses responses (events ++ packet_events) [])
    | packet =>
        '(event, response) ← handle_reduced_packet packet (Some stream);
        lift (encode_responses (option_list response) (events ++ option_list event) [])
    end;
  (if negb (bool_decide (encoded = []))
   then modify (λ e, e <| me_last_packet_sent := me_now e |>) else mret ());;
  process_queue;;
  taken ← take_events;
  mret (events ++ taken, encoded).

Definition ingest_stream_packet_inner (packet : MqttPacket) (stream : Z)
    : M (list MqttEvent * bytes) :=
  ingest_parsed_stream_packet_into (ParsedFull packet) stream [].

(** ** Timers *)
Definition retransmit now (expired : MqttPacket * option Z) : M () :=
  let '(packet, stream) := expired in
  let packet := MqttPacket_set_dup packet true in
  match MqttPacket_to_bytes packet with
  | Ok encoded =>
      match stream with
      | Some stream_id =>
          modify (λ e, e <| me_stream_retransmissions ::= λ l, l ++ [(stream_id, encoded)] |>)
      | None =>
          r ← enqueue_packet_inner packet;
          match r with
          | inr _ | inl (BufferFull _ _) => mret ()
          | inl error => push_event (ErrorEvent error)
          end
      end;;
      modify (λ e, e <| me_last_packet_sent := now |>)
  | Err _ => mret ()
  | Panic => panic
  end.

Definition handle_retransmissions now : M () :=
  e ← get_st;
  '(expired, queue) ← expect (InflightQueue_get_expired_with_stream_at (me_inflight_queue e) now);
  modify (λ e, e <| me_inflight_queue := queue |>);;
  for_each_st expired (retransmit now).

Definition handle_tick_inner now : M (list MqttEvent) :=
  check_deadlines now;;
  flush_responses;;
  e ← get_st;
  if negb (me_is_connected e) then
    match me_next_reconnect_at e with
    | Some reconnect_at =>
        if ord_le reconnect_at now then
          push_event ReconnectNeeded;;
          modify (λ e, e <| me_next_reconnect_at := None |>)
        else mret ()
    | None => mret ()
    end;;
    take_events
  else
  let keep_alive := Duration_from_secs (ps_keep_alive (me_state e)) in
  ping_timeout ← lift (Duration_mul keep_alive (mo_ping_timeout_multiplier (me_options e)));
  if (0 <? keep_alive)
     && match me_ping_sent_at e with
        | Some sent_at => ping_timeout <=? tp_saturating_duration_since now sent_at
        | None => false
        end
  then
    connection_lost_at now;;
    push_event (Disconnected None);;
    take_events
  else
  (if bool_decide (me_ping_sent_at e = None) && mo_auto_keepalive (me_options e) && (0 <? keep_alive)
      && (keep_alive <=? tp_saturating_duration_since now (me_last_packet_sent e))
   then send_ping_inner_at now;; mret ()
   else mret ());;
  process_queue;;
  handle_retransmissions now;;
  take_events.

(** The least of a nonempty collection of times. *)
Definition time_min (a : option T) (t : T) : option T :=
  match a with Some a => Some (if ord_le a t then a else t) | None => Some t end.

Definition next_tick_at self : panics (option T) :=
  let deadlines := (λ d, d.2.1) <$> map_to_list (ps_deadlines (me_state self)) in
  if negb (me_is_connected self) then
    Ok (foldl time_min (me_next_reconnect_at self) deadlines)
  else
  let keep_alive := Duration_from_secs (ps_keep_alive (me_state self)) in
  next ← (if 0 <? keep_alive then
            match me_ping_sent_at self with
            | Some ping_sent_at =>
                timeout ← Duration_mul keep_alive (mo_ping_timeout_multiplier (me_options self));
                Some <$> deadline_from ping_sent_at timeout
            | None =>
                if mo_auto_keepalive (me_options self)
                then Some <$> deadline_from (me_last_packet_sent self) keep_alive else Ok None
            end
          else Ok None);
  let next := match InflightQueue_next_expiration (me_inflight_queue self) with
              | Some resend_at =>
                  match next with
                  | None => Some resend_at
                  | Some at_ => if ord_lt resend_at at_ then Some resend_at else next
                  end
              | None => next
              end in
  Ok (foldl time_min next deadlines).

(** ** Output *)

(** Drains the buffer, then lets the queues refill it, until nothing is left to send. *)
Fixpoint take_outgoing_loop (fuel : nat) (all_bytes : bytes) : M bytes :=
  match fuel with
  | O => panic
  | S fuel =>
      e ← get_st;
      modify (λ e, e <| me_outgoing_buffer := [] |>);;
      let all_bytes := all_bytes ++ concat (me_outgoing_buffer e) in
      flush_responses;;
      e ← get_st;
      (if negb (ps_input_closed (me_state e)) then
         events ← handle_incoming_inner [];
         extend_events events
       else mret ());;
      process_queue;;
      e ← get_st;
      if bool_decide (me_outgoing_buffer e = []) then mret all_bytes
      else take_outgoing_loop fuel all_bytes
  end.

(** What the buffer can still be filled from. *)
Definition pending_work self : nat :=
  length (mp_buffer (me_parser self)) + length (ps_responses (me_state self))
  + length (me_session_replay self) + length (me_previous_inflight self)
  + Z.to_nat (PriorityQueue_len (me_priority_queue self)).

Definition take_outgoing_inner : M bytes :=
  e ← get_st; take_outgoing_loop (S (S (pending_work e))) [].

(** ** Explicit-time entry points *)
Definition MqttEngine_try_new_at (options : MqttClientOptions) now
    : result MqttClientError (MqttEngine T) :=
  if negb ((3 <=? mo_mqtt_version options) && (mo_mqtt_version options <=? 5))
     || (mo_parser_buffer_size options =? 0) || (mo_max_event_count options =? 0)
     || (mo_max_outgoing_packet_count options =? 0)
  then Err (InvalidConfiguration "engine options"
    "MQTT version must be 3, 4 or 5 and parser/event/packet limits must be nonzero") else
  _ ← check_time_range options now;
  Ok (MqttEngine_new_at options now).

(** [self.begin_update(now)?; Ok(body)] and [self.begin_update(now)?; body] *)
Definition timed {A} now (body : M A) : M (MqttClientError + A) :=
  _ ←? begin_update now; a ← body; ok a.
Definition timed_try {A} now (body : M (MqttClientError + A)) : M (MqttClientError + A) :=
  _ ←? begin_update now; body.

Definition handle_connection_lost_at now := timed now handle_connection_lost_inner.
Definition reset_for_new_transport_at now := timed now reset_for_new_transport_inner.
Definition schedule_reconnect_at now := timed now (schedule_reconnect_inner now).
Definition handle_incoming_at (data : bytes) now := timed now (handle_incoming_inner data).
Definition handle_tick_at now := timed now (handle_tick_inner now).
Definition take_outgoing_at now := timed now take_outgoing_inner.
Definition connect_at now := timed_try now connect_inner.
Definition publish_at command now := timed_try now (publish_inner command).
Definition publish_encoded_at command stream now :=
  timed_try now (publish_encoded_inner command stream).
Definition ingest_stream_packet_at packet stream now :=
  timed now (ingest_stream_packet_inner packet stream).
Definition subscribe_at command now := timed_try now (subscribe_inner command).
Definition unsubscribe_at command now := timed_try now (unsubscribe_inner command).
Definition subscribe_encoded_at command stream now :=
  timed_try now (subscribe_encoded_inner command stream).
Definition unsubscribe_encoded_at command stream now :=
  timed_try now (unsubscribe_encoded_inner command stream).
Definition disconnect_at now := timed_try now disconnect_inner.
Definition try_disconnect_at now := timed_try now try_disconnect_inner.
Definition try_disconnect_with_at reason_code properties now :=
  timed_try now (try_disconnect_with_inner reason_code properties).
Definition auth_at reason_code properties now := timed_try now (auth_inner reason_code properties).
Definition try_auth_at reason_code properties now :=
  timed_try now (try_auth_inner reason_code properties).
Definition send_ping_at now := timed_try now send_ping_inner.
Definition try_send_ping_at now := timed_try now try_send_ping_inner.
Definition enqueue_packet_at packet now := timed_try now (enqueue_packet_inner packet).
Definition puback_at id reason properties now := timed_try now (puback_inner id reason properties).
Definition pubrec_at id reason properties now := timed_try now (pubrec_inner id reason properties).
Definition pubcomp_at id reason properties now := timed_try now (pubcomp_inner id reason properties).
End Engine.
