(* ===== verification/EncodeFacts.v ===== *)
(** * Encoding facts the engine relies on

    Encoding a packet never panics, and a valid PUBLISH stays encodable when its Topic Alias is
    removed ([strip_alias]) or its DUP flag is set, the two changes the engine makes to packets
    it keeps for a later connection. *)
From S2P Require Import Prelude BaseData TopicFilter Validation Properties Packets Framing.
From S2P Require Import AckCodec ControlCodec PublishCodec SubscribeCodec ConnectCodec Codec.
From S2P Require Import Stream Leveled Time PriorityQueue ClientError Options ClientTypes.
From S2P Require Import Commands.
From S2P Require Import Inflight ClientSession EngineState EngineCore.

(** ** No panics *)
Lemma safe_encode_utf8_string s : safe (encode_utf8_string s) (λ _, True).
Proof. unfold encode_utf8_string, validate_mqtt_utf8_string. by repeat case_match. Qed.
Lemma safe_encode_binary_data d : safe (encode_binary_data d) (λ _, True).
Proof. unfold encode_binary_data. by case_match. Qed.
Lemma safe_encode_properities_hdr ps : safe (encode_properities_hdr ps) (λ _, True).
Proof.
  unfold encode_properities_hdr, PropertyEncoder_new. generalize 0. intros acc.
  assert (H : ∀ acc, safe (PropertyEncoder_body_len ps acc) (λ _, True)).
  { clear. induction ps as [|p ps IH]; intros acc; [done|]. cbn [PropertyEncoder_body_len].
    assert (Hp : safe (Property_encoded_len p) (λ _, True)).
    { unfold Property_encoded_len. destruct p; simpl; unfold binary_len; safe_auto; done. }
    destruct (Property_encoded_len p); [apply IH|done|done]. }
  specialize (H acc). by destruct (PropertyEncoder_body_len ps acc).
Qed.
#[export] Hint Resolve safe_encode_utf8_string safe_encode_binary_data
  safe_encode_properities_hdr : safe.

Lemma safe_extend_each {A} (f : A → res bytes) l b :
  (∀ x, safe (f x) (λ _, True)) → safe (extend_each f l b) (λ _, True).
Proof.
  intros Hf. revert b. induction l as [|x l IH]; intros b; [done|]. simpl.
  specialize (Hf x). destruct (f x); [apply IH|done|done].
Qed.
Lemma safe_extend_some {A} (f : A → res bytes) o :
  (∀ x, safe (f x) (λ _, True)) → safe (extend_some f o) (λ _, True).
Proof. intros Hf. destruct o; simpl; [apply Hf|done]. Qed.
#[export] Hint Resolve safe_extend_each safe_extend_some : safe.

Lemma safe_to_bytes {P} (impl : MqttControlPacket P) p :
  safe (mcp_validate impl p) (λ _, True) → safe (mcp_variable_header impl p) (λ _, True) →
  safe (mcp_payload impl p) (λ _, True) → safe (to_bytes impl p) (λ _, True).
Proof.
  unfold to_bytes. intros H1 H2 H3.
  destruct (mcp_validate impl p); [|done..]. simpl. destruct (mcp_variable_header impl p); [|done..].
  simpl. by destruct (mcp_payload impl p).
Qed.

Lemma safe_Will5_payload w : safe (Will5_payload w) (λ _, True).
Proof. unfold Will5_payload. safe_auto; done. Qed.
Lemma safe_TopicSubscription_to_bytes t : safe (TopicSubscription_to_bytes t) (λ _, True).
Proof. unfold TopicSubscription_to_bytes. safe_auto; done. Qed.
#[export] Hint Resolve safe_Will5_payload safe_TopicSubscription_to_bytes : safe.

Lemma safe_packet_to_bytes p : safe (MqttPacket_to_bytes p) (λ _, True).
Proof.
  pose proof (safe_MqttPacket_validate p) as Hv.
  destruct p; cbn [MqttPacket_to_bytes MqttPacket_validate] in *;
    try (apply safe_to_bytes; [exact Hv|..]; simpl;
         unfold PacketIdAck5_variable_header, ReasonCodesAck5_variable_header,
           ReasonCodesAck5_payload, MqttSubAck3_payload, MqttConnect5_variable_header,
           MqttConnect5_payload, MqttConnect3_variable_header, MqttConnect3_payload,
           MqttConnAck5_variable_header, MqttConnAck3_variable_header,
           MqttDisconnect5_variable_header, MqttAuth_variable_header,
           MqttSubscribe5_variable_header, MqttSubscribe5_payload,
           MqttUnsubscribe5_variable_header, MqttUnsubscribe5_payload, MqttSubscribe3_payload,
           MqttUnsubscribe3_payload;
         safe_auto; try done; eauto with safe).
  - unfold MqttPublish5_to_bytes, MqttPublish5_encode_to_buffer, PropertyEncoder_new.
    pose proof (safe_encode_properities_hdr (p5_properties p)) as Hp.
    unfold encode_properities_hdr, PropertyEncoder_new in Hp.
    destruct (MqttPublish5_validate p); [|done..]. simpl. destruct (u16_MAX <? _); [done|].
    destruct (0 <? p5_qos p), (p5_packet_id p); simpl; try done; case_bool_decide; try done;
      by destruct (PropertyEncoder_body_len _ _).
  - unfold MqttPublish3_to_bytes, MqttPublish3_encode_to_buffer.
    destruct (MqttPublish3_validate p); [|done..]. simpl.
    by destruct (0 <? p3_qos p), (p3_message_id p).
  - apply safe_extend_each. intros t. unfold SubscriptionTopic_to_bytes. safe_auto; done.
  - induction (sa3_return_codes p) as [|c l IH]; [done|]. simpl.
    destruct (negb _); [done|]. simpl. by destruct (for_each _ l).
  - by apply safe_extend_each.
Qed.

Lemma to_bytes_no_panic p : MqttPacket_to_bytes p ≠ Panic.
Proof. intros H. pose proof (safe_packet_to_bytes p) as Hs. by rewrite H in Hs. Qed.

(** ** Removing the Topic Alias *)
Definition topic_set (p : MqttPacket) : Prop :=
  match p with Publish5 p => p5_topic_name p ≠ [] | _ => True end.

Lemma properties_ok_filter context f ps :
  context ≠ CtxConnect → properties_ok context ps → properties_ok context (List.filter f ps).
Proof.
  intros Hc (Ha & Hn & _). split; [|split; [|done]].
  - clear Hn. induction Ha as [|p ps Hp _ IH]; simpl; [done|]. destruct (f p); [by constructor|done].
  - clear Ha. unfold singleton_ids in *. induction ps as [|p ps IH]; simpl in *; [done|].
    rewrite filter_cons in Hn. destruct (f p); simpl.
    + rewrite filter_cons. destruct (decide _); [|auto].
      apply NoDup_cons in Hn as [Hnin Hn]. apply NoDup_cons. split; [|auto].
      intros Hin. apply Hnin. apply list_elem_of_filter in Hin as [Hr Hin].
      apply list_elem_of_filter. split; [done|].
      apply list_elem_of_fmap in Hin as (q & -> & Hq). apply list_elem_of_fmap. exists q.
      split; [done|]. apply list_elem_of_In in Hq. apply filter_In in Hq as [Hq _].
      by apply list_elem_of_In.
    + destruct (decide _); [apply NoDup_cons in Hn as [_ Hn]|]; auto.
Qed.

Lemma encode_properities_hdr_filter f ps b :
  encode_properities_hdr ps = Ok b → ∃ b', encode_properities_hdr (List.filter f ps) = Ok b'.
Proof.
  unfold encode_properities_hdr, PropertyEncoder_new. generalize 0 at 1. intros acc H.
  apply bind_Ok_inv in H as (e & He & _). apply bind_Ok_inv in He as (n & He & _).
  assert (Hf : ∀ acc', ∃ n', PropertyEncoder_body_len (List.filter f ps) acc' = Ok n').
  { revert acc He. induction ps as [|p ps IH]; intros acc He acc'; simpl in *; [eauto|].
    apply bind_Ok_inv in He as (len & Hl & He). destruct (f p); simpl; [rewrite Hl; simpl|]; eauto. }
  destruct (Hf 0) as [n' ->]. simpl. eauto.
Qed.

Lemma publish5_encoded p bs :
  MqttPublish5_to_bytes p = Ok bs →
  MqttPublish5_validate p = Ok () ∧ ∃ props, encode_properities_hdr (p5_properties p) = Ok props.
Proof.
  unfold MqttPublish5_to_bytes, MqttPublish5_encode_to_buffer. intros H.
  apply bind_Ok_inv in H as ([] & Hv & H). split; [done|].
  destruct (u16_MAX <? _); [done|]. apply bind_Ok_inv in H as (pid & _ & H).
  case_bool_decide as Hn; [rewrite Hn; by exists [0]|].
  apply bind_Ok_inv in H as (e & He & _). unfold encode_properities_hdr. rewrite He. simpl. eauto.
Qed.

Lemma publish5_encodes p props :
  MqttPublish5_validate p = Ok () → encode_properities_hdr (p5_properties p) = Ok props →
  ∃ bs, MqttPublish5_to_bytes p = Ok bs.
Proof.
  intros Hv Hp. destruct (MqttPublish5_validate_inv _ Hv) as (Hid & _ & Ht).
  unfold MqttPublish5_to_bytes, MqttPublish5_encode_to_buffer. rewrite Hv. simpl.
  apply validation_string_Ok in Ht as [Hl _].
  replace (u16_MAX <? zlen (p5_topic_name p)) with false by lia.
  edestruct validation_publish_pid as [-> _]; [exact Hid|]. simpl.
  case_bool_decide; [eauto|]. unfold encode_properities_hdr in Hp.
  apply bind_Ok_inv in Hp as (e & -> & _). simpl. eauto.
Qed.

Lemma strip_alias_encodes p bs :
  topic_set p → MqttPacket_to_bytes p = Ok bs →
  ∃ bs', MqttPacket_to_bytes (strip_alias p) = Ok bs'.
Proof.
  intros Ht H. destruct p as [| |p| | | | | | | | | | | | | | | | | | | | | | | | | |]; simpl in *;
    eauto.
  apply publish5_encoded in H as (Hv & props & Hp).
  destruct (encode_properities_hdr_filter (λ x, negb (is_TopicAlias x)) _ _ Hp) as [props' Hp'].
  eapply publish5_encodes; [|exact Hp'].
  unfold MqttPublish5_validate in *. simpl. apply bind_Ok_inv in Hv as ([] & -> & Hv).
  apply bind_Ok_inv in Hv as ([] & Hps & Hv). simpl.
  apply validation_properties_spec in Hps.
  apply (properties_ok_filter _ (λ x, negb (is_TopicAlias x))) in Hps; [|done].
  apply validation_properties_spec in Hps. rewrite Hps. simpl.
  by case_bool_decide.
Qed.

Lemma topic_set_strip p : topic_set p → topic_set (strip_alias p).
Proof. by destruct p. Qed.

Lemma wf_strip_alias p : wf_packet p → wf_packet (strip_alias p).
Proof.
  destruct p; simpl; auto. unfold wf_publish5. simpl. intros (? & ? & ? & ? & Hps).
  do 4 (split; [done|]). clear -Hps. induction Hps as [|q ps Hq _ IH]; simpl; [done|].
  destruct (negb _); [by constructor|done].
Qed.

(** The length of a variable byte integer grows with its value. *)
Lemma vbi_encoded_len_mono a b :
  0 <= a <= b → VariableByteInteger_encoded_len a <= VariableByteInteger_encoded_len b.
Proof.
  unfold VariableByteInteger_encoded_len. generalize vbi_fuel 1. intros fuel len Hab.
  assert (Hge : ∀ v l, l <= VariableByteInteger_encoded_len_loop fuel v l).
  { clear. induction fuel as [|fuel IH]; intros v l; simpl; [lia|].
    destruct (128 <=? v); [|lia]. specialize (IH (Z.shiftr v 7) (l + 1)). lia. }
  revert a b len Hab Hge. induction fuel as [|fuel IH]; intros a b len Hab Hge; simpl; [lia|].
  assert (Hge' : ∀ v l, l <= VariableByteInteger_encoded_len_loop fuel v l).
  { clear. induction fuel as [|fuel IH]; intros v l; simpl; [lia|].
    destruct (128 <=? v); [|lia]. specialize (IH (Z.shiftr v 7) (l + 1)). lia. }
  destruct (Z.leb_spec 128 a), (Z.leb_spec 128 b); try lia.
  - apply IH; [|done]. rewrite !Z.shiftr_div_pow2 by lia. split; [apply Z.div_pos; lia|].
    apply Z.div_le_mono; lia.
  - specialize (Hge' (Z.shiftr b 7) (len + 1)). lia.
Qed.

Lemma zlen_vbi_mono a b :
  0 <= a <= b → b < 4294967296 →
  zlen (VariableByteInteger_encode (as_u32 a)) <= zlen (VariableByteInteger_encode (as_u32 b)).
Proof.
  intros Hab Hb. rewrite !zlen_vbi_encode by apply is_u32_as_u32.
  unfold as_u32. rewrite !Z.mod_small by lia. by apply vbi_encoded_len_mono.
Qed.

Lemma properties_bytes_filter f ps :
  zlen (properties_bytes (List.filter f ps)) <= zlen (properties_bytes ps).
Proof.
  unfold properties_bytes. induction ps as [|p ps IH]; [done|]. cbn [List.filter].
  destruct (f p); rewrite ?bind_cons, ?zlen_app; zlia.
Qed.

Lemma properties_section_filter f ps :
  zlen (properties_section ps) < 4294967296 →
  zlen (properties_section (List.filter f ps)) <= zlen (properties_section ps).
Proof.
  unfold properties_section. rewrite !zlen_app. intros Hs.
  pose proof (properties_bytes_filter f ps) as Hf.
  pose proof (zlen_nonneg (properties_bytes (List.filter f ps))).
  pose proof (zlen_nonneg (VariableByteInteger_encode (as_u32 (zlen (properties_bytes ps))))).
  pose proof (zlen_vbi_mono (zlen (properties_bytes (List.filter f ps)))
                (zlen (properties_bytes ps)) ltac:(lia) ltac:(lia)). lia.
Qed.

Lemma publish_wire_mono flags topic pid props props' payload :
  zlen props' <= zlen props →
  zlen (publish_wire flags topic pid props payload) < 4294967296 →
  zlen (publish_wire flags topic pid props' payload)
  <= zlen (publish_wire flags topic pid props payload).
Proof.
  unfold publish_wire. set (vh := _ ++ from_option _ _ _). intros Hp.
  rewrite !zlen_cons, !(zlen_app (VariableByteInteger_encode _)). intros Hs.
  pose proof (zlen_nonneg (VariableByteInteger_encode (as_u32 (zlen (vh ++ props ++ payload))))).
  assert (Hle : 0 <= zlen (vh ++ props' ++ payload) <= zlen (vh ++ props ++ payload)).
  { split; [apply zlen_nonneg|]. rewrite !zlen_app. lia. }
  pose proof (zlen_vbi_mono _ _ Hle ltac:(lia)). lia.
Qed.

Lemma publish_wire_props flags topic pid props payload :
  zlen props <= zlen (publish_wire flags topic pid props payload).
Proof. unfold publish_wire. zlia. Qed.

Lemma strip_alias_shorter p bs bs' :
  wf_packet p → MqttPacket_to_bytes p = Ok bs → MqttPacket_to_bytes (strip_alias p) = Ok bs' →
  zlen bs < 4294967296 → zlen bs' <= zlen bs.
Proof.
  intros Hwf H H' Hs.
  destruct p as [| |p| | | | | | | | | | | | | | | | | | | | | | | | | |]; simpl in *;
    try (assert (bs' = bs) as -> by congruence; lia).
  pose proof (wf_strip_alias (Publish5 p) Hwf) as Hwf'. simpl in Hwf'.
  pose proof (publish5_encoded _ _ H) as (Hv & props & Hp).
  pose proof (publish5_encoded _ _ H') as (Hv' & props' & Hp').
  unfold MqttPublish5_to_bytes in *.
  rewrite MqttPublish5_encode_single_pass, Hp in H by done.
  rewrite MqttPublish5_encode_single_pass, Hp' in H' by done. simpl in H, H'.
  apply Ok_inj in H, H'. subst bs bs'. unfold wf_publish5 in *.
  apply encode_properities_hdr_Ok in Hp as [-> _]; [|apply Hwf].
  apply encode_properities_hdr_Ok in Hp' as [-> _]; [|apply Hwf']. simpl in *.
  match goal with |- _ <= zlen (publish_wire ?f ?t ?i ?s ?p) =>
    pose proof (publish_wire_props f t i s p) end.
  apply publish_wire_mono; [|done]. apply properties_section_filter. lia.
Qed.
