(* ===== verification/EngineInv.v ===== *)
(** * The engine's invariant

    What holds of the engine between two calls, for a client that keeps its session
    ([sessionless = false]), and the proof that the internal operations of [EngineCore] preserve
    it without panicking.  The invariant ties together the clock and every deadline computed
    from it, the parser, the inflight queue, and the ownership of packet identifiers: an
    identifier is reserved as long as one of the send queue, the inflight queue, the replay list
    or the deferred list of an interrupted handshake holds it, and at most one of them does. *)
From S2P Require Import Prelude BaseData TopicFilter Validation Properties Packets Framing Codec.
From S2P Require Import Stream Leveled Time PriorityQueue ClientError Options ClientTypes.
From S2P Require Import Commands Inflight ClientSession EngineState EngineCore EncodeFacts.

Section invariant.
Context {T : Type} `{TimePointLaws T} `{!Runtime T} `{!RuntimeLaws T}.
Implicit Types (e : MqttEngine T) (t : T).
Local Abbreviation M := (St (MqttEngine T)).

(** ** The parts *)
Definition config_ok e : Prop :=
  wf_options (me_options e) ∧ mo_sessionless (me_options e) = false ∧
  me_reconnect_base_delay e = Duration_from_millis (mo_reconnect_base_delay_ms (me_options e)) ∧
  me_reconnect_max_delay e = Duration_from_millis (mo_reconnect_max_delay_ms (me_options e)) ∧
  is_u16 (ps_keep_alive (me_state e)).

(** The times the engine counts from are not after [now], and every configured duration can be
    added to [now]. *)
Definition clock_ok e : Prop :=
  check_time_range (me_options e) (me_now e) = Ok () ∧
  ord_le (me_last_packet_sent e) (me_now e) = true ∧
  (∀ t, me_ping_sent_at e = Some t → ord_le t (me_now e) = true).

Definition parser_ok e : Prop :=
  parser_inv (me_parser e) ∧ mp_mqtt_version (me_parser e) = mo_mqtt_version (me_options e).

Definition inflight_ok e : Prop :=
  let q := me_inflight_queue e in
  inflight_inv q ∧ (∀ last, iq_last_update q = Some last → ord_le last (me_now e) = true) ∧
  iq_mqtt_version q = mo_mqtt_version (me_options e) ∧
  iq_retransmission_timeout q
  = Duration_from_millis (mo_retransmission_timeout_ms (me_options e)).

(** The application messages waiting to be sent, and the identifiers among them. *)
Definition queued e : list MqttPacket := (contents (me_priority_queue e)).*2.
Definition queued_ids (l : list MqttPacket) : list Z := omap queued_id l.

Definition encoded_len (p : MqttPacket) : Z :=
  match MqttPacket_to_bytes p with Ok b => zlen b | _ => 0 end.
Definition total_len (l : list MqttPacket) : Z := foldr (λ p n, encoded_len p + n) 0 l.

Definition queued_ok (p : MqttPacket) : Prop :=
  wf_packet p ∧ topic_set p ∧ is_Ok (MqttPacket_to_bytes p) = true ∧
  is_publish p = true ∧ (is_Some (queued_id p) ↔ needs_ack p = true).

Definition queue_ok e : Prop :=
  pq_inv (me_priority_queue e) ∧
  pq_capacity (me_priority_queue e) = mo_max_outgoing_packet_count (me_options e) ∧
  Forall queued_ok (queued e).

(** Who holds a packet identifier. *)
Record ids_owned (reserved : gset Z) (inflight : gmap Z (InflightEntry T))
    (queued replay previous : list Z) : Prop := {
  io_queued : ∀ id, id ∈ queued →
    id ≠ 0 ∧ id ∈ reserved ∧ inflight !! id = None ∧ id ∉ replay ∧ id ∉ previous;
  io_replay : ∀ id, id ∈ replay → id ≠ 0 ∧ id ∈ reserved ∧ inflight !! id = None;
  io_previous : ∀ id, id ∈ previous → id ≠ 0 ∧ id ∈ reserved;
  io_inflight : ∀ id, is_Some (inflight !! id) → id ∈ reserved;
  io_nodup_queued : NoDup queued;
  io_nodup_replay : NoDup replay;
  io_nodup_previous : NoDup previous;
  io_apart : ∀ id, id ∈ replay → id ∉ previous;
}.

Definition ids_ok e : Prop :=
  ids_owned (ps_reserved (me_state e)) (iq_entries (me_inflight_queue e))
    (queued_ids (queued e)) (me_session_replay e).*1 (me_previous_inflight e).*1 ∧
  (me_is_connected e = true → me_previous_inflight e = []).

(** The output buffer holds whole encoded packets within the configured limits; the bytes of
    the queued packets are accounted for.  The byte limit is stated for limits below 4 GiB. *)
Definition output_ok e : Prop :=
  Forall (λ b, ∃ p, MqttPacket_to_bytes p = Ok b) (me_outgoing_buffer e) ∧
  zlen (me_outgoing_buffer e) <= mo_max_outgoing_packet_count (me_options e) ∧
  ps_queued_bytes (me_state e) = total_len (queued e) ∧
  (∀ capacity, mo_max_outgoing_buffer_bytes (me_options e) = Some capacity →
     capacity < 4294967296 → outgoing_bytes e <= capacity).

(** Identifiers are drawn from a 16-bit counter; an alias stands for a topic;
    the room kept for a CONNECT is a length. *)
Definition sender_ok e : Prop :=
  (∀ s, me_session e = Some s → is_u16 (cs_packet_id_counter s)) ∧
  (∀ alias topic, ps_outgoing_aliases (me_state e) !! alias = Some topic →
     wf_str topic ∧ topic ≠ []) ∧
  0 <= ps_control_reserve (me_state e).

Record engine_inv e : Prop := {
  ei_config : config_ok e;
  ei_clock : clock_ok e;
  ei_parser : parser_ok e;
  ei_inflight : inflight_ok e;
  ei_queue : queue_ok e;
  ei_ids : ids_ok e;
  ei_output : output_ok e;
  ei_sender : sender_ok e;
}.

(** The number of reconnection attempts that may be counted before the next reset. *)
Definition attempts_bound (B : Z) e : Prop :=
  0 <= me_reconnect_attempts e ∧
  (me_next_reconnect_at e = None ∨ 1 <= me_reconnect_attempts e) ∧
  me_reconnect_attempts e + (match me_next_reconnect_at e with Some _ => 0 | None => 1 end) <= B.

(** The work that can still turn into output, a bound on the rounds of [take_outgoing]. *)
Definition work e : Z :=
  zlen (unread (me_parser e)) + zlen (ps_responses (me_state e)) + zlen (me_session_replay e)
  + zlen (me_previous_inflight e) + zlen (queued e).
Definition potential e : Z := work e + zlen (me_outgoing_buffer e).

(** Inside a call at time [t]: the invariant, at most [B] attempts, at most [U] unread bytes of
    input, at most [K] work. *)
Record good (t : T) (B U K : Z) e : Prop := {
  gd_inv : engine_inv e;
  gd_now : me_now e = t;
  gd_attempts : attempts_bound B e;
  gd_unread : zlen (unread (me_parser e)) <= U;
  gd_work : potential e <= K;
}.

Lemma good_weaken t B B' U U' K K' e :
  good t B U K e → B <= B' → U <= U' → K <= K' → good t B' U' K' e.
Proof.
  intros [Hi Hn (? & ? & ?) Hu Hk] HB HU HK. split; [done|done| |lia|lia].
  split; [done|]. split; [done|lia].
Qed.

(** ** The clock *)
Lemma check_time_range_spec options now :
  is_u32 (mo_ping_timeout_multiplier options) →
  check_time_range options now = Ok () ↔
  ∃ durations, horizon options = Ok durations ∧
    Forall (λ d, is_Some (tp_checked_add now d)) durations.
Proof.
  intros Hm. unfold check_time_range, horizon, Duration_mul, Duration_from_secs.
  unfold is_u32 in Hm. set (mult := Z.max (mo_ping_timeout_multiplier options) 1).
  assert (1 <= mult < 4294967296) by lia. unfold u16_MAX, u64_MAX.
  replace (65535 * 1000000000 * mult <=? _) with true by (symmetry; apply Z.leb_le; nia).
  cbn [mbind result_bind]. set (ds := _ ++ _).
  destruct (existsb _ ds) eqn:E.
  - split; [done|]. intros (ds' & [= <-] & Hall). exfalso.
    apply existsb_exists in E as (d & Hin & Hd). apply negb_true_iff, bool_decide_eq_false in Hd.
    apply Hd. apply (proj1 (Forall_forall _ _) Hall). by apply list_elem_of_In.
  - split; [intros _|done]. exists ds. split; [done|]. apply Forall_forall. intros d Hin.
    destruct (bool_decide (is_Some (tp_checked_add now d))) eqn:Hd; [by apply bool_decide_eq_true in Hd|].
    exfalso. apply not_true_iff_false in E. apply E. apply existsb_exists. exists d.
    split; [by apply list_elem_of_In|]. by rewrite Hd.
Qed.

Lemma deadline_defined e d :
  engine_inv e → (∃ ds, horizon (me_options e) = Ok ds ∧ d ∈ ds) →
  is_Some (tp_checked_add (me_now e) d).
Proof.
  intros Hi (ds & Hds & Hin). destruct (ei_config e Hi) as (Hwf & _).
  destruct (ei_clock e Hi) as (Hr & _).
  apply check_time_range_spec in Hr as (ds' & Hds' & Hall); [|apply Hwf].
  rewrite Hds in Hds'. simplify_eq. by apply (proj1 (Forall_forall _ _) Hall).
Qed.

Lemma horizon_elements options :
  is_u32 (mo_ping_timeout_multiplier options) →
  ∃ ds, horizon options = Ok ds ∧
    Duration_from_secs u16_MAX * Z.max (mo_ping_timeout_multiplier options) 1 ∈ ds ∧
    Duration_from_millis (mo_retransmission_timeout_ms options) ∈ ds ∧
    Duration_from_millis (mo_reconnect_max_delay_ms options) ∈ ds ∧
    ∀ d, (Some d = ot_connect (mo_operation_timeouts options) ∨
          Some d = ot_publish (mo_operation_timeouts options) ∨
          Some d = ot_subscribe (mo_operation_timeouts options) ∨
          Some d = ot_unsubscribe (mo_operation_timeouts options)) → d ∈ ds.
Proof.
  intros Hm. unfold horizon, Duration_mul, Duration_from_secs, u16_MAX, u64_MAX, is_u32 in *.
  replace (65535 * 1000000000 * _ <=? _) with true by (symmetry; apply Z.leb_le; nia).
  cbn [mbind result_bind]. eexists. split; [done|].
  split_and!; [apply elem_of_app; left; set_solver..|].
  intros d Hd. apply elem_of_app. right. apply list_elem_of_omap.
  exists (Some d). split; [|done]. destruct Hd as [->|[->|[->| ->]]]; set_solver.
Qed.
End invariant.
