(* ===== verification/EngineSteps.v ===== *)
(** * The internal operations preserve the invariant *)
From S2P Require Import Prelude BaseData TopicFilter Validation Properties Packets Framing Codec.
From S2P Require Import Stream Leveled Time PriorityQueue ClientError Options ClientTypes.
From S2P Require Import Commands Inflight ClientSession EngineState EngineCore EncodeFacts.
From S2P Require Import EngineInv.

(** Fields the invariant does not read may change freely: each part of the invariant of the
    changed engine is, by computation, that of the engine before. *)
Ltac frame :=
  match goal with
  | H : good _ _ _ _ ?e |- good _ _ _ _ _ =>
      destruct H as [[Hcfg Hclk Hprs Hinf Hque Hids Hout Hsnd] Hnow Hatt Hunr Hwrk];
      split; [split|..]; try assumption
  | H : engine_inv ?e |- engine_inv _ =>
      destruct H as [Hcfg Hclk Hprs Hinf Hque Hids Hout Hsnd]; split; try assumption
  end.

(** One step of a run. *)
Ltac run_step :=
  match goal with
  | |- runs (mbind _ _) _ _ => apply runs_bind
  | |- runs (try_bind _ _) _ _ => apply runs_try_bind
  | |- runs get_st _ _ => apply runs_get
  | |- runs (modify _) _ _ => apply runs_modify
  | |- runs (mret _) _ _ => apply runs_ret
  | |- runs (ok _) _ _ => apply runs_ret
  | |- runs (err _) _ _ => apply runs_ret
  end; cbv beta.

(** ** Identifiers *)
Section ids.
Context {T : Type} (R : gset Z) (E : gmap Z (InflightEntry T)) (Q P V : list Z).
Hypothesis Hown : ids_owned R E Q P V.

Lemma ids_release id :
  id ∉ Q → E !! id = None → id ∉ P → id ∉ V → ids_owned (R ∖ {[id]}) E Q P V.
Proof.
  intros HQ HI HP HV. destruct Hown as [Hq Hp Hv Hi]. split; try done.
  - intros i Hin. destruct (Hq i Hin) as (? & ? & ? & ? & ?). assert (i ≠ id) by set_solver.
    set_solver.
  - intros i Hin. destruct (Hp i Hin) as (? & ? & ?). assert (i ≠ id) by set_solver. set_solver.
  - intros i Hin. destruct (Hv i Hin) as (? & ?). assert (i ≠ id) by set_solver. set_solver.
  - intros i Hin. assert (i ≠ id) by (intros ->; rewrite HI in Hin; by destruct Hin).
    specialize (Hi i Hin). set_solver.
Qed.

Lemma ids_reserve id : ids_owned ({[id]} ∪ R) E Q P V.
Proof.
  destruct Hown as [Hq Hp Hv Hi]. split; try done.
  - intros i Hin. destruct (Hq i Hin) as (? & ? & ? & ? & ?). set_solver.
  - intros i Hin. destruct (Hp i Hin) as (? & ? & ?). set_solver.
  - intros i Hin. destruct (Hv i Hin) as (? & ?). set_solver.
  - intros i Hin. specialize (Hi i Hin). set_solver.
Qed.

Lemma ids_acknowledge id : ids_owned R (delete id E : gmap Z (InflightEntry T)) Q P V.
Proof.
  destruct Hown as [Hq Hp Hv Hi]. split; try done.
  - intros i Hin. destruct (Hq i Hin) as (? & ? & ? & ? & ?). split_and!; try done.
    apply lookup_delete_None. auto.
  - intros i Hin. destruct (Hp i Hin) as (? & ? & ?). split_and!; try done.
    apply lookup_delete_None. auto.
  - intros i [x Hx%lookup_delete_Some]. apply Hi. naive_solver.
Qed.

Lemma ids_track id x : id ∈ R → id ∉ Q → id ∉ P → ids_owned R (<[id := x]> E) Q P V.
Proof.
  intros HR HQ HP. destruct Hown as [Hq Hp Hv Hi]. split; try done.
  - intros i Hin. destruct (Hq i Hin) as (? & ? & ? & ? & ?). split_and!; try done.
    rewrite lookup_insert_ne; [done|]. by intros ->.
  - intros i Hin. destruct (Hp i Hin) as (? & ? & ?). split_and!; try done.
    rewrite lookup_insert_ne; [done|]. by intros ->.
  - intros i Hin. destruct (decide (i = id)) as [->|Hne]; [done|].
    rewrite lookup_insert_ne in Hin by done. auto.
Qed.

Lemma ids_same_dom (E' : gmap Z (InflightEntry T)) :
  (∀ id, is_Some (E' !! id) ↔ is_Some (E !! id)) → ids_owned R E' Q P V.
Proof.
  intros Hd. assert (Hn : ∀ id, E !! id = None → E' !! id = None).
  { intros id Hid. apply eq_None_not_Some. rewrite Hd, Hid. by intros []. }
  destruct Hown as [Hq Hp Hv Hi]. split; try done.
  - intros i Hin. destruct (Hq i Hin) as (? & ? & ? & ? & ?). auto.
  - intros i Hin. destruct (Hp i Hin) as (? & ? & ?). auto.
  - intros i Hin. apply Hi. by apply Hd.
Qed.

(** An identifier nobody reserved is held by nobody. *)
Lemma ids_fresh id : id ∉ R → id ∉ Q ∧ id ∉ P ∧ id ∉ V ∧ E !! id = None.
Proof.
  intros Hid. destruct Hown as [Hq Hp Hv Hi]. split_and!.
  - intros Hin. by destruct (Hq id Hin) as (_ & ? & _).
  - intros Hin. by destruct (Hp id Hin) as (_ & ? & _).
  - intros Hin. by destruct (Hv id Hin) as (_ & ?).
  - apply eq_None_not_Some. auto.
Qed.
End ids.

Section steps.
Context {T : Type} `{TimePointLaws T} `{!Runtime T} `{!RuntimeLaws T}.
Context (t : T) (B U : Z) (HB : B <= u32_MAX).
Implicit Types (e : MqttEngine T) (id : Z).
Local Abbreviation M := (St (MqttEngine T)).

Definition keeps {A} (m : M A) : Prop :=
  ∀ K e, good t B U K e → runs m e (λ _ e', good t B U K e').

Lemma keeps_bind {A C} (m : M A) (f : A → M C) : keeps m → (∀ a, keeps (f a)) → keeps (m ≫= f).
Proof.
  intros Hm Hf K e He. apply runs_bind. eapply runs_mono; [by apply Hm|]. intros a e' He'. by apply Hf.
Qed.
Lemma keeps_ret {A} (a : A) : keeps (mret a).
Proof. by intros K e He. Qed.
Lemma keeps_for_each {A} (l : list A) (f : A → M ()) : (∀ x, keeps (f x)) → keeps (for_each_st l f).
Proof. intros Hf. induction l; simpl; [apply keeps_ret|by apply keeps_bind]. Qed.

Lemma good_mono K K' e : good t B U K e → K <= K' → good t B U K' e.
Proof. intros [] ?. split; [done..|lia]. Qed.

(** ** Events *)
Lemma push_event_keeps event : keeps (push_event event).
Proof. intros K e He. apply runs_modify. frame. Qed.
Lemma extend_events_keeps events : keeps (extend_events events).
Proof. intros K e He. apply runs_modify. frame. Qed.
Lemma take_events_keeps : keeps take_events.
Proof. intros K e He. unfold take_events. repeat run_step. frame. Qed.

Lemma start_deadline_keeps op (id : option Z) : keeps (start_deadline op id).
Proof.
  intros K e He. unfold start_deadline. repeat run_step.
  destruct (horizon_elements (me_options e)) as (ds & Hds & _ & _ & _ & Hin).
  { apply (ei_config e (gd_inv _ _ _ _ _ He)). }
  destruct (match op with OpConnect => _ | _ => _ end) as [d|] eqn:Hd; [|by run_step].
  run_step. apply runs_lift. unfold deadline_from.
  destruct (deadline_defined e d) as [at_ Hat]; [apply He|..].
  { exists ds. split; [done|]. apply Hin. destruct op; auto. }
  exists at_. split; [by rewrite Hat|]. apply runs_modify. frame.
Qed.


(** The lists that hold identifiers, and the connection flag. *)
Definition same_lists e e' : Prop :=
  me_priority_queue e' = me_priority_queue e ∧ me_session_replay e' = me_session_replay e ∧
  me_previous_inflight e' = me_previous_inflight e ∧ me_is_connected e' = me_is_connected e ∧
  ps_responses (me_state e') = ps_responses (me_state e) ∧ me_options e' = me_options e ∧
  me_transport_manages_session e' = me_transport_manages_session e.

Lemma same_lists_refl e : same_lists e e.
Proof. by split_and!. Qed.
Lemma same_lists_trans e1 e2 e3 : same_lists e1 e2 → same_lists e2 e3 → same_lists e1 e3.
Proof. unfold same_lists. intuition congruence. Qed.

(** Neither queued, to be replayed, nor deferred. *)
Definition unlisted id e : Prop :=
  id ∉ queued_ids (queued e) ∧ id ∉ (me_session_replay e).*1 ∧ id ∉ (me_previous_inflight e).*1.

Lemma acknowledge_step K e id :
  good t B U K e →
  ∃ q, acknowledge id e = Ok (iq_entries (me_inflight_queue e) !! id, e <| me_inflight_queue := q |>) ∧
    iq_entries q = delete id (iq_entries (me_inflight_queue e)) ∧
    good t B U K (e <| me_inflight_queue := q |>).
Proof.
  intros He. unfold acknowledge. destruct (ei_inflight e (gd_inv _ _ _ _ _ He)) as (Hi & Hl & Hv & Ht).
  pose proof (acknowledge_ok _ id Hi) as Hack.
  assert (Hlast : iq_last_update (InflightQueue_acknowledge (me_inflight_queue e) id).2
                  = iq_last_update (me_inflight_queue e)).
  { unfold InflightQueue_acknowledge. destruct (iq_entries _ !! id); [|done]. simpl.
    by destruct (is_publish_exchange _). }
  unfold mbind, St_bind, get_st. cbv beta iota.
  destruct (InflightQueue_acknowledge (me_inflight_queue e) id) as [entry q].
  destruct Hack as (-> & Hi' & (_ & Hv' & Ht') & _ & He' & _). exists q. split_and!; [done|done|].
  simpl in Hlast. frame.
  - split; [done|]. split; [cbn; by rewrite Hlast|]. cbn. by rewrite Hv', Ht'.
  - destruct Hids as [Hown Hc]. split; [|done]. cbn. rewrite He'. by apply ids_acknowledge.
Qed.

Lemma finish_operation_step K e id :
  good t B U K e → unlisted id e → iq_entries (me_inflight_queue e) !! id = None →
  runs (finish_operation id) e (λ _ e', good t B U K e' ∧ same_lists e e' ∧
    me_inflight_queue e' = me_inflight_queue e ∧
    ps_reserved (me_state e') = ps_reserved (me_state e) ∖ {[id]}).
Proof.
  intros He (Hq & Hr & Hp) Hi. unfold finish_operation, on_state. repeat run_step.
  case_bool_decide; repeat run_step; (split; [|by split_and!]); frame;
    destruct Hids as [Hown Hc]; (split; [|done]); cbn; by apply ids_release.
Qed.

Lemma fail_operation_step K e id p error :
  good t B U K e → unlisted id e →
  runs (fail_operation id p error) e (λ _ e', good t B U K e' ∧ same_lists e e').
Proof.
  intros He Hu. unfold fail_operation. apply runs_bind.
  destruct (acknowledge_step K e id He) as (q & Ha & Hq & He'). unfold runs. rewrite Ha.
  apply runs_bind. eapply runs_mono.
  { apply (finish_operation_step K); [done|done|]. cbn. rewrite Hq. apply lookup_delete_eq. }
  intros [] e2 (He2 & Hs & _ & _). apply (runs_mono _ _ (λ _ e', good t B U K e' ∧ same_lists e2 e')).
  - unfold push_event. run_step. split; [frame|by split_and!].
  - intros [] e3 [? ?]. split; [done|]. eapply same_lists_trans; [|done]. exact Hs.
Qed.

(** ** Loss of the connection *)
Lemma close_input_step K e :
  good t B U K e →
  runs close_input e (λ _ e', good t B U K e' ∧ me_is_connected e' = false ∧
    ps_input_closed (me_state e') = true ∧
    me_next_reconnect_at e' = me_next_reconnect_at e ∧ me_options e' = me_options e).
Proof.
  intros He. unfold close_input, on_state. repeat run_step.
  destruct (ei_parser e (gd_inv _ _ _ _ _ He)) as (Hp & Hv).
  destruct (compact_spec (me_parser e) Hp) as (p & Hc & (Hp' & Hu & Hpv & _) & Hoff).
  apply runs_expect. exists p. split; [done|]. repeat run_step. split; [|by split_and!].
  pose proof (zlen_nonneg (unread (me_parser e))).
  pose proof (zlen_nonneg (ps_responses (me_state e))).
  frame.
  - destruct Hclk as (? & ? & _). by split_and!.
  - split; [|cbn; congruence]. cbn. rewrite Hoff. unfold parser_inv. cbn [mp_buffer mp_read_offset
      mp_mqtt_version with_buffer]. split; [zlia|]. split; [done|]. split; [constructor|apply Hp'].
  - destruct Hids as [Hown _]. by split.
  - simpl. rewrite Hoff. change (unread (with_buffer p [] 0)) with (@nil Z). zlia.
  - etrans; [|exact Hwrk]. unfold potential, work, queued. simpl. rewrite Hoff.
    change (unread (with_buffer p [] 0)) with (@nil Z). zlia.
Qed.

Lemma strip_queued_ok p : queued_ok p → queued_ok (strip_alias p).
Proof.
  intros (Hw & Ht & He & Hp & Hn). split; [by apply wf_strip_alias|].
  split; [by apply topic_set_strip|]. split; [|by destruct p].
  destruct (MqttPacket_to_bytes p) as [bs| |] eqn:Hb; [|done..].
  by destruct (strip_alias_encodes p bs Ht Hb) as [bs' ->].
Qed.

Lemma queued_id_strip p : queued_id (strip_alias p) = queued_id p.
Proof. by destruct p. Qed.

Lemma encoded_bytes_ok l : Forall queued_ok l → encoded_bytes l = Ok (total_len l).
Proof.
  induction 1 as [|p l (_ & _ & He & _) _ IH]; [done|]. cbn [encoded_bytes total_len foldr].
  unfold encoded_len at 1. destruct (MqttPacket_to_bytes p); [|done..]. by rewrite IH.
Qed.

Lemma encoded_len_nonneg p : 0 <= encoded_len p.
Proof. unfold encoded_len. destruct (MqttPacket_to_bytes p); [apply zlen_nonneg|lia..]. Qed.
Lemma total_len_nonneg l : 0 <= total_len l.
Proof. induction l as [|p l IH]; cbn; [lia|]. pose proof (encoded_len_nonneg p). unfold total_len in *. lia. Qed.

Lemma total_len_strip l :
  Forall queued_ok l → total_len l < 4294967296 → total_len (strip_alias <$> l) <= total_len l.
Proof.
  induction 1 as [|p l (Hw & Ht & He & _) _ IH]; [done|].
  rewrite fmap_cons. cbn [total_len foldr]. fold (total_len l) (total_len (strip_alias <$> l)).
  intros Hs. pose proof (total_len_nonneg l). pose proof (encoded_len_nonneg p).
  specialize (IH ltac:(lia)). unfold encoded_len in *.
  destruct (MqttPacket_to_bytes p) as [bs| |] eqn:Hb; [|done..].
  destruct (strip_alias_encodes p bs Ht Hb) as [bs' Hb']. rewrite Hb'.
  pose proof (strip_alias_shorter p bs bs' Hw Hb Hb' ltac:(lia)). lia.
Qed.

Lemma sum_len_nonneg l : 0 <= sum_len l.
Proof. induction l as [|b l IH]; cbn; [lia|]. unfold sum_len in *. pose proof (zlen_nonneg b). lia. Qed.

Lemma update_receive_maximum_ok (q : InflightQueue T) m :
  inflight_inv q →
  let q' := InflightQueue_update_receive_maximum q m in
  inflight_inv q' ∧ iq_entries q' = iq_entries q ∧ iq_last_update q' = iq_last_update q ∧
  iq_mqtt_version q' = iq_mqtt_version q ∧
  iq_retransmission_timeout q' = iq_retransmission_timeout q.
Proof.
  intros Hq. unfold InflightQueue_update_receive_maximum.
  destruct (Z.ltb_spec 0 m); [|done]. split; [|done]. destruct Hq. by split.
Qed.

Lemma set_maximum_inflight_ok e m :
  inflight_ok e → inflight_ok (e <| me_inflight_queue ::= λ q, InflightQueue_update_receive_maximum q m |>).
Proof.
  intros (Hi & Hl & Hv & Ht). pose proof (update_receive_maximum_ok _ m Hi) as (? & _ & Hl' & Hv' & Ht').
  split; [done|]. cbn. by rewrite Hl', Hv', Ht'.
Qed.
Lemma set_maximum_ids_ok e m :
  inflight_ok e → ids_ok e →
  ids_ok (e <| me_inflight_queue ::= λ q, InflightQueue_update_receive_maximum q m |>).
Proof.
  intros (Hi & _) [Hown Hc]. pose proof (update_receive_maximum_ok _ m Hi) as (_ & He & _).
  split; [|done]. cbn. by rewrite He.
Qed.

Lemma queued_iter_mut e f :
  queued (e <| me_priority_queue ::= PriorityQueue_iter_mut f |>) = f <$> queued e.
Proof.
  unfold queued.
  change (me_priority_queue (e <| me_priority_queue ::= PriorityQueue_iter_mut f |>))
    with (PriorityQueue_iter_mut f (me_priority_queue e)).
  rewrite iter_mut_contents, <- !list_fmap_compose. done.
Qed.

Lemma strip_queue_step e :
  engine_inv e → me_outgoing_buffer e = [] →
  let e' := e <| me_priority_queue ::= PriorityQueue_iter_mut strip_alias |> in
  encoded_bytes (PriorityQueue_iter (me_priority_queue e')).*2 = Ok (total_len (queued e')) ∧
  engine_inv (e' <| me_state ::= λ s, s <| ps_queued_bytes := total_len (queued e') |> |>) ∧
  zlen (queued e') = zlen (queued e).
Proof.
  intros He Hob e'. pose proof (queued_iter_mut e strip_alias) as Hq. fold e' in Hq.
  assert (Hok : Forall queued_ok (queued e')).
  { rewrite Hq. apply Forall_fmap. eapply Forall_impl; [apply (ei_queue e He)|].
    intros p. apply strip_queued_ok. }
  split; [|split; [|by rewrite Hq; unfold zlen; rewrite length_fmap]].
  { rewrite iter_contents. by apply encoded_bytes_ok. }
  pose proof (ei_queue e He) as (Hpq & Hcap & Hall). pose proof (ei_output e He) as (_ & Hn & Hqb & Hbytes).
  frame.
  - split; [by apply iter_mut_inv|]. by split.
  - destruct Hids as [Hown Hc]. split; [|done].
    change (ids_owned (ps_reserved (me_state e)) (iq_entries (me_inflight_queue e))
              (queued_ids (queued e')) (me_session_replay e).*1 (me_previous_inflight e).*1).
    rewrite Hq. replace (queued_ids (strip_alias <$> queued e)) with (queued_ids (queued e)); [done|].
    unfold queued_ids. generalize (queued e). intros l. induction l as [|p l IH]; [done|]. csimpl.
    by rewrite queued_id_strip, IH.
  - destruct Hout as (Hob' & _). split; [done|]. split; [done|]. split; [done|].
    intros c Hc Hlt. specialize (Hbytes c Hc Hlt).
    change (total_len (queued e') + sum_len (me_outgoing_buffer e) <= c).
    unfold outgoing_bytes in Hbytes. rewrite Hob, Hqb in *. cbn [sum_len foldr] in *. rewrite Hq.
    pose proof (total_len_strip (queued e) Hall ltac:(lia)). lia.
Qed.

Lemma reset_step K e :
  good t B U K e →
  runs reset_for_new_transport_inner e (λ _ e', good t (B + 1) U K e' ∧
    me_reconnect_attempts e' = me_reconnect_attempts e ∧ me_options e' = me_options e ∧
    me_is_connected e' = false ∧ ps_input_closed (me_state e') = true).
Proof.
  intros He. unfold reset_for_new_transport_inner. apply runs_bind.
  pose proof (close_input_step K e He) as Hclose.
  assert (Hatt0 : runs close_input e (λ _ e', me_reconnect_attempts e' = me_reconnect_attempts e)).
  { unfold close_input, on_state. repeat run_step. destruct (ei_parser e (gd_inv _ _ _ _ _ He)) as (Hp & _).
    destruct (compact_spec (me_parser e) Hp) as (p & Hc & _). apply runs_expect. exists p.
    split; [done|]. by repeat run_step. }
  eapply runs_mono; [apply (runs_and _ _ _ _ Hclose Hatt0)|]. clear Hclose Hatt0.
  intros [] e1 [(He1 & Hc1 & Hin1 & Hnr1 & Ho1) Ha1]. unfold on_state. repeat run_step.
  match goal with |- runs _ (?st <| me_priority_queue ::= _ |>) _ => set (e2 := st) end.
  assert (He2 : engine_inv e2 ∧ me_now e2 = t ∧ potential e2 <= K ∧ me_is_connected e2 = false ∧
    me_outgoing_buffer e2 = []).
  { split; [|split; [apply He1|split; [|by split]]].
    - unfold e2. clear -He1. destruct He1 as [Hi _ _ _]. frame.
      + exact (set_maximum_inflight_ok e1 _ Hinf).
      + exact (set_maximum_ids_ok e1 _ Hinf Hids).
      + destruct Hout as (_ & _ & Hqb & Hbytes). split; [constructor|].
        destruct Hcfg as (Hw & _). pose proof (wo_outgoing_count _ Hw) as Hcnt.
        unfold is_usize, is_u64 in Hcnt. split; [cbn; rewrite zlen_nil; lia|]. split; [done|].
        intros c Hc Hlt. specialize (Hbytes c Hc Hlt). unfold outgoing_bytes in Hbytes.
        change (ps_queued_bytes (me_state e1) + 0 <= c).
        pose proof (sum_len_nonneg (me_outgoing_buffer e1)). lia.
      + destruct Hsnd as (? & _ & ?). split; [done|]. split; [|done]. intros alias topic Ha.
        simpl in Ha. by rewrite lookup_empty in Ha.
    - etrans; [|apply (gd_work _ _ _ _ _ He1)]. unfold e2, potential, work, queued. simpl. zlia. }
  destruct He2 as (He2 & Hn2 & Hw2 & Hd2 & Ho2).
  destruct (strip_queue_step e2 He2 Ho2) as (Hb & He3 & Hz).
  apply runs_lift. eexists. split; [exact Hb|]. repeat run_step.
  set (e3 := e2 <| me_priority_queue ::= _ |>) in *.
  assert (Hopt : me_options e3 = me_options e1) by done.
  rewrite Hopt. destruct (ei_config e1 (gd_inv _ _ _ _ _ He1)) as (Hwf & Hsl & _). rewrite Hsl.
  repeat run_step. split; [|split_and!; done].
  destruct He3 as [Hcfg Hclk Hprs Hinf Hque Hids Hout Hsnd]. split; [split|..]; try assumption.
  - destruct Hcfg as (? & ? & ? & ? & _). split; [done|]. split; [done|]. split; [done|].
    split; [done|]. cbn. apply Hwf.
  - destruct Hclk as (? & _ & _). split; [done|]. split; [cbn; apply ord_le_refl|done].
  - split; [|done]. cbn. unfold parser_inv. cbn. split; [zlia|]. split; [done|].
    split; [constructor|]. by destruct (wo_mqtt_version _ Hwf) as [->|[->| ->]].
  - destruct (gd_attempts _ _ _ _ _ He1) as (? & ? & ?). split; [done|]. split; [by left|]. cbn.
    destruct (me_next_reconnect_at e1); lia.
  - pose proof (gd_unread _ _ _ _ _ He1). pose proof (zlen_nonneg (unread (me_parser e1))).
    simpl. change (unread (MqttParser_new _ _)) with (@nil Z). zlia.
  - etrans; [|exact Hw2]. pose proof (zlen_nonneg (unread (me_parser e2))).
    unfold potential, work, queued in *. simpl in *. rewrite Hz.
    change (unread (MqttParser_new _ _)) with (@nil Z). zlia.
Qed.

(** ** Reconnection *)

(** The delay before the next attempt: the base delay doubled per attempt, at most 10 times,
    and never more than the maximum. *)
Definition reconnect_delay_ms (base max attempts : Z) : Z := Z.min (base * 2 ^ Z.min attempts 10) max.

Lemma as_millis_from_millis n : Duration_as_millis (Duration_from_millis n) = n.
Proof. unfold Duration_as_millis, Duration_from_millis. by rewrite Z.div_mul. Qed.

Lemma backoff base max attempts :
  is_u64 base → is_u64 max → 0 <= attempts →
  Z.min (u128_saturating_mul base (Z.shiftl 1 (Z.min attempts 10))) max mod (u64_MAX + 1)
  = reconnect_delay_ms base max attempts ∧
  0 <= reconnect_delay_ms base max attempts <= max.
Proof.
  unfold is_u64, reconnect_delay_ms, u128_saturating_mul, u64_MAX. intros Hb Hm Ha.
  rewrite Z.shiftl_1_l. assert (1 <= 2 ^ Z.min attempts 10 <= 2 ^ 10).
  { split; [apply (Z.pow_le_mono_r 2 0); lia|apply Z.pow_le_mono_r; lia]. }
  change (2 ^ 10) with 1024 in *. change (2 ^ 128 - 1) with 340282366920938463463374607431768211455.
  set (m := 2 ^ Z.min attempts 10) in *. assert (0 <= base * m <= base * 1024) by nia.
  rewrite (Z.min_r _ (base * m)) by lia. rewrite Z.mod_small by lia. lia.
Qed.

(** The delay the engine waits before its next attempt. *)
Definition next_delay e : Z :=
  Duration_from_millis (reconnect_delay_ms (mo_reconnect_base_delay_ms (me_options e))
    (mo_reconnect_max_delay_ms (me_options e)) (me_reconnect_attempts e)).

(** What [schedule_reconnect] does: nothing while an attempt is pending or the attempts are used
    up, and otherwise the next attempt is set. *)
Definition reconnect_outcome e e' : Prop :=
  match me_next_reconnect_at e with
  | Some _ => e' = e
  | None =>
      if (0 <? me_max_reconnect_attempts e)
         && (me_max_reconnect_attempts e <=? me_reconnect_attempts e)
      then e' = e <| me_next_reconnect_at := None |>
      else ∃ at_, tp_checked_add (me_now e) (next_delay e) = Some at_ ∧
        e' = e <| me_next_reconnect_at := Some at_ |> <| me_reconnect_attempts ::= λ n, n + 1 |>
               <| me_events ::= λ l, l ++ [ReconnectScheduled (me_reconnect_attempts e + 1)
                                                               (next_delay e)] |>
  end.

Lemma next_delay_defined e :
  engine_inv e → 0 <= me_reconnect_attempts e →
  is_Some (tp_checked_add (me_now e) (next_delay e)).
Proof.
  intros He Ha. destruct (ei_config e He) as (Hw & _).
  destruct (backoff _ _ _ (wo_base_delay _ Hw) (wo_max_delay _ Hw) Ha) as [_ Hd].
  destruct (horizon_elements (me_options e) (wo_ping_multiplier _ Hw)) as (ds & Hds & _ & _ & Hin & _).
  eapply (tp_add_smaller _ _ (Duration_from_millis (mo_reconnect_max_delay_ms (me_options e)))).
  - unfold next_delay, Duration_from_millis. lia.
  - eapply deadline_defined; eauto.
Qed.

Lemma schedule_reconnect_step K e :
  good t B U K e →
  runs (schedule_reconnect_inner t) e (λ _ e', good t B U K e' ∧ reconnect_outcome e e').
Proof.
  intros He. unfold schedule_reconnect_inner, reconnect_outcome. run_step. run_step.
  pose proof (gd_attempts _ _ _ _ _ He) as (Ha & Ha' & Hb).
  destruct (me_next_reconnect_at e) as [a|] eqn:Hnr.
  { rewrite bool_decide_true by eauto. run_step. auto. }
  rewrite bool_decide_false by (by intros []).
  destruct (_ && _).
  { run_step. split; [|done]. frame. split; [done|]. split; [by left|done]. }
  destruct (ei_config e (gd_inv _ _ _ _ _ He)) as (Hw & _ & Hbase & Hmax & _).
  destruct (next_delay_defined e (gd_inv _ _ _ _ _ He) Ha) as [at_ Hat].
  destruct (backoff _ _ _ (wo_base_delay _ Hw) (wo_max_delay _ Hw) Ha) as [Hbo _].
  rewrite Hbase, Hmax, !as_millis_from_millis, Hbo. fold (next_delay e).
  run_step. apply runs_lift. exists at_. rewrite (gd_now _ _ _ _ _ He) in Hat.
  split; [by unfold deadline_from; rewrite Hat|].
  run_step. run_step. unfold u32_MAX in *. run_step.
  destruct (Z.eqb_spec (me_reconnect_attempts e) 4294967295); [lia|].
  unfold push_event. repeat run_step. rewrite (gd_now _ _ _ _ _ He). split; [|by eauto].
  frame. unfold attempts_bound. simpl. split; [lia|]. split; [right; lia|lia].
Qed.

(** Whatever [connection_lost_at] is called for, the session survives it. *)
Lemma connection_lost_step K e :
  good t B U K e →
  runs (connection_lost_at t) e (λ _ e', good t B U K e' ∧ me_is_connected e' = false ∧
    ps_input_closed (me_state e') = true ∧ me_options e' = me_options e).
Proof.
  intros He. unfold connection_lost_at. run_step. run_step. run_step.
  eapply runs_mono; [by apply reset_step|]. intros [] e1 (He1 & Ha1 & Ho1 & Hc1 & Hin1).
  repeat run_step. set (e2 := e1 <| me_next_reconnect_at := _ |>).
  assert (He2 : good t B U K e2).
  { pose proof (gd_attempts _ _ _ _ _ He) as Hb. clear He. frame. unfold attempts_bound in *. simpl.
    by rewrite Ha1. }
  destruct (mo_reconnect (me_options e)); [|by repeat run_step].
  eapply runs_mono; [by apply schedule_reconnect_step|]. intros [] e3 [He3 Hout].
  split; [done|]. unfold reconnect_outcome in Hout.
  destruct (me_next_reconnect_at e2); [by subst|].
  destruct (_ && _); [by subst|]. destruct Hout as (? & _ & ->). done.
Qed.
Lemma connection_lost_keeps : keeps (connection_lost_at t).
Proof. intros K e He. eapply runs_mono; [by apply connection_lost_step|]. naive_solver. Qed.

Lemma fail_connection_step K e error :
  good t B U K e →
  runs (fail_connection error) e (λ _ e', good t B U K e' ∧ me_is_connected e' = false ∧
    ps_input_closed (me_state e') = true ∧ me_options e' = me_options e).
Proof.
  intros He. unfold fail_connection, push_event. run_step. run_step. run_step.
  rewrite (gd_now _ _ _ _ _ He).
  eapply runs_mono; [by apply connection_lost_step|]. intros [] e1 (He1 & Ho1 & Hc1 & Hin1).
  repeat run_step. split; [|done]. frame.
Qed.
Lemma fail_connection_keeps error : keeps (fail_connection error).
Proof. intros K e He. eapply runs_mono; [by apply fail_connection_step|]. naive_solver. Qed.

Lemma check_deadlines_keeps : keeps (check_deadlines t).
Proof.
  intros K e He. unfold check_deadlines. run_step. run_step. revert K e He.
  generalize (λ e, List.filter (λ '(_, (at_, _)), ord_le at_ t) (iter_deadlines (ps_deadlines (me_state e)))).
  intros l K e He. apply keeps_for_each; [|done]. clear e K He. intros [[op id] [at_ d]].
  apply keeps_bind; [|intros _; apply keeps_bind; [apply push_event_keeps|intros _]].
  - intros K e He. unfold on_state. run_step. frame.
  - case_bool_decide; [apply connection_lost_keeps|apply keeps_ret].
Qed.

Lemma wf_options_reconnect o b : wf_options o → wf_options (o <| mo_reconnect := b |>).
Proof. intros []. by split. Qed.

Lemma set_reconnect_step K e enabled :
  good t B U K e → runs (set_reconnect enabled) e (λ _ e', good t (B + 1) U K e').
Proof.
  intros He. unfold set_reconnect. run_step. run_step.
  set (e1 := e <| me_options ::= _ |>).
  assert (He1 : good t B U K e1).
  { frame. destruct Hcfg as (Hw & Hrest). split; [by apply wf_options_reconnect|done]. }
  clearbody e1. clear He. destruct enabled; cbn [negb]; repeat run_step; frame.
  - destruct Hatt as (? & ? & ?). split; [done|]. split; [done|]. lia.
  - destruct Hatt as (? & ? & ?). split; [done|]. split; [by left|]. simpl.
    destruct (me_next_reconnect_at e1); lia.
Qed.
End steps.
