(* ===== verification/EngineQueues.v ===== *)
(** * The engine's three queues

    The output buffer and the queues that feed it: protocol responses, the replay of an earlier
    session, and the application's messages.  Each operation preserves the invariant and turns
    work into output one for one, so that none of the loops runs out of fuel. *)
From S2P Require Import Prelude BaseData TopicFilter Validation Properties Packets Framing Codec.
From S2P Require Import Stream Leveled Time PriorityQueue ClientError Options ClientTypes.
From S2P Require Import Commands Inflight ClientSession EngineState EngineCore EncodeFacts.
From S2P Require Import EngineInv EngineSteps.

(** A fallible pure check: both outcomes leave the state alone. *)
Ltac run_try H :=
  match goal with
  | |- runs (try ?r) _ _ =>
      let a := fresh "a" in let x := fresh "x" in
      apply runs_try; [destruct r as [a|x|] eqn:H; cbn [safe]|intros x H]
  end.

Section queues.
Context {T : Type} `{TimePointLaws T} `{!Runtime T} `{!RuntimeLaws T}.
Context (t : T) (B U : Z) (HB : B <= u32_MAX).
Implicit Types (e : MqttEngine T) (id : Z).
Local Abbreviation M := (St (MqttEngine T)).

(** ** The output buffer *)

(** The packet's bytes at the end of the buffer. *)
Definition appended (bs : bytes) e : MqttEngine T :=
  e <| me_outgoing_buffer ::= λ l, l ++ [bs] |> <| me_last_packet_sent := me_now e |>.

Lemma sum_len_snoc l b : sum_len (l ++ [b]) = sum_len l + zlen b.
Proof. unfold sum_len. induction l as [|c l IH]; cbn; [lia|]. rewrite IH. lia. Qed.

Lemma append_good K e p bs :
  good t B U K e → MqttPacket_to_bytes p = Ok bs →
  zlen (me_outgoing_buffer e) < mo_max_outgoing_packet_count (me_options e) →
  (∀ c, mo_max_outgoing_buffer_bytes (me_options e) = Some c → c < 4294967296 →
     outgoing_bytes e + zlen bs <= c) →
  good t B U (K + 1) (appended bs e).
Proof.
  intros He Hp Hlt Hb. frame.
  - destruct Hclk as (? & _ & ?). split; [done|]. split; [apply ord_le_refl|done].
  - destruct Hout as (Hall & Hn & Hq & _). split; [|split; [|split; [done|]]].
    + apply Forall_app. split; [done|]. by repeat econstructor.
    + simpl. zlia.
    + intros c Hc Hc4. specialize (Hb c Hc Hc4). unfold outgoing_bytes in *. simpl.
      rewrite sum_len_snoc. lia.
  - unfold potential, work, queued in *. simpl. zlia.
Qed.

Lemma enqueue_packet_step K e p :
  good t B U K e →
  runs (enqueue_packet_inner p) e (λ r e',
    match r with
    | inl _ => e' = e
    | inr _ => ∃ bs, MqttPacket_to_bytes p = Ok bs ∧ e' = appended bs e ∧ good t B U (K + 1) e'
    end).
Proof.
  intros He. unfold enqueue_packet_inner. run_step. run_step. run_step.
  run_try Hr1; try done; [|by unfold ensure_outgoing_allowed in Hr1; case_match].
  destruct (Z.leb_spec (mo_max_outgoing_packet_count (me_options e)) (zlen (me_outgoing_buffer e)));
    [by run_step|].
  run_step. run_try Hr2; try done; [|by unfold validate_packet_capabilities in Hr2; repeat case_match].
  run_step. run_try Hr3; try done.
  2: { unfold map_parse_error in Hr3. pose proof (to_bytes_no_panic p). by destruct (MqttPacket_to_bytes p). }
  rename a1 into bs. assert (Hbs : MqttPacket_to_bytes p = Ok bs).
  { unfold map_parse_error in Hr3. destruct (MqttPacket_to_bytes p); simplify_eq/=; done. }
  run_step. run_try Hr4; try done.
  2: { unfold check_packet_size in Hr4. repeat case_match; done. }
  run_step. run_try Hr5; try done.
  2: { unfold check_output_capacity in Hr5. repeat case_match; done. }
  repeat run_step. exists bs. split; [done|]. split; [done|].
  eapply append_good; [done..|]. intros c Hc Hc4. unfold check_output_capacity in Hr5. rewrite Hc in Hr5.
  destruct (Z.ltb_spec c (usize_saturating_add (outgoing_bytes e) (zlen bs))); [done|].
  unfold usize_saturating_add, u64_MAX in *. lia.
Qed.

(** As long as the connection is up, the application's messages are left alone. *)
Definition quiet e e' : Prop :=
  me_options e' = me_options e ∧
  (me_is_connected e' = true → me_is_connected e = true ∧ me_priority_queue e' = me_priority_queue e).

Lemma quiet_refl e : quiet e e.
Proof. by split. Qed.
Lemma quiet_trans e1 e2 e3 : quiet e1 e2 → quiet e2 e3 → quiet e1 e3.
Proof. intros [? ?] [? ?]. split; [congruence|]. intros Hc. naive_solver congruence. Qed.
Lemma quiet_lost e e' : me_options e' = me_options e → me_is_connected e' = false → quiet e e'.
Proof. intros Ho Hc. split; [done|]. by rewrite Hc. Qed.
Lemma quiet_lists e e' : same_lists e e' → quiet e e'.
Proof. intros (? & ? & ? & ? & ? & ? & ?). split; [done|]. intros. split; [congruence|done]. Qed.

Lemma fail_connection_quiet K e error :
  good t B U K e →
  runs (fail_connection error) e (λ _ e', good t B U K e' ∧ quiet e e').
Proof.
  intros He. eapply runs_mono; [by apply fail_connection_step|]. intros [] e' (? & ? & _ & ?).
  split; [done|]. by apply quiet_lost.
Qed.

(** ** Protocol responses *)
Lemma flush_responses_loop_step fuel K e :
  (length (ps_responses (me_state e)) < fuel)%nat → good t B U K e →
  runs (flush_responses_loop fuel) e (λ _ e', good t B U K e' ∧ quiet e e').
Proof.
  revert e. induction fuel as [|fuel IH]; intros e Hf He; [lia|]. cbn [flush_responses_loop].
  run_step. run_step. destruct (ps_responses (me_state e)) as [|p l] eqn:Hl.
  { run_step. split; [done|apply quiet_refl]. }
  match goal with |- runs (match ?o with _ => _ end) _ _ => destruct o as [c|] end.
  { by apply fail_connection_quiet. }
  run_step. eapply runs_mono; [by apply enqueue_packet_step|]. intros [error|[]] e'.
  - intros ->. destruct error; try (by apply fail_connection_quiet). split; [done|apply quiet_refl].
  - intros (bs & _ & -> & He'). unfold on_state. repeat run_step.
    set (e2 := appended bs e <| me_state ::= _ |>).
    assert (He2 : good t B U K e2).
    { frame. unfold potential, work, queued in *. simpl in *. rewrite Hl in *. cbn [tail]. zlia. }
    eapply runs_mono; [apply IH; [|done]|].
    + simpl. rewrite Hl. simpl in *. lia.
    + intros [] e3 [? Hq]. split; [done|]. eapply quiet_trans; [|exact Hq]. by split.
Qed.

Lemma flush_responses_step K e :
  good t B U K e → runs flush_responses e (λ _ e', good t B U K e' ∧ quiet e e').
Proof.
  intros He. unfold flush_responses. repeat run_step. apply flush_responses_loop_step; [lia|done].
Qed.

(** ** Session replay *)
Lemma time_ok_now e : engine_inv e → time_ok (me_inflight_queue e) (me_now e).
Proof.
  intros He. destruct (ei_inflight e He) as (Hi & Hl & Hv & Ht). split; [done|]. intros _.
  destruct (ei_config e He) as (Hw & _). rewrite Ht.
  destruct (horizon_elements _ (wo_ping_multiplier _ Hw)) as (ds & Hds & _ & Hin & _).
  eapply deadline_defined; eauto.
Qed.

(** Tracking a packet: the push succeeds, or fails without a trace. *)
Lemma track_step K e id packet qos stream :
  good t B U K e → id ∈ ps_reserved (me_state e) → id ∉ queued_ids (queued e) →
  id ∉ (me_session_replay e).*1 →
  match InflightQueue_push_with_stream_at (me_inflight_queue e) id packet qos stream (me_now e) with
  | Ok q => good t B U K (e <| me_inflight_queue := q |>) ∧ is_Some (iq_entries q !! id)
  | Err _ => id = 0 ∨ is_Some (iq_entries (me_inflight_queue e) !! id) ∨
             is_publish packet = true ∧ InflightQueue_can_push_publish (me_inflight_queue e) = false
  | Panic => False
  end.
Proof.
  intros He HR HQ HP. destruct (ei_inflight e (gd_inv _ _ _ _ _ He)) as (Hi & Hl & Hv & Ht).
  pose proof (push_ok _ id packet qos stream (me_now e) Hi) as Hp.
  pose proof (time_ok_now e (gd_inv _ _ _ _ _ He)).
  destruct (InflightQueue_push_with_stream_at _ _ _ _ _ _) as [q|error|] eqn:Hq; [| |done].
  - apply push_last_update in Hq. destruct Hp as (_ & _ & _ & _ & Hi' & (_ & Hv' & Ht') & _ & He' & _).
    split; [|rewrite He', lookup_insert_eq; by eauto]. frame.
    + split; [done|]. split; [|simpl; by rewrite Hv', Ht'].
      simpl. rewrite Hq. intros last [= <-]. apply ord_le_refl.
    + destruct Hids as [Hown Hc]. split; [|done].
      change (ids_owned (ps_reserved (me_state e)) (iq_entries q) (queued_ids (queued e))
                (me_session_replay e).*1 (me_previous_inflight e).*1).
      rewrite He'. by apply ids_track.
  - destruct Hp as [?|[?|[?|[? ?]]]]; [done|by auto..|]. right. right. split; [done|].
    unfold InflightQueue_can_push_publish. by apply Z.ltb_ge.
Qed.

(** The session's next packet leaves the replay list. *)
Lemma pop_replay K e id p l :
  good t B U K e → me_session_replay e = (id, p) :: l →
  let e' := e <| me_session_replay ::= tail |> in
  good t B U (K - 1) e' ∧ unlisted id e' ∧ id ∈ ps_reserved (me_state e') ∧
  iq_entries (me_inflight_queue e') !! id = None.
Proof.
  intros He Hl e'. pose proof (ei_ids e (gd_inv _ _ _ _ _ He)) as [Hown Hc].
  rewrite Hl in Hown. rewrite fmap_cons in Hown. cbn [fst] in Hown.
  destruct (io_replay _ _ _ _ _ Hown id) as (Hid & HR & HE); [by left|].
  pose proof (io_nodup_replay _ _ _ _ _ Hown) as [Hnin Hnd]%NoDup_cons.
  split; [|split; [|done]].
  - clear Hown Hc. frame.
    + destruct Hids as [Hown Hc]. split; [|done]. simpl. rewrite Hl in *. cbn [tail].
      destruct Hown as [Hq Hp Hv Hi H1' H2' H3' H4']. rewrite fmap_cons in *. cbn [fst] in *.
      split; try done.
      * intros i Hi'. destruct (Hq i Hi') as (? & ? & ? & ? & ?). set_solver.
      * intros i Hi'. apply Hp. by right.
      * intros i Hi'. apply H4'. by right.
    + unfold potential, work, queued in *. simpl in *. rewrite Hl in *. cbn [tail]. zlia.
  - split; [|split].
    + intros Hin. destruct (io_queued _ _ _ _ _ Hown id Hin) as (_ & _ & _ & Hno & _). apply Hno. by left.
    + simpl. by rewrite Hl.
    + apply (io_apart _ _ _ _ _ Hown). by left.
Qed.

(** What a step of the replay leaves alone. *)
Definition replaying e e' : Prop :=
  me_options e' = me_options e ∧ me_priority_queue e' = me_priority_queue e ∧
  me_is_connected e' = me_is_connected e ∧
  me_previous_inflight e' = me_previous_inflight e ∧
  ps_responses (me_state e') = ps_responses (me_state e).

Lemma replaying_refl e : replaying e e.
Proof. by split_and!. Qed.
Lemma replaying_trans e1 e2 e3 : replaying e1 e2 → replaying e2 e3 → replaying e1 e3.
Proof. unfold replaying. intuition congruence. Qed.

Lemma start_deadline_run K e op (id : option Z) :
  good t B U K e →
  runs (start_deadline op id) e (λ _ e', good t B U K e' ∧ replaying e e' ∧
    me_session_replay e' = me_session_replay e ∧ me_outgoing_buffer e' = me_outgoing_buffer e).
Proof.
  intros He. pose proof (start_deadline_keeps t B U op id K e He) as Hr.
  apply (runs_and _ e (λ _ e', good t B U K e')); [exact Hr|]. unfold start_deadline in *.
  unfold runs, mbind, St_bind, get_st in *. cbv beta iota in *.
  destruct (match op with OpConnect => _ | _ => _ end) as [d|]; [|by split_and!].
  unfold lift in *. destruct (deadline_from _ _); simpl in *; [|done..]. by split_and!.
Qed.

Lemma process_replay_loop_step fuel K e :
  (length (me_session_replay e) < fuel)%nat → good t B U K e →
  runs (process_replay_loop fuel) e (λ _ e', good t B U K e' ∧ replaying e e').
Proof.
  revert e. induction fuel as [|fuel IH]; intros e Hf He; [lia|]. cbn [process_replay_loop].
  run_step. run_step. destruct (me_session_replay e) as [|[id p] l] eqn:Hl.
  { run_step. split; [done|apply replaying_refl]. }
  destruct (_ && _). { run_step. split; [done|apply replaying_refl]. }
  run_step. eapply runs_mono; [by apply enqueue_packet_step|].
  assert (Hnext : ∀ e1, good t B U K e1 → me_session_replay e1 = l → replaying e e1 →
    runs (process_replay_loop fuel) e1 (λ _ e', good t B U K e' ∧ replaying e e')).
  { intros e1 He1 Hl1 Hr1. eapply runs_mono; [apply IH; [|done]|].
    - rewrite Hl1. simpl in Hf. lia.
    - intros [] e2 [? ?]. split; [done|]. by eapply replaying_trans. }
  assert (Hfail : ∀ e1 error, good t B U K e1 → unlisted id e1 → me_session_replay e1 = l →
    replaying e e1 → runs (fail_operation id p error) e1 (λ _ e2,
      runs (process_replay_loop fuel) e2 (λ _ e', good t B U K e' ∧ replaying e e'))).
  { intros e1 error He1 Hu1 Hl1 Hr1. eapply runs_mono; [by apply fail_operation_step|].
    intros [] e2 [He2 (Hs1 & Hs2 & Hs3 & Hs4 & Hs5 & Hs6 & _)].
    apply Hnext; [done|congruence|]. eapply replaying_trans; [exact Hr1|]. by split_and!. }
  intros [error|[]] e'.
  - intros ->. destruct (pop_replay K e id p l He Hl) as (He1 & Hu1 & _).
    assert (He1' : good t B U K (e <| me_session_replay ::= tail |>)) by (eapply good_mono; [done|lia]).
    assert (Hl1 : me_session_replay (e <| me_session_replay ::= tail |>) = l) by (simpl; by rewrite Hl).
    destruct error; try (repeat run_step; by apply Hfail).
    run_step. split; [done|apply replaying_refl].
  - intros (bs & _ & -> & He'). repeat run_step.
    assert (Hl' : me_session_replay (appended bs e) = (id, p) :: l) by done.
    destruct (pop_replay _ _ id p l He' Hl') as (He1 & Hu1 & HR1 & HE1).
    replace (K + 1 - 1) with K in He1 by lia.
    set (e1 := appended bs e <| me_session_replay ::= tail |>) in *.
    assert (Hl1 : me_session_replay e1 = l) by (simpl; by rewrite Hl).
    pose proof (track_step K e1 id p (replay_qos p) None He1 HR1 (proj1 Hu1) (proj1 (proj2 Hu1))) as Ht.
    unfold InflightQueue_push_at. run_try Hq; [| |done|].
    + destruct Ht as [He2 _]. repeat run_step.
      eapply runs_mono; [by apply start_deadline_run|]. intros [] e3 (He3 & Hr3 & Hl3 & _).
      apply Hnext; [done|by rewrite Hl3|]. eapply replaying_trans; [|exact Hr3]. by split_and!.
    + done.
    + run_step. apply Hfail; [done..|]. by split_and!.
Qed.

Lemma process_replay_step K e :
  good t B U K e → runs process_replay e (λ _ e', good t B U K e' ∧ replaying e e').
Proof.
  intros He. unfold process_replay. repeat run_step. destruct (me_transport_manages_session e).
  - run_step. split; [done|apply replaying_refl].
  - apply process_replay_loop_step; [lia|done].
Qed.

(** ** Application messages *)

(** The bytes of the first queued packet are no longer accounted for. *)
Definition unaccounted (bs : bytes) e : MqttEngine T :=
  e <| me_state ::= λ s, s <| ps_queued_bytes ::= λ n, saturating_sub n (zlen bs) |> |>.

Lemma dequeue_step K e prio p rest bs :
  good t B U K e → contents (me_priority_queue e) = (prio, p) :: rest →
  MqttPacket_to_bytes p = Ok bs →
  ∃ q, let e' := unaccounted bs e <| me_priority_queue := q |> in
    dequeue (unaccounted bs e) = Ok (Some (prio, p), e') ∧ contents q = rest ∧
    good t B U (K - 1) e' ∧ queued_ok p ∧
    (∀ c, mo_max_outgoing_buffer_bytes (me_options e) = Some c → c < 4294967296 →
       outgoing_bytes e' + zlen bs <= c) ∧
    (∀ id, queued_id p = Some id → unlisted id e' ∧ id ≠ 0 ∧ id ∈ ps_reserved (me_state e') ∧
       iq_entries (me_inflight_queue e') !! id = None).
Proof.
  intros He Hc Hbs. pose proof (gd_inv _ _ _ _ _ He) as Hi.
  pose proof (ei_queue e Hi) as (Hpq & Hcap & Hall).
  destruct (dequeue_ok _ Hpq) as (q & Hd & Hpq' & Hc' & Hcap'). rewrite Hc in *. cbn [head tail] in *.
  exists q. set (e' := unaccounted bs e <| me_priority_queue := q |>).
  assert (Hqe : queued e = p :: queued e') by (unfold queued; simpl; by rewrite Hc, Hc').
  rewrite Hqe in Hall. apply Forall_cons_iff in Hall as [Hp Hall].
  pose proof (ei_output e Hi) as (_ & _ & Hqb & Hbytes).
  assert (Htl : total_len (queued e) = zlen bs + total_len (queued e')).
  { rewrite Hqe. cbn [total_len foldr]. unfold encoded_len at 1. by rewrite Hbs. }
  pose proof (total_len_nonneg (queued e')). pose proof (zlen_nonneg bs).
  assert (Hsub : saturating_sub (ps_queued_bytes (me_state e)) (zlen bs) = total_len (queued e')).
  { rewrite Hqb, Htl. unfold saturating_sub. lia. }
  assert (Hob : outgoing_bytes e = outgoing_bytes e' + zlen bs).
  { unfold outgoing_bytes. simpl. rewrite Hsub, Hqb, Htl. lia. }
  pose proof (ei_ids e Hi) as [Hown Hcon]. rewrite Hqe in Hown.
  split; [by unfold dequeue, mbind, St_bind, get_st, lift; simpl; rewrite Hd|].
  split; [done|]. split; [|split; [done|split]].
  - frame.
    + split; [done|]. split; [|done]. simpl. by rewrite Hcap'.
    + split; [|done]. destruct Hown as [Hq Hr Hv Hin Hndq].
      change (ids_owned (ps_reserved (me_state e)) (iq_entries (me_inflight_queue e))
        (queued_ids (queued e')) (me_session_replay e).*1 (me_previous_inflight e).*1).
      unfold queued_ids in *. csimpl in *. split; try done.
      * intros i Hi'. apply Hq. destruct (queued_id p); [by right|done].
      * destruct (queued_id p); [by apply NoDup_cons in Hndq as []|done].
    + destruct Hout as (Ho1 & Ho2 & _ & _). split; [done|]. split; [done|].
      split; [exact Hsub|]. intros c Hcc Hc4. specialize (Hbytes c Hcc Hc4). lia.
    + unfold potential, work in *. rewrite Hqe in Hwrk. simpl in *. zlia.
  - intros c Hcc Hc4. specialize (Hbytes c Hcc Hc4). lia.
  - intros id Hid. unfold queued_ids in Hown. csimpl in Hown. rewrite Hid in Hown.
    destruct (io_queued _ _ _ _ _ Hown id) as (? & ? & ? & ? & ?); [by left|].
    pose proof (io_nodup_queued _ _ _ _ _ Hown) as [? _]%NoDup_cons.
    split; [|done]. by split.
Qed.

(** What a step of the queue leaves alone. *)
Definition sending e e' : Prop :=
  me_options e' = me_options e ∧ me_is_connected e' = me_is_connected e ∧
  me_session_replay e' = me_session_replay e ∧
  me_previous_inflight e' = me_previous_inflight e ∧
  ps_responses (me_state e') = ps_responses (me_state e).
Lemma sending_refl e : sending e e.
Proof. by split_and!. Qed.
Lemma sending_trans e1 e2 e3 : sending e1 e2 → sending e2 e3 → sending e1 e3.
Proof. unfold sending. intuition congruence. Qed.

Lemma refuse_queued_step K e prio p rest bs error :
  good t B U K e → contents (me_priority_queue e) = (prio, p) :: rest →
  MqttPacket_to_bytes p = Ok bs →
  runs (refuse_queued error) (unaccounted bs e) (λ _ e', good t B U K e' ∧
    contents (me_priority_queue e') = rest ∧ sending e e').
Proof.
  intros He Hc Hbs. destruct (dequeue_step K e prio p rest bs He Hc Hbs)
    as (q & Hd & Hc' & He' & _ & _ & Hids).
  unfold refuse_queued. run_step. unfold runs at 1. rewrite Hd. cbv beta iota.
  assert (Hgood : good t B U K (unaccounted bs e <| me_priority_queue := q |>))
    by (eapply good_mono; [done|lia]).
  destruct (queued_id p) as [id|] eqn:Hid.
  - eapply runs_mono; [eapply fail_operation_step; [done|by apply Hids]|].
    intros [] e2 (He2 & Hs1 & Hs2 & Hs3 & Hs4 & Hs5 & Hs6 & _). split; [done|].
    split; [by rewrite Hs1|]. by split_and!.
  - clear Hids. unfold push_event. run_step. split; [frame|]. split; [done|]. by split_and!.
Qed.

Lemma send_queued_step K e prio p rest bs :
  good t B U K e → contents (me_priority_queue e) = (prio, p) :: rest →
  MqttPacket_to_bytes p = Ok bs →
  zlen (me_outgoing_buffer e) < mo_max_outgoing_packet_count (me_options e) →
  (needs_ack p = true → InflightQueue_can_push_publish (me_inflight_queue e) = true) →
  runs (send_queued bs) (unaccounted bs e) (λ _ e', good t B U K e' ∧
    contents (me_priority_queue e') = rest ∧ sending e e').
Proof.
  intros He Hc Hbs Hlt Hpush. destruct (dequeue_step K e prio p rest bs He Hc Hbs)
    as (q & Hd & Hc' & He' & (_ & _ & _ & Hpub & Hack) & Hcap & Hids).
  set (e1 := unaccounted bs e <| me_priority_queue := q |>) in *.
  unfold send_queued. run_step. unfold runs at 1. rewrite Hd. cbv beta iota. run_step.
  (* the end: the bytes are appended *)
  assert (Hend : ∀ e2, good t B U (K - 1) e2 → contents (me_priority_queue e2) = rest → sending e e2 →
    me_outgoing_buffer e2 = me_outgoing_buffer e1 →
    runs (modify (λ e, e <| me_outgoing_buffer ::= λ l, l ++ [bs] |> <| me_last_packet_sent := me_now e |>))
      e2 (λ _ e', good t B U K e' ∧ contents (me_priority_queue e') = rest ∧ sending e e')).
  { intros e2 He2 Hc2 Hs2 Hb2. run_step. destruct Hs2 as (Ho2 & ? & ? & ? & ?).
    replace K with (K - 1 + 1) at 1 by lia. split; [|by split_and!].
    eapply append_good; [done..|by rewrite Hb2, Ho2|]. intros c Hcc Hc4. rewrite Ho2 in Hcc.
    pose proof (ei_output _ (gd_inv _ _ _ _ _ He2)) as (_ & _ & Hq2 & _).
    pose proof (ei_output _ (gd_inv _ _ _ _ _ He')) as (_ & _ & Hq1 & _).
    specialize (Hcap c Hcc Hc4). unfold outgoing_bytes in *. rewrite Hb2, Hq2.
    unfold queued in *. rewrite Hc2. rewrite Hq1 in Hcap. simpl in Hcap. by rewrite Hc' in Hcap. }
  destruct (needs_ack p) eqn:Hna; [|by run_step; apply Hend].
  destruct (proj2 Hack eq_refl) as [id Hid]. destruct (Hids id Hid) as (Hu & Hid0 & HR & HE).
  run_step. apply runs_expect. exists id. split; [by rewrite Hid|]. repeat run_step.
  pose proof (track_step (K - 1) e1 id p (replay_qos p) None He' HR (proj1 Hu) (proj1 (proj2 Hu))) as Ht.
  unfold InflightQueue_push_at. apply runs_expect.
  destruct (InflightQueue_push_with_stream_at _ _ _ _ _ _) as [q'|error|]; [| |done].
  - exists q'. split; [done|]. repeat run_step. destruct Ht as [He2 _].
    eapply runs_mono; [by apply start_deadline_run|].
    intros [] e3 (He3 & (Ho3 & Hq3 & Hc3 & Hp3 & Hr3) & Hl3 & Hb3). apply Hend; [done| |by split_and!|done].
    by rewrite Hq3.
  - exfalso. destruct Ht as [?|[[? Hx]|[_ Hno]]]; [done|by rewrite HE in Hx|].
    change (me_inflight_queue e1) with (me_inflight_queue e) in Hno. by rewrite Hpush in Hno.
Qed.

Lemma process_queue_loop_step fuel K e first_encoding :
  (length (contents (me_priority_queue e)) < fuel)%nat → good t B U K e →
  (∀ bs p, first_encoding = Some bs → head (queued e) = Some p → MqttPacket_to_bytes p = Ok bs) →
  runs (process_queue_loop fuel first_encoding) e (λ _ e', good t B U K e' ∧ sending e e').
Proof.
  revert e first_encoding. induction fuel as [|fuel IH]; intros e fe Hf He Hfe; [lia|].
  cbn [process_queue_loop]. run_step. run_step.
  destruct (Z.ltb_spec (zlen (me_outgoing_buffer e)) (mo_max_outgoing_packet_count (me_options e))) as [Hlt|];
    [|by run_step; split; [done|apply sending_refl]].
  pose proof (ei_queue e (gd_inv _ _ _ _ _ He)) as (Hpq & _ & Hall).
  rewrite (peek_ok _ (proj1 Hpq)). unfold queued in Hall, Hfe.
  destruct (contents (me_priority_queue e)) as [|[prio p] rest] eqn:Hc; cbn [head];
    [by run_step; split; [done|apply sending_refl]|].
  destruct (needs_ack p && _) eqn:Hquota; [by run_step; split; [done|apply sending_refl]|].
  apply Forall_cons_1 in Hall as [(_ & _ & Hok & _) _]. cbn [snd] in Hok.
  destruct (MqttPacket_to_bytes p) as [bs| |] eqn:Hbs; [|done..].
  assert (Hfe' : match fe with Some encoded => Ok encoded | None => Ok bs end = Ok (E:=ParseError) bs).
  { destruct fe as [b|]; [|done]. specialize (Hfe b p eq_refl eq_refl). congruence. }
  rewrite Hfe'. unfold on_state. repeat run_step. fold (unaccounted bs e).
  assert (Hnext : ∀ e1, good t B U K e1 ∧ contents (me_priority_queue e1) = rest ∧ sending e e1 →
    runs (process_queue_loop fuel None) e1 (λ _ e', good t B U K e' ∧ sending e e')).
  { intros e1 (He1 & Hc1 & Hs1). eapply runs_mono; [apply IH; [|done..]|].
    - rewrite Hc1. simpl in Hf. lia.
    - intros [] e2 [? ?]. split; [done|]. by eapply sending_trans. }
  match goal with |- runs (try ?r) _ _ => assert (Hr : r ≠ Panic) end.
  { unfold validate_packet_capabilities, check_packet_size. repeat case_match; done. }
  run_try Hv; [| |done|].
  - run_step. eapply runs_mono; [eapply send_queued_step; [done..|]|].
    + intros Hna. rewrite Hna in Hquota. cbn [andb] in Hquota. by apply negb_false_iff in Hquota.
    + intros [] e1. apply Hnext.
  - done.
  - run_step. eapply runs_mono; [eapply refuse_queued_step; done|]. intros [] e1. apply Hnext.
Qed.

Lemma process_queue_with_encoding_step K e first_encoding :
  good t B U K e →
  (∀ bs p, first_encoding = Some bs → head (queued e) = Some p → MqttPacket_to_bytes p = Ok bs) →
  runs (process_queue_with_encoding first_encoding) e (λ _ e', good t B U K e' ∧
    me_options e' = me_options e).
Proof.
  intros He Hfe. unfold process_queue_with_encoding. run_step. run_step.
  destruct (negb (me_is_connected e)); [by run_step|]. run_step.
  eapply runs_mono; [by apply flush_responses_step|]. intros [] e1 (He1 & Ho1 & Hq1).
  run_step. run_step. destruct (me_is_connected e1); cbn [negb]; [|by run_step].
  destruct (Hq1 eq_refl) as [_ Hpq1]. run_step.
  eapply runs_mono; [by apply process_replay_step|]. intros [] e2 (He2 & Ho2 & Hpq2 & _).
  run_step. run_step. destruct (_ || _); [run_step; split; [done|congruence]|].
  eapply runs_mono; [apply process_queue_loop_step; [|done|]|].
  - pose proof (ei_queue e2 (gd_inv _ _ _ _ _ He2)) as ((_ & Hs & _) & _).
    unfold PriorityQueue_len. rewrite Hs. unfold zlen. lia.
  - unfold queued in *. by rewrite Hpq2, Hpq1.
  - intros [] e3 (He3 & Ho3 & _). split; [done|congruence].
Qed.

Lemma process_queue_step K e :
  good t B U K e →
  runs process_queue e (λ _ e', good t B U K e' ∧ me_options e' = me_options e).
Proof. intros He. by apply process_queue_with_encoding_step. Qed.
Lemma process_queue_keeps K e : good t B U K e → runs process_queue e (λ _ e', good t B U K e').
Proof. intros He. eapply runs_mono; [by apply process_queue_step|]. naive_solver. Qed.
End queues.
