(* ===== verification/EngineHandlers.v ===== *)
(** * The engine's commands and packet handlers preserve the invariant

    Every command of the application and every handler of an incoming packet runs to its end
    without panicking, in a state that satisfies [engine_inv], whatever the broker sends. *)
From S2P Require Import Prelude BaseData TopicFilter Validation Properties Packets Framing.
From S2P Require Import PublishCodec Codec Stream Leveled Time PriorityQueue ClientError Options.
From S2P Require Import ClientTypes Commands Inflight ClientSession EngineState EngineCore.
From S2P Require Import EngineProtocol Engine EncodeFacts EngineInv EngineSteps EngineQueues.

Section handlers.
Context {T : Type} `{TimePointLaws T} `{!Runtime T} `{!RuntimeLaws T}.
Context (t : T) (B U : Z) (HB : B <= u32_MAX).
Implicit Types (e : MqttEngine T) (id : Z).
Local Abbreviation M := (St (MqttEngine T)).
Local Abbreviation good := (good t B U).

(** ** Packet identifiers *)
Definition fresh_id id e : Prop :=
  id ≠ 0 ∧ is_u16 id ∧ id ∉ ps_reserved (me_state e) ∧
  iq_entries (me_inflight_queue e) !! id = None.

Lemma same_session e : e <| me_session := me_session e |> = e.
Proof. by destruct e. Qed.

(** The session with its identifier counter moved, if there is a session: presence and both
    maps are as they were. *)
Definition counter_at (counter : Z) (session : option ClientSession) : option ClientSession :=
  (λ s, ClientSession_restore_packet_id_counter s counter) <$> session.

(** A command was refused: only the packet identifier counter may have moved. *)
Definition refused e e' : Prop :=
  ∃ counter, e' = e <| me_session := counter_at counter (me_session e) |>.
Lemma counter_at_same session : ∃ counter, session = counter_at counter session.
Proof. destruct session as [s|]; [exists (cs_packet_id_counter s); by destruct s|by exists 0]. Qed.
Lemma refused_refl e : refused e e.
Proof.
  destruct (counter_at_same (me_session e)) as [counter Hc]. exists counter.
  by rewrite <- Hc, same_session.
Qed.

Lemma engine_next_packet_id_spec s id s' :
  is_u16 (cs_packet_id_counter s) → ClientSession_next_packet_id s = (id, s') →
  1 <= id <= u16_MAX ∧ is_u16 (cs_packet_id_counter s').
Proof.
  unfold ClientSession_next_packet_id, is_u16, u16_MAX. intros Hc Hn.
  assert (Hid : 1 <= id <= 65535 ∧ cs_packet_id_counter s' = id).
  { injection Hn as <- <-. simpl. destruct (_ || _) eqn:E; lia. }
  lia.
Qed.

Lemma next_packet_id_loop_step rounds K e s :
  good K e → is_u16 (cs_packet_id_counter s) →
  (∃ counter, Some s = counter_at counter (me_session e)) →
  runs (engine_next_packet_id_loop rounds s) e (λ r e',
    good K e' ∧ refused e e' ∧
    match r with inr id => fresh_id id e | inl _ => True end).
Proof.
  assert (Hset : ∀ K e s, good K e → is_u16 (cs_packet_id_counter s) →
    good K (e <| me_session := Some s |>)).
  { intros K' e' s' He Hs. frame. split; [|apply Hsnd]. by intros ? [= <-]. }
  assert (Href : ∀ s, (∃ counter, Some s = counter_at counter (me_session e)) →
    refused e (e <| me_session := Some s |>)) by (by intros ? [counter ->]; exists counter).
  intros He. revert s. induction rounds as [|rounds IH]; intros s Hs Hat; cbn [engine_next_packet_id_loop].
  { repeat run_step. split; [auto|]. eauto. }
  destruct (ClientSession_next_packet_id s) as [id s'] eqn:Hn.
  destruct (engine_next_packet_id_spec s id s' Hs Hn) as [Hid Hs'].
  assert (Hat' : ∃ counter, Some s' = counter_at counter (me_session e)).
  { destruct Hat as [c Hat]. exists id. injection Hn as <- <-.
    destruct (me_session e); [|done]. by injection Hat as ->. }
  run_step. run_step.
  destruct (_ && _) eqn:Hf; [|by apply IH]. apply andb_true_iff in Hf as [Hf1 Hf2].
  apply negb_true_iff, bool_decide_eq_false in Hf1, Hf2. repeat run_step.
  split; [auto|]. split; [eauto|]. unfold u16_MAX in Hid. split; [lia|].
  split; [unfold is_u16; lia|]. split; [done|]. by apply eq_None_not_Some.
Qed.

Lemma candidate_id_step K e requested :
  good K e → wf_opt is_u16 requested →
  runs (candidate_id requested) e (λ r e',
    good K e' ∧ refused e e' ∧
    match r with inr id => fresh_id id e | inl _ => True end).
Proof.
  intros He Hr. destruct requested as [id|]; cbn [candidate_id].
  - run_step. run_step. destruct (_ || _) eqn:Hf; run_step.
    + split; [done|]. split; [apply refused_refl|done].
    + apply orb_false_iff in Hf as [[Hf0 Hf1]%orb_false_iff Hf2].
      apply bool_decide_eq_false in Hf1, Hf2. split; [done|].
      split; [apply refused_refl|]. split; [lia|]. split; [done|].
      split; [done|]. by apply eq_None_not_Some.
  - unfold next_packet_id. run_step. run_step. run_step.
    destruct (me_session e) as [s|] eqn:Hs.
    + run_try Hx; try done. injection Hx as <-. apply next_packet_id_loop_step; [done|..].
      * by apply (ei_sender e (gd_inv _ _ _ _ _ He)).
      * rewrite Hs. exact (counter_at_same (Some s)).
    + run_try Hx; try done. split; [done|]. split; [apply refused_refl|done].
Qed.

(** ** PUBLISH *)

(** The commands the engine's theorems are about: what the type checker lets through, except that
    a message with QoS 0 carries no packet identifier, as [PublishCommand::simple] and the builder
    produce it.  The last clause restricts the theorems: [publish_inner] accepts such a command,
    and [EngineFindings.qos0_identifier_panics] shows what follows. *)
Definition publish_command_ok (c : PublishCommand) : Prop :=
  wf_str (pc_topic_name c) ∧ is_u8 (pc_qos c) ∧ wf_opt is_u16 (pc_packet_id c) ∧
  u8s (pc_payload c) ∧ Forall wf_property (pc_properties c) ∧
  (pc_qos c = 0 → pc_packet_id c = None).

(** The command names a topic unless its alias does. *)
Definition topic_or_alias (c : PublishCommand) : Prop :=
  pc_topic_name c = [] → omap topic_alias (pc_properties c) = [].

Definition alias_ok (alias : option (Z * bytes)) : Prop :=
  match alias with Some (_, topic) => wf_str topic ∧ topic ≠ [] | None => True end.

Lemma validate_publish_ok e c alias c' :
  sender_ok e → publish_command_ok c → validate_publish e c = Ok (alias, c') →
  publish_command_ok c' ∧ pc_packet_id c' = pc_packet_id c ∧ pc_qos c' = pc_qos c ∧
  alias_ok alias ∧ topic_or_alias c'.
Proof.
  intros (_ & Hal & _) Hc. unfold validate_publish. destruct (unsupported _ _ _); [done|].
  destruct (omap topic_alias (pc_properties c)) as [|a l] eqn:Ha.
  { intros [= <- <-]. do 4 (split; [done|]). by intros _. }
  destruct (_ || _); [done|]. case_bool_decide as Htn.
  - destruct (ps_outgoing_aliases (me_state e) !! a) as [topic|] eqn:Ht; [|done]. rsimp.
    intros [= <- <-]. destruct (Hal a topic Ht). destruct Hc as (? & Hc). split; [by split|].
    split; [done|]. split; [done|]. split; [done|]. unfold topic_or_alias. simpl. by intros ->.
  - intros [= <- <-]. split; [done|]. split; [done|]. split; [done|]. split; [|by intros ?].
    split; [apply Hc|done].
Qed.

Lemma no_alias_property ps : omap topic_alias ps = [] → existsb is_TopicAlias ps = false.
Proof.
  induction ps as [|p ps IH]; [done|]. csimpl.
  destruct (topic_alias p) eqn:Hp; [done|]. intros Hn. rewrite (IH Hn).
  by destruct p.
Qed.

Lemma publish_topic_set p bs :
  MqttPublish5_to_bytes p = Ok bs →
  (p5_topic_name p = [] → omap topic_alias (p5_properties p) = []) → p5_topic_name p ≠ [].
Proof.
  intros Hb Hta Hempty. apply publish5_encoded in Hb as [Hv _]. unfold MqttPublish5_validate in Hv.
  apply bind_Ok_inv in Hv as ([] & _ & Hv). apply bind_Ok_inv in Hv as ([] & _ & Hv).
  rewrite bool_decide_true in Hv by done. by rewrite no_alias_property in Hv by auto.
Qed.

Lemma publish_packet_ok e c bs :
  publish_command_ok c → topic_or_alias c → (is_Some (pc_packet_id c) ↔ 0 < pc_qos c) →
  MqttPacket_to_bytes (publish_packet e c) = Ok bs →
  queued_ok (publish_packet e c) ∧ queued_id (publish_packet e c) = pc_packet_id c.
Proof.
  intros (Ht & Hq & Hid & Hp & Hps & _) Hta Hiff Hb. unfold publish_packet in *.
  destruct (mo_mqtt_version (me_options e) =? 5); (split; [|done]).
  - split; [by split_and!|]. split; [exact (publish_topic_set _ _ Hb Hta)|].
    split; [by rewrite Hb|]. split; [done|]. simpl. by rewrite Hiff, Z.ltb_lt.
  - split; [by split_and!|]. split; [done|].
    split; [by rewrite Hb|]. split; [done|]. simpl. by rewrite Hiff, Z.ltb_lt.
Qed.

Lemma publish_id_step K e c :
  good K e → publish_command_ok c →
  runs (publish_id c) e (λ r e', good K e' ∧ refused e e' ∧
    match r with
    | inl _ => True
    | inr (pid, c') =>
        pc_packet_id c' = pid ∧ publish_command_ok c' ∧ pc_topic_name c' = pc_topic_name c ∧
        pc_properties c' = pc_properties c ∧ pc_qos c' = pc_qos c ∧
        (is_Some pid ↔ 0 < pc_qos c') ∧ (∀ id, pid = Some id → fresh_id id e)
    end).
Proof.
  intros He Hc. unfold publish_id. destruct (Z.ltb_spec 0 (pc_qos c)) as [Hq|Hq].
  - run_step. eapply runs_mono; [apply candidate_id_step; [done|apply Hc]|].
    intros [error|id] e' (He' & Hs & Hf); [by split|]. run_step. split; [done|]. split; [done|].
    destruct Hc as (? & ? & ? & ? & ? & ?). split; [done|]. split.
    { split_and!; try done; [apply Hf|]. simpl. lia. }
    split_and!; try done. by intros ? [= <-].
  - run_step. split; [done|]. split; [apply refused_refl|].
    destruct Hc as (? & Hu & ? & ? & ? & Hz). unfold is_u8 in Hu. rewrite Hz by lia.
    split; [done|]. split; [by split_and!|]. split_and!; try done.
    split; [by intros []|lia].
Qed.

(** *** A message enters the queue *)
Lemma total_len_perm l l' : l ≡ₚ l' → total_len l = total_len l'.
Proof. induction 1; cbn [total_len foldr] in *; unfold total_len in *; lia. Qed.

Lemma ids_enqueue R (E : gmap Z (InflightEntry T)) Q Q' P V id :
  ids_owned R E Q P V → Q' ≡ₚ id :: Q → id ≠ 0 → id ∉ R → ids_owned ({[id]} ∪ R) E Q' P V.
Proof.
  intros Hown HQ Hid HR. destruct (ids_fresh R E Q P V Hown id HR) as (HQ0 & HP0 & HV0 & HE0).
  pose proof (ids_reserve R E Q P V Hown id) as [Hq Hp Hv Hi Hnq Hnp Hnv Hap]. split; try done.
  - intros i Hin. rewrite HQ in Hin. apply elem_of_cons in Hin as [->|Hin]; [|by apply Hq].
    split_and!; [done|set_solver|done..].
  - rewrite HQ. by apply NoDup_cons.
Qed.

Lemma ids_permuted R (E : gmap Z (InflightEntry T)) Q Q' P V :
  ids_owned R E Q P V → Q' ≡ₚ Q → ids_owned R E Q' P V.
Proof.
  intros [Hq Hp Hv Hi Hnq Hnp Hnv Hap] HQ. split; try done.
  - intros i Hin. apply Hq. by rewrite <- HQ.
  - by rewrite HQ.
Qed.

(** The engine with the message accounted for and its identifier reserved. *)
Definition admitted (pid : option Z) (alias : option (Z * bytes)) (bs : bytes)
    (q : PriorityQueue (P:=Z) (T:=MqttPacket)) e : MqttEngine T :=
  let e := e <| me_state ::= λ s, s <| ps_queued_bytes ::= λ n, n + zlen bs |> |> in
  let e := match pid with
           | Some id => e <| me_state ::= λ s, s <| ps_reserved ::= λ r, {[id]} ∪ r |>
                                              <| ps_replay_reserve ::= λ n, Z.max n (zlen bs) |> |>
           | None => e
           end in
  let e := match alias with
           | Some (id, topic) => e <| me_state ::= λ s, s <| ps_outgoing_aliases ::= <[id := topic]> |> |>
           | None => e
           end in
  e <| me_priority_queue := q |>.

Lemma register_sender e alias :
  sender_ok e → alias_ok alias →
  match alias with
  | Some (id, topic) =>
      sender_ok (e <| me_state ::= λ s, s <| ps_outgoing_aliases ::= <[id := topic]> |> |>)
  | None => True
  end.
Proof.
  intros (Hs & Ha & Hr) Hal. destruct alias as [[a topic]|]; [|done]. split; [done|]. split; [|done].
  intros a' topic'. simpl. destruct (decide (a' = a)) as [->|Hne].
  - rewrite lookup_insert_eq. by intros [= <-].
  - rewrite lookup_insert_ne by done. apply Ha.
Qed.

Lemma admit_good K e p bs alias prio :
  good K e → queued_ok p → MqttPacket_to_bytes p = Ok bs → alias_ok alias →
  (∀ id, queued_id p = Some id → fresh_id id e) →
  PriorityQueue_len (me_priority_queue e) < mo_max_outgoing_packet_count (me_options e) →
  (∀ c, mo_max_outgoing_buffer_bytes (me_options e) = Some c → c < 4294967296 →
     outgoing_bytes e + zlen bs <= c) →
  ∃ q, PriorityQueue_enqueue (me_priority_queue e) prio p = Ok q ∧
    good (K + 1) (admitted (queued_id p) alias bs q e) ∧
    (contents (me_priority_queue e) = [] → contents q = [(prio, p)]).
Proof.
  intros He Hp Hbs Hal Hf Hlt Hcap. pose proof (gd_inv _ _ _ _ _ He) as Hi.
  pose proof (ei_queue e Hi) as (Hpq & Hpc & Hall). pose proof Hpq as (_ & Hsz & _).
  unfold PriorityQueue_len in Hlt. pose proof (zlen_nonneg (contents (me_priority_queue e))).
  destruct (enqueue_ok (me_priority_queue e) prio p Hpq) as (q & Hq & Hpq' & Hc & Hpc'); [lia|].
  unfold enqueue_spec in Hc. rewrite push_size in Hc.
  destruct (Z.ltb_spec (pq_capacity (me_priority_queue e)) (1 + zlen (contents (me_priority_queue e))));
    [lia|].
  exists q. split; [done|]. split; [|intros Hnil; by rewrite Hc, Hnil].
  pose proof (insert_stable_perm prio p (contents (me_priority_queue e))) as Hperm. rewrite <- Hc in Hperm.
  set (e' := admitted (queued_id p) alias bs q e).
  assert (Hqe : queued e' ≡ₚ p :: queued e).
  { unfold queued, e', admitted. destruct (queued_id p), alias as [[]|]; simpl; by rewrite Hperm. }
  assert (Hlen : zlen (queued e') = 1 + zlen (queued e)) by (unfold zlen; rewrite Hqe; simpl; lia).
  assert (Htl : total_len (queued e') = zlen bs + total_len (queued e)).
  { rewrite (total_len_perm _ _ Hqe). cbn [total_len foldr]. unfold encoded_len at 1. by rewrite Hbs. }
  pose proof (ei_ids e Hi) as [Hown Hcon].
  assert (Hown' : ids_owned (match queued_id p with Some id => {[id]} ∪ ps_reserved (me_state e)
      | None => ps_reserved (me_state e) end) (iq_entries (me_inflight_queue e))
    (queued_ids (queued e')) (me_session_replay e).*1 (me_previous_inflight e).*1).
  { assert (Hperm' : queued_ids (queued e') ≡ₚ queued_ids (p :: queued e))
      by (unfold queued_ids; by rewrite Hqe).
    unfold queued_ids in Hperm' at 2. csimpl in Hperm'. destruct (queued_id p) as [id|].
    - destruct (Hf id eq_refl) as (Hid & _ & HR & _). by eapply ids_enqueue.
    - by eapply ids_permuted. }
  assert (Hsnd' : sender_ok e').
  { pose proof (register_sender e alias (ei_sender e Hi) Hal) as Hs.
    unfold e', admitted. destruct (queued_id p), alias as [[]|]; first [exact Hs|apply (ei_sender e Hi)]. }
  assert (Hout' : output_ok e').
  { pose proof (ei_output e Hi) as (Ho1 & Ho2 & Hqb & Ho4).
    assert (Hqb' : ps_queued_bytes (me_state e') = total_len (queued e'))
      by (rewrite Htl; unfold e', admitted; destruct (queued_id p), alias as [[]|]; simpl; lia).
    assert (Hob : outgoing_bytes e' = outgoing_bytes e + zlen bs).
    { unfold outgoing_bytes. rewrite Hqb', Htl, Hqb. unfold e', admitted.
      destruct (queued_id p), alias as [[]|]; simpl; lia. }
    unfold output_ok. rewrite Hob, Hqb'.
    unfold e', admitted. destruct (queued_id p), alias as [[]|]; by split_and!. }
  assert (Hque' : queue_ok e').
  { assert (Forall queued_ok (queued e')) by (rewrite Hqe; by constructor).
    unfold queue_ok, e', admitted in *. destruct (queued_id p), alias as [[]|];
      (split; [done|split; [simpl; congruence|done]]). }
  assert (Hids' : ids_ok e').
  { unfold e', admitted in *. destruct (queued_id p), alias as [[]|]; by split. }
  assert (Hpot : potential e' = potential e + 1).
  { unfold potential, work. rewrite Hlen. unfold e', admitted.
    destruct (queued_id p), alias as [[]|]; simpl; lia. }
  destruct He as [[Hcfg Hclk Hprs Hinf _ _ _ _] Hnow Hatt Hunr Hwrk].
  split; [split|..]; try assumption; [..|lia];
    unfold e', admitted; by destruct (queued_id p), alias as [[]|].
Qed.

Lemma map_parse_error_Ok p bs :
  map_parse_error (MqttPacket_to_bytes p) = Ok bs → MqttPacket_to_bytes p = Ok bs.
Proof. unfold map_parse_error. destruct (MqttPacket_to_bytes p); by intros [= <-]. Qed.
Lemma map_parse_error_no_panic p : map_parse_error (MqttPacket_to_bytes p) ≠ Panic.
Proof. pose proof (to_bytes_no_panic p). unfold map_parse_error. by destruct (MqttPacket_to_bytes p). Qed.
Lemma check_packet_size_no_panic e bs : check_packet_size e bs ≠ Panic.
Proof. unfold check_packet_size. by repeat case_match. Qed.
Lemma check_output_capacity_no_panic e n : check_output_capacity e n ≠ Panic.
Proof. unfold check_output_capacity. by repeat case_match. Qed.
Lemma ensure_outgoing_allowed_no_panic e p : ensure_outgoing_allowed e p ≠ Panic.
Proof. unfold ensure_outgoing_allowed. by case_match. Qed.
Lemma require_full_parser_no_panic e : require_full_parser e ≠ Panic.
Proof. unfold require_full_parser. by case_match. Qed.
Lemma validate_publish_no_panic e c : validate_publish e c ≠ Panic.
Proof. unfold validate_publish, ok_or. by repeat (case_match; simpl). Qed.
Lemma validate_subscribe_no_panic e c : validate_subscribe e c ≠ Panic.
Proof. unfold validate_subscribe. by repeat case_match. Qed.

Lemma check_output_capacity_Ok e n c :
  check_output_capacity e n = Ok () → mo_max_outgoing_buffer_bytes (me_options e) = Some c →
  c < 4294967296 → outgoing_bytes e + n <= c.
Proof.
  unfold check_output_capacity, usize_saturating_add, u64_MAX. intros Hc Hm Hlt. rewrite Hm in Hc.
  destruct (Z.ltb_spec c (18446744073709551615 `min` (outgoing_bytes e + n))); [done|]. lia.
Qed.

(** [m] does not touch the state; an error ends the command. *)
Definition gate (m : M (MqttClientError + ())) e : Prop :=
  m e = Ok (inr (), e) ∨ ∃ error, m e = Ok (inl error, e).
Lemma runs_gate {A} m (f : () → M (MqttClientError + A)) e Q :
  gate m e → (∀ error, Q (inl error) e) → runs (f ()) e Q → runs (try_bind f m) e Q.
Proof.
  intros [Hm|[error Hm]] Hstop Hf; apply runs_try_bind; unfold runs at 1; rewrite Hm; [done|apply Hstop].
Qed.
Lemma gate_try r e : r ≠ Panic → gate (try r) e.
Proof. unfold gate, try. destruct r as [[]| |]; eauto. done. Qed.
Lemma gate_if (b : bool) m e : gate m e → gate (if b then m else ok ()) e.
Proof. destruct b; [done|]. by left. Qed.

Lemma publish_inner_step K e c :
  good K e → publish_command_ok c →
  runs (publish_inner c) e (λ r e', good (K + 1) e' ∧
    match r with inl _ => refused e e' | inr pid => ∀ id, pid = Some id → fresh_id id e end).
Proof.
  intros He Hc. pose proof (gd_inv _ _ _ _ _ He) as Hi.
  assert (Hstop : good (K + 1) e ∧ refused e e).
  { split; [eapply good_mono; [done|lia]|apply refused_refl]. }
  unfold publish_inner. run_step. run_step.
  apply runs_gate; [apply gate_if, gate_try, require_full_parser_no_panic|done|].
  run_step. apply runs_result; [apply validate_publish_no_panic|done|].
  intros [alias c1] Hvp.
  destruct (validate_publish_ok e c alias c1 (ei_sender e Hi) Hc Hvp) as (Hc1 & _ & _ & Hal & Hta).
  destruct (Z.leb_spec (mo_max_outgoing_packet_count (me_options e)) (PriorityQueue_len (me_priority_queue e)))
    as [|Hlt]; [by run_step|].
  run_step. eapply runs_mono; [by apply publish_id_step|]. clear Hstop.
  intros [error|[pid c2]] e1 (Heg & Href & Hres).
  { split; [eapply good_mono; [done|lia]|done]. }
  assert (Hstop : good (K + 1) e1 ∧ refused e e1) by (split; [eapply good_mono; [done|lia]|done]).
  destruct Hres as (Hpid & Hc2 & Htn & Hpp & _ & Hsome & Hfresh).
  run_step. apply runs_result; [apply map_parse_error_no_panic|by eauto|].
  intros bs Hbs%map_parse_error_Ok.
  destruct (publish_packet_ok e c2 bs Hc2) as [Hqok Hqid]; [|by rewrite Hpid|done|].
  { unfold topic_or_alias in *. by rewrite Htn, Hpp. }
  run_step. run_step.
  apply runs_gate; [apply gate_try, check_packet_size_no_panic|done|].
  run_step. apply runs_result; [apply check_output_capacity_no_panic|by eauto|]. intros [] Hcap.
  destruct Href as [s ->]. set (e1 := e <| me_session := _ |>) in *.
  destruct (admit_good K e1 (publish_packet e c2) bs alias (pc_priority c2) Heg Hqok Hbs Hal)
    as (q & Hq & Heq & Hhead); [by rewrite Hqid, Hpid|done|..].
  { intros cc Hcc Hlt4. pose proof (check_output_capacity_Ok _ _ _ Hcap Hcc Hlt4).
    pose proof (ei_sender e Hi) as (_ & _ & Hres). simpl in *.
    unfold usize_saturating_add, u64_MAX in *. pose proof (zlen_nonneg bs).
    pose proof (ei_output e1 (gd_inv _ _ _ _ _ Heg)) as (_ & _ & Hqb & _).
    pose proof (total_len_nonneg (queued e1)). pose proof (sum_len_nonneg (me_outgoing_buffer e1)).
    unfold outgoing_bytes in *. simpl in *. lia. }
  rewrite Hqid, Hpid in Heq.
  assert (Hend : runs (process_queue_with_encoding (if PriorityQueue_is_empty (me_priority_queue e1)
    then Some bs else None)) (admitted pid alias bs q e1) (λ _ e', good (K + 1) e' ∧ True)).
  { eapply runs_mono; [apply process_queue_with_encoding_step; [done|done|]|naive_solver].
    intros bs' p'. destruct (PriorityQueue_is_empty _) eqn:Hem; [|done]. intros [= <-].
    unfold PriorityQueue_is_empty in Hem. pose proof (ei_queue e1 (gd_inv _ _ _ _ _ Heg)) as ((_ & Hsz & _) & _).
    assert (Hnil : contents (me_priority_queue e1) = []).
    { destruct (contents (me_priority_queue e1)); [done|]. zlia. }
    specialize (Hhead Hnil). unfold queued, admitted.
    destruct pid, alias as [[]|]; simpl; rewrite Hhead; simpl; by intros [= <-]. }
  unfold reserve_id, register_alias, on_state.
  destruct pid as [id|], alias as [[a topic]|]; repeat run_step; apply runs_lift; exists q;
    (split; [exact Hq|]); repeat run_step; (eapply runs_mono; [exact Hend|]);
    intros [] e' [He' _]; run_step; (split; [exact He'|]); exact Hfresh.
Qed.

(** *** A packet becomes inflight without passing the queue *)
Definition reserved (id : Z) e : MqttEngine T :=
  e <| me_state ::= λ s, s <| ps_reserved ::= λ r, {[id]} ∪ r |> |>.

Lemma reserve_good K e id : good K e → good K (reserved id e).
Proof. intros He. frame. destruct Hids as [Hown Hc]. split; [|done]. by apply ids_reserve. Qed.

Lemma fresh_unlisted id e : engine_inv e → fresh_id id e → unlisted id e.
Proof.
  intros He (_ & _ & HR & _). destruct (ei_ids e He) as [Hown _].
  destruct (ids_fresh _ _ _ _ _ Hown id HR) as (? & ? & ? & _). by split.
Qed.

(** Tracking a fresh identifier fails only for lack of quota. *)
Lemma track_fresh_step K e id packet qos stream :
  good K e → fresh_id id e →
  match InflightQueue_push_with_stream_at (me_inflight_queue e) id packet qos stream (me_now e) with
  | Ok q => good K (reserved id e <| me_inflight_queue := q |>)
  | Err _ => is_publish packet = true ∧ InflightQueue_can_push_publish (me_inflight_queue e) = false
  | Panic => False
  end.
Proof.
  intros He Hf. pose proof (fresh_unlisted id e (gd_inv _ _ _ _ _ He) Hf) as (Hq & Hr & Hp).
  destruct Hf as (Hid & _ & _ & HE).
  pose proof (track_step t B U K (reserved id e) id packet qos stream (reserve_good K e id He)) as Ht.
  change (me_inflight_queue (reserved id e)) with (me_inflight_queue e) in Ht.
  change (me_now (reserved id e)) with (me_now e) in Ht.
  destruct (InflightQueue_push_with_stream_at _ _ _ _ _ _) as [q|error|].
  - apply Ht; [simpl; set_solver|done..].
  - destruct Ht as [?|[[? Hx]|?]]; [simpl; set_solver|done|done|done|by rewrite HE in Hx|done].
  - apply Ht; [simpl; set_solver|done..].
Qed.

Lemma tick_good K e : good K e → good K (e <| me_last_packet_sent := me_now e |>).
Proof.
  intros He. frame. destruct Hclk as (? & _ & ?). split; [done|]. split; [apply ord_le_refl|done].
Qed.
Lemma start_deadline_good K e op (id : option Z) :
  good K e → runs (start_deadline op id) e (λ _ e', good K e').
Proof. apply start_deadline_keeps. Qed.

Lemma reserve_len_good K e n :
  good K e → good K (e <| me_state ::= λ s, s <| ps_replay_reserve ::= λ m, Z.max m n |> |>).
Proof. intros He. frame. Qed.

Lemma register_alias_good K e alias :
  good K e → alias_ok alias → runs (register_alias alias) e (λ _ e', good K e').
Proof.
  intros He Hal. pose proof (register_sender e alias (ei_sender e (gd_inv _ _ _ _ _ He)) Hal) as Hs.
  unfold register_alias, on_state. destruct alias as [[a topic]|]; run_step; [|done]. frame.
Qed.

Lemma publish_encoded_step K e c stream :
  good K e → publish_command_ok c →
  runs (publish_encoded_inner c stream) e (λ r e', good K e' ∧
    match r with inl _ => refused e e' | inr _ => True end).
Proof.
  intros He Hc. pose proof (gd_inv _ _ _ _ _ He) as Hi.
  assert (Hstop : good K e ∧ refused e e) by (split; [done|apply refused_refl]).
  unfold publish_encoded_inner. run_step. run_step.
  apply runs_gate; [apply gate_try, ensure_outgoing_allowed_no_panic|done|].
  apply runs_gate; [apply gate_if, gate_try, require_full_parser_no_panic|done|].
  run_step. apply runs_result; [apply validate_publish_no_panic|done|].
  intros [alias c1] Hvp.
  destruct (validate_publish_ok e c alias c1 (ei_sender e Hi) Hc Hvp) as (Hc1 & _ & _ & Hal & Hta).
  run_step. eapply runs_mono; [by apply publish_id_step|]. clear Hstop.
  intros [error|[pid c2]] e1 (Heg & Href & Hres); [done|].
  assert (Hstop : good K e1 ∧ refused e e1) by done.
  destruct Hres as (Hpid & Hc2 & Htn & Hpp & _ & Hsome & Hfresh).
  run_step. apply runs_result; [apply map_parse_error_no_panic|by eauto|].
  intros bs Hbs%map_parse_error_Ok. run_step. run_step.
  apply runs_gate; [apply gate_try, check_packet_size_no_panic|done|].
  assert (Hend : ∀ e2, good K e2 → runs (register_alias alias ≫= λ _ : (),
      modify (λ e, e <| me_last_packet_sent := me_now e |>) ≫= λ _ : (), ok (E:=MqttClientError) (pid, bs)) e2
    (λ r e', good K e' ∧ match r with inl _ => refused e e' | inr _ => True end)).
  { intros e2 He2. run_step. eapply runs_mono; [by apply register_alias_good|]. intros [] e3 He3.
    repeat run_step. split; [|done]. by apply tick_good. }
  destruct (Z.ltb_spec 0 (pc_qos c2)) as [Hq|Hq].
  - destruct (proj2 Hsome Hq) as [id Hid]. specialize (Hfresh id Hid). rewrite Hid in *.
    destruct Href as [s ->]. set (e1 := e <| me_session := _ |>) in *.
    pose proof (track_fresh_step K e1 id (publish_packet e c2) (pc_qos c2) stream Heg Hfresh) as Ht.
    run_step. run_step. apply runs_expect. exists id. split; [done|]. run_step.
    unfold runs at 1, try.
    destruct (InflightQueue_push_with_stream_at _ _ _ _ _ _) as [q|error|]; [|exact Hstop|done].
    unfold reserve_id, on_state. repeat run_step.
    eapply runs_mono; [apply (start_deadline_good K); exact (reserve_len_good _ _ _ Ht)|].
    intros [] e2 He2. by apply Hend.
  - apply runs_gate; [by left|done|]. assert (pid = None) as ->.
    { destruct pid; [|done]. destruct Hsome as [Hs _]. specialize (Hs ltac:(eauto)). lia. }
    run_step. run_step. by apply Hend.
Qed.

(** ** SUBSCRIBE and UNSUBSCRIBE *)
Lemma queue_tracked_step K e id packet op :
  good K e → fresh_id id e → is_publish packet = false →
  runs (queue_tracked id packet op) e (λ r e', good (K + 1) e' ∧
    match r with inl _ => e' = e | inr id' => id' = id end).
Proof.
  intros He Hf Hp. unfold queue_tracked. run_step.
  eapply runs_mono; [by apply enqueue_packet_step|]. intros [error|[]] e1.
  { intros ->. split; [eapply good_mono; [done|lia]|done]. }
  intros (bs & _ & -> & He1). run_step. run_step. run_step. unfold InflightQueue_push_at.
  pose proof (track_fresh_step (K + 1) (appended bs e) id packet 1 None He1 Hf) as Ht.
  unfold runs at 1, try.
  destruct (InflightQueue_push_with_stream_at _ _ _ _ _ _) as [q|error|]; [|by destruct Ht; congruence|done].
  unfold on_state. repeat run_step.
  eapply runs_mono; [apply (start_deadline_good (K + 1)); exact Ht|].
  intros [] e2 He2. by run_step.
Qed.

Lemma encode_tracked_step K e id packet op stream :
  good K e → fresh_id id e → is_publish packet = false →
  runs (encode_tracked id packet op stream) e (λ r e', good K e' ∧
    match r with inl _ => e' = e | inr _ => True end).
Proof.
  intros He Hf Hp. unfold encode_tracked. run_step.
  apply runs_result; [apply map_parse_error_no_panic|done|]. intros bs _. run_step. run_step.
  apply runs_gate; [apply gate_try, check_packet_size_no_panic|done|]. run_step.
  pose proof (track_fresh_step K e id packet 1 stream He Hf) as Ht. unfold runs at 1, try.
  destruct (InflightQueue_push_with_stream_at _ _ _ _ _ _) as [q|error|]; [|done|done].
  unfold on_state. repeat run_step.
  eapply runs_mono; [apply (start_deadline_good K); exact Ht|].
  intros [] e2 He2. repeat run_step. split; [by apply tick_good|done].
Qed.

(** The part of the four commands that comes before. *)
Lemma with_candidate_step {A} K K' e requested (m : Z → M (MqttClientError + A)) :
  good K e → K <= K' → wf_opt is_u16 requested →
  (∀ id e', good K e' → fresh_id id e' → runs (m id) e' (λ r e'', good K' e'' ∧
     match r with inl _ => e'' = e' | inr _ => True end)) →
  runs (id ←? candidate_id requested; m id) e (λ r e', good K' e' ∧
    match r with inl _ => refused e e' | inr _ => True end).
Proof.
  intros He HK Hr Hm. run_step. eapply runs_mono; [by apply candidate_id_step|].
  intros [error|id] e1 (He1 & [s ->] & Hf).
  { split; [eapply good_mono; [done|lia]|by exists s]. }
  eapply runs_mono; [by apply Hm|]. intros [error|a] e2 [He2 Hx]; [|done].
  split; [done|]. subst e2. by exists s.
Qed.

Lemma subscribe_inner_step K e c :
  good K e → wf_opt is_u16 (sc_packet_id c) →
  runs (subscribe_inner c) e (λ r e', good (K + 1) e' ∧
    match r with inl _ => refused e e' | inr _ => True end).
Proof.
  intros He Hc. assert (Hstop : good (K + 1) e ∧ refused e e).
  { split; [eapply good_mono; [done|lia]|apply refused_refl]. }
  unfold subscribe_inner. run_step. run_step.
  apply runs_gate; [apply gate_try, ensure_outgoing_allowed_no_panic|done|].
  apply runs_gate; [apply gate_try, require_full_parser_no_panic|done|].
  apply runs_gate; [apply gate_try, validate_subscribe_no_panic|done|].
  apply (with_candidate_step K); [done|lia|done|]. intros id e' He' Hf.
  eapply runs_mono; [apply (queue_tracked_step K); [done|done|]|].
  - unfold subscribe_packet. by destruct (_ =? 5).
  - intros [] e2 []; by split.
Qed.
Lemma unsubscribe_inner_step K e c :
  good K e → wf_opt is_u16 (uc_packet_id c) →
  runs (unsubscribe_inner c) e (λ r e', good (K + 1) e' ∧
    match r with inl _ => refused e e' | inr _ => True end).
Proof.
  intros He Hc. assert (Hstop : good (K + 1) e ∧ refused e e).
  { split; [eapply good_mono; [done|lia]|apply refused_refl]. }
  unfold unsubscribe_inner. run_step. run_step.
  apply runs_gate; [apply gate_try, ensure_outgoing_allowed_no_panic|done|].
  apply runs_gate; [apply gate_try, require_full_parser_no_panic|done|].
  apply (with_candidate_step K); [done|lia|done|]. intros id e' He' Hf.
  eapply runs_mono; [apply (queue_tracked_step K); [done|done|]|].
  - unfold unsubscribe_packet. by destruct (_ =? 5).
  - intros [] e2 []; by split.
Qed.
Lemma subscribe_encoded_step K e c stream :
  good K e → wf_opt is_u16 (sc_packet_id c) →
  runs (subscribe_encoded_inner c stream) e (λ r e', good K e' ∧
    match r with inl _ => refused e e' | inr _ => True end).
Proof.
  intros He Hc. assert (Hstop : good K e ∧ refused e e) by (split; [done|apply refused_refl]).
  unfold subscribe_encoded_inner. run_step. run_step.
  apply runs_gate; [apply gate_try, ensure_outgoing_allowed_no_panic|done|].
  apply runs_gate; [apply gate_try, require_full_parser_no_panic|done|].
  apply runs_gate; [apply gate_try, validate_subscribe_no_panic|done|].
  apply (with_candidate_step K); [done|lia|done|]. intros id e' He' Hf.
  apply (encode_tracked_step K); [done|done|]. unfold subscribe_packet. by destruct (_ =? 5).
Qed.
Lemma unsubscribe_encoded_step K e c stream :
  good K e → wf_opt is_u16 (uc_packet_id c) →
  runs (unsubscribe_encoded_inner c stream) e (λ r e', good K e' ∧
    match r with inl _ => refused e e' | inr _ => True end).
Proof.
  intros He Hc. assert (Hstop : good K e ∧ refused e e) by (split; [done|apply refused_refl]).
  unfold unsubscribe_encoded_inner. run_step. run_step.
  apply runs_gate; [apply gate_try, ensure_outgoing_allowed_no_panic|done|].
  apply runs_gate; [apply gate_try, require_full_parser_no_panic|done|].
  apply (with_candidate_step K); [done|lia|done|]. intros id e' He' Hf.
  apply (encode_tracked_step K); [done|done|]. unfold unsubscribe_packet. by destruct (_ =? 5).
Qed.

(** ** DISCONNECT, AUTH, PINGREQ *)
Lemma unscheduled_good K e :
  good K e → EngineInv.good t (B + 1) U K (e <| me_next_reconnect_at := None |>).
Proof.
  intros He. frame. destruct Hatt as (? & ? & ?). split; [done|]. split; [by left|]. simpl.
  destruct (me_next_reconnect_at e); lia.
Qed.

Lemma enqueue_packet_good K e p :
  good K e → runs (enqueue_packet_inner p) e (λ r e', good (K + 1) e' ∧
    match r with inl _ => e' = e | inr _ => True end).
Proof.
  intros He. eapply runs_mono; [by apply enqueue_packet_step|]. intros [error|[]] e'.
  - intros ->. split; [eapply good_mono; [done|lia]|done].
  - intros (bs & _ & _ & ?). done.
Qed.

Lemma disconnect_with_step K e reason properties :
  good K e → runs (try_disconnect_with_inner reason properties) e (λ r e',
    EngineInv.good t (B + 1) U (K + 1) e' ∧
    match r with inl _ => e' = e | inr _ => me_is_connected e' = false end).
Proof.
  intros He. assert (Hstop : EngineInv.good t (B + 1) U (K + 1) e) by (eapply good_weaken; [done|lia..]).
  assert (Hclose : ∀ e1, good (K + 1) e1 →
    runs close_input (e1 <| me_next_reconnect_at := None |>) (λ _ e',
      EngineInv.good t (B + 1) U (K + 1) e' ∧ me_is_connected e' = false)).
  { intros e1 He1. eapply runs_mono; [apply close_input_step; by apply unscheduled_good|]. naive_solver. }
  unfold try_disconnect_with_inner. run_step. run_step.
  do 3 (match goal with |- runs (if ?b then _ else _) _ _ => destruct b; [by run_step|] end).
  destruct (negb (me_is_connected e)).
  - repeat run_step. eapply runs_mono; [apply Hclose; eapply good_mono; [done|lia]|].
    intros [] e1 He1. by run_step.
  - run_step. eapply runs_mono; [by apply (enqueue_packet_good K)|]. intros [error|[]] e1 [He1 Hx]; [by subst|].
    repeat run_step. eapply runs_mono; [by apply Hclose|]. intros [] e2 He2. by run_step.
Qed.

Lemma try_auth_step K e reason properties :
  good K e → runs (try_auth_inner reason properties) e (λ r e', good (K + 1) e' ∧
    match r with inl _ => e' = e | inr _ => True end).
Proof.
  intros He. assert (Hstop : good (K + 1) e) by (eapply good_mono; [done|lia]).
  unfold try_auth_inner. run_step. run_step. destruct (_ || _); [by run_step|]. run_step.
  apply runs_result; [by unfold ok_or; case_match|done|]. intros method _.
  destruct (existsb _ _); [by run_step|]. destruct (_ || _); [by run_step|].
  run_step. eapply runs_mono; [by apply (enqueue_packet_good K)|]. intros [error|[]] e1 [He1 Hx]; [by subst|].
  destruct (reason =? 25); unfold on_state; repeat run_step; [|done]. split; [|done]. clear Hstop He. frame.
Qed.

Lemma auth_received_step K e reason properties :
  good K e → runs (auth_received reason properties) e (λ _ e', good K e').
Proof.
  intros He. unfold auth_received. run_step. run_step. destruct (_ || _).
  - run_step. eapply runs_mono; [by apply fail_connection_keeps|]. intros [] e1 He1. by run_step.
  - destruct (reason =? 0); unfold on_state; repeat run_step; [|done]. frame.
Qed.

Lemma send_ping_step K e :
  good K e → runs (send_ping_inner_at t) e (λ r e', good (K + 1) e' ∧
    match r with inl _ => e' = e | inr _ => True end).
Proof.
  intros He. unfold send_ping_inner_at. run_step. run_step. run_step.
  eapply runs_mono; [by apply (enqueue_packet_good K)|]. intros [error|[]] e1 [He1 Hx]; [by subst|].
  repeat run_step. split; [|done]. clear He. frame. destruct Hclk as (Hc & _ & _). split; [done|].
  simpl. rewrite Hnow. split; [apply ord_le_refl|]. intros ? [= <-]. apply ord_le_refl.
Qed.
End handlers.
