(* ===== verification/EngineConnect.v ===== *)
(** * Connecting and restoring the session preserve the invariant

    CONNECT collects the exchanges of the earlier connection, CONNACK negotiates the limits and
    moves the collected exchanges to the replay list, or ends them. *)
From S2P Require Import Prelude BaseData TopicFilter Validation Properties Packets Framing Codec.
From S2P Require Import Stream Leveled Time PriorityQueue ClientError Options ClientTypes.
From S2P Require Import Commands Inflight ClientSession EngineState EngineCore EngineProtocol.
From S2P Require Import Engine EncodeFacts EngineInv EngineSteps EngineQueues EngineHandlers.

(** ** The exchanges of the earlier connection *)

(** [positions] finds the entries of [previous] by their identifiers. *)
Definition indexes (positions : gmap Z nat) (previous : list (Z * MqttPacket)) : Prop :=
  ∀ id i, positions !! id = Some i ↔ previous.*1 !! i = Some id.

Lemma indexes_nodup positions previous : indexes positions previous → NoDup previous.*1.
Proof.
  intros Hi. apply NoDup_alt. intros i j id Hid Hjd. apply Hi in Hid, Hjd. congruence.
Qed.

Lemma positions_indexes previous : NoDup previous.*1 → indexes (positions_of previous) previous.
Proof.
  intros Hnd id i. unfold positions_of.
  assert (Hk : (imap (λ index (p : Z * MqttPacket), (p.1, index)) previous).*1 = previous.*1).
  { rewrite fmap_imap. apply list_eq. intros j. rewrite list_lookup_imap, list_lookup_fmap.
    by destruct (previous !! j). }
  rewrite <- elem_of_list_to_map.
  2: { rewrite fmap_reverse, Hk. by rewrite reverse_Permutation. }
  rewrite elem_of_reverse, elem_of_lookup_imap, list_lookup_fmap.
  destruct (previous !! i) as [p|] eqn:Hp; simpl.
  - split.
    + intros (j & p' & [= -> ->] & Hj). simplify_eq. done.
    + intros [= <-]. exists i, p. done.
  - split; [|done]. intros (j & p' & [= -> ->] & Hj). congruence.
Qed.

Lemma refresh_previous_ok entries positions previous :
  indexes positions previous →
  ∃ r, refresh_previous entries positions previous = Ok r ∧ NoDup r.*1 ∧
    (∀ id, id ∈ r.*1 ↔ id ∈ previous.*1 ∨ id ∈ entries.*1).
Proof.
  revert positions previous. induction entries as [|[id packet] entries IH]; intros positions previous Hi.
  { exists previous. split; [done|]. split; [by eapply indexes_nodup|]. set_solver. }
  cbn [refresh_previous]. destruct (positions !! id) as [i|] eqn:Hpos.
  - apply Hi in Hpos as Hid. rewrite list_lookup_fmap in Hid.
    destruct (previous !! i) as [old|] eqn:Hold; [|done]. simpl in Hid. injection Hid as Hid. rsimp.
    assert (Hids : (<[i := (old.1, packet)]> previous).*1 = previous.*1).
    { rewrite list_fmap_insert. simpl. apply list_insert_id. by rewrite list_lookup_fmap, Hold. }
    destruct (IH positions (<[i := (old.1, packet)]> previous)) as (r & Hr & Hnd & Hin).
    { intros id' j. rewrite Hids. apply Hi. }
    exists r. split; [done|]. split; [done|]. intros id'. rewrite Hin, Hids, fmap_cons, elem_of_cons. simpl.
    assert (id ∈ previous.*1); [|naive_solver].
    apply list_elem_of_lookup. exists i. by rewrite list_lookup_fmap, Hold, <- Hid.
  - destruct (IH (<[id := length previous]> positions) (previous ++ [(id, packet)])) as (r & Hr & Hnd & Hin).
    { intros id' j. rewrite fmap_app. destruct (decide (id' = id)) as [->|Hne].
      - rewrite lookup_insert_eq. split.
        + intros [= <-]. rewrite lookup_app_r by (by rewrite length_fmap).
          by rewrite length_fmap, Nat.sub_diag.
        + intros [Hj|[Hle Hj]]%lookup_app_Some.
          * apply Hi in Hj. congruence.
          * rewrite length_fmap in *. destruct (j - length previous)%nat as [|k] eqn:E; [|done]. f_equal. lia.
      - rewrite lookup_insert_ne by done. rewrite (Hi id' j). split.
        + intros Hj. by apply lookup_app_l_Some.
        + intros [Hj|[Hle Hj]]%lookup_app_Some; [done|]. rewrite length_fmap in *.
          destruct (j - length previous)%nat as [|k] eqn:E; [|done]. simpl in Hj. congruence. }
    exists r. split; [done|]. split; [done|]. intros id'. rewrite Hin, fmap_app, elem_of_app, fmap_cons, elem_of_cons.
    set_solver.
Qed.

Section connect.
Context {T : Type} `{TimePointLaws T} `{!Runtime T} `{!RuntimeLaws T}.
Context (t : T) (B U : Z) (HB : B <= u32_MAX).
Implicit Types (e : MqttEngine T) (id : Z).
Local Abbreviation M := (St (MqttEngine T)).
Local Abbreviation good := (good t B U).

(** ** CONNECT *)
Lemma remember_properties ps (s : ProtocolState T) :
  ∃ a b c, foldl (λ s p, remember_connect_property p s) s ps
    = s <| ps_session_expiry := a |> <| ps_incoming_receive_maximum := b |>
        <| ps_incoming_alias_maximum := c |>.
Proof.
  revert s. induction ps as [|p ps IH]; intros s; cbn [foldl].
  - exists (ps_session_expiry s), (ps_incoming_receive_maximum s), (ps_incoming_alias_maximum s).
    by destruct s.
  - destruct (IH (remember_connect_property p s)) as (a & b & c & ->). exists a, b, c.
    by destruct p.
Qed.

Lemma connect_packet_no_panic e : connect_packet e ≠ Panic.
Proof.
  assert (Hm : ∀ ps merged, merge_properties ps merged ≠ Panic).
  { induction ps as [|p ps IH]; intros merged; simpl; [done|].
    destruct (connect_property_error p); [done|].
    destruct (if is_user_property p then _ else _); [|done]. by case_bool_decide. }
  unfold connect_packet, connect_properties. destruct (_ =? 5); [|done].
  destruct (merge_properties _ _) eqn:E; simpl; [by case_match|done|by apply Hm in E].
Qed.

Lemma snapshot_ids e id :
  inflight_inv (me_inflight_queue e) →
  id ∈ (InflightQueue_snapshot_for_reconnect (me_inflight_queue e)).*1 →
  id ≠ 0 ∧ is_Some (iq_entries (me_inflight_queue e) !! id).
Proof.
  intros Hi Hin. unfold InflightQueue_snapshot_for_reconnect in Hin.
  rewrite <- list_fmap_compose in Hin. apply list_elem_of_fmap in Hin as (entry & -> & Hin).
  apply list_elem_of_omap in Hin as (i & _ & Hx). destruct (ii_id _ Hi i entry Hx) as [Hid H0'].
  cbn. rewrite Hid. split; [done|]. by eexists.
Qed.

(** The collected exchanges own their identifiers. *)
Lemma collect_ids e (r : list (Z * MqttPacket)) :
  engine_inv e → NoDup r.*1 →
  (∀ id, id ∈ r.*1 → id ∈ (me_previous_inflight e).*1 ∨
     id ∈ (InflightQueue_snapshot_for_reconnect (me_inflight_queue e) ++ me_session_replay e).*1) →
  ids_owned (ps_reserved (me_state e)) (iq_entries (me_inflight_queue e))
    (queued_ids (queued e)) [] r.*1.
Proof.
  intros He Hnd Hr. destruct (ei_ids e He) as [[Hq Hp Hv Hi Hnq Hnp Hnv Hap] _].
  destruct (ei_inflight e He) as (Hinv & _).
  assert (Hcases : ∀ id, id ∈ r.*1 → id ∈ (me_previous_inflight e).*1 ∨
    (id ≠ 0 ∧ is_Some (iq_entries (me_inflight_queue e) !! id)) ∨ id ∈ (me_session_replay e).*1).
  { intros id [?|Hin]%Hr; [by left|]. rewrite fmap_app, elem_of_app in Hin. destruct Hin as [Hin|]; [|auto].
    right. left. by apply snapshot_ids. }
  split; try done.
  - intros id Hin. destruct (Hq id Hin) as (Hid & HR & HE & HP & HV).
    split; [done|]. split; [done|]. split; [done|]. split; [apply not_elem_of_nil|].
    intros [?|[[_ Hs]|?]]%Hcases; [done| |done]. rewrite HE in Hs. by destruct Hs.
  - by intros id ?%not_elem_of_nil.
  - intros id [?|[[? Hs]|?]]%Hcases; [by apply Hv|split; [done|by apply Hi]|].
    destruct (Hp id) as (? & ? & _); done.
  - constructor.
  - by intros id ?%not_elem_of_nil.
Qed.

Lemma connect_inner_step K e :
  good K e →
  runs connect_inner e (λ r e', ∃ K', EngineInv.good t (B + 1) U K' e').
Proof.
  intros He. assert (Hup : ∀ K e, good K e → ∃ K', EngineInv.good t (B + 1) U K' e).
  { intros K' e' He'. exists K'. eapply good_weaken; [done|lia..]. }
  unfold connect_inner. run_step. run_step. destruct (me_is_connected e) eqn:Hcon; [by run_step; eauto|].
  destruct (ps_connecting (me_state e)); [by run_step; eauto|].
  destruct (_ || _); [by run_step; eauto|]. run_step.
  apply runs_result; [apply connect_packet_no_panic|by eauto|]. intros packet _. run_step.
  match goal with |- runs ?m _ _ =>
    assert (Hrem : runs m e (λ _ e', good K e' ∧ me_is_connected e' = false)) end.
  { destruct packet; try (by run_step). unfold on_state. run_step. split; [|done].
    match goal with |- context [c5_properties ?p] =>
      destruct (remember_properties (c5_properties p) (me_state e)) as (a & b & c & Hs);
      change (good K (e <| me_state := foldl (λ s p, remember_connect_property p s) (me_state e)
                                         (c5_properties p) |>)) end.
    rewrite Hs. clear Hs.
    frame. }
  eapply runs_mono; [exact Hrem|]. clear Hrem He Hcon e. intros [] e (He & Hcon).
  repeat run_step. set (e1 := e <| me_session ::= _ |>).
  assert (He1 : good K e1).
  { frame. split; [|apply Hsnd]. simpl. intros s. destruct (me_session e) eqn:Hs.
    - intros [= <-]. by apply Hsnd.
    - by intros [= <-]. }
  assert (Hcon1 : me_is_connected e1 = false) by done. clearbody e1. clear e He Hcon.
  apply runs_result; [apply map_parse_error_no_panic|by eauto|]. intros bs _. run_step.
  assert (Hsame : runs (enqueue_packet_inner packet) e1 (λ _ e', me_is_connected e' = false)).
  { eapply runs_mono; [by apply enqueue_packet_step|]. intros [error|[]] e'; [by intros ->|by intros (? & _ & -> & _)]. }
  eapply runs_mono; [apply (runs_and _ _ _ _ (enqueue_packet_good t B U K e1 packet He1) Hsame)|].
  intros [error|[]] e [[He _] Hcon]; [by eauto|]. clear Hsame He1 Hcon1 e1.
  pose proof (gd_inv _ _ _ _ _ He) as Hi. run_step. run_step. run_step.
  set (previous := filter _ (me_previous_inflight e)).
  set (entries := _ ++ me_session_replay e).
  assert (Hsub : previous.*1 ⊆ (me_previous_inflight e).*1).
  { intros id. unfold previous. rewrite !list_elem_of_fmap. intros (p & -> & [_ Hp]%list_elem_of_filter). eauto. }
  destruct (refresh_previous_ok entries (positions_of previous) previous) as (r & Hr & Hnd & Hin).
  { apply positions_indexes. unfold previous. apply NoDup_fmap_filter.
    apply (io_nodup_previous _ _ _ _ _ (proj1 (ei_ids e Hi))). }
  apply runs_lift. exists r. split; [done|]. unfold on_state. repeat run_step.
  set (e2 := e <| me_previous_inflight := r |> <| me_session_replay := [] |>).
  assert (He2 : EngineInv.good t B U (potential e2) e2).
  { destruct He as [_ Hnow Hatt Hunr _]. split; [|done..|apply Z.le_refl].
    assert (Hown := collect_ids e r Hi Hnd). frame. split; [|simpl; by rewrite Hcon].
    apply Hown. intros id Hid. apply Hin in Hid as [Hid|]; [left; by apply Hsub|by right]. }
  set (e3 := e2 <| me_state ::= _ |>).
  assert (He3 : EngineInv.good t B U (potential e2) e3).
  { unfold e3. clear Hi He. clearbody e2. frame.
    destruct Hsnd as (? & ? & _). split; [done|]. split; [done|]. simpl. lia. }
  eapply runs_mono; [eapply start_deadline_good, unscheduled_good, He3|].
  intros [] e4 He4. run_step. by eauto.
Qed.

(** ** CONNACK: negotiation *)
Lemma set_receive_maximum_good K e v :
  good K e → runs (set_receive_maximum v) e (λ _ e', good K e').
Proof.
  intros He. unfold set_receive_maximum. run_step. frame.
  - exact (set_maximum_inflight_ok e _ Hinf).
  - exact (set_maximum_ids_ok e _ Hinf Hids).
Qed.

Lemma wf_options_client_id o v : wf_options o → wf_str v → wf_options (o <| mo_client_id := v |>).
Proof. intros [] Hv. by split. Qed.

Lemma negotiate_property_good K e p :
  good K e → wf_property p → runs (negotiate_property p) e (λ _ e', good K e').
Proof.
  intros He Hp. destruct p; cbn [negotiate_property]; unfold on_state;
    try (match goal with |- context [if ?b then err _ else _] => destruct b; [by run_step|] end);
    try (run_step; eapply runs_mono; [by apply set_receive_maximum_good|]; intros [] e1 He1; by run_step);
    repeat run_step; try exact He; frame.
  all: destruct Hcfg as (Hw & Hs & Hb & Hm & Hk); split; [|by split_and!];
    first [done|by apply wf_options_client_id].
Qed.

Lemma negotiate_good K e ps :
  good K e → Forall wf_property ps → runs (negotiate ps) e (λ _ e', good K e').
Proof.
  intros He Hps. unfold negotiate. run_step.
  assert (Hloop : ∀ prev e, good K e → runs (negotiate_loop prev ps) e (λ _ e', good K e')).
  { clear e He. induction Hps as [|p ps Hp _ IH]; intros prev e He; cbn [negotiate_loop]; [by run_step|].
    destruct (_ && _); [by run_step|]. run_step.
    eapply runs_mono; [by apply negotiate_property_good|]. intros [|[]] e1 He1; [done|by apply IH]. }
  eapply runs_mono; [by apply Hloop|]. intros [|[]] e1 He1; [done|]. run_step. run_step. run_step.
  apply runs_result; [apply connect_packet_no_panic|done|]. intros packet _. run_step.
  apply runs_result; [apply map_parse_error_no_panic|done|]. intros bs _.
  destruct (exceeds _ _); [by run_step|]. unfold on_state. repeat run_step. clear He. frame.
  destruct Hsnd as (? & ? & _). split; [done|]. split; [done|]. simpl. lia.
Qed.

(** ** CONNACK: the session is restored

    While the collected exchanges are moved, they are in neither list of the engine and the
    engine is already connected.  [pretend V e] is the engine as if they were still collected;
    the operations of the loop do not look at the difference. *)
Definition pretend (V : list (Z * MqttPacket)) e : MqttEngine T :=
  e <| me_previous_inflight := V |> <| me_is_connected := false |>.

Definition insensitive {A} (m : M A) : Prop :=
  ∀ V e, m (pretend V e) = match m e with
                           | Ok (a, e') => Ok (a, pretend V e')
                           | Err x => Err x
                           | Panic => Panic
                           end.

Lemma insensitive_runs {A} (m : M A) V e Q :
  insensitive m → runs m (pretend V e) Q → runs m e (λ a e', Q a (pretend V e')).
Proof. intros Hm. unfold runs. rewrite Hm. by destruct (m e) as [[]| |]. Qed.

Lemma acknowledge_insensitive id : insensitive (acknowledge id).
Proof.
  intros V e. unfold acknowledge, mbind, St_bind, get_st, modify, mret, St_ret. cbv beta iota.
  change (me_inflight_queue (pretend V e)) with (me_inflight_queue e).
  by destruct (InflightQueue_acknowledge (me_inflight_queue e) id).
Qed.

Lemma bind_insensitive {A C} (m : M A) (f : A → M C) :
  insensitive m → (∀ a, insensitive (f a)) → insensitive (m ≫= f).
Proof.
  intros Hm Hf V e. unfold mbind, St_bind. rewrite Hm. destruct (m e) as [[a e']| |]; [|done..]. apply Hf.
Qed.
Lemma modify_insensitive f :
  (∀ V e, f (pretend V e) = pretend V (f e)) → insensitive (modify f).
Proof. intros Hf V e. unfold modify. by rewrite Hf. Qed.
Lemma finish_operation_insensitive id : insensitive (finish_operation id).
Proof.
  unfold finish_operation, on_state. apply bind_insensitive; [by apply modify_insensitive|intros _].
  intros V e. unfold mbind, St_bind, get_st. cbv beta iota.
  change (ps_reserved (me_state (pretend V e))) with (ps_reserved (me_state e)). by case_bool_decide.
Qed.
Lemma fail_operation_insensitive id p error : insensitive (fail_operation id p error).
Proof.
  apply bind_insensitive; [apply acknowledge_insensitive|intros _].
  apply bind_insensitive; [apply finish_operation_insensitive|intros _]. by apply modify_insensitive.
Qed.

(** What the loop leaves alone. *)
Definition restoring e e' : Prop :=
  me_previous_inflight e' = me_previous_inflight e ∧ me_is_connected e' = me_is_connected e.

Lemma acknowledge_restoring id e :
  match acknowledge id e with Ok (_, e') => restoring e e' | _ => True end.
Proof.
  unfold acknowledge, mbind, St_bind, get_st. cbv beta iota.
  by destruct (InflightQueue_acknowledge (me_inflight_queue e) id).
Qed.
Lemma fail_operation_restoring id p error e :
  match fail_operation id p error e with Ok (_, e') => restoring e e' | _ => True end.
Proof.
  unfold fail_operation, mbind at 1, St_bind at 1. pose proof (acknowledge_restoring id e) as Ha.
  destruct (acknowledge id e) as [[x e1]| |]; [|done..]. destruct Ha as [Hp Hc].
  unfold finish_operation, on_state, push_event, mbind, St_bind, get_st, modify, restoring. cbv beta iota.
  case_bool_decide; split; simpl; congruence.
Qed.

(** An exchange is no longer collected. *)
Lemma ids_uncollect R (E : gmap Z (InflightEntry T)) Q P id V :
  ids_owned R E Q P (id :: V) →
  ids_owned R E Q P V ∧ id ≠ 0 ∧ id ∈ R ∧ id ∉ Q ∧ id ∉ P ∧ id ∉ V.
Proof.
  intros Hown. pose proof (io_nodup_previous _ _ _ _ _ Hown) as [Hni Hnd]%NoDup_cons.
  destruct (io_previous _ _ _ _ _ Hown id) as [Hid HR]; [by left|].
  split.
  - destruct Hown as [Hq Hp Hv Hi H1' H2' _ H4']. split; try done.
    + intros i Hi'. destruct (Hq i Hi') as (? & ? & ? & ? & Hn). split_and!; try done.
      intros Hin. apply Hn. by right.
    + intros i Hi'. apply Hv. by right.
    + intros i Hi' Hin. apply (H4' i Hi'). by right.
  - split_and!; try done.
    + intros Hin. destruct (io_queued _ _ _ _ _ Hown id Hin) as (_ & _ & _ & _ & Hv). apply Hv. by left.
    + intros Hin. apply (io_apart _ _ _ _ _ Hown id Hin). by left.
Qed.

Lemma ids_replay R (E : gmap Z (InflightEntry T)) Q P id V :
  ids_owned R E Q P V → id ≠ 0 → id ∈ R → id ∉ Q → id ∉ P → id ∉ V → E !! id = None →
  ids_owned R E Q (P ++ [id]) V.
Proof.
  intros [Hq Hp Hv Hi H1' H2' H3' H4'] Hid HR HQ HP HV HE. split; try done.
  - intros i Hi'. destruct (Hq i Hi') as (? & ? & ? & ? & ?). split_and!; try done.
    rewrite elem_of_app, list_elem_of_singleton. intros [?| ->]; done.
  - intros i. rewrite elem_of_app, list_elem_of_singleton. intros [?| ->]; [by apply Hp|done].
  - apply NoDup_app. split; [done|]. split; [|apply NoDup_singleton].
    intros i Hin ->%list_elem_of_singleton. done.
  - intros i. rewrite elem_of_app, list_elem_of_singleton. intros [?| ->]; [by apply H4'|done].
Qed.

Lemma pretend_drop K e id p l :
  good K (pretend ((id, p) :: l) e) →
  good (K - 1) (pretend l e) ∧ unlisted id (pretend l e) ∧ id ≠ 0 ∧
  id ∈ ps_reserved (me_state e).
Proof.
  intros He. pose proof (ei_ids _ (gd_inv _ _ _ _ _ He)) as [Hown _].
  change (me_previous_inflight (pretend ((id, p) :: l) e)).*1 with (id :: l.*1) in Hown.
  destruct (ids_uncollect _ _ _ _ _ _ Hown) as (Hown' & Hid & HR & HQ & HP & HV).
  split; [|done]. frame; [by split|].
  unfold potential, work, queued in *. simpl in *. zlia.
Qed.

Lemma restore_one_step K e b id p l :
  good K (pretend ((id, p) :: l) e) →
  runs (restore_one b (id, p)) e (λ _ e', good K (pretend l e') ∧ restoring e e').
Proof.
  intros He. destruct (pretend_drop K e id p l He) as (He' & Hu & Hid & HR).
  unfold restore_one. destruct (b && _).
  - run_step. destruct (acknowledge_step t B U (K - 1) (pretend l e) id He') as (q & Ha & Hq & Heq).
    eapply runs_mono.
    { apply (runs_and _ e (λ _ e', pretend l e' = pretend l e <| me_inflight_queue := q |>)
               (λ _ e', restoring e e')).
      - apply (insensitive_runs (acknowledge id) l e (λ _ e', e' = pretend l e <| me_inflight_queue := q |>));
          [apply acknowledge_insensitive|]. unfold runs. by rewrite Ha.
      - pose proof (acknowledge_restoring id e). unfold runs.
        pose proof (acknowledge_insensitive id l e) as Hins. rewrite Ha in Hins.
        by destruct (acknowledge id e) as [[]| |]. }
    intros x e1 [He1 Hr1]. run_step. split; [|exact Hr1].
    change (pretend l (e1 <| me_session_replay ::= λ l0, l0 ++ [(id, strip_alias (MqttPacket_set_dup p true))] |>))
      with (pretend l e1 <| me_session_replay ::= λ l0, l0 ++ [(id, strip_alias (MqttPacket_set_dup p true))] |>).
    rewrite He1. set (e2 := pretend l e <| me_inflight_queue := q |>) in *. clear He He'. frame.
    + destruct Hids as [Hown Hc]. split; [|done].
      change (ids_owned (ps_reserved (me_state e2)) (iq_entries (me_inflight_queue e2))
        (queued_ids (queued e2)) (me_session_replay e2 ++ [(id, strip_alias (MqttPacket_set_dup p true))]).*1
        (me_previous_inflight e2).*1).
      rewrite fmap_app. destruct Hu as (? & ? & ?). apply ids_replay; try done.
      change (iq_entries (me_inflight_queue e2)) with (iq_entries q). rewrite Hq. apply lookup_delete_eq.
    + unfold potential, work, queued in *. simpl in *. zlia.
  - eapply runs_mono.
    { apply (runs_and _ e (λ _ e', good (K - 1) (pretend l e')) (λ _ e', restoring e e')).
      - apply (insensitive_runs _ l e (λ _ e', good (K - 1) e')); [apply fail_operation_insensitive|].
        eapply runs_mono; [by apply fail_operation_step|]. naive_solver.
      - pose proof (fail_operation_restoring id p SessionExpired e). unfold runs.
        pose proof (fail_operation_insensitive id p SessionExpired l e) as Hins.
        pose proof (fail_operation_step t B U (K - 1) (pretend l e) id p SessionExpired He' Hu) as Hrun.
        unfold runs in Hrun. rewrite Hins in Hrun.
        by destruct (fail_operation id p SessionExpired e) as [[]| |]. }
    intros [] e1 [He1 Hr1]. split; [eapply good_mono; [done|lia]|done].
Qed.

Lemma restore_loop_step K e b l :
  good K (pretend l e) →
  runs (for_each_st l (restore_one b)) e (λ _ e', good K (pretend [] e') ∧ restoring e e').
Proof.
  revert e. induction l as [|[id p] l IH]; intros e He; cbn [for_each_st]; [by run_step|].
  run_step. eapply runs_mono; [by apply restore_one_step|]. intros [] e1 [He1 [Hp1 Hc1]].
  eapply runs_mono; [by apply IH|]. intros [] e2 [He2 [Hp2 Hc2]]. split; [done|].
  split; congruence.
Qed.

Lemma unpretend K e : me_previous_inflight e = [] → good K (pretend [] e) → good K e.
Proof.
  intros Hp He. frame.
  - destruct Hids as [Hown _]. split; [|done]. by rewrite Hp.
  - unfold potential, work, queued in *. simpl in *. by rewrite Hp.
Qed.

Lemma pubrel_first_perm l : pubrel_first l ≡ₚ l.
Proof.
  unfold pubrel_first. induction l as [|x l IH]; [done|]. cbn [List.filter].
  destruct (is_pubrel x.2); cbn [negb app]; [by apply perm_skip|].
  rewrite <- Permutation_middle. by apply perm_skip.
Qed.

Lemma restore_session_step K e present :
  good K (pretend (me_previous_inflight e) e) →
  runs (restore_session present) e (λ _ e', good (K + 1) e').
Proof.
  intros He. unfold restore_session. run_step. run_step. run_step. run_step. run_step.
  match goal with |- runs (for_each_st ?l _) ?e1 _ => set (e1' := e1); set (previous := l) end.
  assert (He1 : good K (pretend previous e1')).
  { unfold previous. destruct (_ || _); [|exact He]. clear previous.
    destruct He as [[Hcfg Hclk Hprs Hinf Hque [Hown _] Hout Hsnd] Hnow Hatt Hunr Hwrk].
    pose proof (pubrel_first_perm (me_previous_inflight e)) as Hperm.
    split; [split|..]; try assumption.
    - split; [|done]. destruct Hown as [Hq Hp Hv Hi H1' H2' H3' H4']. simpl in *.
      split; try done; simpl.
      + intros i Hi'. destruct (Hq i Hi') as (? & ? & ? & ? & ?). split_and!; try done. by rewrite Hperm.
      + intros i Hi'. apply Hv. by rewrite <- Hperm.
      + by rewrite Hperm.
      + intros i Hi'. rewrite Hperm. by apply H4'.
    - unfold potential, work, queued, zlen in *. simpl in *. by rewrite Hperm. }
  eapply runs_mono; [by apply restore_loop_step|]. intros [] e2 [He2 [Hp2 Hc2]].
  apply unpretend in He2; [|done]. clear e1' previous He He1 Hp2 Hc2. run_step.
  match goal with |- runs ?m _ _ => assert (Hm : runs m e2 (λ _ e', good (K + 1) e')) end.
  { assert (He3 : good (K + 1) e2) by (eapply good_mono; [done|lia]).
    destruct (negb _); [|by run_step]. unfold on_state. run_step. run_step. run_step. run_step.
    set (e3 := e2 <| me_state ::= _ |>).
    assert (He4 : good K e3) by (clear He3; frame).
    assert (He5 : good (K + 1) e3) by (eapply good_mono; [exact He4|lia]). clearbody e3.
    destruct (me_transport_manages_session e3).
    { repeat run_step. clear He3 He4. frame. }
    case_bool_decide; cbn [negb]; [by run_step|]. run_step.
    eapply runs_mono; [apply (subscribe_inner_step t B U HB K); [done|done]|].
    intros r e4 [He6 _]. by run_step. }
  eapply runs_mono; [exact Hm|]. intros events e3 He3. run_step.
  eapply runs_mono; [eapply process_replay_step; [exact HB|exact He3]|]. intros [] e4 [He4 _]. by run_step.
Qed.

Lemma reset_reconnect_good K e :
  good K e → runs reset_reconnect_state e (λ _ e', good K e').
Proof.
  intros He. unfold reset_reconnect_state. run_step. frame. unfold attempts_bound in *. simpl.
  destruct (me_next_reconnect_at e); destruct Hatt as (? & [?|?] & ?); (split; [lia|]);
    (split; [by left|]); try lia; done.
Qed.

Lemma handle_connection_lost_good K e :
  good K e → runs handle_connection_lost_inner e (λ _ e', good K e').
Proof.
  intros He. unfold handle_connection_lost_inner. run_step. run_step. rewrite (gd_now _ _ _ _ _ He).
  by apply connection_lost_keeps.
Qed.

Lemma connected_step K e reason present properties :
  good K e → runs (connected reason present properties) e (λ _ e', good (K + 1) e').
Proof.
  intros He. unfold connected. run_step. run_step. run_step.
  destruct (reason =? 0).
  - set (e1 := e <| me_is_connected := true |>).
    assert (He1 : good K (pretend (me_previous_inflight e1) e1)).
    { frame. destruct Hids as [Hown _]. by split. }
    unfold on_state, reset_reconnect_state. repeat run_step.
    set (e2 := e1 <| me_state ::= _ |> <| me_reconnect_attempts := _ |> <| me_next_reconnect_at := _ |>).
    assert (He2 : good K (pretend (me_previous_inflight e2) e2)).
    { assert (Hx : good K (pretend (me_previous_inflight e1) e1
        <| me_state ::= λ s, s <| ps_has_session := true |> |>)) by (clear He; frame).
      exact (reset_reconnect_good K _ Hx). }
    clearbody e2. clear He1 He e1. destruct (find_map _ _) as [v|]; unfold set_receive_maximum; run_step.
    + run_step. eapply runs_mono; [apply restore_session_step|].
      * exact (set_receive_maximum_good K _ v He2).
      * intros l e3 He3. by run_step.
    + run_step. eapply runs_mono; [by apply restore_session_step|]. intros l e3 He3. by run_step.
  - set (e1 := e <| me_is_connected := false |>).
    assert (He1 : good K e1) by (frame; destruct Hids as [Hown _]; by split). clearbody e1. clear He.
    run_step. run_step.
    match goal with |- runs ?m _ _ => assert (Hm : runs m e1 (λ _ e', good K e')) end.
    { destruct (find_map _ _); [by apply set_receive_maximum_good|by run_step]. }
    eapply runs_mono; [exact Hm|]. intros [] e2 He2. run_step. run_step.
    eapply runs_mono; [by apply handle_connection_lost_good|]. intros [] e3 He3. repeat run_step.
    eapply good_mono; [done|lia].
Qed.
End connect.
