(* ===== verification/EngineReceive.v ===== *)
(** * The handlers of incoming packets preserve the invariant

    Whatever packet the broker sends, in whatever state: its handler runs to its end, keeps the
    invariant, and answers with at most one packet. *)
From S2P Require Import Prelude BaseData TopicFilter Validation Properties Packets Framing Codec.
From S2P Require Import Stream Leveled Time PriorityQueue ClientError Options ClientTypes.
From S2P Require Import Commands Inflight ClientSession EngineState EngineCore EngineProtocol.
From S2P Require Import Engine EncodeFacts EngineInv EngineSteps EngineQueues EngineHandlers.
From S2P Require Import EngineConnect.

Section receive.
Context {T : Type} `{TimePointLaws T} `{!Runtime T} `{!RuntimeLaws T}.
Context (t : T) (B U : Z) (HB : B <= u32_MAX).
Implicit Types (e : MqttEngine T) (id : Z).
Local Abbreviation M := (St (MqttEngine T)).
Local Abbreviation good := (good t B U).

(** A handler leaves room for its answers. *)
Definition replies (K : Z) (r : list MqttEvent * list MqttPacket) e : Prop :=
  good (K + 1 - zlen r.2) e ∧ zlen r.2 <= 1.

Lemma replies_none K events e : good K e → replies K (events, []) e.
Proof. intros He. split; [eapply good_mono; [done|]|]; cbn [snd]; zlia. Qed.
Lemma replies_none' K events e : good (K + 1) e → replies K (events, []) e.
Proof. intros He. split; [eapply good_mono; [done|]|]; cbn [snd]; zlia. Qed.
Lemma replies_one K events p e : good K e → replies K (events, [p]) e.
Proof. intros He. split; [eapply good_mono; [done|]|]; cbn [snd]; zlia. Qed.

Lemma fail_reply_step K e error : good K e → runs (fail_reply error) e (replies K).
Proof.
  intros He. unfold fail_reply. run_step. eapply runs_mono; [by apply fail_connection_keeps|].
  intros [] e1 He1. run_step. eapply runs_mono; [by apply take_events_keeps|]. intros l e2 He2.
  run_step. by apply replies_none.
Qed.

Lemma accept_incoming_step K e ty :
  good K e → runs (accept_incoming ty) e (λ ok e', good K e' ∧
    (ok = true → e' = e ∧ (ty ≠ CONNACK → ty ≠ AUTH → ty ≠ DISCONNECT → me_is_connected e = true))).
Proof.
  intros He. unfold accept_incoming. run_step. run_step.
  destruct (ps_input_closed (me_state e)); [by run_step|].
  set (valid := match ty with CONNACK => _ | _ => _ end).
  assert (Hv : valid = true → ty ≠ CONNACK → ty ≠ AUTH → ty ≠ DISCONNECT → me_is_connected e = true)
    by (unfold valid; by destruct ty).
  clearbody valid. destruct valid; cbn [negb]; run_step.
  - repeat run_step. auto.
  - eapply runs_mono; [by apply fail_connection_keeps|]. intros [] e1 He1. by run_step.
Qed.

(** ** The receiving side of the handshakes *)
Lemma bind_received_good K e previous key :
  good K e → runs (bind_received previous key) e (λ _ e', good K e').
Proof.
  intros He. unfold bind_received, on_state. run_step. run_step.
  set (e1 := e <| me_state ::= _ |>). assert (He1 : good K e1) by frame. clearbody e1. clear He.
  case_bool_decide; run_step; [|done].
  match goal with |- good K (e1 <| me_state ::= ?f |>) =>
    change (good K (e1 <| me_state := f (me_state e1) |>)) end. cbv beta.
  destruct (ps_received (me_state e1) !! previous); frame.
Qed.

Lemma resolve_incoming_good K e p :
  good K e → runs (resolve_incoming p) e (λ _ e', good K e').
Proof.
  intros He. unfold resolve_incoming, on_state. run_step. run_step. run_step.
  assert (Hend : ∀ (q : MqttPublish5) e', good K e' → runs (if bool_decide (p5_topic_name q = [])
    then err (invalid "PUBLISH" "Empty topic without a defined alias") else ok q) e' (λ _ e', good K e')).
  { intros q e' He'. case_bool_decide; by run_step. }
  destruct (omap topic_alias (p5_properties p)) as [|alias l]; [by run_step; apply Hend|].
  destruct (_ || _); [by run_step|]. case_bool_decide.
  - destruct (_ !! alias); run_step; [by apply Hend|done].
  - repeat run_step. apply Hend. frame.
Qed.

Lemma receive_publish_good K e qos (id stream : option Z) :
  good K e → runs (receive_publish qos id stream) e (λ _ e', good K e').
Proof.
  intros He. unfold receive_publish, on_state. destruct (if 0 <? qos then id else None) as [i|]; [|by run_step].
  destruct (i =? 0); [by run_step|]. run_step. run_step.
  destruct (match _ with Some stage => _ | None => false end); [by run_step|]. run_step.
  assert (Hend : ∀ e' (previous : option ReceivedKey), good K e' → runs (match previous with
      | Some previous => bind_received previous (stream, i);; ok (E:=MqttClientError) false
      | None => modify (λ e, e <| me_state ::= λ s, s <| ps_received ::= <[(stream, i) := RsPublish qos]> |> |>);; ok true
      end) e' (λ _ e', good K e')).
  { intros e' [previous|] He'; run_step.
    - eapply runs_mono; [by apply bind_received_good|]. intros [] e2 He2. by run_step.
    - repeat run_step. clear He. frame. }
  destruct (negb _); [|run_step; by apply Hend].
  destruct (_ <=? _); [by run_step|]. repeat run_step. apply Hend. frame.
Qed.

Lemma commit_receive_ack_good K e id kind reason stream :
  good K e → runs (commit_receive_ack id kind reason stream) e (λ _ e', good K e').
Proof.
  intros He. unfold commit_receive_ack, on_state. run_step. run_step.
  destruct (_ && _); run_step; frame.
Qed.

Lemma manual_ack_packet_no_panic e id kind reason ps stream :
  kind = 4 ∨ kind = 5 ∨ kind = 7 → manual_ack_packet e id kind reason ps stream ≠ Panic.
Proof.
  intros Hk. unfold manual_ack_packet. repeat (match goal with |- (if ?b then _ else _) ≠ _ => destruct b; [done|] end).
  destruct (_ =? 5); destruct Hk as [->|[->| ->]]; done.
Qed.

Lemma manual_ack_step K e id kind reason ps :
  kind = 4 ∨ kind = 5 ∨ kind = 7 → good K e →
  runs (manual_ack id kind reason ps) e (λ r e', good (K + 1) e' ∧
    match r with inl _ => e' = e | inr _ => True end).
Proof.
  intros Hk He. assert (good (K + 1) e) by (eapply good_mono; [done|lia]).
  unfold manual_ack. run_step. run_step. run_step.
  apply runs_result; [by apply manual_ack_packet_no_panic|done|]. intros p _. run_step.
  eapply runs_mono; [by apply (enqueue_packet_good t B U K)|]. intros [error|[]] e1 [He1 Hx]; [by subst|].
  run_step. eapply runs_mono; [by apply commit_receive_ack_good|]. intros [] e2 He2. by run_step.
Qed.

Lemma receive_message_step K e p stream :
  good K e → runs (receive_message p stream) e (replies K).
Proof.
  intros He. unfold receive_message. run_step. eapply runs_mono; [by apply resolve_incoming_good|].
  intros [error|q] e1 He1; [by apply fail_reply_step|]. run_step.
  eapply runs_mono; [by apply receive_publish_good|].
  intros [error|deliver] e2 He2; [by apply fail_reply_step|].
  destruct (if 0 <? p5_qos q then _ else None) as [id|]; [|by run_step; apply replies_none].
  run_step. run_step. destruct (_ || _); [|by run_step; apply replies_none]. run_step.
  apply runs_result.
  - apply manual_ack_packet_no_panic. destruct (_ =? 1); auto.
  - intros error _. run_step. by apply replies_none.
  - intros packet _. run_step. eapply runs_mono; [by apply commit_receive_ack_good|].
    intros [] e3 He3. run_step. by apply replies_one.
Qed.

Lemma pubcomp_packet e id reason stream :
  id ≠ 0 → ps_received (me_state e) !! (stream, id) = Some RsPubRel →
  reason = 0 ∨ reason = 146 ∧ mo_mqtt_version (me_options e) = 5 →
  ∃ p, manual_ack_packet e id 7 reason [] stream = Ok p.
Proof.
  intros Hid Hr Hreason. unfold manual_ack_packet. rewrite Hr.
  destruct (Z.eqb_spec id 0); [done|]. cbn [ack_stage_ok]. change (7 =? 7) with true. cbn [negb].
  destruct Hreason as [->|[-> ->]].
  - destruct (_ =? 5); simpl; eauto.
  - simpl. eauto.
Qed.

Lemma receive_pubrel_step K e id stream :
  good K e → runs (receive_pubrel id stream) e (replies K).
Proof.
  intros He. unfold receive_pubrel. destruct (Z.eqb_spec id 0) as [|Hid]; [by apply fail_reply_step|].
  run_step. run_step.
  assert (Hrel : ∀ e1 reason, good K e1 → reason = 0 ∨ reason = 146 ∧ mo_mqtt_version (me_options e1) = 5 →
    runs (modify (λ e, e <| me_state ::= λ s, s <| ps_received ::= <[(stream, id) := RsPubRel]> |> |>);;
      e ← get_st;
      if mo_auto_ack (me_options e) then
        packet ← expect (manual_ack_packet e id 7 reason [] stream);
        commit_receive_ack id 7 reason stream;;
        mret ([PubRelReceived id stream], [packet])
      else mret ([PubRelReceived id stream], [])) e1 (replies K)).
  { intros e1 reason He1 Hreason. repeat run_step. set (e2 := e1 <| me_state ::= _ |>).
    assert (He2 : good K e2) by (clear He; frame).
    destruct (mo_auto_ack _); [|by run_step; apply replies_none]. run_step. apply runs_expect.
    destruct (pubcomp_packet e2 id reason stream Hid) as [p Hp]; [apply lookup_insert_eq|done|].
    exists p. split; [done|]. run_step.
    eapply runs_mono; [by apply commit_receive_ack_good|]. intros [] e3 He3. run_step. by apply replies_one. }
  unfold on_state.
  destruct (received_key e (stream, id)) as [previous|].
  - destruct (ps_received (me_state e) !! previous) as [[]|]; try (by run_step; apply replies_none);
      (run_step; eapply runs_mono; [by apply bind_received_good|]; intros [] e1 He1; apply Hrel; auto).
  - destruct (existsb _ _); [by run_step; apply replies_none|]. apply Hrel; [done|].
    destruct (Z.eqb_spec (mo_mqtt_version (me_options e)) 5); auto.
Qed.

(** ** Acknowledgements of what the client sent *)
Lemma inflight_unlisted e id :
  engine_inv e → me_is_connected e = true → is_Some (iq_entries (me_inflight_queue e) !! id) →
  unlisted id e.
Proof.
  intros He Hc [x Hx]. destruct (ei_ids e He) as [Hown Hp]. rewrite (Hp Hc) in Hown. split; [|split].
  - intros Hin. destruct (io_queued _ _ _ _ _ Hown id Hin) as (_ & _ & Hn & _). congruence.
  - intros Hin. destruct (io_replay _ _ _ _ _ Hown id Hin) as (_ & _ & Hn). congruence.
  - rewrite (Hp Hc). apply not_elem_of_nil.
Qed.

Lemma complete_operation_good K e id :
  good K e → me_is_connected e = true → is_Some (iq_entries (me_inflight_queue e) !! id) →
  runs (complete_operation id) e (λ _ e', good K e').
Proof.
  intros He Hc Hx. pose proof (inflight_unlisted e id (gd_inv _ _ _ _ _ He) Hc Hx) as Hu.
  unfold complete_operation. run_step. destruct (acknowledge_step t B U K e id He) as (q & Ha & Hq & He').
  unfold runs. rewrite Ha. eapply runs_mono; [apply (finish_operation_step t B U K); [done|done|]|].
  - simpl. rewrite Hq. apply lookup_delete_eq.
  - naive_solver.
Qed.

Lemma complete_publish_good K e id reason ps :
  good K e → me_is_connected e = true → runs (complete_publish id reason ps) e (λ _ e', good K e').
Proof.
  intros He Hc. unfold complete_publish. run_step.
  destruct (acknowledge_step t B U K e id He) as (q & Ha & Hq & He').
  unfold runs at 1. rewrite Ha. cbv beta iota.
  destruct (iq_entries (me_inflight_queue e) !! id) as [entry|] eqn:Hx; [|by run_step]. run_step.
  assert (Hu : unlisted id e) by (apply inflight_unlisted; [apply He|done|by eauto]).
  eapply runs_mono; [apply (finish_operation_step t B U K); [done|done|]|].
  - simpl. rewrite Hq. apply lookup_delete_eq.
  - intros [] e1 [He1 _]. by run_step.
Qed.

Lemma release_publish_step K e id rel : good K e → runs (release_publish id rel) e (replies K).
Proof.
  intros He. pose proof (gd_inv _ _ _ _ _ He) as Hi. unfold release_publish. run_step. run_step. run_step.
  apply runs_expect. pose proof (time_ok_now e Hi) as Htime.
  destruct (ei_inflight e Hi) as (Hinv & _ & Hv & Hto).
  pose proof (resend_ok (me_inflight_queue e) id
    (λ x, entry_with x rel (ie_stream x) (ie_retry_count x) (me_now e)) (me_now e) Hinv
    (λ x, conj eq_refl eq_refl)) as Hr.
  rewrite <- transition_pubrel_resend in Hr.
  destruct (InflightQueue_transition_pubrel_at _ _ _ _) as [q|x|] eqn:Hq; [|done|done].
  apply transition_last_update in Hq. destruct Hr as (_ & Hinv' & (_ & Hv' & Hto') & _ & Hdom).
  exists q. split; [done|]. repeat run_step. apply replies_one. frame.
  - split; [done|]. split; [|simpl; by rewrite Hv', Hto'].
    simpl. rewrite Hq. intros last [= <-]. apply ord_le_refl.
  - destruct Hids as [Hown Hc]. split; [|done].
    change (ids_owned (ps_reserved (me_state e)) (iq_entries q) (queued_ids (queued e))
              (me_session_replay e).*1 (me_previous_inflight e).*1).
    eapply ids_same_dom; [exact Hown|]. intros i.
    destruct (iq_entries (me_inflight_queue e) !! id) as [x|] eqn:Hx; destruct Hdom as [_ ->]; [|done].
    rewrite lookup_insert_is_Some'. destruct (decide (id = i)) as [->|]; naive_solver.
Qed.

(** ** CONNACK *)
Lemma end_connecting_good K e : good K e → runs end_connecting e (λ _ e', good K e').
Proof. intros He. unfold end_connecting, on_state. run_step. frame. Qed.

Lemma handle_connack5_step K e ack :
  good K e → wf_connack5 ack → runs (handle_connack5 ack) e (replies K).
Proof.
  intros He (_ & Hps). unfold handle_connack5. run_step. run_step.
  destruct (_ && _); [by apply fail_reply_step|]. destruct (_ || _); [by apply fail_reply_step|].
  run_step. eapply runs_mono; [by apply end_connecting_good|]. intros [] e1 He1. run_step.
  eapply runs_mono; [apply negotiate_good; [done|]|].
  { by destruct (ca5_properties ack). }
  intros [error|[]] e2 He2; [by apply fail_reply_step|]. run_step.
  eapply runs_mono; [by apply connected_step|]. intros l e3 He3. run_step. by apply replies_none'.
Qed.
Lemma handle_connack3_step K e ack : good K e → runs (handle_connack3 ack) e (replies K).
Proof.
  intros He. unfold handle_connack3. run_step. run_step.
  destruct (_ && _); [by apply fail_reply_step|].
  run_step. eapply runs_mono; [by apply end_connecting_good|]. intros [] e1 He1. run_step.
  eapply runs_mono; [by apply connected_step|]. intros l e3 He3. run_step. by apply replies_none'.
Qed.

(** ** All packets *)
Lemma ping_answered_good K e : good K e → runs ping_answered e (λ _ e', good K e').
Proof.
  intros He. unfold ping_answered. run_step. frame. destruct Hclk as (? & ? & _). by split_and!.
Qed.

Lemma validate_ack_no_panic e p stream : validate_ack e p stream ≠ Panic.
Proof. unfold validate_ack. by repeat case_match. Qed.
Lemma validate_ack_inflight e p stream id kind :
  validate_ack e p stream = Ok () → ack_id_kind p = Some (id, kind) →
  is_Some (iq_entries (me_inflight_queue e) !! id).
Proof.
  unfold validate_ack, InflightQueue_get. intros Hv Hk. rewrite Hk in Hv.
  destruct (iq_entries (me_inflight_queue e) !! id); [by eauto|done].
Qed.

Lemma dispatch_packet_step K e p stream :
  good K e → wf_packet p → validate_ack e p stream = Ok () →
  (MqttPacket_packet_type p ≠ CONNACK → MqttPacket_packet_type p ≠ AUTH →
   MqttPacket_packet_type p ≠ DISCONNECT → me_is_connected e = true) →
  runs (dispatch_packet p stream) e (replies K).
Proof.
  intros He Hp Hv Hc.
  assert (Hpub : ∀ id reason ps, me_is_connected e = true →
    runs (l ← complete_publish id reason ps; mret (l, [])) e (replies K)).
  { intros id reason ps Hcon. run_step. eapply runs_mono; [by apply complete_publish_good|].
    intros l e1 He1. run_step. by apply replies_none. }
  assert (Hop : ∀ id events kind, ack_id_kind p = Some (id, kind) → me_is_connected e = true →
    runs (complete_operation id;; mret (events, [])) e (replies K)).
  { intros id events kind Hk Hcon. run_step.
    eapply runs_mono; [apply complete_operation_good; [done|done|by eapply validate_ack_inflight]|].
    intros l e1 He1. run_step. by apply replies_none. }
  destruct p; cbn [dispatch_packet MqttPacket_packet_type wf_packet] in *;
    try (by run_step; apply replies_none);
    try (by apply handle_connack5_step); try (by apply handle_connack3_step);
    try (by apply receive_message_step); try (by apply receive_pubrel_step);
    try (by apply release_publish_step); try (by apply Hpub, Hc);
    try (by eapply Hop; [reflexivity|apply Hc]).
  - destruct (128 <=? a5_reason_code _); [by apply Hpub, Hc|by apply release_publish_step].
  - run_step. eapply runs_mono; [by apply ping_answered_good|]. intros [] e1 He1. run_step. by apply replies_none.
  - run_step. eapply runs_mono; [by apply handle_connection_lost_good|]. intros [] e1 He1. run_step.
    by apply replies_none.
  - run_step. eapply runs_mono; [by apply auth_received_step|]. intros o e1 He1. run_step. by apply replies_none.
  - run_step. eapply runs_mono; [by apply ping_answered_good|]. intros [] e1 He1. run_step. by apply replies_none.
Qed.

Lemma handle_packet_step K e p stream :
  good K e → wf_packet p → runs (handle_packet p stream) e (replies K).
Proof.
  intros He Hp. unfold handle_packet. run_step. eapply runs_mono; [by apply accept_incoming_step|].
  intros [] e1 [He1 Hacc]; cbn [negb].
  - destruct (Hacc eq_refl) as [-> Hc]. run_step. run_step. run_step.
    apply runs_result; [apply validate_ack_no_panic|..].
    + intros error _. destruct (_ || _); [by apply fail_reply_step|]. run_step. by apply replies_none.
    + intros [] Hv. by apply dispatch_packet_step.
  - run_step. eapply runs_mono; [by apply take_events_keeps|]. intros l e2 He2. run_step. by apply replies_none.
Qed.

(** The packets of the reduced parse levels. *)
Definition reduced_replies (K : Z) (r : option MqttEvent * option MqttPacket) e : Prop :=
  good (K + 1 - zlen (option_list r.2)) e.

Lemma reduced_pure K e r : good K e → reduced_replies K r e.
Proof.
  intros He. destruct r as [ev [p|]]; (eapply good_mono; [exact He|]); simpl; zlia.
Qed.

Lemma handle_reduced_step K e p stream :
  good K e → (∀ q, p ≠ ParsedFull q) → runs (handle_reduced_packet p stream) e (reduced_replies K).
Proof.
  intros He Hp. unfold handle_reduced_packet. run_step. eapply runs_mono; [by apply accept_incoming_step|].
  intros [] e1 [He1 _]; cbn [negb]; [|by run_step; apply reduced_pure]. clear He e. rename e1 into e, He1 into He.
  assert (Hping : ∀ r, runs (ping_answered;; mret r) e (reduced_replies K)).
  { intros r. run_step. eapply runs_mono; [by apply ping_answered_good|]. intros [] e1 He1. run_step.
    by apply reduced_pure. }
  assert (Hlost : ∀ r, runs (handle_connection_lost_inner;; mret r) e (reduced_replies K)).
  { intros r. run_step. eapply runs_mono; [by apply handle_connection_lost_good|]. intros [] e1 He1. run_step.
    by apply reduced_pure. }
  destruct p as [p|p|p|p]; [by destruct (Hp p)|..]; try (by run_step; apply reduced_pure).
  - unfold handle_headers_parsed. run_step. run_step.
    destruct (hp_variable_header p); try (by run_step; apply reduced_pure); try (by apply Hlost);
      try (destruct (hp_packet_type p); first [by apply Hping|by apply Hlost|by run_step; apply reduced_pure]).
    run_step. eapply runs_mono; [by apply auth_received_step|]. intros o e1 He1. run_step. by apply reduced_pure.
  - unfold handle_type_only. destruct (to_packet_type p);
      first [by apply Hping|by apply Hlost|by run_step; apply reduced_pure].
Qed.
End receive.
