(* ===== verification/EngineInput.v ===== *)
(** * Input, timers and output of the engine

    The loops of [handle_incoming] and [take_outgoing] and the timers: each runs to its end,
    whatever bytes arrive. *)
From S2P Require Import Prelude BaseData TopicFilter Validation Properties Packets Framing Codec.
From S2P Require Import Stream Leveled Time PriorityQueue ClientError Options ClientTypes.
From S2P Require Import Commands Inflight ClientSession EngineState EngineCore EngineProtocol.
From S2P Require Import Engine EncodeFacts EngineInv EngineSteps EngineQueues EngineHandlers.
From S2P Require Import EngineConnect EngineReceive.

(** ** What the parser delivers *)
Lemma parsed_full_level level version s q n :
  leveled_parse level version s = Ok (LPacket (ParsedFull q) n) → level = Full.
Proof.
  destruct level; [done|..]; cbn [leveled_parse]; unfold parse_headers_only, parse_headers_only_v3,
    parse_headers_only_v5, parse_headers_only_with, parse_raw_body, parse_type_only; intros Hp; exfalso;
    repeat first
      [ done
      | match goal with
        | H : mbind _ _ = Ok _ |- _ => apply bind_Ok_inv in H as (? & _ & H)
        | H : match ?x with _ => _ end = Ok _ |- _ => destruct x
        end ].
Qed.

Lemma parsed_full_wf level version s q n :
  u8s s → leveled_parse level version s = Ok (LPacket (ParsedFull q) n) → wf_packet q.
Proof.
  intros Hu Hp. pose proof (parsed_full_level _ _ _ _ _ Hp) as ->. cbn [leveled_parse] in Hp.
  apply bind_Ok_inv in Hp as (r & Hr & Hp). apply from_bytes_sound in Hr; [|done].
  destruct r as [h c|p m|]; [done| |done]. injection Hp as -> ->. apply Hr.
Qed.

Section input.
Context {T : Type} `{TimePointLaws T} `{!Runtime T} `{!RuntimeLaws T}.
Context (t : T) (B : Z) (HB : B <= u32_MAX).
Implicit Types (e : MqttEngine T) (id : Z).
Local Abbreviation M := (St (MqttEngine T)).
Local Abbreviation good := (good t B).

(** Replacing the parser. *)
Lemma parser_good U U' K K' e p :
  good U K e → parser_inv p → mp_mqtt_version p = mp_mqtt_version (me_parser e) →
  zlen (unread p) <= U' →
  zlen (unread p) + K <= K' + zlen (unread (me_parser e)) →
  good U' K' (e <| me_parser := p |>).
Proof.
  intros He Hp Hv Hl HK. frame.
  - split; [done|]. simpl. rewrite Hv. apply Hprs.
  - unfold potential, work, queued in *. simpl in *. lia.
Qed.

Lemma next_parsed_step U K e :
  good U K e →
  let '(r, p) := MqttParser_next_parsed (me_parser e) in
  match r with
  | Ok (Some packet) => good (U - 2) (K - 2) (e <| me_parser := p |>) ∧
      match packet with ParsedFull q => wf_packet q | _ => True end
  | Ok None | Err _ => good U K (e <| me_parser := p |>)
  | Panic => False
  end.
Proof.
  intros He. destruct (ei_parser e (gd_inv _ _ _ _ _ He)) as [Hp _].
  pose proof (next_parsed_spec (me_parser e) Hp) as Hn. pose proof (unread_u8s _ Hp) as Hu.
  pose proof (gd_unread _ _ _ _ _ He) as HU.
  destruct (MqttParser_next_parsed (me_parser e)) as [[[packet|]|error|] p]; cbn in Hn.
  - destruct Hn as (n & flags & Hf & Hl & _ & (Hp' & Hu' & Hv' & _)).
    destruct (frame_len_take_zlen _ _ Hf Hu) as [H2 Hz].
    pose proof (safe_Ok_inv _ _ _ (packet_frame_len_spec _ Hu) Hf) as [_ Hn]. split.
    + eapply parser_good; [done..| |]; rewrite Hu', zlen_drop; lia.
    + destruct packet as [q| | |]; try done.
      eapply parsed_full_wf; [|exact Hl]. by apply Forall_take.
  - destruct Hn as [-> _]. eapply parser_good; [done..|]. lia.
  - assert (Hat : p = me_parser e ∨ ∃ n, 0 <= n <= zlen (unread (me_parser e)) ∧
      parser_at (me_parser e) p (drop (Z.to_nat n) (unread (me_parser e)))).
    { unfold after_error in Hn. destruct (packet_frame_len _) as [[n|]| |] eqn:Hf; auto.
      destruct (frame_len_take_zlen _ _ Hf Hu) as [H2 Hz].
      pose proof (safe_Ok_inv _ _ _ (packet_frame_len_spec _ Hu) Hf) as [_ Hle].
      destruct (drops_bad_frames _); destruct Hn as [_ Hn]; [|auto]. right. exists n. split; [lia|done]. }
    destruct Hat as [->|(n & Hn' & Hp' & Hu' & Hv' & _)].
    + eapply parser_good; [done..|]. lia.
    + eapply parser_good; [done..| |]; rewrite Hu', zlen_drop; lia.
  - done.
Qed.

(** ** [handle_incoming] *)
Lemma push_responses_good U K e l :
  good U (K - zlen l) e → good U K (e <| me_state ::= λ s, s <| ps_responses ::= λ r, r ++ l |> |>).
Proof.
  intros He. frame. unfold potential, work, queued in *. simpl in *. zlia.
Qed.

Lemma validate_input_buffer_no_panic options b : validate_input_buffer options b ≠ Panic.
Proof. unfold validate_input_buffer. by repeat (case_match; simpl). Qed.

Lemma received_now_good U K e : good U K e → good U K (e <| me_last_packet_received := me_now e |>).
Proof. intros He. frame. Qed.

Lemma incoming_loop_step fuel U K e :
  good U K e → U < Z.of_nat fuel → runs (incoming_loop fuel) e (λ _ e', good U K e').
Proof.
  revert U K e. induction fuel as [|fuel IH]; intros U K e He Hf.
  { pose proof (gd_unread _ _ _ _ _ He). pose proof (zlen_nonneg (unread (me_parser e))). lia. }
  cbn [incoming_loop]. run_step. run_step. destruct (_ || _); [by run_step|]. run_step.
  destruct (ei_parser e (gd_inv _ _ _ _ _ He)) as [Hp _].
  apply runs_expect. exists (unread (me_parser e)). split; [by apply unread_buffer|]. run_step.
  apply runs_result; [apply validate_input_buffer_no_panic|intros error _; by apply fail_connection_keeps|].
  intros [] _. destruct (_ <=? _); [by run_step|].
  pose proof (next_parsed_step U K e He) as Hn.
  destruct (MqttParser_next_parsed (me_parser e)) as [r p]. run_step. run_step. run_step.
  apply runs_result; [by intros ->|intros error ->; by apply fail_connection_keeps|].
  intros [packet|] ->; [|by run_step]. destruct Hn as [Hn Hwf]. clear He Hp.
  set (e1 := e <| me_parser := p |>) in *. clearbody e1.
  assert (Hnext : ∀ e2, good (U - 2) (K - 1) e2 → runs (flush_responses;; incoming_loop fuel) e2
    (λ _ e', good U K e')).
  { intros e2 He2. run_step. eapply runs_mono; [by apply flush_responses_step|]. intros [] e3 [He3 _].
    eapply runs_mono; [apply (IH (U - 2) (K - 1)); [done|lia]|].
    intros [] e4 He4. eapply good_weaken; [done|lia..]. }
  assert (Hred : (∀ q, packet ≠ ParsedFull q) → runs ('(event, response) ← handle_reduced_packet packet None;
      extend_events (option_list event);;
      match response with
      | Some response =>
          on_state (λ s, s <| ps_responses ::= λ l, l ++ [response] |>);;
          flush_responses
      | None => mret ()
      end;;
      incoming_loop fuel) (e1 <| me_last_packet_received := me_now e1 |>) (λ _ e', good U K e')).
  { intros Hnf. run_step. eapply runs_mono; [apply (handle_reduced_step t B (U - 2) HB (K - 2));
      [by apply received_now_good|done]|].
    intros [event response] e2 He2. run_step. unfold extend_events. run_step. run_step.
    set (e3 := e2 <| me_events ::= _ |>).
    assert (He3 : good (U - 2) (K - 2 + 1 - zlen (option_list response)) e3) by (unfold reduced_replies in He2; frame).
    clearbody e3. clear He2. destruct response as [response|].
    - unfold on_state. run_step. run_step.
      set (e4 := e3 <| me_state ::= _ |>).
      assert (He4 : good (U - 2) (K - 1) e4).
      { apply push_responses_good. eapply good_mono; [exact He3|]. simpl. zlia. }
      specialize (Hnext e4 He4). by apply runs_bind_inv.
    - run_step. eapply runs_mono; [apply (IH (U - 2) (K - 1)); [|lia]|].
      + eapply good_mono; [exact He3|]. simpl. zlia.
      + intros [] e4 He4. eapply good_weaken; [done|lia..]. }
  destruct packet as [q| | |]; [|run_step; run_step; by apply Hred..].
  run_step. run_step. run_step. eapply runs_mono; [apply (handle_packet_step t B (U - 2) HB (K - 2));
    [by apply received_now_good|done]|].
  intros [events responses] e2 [He2 _]. run_step. unfold extend_events, on_state. run_step. run_step. run_step.
  apply Hnext. apply push_responses_good. cbn [snd] in He2.
  eapply good_mono; [|exact (ltac:(lia) : K - 2 + 1 - zlen responses <= K - 1 - zlen responses)]. frame.
Qed.

Lemma handle_incoming_step U K e data :
  good U K e → u8s data →
  runs (handle_incoming_inner data) e (λ _ e', good (U + zlen data) (K + zlen data) e').
Proof.
  intros He Hd. assert (Hw : good (U + zlen data) (K + zlen data) e).
  { pose proof (zlen_nonneg data). eapply good_weaken; [done|lia..]. }
  unfold handle_incoming_inner. run_step. run_step.
  destruct (ps_input_closed (me_state e)); [by apply take_events_keeps|]. run_step.
  destruct (ei_parser e (gd_inv _ _ _ _ _ He)) as [Hp _].
  apply runs_expect. exists (unread (me_parser e)). split; [by apply unread_buffer|].
  match goal with |- runs (match ?o with _ => _ end) _ _ => destruct o as [c|] end.
  { run_step. eapply runs_mono; [by apply fail_connection_keeps|]. intros [] e1 He1. by apply take_events_keeps. }
  destruct (feed_spec (me_parser e) Hp data Hd) as (p & Hfeed & Hp' & Hu' & Hv' & _).
  run_step. apply runs_expect. exists p. split; [done|]. run_step. run_step.
  set (e1 := e <| me_parser := p |>). set (U1 := zlen (unread (me_parser e)) + zlen data).
  assert (He1 : good U1 (K + zlen data) e1).
  { eapply parser_good; [exact He|done|done| |]; rewrite Hu', zlen_app; unfold U1; lia. }
  pose proof (gd_unread _ _ _ _ _ He) as HU. clearbody e1.
  run_step. eapply runs_mono; [by apply flush_responses_step|]. intros [] e2 [He2 _].
  run_step. eapply runs_mono; [apply (incoming_loop_step _ U1 (K + zlen data)); [done|]|].
  { unfold U1, zlen. lia. }
  intros [] e3 He3. run_step. eapply runs_mono; [by apply process_queue_keeps|]. intros [] e4 He4.
  eapply runs_mono; [by apply take_events_keeps|]. intros l e5 He5.
  eapply good_weaken; [exact He5|lia|unfold U1; lia|lia].
Qed.

Lemma encode_responses_ok l events bs : ∃ r, encode_responses l events bs = Ok r.
Proof.
  revert events bs. induction l as [|p l IH]; intros events bs; [by eexists|]. cbn [encode_responses].
  unfold encode_response. pose proof (to_bytes_no_panic p). destruct (MqttPacket_to_bytes p); [..|done]; apply IH.
Qed.

Lemma ingest_step U K e packet stream events :
  good U K e → match packet with ParsedFull q => wf_packet q | _ => True end →
  runs (ingest_parsed_stream_packet_into packet stream events) e (λ _ e', good U (K + 1) e').
Proof.
  intros He Hp. unfold ingest_parsed_stream_packet_into. run_step. run_step. run_step.
  eapply runs_mono; [apply (take_events_keeps t B U K); by apply received_now_good|]. intros l e1 He1.
  assert (Hend : ∀ (r : list MqttEvent * bytes) e2, good U (K + 1) e2 →
    runs ((if negb (bool_decide (r.2 = [])) then modify (λ e, e <| me_last_packet_sent := me_now e |>) else mret ());;
      process_queue;; taken ← take_events; mret (r.1 ++ taken, r.2)) e2 (λ _ e', good U (K + 1) e')).
  { intros r e2 He2. run_step.
    match goal with |- runs ?m _ _ => assert (Hm : runs m e2 (λ _ e', good U (K + 1) e')) end.
    { case_bool_decide; cbn [negb]; run_step; [done|by apply tick_good]. }
    eapply runs_mono; [exact Hm|]. intros [] e3 He3. run_step.
    eapply runs_mono; [by apply process_queue_keeps|]. intros [] e4 He4. run_step.
    eapply runs_mono; [by apply take_events_keeps|]. intros l' e5 He5. by run_step. }
  run_step. destruct packet as [q|q|q|q]; run_step.
  - eapply runs_mono; [by apply (handle_packet_step t B U HB K)|]. intros [evs rs] e2 [He2 _]. apply runs_lift.
    destruct (encode_responses_ok rs ((events ++ l) ++ evs) []) as [[a b] Hr]. exists (a, b). split; [done|].
    apply (Hend (a, b)). pose proof (zlen_nonneg rs). eapply good_mono; [exact He2|]. simpl. lia.
  - eapply runs_mono; [by apply (handle_reduced_step t B U HB K)|]. intros [ev r] e2 He2. apply runs_lift.
    destruct (encode_responses_ok (option_list r) ((events ++ l) ++ option_list ev) []) as [[a b] Hr].
    exists (a, b). split; [done|]. apply (Hend (a, b)). pose proof (zlen_nonneg (option_list r)).
    eapply good_mono; [exact He2|]. simpl. lia.
  - eapply runs_mono; [by apply (handle_reduced_step t B U HB K)|]. intros [ev r] e2 He2. apply runs_lift.
    destruct (encode_responses_ok (option_list r) ((events ++ l) ++ option_list ev) []) as [[a b] Hr].
    exists (a, b). split; [done|]. apply (Hend (a, b)). pose proof (zlen_nonneg (option_list r)).
    eapply good_mono; [exact He2|]. simpl. lia.
  - eapply runs_mono; [by apply (handle_reduced_step t B U HB K)|]. intros [ev r] e2 He2. apply runs_lift.
    destruct (encode_responses_ok (option_list r) ((events ++ l) ++ option_list ev) []) as [[a b] Hr].
    exists (a, b). split; [done|]. apply (Hend (a, b)). pose proof (zlen_nonneg (option_list r)).
    eapply good_mono; [exact He2|]. simpl. lia.
Qed.

(** ** [take_outgoing] *)

(** Bytes that are whole encoded packets, one after the other. *)
Definition encoded_packets (bs : bytes) : Prop :=
  ∃ l, bs = concat l ∧ Forall (λ b, ∃ p, MqttPacket_to_bytes p = Ok b) l.
Lemma encoded_packets_app bs l :
  encoded_packets bs → Forall (λ b, ∃ p, MqttPacket_to_bytes p = Ok b) l →
  encoded_packets (bs ++ concat l).
Proof.
  intros (l' & -> & Hl') Hl. exists (l' ++ l). split; [by rewrite concat_app|]. by apply Forall_app.
Qed.

Lemma take_outgoing_loop_step fuel U K e bs :
  good U K e → encoded_packets bs → K - zlen (me_outgoing_buffer e) + 1 < Z.of_nat fuel →
  runs (take_outgoing_loop fuel bs) e (λ bs' e', good U K e' ∧ encoded_packets bs' ∧
    me_outgoing_buffer e' = []).
Proof.
  revert K e bs. induction fuel as [|fuel IH]; intros K e bs He Hbs Hf.
  { pose proof (gd_work _ _ _ _ _ He) as Hk. unfold potential, work in Hk. zlia. }
  apply (encoded_packets_app _ (me_outgoing_buffer e)) in Hbs.
  2: { apply (ei_output e (gd_inv _ _ _ _ _ He)). }
  cbn [take_outgoing_loop]. run_step. run_step. run_step. run_step. run_step.
  set (e1 := e <| me_outgoing_buffer := [] |>). set (K1 := K - zlen (me_outgoing_buffer e)) in *.
  assert (He1 : good U K1 e1).
  { unfold K1. clear K1 Hf. frame.
    - destruct Hout as (_ & Hcnt & Hqb & Hcap). split; [constructor|]. split.
      { simpl. pose proof (zlen_nonneg (me_outgoing_buffer e)). zlia. }
      split; [done|]. intros c Hc Hc4. specialize (Hcap c Hc Hc4). unfold outgoing_bytes in *.
      pose proof (sum_len_nonneg (me_outgoing_buffer e)).
      change (ps_queued_bytes (me_state e) + 0 <= c). lia.
    - unfold potential, work, queued in *. simpl in *. zlia. }
  pose proof (zlen_nonneg (me_outgoing_buffer e)) as Hob. clearbody e1. clear He.
  eapply runs_mono; [by apply flush_responses_step|]. intros [] e2 [He2 _]. run_step. run_step. run_step.
  match goal with |- runs ?m _ _ => assert (Hm : runs m e2 (λ _ e', good U K1 e')) end.
  { destruct (negb _); [|by run_step]. run_step. eapply runs_mono; [apply handle_incoming_step; [exact He2|constructor]|].
    intros l e3 He3. rewrite zlen_nil, !Z.add_0_r in He3. by apply extend_events_keeps. }
  eapply runs_mono; [exact Hm|]. intros [] e3 He3. run_step.
  eapply runs_mono; [by apply process_queue_keeps|]. intros [] e4 He4. run_step. run_step.
  case_bool_decide as Hemp; [run_step; split; [eapply good_mono; [done|unfold K1; lia]|done]|].
  assert (1 <= zlen (me_outgoing_buffer e4)) by (destruct (me_outgoing_buffer e4); [done|zlia]).
  eapply runs_mono; [apply (IH K1); [done|done|lia]|].
  intros l e5 [He5 Hpost]. split; [|done]. eapply good_mono; [exact He5|unfold K1; lia].
Qed.

Lemma work_pending e : engine_inv e → work e <= Z.of_nat (pending_work e).
Proof.
  intros He. destruct (ei_parser e He) as [(Hoff & _) _]. destruct (ei_queue e He) as ((_ & Hs & _) & _).
  unfold work, pending_work, queued, PriorityQueue_len. rewrite Hs. unfold unread, zlen in *.
  rewrite length_drop, length_fmap. lia.
Qed.

Lemma take_outgoing_step U K e :
  good U K e →
  runs take_outgoing_inner e (λ bs e', good U K e' ∧ encoded_packets bs ∧ me_outgoing_buffer e' = []).
Proof.
  intros He. unfold take_outgoing_inner. run_step. run_step.
  assert (He1 : good U (potential e) e) by (destruct He; by split).
  eapply runs_mono; [apply (take_outgoing_loop_step _ U (potential e)); [exact He1|by exists []|]|].
  - pose proof (work_pending e (gd_inv _ _ _ _ _ He)). unfold potential. lia.
  - intros l e2 [He2 Hpost]. split; [|done]. eapply good_mono; [exact He2|apply He].
Qed.

(** ** Timers *)
Lemma get_expired_step_ok e :
  engine_inv e →
  ∃ out q, InflightQueue_get_expired_with_stream_at (me_inflight_queue e) (me_now e) = Ok (out, q) ∧
    inflight_inv q ∧ same_config (me_inflight_queue e) q ∧
    ∀ id, is_Some (iq_entries q !! id) ↔ is_Some (iq_entries (me_inflight_queue e) !! id).
Proof.
  intros He. destruct (ei_inflight e He) as (Hi & _). pose proof (time_ok_now e He) as Ht.
  destruct (decide (iq_mqtt_version (me_inflight_queue e) = 5)) as [Hv|Hv].
  - rewrite (get_expired_v5 _ _ Hi Hv).
    destruct (check_time_cases (me_inflight_queue e) (me_now e)) as [[-> _]|[_ []]]; [|done]. rsimp.
    eexists _, _. split; [done|]. split; [by apply with_last_update_inv|]. done.
  - destruct (get_expired_ok _ _ Hi Ht Hv) as (d0 & q & _ & Hg & Hq & Hc & _ & _ & Hen & _).
    eexists _, q. split; [exact Hg|]. split; [done|]. split; [done|].
    intros id. rewrite (Hen id). by rewrite fmap_is_Some.
Qed.

(** The engine is in order, with some amount of work. *)
Definition fine (U : Z) e : Prop := good U (potential e) e.
Lemma good_fine U K e : good U K e → fine U e.
Proof. intros []. by split. Qed.

Ltac now_fine := eapply good_fine; cbv beta in *; eassumption.

Lemma retransmit_step U e p :
  fine U e → runs (retransmit t p) e (λ _ e', fine U e').
Proof.
  intros He. destruct p as [p stream]. unfold retransmit. pose proof (to_bytes_no_panic (MqttPacket_set_dup p true)).
  destruct (MqttPacket_to_bytes _) as [bs| |]; [|by run_step|done]. run_step.
  match goal with |- runs ?m _ _ => assert (Hm : runs m e (λ _ e', fine U e')) end.
  { destruct stream as [s|].
    - run_step. apply (good_fine U (potential e)). unfold fine in He. frame.
    - run_step. eapply runs_mono; [by apply (enqueue_packet_good t B U (potential e))|].
      intros [error|[]] e1 [He1 _]; [|run_step; by eapply good_fine].
      destruct error; try (run_step; by eapply good_fine);
        (eapply runs_mono; [by apply push_event_keeps|]; intros [] e2 He2; by eapply good_fine). }
  eapply runs_mono; [exact Hm|]. intros [] e1 He1. run_step.
  pose proof (tick_good t B U (potential e1) e1 He1) as Hx. rewrite (gd_now _ _ _ _ _ He1) in Hx.
  now_fine.
Qed.

Lemma handle_retransmissions_step U e :
  fine U e → runs (handle_retransmissions t) e (λ _ e', fine U e').
Proof.
  intros He. unfold handle_retransmissions. run_step. run_step. run_step.
  destruct (get_expired_step_ok e (gd_inv _ _ _ _ _ He)) as (out & q & Hg & Hq & (_ & Hv & Hto) & Hdom).
  rewrite (gd_now _ _ _ _ _ He) in Hg. apply runs_expect. exists (out, q). split; [done|]. run_step. run_step.
  apply get_expired_last_update in Hg.
  set (e1 := e <| me_inflight_queue := q |>).
  assert (He1 : fine U e1).
  { apply (good_fine U (potential e)). unfold fine in He. frame.
    - destruct Hinf as (_ & _ & ? & ?). split; [done|]. split; [|simpl; by rewrite Hv, Hto].
      simpl. rewrite Hg, Hnow. intros last [= <-]. apply ord_le_refl.
    - destruct Hids as [Hown Hc]. split; [|done]. by eapply ids_same_dom. }
  clearbody e1. clear He. revert e1 He1. induction out as [|p out IH]; intros e1 He1; cbn [for_each_st]; [by run_step|].
  run_step. eapply runs_mono; [by apply retransmit_step|]. intros [] e2 He2. by apply IH.
Qed.
End input.

Ltac now_fine := eapply good_fine; cbv beta in *; eassumption.

Section tick.
Context {T : Type} `{TimePointLaws T} `{!Runtime T} `{!RuntimeLaws T}.
Context (t : T) (B U : Z) (HB : B + 1 <= u32_MAX).
Implicit Types (e : MqttEngine T).

Lemma ping_timeout_defined e :
  engine_inv e → ∃ d, Duration_mul (Duration_from_secs (ps_keep_alive (me_state e)))
                        (mo_ping_timeout_multiplier (me_options e)) = Ok d.
Proof.
  intros He. destruct (ei_config e He) as (Hw & _ & _ & _ & Hk). pose proof (wo_ping_multiplier _ Hw) as Hm.
  unfold Duration_mul, Duration_from_secs, is_u16, is_u32, u64_MAX in *.
  destruct (Z.leb_spec (ps_keep_alive (me_state e) * 1000000000 * mo_ping_timeout_multiplier (me_options e))
    ((18446744073709551615 + 1) * 1000000000 - 1)); [by eexists|]. nia.
Qed.

Lemma handle_tick_step e :
  fine t B U e → runs (handle_tick_inner t) e (λ _ e', fine t (B + 1) U e').
Proof.
  intros He. assert (HB' : B <= u32_MAX) by lia.
  assert (Hup : ∀ e, fine t B U e → fine t (B + 1) U e) by (intros e' He'; eapply good_weaken; [exact He'|lia..]).
  unfold handle_tick_inner. run_step. eapply runs_mono; [by apply check_deadlines_keeps|]. intros [] e1 He1.
  run_step. eapply runs_mono; [by apply flush_responses_step|]. intros [] e2 [He2 _]. clear He He1.
  apply good_fine in He2. run_step. run_step.
  assert (Htake : ∀ e, fine t (B + 1) U e → runs take_events e (λ _ e', fine t (B + 1) U e')).
  { intros e' He'. eapply runs_mono; [by apply take_events_keeps|]. intros l e3 He3. now_fine. }
  destruct (negb (me_is_connected e2)).
  { run_step.
    match goal with |- runs ?m _ _ => assert (Hm : runs m e2 (λ _ e', fine t (B + 1) U e')) end.
    { destruct (me_next_reconnect_at e2) as [a|]; [|run_step; by apply Hup].
      destruct (ord_le a t); [|run_step; by apply Hup]. run_step.
      eapply runs_mono; [by apply push_event_keeps|]. intros [] e3 He3. run_step.
      eapply good_fine. by apply unscheduled_good. }
    eapply runs_mono; [exact Hm|]. intros [] e3 He3. by apply Htake. }
  destruct (ping_timeout_defined e2 (gd_inv _ _ _ _ _ He2)) as [d Hd].
  run_step. apply runs_lift. exists d. split; [done|].
  match goal with |- runs (if ?b then _ else _) _ _ => destruct b end.
  { run_step. eapply runs_mono; [by apply connection_lost_keeps|]. intros [] e3 He3. run_step.
    eapply runs_mono; [by apply push_event_keeps|]. intros [] e4 He4. apply Htake, Hup. now_fine. }
  run_step.
  match goal with |- runs ?m _ _ => assert (Hm : runs m e2 (λ _ e', fine t B U e')) end.
  { match goal with |- runs (if ?b then _ else _) _ _ => destruct b end; [|by run_step]. run_step.
    eapply runs_mono; [by apply send_ping_step|]. intros r e3 [He3 _]. run_step. now_fine. }
  eapply runs_mono; [exact Hm|]. intros [] e3 He3. run_step.
  eapply runs_mono; [by apply process_queue_keeps|]. intros [] e4 He4. run_step.
  eapply runs_mono; [apply handle_retransmissions_step; now_fine|]. intros [] e5 He5.
  by apply Htake, Hup.
Qed.
End tick.
