(* ===== verification/EngineSafety.v ===== *)
(** * The engine over all sequences of calls

    The public calls of the engine with an explicit clock ([engine/explicit.rs]) and the calls
    without one, any sequence of them, and what holds of every sequence: no call panics or
    fails to end, the invariant holds between the calls, a refused command changes nothing, and
    what [take_outgoing] returns is whole packets. *)
From S2P Require Import Prelude BaseData TopicFilter Validation Properties Packets Framing Codec.
From S2P Require Import Stream Leveled Time PriorityQueue ClientError Options ClientTypes.
From S2P Require Import Commands Inflight ClientSession EngineState EngineCore EngineProtocol.
From S2P Require Import Engine EncodeFacts EngineInv EngineSteps EngineQueues EngineHandlers.
From S2P Require Import EngineConnect EngineReceive EngineInput.

Inductive EngineCall : Type :=
  | CallConnect
  | CallPublish (command : PublishCommand)
  | CallPublishEncoded (command : PublishCommand) (stream : option Z)
  | CallSubscribe (command : SubscribeCommand)
  | CallUnsubscribe (command : UnsubscribeCommand)
  | CallSubscribeEncoded (command : SubscribeCommand) (stream : option Z)
  | CallUnsubscribeEncoded (command : UnsubscribeCommand) (stream : option Z)
  | CallIncoming (data : bytes)
  | CallIngest (packet : MqttPacket) (stream : Z)
  | CallTick
  | CallTakeOutgoing
  | CallConnectionLost
  | CallResetForNewTransport
  | CallScheduleReconnect
  | CallDisconnect (reason_code : Z) (properties : list Property)
  | CallAuth (reason_code : Z) (properties : list Property)
  | CallPing
  | CallEnqueuePacket (packet : MqttPacket)
  | CallPuback (id reason : Z) (properties : list Property)
  | CallPubrec (id reason : Z) (properties : list Property)
  | CallPubcomp (id reason : Z) (properties : list Property)
  | CallTakeEvents
  | CallTakeStreamRetransmissions
  | CallSetReconnect (enabled : bool)
  | CallResetReconnectState
  | CallSetParseLevel (level : ParseLevel)
  | CallTrySetParseLevel (level : ParseLevel)
  | CallNextPacketId.

(** Arguments of the right types; a publication with QoS 0 has no packet identifier. *)
Definition call_ok (call : EngineCall) : Prop :=
  match call with
  | CallPublish c | CallPublishEncoded c _ => publish_command_ok c
  | CallSubscribe c | CallSubscribeEncoded c _ => wf_opt is_u16 (sc_packet_id c)
  | CallUnsubscribe c | CallUnsubscribeEncoded c _ => wf_opt is_u16 (uc_packet_id c)
  | CallIncoming data => u8s data
  | CallIngest packet _ => wf_packet packet
  | _ => True
  end.

Section safety.
Context {T : Type} `{TimePointLaws T} `{!Runtime T} `{!RuntimeLaws T}.
Implicit Types (e : MqttEngine T) (now : T).
Local Abbreviation M := (St (MqttEngine T)).

Definition ignore {A} (m : M A) : M () := m;; mret ().

Definition run_call (call : EngineCall) now : M () :=
  match call with
  | CallConnect => ignore (connect_at now)
  | CallPublish c => ignore (publish_at c now)
  | CallPublishEncoded c stream => ignore (publish_encoded_at c stream now)
  | CallSubscribe c => ignore (subscribe_at c now)
  | CallUnsubscribe c => ignore (unsubscribe_at c now)
  | CallSubscribeEncoded c stream => ignore (subscribe_encoded_at c stream now)
  | CallUnsubscribeEncoded c stream => ignore (unsubscribe_encoded_at c stream now)
  | CallIncoming data => ignore (handle_incoming_at data now)
  | CallIngest packet stream => ignore (ingest_stream_packet_at packet stream now)
  | CallTick => ignore (handle_tick_at now)
  | CallTakeOutgoing => ignore (take_outgoing_at now)
  | CallConnectionLost => ignore (handle_connection_lost_at now)
  | CallResetForNewTransport => ignore (reset_for_new_transport_at now)
  | CallScheduleReconnect => ignore (schedule_reconnect_at now)
  | CallDisconnect reason ps => ignore (try_disconnect_with_at reason ps now)
  | CallAuth reason ps => ignore (try_auth_at reason ps now)
  | CallPing => ignore (try_send_ping_at now)
  | CallEnqueuePacket packet => ignore (enqueue_packet_at packet now)
  | CallPuback id reason ps => ignore (puback_at id reason ps now)
  | CallPubrec id reason ps => ignore (pubrec_at id reason ps now)
  | CallPubcomp id reason ps => ignore (pubcomp_at id reason ps now)
  | CallTakeEvents => ignore take_events
  | CallTakeStreamRetransmissions => ignore take_stream_retransmissions
  | CallSetReconnect enabled => set_reconnect enabled
  | CallResetReconnectState => reset_reconnect_state
  | CallSetParseLevel level => set_parse_level level
  | CallTrySetParseLevel level => ignore (try_set_parse_level level)
  | CallNextPacketId => ignore next_packet_id
  end.

Definition run_calls (calls : list (EngineCall * T)) : M () :=
  for_each_st calls (λ '(call, now), run_call call now).

(** ** One call *)
Definition in_order (B : Z) e : Prop := engine_inv e ∧ attempts_bound B e.

Lemma in_order_good B e :
  in_order B e ↔ good (me_now e) B (zlen (unread (me_parser e))) (potential e) e.
Proof. split; [intros [? ?]; by split|intros []; by split]. Qed.
Lemma good_in_order t B U K e : good t B U K e → in_order B e.
Proof. intros []. by split. Qed.
Lemma in_order_mono B B' e : in_order B e → B <= B' → in_order B' e.
Proof. intros [Hi (? & ? & ?)] HB. split; [done|]. split; [done|]. split; [done|lia]. Qed.

Lemma begin_update_step B e now :
  in_order B e →
  runs (begin_update now) e (λ r e', match r with
    | inl _ => e' = e
    | inr _ => e' = e <| me_now := now |> ∧
        good now B (zlen (unread (me_parser e))) (potential e) (e <| me_now := now |>)
    end).
Proof.
  intros He%in_order_good. unfold begin_update. run_step. run_step.
  destruct (ord_lt now (me_now e)) eqn:Hlt; [by run_step|]. run_step.
  assert (Hle : ord_le (me_now e) now = true) by (by rewrite ord_le_not_lt, Hlt).
  assert (Hnp : check_time_range (me_options e) now ≠ Panic).
  { unfold check_time_range. destruct (ei_config e (gd_inv _ _ _ _ _ He)) as (Hw & _).
    destruct (horizon_elements _ (wo_ping_multiplier _ Hw)) as (ds & -> & _). by case_match. }
  apply runs_result; [done|done|]. intros [] Hr. repeat run_step. split; [done|]. frame.
  - destruct Hclk as (_ & Hs & Hg). split; [done|]. split; [simpl; by eapply ord_le_trans|].
    intros x Hx. eapply ord_le_trans; [by apply Hg|done].
  - destruct Hinf as (? & Hl & Hrest). split; [done|]. split; [|done].
    intros last Hlast. eapply ord_le_trans; [by apply Hl|done].
  - done.
Qed.

Lemma ignore_runs {A} (m : M A) e (Q : MqttEngine T → Prop) :
  runs m e (λ _ e', Q e') → runs (ignore m) e (λ _ e', Q e').
Proof. intros Hm. unfold ignore. run_step. eapply runs_mono; [exact Hm|]. intros a e' HQ. by run_step. Qed.

(** The attempts to reconnect a call may add to those counted. *)
Definition call_cost (call : EngineCall) : Z :=
  match call with CallConnect | CallTick | CallResetForNewTransport | CallDisconnect _ _ | CallSetReconnect _ => 1 | _ => 0 end.

Section call.
Context (B B' : Z) (HB : B + 1 <= u32_MAX) (HBB : B <= B').
Definition keeps_order {A} (m : M A) : Prop := preserves (in_order B) (in_order B') m.

Lemma timed_order {A} now (m : M A) :
  (∀ U K e, good now B U K e → runs m e (λ _ e', in_order B' e')) →
  keeps_order (timed now m).
Proof.
  intros Hm e He. unfold timed. run_step.
  eapply runs_mono; [eapply begin_update_step; eassumption|]. intros [error|[]] e1.
  { intros ->. by eapply in_order_mono. }
  intros [-> He1]. run_step. eapply runs_mono; [by eapply Hm|]. intros a e2 He2. by run_step.
Qed.
Lemma timed_try_order {A} now (m : M (MqttClientError + A)) :
  (∀ U K e, good now B U K e → runs m e (λ _ e', in_order B' e')) →
  keeps_order (timed_try now m).
Proof.
  intros Hm e He. unfold timed_try. run_step.
  eapply runs_mono; [eapply begin_update_step; eassumption|]. intros [error|[]] e1.
  { intros ->. by eapply in_order_mono. }
  intros [-> He1]. by eapply Hm.
Qed.

(** The result of a step lemma, in the form the calls need. *)
Lemma order_of {A} t U K (m : M A) e (Q : A → MqttEngine T → Prop) :
  runs m e (λ a e', good t B U K e' ∧ Q a e') → runs m e (λ _ e', in_order B' e').
Proof.
  intros Hm. eapply runs_mono; [exact Hm|]. intros a e' [He' _].
  eapply in_order_mono; [exact (good_in_order _ _ _ _ _ He')|done].
Qed.
Lemma order_of' {A} t U K (m : M A) e :
  runs m e (λ _ e', good t B U K e') → runs m e (λ _ e', in_order B' e').
Proof.
  intros Hm. apply (order_of t U K m e (λ _ _, True)). eapply runs_mono; [exact Hm|]. done.
Qed.
Lemma keeps_ignore {A} (m : M A) : keeps_order m → keeps_order (ignore m).
Proof. intros Hm e He. apply ignore_runs. by apply Hm. Qed.

Lemma run_call_order call now :
  call_ok call → B + call_cost call <= B' → keeps_order (run_call call now).
Proof.
  assert (HB' : B <= u32_MAX) by lia.
  destruct call; cbn [call_ok run_call call_cost]; intros Hc Hcost.
  - apply keeps_ignore, timed_try_order. intros U K e He. eapply runs_mono; [eapply connect_inner_step; eassumption|].
    intros r e' [K' He']. eapply in_order_mono; [exact (good_in_order _ _ _ _ _ He')|lia].
  - apply keeps_ignore, timed_try_order. intros U K e He. eapply order_of, publish_inner_step; eassumption.
  - apply keeps_ignore, timed_try_order. intros U K e He. eapply order_of, publish_encoded_step; eassumption.
  - apply keeps_ignore, timed_try_order. intros U K e He. eapply order_of, subscribe_inner_step; eassumption.
  - apply keeps_ignore, timed_try_order. intros U K e He. eapply order_of, unsubscribe_inner_step; eassumption.
  - apply keeps_ignore, timed_try_order. intros U K e He. eapply order_of, subscribe_encoded_step; eassumption.
  - apply keeps_ignore, timed_try_order. intros U K e He. eapply order_of, unsubscribe_encoded_step; eassumption.
  - apply keeps_ignore, timed_order. intros U K e He. eapply order_of', handle_incoming_step; eassumption.
  - apply keeps_ignore, timed_order. intros U K e He. eapply order_of', ingest_step; eassumption.
  - apply keeps_ignore, timed_order. intros U K e He. eapply runs_mono; [apply handle_tick_step; [done|by eapply good_fine]|].
    intros l e' He'. eapply in_order_mono; [exact (good_in_order _ _ _ _ _ He')|lia].
  - apply keeps_ignore, timed_order. intros U K e He. eapply order_of, take_outgoing_step; eassumption.
  - apply keeps_ignore, timed_order. intros U K e He. eapply order_of', handle_connection_lost_good; eassumption.
  - apply keeps_ignore, timed_order. intros U K e He. eapply runs_mono; [eapply reset_step; eassumption|].
    intros [] e' [He' _]. eapply in_order_mono; [exact (good_in_order _ _ _ _ _ He')|lia].
  - apply keeps_ignore, timed_order. intros U K e He. eapply order_of, schedule_reconnect_step; eassumption.
  - apply keeps_ignore, timed_try_order. intros U K e He. eapply runs_mono; [eapply disconnect_with_step; eassumption|].
    intros r e' [He' _]. eapply in_order_mono; [exact (good_in_order _ _ _ _ _ He')|lia].
  - apply keeps_ignore, timed_try_order. intros U K e He. eapply order_of, try_auth_step; eassumption.
  - apply keeps_ignore, timed_try_order. intros U K e He. unfold try_send_ping_inner. run_step. run_step.
    rewrite (gd_now _ _ _ _ _ He). eapply order_of, send_ping_step; eassumption.
  - apply keeps_ignore, timed_try_order. intros U K e He. eapply order_of, enqueue_packet_good; eassumption.
  - apply keeps_ignore, timed_try_order. intros U K e He. eapply order_of, manual_ack_step; [by auto|eassumption].
  - apply keeps_ignore, timed_try_order. intros U K e He. eapply order_of, manual_ack_step; [by auto|eassumption].
  - apply keeps_ignore, timed_try_order. intros U K e He. eapply order_of, manual_ack_step; [by auto|eassumption].
  - intros e He%in_order_good. apply ignore_runs. eapply order_of', take_events_keeps; eassumption.
  - intros e He%in_order_good. apply ignore_runs. unfold take_stream_retransmissions. repeat run_step.
    eapply in_order_mono; [|exact HBB]. apply (good_in_order (me_now e) B (zlen (unread (me_parser e))) (potential e)). frame.
  - intros e He%in_order_good. eapply runs_mono; [eapply set_reconnect_step; eassumption|].
    intros [] e' He'. eapply in_order_mono; [exact (good_in_order _ _ _ _ _ He')|lia].
  - intros e He%in_order_good. eapply order_of', reset_reconnect_good; eassumption.
  - intros e He%in_order_good. unfold set_parse_level. run_step.
    eapply in_order_mono; [|exact HBB]. apply (good_in_order (me_now e) B (zlen (unread (me_parser e))) (potential e)). frame.
  - intros e He%in_order_good. apply ignore_runs. unfold try_set_parse_level, set_parse_level. run_step. run_step.
    destruct (_ && _); repeat run_step;
      (eapply in_order_mono; [|exact HBB]); 
      apply (good_in_order (me_now e) B (zlen (unread (me_parser e))) (potential e)); [done|]. frame.
  - intros e He%in_order_good. apply ignore_runs. eapply order_of. by apply (candidate_id_step _ _ _ _ _ None).
Qed.
End call.

(** ** All sequences of calls *)
Lemma new_in_order options now :
  wf_options options → mo_sessionless options = false → check_time_range options now = Ok () →
  in_order 1 (MqttEngine_new_at options now).
Proof.
  intros Hw Hs Ht. split; [split|]; unfold MqttEngine_new_at.
  - split; [done|]. split; [done|]. split; [done|]. split; [done|]. simpl. apply Hw.
  - split; [done|]. split; [apply ord_le_refl|done].
  - split; [|done]. simpl. unfold parser_inv. simpl. split; [zlia|]. split; [done|]. split; [constructor|].
    by destruct (wo_mqtt_version _ Hw) as [->|[->| ->]].
  - pose proof (wo_receive_maximum _ Hw) as Hr. unfold is_u16 in Hr.
    split; [|by split_and!]. apply (new_inflight_inv (T:=T)). lia.
  - pose proof (wo_outgoing_count _ Hw) as Hc. unfold is_usize, is_u64 in Hc.
    split; [apply new_inv; lia|]. split; [done|]. constructor.
  - split; [|done]. split; simpl; try (by intros id ?%not_elem_of_nil); try constructor.
    by intros id [x Hx].
  - pose proof (wo_outgoing_count _ Hw) as Hc. unfold is_usize, is_u64 in Hc.
    split; [constructor|]. split; [simpl; zlia|]. split; [done|]. intros c Hcap _.
    pose proof (wo_outgoing_buffer _ Hw) as Hb. simpl in Hcap. rewrite Hcap in Hb. simpl in Hb.
    unfold is_usize, is_u64 in Hb. change (0 + 0 <= c). lia.
  - split; [done|]. split; [|done]. intros alias topic. simpl. by rewrite lookup_empty.
  - split; [done|]. split; [by left|]. simpl. lia.
Qed.

Lemma run_calls_order calls B e :
  in_order B e → Forall (λ c, call_ok c.1) calls → B + zlen calls <= u32_MAX →
  runs (run_calls calls) e (λ _ e', in_order (B + zlen calls) e').
Proof.
  intros He Hc. revert B e He. induction Hc as [|[call now] calls Hcall _ IH]; intros B e He Hlen.
  { apply runs_ret. by rewrite zlen_nil, Z.add_0_r. }
  rewrite zlen_cons in *. pose proof (zlen_nonneg calls). unfold run_calls. cbn [for_each_st]. run_step.
  eapply runs_mono; [apply (run_call_order B (B + 1)); [lia..|done|destruct call; simpl; lia|done]|]. intros [] e1 He1.
  eapply runs_mono; [apply (IH (B + 1)); [done|lia]|]. intros [] e2 He2. eapply in_order_mono; [done|lia].
Qed.
End safety.

(** An engine some sequence of calls leads to. *)
Definition reachable {T} `{TimePoint T, !Runtime T} (e : MqttEngine T) : Prop :=
  ∃ options now engine calls, wf_options options ∧ mo_sessionless options = false ∧
    MqttEngine_try_new_at options now = Ok engine ∧ Forall (λ c, call_ok c.1) calls ∧
    zlen calls < u32_MAX - 2 ∧ run_calls calls engine = Ok ((), e).

Section reachable.
Context {T : Type} `{TimePointLaws T} `{!Runtime T} `{!RuntimeLaws T}.
Implicit Types (e : MqttEngine T) (now : T).

Lemma reachable_in_order e : reachable e → in_order (u32_MAX - 1) e.
Proof.
  intros (options & now & engine & calls & Hw & Hs & Hnew & Hc & Hlen & Hrun).
  unfold MqttEngine_try_new_at in Hnew. destruct (_ || _); [done|].
  apply bind_Ok_inv in Hnew as ([] & Ht & [= <-]%Ok_inj).
  pose proof (run_calls_order calls 1 _ (new_in_order options now Hw Hs Ht) Hc ltac:(lia)) as Hr.
  unfold runs in Hr. rewrite Hrun in Hr. eapply in_order_mono; [done|lia].
Qed.

(** A call is refused: it returns an error. *)
Definition refuses (call : EngineCall) now e e' : Prop :=
  match call with
  | CallPublish c => ∃ error, publish_at c now e = Ok (inl error, e')
  | CallPublishEncoded c stream => ∃ error, publish_encoded_at c stream now e = Ok (inl error, e')
  | CallSubscribe c => ∃ error, subscribe_at c now e = Ok (inl error, e')
  | CallUnsubscribe c => ∃ error, unsubscribe_at c now e = Ok (inl error, e')
  | CallSubscribeEncoded c stream => ∃ error, subscribe_encoded_at c stream now e = Ok (inl error, e')
  | CallUnsubscribeEncoded c stream =>
      ∃ error, unsubscribe_encoded_at c stream now e = Ok (inl error, e')
  | CallDisconnect reason ps => ∃ error, try_disconnect_with_at reason ps now e = Ok (inl error, e')
  | CallAuth reason ps => ∃ error, try_auth_at reason ps now e = Ok (inl error, e')
  | CallPing => ∃ error, try_send_ping_at now e = Ok (inl error, e')
  | CallEnqueuePacket packet => ∃ error, enqueue_packet_at packet now e = Ok (inl error, e')
  | CallPuback id reason ps => ∃ error, puback_at id reason ps now e = Ok (inl error, e')
  | CallPubrec id reason ps => ∃ error, pubrec_at id reason ps now e = Ok (inl error, e')
  | CallPubcomp id reason ps => ∃ error, pubcomp_at id reason ps now e = Ok (inl error, e')
  | _ => False
  end.

(** Nothing but the clock and the counter packet identifiers are drawn from has moved. *)
Definition no_effect e e' : Prop :=
  ∃ counter n, e' = e <| me_session := counter_at counter (me_session e) |> <| me_now := n |>.
Lemma no_effect_now e n : no_effect e (e <| me_now := n |>).
Proof.
  destruct (counter_at_same (me_session e)) as [counter Hc]. exists counter, n.
  by rewrite <- Hc, same_session.
Qed.
Lemma no_effect_refl e : no_effect e e.
Proof. pose proof (no_effect_now e (me_now e)) as Hn. by destruct e. Qed.

Lemma refused_no_effect e n e' : refused (e <| me_now := n |>) e' → no_effect e e'.
Proof. intros [s ->]. by exists s, n. Qed.
Lemma unchanged_no_effect e n e' : e' = e <| me_now := n |> → no_effect e e'.
Proof. intros ->. apply no_effect_now. Qed.

Lemma timed_try_refused {A} B e now (m : St (MqttEngine T) (MqttClientError + A)) error e' :
  in_order B e → timed_try now m e = Ok (inl error, e') →
  (∀ U K, good now B U K (e <| me_now := now |>) →
     runs m (e <| me_now := now |>) (λ r e',
       match r with inl _ => no_effect e e' | inr _ => True end)) → no_effect e e'.
Proof.
  intros He Hrun Hm.
  assert (Hr : runs (timed_try now m) e (λ r e', match r with inl _ => no_effect e e' | inr _ => True end)).
  { unfold timed_try. run_step. eapply runs_mono; [by apply begin_update_step|]. intros [x|[]] e1.
    - intros ->. apply no_effect_refl.
    - intros [-> He1]. by eapply Hm. }
  unfold runs in Hr. by rewrite Hrun in Hr.
Qed.

Lemma refused_step {A} (m : St (MqttEngine T) (MqttClientError + A)) e now (P : MqttEngine T → Prop)
    (R : A → Prop) :
  runs m (e <| me_now := now |>) (λ r e', P e' ∧
    match r with inl _ => refused (e <| me_now := now |>) e' | inr a => R a end) →
  runs m (e <| me_now := now |>) (λ r e', match r with inl _ => no_effect e e' | inr _ => True end).
Proof.
  intros Hm. eapply runs_mono; [exact Hm|]. intros [x|a] e' [_ Hx]; [|done]. by eapply refused_no_effect.
Qed.
Lemma unchanged_step {A} (m : St (MqttEngine T) (MqttClientError + A)) e now (P : MqttEngine T → Prop)
    (R : A → MqttEngine T → Prop) :
  runs m (e <| me_now := now |>) (λ r e', P e' ∧
    match r with inl _ => e' = e <| me_now := now |> | inr a => R a e' end) →
  runs m (e <| me_now := now |>) (λ r e', match r with inl _ => no_effect e e' | inr _ => True end).
Proof.
  intros Hm. eapply runs_mono; [exact Hm|]. intros [x|a] e' [_ Hx]; [|done]. by eapply unchanged_no_effect.
Qed.

Lemma refuses_in_order e call now e' :
  in_order (u32_MAX - 1) e → call_ok call → refuses call now e e' → no_effect e e'.
Proof.
  intros He Hc. assert (HB : u32_MAX - 1 <= u32_MAX) by lia.
  destruct call; cbn [call_ok refuses] in *; try done; intros [error Hrun];
    (eapply timed_try_refused; [exact He|exact Hrun|]); intros U K Hg.
  - eapply refused_step, publish_inner_step; eassumption.
  - eapply refused_step, publish_encoded_step; eassumption.
  - eapply refused_step, subscribe_inner_step; eassumption.
  - eapply refused_step, unsubscribe_inner_step; eassumption.
  - eapply refused_step, subscribe_encoded_step; eassumption.
  - eapply refused_step, unsubscribe_encoded_step; eassumption.
  - eapply unchanged_step, disconnect_with_step; eassumption.
  - eapply unchanged_step, try_auth_step; eassumption.
  - unfold try_send_ping_inner. run_step. run_step. eapply unchanged_step, send_ping_step; eassumption.
  - eapply unchanged_step, enqueue_packet_good; eassumption.
  - eapply unchanged_step, manual_ack_step; [by auto|eassumption].
  - eapply unchanged_step, manual_ack_step; [by auto|eassumption].
  - eapply unchanged_step, manual_ack_step; [by auto|eassumption].
Qed.
Lemma refuses_no_effect e call now e' :
  reachable e → call_ok call → refuses call now e e' → no_effect e e'.
Proof. intros He%reachable_in_order. by apply refuses_in_order. Qed.
End reachable.

(** ** Theorems *)

(** C1: the protocol engine never panics and never loops.  For every well-typed configuration
    with a persistent session ([sessionless] off) whose deadlines are representable from the
    starting time on (the constructor checks it), every clock and every sequence of fewer than
    [u32::MAX - 1] calls of the public interface, with any well-typed commands except a QoS 0
    PUBLISH that carries a packet identifier ([call_ok]), any bytes from the network and any
    passage of time: every call returns, none of the engine's [expect]s, slice accesses or
    counters fails, and the invariant holds at the end.  The invariant includes that no packet
    identifier has two owners, that the output buffer holds whole packets within the configured
    limits, and that every deadline the engine may compute is representable.  [EngineFindings]
    shows runs that panic without the first and without the third condition. *)
Theorem engine_never_panics {T} `{TimePointLaws T} `{!Runtime T} `{!RuntimeLaws T}
    options (now : T) engine calls :
  wf_options options → mo_sessionless options = false →
  MqttEngine_try_new_at options now = Ok engine →
  Forall (λ c, call_ok c.1) calls → zlen calls < u32_MAX - 1 →
  ∃ engine', run_calls calls engine = Ok ((), engine') ∧ engine_inv engine'.
Proof.
  intros Hw Hs Hnew Hc Hlen. unfold MqttEngine_try_new_at in Hnew. destruct (_ || _); [done|].
  apply bind_Ok_inv in Hnew as ([] & Ht & [= <-]%Ok_inj).
  pose proof (run_calls_order calls 1 _ (new_in_order options now Hw Hs Ht) Hc ltac:(lia)) as Hrun.
  apply runs_Ok in Hrun as ([] & e' & Hrun & He' & _). eauto.
Qed.

(** The witnesses run on the virtual clock, with maps read in key order. *)
#[local] Existing Instance Runtime_ordered.
#[local] Existing Instance RuntimeLaws_ordered.

Definition sample_command : PublishCommand := PublishCommand_simple (str "a/b") [1; 2] 1 false.
Definition sample_run : list (EngineCall * Timestamp) :=
  (λ c : EngineCall * Z, (c.1, Timestamp_from_nanos c.2)) <$>
  [(CallConnect, 1); (CallTakeOutgoing, 2); (CallIncoming [32; 3; 0; 0; 0], 3);
   (CallPublish sample_command, 4); (CallTakeOutgoing, 5); (CallIncoming [64; 2; 0; 1], 6);
   (CallIncoming [255; 255; 0], 7); (CallTick, 61000000000); (CallConnect, 62000000000)].

Lemma sample_command_ok : publish_command_ok sample_command.
Proof.
  split; [by repeat split; try u8s_lit|]. unfold is_u8. simpl. split; [lia|]. split; [done|].
  split; [u8s_lit|]. split; [constructor|done].
Qed.

Lemma engine_never_panics_witness :
  ∃ engine, MqttEngine_try_new_at MqttClientOptions_default (Timestamp_from_nanos 0) = Ok engine ∧
  ∃ engine', run_calls sample_run engine = Ok ((), engine') ∧ engine_inv engine'.
Proof.
  eexists. split; [reflexivity|].
  eapply (engine_never_panics MqttClientOptions_default (Timestamp_from_nanos 0)).
  - apply default_options_wf.
  - reflexivity.
  - reflexivity.
  - unfold sample_run. apply Forall_fmap.
    repeat (apply Forall_cons_2; [first [exact I|exact sample_command_ok|unfold compose; simpl; u8s_lit]|]).
    apply Forall_nil_2.
  - vm_compute. done.
Defined.

(** A connected engine with one message inflight. *)
Definition sample_calls : list (EngineCall * Timestamp) :=
  (λ c : EngineCall * Z, (c.1, Timestamp_from_nanos c.2)) <$>
  [(CallConnect, 1); (CallTakeOutgoing, 2); (CallIncoming [32; 3; 0; 0; 0], 3);
   (CallPublish sample_command, 4)].
Definition sample_engine : MqttEngine Timestamp :=
  let e := MqttEngine_new_at MqttClientOptions_default (Timestamp_from_nanos 0) in
  match run_calls sample_calls e with Ok (_, e') => e' | _ => e end.

Lemma sample_engine_reachable : reachable sample_engine.
Proof.
  exists MqttClientOptions_default, (Timestamp_from_nanos 0),
    (MqttEngine_new_at MqttClientOptions_default (Timestamp_from_nanos 0)), sample_calls.
  split; [apply default_options_wf|]. split; [reflexivity|]. split; [reflexivity|]. split; [|split].
  - unfold sample_calls. apply Forall_fmap.
    repeat (apply Forall_cons_2; [first [exact I|exact sample_command_ok|unfold compose; simpl; u8s_lit]|]).
    apply Forall_nil_2.
  - vm_compute. done.
  - vm_compute. reflexivity.
Qed.

(** C18: a refused command has no effect.  Whenever [publish], [subscribe], [unsubscribe], their
    encoded variants, [disconnect], [auth], [send_ping], [enqueue_packet] or a manual
    acknowledgement returns an error, on any engine a run leads to, the engine is the one
    before, up to its clock and the counter packet identifiers are drawn from: the session is
    there exactly if it was, with both its maps. *)
Theorem refused_commands {T} `{TimePointLaws T} `{!Runtime T} `{!RuntimeLaws T}
    (e : MqttEngine T) call now e' :
  reachable e → call_ok call → refuses call now e e' →
  ∃ counter time, e' = e <| me_session := counter_at counter (me_session e) |> <| me_now := time |>.
Proof. apply refuses_no_effect. Qed.

Lemma refused_commands_witness :
  let command := sample_command <| pc_packet_id := Some 1 |> in
  let now := Timestamp_from_nanos 9 in
  ∃ e', publish_at command now sample_engine = Ok (inl (InvalidPacketId 1), e') ∧
  ∃ counter time, e' = sample_engine
    <| me_session := counter_at counter (me_session sample_engine) |> <| me_now := time |>.
Proof.
  intros command now. eexists. split; [vm_compute; reflexivity|].
  apply (refused_commands sample_engine (CallPublish command) now).
  - exact sample_engine_reachable.
  - pose proof sample_command_ok as (? & ? & _ & ? & ? & _). split; [done|]. split; [done|].
    split; [by split; vm_compute|]. by split_and!.
  - exists (InvalidPacketId 1). vm_compute. reflexivity.
Defined.

(** C32: [take_outgoing] ends and returns whole packets: its bytes are the concatenated encodings
    of MQTT packets, and afterwards the output buffer is empty. *)
Theorem output_is_packets {T} `{TimePointLaws T} `{!Runtime T} `{!RuntimeLaws T}
    (e : MqttEngine T) now :
  reachable e →
  ∃ r e', take_outgoing_at now e = Ok (r, e') ∧
    match r with
    | inl _ => e' = e
    | inr bs => encoded_packets bs ∧ me_outgoing_buffer e' = []
    end.
Proof.
  intros He%reachable_in_order. apply runs_Ok. unfold take_outgoing_at, timed. run_step.
  eapply runs_mono; [by apply begin_update_step|]. intros [error|[]] e1; [done|]. intros [-> He1].
  run_step. eapply runs_mono; [eapply take_outgoing_step; [|exact He1]; lia|].
  intros bs e2 [_ Hpost]. by run_step.
Qed.

Lemma output_is_packets_witness :
  ∃ r e', take_outgoing_at (Timestamp_from_nanos 9) sample_engine = Ok (r, e') ∧
    match r with
    | inl _ => e' = sample_engine
    | inr bs => encoded_packets bs ∧ me_outgoing_buffer e' = []
    end.
Proof. apply output_is_packets. exact sample_engine_reachable. Defined.

(** C31: packet identifiers are never shared.  On every engine with a persistent session that a
    run without QoS 0 identifiers leads to ([reachable]), the identifier [publish] returns for a
    message with QoS above 0 is a nonzero [u16] that no queued, inflight or replayed packet of
    the engine had reserved before, also when the application chose it. *)
Theorem publish_identifier_fresh {T} `{TimePointLaws T} `{!Runtime T} `{!RuntimeLaws T}
    (e : MqttEngine T) command now id e' :
  reachable e → publish_command_ok command →
  publish_at command now e = Ok (inr (Some id), e') →
  0 < id <= u16_MAX ∧ id ∉ ps_reserved (me_state e) ∧
  iq_entries (me_inflight_queue e) !! id = None ∧
  id ∉ queued_ids (queued e) ∧ id ∉ (me_session_replay e).*1 ∧ id ∉ (me_previous_inflight e).*1.
Proof.
  intros He%reachable_in_order Hc Hrun.
  assert (Hr : runs (publish_at command now) e (λ r _, match r with
    | inl _ => True | inr pid => ∀ i, pid = Some i → fresh_id i e end)).
  { unfold publish_at, timed_try. run_step. eapply runs_mono; [by apply begin_update_step|].
    intros [error|[]] e1; [done|]. intros [-> He1].
    eapply runs_mono; [eapply publish_inner_step; [|exact He1|exact Hc]; lia|]. by intros [x|pid] e2 [_ ?]. }
  unfold runs in Hr. rewrite Hrun in Hr. specialize (Hr id eq_refl).
  pose proof (fresh_unlisted id e (proj1 He) Hr) as (? & ? & ?).
  destruct Hr as (? & Hu & ? & ?). unfold is_u16, u16_MAX in *. split; [lia|]. by split_and!.
Qed.

Lemma publish_identifier_fresh_witness :
  ∃ e', publish_at sample_command (Timestamp_from_nanos 9) sample_engine = Ok (inr (Some 2), e') ∧
  0 < 2 <= u16_MAX ∧ 2 ∉ ps_reserved (me_state sample_engine) ∧
  iq_entries (me_inflight_queue sample_engine) !! 2 = None ∧
  2 ∉ queued_ids (queued sample_engine) ∧ 2 ∉ (me_session_replay sample_engine).*1 ∧
  2 ∉ (me_previous_inflight sample_engine).*1.
Proof.
  eexists. split; [vm_compute; reflexivity|].
  eapply (publish_identifier_fresh sample_engine sample_command (Timestamp_from_nanos 9) 2).
  - exact sample_engine_reachable.
  - exact sample_command_ok.
  - vm_compute. reflexivity.
Defined.

(** C36: reconnection backs off exponentially.  [schedule_reconnect] does nothing while an attempt
    is pending or all attempts are used up; otherwise the next attempt is set to the base delay
    doubled once per attempt, at most ten times, and never beyond the maximal delay, the
    attempt is counted and announced. *)
Theorem reconnect_backoff {T} `{TimePointLaws T} `{!Runtime T} `{!RuntimeLaws T}
    (e : MqttEngine T) :
  reachable e →
  ∃ e', schedule_reconnect_inner (me_now e) e = Ok ((), e') ∧ reconnect_outcome e e'.
Proof.
  intros He%reachable_in_order%in_order_good.
  pose proof (schedule_reconnect_step _ (u32_MAX - 1) _ ltac:(lia) _ _ He) as Hr.
  apply runs_Ok in Hr as ([] & e' & Hr & _ & ?). eauto.
Qed.

Lemma reconnect_backoff_witness :
  ∃ e', schedule_reconnect_inner (me_now sample_engine) sample_engine = Ok ((), e') ∧
    reconnect_outcome sample_engine e'.
Proof. apply reconnect_backoff. exact sample_engine_reachable. Defined.
