(* ===== verification/EngineTimers.v ===== *)
(** * The engine's timers

    An application that sleeps until [next_tick_at] misses nothing: it returns on every engine a run
    leads to, and a tick before that time finds no timer to fire. *)
From S2P Require Import Prelude BaseData TopicFilter Validation Properties Packets Framing Codec.
From S2P Require Import Stream Leveled Time PriorityQueue ClientError Options ClientTypes.
From S2P Require Import Commands Inflight ClientSession EngineState EngineCore EngineProtocol.
From S2P Require Import Engine EncodeFacts EngineInv EngineSteps EngineInput EngineSafety.

Section timers.
Context {T : Type} `{TimePointLaws T} `{!Runtime T} `{!RuntimeLaws T}.
Implicit Types (e : MqttEngine T) (now t : T).

(** Nothing but the timers could make a tick do something. *)
Definition idle e : Prop :=
  ps_responses (me_state e) = [] ∧ me_session_replay e = [] ∧ contents (me_priority_queue e) = [].

(** [at_] has not come at [now]. *)
Definition not_due now (at_ : option T) : Prop := ∀ t, at_ = Some t → ord_lt now t = true.

(** A tick without effect: the time is noted and the events that were waiting are returned. *)
Definition quiet_tick now e : MqttEngine T :=
  let e := e <| me_now := now |> <| me_events := [] |> in
  if me_is_connected e then e <| me_inflight_queue ::= λ q, with_last_update q now |> else e.

Lemma lt_not_le now t : ord_lt now t = true → ord_le t now = false.
Proof. intros Hl. rewrite ord_le_not_lt. by rewrite Hl. Qed.

Lemma time_min_due now l : ∀ a,
  not_due now (foldl time_min a l) → not_due now a ∧ Forall (λ t, ord_lt now t = true) l.
Proof.
  induction l as [|t l IH]; intros a; simpl; [by split|]. intros [Ha Hl]%IH.
  destruct a as [a|]; simpl in *.
  - specialize (Ha _ eq_refl). destruct (ord_le a t) eqn:Hat.
    + split; [by intros ? [= <-]|]. constructor; [by eapply ord_lt_le_trans|done].
    + split; [|by constructor]. intros ? [= <-]. rewrite ord_le_not_lt in Hat.
      apply negb_false_iff in Hat. eapply ord_lt_le_trans; [done|]. by apply ord_lt_le.
  - split; [by intros ?|]. constructor; [by apply Ha|done].
Qed.

(** ** The time of the next tick is defined *)
Lemma keep_alive_defined e start m :
  engine_inv e → ord_le start (me_now e) = true →
  0 <= m <= Z.max (mo_ping_timeout_multiplier (me_options e)) 1 →
  is_Some (tp_checked_add start (Duration_from_secs (ps_keep_alive (me_state e)) * m)).
Proof.
  intros Hi Hs Hm. eapply tp_add_defined; [exact Hs|].
  destruct (ei_config e Hi) as (Hw & _ & _ & _ & Hk). pose proof (wo_ping_multiplier _ Hw) as Hp.
  destruct (horizon_elements (me_options e) Hp) as (ds & Hds & Hin & _).
  unfold is_u16 in Hk.
  eapply tp_add_smaller; [|apply (deadline_defined e _ Hi); exists ds; split; [exact Hds|exact Hin]].
  unfold Duration_from_secs, u16_MAX. nia.
Qed.

Lemma next_tick_defined e : engine_inv e → ∃ next, next_tick_at e = Ok next.
Proof.
  intros Hi. unfold next_tick_at. destruct (negb _); [eauto|].
  destruct (ei_clock e Hi) as (_ & Hsent & Hping).
  destruct (ei_config e Hi) as (Hw & _). pose proof (wo_ping_multiplier _ Hw) as Hp. unfold is_u32 in Hp.
  destruct (0 <? _); [|simpl; eauto]. destruct (me_ping_sent_at e) as [sent|] eqn:Hs.
  - destruct (ping_timeout_defined e Hi) as [d Hd]. rewrite Hd. simpl.
    unfold Duration_mul in Hd. destruct (_ <=? _) in Hd; [|done]. injection Hd as <-.
    destruct (keep_alive_defined e sent (mo_ping_timeout_multiplier (me_options e)) Hi (Hping _ eq_refl)) as [u Hu]; [lia|].
    unfold deadline_from. rewrite Hu. simpl. eauto.
  - destruct (mo_auto_keepalive _); [|simpl; eauto].
    destruct (keep_alive_defined e (me_last_packet_sent e) 1 Hi Hsent) as [u Hu]; [lia|].
    rewrite Z.mul_1_r in Hu. unfold deadline_from. rewrite Hu. simpl. eauto.
Qed.

(** ** What is not due *)
Record nothing_due now e : Prop := {
  nd_deadlines : Forall (λ d : DeadlineKey * (T * Z), ord_lt now d.2.1 = true)
                   (map_to_list (ps_deadlines (me_state e)));
  nd_reconnect : me_is_connected e = false → not_due now (me_next_reconnect_at e);
  nd_ping : me_is_connected e = true → 0 < Duration_from_secs (ps_keep_alive (me_state e)) →
    ∀ sent, me_ping_sent_at e = Some sent →
    (Duration_from_secs (ps_keep_alive (me_state e)) * mo_ping_timeout_multiplier (me_options e)
       <=? tp_saturating_duration_since now sent) = false;
  nd_idle : me_is_connected e = true → 0 < Duration_from_secs (ps_keep_alive (me_state e)) →
    me_ping_sent_at e = None → mo_auto_keepalive (me_options e) = true →
    (Duration_from_secs (ps_keep_alive (me_state e))
       <=? tp_saturating_duration_since now (me_last_packet_sent e)) = false;
  nd_resend : me_is_connected e = true →
    not_due now (InflightQueue_next_expiration (me_inflight_queue e));
}.

Lemma resend_min now next resend :
  not_due now (match resend with
               | Some resend_at =>
                   match next with
                   | None => Some resend_at
                   | Some at_ => if ord_lt resend_at at_ then Some resend_at else next
                   end
               | None => next
               end) → not_due now next ∧ not_due now resend.
Proof.
  intros Hn. destruct resend as [r|]; [|by split; [|intros ?]]. destruct next as [a|].
  - destruct (ord_lt r a) eqn:Hra; specialize (Hn _ eq_refl).
    + split; intros ? [= <-]; [|done]. eapply ord_lt_le_trans; [done|]. by apply ord_lt_le.
    + split; intros ? [= <-]; [done|]. eapply ord_lt_le_trans; [done|]. by rewrite ord_le_not_lt, Hra.
  - split; [by intros ?|done].
Qed.

Lemma not_reached now start d u :
  0 <= d → ord_le start now = true → tp_checked_add start d = Some u → ord_lt now u = true →
  (d <=? tp_saturating_duration_since now start) = false.
Proof.
  intros Hd Hs Hu Hlt. destruct (decide (d = 0)) as [->|Hne].
  - apply tp_add_zero in Hu as ->. rewrite ord_le_not_lt, Hlt in Hs. done.
  - rewrite (tp_since_reached start now u d) by (done || lia). by apply lt_not_le.
Qed.

Lemma next_tick_bound e now next :
  engine_inv e → ord_le (me_now e) now = true → next_tick_at e = Ok next → not_due now next →
  nothing_due now e.
Proof.
  intros Hi Hle Hnext Hdue. destruct (ei_clock e Hi) as (_ & Hsent & Hping).
  destruct (ei_config e Hi) as (Hw & _ & _ & _ & Hk). pose proof (wo_ping_multiplier _ Hw) as Hp.
  unfold is_u32 in Hp. unfold is_u16 in Hk. unfold next_tick_at in Hnext.
  destruct (me_is_connected e) eqn:Hc; cbn [negb] in Hnext.
  - apply bind_Ok_inv in Hnext as (first & Hfirst & Hnext). injection Hnext as <-.
    apply time_min_due in Hdue as [Hdue Hall]. apply resend_min in Hdue as [Hfirst' Hresend].
    split; [by apply Forall_fmap in Hall|by rewrite Hc| | |done].
    + intros _ Hpos sent Hs. rewrite (proj2 (Z.ltb_lt _ _) Hpos), Hs in Hfirst.
      apply bind_Ok_inv in Hfirst as (d & Hd & Hfirst). unfold Duration_mul in Hd.
      destruct (_ <=? _) in Hd; [|done]. injection Hd as <-. unfold deadline_from in Hfirst.
      destruct (tp_checked_add sent _) as [u|] eqn:Hu; [|done]. injection Hfirst as <-.
      eapply not_reached; [|eapply ord_le_trans; [by apply Hping|done]|exact Hu|by apply Hfirst'].
      unfold Duration_from_secs. nia.
    + intros _ Hpos Hs Hauto. rewrite (proj2 (Z.ltb_lt _ _) Hpos), Hs, Hauto in Hfirst.
      unfold deadline_from in Hfirst.
      destruct (tp_checked_add (me_last_packet_sent e) _) as [u|] eqn:Hu; [|done]. injection Hfirst as <-.
      eapply not_reached; [lia|eapply ord_le_trans; [exact Hsent|done]|exact Hu|by apply Hfirst'].
  - injection Hnext as <-. apply time_min_due in Hdue as [Hdue Hall].
    split; [by apply Forall_fmap in Hall|done|by rewrite Hc..].
Qed.

(** ** The tick *)
Lemma no_deadline_expired now e :
  Forall (λ d : DeadlineKey * (T * Z), ord_lt now d.2.1 = true)
    (map_to_list (ps_deadlines (me_state e))) →
  List.filter (λ '(_, (at_, _)), ord_le at_ now) (iter_deadlines (ps_deadlines (me_state e))) = [].
Proof.
  rewrite <- (iter_deadlines_perm (T:=T)).
  induction 1 as [|[k [at_ d]] l Hd _ IH]; [done|]. simpl in *. by rewrite (lt_not_le _ _ Hd).
Qed.

Lemma idle_flush e Q : idle e → Q tt e → runs flush_responses e Q.
Proof.
  intros (Hr & _) HQ. unfold flush_responses. run_step. run_step. rewrite Hr. simpl. run_step. run_step.
  rewrite Hr. by run_step.
Qed.

Lemma idle_process_queue e Q : engine_inv e → idle e → Q tt e → runs process_queue e Q.
Proof.
  intros Hi Hidle HQ. unfold process_queue, process_queue_with_encoding. run_step. run_step.
  destruct (negb _) eqn:Hc; [by run_step|]. run_step. apply idle_flush; [done|]. run_step. run_step.
  rewrite Hc. destruct Hidle as (Hr & Hp & Hq). run_step.
  assert (Hreplay : ∀ P : () → MqttEngine T → Prop, P tt e → runs process_replay e P).
  { intros P HP. unfold process_replay. run_step. run_step. destruct (me_transport_manages_session e); [by run_step|].
    rewrite Hp. simpl. run_step. run_step. rewrite Hp. by run_step. }
  apply Hreplay. run_step. run_step. rewrite Hc, Hr, Hp. simpl.
  destruct (ei_queue e Hi) as ((Hwf & _) & _). run_step. run_step.
  rewrite (peek_ok _ Hwf), Hq. simpl. destruct (_ <? _); by run_step.
Qed.

Lemma no_retransmission now e Q :
  engine_inv e → ord_le (me_now e) now = true → check_time_range (me_options e) now = Ok () →
  not_due now (InflightQueue_next_expiration (me_inflight_queue e)) →
  Q tt (e <| me_inflight_queue ::= λ q, with_last_update q now |>) →
  runs (handle_retransmissions now) e Q.
Proof.
  intros Hi Hle Hrange Hdue HQ. unfold handle_retransmissions. run_step. run_step. run_step.
  apply runs_expect. exists ([], with_last_update (me_inflight_queue e) now). split; [|repeat run_step; exact HQ].
  destruct (ei_inflight e Hi) as (_ & Hlast & _ & Hto). destruct (ei_config e Hi) as (Hw & _).
  unfold InflightQueue_get_expired_with_stream_at, InflightQueue_check_time.
  replace (match iq_last_update _ with Some _ => _ | None => _ end) with false.
  2: { destruct (iq_last_update (me_inflight_queue e)) as [l|]; [|done].
       specialize (Hlast l eq_refl). symmetry. rewrite <- negb_true_iff, <- ord_le_not_lt.
       by eapply ord_le_trans. }
  rewrite bool_decide_true.
  2: { apply check_time_range_spec in Hrange as (ds & Hds & Hall); [|apply (wo_ping_multiplier _ Hw)].
       destruct (horizon_elements _ (wo_ping_multiplier _ Hw)) as (ds' & Hds' & _ & Hin & _).
       rewrite Hds in Hds'. injection Hds' as <-. rewrite Hto. by apply (proj1 (Forall_forall _ _) Hall). }
  cbn [negb andb orb]. rewrite andb_false_r. rsimp. unfold InflightQueue_next_expiration in Hdue.
  change (iq_deadline_queue (with_last_update (me_inflight_queue e) now)) with (iq_deadline_queue (me_inflight_queue e)).
  destruct (iq_deadline_queue (me_inflight_queue e)) as [|[id d] rest] eqn:Hdq; [done|].
  cbn [length expire_loop]. change (iq_deadline_queue (with_last_update (me_inflight_queue e) now))
    with (iq_deadline_queue (me_inflight_queue e)). rewrite Hdq. by rewrite (Hdue d eq_refl).
Qed.

Lemma quiet_inner now e :
  engine_inv e → me_now e = now → check_time_range (me_options e) now = Ok () → idle e →
  nothing_due now e →
  runs (handle_tick_inner now) e (λ events e', events = me_events e ∧ e' = quiet_tick now e).
Proof.
  intros Hi Hnow Hrange Hidle [Hd Hrec Hping Hka Hres]. unfold handle_tick_inner. run_step.
  unfold check_deadlines. run_step. run_step. rewrite no_deadline_expired by done. simpl. run_step.
  run_step. apply idle_flush; [done|]. run_step. run_step. unfold quiet_tick. simpl.
  destruct (me_is_connected e) eqn:Hc; simpl.
  - run_step. apply runs_lift. destruct (ping_timeout_defined e Hi) as [d Hdm]. exists d. split; [exact Hdm|].
    unfold Duration_mul in Hdm. destruct (_ <=? _) in Hdm; [|done]. injection Hdm as <-.
    assert (Hnp : ((0 <? Duration_from_secs (ps_keep_alive (me_state e)))
      && match me_ping_sent_at e with
         | Some sent => Duration_from_secs (ps_keep_alive (me_state e)) * mo_ping_timeout_multiplier (me_options e)
                          <=? tp_saturating_duration_since now sent
         | None => false end) = false).
    { destruct (Z.ltb_spec 0 (Duration_from_secs (ps_keep_alive (me_state e)))); [|done]. simpl.
      destruct (me_ping_sent_at e) as [sent|] eqn:Hs; [|done]. by apply Hping. }
    rewrite Hnp. run_step.
    assert (Hns : bool_decide (me_ping_sent_at e = None) && mo_auto_keepalive (me_options e)
      && (0 <? Duration_from_secs (ps_keep_alive (me_state e)))
      && (Duration_from_secs (ps_keep_alive (me_state e)) <=? tp_saturating_duration_since now (me_last_packet_sent e)) = false).
    { case_bool_decide as Hs; [|done]. destruct (mo_auto_keepalive (me_options e)) eqn:Ha; [|done].
      destruct (Z.ltb_spec 0 (Duration_from_secs (ps_keep_alive (me_state e)))); [|done]. by apply Hka. }
    rewrite Hns. run_step. run_step. apply idle_process_queue; [done|done|]. run_step.
    apply no_retransmission; [done|by rewrite Hnow; apply ord_le_refl|done|by apply Hres|].
    unfold take_events. repeat run_step. split; [done|]. rewrite <- Hnow. by destruct e.
  - run_step. specialize (Hrec eq_refl).
    assert (Hr : ∀ P : () → MqttEngine T → Prop, P tt e → runs (match me_next_reconnect_at e with
      | Some reconnect_at =>
          if ord_le reconnect_at now
          then push_event ReconnectNeeded;; modify (λ e, e <| me_next_reconnect_at := None |>)
          else mret ()
      | None => mret () end) e P).
    { intros P HP. destruct (me_next_reconnect_at e) as [at_|]; [|by run_step].
      rewrite (lt_not_le _ _ (Hrec _ eq_refl)). by run_step. }
    apply Hr. unfold take_events. repeat run_step. split; [done|]. rewrite <- Hnow. by destruct e.
Qed.
End timers.

(** ** Theorems *)

(** C30: sleeping until [next_tick_at] misses nothing.  On every engine a run leads to,
    [next_tick_at] returns (no deadline overflows), a time or that there is no timer; and if
    nothing is queued for output, a tick at any earlier time that is not before the engine's
    clock and within the representable range fires no timer: it sends nothing, expires no
    operation, starts no reconnection and retransmits nothing, it only notes the time and
    returns the events that were already waiting.  This covers a disconnected engine too, whose
    next time is that of the scheduled reconnection or of the earliest operation deadline. *)
Theorem next_tick_sound {T} `{TimePointLaws T} `{!Runtime T} `{!RuntimeLaws T} (e : MqttEngine T) :
  reachable e →
  ∃ next, next_tick_at e = Ok next ∧
    ∀ now, idle e → ord_le (me_now e) now = true → check_time_range (me_options e) now = Ok () →
      not_due now next → handle_tick_at now e = Ok (inr (me_events e), quiet_tick now e).
Proof.
  intros He%reachable_in_order. destruct (next_tick_defined e (proj1 He)) as [next Hnext].
  exists next. split; [done|]. intros now Hidle Hle Hrange Hdue.
  pose proof (next_tick_bound e now next (proj1 He) Hle Hnext Hdue) as Hnd.
  assert (Hrun : runs (handle_tick_at now) e (λ r e', r = inr (me_events e) ∧ e' = quiet_tick now e)).
  { unfold handle_tick_at, timed. run_step. eapply runs_mono.
    - apply runs_and; [by apply begin_update_step|].
      instantiate (1 := λ r e', r = inr () ∧ e' = e <| me_now := now |>).
      unfold begin_update. run_step. run_step. rewrite ord_le_not_lt in Hle.
      apply negb_true_iff in Hle. rewrite Hle. run_step. rewrite Hrange. repeat run_step. done.
    - intros r e' [Hb [-> ->]]. destruct Hb as [_ Hg]. run_step. eapply runs_mono.
      + apply quiet_inner; [apply Hg|done|done|done|]. by destruct Hnd.
      + intros events e' [-> ->]. by run_step. }
  apply runs_Ok in Hrun as (r & e' & Hrun & -> & ->). done.
Qed.

#[local] Existing Instance Runtime_ordered.
#[local] Existing Instance RuntimeLaws_ordered.

Lemma next_tick_sound_witness :
  let now := Timestamp_from_nanos 59000000000 in
  next_tick_at sample_engine = Ok (Some (Timestamp_from_nanos 60000000004)) ∧
  handle_tick_at now sample_engine = Ok (inr (me_events sample_engine), quiet_tick now sample_engine).
Proof.
  intros now. split; [vm_compute; reflexivity|].
  destruct (next_tick_sound sample_engine sample_engine_reachable) as (next & Hnext & Hquiet).
  apply (Hquiet now).
  - split; [vm_compute; reflexivity|]. split; vm_compute; reflexivity.
  - vm_compute. reflexivity.
  - vm_compute. reflexivity.
  - assert (next_tick_at sample_engine = Ok (Some (Timestamp_from_nanos 60000000004))) as Hn
      by (vm_compute; reflexivity).
    rewrite Hn in Hnext. injection Hnext as <-.
    intros t Ht. injection Ht as <-. vm_compute. reflexivity.
Defined.
