(* ===== verification/EngineDelivery.v ===== *)
(** * Delivery of incoming QoS 2 messages

    However many copies of a QoS 2 message arrive before its PUBREL, the application receives it
    once, and every copy is answered. *)
From S2P Require Import Prelude BaseData TopicFilter Validation Properties Packets Framing Codec.
From S2P Require Import Stream Leveled Time PriorityQueue ClientError Options ClientTypes.
From S2P Require Import Commands Inflight ClientSession EngineState EngineCore EngineProtocol.
From S2P Require Import Engine EncodeFacts EngineInv EngineSteps EngineSafety.

Section delivery.
Context {T : Type} `{TimePoint T, !Runtime T}.
Implicit Types (e : MqttEngine T) (publish : MqttPublish5) (stream : option Z).
Local Abbreviation M := (St (MqttEngine T)).

(** [n] copies of a publication in a row; the events and responses of all of them. *)
Fixpoint receive_copies (n : nat) publish stream : M (list MqttEvent * list MqttPacket) :=
  match n with
  | O => mret ([], [])
  | S n =>
      r ← receive_message publish stream;
      r' ← receive_copies n publish stream;
      mret (r.1 ++ r'.1, r.2 ++ r'.2)
  end.

(** A QoS 2 message with its topic, on [stream], under [id]. *)
Definition qos2_message publish (id : Z) : Prop :=
  p5_qos publish = 2 ∧ p5_packet_id publish = Some id ∧ id ≠ 0 ∧
  p5_topic_name publish ≠ [] ∧ omap topic_alias (p5_properties publish) = [].

Definition pubrec_of e (id : Z) : MqttPacket :=
  if mo_mqtt_version (me_options e) =? 5 then PubRec5 (PacketIdAck5_new id 0 [])
  else PubRec3 {| a3_message_id := id |}.

(** The exchange [key] has been delivered and not released. *)
Definition delivered_in (key : ReceivedKey) e : Prop :=
  key ∈ ps_received_on_connection (me_state e) ∧
  ps_received (me_state e) !! key = Some (if mo_auto_ack (me_options e) then RsPubRec else RsPublish 2).

Lemma resolve_named publish id e :
  qos2_message publish id → resolve_incoming publish e = Ok (inr publish, e).
Proof.
  intros (_ & _ & _ & Ht & Ha).
  assert (Hr : runs (resolve_incoming publish) e (λ r e', r = inr publish ∧ e' = e)).
  { unfold resolve_incoming. run_step. run_step. rewrite Ha. run_step. run_step.
    rewrite bool_decide_false by done. by run_step. }
  apply runs_Ok in Hr as (r & e' & Hr & -> & ->). exact Hr.
Qed.

Lemma pubrec_packet e id stream stage :
  id ≠ 0 → ps_received (me_state e) !! (stream, id) = Some stage →
  (stage = RsPublish 2 ∨ stage = RsPubRec) →
  manual_ack_packet e id 5 0 [] stream = Ok (pubrec_of e id).
Proof.
  intros Hid Hs Hst. unfold manual_ack_packet, pubrec_of. rewrite (proj2 (Z.eqb_neq _ _) Hid), Hs.
  destruct Hst as [-> | ->]; destruct (mo_mqtt_version (me_options e) =? 5); reflexivity.
Qed.
Lemma first_copy publish id stream e :
  qos2_message publish id → received_key e (stream, id) = None →
  ((stream, id) ∈ ps_received_on_connection (me_state e) ∨
   ps_incoming_quota_used (me_state e) < ps_incoming_receive_maximum (me_state e)) →
  runs (receive_message publish stream) e (λ r e',
    r = ([PublishReceived (Some id) stream; MessageReceived publish],
         if mo_auto_ack (me_options e) then [pubrec_of e id] else []) ∧
    me_options e' = me_options e ∧ delivered_in (stream, id) e').
Proof.
  intros Hm Hk Hq. pose proof Hm as (Hqos & Hpid & Hid & _).
  unfold receive_message. run_step. unfold runs at 1. rewrite (resolve_named _ _ _ Hm).
  rewrite Hqos, Hpid. run_step. unfold receive_publish. cbn [Z.ltb Z.compare Pos.compare].
  rewrite (proj2 (Z.eqb_neq _ _) Hid). run_step. run_step. rewrite Hk. cbv beta iota zeta.
  cbn [mbind option_bind]. run_step.
  assert (Hquota : ∀ Q : MqttClientError + () → MqttEngine T → Prop,
    (∀ e', me_options e' = me_options e → ps_received (me_state e') = ps_received (me_state e) →
      (stream, id) ∈ ps_received_on_connection (me_state e') → Q (inr ()) e') →
    runs (if negb (bool_decide ((stream, id) ∈ ps_received_on_connection (me_state e))) then
            if ps_incoming_receive_maximum (me_state e) <=? ps_incoming_quota_used (me_state e)
            then err (ProtocolViolation "Incoming Receive Maximum exceeded")
            else on_state (λ s, s <| ps_received_on_connection ::= λ r, {[(stream, id)]} ∪ r |>
                                  <| ps_incoming_quota_used ::= λ n, n + 1 |>);; ok ()
          else ok ()) e Q).
  { intros Q HQ. case_bool_decide as Hin; cbn [negb]; [run_step; by apply HQ|].
    destruct Hq as [Hq|Hq]; [done|]. rewrite (proj2 (Z.leb_gt _ _) Hq). unfold on_state.
    repeat run_step. apply HQ; [done|done|simpl; set_solver]. }
  apply Hquota. intros e1 Ho1 Hr1 Hc1. unfold on_state. repeat run_step. simpl. rewrite Ho1. rewrite lookup_insert_eq.
  rewrite bool_decide_false by done. rewrite orb_false_r.
  destruct (mo_auto_ack (me_options e)) eqn:Hauto.
  - run_step. apply runs_try; [|intros x Hx]; rewrite (pubrec_packet _ id stream (RsPublish 2)) in *;
      try done; try (simpl; by rewrite lookup_insert_eq); try (by left).
    cbn [safe]. run_step. unfold commit_receive_ack, on_state. cbn [Z.eqb Z.ltb Z.compare andb Pos.eqb].
    repeat run_step. split; [unfold pubrec_of; simpl; by rewrite Ho1|]. split; [done|]. split; [done|].
    simpl. rewrite Ho1, Hauto, lookup_alter_eq, lookup_insert_eq. done.
  - run_step. split; [done|]. split; [done|]. split; [done|]. simpl. by rewrite Ho1, Hauto, lookup_insert_eq.
Qed.

Lemma next_copy publish id stream e :
  qos2_message publish id → delivered_in (stream, id) e →
  runs (receive_message publish stream) e (λ r e',
    r = ([], if mo_auto_ack (me_options e) then [pubrec_of e id] else []) ∧
    me_options e' = me_options e ∧ delivered_in (stream, id) e').
Proof.
  intros Hm [Hc Hs]. pose proof Hm as (Hqos & Hpid & Hid & _).
  unfold receive_message. run_step. unfold runs at 1. rewrite (resolve_named _ _ _ Hm).
  rewrite Hqos, Hpid. run_step. unfold receive_publish. cbn [Z.ltb Z.compare Pos.compare].
  rewrite (proj2 (Z.eqb_neq _ _) Hid). run_step. run_step.
  assert (Hk : received_key e (stream, id) = Some (stream, id)).
  { unfold received_key. by rewrite Hs, bool_decide_true. }
  rewrite Hk. cbv beta iota zeta. cbn [mbind option_bind]. rewrite Hs.
  rewrite (bool_decide_false (_ = RsPublish 1)) by (by destruct (mo_auto_ack _)).
  cbn [Z.eqb Pos.eqb eqb negb]. run_step. rewrite bool_decide_true by done. cbn [negb]. run_step.
  run_step. unfold bind_received, on_state. run_step. run_step. rewrite bool_decide_false by (by intros []).
  repeat run_step. simpl. rewrite Hs. destruct (mo_auto_ack (me_options e)) eqn:Hauto.
  - cbn [orb]. run_step. apply runs_try; [|intros x Hx]; rewrite (pubrec_packet _ id stream RsPubRec) in *;
      try done; try (by right).
    cbn [safe]. run_step. unfold commit_receive_ack, on_state. cbn [Z.eqb Z.ltb Z.compare andb Pos.eqb].
    repeat run_step. split; [done|]. split; [done|]. split; [done|].
    simpl. by rewrite Hauto, lookup_alter_eq, Hs.
  - rewrite bool_decide_false by done. cbn [orb]. run_step. split; [done|]. split; [done|].
    split; [done|]. simpl. by rewrite Hauto.
Qed.

Lemma next_copies publish id stream n : ∀ e,
  qos2_message publish id → delivered_in (stream, id) e →
  runs (receive_copies n publish stream) e (λ r e',
    r = ([], if mo_auto_ack (me_options e) then replicate n (pubrec_of e id) else []) ∧
    me_options e' = me_options e ∧ delivered_in (stream, id) e').
Proof.
  induction n as [|n IH]; intros e Hm Hd; cbn [receive_copies].
  { run_step. by destruct (mo_auto_ack _). }
  run_step. eapply runs_mono; [by eapply next_copy|]. intros r e1 (-> & Ho & Hd1).
  run_step. eapply runs_mono; [by apply IH|]. intros r e2 (-> & Ho2 & Hd2). run_step.
  unfold pubrec_of. rewrite Ho2, Ho. split; [by destruct (mo_auto_ack _)|done].
Qed.
End delivery.

(** ** Theorems *)

(** C15: incoming QoS 2 messages are delivered exactly once.  When a message arrives under an
    identifier no open exchange uses, and the receive maximum the client announced leaves room,
    then however many copies the broker sends before the PUBREL, the application receives the
    message once, the exchange stays open, and with automatic acknowledgement every copy is
    answered by a PUBREC. *)
Theorem qos2_delivered_once {T} `{TimePoint T, !Runtime T} (e : MqttEngine T) publish id stream n :
  qos2_message publish id → received_key e (stream, id) = None →
  ((stream, id) ∈ ps_received_on_connection (me_state e) ∨
   ps_incoming_quota_used (me_state e) < ps_incoming_receive_maximum (me_state e)) →
  ∃ e', receive_copies (S n) publish stream e =
    Ok (([PublishReceived (Some id) stream; MessageReceived publish],
         if mo_auto_ack (me_options e) then replicate (S n) (pubrec_of e id) else []), e') ∧
    is_Some (ps_received (me_state e') !! (stream, id)).
Proof.
  intros Hm Hk Hq. assert (Hrun : runs (receive_copies (S n) publish stream) e (λ r e',
    r = ([PublishReceived (Some id) stream; MessageReceived publish],
         if mo_auto_ack (me_options e) then replicate (S n) (pubrec_of e id) else []) ∧
    delivered_in (stream, id) e')).
  { cbn [receive_copies]. run_step. eapply runs_mono; [by eapply first_copy|]. intros r e1 (-> & Ho & Hd).
    run_step. eapply runs_mono; [by apply next_copies|]. intros r e2 (-> & Ho2 & Hd2). run_step.
    unfold pubrec_of. rewrite Ho. split; [by destruct (mo_auto_ack _)|done]. }
  apply runs_Ok in Hrun as (r & e' & Hrun & -> & _ & Hs). exists e'. split; [done|]. eauto.
Qed.

#[local] Existing Instance Runtime_ordered.

Definition sample_incoming : MqttPublish5 :=
  MqttPublish5_new_with_prop 2 (str "a/b") (Some 5) [1; 2] false false [].

Lemma qos2_delivered_once_witness :
  ∃ e', receive_copies 3 sample_incoming None sample_engine =
    Ok (([PublishReceived (Some 5) None; MessageReceived sample_incoming],
         if mo_auto_ack (me_options sample_engine)
         then replicate 3 (pubrec_of sample_engine 5) else []), e') ∧
    is_Some (ps_received (me_state e') !! (None, 5)).
Proof.
  apply qos2_delivered_once.
  - repeat split; done.
  - vm_compute. reflexivity.
  - right. vm_compute. reflexivity.
Defined.
