(* ===== verification/EngineFindings.v ===== *)
(** * Ways to break the engine, and what its timer says

    The theorem [engine_never_panics] has two hypotheses beyond well-typed arguments: the client
    keeps its session, and a message with QoS 0 carries no packet identifier.  Neither can be
    dropped: without them a packet identifier can be released while another message still owns
    it, is handed out again, and the [expect] of [process_queue] fails. *)
From S2P Require Import Prelude BaseData TopicFilter Validation Properties Packets Framing Codec.
From S2P Require Import Stream Leveled Time PriorityQueue ClientError Options ClientTypes.
From S2P Require Import Commands Inflight ClientSession EngineState EngineCore EngineProtocol.
From S2P Require Import Engine EncodeFacts EngineInv EngineSteps EngineQueues EngineHandlers.
From S2P Require Import EngineConnect EngineReceive EngineInput EngineSafety.
#[local] Existing Instance Runtime_ordered.

Definition at_nanos (l : list (EngineCall * Z)) : list (EngineCall * Timestamp) :=
  (λ c, (c.1, Timestamp_from_nanos c.2)) <$> l.

(** A message on topic "a" with a chosen packet identifier. *)
Definition message (qos : Z) (retain : bool) (id priority : Z) : PublishCommand :=
  PublishCommand_with_priority (str "a") (str "x") qos retain priority
    <| pc_packet_id := Some id |>.

Definition two_messages : MqttClientOptions :=
  MqttClientOptions_default <| mo_receive_maximum := 2 |>.

Lemma two_messages_wf sessionless :
  wf_options (two_messages <| mo_sessionless := sessionless |>).
Proof. destruct default_options_wf. by split. Qed.

(** The arguments have the types the compiler demands; the QoS 0 rule is left out. *)
Definition typed_call (call : EngineCall) : Prop :=
  match call with
  | CallPublish c | CallPublishEncoded c _ =>
      wf_str (pc_topic_name c) ∧ is_u8 (pc_qos c) ∧ wf_opt is_u16 (pc_packet_id c) ∧
      u8s (pc_payload c) ∧ Forall wf_property (pc_properties c)
  | _ => call_ok call
  end.

Lemma message_typed qos retain id priority :
  is_u8 qos → is_u16 id → typed_call (CallPublish (message qos retain id priority)).
Proof.
  intros Hq Hid. split; [by repeat split; try u8s_lit|]. split; [done|]. split; [done|].
  split; [cbn; u8s_lit|constructor].
Qed.

Ltac typed_calls :=
  apply Forall_fmap; repeat (apply Forall_cons_2;
    [first [exact I|apply message_typed; by split; vm_compute|unfold compose; simpl; u8s_lit]|]);
  apply Forall_nil_2.

(** Messages 1 and 2 use up the quota.  A retained QoS 0 message and a QoS 1 message both carry
    identifier 9; the broker refuses retained messages, and refusing the first one releases the
    identifier of the second.  A third message is given it, and when both are sent the
    inflight queue refuses the second. *)
Definition qos0_calls : list (EngineCall * Timestamp) := at_nanos
  [(CallPublish (message 1 false 1 255), 1); (CallPublish (message 1 false 2 255), 2);
   (CallPublish (message 0 true 9 128), 3); (CallPublish (message 1 false 9 1), 4);
   (CallConnect, 5); (CallIncoming [32; 5; 0; 0; 2; 37; 0], 6);
   (CallPublish (message 1 false 9 1), 7); (CallIncoming [64; 2; 0; 1; 64; 2; 0; 2], 8)].

(** A QoS 0 message with a packet identifier can make the engine panic. *)
Theorem qos0_identifier_panics :
  ∃ options calls, wf_options options ∧ mo_sessionless options = false ∧
    Forall (λ c, typed_call c.1) calls ∧
    run_calls calls (MqttEngine_new_at options (Timestamp_from_nanos 0)) = Panic.
Proof.
  exists (two_messages <| mo_sessionless := false |>), qos0_calls.
  split; [apply two_messages_wf|]. split; [done|]. split; [|vm_compute; reflexivity].
  unfold qos0_calls, at_nanos. typed_calls.
Qed.

(** The handshake with message 7 is collected by the second CONNECT, and ended by the loss of
    the connection, but stays collected.  The identifier is used again for a queued message,
    and the next CONNACK ends the collected handshake once more: the identifier of the queued
    message is released. *)
Definition sessionless_calls : list (EngineCall * Timestamp) := at_nanos
  [(CallConnect, 1); (CallIncoming [32; 3; 0; 0; 0], 2); (CallPublish (message 1 false 7 128), 3);
   (CallDisconnect 0 [], 4); (CallConnect, 5); (CallConnectionLost, 6);
   (CallPublish (message 1 false 8 128), 7); (CallPublish (message 1 false 9 128), 7);
   (CallPublish (message 1 false 7 128), 7); (CallConnect, 8);
   (CallIncoming [32; 3; 0; 0; 0], 9); (CallPublish (message 1 false 7 128), 10);
   (CallIncoming [64; 2; 0; 8; 64; 2; 0; 9], 11)].

(** With [sessionless] set, a lost connection can make the engine panic. *)
Theorem sessionless_panics :
  ∃ options calls, wf_options options ∧ mo_sessionless options = true ∧
    Forall (λ c, call_ok c.1) calls ∧
    run_calls calls (MqttEngine_new_at options (Timestamp_from_nanos 0)) = Panic.
Proof.
  exists (two_messages <| mo_sessionless := true |>), sessionless_calls.
  split; [apply two_messages_wf|]. split; [done|]. split; [|vm_compute; reflexivity].
  assert (Hm : ∀ id, is_u16 id → call_ok (CallPublish (message 1 false id 128))).
  { intros id Hid. destruct (message_typed 1 false id 128) as (? & ? & ? & ? & ?); [by split; vm_compute|done|].
    by split_and!. }
  unfold sessionless_calls, at_nanos. apply Forall_fmap. repeat (apply Forall_cons_2;
    [first [exact I|apply Hm; by split; vm_compute|unfold compose; simpl; u8s_lit]|]).
  apply Forall_nil_2.
Qed.

(** A disconnected client does have a next tick: the time of the scheduled reconnection. *)
Definition lost_calls : list (EngineCall * Timestamp) := at_nanos
  [(CallConnect, 1); (CallIncoming [32; 3; 0; 0; 0], 2); (CallConnectionLost, 3)].

(** [next_tick_at] is not [None] during disconnection. *)
Theorem next_tick_while_disconnected :
  ∃ e, run_calls lost_calls (MqttEngine_new_at (MqttClientOptions_default <| mo_reconnect := true |>)
                               (Timestamp_from_nanos 0)) = Ok ((), e) ∧
    me_is_connected e = false ∧ ∃ t, next_tick_at e = Ok (Some t).
Proof.
  eexists. split; [vm_compute; reflexivity|]. split; [reflexivity|]. eexists. vm_compute. reflexivity.
Qed.
