(* ===== verification/EngineSession.v ===== *)
(** * Checkpoints of a session

    Models [src/mqtt_client/engine/session_state.rs] and the data of
    [src/mqtt_session/client_store.rs]: the checkpoint of an engine, the validation of a
    checkpoint that was read from storage, and restoring it into a fresh engine.  A checkpoint
    is untrusted: restoring it is proved to end in the engine's invariant or to change nothing. *)
From stdpp Require Import sorting.
From S2P Require Import Prelude BaseData TopicFilter Validation Properties Packets Framing Codec.
From S2P Require Import Stream Leveled Time PriorityQueue ClientError Options ClientTypes.
From S2P Require Import Commands Inflight ClientSession EngineState EngineCore EngineProtocol.
From S2P Require Import Engine EncodeFacts EngineInv EngineSteps EngineQueues EngineHandlers.
From S2P Require Import EngineConnect EngineReceive EngineInput EngineSafety.

Inductive ReceivedStage : Type := SavedPublish | SavedPubRec | SavedPubRel.
#[export] Instance ReceivedStage_eq_dec : EqDecision ReceivedStage.
Proof. solve_decision. Defined.

Record ReceivedExchange : Type := {
  re_stream : option Z;
  re_packet_id : Z;
  re_stage : ReceivedStage;
}.

Record ClientSessionState : Type := {
  css_version : Z;
  css_peer : bytes;
  css_client_id : bytes;
  css_mqtt_version : Z;
  css_has_session : bool;
  css_session_expiry_interval : Z;
  css_packet_id_counter : Z;
  css_outbound : list (Z * MqttPacket);
  css_queued : list (Z * MqttPacket);
  css_received : list ReceivedExchange;
}.
Definition VERSION : Z := 1.

Definition session_invalid (reason : string) : MqttClientError :=
  InvalidConfiguration "session state" reason.

Definition canonical (packet : MqttPacket) : MqttPacket := strip_alias packet.

(** What [packet_id] looks at in a publication: QoS, identifier, topic, DUP. *)
Definition saved_publication (packet : MqttPacket) (mqtt_version : Z)
    : result MqttClientError (option (Z * option Z * bytes * bool)) :=
  match packet with
  | Publish5 p =>
      if mqtt_version =? 5 then
        if existsb is_TopicAlias (p5_properties p)
        then Err (session_invalid "Saved publications must not contain topic aliases")
        else Ok (Some (p5_qos p, p5_packet_id p, p5_topic_name p, p5_dup p))
      else Ok None
  | Publish3 p =>
      if mqtt_version =? 5 then Ok None
      else Ok (Some (p3_qos p, p3_message_id p, p3_topic_name p, p3_dup p))
  | _ => Ok None
  end.

(** The identifier of a saved packet, or why it is refused. *)
Definition saved_packet_id (packet : MqttPacket) (mqtt_version : Z) (queued : bool)
    : result MqttClientError (option Z) :=
  publish ← saved_publication packet mqtt_version;
  match publish with
  | Some (qos, id, topic, dup) =>
      if (2 <? qos) || bool_decide (topic = [])
         || (contains_char topic HASH || contains_char topic PLUS || contains_char topic 0)
         || ((qos =? 0) && (bool_decide (is_Some id) || dup || negb queued))
         || ((0 <? qos) && match id with
                           | Some id => negb ((1 <=? id) && (id <=? u16_MAX))
                           | None => true
                           end)
      then Err (session_invalid "Invalid saved publication") else Ok id
  | None =>
      if queued then Err (session_invalid "Only publications may be queued") else
      let v5 := mqtt_version =? 5 in
      id ← match packet, v5 with
           | PubRel5 p, true => Ok (a5_packet_id p)
           | Subscribe5 p, true => Ok (s5_packet_id p)
           | Unsubscribe5 p, true => Ok (u5_packet_id p)
           | PubRel3 p, false => Ok (a3_message_id p)
           | Subscribe3 p, false => Ok (s3_message_id p)
           | Unsubscribe3 p, false => Ok (u3_message_id p)
           | _, _ => Err (session_invalid "Invalid outstanding packet type or MQTT version")
           end;
      if id =? 0 then Err (session_invalid "Saved packet identifiers must be nonzero")
      else Ok (Some id)
  end.

(** The order of [sort_by_key(|entry| (entry.stream, entry.packet_id))]. *)
Definition exchange_le (a b : ReceivedExchange) : Prop :=
  match re_stream a, re_stream b with
  | None, None => re_packet_id a <= re_packet_id b
  | None, Some _ => True
  | Some _, None => False
  | Some s, Some s' => s < s' ∨ s = s' ∧ re_packet_id a <= re_packet_id b
  end.
#[export] Instance exchange_le_dec : RelDecision exchange_le.
Proof. intros a b. unfold exchange_le. destruct (re_stream a), (re_stream b); apply _. Defined.

Definition saved_stage (stage : ReceiveStage) : option ReceivedStage :=
  match stage with
  | RsPublish q => if q =? 2 then Some SavedPublish else None
  | RsPubRec => Some SavedPubRec
  | RsPubRel => Some SavedPubRel
  end.
Definition restored_stage (stage : ReceivedStage) : ReceiveStage :=
  match stage with
  | SavedPublish => RsPublish 2
  | SavedPubRec => RsPubRec
  | SavedPubRel => RsPubRel
  end.

Definition saved_exchange (entry : ReceivedKey * ReceiveStage) : option ReceivedExchange :=
  (λ stage, {| re_stream := entry.1.1; re_packet_id := entry.1.2; re_stage := stage |})
  <$> saved_stage entry.2.

Section session.
Context {T : Type} `{TimePoint T, !Runtime T}.
Implicit Types (self e : MqttEngine T).
Local Abbreviation M := (St (MqttEngine T)).

Definition snapshot_session self : result MqttClientError ClientSessionState :=
  let options := me_options self in
  if mo_sessionless options || bool_decide (mo_client_id options = [])
  then Err (session_invalid "Checkpointing requires session tracking and a client ID") else
  let outbound := filter (λ p, p.1 ∈ ps_reserved (me_state self)) (me_previous_inflight self) in
  match refresh_previous (InflightQueue_snapshot_for_reconnect (me_inflight_queue self)
                          ++ me_session_replay self) (positions_of outbound) outbound with
  | Ok outbound =>
      Ok {| css_version := VERSION;
            css_peer := mo_peer options;
            css_client_id := mo_client_id options;
            css_mqtt_version := mo_mqtt_version options;
            css_has_session := ps_has_session (me_state self);
            css_session_expiry_interval := ps_session_expiry (me_state self);
            css_packet_id_counter := from_option cs_packet_id_counter 0 (me_session self);
            css_outbound := (λ p, (p.1, canonical p.2)) <$> outbound;
            css_queued := (λ p, (p.1, canonical p.2)) <$> PriorityQueue_iter (me_priority_queue self);
            css_received := merge_sort exchange_le
              (omap saved_exchange (map_to_list (ps_received (me_state self)))) |}
  | _ => Panic
  end.

(** The loop over the outstanding packets: the identifiers and the largest encoding. *)
Fixpoint restore_outbound (version : Z) (outbound : list (Z * MqttPacket)) (reserved : gset Z)
    (replay_reserve : Z) : result MqttClientError (gset Z * Z) :=
  match outbound with
  | [] => Ok (reserved, replay_reserve)
  | (id, packet) :: outbound =>
      pid ← saved_packet_id packet version false;
      if bool_decide (pid ≠ Some id) || bool_decide (id ∈ reserved)
      then Err (session_invalid "Duplicate or inconsistent outstanding packet identifier") else
      encoded ← map_parse_error (MqttPacket_to_bytes packet);
      restore_outbound version outbound ({[id]} ∪ reserved) (Z.max replay_reserve (zlen encoded))
  end.

(** The loop over the queued publications. *)
Fixpoint restore_queued (version : Z) (queued : list (Z * MqttPacket)) (reserved : gset Z)
    (replay_reserve : Z) (queue : PriorityQueue (P:=Z) (T:=MqttPacket)) (queued_bytes : Z)
    : result MqttClientError (gset Z * Z * PriorityQueue (P:=Z) (T:=MqttPacket) * Z) :=
  match queued with
  | [] => Ok (reserved, replay_reserve, queue, queued_bytes)
  | (priority, packet) :: queued =>
      id ← saved_packet_id packet version true;
      if match id with Some id => bool_decide (id ∈ reserved) | None => false end
      then Err (session_invalid "Duplicate queued packet identifier") else
      encoded ← map_parse_error (MqttPacket_to_bytes packet);
      match PriorityQueue_enqueue queue priority packet with
      | Ok queue =>
          restore_queued version queued
            (match id with Some id => {[id]} ∪ reserved | None => reserved end)
            (match id with Some _ => Z.max replay_reserve (zlen encoded) | None => replay_reserve end)
            queue (usize_saturating_add queued_bytes (zlen encoded))
      | _ => Panic
      end
  end.

(** The loop over the incoming QoS 2 exchanges. *)
Fixpoint restore_received (has_session : bool) (entries : list ReceivedExchange)
    (received : gmap ReceivedKey ReceiveStage)
    : result MqttClientError (gmap ReceivedKey ReceiveStage) :=
  match entries with
  | [] => Ok received
  | entry :: entries =>
      let key := (re_stream entry, re_packet_id entry) in
      if negb has_session || (re_packet_id entry =? 0)
         || bool_decide (is_Some (received !! key))
      then Err (session_invalid "Invalid or duplicate incoming QoS 2 exchange") else
      restore_received has_session entries (<[key := restored_stage (re_stage entry)]> received)
  end.

(** Everything that is checked before anything is changed. *)
Definition check_saved self (saved : ClientSessionState)
    : result MqttClientError (gset Z * Z * PriorityQueue (P:=Z) (T:=MqttPacket) * Z * Z
                              * gmap ReceivedKey ReceiveStage) :=
  let options := me_options self in
  if bool_decide (is_Some (me_session self)) || me_is_connected self
     || ps_connecting (me_state self) || negb (bool_decide (ps_reserved (me_state self) = ∅))
     || negb (PriorityQueue_is_empty (me_priority_queue self))
     || negb (bool_decide (me_outgoing_buffer self = []))
  then Err (InvalidState "a fresh engine before CONNECT or commands" "engine already in use") else
  if negb (css_version saved =? VERSION)
  then Err (session_invalid "Unsupported session state version") else
  if mo_sessionless options || mo_clean_start options
  then Err (session_invalid "Resumption requires session tracking and clean_start(false)") else
  if bool_decide (css_client_id saved = [])
     || bool_decide (css_client_id saved ≠ mo_client_id options)
     || bool_decide (css_peer saved ≠ mo_peer options)
     || negb (css_mqtt_version saved =? mo_mqtt_version options)
     || negb ((3 <=? css_mqtt_version saved) && (css_mqtt_version saved <=? 5))
  then Err (session_invalid "Saved broker/client identity or MQTT version does not match") else
  if mo_max_outgoing_packet_count options <? zlen (css_queued saved)
  then Err (session_invalid "Saved publications exceed the configured queue capacity") else
  '(reserved, replay_reserve) ← restore_outbound (css_mqtt_version saved) (css_outbound saved) ∅ 0;
  '(reserved, replay_reserve, queue, queued_bytes) ←
    restore_queued (css_mqtt_version saved) (css_queued saved) reserved replay_reserve
      (PriorityQueue_new (mo_max_outgoing_packet_count options)) 0;
  connect ← connect_packet self;
  encoded ← map_parse_error (MqttPacket_to_bytes connect);
  let control_reserve := Z.max (zlen encoded) 6 in
  _ ← check_output_capacity self
        (usize_saturating_add queued_bytes (Z.max control_reserve replay_reserve));
  received ← restore_received (css_has_session saved) (css_received saved) ∅;
  Ok (reserved, replay_reserve, queue, queued_bytes, control_reserve, received).

Definition restore_session_state (saved : ClientSessionState) : M (MqttClientError + ()) :=
  e ← get_st;
  '(reserved, replay_reserve, queue, queued_bytes, control_reserve, received) ←?
    try (check_saved e saved);
  let session := ClientSession_restore_packet_id_counter ClientSession_new
                   (css_packet_id_counter saved) in
  modify (λ e, e <| me_session := Some session |> <| me_previous_inflight := css_outbound saved |>
                 <| me_priority_queue := queue |>);;
  on_state (λ s, s <| ps_reserved := reserved |> <| ps_queued_bytes := queued_bytes |>
                   <| ps_control_reserve := control_reserve |>
                   <| ps_replay_reserve := replay_reserve |>
                   <| ps_has_session := css_has_session saved |>
                   <| ps_session_expiry := css_session_expiry_interval saved |>
                   <| ps_received_unbound := dom received |> <| ps_received := received |>
                   <| ps_input_closed := true |>);;
  ok ().
End session.

(** ** Validation *)

(** What the application can hand over: machine integers and packets of the right types, whose
    queued encodings fit the address space. *)
Definition typed_saved (saved : ClientSessionState) : Prop :=
  is_u16 (css_packet_id_counter saved) ∧ Forall (λ p, wf_packet p.2) (css_outbound saved) ∧
  Forall (λ p, wf_packet p.2) (css_queued saved) ∧
  total_len (css_queued saved).*2 <= u64_MAX.

Lemma saved_packet_id_no_panic packet v queued : saved_packet_id packet v queued ≠ Panic.
Proof.
  unfold saved_packet_id, saved_publication.
  destruct packet; destruct (v =? 5); rsimp; repeat (case_match; rsimp; try done).
Qed.

Lemma alias_free_canonical (p : MqttPublish5) :
  existsb is_TopicAlias (p5_properties p) = false → canonical (Publish5 p) = Publish5 p.
Proof.
  intros Ha. unfold canonical, strip_alias. do 2 f_equal.
  destruct p as [? ? ? ? ? ? ps]; simpl in *. f_equal.
  induction ps as [|q ps IH]; simpl in *; [done|]. apply orb_false_iff in Ha as [-> Ha]. simpl.
  by rewrite IH.
Qed.

Lemma saved_canonical packet v queued id :
  saved_packet_id packet v queued = Ok id → canonical packet = packet.
Proof.
  unfold saved_packet_id, saved_publication. destruct packet; try done.
  destruct (v =? 5); [|by destruct queued].
  destruct (existsb is_TopicAlias _) eqn:Ha; [done|]. intros _. by apply alias_free_canonical.
Qed.

Lemma publication_accepted (qos : Z) (id : option Z) (topic : bytes) (dup queued : bool) :
  (2 <? qos) || bool_decide (topic = [])
  || (contains_char topic HASH || contains_char topic PLUS || contains_char topic 0)
  || ((qos =? 0) && (bool_decide (is_Some id) || dup || negb queued))
  || ((0 <? qos) && match id with
                    | Some id => negb ((1 <=? id) && (id <=? u16_MAX))
                    | None => true
                    end) = false →
  0 <= qos → topic ≠ [] ∧ (is_Some id ↔ (0 <? qos) = true) ∧ (∀ i, id = Some i → i ≠ 0).
Proof.
  rewrite !orb_false_iff, bool_decide_eq_false. intros ((((_ & Ht) & _) & Hz) & Hp) Hq.
  split; [done|]. destruct (Z.eqb_spec qos 0) as [->|Hne]; simpl in *.
  - rewrite !orb_false_iff, bool_decide_eq_false in Hz. destruct Hz as ((Hn & _) & _).
    split; [done|]. intros i ->. destruct Hn. eauto.
  - replace (0 <? qos) with true in * by lia. destruct id as [i|]; simpl in *; [|done].
    split; [done|]. intros ? [= <-]. lia.
Qed.

(** A queued packet that passes is a publication with an identifier exactly when it needs one. *)
Lemma saved_queued packet v id :
  wf_packet packet → saved_packet_id packet v true = Ok id →
  is_publish packet = true ∧ topic_set packet ∧ queued_id packet = id ∧
  (is_Some id ↔ needs_ack packet = true) ∧ (∀ i, id = Some i → i ≠ 0).
Proof.
  unfold saved_packet_id, saved_publication. intros Hw. destruct packet; try done;
    destruct (v =? 5); try done; [destruct (existsb _ _); [done|]|]; rsimp;
    (destruct (_ || _) eqn:Hb; [done|]); intros [= <-];
    (apply (publication_accepted _ _ _ _ true) in Hb; [|destruct Hw as (_ & Hu & _); unfold is_u8 in Hu; lia]);
    destruct Hb as (? & ? & ?); done.
Qed.

Lemma saved_outstanding packet v id :
  wf_packet packet → saved_packet_id packet v false = Ok (Some id) → id ≠ 0.
Proof.
  unfold saved_packet_id, saved_publication. intros Hw. destruct packet; try done;
    destruct (v =? 5); try done; try (destruct (existsb _ _); [done|]); rsimp.
  all: try (match goal with |- (if ?x =? 0 then _ else _) = _ → _ => destruct (Z.eqb_spec x 0) as [|Hn] end;
            [done|intros [= <-]; exact Hn]).
  all: (destruct (_ || _) eqn:Hb; [done|]); intros [= Hid];
    (apply (publication_accepted _ _ _ _ false) in Hb; [|destruct Hw as (_ & Hu & _); unfold is_u8 in Hu; lia]);
    destruct Hb as (_ & _ & Hi); by apply Hi.
Qed.

(** ** The loops *)
Section loops.
Context {T : Type} `{!Runtime T}.

Definition outstanding_ok (v : Z) (p : Z * MqttPacket) : Prop :=
  saved_packet_id p.2 v false = Ok (Some p.1).

Lemma restore_outbound_spec v l : ∀ R r,
  restore_outbound v l R r ≠ Panic ∧
  ∀ R' r', restore_outbound v l R r = Ok (R', r') →
    R' = list_to_set l.*1 ∪ R ∧ NoDup l.*1 ∧ (∀ id, id ∈ l.*1 → id ∉ R) ∧
    Forall (outstanding_ok v) l.
Proof.
  induction l as [|[id packet] l IH]; intros R r; cbn [restore_outbound].
  { split; [done|]. intros R' r' [= <- <-]. split; [set_solver|]. split; [constructor|].
    split; [set_solver|constructor]. }
  pose proof (saved_packet_id_no_panic packet v false).
  destruct (saved_packet_id packet v false) as [pid| |] eqn:Hp; rsimp; [|done|done].
  destruct (bool_decide (pid ≠ Some id)) eqn:Hd; [done|]. apply bool_decide_eq_false in Hd.
  apply dec_stable in Hd as ->. case_bool_decide as Hin; [done|]. simpl.
  pose proof (map_parse_error_no_panic (T:=T) packet).
  destruct (map_parse_error _) as [bs| |]; rsimp; [|done|done].
  destruct (IH ({[id]} ∪ R) (Z.max r (zlen bs))) as [Hnp Hok]. split; [done|].
  intros R' r' Hr. destruct (Hok R' r' Hr) as (-> & Hn & Hd & Hf). cbn [fmap list_fmap fst].
  split; [set_solver|]. split; [apply NoDup_cons; split; [|done]; intros Hi; specialize (Hd id Hi); set_solver|].
  split; [|by constructor]. intros i [->|Hi]%elem_of_cons; [done|]. specialize (Hd i Hi). set_solver.
Qed.

Definition saved_item_ok (v : Z) (p : Z * MqttPacket) : Prop :=
  saved_packet_id p.2 v true = Ok (queued_id p.2) ∧ is_Ok (MqttPacket_to_bytes p.2) = true.

Lemma saved_queued_id packet v id : saved_packet_id packet v true = Ok id → queued_id packet = id.
Proof.
  unfold saved_packet_id, saved_publication. destruct packet; try done;
    destruct (v =? 5); try done; try (destruct (existsb _ _); [done|]); rsimp;
    (destruct (_ || _); [done|]); by intros [= <-].
Qed.

Lemma encoded_len_Ok packet bs :
  map_parse_error (T:=T) (MqttPacket_to_bytes packet) = Ok bs →
  is_Ok (MqttPacket_to_bytes packet) = true ∧ encoded_len packet = zlen bs.
Proof. unfold encoded_len. destruct (MqttPacket_to_bytes packet); simpl; by intros [= ->]. Qed.

Lemma restore_queued_spec v l : ∀ R r q n,
  pq_inv q → descending (contents q) → zlen (contents q) + zlen l <= pq_capacity q →
  restore_queued v l R r q n ≠ Panic ∧
  ∀ R' r' q' n', restore_queued v l R r q n = Ok (R', r', q', n') →
    enqueue_all q l = Ok q' ∧ R' = list_to_set (queued_ids l.*2) ∪ R ∧
    NoDup (queued_ids l.*2) ∧ (∀ id, id ∈ queued_ids l.*2 → id ∉ R) ∧
    Forall (saved_item_ok v) l ∧
    (0 <= n → n + total_len l.*2 <= u64_MAX → n' = n + total_len l.*2).
Proof.
  induction l as [|[priority packet] l IH]; intros R r q n Hinv Hdesc Hcap; cbn [restore_queued].
  { split; [done|]. intros R' r' q' n' [= <- <- <- <-]. split; [done|]. split; [set_solver|].
    split; [constructor|]. split; [set_solver|]. split; [constructor|]. simpl. lia. }
  pose proof (saved_packet_id_no_panic packet v true).
  destruct (saved_packet_id packet v true) as [id| |] eqn:Hp; rsimp; [|done|done].
  pose proof (saved_queued_id _ _ _ Hp) as Hid.
  destruct (match id with Some _ => _ | None => _ end) eqn:Hfresh; [done|].
  pose proof (map_parse_error_no_panic (T:=T) packet).
  destruct (map_parse_error _) as [bs| |] eqn:Hbs; rsimp; [|done|done].
  apply encoded_len_Ok in Hbs as [Henc Hlen]. rewrite zlen_cons in Hcap.
  pose proof (zlen_nonneg (contents q)). pose proof (zlen_nonneg l).
  destruct (enqueue_ok q priority packet Hinv ltac:(lia)) as (q1 & Hq1 & Hinv1 & Hc1 & Hcap1).
  rewrite Hq1. unfold enqueue_spec in Hc1. rewrite push_size in Hc1.
  replace (_ <? _) with false in Hc1 by lia.
  edestruct (IH (match id with Some id => {[id]} ∪ R | None => R end)) as [Hnp Hok]; [exact Hinv1|..].
  { rewrite Hc1. by apply insert_stable_descending. }
  { rewrite Hc1, push_size, Hcap1. lia. }
  split; [exact Hnp|]. intros R' r' q' n' Hr. destruct (Hok R' r' q' n' Hr) as (Hq & -> & Hn & Hd & Hf & Hb).
  rewrite fmap_cons. unfold queued_ids in *. cbn [enqueue_all omap list_omap snd]. rewrite Hq1, Hid.
  split; [exact Hq|]. split_and!.
  - destruct id; set_solver.
  - destruct id as [i|]; [|done]. apply NoDup_cons. split; [|done]. intros Hi. specialize (Hd i Hi). set_solver.
  - destruct id as [i|]; [|done]. case_bool_decide; [done|]. intros j [->|Hj]%elem_of_cons; [done|].
    specialize (Hd j Hj). set_solver.
  - constructor; [|done]. split; [simpl; by rewrite Hid|done].
  - cbn [total_len foldr snd]. fold (total_len l.*2). rewrite Hlen. intros Hn0 Hmax.
    assert (Ht : 0 <= total_len l.*2) by apply total_len_nonneg.
    unfold usize_saturating_add in Hb. pose proof (zlen_nonneg bs).
    rewrite Z.min_r in Hb by lia. lia.
Qed.
End loops.

(** ** Incoming exchanges *)
Definition exchange_key (x : ReceivedExchange) : ReceivedKey := (re_stream x, re_packet_id x).
Definition exchange_entry (x : ReceivedExchange) : ReceivedKey * ReceiveStage :=
  (exchange_key x, restored_stage (re_stage x)).

Lemma restore_received_spec b l : ∀ m,
  restore_received b l m ≠ Panic ∧
  ∀ m', restore_received b l m = Ok m' →
    NoDup (exchange_key <$> l) ∧ (∀ x, x ∈ l → m !! exchange_key x = None) ∧
    map_to_list m' ≡ₚ (exchange_entry <$> l) ++ map_to_list m.
Proof.
  induction l as [|x l IH]; intros m; cbn [restore_received].
  { split; [done|]. intros m' [= <-]. split; [constructor|]. split; [|done].
    by intros x ?%not_elem_of_nil. }
  fold (exchange_key x). destruct (negb b || _ || _) eqn:Hbad; [done|].
  rewrite !orb_false_iff, bool_decide_eq_false, <- eq_None_not_Some in Hbad.
  destruct Hbad as (_ & Hnone).
  destruct (IH (<[exchange_key x := restored_stage (re_stage x)]> m)) as [Hnp Hok].
  split; [done|]. intros m' Hm. destruct (Hok m' Hm) as (Hn & Hd & Hperm).
  cbn [fmap list_fmap]. split; [|split].
  - apply NoDup_cons. split; [|done]. intros (y & Heq & Hy)%list_elem_of_fmap. specialize (Hd y Hy).
    by rewrite <- Heq, lookup_insert_eq in Hd.
  - intros y [->|Hy]%elem_of_cons; [done|]. specialize (Hd y Hy).
    by apply lookup_insert_None in Hd as [? _].
  - rewrite Hperm, map_to_list_insert by done. symmetry. apply Permutation_middle.
Qed.

Lemma saved_entry x : saved_exchange (exchange_entry x) = Some x.
Proof. by destruct x as [? ? []]. Qed.
Lemma saved_entries (l : list ReceivedExchange) : omap saved_exchange (exchange_entry <$> l) = l.
Proof. induction l as [|x l IH]; [done|]. cbn [fmap list_fmap omap list_omap]. by rewrite saved_entry, IH. Qed.

#[export] Instance exchange_le_trans : Transitive exchange_le.
Proof. intros [[s1|] p1 ?] [[s2|] p2 ?] [[s3|] p3 ?]; unfold exchange_le; simpl; try done; lia. Qed.
#[export] Instance exchange_le_total : Total exchange_le.
Proof. intros [[s1|] p1 ?] [[s2|] p2 ?]; unfold exchange_le; simpl; auto; lia. Qed.
Lemma exchange_le_key a b : exchange_le a b → exchange_le b a → exchange_key a = exchange_key b.
Proof.
  destruct a as [[s1|] p1 ?], b as [[s2|] p2 ?]; unfold exchange_le, exchange_key; simpl; try done;
    intros; do 2 f_equal; lia.
Qed.

Lemma nodup_key_inj {A B} (f : A → B) (l : list A) x y :
  NoDup (f <$> l) → x ∈ l → y ∈ l → f x = f y → x = y.
Proof.
  intros Hn (i & Hi)%list_elem_of_lookup (j & Hj)%list_elem_of_lookup Hf.
  assert (i = j) as ->.
  { eapply NoDup_lookup; [exact Hn|..]; rewrite list_lookup_fmap; [by rewrite Hi|rewrite Hj; simpl; by rewrite Hf]. }
  by simplify_eq.
Qed.

(** A list of exchanges with distinct keys that is in order is what sorting any permutation of
    it gives. *)
Lemma sort_exchanges l l' :
  l' ≡ₚ l → NoDup (exchange_key <$> l) → StronglySorted exchange_le l → merge_sort exchange_le l' = l.
Proof.
  intros Hp Hn Hs. assert (Hm : merge_sort exchange_le l' ≡ₚ l) by (by rewrite merge_sort_Permutation).
  apply (StronglySorted_unique_strong exchange_le); [|apply StronglySorted_merge_sort; apply _|done|done].
  intros x y Hx Hy Hxy Hyx. apply (nodup_key_inj exchange_key l); [done| |done|by apply exchange_le_key].
  by rewrite <- Hm.
Qed.

(** ** The queue *)
Lemma insert_stable_last (p : Z) (x : MqttPacket) l :
  Forall (λ e, ord_le p e.1 = true) l → insert_stable p x l = l ++ [(p, x)].
Proof.
  intros Hl. rewrite <- (app_nil_r l) at 1. rewrite insert_stable_app_l; [done|].
  eapply Forall_impl; [exact Hl|]. simpl. intros e He. rewrite ord_le_not_lt in He.
  by destruct (ord_lt e.1 p).
Qed.

Lemma enqueue_ordered l : ∀ (q q' : PriorityQueue (P:=Z) (T:=MqttPacket)),
  pq_inv q → descending (contents q ++ l) → zlen (contents q) + zlen l <= pq_capacity q →
  enqueue_all q l = Ok q' → contents q' = contents q ++ l.
Proof.
  induction l as [|[p x] l IH]; intros q q' Hinv Hd Hcap; cbn [enqueue_all].
  { intros [= <-]. by rewrite app_nil_r. }
  rewrite zlen_cons in Hcap. pose proof (zlen_nonneg l). pose proof (zlen_nonneg (contents q)).
  destruct (enqueue_ok q p x Hinv ltac:(lia)) as (q1 & -> & Hinv1 & Hc1 & Hcap1). rsimp.
  unfold enqueue_spec in Hc1. rewrite push_size in Hc1. replace (_ <? _) with false in Hc1 by lia.
  rewrite insert_stable_last in Hc1.
  - intros Hq. rewrite (IH q1 q'); [|done|..|done].
    + by rewrite Hc1, <- app_assoc.
    + by rewrite Hc1, <- app_assoc.
    + rewrite Hc1, zlen_app, zlen_cons, zlen_nil, Hcap1. lia.
  - apply Forall_forall. intros e He. apply StronglySorted_app in Hd as (Hd & _ & _).
    apply (Hd e (p, x) He). apply elem_of_cons. by left.
Qed.

Lemma enqueue_all_capacity l : ∀ (q q' : PriorityQueue (P:=Z) (T:=MqttPacket)),
  pq_inv q → 0 <= pq_capacity q → enqueue_all q l = Ok q' → pq_capacity q' = pq_capacity q.
Proof.
  induction l as [|[p x] l IH]; intros q q' Hi Hc; cbn [enqueue_all]; [by intros [= <-]|].
  destruct (enqueue_ok q p x Hi Hc) as (q1 & -> & Hi1 & _ & Hcap1). rewrite <- Hcap1. apply IH; [done|].
  by rewrite Hcap1.
Qed.

Lemma contents_descending (q : PriorityQueue (P:=Z) (T:=MqttPacket)) : pq_inv q → descending (contents q).
Proof.
  intros (Hwf & _). unfold contents. induction Hwf as [|k l map Hl Hab Hwf IH]; simpl; [constructor|].
  apply StronglySorted_app. split; [|split; [done|]].
  - intros x y Hx (z & -> & _)%list_elem_of_fmap. simpl.
    apply contents_above in Hab. apply (proj1 (Forall_forall _ _) Hab) in Hx.
    rewrite ord_le_not_lt. by rewrite ord_lt_asym.
  - clear. induction l as [|y l IH]; cbn [fmap list_fmap]; constructor; [done|].
    apply Forall_fmap, Forall_true. intros z. simpl. apply ord_le_refl.
Qed.

(** ** Accepted checkpoints *)
Section accepted.
Context {T : Type} `{TimePointLaws T} `{!Runtime T} `{!RuntimeLaws T}.
Implicit Types (e : MqttEngine T) (saved : ClientSessionState).

(** What the checks establish. *)
Record accepted e saved (reserved : gset Z) (queue : PriorityQueue (P:=Z) (T:=MqttPacket))
    (queued_bytes control_reserve : Z) (received : gmap ReceivedKey ReceiveStage) : Prop := {
  ac_fresh : ps_reserved (me_state e) = ∅ ∧ me_outgoing_buffer e = [] ∧ me_is_connected e = false;
  ac_identity : css_version saved = VERSION ∧ css_client_id saved ≠ [] ∧
    css_client_id saved = mo_client_id (me_options e) ∧ css_peer saved = mo_peer (me_options e) ∧
    css_mqtt_version saved = mo_mqtt_version (me_options e) ∧ mo_sessionless (me_options e) = false;
  ac_capacity : zlen (css_queued saved) <= mo_max_outgoing_packet_count (me_options e);
  ac_queue : enqueue_all (PriorityQueue_new (mo_max_outgoing_packet_count (me_options e)))
               (css_queued saved) = Ok queue;
  ac_reserved : reserved = list_to_set (queued_ids (css_queued saved).*2)
                           ∪ list_to_set (css_outbound saved).*1;
  ac_outbound : NoDup (css_outbound saved).*1;
  ac_outstanding : Forall (outstanding_ok (css_mqtt_version saved)) (css_outbound saved);
  ac_queued : NoDup (queued_ids (css_queued saved).*2);
  ac_apart : ∀ id, id ∈ queued_ids (css_queued saved).*2 → id ∉ (css_outbound saved).*1;
  ac_items : Forall (saved_item_ok (css_mqtt_version saved)) (css_queued saved);
  ac_bytes : total_len (css_queued saved).*2 <= u64_MAX → queued_bytes = total_len (css_queued saved).*2;
  ac_control : 0 <= control_reserve;
  ac_output : ∀ c, mo_max_outgoing_buffer_bytes (me_options e) = Some c → c < 4294967296 →
    outgoing_bytes e + usize_saturating_add queued_bytes control_reserve <= c;
  ac_received : NoDup (exchange_key <$> css_received saved) ∧
    map_to_list received ≡ₚ exchange_entry <$> css_received saved;
}.

Lemma saturating_mono n c r c0 x :
  c0 < 4294967296 → 0 <= c → x + usize_saturating_add n (Z.max c r) <= c0 →
  x + usize_saturating_add n c <= c0.
Proof. unfold usize_saturating_add, u64_MAX. lia. Qed.

Lemma check_saved_spec e saved :
  0 <= mo_max_outgoing_packet_count (me_options e) →
  check_saved e saved ≠ Panic ∧
  ∀ reserved rr queue qb cr received,
    check_saved e saved = Ok (reserved, rr, queue, qb, cr, received) →
    accepted e saved reserved queue qb cr received.
Proof.
  intros Hcap0. unfold check_saved. cbv zeta.
  destruct (_ || _) eqn:Hf in |- *; [done|]. rewrite !orb_false_iff in Hf.
  destruct Hf as (((((_ & Hconn) & _) & Hres) & _) & Hout).
  apply negb_false_iff, bool_decide_eq_true in Hres, Hout.
  destruct (negb _) eqn:Hv in |- *; [done|]. apply negb_false_iff, Z.eqb_eq in Hv.
  destruct (_ || _) eqn:Hs in |- *; [done|]. apply orb_false_iff in Hs as [Hs _].
  destruct (_ || _) eqn:Hi in |- *; [done|]. rewrite !orb_false_iff in Hi.
  destruct Hi as ((((Hi1 & Hi2) & Hi3) & Hi4) & _). rewrite bool_decide_eq_false in Hi1, Hi2, Hi3.
  apply dec_stable in Hi2, Hi3. apply negb_false_iff, Z.eqb_eq in Hi4.
  destruct (_ <? _) eqn:Hcap in |- *; [done|]. apply Z.ltb_ge in Hcap.
  destruct (restore_outbound_spec (T:=T) (css_mqtt_version saved) (css_outbound saved) ∅ 0) as [Hp1 Hok1].
  destruct (restore_outbound _ _ _ _) as [[R1 r1]| |] eqn:E1; rsimp; [|done|done].
  destruct (Hok1 R1 r1 eq_refl) as (HR1 & Hn1 & _ & Hf1).
  destruct (restore_queued_spec (T:=T) (css_mqtt_version saved) (css_queued saved) R1 r1
              (PriorityQueue_new (mo_max_outgoing_packet_count (me_options e))) 0) as [Hp2 Hok2].
  { by apply new_inv. } { constructor. } { change (zlen (contents _)) with 0. simpl. lia. }
  destruct (restore_queued _ _ _ _ _ _) as [[[[R2 r2] q2] n2]| |] eqn:E2; rsimp; [|done|done].
  destruct (Hok2 R2 r2 q2 n2 eq_refl) as (Hq2 & HR2 & Hn2 & Hd2 & Hf2 & Hb2).
  pose proof (connect_packet_no_panic e). destruct (connect_packet e) as [packet| |]; rsimp; [|done|done].
  pose proof (map_parse_error_no_panic (T:=T) packet).
  destruct (map_parse_error _) as [bs| |]; rsimp; [|done|done].
  pose proof (check_output_capacity_no_panic e (usize_saturating_add n2 (Z.max (Z.max (zlen bs) 6) r2))) as Hcn.
  destruct (check_output_capacity _ _) as [[]| |] eqn:Hcc; rsimp; [|done|done].
  destruct (restore_received_spec (css_has_session saved) (css_received saved) ∅) as [Hp3 Hok3].
  destruct (restore_received _ _ _) as [m| |] eqn:E3; rsimp; [|done|done].
  destruct (Hok3 m eq_refl) as (Hn3 & _ & Hperm). split; [done|].
  intros ? ? ? ? ? ? [= <- <- <- <- <- <-].
  assert (HR1' : R1 = list_to_set (css_outbound saved).*1) by set_solver.
  split; try done.
  - by rewrite HR2, HR1'.
  - intros id Hid. specialize (Hd2 id Hid). set_solver.
  - intros Hm. rewrite Hb2; lia.
  - lia.
  - intros c Hc Hlt. pose proof (check_output_capacity_Ok _ _ _ Hcc Hc Hlt).
    eapply saturating_mono; [done|lia|eassumption].
  - split; [done|]. by rewrite Hperm, map_to_list_empty, app_nil_r.
Qed.

(** A fresh engine holds no identifiers. *)
Lemma fresh_ids e :
  ids_ok e → ps_reserved (me_state e) = ∅ →
  iq_entries (me_inflight_queue e) = ∅ ∧ me_session_replay e = [] ∧ me_previous_inflight e = [].
Proof.
  intros [[_ Hp Hv Hi _ _ _ _] _] HR. rewrite HR in *. split_and!.
  - apply map_empty. intros id. apply eq_None_not_Some. intros Hs. specialize (Hi id Hs). set_solver.
  - destruct (me_session_replay e) as [|p l]; [done|]. destruct (Hp p.1) as (_ & ? & _); set_solver.
  - destruct (me_previous_inflight e) as [|p l]; [done|]. destruct (Hv p.1) as (_ & ?); set_solver.
Qed.

(** The engine after the commit. *)
Definition restored e saved (reserved : gset Z) (rr : Z)
    (queue : PriorityQueue (P:=Z) (T:=MqttPacket)) (qb cr : Z)
    (received : gmap ReceivedKey ReceiveStage) : MqttEngine T :=
  e <| me_session := Some (ClientSession_restore_packet_id_counter ClientSession_new
                             (css_packet_id_counter saved)) |>
    <| me_previous_inflight := css_outbound saved |> <| me_priority_queue := queue |>
    <| me_state ::= λ s, s <| ps_reserved := reserved |> <| ps_queued_bytes := qb |>
         <| ps_control_reserve := cr |> <| ps_replay_reserve := rr |>
         <| ps_has_session := css_has_session saved |>
         <| ps_session_expiry := css_session_expiry_interval saved |>
         <| ps_received_unbound := dom received |> <| ps_received := received |>
         <| ps_input_closed := true |> |>.

Lemma restore_run saved e :
  restore_session_state saved e =
  match check_saved e saved with
  | Ok (reserved, rr, queue, qb, cr, received) =>
      Ok (inr (), restored e saved reserved rr queue qb cr received)
  | Err error => Ok (inl error, e)
  | Panic => Panic
  end.
Proof.
  unfold restore_session_state, get_st, try_bind, try, on_state, modify, ok, mbind, St_bind.
  cbv beta iota. destruct (check_saved e saved) as [[[[[[? ?] ?] ?] ?] ?]| |]; reflexivity.
Qed.

Lemma restored_contents e saved R q qb cr m :
  0 <= mo_max_outgoing_packet_count (me_options e) → accepted e saved R q qb cr m →
  pq_inv q ∧ pq_capacity q = mo_max_outgoing_packet_count (me_options e) ∧
  contents q ≡ₚ css_queued saved ∧ (descending (css_queued saved) → contents q = css_queued saved).
Proof.
  intros Hc Ha. pose proof (ac_capacity _ _ _ _ _ _ _ Ha) as Hcap. pose proof (ac_queue _ _ _ _ _ _ _ Ha) as Hq.
  set (q0 := PriorityQueue_new _) in Hq. assert (Hi0 : pq_inv q0) by (by apply new_inv).
  assert (Hz : zlen (contents q0) + zlen (css_queued saved) <= pq_capacity q0) by (change (zlen (contents q0)) with 0; simpl; lia).
  destruct (enqueue_all_ok (css_queued saved) q0 Hi0 ltac:(constructor) Hz) as (q' & Hq' & Hi' & _ & Hp & _).
  rewrite Hq in Hq'. injection Hq' as <-. split; [done|]. split; [|split; [done|]].
  - exact (enqueue_all_capacity _ q0 q Hi0 ltac:(simpl; lia) Hq).
  - intros Hd. by apply (enqueue_ordered _ q0).
Qed.

Lemma queued_ids_perm (l l' : list MqttPacket) : l ≡ₚ l' → queued_ids l ≡ₚ queued_ids l'.
Proof. intros Hp. unfold queued_ids. by rewrite Hp. Qed.

Lemma saved_items_queued_ok v (l : list (Z * MqttPacket)) :
  Forall (λ p, wf_packet p.2) l → Forall (saved_item_ok v) l → Forall queued_ok l.*2.
Proof.
  intros Hw Hi. apply Forall_fmap. apply Forall_forall. intros p Hp. simpl.
  pose proof (proj1 (Forall_forall _ _) Hw p Hp) as Hwp.
  pose proof (proj1 (Forall_forall _ _) Hi p Hp) as [Hid He].
  destruct (saved_queued _ _ _ Hwp Hid) as (? & ? & _ & ? & _). unfold compose. by split_and!.
Qed.

Lemma saved_ids_nonzero v (l : list (Z * MqttPacket)) id :
  Forall (λ p, wf_packet p.2) l → Forall (saved_item_ok v) l → id ∈ queued_ids l.*2 → id ≠ 0.
Proof.
  intros Hw Hi (packet & Hp & Hid)%list_elem_of_omap. apply list_elem_of_fmap in Hp as (p & -> & Hp).
  pose proof (proj1 (Forall_forall _ _) Hw p Hp) as Hwp.
  pose proof (proj1 (Forall_forall _ _) Hi p Hp) as [Hs _].
  destruct (saved_queued _ _ _ Hwp Hs) as (_ & _ & _ & _ & Hz). by apply Hz.
Qed.

Lemma restored_ids e saved R q qb cr m rr :
  engine_inv e → typed_saved saved → accepted e saved R q qb cr m →
  contents q ≡ₚ css_queued saved → ids_ok (restored e saved R rr q qb cr m).
Proof.
  intros Hi (_ & Hwo & Hwq & _) Ha Hp. destruct (ac_fresh _ _ _ _ _ _ _ Ha) as (HR & _ & Hc).
  destruct (fresh_ids e (ei_ids e Hi) HR) as (HE & HP & _).
  split; [|simpl; by rewrite Hc]. simpl. rewrite HE, HP.
  assert (Hq : queued_ids (queued (restored e saved R rr q qb cr m)) ≡ₚ queued_ids (css_queued saved).*2).
  { apply queued_ids_perm. unfold queued. simpl. by rewrite Hp. }
  rewrite (ac_reserved _ _ _ _ _ _ _ Ha). split; simpl.
  - intros id Hid. rewrite Hq in Hid. pose proof (ac_apart _ _ _ _ _ _ _ Ha id Hid).
    split; [by eapply saved_ids_nonzero; [exact Hwq|apply Ha|]|].
    split; [set_solver|]. split; [apply lookup_empty|]. split; [apply not_elem_of_nil|done].
  - by intros id ?%not_elem_of_nil.
  - intros id Hid. split; [|set_solver]. apply list_elem_of_fmap in Hid as (p & -> & Hin).
    eapply saved_outstanding; [exact (proj1 (Forall_forall _ _) Hwo p Hin)|].
    exact (proj1 (Forall_forall _ _) (ac_outstanding _ _ _ _ _ _ _ Ha) p Hin).
  - intros id [x Hx]. by rewrite lookup_empty in Hx.
  - rewrite Hq. apply Ha.
  - constructor.
  - apply Ha.
  - by intros id ?%not_elem_of_nil.
Qed.

Lemma restored_inv e saved R q qb cr m rr :
  engine_inv e → typed_saved saved → accepted e saved R q qb cr m →
  engine_inv (restored e saved R rr q qb cr m).
Proof.
  intros Hi Ht Ha. pose proof (wo_outgoing_count _ (proj1 (ei_config e Hi))) as Hcount.
  unfold is_usize, is_u64 in Hcount.
  destruct (restored_contents e saved R q qb cr m ltac:(lia) Ha) as (Hpq & Hcap & Hp & _).
  pose proof (restored_ids e saved R q qb cr m rr Hi Ht Ha Hp) as Hids'.
  assert (Hq : queued (restored e saved R rr q qb cr m) ≡ₚ (css_queued saved).*2).
  { unfold queued. simpl. by rewrite Hp. }
  pose proof (saved_items_queued_ok _ _ (proj1 (proj2 (proj2 Ht))) (ac_items _ _ _ _ _ _ _ Ha)) as Hok.
  destruct (ac_fresh _ _ _ _ _ _ _ Ha) as (_ & Hbuf & _).
  frame.
  - split; [done|]. split; [done|]. by rewrite Hq.
  - destruct Hout as (Ho1 & Ho2 & Ho3 & _). destruct Ht as (_ & _ & _ & Hmax).
    pose proof (ac_bytes _ _ _ _ _ _ _ Ha Hmax) as Hqb.
    split; [done|]. split; [done|]. split; [rewrite (total_len_perm _ _ Hq); exact Hqb|].
    intros c Hc Hlt. pose proof (ac_output _ _ _ _ _ _ _ Ha c Hc Hlt) as Hcap'.
    pose proof (ac_control _ _ _ _ _ _ _ Ha). unfold usize_saturating_add in Hcap'.
    unfold outgoing_bytes in *. simpl. rewrite Hbuf in *. unfold u64_MAX in *. simpl in *.
    pose proof (total_len_nonneg (queued e)).
    pose proof (total_len_nonneg (css_queued saved).*2). lia.
  - destruct Hsnd as (_ & Ha2 & _). split; [intros s [= <-]; apply Ht|]. split; [exact Ha2|].
    exact (ac_control _ _ _ _ _ _ _ Ha).
Qed.

Lemma restore_in_order B e saved :
  in_order B e → typed_saved saved →
  ∃ r e', restore_session_state saved e = Ok (r, e') ∧ in_order B e' ∧
    match r with inl _ => e' = e | inr _ => True end.
Proof.
  intros [Hi Hatt] Ht. pose proof (wo_outgoing_count _ (proj1 (ei_config e Hi))) as Hcount.
  unfold is_usize, is_u64 in Hcount. destruct (check_saved_spec e saved ltac:(lia)) as [Hnp Hok].
  rewrite restore_run. destruct (check_saved e saved) as [[[[[[R rr] q] qb] cr] m]|x|]; [| |done].
  - eexists _, _. split; [done|]. split; [|done]. split; [|done].
    apply restored_inv; [done..|]. by eapply Hok.
  - by exists (inl x), e.
Qed.

(** ** Checkpoints of a restored engine *)
Definition ordered_saved saved : Prop :=
  descending (css_queued saved) ∧ StronglySorted exchange_le (css_received saved).

Lemma canonical_items (l : list (Z * MqttPacket)) :
  Forall (λ p, canonical p.2 = p.2) l → (λ p : Z * MqttPacket, (p.1, canonical p.2)) <$> l = l.
Proof. induction 1 as [|[k p] l Hp _ IH]; [done|]. cbn [fmap list_fmap]. simpl in *. by rewrite Hp, IH. Qed.

Lemma descending_fmap (f : MqttPacket → MqttPacket) (l : list (Z * MqttPacket)) :
  descending l → descending ((λ p, (p.1, f p.2)) <$> l).
Proof. unfold descending. induction 1; cbn [fmap list_fmap]; constructor; [done|]. by apply Forall_fmap. Qed.

(** Every checkpoint an engine takes is in order. *)
Lemma snapshot_ordered e saved :
  engine_inv e → snapshot_session e = Ok saved → ordered_saved saved.
Proof.
  intros Hi. unfold snapshot_session. destruct (_ || _); [done|].
  destruct (refresh_previous _ _ _); [|done|done]. intros [= <-]. split; simpl.
  - rewrite iter_contents. apply descending_fmap, contents_descending, (ei_queue e Hi).
  - apply StronglySorted_merge_sort; apply _.
Qed.

Lemma restored_outbound e saved R q qb cr m rr :
  accepted e saved R q qb cr m →
  filter (λ p, p.1 ∈ ps_reserved (me_state (restored e saved R rr q qb cr m)))
    (me_previous_inflight (restored e saved R rr q qb cr m)) = css_outbound saved.
Proof.
  intros Ha. simpl. rewrite (ac_reserved _ _ _ _ _ _ _ Ha).
  assert (Hall : ∀ p, p ∈ css_outbound saved → p.1 ∈ (css_outbound saved).*1) by (intros; by apply list_elem_of_fmap_2).
  revert Hall. generalize (css_outbound saved).*1. intros ids Hall.
  induction (css_outbound saved) as [|p l IH]; [done|]. rewrite filter_cons_True.
  - f_equal. apply IH. intros. apply Hall. by apply elem_of_cons; right.
  - specialize (Hall p ltac:(apply elem_of_cons; by left)). set_solver.
Qed.

Lemma snapshot_restored e saved R q qb cr m rr :
  engine_inv e → accepted e saved R q qb cr m → ordered_saved saved →
  snapshot_session (restored e saved R rr q qb cr m) = Ok saved.
Proof.
  intros Hi Ha [Hd Hs]. pose proof (wo_outgoing_count _ (proj1 (ei_config e Hi))) as Hcount.
  unfold is_usize, is_u64 in Hcount.
  destruct (restored_contents e saved R q qb cr m ltac:(lia) Ha) as (_ & _ & _ & Hc). specialize (Hc Hd).
  destruct (ac_fresh _ _ _ _ _ _ _ Ha) as (HR & _ & _).
  destruct (fresh_ids e (ei_ids e Hi) HR) as (HE & HP & _).
  destruct (ac_identity _ _ _ _ _ _ _ Ha) as (Hv & Hne & Hid & Hpeer & Hver & Hsl).
  destruct (ac_received _ _ _ _ _ _ _ Ha) as [Hn Hperm].
  unfold snapshot_session. rewrite (restored_outbound e saved R q qb cr m rr Ha). cbv zeta.
  change (me_options (restored e saved R rr q qb cr m)) with (me_options e).
  rewrite Hsl. rewrite bool_decide_false by (by rewrite <- Hid). cbn [orb].
  unfold InflightQueue_snapshot_for_reconnect.
  change (me_inflight_queue (restored e saved R rr q qb cr m)) with (me_inflight_queue e).
  change (me_session_replay (restored e saved R rr q qb cr m)) with (me_session_replay e).
  rewrite HE, HP, app_nil_r.
  replace (omap _ _) with ([] : list (InflightEntry T))
    by (induction (iq_admission_order (me_inflight_queue e)) as [|i l IH]; [done|]; simpl; by rewrite lookup_empty).
  simpl. rewrite iter_contents, Hc.
  assert (Hq : Forall (λ p, canonical p.2 = p.2) (css_queued saved)).
  { eapply Forall_impl; [apply (ac_items _ _ _ _ _ _ _ Ha)|]. intros p [Hp _]. by eapply saved_canonical. }
  assert (Ho : Forall (λ p, canonical p.2 = p.2) (css_outbound saved)).
  { eapply Forall_impl; [apply (ac_outstanding _ _ _ _ _ _ _ Ha)|]. intros p Hp. by eapply saved_canonical. }
  rewrite (canonical_items _ Hq), (canonical_items _ Ho).
  rewrite (sort_exchanges (css_received saved)); [|by rewrite Hperm, saved_entries|done|done].
  f_equal. destruct saved; simpl in *. by subst.
Qed.
End accepted.

(** ** Theorems *)

(** C22: an untrusted checkpoint cannot break the engine.  Take an engine with a well-typed
    configuration and a persistent session ([sessionless] off), and any calls on it, before and
    after, fewer than [u32::MAX - 1] in all and with no QoS 0 PUBLISH that carries a packet
    identifier ([call_ok]).  Restoring any checkpoint of the right types in between returns; an
    error leaves the engine as it was; and whether the checkpoint was accepted or refused, none
    of the later calls panics and the engine's invariant holds after them: a checkpoint cannot
    bring in an identifier with two owners, a queued message that cannot be encoded, or queued
    bytes over the configured limit. *)
Theorem restore_safe {T} `{TimePointLaws T} `{!Runtime T} `{!RuntimeLaws T}
    options (now : T) engine calls e saved later :
  wf_options options → mo_sessionless options = false →
  MqttEngine_try_new_at options now = Ok engine → run_calls calls engine = Ok ((), e) →
  Forall (λ c, call_ok c.1) (calls ++ later) → zlen (calls ++ later) < u32_MAX - 1 →
  typed_saved saved →
  ∃ r e' e'', restore_session_state saved e = Ok (r, e') ∧
    (∀ error, r = inl error → e' = e) ∧
    run_calls later e' = Ok ((), e'') ∧ engine_inv e''.
Proof.
  intros Hw Hs Hnew Hrun Hc Hlen Ht. unfold MqttEngine_try_new_at in Hnew. destruct (_ || _); [done|].
  apply bind_Ok_inv in Hnew as ([] & Htr & [= <-]%Ok_inj). apply Forall_app in Hc as [Hc1 Hc2].
  rewrite zlen_app in Hlen. pose proof (zlen_nonneg calls). pose proof (zlen_nonneg later).
  pose proof (run_calls_order calls 1 _ (new_in_order options now Hw Hs Htr) Hc1 ltac:(lia)) as Hr.
  unfold runs in Hr. rewrite Hrun in Hr.
  destruct (restore_in_order _ e saved Hr Ht) as (r & e' & Hre & Ho & Hm).
  pose proof (run_calls_order later _ e' Ho Hc2 ltac:(lia)) as Hl.
  apply runs_Ok in Hl as ([] & e'' & Hl & He'' & _).
  exists r, e', e''. split; [done|]. split; [by intros error ->|]. done.
Qed.

(** C21: checkpoints survive a restart.  A checkpoint taken of any engine, when another engine
    accepts it, is what that engine's own checkpoint is: the outstanding packets in their order,
    the queue with its priorities, the identifier counter, the incoming QoS 2 exchanges and the
    session's identity are all restored, and nothing else is added. *)
Theorem checkpoint_roundtrip {T} `{TimePointLaws T} `{!Runtime T} `{!RuntimeLaws T}
    (e0 e : MqttEngine T) saved e' :
  reachable e0 → snapshot_session e0 = Ok saved →
  reachable e → restore_session_state saved e = Ok (inr (), e') →
  snapshot_session e' = Ok saved.
Proof.
  intros Hfrom%reachable_in_order Hsnap He%reachable_in_order Hre.
  pose proof (snapshot_ordered _ _ (proj1 Hfrom) Hsnap) as Hord. destruct He as [Hi _].
  pose proof (wo_outgoing_count _ (proj1 (ei_config e Hi))) as Hcount. unfold is_usize, is_u64 in Hcount.
  destruct (check_saved_spec e saved ltac:(lia)) as [_ Hok]. rewrite restore_run in Hre.
  destruct (check_saved e saved) as [[[[[[R rr] q] qb] cr] m]|x|]; [|done|done].
  injection Hre as <-. apply snapshot_restored; [done|by eapply Hok|done].
Qed.

(** The witnesses run on the virtual clock, with maps read in key order. *)
#[local] Existing Instance Runtime_ordered.
#[local] Existing Instance RuntimeLaws_ordered.

Definition resumed_options : MqttClientOptions :=
  MqttClientOptions_default <| mo_clean_start := false |>.
Definition resumed_engine : MqttEngine Timestamp :=
  MqttEngine_new_at resumed_options (Timestamp_from_nanos 0).
Lemma resumed_options_wf : wf_options resumed_options.
Proof. destruct default_options_wf. by split. Qed.

Definition saved_publish (id : Z) : MqttPacket := Publish5 {|
  p5_topic_name := str "a/b"; p5_qos := 1; p5_dup := false; p5_retain := false;
  p5_packet_id := Some id; p5_payload := [1; 2]; p5_properties := [] |}.
Definition sample_saved : ClientSessionState := {|
  css_version := 1; css_peer := str "localhost:1883"; css_client_id := str "mqtt_client";
  css_mqtt_version := 5; css_has_session := true; css_session_expiry_interval := 60;
  css_packet_id_counter := 9; css_outbound := [(7, saved_publish 7)];
  css_queued := [(1, saved_publish 8); (3, saved_publish 9)];
  css_received := [{| re_stream := None; re_packet_id := 4; re_stage := SavedPubRec |}] |}.

Lemma saved_publish_wf id : is_u16 id → wf_packet (saved_publish id).
Proof.
  intros Hid. split; [by repeat split; try u8s_lit|]. unfold is_u8. simpl. split; [lia|].
  split; [done|]. split; [u8s_lit|constructor].
Qed.
Lemma sample_saved_typed : typed_saved sample_saved.
Proof.
  split; [by vm_compute|]. split; [|split; [|by vm_compute]];
    repeat constructor; apply saved_publish_wf; by vm_compute.
Qed.

Lemma restore_safe_witness :
  let later := [(CallConnect, Timestamp_from_nanos 1); (CallTakeOutgoing, Timestamp_from_nanos 2);
                (CallIncoming [32; 3; 1; 0; 0], Timestamp_from_nanos 3)] in
  ∃ r e' e'', restore_session_state sample_saved resumed_engine = Ok (r, e') ∧
    (∀ error, r = inl error → e' = resumed_engine) ∧
    run_calls later e' = Ok ((), e'') ∧ engine_inv e''.
Proof.
  intros later. apply (restore_safe resumed_options (Timestamp_from_nanos 0) resumed_engine []).
  - exact resumed_options_wf.
  - reflexivity.
  - reflexivity.
  - reflexivity.
  - repeat (apply Forall_cons_2; [first [exact I|simpl; u8s_lit]|]). apply Forall_nil_2.
  - by vm_compute.
  - exact sample_saved_typed.
Defined.

Lemma resumed_reachable : reachable resumed_engine.
Proof.
  exists resumed_options, (Timestamp_from_nanos 0), resumed_engine, [].
  split; [exact resumed_options_wf|]. split; [reflexivity|]. split; [reflexivity|].
  split; [apply Forall_nil_2|]. split; [by vm_compute|reflexivity].
Qed.

Lemma checkpoint_roundtrip_witness :
  ∃ saved e', snapshot_session sample_engine = Ok saved ∧ css_outbound saved ≠ [] ∧
    restore_session_state saved resumed_engine = Ok (inr (), e') ∧ snapshot_session e' = Ok saved.
Proof.
  eexists _, _. split; [vm_compute; reflexivity|]. split; [done|]. split; [vm_compute; reflexivity|].
  eapply (checkpoint_roundtrip sample_engine resumed_engine).
  - exact sample_engine_reachable.
  - vm_compute. reflexivity.
  - exact resumed_reachable.
  - vm_compute. reflexivity.
Defined.
