(* ===== verification/EngineHost.v ===== *)
(** * The engine on the host's clock

    Models [src/mqtt_client/engine/host.rs] and the read-only accessors of [engine.rs]: the
    methods without a time argument read the host's clock and call the explicit methods of
    [Engine] at the later of that reading and the engine's own time.  [sample] is what
    [Instant::now()] returned, or the time the application passed; nothing is assumed of it, so
    readings may go backwards. *)
From S2P Require Import Prelude BaseData TopicFilter Validation Properties Packets Framing Codec.
From S2P Require Import Stream Leveled Time PriorityQueue ClientError Options ClientTypes.
From S2P Require Import Commands Inflight ClientSession EngineState EngineCore EngineProtocol.
From S2P Require Import Engine EncodeFacts EngineInv EngineSteps EngineSafety.

Section host.
Context {T : Type} `{TimePoint T, !Runtime T}.
Implicit Types (self e : MqttEngine T) (sample : T).
Local Abbreviation M := (St (MqttEngine T)).

(** ** Accessors *)
Definition MqttEngine_options self : MqttClientOptions := me_options self.
Definition pending_publish_count self : Z := PriorityQueue_len (me_priority_queue self).
Definition MqttEngine_is_connected self : bool := me_is_connected self.
Definition MqttEngine_mqtt_version self : Z := mo_mqtt_version (me_options self).

(** ** The clock *)
Definition MqttEngine_new (options : MqttClientOptions) sample : MqttEngine T :=
  MqttEngine_new_at options sample.

(** [a.max(b)] of [Ord]: the second argument when they compare equal. *)
Definition ord_max (a b : T) : T := if ord_lt b a then a else b.
Definition host_now self sample : T := ord_max sample (me_now self).

(** [if let Err(error) = self.f() { self.events.push(MqttEvent::Error(error)) }] *)
Definition report_error {A} (default : A) (m : M (MqttClientError + A)) : M A :=
  r ← m;
  match r with
  | inl error => push_event (ErrorEvent error);; mret default
  | inr a => mret a
  end.

(** [self.f().unwrap_or_else(|error| ..)] *)
Definition or_else {A} (m : M (MqttClientError + A)) (default : MqttClientError → A) : M A :=
  r ← m; mret match r with inl error => default error | inr a => a end.

(** [self.f_at(.., self.host_now())] *)
Definition at_host {A} sample (f : T → M A) : M A := e ← get_st; f (host_now e sample).

(** ** The methods *)
Definition handle_connection_lost sample : M () :=
  report_error () (at_host sample handle_connection_lost_at).
Definition reset_for_new_transport sample : M () :=
  report_error () (at_host sample reset_for_new_transport_at).
Definition schedule_reconnect sample : M () :=
  report_error () (at_host sample schedule_reconnect_at).
Definition handle_incoming (data : bytes) sample : M (list MqttEvent) :=
  or_else (at_host sample (handle_incoming_at data)) (λ error, [ErrorEvent error]).
Definition handle_tick sample : M (list MqttEvent) :=
  or_else (at_host sample handle_tick_at) (λ error, [ErrorEvent error]).
Definition take_outgoing sample : M bytes := report_error [] (at_host sample take_outgoing_at).
Definition connect sample : M (MqttClientError + ()) := at_host sample connect_at.
Definition publish (command : PublishCommand) sample : M (MqttClientError + option Z) :=
  at_host sample (publish_at command).
Definition publish_encoded (command : PublishCommand) (stream : option Z) sample
    : M (MqttClientError + (option Z * bytes)) :=
  at_host sample (publish_encoded_at command stream).
Definition ingest_stream_packet (packet : MqttPacket) (stream : Z) sample
    : M (list MqttEvent * bytes) :=
  or_else (at_host sample (ingest_stream_packet_at packet stream)) (λ error, ([ErrorEvent error], [])).
Definition subscribe (command : SubscribeCommand) sample : M (MqttClientError + Z) :=
  at_host sample (subscribe_at command).
Definition unsubscribe (command : UnsubscribeCommand) sample : M (MqttClientError + Z) :=
  at_host sample (unsubscribe_at command).
Definition subscribe_encoded (command : SubscribeCommand) (stream : option Z) sample
    : M (MqttClientError + (Z * bytes)) :=
  at_host sample (subscribe_encoded_at command stream).
Definition unsubscribe_encoded (command : UnsubscribeCommand) (stream : option Z) sample
    : M (MqttClientError + (Z * bytes)) :=
  at_host sample (unsubscribe_encoded_at command stream).
Definition disconnect sample : M (MqttClientError + ()) := at_host sample disconnect_at.
Definition try_disconnect sample : M (MqttClientError + ()) := at_host sample try_disconnect_at.
Definition try_disconnect_with (reason_code : Z) (properties : list Property) sample
    : M (MqttClientError + ()) :=
  at_host sample (try_disconnect_with_at reason_code properties).
Definition auth (reason_code : Z) (properties : list Property) sample : M (MqttClientError + ()) :=
  at_host sample (auth_at reason_code properties).
Definition try_auth (reason_code : Z) (properties : list Property) sample : M (MqttClientError + ()) :=
  at_host sample (try_auth_at reason_code properties).
Definition send_ping sample : M (MqttClientError + ()) := at_host sample send_ping_at.
Definition try_send_ping sample : M (MqttClientError + ()) := at_host sample try_send_ping_at.
Definition enqueue_packet (packet : MqttPacket) sample : M (MqttClientError + ()) :=
  at_host sample (enqueue_packet_at packet).
Definition puback (id reason : Z) (properties : list Property) sample : M (MqttClientError + ()) :=
  at_host sample (puback_at id reason properties).
Definition pubrec (id reason : Z) (properties : list Property) sample : M (MqttClientError + ()) :=
  at_host sample (pubrec_at id reason properties).
Definition pubcomp (id reason : Z) (properties : list Property) sample : M (MqttClientError + ()) :=
  at_host sample (pubcomp_at id reason properties).
End host.

(** ** The host's clock and the invariant *)
Section host_order.
Context {T : Type} `{TimePointLaws T} `{!Runtime T} `{!RuntimeLaws T}.
Implicit Types (I : MqttEngine T → Prop).
Context (B : Z).

Lemma ignored {A} I J (m : St (MqttEngine T) A) : preserves I J (ignore m) ↔ preserves I J m.
Proof.
  split; intros Hm e He; specialize (Hm e He); unfold ignore in *.
  - apply runs_bind_inv in Hm. eapply runs_mono; [exact Hm|]. by intros a e' ?.
  - apply runs_bind. eapply runs_mono; [exact Hm|]. by intros a e' ?.
Qed.

Lemma at_host_preserves {A} I J sample (f : T → St (MqttEngine T) A) :
  (∀ now, preserves I J (f now)) → preserves I J (at_host sample f).
Proof. intros Hf e He. exact (Hf (host_now e sample) e He). Qed.

Lemma or_else_preserves {A} I J (m : St (MqttEngine T) (MqttClientError + A)) default :
  preserves I J m → preserves I J (or_else m default).
Proof. intros Hm. unfold or_else. eapply preserves_bind; [exact Hm|]. intros r. apply preserves_ret. Qed.

Lemma push_event_order event : preserves (in_order B) (in_order B) (push_event event).
Proof.
  intros e He. unfold push_event. run_step. apply in_order_good in He.
  apply (good_in_order (me_now e) B (zlen (unread (me_parser e))) (potential e)). frame.
Qed.

Lemma report_error_preserves {A} I (default : A) (m : St (MqttEngine T) (MqttClientError + A)) :
  preserves I (in_order B) m → preserves I (in_order B) (report_error default m).
Proof.
  intros Hm. unfold report_error. eapply preserves_bind; [exact Hm|]. intros [x|a]; [|apply preserves_ret].
  eapply preserves_bind; [apply push_event_order|]. intros []. apply preserves_ret.
Qed.
End host_order.

(** ** An engine under a host's clock

    The class [HostClock] has the readings of [Instant::now()] in order; whoever owns an engine
    counts the readings so far. *)
Class HostClock (T : Type) : Type := clock_reading : nat → T.

(** The protocol engine with the number of readings of the clock so far. *)
Record HostedEngine (T : Type) : Type := { hd_engine : MqttEngine T; hd_readings : nat }.
Arguments hd_engine {_} _.
Arguments hd_readings {_} _.
#[export] Instance Rebuild_HostedEngine T : Rebuild (HostedEngine T) := λ s,
  {| hd_engine := hd_engine s; hd_readings := hd_readings s |}.

Section hosted.
Context {T : Type} `{TimePoint T, !Runtime T}.

Definition on_hosted {A} (m : St (MqttEngine T) A) : St (HostedEngine T) A :=
  zoom hd_engine (λ engine self, self <| hd_engine := engine |>) m.
Definition at_host_reading `{!HostClock T} {A} (m : T → St (MqttEngine T) A) : St (HostedEngine T) A :=
  self ← get_st;
  modify (λ self, self <| hd_readings ::= S |>);;
  on_hosted (m (clock_reading (hd_readings self))).
End hosted.
