(* ===== verification/HostSafety.v ===== *)
(** * The engine on the host's clock keeps its invariant

    Each method of [EngineHost] keeps the engine in order, whatever the clock says: what the
    engines built around [MqttEngine] (over QUIC, over TLS, behind the foreign-function
    interface) rely on. *)
From S2P Require Import Prelude BaseData TopicFilter Validation Properties Packets Framing Codec.
From S2P Require Import Stream Leveled Time PriorityQueue ClientError Options ClientTypes.
From S2P Require Import Commands Inflight ClientSession EngineState EngineCore EngineProtocol.
From S2P Require Import Engine EncodeFacts EngineInv EngineSteps EngineQueues EngineHandlers.
From S2P Require Import EngineConnect EngineReceive EngineInput EngineSafety EngineHost.

Section host_safety.
Context {T : Type} `{TimePointLaws T} `{!Runtime T} `{!RuntimeLaws T}.
Implicit Types (e : MqttEngine T).

Lemma host_call {A} B B' call sample (m : T → St (MqttEngine T) A) :
  (∀ now, run_call call now = ignore (m now)) → call_ok call → B + 1 <= u32_MAX →
  B <= B' → B + call_cost call <= B' →
  preserves (in_order B) (in_order B') (at_host sample m).
Proof.
  intros Heq Hok HB HBB Hc. apply at_host_preserves. intros now. apply ignored. rewrite <- Heq.
  by apply run_call_order.
Qed.

Section bound.
Context (B : Z) (HB : B + 1 <= u32_MAX).

Lemma connect_order sample : preserves (in_order B) (in_order (B + 1)) (connect sample).
Proof. apply (host_call B (B + 1) CallConnect); simpl; done || lia. Qed.
Lemma reset_order sample : preserves (in_order B) (in_order (B + 1)) (reset_for_new_transport sample).
Proof.
  apply report_error_preserves. apply (host_call B (B + 1) CallResetForNewTransport); simpl; done || lia.
Qed.
Lemma handle_tick_order sample : preserves (in_order B) (in_order (B + 1)) (handle_tick sample).
Proof. apply or_else_preserves. apply (host_call B (B + 1) CallTick); simpl; done || lia. Qed.
Lemma disconnect_order reason ps sample :
  preserves (in_order B) (in_order (B + 1)) (try_disconnect_with reason ps sample).
Proof. apply (host_call B (B + 1) (CallDisconnect reason ps)); simpl; done || lia. Qed.
Lemma handle_incoming_order b sample :
  u8s b → preserves (in_order B) (in_order B) (handle_incoming b sample).
Proof. intros Hb. apply or_else_preserves. apply (host_call B B (CallIncoming b)); simpl; done || lia. Qed.
Lemma take_outgoing_order sample : preserves (in_order B) (in_order B) (take_outgoing sample).
Proof. apply report_error_preserves. apply (host_call B B CallTakeOutgoing); simpl; done || lia. Qed.
Lemma lost_order sample : preserves (in_order B) (in_order B) (handle_connection_lost sample).
Proof. apply report_error_preserves. apply (host_call B B CallConnectionLost); simpl; done || lia. Qed.
Lemma publish_encoded_order c stream sample :
  publish_command_ok c → preserves (in_order B) (in_order B) (publish_encoded c stream sample).
Proof. intros Hc. apply (host_call B B (CallPublishEncoded c stream)); simpl; done || lia. Qed.
Lemma subscribe_encoded_order c stream sample :
  wf_opt is_u16 (sc_packet_id c) → preserves (in_order B) (in_order B) (subscribe_encoded c stream sample).
Proof. intros Hc. apply (host_call B B (CallSubscribeEncoded c stream)); simpl; done || lia. Qed.
Lemma unsubscribe_encoded_order c stream sample :
  wf_opt is_u16 (uc_packet_id c) → preserves (in_order B) (in_order B) (unsubscribe_encoded c stream sample).
Proof. intros Hc. apply (host_call B B (CallUnsubscribeEncoded c stream)); simpl; done || lia. Qed.
Lemma subscribe_order c sample :
  wf_opt is_u16 (sc_packet_id c) → preserves (in_order B) (in_order B) (subscribe c sample).
Proof. intros Hc. apply (host_call B B (CallSubscribe c)); simpl; done || lia. Qed.
Lemma unsubscribe_order c sample :
  wf_opt is_u16 (uc_packet_id c) → preserves (in_order B) (in_order B) (unsubscribe c sample).
Proof. intros Hc. apply (host_call B B (CallUnsubscribe c)); simpl; done || lia. Qed.
Lemma ping_order sample : preserves (in_order B) (in_order B) (try_send_ping sample).
Proof. apply (host_call B B CallPing); simpl; done || lia. Qed.
Lemma enqueue_packet_order p sample : preserves (in_order B) (in_order B) (enqueue_packet p sample).
Proof. apply (host_call B B (CallEnqueuePacket p)); simpl; done || lia. Qed.
Lemma take_events_order : preserves (in_order B) (in_order B) take_events.
Proof.
  apply ignored. intros e He. by apply (run_call_order B B ltac:(lia) ltac:(lia) CallTakeEvents (me_now e)); simpl; try lia.
Qed.
Lemma take_retransmissions_order : preserves (in_order B) (in_order B) take_stream_retransmissions.
Proof.
  apply ignored. intros e He.
  by apply (run_call_order B B ltac:(lia) ltac:(lia) CallTakeStreamRetransmissions (me_now e)); simpl; try lia.
Qed.
Lemma set_parse_level_order level : preserves (in_order B) (in_order B) (set_parse_level level).
Proof.
  intros e He.
  by apply (run_call_order B B ltac:(lia) ltac:(lia) (CallSetParseLevel level) (me_now e)); simpl; try lia.
Qed.
(** A step lemma at the engine's own time. *)
Lemma order_of_keeps {A} (m : St (MqttEngine T) A) :
  (∀ now U K e, good now B U K e → runs m e (λ _ e', in_order B e')) → preserves (in_order B) (in_order B) m.
Proof. intros Hm e He. eapply Hm. by apply in_order_good. Qed.
Lemma fail_connection_order error : preserves (in_order B) (in_order B) (fail_connection error).
Proof.
  apply order_of_keeps. intros now U K e He. eapply (order_of' B B), fail_connection_keeps; [lia..|done].
Qed.
Lemma commit_receive_ack_order id kind reason stream :
  preserves (in_order B) (in_order B) (commit_receive_ack id kind reason stream).
Proof.
  apply order_of_keeps. intros now U K e He. eapply (order_of' B B), commit_receive_ack_good; [lia..|done].
Qed.
Lemma ingest_order packet stream events :
  match packet with ParsedFull q => wf_packet q | _ => True end →
  preserves (in_order B) (in_order B) (ingest_parsed_stream_packet_into packet stream events).
Proof.
  intros Hp. apply order_of_keeps. intros t U K e He.
  eapply (order_of' B B), ingest_step; [lia..|done|done].
Qed.
End bound.

Context `{!HostClock T}.

Definition hosted_ok (B : Z) (e : HostedEngine T) : Prop := in_order B (hd_engine e).

Lemma on_hosted_ok {A} B B' (m : St (MqttEngine T) A) :
  preserves (in_order B) (in_order B') m → preserves (hosted_ok B) (hosted_ok B') (on_hosted m).
Proof. intros Hm. by apply (preserves_zoom _ _ _ _ _ _ _ Hm). Qed.
Lemma at_host_reading_ok {A} B B' (m : T → St (MqttEngine T) A) :
  (∀ sample, preserves (in_order B) (in_order B') (m sample)) →
  preserves (hosted_ok B) (hosted_ok B') (at_host_reading m).
Proof.
  intros Hm. unfold at_host_reading. apply preserves_get. intros self _.
  eapply (preserves_bind _ (hosted_ok B)); [by apply preserves_modify|]. intros []. by apply on_hosted_ok.
Qed.
Lemma hosted_up {A} B B' (m : St (HostedEngine T) A) :
  B <= B' → preserves (hosted_ok B) (hosted_ok B) m → preserves (hosted_ok B) (hosted_ok B') m.
Proof.
  intros HB Hm. eapply preserves_weaken; [exact Hm|done|]. intros e He. by eapply in_order_mono.
Qed.
Lemma hosted_call {A} B call (m : T → St (MqttEngine T) A) :
  B + 2 < u32_MAX → (∀ now, run_call call now = ignore (m now)) → call_ok call →
  preserves (hosted_ok B) (hosted_ok (B + 2)) (at_host_reading (λ sample, at_host sample m)).
Proof.
  intros HB Hm Hc. apply at_host_reading_ok. intros sample.
  apply (host_call B (B + 2) call); try done; [lia..|destruct call; simpl; lia].
Qed.
End host_safety.
