(* ===== verification/Worker.v ===== *)
(** * The worker of the asynchronous client

    Models [src/mqtt_client/tokio_async_client/worker.rs] with the commands, events and
    configuration of [tokio_async_client.rs]: the task that owns the protocol engine of
    [TokioAsyncMqttClient], serves commands, transport events, deadlines and publish admissions,
    and answers the callers that wait.

    The task is sequential between two polls of its [select!]; an iteration of the loop is a
    function of the branch that became ready ([Branch]), so a run of the task is a sequence of
    branches.  What the outside does is the class [TokioHost]: the outcome of writes and closes,
    the admissions that arrive while a callback runs, and the order in which hash maps are read.
    A sender of a oneshot channel is a number; what leaves the task (answers, batches of events,
    bytes) is recorded in [tw_trace], together with the senders that enter it, those dropped because
    their receiver is gone, and those displaced from a hash map.  Establishing a connection ([create_transport]) is I/O: only its
    start and its outcome are modelled. *)
From S2P Require Import Prelude BaseData TopicFilter Validation Properties Packets Framing Codec.
From S2P Require Import Stream Leveled Time PriorityQueue ClientError Options ClientTypes.
From S2P Require Import Commands Inflight ClientSession EngineState EngineCore EngineProtocol.
From S2P Require Import Engine EngineHost.

(** ** [TokioAsyncClientConfig], without the options of the QUIC and TLS features *)
Record TokioAsyncClientConfig : Type := {
  tc_auto_reconnect : bool;
  tc_max_reconnect_delay_ms : Z;
  tc_max_reconnect_attempts : Z;
  tc_command_queue_size : Z;
  tc_buffer_messages : bool;
  tc_max_buffer_size : Z;
  tc_tcp_nodelay : bool;
  tc_connect_timeout_ms : option Z;
  tc_subscribe_timeout_ms : option Z;
  tc_publish_ack_timeout_ms : option Z;
  tc_unsubscribe_timeout_ms : option Z;
  tc_ping_timeout_ms : option Z;
  tc_default_operation_timeout_ms : Z;
  tc_receive_maximum : option Z;
  tc_topic_alias_maximum : option Z;
  tc_priority_queue_enabled : bool;
  tc_priority_queue_limit : Z;
}.

#[export] Instance Rebuild_TokioAsyncClientConfig : Rebuild TokioAsyncClientConfig := λ c, {|
  tc_auto_reconnect := tc_auto_reconnect c; tc_max_reconnect_delay_ms := tc_max_reconnect_delay_ms c;
  tc_max_reconnect_attempts := tc_max_reconnect_attempts c;
  tc_command_queue_size := tc_command_queue_size c; tc_buffer_messages := tc_buffer_messages c;
  tc_max_buffer_size := tc_max_buffer_size c; tc_tcp_nodelay := tc_tcp_nodelay c;
  tc_connect_timeout_ms := tc_connect_timeout_ms c;
  tc_subscribe_timeout_ms := tc_subscribe_timeout_ms c;
  tc_publish_ack_timeout_ms := tc_publish_ack_timeout_ms c;
  tc_unsubscribe_timeout_ms := tc_unsubscribe_timeout_ms c; tc_ping_timeout_ms := tc_ping_timeout_ms c;
  tc_default_operation_timeout_ms := tc_default_operation_timeout_ms c;
  tc_receive_maximum := tc_receive_maximum c; tc_topic_alias_maximum := tc_topic_alias_maximum c;
  tc_priority_queue_enabled := tc_priority_queue_enabled c;
  tc_priority_queue_limit := tc_priority_queue_limit c |}.

Definition TokioAsyncClientConfig_default : TokioAsyncClientConfig := {|
  tc_auto_reconnect := true; tc_max_reconnect_delay_ms := 30000; tc_max_reconnect_attempts := 0;
  tc_command_queue_size := 1000; tc_buffer_messages := true; tc_max_buffer_size := 1000;
  tc_tcp_nodelay := true; tc_connect_timeout_ms := Some 30000; tc_subscribe_timeout_ms := Some 10000;
  tc_publish_ack_timeout_ms := Some 10000; tc_unsubscribe_timeout_ms := Some 10000;
  tc_ping_timeout_ms := Some 5000; tc_default_operation_timeout_ms := 30000;
  tc_receive_maximum := None; tc_topic_alias_maximum := None; tc_priority_queue_enabled := true;
  tc_priority_queue_limit := 1000 |}.

(** ** Resolving the options *)
Definition invalid_config (field reason : string) : MqttClientError := InvalidConfiguration field reason.

(** The loop of [merge_property]: whether the property is there already. *)
Fixpoint merge_property_loop (properties : list Property) (value : Property) (found : bool)
    : result MqttClientError bool :=
  match properties with
  | [] => Ok found
  | property :: properties =>
      if same_variant property value then
        if bool_decide (property ≠ value)
        then Err (invalid_config "CONNECT properties"
                    "Async configuration conflicts with core CONNECT properties")
        else merge_property_loop properties value true
      else merge_property_loop properties value found
  end.
Definition merge_property (options : MqttClientOptions) (value : Property)
    : result MqttClientError MqttClientOptions :=
  found ← merge_property_loop (mo_connect_properties options) value false;
  Ok (if negb found : bool then options <| mo_connect_properties ::= λ l, l ++ [value] |> else options).

Definition resolve_options (options : MqttClientOptions) (config : TokioAsyncClientConfig)
    : result MqttClientError MqttClientOptions :=
  if (tc_command_queue_size config =? 0) || (tc_default_operation_timeout_ms config =? 0)
  then Err (invalid_config "async configuration"
              "Command capacity and default operation timeout must be nonzero") else
  options ← match tc_receive_maximum config with
            | Some maximum =>
                if (maximum =? 0) || from_option (λ value, negb (value =? maximum)) false
                                       (mo_incoming_receive_maximum options)
                then Err (invalid_config "receive_maximum"
                            "Receive Maximum is zero or conflicts with core options") else
                options ← merge_property options (ReceiveMaximum maximum);
                Ok (options <| mo_incoming_receive_maximum := Some maximum |>)
            | None => Ok options
            end;
  options ← match tc_topic_alias_maximum config with
            | Some maximum => merge_property options (TopicAliasMaximum maximum)
            | None => Ok options
            end;
  let timeouts := mo_operation_timeouts options in
  let connect := match ot_connect timeouts with
                 | Some d => Some d
                 | None => Duration_from_millis <$> tc_connect_timeout_ms config
                 end in
  let options :=
    options <| mo_reconnect := tc_auto_reconnect config |>
            <| mo_reconnect_max_delay_ms := tc_max_reconnect_delay_ms config |>
            <| mo_max_reconnect_attempts := tc_max_reconnect_attempts config |>
            <| mo_operation_timeouts := {| ot_connect := connect; ot_publish := ot_publish timeouts;
                 ot_subscribe := ot_subscribe timeouts; ot_unsubscribe := ot_unsubscribe timeouts |} |> in
  if tc_priority_queue_enabled config then
    if tc_priority_queue_limit config =? 0
    then Err (invalid_config "priority_queue_limit" "Priority queue capacity must be nonzero") else
    Ok (options <| mo_max_outgoing_packet_count ::= λ n, Z.min n (tc_priority_queue_limit config) |>)
  else Ok options.

(** ** Commands, answers and events *)

(** A [Response<T>]: the sender of a oneshot channel. *)
Abbreviation Response := nat.

Inductive TokioClientCommand : Type :=
  | TcConnect
  | TcConnectSync (response_tx : Response)
  | TcSubscribe (command : SubscribeCommand)
  | TcSubscribeSync (command : SubscribeCommand) (response_tx : Response)
  | TcPublish (command : PublishCommand)
  | TcPublishSync (command : PublishCommand) (response_tx : Response)
  | TcUnsubscribe (command : UnsubscribeCommand)
  | TcUnsubscribeSync (command : UnsubscribeCommand) (response_tx : Response)
  | TcPing
  | TcPingSync (response_tx : Response)
  | TcDisconnect (reason_code : Z) (properties : list Property) (response_tx : option Response)
  | TcAcknowledge (kind packet_id reason_code : Z) (properties : list Property) (response_tx : Response)
  | TcShutdown
  | TcSetAutoReconnect (enabled : bool)
  | TcAuth (reason_code : Z) (properties : list Property)
  | TcSendPacket (packet : MqttPacket).

Record PublishAdmission : Type := { pa_command : PublishCommand; pa_response_tx : Response }.

(** What is sent on a oneshot channel, by the type of the channel. *)
Inductive Answer : Type :=
  | AnsConnect (r : MqttClientError + ConnectionResult)
  | AnsPublish (r : MqttClientError + PublishResult)
  | AnsSubscribe (r : MqttClientError + SubscribeResult)
  | AnsUnsubscribe (r : MqttClientError + UnsubscribeResult)
  | AnsPing (r : MqttClientError + PingResult)
  | AnsDone (r : MqttClientError + ())
  | AnsAdmission (r : MqttClientError + option Z).

(** [TokioMqttEvent], without the variants that nothing sends. *)
Inductive TokioMqttEvent : Type :=
  | TkConnected (result : ConnectionResult)
  | TkDisconnected (reason : option Z)
  | TkPublished (result : PublishResult)
  | TkSubscribed (result : SubscribeResult)
  | TkUnsubscribed (result : UnsubscribeResult)
  | TkMessageReceived (message : MqttPublish5)
  | TkPingResponse (result : PingResult)
  | TkError (error : MqttClientError)
  | TkConnectionLost
  | TkReconnectAttempt (attempt : Z)
  | TkAuthReceived (result : AuthResult)
  | TkDisconnectReceived (reason_code : Z) (properties : list Property)
  | TkPubRelReceived (packet_id : Z)
  | TkEngineEvent (event : MqttEvent).

(** What the task takes from and gives to the outside. *)
Inductive Trace : Type :=
  | TrSubmitted (tx : Response)
  | TrAnswered (tx : Response) (answer : Answer)
  | TrDropped (tx : Response)
  | TrDisplaced (tx : Response)
  | TrDelivered (batch : list TokioMqttEvent)
  | TrNodelay
  | TrWritten (data : bytes)
  | TrClosed.

Inductive WriteResult : Type := WrDone | WrTimeout | WrError (error : IoErrorValue).
Inductive CloseResult : Type := ClDone | ClTimeout | ClError (text : string).

(** The outcomes are those at a point of the trace; a callback sees admissions, or the end of
    their channel ([None]). *)
Class TokioHost : Type := {
  write_all_result : nat → WriteResult;
  close_result : nat → CloseResult;
  set_nodelay_result : nat → option string;
  during_callback : nat → list (option PublishAdmission);
  iter_waiters : gmap Z Response → list (Z * Response);
}.
Class TokioHostLaws `{TokioHost} : Prop := {
  iter_waiters_perm m : iter_waiters m ≡ₚ map_to_list m;
}.

(** ** The state *)
Inductive ConnectionState : Type :=
  | StDisconnected
  | StConnecting
  | StConnected (result : ConnectionResult)
  | StDisconnecting.

Definition is_disconnected (state : ConnectionState) : bool :=
  match state with StDisconnected => true | _ => false end.

Record Pending : Type := {
  pd_connect : list Response;
  pd_publish : gmap Z Response;
  pd_subscribe : gmap Z Response;
  pd_unsubscribe : gmap Z Response;
  pd_ping : list Response;
}.
Definition Pending_default : Pending :=
  {| pd_connect := []; pd_publish := ∅; pd_subscribe := ∅; pd_unsubscribe := ∅; pd_ping := [] |}.
#[export] Instance Rebuild_Pending : Rebuild Pending := λ p,
  {| pd_connect := pd_connect p; pd_publish := pd_publish p; pd_subscribe := pd_subscribe p;
     pd_unsubscribe := pd_unsubscribe p; pd_ping := pd_ping p |}.

Record TokioClientWorker (T : Type) : Type := {
  tw_engine : HostedEngine T;
  tw_stream : bool;
  tw_state : ConnectionState;
  tw_connecting : bool;
  tw_intentional_stop : bool;
  tw_pending : Pending;
  tw_admission_open : bool;
  tw_admission_transport_failed : bool;
  tw_admission_needs_drain : bool;
  tw_config : TokioAsyncClientConfig;
  (** The receivers that are gone, and what left the task. *)
  tw_closed : gset Response;
  tw_trace : list Trace;
}.
Arguments tw_engine {_} _.
Arguments tw_stream {_} _.
Arguments tw_state {_} _.
Arguments tw_connecting {_} _.
Arguments tw_intentional_stop {_} _.
Arguments tw_pending {_} _.
Arguments tw_admission_open {_} _.
Arguments tw_admission_transport_failed {_} _.
Arguments tw_admission_needs_drain {_} _.
Arguments tw_config {_} _.
Arguments tw_closed {_} _.
Arguments tw_trace {_} _.

#[export] Instance Rebuild_TokioClientWorker T : Rebuild (TokioClientWorker T) := λ s, {|
  tw_engine := tw_engine s; tw_stream := tw_stream s; tw_state := tw_state s;
  tw_connecting := tw_connecting s; tw_intentional_stop := tw_intentional_stop s;
  tw_pending := tw_pending s; tw_admission_open := tw_admission_open s;
  tw_admission_transport_failed := tw_admission_transport_failed s;
  tw_admission_needs_drain := tw_admission_needs_drain s; tw_config := tw_config s;
  tw_closed := tw_closed s; tw_trace := tw_trace s |}.

Section worker.
Context {T : Type} `{TimePoint T, !Runtime T, !HostClock T, !TokioHost}.
Implicit Types (self : TokioClientWorker T).
Local Abbreviation M := (St (TokioClientWorker T)).

(** [readings] is the number of readings of the clock before. *)
Definition TokioClientWorker_new (options : MqttClientOptions) (config : TokioAsyncClientConfig)
    (readings : nat) : TokioClientWorker T := {|
  tw_engine := {| hd_engine := MqttEngine_new options (clock_reading readings);
                  hd_readings := S readings |};
  tw_stream := false; tw_state := StDisconnected; tw_connecting := false;
  tw_intentional_stop := false; tw_pending := Pending_default; tw_admission_open := true;
  tw_admission_transport_failed := false; tw_admission_needs_drain := false; tw_config := config;
  tw_closed := ∅; tw_trace := [] |}.

(** [self.engine.f()] *)
Definition on_worker_engine {A} (m : St (HostedEngine T) A) : M A :=
  zoom tw_engine (λ engine self, self <| tw_engine := engine |>) m.
Definition engine_at {A} (m : T → St (MqttEngine T) A) : M A := on_worker_engine (at_host_reading m).
Definition engine_mut_w {A} (m : St (MqttEngine T) A) : M A := on_worker_engine (on_hosted m).
Definition worker_core self : MqttEngine T := hd_engine (tw_engine self).
Definition push_trace (item : Trace) : M () := modify (λ self, self <| tw_trace ::= λ l, l ++ [item] |>).
(** [let _ = tx.send(..)] *)
Definition send_response (answer : Answer) (tx : Response) : M () := push_trace (TrAnswered tx answer).
Definition on_waiting (f : Pending → Pending) : M () := modify (λ self, self <| tw_pending ::= f |>).

(** ** [Pending] *)

(** [for tx in self.connect.drain(..) { let _ = tx.send(..); }] *)
Definition answer_connect (r : MqttClientError + ConnectionResult) : M () :=
  self ← get_st;
  on_waiting (λ p, p <| pd_connect := [] |>);;
  for_each_st (pd_connect (tw_pending self)) (send_response (AnsConnect r)).
Definition answer_ping (r : MqttClientError + PingResult) : M () :=
  self ← get_st;
  on_waiting (λ p, p <| pd_ping := [] |>);;
  for_each_st (pd_ping (tw_pending self)) (send_response (AnsPing r)).
Definition fail_connect (error : MqttClientError) : M () := answer_connect (inl error).
Definition fail_ping (error : MqttClientError) : M () := answer_ping (inl error).

(** [for (_, tx) in self.publish.drain() { .. }] *)
Definition fail_publish (error : MqttClientError) : M () :=
  self ← get_st;
  on_waiting (λ p, p <| pd_publish := ∅ |>);;
  for_each_st (iter_waiters (pd_publish (tw_pending self))) (λ w, send_response (AnsPublish (inl error)) w.2).
Definition fail_subscribe (error : MqttClientError) : M () :=
  self ← get_st;
  on_waiting (λ p, p <| pd_subscribe := ∅ |>);;
  for_each_st (iter_waiters (pd_subscribe (tw_pending self))) (λ w, send_response (AnsSubscribe (inl error)) w.2).
Definition fail_unsubscribe (error : MqttClientError) : M () :=
  self ← get_st;
  on_waiting (λ p, p <| pd_unsubscribe := ∅ |>);;
  for_each_st (iter_waiters (pd_unsubscribe (tw_pending self))) (λ w, send_response (AnsUnsubscribe (inl error)) w.2).

Definition fail_all (error : MqttClientError) : M () :=
  fail_connect error;;
  fail_ping error;;
  fail_publish error;;
  fail_subscribe error;;
  fail_unsubscribe error.

(** Every sender that waits, in the order of [prune]. *)
Definition waiters (p : Pending) : list Response :=
  pd_connect p ++ pd_ping p ++ (map_to_list (pd_publish p)).*2 ++ (map_to_list (pd_subscribe p)).*2
    ++ (map_to_list (pd_unsubscribe p)).*2.

Definition prune : M () :=
  self ← get_st;
  let gone := tw_closed self in
  let keep (tx : Response) := tx ∉ gone in
  let keep_entry (w : Z * Response) := w.2 ∉ gone in
  on_waiting (λ p,
    {| pd_connect := filter keep (pd_connect p); pd_ping := filter keep (pd_ping p);
       pd_publish := filter keep_entry (pd_publish p); pd_subscribe := filter keep_entry (pd_subscribe p);
       pd_unsubscribe := filter keep_entry (pd_unsubscribe p) |});;
  for_each_st (filter (.∈ gone) (waiters (tw_pending self))) (λ tx, push_trace (TrDropped tx)).

Definition poll_cancelled self : bool :=
  existsb (λ tx, bool_decide (tx ∈ tw_closed self)) (waiters (tw_pending self)).

(** [self.pending.publish.remove(&id)], and the answer to the sender found; the sender that
    [insert] displaces is dropped. *)
Definition resolve_publish (id : option Z) (r : MqttClientError + PublishResult) : M () :=
  self ← get_st;
  match id ≫= λ id, pd_publish (tw_pending self) !! id, id with
  | Some tx, Some id =>
      on_waiting (λ p, p <| pd_publish ::= delete id |>);; send_response (AnsPublish r) tx
  | _, _ => mret ()
  end.
Definition resolve_subscribe (id : option Z) (r : MqttClientError + SubscribeResult) : M () :=
  self ← get_st;
  match id ≫= λ id, pd_subscribe (tw_pending self) !! id, id with
  | Some tx, Some id =>
      on_waiting (λ p, p <| pd_subscribe ::= delete id |>);; send_response (AnsSubscribe r) tx
  | _, _ => mret ()
  end.
Definition resolve_unsubscribe (id : option Z) (r : MqttClientError + UnsubscribeResult) : M () :=
  self ← get_st;
  match id ≫= λ id, pd_unsubscribe (tw_pending self) !! id, id with
  | Some tx, Some id =>
      on_waiting (λ p, p <| pd_unsubscribe ::= delete id |>);; send_response (AnsUnsubscribe r) tx
  | _, _ => mret ()
  end.
Definition displaced (old : option Response) : M () :=
  match old with Some tx => push_trace (TrDisplaced tx) | None => mret () end.
Definition wait_publish (id : Z) (tx : Response) : M () :=
  self ← get_st;
  on_waiting (λ p, p <| pd_publish ::= <[id := tx]> |>);;
  displaced (pd_publish (tw_pending self) !! id).
Definition wait_subscribe (id : Z) (tx : Response) : M () :=
  self ← get_st;
  on_waiting (λ p, p <| pd_subscribe ::= <[id := tx]> |>);;
  displaced (pd_subscribe (tw_pending self) !! id).
Definition wait_unsubscribe (id : Z) (tx : Response) : M () :=
  self ← get_st;
  on_waiting (λ p, p <| pd_unsubscribe ::= <[id := tx]> |>);;
  displaced (pd_unsubscribe (tw_pending self) !! id).

(** ** Publishing *)
Definition publish_command (config : TokioAsyncClientConfig) (intentional_stop : bool)
    (command : PublishCommand) : M (MqttClientError + option Z) :=
  self ← get_st;
  let engine := worker_core self in
  let offline := negb (MqttEngine_is_connected engine) in
  if offline && (negb (tc_buffer_messages config) || intentional_stop) then err NotConnected else
  if offline && (tc_max_buffer_size config <=? pending_publish_count engine)
  then err (BufferFull "offline publish queue" (tc_max_buffer_size config)) else
  let command := if negb (tc_priority_queue_enabled config)
                 then command <| pc_priority := 128 |> else command in
  engine_at (publish command).

Definition worker_publish (command : PublishCommand) : M (MqttClientError + option Z) :=
  self ← get_st;
  if tw_admission_transport_failed self then err NotConnected else
  publish_command (tw_config self) (tw_intentional_stop self) command.

Definition worker_admit (request : PublishAdmission) : M () :=
  result ← worker_publish (pa_command request);
  send_response (AnsAdmission result) (pa_response_tx request).

(** ** Events *)

(** The loop of [deliver_batch] until the callback is done. *)
Fixpoint serve_admissions (requests : list (option PublishAdmission)) : M () :=
  match requests with
  | [] => mret ()
  | request :: requests =>
      self ← get_st;
      if negb (tw_admission_open self) then mret () else
      match request with
      | Some request =>
          push_trace (TrSubmitted (pa_response_tx request));;
          modify (λ self, self <| tw_admission_needs_drain := true |>);;
          result ← (if tw_admission_transport_failed self then err NotConnected
                    else publish_command (tw_config self) (tw_intentional_stop self) (pa_command request));
          send_response (AnsAdmission result) (pa_response_tx request)
      | None => modify (λ self, self <| tw_admission_open := false |>)
      end;;
      serve_admissions requests
  end.

Definition deliver_batch (events : list TokioMqttEvent) : M () :=
  self ← get_st;
  push_trace (TrDelivered events);;
  serve_admissions (during_callback (length (tw_trace self))).
Definition emit_batch (batch : list TokioMqttEvent) : M () :=
  match batch with [] => mret () | _ => deliver_batch batch end.
Definition emit_event (event : TokioMqttEvent) : M () := emit_batch [event].

Definition record_connection_lost (reason : option Z) : M (list TokioMqttEvent) :=
  self ← get_st;
  if is_disconnected (tw_state self) then mret [] else
  modify (λ self, self <| tw_stream := false |> <| tw_connecting := false |>
                       <| tw_state := StDisconnected |>);;
  engine_at handle_connection_lost;;
  let error := ConnectionLost "MQTT transport closed" in
  fail_connect error;;
  fail_ping error;;
  self ← get_st;
  over ← (if negb (tc_auto_reconnect (tw_config self)) || tw_intentional_stop self then mret true
          else next ← lift (next_tick_at (worker_core self));
               mret match next with None => true | Some _ => false end);
  (if over : bool then fail_all error else mret ());;
  mret [TkDisconnected reason; TkConnectionLost].

(** An event of the engine; [next] is the one behind it.  The result is what goes to the batch. *)
Definition dispatch_event (event : MqttEvent) (next : option MqttEvent) : M (list TokioMqttEvent) :=
  match event with
  | Connected result =>
      modify (λ self, self <| tw_state := StConnected result |>);;
      answer_connect (inr result);;
      lost ← (if negb (ConnectionResult_is_success result)
              then record_connection_lost (Some (cr_reason_code result)) else mret []);
      mret (TkConnected result :: lost)
  | Disconnected reason =>
      self ← get_st;
      if is_disconnected (tw_state self) then mret [TkEngineEvent (Disconnected reason)]
      else record_connection_lost reason
  | DisconnectReceived reason_code properties =>
      lost ← record_connection_lost (Some reason_code);
      mret (TkDisconnectReceived reason_code properties :: lost)
  | Published result =>
      resolve_publish (pr_packet_id result) (inr result);;
      mret [TkPublished result]
  | Subscribed result =>
      resolve_subscribe (Some (sr_packet_id result)) (inr result);;
      mret [TkSubscribed result]
  | Unsubscribed result =>
      resolve_unsubscribe (Some (ur_packet_id result)) (inr result);;
      mret [TkUnsubscribed result]
  | MessageReceived message => mret [TkMessageReceived message]
  | PubRelReceived packet_id _ => mret [TkPubRelReceived packet_id]
  | PingResponse result =>
      answer_ping (inr result);;
      mret [TkPingResponse result]
  | AuthReceived result => mret [TkAuthReceived result]
  | OperationFailed operation packet_id error =>
      match operation with
      | OpConnect => fail_connect error
      | OpPublish => resolve_publish packet_id (inl error)
      | OpSubscribe => resolve_subscribe packet_id (inl error)
      | OpUnsubscribe => resolve_unsubscribe packet_id (inl error)
      end;;
      lost ← match operation with OpConnect => record_connection_lost None | _ => mret [] end;
      mret (TkError error :: lost)
  | ErrorEvent error =>
      self ← get_st;
      match tw_state self with StConnecting => fail_connect error | _ => mret () end;;
      mret [TkError error]
  | ReconnectNeeded =>
      self ← get_st;
      lost ← (if tc_auto_reconnect (tw_config self) && negb (tw_intentional_stop self) then
                if tw_stream self then record_connection_lost None
                else if is_disconnected (tw_state self) then
                  modify (λ self, self <| tw_state := StConnecting |> <| tw_connecting := true |>);;
                  mret []
                else mret []
              else mret []);
      mret (TkEngineEvent ReconnectNeeded :: lost)
  | ReconnectScheduled attempt delay =>
      self ← get_st;
      mret [if tc_auto_reconnect (tw_config self) && negb (tw_intentional_stop self)
            then TkReconnectAttempt attempt else TkEngineEvent (ReconnectScheduled attempt delay)]
  | PublishReceived packet_id stream =>
      mret match next with
           | Some (MessageReceived _) => []
           | _ => [TkEngineEvent (PublishReceived packet_id stream)]
           end
  | event => mret [TkEngineEvent event]
  end.

Fixpoint dispatch_loop (events : list MqttEvent) : M (list TokioMqttEvent) :=
  match events with
  | [] => mret []
  | event :: events =>
      out ← dispatch_event event (head events);
      rest ← dispatch_loop events;
      mret (out ++ rest)
  end.

Definition dispatch_events (events : list MqttEvent) : M () :=
  match events with
  | [] => mret ()
  | _ => batch ← dispatch_loop events; emit_batch batch
  end.

Definition transport_failed (error : MqttClientError) : M () :=
  lost ← record_connection_lost None;
  modify (λ self, self <| tw_admission_transport_failed := false |>);;
  emit_batch (TkError error :: lost).

(** ** Output *)
Definition write_output : M (MqttClientError + ()) :=
  b ← engine_at take_outgoing;
  match b with
  | [] => ok ()
  | _ =>
      self ← get_st;
      if negb (tw_stream self) then err NotConnected else
      push_trace (TrWritten b);;
      match write_all_result (length (tw_trace self)) with
      | WrDone => ok ()
      | WrTimeout => err (OperationTimeout "transport write" (tc_default_operation_timeout_ms (tw_config self)))
      | WrError error => err (from_io_error error "transport write")
      end
  end.

Definition handle_outgoing : M (MqttClientError + ()) :=
  modify (λ self, self <| tw_admission_needs_drain := false |>);;
  result ← write_output;
  modify (λ self, self <| tw_admission_transport_failed :=
                            match result with inl _ => true | inr _ => false end |>);;
  events ← engine_mut_w take_events;
  dispatch_events events;;
  mret result.

Definition close_stream : M (MqttClientError + ()) :=
  self ← get_st;
  if negb (tw_stream self) then ok () else
  modify (λ self, self <| tw_stream := false |>);;
  push_trace TrClosed;;
  match close_result (length (tw_trace self)) with
  | ClDone => ok ()
  | ClTimeout => err (OperationTimeout "transport close" (tc_default_operation_timeout_ms (tw_config self)))
  | ClError text => err (NetworkError KindOther text)
  end.

Definition worker_disconnect (reason : Z) (properties : list Property) : M (MqttClientError + ()) :=
  _ ←? engine_at (try_disconnect_with reason properties);
  self ← get_st;
  let active := negb (is_disconnected (tw_state self)) in
  modify (λ self, self <| tw_state := StDisconnecting |> <| tw_intentional_stop := true |>);;
  engine_mut_w (set_reconnect false);;
  modify (λ self, self <| tw_connecting := false |>);;
  fail_all (OperationCancelled "disconnect");;
  write ← write_output;
  close ← close_stream;
  engine_at reset_for_new_transport;;
  modify (λ self, self <| tw_state := StDisconnected |>);;
  (if active then emit_event (TkDisconnected (Some reason)) else mret ());;
  mret match write with inl error => inl error | inr () => close end.

(** ** Connections *)
Definition start_connect : M () :=
  self ← get_st;
  if negb (is_disconnected (tw_state self)) then mret () else
  modify (λ self, self <| tw_intentional_stop := false |>);;
  engine_mut_w (set_reconnect (tc_auto_reconnect (tw_config self)));;
  engine_mut_w reset_reconnect_state;;
  modify (λ self, self <| tw_state := StConnecting |> <| tw_connecting := true |>).

Definition transport_connected (result : MqttClientError + ()) : M () :=
  result ← match result with
           | inr () =>
               self ← get_st;
               (if tc_tcp_nodelay (tw_config self) then
                  push_trace TrNodelay;;
                  match set_nodelay_result (length (tw_trace self)) with
                  | Some error => emit_event (TkError (NetworkError KindOther ("TCP_NODELAY: " +:+ error)))
                  | None => mret ()
                  end
                else mret ());;
               modify (λ self, self <| tw_stream := true |>);;
               engine_at reset_for_new_transport;;
               engine_at connect
           | inl error => mret (inl error)
           end;
  match result with
  | inl error => fail_connect error;; transport_failed error
  | inr () => mret ()
  end.

(** ** Commands *)
Definition worker_acknowledge (kind id reason : Z) (properties : list Property)
    : M (MqttClientError + ()) :=
  match kind with
  | 4 => engine_at (puback id reason properties)
  | 5 => engine_at (pubrec id reason properties)
  | 7 => engine_at (pubcomp id reason properties)
  | _ => λ _, Panic
  end.

Definition worker_ping : M (MqttClientError + ()) :=
  self ← get_st;
  if negb (MqttEngine_is_connected (worker_core self)) then err NotConnected else engine_at send_ping.

(** [f().map(|_| ())] *)
Definition discard_value {A} (m : M (MqttClientError + A)) : M (MqttClientError + ()) := _ ←? m; ok ().

(** [let _ = response_tx.send(Err(error.clone())); self.emit_event(..)] *)
Definition refuse_waiter (answer : Answer) (tx : Response) (error : MqttClientError) : M () :=
  send_response answer tx;; emit_event (TkError error).

Definition send_packet (packet : MqttPacket) : M (MqttClientError + ()) :=
  match packet with
  | PubAck5 p => engine_at (puback (a5_packet_id p) (a5_reason_code p) (a5_properties p))
  | PubRec5 p => engine_at (pubrec (a5_packet_id p) (a5_reason_code p) (a5_properties p))
  | PubComp5 p => engine_at (pubcomp (a5_packet_id p) (a5_reason_code p) (a5_properties p))
  | PubAck3 p => engine_at (puback (a3_message_id p) 0 [])
  | PubRec3 p => engine_at (pubrec (a3_message_id p) 0 [])
  | PubComp3 p => engine_at (pubcomp (a3_message_id p) 0 [])
  | Disconnect5 p => worker_disconnect (d5_reason_code p) (d5_properties p)
  | Disconnect3 => worker_disconnect 0 []
  | Auth p => engine_at (auth (au_reason_code p) (au_properties p))
  | packet => engine_at (enqueue_packet packet)
  end.

(** The [match] of [handle_command]; an early [return] skips nothing but the report of an
    error. *)
Definition command_result (command : TokioClientCommand) : M (MqttClientError + ()) :=
  match command with
  | TcConnect => start_connect;; ok ()
  | TcConnectSync tx =>
      self ← get_st;
      match tw_state self with
      | StConnected result => send_response (AnsConnect (inr result)) tx
      | _ => on_waiting (λ p, p <| pd_connect ::= λ l, l ++ [tx] |>);; start_connect
      end;;
      ok ()
  | TcPublish command => discard_value (worker_publish command)
  | TcPublishSync command tx =>
      r ← worker_publish command;
      match r with
      | inr (Some id) => wait_publish id tx
      | inr None =>
          send_response (AnsPublish (inr {| pr_packet_id := None; pr_reason_code := None;
                                            pr_properties := None; pr_qos := 0 |})) tx
      | inl error => refuse_waiter (AnsPublish (inl error)) tx error
      end;;
      ok ()
  | TcSubscribe command => discard_value (engine_at (subscribe command))
  | TcSubscribeSync command tx =>
      self ← get_st;
      if bool_decide (tx ∈ tw_closed self) then push_trace (TrDropped tx);; ok () else
      r ← engine_at (subscribe command);
      match r with
      | inr id => wait_subscribe id tx
      | inl error => refuse_waiter (AnsSubscribe (inl error)) tx error
      end;;
      ok ()
  | TcUnsubscribe command => discard_value (engine_at (unsubscribe command))
  | TcUnsubscribeSync command tx =>
      r ← engine_at (unsubscribe command);
      match r with
      | inr id => wait_unsubscribe id tx
      | inl error => refuse_waiter (AnsUnsubscribe (inl error)) tx error
      end;;
      ok ()
  | TcPing => worker_ping
  | TcPingSync tx =>
      self ← get_st;
      r ← (if bool_decide (pd_ping (tw_pending self) = []) then worker_ping else ok ());
      match r with
      | inl error => refuse_waiter (AnsPing (inl error)) tx error
      | inr () => on_waiting (λ p, p <| pd_ping ::= λ l, l ++ [tx] |>)
      end;;
      ok ()
  | TcAcknowledge kind packet_id reason_code properties tx =>
      result ← worker_acknowledge kind packet_id reason_code properties;
      send_response (AnsDone result) tx;;
      mret result
  | TcDisconnect reason_code properties tx =>
      result ← worker_disconnect reason_code properties;
      match tx with Some tx => send_response (AnsDone result) tx | None => mret () end;;
      mret result
  | TcSetAutoReconnect enabled =>
      modify (λ self, self <| tw_config ::= λ c, c <| tc_auto_reconnect := enabled |> |>);;
      self ← get_st;
      engine_mut_w (set_reconnect (enabled && negb (tw_intentional_stop self)));;
      (if negb enabled && is_disconnected (tw_state self) then fail_all NotConnected
       else if is_disconnected (tw_state self) && negb (tw_intentional_stop self)
       then engine_at schedule_reconnect else mret ());;
      ok ()
  | TcAuth reason_code properties => engine_at (auth reason_code properties)
  | TcSendPacket packet => send_packet packet
  | TcShutdown => λ _, Panic
  end.

Definition handle_command (command : TokioClientCommand) : M () :=
  result ← command_result command;
  match result with inl error => emit_event (TkError error) | inr () => mret () end.

(** ** The loop *)

(** The senders that a command brings. *)
Definition command_txs (command : TokioClientCommand) : list Response :=
  match command with
  | TcConnectSync tx | TcSubscribeSync _ tx | TcPublishSync _ tx | TcUnsubscribeSync _ tx
  | TcPingSync tx | TcAcknowledge _ _ _ _ tx | TcDisconnect _ _ (Some tx) => [tx]
  | _ => []
  end.
Definition submit_all (txs : list Response) : M () := for_each_st txs (λ tx, push_trace (TrSubmitted tx)).

(** What became ready: a command; the end, by [Shutdown] or because the client is gone, with the
    admissions that are still queued; and the other branches of the [select!]. *)
Inductive Branch : Type :=
  | BrCommand (command : TokioClientCommand)
  | BrStop (queued : list PublishAdmission)
  | BrAdmission (request : option PublishAdmission)
  | BrTransport (result : MqttClientError + ())
  | BrRead (result : IoErrorValue + bytes)
  | BrDeadline
  | BrYield
  | BrCancelled.

Definition close_admissions (queued : list PublishAdmission) : M () :=
  modify (λ self, self <| tw_admission_open := false |>);;
  for_each_st queued (λ request,
    push_trace (TrSubmitted (pa_response_tx request));;
    send_response (AnsAdmission (inl (OperationCancelled "publish admission during shutdown")))
      (pa_response_tx request)).

Definition branch_ready self (deadline : option T) (branch : Branch) : bool :=
  match branch with
  | BrCommand TcShutdown => false
  | BrCommand _ | BrStop _ => true
  | BrAdmission _ => tw_admission_open self
  | BrTransport _ => tw_connecting self
  | BrRead _ => tw_stream self
  | BrDeadline => match deadline with Some _ => true | None => false end
  | BrYield => tw_admission_needs_drain self || has_pending_output (worker_core self)
  | BrCancelled => poll_cancelled self
  end.

Definition worker_stop (queued : list PublishAdmission) : M (MqttClientError + ()) :=
  close_admissions queued;;
  result ← worker_disconnect 0 [];
  match result with
  | inl error =>
      engine_mut_w (set_reconnect false);;
      modify (λ self, self <| tw_connecting := false |> <| tw_stream := false |>);;
      fail_all error;;
      self ← get_st;
      if negb (is_disconnected (tw_state self)) then emit_event (TkDisconnected None) else mret ()
  | inr () => mret ()
  end;;
  mret result.

Definition serve_branch (branch : Branch) : M () :=
  match branch with
  | BrCommand command => submit_all (command_txs command);; handle_command command
  | BrStop _ => mret ()
  | BrAdmission (Some request) => submit_all [pa_response_tx request];; worker_admit request
  | BrAdmission None => modify (λ self, self <| tw_admission_open := false |>)
  | BrTransport result =>
      modify (λ self, self <| tw_connecting := false |>);; transport_connected result
  | BrRead (inr (b :: bs)) =>
      events ← engine_at (handle_incoming (b :: bs)); dispatch_events events
  | BrRead (inr []) => transport_failed (ConnectionLost "Connection closed by server")
  | BrRead (inl error) => transport_failed (from_io_error error "transport read")
  | BrDeadline => events ← engine_at handle_tick; dispatch_events events
  | BrYield | BrCancelled => mret ()
  end.

(** One iteration; [dropped] are the receivers that went away while the task waited.  [Some] is
    the result of the task. *)
Definition run_iteration (dropped : list Response) (branch : Branch) : M (option (MqttClientError + ())) :=
  prune;;
  self ← get_st;
  deadline ← lift (next_tick_at (worker_core self));
  modify (λ self, self <| tw_closed ::= λ c, list_to_set dropped ∪ c |>);;
  self ← get_st;
  if negb (branch_ready self deadline branch) then mret None else
  match branch with
  | BrStop queued => result ← worker_stop queued; mret (Some result)
  | branch =>
      serve_branch branch;;
      result ← handle_outgoing;
      match result with inl error => transport_failed error | inr () => mret () end;;
      mret None
  end.

Fixpoint run_worker (branches : list (list Response * Branch)) : M (option (MqttClientError + ())) :=
  match branches with
  | [] => mret None
  | (dropped, branch) :: branches =>
      r ← run_iteration dropped branch;
      match r with Some result => mret (Some result) | None => run_worker branches end
  end.
End worker.
