(* ===== verification/WorkerSafety.v ===== *)
(** * The asynchronous worker never panics

    Every branch of the task's loop keeps the protocol engine in order, whatever the outside
    does. *)
From S2P Require Import Prelude BaseData TopicFilter Validation Properties Packets Framing Codec.
From S2P Require Import Stream Leveled Time PriorityQueue ClientError Options ClientTypes.
From S2P Require Import Commands Inflight ClientSession EngineState EngineCore EngineProtocol.
From S2P Require Import Engine EncodeFacts EngineInv EngineSteps EngineQueues EngineHandlers.
From S2P Require Import EngineConnect EngineReceive EngineInput EngineSafety EngineTimers.
From S2P Require Import EngineHost HostSafety Worker.

Create HintDb worker.

(** ** What may be asked of the worker *)
Definition admission_ok (request : PublishAdmission) : Prop := publish_command_ok (pa_command request).
Definition command_ok (command : TokioClientCommand) : Prop :=
  match command with
  | TcPublish c | TcPublishSync c _ => publish_command_ok c
  | TcSubscribe c | TcSubscribeSync c _ => wf_opt is_u16 (sc_packet_id c)
  | TcUnsubscribe c | TcUnsubscribeSync c _ => wf_opt is_u16 (uc_packet_id c)
  | TcAcknowledge kind _ _ _ _ => kind ∈ [4; 5; 7]
  | _ => True
  end.
Definition branch_ok (branch : Branch) : Prop :=
  match branch with
  | BrCommand command => command_ok command
  | BrAdmission (Some request) => admission_ok request
  | BrRead (inr b) => u8s b
  | _ => True
  end.

Section safety.
Context {T : Type} `{TimePointLaws T} `{!Runtime T} `{!RuntimeLaws T} `{!HostClock T} `{!TokioHost}.
Context (Hcallback : ∀ n request, Some request ∈ during_callback n → admission_ok request).
Implicit Types (self : TokioClientWorker T).
Local Abbreviation M := (St (TokioClientWorker T)).

Definition worker_ok (B : Z) self : Prop := in_order B (worker_core self).

Lemma worker_ok_mono B B' self : worker_ok B self → B <= B' → worker_ok B' self.
Proof. intros Hs HB. by eapply in_order_mono. Qed.
Lemma on_worker_engine_ok {A} B B' (m : St (HostedEngine T) A) :
  preserves (hosted_ok B) (hosted_ok B') m → preserves (worker_ok B) (worker_ok B') (on_worker_engine m).
Proof. intros Hm. by apply (preserves_zoom _ _ _ _ _ _ _ Hm). Qed.
Lemma engine_at_ok {A} B B' (m : T → St (MqttEngine T) A) :
  (∀ sample, preserves (in_order B) (in_order B') (m sample)) →
  preserves (worker_ok B) (worker_ok B') (engine_at m).
Proof. intros Hm. by apply on_worker_engine_ok, at_host_reading_ok. Qed.
Lemma engine_mut_ok {A} B B' (m : St (MqttEngine T) A) :
  preserves (in_order B) (in_order B') m → preserves (worker_ok B) (worker_ok B') (engine_mut_w m).
Proof. intros Hm. by apply on_worker_engine_ok, on_hosted_ok. Qed.
Lemma for_each_ok {A} (I : TokioClientWorker T → Prop) (l : list A) (f : A → M ()) :
  (∀ x, x ∈ l → preserves I I (f x)) → preserves I I (for_each_st l f).
Proof.
  induction l as [|x l IH]; intros Hf; [apply preserves_ret|].
  eapply preserves_bind; [apply Hf; left|]. intros []. apply IH. intros y Hy. apply Hf. by right.
Qed.

(** ** What costs nothing *)
Lemma free_modify B f :
  (∀ self, worker_core (f self) = worker_core self) → preserves (worker_ok B) (worker_ok B) (modify f).
Proof. intros Hf. apply preserves_modify. intros s Hs. unfold worker_ok. by rewrite Hf. Qed.
(** Follows the text; what it cannot do is left. *)
Ltac free_step :=
  lazymatch goal with
  | |- preserves _ _ (mret _) => apply preserves_ret
  | |- preserves _ _ (ok _) => apply preserves_ret
  | |- preserves _ _ (err _) => apply preserves_ret
  | |- preserves _ _ (push_trace _) => by apply free_modify
  | |- preserves _ _ (send_response _ _) => by apply free_modify
  | |- preserves _ _ (on_waiting _) => by apply free_modify
  | |- preserves _ _ (modify _) => by apply free_modify
  | |- preserves _ _ (for_each_st _ _) => apply for_each_ok; intros ? _
  | |- preserves _ _ (get_st ≫= _) => apply preserves_get; intros ? ?
  | Hs : worker_ok _ ?self |- preserves _ _ (lift (next_tick_at (worker_core ?self)) ≫= _) =>
      destruct (next_tick_defined _ (proj1 Hs)) as [? Hnext]; apply (preserves_lift_bind _ _ _ _ _ Hnext)
  | |- preserves _ _ (try_bind _ _) => apply preserves_try_bind; [|intros ?]
  | |- preserves (worker_ok ?B) _ (_ ≫= _) => eapply (preserves_bind _ (worker_ok B)); [|intros ?]
  | |- preserves _ _ (match ?x with _ => _ end) => destruct x
  end.
Ltac free_auto := repeat free_step.

Section free.
Context (B : Z) (HB : B + 1 <= u32_MAX).
Local Abbreviation free m := (preserves (worker_ok B) (worker_ok B) m).

Lemma free_call {A} call (m : T → St (MqttEngine T) A) :
  (∀ now, run_call call now = ignore (m now)) → call_ok call → call_cost call = 0 →
  free (engine_at (λ sample, at_host sample m)).
Proof. intros Hm Hc Hz. apply engine_at_ok. intros sample. apply (host_call B B call); try done; lia. Qed.

Ltac free_host call := apply (free_call call); [done|try done|done].

Lemma free_fail_connect error : free (fail_connect error).
Proof. unfold fail_connect, answer_connect. free_auto. Qed.
Lemma free_fail_ping error : free (fail_ping error).
Proof. unfold fail_ping, answer_ping. free_auto. Qed.
Lemma free_fail_all error : free (fail_all error).
Proof. unfold fail_all, fail_connect, fail_ping, fail_publish, fail_subscribe, fail_unsubscribe, answer_connect,
    answer_ping. free_auto. Qed.
Lemma free_prune : free prune.
Proof. unfold prune. free_auto. Qed.

Lemma free_publish command : publish_command_ok command → free (engine_at (publish command)).
Proof. intros Hc. free_host (CallPublish command). Qed.
Lemma free_publish_command config stopped command :
  publish_command_ok command → free (publish_command config stopped command).
Proof. intros Hc. unfold publish_command. free_auto. apply free_publish. by destruct (negb _). Qed.
Lemma free_worker_publish command : publish_command_ok command → free (worker_publish command).
Proof. intros Hc. unfold worker_publish. free_auto. by apply free_publish_command. Qed.

Lemma free_serve_admissions requests :
  (∀ request, Some request ∈ requests → admission_ok request) → free (serve_admissions requests).
Proof.
  induction requests as [|request requests IH]; intros Hr; cbn [serve_admissions]; [apply preserves_ret|].
  apply preserves_get. intros self Hs. destruct (negb _); [apply preserves_ret|].
  eapply (preserves_bind _ (worker_ok B)); [|intros []; apply IH; intros r Hin; apply Hr; by right].
  destruct request as [request|]; free_auto. apply free_publish_command, (Hr request). left.
Qed.
Lemma free_emit_batch batch : free (emit_batch batch).
Proof.
  unfold emit_batch, deliver_batch. destruct batch; free_auto. apply free_serve_admissions. apply Hcallback.
Qed.
Lemma free_emit_event event : free (emit_event event).
Proof. apply free_emit_batch. Qed.

Lemma free_take_outgoing : free (engine_at take_outgoing).
Proof. apply engine_at_ok. intros sample. by apply take_outgoing_order. Qed.
Lemma free_lost : free (engine_at handle_connection_lost).
Proof. apply engine_at_ok. intros sample. by apply lost_order. Qed.
Lemma free_incoming b : u8s b → free (engine_at (handle_incoming b)).
Proof. intros Hb. apply engine_at_ok. intros sample. by apply handle_incoming_order. Qed.
Lemma free_schedule : free (engine_at schedule_reconnect).
Proof.
  apply engine_at_ok. intros sample. apply report_error_preserves.
  by apply (host_call B B CallScheduleReconnect); simpl; done || lia.
Qed.
Lemma free_take_events : free (engine_mut_w take_events).
Proof. apply engine_mut_ok. by apply take_events_order. Qed.
Lemma free_reset_reconnect : free (engine_mut_w reset_reconnect_state).
Proof.
  apply engine_mut_ok. intros e He. 
  by apply (run_call_order B B ltac:(lia) ltac:(lia) CallResetReconnectState (me_now e)); simpl; try lia.
Qed.

Lemma free_record_connection_lost reason : free (record_connection_lost reason).
Proof.
  unfold record_connection_lost. free_auto; 
    eauto using free_lost, free_fail_connect, free_fail_ping, free_fail_all.
Qed.

(** *** The loop's own steps *)
#[local] Hint Resolve free_fail_connect free_fail_ping free_fail_all free_lost free_take_outgoing
  free_schedule free_take_events free_reset_reconnect free_emit_event free_emit_batch
  free_record_connection_lost : worker.

Lemma free_dispatch_event event next : free (dispatch_event event next).
Proof.
  unfold dispatch_event, resolve_publish, resolve_subscribe, resolve_unsubscribe, answer_connect, answer_ping.
  destruct event; free_auto; eauto with worker.
Qed.
Lemma free_dispatch_events events : free (dispatch_events events).
Proof.
  unfold dispatch_events. destruct events as [|event events]; free_auto; [|auto with worker].
  generalize (event :: events). clear event events. intros events.
  induction events as [|event events IH]; cbn [dispatch_loop]; free_auto; auto using free_dispatch_event.
Qed.
Lemma free_transport_failed error : free (transport_failed error).
Proof. unfold transport_failed. free_auto; auto with worker. Qed.
Lemma free_write_output : free write_output.
Proof. unfold write_output. free_auto; auto with worker. Qed.
Lemma free_handle_outgoing : free handle_outgoing.
Proof. unfold handle_outgoing. free_auto; auto using free_write_output, free_dispatch_events with worker. Qed.
Lemma free_close_stream : free close_stream.
Proof. unfold close_stream. free_auto. Qed.

Lemma free_ack kind id reason ps : kind ∈ [4; 5; 7] → free (worker_acknowledge kind id reason ps).
Proof.
  intros Hk. apply elem_of_cons in Hk as [->|Hk]; [free_host (CallPuback id reason ps)|].
  apply elem_of_cons in Hk as [->|Hk]; [free_host (CallPubrec id reason ps)|].
  apply list_elem_of_singleton in Hk as ->. free_host (CallPubcomp id reason ps).
Qed.
Lemma free_ping : free worker_ping.
Proof. unfold worker_ping. free_auto. free_host CallPing. Qed.
Lemma free_subscribe c : wf_opt is_u16 (sc_packet_id c) → free (engine_at (subscribe c)).
Proof. intros Hc. free_host (CallSubscribe c). Qed.
Lemma free_unsubscribe c : wf_opt is_u16 (uc_packet_id c) → free (engine_at (unsubscribe c)).
Proof. intros Hc. free_host (CallUnsubscribe c). Qed.
Lemma free_auth reason ps : free (engine_at (auth reason ps)).
Proof. free_host (CallAuth reason ps). Qed.
End free.

(** ** What adds attempts to reconnect *)

(** [m] adds at most [k] to the attempts. *)
Definition adds {A} (k : Z) (m : M A) : Prop :=
  ∀ B, B + k + 1 <= u32_MAX → preserves (worker_ok B) (worker_ok (B + k)) m.
Lemma adds_none {A} k (m : M A) :
  0 <= k → (∀ B, B + 1 <= u32_MAX → preserves (worker_ok B) (worker_ok B) m) → adds k m.
Proof.
  intros Hk Hm B HB. eapply preserves_weaken; [apply (Hm B); lia|done|]. intros s Hs.
  eapply worker_ok_mono; [exact Hs|lia].
Qed.
Lemma adds_mono {A} j k (m : M A) : j <= k → adds j m → adds k m.
Proof.
  intros Hk Hm B HB. eapply preserves_weaken; [apply (Hm B); lia|done|]. intros s Hs.
  eapply worker_ok_mono; [exact Hs|lia].
Qed.
Lemma adds_bind {A C} j k (m : M A) (f : A → M C) :
  0 <= j → 0 <= k → adds j m → (∀ a, adds k (f a)) → adds (j + k) (m ≫= f).
Proof.
  intros Hj Hk Hm Hf B HB. eapply preserves_bind; [apply Hm; lia|]. intros a.
  rewrite Z.add_assoc. apply Hf. lia.
Qed.
Lemma adds_try_bind {A C} j k (m : M (MqttClientError + A)) (f : A → M (MqttClientError + C)) :
  0 <= j → 0 <= k → adds j m → (∀ a, adds k (f a)) → adds (j + k) (try_bind f m).
Proof.
  intros Hj Hk Hm Hf. unfold try_bind. apply adds_bind; [done..|]. intros [error|a]; [|done].
  apply adds_none; [done|]. intros B HB. apply preserves_ret.
Qed.
Lemma adds_get {A} k (f : TokioClientWorker T → M A) :
  (∀ self, adds k (f self)) → adds k (get_st ≫= f).
Proof. intros Hf B HB. apply preserves_get. intros self _. by apply Hf. Qed.
Lemma adds_one {A} (m : T → St (MqttEngine T) A) :
  (∀ B sample, B + 1 <= u32_MAX → preserves (in_order B) (in_order (B + 1)) (m sample)) →
  adds 1 (engine_at m).
Proof. intros Hm B HB. apply engine_at_ok. intros sample. apply Hm. lia. Qed.
Lemma adds_set_reconnect enabled : adds 1 (engine_mut_w (set_reconnect enabled)).
Proof.
  intros B HB. apply engine_mut_ok. intros e He.
  by apply (run_call_order B (B + 1) ltac:(lia) ltac:(lia) (CallSetReconnect enabled) (me_now e)); simpl; try lia.
Qed.
Lemma adds_reset : adds 1 (engine_at reset_for_new_transport).
Proof. apply adds_one. intros. by apply reset_order. Qed.

Ltac adds_none_by tac := apply adds_none; [lia|]; intros ? ?; tac.
#[local] Hint Resolve adds_set_reconnect adds_reset : worker.

Lemma adds_disconnect reason ps : adds 3 (worker_disconnect reason ps).
Proof.
  unfold worker_disconnect. apply (adds_try_bind 1 2); [lia..| |intros []].
  { apply adds_one. intros. by apply disconnect_order. }
  apply adds_get. intros self. cbv zeta. apply (adds_bind 0 2); [lia..| |intros []].
  { adds_none_by ltac:(by apply free_modify). }
  apply (adds_bind 1 1); [lia..|apply adds_set_reconnect|intros []].
  apply (adds_bind 0 1); [lia..| |intros []]; [adds_none_by ltac:(by apply free_modify)|].
  apply (adds_bind 0 1); [lia..| |intros []]; [adds_none_by ltac:(apply free_fail_all)|].
  apply (adds_bind 0 1); [lia..| |intros write]; [adds_none_by ltac:(by apply free_write_output)|].
  apply (adds_bind 0 1); [lia..| |intros close]; [adds_none_by ltac:(apply free_close_stream)|].
  apply (adds_bind 1 0); [lia..|apply adds_reset|intros []]. adds_none_by free_auto. by apply free_emit_event.
Qed.
Lemma adds_start_connect : adds 1 start_connect.
Proof.
  unfold start_connect. apply adds_get. intros self. destruct (negb _); [adds_none_by free_auto|].
  apply (adds_bind 0 1); [lia..| |intros []]; [adds_none_by ltac:(by apply free_modify)|].
  apply (adds_bind 1 0); [lia..|apply adds_set_reconnect|intros []].
  adds_none_by free_auto. by apply free_reset_reconnect.
Qed.
Lemma adds_transport_connected result : adds 2 (transport_connected result).
Proof.
  unfold transport_connected. apply (adds_bind 2 0); [lia..| |intros r].
  - destruct result as [error|[]]; [adds_none_by free_auto|]. apply adds_get. intros self.
    apply (adds_bind 0 2); [lia..| |intros []].
    { adds_none_by free_auto. by apply free_emit_event. }
    apply (adds_bind 0 2); [lia..| |intros []]; [adds_none_by ltac:(by apply free_modify)|].
    apply (adds_bind 1 1); [lia..|apply adds_reset|intros []].
    apply adds_one. intros. by apply connect_order.
  - adds_none_by free_auto; [apply free_fail_connect|by apply free_transport_failed].
Qed.

Lemma free_puback B id reason ps :
  B + 1 <= u32_MAX → preserves (worker_ok B) (worker_ok B) (engine_at (puback id reason ps)).
Proof. intros HB. by apply (free_ack B HB 4); left. Qed.
Lemma free_pubrec B id reason ps :
  B + 1 <= u32_MAX → preserves (worker_ok B) (worker_ok B) (engine_at (pubrec id reason ps)).
Proof. intros HB. by apply (free_ack B HB 5); right; left. Qed.
Lemma free_pubcomp B id reason ps :
  B + 1 <= u32_MAX → preserves (worker_ok B) (worker_ok B) (engine_at (pubcomp id reason ps)).
Proof. intros HB. by apply (free_ack B HB 7); right; right; left. Qed.
Lemma adds_send_packet packet : adds 3 (send_packet packet).
Proof.
  unfold send_packet. destruct packet; try apply adds_disconnect;
    adds_none_by ltac:(by auto using free_puback, free_pubrec, free_pubcomp, free_auth ||
      (by apply engine_at_ok; intros sample; by apply enqueue_packet_order)).
Qed.

Ltac adds_free := adds_none_by ltac:(unfold discard_value, refuse_waiter, wait_publish, wait_subscribe,
    wait_unsubscribe, displaced, fail_connect, fail_ping, answer_connect, answer_ping;
  free_auto; by auto using free_fail_all, free_emit_event, free_ping, free_auth, free_subscribe, free_unsubscribe,
    free_worker_publish, free_schedule).

Lemma adds_command_result command :
  command_ok command → command ≠ TcShutdown → adds 3 (command_result command).
Proof.
  intros Hc Hs. destruct command; cbn [command_result command_ok] in *; try adds_free; try done.
  - apply (adds_bind 3 0); [lia..| |intros []]; [|adds_free].
    apply (adds_mono 1); [lia|apply adds_start_connect].
  - apply adds_get. intros self. apply (adds_bind 3 0); [lia..| |intros []; adds_free].
    destruct (tw_state self); try adds_free;
      (apply (adds_bind 0 3); [lia..|adds_free|intros []]; apply (adds_mono 1); [lia|apply adds_start_connect]).
  - apply (adds_bind 3 0); [lia..|apply adds_disconnect|intros r; adds_free].
  - adds_none_by free_auto. by apply free_ack.
  - apply (adds_bind 0 3); [lia..|adds_free|intros []]. apply adds_get. intros self.
    apply (adds_bind 3 0); [lia..| |intros []; adds_free].
    apply (adds_mono 1); [lia|apply adds_set_reconnect].
  - apply adds_send_packet.
Qed.
Lemma adds_handle_command command :
  command_ok command → command ≠ TcShutdown → adds 3 (handle_command command).
Proof.
  intros Hc Hs. apply (adds_bind 3 0); [lia..|by apply adds_command_result|intros r; adds_free].
Qed.

(** ** The loop *)
Lemma adds_serve_branch self deadline branch :
  branch_ok branch → branch_ready self deadline branch = true → adds 3 (serve_branch branch).
Proof.
  intros Hb Hr. destruct branch as [command|queued|[request|]|result|[error|[|b bs]]| | |];
    cbn [serve_branch branch_ok branch_ready] in *; unfold submit_all; try adds_free.
  - apply (adds_bind 0 3); [lia..|adds_free|intros []]. apply adds_handle_command; [done|].
    by intros ->.
  - apply (adds_bind 0 3); [lia..|adds_free|intros []]. adds_none_by ltac:(unfold worker_admit; free_auto).
    by apply free_worker_publish.
  - apply (adds_bind 0 3); [lia..|adds_free|intros []]. apply (adds_mono 2); [lia|apply adds_transport_connected].
  - adds_none_by ltac:(by apply free_transport_failed).
  - adds_none_by ltac:(by apply free_transport_failed).
  - adds_none_by free_auto; [by apply free_incoming|by apply free_dispatch_events].
  - apply (adds_bind 1 2); [lia..| |intros events]; [apply adds_one; intros; by apply handle_tick_order|].
    adds_none_by ltac:(by apply free_dispatch_events).
Qed.
Lemma adds_worker_stop queued : adds 4 (worker_stop queued).
Proof.
  unfold worker_stop, close_admissions. apply (adds_bind 0 4); [lia..|adds_free|intros []].
  apply (adds_bind 3 1); [lia..|apply adds_disconnect|intros result].
  apply (adds_bind 1 0); [lia..| |intros []; adds_free]. destruct result as [error|[]]; [|adds_free].
  apply (adds_bind 1 0); [lia..|apply adds_set_reconnect|intros []]. adds_free.
Qed.
Lemma adds_run_iteration dropped branch : branch_ok branch → adds 4 (run_iteration dropped branch).
Proof.
  intros Hb B HB. unfold run_iteration.
  eapply (preserves_bind _ (worker_ok B)); [apply free_prune|intros []].
  apply preserves_get. intros self Hs. destruct (next_tick_defined _ (proj1 Hs)) as [deadline Hd].
  apply (preserves_lift_bind _ _ _ _ _ Hd). clear self Hs Hd.
  eapply (preserves_bind _ (worker_ok B)); [by apply free_modify|intros []].
  apply preserves_get. intros self _. revert B HB. change (adds 4 
    (if negb (branch_ready self deadline branch) then mret None else
     match branch with
     | BrStop queued => result ← worker_stop queued; mret (Some result)
     | branch =>
         serve_branch branch;;
         result ← handle_outgoing;
         match result with inl error => transport_failed error | inr () => mret () end;;
         mret None
     end)).
  destruct (branch_ready self deadline branch) eqn:Hr; cbn [negb]; [|adds_free].
  assert (Hserve : adds 4 (serve_branch branch;;
         result ← handle_outgoing;
         match result with inl error => transport_failed error | inr () => mret () end;;
         mret (M:=M) (None : option (MqttClientError + ())))).
  { apply (adds_bind 3 1); [lia..|by eapply adds_serve_branch|intros []].
    adds_none_by free_auto; [by apply free_handle_outgoing|by apply free_transport_failed]. }
  destruct branch as [|queued| | | | | |]; try exact Hserve.
  apply (adds_bind 4 0); [lia..|apply adds_worker_stop|intros r; adds_free].
Qed.

Lemma run_worker_ok branches B self :
  Forall (λ b, branch_ok b.2) branches → B + 4 * zlen branches + 1 <= u32_MAX → worker_ok B self →
  runs (run_worker branches) self (λ _ self', worker_ok (B + 4 * zlen branches) self').
Proof.
  intros Hb. revert B self. induction Hb as [|[dropped branch] branches Hok _ IH]; intros B self HB Hs.
  { apply runs_ret. change (worker_ok (B + 4 * 0) self). by rewrite Z.add_0_r. }
  rewrite zlen_cons in *. pose proof (zlen_nonneg branches). cbn [run_worker]. apply runs_bind.
  eapply runs_mono; [apply (adds_run_iteration dropped branch Hok B); [lia|done]|]. intros [r|] self' Hs'.
  - apply runs_ret. eapply worker_ok_mono; [exact Hs'|lia].
  - eapply runs_mono; [apply (IH (B + 4)); [lia|done]|]. intros a s2 Hs2. eapply worker_ok_mono; [exact Hs2|lia].
Qed.

Lemma new_worker_ok options config readings :
  wf_options options → mo_sessionless options = false →
  check_time_range options (clock_reading readings) = Ok () →
  worker_ok 1 (TokioClientWorker_new options config readings).
Proof. intros. by apply new_in_order. Qed.
End safety.
