(* ===== verification/WorkerAnswers.v ===== *)
(** * Every caller of the asynchronous client gets one answer

    The senders of the oneshot channels that enter the worker are not lost and not used twice:
    at each point of a run they are those answered, those dropped because the caller is gone,
    those displaced from a hash map by another request of the same identifier, and those still
    waiting.  When the task returns, none is waiting. *)
From S2P Require Import Prelude BaseData TopicFilter Validation Properties Packets Framing Codec.
From S2P Require Import Stream Leveled Time PriorityQueue ClientError Options ClientTypes.
From S2P Require Import Commands Inflight ClientSession EngineState EngineCore EngineProtocol.
From S2P Require Import Engine EngineHost Worker.

Create HintDb answers.

(** ** What a trace says of the senders *)
Definition submitted_tx (item : Trace) : option Response :=
  match item with TrSubmitted tx => Some tx | _ => None end.
Definition answered_tx (item : Trace) : option Response :=
  match item with TrAnswered tx _ => Some tx | _ => None end.
Definition dropped_tx (item : Trace) : option Response :=
  match item with TrDropped tx => Some tx | _ => None end.
Definition displaced_tx (item : Trace) : option Response :=
  match item with TrDisplaced tx => Some tx | _ => None end.

Lemma omap_snoc {A B} (f : A → option B) l x : omap f (l ++ [x]) = omap f l ++ option_list (f x).
Proof. rewrite omap_app. simpl. by destruct (f x). Qed.

(** Permutations by counting. *)
Ltac by_counting :=
  repeat match goal with Hp : _ ≡ₚ _ |- _ => rewrite (Permutation_count_occ Nat.eq_dec) in Hp end;
  rewrite (Permutation_count_occ Nat.eq_dec);
  let tx := fresh "tx" in intros tx;
  repeat match goal with Hp : ∀ x, count_occ _ _ x = count_occ _ _ x |- _ => specialize (Hp tx) end;
  repeat (rewrite !count_occ_app in * || cbn [count_occ app option_list] in * );
  repeat match goal with |- context [Nat.eq_dec ?a ?b] => destruct (Nat.eq_dec a b) end;
  lia.

Section answers.
Context {T : Type} `{TimePoint T, !Runtime T, !HostClock T} `{!TokioHost, !TokioHostLaws}.
Implicit Types (self : TokioClientWorker T) (held : list Response).
Local Abbreviation M := (St (TokioClientWorker T)).

(** The senders that entered, and where they are; [held] are those of the request in hand. *)
Definition owes held self : Prop :=
  omap submitted_tx (tw_trace self) ≡ₚ
    omap answered_tx (tw_trace self) ++ omap dropped_tx (tw_trace self) ++
    omap displaced_tx (tw_trace self) ++ waiters (tw_pending self) ++ held ∧
  ∀ tx, tx ∈ omap dropped_tx (tw_trace self) → tx ∈ tw_closed self.

Definition leads {A} held held' (m : M A) : Prop :=
  ∀ self, owes held self → gives m self (λ _ self', owes held' self').
Abbreviation neutral m := (∀ held, leads held held m).

Lemma leads_ret {A} held (a : A) : leads held held (mret a).
Proof. by intros self Hs. Qed.
Lemma leads_bind {A C} held held1 held2 (m : M A) (f : A → M C) :
  leads held held1 m → (∀ a, leads held1 held2 (f a)) → leads held held2 (m ≫= f).
Proof.
  intros Hm Hf self Hs. apply gives_bind. eapply gives_mono; [by apply Hm|]. intros a s Hs'. by apply Hf.
Qed.
Lemma leads_try_bind {A C} held (m : M (MqttClientError + A)) (f : A → M (MqttClientError + C)) :
  leads held held m → (∀ a, leads held held (f a)) → leads held held (try_bind f m).
Proof. intros Hm Hf. eapply leads_bind; [exact Hm|]. intros [error|a]; [apply leads_ret|apply Hf]. Qed.
Lemma leads_get {A} held held' (f : TokioClientWorker T → M A) :
  (∀ self, leads held held' (f self)) → leads held held' (get_st ≫= f).
Proof. intros Hf self Hs. apply gives_bind, gives_get. by apply Hf. Qed.
(** The state read is the state of what follows. *)
Lemma leads_at {A} held held' (f : TokioClientWorker T → M A) :
  (∀ self, owes held self → gives (f self) self (λ _ self', owes held' self')) →
  leads held held' (get_st ≫= f).
Proof. intros Hf self Hs. apply gives_bind, gives_get. by apply Hf. Qed.
Lemma leads_keep held f :
  (∀ self, tw_trace (f self) = tw_trace self ∧ tw_pending (f self) = tw_pending self ∧
           tw_closed self ⊆ tw_closed (f self)) →
  leads held held (modify f).
Proof.
  intros Hf self [Ho Hd]. apply gives_modify. destruct (Hf self) as (Ht & Hp & Hc).
  split; [by rewrite Ht, Hp|]. rewrite Ht. intros tx Htx. by apply Hc, Hd.
Qed.
Lemma leads_engine {A} held (m : St (HostedEngine T) A) : leads held held (on_worker_engine m).
Proof. intros self Hs. unfold gives, on_worker_engine, zoom. by destruct (m _) as [[a e]| |]. Qed.
Lemma leads_lift {A} held (r : panics A) : leads held held (lift r).
Proof. intros self Hs. unfold gives, lift. by destruct r. Qed.

(** *** The four ways of a sender *)
Lemma leads_push held held' item :
  omap submitted_tx [item] ++ held ≡ₚ
    omap answered_tx [item] ++ omap dropped_tx [item] ++ omap displaced_tx [item] ++ held' →
  dropped_tx item = None → leads held held' (push_trace item).
Proof.
  intros Hi Hn self [Ho Hd]. apply gives_modify. split; cbn [tw_trace tw_pending tw_closed].
  - change (omap submitted_tx (tw_trace self ++ [item]) ≡ₚ omap answered_tx (tw_trace self ++ [item]) ++
      omap dropped_tx (tw_trace self ++ [item]) ++ omap displaced_tx (tw_trace self ++ [item]) ++
      waiters (tw_pending self) ++ held').
    rewrite !omap_app. by_counting.
  - change (∀ tx, tx ∈ omap dropped_tx (tw_trace self ++ [item]) → tx ∈ tw_closed self).
    intros tx. rewrite omap_snoc, Hn. cbn [option_list]. rewrite app_nil_r. apply Hd.
Qed.
Lemma leads_submit held tx : leads held (tx :: held) (push_trace (TrSubmitted tx)).
Proof. by apply leads_push. Qed.
Lemma leads_answer held tx answer : leads (tx :: held) held (send_response answer tx).
Proof. by apply leads_push. Qed.
Lemma leads_displaced held old : leads (option_list old ++ held) held (displaced old).
Proof. destruct old as [tx|]; [by apply leads_push|apply leads_ret]. Qed.
Lemma gives_drop held tx self :
  tx ∈ tw_closed self → owes (tx :: held) self →
  gives (push_trace (TrDropped tx)) self (λ _ self', owes held self' ∧ tw_closed self' = tw_closed self).
Proof.
  intros Hc [Ho Hd]. apply gives_modify. split; [|done]. split.
  - change (omap submitted_tx (tw_trace self ++ [TrDropped tx]) ≡ₚ
      omap answered_tx (tw_trace self ++ [TrDropped tx]) ++ omap dropped_tx (tw_trace self ++ [TrDropped tx]) ++
      omap displaced_tx (tw_trace self ++ [TrDropped tx]) ++ waiters (tw_pending self) ++ held).
    rewrite !omap_app. cbn [omap list_omap submitted_tx answered_tx dropped_tx displaced_tx]. by_counting.
  - change (∀ tx', tx' ∈ omap dropped_tx (tw_trace self ++ [TrDropped tx]) → tx' ∈ tw_closed self).
    intros tx'. rewrite omap_snoc. intros [Hin|Hin]%elem_of_app; [by apply Hd|].
    by apply list_elem_of_singleton in Hin as ->.
Qed.
Lemma leads_move held held' f :
  (∀ p, waiters p ++ held ≡ₚ waiters (f p) ++ held') → leads held held' (on_waiting f).
Proof.
  intros Hf self [Ho Hd]. apply gives_modify. split; [|done].
  specialize (Hf (tw_pending self)).
  change (omap submitted_tx (tw_trace self) ≡ₚ omap answered_tx (tw_trace self) ++
    omap dropped_tx (tw_trace self) ++ omap displaced_tx (tw_trace self) ++
    waiters (f (tw_pending self)) ++ held'). by_counting.
Qed.
(** The same at a state: [f] need only be right for its pending requests. *)
Lemma gives_move held held' f self :
  waiters (tw_pending self) ++ held ≡ₚ waiters (f (tw_pending self)) ++ held' → owes held self →
  gives (on_waiting f) self (λ _ self', owes held' self').
Proof.
  intros Hf [Ho Hd]. apply gives_modify. split; [|done].
  change (omap submitted_tx (tw_trace self) ≡ₚ omap answered_tx (tw_trace self) ++
    omap dropped_tx (tw_trace self) ++ omap displaced_tx (tw_trace self) ++
    waiters (f (tw_pending self)) ++ held'). by_counting.
Qed.
Lemma leads_answer_all {A} (tx_of : A → Response) answer (l : list A) held :
  leads ((tx_of <$> l) ++ held) held (for_each_st l (λ w, send_response answer (tx_of w))).
Proof.
  revert held. induction l as [|w l IH]; intros held; [apply leads_ret|]. cbn [for_each_st fmap list_fmap app].
  eapply leads_bind; [apply leads_answer|]. intros []. apply IH.
Qed.

Lemma owes_perm held held' self : held ≡ₚ held' → owes held self → owes held' self.
Proof. intros Hp [Ho Hd]. split; [|done]. by_counting. Qed.

(** *** What is waiting *)
Lemma neutral_answer_connect r : neutral (answer_connect r).
Proof.
  intros held. unfold answer_connect. apply leads_at. intros self Hs. apply gives_bind.
  eapply gives_mono; [apply (gives_move held (pd_connect (tw_pending self) ++ held)); [|done]|].
  - unfold waiters. destruct (tw_pending self). cbn. by_counting.
  - intros [] s Hs'. apply (leads_answer_all id). by rewrite list_fmap_id.
Qed.
Lemma neutral_answer_ping r : neutral (answer_ping r).
Proof.
  intros held. unfold answer_ping. apply leads_at. intros self Hs. apply gives_bind.
  eapply gives_mono; [apply (gives_move held (pd_ping (tw_pending self) ++ held)); [|done]|].
  - unfold waiters. destruct (tw_pending self). cbn. by_counting.
  - intros [] s Hs'. apply (leads_answer_all id). by rewrite list_fmap_id.
Qed.

Lemma iter_values (m : gmap Z Response) : (iter_waiters m).*2 ≡ₚ (map_to_list m).*2.
Proof. apply fmap_Permutation, iter_waiters_perm. Qed.
Ltac drained m :=
  intros held; apply leads_at; intros self Hs; apply gives_bind;
  eapply gives_mono;
    [apply (gives_move held ((iter_waiters (m (tw_pending self))).*2 ++ held)); [|done]
    |intros [] s Hs'; by apply (leads_answer_all snd)];
  pose proof (iter_values (m (tw_pending self))) as Hi; revert Hi; unfold waiters;
  destruct (tw_pending self); cbn [pd_connect pd_ping pd_publish pd_subscribe pd_unsubscribe]; intros Hi;
  unfold rebuild; cbn; rewrite map_to_list_empty; cbn; by_counting.
Lemma neutral_fail_publish error : neutral (fail_publish error).
Proof. unfold fail_publish. drained pd_publish. Qed.
Lemma neutral_fail_subscribe error : neutral (fail_subscribe error).
Proof. unfold fail_subscribe. drained pd_subscribe. Qed.
Lemma neutral_fail_unsubscribe error : neutral (fail_unsubscribe error).
Proof. unfold fail_unsubscribe. drained pd_unsubscribe. Qed.

(** Follows the text of what leaves the senders alone. *)
Ltac neutral_step :=
  lazymatch goal with
  | |- leads ?h ?h (mret _) => apply leads_ret
  | |- leads ?h ?h (ok _) => apply leads_ret
  | |- leads ?h ?h (err _) => apply leads_ret
  | |- leads ?h ?h (push_trace _) => by apply leads_push
  | |- leads ?h ?h (modify _) => apply leads_keep; intros ?; by split_and!
  | |- leads ?h ?h (engine_at _) => apply leads_engine
  | |- leads ?h ?h (engine_mut_w _) => apply leads_engine
  | |- leads ?h ?h (lift _) => apply leads_lift
  | |- leads ?h ?h (get_st ≫= _) => apply leads_get; intros ?
  | |- leads ?h ?h (try_bind _ _) => apply leads_try_bind; [|intros ?]
  | |- leads ?h ?h (_ ≫= _) => apply (leads_bind h h h); [|intros ?]
  | |- leads _ _ (match ?x with _ => _ end) => destruct x
  end.
Ltac neutral_auto := repeat (neutral_step; cbv beta zeta); eauto with answers.

Lemma neutral_fail_connect error : neutral (fail_connect error).
Proof. apply neutral_answer_connect. Qed.
Lemma neutral_fail_ping error : neutral (fail_ping error).
Proof. apply neutral_answer_ping. Qed.
#[local] Hint Resolve neutral_answer_connect neutral_answer_ping neutral_fail_connect neutral_fail_ping
  neutral_fail_publish neutral_fail_subscribe neutral_fail_unsubscribe : answers.
Lemma neutral_fail_all error : neutral (fail_all error).
Proof. intros held. unfold fail_all. neutral_auto. Qed.

(** *** Entries of the hash maps *)
Lemma values_insert (m : gmap Z Response) id tx :
  (map_to_list (<[id := tx]> m)).*2 ++ option_list (m !! id) ≡ₚ tx :: (map_to_list m).*2.
Proof.
  destruct (m !! id) as [old|] eqn:Hm.
  - rewrite <- insert_delete_eq, map_to_list_insert by apply lookup_delete_eq.
    rewrite <- (map_to_list_delete m id old Hm). cbn. by_counting.
  - rewrite map_to_list_insert by done. cbn. by rewrite app_nil_r.
Qed.
Lemma values_delete (m : gmap Z Response) id tx :
  m !! id = Some tx → (map_to_list m).*2 ≡ₚ tx :: (map_to_list (delete id m)).*2.
Proof. intros Hm. by rewrite <- (map_to_list_delete m id tx Hm). Qed.
Lemma list_prune {A} (f : A → Response) (gone : gset Response) (l : list A) :
  f <$> l ≡ₚ (f <$> filter (λ w, f w ∉ gone) l) ++ filter (.∈ gone) (f <$> l).
Proof.
  induction l as [|w l IH]; [done|]. cbn [fmap list_fmap]. rewrite !filter_cons.
  destruct (decide (f w ∈ gone)) as [Hw|Hw];
    [rewrite (decide_False (P:=f w ∉ gone)) by tauto|rewrite (decide_True (P:=f w ∉ gone)) by done];
    cbn [fmap list_fmap]; by_counting.
Qed.
Lemma values_prune (gone : gset Response) (m : gmap Z Response) :
  (map_to_list m).*2 ≡ₚ
    (map_to_list (filter (λ w : Z * Response, w.2 ∉ gone) m)).*2 ++ filter (.∈ gone) (map_to_list m).*2.
Proof.
  rewrite map_filter_alt, map_to_list_to_map; [apply list_prune|].
  apply (sublist_NoDup _ (fst <$> map_to_list m)); [apply NoDup_fst_map_to_list|].
  apply fmap_sublist, sublist_filter.
Qed.

Ltac open_pending :=
  unfold waiters; destruct (tw_pending _) as [connect publish subscribe unsubscribe ping];
  cbn [pd_connect pd_ping pd_publish pd_subscribe pd_unsubscribe] in *.
Ltac inserted m id tx :=
  intros held; apply leads_at; intros self Hs; apply gives_bind;
  eapply gives_mono;
    [apply (gives_move (tx :: held) (option_list (m (tw_pending self) !! id) ++ held)); [|done]
    |intros [] s Hs'; by apply leads_displaced];
  clear Hs; pose proof (values_insert (m (tw_pending self)) id tx) as Hi; revert Hi;
  open_pending; intros Hi; cbn in Hi |- *; by_counting.
Lemma leads_wait_publish id tx : ∀ held, leads (tx :: held) held (wait_publish id tx).
Proof. inserted pd_publish id tx. Qed.
Lemma leads_wait_subscribe id tx : ∀ held, leads (tx :: held) held (wait_subscribe id tx).
Proof. inserted pd_subscribe id tx. Qed.
Lemma leads_wait_unsubscribe id tx : ∀ held, leads (tx :: held) held (wait_unsubscribe id tx).
Proof. inserted pd_unsubscribe id tx. Qed.

Ltac resolved m :=
  intros held; apply leads_at; intros self Hs;
  match goal with id : option Z |- _ => destruct id as [id|]; cbn [mbind option_bind]; [|done];
    destruct (m (tw_pending self) !! id) as [tx|] eqn:Hm; [|done];
    apply gives_bind; eapply gives_mono;
      [apply (gives_move held (tx :: held)); [|done]|intros [] s Hs'; by apply leads_answer];
    clear Hs; revert Hm; open_pending; intros Hm; pose proof (values_delete _ _ _ Hm); cbn; by_counting
  end.
Lemma neutral_resolve_publish id r : neutral (resolve_publish id r).
Proof. unfold resolve_publish. resolved pd_publish. Qed.
Lemma neutral_resolve_subscribe id r : neutral (resolve_subscribe id r).
Proof. unfold resolve_subscribe. resolved pd_subscribe. Qed.
Lemma neutral_resolve_unsubscribe id r : neutral (resolve_unsubscribe id r).
Proof. unfold resolve_unsubscribe. resolved pd_unsubscribe. Qed.

Lemma gives_drop_all l held self :
  (∀ tx, tx ∈ l → tx ∈ tw_closed self) → owes (l ++ held) self →
  gives (for_each_st l (λ tx, push_trace (TrDropped tx))) self (λ _ self', owes held self').
Proof.
  revert self. induction l as [|tx l IH]; intros self Hl Hs; [done|]. cbn [for_each_st].
  apply gives_bind. eapply gives_mono; [apply (gives_drop (l ++ held)); [apply Hl; left|done]|].
  intros [] s [Hs' Hc]. apply IH; [|done]. intros tx' Hin. rewrite Hc. apply Hl. by right.
Qed.
Lemma waiters_prune (gone : gset Response) (p : Pending) :
  waiters p ≡ₚ
    waiters {| pd_connect := filter (.∉ gone) (pd_connect p); pd_ping := filter (.∉ gone) (pd_ping p);
               pd_publish := filter (λ w : Z * Response, w.2 ∉ gone) (pd_publish p);
               pd_subscribe := filter (λ w : Z * Response, w.2 ∉ gone) (pd_subscribe p);
               pd_unsubscribe := filter (λ w : Z * Response, w.2 ∉ gone) (pd_unsubscribe p) |}
    ++ filter (.∈ gone) (waiters p).
Proof.
  destruct p as [connect publish subscribe unsubscribe ping]. unfold waiters.
  cbn [pd_connect pd_ping pd_publish pd_subscribe pd_unsubscribe]. rewrite !filter_app.
  pose proof (list_prune id gone connect) as Hc. pose proof (list_prune id gone ping) as Hp.
  rewrite !list_fmap_id in *. change (id ?x) with x in *.
  pose proof (values_prune gone publish). pose proof (values_prune gone subscribe).
  pose proof (values_prune gone unsubscribe). by_counting.
Qed.
Lemma neutral_prune : neutral prune.
Proof.
  intros held. apply leads_at. intros self Hs. cbv zeta. apply gives_bind. eapply gives_mono.
  - apply (gives_and _ _ (λ _ s, owes (filter (.∈ tw_closed self) (waiters (tw_pending self)) ++ held) s)
      (λ _ s, tw_closed s = tw_closed self)); [|by apply gives_modify].
    apply (gives_move held); [|done].
    rewrite app_assoc. by rewrite <- waiters_prune.
  - intros [] s [Hs' Hc]. apply gives_drop_all; [|done]. intros tx Hin.
    apply list_elem_of_filter in Hin as [Hin _]. by rewrite Hc.
Qed.

(** *** Admissions and events *)
Lemma neutral_publish_command config stopped command : neutral (publish_command config stopped command).
Proof. intros held. unfold publish_command. neutral_auto. Qed.
Lemma neutral_worker_publish command : neutral (worker_publish command).
Proof. intros held. unfold worker_publish. neutral_auto. apply neutral_publish_command. Qed.
Lemma neutral_serve_admissions requests : neutral (serve_admissions requests).
Proof.
  intros held. induction requests as [|request requests IH]; cbn [serve_admissions]; [apply leads_ret|].
  apply leads_get. intros self. destruct (negb _); [apply leads_ret|].
  apply (leads_bind held held); [|by intros []]. destruct request as [request|]; [|neutral_auto].
  set (tx := pa_response_tx request). apply (leads_bind _ (tx :: held)); [apply leads_submit|intros []].
  apply (leads_bind _ (tx :: held)); [neutral_auto|intros []].
  apply (leads_bind _ (tx :: held)); [|intros r; apply leads_answer].
  destruct (tw_admission_transport_failed self); [apply leads_ret|apply neutral_publish_command].
Qed.
Lemma neutral_emit_batch batch : neutral (emit_batch batch).
Proof.
  intros held. unfold emit_batch, deliver_batch. neutral_auto. apply neutral_serve_admissions.
Qed.
#[local] Hint Resolve neutral_fail_all neutral_resolve_publish neutral_resolve_subscribe
  neutral_resolve_unsubscribe neutral_publish_command neutral_worker_publish neutral_emit_batch : answers.
Lemma neutral_emit_event event : neutral (emit_event event).
Proof. apply neutral_emit_batch. Qed.
Lemma neutral_record_connection_lost reason : neutral (record_connection_lost reason).
Proof. intros held. unfold record_connection_lost. neutral_auto. Qed.
#[local] Hint Resolve neutral_emit_event neutral_record_connection_lost : answers.
Lemma neutral_dispatch_event event next : neutral (dispatch_event event next).
Proof. intros held. unfold dispatch_event. destruct event; neutral_auto. Qed.
Lemma neutral_dispatch_loop events : neutral (dispatch_loop events).
Proof.
  intros held. induction events as [|event events IH]; cbn [dispatch_loop]; [apply leads_ret|].
  neutral_auto. apply neutral_dispatch_event.
Qed.
#[local] Hint Resolve neutral_dispatch_loop : answers.
Lemma neutral_dispatch_events events : neutral (dispatch_events events).
Proof. intros held. unfold dispatch_events. neutral_auto. Qed.
Lemma neutral_transport_failed error : neutral (transport_failed error).
Proof. intros held. unfold transport_failed. neutral_auto. Qed.
Lemma neutral_write_output : neutral write_output.
Proof. intros held. unfold write_output. neutral_auto. Qed.
#[local] Hint Resolve neutral_dispatch_events neutral_transport_failed neutral_write_output : answers.
Lemma neutral_handle_outgoing : neutral handle_outgoing.
Proof. intros held. unfold handle_outgoing. neutral_auto. Qed.
Lemma neutral_close_stream : neutral close_stream.
Proof. intros held. unfold close_stream. neutral_auto. Qed.
#[local] Hint Resolve neutral_handle_outgoing neutral_close_stream : answers.
Lemma neutral_disconnect reason ps : neutral (worker_disconnect reason ps).
Proof. intros held. unfold worker_disconnect. neutral_auto. Qed.
Lemma neutral_start_connect : neutral start_connect.
Proof. intros held. unfold start_connect. neutral_auto. Qed.
Lemma neutral_transport_connected result : neutral (transport_connected result).
Proof. intros held. unfold transport_connected. neutral_auto. Qed.
Lemma neutral_acknowledge kind id reason ps : neutral (worker_acknowledge kind id reason ps).
Proof. intros held. unfold worker_acknowledge. neutral_auto; by intros self Hs. Qed.
Lemma neutral_ping : neutral worker_ping.
Proof. intros held. unfold worker_ping. neutral_auto. Qed.
Lemma neutral_send_packet packet : neutral (send_packet packet).
Proof. intros held. unfold send_packet. destruct packet; neutral_auto; apply neutral_disconnect. Qed.
#[local] Hint Resolve neutral_disconnect neutral_start_connect neutral_transport_connected
  neutral_acknowledge neutral_ping neutral_send_packet : answers.

(** *** Commands and the loop *)
Lemma leads_refuse_waiter answer tx error : leads [tx] [] (refuse_waiter answer tx error).
Proof. apply (leads_bind _ []); [apply leads_answer|intros []; apply neutral_emit_event]. Qed.
Lemma leads_wait_connect tx held :
  leads (tx :: held) held (on_waiting (λ p, p <| pd_connect ::= λ l, l ++ [tx] |>)).
Proof. apply leads_move. intros [connect ? ? ? ?]. unfold waiters. cbn. by_counting. Qed.
Lemma leads_wait_ping tx held :
  leads (tx :: held) held (on_waiting (λ p, p <| pd_ping ::= λ l, l ++ [tx] |>)).
Proof. apply leads_move. intros [? ? ? ? ping]. unfold waiters. cbn. by_counting. Qed.
#[local] Hint Resolve leads_refuse_waiter leads_wait_connect leads_wait_ping leads_wait_publish
  leads_wait_subscribe leads_wait_unsubscribe leads_answer : answers.

(** A step that leaves the sender in hand, then one that places it. *)
Ltac in_hand tx := apply (leads_bind [tx] [tx]); [|intros ?].
Ltac placed tx := apply (leads_bind [tx] []); [|intros []; apply leads_ret].

Lemma leads_drop tx self : tx ∈ tw_closed self → owes [tx] self →
  gives (push_trace (TrDropped tx)) self (λ _ self', owes [] self').
Proof.
  intros Hc Hs. eapply gives_mono; [by apply gives_drop|]. by intros [] s [? _].
Qed.
Lemma leads_command_result command : leads (command_txs command) [] (command_result command).
Proof.
  destruct command as [|tx|c|c tx|c|c tx|c|c tx| |tx|reason ps [tx|]|kind id reason ps tx| |enabled|reason ps|packet];
    cbn [command_txs command_result]; unfold discard_value; try solve [neutral_auto].
  - apply leads_get. intros self. placed tx.
    destruct (tw_state self); auto with answers;
      (apply (leads_bind _ []); [auto with answers|intros []; auto with answers]).
  - apply leads_at. intros self Hs. case_bool_decide as Hc.
    { apply gives_bind. eapply gives_mono; [by apply leads_drop|]. by intros [] s Hs'. }
    revert self Hs Hc. cut (leads [tx] [] (r ← engine_at (subscribe c);
      match r with
      | inr id => wait_subscribe id tx
      | inl error => refuse_waiter (AnsSubscribe (inl error)) tx error
      end;; ok (E:=MqttClientError) ())); [intros Hl self Hs _; by apply Hl|].
    in_hand tx; [apply leads_engine|]. placed tx. case_match; auto with answers.
  - in_hand tx; [auto with answers|]. placed tx. destruct a as [error|[id|]]; auto with answers.
  - in_hand tx; [apply leads_engine|]. placed tx. case_match; auto with answers.
  - apply leads_get. intros self. in_hand tx; [neutral_auto|]. placed tx. case_match; auto with answers.
    case_match. auto with answers.
  - in_hand tx; [auto with answers|]. apply (leads_bind _ []); [auto with answers|intros []; apply leads_ret].
  - in_hand tx; [auto with answers|]. apply (leads_bind _ []); [auto with answers|intros []; apply leads_ret].
  - by intros self Hs.
Qed.
Lemma leads_handle_command command : leads (command_txs command) [] (handle_command command).
Proof.
  apply (leads_bind _ []); [apply leads_command_result|]. intros r. neutral_auto.
Qed.
Lemma leads_submit_all txs : leads [] (rev txs) (submit_all txs).
Proof.
  unfold submit_all. rewrite <- (app_nil_r (rev txs)). generalize (@nil Response) as held.
  induction txs as [|tx txs IH]; intros held; [apply leads_ret|]. cbn [for_each_st rev].
  rewrite <- app_assoc. apply (leads_bind _ (tx :: held)); [apply leads_submit|intros []; apply IH].
Qed.
Lemma command_txs_rev command : rev (command_txs command) = command_txs command.
Proof. destruct command as [| | | | | | | | | |? ? [|]| | | | |]; done. Qed.
Lemma leads_serve_branch branch : leads [] [] (serve_branch branch).
Proof.
  destruct branch as [command|queued|[request|]|result|[error|[|b bs]]| | |]; cbn [serve_branch];
    try solve [neutral_auto].
  - apply (leads_bind _ (command_txs command)); [|intros []; apply leads_handle_command].
    rewrite <- command_txs_rev at 1. apply leads_submit_all.
  - apply (leads_bind _ [pa_response_tx request]); [apply (leads_submit_all [_])|intros []].
    in_hand (pa_response_tx request); auto with answers.
Qed.
Lemma leads_close_admissions queued : leads [] [] (close_admissions queued).
Proof.
  apply (leads_bind _ []); [neutral_auto|intros []].
  induction queued as [|request queued IH]; cbn [for_each_st]; [apply leads_ret|].
  apply (leads_bind _ []); [|by intros []].
  apply (leads_bind _ [pa_response_tx request]); [apply leads_submit|intros []; apply leads_answer].
Qed.
Lemma leads_worker_stop queued : leads [] [] (worker_stop queued).
Proof.
  apply (leads_bind _ []); [apply leads_close_admissions|intros []]. neutral_auto.
Qed.
Lemma leads_run_iteration dropped branch : leads [] [] (run_iteration dropped branch).
Proof.
  apply (leads_bind _ []); [apply neutral_prune|intros []]. apply leads_get. intros self.
  apply (leads_bind _ []); [apply leads_lift|intros deadline].
  apply (leads_bind _ []); [|intros []].
  { apply leads_keep. intros s. split_and!; [done..|].
    change (tw_closed s ⊆ list_to_set dropped ∪ tw_closed s). set_solver. }
  apply leads_get. intros s. destruct (negb _); [apply leads_ret|].
  assert (Hserve : leads [] [] (serve_branch branch;;
         result ← handle_outgoing;
         match result with inl error => transport_failed error | inr () => mret () end;;
         mret (M:=M) (None : option (MqttClientError + ())))).
  { apply (leads_bind _ []); [apply leads_serve_branch|intros []]. neutral_auto. }
  destruct branch as [|queued| | | | | |]; try exact Hserve.
  apply (leads_bind _ []); [apply leads_worker_stop|intros r; apply leads_ret].
Qed.
Lemma leads_run_worker branches : leads [] [] (run_worker branches).
Proof.
  induction branches as [|[dropped branch] branches IH]; cbn [run_worker]; [apply leads_ret|].
  apply (leads_bind _ []); [apply leads_run_iteration|]. intros [r|]; [apply leads_ret|done].
Qed.
Lemma new_worker_owes options config readings : owes [] (TokioClientWorker_new options config readings).
Proof. split; [done|]. intros tx Hin. by apply not_elem_of_nil in Hin. Qed.

(** ** Nothing waits when the task returns *)
Definition moves {A} (f : Pending → Pending) (m : M A) : Prop :=
  ∀ self, gives m self (λ _ self', tw_pending self' = f (tw_pending self)).
Lemma moves_bind {A C} f g (m : M A) (k : A → M C) :
  moves f m → (∀ a, moves g (k a)) → moves (g ∘ f) (m ≫= k).
Proof.
  intros Hm Hk self. apply gives_bind. eapply gives_mono; [apply Hm|]. intros a s Hs.
  eapply gives_mono; [apply Hk|]. intros c s' ->. by rewrite Hs.
Qed.
Lemma moves_stays {A C} (m : M A) (k : A → M C) : moves id m → (∀ a, moves id (k a)) → moves id (m ≫= k).
Proof. intros Hm Hk. by apply (moves_bind id id). Qed.
Lemma moves_for_each {A} (l : list A) (f : A → M ()) : (∀ x, moves id (f x)) → moves id (for_each_st l f).
Proof. intros Hf. induction l as [|x l IH]; [by intros self|]. apply moves_stays; [done|by intros []]. Qed.
Lemma moves_get {A} f (k : TokioClientWorker T → M A) : (∀ self, moves f (k self)) → moves f (get_st ≫= k).
Proof. intros Hk self. apply gives_bind, gives_get, Hk. Qed.
Lemma moves_engine {A} (m : St (HostedEngine T) A) : moves id (on_worker_engine m).
Proof. intros self. unfold gives, on_worker_engine, zoom. by destruct (m _) as [[a e]| |]. Qed.

Ltac moves_auto :=
  repeat lazymatch goal with
  | |- moves _ (get_st ≫= _) => apply moves_get; intros ?
  | |- moves id (_ ≫= _) => apply moves_stays; [|intros ?]
  | |- moves id (for_each_st _ _) => apply moves_for_each; intros ?
  | |- moves id (engine_at _) => apply moves_engine
  | |- moves id (engine_mut_w _) => apply moves_engine
  | |- moves id (match ?x with _ => _ end) => destruct x
  | |- moves id _ => by intros ?
  end.
Lemma moves_fail_all error : moves (λ _, Pending_default) (fail_all error).
Proof.
  intros self. eapply gives_mono.
  - unfold fail_all.
    refine (moves_bind (λ p, p <| pd_connect := [] |>) _ _ _ _ (λ _,
      moves_bind (λ p, p <| pd_ping := [] |>) _ _ _ _ (λ _,
      moves_bind (λ p, p <| pd_publish := ∅ |>) _ _ _ _ (λ _,
      moves_bind (λ p, p <| pd_subscribe := ∅ |>) (λ p, p <| pd_unsubscribe := ∅ |>) _ _ _ (λ _, _)))) self);
      apply moves_get; intros s; (apply (moves_bind _ id); [by intros ?|intros []; moves_auto]).
  - intros [] s ->. by destruct (tw_pending self).
Qed.
Lemma moves_serve_admissions requests : moves id (serve_admissions requests).
Proof.
  induction requests as [|request requests IH]; cbn [serve_admissions]; [by intros self|].
  unfold publish_command. moves_auto; exact IH.
Qed.
Lemma moves_emit_event event : moves id (emit_event event).
Proof. unfold emit_event, emit_batch, deliver_batch. moves_auto. apply moves_serve_admissions. Qed.

Lemma moves_write_output : moves id write_output.
Proof. unfold write_output. moves_auto. Qed.
Lemma moves_close_stream : moves id close_stream.
Proof. unfold close_stream. moves_auto. Qed.
Lemma disconnect_settles reason ps self :
  gives (worker_disconnect reason ps) self
    (λ r self', match r with inr _ => tw_pending self' = Pending_default | inl _ => True end).
Proof.
  unfold worker_disconnect. apply gives_try_bind. eapply gives_mono; [apply moves_engine|].
  intros [error|[]] s _; [done|]. apply gives_bind, gives_get. cbv zeta. apply gives_bind, gives_modify.
  apply gives_bind. eapply gives_mono; [apply moves_engine|]. intros [] s1 _.
  apply gives_bind, gives_modify, gives_bind. eapply gives_mono; [apply moves_fail_all|]. intros [] s2 H2'.
  cut (moves (A:=MqttClientError + ()) id (write ← write_output;
    close ← close_stream;
    engine_at reset_for_new_transport;;
    modify (λ self, self <| tw_state := StDisconnected |>);;
    (if negb (is_disconnected (tw_state s)) then emit_event (TkDisconnected (Some reason)) else mret ());;
    mret match write with inl error => inl error | inr () => close end)).
  - intros Hm. eapply gives_mono; [apply Hm|]. intros [error|[]] s3 Hs3; [done|]. by rewrite Hs3, H2'.
  - moves_auto; auto using moves_write_output, moves_close_stream, moves_emit_event.
Qed.
Lemma stop_settles queued self :
  gives (worker_stop queued) self (λ _ self', tw_pending self' = Pending_default).
Proof.
  unfold worker_stop. apply gives_bind.
  assert (Hc : moves id (close_admissions queued)) by (unfold close_admissions; moves_auto).
  eapply gives_mono; [apply Hc|]. intros [] s _. apply gives_bind.
  eapply gives_mono; [apply disconnect_settles|]. intros [error|[]] s1 Hs1.
  - apply gives_bind, gives_bind. eapply gives_mono; [apply moves_engine|]. intros [] s2 _.
    apply gives_bind, gives_modify, gives_bind. eapply gives_mono; [apply moves_fail_all|].
    intros [] s3 Hs3. apply gives_bind, gives_get. destruct (negb _); [|done].
    eapply gives_mono; [apply moves_emit_event|]. intros [] s4 Hs4.
    change (tw_pending s4 = Pending_default). by rewrite Hs4.
  - exact Hs1.
Qed.
Lemma run_settles branches self :
  gives (run_worker branches) self
    (λ r self', match r with Some _ => tw_pending self' = Pending_default | None => True end).
Proof.
  revert self. induction branches as [|[dropped branch] branches IH]; intros self; cbn [run_worker]; [done|].
  apply gives_bind. eapply gives_mono with
    (Q := λ r self', match r with Some _ => tw_pending self' = Pending_default | None => True end);
    [|intros [r|] s Hs; [exact Hs|apply IH]].
  unfold run_iteration. apply gives_bind. eapply gives_mono with (Q := λ _ _, True); [|intros [] s _].
  { unfold gives. by destruct (prune self) as [[[] ?]| |]. }
  apply gives_bind, gives_get, gives_bind. eapply gives_mono with (Q := λ _ _, True); [|intros deadline s1 _].
  { unfold gives, lift. by destruct (next_tick_at _). }
  apply gives_bind, gives_modify, gives_bind, gives_get. destruct (negb _); [done|].
  assert (Hserve : ∀ s2, gives (serve_branch branch;;
         result ← handle_outgoing;
         match result with inl error => transport_failed error | inr () => mret () end;;
         mret (M:=M) (None : option (MqttClientError + ()))) s2
    (λ r s', match r with Some _ => tw_pending s' = Pending_default | None => True end)).
  { intros s2. unfold gives, mbind, St_bind. by repeat case_match; simplify_eq. }
  destruct branch as [|queued| | | | | |]; try apply Hserve.
  apply gives_bind. eapply gives_mono; [apply stop_settles|]. by intros r s2 Hs2.
Qed.
End answers.
