(* ===== verification/AsyncClient.v ===== *)
(** * The asynchronous client

    Models [TokioAsyncMqttClient] and [ConfigBuilder] of [tokio_async_client.rs]: a method of the
    client is the command or admission it sends to the worker of [Worker] ([client_branch]), the
    time it waits for the answer ([client_timeout]) and what it returns.  The worker's theorems
    are stated here for what a client can send. *)
From S2P Require Import Prelude BaseData TopicFilter Validation Properties Packets Framing Codec.
From S2P Require Import Stream Leveled Time PriorityQueue ClientError Options ClientTypes.
From S2P Require Import Commands Inflight ClientSession EngineState EngineCore EngineProtocol.
From S2P Require Import Engine EncodeFacts EngineInv EngineSteps EngineQueues EngineHandlers.
From S2P Require Import EngineConnect EngineReceive EngineInput EngineSafety EngineTimers.
From S2P Require Import EngineHost HostSafety Worker WorkerSafety WorkerAnswers.

(** ** [ConfigBuilder], without the setters of the QUIC and TLS features *)
Inductive ConfigSetter : Type :=
  | Cs_auto_reconnect (enabled : bool)
  | Cs_max_reconnect_delay_ms (max_delay_ms : Z)
  | Cs_max_reconnect_attempts (max_attempts : Z)
  | Cs_priority_queue_enabled (enabled : bool)
  | Cs_priority_queue_limit (limit : Z)
  | Cs_connect_timeout_ms (timeout_ms : Z)
  | Cs_no_connect_timeout
  | Cs_subscribe_timeout_ms (timeout_ms : Z)
  | Cs_no_subscribe_timeout
  | Cs_publish_ack_timeout_ms (timeout_ms : Z)
  | Cs_no_publish_ack_timeout
  | Cs_unsubscribe_timeout_ms (timeout_ms : Z)
  | Cs_no_unsubscribe_timeout
  | Cs_ping_timeout_ms (timeout_ms : Z)
  | Cs_no_ping_timeout
  | Cs_default_operation_timeout_ms (timeout_ms : Z)
  | Cs_command_queue_size (size : Z)
  | Cs_buffer_messages (enabled : bool)
  | Cs_max_buffer_size (size : Z)
  | Cs_tcp_nodelay (enabled : bool)
  | Cs_no_timeouts
  | Cs_default_timeouts
  | Cs_local_network_timeouts
  | Cs_internet_timeouts
  | Cs_satellite_timeouts
  | Cs_receive_maximum (max : Z)
  | Cs_no_receive_maximum
  | Cs_topic_alias_maximum (max : Z)
  | Cs_no_topic_alias.

(** The timeouts of a profile: connect, the three acknowledged operations, ping, default. *)
Definition timeout_profile (connect operations ping default : Z) (c : TokioAsyncClientConfig)
    : TokioAsyncClientConfig :=
  c <| tc_connect_timeout_ms := Some connect |> <| tc_subscribe_timeout_ms := Some operations |>
    <| tc_publish_ack_timeout_ms := Some operations |> <| tc_unsubscribe_timeout_ms := Some operations |>
    <| tc_ping_timeout_ms := Some ping |> <| tc_default_operation_timeout_ms := default |>.

Definition config_set (s : ConfigSetter) (c : TokioAsyncClientConfig) : panics TokioAsyncClientConfig :=
  match s with
  | Cs_auto_reconnect enabled => Ok (c <| tc_auto_reconnect := enabled |>)
  | Cs_max_reconnect_delay_ms n => Ok (c <| tc_max_reconnect_delay_ms := n |>)
  | Cs_max_reconnect_attempts n => Ok (c <| tc_max_reconnect_attempts := n |>)
  | Cs_priority_queue_enabled enabled => Ok (c <| tc_priority_queue_enabled := enabled |>)
  | Cs_priority_queue_limit n => Ok (c <| tc_priority_queue_limit := n |>)
  | Cs_connect_timeout_ms n => Ok (c <| tc_connect_timeout_ms := Some n |>)
  | Cs_no_connect_timeout => Ok (c <| tc_connect_timeout_ms := None |>)
  | Cs_subscribe_timeout_ms n => Ok (c <| tc_subscribe_timeout_ms := Some n |>)
  | Cs_no_subscribe_timeout => Ok (c <| tc_subscribe_timeout_ms := None |>)
  | Cs_publish_ack_timeout_ms n => Ok (c <| tc_publish_ack_timeout_ms := Some n |>)
  | Cs_no_publish_ack_timeout => Ok (c <| tc_publish_ack_timeout_ms := None |>)
  | Cs_unsubscribe_timeout_ms n => Ok (c <| tc_unsubscribe_timeout_ms := Some n |>)
  | Cs_no_unsubscribe_timeout => Ok (c <| tc_unsubscribe_timeout_ms := None |>)
  | Cs_ping_timeout_ms n => Ok (c <| tc_ping_timeout_ms := Some n |>)
  | Cs_no_ping_timeout => Ok (c <| tc_ping_timeout_ms := None |>)
  | Cs_default_operation_timeout_ms n => Ok (c <| tc_default_operation_timeout_ms := n |>)
  | Cs_command_queue_size n => Ok (c <| tc_command_queue_size := n |>)
  | Cs_buffer_messages enabled => Ok (c <| tc_buffer_messages := enabled |>)
  | Cs_max_buffer_size n => Ok (c <| tc_max_buffer_size := n |>)
  | Cs_tcp_nodelay enabled => Ok (c <| tc_tcp_nodelay := enabled |>)
  | Cs_no_timeouts =>
      Ok (c <| tc_connect_timeout_ms := None |> <| tc_subscribe_timeout_ms := None |>
            <| tc_publish_ack_timeout_ms := None |> <| tc_unsubscribe_timeout_ms := None |>
            <| tc_ping_timeout_ms := None |>)
  | Cs_default_timeouts => Ok (timeout_profile 30000 10000 5000 30000 c)
  | Cs_local_network_timeouts => Ok (timeout_profile 5000 3000 2000 5000 c)
  | Cs_internet_timeouts => Ok (timeout_profile 30000 10000 5000 30000 c)
  | Cs_satellite_timeouts => Ok (timeout_profile 120000 60000 30000 120000 c)
  | Cs_receive_maximum n => if n =? 0 then Panic else Ok (c <| tc_receive_maximum := Some n |>)
  | Cs_no_receive_maximum => Ok (c <| tc_receive_maximum := None |>)
  | Cs_topic_alias_maximum n => Ok (c <| tc_topic_alias_maximum := Some n |>)
  | Cs_no_topic_alias => Ok (c <| tc_topic_alias_maximum := None |>)
  end.

(** [TokioAsyncClientConfig::builder()..build()] *)
Definition config_build (setters : list ConfigSetter) : panics TokioAsyncClientConfig :=
  foldl (λ c s, c ← c; config_set s c) (Ok TokioAsyncClientConfig_default) setters.

(** ** The methods of the client *)
Inductive ClientRequest : Type :=
  | RqConnect
  | RqSubscribe (topic : bytes) (qos : Z)
  | RqSubscribeWith (command : SubscribeCommand)
  | RqPublish (topic payload : bytes) (qos : Z) (retain : bool)
  | RqPublishPriority (topic payload : bytes) (qos : Z) (retain : bool) (priority : Z)
  | RqPublishWith (command : PublishCommand)
  | RqPublishAdmitted (command : PublishCommand)
  | RqPublishSync (topic payload : bytes) (qos : Z) (retain : bool)
  | RqPublishSyncPriority (topic payload : bytes) (qos : Z) (retain : bool) (priority : Z)
  | RqPublishWithSync (command : PublishCommand)
  | RqUnsubscribe (topics : list bytes)
  | RqUnsubscribeWith (command : UnsubscribeCommand)
  | RqPing
  | RqDisconnect
  | RqDisconnectWith (reason_code : Z) (properties : list Property)
  | RqDisconnectSync
  | RqDisconnectWithSync (reason_code : Z) (properties : list Property)
  | RqPuback (packet_id reason_code : Z) (properties : list Property)
  | RqPubrec (packet_id reason_code : Z) (properties : list Property)
  | RqPubcomp (packet_id reason_code : Z) (properties : list Property)
  | RqSetAutoReconnect (enabled : bool)
  | RqSendPacket (packet : MqttPacket)
  | RqAuth (reason_code : Z) (properties : list Property)
  | RqAuthContinue (properties : list Property)
  | RqAuthReAuthenticate (properties : list Property)
  | RqConnectSync
  | RqSubscribeSync (topic : bytes) (qos : Z)
  | RqSubscribeWithSync (command : SubscribeCommand)
  | RqUnsubscribeSync (topics : list bytes)
  | RqUnsubscribeWithSync (command : UnsubscribeCommand)
  | RqPingSync
  | RqConnectSyncTimeout (timeout_ms : Z)
  | RqSubscribeSyncTimeout (topic : bytes) (qos timeout_ms : Z)
  | RqPublishSyncTimeout (topic payload : bytes) (qos : Z) (retain : bool) (timeout_ms : Z)
  | RqUnsubscribeSyncTimeout (topics : list bytes) (timeout_ms : Z)
  | RqPingSyncTimeout (timeout_ms : Z).

(** What the method sends to the worker; [tx] is the sender of its oneshot channel, where it has
    one.  [shutdown] ends the task: it is [BrStop]. *)
Definition client_branch (request : ClientRequest) (tx : Response) : Branch :=
  match request with
  | RqConnect => BrCommand TcConnect
  | RqSubscribe topic qos => BrCommand (TcSubscribe (SubscribeCommand_single topic qos))
  | RqSubscribeWith command => BrCommand (TcSubscribe command)
  | RqPublish topic payload qos retain =>
      BrCommand (TcPublish (PublishCommand_simple topic payload qos retain))
  | RqPublishPriority topic payload qos retain priority =>
      BrCommand (TcPublish (PublishCommand_with_priority topic payload qos retain priority))
  | RqPublishWith command => BrCommand (TcPublish command)
  | RqPublishAdmitted command => BrAdmission (Some {| pa_command := command; pa_response_tx := tx |})
  | RqPublishSync topic payload qos retain | RqPublishSyncTimeout topic payload qos retain _ =>
      BrCommand (TcPublishSync (PublishCommand_simple topic payload qos retain) tx)
  | RqPublishSyncPriority topic payload qos retain priority =>
      BrCommand (TcPublishSync (PublishCommand_with_priority topic payload qos retain priority) tx)
  | RqPublishWithSync command => BrCommand (TcPublishSync command tx)
  | RqUnsubscribe topics => BrCommand (TcUnsubscribe (UnsubscribeCommand_from_topics topics))
  | RqUnsubscribeWith command => BrCommand (TcUnsubscribe command)
  | RqPing => BrCommand TcPing
  | RqDisconnect => BrCommand (TcDisconnect 0 [] None)
  | RqDisconnectWith reason ps => BrCommand (TcDisconnect reason ps None)
  | RqDisconnectSync => BrCommand (TcDisconnect 0 [] (Some tx))
  | RqDisconnectWithSync reason ps => BrCommand (TcDisconnect reason ps (Some tx))
  | RqPuback id reason ps => BrCommand (TcAcknowledge 4 id reason ps tx)
  | RqPubrec id reason ps => BrCommand (TcAcknowledge 5 id reason ps tx)
  | RqPubcomp id reason ps => BrCommand (TcAcknowledge 7 id reason ps tx)
  | RqSetAutoReconnect enabled => BrCommand (TcSetAutoReconnect enabled)
  | RqSendPacket packet => BrCommand (TcSendPacket packet)
  | RqAuth reason ps => BrCommand (TcAuth reason ps)
  | RqAuthContinue ps => BrCommand (TcAuth 0x18 ps)
  | RqAuthReAuthenticate ps => BrCommand (TcAuth 0x19 ps)
  | RqConnectSync | RqConnectSyncTimeout _ => BrCommand (TcConnectSync tx)
  | RqSubscribeSync topic qos | RqSubscribeSyncTimeout topic qos _ =>
      BrCommand (TcSubscribeSync (SubscribeCommand_single topic qos) tx)
  | RqSubscribeWithSync command => BrCommand (TcSubscribeSync command tx)
  | RqUnsubscribeSync topics | RqUnsubscribeSyncTimeout topics _ =>
      BrCommand (TcUnsubscribeSync (UnsubscribeCommand_from_topics topics) tx)
  | RqUnsubscribeWithSync command => BrCommand (TcUnsubscribeSync command tx)
  | RqPingSync | RqPingSyncTimeout _ => BrCommand (TcPingSync tx)
  end.

(** The operation a method waits for and its limit, if any; [None] for a method that waits for no
    answer, or waits without a limit. *)
Definition client_timeout (config : TokioAsyncClientConfig) (request : ClientRequest)
    : option (string * Z) :=
  match request with
  | RqPublishSync _ _ _ _ | RqPublishSyncPriority _ _ _ _ _ | RqPublishWithSync _ =>
      pair "publish"%string <$> tc_publish_ack_timeout_ms config
  | RqDisconnectSync | RqDisconnectWithSync _ _ =>
      Some ("disconnect"%string, tc_default_operation_timeout_ms config)
  | RqPuback _ _ _ | RqPubrec _ _ _ | RqPubcomp _ _ _ =>
      Some ("acknowledge"%string, tc_default_operation_timeout_ms config)
  | RqConnectSync => pair "connect"%string <$> tc_connect_timeout_ms config
  | RqSubscribeSync _ _ | RqSubscribeWithSync _ => pair "subscribe"%string <$> tc_subscribe_timeout_ms config
  | RqUnsubscribeSync _ | RqUnsubscribeWithSync _ =>
      pair "unsubscribe"%string <$> tc_unsubscribe_timeout_ms config
  | RqPingSync => pair "ping"%string <$> tc_ping_timeout_ms config
  | RqConnectSyncTimeout n => Some ("connect"%string, n)
  | RqSubscribeSyncTimeout _ _ n => Some ("subscribe"%string, n)
  | RqPublishSyncTimeout _ _ _ _ n => Some ("publish"%string, n)
  | RqUnsubscribeSyncTimeout _ n => Some ("unsubscribe"%string, n)
  | RqPingSyncTimeout n => Some ("ping"%string, n)
  | _ => None
  end.

(** What the receiver of a oneshot channel sees: a value, or that its sender was dropped. *)
Definition receive_response {A} (received : option (MqttClientError + A)) : MqttClientError + A :=
  match received with
  | Some r => r
  | None => inl (ChannelClosed "async client response")
  end.
(** The future has completed with [done], or its time is over ([None]); without a limit the caller
    waits on. *)
Definition with_timeout {A} (timeout : option (string * Z)) (done : option (MqttClientError + A))
    : option (MqttClientError + A) :=
  match done, timeout with
  | Some r, _ => Some r
  | None, Some (operation, timeout_ms) => Some (inl (OperationTimeout operation timeout_ms))
  | None, None => None
  end.

(** ** What a client can ask for *)

(** The arguments the type checker lets through; a publication without acknowledgement has no
    identifier of its own. *)
Definition typed_request (request : ClientRequest) : Prop :=
  match request with
  | RqPublish topic payload qos _ | RqPublishPriority topic payload qos _ _
  | RqPublishSync topic payload qos _ | RqPublishSyncPriority topic payload qos _ _
  | RqPublishSyncTimeout topic payload qos _ _ => wf_str topic ∧ u8s payload ∧ is_u8 qos
  | RqPublishWith c | RqPublishAdmitted c | RqPublishWithSync c => publish_command_ok c
  | RqSubscribeWith c | RqSubscribeWithSync c => wf_opt is_u16 (sc_packet_id c)
  | RqUnsubscribeWith c | RqUnsubscribeWithSync c => wf_opt is_u16 (uc_packet_id c)
  | _ => True
  end.
(** A branch of the worker's loop: requests come from a client. *)
Definition served_branch (branch : Branch) : Prop :=
  match branch with
  | BrCommand _ | BrAdmission (Some _) =>
      ∃ request tx, typed_request request ∧ branch = client_branch request tx
  | BrRead (inr b) => u8s b
  | _ => True
  end.
Definition typed_config_setter (s : ConfigSetter) : Prop :=
  match s with
  | Cs_max_reconnect_delay_ms n | Cs_connect_timeout_ms n => is_u64 n
  | Cs_max_reconnect_attempts n => is_u32 n
  | Cs_priority_queue_limit n => is_usize n
  | Cs_receive_maximum n | Cs_topic_alias_maximum n => is_u16 n
  | _ => True
  end.
Definition typed_config (c : TokioAsyncClientConfig) : Prop :=
  is_u64 (tc_max_reconnect_delay_ms c) ∧ is_u32 (tc_max_reconnect_attempts c) ∧
  is_usize (tc_priority_queue_limit c) ∧ wf_opt is_u64 (tc_connect_timeout_ms c) ∧
  wf_opt is_u16 (tc_receive_maximum c) ∧ wf_opt is_u16 (tc_topic_alias_maximum c).

Lemma client_branch_ok request tx : typed_request request → branch_ok (client_branch request tx).
Proof.
  intros Hr. destruct request; cbn [typed_request client_branch branch_ok command_ok] in *; try done;
    try (by repeat constructor);
    destruct Hr as (Ht & Hp & Hq); by split_and!.
Qed.
Lemma served_branch_ok branch : served_branch branch → branch_ok branch.
Proof.
  destruct branch as [command|queued|[request|]|result|[error|b]| | |]; try done;
    intros (request' & tx & Hr & ->); by apply client_branch_ok.
Qed.

Lemma served_request request tx : typed_request request → served_branch (client_branch request tx).
Proof. intros Hr. by destruct request; eexists _, tx; (split; [|reflexivity]). Qed.

Lemma config_set_typed s c : typed_config_setter s → typed_config c → ∀ c', config_set s c = Ok c' → typed_config c'.
Proof.
  intros Hs (Hd & Ha & Hl & Hc & Hr & Ht) c' Heq. destruct s; cbn [config_set typed_config_setter] in *;
    try (destruct (_ =? 0); [done|]); apply Ok_inj in Heq as <-; by split_and!.
Qed.
Lemma config_build_typed setters config :
  Forall typed_config_setter setters → config_build setters = Ok config → typed_config config.
Proof.
  unfold config_build. intros Hs. 
  cut (∀ r, (∀ c, r = Ok c → typed_config c) → foldl (λ c s, c ← c; config_set s c) r setters = Ok config →
            typed_config config).
  { intros Hcut. apply Hcut. intros c [= <-]%Ok_inj. by split_and!. }
  induction Hs as [|s setters Hs _ IH]; intros r Hr; cbn [foldl]; [apply Hr|].
  apply IH. intros c Hc. apply bind_Ok_inv in Hc as (c0 & -> & Hc). eapply config_set_typed; eauto.
Qed.

Lemma merge_property_wf options value options' :
  wf_options options → wf_property value → merge_property options value = Ok options' →
  wf_options options' ∧ mo_sessionless options' = mo_sessionless options.
Proof.
  intros Hw Hv Hm. apply bind_Ok_inv in Hm as (found & _ & Hm). apply Ok_inj in Hm as <-.
  destruct found; [done|]. split; [|done]. destruct Hw. split; try done.
  apply Forall_app; split; [done|]. by constructor.
Qed.
Lemma resolve_options_wf options config resolved :
  wf_options options → typed_config config → resolve_options options config = Ok resolved →
  wf_options resolved ∧ mo_sessionless resolved = mo_sessionless options.
Proof.
  intros Hw (Hd & Ha & Hl & Hc & Hr & Ht) Hres. unfold resolve_options in Hres. destruct (_ || _); [done|].
  apply bind_Ok_inv in Hres as (o1 & Hres1 & Hres).
  assert (wf_options o1 ∧ mo_sessionless o1 = mo_sessionless options) as [Hw1 Hs1].
  { destruct (tc_receive_maximum config) as [maximum|]; [|by apply Ok_inj in Hres1 as <-].
    destruct (_ || _); [done|]. apply bind_Ok_inv in Hres1 as (o0 & Hm & Heq). apply Ok_inj in Heq as <-.
    apply (merge_property_wf options (ReceiveMaximum maximum)) in Hm as [[] Hs]; [|done..]. by split; [split|]. }
  apply bind_Ok_inv in Hres as (o2 & Hres2 & Hres).
  assert (wf_options o2 ∧ mo_sessionless o2 = mo_sessionless options) as [Hw2 Hs2].
  { destruct (tc_topic_alias_maximum config) as [maximum|]; [|by apply Ok_inj in Hres2 as <-].
    apply (merge_property_wf o1 (TopicAliasMaximum maximum)) in Hres2 as [? ->]; done. }
  clear Hres1 Hres2 Hw1 Hs1. cbv zeta in Hres.
  match type of Hres with context [mo_max_outgoing_packet_count] => idtac end.
  match type of Hres with (if _ then if _ then _ else Ok (?o <| _ ::= _ |>) else _) = _ =>
    assert (wf_options o) as Hw3; [|assert (mo_sessionless o = mo_sessionless options) as Hs3 by done;
      generalize dependent o] end.
  { destruct Hw2. split; try done. destruct wo_timeouts as (Hct & Hpt & Hst & Hut). split_and!; try done.
    cbn. destruct (ot_connect _) as [d|]; [done|]. destruct (tc_connect_timeout_ms config) as [n|]; [|done].
    cbn in Hc |- *. unfold Duration_from_millis. unfold is_u64 in Hc. lia. }
  intros o Hres Hw3 Hs3. destruct (tc_priority_queue_enabled config); [|by apply Ok_inj in Hres as <-].
  destruct (_ =? 0); [done|]. apply Ok_inj in Hres as <-. split; [|done]. destruct Hw3. split; try done.
  cbn. unfold is_usize, is_u64 in *. lia.
Qed.

(** A client with a configuration from the builder, and what its task is asked. *)
Record client_run {T} `{TimePoint T, !HostClock T, !TokioHost} (options : MqttClientOptions)
    (setters : list ConfigSetter) (config : TokioAsyncClientConfig) (resolved : MqttClientOptions)
    (readings : nat) (branches : list (list Response * Branch)) : Prop := {
  cl_options : wf_options options;
  cl_session : mo_sessionless options = false;
  cl_setters : Forall typed_config_setter setters;
  cl_config : config_build setters = Ok config;
  cl_resolved : resolve_options options config = Ok resolved;
  cl_clock : check_time_range resolved (clock_reading readings) = Ok ();
  cl_callbacks : ∀ n request, Some request ∈ during_callback n → publish_command_ok (pa_command request);
  cl_branches : Forall (λ b, served_branch b.2) branches;
  cl_length : 4 * zlen branches + 2 <= u32_MAX;
}.

Lemma client_run_runs {T} `{TimePointLaws T} `{!Runtime T} `{!RuntimeLaws T} `{!HostClock T} `{!TokioHost}
    options setters config resolved readings branches :
  client_run options setters config resolved readings branches →
  runs (run_worker branches) (TokioClientWorker_new resolved config readings)
    (λ _ worker, engine_inv (worker_core worker)).
Proof.
  intros [Hw Hs Hset Hc Hr Ht Hcb Hb Hl]. apply config_build_typed in Hc as Htc; [|done].
  apply resolve_options_wf in Hr as [Hwr Hsr]; [|done..]. rewrite Hs in Hsr.
  eapply runs_mono; [apply (run_worker_ok Hcb branches 1)|].
  - eapply Forall_impl; [exact Hb|]. intros b. apply served_branch_ok.
  - lia.
  - by apply new_worker_ok.
  - intros r worker [Hi _]. exact Hi.
Qed.

(** C8: the task of the asynchronous client never panics.  For every configuration that the
    builder makes and the client resolves, with a persistent session ([sessionless] off) and
    deadlines that are representable from the first reading of the clock on ([client_run]), the
    task serves whatever its callers send it through the client's methods, well-typed commands
    except a QoS 0 PUBLISH that carries a packet identifier, whatever the transport, the clock and
    the event handler do: every sequence of at most about 2^30 iterations returns without a
    panic, with the engine's invariant.  [EngineFindings] shows that the conditions on the session
    and on QoS 0 are needed. *)
Theorem async_client_never_panics {T} `{TimePointLaws T} `{!Runtime T} `{!RuntimeLaws T} `{!HostClock T}
    `{!TokioHost} options setters config resolved readings branches :
  client_run options setters config resolved readings branches →
  ∃ result worker,
    run_worker branches (TokioClientWorker_new resolved config readings) = Ok (result, worker) ∧
    engine_inv (worker_core worker).
Proof. intros Hrun. by apply client_run_runs, runs_Ok in Hrun. Qed.

(** C9: no caller of the asynchronous client is forgotten or answered twice.  At every point of a
    run, the response channels that callers passed to the task are, each once, those answered,
    those dropped because the caller stopped waiting, those displaced by a request with the same
    packet identifier, and those that still wait; when the task returns, none waits. *)
Theorem async_client_answers {T} `{TimePointLaws T} `{!Runtime T} `{!RuntimeLaws T} `{!HostClock T}
    `{!TokioHost} `{!TokioHostLaws} options setters config resolved readings branches :
  client_run options setters config resolved readings branches →
  ∃ result worker,
    run_worker branches (TokioClientWorker_new resolved config readings) = Ok (result, worker) ∧
    omap submitted_tx (tw_trace worker) ≡ₚ
      omap answered_tx (tw_trace worker) ++ omap dropped_tx (tw_trace worker) ++
      omap displaced_tx (tw_trace worker) ++ waiters (tw_pending worker) ∧
    (∀ tx, tx ∈ omap dropped_tx (tw_trace worker) → tx ∈ tw_closed worker) ∧
    (is_Some result → waiters (tw_pending worker) = []).
Proof.
  intros Hrun%client_run_runs. apply runs_Ok in Hrun as (result & worker & Hrun & _).
  pose proof (leads_run_worker branches _ (new_worker_owes resolved config readings)) as Ho.
  pose proof (run_settles branches (TokioClientWorker_new resolved config readings)) as Hs.
  unfold gives in Ho, Hs. rewrite Hrun in Ho, Hs. destruct Ho as [Ho Hd]. rewrite app_nil_r in Ho.
  exists result, worker. split_and!; [done..|]. intros [r ->]. by rewrite Hs.
Qed.

(** ** A run

    A client connects, publishes, stops waiting for its ping, and is shut down while an admission
    is queued; another admission arrives during the first callback. *)
#[local] Existing Instance Runtime_ordered.
#[local] Existing Instance RuntimeLaws_ordered.
#[local] Instance AsyncClock_sample : HostClock Timestamp := λ n, Timestamp_from_nanos (Z.of_nat n).

Definition sample_admission (tx : Response) : PublishAdmission :=
  {| pa_command := sample_command; pa_response_tx := tx |}.
#[local] Instance TokioHost_sample : TokioHost := {
  write_all_result := λ _, WrDone;
  close_result := λ _, ClTimeout;
  set_nodelay_result := λ _, None;
  during_callback := λ n, if Nat.eqb n 4 then [Some (sample_admission 10)] else [];
  iter_waiters := map_to_list;
}.
#[local] Instance TokioHostLaws_sample : TokioHostLaws.
Proof. by split. Qed.

Definition sample_setters : list ConfigSetter :=
  [Cs_internet_timeouts; Cs_receive_maximum 20; Cs_max_reconnect_attempts 3; Cs_topic_alias_maximum 5].
Definition sample_config : TokioAsyncClientConfig :=
  match config_build sample_setters with Ok c => c | _ => TokioAsyncClientConfig_default end.
Definition sample_resolved : MqttClientOptions :=
  match resolve_options MqttClientOptions_default sample_config with
  | Ok o => o
  | _ => MqttClientOptions_default
  end.
Definition sample_branches : list (list Response * Branch) :=
  [([], client_branch RqConnectSync 1%nat); ([], BrTransport (inr ())); ([], BrRead (inr [32; 3; 0; 0; 0]));
   ([], client_branch (RqPublishSync (str "a/b") [1; 2] 1 false) 2%nat);
   ([], client_branch (RqPublishSync (str "a/b") [3] 1 false) 3%nat);
   ([], client_branch RqPingSync 4%nat); ([], BrRead (inr [64; 2; 0; 2]));
   ([4%nat], BrCancelled); ([], BrDeadline); ([], BrStop [sample_admission 5%nat])].
Lemma sample_client_run :
  client_run MqttClientOptions_default sample_setters sample_config sample_resolved 0 sample_branches.
Proof.
  split.
  - apply default_options_wf.
  - reflexivity.
  - repeat (apply Forall_cons_2; [first [exact I|cbn; unfold is_u16, is_u32; lia]|]). apply Forall_nil_2.
  - reflexivity.
  - reflexivity.
  - reflexivity.
  - intros n request. unfold during_callback, TokioHost_sample. destruct (Nat.eqb n 4).
    + intros Hin. apply list_elem_of_singleton in Hin. injection Hin as ->. exact sample_command_ok.
    + intros Hin. by apply not_elem_of_nil in Hin.
  - unfold sample_branches.
    repeat (apply Forall_cons_2;
      [cbn [snd]; first [exact I|cbn; u8s_lit|apply served_request; exact I
         |apply served_request; split_and!; [by repeat split; try u8s_lit|u8s_lit|unfold is_u8; lia]]|]).
    apply Forall_nil_2.
  - vm_compute. done.
Qed.

Lemma async_client_never_panics_witness :
  ∃ result worker,
    run_worker sample_branches (TokioClientWorker_new sample_resolved sample_config 0) = Ok (result, worker) ∧
    engine_inv (worker_core worker).
Proof.
  apply (async_client_never_panics MqttClientOptions_default sample_setters). exact sample_client_run.
Defined.

(** The same run: who was answered, and who stopped waiting. *)
Lemma async_client_answers_witness :
  ∃ result worker,
    run_worker sample_branches (TokioClientWorker_new sample_resolved sample_config 0) = Ok (result, worker) ∧
    omap submitted_tx (tw_trace worker) = [1; 10; 2; 3; 4; 5]%nat ∧
    omap answered_tx (tw_trace worker) = [1; 10; 2; 5; 3]%nat ∧
    omap dropped_tx (tw_trace worker) = [4]%nat ∧ waiters (tw_pending worker) = [].
Proof.
  destruct (async_client_answers MqttClientOptions_default sample_setters sample_config sample_resolved 0
    sample_branches sample_client_run) as (result & worker & Hrun & _ & _ & Hw).
  exists result, worker. split; [exact Hrun|]. revert Hrun Hw.
  assert (Hsome : run_worker sample_branches (TokioClientWorker_new sample_resolved sample_config 0) =
    Ok (result, worker) → is_Some result ∧ omap submitted_tx (tw_trace worker) = [1; 10; 2; 3; 4; 5]%nat ∧
    omap answered_tx (tw_trace worker) = [1; 10; 2; 5; 3]%nat ∧
    omap dropped_tx (tw_trace worker) = [4]%nat).
  { intros Hrun. vm_compute in Hrun. injection Hrun as <- <-. split; [by eexists|].
    split_and!; reflexivity. }
  intros Hrun Hw. destruct (Hsome Hrun) as (Hr & Hsub & Hans & Hdrop). split_and!; [done..|]. by apply Hw.
Defined.
