(* ===== verification/BlockingClient.v ===== *)
(** * The blocking client

    Models [src/mqtt_client/client.rs]: [MqttClient], which sends a packet over a TCP stream and
    reads the stream until the answer is there, keeping every other packet it meets, and its
    variants that do not wait.

    The outside is a script.  A connection ([TcpScript]) has what each further [read] returns, as in
    [Stream], and what each further [write] returns: an error ([None]) or the number of bytes
    taken (all of them when the script is over).  The script of the reads is finite and ends
    with the end of the stream: it stands for a connection that is closed at some time, or for
    the beginning of one that is not.  A peer that stays silent without closing, on which the
    [read] would block, has no script.  [mc_dials] has the call_outcome of each further
    [TcpStream::connect]; [mc_sent] is what the peers received. *)
From S2P Require Import Prelude BaseData TopicFilter Validation Properties Packets Framing.
From S2P Require Import AckCodec ControlCodec PublishCodec SubscribeCodec ConnectCodec Codec.
From S2P Require Import Stream Options ClientTypes ClientSession.

(** The errors of [std::io] that the methods return, by where they are made. *)
Inductive BlockingError : Type :=
  | BeNotConnected
  | BeInvalidTimeout
  | BeDial
  | BeSerialize (e : ParseError)
  | BeWrite
  | BeRead
  | BeParse (e : ParseError)
  | BeReceive (e : ParseError)
  | BeUnexpected (text : string)
  | BeEof (text : string).

(** A connection that ends after [tcp_reads]. *)
Record TcpScript : Type := { tcp_reads : list (res bytes); tcp_writes : list (option nat) }.

(** [Context], without the fields that nothing reads. *)
Record ClientContext : Type := {
  cx_peer : bytes;
  cx_session : option ClientSession;
  cx_mqtt_stream : option MqttStream;
  cx_session_present : bool;
  cx_pending_subscribes : gmap Z bytes;
  cx_pending_unsubscribes : gmap Z (list bytes);
  cx_pending_publishes : gmap Z (bytes * Z);
  cx_unhandled_packets : list MqttPacket;
}.
#[export] Instance Rebuild_ClientContext : Rebuild ClientContext := λ c, {|
  cx_peer := cx_peer c; cx_session := cx_session c; cx_mqtt_stream := cx_mqtt_stream c;
  cx_session_present := cx_session_present c; cx_pending_subscribes := cx_pending_subscribes c;
  cx_pending_unsubscribes := cx_pending_unsubscribes c;
  cx_pending_publishes := cx_pending_publishes c; cx_unhandled_packets := cx_unhandled_packets c |}.

Definition ClientContext_new (peer : bytes) : ClientContext := {|
  cx_peer := peer; cx_session := None; cx_mqtt_stream := None; cx_session_present := false;
  cx_pending_subscribes := ∅; cx_pending_unsubscribes := ∅; cx_pending_publishes := ∅;
  cx_unhandled_packets := [] |}.
Definition ClientContext_new_with_sess (peer : bytes) (session : ClientSession) : ClientContext :=
  ClientContext_new peer <| cx_session := Some session |>.

Record MqttClient : Type := {
  mc_context : ClientContext;
  mc_options : MqttClientOptions;
  mc_dials : list (option TcpScript);
  mc_writes : list (option nat);
  mc_sent : bytes;
}.
#[export] Instance Rebuild_MqttClient : Rebuild MqttClient := λ c, {|
  mc_context := mc_context c; mc_options := mc_options c; mc_dials := mc_dials c;
  mc_writes := mc_writes c; mc_sent := mc_sent c |}.

Definition MqttClient_new (options : MqttClientOptions) (dials : list (option TcpScript)) : MqttClient := {|
  mc_context := ClientContext_new (mo_peer options); mc_options := options; mc_dials := dials;
  mc_writes := []; mc_sent := [] |}.
Definition MqttClient_new_with_sess (options : MqttClientOptions) (session : ClientSession)
    (dials : list (option TcpScript)) : MqttClient := {|
  mc_context := ClientContext_new_with_sess (mo_peer options) session; mc_options := options;
  mc_dials := dials; mc_writes := []; mc_sent := [] |}.

Implicit Types (self : MqttClient).
Local Abbreviation M := (St MqttClient).
Local Abbreviation IoResult A := (St MqttClient (BlockingError + A)).

Definition on_context (f : ClientContext → ClientContext) : M () :=
  modify (λ self, self <| mc_context ::= f |>).
Definition is_v3 self : bool :=
  (mo_mqtt_version (mc_options self) =? 3) || (mo_mqtt_version (mc_options self) =? 4).

(** ** Unhandled packets *)
Definition peek_unhandled_packets self : list MqttPacket := cx_unhandled_packets (mc_context self).
Definition pop_unhandled_packet : M (option MqttPacket) :=
  self ← get_st;
  match cx_unhandled_packets (mc_context self) with
  | [] => mret None
  | packet :: packets => on_context (λ c, c <| cx_unhandled_packets := packets |>);; mret (Some packet)
  end.
Definition clear_unhandled_packets : M () := on_context (λ c, c <| cx_unhandled_packets := [] |>).
Definition keep_packet (packet : MqttPacket) : M () :=
  on_context (λ c, c <| cx_unhandled_packets ::= λ l, l ++ [packet] |>).

(** ** The stream *)

(** [stream.write(&packet_bytes)]: one call of [write]. *)
Definition socket_write (data : bytes) : IoResult () :=
  self ← get_st;
  modify (λ self, self <| mc_writes ::= tail |>);;
  match head (mc_writes self) with
  | Some None => err BeWrite
  | Some (Some n) => modify (λ self, self <| mc_sent ::= λ sent, sent ++ take n data |>);; ok ()
  | None => modify (λ self, self <| mc_sent ::= λ sent, sent ++ data |>);; ok ()
  end.

Definition blocking_send_packet (packet : MqttPacket) : IoResult () :=
  self ← get_st;
  match cx_mqtt_stream (mc_context self) with
  | None => err BeNotConnected
  | Some _ =>
      match MqttPacket_to_bytes packet with
      | Ok packet_bytes => socket_write packet_bytes
      | Err e => err (BeSerialize e)
      | Panic => λ _, Panic
      end
  end.

(** [stream.next()] on the stream of the context. *)
Definition stream_next (stream : MqttStream) : M (option (res MqttPacket)) :=
  λ self, match MqttStream_next stream with
          | Ok (item, stream) =>
              Ok (item, self <| mc_context ::= λ c, c <| cx_mqtt_stream := Some stream |> |>)
          | _ => Panic
          end.

Definition recv_packet : IoResult (option MqttPacket) :=
  self ← get_st;
  match cx_mqtt_stream (mc_context self) with
  | None => err BeNotConnected
  | Some stream =>
      item ← stream_next stream;
      match item with
      | Some (Ok packet) => ok (Some packet)
      | Some (Err IoError) => err BeRead
      | Some (Err e) => err (BeParse e)
      | Some Panic => λ _, Panic
      | None => ok None
      end
  end.

(** What a stream can still deliver; each packet takes at least one byte of it. *)
Definition stream_bytes (stream : MqttStream) : nat :=
  (length (mp_buffer (ms_parser stream)) +
   sum_list (length <$> omap (λ r : res bytes, match r with Ok b => Some b | _ => None end) (ms_stream stream)))%nat.

(** [stream.find_map(..)]: the first packet that [f] accepts, an error, or the end. *)
Fixpoint find_packet (fuel : nat) (f : MqttPacket → bool) : IoResult (option MqttPacket) :=
  match fuel with
  | O => λ _, Panic
  | S fuel =>
      self ← get_st;
      match cx_mqtt_stream (mc_context self) with
      | None => err BeNotConnected
      | Some stream =>
          item ← stream_next stream;
          match item with
          | Some (Ok packet) =>
              if f packet then ok (Some packet) else keep_packet packet;; find_packet fuel f
          | Some (Err e) => err (BeReceive e)
          | Some Panic => λ _, Panic
          | None => ok None
          end
      end
  end.

Definition recv_for_packet (f : MqttPacket → bool) : IoResult (option MqttPacket) :=
  self ← get_st;
  match cx_mqtt_stream (mc_context self) with
  | None => err BeNotConnected
  | Some stream => find_packet (S (stream_bytes stream)) f
  end.

(** ** Connecting *)
Definition convert_will_v5_to_v3 (will : Will5) : Will3 :=
  {| w3_retain := w5_will_retain will; w3_qos := w5_will_qos will; w3_topic := w5_will_topic will;
     w3_message := w5_will_message will |}.

Definition clear_pending_operations : M () :=
  on_context (λ c, c <| cx_pending_subscribes := ∅ |> <| cx_pending_unsubscribes := ∅ |>
                     <| cx_pending_publishes := ∅ |>).

(** [TcpStream::connect(..)] *)
Definition tcp_connect : M (option TcpScript) :=
  self ← get_st;
  modify (λ self, self <| mc_dials ::= tail |>);;
  mret (mjoin (head (mc_dials self))).

Definition initialize_session : M () :=
  self ← get_st;
  if mo_sessionless (mc_options self) then
    on_context (λ c, c <| cx_session := None |>);;
    modify (λ self, self <| mc_options ::= λ o, o <| mo_clean_start := true |> |>)
  else match cx_session (mc_context self) with
       | None => on_context (λ c, c <| cx_session := Some ClientSession_new |>)
       | Some _ => mret ()
       end.

Definition blocking_connect5 (options : MqttClientOptions) : MqttPacket :=
  Connect5 (MqttConnect5_new (mo_client_id options) (mo_username options) (mo_password options)
              (mo_will options) (mo_keep_alive options) (mo_clean_start options)
              (mo_connect_properties options)).
Definition blocking_connect3 (options : MqttClientOptions) : MqttPacket :=
  let connect_packet := MqttConnect3_new (mo_client_id options) (mo_keep_alive options)
                          (mo_clean_start options) in
  Connect3 {| c3_protocol_name := c3_protocol_name connect_packet;
              c3_protocol_version := c3_protocol_version connect_packet;
              c3_clean_session := c3_clean_session connect_packet;
              c3_keep_alive := c3_keep_alive connect_packet;
              c3_client_id := c3_client_id connect_packet;
              c3_will := convert_will_v5_to_v3 <$> mo_will options;
              c3_username := mo_username options;
              c3_password := mo_password options |}.

(** [self.context.mqtt_stream = Some(MqttStream::new(stream, 16384, version))] *)
Definition save_stream (script : TcpScript) (version : Z) : M () :=
  on_context (λ c, c <| cx_mqtt_stream := Some (MqttStream_new (tcp_reads script) 16384 version) |>);;
  modify (λ self, self <| mc_writes := tcp_writes script |>).

(** What a CONNACK does. *)
Definition accept_connack (code : Z) (session_present : bool) (properties : option (list Property))
    : IoResult ConnectionResult :=
  on_context (λ c, c <| cx_session_present := session_present |>);;
  (if (code =? 0) && negb session_present then
     on_context (λ c, c <| cx_session ::= fmap ClientSession_clear |>);;
     clear_pending_operations
   else mret ());;
  ok {| cr_reason_code := code; cr_session_present := session_present; cr_properties := properties |}.

Definition no_connack : BlockingError := BeEof "No CONNACK received from broker".
Definition blocking_connected : IoResult ConnectionResult :=
  stream ← tcp_connect;
  match stream with
  | None => err no_connack
  | Some stream =>
      initialize_session;;
      self ← get_st;
      if is_v3 self then
        save_stream stream (mo_mqtt_version (mc_options self));;
        _ ←? blocking_send_packet (blocking_connect3 (mc_options self));
        packet ←? recv_packet;
        match packet with
        | Some (ConnAck3 connack) =>
            accept_connack (ca3_return_code connack) (ca3_session_present connack) None
        | Some _ => err (BeUnexpected "Expected CONNACK packet")
        | None => err no_connack
        end
      else
        save_stream stream 5;;
        _ ←? blocking_send_packet (blocking_connect5 (mc_options self));
        packet ←? recv_packet;
        match packet with
        | Some (ConnAck5 connack) =>
            accept_connack (ca5_reason_code connack) (ca5_session_present connack) (ca5_properties connack)
        | Some _ => err (BeUnexpected "Expected CONNACK packet")
        | None => err no_connack
        end
  end.

(** ** Operations that wait for their answer *)
Definition no_session : BlockingError := BeUnexpected "No active session".

(** [if let Some(session) = &mut self.context.session { .. session.next_packet_id() .. }] *)
Definition next_id : IoResult Z :=
  self ← get_st;
  match cx_session (mc_context self) with
  | None => err no_session
  | Some session =>
      let '(id, session) := ClientSession_next_packet_id session in
      on_context (λ c, c <| cx_session := Some session |>);; ok id
  end.
(** The identifier of a PUBLISH, for QoS 1 and 2. *)
Definition next_publish_id (qos : Z) : IoResult (option Z) :=
  self ← get_st;
  match cx_session (mc_context self) with
  | None => err no_session
  | Some _ => if 0 <? qos then id ←? next_id; ok (Some id) else ok None
  end.

Definition plain_subscription (topic : bytes) (qos : Z) : TopicSubscription :=
  {| ts_topic_filter := topic; ts_qos := qos; ts_no_local := false; ts_retain_as_published := false;
     ts_retain_handling := 0 |}.

Definition subscribed (topic : bytes) (qos : Z) : IoResult SubscribeResult :=
  packet_id ←? next_id;
  self ← get_st;
  let none := err (BeEof "No SUBACK received from broker") in
  if is_v3 self then
    _ ←? blocking_send_packet (Subscribe3 {| s3_message_id := packet_id;
           s3_subscriptions := [{| st_topic_filter := topic; st_qos := qos |}] |});
    packet ←? recv_for_packet (λ p, match p with SubAck3 a => sa3_message_id a =? packet_id | _ => false end);
    match packet with
    | Some (SubAck3 suback) => ok {| sr_packet_id := sa3_message_id suback;
        sr_reason_codes := sa3_return_codes suback; sr_properties := [] |}
    | Some packet => keep_packet packet;; none
    | None => none
    end
  else
    _ ←? blocking_send_packet (Subscribe5 {| s5_packet_id := packet_id;
           s5_subscriptions := [plain_subscription topic qos]; s5_properties := [] |});
    packet ←? recv_for_packet (λ p, match p with SubAck5 a => r5_packet_id a =? packet_id | _ => false end);
    match packet with
    | Some (SubAck5 suback) => ok {| sr_packet_id := r5_packet_id suback;
        sr_reason_codes := r5_reason_codes suback; sr_properties := r5_properties suback |}
    | Some packet => keep_packet packet;; none
    | None => none
    end.

Definition unsubscribed (topics : list bytes) : IoResult UnsubscribeResult :=
  packet_id ←? next_id;
  self ← get_st;
  let none := err (BeEof "No UNSUBACK received from broker") in
  if is_v3 self then
    _ ←? blocking_send_packet (Unsubscribe3 {| u3_message_id := packet_id; u3_topic_filters := topics |});
    packet ←? recv_for_packet (λ p, match p with UnsubAck3 a => a3_message_id a =? packet_id | _ => false end);
    match packet with
    | Some (UnsubAck3 unsuback) => ok {| ur_packet_id := a3_message_id unsuback;
        ur_reason_codes := replicate (length topics) 0; ur_properties := [] |}
    | Some packet => keep_packet packet;; none
    | None => none
    end
  else
    _ ←? blocking_send_packet (Unsubscribe5 {| u5_packet_id := packet_id; u5_topic_filters := topics;
           u5_properties := [] |});
    packet ←? recv_for_packet (λ p, match p with UnsubAck5 a => r5_packet_id a =? packet_id | _ => false end);
    match packet with
    | Some (UnsubAck5 unsuback) => ok {| ur_packet_id := r5_packet_id unsuback;
        ur_reason_codes := r5_reason_codes unsuback; ur_properties := r5_properties unsuback |}
    | Some packet => keep_packet packet;; none
    | None => none
    end.
Definition unsubscribed_single (topic : bytes) : IoResult UnsubscribeResult := unsubscribed [topic].

Definition blocking_publish3 (topic payload : bytes) (qos : Z) (retain : bool) (packet_id : option Z) : MqttPacket :=
  Publish3 {| p3_dup := false; p3_qos := qos; p3_retain := retain; p3_topic_name := topic;
              p3_message_id := packet_id; p3_payload := payload |}.
Definition blocking_publish5 (topic payload : bytes) (qos : Z) (retain : bool) (packet_id : option Z) : MqttPacket :=
  Publish5 {| p5_topic_name := topic; p5_qos := qos; p5_dup := false; p5_retain := retain;
              p5_packet_id := packet_id; p5_payload := payload; p5_properties := [] |}.

Definition blocking_result (packet_id reason_code : Z) (properties : option (list Property)) (qos : Z) : PublishResult :=
  {| pr_packet_id := Some packet_id; pr_reason_code := Some reason_code; pr_properties := properties;
     pr_qos := qos |}.

Definition receive_for_puback (packet_id : option Z) : IoResult PublishResult :=
  match packet_id with
  | None => λ _, Panic
  | Some expected =>
      self ← get_st;
      let none := err (BeEof "No PUBACK received from broker") in
      if is_v3 self then
        packet ←? recv_for_packet (λ p, match p with PubAck3 a => a3_message_id a =? expected | _ => false end);
        match packet with
        | Some (PubAck3 puback) => ok (blocking_result (a3_message_id puback) 0 None 1)
        | _ => none
        end
      else
        packet ←? recv_for_packet (λ p, match p with PubAck5 a => a5_packet_id a =? expected | _ => false end);
        match packet with
        | Some (PubAck5 puback) =>
            ok (blocking_result (a5_packet_id puback) (a5_reason_code puback) (Some (a5_properties puback)) 1)
        | _ => none
        end
  end.

Definition handle_qos2 (packet_id : option Z) : IoResult PublishResult :=
  match packet_id with
  | None => λ _, Panic
  | Some expected =>
      self ← get_st;
      let none := err (BeEof "No PUBCOMP received from broker") in
      if is_v3 self then
        _ ←? recv_for_packet (λ p, match p with PubRec3 a => a3_message_id a =? expected | _ => false end);
        _ ←? blocking_send_packet (PubRel3 {| a3_message_id := expected |});
        packet ←? recv_for_packet (λ p, match p with PubComp3 a => a3_message_id a =? expected | _ => false end);
        match packet with
        | Some (PubComp3 pubcomp) => ok (blocking_result (a3_message_id pubcomp) 0 None 2)
        | _ => none
        end
      else
        _ ←? recv_for_packet (λ p, match p with PubRec5 a => a5_packet_id a =? expected | _ => false end);
        _ ←? blocking_send_packet (PubRel5 (PacketIdAck5_new expected 0 []));
        packet ←? recv_for_packet (λ p, match p with PubComp5 a => a5_packet_id a =? expected | _ => false end);
        match packet with
        | Some (PubComp5 pubcomp) =>
            ok (blocking_result (a5_packet_id pubcomp) (a5_reason_code pubcomp) (Some (a5_properties pubcomp)) 2)
        | _ => none
        end
  end.

Definition published (topic payload : bytes) (qos : Z) (retain : bool) : IoResult PublishResult :=
  packet_id ←? next_publish_id qos;
  self ← get_st;
  _ ←? blocking_send_packet (if is_v3 self then blocking_publish3 topic payload qos retain packet_id
                             else blocking_publish5 topic payload qos retain packet_id);
  match qos with
  | 1 => receive_for_puback packet_id
  | 2 => handle_qos2 packet_id
  | _ => ok {| pr_packet_id := packet_id; pr_reason_code := None; pr_properties := None; pr_qos := qos |}
  end.

Definition disconnected (reason_code : Z) : IoResult () :=
  self ← get_st;
  blocking_send_packet (if is_v3 self then Disconnect3 else Disconnect5 (MqttDisconnect5_new reason_code [])).

Definition pingd : IoResult PingResult :=
  self ← get_st;
  let none := err (BeEof "No PINGRESP received from broker") in
  if is_v3 self then
    _ ←? blocking_send_packet PingReq3;
    packet ←? recv_for_packet (λ p, match p with PingResp3 => true | _ => false end);
    match packet with
    | Some PingResp3 => ok {| pg_success := true |}
    | Some packet => keep_packet packet;; none
    | None => none
    end
  else
    _ ←? blocking_send_packet PingReq5;
    packet ←? recv_for_packet (λ p, match p with PingResp5 => true | _ => false end);
    match packet with
    | Some PingResp5 => ok {| pg_success := true |}
    | Some packet => keep_packet packet;; none
    | None => none
    end.

(** ** Operations that do not wait *)
Definition connect_send : IoResult () :=
  stream ← tcp_connect;
  match stream with
  | None => err BeDial
  | Some stream =>
      initialize_session;;
      self ← get_st;
      save_stream stream 5;;
      blocking_send_packet (blocking_connect5 (mc_options self))
  end.

(** The standard library refuses a timeout of zero. *)
Definition set_read_timeout (timeout : option Z) : IoResult () :=
  self ← get_st;
  match cx_mqtt_stream (mc_context self) with
  | None => err BeNotConnected
  | Some _ => if bool_decide (timeout = Some 0) then err BeInvalidTimeout else ok ()
  end.

Definition subscribe_send (topic : bytes) (qos : Z) : IoResult Z :=
  packet_id ←? next_id;
  _ ←? blocking_send_packet (Subscribe5 {| s5_packet_id := packet_id;
         s5_subscriptions := [plain_subscription topic qos]; s5_properties := [] |});
  on_context (λ c, c <| cx_pending_subscribes ::= <[packet_id := topic]> |>);;
  ok packet_id.

Definition unsubscribe_send (topics : list bytes) : IoResult Z :=
  packet_id ←? next_id;
  _ ←? blocking_send_packet (Unsubscribe5 {| u5_packet_id := packet_id; u5_topic_filters := topics;
         u5_properties := [] |});
  on_context (λ c, c <| cx_pending_unsubscribes ::= <[packet_id := topics]> |>);;
  ok packet_id.
Definition unsubscribe_send_single (topic : bytes) : IoResult Z := unsubscribe_send [topic].

Definition publish_send (topic payload : bytes) (qos : Z) (retain : bool) : IoResult (option Z) :=
  packet_id ←? next_publish_id qos;
  _ ←? blocking_send_packet (blocking_publish5 topic payload qos retain packet_id);
  match packet_id with
  | Some pid => on_context (λ c, c <| cx_pending_publishes ::= <[pid := (topic, qos)]> |>)
  | None => mret ()
  end;;
  ok packet_id.

Definition ping_send : IoResult () := blocking_send_packet PingReq5.
Definition disconnect_send : IoResult () := blocking_send_packet (Disconnect5 (MqttDisconnect5_new 0 [])).

(** ** The pending operations *)
Definition complete_subscribe (packet_id : Z) : M (option bytes) :=
  self ← get_st;
  on_context (λ c, c <| cx_pending_subscribes ::= delete packet_id |>);;
  mret (cx_pending_subscribes (mc_context self) !! packet_id).
Definition complete_unsubscribe (packet_id : Z) : M (option (list bytes)) :=
  self ← get_st;
  on_context (λ c, c <| cx_pending_unsubscribes ::= delete packet_id |>);;
  mret (cx_pending_unsubscribes (mc_context self) !! packet_id).
Definition blocking_complete_publish (packet_id : Z) : M (option (bytes * Z)) :=
  self ← get_st;
  on_context (λ c, c <| cx_pending_publishes ::= delete packet_id |>);;
  mret (cx_pending_publishes (mc_context self) !! packet_id).

(** ** A program that uses the client *)
Inductive BlockingCall : Type :=
  | BcConnected
  | BcSubscribed (topic : bytes) (qos : Z)
  | BcUnsubscribed (topics : list bytes)
  | BcPublished (topic payload : bytes) (qos : Z) (retain : bool)
  | BcDisconnected (reason_code : Z)
  | BcPingd
  | BcConnectSend
  | BcSetReadTimeout (timeout : option Z)
  | BcSubscribeSend (topic : bytes) (qos : Z)
  | BcUnsubscribeSend (topics : list bytes)
  | BcPublishSend (topic payload : bytes) (qos : Z) (retain : bool)
  | BcPingSend
  | BcDisconnectSend
  | BcRecvPacket
  | BcRecvForPacket (f : MqttPacket → bool)
  | BcPopUnhandled
  | BcClearUnhandled
  | BcCompleteSubscribe (packet_id : Z)
  | BcCompleteUnsubscribe (packet_id : Z)
  | BcCompletePublish (packet_id : Z)
  | BcClearPending.

Definition run_blocking_call (call : BlockingCall) : M () :=
  match call with
  | BcConnected => blocking_connected;; mret ()
  | BcSubscribed topic qos => subscribed topic qos;; mret ()
  | BcUnsubscribed topics => unsubscribed topics;; mret ()
  | BcPublished topic payload qos retain => published topic payload qos retain;; mret ()
  | BcDisconnected reason => disconnected reason;; mret ()
  | BcPingd => pingd;; mret ()
  | BcConnectSend => connect_send;; mret ()
  | BcSetReadTimeout timeout => set_read_timeout timeout;; mret ()
  | BcSubscribeSend topic qos => subscribe_send topic qos;; mret ()
  | BcUnsubscribeSend topics => unsubscribe_send topics;; mret ()
  | BcPublishSend topic payload qos retain => publish_send topic payload qos retain;; mret ()
  | BcPingSend => ping_send;; mret ()
  | BcDisconnectSend => disconnect_send;; mret ()
  | BcRecvPacket => recv_packet;; mret ()
  | BcRecvForPacket f => recv_for_packet f;; mret ()
  | BcPopUnhandled => pop_unhandled_packet;; mret ()
  | BcClearUnhandled => clear_unhandled_packets
  | BcCompleteSubscribe id => complete_subscribe id;; mret ()
  | BcCompleteUnsubscribe id => complete_unsubscribe id;; mret ()
  | BcCompletePublish id => blocking_complete_publish id;; mret ()
  | BcClearPending => clear_pending_operations
  end.
Fixpoint run_blocking (calls : list BlockingCall) : M () :=
  match calls with
  | [] => mret ()
  | call :: calls => run_blocking_call call;; run_blocking calls
  end.
