(* ===== verification/BlockingFacts.v ===== *)
(** * The blocking client: no panics, and the exchanges

    Whatever the peer sends and however the stream is cut, fails or ends, no method of the
    blocking client panics, and every method returns by the time the connection has ended; a
    method that waits has no other bound ([blocking_reads_on]).  A QoS 2 publication with a peer that follows the protocol is carried
    out packet by packet, and what else the peer sent is kept in order.  [blocking_defects] shows
    where the client departs from that. *)
From S2P Require Import Prelude BaseData TopicFilter Validation Properties Packets Framing.
From S2P Require Import AckCodec ControlCodec PublishCodec SubscribeCodec ConnectCodec Codec.
From S2P Require Import Stream Options ClientTypes ClientSession EncodeFacts BlockingClient.

(** ** The stream behind any script *)

(** What [Read::read] can return. *)
Definition read_ok (r : res bytes) : Prop :=
  match r with
  | Ok b => (length b <= 1024)%nat ∧ u8s b
  | Err e => e = IoError
  | Panic => False
  end.
Definition script_bytes (reads : list (res bytes)) : nat :=
  sum_list (length <$> omap (λ r : res bytes, match r with Ok b => Some b | _ => None end) reads).
Definition stream_ok (stream : MqttStream) : Prop :=
  parser_inv (ms_parser stream) ∧ Forall read_ok (ms_stream stream).
Definition script_left (stream : MqttStream) : nat :=
  (length (unread (ms_parser stream)) + script_bytes (ms_stream stream))%nat.

Lemma next_loop_total reads parser :
  parser_inv parser → Forall read_ok reads →
  ∃ item stream, MqttStream_next_loop parser reads = Ok (item, stream) ∧ stream_ok stream ∧
    match item with
    | Some (Ok _) => (script_left stream < script_left {| ms_parser := parser; ms_stream := reads |})%nat
    | Some Panic => False
    | _ => True
    end.
Proof.
  revert parser. induction reads as [|r reads IH]; intros parser Hi Hr;
    pose proof (next_packet_spec parser Hi) as Hn; pose proof (unread_u8s parser Hi) as Hu;
    destruct (compact_spec parser Hi) as (p1 & Hc & (Hi1 & Hu1 & Hv1 & _) & H0);
    cbn [MqttStream_next_loop]; unfold MqttParser_buffer_mut;
    destruct (stream_step _ (unread parser)) as [[[p rest]|]| |] eqn:Hs; try done.
  - destruct Hn as (p' & -> & Hi' & Hr' & _). apply stream_step_u8s in Hs as [_ Hlt]; [|done].
    eexists _, _. split; [done|]. split; [done|]. unfold script_left. cbn. rewrite Hr'. lia.
  - rewrite Hn. rewrite Hc. rsimp. by eexists _, _.
  - rewrite Hn. by eexists _, _.
  - destruct Hn as (p' & -> & Hi' & Hr' & _). apply stream_step_u8s in Hs as [_ Hlt]; [|done].
    eexists _, _. split; [done|]. split; [done|]. unfold script_left. cbn [ms_parser ms_stream]. rewrite Hr'. lia.
  - apply Forall_cons_1 in Hr as [Hr1 Hr]. rewrite Hn, Hc. rsimp.
    destruct r as [data|e|]; [|by eexists _, _|done]. destruct Hr1 as [Hl Hd].
    destruct data as [|b data]; [by eexists _, _|].
    set (p2 := with_buffer p1 (read_into (mp_buffer p1) (b :: data)) (mp_read_offset p1)).
    assert (parser_at p1 p2 (unread parser ++ b :: data)) as (Hi2 & Hu2 & _).
    { unfold p2. rewrite H0, read_into_app, <- Hu1 by done. unfold unread. rewrite H0.
      destruct Hi1 as (_ & _ & Hb & Hver).
      apply (parser_at_intro p1 (mp_buffer p1 ++ b :: data) 0); [by apply Forall_app|zlia| |done].
      rewrite zlen_app, zlen_cons. intros E. pose proof (zlen_nonneg data). pose proof (zlen_nonneg (mp_buffer p1)). lia. }
    destruct (IH p2 Hi2 Hr) as (item & stream & Hloop & Hok & Hleft). exists item, stream.
    split; [exact Hloop|]. split; [done|]. destruct item as [[p| |]|]; try done.
    unfold script_left, script_bytes in *. cbn [ms_parser ms_stream omap list_omap fmap list_fmap sum_list] in *.
    rewrite Hu2, length_app in Hleft. cbn in Hleft |- *. lia.
  - rewrite Hn. by eexists _, _.
Qed.

(** ** No method panics *)
Definition dial_ok (dial : option TcpScript) : Prop :=
  match dial with Some script => Forall read_ok (tcp_reads script) | None => True end.
Definition client_ok (self : MqttClient) : Prop :=
  (∀ stream, cx_mqtt_stream (mc_context self) = Some stream → stream_ok stream) ∧
  Forall dial_ok (mc_dials self).
Local Abbreviation keeps_ok m := (preserves client_ok client_ok m).

Lemma keeps_modify f :
  (∀ self, cx_mqtt_stream (mc_context (f self)) = cx_mqtt_stream (mc_context self) ∧
           mc_dials (f self) = mc_dials self) → keeps_ok (modify f).
Proof.
  intros Hf. apply preserves_modify. intros self [Hs Hd]. destruct (Hf self) as [Hf1 Hf2].
  split; [by rewrite Hf1|by rewrite Hf2].
Qed.
Lemma runs_stream_next self stream :
  client_ok self → cx_mqtt_stream (mc_context self) = Some stream →
  runs (stream_next stream) self (λ item self', client_ok self' ∧
    ∃ stream', cx_mqtt_stream (mc_context self') = Some stream' ∧
      match item with
      | Some (Ok _) => (script_left stream' < script_left stream)%nat
      | Some Panic => False
      | _ => True
      end).
Proof.
  intros [Hs Hd] Hstream. destruct (Hs stream Hstream) as [Hi Hr].
  destruct (next_loop_total (ms_stream stream) (ms_parser stream) Hi Hr) as (item & stream' & Hn & Hok & Hleft).
  unfold runs, stream_next, MqttStream_next. rewrite Hn. split; [split; [|done]|].
  - intros s [= <-]. done.
  - exists stream'. by destruct stream.
Qed.

(** Follows the text. *)
Create HintDb blocking.
Ltac ok_step :=
  lazymatch goal with
  | |- preserves _ _ (mret _) => apply preserves_ret
  | |- preserves _ _ (ok _) => apply preserves_ret
  | |- preserves _ _ (err _) => apply preserves_ret
  | |- preserves _ _ (on_context _) => by apply keeps_modify
  | |- preserves _ _ (keep_packet _) => by apply keeps_modify
  | |- preserves _ _ (modify _) => by apply keeps_modify
  | |- preserves _ _ (get_st ≫= _) => apply preserves_get; intros ? ?
  | |- preserves _ _ (try_bind _ _) => apply preserves_try_bind; [|intros ?]
  | |- preserves _ _ (_ ≫= _) => eapply (preserves_bind _ client_ok); [|intros ?]
  | |- preserves _ _ (match ?x with _ => _ end) => destruct x
  end.
Ltac ok_auto := repeat (ok_step; cbv beta zeta); auto with blocking.

Lemma send_packet_ok packet : keeps_ok (blocking_send_packet packet).
Proof.
  unfold blocking_send_packet, socket_write. apply preserves_get. intros self _.
  destruct (cx_mqtt_stream _); [|apply preserves_ret].
  destruct (MqttPacket_to_bytes packet) eqn:Hb; [ok_auto..|].
  by apply to_bytes_no_panic in Hb.
Qed.
Lemma recv_packet_ok : keeps_ok recv_packet.
Proof.
  intros self Hs. unfold recv_packet. apply runs_bind, runs_get.
  destruct (cx_mqtt_stream _) as [stream|] eqn:Hstream; [|done].
  apply runs_bind. eapply runs_mono; [by apply runs_stream_next|].
  intros [[p|[]|]|] self' [Hs' (? & _ & Hf)]; done.
Qed.
Lemma find_packet_ok fuel f self :
  client_ok self →
  (∀ stream, cx_mqtt_stream (mc_context self) = Some stream → (script_left stream < fuel)%nat) →
  (0 < fuel)%nat → runs (find_packet fuel f) self (λ _ self', client_ok self').
Proof.
  revert self. induction fuel as [|fuel IH]; intros self Hs Hf H0; [lia|]. cbn [find_packet].
  apply runs_bind, runs_get. destruct (cx_mqtt_stream _) as [stream|] eqn:Hstream; [|done].
  specialize (Hf stream eq_refl). apply runs_bind. eapply runs_mono; [by apply runs_stream_next|].
  intros [[p|e|]|] self' [Hs' (stream' & Hst & Hleft)]; try done.
  destruct (f p); [done|]. apply runs_bind, runs_modify. apply IH; [|intros s Hst'|lia].
  - by destruct Hs'.
  - change (cx_mqtt_stream (mc_context self') = Some s) in Hst'. rewrite Hst in Hst'. injection Hst' as <-. lia.
Qed.
Lemma recv_for_packet_ok f : keeps_ok (recv_for_packet f).
Proof.
  intros self Hs. unfold recv_for_packet. apply runs_bind, runs_get.
  destruct (cx_mqtt_stream _) as [stream|] eqn:Hstream; [|done].
  apply find_packet_ok; [done|intros s Hst|lia]. rewrite Hstream in Hst. injection Hst as <-.
  unfold script_left, stream_bytes, unread. fold (script_bytes (ms_stream stream)). rewrite length_drop. lia.
Qed.
#[export] Hint Resolve send_packet_ok recv_packet_ok recv_for_packet_ok : blocking.

Lemma next_id_ok : keeps_ok next_id.
Proof. unfold next_id. ok_auto. Qed.
#[export] Hint Resolve next_id_ok : blocking.
Lemma accept_connack_ok code present ps : keeps_ok (accept_connack code present ps).
Proof. unfold accept_connack, clear_pending_operations. ok_auto. Qed.
Lemma initialize_session_ok : keeps_ok initialize_session.
Proof. unfold initialize_session. ok_auto. Qed.
Lemma save_stream_ok script version :
  Forall read_ok (tcp_reads script) → version ≠ 0 → keeps_ok (save_stream script version).
Proof.
  intros Hr Hv. unfold save_stream. ok_auto. apply preserves_modify. intros self [_ Hd].
  split; [|done]. intros stream [= <-]. split; [|done]. by apply new_parser_at.
Qed.
#[export] Hint Resolve accept_connack_ok initialize_session_ok save_stream_ok : blocking.
Lemma is_v3_nonzero self : is_v3 self = true → mo_mqtt_version (mc_options self) ≠ 0.
Proof. unfold is_v3. intros [H%Z.eqb_eq|H%Z.eqb_eq]%orb_true_iff; rewrite H; done. Qed.
Lemma dialled {A} (k : option TcpScript → St MqttClient A) :
  (∀ dial, dial_ok dial → keeps_ok (k dial)) → keeps_ok (tcp_connect ≫= k).
Proof.
  intros Hk self [Hs Hd]. apply runs_bind. unfold tcp_connect. apply runs_bind, runs_get, runs_bind, runs_modify, runs_ret.
  apply Hk.
  - destruct (mc_dials self) as [|dial dials]; [done|]. by apply Forall_cons_1 in Hd as [? _].
  - split; [done|]. change (Forall dial_ok (tail (mc_dials self))). destruct Hd; [constructor|done].
Qed.
Lemma connected_ok : keeps_ok blocking_connected.
Proof.
  unfold blocking_connected. apply dialled. intros [script|] Hd; [|apply preserves_ret].
  eapply (preserves_bind _ client_ok); [auto with blocking|intros []]. apply preserves_get. intros self _.
  destruct (is_v3 self) eqn:Hv; ok_auto. apply save_stream_ok; [done|by apply is_v3_nonzero].
Qed.
Lemma connect_send_ok : keeps_ok connect_send.
Proof.
  unfold connect_send. apply dialled. intros [script|] Hd; [|apply preserves_ret]. ok_auto.
Qed.

Lemma subscribed_ok topic qos : keeps_ok (subscribed topic qos).
Proof. unfold subscribed. ok_auto. Qed.
Lemma unsubscribed_ok topics : keeps_ok (unsubscribed topics).
Proof. unfold unsubscribed. ok_auto. Qed.
Lemma pingd_ok : keeps_ok pingd.
Proof. unfold pingd. ok_auto. Qed.
Lemma puback_ok id : keeps_ok (receive_for_puback (Some id)).
Proof. unfold receive_for_puback. ok_auto. Qed.
Lemma qos2_ok id : keeps_ok (handle_qos2 (Some id)).
Proof. unfold handle_qos2. ok_auto. Qed.

(** The identifier is there when an acknowledgement is waited for. *)
Lemma next_publish_id_ok qos self :
  client_ok self →
  runs (next_publish_id qos) self (λ r self', client_ok self' ∧
    match r with inr None => (qos <=? 0) = true | _ => True end).
Proof.
  intros Hs. unfold next_publish_id. apply runs_bind, runs_get. destruct (cx_session _) as [session|]; [|done].
  destruct (0 <? qos) eqn:Hq.
  - apply runs_try_bind. eapply runs_mono; [by apply next_id_ok|]. by intros [e|id] s Hs'.
  - split; [done|]. apply Z.ltb_ge in Hq. by apply Z.leb_le.
Qed.
Lemma published_ok topic payload qos retain : keeps_ok (published topic payload qos retain).
Proof.
  intros self Hs. unfold published. apply runs_try_bind. eapply runs_mono; [by apply next_publish_id_ok|].
  intros [e|id] s [Hs' Hid]; [done|]. apply runs_bind, runs_get, runs_try_bind.
  eapply runs_mono; [by apply send_packet_ok|]. intros [e|[]] s2 Hs2; [done|].
  destruct qos as [|[q|[q|q|]|]|q]; try exact Hs2;
    (destruct id as [id|]; [|done]); [by apply qos2_ok|by apply puback_ok].
Qed.
Lemma publish_send_ok topic payload qos retain : keeps_ok (publish_send topic payload qos retain).
Proof.
  unfold publish_send. apply preserves_try_bind; [|intros id; ok_auto].
  intros self Hs. eapply runs_mono; [by apply next_publish_id_ok|]. by intros r s [? _].
Qed.
#[export] Hint Resolve subscribed_ok unsubscribed_ok pingd_ok published_ok publish_send_ok connected_ok
  connect_send_ok : blocking.
Lemma run_blocking_call_ok call : keeps_ok (run_blocking_call call).
Proof.
  destruct call; cbn [run_blocking_call]; unfold disconnected, set_read_timeout, subscribe_send,
    unsubscribe_send, ping_send, disconnect_send, pop_unhandled_packet, clear_unhandled_packets,
    complete_subscribe, complete_unsubscribe, blocking_complete_publish, clear_pending_operations; ok_auto.
Qed.
Lemma run_blocking_ok calls : keeps_ok (run_blocking calls).
Proof.
  induction calls as [|call calls IH]; cbn [run_blocking]; ok_auto. apply run_blocking_call_ok.
Qed.

(** C10: no call on the blocking client panics, whatever calls a program makes, in any order and
    with any arguments, and whatever its connections deliver, refuse or cut short.  A connection
    is the finite sequence of its reads (data cut anywhere, or an error), after which it is
    closed; every call returns, with a value or an error, by the end of that sequence.  A peer
    that stays silent without closing is outside the statement: the read blocks.  So is one
    that sends other packets for ever: [recv_for_packet] reads on as long as they come. *)
Theorem blocking_never_panics options session dials calls :
  Forall dial_ok dials →
  ∃ self, run_blocking calls
    (match session with
     | Some session => MqttClient_new_with_sess options session dials
     | None => MqttClient_new options dials
     end) = Ok ((), self) ∧ client_ok self.
Proof.
  intros Hd. assert (Hrun : runs (run_blocking calls)
    (match session with
     | Some session => MqttClient_new_with_sess options session dials
     | None => MqttClient_new options dials
     end) (λ _ self, client_ok self)) by (apply run_blocking_ok; by destruct session).
  apply runs_Ok in Hrun as ([] & self & Hrun & Hs). eauto.
Qed.

(** ** Exchanges with a peer that follows the protocol *)

(** The peer's bytes from here on are [s]; how they are cut into reads is open. *)
Definition stream_at (version : Z) (s : bytes) (self : MqttClient) : Prop :=
  ∃ parser chunks,
    cx_mqtt_stream (mc_context self) = Some {| ms_parser := parser; ms_stream := Ok <$> chunks |} ∧
    parser_inv parser ∧ mp_mqtt_version parser = version ∧ Forall chunk_ok chunks ∧
    unread parser ++ concat chunks = s.
(** A receive that kept the packets [ps]. *)
Definition received (ps : list MqttPacket) (self self' : MqttClient) : Prop :=
  mc_options self' = mc_options self ∧ mc_writes self' = mc_writes self ∧ mc_sent self' = mc_sent self ∧
  cx_session (mc_context self') = cx_session (mc_context self) ∧
  cx_unhandled_packets (mc_context self') = cx_unhandled_packets (mc_context self) ++ ps.

Lemma script_bytes_chunks (chunks : list bytes) : script_bytes (Ok <$> chunks) = length (concat chunks).
Proof.
  unfold script_bytes. induction chunks as [|c chunks IH]; [done|]. cbn [concat].
  rewrite length_app, <- IH. done.
Qed.
Lemma stream_next_at version p bs rest self stream :
  encodes version p bs → stream_at version (bs ++ rest) self →
  cx_mqtt_stream (mc_context self) = Some stream →
  runs (stream_next stream) self (λ item self', item = Some (Ok (wire_form p)) ∧
    stream_at version rest self' ∧ received [] self self').
Proof.
  intros Hp (parser & chunks & Hstream & Hi & Hv & Hch & Hs) Hst. rewrite Hstream in Hst. injection Hst as <-.
  pose proof (next_loop_spec chunks parser Hi Hch) as Hn.
  rewrite Hs, Hv, (stream_step_encoded version p bs rest Hp) in Hn.
  destruct Hn as (parser' & chunks' & Hn & Hi' & Hv' & Hch' & Hr).
  unfold runs, stream_next, MqttStream_next. cbn [ms_parser ms_stream]. rewrite Hn.
  split; [done|]. split; [|by split_and!; rewrite ?app_nil_r].
  exists parser', chunks'. by split_and!.
Qed.

Lemma find_packet_at version f ps bss p bs rest fuel self :
  Forall2 (encodes version) ps bss → Forall (λ q, f (wire_form q) = false) ps →
  encodes version p bs → f (wire_form p) = true → (length ps < fuel)%nat →
  stream_at version (concat bss ++ bs ++ rest) self →
  runs (find_packet fuel f) self (λ r self', r = inr (Some (wire_form p)) ∧
    stream_at version rest self' ∧ received (wire_form <$> ps) self self').
Proof.
  intros Hps. revert fuel self. induction Hps as [|q b ps bss Hq _ IH]; intros [|fuel] self Hf Hp Hfp Hl Hs;
    simpl in Hl; try lia; cbn [find_packet]; apply runs_bind, runs_get;
    pose proof Hs as (parser & chunks & Hstream & _); rewrite Hstream; apply runs_bind.
  - eapply runs_mono; [eapply (stream_next_at version p bs rest); done|].
    intros item s (-> & Hs' & Hr). rewrite Hfp. by split_and!.
  - apply Forall_cons_1 in Hf as [Hfq Hf]. cbn [concat] in Hs. rewrite <- app_assoc in Hs.
    eapply runs_mono; [eapply (stream_next_at version q b); done|].
    intros item s (-> & Hs' & (Ho & Hw & Hsent & Hsess & Hun)). rewrite Hfq. apply runs_bind, runs_modify.
    eapply runs_mono; [apply (IH fuel); [done|done|done|lia|exact Hs']|].
    intros r s2 (-> & Hs2 & (Ho2 & Hw2 & Hsent2 & Hsess2 & Hun2)). split; [done|]. split; [done|].
    split_and!; [exact (eq_trans Ho2 Ho)|exact (eq_trans Hw2 Hw)|exact (eq_trans Hsent2 Hsent)
      |exact (eq_trans Hsess2 Hsess)|]. rewrite Hun2. cbn. rewrite Hun, app_nil_r, <- app_assoc. done.
Qed.

Lemma recv_for_packet_at version f ps bss p bs rest self :
  Forall2 (encodes version) ps bss → Forall (λ q, f (wire_form q) = false) ps →
  encodes version p bs → f (wire_form p) = true → stream_at version (concat bss ++ bs ++ rest) self →
  runs (recv_for_packet f) self (λ r self', r = inr (Some (wire_form p)) ∧
    stream_at version rest self' ∧ received (wire_form <$> ps) self self').
Proof.
  intros Hps Hf Hp Hfp Hs. unfold recv_for_packet. apply runs_bind, runs_get.
  pose proof Hs as (parser & chunks & Hstream & Hi & _ & Hch & Hbytes). rewrite Hstream.
  eapply find_packet_at; try done. apply encodes_length in Hps as Hlen. apply Forall2_length in Hps as Hl2.
  assert (length (unread parser ++ concat chunks) <= stream_bytes {| ms_parser := parser; ms_stream := Ok <$> chunks |})%nat.
  { unfold stream_bytes, unread. cbn [ms_parser ms_stream]. fold (script_bytes (Ok <$> chunks)).
    rewrite script_bytes_chunks, length_app, length_drop. lia. }
  rewrite Hbytes, !length_app in H. lia.
Qed.

Lemma find_packet_none version f ps bss fuel self :
  Forall2 (encodes version) ps bss → Forall (λ q, f (wire_form q) = false) ps →
  (length ps < fuel)%nat → stream_at version (concat bss) self →
  runs (find_packet fuel f) self (λ r self', r = inr None ∧
    cx_unhandled_packets (mc_context self')
      = cx_unhandled_packets (mc_context self) ++ (wire_form <$> ps) ∧
    ms_stream <$> cx_mqtt_stream (mc_context self') = Some []).
Proof.
  intros Hps. revert fuel self. induction Hps as [|q b ps bss Hq _ IH]; intros [|fuel] self Hf Hl Hs;
    simpl in Hl; try lia; cbn [find_packet]; apply runs_bind, runs_get;
    pose proof Hs as (parser & chunks & Hstream & Hi & Hv & Hch & Hbytes); rewrite Hstream; apply runs_bind.
  - pose proof (next_loop_spec chunks parser Hi Hch) as Hn. rewrite Hbytes in Hn.
    destruct Hn as (parser' & Hn & _). unfold runs, stream_next, MqttStream_next. cbn [ms_parser ms_stream].
    rewrite Hn. split; [done|]. split; [by rewrite app_nil_r|done].
  - apply Forall_cons_1 in Hf as [Hfq Hf]. cbn [concat] in Hs.
    eapply runs_mono; [eapply (stream_next_at version q b); done|].
    intros item s (-> & Hs' & (_ & _ & _ & _ & Hun)). rewrite Hfq. apply runs_bind, runs_modify.
    eapply runs_mono; [apply (IH fuel); [done|lia|exact Hs']|].
    intros r s2 (-> & Hun2 & He). split; [done|]. split; [|done].
    rewrite Hun2. cbn. rewrite Hun, app_nil_r, <- app_assoc. done.
Qed.

(** A waiting call has no bound of its own.  However many packets a peer sends, if the call does
    not wait for any of them it reads every one, keeps them all, and returns only at the end of
    the connection. *)
Theorem blocking_reads_on version f ps bss self :
  Forall2 (encodes version) ps bss → Forall (λ q, f (wire_form q) = false) ps →
  stream_at version (concat bss) self →
  runs (recv_for_packet f) self (λ r self', r = inr None ∧
    cx_unhandled_packets (mc_context self')
      = cx_unhandled_packets (mc_context self) ++ (wire_form <$> ps) ∧
    ms_stream <$> cx_mqtt_stream (mc_context self') = Some []).
Proof.
  intros Hps Hf Hs. unfold recv_for_packet. apply runs_bind, runs_get.
  pose proof Hs as (parser & chunks & Hstream & Hi & _ & Hch & Hbytes). rewrite Hstream.
  eapply find_packet_none; try done. apply encodes_length in Hps as Hlen. apply Forall2_length in Hps as Hl2.
  assert (length (unread parser ++ concat chunks) <= stream_bytes {| ms_parser := parser; ms_stream := Ok <$> chunks |})%nat.
  { unfold stream_bytes, unread. cbn [ms_parser ms_stream]. fold (script_bytes (Ok <$> chunks)).
    rewrite script_bytes_chunks, length_app, length_drop. lia. }
  rewrite Hbytes in H. lia.
Qed.

(** The packets of a QoS 2 exchange in the version of the client. *)
Definition qos2_pubrec (v3 : bool) (id reason : Z) (properties : list Property) : MqttPacket :=
  if v3 then PubRec3 {| a3_message_id := id |} else PubRec5 (PacketIdAck5_new id reason properties).
Definition qos2_pubrel (v3 : bool) (id : Z) : MqttPacket :=
  if v3 then PubRel3 {| a3_message_id := id |} else PubRel5 (PacketIdAck5_new id 0 []).
Definition qos2_pubcomp (v3 : bool) (id reason : Z) (properties : list Property) : MqttPacket :=
  if v3 then PubComp3 {| a3_message_id := id |} else PubComp5 (PacketIdAck5_new id reason properties).
Definition is_pubrec_of (v3 : bool) (id : Z) (p : MqttPacket) : bool :=
  match p with
  | PubRec3 a => v3 && (a3_message_id a =? id)
  | PubRec5 a => negb v3 && (a5_packet_id a =? id)
  | _ => false
  end.
Definition is_pubcomp_of (v3 : bool) (id : Z) (p : MqttPacket) : bool :=
  match p with
  | PubComp3 a => v3 && (a3_message_id a =? id)
  | PubComp5 a => negb v3 && (a5_packet_id a =? id)
  | _ => false
  end.

(** A peer that answers the publication [id] with a PUBREC and a PUBCOMP, and sends the packets
    [before] and [between] around them; [rest] is what follows. *)
Record qos2_peer (v3 : bool) (version id : Z) (before between : list MqttPacket) (code : Z)
    (properties : list Property) (s rest : bytes) : Prop := {
  qp_bytes : ∃ bss1 pubrec bss2 pubcomp reason ps,
    Forall2 (encodes version) before bss1 ∧ Forall2 (encodes version) between bss2 ∧
    encodes version (qos2_pubrec v3 id reason ps) pubrec ∧
    encodes version (qos2_pubcomp v3 id code properties) pubcomp ∧
    s = concat bss1 ++ pubrec ++ concat bss2 ++ pubcomp ++ rest;
  qp_before : Forall (λ p, is_pubrec_of v3 id p = false) before;
  qp_between : Forall (λ p, is_pubcomp_of v3 id p = false) between;
}.

Lemma runs_send self packet b :
  is_Some (cx_mqtt_stream (mc_context self)) → mc_writes self = [] → MqttPacket_to_bytes packet = Ok b →
  runs (blocking_send_packet packet) self (λ r self', r = inr () ∧
    mc_context self' = mc_context self ∧ mc_options self' = mc_options self ∧ mc_writes self' = [] ∧
    mc_sent self' = mc_sent self ++ b).
Proof.
  intros [stream Hs] Hw Hb. unfold blocking_send_packet. apply runs_bind, runs_get. rewrite Hs, Hb.
  unfold socket_write. apply runs_bind, runs_get, runs_bind, runs_modify. rewrite Hw.
  apply runs_bind, runs_modify, runs_ret. cbn. by rewrite Hw.
Qed.
Lemma wire_form_pubrec v3 id p : is_pubrec_of v3 id (wire_form p) = is_pubrec_of v3 id p.
Proof. by destruct p. Qed.
Lemma wire_form_pubcomp v3 id p : is_pubcomp_of v3 id (wire_form p) = is_pubcomp_of v3 id p.
Proof. by destruct p. Qed.

(** What the client reports: MQTT 3.1.1 has no reason code. *)
Definition qos2_result (v3 : bool) (id code : Z) (properties : list Property) : PublishResult :=
  if v3 then blocking_result id 0 None 2 else blocking_result id code (Some properties) 2.
(** A send and a receive. *)
Definition exchanged (b : bytes) (ps : list MqttPacket) (self self' : MqttClient) : Prop :=
  mc_options self' = mc_options self ∧ mc_writes self' = [] ∧ mc_sent self' = mc_sent self ++ b ∧
  cx_session (mc_context self') = cx_session (mc_context self) ∧
  cx_unhandled_packets (mc_context self') = cx_unhandled_packets (mc_context self) ++ ps.
Lemma received_exchanged ps self self' :
  mc_writes self = [] → received ps self self' → exchanged [] ps self self'.
Proof. intros Hw (Ho & Hw' & Hs & Hse & Hu). split_and!; [done|congruence|by rewrite app_nil_r|done..]. Qed.
Lemma exchanged_trans b1 ps1 b2 ps2 s1 s2 s3 :
  exchanged b1 ps1 s1 s2 → exchanged b2 ps2 s2 s3 → exchanged (b1 ++ b2) (ps1 ++ ps2) s1 s3.
Proof.
  intros (Ho1 & _ & Hs1 & Hc1 & Hu1) (Ho2 & Hw2 & Hs2 & Hc2 & Hu2).
  split_and!; [congruence|done|by rewrite Hs2, Hs1, app_assoc|congruence|by rewrite Hu2, Hu1, app_assoc].
Qed.
Lemma runs_send_at version s self packet b :
  stream_at version s self → mc_writes self = [] → MqttPacket_to_bytes packet = Ok b →
  runs (blocking_send_packet packet) self (λ r self', r = inr () ∧ stream_at version s self' ∧
    exchanged b [] self self').
Proof.
  intros Hs Hw Hb. assert (is_Some (cx_mqtt_stream (mc_context self))) as Hsome.
  { destruct Hs as (parser & chunks & -> & _). eauto. }
  eapply runs_mono; [by apply (runs_send self packet b)|]. intros r s' (-> & Hc & Ho & Hw' & Hsent).
  split; [done|]. unfold stream_at, exchanged. rewrite Hc, app_nil_r. by split_and!.
Qed.
Lemma runs_recv_at version f ps bss p bs rest self :
  Forall2 (encodes version) ps bss → Forall (λ q, f (wire_form q) = false) ps → mc_writes self = [] →
  encodes version p bs → f (wire_form p) = true → stream_at version (concat bss ++ bs ++ rest) self →
  runs (recv_for_packet f) self (λ r self', r = inr (Some (wire_form p)) ∧
    stream_at version rest self' ∧ exchanged [] (wire_form <$> ps) self self').
Proof.
  intros Hps Hf Hw Hp Hfp Hs. eapply runs_mono; [by eapply (recv_for_packet_at version f ps bss p bs rest)|].
  intros r s' (-> & Hs' & Hr). split_and!; [done..|]. by apply received_exchanged.
Qed.

Lemma handle_qos2_at self version id before between code properties s rest rel :
  stream_at version s self → mc_writes self = [] →
  qos2_peer (is_v3 self) version id before between code properties s rest →
  MqttPacket_to_bytes (qos2_pubrel (is_v3 self) id) = Ok rel →
  runs (handle_qos2 (Some id)) self (λ r self', r = inr (qos2_result (is_v3 self) id code properties) ∧
    stream_at version rest self' ∧ exchanged rel (wire_form <$> (before ++ between)) self self').
Proof.
  intros Hs Hw [(bss1 & pubrec & bss2 & pubcomp & reason & ps & Hb1 & Hb2 & Hrec & Hcomp & ->) Hn1 Hn2] Hrel.
  unfold handle_qos2. apply runs_bind, runs_get. cbv zeta.
  unfold qos2_pubrec, qos2_pubrel, qos2_pubcomp, qos2_result in *.
  destruct (is_v3 self); apply runs_try_bind;
    (eapply runs_mono;
       [eapply (runs_recv_at version); [exact Hb1| |done|exact Hrec| |exact Hs];
          [eapply Forall_impl; [exact Hn1|]; intros p Hp; cbv beta in Hp |- *; rewrite <- wire_form_pubrec in Hp; by destruct (wire_form p)
          |cbn; apply Z.eqb_refl]
       |]; intros r s1 (-> & Hs1 & He1); apply runs_try_bind;
     eapply runs_mono; [apply (runs_send_at version); [exact Hs1|apply He1|exact Hrel]|];
     intros r s2 (-> & Hs2 & He2); apply runs_try_bind;
     eapply runs_mono;
       [eapply (runs_recv_at version); [exact Hb2| |apply He2|exact Hcomp| |exact Hs2];
          [eapply Forall_impl; [exact Hn2|]; intros p Hp; cbv beta in Hp |- *; rewrite <- wire_form_pubcomp in Hp; by destruct (wire_form p)
          |cbn; apply Z.eqb_refl]
       |]; intros r s3 (-> & Hs3 & He3); apply runs_ret; split; [done|]; split; [done|];
     rewrite fmap_app; pose proof (exchanged_trans _ _ _ _ _ _ _ He1 (exchanged_trans _ _ _ _ _ _ _ He2 He3)) as He;
     by rewrite app_nil_r in He).
Qed.

(** The PUBLISH of the client's version. *)
Definition blocking_publish (v3 : bool) (topic payload : bytes) (qos : Z) (retain : bool) (id : option Z) : MqttPacket :=
  if v3 then blocking_publish3 topic payload qos retain id else blocking_publish5 topic payload qos retain id.

(** C11: the QoS 2 exchange.  Against a peer that answers with a PUBREC and a PUBCOMP for the
    identifier, however its bytes are cut into reads and whatever other packets it sends before
    and between, [published] sends the PUBLISH and then the PUBREL, returns what the PUBCOMP says,
    leaves exactly those other packets in the order of arrival for the application, and reads
    nothing that follows. *)
Theorem blocking_qos2_exchange self version session topic payload retain before between code properties
    s rest pub rel id :
  stream_at version s self → mc_writes self = [] → cx_session (mc_context self) = Some session →
  id = (ClientSession_next_packet_id session).1 →
  qos2_peer (is_v3 self) version id before between code properties s rest →
  MqttPacket_to_bytes (blocking_publish (is_v3 self) topic payload 2 retain (Some id)) = Ok pub →
  MqttPacket_to_bytes (qos2_pubrel (is_v3 self) id) = Ok rel →
  ∃ self', published topic payload 2 retain self
             = Ok (inr (qos2_result (is_v3 self) id code properties), self') ∧
    mc_sent self' = mc_sent self ++ pub ++ rel ∧
    cx_unhandled_packets (mc_context self')
      = cx_unhandled_packets (mc_context self) ++ (wire_form <$> (before ++ between)) ∧
    stream_at version rest self'.
Proof.
  intros Hs Hw Hsess Hid Hpeer Hpub Hrel.
  assert (Hrun : runs (published topic payload 2 retain) self (λ r self',
    r = inr (qos2_result (is_v3 self) id code properties) ∧ mc_sent self' = mc_sent self ++ pub ++ rel ∧
    cx_unhandled_packets (mc_context self')
      = cx_unhandled_packets (mc_context self) ++ (wire_form <$> (before ++ between)) ∧ stream_at version rest self')).
  { unfold published, next_publish_id, next_id. apply runs_try_bind, runs_bind, runs_get. rewrite Hsess. cbn [Z.ltb].
    apply runs_try_bind, runs_bind, runs_get. rewrite Hsess.
    destruct (ClientSession_next_packet_id session) as [i session'] eqn:Hn. cbn in Hid. subst i.
    apply runs_bind, runs_modify, runs_ret, runs_ret, runs_bind, runs_get.
    set (s1 := self <| mc_context ::= λ c, c <| cx_session := Some session' |> |>).
    change (is_v3 s1) with (is_v3 self). apply runs_try_bind. eapply runs_mono.
    { apply (runs_send_at version s s1 (blocking_publish (is_v3 self) topic payload 2 retain (Some id)) pub); done. }
    intros r s2 (-> & Hs2 & He2). assert (Hv : is_v3 s2 = is_v3 self).
    { unfold is_v3. destruct He2 as (Ho & _). by rewrite Ho. }
    rewrite <- Hv in Hpeer, Hrel |- *. eapply runs_mono.
    { by apply (handle_qos2_at s2 version id before between code properties s rest rel); [|apply He2|..]. }
    intros r s3 (-> & Hs3 & He3). destruct (exchanged_trans _ _ _ _ _ _ _ He2 He3) as (_ & _ & Hsent & _ & Hun).
    done. }
  apply runs_Ok in Hrun as (r & self' & Hrun & -> & Hsent & Hun & Hs'). eauto.
Qed.

(** ** Runs *)
Definition sample_dial (reads : list (res bytes)) (writes : list (option nat)) : option TcpScript :=
  Some {| tcp_reads := reads; tcp_writes := writes |}.
Definition sample_connack : bytes := [32; 3; 0; 0; 0].
(** PUBREC and PUBCOMP of the identifier 1, a PINGRESP before, cut inside the PUBREC. *)
Definition sample_reads : list (res bytes) :=
  [Ok sample_connack; Ok [208; 0; 80; 2]; Ok [0; 1; 112; 2; 0; 1; 208; 0]].

Definition client_v3 : MqttClientOptions := MqttClientOptions_default <| mo_mqtt_version := 4 |>.
Definition sample_blocking_calls : list BlockingCall :=
  [BcPingd; BcConnected; BcPublished (str "a") [7] 2 false; BcRecvPacket; BcPopUnhandled; BcRecvPacket;
   BcSubscribed (str "t/#") 3; BcUnsubscribed []; BcConnected; BcPublished (str "a") [7] 1 true; BcDisconnected 0].

Lemma blocking_never_panics_witness :
  ∃ self, run_blocking sample_blocking_calls
    (MqttClient_new MqttClientOptions_default
       [sample_dial sample_reads []; sample_dial [Ok sample_connack; Err IoError; Ok [255]] [None]]) = Ok ((), self) ∧
    client_ok self.
Proof.
  apply (blocking_never_panics MqttClientOptions_default None). repeat constructor;
    cbn; try (unfold is_u8; lia).
Defined.

Definition after_connected (options : MqttClientOptions) (dial : option TcpScript) : MqttClient :=
  match blocking_connected (MqttClient_new options [dial]) with
  | Ok (_, self) => self
  | _ => MqttClient_new options []
  end.
Definition sample_blocking : MqttClient := after_connected MqttClientOptions_default (sample_dial sample_reads []).

Ltac encodes_lit := unfold encodes; split_and!;
  [cbn; try done; repeat split; unfold is_u16, is_u8; first [lia|constructor]|exact I|reflexivity
  |vm_compute; reflexivity|vm_compute; discriminate].

Lemma blocking_qos2_exchange_witness :
  ∃ self', published (str "a") [7] 2 false sample_blocking
      = Ok (inr {| pr_packet_id := Some 1; pr_reason_code := Some 0; pr_properties := Some []; pr_qos := 2 |}, self') ∧
    mc_sent self' = mc_sent sample_blocking ++ [52; 7; 0; 1; 97; 0; 1; 0; 7] ++ [98; 2; 0; 1] ∧
    cx_unhandled_packets (mc_context self') = [PingResp5] ∧ stream_at 5 [208; 0] self'.
Proof.
  apply (blocking_qos2_exchange sample_blocking 5 ClientSession_new (str "a") [7] false [PingResp5] [] 0 []
    [208; 0; 80; 2; 0; 1; 112; 2; 0; 1; 208; 0] [208; 0] [52; 7; 0; 1; 97; 0; 1; 0; 7] [98; 2; 0; 1] 1).
  - eexists _, [[208; 0; 80; 2]; [0; 1; 112; 2; 0; 1; 208; 0]]. split; [vm_compute; reflexivity|].
    split; [by apply (new_parser_at 16384 5)|]. split; [reflexivity|]. split; [|reflexivity].
    repeat constructor; cbn; try discriminate; try (unfold is_u8; lia).
  - reflexivity.
  - reflexivity.
  - reflexivity.
  - split; [|repeat constructor..].
    exists [[208; 0]], [80; 2; 0; 1], [], [112; 2; 0; 1], 0, [].
    split; [constructor; [encodes_lit|constructor]|]. split; [constructor|]. split; [encodes_lit|].
    split; [encodes_lit|reflexivity].
  - vm_compute. reflexivity.
  - vm_compute. reflexivity.
Defined.

(** What a call returns and what it sends. *)
Definition call_outcome {A} (m : St MqttClient (BlockingError + A)) (self : MqttClient) : option ((BlockingError + A) * bytes) :=
  match m self with
  | Ok (r, self') => Some (r, drop (length (mc_sent self)) (mc_sent self'))
  | _ => None
  end.
Definition after_connect_send (options : MqttClientOptions) : MqttClient :=
  match connect_send (MqttClient_new options [sample_dial [] []]) with
  | Ok (_, self) => self
  | _ => MqttClient_new options []
  end.

(** Where the blocking client does not do what it means to.  A short write loses the rest of a
    packet and is reported as success; a PUBREC that refuses the message, and the end of the
    stream instead of a PUBREC, are answered with a PUBREL as if it were a success; the methods
    that do not wait speak MQTT 5 on a connection configured for MQTT 3.1.1, whose server reads a
    byte too many as the payload; a failed TCP connection is reported as a missing CONNACK; and a
    read error, such as a timeout, while waiting for an answer is reported as invalid data. *)
Theorem blocking_defects :
  call_outcome (published (str "a") [7] 0 false)
    (after_connected MqttClientOptions_default (sample_dial [Ok sample_connack] [Some 100%nat; Some 1%nat]))
  = Some (inr {| pr_packet_id := None; pr_reason_code := None; pr_properties := None; pr_qos := 0 |}, [48]) ∧
  call_outcome (published (str "a") [7] 2 false)
    (after_connected MqttClientOptions_default
       (sample_dial [Ok sample_connack; Ok [80; 3; 0; 1; 135]; Ok [112; 3; 0; 1; 146]] []))
  = Some (inr (blocking_result 1 146 (Some []) 2), [52; 7; 0; 1; 97; 0; 1; 0; 7] ++ [98; 2; 0; 1]) ∧
  call_outcome (published (str "a") [7] 2 false)
    (after_connected MqttClientOptions_default (sample_dial [Ok sample_connack] []))
  = Some (inl (BeEof "No PUBCOMP received from broker"), [52; 7; 0; 1; 97; 0; 1; 0; 7] ++ [98; 2; 0; 1]) ∧
  call_outcome (publish_send (str "a") [7] 0 false) (after_connect_send client_v3)
  = Some (inr None, [48; 5; 0; 1; 97; 0; 7]) ∧
  MqttPacket_from_bytes_with_version [48; 5; 0; 1; 97; 0; 7] 4
  = Ok (Packet (Publish3 {| p3_dup := false; p3_qos := 0; p3_retain := false; p3_topic_name := str "a";
                            p3_message_id := None; p3_payload := [0; 7] |}) 7) ∧
  call_outcome blocking_connected (MqttClient_new MqttClientOptions_default [None])
  = Some (inl (BeEof "No CONNACK received from broker"), []) ∧
  call_outcome pingd (after_connected MqttClientOptions_default (sample_dial [Ok sample_connack; Err IoError] []))
  = Some (inl (BeReceive IoError), [192; 0]).
Proof. vm_compute. by split_and!. Qed.
