(* ===== verification/ThreadedClient.v ===== *)
(** * The threaded client

    Models [src/mqtt_client/async_client.rs]: the worker thread of [AsyncMqttClient], which drives
    the blocking client of [BlockingClient] with its methods that do not wait, and reports to an
    event handler.

    What arrives at the thread is a list of [WorkerInput]s, what [recv_timeout] returns in each
    round.  The calls of the event handler are recorded in [cw_events], the delays in [cw_slept].
    [cw_timeouts] says of each further read error whether its kind is a timeout, and
    [resubscribe_order] is the order in which a hash map is read. *)
From S2P Require Import Prelude BaseData TopicFilter Validation Properties Packets Framing.
From S2P Require Import AckCodec ControlCodec PublishCodec SubscribeCodec ConnectCodec Codec.
From S2P Require Import Stream Options ClientTypes ClientSession EncodeFacts BlockingClient BlockingFacts.

Inductive ThreadedCommand : Type :=
  | ThConnect
  | ThSubscribe (topic : bytes) (qos : Z)
  | ThPublish (topic payload : bytes) (qos : Z) (retain : bool)
  | ThUnsubscribe (topics : list bytes)
  | ThPing
  | ThDisconnect
  | ThShutdown
  | ThSetAutoReconnect (enabled : bool).

Record AsyncClientConfig : Type := {
  ac_auto_reconnect : bool;
  ac_reconnect_delay_ms : Z;
  ac_max_reconnect_delay_ms : Z;
  ac_max_reconnect_attempts : Z;
  ac_command_queue_size : Z;
  ac_buffer_messages : bool;
  ac_max_buffer_size : Z;
}.
Definition AsyncClientConfig_default : AsyncClientConfig := {|
  ac_auto_reconnect := true; ac_reconnect_delay_ms := 1000; ac_max_reconnect_delay_ms := 30000;
  ac_max_reconnect_attempts := 0; ac_command_queue_size := 100; ac_buffer_messages := true;
  ac_max_buffer_size := 1000 |}.

(** The calls of [MqttEventHandler]. *)
Inductive HandlerCall : Type :=
  | OnConnected (result : ConnectionResult)
  | OnDisconnected (reason : option Z)
  | OnPublished (result : PublishResult)
  | OnSubscribed (result : SubscribeResult)
  | OnUnsubscribed (result : UnsubscribeResult)
  | OnMessageReceived (message : MqttPublish5)
  | OnPingResponse (result : PingResult)
  | OnError (error : BlockingError)
  | OnConnectionLost
  | OnReconnectAttempt (attempt : Z).

Record BufferedMessage : Type :=
  { bm_topic : bytes; bm_payload : bytes; bm_qos : Z; bm_retain : bool }.

Record ClientWorker : Type := {
  cw_client : MqttClient;
  cw_config : AsyncClientConfig;
  cw_is_connected : bool;
  cw_is_connecting : bool;
  cw_reconnect_attempts : Z;
  cw_message_buffer : list BufferedMessage;
  cw_pending_subscribes : gmap bytes Z;
  cw_timeouts : list bool;
  cw_events : list HandlerCall;
  cw_slept : list Z;
}.
#[export] Instance Rebuild_ClientWorker : Rebuild ClientWorker := λ w, {|
  cw_client := cw_client w; cw_config := cw_config w; cw_is_connected := cw_is_connected w;
  cw_is_connecting := cw_is_connecting w; cw_reconnect_attempts := cw_reconnect_attempts w;
  cw_message_buffer := cw_message_buffer w; cw_pending_subscribes := cw_pending_subscribes w;
  cw_timeouts := cw_timeouts w; cw_events := cw_events w; cw_slept := cw_slept w |}.

Definition ClientWorker_new (options : MqttClientOptions) (config : AsyncClientConfig)
    (dials : list (option TcpScript)) (timeouts : list bool) : ClientWorker := {|
  cw_client := MqttClient_new options dials; cw_config := config; cw_is_connected := false;
  cw_is_connecting := false; cw_reconnect_attempts := 0; cw_message_buffer := [];
  cw_pending_subscribes := ∅; cw_timeouts := timeouts; cw_events := []; cw_slept := [] |}.

Section worker.
Context (resubscribe_order : gmap bytes Z → list (bytes * Z)).
Implicit Types (self : ClientWorker).
Local Abbreviation M := (St ClientWorker).

Definition on_client {A} (m : St MqttClient A) : M A :=
  zoom cw_client (λ client self, self <| cw_client := client |>) m.
(** [self.event_handler.f(..)] *)
Definition notify (event : HandlerCall) : M () :=
  modify (λ self, self <| cw_events ::= λ l, l ++ [event] |>).

(** ** Reconnecting *)

(** [reconnect_delay_ms * (1 << (attempts - 1))], with overflow checks. *)
Definition backoff_delay (config : AsyncClientConfig) (attempts : Z) : panics Z :=
  if 64 <=? attempts - 1 then Panic else
  let product := ac_reconnect_delay_ms config * Z.shiftl 1 (attempts - 1) in
  if u64_MAX <? product then Panic else
  Ok (Z.min product (ac_max_reconnect_delay_ms config)).

(** [again] is [handle_connect], which the source calls recursively. *)
Definition schedule_reconnect_with (again : M ()) : M () :=
  self ← get_st;
  if (0 <? ac_max_reconnect_attempts (cw_config self))
     && (ac_max_reconnect_attempts (cw_config self) <=? cw_reconnect_attempts self)
  then mret () else
  if u32_MAX <? cw_reconnect_attempts self + 1 then λ _, Panic else
  modify (λ self, self <| cw_reconnect_attempts ::= λ n, n + 1 |>);;
  notify (OnReconnectAttempt (cw_reconnect_attempts self + 1));;
  delay ← lift (backoff_delay (cw_config self) (cw_reconnect_attempts self + 1));
  modify (λ self, self <| cw_slept ::= λ l, l ++ [delay] |>);;
  again.

Fixpoint handle_connect_loop (fuel : nat) : M () :=
  match fuel with
  | O => λ _, Panic
  | S fuel =>
      r ← on_client (_ ←? connect_send; set_read_timeout (Some 100000000));
      match r with
      | inr () => modify (λ self, self <| cw_is_connecting := true |>)
      | inl e =>
          modify (λ self, self <| cw_is_connecting := false |>);;
          notify (OnError e);;
          self ← get_st;
          if ac_auto_reconnect (cw_config self) then schedule_reconnect_with (handle_connect_loop fuel)
          else mret ()
      end
  end.
(** A limited number of attempts bounds the recursion; without a limit it goes on as long as
    connections fail, here until the script of connections is used up. *)
Definition connect_fuel self : nat :=
  (length (mc_dials (cw_client self)) + Z.to_nat (ac_max_reconnect_attempts (cw_config self)) + 2)%nat.
Definition handle_connect : M () := self ← get_st; handle_connect_loop (connect_fuel self).
Definition threaded_schedule_reconnect : M () := schedule_reconnect_with handle_connect.

Definition threaded_connection_lost : M () :=
  self ← get_st;
  if cw_is_connected self || cw_is_connecting self then
    modify (λ self, self <| cw_is_connected := false |> <| cw_is_connecting := false |>);;
    notify OnConnectionLost;;
    if ac_auto_reconnect (cw_config self) then threaded_schedule_reconnect else mret ()
  else mret ().

(** ** Commands *)
Definition threaded_subscribe (topic : bytes) (qos : Z) : M () :=
  r ← on_client (subscribe_send topic qos);
  match r with inr _ => mret () | inl e => notify (OnError e) end;;
  modify (λ self, self <| cw_pending_subscribes ::= <[topic := qos]> |>).

Definition buffer_message (message : BufferedMessage) : M () :=
  self ← get_st;
  if zlen (cw_message_buffer self) <? ac_max_buffer_size (cw_config self)
  then modify (λ self, self <| cw_message_buffer ::= λ l, l ++ [message] |>) else mret ().

Definition threaded_publish (message : BufferedMessage) : M () :=
  r ← on_client (publish_send (bm_topic message) (bm_payload message) (bm_qos message) (bm_retain message));
  match r with
  | inr packet_id =>
      if bm_qos message =? 0 then
        notify (OnPublished {| pr_packet_id := packet_id; pr_reason_code := None; pr_properties := None;
                               pr_qos := bm_qos message |})
      else mret ()
  | inl e =>
      notify (OnError e);;
      self ← get_st;
      if ac_buffer_messages (cw_config self) then buffer_message message else mret ()
  end.

Definition threaded_unsubscribe (topics : list bytes) : M () :=
  r ← on_client (unsubscribe_send topics);
  match r with inr _ => mret () | inl e => notify (OnError e) end;;
  modify (λ self, self <| cw_pending_subscribes ::= λ m, foldr delete m topics |>).

Definition threaded_ping : M () :=
  r ← on_client ping_send;
  match r with
  | inr () => mret ()
  | inl e => notify (OnError e);; threaded_connection_lost
  end.

Definition threaded_disconnect : M () :=
  modify (λ self, self <| cw_is_connecting := false |>);;
  r ← on_client disconnect_send;
  modify (λ self, self <| cw_is_connected := false |>);;
  match r with
  | inr () => notify (OnDisconnected (Some 0))
  | inl e => notify (OnError e);; notify (OnDisconnected None)
  end.

(** [false] asks the thread to end. *)
Definition threaded_command (command : ThreadedCommand) : M bool :=
  match command with
  | ThConnect => handle_connect;; mret true
  | ThSubscribe topic qos => threaded_subscribe topic qos;; mret true
  | ThPublish topic payload qos retain =>
      threaded_publish {| bm_topic := topic; bm_payload := payload; bm_qos := qos; bm_retain := retain |};; mret true
  | ThUnsubscribe topics => threaded_unsubscribe topics;; mret true
  | ThPing => threaded_ping;; mret true
  | ThDisconnect => threaded_disconnect;; mret true
  | ThShutdown => mret false
  | ThSetAutoReconnect _ => mret true
  end.

(** ** Incoming packets *)
Fixpoint threaded_each {A} (l : list A) (f : A → M ()) : M () :=
  match l with [] => mret () | x :: l => f x;; threaded_each l f end.

Definition process_buffered_messages : M () :=
  self ← get_st;
  modify (λ self, self <| cw_message_buffer := [] |>);;
  threaded_each (cw_message_buffer self) threaded_publish.
Definition resubscribe_pending : M () :=
  self ← get_st;
  threaded_each (resubscribe_order (cw_pending_subscribes self)) (λ p, threaded_subscribe p.1 p.2).

Definition threaded_packet (packet : MqttPacket) : M () :=
  match packet with
  | ConnAck5 connack =>
      modify (λ self, self <| cw_is_connecting := false |>
                           <| cw_is_connected := ca5_reason_code connack =? 0 |> <| cw_reconnect_attempts := 0 |>);;
      notify (OnConnected {| cr_reason_code := ca5_reason_code connack;
        cr_session_present := ca5_session_present connack; cr_properties := ca5_properties connack |});;
      if ca5_reason_code connack =? 0 then process_buffered_messages;; resubscribe_pending else mret ()
  | SubAck5 suback =>
      let result := {| sr_packet_id := r5_packet_id suback; sr_reason_codes := r5_reason_codes suback;
                       sr_properties := r5_properties suback |} in
      (if SubscribeResult_is_success result then on_client (complete_subscribe (r5_packet_id suback));; mret ()
       else mret ());;
      notify (OnSubscribed result)
  | UnsubAck5 unsuback =>
      topics ← on_client (complete_unsubscribe (r5_packet_id unsuback));
      match topics with
      | Some topics => modify (λ self, self <| cw_pending_subscribes ::= λ m, foldr delete m topics |>)
      | None => mret ()
      end;;
      notify (OnUnsubscribed {| ur_packet_id := r5_packet_id unsuback;
        ur_reason_codes := r5_reason_codes unsuback; ur_properties := r5_properties unsuback |})
  | PubAck5 puback =>
      on_client (blocking_complete_publish (a5_packet_id puback));;
      notify (OnPublished (blocking_result (a5_packet_id puback) (a5_reason_code puback)
                             (Some (a5_properties puback)) 1))
  | PubRec5 _ => mret ()
  | PubComp5 pubcomp =>
      on_client (blocking_complete_publish (a5_packet_id pubcomp));;
      notify (OnPublished (blocking_result (a5_packet_id pubcomp) (a5_reason_code pubcomp)
                             (Some (a5_properties pubcomp)) 2))
  | PingResp5 => notify (OnPingResponse {| pg_success := true |})
  | Publish5 publish => notify (OnMessageReceived publish)
  | _ => mret ()
  end.

(** The kind of an error is [TimedOut] or [WouldBlock]. *)
Definition is_timeout (e : BlockingError) : M bool :=
  match e with
  | BeRead =>
      self ← get_st;
      modify (λ self, self <| cw_timeouts ::= tail |>);;
      mret (default false (head (cw_timeouts self)))
  | _ => mret false
  end.

Definition handle_incoming_messages : M () :=
  r ← on_client recv_packet;
  match r with
  | inr (Some packet) => threaded_packet packet
  | inr None => threaded_connection_lost
  | inl e =>
      timeout ← is_timeout e;
      if timeout : bool then mret () else notify (OnError e);; threaded_connection_lost
  end.

(** ** The thread *)
Inductive WorkerInput : Type :=
  | WiCommand (command : ThreadedCommand)
  | WiTimeout
  | WiClosed.

(** One round; [false] ends the loop. *)
Definition threaded_round (input : WorkerInput) : M bool :=
  go ← match input with
       | WiCommand command => threaded_command command
       | WiTimeout => mret true
       | WiClosed => mret false
       end;
  if go : bool then
    self ← get_st;
    (if cw_is_connected self || cw_is_connecting self then handle_incoming_messages else mret ());;
    mret true
  else mret false.

Fixpoint run_threaded (inputs : list WorkerInput) : M () :=
  match inputs with
  | [] => mret ()
  | input :: inputs => go ← threaded_round input; if go : bool then run_threaded inputs else mret ()
  end.
End worker.
