(* ===== verification/ThreadedFacts.v ===== *)
(** * The threaded client: its thread ends only when told to

    With a limit on the attempts to reconnect that fits the delay, no round of the worker thread
    panics, whatever arrives; the delays back off up to their maximum.  [threaded_defects] shows
    what happens without that limit, which is the default, and where the thread departs from its
    comments. *)
From S2P Require Import Prelude BaseData TopicFilter Validation Properties Packets Framing.
From S2P Require Import AckCodec ControlCodec PublishCodec SubscribeCodec ConnectCodec Codec.
From S2P Require Import Stream Options ClientTypes ClientSession EncodeFacts BlockingClient.
From S2P Require Import BlockingFacts ThreadedClient.

(** The attempts are limited, and the longest delay is a [u64]. *)
Definition bounded_reconnect (config : AsyncClientConfig) : Prop :=
  ac_auto_reconnect config = false ∨
  (0 < ac_max_reconnect_attempts config <= 64 ∧ 0 <= ac_reconnect_delay_ms config ∧
   ac_reconnect_delay_ms config * 2 ^ (ac_max_reconnect_attempts config - 1) <= u64_MAX).

Lemma backoff_defined config attempts :
  0 <= ac_reconnect_delay_ms config → 0 < attempts <= ac_max_reconnect_attempts config →
  ac_max_reconnect_attempts config <= 64 →
  ac_reconnect_delay_ms config * 2 ^ (ac_max_reconnect_attempts config - 1) <= u64_MAX →
  backoff_delay config attempts =
    Ok (Z.min (ac_reconnect_delay_ms config * 2 ^ (attempts - 1)) (ac_max_reconnect_delay_ms config)).
Proof.
  intros Hd Ha Hm Hp. unfold backoff_delay. destruct (Z.leb_spec 64 (attempts - 1)); [lia|].
  rewrite Z.shiftl_1_l. cbv zeta.
  assert (2 ^ (attempts - 1) <= 2 ^ (ac_max_reconnect_attempts config - 1)) by (apply Z.pow_le_mono_r; lia).
  destruct (Z.ltb_spec u64_MAX (ac_reconnect_delay_ms config * 2 ^ (attempts - 1))); [nia|done].
Qed.

Section safety.
Context (resubscribe_order : gmap bytes Z → list (bytes * Z)) (config : AsyncClientConfig).
Context (Hconfig : bounded_reconnect config).
Implicit Types (self : ClientWorker).

Definition thread_ok self : Prop :=
  client_ok (cw_client self) ∧ cw_config self = config ∧ 0 <= cw_reconnect_attempts self ∧
  (ac_auto_reconnect config = true → cw_reconnect_attempts self <= ac_max_reconnect_attempts config).
Local Abbreviation safe_step m := (preserves thread_ok thread_ok m).

Lemma safe_modify f :
  (∀ self, cw_client (f self) = cw_client self ∧ cw_config (f self) = cw_config self ∧
           cw_reconnect_attempts (f self) = cw_reconnect_attempts self) → safe_step (modify f).
Proof.
  intros Hf. apply preserves_modify. intros self (Hc & Hcfg & Ha & Hb). destruct (Hf self) as (E1 & E2 & E3).
  unfold thread_ok. by rewrite E1, E2, E3.
Qed.
Lemma runs_client {A} (m : St MqttClient A) self (Q : A → ClientWorker → Prop) :
  thread_ok self → preserves client_ok client_ok m →
  (∀ a client, thread_ok (self <| cw_client := client |>) → Q a (self <| cw_client := client |>)) →
  runs (on_client m) self Q.
Proof.
  intros (Hc & Hcfg & Ha & Hb) Hm HQ. apply runs_zoom. eapply runs_mono; [by apply Hm|]. intros a client Hcl.
  by apply HQ.
Qed.
Lemma safe_client {A} (m : St MqttClient A) : preserves client_ok client_ok m → safe_step (on_client m).
Proof. intros Hm self Hs. by apply runs_client. Qed.

Lemma read_timeout_ok timeout : preserves client_ok client_ok (set_read_timeout timeout).
Proof. unfold set_read_timeout. ok_auto. Qed.
Lemma subscribe_send_ok topic qos : preserves client_ok client_ok (subscribe_send topic qos).
Proof. unfold subscribe_send. ok_auto. Qed.
Lemma unsubscribe_send_ok topics : preserves client_ok client_ok (unsubscribe_send topics).
Proof. unfold unsubscribe_send. ok_auto. Qed.
Lemma complete_subscribe_ok id : preserves client_ok client_ok (complete_subscribe id).
Proof. unfold complete_subscribe. ok_auto. Qed.
Lemma complete_unsubscribe_ok id : preserves client_ok client_ok (complete_unsubscribe id).
Proof. unfold complete_unsubscribe. ok_auto. Qed.
Lemma blocking_complete_publish_ok id : preserves client_ok client_ok (blocking_complete_publish id).
Proof. unfold blocking_complete_publish. ok_auto. Qed.

Lemma schedule_runs again self :
  thread_ok self → ac_auto_reconnect config = true →
  (∀ s, thread_ok s → cw_reconnect_attempts s = cw_reconnect_attempts self + 1 →
        cw_reconnect_attempts self < ac_max_reconnect_attempts config →
        mc_dials (cw_client s) = mc_dials (cw_client self) → runs again s (λ _ s', thread_ok s')) →
  runs (schedule_reconnect_with again) self (λ _ s', thread_ok s').
Proof.
  intros Hs Hauto Hagain. destruct Hs as (Hc & Hcfg & Ha & Hb). specialize (Hb Hauto).
  destruct Hconfig as [?|(Hm & Hd & Hp)]; [congruence|].
  unfold schedule_reconnect_with. apply runs_bind, runs_get. rewrite Hcfg.
  destruct (Z.ltb_spec 0 (ac_max_reconnect_attempts config)); [|lia].
  destruct (Z.leb_spec (ac_max_reconnect_attempts config) (cw_reconnect_attempts self)); [by split_and!|].
  cbn [andb]. destruct (Z.ltb_spec u32_MAX (cw_reconnect_attempts self + 1)); [unfold u32_MAX in *; lia|].
  apply runs_bind, runs_modify, runs_bind, runs_modify, runs_bind, runs_lift. eexists.
  split; [apply backoff_defined; lia|]. apply runs_bind, runs_modify. apply Hagain; [|done..].
  split_and!; [done..| |intros _]; cbn; lia.
Qed.

Lemma connect_loop_runs fuel self :
  thread_ok self → (0 < fuel)%nat →
  (ac_auto_reconnect config = true →
   (Z.to_nat (ac_max_reconnect_attempts config - cw_reconnect_attempts self) < fuel)%nat) →
  runs (handle_connect_loop fuel) self (λ _ self', thread_ok self').
Proof.
  revert self. induction fuel as [|fuel IH]; intros self Hs H0 Hf; [lia|]. cbn [handle_connect_loop].
  apply runs_bind. apply runs_client; [done| |].
  { apply preserves_try_bind; [apply connect_send_ok|intros []; apply read_timeout_ok]. }
  intros [e|[]] client Hs1; [|by apply runs_modify].
  apply runs_bind, runs_modify, runs_bind, runs_modify, runs_bind, runs_get.
  match goal with |- runs (if ?b then _ else _) _ _ => destruct b eqn:Hauto; [|exact Hs1] end.
  assert (Hcfg : cw_config self = config) by apply Hs. change (ac_auto_reconnect (cw_config self) = true) in Hauto.
  rewrite Hcfg in Hauto. specialize (Hf Hauto). apply schedule_runs; [done|done|].
  intros s Hs2 Ha Hlt _. cbn in Ha, Hlt. apply IH; [done| |intros _]; lia.
Qed.
Lemma safe_connect : safe_step handle_connect.
Proof.
  intros self Hs. unfold handle_connect. apply runs_bind, runs_get. apply connect_loop_runs; [done| |intros Hauto];
    unfold connect_fuel; [lia|]. destruct Hs as (_ & Hcfg & Ha & _). rewrite Hcfg. lia.
Qed.

Ltac thread_step :=
  lazymatch goal with
  | |- preserves _ _ (mret _) => apply preserves_ret
  | |- preserves _ _ (notify _) => by apply safe_modify
  | |- preserves _ _ (modify _) => by apply safe_modify
  | |- preserves _ _ (on_client _) => apply safe_client
  | |- preserves _ _ (get_st ≫= _) => apply preserves_get; intros ? ?
  | |- preserves _ _ (_ ≫= _) => eapply (preserves_bind _ thread_ok); [|intros ?]
  | |- preserves _ _ (match ?x with _ => _ end) => destruct x
  end.
Ltac thread_auto := repeat (thread_step; cbv beta zeta);
  auto using send_packet_ok, recv_packet_ok, subscribe_send_ok, unsubscribe_send_ok, publish_send_ok,
    complete_subscribe_ok, complete_unsubscribe_ok, blocking_complete_publish_ok.

Lemma safe_lost : safe_step threaded_connection_lost.
Proof.
  unfold threaded_connection_lost. apply preserves_get. intros self Hs. assert (Hcfg : cw_config self = config) by apply Hs.
  rewrite Hcfg. destruct (_ || _); [|apply preserves_ret].
  eapply (preserves_bind _ thread_ok); [by apply safe_modify|intros []].
  eapply (preserves_bind _ thread_ok); [by apply safe_modify|intros []].
  destruct (ac_auto_reconnect config) eqn:Hauto; [|apply preserves_ret]. intros s Hs1.
  apply schedule_runs; [done|done|]. intros s2 Hs2 _ _ _. by apply safe_connect.
Qed.
Lemma safe_each {A} (l : list A) f : (∀ x, safe_step (f x)) → safe_step (threaded_each l f).
Proof. intros Hf. induction l as [|x l IH]; cbn [threaded_each]; thread_auto. Qed.
Lemma safe_subscribe topic qos : safe_step (threaded_subscribe topic qos).
Proof. unfold threaded_subscribe. thread_auto. Qed.
Lemma thread_publish_safe message : safe_step (threaded_publish message).
Proof. unfold threaded_publish, buffer_message. thread_auto. Qed.
Lemma safe_command command : safe_step (threaded_command command).
Proof.
  destruct command; cbn [threaded_command]; unfold threaded_unsubscribe, threaded_ping, threaded_disconnect,
    ping_send, disconnect_send; thread_auto; auto using safe_connect, safe_subscribe, thread_publish_safe, safe_lost.
Qed.
Lemma safe_packet packet : safe_step (threaded_packet resubscribe_order packet).
Proof.
  destruct packet; cbn [threaded_packet]; thread_auto.
  - apply preserves_modify. intros self (Hc & Hcfg & Ha & Hb). split_and!; [done..|intros Hauto; cbn].
    destruct Hconfig as [?|(? & _)]; [congruence|lia].
  - unfold process_buffered_messages. thread_auto. apply safe_each. apply thread_publish_safe.
  - unfold resubscribe_pending. thread_auto. apply safe_each. intros x. apply safe_subscribe.
Qed.
Lemma safe_round input : safe_step (threaded_round resubscribe_order input).
Proof.
  unfold threaded_round, handle_incoming_messages, is_timeout. thread_auto;
    auto using safe_command, safe_packet, safe_lost.
Qed.
Lemma safe_run inputs : safe_step (run_threaded resubscribe_order inputs).
Proof. induction inputs as [|input inputs IH]; cbn [run_threaded]; thread_auto. apply safe_round. Qed.
End safety.

(** ** A server that cannot be reached *)

(** The delays before attempts [from + 1] to [from + n]. *)
Definition backoff (config : AsyncClientConfig) (from : Z) (n : nat) : list Z :=
  (λ k, Z.min (ac_reconnect_delay_ms config * 2 ^ k) (ac_max_reconnect_delay_ms config)) <$> seqZ from (Z.of_nat n).
Lemma backoff_S config from n :
  backoff config from (S n) =
    Z.min (ac_reconnect_delay_ms config * 2 ^ from) (ac_max_reconnect_delay_ms config) :: backoff config (from + 1) n.
Proof.
  unfold backoff. rewrite (seqZ_cons from) by lia. cbn [fmap list_fmap]. do 2 f_equal. f_equal; lia.
Qed.

Lemma connect_refused self :
  Forall (eq None) (mc_dials (cw_client self)) →
  ∃ client, on_client (_ ←? connect_send; set_read_timeout (Some 100000000)) self
              = Ok (inl BeDial, self <| cw_client := client |>) ∧ Forall (eq None) (mc_dials client).
Proof.
  intros Hd. exists (cw_client self <| mc_dials ::= tail |>). split.
  - assert (Hh : mjoin (head (mc_dials (cw_client self))) = None) by by destruct Hd as [|? ? <- _].
    unfold on_client, zoom, connect_send, tcp_connect, try_bind, mbind, St_bind, get_st, modify, mret, St_ret.
    by rewrite Hh.
  - cbn. by destruct Hd.
Qed.
(** The fields that an update left alone. *)
Ltac back_to self :=
  repeat match goal with
  | |- context [cw_config ?s] => progress change (cw_config s) with (cw_config self)
  | |- context [cw_reconnect_attempts ?s] =>
      progress change (cw_reconnect_attempts s) with (cw_reconnect_attempts self)
  end.
Lemma refused_loop config self n fuel :
  bounded_reconnect config → cw_config self = config → ac_auto_reconnect config = true →
  0 <= cw_reconnect_attempts self → Forall (eq None) (mc_dials (cw_client self)) → (n < fuel)%nat →
  Z.of_nat n = ac_max_reconnect_attempts config - cw_reconnect_attempts self →
  runs (handle_connect_loop fuel) self (λ _ self',
    cw_slept self' = cw_slept self ++ backoff config (cw_reconnect_attempts self) n ∧
    cw_reconnect_attempts self' = ac_max_reconnect_attempts config ∧ cw_is_connecting self' = false).
Proof.
  intros Hc Hcfg Hauto. destruct Hc as [?|(Hm & Hdelay & Hp)]; [congruence|].
  revert self fuel Hcfg. induction n as [|n IH]; intros self [|fuel] Hcfg Ha Hd Hf Hn; try lia;
    destruct (connect_refused self Hd) as (client & Hrun & Hd');
    cbn [handle_connect_loop]; apply runs_bind; unfold runs at 1; rewrite Hrun;
    apply runs_bind, runs_modify, runs_bind, runs_modify, runs_bind, runs_get;
    unfold schedule_reconnect_with; back_to self; rewrite Hcfg, Hauto;
    apply runs_bind, runs_get; back_to self; rewrite Hcfg;
    (destruct (Z.ltb_spec 0 (ac_max_reconnect_attempts config)); [|lia]);
    cbn [andb].
  - destruct (Z.leb_spec (ac_max_reconnect_attempts config) (cw_reconnect_attempts self)); [|cbn in *; lia].
    apply runs_ret. cbn. split_and!; [by rewrite app_nil_r|lia|done].
  - destruct (Z.leb_spec (ac_max_reconnect_attempts config) (cw_reconnect_attempts self)); [cbn in *; lia|].
    destruct (Z.ltb_spec u32_MAX (cw_reconnect_attempts self + 1)); [unfold u32_MAX in *; cbn in *; lia|].
    apply runs_bind, runs_modify, runs_bind, runs_modify, runs_bind, runs_lift. eexists.
    split; [apply backoff_defined; cbn; lia|]. apply runs_bind, runs_modify.
    eapply runs_mono; [apply (IH _ fuel); cbn; try done; lia|]. cbn. intros [] s (Hs & Hat & Hconn).
    split_and!; [|done..]. rewrite Hs, backoff_S, <- app_assoc. cbn. do 3 f_equal. f_equal. f_equal. lia.
Qed.

(** ** Theorems *)

(** C12: whatever commands, packets, read errors and failing connections arrive, the worker thread
    returns from every round without a panic, when the attempts to reconnect are limited to at
    most 64 and the longest delay fits into 64 bits, or reconnecting is off. *)
Theorem threaded_never_panics resubscribe_order options config dials timeouts inputs :
  bounded_reconnect config → Forall dial_ok dials →
  ∃ self, run_threaded resubscribe_order inputs (ClientWorker_new options config dials timeouts) = Ok ((), self) ∧
    thread_ok config self.
Proof.
  intros Hc Hd. assert (Hnew : thread_ok config (ClientWorker_new options config dials timeouts)).
  { split_and!; try done. intros Hauto. cbn. destruct Hc as [?|(? & _)]; [congruence|lia]. }
  pose proof (safe_run resubscribe_order config Hc inputs _ Hnew) as Hrun.
  apply runs_Ok in Hrun as ([] & self & Hrun & Hs). eauto.
Qed.

(** C13: when the server cannot be reached, reconnecting is on and at most 64 attempts are
    configured whose longest delay fits into 64 bits ([bounded_reconnect]; [threaded_defects] shows
    the overflow without it), connecting makes exactly the configured number of further attempts,
    sleeps before the n-th of them for the delay doubled n - 1 times, at most the maximum, and
    gives up. *)
Theorem threaded_backoff config self :
  bounded_reconnect config → cw_config self = config → ac_auto_reconnect config = true →
  0 <= cw_reconnect_attempts self <= ac_max_reconnect_attempts config →
  Forall (eq None) (mc_dials (cw_client self)) →
  ∃ self', handle_connect self = Ok ((), self') ∧
    cw_slept self' = cw_slept self ++ backoff config (cw_reconnect_attempts self)
      (Z.to_nat (ac_max_reconnect_attempts config - cw_reconnect_attempts self)) ∧
    cw_reconnect_attempts self' = ac_max_reconnect_attempts config ∧ cw_is_connecting self' = false.
Proof.
  intros Hc Hcfg Hauto Ha Hd. assert (Hrun : runs handle_connect self (λ _ self',
    cw_slept self' = cw_slept self ++ backoff config (cw_reconnect_attempts self)
      (Z.to_nat (ac_max_reconnect_attempts config - cw_reconnect_attempts self)) ∧
    cw_reconnect_attempts self' = ac_max_reconnect_attempts config ∧ cw_is_connecting self' = false)).
  { unfold handle_connect. apply runs_bind, runs_get. apply refused_loop; try done; [lia| |lia].
    unfold connect_fuel. rewrite Hcfg. lia. }
  apply runs_Ok in Hrun as ([] & self' & Hrun & Hs). eauto.
Qed.

(** ** Runs *)
Definition limited_config : AsyncClientConfig := {|
  ac_auto_reconnect := true; ac_reconnect_delay_ms := 1000; ac_max_reconnect_delay_ms := 30000;
  ac_max_reconnect_attempts := 7; ac_command_queue_size := 100; ac_buffer_messages := true;
  ac_max_buffer_size := 1 |}.
Lemma limited_config_bounded : bounded_reconnect limited_config.
Proof. right. unfold u64_MAX. cbn. lia. Qed.
Definition refused_worker : ClientWorker :=
  ClientWorker_new MqttClientOptions_default limited_config [None; None] [].

Lemma threaded_backoff_witness :
  ∃ self', handle_connect refused_worker = Ok ((), self') ∧
    cw_slept self' = [1000; 2000; 4000; 8000; 16000; 30000; 30000] ∧
    cw_reconnect_attempts self' = 7 ∧ cw_is_connecting self' = false.
Proof.
  apply (threaded_backoff limited_config refused_worker); [exact limited_config_bounded|done|done|cbn; lia|].
  by repeat constructor.
Defined.

Definition publish_input (payload qos : Z) : WorkerInput := WiCommand (ThPublish (str "a") [payload] qos false).
(** CONNACK, PUBREC and a message; a publication of QoS 2 in between. *)
Definition sample_thread_dials : list (option TcpScript) :=
  [sample_dial [Ok sample_connack; Err IoError; Ok [80; 2; 0; 1]; Ok [48; 5; 0; 1; 97; 0; 9]] []].
Definition sample_inputs : list WorkerInput :=
  [WiCommand ThConnect; WiCommand (ThSetAutoReconnect false); publish_input 7 2; WiTimeout].

Lemma threaded_never_panics_witness :
  ∃ self, run_threaded map_to_list (publish_input 8 1 :: sample_inputs ++ [WiTimeout; WiCommand ThPing])
    (ClientWorker_new MqttClientOptions_default limited_config sample_thread_dials [true]) = Ok ((), self) ∧
    thread_ok limited_config self.
Proof.
  apply threaded_never_panics; [exact limited_config_bounded|].
  repeat constructor; cbn; try (unfold is_u8; lia).
Defined.

(** Where the thread departs from its comments and its defaults fail.  With the default
    configuration the 56th failing attempt to connect overflows the computation of the delay; a
    PUBREC is not answered, although the comment says that the client below does so, and a QoS 2
    publication never completes; a full buffer drops the newest message, not the oldest as the
    comment says; and turning automatic reconnection off has no effect. *)
Theorem threaded_defects :
  backoff_delay AsyncClientConfig_default 56 = Panic ∧
  (∃ self, run_threaded map_to_list [WiCommand ThConnect]
     (ClientWorker_new MqttClientOptions_default AsyncClientConfig_default
        (replicate 55 None ++ sample_thread_dials) []) = Ok ((), self) ∧ cw_reconnect_attempts self = 0) ∧
  run_threaded map_to_list [WiCommand ThConnect]
    (ClientWorker_new MqttClientOptions_default AsyncClientConfig_default
       (replicate 56 None ++ sample_thread_dials) []) = Panic ∧
  (∃ self client, run_threaded map_to_list sample_inputs
     (ClientWorker_new MqttClientOptions_default limited_config sample_thread_dials [true]) = Ok ((), self) ∧
     connect_send (MqttClient_new MqttClientOptions_default sample_thread_dials) = Ok (inr (), client) ∧
     mc_sent (cw_client self) = mc_sent client ++ [52; 7; 0; 1; 97; 0; 1; 0; 7] ∧
     length (cw_events self) = 2%nat ∧ ac_auto_reconnect (cw_config self) = true) ∧
  (∃ self, run_threaded map_to_list [publish_input 1 0; publish_input 2 0] refused_worker = Ok ((), self) ∧
     bm_payload <$> cw_message_buffer self = [[1]]).
Proof.
  split; [reflexivity|]. split; [eexists; split; vm_compute; reflexivity|]. split; [vm_compute; reflexivity|].
  split; [eexists _, _; split; [vm_compute; reflexivity|split; [vm_compute; reflexivity|by vm_compute]]|].
  eexists. split; vm_compute; reflexivity.
Qed.
