(* ===== verification/QuicState.v ===== *)
(** * The state of the MQTT-over-QUIC engine

    Models the data of [QuicMqttEngine] of [src/mqtt_client/engine.rs]: a QUIC stream with its
    parser and send buffer, the journal of early (0-RTT) bytes, and the engine that owns the
    protocol engine, the QUIC connection and the streams.  [quinn-proto] and [rustls] are not
    part of the repository: the class [Quic] has the operations the engine calls, over abstract
    connections and endpoints, and [QuicLaws] what their documentation promises: every loop that
    polls the connection reaches [None], a write accepts a prefix of what it is given.  The
    readings of the host's clock and the iteration order of the stream map are the class
    [QuicHost]. *)
From stdpp Require Import sorting.
From S2P Require Import Prelude BaseData TopicFilter Validation Properties Packets Framing Codec.
From S2P Require Import Stream Leveled Time PriorityQueue ClientError Options ClientTypes.
From S2P Require Import Commands Inflight ClientSession EngineState EngineCore EngineProtocol.
From S2P Require Import Engine EngineHost.

(** ** The transport *)

(** [quinn_proto::ConnectionError], by its constructors. *)
Inductive ConnectionError : Type :=
  | CeVersionMismatch | CeTransportError | CeConnectionClosed (error_code : Z)
  | CeApplicationClosed (error_code : Z) | CeReset | CeTimedOut | CeLocallyClosed
  | CeCidsExhausted.

(** [quinn_proto::Event]: the stream events that carry no decision, and the other events of the
    connection, are one constructor each. *)
Inductive TransportEvent : Type :=
  | EvFinished (id : Z)
  | EvStopped (id error_code : Z)
  | EvStreamOther
  | EvConnected
  | EvConnectionLost (reason : ConnectionError)
  | EvOther.

(** What [Chunks::next] returns. *)
Inductive ReadChunk : Type := RcChunk (b : bytes) | RcFin | RcReset (error_code : Z) | RcBlocked.

(** [quinn_proto::DatagramEvent]. *)
Inductive DatagramEvent (E : Type) : Type :=
  | DeNewConnection
  | DeConnectionEvent (handle : Z) (event : E)
  | DeResponse.
Arguments DeNewConnection {_}.
Arguments DeConnectionEvent {_} _ _.
Arguments DeResponse {_}.

(** [ClearableQuicSessionCache]: its size, and which allocation it is (the tickets it holds are
    rustls's). *)
Record ClearableQuicSessionCache : Type := { cache_size : Z; cache_arc : nat }.

Class Quic (T : Type) : Type := {
  Connection : Type;
  Endpoint : Type;
  SocketAddr : Type;
  CryptoConfig : Type;
  ClientConfig : Type;
  ConnectionEvent : Type;
  (** rustls::ClientConfig and quinn's ClientConfig *)
  crypto_alpn_protocols : CryptoConfig → list bytes;
  crypto_set_alpn_protocols : list bytes → CryptoConfig → CryptoConfig;
  crypto_enable_early_data : CryptoConfig → CryptoConfig;
  crypto_resumption : ClearableQuicSessionCache → CryptoConfig → CryptoConfig;
  quic_client_config : CryptoConfig → string + ClientConfig;
  idle_timeout_of : Z → string + Z;
  set_transport_config : Z → ClientConfig → ClientConfig;
  (** Endpoint *)
  endpoint_new : Endpoint;
  endpoint_connect : T → ClientConfig → SocketAddr → bytes → Endpoint →
                     (string + Z * Connection) * Endpoint;
  endpoint_handle : T → SocketAddr → bytes → Endpoint →
                    (bytes * option (DatagramEvent ConnectionEvent)) * Endpoint;
  (** Connection *)
  connection_handle_event : ConnectionEvent → Connection → Connection;
  connection_handle_timeout : T → Connection → Connection;
  connection_poll : Connection → option TransportEvent * Connection;
  connection_poll_transmit : T → Connection → option (SocketAddr * bytes) * Connection;
  connection_close : T → Z → bytes → Connection → Connection;
  connection_is_closed : Connection → bool;
  connection_ping : Connection → Connection;
  connection_local_address_changed : Connection → Connection;
  connection_has_0rtt : Connection → bool;
  connection_accepted_0rtt : Connection → bool;
  connection_error_text : ConnectionError → string;
  (** Streams *)
  streams_open : Connection → option Z * Connection;
  streams_accept : Connection → option Z * Connection;
  stream_received_reset : Z → Connection → option Z * Connection;
  stream_read : Z → Connection → bool * Connection;
  chunks_next : Z → Connection → ReadChunk * Connection;
  chunks_drop : Z → Connection → Connection;
  stream_set_priority : Z → Z → Connection → Connection;
  stream_write : Z → bytes → Connection → option Z * Connection;
  stream_finish : Z → Connection → Connection;
  stream_reset : Z → Z → Connection → (string + ()) * Connection;
  stream_stop : Z → Z → Connection → (string + ()) * Connection;
  (** How much each polling loop can still take from a connection. *)
  events_left : Connection → nat;
  incoming_left : Connection → nat;
  chunks_left : Z → Connection → nat;
  transmits_left : T → Connection → nat;
}.

(** The readings [Instant::now()] returns, in order, and the iteration order of the map of
    streams. *)
Class QuicHost (T : Type) : Type := {
  instant_now : nat → T;
  iter_streams {A} : gmap Z A → list Z;
}.

Class QuicLaws (T : Type) `{Quic T, QuicHost T} : Prop := {
  iter_streams_perm {A} (m : gmap Z A) : iter_streams m ≡ₚ (map_to_list m).*1;
  poll_progress c event c' :
    connection_poll c = (Some event, c') → (events_left c' < events_left c)%nat;
  open_events c : (events_left (streams_open c).2 <= events_left c)%nat;
  accept_progress c id c' :
    streams_accept c = (Some id, c') → (incoming_left c' < incoming_left c)%nat;
  next_progress id c b c' :
    chunks_next id c = (RcChunk b, c') → (chunks_left id c' < chunks_left id c)%nat;
  next_bytes id c b c' : chunks_next id c = (RcChunk b, c') → u8s b;
  transmit_progress now c t c' :
    connection_poll_transmit now c = (Some t, c') →
    (transmits_left now c' < transmits_left now c)%nat;
  write_accepts id b c n c' : stream_write id b c = (Some n, c') → 0 <= n <= zlen b;
}.

(** ** Streams *)
Record QuicStream : Type := {
  qs_priority : Z;
  qs_publish_priority : option Z;
  qs_parser : MqttParser;
  qs_outgoing : bytes;
  qs_pending_packets : Z;
  qs_max_packets : Z;
  qs_finishing : bool;
  qs_finished : bool;
  qs_recv_closed : bool;
}.

#[export] Instance Rebuild_QuicStream : Rebuild QuicStream := λ s, {|
  qs_priority := qs_priority s; qs_publish_priority := qs_publish_priority s;
  qs_parser := qs_parser s; qs_outgoing := qs_outgoing s;
  qs_pending_packets := qs_pending_packets s; qs_max_packets := qs_max_packets s;
  qs_finishing := qs_finishing s; qs_finished := qs_finished s;
  qs_recv_closed := qs_recv_closed s;
|}.

Definition QuicStream_with_outgoing (parser_buffer_size mqtt_version max_packets : Z)
    (outgoing : bytes) (pending_packets : Z) : QuicStream := {|
  qs_priority := 128;
  qs_publish_priority := None;
  qs_parser := MqttParser_new parser_buffer_size mqtt_version;
  qs_outgoing := outgoing;
  qs_pending_packets := pending_packets;
  qs_max_packets := max_packets;
  qs_finishing := false;
  qs_finished := false;
  qs_recv_closed := false;
|}.

Definition QuicStream_new (parser_buffer_size mqtt_version max_packets : Z) : QuicStream := {|
  qs_priority := 128;
  qs_publish_priority := None;
  qs_parser := MqttParser_new parser_buffer_size mqtt_version;
  qs_outgoing := [];
  qs_pending_packets := 0;
  qs_max_packets := max_packets;
  qs_finishing := false;
  qs_finished := false;
  qs_recv_closed := false;
|}.

(** ** 0-RTT *)
Record QuicZeroRttConfig : Type := { zc_session_cache_size : Z; zc_replay_on_reject : bool }.
Definition QuicZeroRttConfig_default : QuicZeroRttConfig :=
  {| zc_session_cache_size := 256; zc_replay_on_reject := true |}.

#[export] Instance QuicZeroRttStatus_eq_dec : EqDecision QuicZeroRttStatus.
Proof. solve_decision. Defined.

Definition QuicZeroRttStatus_debug (s : QuicZeroRttStatus) : string :=
  match s with
  | Disabled => "Disabled" | Unavailable => "Unavailable" | Attempted => "Attempted"
  | Accepted => "Accepted" | Rejected => "Rejected"
  end.

Inductive EarlyStreamRole : Type :=
  | RoleControl | RoleDefaultPub | RolePriorityPub (priority : Z) | RoleDefaultSub
  | RoleExplicitData.

Record EarlyStreamJournal : Type := {
  ej_priority : Z;
  ej_original_stream_id : Z;
  ej_role : EarlyStreamRole;
  ej_bytes : bytes;
  ej_packet_count : Z;
}.

#[export] Instance Rebuild_EarlyStreamJournal : Rebuild EarlyStreamJournal := λ j, {|
  ej_priority := ej_priority j; ej_original_stream_id := ej_original_stream_id j;
  ej_role := ej_role j; ej_bytes := ej_bytes j; ej_packet_count := ej_packet_count j;
|}.

(** [journal.iter_mut().find(p)] and an update of what it finds. *)
Fixpoint update_first {A} (p : A → bool) (f : A → A) (l : list A) : list A :=
  match l with
  | [] => []
  | a :: l => if p a then f a :: l else a :: update_first p f l
  end.

Definition journal_stream_open (journal : list EarlyStreamJournal) (stream_id : Z)
    (role : EarlyStreamRole) : list EarlyStreamJournal :=
  journal ++ [{| ej_priority := match role with RolePriorityPub priority => priority | _ => 128 end;
                 ej_original_stream_id := stream_id;
                 ej_role := role;
                 ej_bytes := [];
                 ej_packet_count := 0 |}].

Definition journal_of (stream_id : Z) (entry : EarlyStreamJournal) : bool :=
  ej_original_stream_id entry =? stream_id.

Definition journal_stream_bytes (journal : list EarlyStreamJournal) (stream_id : Z) (b : bytes)
    (packet_count_delta : Z) : list EarlyStreamJournal :=
  if bool_decide (b = []) && (packet_count_delta =? 0) then journal else
  update_first (journal_of stream_id)
    (λ entry, entry <| ej_bytes ::= λ l, l ++ b |>
                    <| ej_packet_count ::= λ n, n + packet_count_delta |>) journal.

(** ** Errors *)
Definition stream_finished_error : MqttClientError :=
  InvalidState "an open (non-finished) stream" "stream finished or reset".

(** [VarInt::from_u64] rejects what does not fit 62 bits. *)
Definition VarInt_MAX : Z := 4611686018427387903.
Definition quic_error_code (error_code : Z) : result MqttClientError Z :=
  if VarInt_MAX <? error_code
  then Err (InvalidConfiguration "error_code" "QUIC error code exceeds 2^62-1")
  else Ok error_code.

Definition transport_close_details (reason : ConnectionError) : bool * option Z :=
  match reason with
  | CeApplicationClosed error_code => (true, Some error_code)
  | CeConnectionClosed error_code => (true, Some error_code)
  | CeReset => (true, None)
  | CeVersionMismatch | CeTransportError | CeTimedOut | CeLocallyClosed
  | CeCidsExhausted => (false, None)
  end.

(** ** The engine *)
Record QuicMqttEngine (T : Type) `{Quic T} : Type := {
  qe_mqtt_engine : MqttEngine T;
  qe_endpoint : Endpoint;
  qe_connection : option Connection;
  qe_connection_handle : option Z;
  qe_control_stream : option Z;
  qe_data_streams : gmap Z QuicStream;
  qe_default_pub_stream : option Z;
  qe_default_sub_stream : option Z;
  qe_control_outgoing : bytes;
  qe_client_config : option ClientConfig;
  qe_server_addr : option SocketAddr;
  qe_server_name : option bytes;
  qe_zero_rtt_config : option QuicZeroRttConfig;
  qe_zero_rtt_status : QuicZeroRttStatus;
  qe_zero_rtt_cache : option ClearableQuicSessionCache;
  qe_pending_transport_events : list MqttEvent;
  qe_early_stream_journal : list EarlyStreamJournal;
  qe_pending_close : option (Z * bytes);
  qe_control_finishing : bool;
  qe_control_finished : bool;
  qe_outgoing_datagrams : list (SocketAddr * bytes);
  (** The readings of the clock and the allocations of session caches so far. *)
  qe_readings : nat;
  qe_caches : nat;
}.
Arguments qe_mqtt_engine {_ _} _.
Arguments qe_endpoint {_ _} _.
Arguments qe_connection {_ _} _.
Arguments qe_connection_handle {_ _} _.
Arguments qe_control_stream {_ _} _.
Arguments qe_data_streams {_ _} _.
Arguments qe_default_pub_stream {_ _} _.
Arguments qe_default_sub_stream {_ _} _.
Arguments qe_control_outgoing {_ _} _.
Arguments qe_client_config {_ _} _.
Arguments qe_server_addr {_ _} _.
Arguments qe_server_name {_ _} _.
Arguments qe_zero_rtt_config {_ _} _.
Arguments qe_zero_rtt_status {_ _} _.
Arguments qe_zero_rtt_cache {_ _} _.
Arguments qe_pending_transport_events {_ _} _.
Arguments qe_early_stream_journal {_ _} _.
Arguments qe_pending_close {_ _} _.
Arguments qe_control_finishing {_ _} _.
Arguments qe_control_finished {_ _} _.
Arguments qe_outgoing_datagrams {_ _} _.
Arguments qe_readings {_ _} _.
Arguments qe_caches {_ _} _.

#[export] Instance Rebuild_QuicMqttEngine T `{Quic T} : Rebuild (QuicMqttEngine T) := λ s, {|
  qe_mqtt_engine := qe_mqtt_engine s; qe_endpoint := qe_endpoint s;
  qe_connection := qe_connection s; qe_connection_handle := qe_connection_handle s;
  qe_control_stream := qe_control_stream s; qe_data_streams := qe_data_streams s;
  qe_default_pub_stream := qe_default_pub_stream s;
  qe_default_sub_stream := qe_default_sub_stream s;
  qe_control_outgoing := qe_control_outgoing s; qe_client_config := qe_client_config s;
  qe_server_addr := qe_server_addr s; qe_server_name := qe_server_name s;
  qe_zero_rtt_config := qe_zero_rtt_config s; qe_zero_rtt_status := qe_zero_rtt_status s;
  qe_zero_rtt_cache := qe_zero_rtt_cache s;
  qe_pending_transport_events := qe_pending_transport_events s;
  qe_early_stream_journal := qe_early_stream_journal s; qe_pending_close := qe_pending_close s;
  qe_control_finishing := qe_control_finishing s; qe_control_finished := qe_control_finished s;
  qe_outgoing_datagrams := qe_outgoing_datagrams s; qe_readings := qe_readings s;
  qe_caches := qe_caches s;
|}.

(** [QuicMqttEngine::new]: the protocol engine it makes keeps its session for the data streams. *)
Definition QuicMqttEngine_new {T} `{Quic T, QuicHost T} (options : MqttClientOptions)
    : QuicMqttEngine T := {|
  qe_mqtt_engine := MqttEngine_new options (instant_now 0) <| me_transport_manages_session := true |>;
  qe_endpoint := endpoint_new;
  qe_connection := None;
  qe_connection_handle := None;
  qe_control_stream := None;
  qe_data_streams := ∅;
  qe_default_pub_stream := None;
  qe_default_sub_stream := None;
  qe_control_outgoing := [];
  qe_client_config := None;
  qe_server_addr := None;
  qe_server_name := None;
  qe_zero_rtt_config := None;
  qe_zero_rtt_status := Disabled;
  qe_zero_rtt_cache := None;
  qe_pending_transport_events := [];
  qe_early_stream_journal := [];
  qe_pending_close := None;
  qe_control_finishing := false;
  qe_control_finished := false;
  qe_outgoing_datagrams := [];
  qe_readings := 1;
  qe_caches := 0;
|}.

(** What the tick borrows at once: the engine, the connection taken out of it, and the events
    of this tick. *)
Record Tick (T : Type) `{Quic T} : Type := {
  tk_self : QuicMqttEngine T;
  tk_conn : Connection;
  tk_events : list MqttEvent;
}.
Arguments tk_self {_ _} _.
Arguments tk_conn {_ _} _.
Arguments tk_events {_ _} _.

#[export] Instance Rebuild_Tick T `{Quic T} : Rebuild (Tick T) := λ s, {|
  tk_self := tk_self s; tk_conn := tk_conn s; tk_events := tk_events s;
|}.
