(* ===== verification/QuicEngine.v ===== *)
(** * The operations of the MQTT-over-QUIC engine

    Models the methods of [QuicMqttEngine] of [src/mqtt_client/engine.rs] and the stream checks
    of [engine/protocol_state.rs]: the streams and their bounded buffers, the routing of
    commands onto them, the 0-RTT journal, the close controls and the escape hatch.  The tick is
    in [QuicTick].  A method of the protocol engine that reads the host's clock takes the next
    reading of [QuicHost]. *)
From stdpp Require Import sorting.
From S2P Require Import Prelude BaseData TopicFilter Validation Properties Packets Framing Codec.
From S2P Require Import Stream Leveled Time PriorityQueue ClientError Options ClientTypes.
From S2P Require Import Commands Inflight ClientSession EngineState EngineCore EngineProtocol.
From S2P Require Import Engine EngineHost QuicState.

Section QuicEngine.
Context {T : Type} `{TimePoint T, !Runtime T, !Quic T, !QuicHost T}.
Implicit Types (self q : QuicMqttEngine T).
Local Abbreviation M := (St (QuicMqttEngine T)).

(** ** Access to the parts *)

(** [self.mqtt_engine.f()] with the engine's own time, or at the next reading of the clock. *)
Definition on_mqtt {A} (m : St (MqttEngine T) A) : M A := λ self,
  match m (qe_mqtt_engine self) with
  | Ok (a, engine) => Ok (a, self <| qe_mqtt_engine := engine |>)
  | Err e => Err e
  | Panic => Panic
  end.

Definition at_instant {A} (m : T → St (MqttEngine T) A) : M A :=
  self ← get_st;
  modify (λ self, self <| qe_readings ::= S |>);;
  on_mqtt (m (instant_now (qe_readings self))).

(** [self.require_connection()?] and a call on it. *)
Definition quic_connected self : bool := bool_decide (is_Some (qe_connection self)).
Definition require_connection self : result MqttClientError Connection :=
  ok_or (qe_connection self) (InvalidState "an established QUIC connection" "no connection").
Definition set_connection (conn : Connection) : M () :=
  modify (λ self, self <| qe_connection := Some conn |>).

(** [if let Some(ds) = self.data_streams.get_mut(&id) { .. }] *)
Definition on_stream (id : Z) (f : QuicStream → QuicStream) : M () :=
  modify (λ self, self <| qe_data_streams ::= alter f id |>).

Definition quic_set_parse_level (level : ParseLevel) : M () :=
  on_mqtt (set_parse_level level);;
  modify (λ self, self <| qe_data_streams ::= fmap (λ stream,
    stream <| qs_parser ::= λ p, MqttParser_set_parse_level p level |>) |>).
Definition quic_parse_level self : ParseLevel := parse_level (qe_mqtt_engine self).
Definition quic_is_connected self : bool := MqttEngine_is_connected (qe_mqtt_engine self).
Definition data_stream_count self : Z := Z.of_nat (size (qe_data_streams self)).
Definition control_stream_id self : option Z := qe_control_stream self.
Definition zero_rtt_status self : QuicZeroRttStatus := qe_zero_rtt_status self.

(** ** Limits *)
Definition streams_len (streams : gmap Z QuicStream) : Z :=
  map_fold (λ _ s n, zlen (qs_outgoing s) + n) 0 streams.

Definition check_stream_bytes self (additional : Z) : result MqttClientError () :=
  match mo_max_outgoing_buffer_bytes (me_options (qe_mqtt_engine self)) with
  | Some capacity =>
      let used := outgoing_bytes (qe_mqtt_engine self) + zlen (qe_control_outgoing self)
                  + streams_len (qe_data_streams self) in
      if capacity <? usize_saturating_add used additional
      then Err (BufferFull "QUIC outgoing bytes" capacity) else Ok ()
  | None => Ok ()
  end.

(** The packet that will be sent is built and measured before anything is reserved. *)
Definition preflight_packet self (packet : MqttPacket) : result MqttClientError () :=
  b ← map_parse_error (MqttPacket_to_bytes packet);
  _ ← check_packet_size (qe_mqtt_engine self) b;
  check_stream_bytes self (zlen b).

Definition preflight_publish self (command : PublishCommand) : result MqttClientError () :=
  '(_, command) ← validate_publish (qe_mqtt_engine self) command;
  let command := if 0 <? pc_qos command
                 then command <| pc_packet_id ::= λ id, Some (default 1 id) |> else command in
  preflight_packet self (publish_packet (qe_mqtt_engine self) command).

Definition preflight_subscribe self (command : SubscribeCommand) : result MqttClientError () :=
  _ ← validate_subscribe (qe_mqtt_engine self) command;
  let id := default 1 (sc_packet_id command) in
  preflight_packet self (subscribe_packet (qe_mqtt_engine self) id command).

Definition preflight_unsubscribe self (command : UnsubscribeCommand)
    : result MqttClientError () :=
  let id := default 1 (uc_packet_id command) in
  preflight_packet self (unsubscribe_packet (qe_mqtt_engine self) id command).

(** ** The early-data journal *)
Definition on_journal (f : list EarlyStreamJournal → list EarlyStreamJournal) : M () :=
  modify (λ self, self <| qe_early_stream_journal ::= f |>).
Definition attempting self : bool := bool_decide (qe_zero_rtt_status self = Attempted).

Definition append_control_outgoing_bytes (b : bytes) (packet_count_delta : Z) : M () :=
  if bool_decide (b = []) then mret () else
  modify (λ self, self <| qe_control_outgoing ::= λ l, l ++ b |>);;
  self ← get_st;
  if attempting self then
    match qe_control_stream self with
    | Some stream_id => on_journal (λ j, journal_stream_bytes j stream_id b packet_count_delta)
    | None => mret ()
    end
  else mret ().

Definition push_transport_event (event : MqttEvent) : M () :=
  modify (λ self, self <| qe_pending_transport_events ::= λ l, l ++ [event] |>).

Definition mark_zero_rtt_unavailable : M () :=
  modify (λ self, self <| qe_zero_rtt_status := Unavailable |>);;
  push_transport_event (ZeroRttStatusChanged Unavailable).

Definition begin_zero_rtt_attempt (control_stream : option Z) : M () :=
  match control_stream with
  | None => mark_zero_rtt_unavailable
  | Some stream_id =>
      modify (λ self, self <| qe_zero_rtt_status := Attempted |>);;
      push_transport_event (ZeroRttStatusChanged Attempted);;
      modify (λ self, self <| qe_control_stream := Some stream_id |>);;
      on_journal (λ j, journal_stream_open j stream_id RoleControl);;
      r ← at_instant connect;
      match r with
      | inl error => on_mqtt (push_event (ErrorEvent error))
      | inr _ =>
          connect_bytes ← at_instant take_outgoing;
          append_control_outgoing_bytes connect_bytes
            (if bool_decide (connect_bytes = []) then 0 else 1)
      end
  end.

Definition ensure_command_allowed_before_mqtt_connected self : result MqttClientError () :=
  if quic_is_connected self || attempting self then Ok () else
  Err (InvalidState "a connected MQTT session or attempted QUIC 0-RTT"
         ("MQTT not connected; 0-RTT status " +:+ QuicZeroRttStatus_debug (qe_zero_rtt_status self))).

(** ** Connecting *)

(** [.map_err(|e| MqttClientError::InternalError { message: format!(..) })] *)
Definition transport_result {A} (context : string) (r : string + A) : result MqttClientError A :=
  match r with
  | inl e => Err (InternalClientError (context +:+ e))
  | inr a => Ok a
  end.

(** The state that belongs to one connection's streams. *)
Definition clear_streams : M () :=
  modify (λ self, self <| qe_control_stream := None |> <| qe_data_streams := ∅ |>
                       <| qe_default_pub_stream := None |> <| qe_default_sub_stream := None |>
                       <| qe_control_outgoing := [] |> <| qe_pending_close := None |>
                       <| qe_control_finishing := false |> <| qe_control_finished := false |>).

Definition reset_connection_state : M () :=
  modify (λ self, self <| qe_connection := None |> <| qe_connection_handle := None |>);;
  clear_streams;;
  modify (λ self, self <| qe_outgoing_datagrams := [] |> <| qe_pending_transport_events := [] |>
                       <| qe_early_stream_journal := [] |>);;
  at_instant reset_for_new_transport.

Definition establish (now : T) : M (MqttClientError + ()) :=
  self ← get_st;
  client_config ←? try (ok_or (qe_client_config self) (InvalidState "stored client config" "none"));
  server_addr ←? try (ok_or (qe_server_addr self) (InvalidState "stored server address" "none"));
  server_name ←? try (ok_or (qe_server_name self) (InvalidState "stored server name" "none"));
  let '(r, endpoint) :=
    endpoint_connect now client_config server_addr server_name (qe_endpoint self) in
  modify (λ self, self <| qe_endpoint := endpoint |>);;
  '(ch, conn) ←? try (transport_result "Failed to create QUIC connection: " r);
  conn ← (match qe_zero_rtt_config self with
          | Some _ =>
              if connection_has_0rtt conn then
                let '(control_stream, conn) := streams_open conn in
                begin_zero_rtt_attempt control_stream;; mret conn
              else mark_zero_rtt_unavailable;; mret conn
          | None => mret conn
          end);
  modify (λ self, self <| qe_connection := Some conn |> <| qe_connection_handle := Some ch |>);;
  ok ().

Definition default_alpn (crypto_config : CryptoConfig) : CryptoConfig :=
  if bool_decide (crypto_alpn_protocols crypto_config = [])
  then crypto_set_alpn_protocols [str "mqtt"] crypto_config else crypto_config.

Definition client_config_from_crypto (crypto_config : CryptoConfig)
    : result MqttClientError ClientConfig :=
  client_config ← transport_result "Failed to create QUIC client config: "
                    (quic_client_config crypto_config);
  idle_timeout ← transport_result "Failed to convert QUIC idle timeout: "
                   (idle_timeout_of (Duration_from_secs 120));
  Ok (set_transport_config idle_timeout client_config).

(** The parameters kept for [reconnect]. *)
Definition retain_parameters (client_config : ClientConfig) (server_addr : SocketAddr)
    (server_name : bytes) (zero_rtt_config : option QuicZeroRttConfig)
    (status : QuicZeroRttStatus) : M () :=
  modify (λ self, self <| qe_client_config := Some client_config |>
                       <| qe_server_addr := Some server_addr |>
                       <| qe_server_name := Some server_name |>
                       <| qe_zero_rtt_config := zero_rtt_config |>
                       <| qe_zero_rtt_status := status |>
                       <| qe_pending_transport_events := [] |>
                       <| qe_early_stream_journal := [] |>).

Definition quic_connect (server_addr : SocketAddr) (server_name : bytes)
    (crypto_config : CryptoConfig) (now : T) : M (MqttClientError + ()) :=
  client_config ←? try (client_config_from_crypto (default_alpn crypto_config));
  retain_parameters client_config server_addr server_name None Disabled;;
  establish now.

Definition zero_rtt_cache_for_size (n : Z) : M ClearableQuicSessionCache :=
  self ← get_st;
  match qe_zero_rtt_cache self with
  | Some cache =>
      if cache_size cache =? n then mret cache else
      let cache := {| cache_size := n; cache_arc := qe_caches self |} in
      modify (λ self, self <| qe_zero_rtt_cache := Some cache |> <| qe_caches ::= S |>);; mret cache
  | None =>
      let cache := {| cache_size := n; cache_arc := qe_caches self |} in
      modify (λ self, self <| qe_zero_rtt_cache := Some cache |> <| qe_caches ::= S |>);; mret cache
  end.

Definition quic_connect_with_zero_rtt (server_addr : SocketAddr) (server_name : bytes)
    (crypto_config : CryptoConfig) (zero_rtt_config : QuicZeroRttConfig) (now : T)
    : M (MqttClientError + ()) :=
  let crypto_config := crypto_enable_early_data (default_alpn crypto_config) in
  cache ← zero_rtt_cache_for_size (zc_session_cache_size zero_rtt_config);
  client_config ←? try (client_config_from_crypto (crypto_resumption cache crypto_config));
  retain_parameters client_config server_addr server_name (Some zero_rtt_config) Unavailable;;
  establish now.

Definition quic_reconnect (now : T) : M (MqttClientError + ()) :=
  self ← get_st;
  match qe_client_config self with
  | None => err (InvalidState "a prior successful connect()" "reconnect called before connect")
  | Some _ => reset_connection_state;; establish now
  end.

Definition close_silent : M () := reset_connection_state.

Definition notify_local_address_changed : M (MqttClientError + ()) :=
  modify (λ self, self <| qe_connection ::= fmap connection_local_address_changed |>);; ok ().

(** [handle_datagram] *)
Definition handle_datagram (data : bytes) (remote_addr : SocketAddr) (now : T) : M () :=
  self ← get_st;
  let '((buf, result), endpoint) := endpoint_handle now remote_addr data (qe_endpoint self) in
  modify (λ self, self <| qe_endpoint := endpoint |>);;
  (if negb (bool_decide (buf = []))
   then modify (λ self, self <| qe_outgoing_datagrams ::= λ l, l ++ [(remote_addr, buf)] |>)
   else mret ());;
  match result with
  | Some (DeConnectionEvent ch event) =>
      if bool_decide (Some ch = qe_connection_handle self)
      then modify (λ self, self <| qe_connection ::= fmap (connection_handle_event event) |>)
      else mret ()
  | Some DeNewConnection | Some DeResponse | None => mret ()
  end.

Definition take_outgoing_datagrams : M (list (SocketAddr * bytes)) :=
  self ← get_st;
  modify (λ self, self <| qe_outgoing_datagrams := [] |>);;
  mret (qe_outgoing_datagrams self).

Definition quic_take_events : M (list MqttEvent) :=
  self ← get_st;
  modify (λ self, self <| qe_pending_transport_events := [] |>);;
  events ← on_mqtt take_events;
  mret (qe_pending_transport_events self ++ events).

(** ** Data streams *)
Definition open_bidi_stream_with_role (role : EarlyStreamRole) : M (MqttClientError + Z) :=
  self ← get_st;
  _ ←? try (ensure_command_allowed_before_mqtt_connected self);
  let options := me_options (qe_mqtt_engine self) in
  conn ←? try (require_connection self);
  let '(opened, conn) := streams_open conn in
  set_connection conn;;
  stream_id ←? try (ok_or opened
    (InternalClientError "QUIC stream limit reached: cannot open new data stream"));
  let stream := QuicStream_new (mo_parser_buffer_size options) (mo_mqtt_version options)
                  (mo_max_outgoing_packet_count options) in
  let stream := stream <| qs_parser ::= λ p, MqttParser_set_parse_level p (quic_parse_level self) |> in
  let stream := match role with
                | RolePriorityPub priority =>
                    stream <| qs_priority := priority |> <| qs_publish_priority := Some priority |>
                | _ => stream
                end in
  modify (λ self, self <| qe_data_streams ::= <[stream_id := stream]> |>);;
  (if attempting self then on_journal (λ j, journal_stream_open j stream_id role) else mret ());;
  ok stream_id.

Definition open_data_stream : M (MqttClientError + Z) := open_bidi_stream_with_role RoleExplicitData.

Definition resolve_stream self (handle : Z) : result MqttClientError Z :=
  if bool_decide (is_Some (qe_data_streams self !! handle)) then Ok handle else
  Err (InvalidState "a handle from open_data_stream" ("unknown data stream " +:+ fmt_dec handle)).

Definition resolve_any_stream self (handle : Z) : result MqttClientError Z :=
  if bool_decide (Some handle = qe_control_stream self) then Ok handle
  else resolve_stream self handle.

Definition stream_ended (ds : QuicStream) : bool := qs_finishing ds || qs_finished ds.
Definition stream_full (ds : QuicStream) : bool := qs_max_packets ds <=? qs_pending_packets ds.
Definition stream_buffer_full (ds : QuicStream) : MqttClientError :=
  BufferFull "quic_stream_outgoing" (qs_max_packets ds).

Definition ensure_stream_capacity self (stream_id : Z) : result MqttClientError () :=
  match qe_data_streams self !! stream_id with
  | Some ds =>
      if stream_ended ds then Err stream_finished_error else
      if stream_full ds then Err (stream_buffer_full ds) else Ok ()
  | None => Ok ()
  end.

Definition enqueue_on_stream (stream_id : Z) (b : bytes) : M (MqttClientError + ()) :=
  self ← get_st;
  _ ←? try (check_stream_bytes self (zlen b));
  match qe_data_streams self !! stream_id with
  | Some ds =>
      if stream_ended ds then err stream_finished_error else
      if stream_full ds then err (stream_buffer_full ds) else
      on_stream stream_id (λ ds, ds <| qs_outgoing ::= λ l, l ++ b |>
                                    <| qs_pending_packets ::= λ n, n + 1 |>);;
      (if attempting self then on_journal (λ j, journal_stream_bytes j stream_id b 1) else mret ());;
      ok ()
  | None => ok ()
  end.

Definition set_journal_priority (priority : Z) (entry : EarlyStreamJournal) : EarlyStreamJournal :=
  entry <| ej_priority := priority |>
        <| ej_role ::= λ role, match role with RolePriorityPub _ => RolePriorityPub priority
                                             | _ => role end |>.

Definition set_stream_priority (stream priority : Z) : M (MqttClientError + ()) :=
  self ← get_st;
  stream_id ←? try (resolve_stream self stream);
  match qe_data_streams self !! stream_id with
  | None => panic
  | Some ds =>
      if stream_ended ds then err stream_finished_error else
      on_stream stream_id (λ ds, ds <| qs_priority := priority |>
                                    <| qs_publish_priority ::= fmap (λ _, priority) |>);;
      on_journal (update_first (journal_of stream_id) (set_journal_priority priority));;
      ok ()
  end.

(** The streams in the order they are given the connection: by descending priority, then by
    identifier. *)
Definition before (streams : gmap Z QuicStream) (a b : Z) : Prop :=
  let p id := from_option qs_priority 0 (streams !! id) in
  p b < p a ∨ (p a = p b ∧ a <= b).
#[export] Instance before_dec streams : RelDecision (before streams).
Proof. intros a b. unfold before. apply _. Defined.
Definition stream_send_order (streams : gmap Z QuicStream) : list Z :=
  merge_sort (before streams) (iter_streams streams).

(** ** Default streams *)
Definition ensure_default_pub_stream : M (MqttClientError + Z) :=
  self ← get_st;
  match qe_default_pub_stream self with
  | Some id => ok id
  | None =>
      id ←? open_bidi_stream_with_role RoleDefaultPub;
      modify (λ self, self <| qe_default_pub_stream := Some id |>);;
      ok id
  end.

Definition ensure_default_sub_stream : M (MqttClientError + Z) :=
  self ← get_st;
  match qe_default_sub_stream self with
  | Some id => ok id
  | None =>
      id ←? open_bidi_stream_with_role RoleDefaultSub;
      modify (λ self, self <| qe_default_sub_stream := Some id |>);;
      ok id
  end.

Definition carries_priority (streams : gmap Z QuicStream) (priority id : Z) : bool :=
  match streams !! id with
  | Some ds => bool_decide (qs_publish_priority ds = Some priority) && negb (stream_ended ds)
  | None => false
  end.

Definition ensure_priority_pub_stream (priority : Z) : M (MqttClientError + Z) :=
  if priority =? 128 then ensure_default_pub_stream else
  self ← get_st;
  match List.find (carries_priority (qe_data_streams self) priority)
          (iter_streams (qe_data_streams self)) with
  | Some id => ok id
  | None => open_bidi_stream_with_role (RolePriorityPub priority)
  end.

(** ** Commands *)

(** What the commands for a data stream share once the stream is known. *)
Definition send_encoded {A} (stream_id : Z)
    (encode : option Z → T → St (MqttEngine T) (MqttClientError + (A * bytes)))
    : M (MqttClientError + A) :=
  self ← get_st;
  _ ←? try (ensure_stream_capacity self stream_id);
  '(pid, b) ←? at_instant (encode (Some stream_id));
  _ ←? enqueue_on_stream stream_id b;
  ok pid.

Definition quic_publish (command : PublishCommand) : M (MqttClientError + option Z) :=
  self ← get_st;
  _ ←? try (ensure_command_allowed_before_mqtt_connected self);
  _ ←? try (preflight_publish self command);
  stream_id ←? ensure_priority_pub_stream (pc_priority command);
  send_encoded stream_id (publish_encoded command).

Definition quic_publish_on (stream : Z) (command : PublishCommand)
    : M (MqttClientError + option Z) :=
  self ← get_st;
  _ ←? try (ensure_command_allowed_before_mqtt_connected self);
  _ ←? try (preflight_publish self command);
  stream_id ←? try (resolve_stream self stream);
  send_encoded stream_id (publish_encoded command).

Definition quic_subscribe (command : SubscribeCommand) : M (MqttClientError + Z) :=
  self ← get_st;
  _ ←? try (ensure_command_allowed_before_mqtt_connected self);
  _ ←? try (preflight_subscribe self command);
  stream_id ←? ensure_default_sub_stream;
  send_encoded stream_id (subscribe_encoded command).

Definition quic_subscribe_on (stream : Z) (command : SubscribeCommand) : M (MqttClientError + Z) :=
  self ← get_st;
  _ ←? try (ensure_command_allowed_before_mqtt_connected self);
  _ ←? try (preflight_subscribe self command);
  stream_id ←? try (resolve_stream self stream);
  send_encoded stream_id (subscribe_encoded command).

Definition quic_unsubscribe (command : UnsubscribeCommand) : M (MqttClientError + Z) :=
  self ← get_st;
  _ ←? try (ensure_command_allowed_before_mqtt_connected self);
  _ ←? try (preflight_unsubscribe self command);
  stream_id ←? ensure_default_sub_stream;
  send_encoded stream_id (unsubscribe_encoded command).

Definition quic_unsubscribe_on (stream : Z) (command : UnsubscribeCommand)
    : M (MqttClientError + Z) :=
  self ← get_st;
  _ ←? try (ensure_command_allowed_before_mqtt_connected self);
  _ ←? try (preflight_unsubscribe self command);
  stream_id ←? try (resolve_stream self stream);
  send_encoded stream_id (unsubscribe_encoded command).

Definition control_ended self : bool := qe_control_finishing self || qe_control_finished self.

Definition subscribe_on_control (command : SubscribeCommand) : M (MqttClientError + Z) :=
  self ← get_st;
  _ ←? try (ensure_command_allowed_before_mqtt_connected self);
  if control_ended self then err stream_finished_error else at_instant (subscribe command).

Definition unsubscribe_on_control (command : UnsubscribeCommand) : M (MqttClientError + Z) :=
  self ← get_st;
  _ ←? try (ensure_command_allowed_before_mqtt_connected self);
  if control_ended self then err stream_finished_error else at_instant (unsubscribe command).

(** ** Closing *)
Definition quic_close (error_code : Z) (reason : bytes) : M (MqttClientError + ()) :=
  code ←? try (quic_error_code error_code);
  modify (λ self, self <| qe_pending_close := None |>);;
  self ← get_st;
  conn ←? try (require_connection self);
  modify (λ self, self <| qe_readings ::= S |>);;
  set_connection (connection_close (instant_now (qe_readings self)) code reason conn);;
  at_instant handle_connection_lost;;
  ok ().

Definition disconnect_and_close_with (reason_code : Z) (properties : list Property)
    (error_code : Z) (reason : bytes) : M (MqttClientError + ()) :=
  code ←? try (quic_error_code error_code);
  self ← get_st;
  _ ←? try (require_connection self);
  _ ←? at_instant (try_disconnect_with reason_code properties);
  modify (λ self, self <| qe_pending_close := Some (code, reason) |>);;
  ok ().
Definition disconnect_and_close (error_code : Z) (reason : bytes) : M (MqttClientError + ()) :=
  disconnect_and_close_with 0 [] error_code reason.

Definition disconnect_complete self : bool :=
  bool_decide (qe_pending_close self = None)
  && match qe_connection self with Some conn => connection_is_closed conn | None => true end.

Definition finish_stream (stream : Z) : M (MqttClientError + ()) :=
  self ← get_st;
  stream_id ←? try (resolve_any_stream self stream);
  _ ←? try (require_connection self);
  (if bool_decide (Some stream_id = qe_control_stream self) then
     pending ← at_instant take_outgoing;
     append_control_outgoing_bytes pending 0;;
     at_instant handle_connection_lost;;
     modify (λ self, self <| qe_control_finishing := true |>)
   else on_stream stream_id (λ ds, ds <| qs_finishing := true |>));;
  ok ().

Definition reset_stream (stream error_code : Z) : M (MqttClientError + ()) :=
  self ← get_st;
  stream_id ←? try (resolve_any_stream self stream);
  code ←? try (quic_error_code error_code);
  (if bool_decide (Some stream_id = qe_control_stream self) then
     modify (λ self, self <| qe_control_outgoing := [] |> <| qe_control_finishing := false |>
                          <| qe_control_finished := true |>);;
     at_instant handle_connection_lost
   else
     on_stream stream_id (λ ds, ds <| qs_outgoing := [] |> <| qs_pending_packets := 0 |>
                                   <| qs_finishing := false |> <| qs_finished := true |>));;
  self ← get_st;
  conn ←? try (require_connection self);
  let '(r, conn) := stream_reset stream_id code conn in
  set_connection conn;;
  try (transport_result "QUIC stream reset failed: " r).

Definition stop_stream (stream error_code : Z) : M (MqttClientError + ()) :=
  self ← get_st;
  stream_id ←? try (resolve_any_stream self stream);
  code ←? try (quic_error_code error_code);
  conn ←? try (require_connection self);
  let '(r, conn) := stream_stop stream_id code conn in
  set_connection conn;;
  try (transport_result "QUIC stream stop failed: " r).

Definition mqtt_ping : M (MqttClientError + ()) :=
  self ← get_st;
  if control_ended self then err stream_finished_error else
  if negb (quic_is_connected self)
  then err (InvalidState "a connected MQTT session" "not connected") else
  at_instant try_send_ping.

Definition quic_ping : M (MqttClientError + ()) :=
  self ← get_st;
  conn ←? try (require_connection self);
  set_connection (connection_ping conn);; ok ().

Definition quic_disconnect : M (MqttClientError + ()) := at_instant disconnect.

(** ** The escape hatch *)
Definition send_raw_on (stream : Z) (b : bytes) : M (MqttClientError + ()) :=
  self ← get_st;
  if bool_decide (Some stream = qe_control_stream self) then
    if control_ended self then err stream_finished_error else
    append_control_outgoing_bytes b 0;; ok ()
  else
    stream_id ←? try (resolve_stream self stream);
    match qe_data_streams self !! stream_id with
    | Some ds =>
        if stream_ended ds then err stream_finished_error else
        on_stream stream_id (λ ds, ds <| qs_outgoing ::= λ l, l ++ b |>);;
        (if attempting self
         then on_journal (λ j, journal_stream_bytes j stream_id b 0) else mret ());;
        ok ()
    | None => ok ()
    end.

Definition send_packet_on (stream : Z) (packet : MqttPacket) : M (MqttClientError + ()) :=
  b ←? try (map_parse_error (MqttPacket_to_bytes packet));
  send_raw_on stream b.

(** The identifier, packet type, reason code and properties of a receive acknowledgement. *)
Definition receive_ack_fields (packet : MqttPacket)
    : result MqttClientError (Z * Z * Z * list Property) :=
  match packet with
  | PubAck5 p => Ok (a5_packet_id p, 4, a5_reason_code p, a5_properties p)
  | PubRec5 p => Ok (a5_packet_id p, 5, a5_reason_code p, a5_properties p)
  | PubComp5 p => Ok (a5_packet_id p, 7, a5_reason_code p, a5_properties p)
  | PubAck3 p => Ok (a3_message_id p, 4, 0, [])
  | PubRec3 p => Ok (a3_message_id p, 5, 0, [])
  | PubComp3 p => Ok (a3_message_id p, 7, 0, [])
  | _ => Err (ProtocolViolation "Expected a receive acknowledgement")
  end.

Definition acknowledge_on (stream : Z) (packet : MqttPacket) : M (MqttClientError + ()) :=
  self ← get_st;
  '(id, kind, reason, properties) ←? try (receive_ack_fields packet);
  let control := bool_decide (Some stream = qe_control_stream self) in
  let channel := if control then None else Some stream in
  packet ←? try (manual_ack_packet (qe_mqtt_engine self) id kind reason properties channel);
  _ ←? (if control then
          if control_ended self then err stream_finished_error
          else at_instant (enqueue_packet packet)
        else
          stream_id ←? try (resolve_stream self stream);
          _ ←? try (ensure_stream_capacity self stream_id);
          b ←? try (map_parse_error (MqttPacket_to_bytes packet));
          _ ←? try (check_packet_size (qe_mqtt_engine self) b);
          enqueue_on_stream stream_id b);
  on_mqtt (commit_receive_ack id kind reason channel);;
  ok ().

Definition ack_packet self (v5 : PacketIdAck5 → MqttPacket) (v3 : PacketIdAck3 → MqttPacket)
    (packet_id : Z) : MqttPacket :=
  if MqttEngine_mqtt_version (qe_mqtt_engine self) =? 5
  then v5 {| a5_packet_id := packet_id; a5_reason_code := 0; a5_properties := [] |}
  else v3 {| a3_message_id := packet_id |}.
Definition puback_on (stream packet_id : Z) : M (MqttClientError + ()) :=
  self ← get_st; send_packet_on stream (ack_packet self PubAck5 PubAck3 packet_id).
Definition pubrec_on (stream packet_id : Z) : M (MqttClientError + ()) :=
  self ← get_st; send_packet_on stream (ack_packet self PubRec5 PubRec3 packet_id).
Definition pubrel_on (stream packet_id : Z) : M (MqttClientError + ()) :=
  self ← get_st; send_packet_on stream (ack_packet self PubRel5 PubRel3 packet_id).
Definition pubcomp_on (stream packet_id : Z) : M (MqttClientError + ()) :=
  self ← get_st; send_packet_on stream (ack_packet self PubComp5 PubComp3 packet_id).
End QuicEngine.
