(* ===== verification/QuicTick.v ===== *)
(** * The tick of the MQTT-over-QUIC engine

    Models [handle_tick] of [QuicMqttEngine] and what only it calls: the events of the QUIC
    connection (streams closed, stopped and reset, the handshake with the outcome of 0-RTT, the
    loss of the connection), reading the control stream and the data streams with their
    back-pressure, flushing the send buffers, and the session work routed onto data streams. *)
From S2P Require Import Prelude BaseData TopicFilter Validation Properties Packets Framing Codec.
From S2P Require Import Stream Leveled Time PriorityQueue ClientError Options ClientTypes.
From S2P Require Import Commands Inflight ClientSession EngineState EngineCore EngineProtocol.
From S2P Require Import Engine EngineHost QuicState QuicEngine.

Section QuicTick.
Context {T : Type} `{TimePoint T, !Runtime T, !Quic T, !QuicHost T}.
Implicit Types (self q : QuicMqttEngine T) (now : T).
Local Abbreviation M := (St (QuicMqttEngine T)).
Local Abbreviation MT := (St (Tick T)).

(** ** The tick's parts *)
Definition on_self {A} (m : M A) : MT A := λ t,
  match m (tk_self t) with
  | Ok (a, self) => Ok (a, t <| tk_self := self |>)
  | Err e => Err e
  | Panic => Panic
  end.
Definition on_conn {A} (f : Connection → A * Connection) : MT A := λ t,
  let '(a, conn) := f (tk_conn t) in Ok (a, t <| tk_conn := conn |>).
Definition do_conn (f : Connection → Connection) : MT () := on_conn (λ c, ((), f c)).
Definition on_fields (f : QuicMqttEngine T → QuicMqttEngine T) : MT () := on_self (modify f).
Definition push_tick_event (event : MqttEvent) : MT () :=
  modify (λ t, t <| tk_events ::= λ l, l ++ [event] |>).
Definition extend_tick_events (events : list MqttEvent) : MT () :=
  modify (λ t, t <| tk_events ::= λ l, l ++ events |>).
(** [mqtt_events.extend(self.mqtt_engine.take_events())] *)
Definition drain_mqtt_events : MT () :=
  events ← on_self (on_mqtt take_events); extend_tick_events events.

(** ** Streams that end *)
Definition clear_data_stream_refs (stream_id : Z) : MT () :=
  on_fields (λ self,
    self <| qe_data_streams ::= delete stream_id |>
         <| qe_default_pub_stream ::= λ d, if bool_decide (d = Some stream_id) then None else d |>
         <| qe_default_sub_stream ::= λ d, if bool_decide (d = Some stream_id) then None else d |>).

Definition handle_control_stream_terminal : MT () :=
  on_fields (λ self, self <| qe_control_stream := None |> <| qe_control_outgoing := [] |>
                          <| qe_control_finishing := false |> <| qe_control_finished := true |>);;
  on_self (at_instant handle_connection_lost);;
  push_tick_event (Disconnected None).

(** [handle_stream_stopped] and [handle_stream_reset], up to the event they report. *)
Definition handle_stream_ended (event : MqttEvent) (stream_id : Z) : MT () :=
  t ← get_st;
  if bool_decide (Some stream_id = qe_control_stream (tk_self t)) then
    push_tick_event event;; handle_control_stream_terminal
  else if bool_decide (is_Some (qe_data_streams (tk_self t) !! stream_id)) then
    push_tick_event event;; clear_data_stream_refs stream_id
  else mret ().
Definition handle_stream_stopped (stream_id error_code : Z) : MT () :=
  handle_stream_ended (StreamStopped stream_id error_code) stream_id.
Definition handle_stream_reset (stream_id error_code : Z) : MT () :=
  handle_stream_ended (StreamReset stream_id error_code) stream_id.

Definition handle_stream_closed (stream_id : Z) (reason : string) (by_peer : bool) : MT () :=
  t ← get_st;
  if bool_decide (Some stream_id = qe_control_stream (tk_self t)) then
    push_tick_event (StreamClosed stream_id reason by_peer);;
    if by_peer then handle_control_stream_terminal else mret ()
  else if bool_decide (is_Some (qe_data_streams (tk_self t) !! stream_id)) then
    push_tick_event (StreamClosed stream_id reason by_peer);;
    on_self (on_stream stream_id (λ ds,
      if by_peer then ds <| qs_recv_closed := true |> else ds <| qs_finished := true |>))
  else mret ().

(** ** Replaying rejected early data *)
Definition replay_stream (options : MqttClientOptions) (level : ParseLevel)
    (journal : EarlyStreamJournal) : QuicStream :=
  let stream := QuicStream_with_outgoing (mo_parser_buffer_size options) (mo_mqtt_version options)
                  (mo_max_outgoing_packet_count options) (ej_bytes journal) (ej_packet_count journal) in
  let stream := stream <| qs_parser ::= λ p, MqttParser_set_parse_level p level |>
                       <| qs_priority := ej_priority journal |> in
  match ej_role journal with
  | RolePriorityPub priority => stream <| qs_publish_priority := Some priority |>
  | _ => stream
  end.

Definition replay_journal (options : MqttClientOptions) (level : ParseLevel) (stream_id : Z)
    (journal : EarlyStreamJournal) self : QuicMqttEngine T :=
  match ej_role journal with
  | RoleControl =>
      self <| qe_control_stream := Some stream_id |>
           <| qe_control_outgoing ::= λ l, l ++ ej_bytes journal |>
  | role =>
      let self := self <| qe_data_streams ::=
                    <[stream_id := replay_stream options level journal]> |> in
      match role with
      | RoleDefaultPub => self <| qe_default_pub_stream := Some stream_id |>
      | RoleDefaultSub => self <| qe_default_sub_stream := Some stream_id |>
      | _ => self
      end
  end.

Fixpoint replay_early_stream_journals (options : MqttClientOptions) (level : ParseLevel)
    (journals : list EarlyStreamJournal) : MT () :=
  match journals with
  | [] => mret ()
  | journal :: journals =>
      opened ← on_conn streams_open;
      match opened with
      | None =>
          push_tick_event (ErrorEvent (InternalClientError
            "QUIC stream limit reached while replaying rejected 0-RTT data"))
      | Some stream_id =>
          (if negb (stream_id =? ej_original_stream_id journal) then
             push_tick_event (ErrorEvent (InternalClientError
               ("0-RTT replay stream id changed from "
                +:+ fmt_dec (ej_original_stream_id journal)
                +:+ " to " +:+ fmt_dec stream_id)))
           else mret ());;
          on_fields (replay_journal options level stream_id journal);;
          replay_early_stream_journals options level journals
      end
  end.

(** ** 1. Events of the connection *)
Definition handle_zero_rtt_outcome (options : MqttClientOptions) (level : ParseLevel) : MT () :=
  t ← get_st;
  if connection_accepted_0rtt (tk_conn t) then
    on_fields (λ self, self <| qe_zero_rtt_status := Accepted |>
                            <| qe_early_stream_journal := [] |>);;
    push_tick_event (ZeroRttStatusChanged Accepted)
  else
    on_fields (λ self, self <| qe_zero_rtt_status := Rejected |>);;
    push_tick_event (ZeroRttStatusChanged Rejected);;
    t ← get_st;
    let replay_on_reject :=
      from_option zc_replay_on_reject false (qe_zero_rtt_config (tk_self t)) in
    let journals := qe_early_stream_journal (tk_self t) in
    on_fields (λ self, self <| qe_early_stream_journal := [] |>);;
    on_self clear_streams;;
    if replay_on_reject then replay_early_stream_journals options level journals else mret ().

Definition handle_connected (options : MqttClientOptions) (level : ParseLevel) : MT () :=
  t ← get_st;
  let zero_rtt_was_attempted := attempting (tk_self t) in
  (if zero_rtt_was_attempted then handle_zero_rtt_outcome options level else mret ());;
  t ← get_st;
  if bool_decide (qe_control_stream (tk_self t) = None) && negb zero_rtt_was_attempted then
    opened ← on_conn streams_open;
    match opened with
    | Some stream_id =>
        on_fields (λ self, self <| qe_control_stream := Some stream_id |>);;
        r ← on_self (at_instant connect);
        match r with
        | inl error => push_tick_event (ErrorEvent error)
        | inr _ => mret ()
        end
    | None => mret ()
    end
  else mret ().

Definition handle_transport_lost (reason : ConnectionError) : MT () :=
  on_self (at_instant reset_for_new_transport);;
  on_self clear_streams;;
  on_fields (λ self, self <| qe_early_stream_journal := [] |>);;
  let '(by_peer, error_code) := transport_close_details reason in
  push_tick_event (TransportClosed (connection_error_text reason) by_peer error_code);;
  push_tick_event (Disconnected None).

Definition handle_transport_event (options : MqttClientOptions) (level : ParseLevel)
    (event : TransportEvent) : MT () :=
  match event with
  | EvFinished id => handle_stream_closed id "send_finished" false
  | EvStopped id error_code => handle_stream_stopped id error_code
  | EvStreamOther => mret ()
  | EvConnected => handle_connected options level
  | EvConnectionLost reason => handle_transport_lost reason
  | EvOther => mret ()
  end.

Fixpoint poll_events (options : MqttClientOptions) (level : ParseLevel) (fuel : nat) : MT () :=
  match fuel with
  | O => panic
  | S fuel =>
      event ← on_conn connection_poll;
      match event with
      | Some event =>
          handle_transport_event options level event;;
          poll_events options level fuel
      | None => mret ()
      end
  end.

(** ** 2. Streams the server opens *)
Definition new_data_stream (options : MqttClientOptions) (level : ParseLevel) : QuicStream :=
  QuicStream_new (mo_parser_buffer_size options) (mo_mqtt_version options)
    (mo_max_outgoing_packet_count options)
  <| qs_parser ::= λ p, MqttParser_set_parse_level p level |>.

Fixpoint accept_streams (options : MqttClientOptions) (level : ParseLevel) (fuel : nat) : MT () :=
  match fuel with
  | O => panic
  | S fuel =>
      accepted ← on_conn streams_accept;
      match accepted with
      | Some stream_id =>
          on_fields (λ self, self <| qe_data_streams ::= λ streams,
            match streams !! stream_id with
            | Some _ => streams
            | None => <[stream_id := new_data_stream options level]> streams
            end |>);;
          accept_streams options level fuel
      | None => mret ()
      end
  end.

(** ** 3a. The control stream *)

(** Whether the stream ended, and the code of a reset. *)
Fixpoint read_control_chunks (stream_id : Z) (fuel : nat) : MT (bool * option Z) :=
  match fuel with
  | O => panic
  | S fuel =>
      next ← on_conn (chunks_next stream_id);
      match next with
      | RcChunk b =>
          events ← on_self (at_instant (handle_incoming b));
          extend_tick_events events;;
          read_control_chunks stream_id fuel
      | RcFin => mret (true, None)
      | RcReset error_code => mret (false, Some error_code)
      | RcBlocked => mret (false, None)
      end
  end.

(** [if let Ok(mut chunks) = stream.read(true) { .. }] *)
Definition with_chunks (stream_id : Z) (read : nat → MT (bool * option Z))
    : MT (bool * option Z) :=
  readable ← on_conn (stream_read stream_id);
  if (readable : bool) then
    t ← get_st;
    r ← read (S (chunks_left stream_id (tk_conn t)));
    do_conn (chunks_drop stream_id);;
    mret r
  else mret (false, None).

Definition read_control_stream : MT () :=
  t ← get_st;
  match qe_control_stream (tk_self t) with
  | Some stream_id =>
      reset_code ← on_conn (stream_received_reset stream_id);
      match reset_code with
      | Some error_code => handle_stream_reset stream_id error_code
      | None => mret ()
      end
  | None => mret ()
  end;;
  t ← get_st;
  match qe_control_stream (tk_self t) with
  | Some stream_id =>
      '(recv_finished, read_reset) ← with_chunks stream_id (read_control_chunks stream_id);
      match read_reset with
      | Some error_code => handle_stream_reset stream_id error_code
      | None => if (recv_finished : bool) then handle_stream_closed stream_id "recv_finished" true else mret ()
      end
  | None => mret ()
  end.

(** ** 3b. The data streams *)
Definition stream_unread (ds : QuicStream) : res bytes := MqttParser_buffer (qs_parser ds).

(** The configured limit on undecoded bytes, when one more chunk would exceed it. *)
Definition input_overflow (options : MqttClientOptions) (buffer b : bytes) : option Z :=
  match mo_max_incoming_buffer_bytes options with
  | Some limit => if limit <? usize_saturating_add (zlen buffer) (zlen b) then Some limit else None
  | None => None
  end.

Fixpoint read_data_chunks (stream_id : Z) (fuel : nat) : MT (bool * option Z) :=
  match fuel with
  | O => panic
  | S fuel =>
      next ← on_conn (chunks_next stream_id);
      match next with
      | RcChunk b =>
          t ← get_st;
          match qe_data_streams (tk_self t) !! stream_id with
          | Some ds =>
              buffer ← expect (stream_unread ds);
              match input_overflow (me_options (qe_mqtt_engine (tk_self t))) buffer b with
              | Some limit =>
                  on_self (on_mqtt (fail_connection (BufferFull "QUIC incoming bytes" limit)));;
                  drain_mqtt_events;;
                  on_self (on_stream stream_id (λ ds, ds <| qs_recv_closed := true |>));;
                  mret (false, None)
              | None =>
                  parser ← expect (MqttParser_feed (qs_parser ds) b);
                  on_self (on_stream stream_id (λ ds, ds <| qs_parser := parser |>));;
                  read_data_chunks stream_id fuel
              end
          | None => read_data_chunks stream_id fuel
          end
      | RcFin => mret (true, None)
      | RcReset error_code => mret (false, Some error_code)
      | RcBlocked => mret (false, None)
      end
  end.

(** A packet whose processing answers it: PUBREC, PUBREL, or a PUBLISH with QoS 1 or 2 that is
    acknowledged by the engine. *)
Definition needs_response (options : MqttClientOptions) (byte : Z) : bool :=
  let kind := Z.shiftr byte 4 in
  (kind =? 5) || (kind =? 6)
  || ((kind =? 3) && negb (Z.land byte 6 =? 0) && mo_auto_ack options).

Definition response_capacity_full self (buffer : bytes) : bool :=
  let engine := qe_mqtt_engine self in
  match mo_max_outgoing_buffer_bytes (me_options engine) with
  | Some capacity =>
      from_option (needs_response (me_options engine)) false (head buffer)
      && (capacity <? usize_saturating_add
                        (outgoing_bytes engine + streams_len (qe_data_streams self)) 6)
  | None => false
  end.

(** A response goes back on the stream, unless its send side has ended. *)
Definition answered (resp : bytes) (ds : QuicStream) : QuicStream :=
  if negb (qs_finished ds)
  then ds <| qs_outgoing ::= λ l, l ++ resp |> <| qs_pending_packets ::= λ n, n + 1 |> else ds.

(** The loop of [drain_data_stream]. *)
Fixpoint drain_data_stream_loop (stream_id : Z) (fuel : nat) : MT () :=
  match fuel with
  | O => panic
  | S fuel =>
      t ← get_st;
      let self := tk_self t in
      let options := me_options (qe_mqtt_engine self) in
      let stream := qe_data_streams self !! stream_id in
      if ps_input_closed (me_state (qe_mqtt_engine self)) then
        match stream with
        | Some ds =>
            parser ← expect (MqttParser_buffer_mut (qs_parser ds));
            on_self (on_stream stream_id (λ ds, ds <| qs_parser := with_buffer parser [] 0 |>))
        | None => mret ()
        end
      else if mo_max_event_count options <=? zlen (tk_events t) then mret () else
      buffer ← match stream with
               | Some ds => expect (stream_unread ds)
               | None => mret []
               end;
      valid ← match stream with
              | Some _ => try (validate_input_buffer options buffer)
              | None => ok ()
              end;
      match valid with
      | inl error =>
          on_self (on_mqtt (fail_connection error));;
          drain_mqtt_events;;
          on_self (on_stream stream_id (λ ds, ds <| qs_recv_closed := true |>))
      | inr _ =>
          if ps_connecting (me_state (qe_mqtt_engine self)) then mret () else
          if response_capacity_full self buffer then mret () else
          match stream with
          | Some ds =>
              if negb (qs_finished ds) && (qs_pending_packets ds <? qs_max_packets ds) then
                let '(r, parser) := MqttParser_next_parsed (qs_parser ds) in
                on_self (on_stream stream_id (λ ds, ds <| qs_parser := parser |>));;
                r ← try r;
                match r with
                | inr (Some packet) =>
                    '(events, resp) ← on_self (on_mqtt
                      (ingest_parsed_stream_packet_into packet stream_id (tk_events t)));
                    modify (λ t, t <| tk_events := events |>);;
                    (if negb (bool_decide (resp = [])) then
                       on_self (on_stream stream_id (answered resp))
                     else mret ());;
                    drain_data_stream_loop stream_id fuel
                | inr None => mret ()
                | inl error => push_tick_event (ErrorEvent (from_parse_error error))
                end
              else mret ()
          | None => mret ()
          end
      end
  end.

Definition drain_data_stream (stream_id : Z) : MT () :=
  t ← get_st;
  drain_data_stream_loop stream_id
    (S (S (from_option (λ ds, length (mp_buffer (qs_parser ds))) 0%nat
             (qe_data_streams (tk_self t) !! stream_id)))).

(** Reading one stream's bytes into its parser; the result says whether to go on to its packets. *)
Definition read_data_stream (stream_id : Z) (ds : QuicStream) : MT bool :=
  if qs_recv_closed ds then mret true else
  '(recv_finished, read_reset) ← with_chunks stream_id (read_data_chunks stream_id);
  match read_reset with
  | Some error_code => handle_stream_reset stream_id error_code;; mret false
  | None =>
      (if (recv_finished : bool) then handle_stream_closed stream_id "recv_finished" true else mret ());;
      mret true
  end.

Fixpoint read_data_streams (max_event_count : Z) (data_ids : list Z) : MT () :=
  match data_ids with
  | [] => mret ()
  | stream_id :: data_ids =>
      t ← get_st;
      let state := me_state (qe_mqtt_engine (tk_self t)) in
      if ps_input_closed state then mret () else
      if negb (bool_decide (is_Some (qe_data_streams (tk_self t) !! stream_id)))
      then read_data_streams max_event_count data_ids else
      if ps_connecting state then read_data_streams max_event_count data_ids else
      if max_event_count <=? zlen (tk_events t) then mret () else
      reset_code ← on_conn (stream_received_reset stream_id);
      match reset_code with
      | Some error_code =>
          handle_stream_reset stream_id error_code;;
          read_data_streams max_event_count data_ids
      | None =>
          t ← get_st;
          match qe_data_streams (tk_self t) !! stream_id with
          | Some ds =>
              if stream_full ds then read_data_streams max_event_count data_ids else
              continue ← read_data_stream stream_id ds;
              (if (continue : bool) then drain_data_stream stream_id else mret ());;
              read_data_streams max_event_count data_ids
          | None => read_data_streams max_event_count data_ids
          end
      end
  end.

(** ** 4. Flushing *)
Definition i32_MAX : Z := 2147483647.

(** [buffer.drain(..written)] *)
Definition drain_written (buffer : bytes) (written : option Z) : panics bytes :=
  match written with
  | Some n => if zlen buffer <? n then Panic else Ok (drop (Z.to_nat n) buffer)
  | None => Ok buffer
  end.

Definition flush_control : MT () :=
  t ← get_st;
  (if negb (qe_control_finishing (tk_self t)) && negb (qe_control_finished (tk_self t)) then
     session_bytes ← on_self (at_instant take_outgoing);
     on_self (append_control_outgoing_bytes session_bytes 0)
   else mret ());;
  t ← get_st;
  match qe_control_stream (tk_self t) with
  | Some stream_id =>
      do_conn (stream_set_priority stream_id i32_MAX);;
      let outgoing := qe_control_outgoing (tk_self t) in
      (if negb (qe_control_finished (tk_self t)) && negb (bool_decide (outgoing = [])) then
         written ← on_conn (stream_write stream_id outgoing);
         rest ← lift (drain_written outgoing written);
         on_fields (λ self, self <| qe_control_outgoing := rest |>)
       else mret ());;
      t ← get_st;
      if qe_control_finishing (tk_self t) && negb (qe_control_finished (tk_self t))
         && bool_decide (qe_control_outgoing (tk_self t) = [])
      then
        do_conn (stream_finish stream_id);;
        on_fields (λ self, self <| qe_control_finishing := false |> <| qe_control_finished := true |>)
      else mret ()
  | None => mret ()
  end.

Definition flush_stream (stream_id : Z) : MT () :=
  t ← get_st;
  ds ← expect (unwrap (E:=Empty_set) (qe_data_streams (tk_self t) !! stream_id));
  do_conn (stream_set_priority stream_id (qs_priority ds));;
  ds ← (if negb (bool_decide (qs_outgoing ds = [])) then
          written ← on_conn (stream_write stream_id (qs_outgoing ds));
          rest ← lift (drain_written (qs_outgoing ds) written);
          let ds := ds <| qs_outgoing := rest |> in
          mret (if bool_decide (rest = []) then ds <| qs_pending_packets := 0 |> else ds)
        else mret ds);
  ds ← (if qs_finishing ds && negb (qs_finished ds) && bool_decide (qs_outgoing ds = []) then
          do_conn (stream_finish stream_id);;
          mret (ds <| qs_finishing := false |> <| qs_finished := true |>)
        else mret ds);
  on_self (on_stream stream_id (λ _, ds)).

Definition flush_streams : MT () :=
  t ← get_st; for_each_st (stream_send_order (qe_data_streams (tk_self t))) flush_stream.

(** ** 5. and 6. Datagrams and the deferred close *)
Fixpoint collect_datagrams now (fuel : nat) : MT () :=
  match fuel with
  | O => panic
  | S fuel =>
      transmit ← on_conn (connection_poll_transmit now);
      match transmit with
      | Some datagram =>
          on_fields (λ self, self <| qe_outgoing_datagrams ::= λ l, l ++ [datagram] |>);;
          collect_datagrams now fuel
      | None => mret ()
      end
  end.
Definition collect_all_datagrams now : MT () :=
  t ← get_st; collect_datagrams now (S (transmits_left now (tk_conn t))).

Definition apply_pending_close now : MT () :=
  t ← get_st;
  match qe_pending_close (tk_self t) with
  | Some (code, reason) =>
      if bool_decide (qe_control_outgoing (tk_self t) = []) then
        on_fields (λ self, self <| qe_pending_close := None |>);;
        do_conn (connection_close now code reason);;
        on_self (at_instant handle_connection_lost);;
        collect_all_datagrams now
      else mret ()
  | None => mret ()
  end.

(** ** The connection's part of the tick *)
Definition drive_connection now : MT () :=
  t ← get_st;
  let options := me_options (qe_mqtt_engine (tk_self t)) in
  let level := quic_parse_level (tk_self t) in
  do_conn (connection_handle_timeout now);;
  t ← get_st;
  poll_events options level (S (events_left (tk_conn t)));;
  t ← get_st;
  accept_streams options level (S (incoming_left (tk_conn t)));;
  read_control_stream;;
  t ← get_st;
  read_data_streams (mo_max_event_count (me_options (qe_mqtt_engine (tk_self t))))
    (iter_streams (qe_data_streams (tk_self t)));;
  flush_control;;
  flush_streams;;
  collect_all_datagrams now;;
  apply_pending_close now.

(** [if let Some(conn) = &mut self.connection { .. }] around a body that appends to the events. *)
Definition with_connection (events : list MqttEvent) (body : MT ()) : M (list MqttEvent) := λ self,
  match qe_connection self with
  | None => Ok (events, self)
  | Some conn =>
      match body {| tk_self := self; tk_conn := conn; tk_events := events |} with
      | Ok (_, t) => Ok (tk_events t, tk_self t <| qe_connection := Some (tk_conn t) |>)
      | Err e => Err e
      | Panic => Panic
      end
  end.

(** ** Session work *)

(** [mqtt_engine.fail_operation(..)] for a packet that cannot be sent, with the checks of an
    encoded replay. *)
Definition replay_encoding self (packet : MqttPacket) : result MqttClientError bytes :=
  b ← map_parse_error (MqttPacket_to_bytes packet);
  _ ← validate_packet_capabilities (qe_mqtt_engine self) packet;
  _ ← check_packet_size (qe_mqtt_engine self) b;
  Ok b.

Definition pop_session_replay : St (MqttEngine T) () :=
  modify (λ e, e <| me_session_replay ::= tail |>).

Fixpoint route_replay (fuel : nat) : M (MqttClientError + ()) :=
  match fuel with
  | O => panic
  | S fuel =>
      self ← get_st;
      match me_session_replay (qe_mqtt_engine self) with
      | [] => ok ()
      | (packet_id, packet) :: _ =>
          encoded ← try (replay_encoding self packet);
          match encoded with
          | inl error =>
              on_mqtt pop_session_replay;;
              on_mqtt (fail_operation packet_id packet error);;
              route_replay fuel
          | inr b =>
              if is_publish packet
                 && negb (InflightQueue_can_push_publish (me_inflight_queue (qe_mqtt_engine self)))
              then ok () else
              stream ←? ensure_default_pub_stream;
              self ← get_st;
              _ ←? try (ensure_stream_capacity self stream);
              _ ←? enqueue_on_stream stream b;
              self ← get_st;
              queue ←? try (InflightQueue_push_with_stream_at
                              (me_inflight_queue (qe_mqtt_engine self)) packet_id packet
                              (replay_qos packet) (Some stream) (me_now (qe_mqtt_engine self)));
              on_mqtt (modify (λ e, e <| me_inflight_queue := queue |>));;
              on_mqtt (start_deadline OpPublish (Some packet_id));;
              on_mqtt pop_session_replay;;
              route_replay fuel
          end
      end
  end.

Definition route_session_work : M (MqttClientError + ()) :=
  self ← get_st;
  _ ←? (if me_configured_subscriptions_pending (qe_mqtt_engine self) then
          _ ←? quic_subscribe (SubscribeCommand_new None
                 (mo_subscription_topics (me_options (qe_mqtt_engine self))) []);
          on_mqtt (modify (λ e, e <| me_configured_subscriptions_pending := false |>));;
          ok ()
        else ok ());
  self ← get_st;
  route_replay (S (length (me_session_replay (qe_mqtt_engine self)))).

(** [if let Err(error) = self.route_session_work()]: a full buffer is retried on a later tick. *)
Definition route_session_events : M (list MqttEvent) :=
  self ← get_st;
  if quic_is_connected self then
    r ← route_session_work;
    mret match r with
         | inl (BufferFull _ _) => []
         | inl error => [ErrorEvent error]
         | inr _ => []
         end
  else mret [].

(** Retransmissions go back to their stream, as far as it has room. *)
Definition route_retransmission (retransmission : Z * bytes) : M () :=
  let '(stream, b) := retransmission in
  self ← get_st;
  match qe_data_streams self !! stream with
  | Some _ => enqueue_on_stream stream b;; mret ()
  | None => mret ()
  end.

(** ** [handle_tick] *)
Definition quic_handle_tick now : M (list MqttEvent) :=
  self ← get_st;
  let now := ord_max now (me_now (qe_mqtt_engine self)) in
  r ← on_mqtt (begin_update now);
  match r with
  | inl error => mret [ErrorEvent error]
  | inr _ =>
      self ← get_st;
      modify (λ self, self <| qe_pending_transport_events := [] |>);;
      events ← with_connection (qe_pending_transport_events self) (drive_connection now);
      session_events ← route_session_events;
      self ← get_st;
      tick_events ← on_mqtt (handle_tick (ord_max now (me_now (qe_mqtt_engine self))));
      retransmissions ← on_mqtt take_stream_retransmissions;
      for_each_st retransmissions route_retransmission;;
      mret (events ++ session_events ++ tick_events)
  end.
End QuicTick.
