(* ===== verification/QuicScript.v ===== *)
(** * A scripted QUIC transport

    A concrete instance of [Quic] and [QuicHost] on the virtual clock: a connection is the lists
    of what it will report (events, streams to open and accept, chunks to read), how many bytes a
    write accepts, and a log of what the engine did to it.  It satisfies [QuicLaws], so the
    hypotheses of the theorems on the QUIC engine can hold, and the examples run on it. *)
From S2P Require Import Prelude BaseData Time ClientError EngineState QuicState.

Inductive LogEntry : Type :=
  | LogWrite (id : Z) (b : bytes)
  | LogFinish (id : Z)
  | LogReset (id code : Z)
  | LogStop (id code : Z)
  | LogClose (code : Z) (reason : bytes)
  | LogPing.

(** The events ready at a time, at most eight. *)
Record EventQueue : Type := {
  eq_list : list TransportEvent;
  eq_bound : Nat.leb (length eq_list) 8 = true;
}.
Lemma event_queue_bound (l : list TransportEvent) : Nat.leb (length (take 8 l)) 8 = true.
Proof. apply Nat.leb_le. rewrite length_take. lia. Qed.
Definition event_queue (l : list TransportEvent) : EventQueue :=
  {| eq_list := take 8 l; eq_bound := event_queue_bound l |}.

Record Script : Type := {
  sn_events : EventQueue;
  sn_opens : list Z;
  sn_accepts : list Z;
  sn_chunks : gmap Z (list ReadChunk);
  sn_window : Z;
  sn_log : list LogEntry;
  sn_transmits : list (Z * bytes);
  sn_has_0rtt : bool;
  sn_accepted_0rtt : bool;
}.

#[export] Instance Rebuild_Script : Rebuild Script := λ s, {|
  sn_events := sn_events s; sn_opens := sn_opens s; sn_accepts := sn_accepts s;
  sn_chunks := sn_chunks s; sn_window := sn_window s; sn_log := sn_log s;
  sn_transmits := sn_transmits s; sn_has_0rtt := sn_has_0rtt s;
  sn_accepted_0rtt := sn_accepted_0rtt s;
|}.

(** The endpoint hands out its connections in order; what arrives adds events and chunks. *)
Record ScriptEndpoint : Type := {
  se_connections : list Script;
  se_arrivals : list (list TransportEvent * gmap Z (list ReadChunk));
}.

Section script.
Implicit Types (c : Script).

Definition script_log (entry : LogEntry) c : Script := c <| sn_log ::= λ l, l ++ [entry] |>.

Definition script_poll c : option TransportEvent * Script :=
  match eq_list (sn_events c) with
  | event :: events => (Some event, c <| sn_events := event_queue events |>)
  | [] => (None, c)
  end.
Definition script_open c : option Z * Script :=
  match sn_opens c with
  | id :: ids => (Some id, c <| sn_opens := ids |>)
  | [] => (None, c)
  end.
Definition script_accept c : option Z * Script :=
  match sn_accepts c with
  | id :: ids => (Some id, c <| sn_accepts := ids |>)
  | [] => (None, c)
  end.
Definition script_transmit c : option (Z * bytes) * Script :=
  match sn_transmits c with
  | t :: ts => (Some t, c <| sn_transmits := ts |>)
  | [] => (None, c)
  end.
Definition script_next (id : Z) c : ReadChunk * Script :=
  match sn_chunks c !! id with
  | Some (chunk :: chunks) =>
      (match chunk with
       | RcChunk b => if bool_decide (u8s b) then RcChunk b else RcBlocked
       | chunk => chunk
       end, c <| sn_chunks ::= <[id := chunks]> |>)
  | _ => (RcBlocked, c)
  end.
Definition script_write (id : Z) (b : bytes) c : option Z * Script :=
  let n := Z.max 0 (Z.min (sn_window c) (zlen b)) in
  let written := take (Z.to_nat n) b in
  (Some n, script_log (LogWrite id written) c <| sn_transmits ::= λ l, l ++ [(id, written)] |>).
End script.

Definition Quic_script (endpoint : ScriptEndpoint) : Quic Timestamp := {|
  Connection := Script;
  Endpoint := ScriptEndpoint;
  SocketAddr := Z;
  CryptoConfig := list bytes;
  ClientConfig := ();
  ConnectionEvent := list TransportEvent * gmap Z (list ReadChunk);
  crypto_alpn_protocols c := c;
  crypto_set_alpn_protocols l _ := l;
  crypto_enable_early_data c := c;
  crypto_resumption _ c := c;
  quic_client_config _ := inr ();
  idle_timeout_of d := inr d;
  set_transport_config _ c := c;
  endpoint_new := endpoint;
  endpoint_connect _ _ _ _ e :=
    match se_connections e with
    | c :: cs => (inr (0, c), {| se_connections := cs; se_arrivals := se_arrivals e |})
    | [] => (inl "no connection", e)
    end;
  endpoint_handle _ _ _ e :=
    match se_arrivals e with
    | a :: l => (([], Some (DeConnectionEvent 0 a)),
                 {| se_connections := se_connections e; se_arrivals := l |})
    | [] => (([], None), e)
    end;
  connection_handle_event '(events, chunks) c :=
    c <| sn_events ::= λ l, event_queue (eq_list l ++ events) |> <| sn_chunks := chunks |>;
  connection_handle_timeout _ c := c;
  connection_poll := script_poll;
  connection_poll_transmit _ := script_transmit;
  connection_close _ code reason c := script_log (LogClose code reason) c;
  connection_is_closed c := existsb (λ l, match l with LogClose _ _ => true | _ => false end) (sn_log c);
  connection_ping := script_log LogPing;
  connection_local_address_changed c := c;
  connection_has_0rtt := sn_has_0rtt;
  connection_accepted_0rtt := sn_accepted_0rtt;
  connection_error_text _ := "connection lost";
  streams_open := script_open;
  streams_accept := script_accept;
  stream_received_reset _ c := (None, c);
  stream_read id c := (bool_decide (is_Some (sn_chunks c !! id)), c);
  chunks_next := script_next;
  chunks_drop _ c := c;
  stream_set_priority _ _ c := c;
  stream_write := script_write;
  stream_finish id := script_log (LogFinish id);
  stream_reset id code c := (inr (), script_log (LogReset id code) c);
  stream_stop id code c := (inr (), script_log (LogStop id code) c);
  events_left c := length (eq_list (sn_events c));
  incoming_left c := length (sn_accepts c);
  chunks_left id c := length (default [] (sn_chunks c !! id));
  transmits_left _ c := length (sn_transmits c);
|}.

Definition QuicHost_script : QuicHost Timestamp := {|
  instant_now n := Timestamp_from_nanos (Z.of_nat n);
  iter_streams _ m := (map_to_list m).*1;
|}.

Lemma QuicLaws_script endpoint : @QuicLaws Timestamp (Quic_script endpoint) QuicHost_script.
Proof.
  split.
  - done.
  - simpl. unfold script_poll. intros c event c' Hp. destruct (eq_list (sn_events c)) as [|e l] eqn:E; [done|].
    injection Hp as _ <-. change (length (take 8 l) < length (e :: l))%nat.
    rewrite length_take. cbn [length]. lia.
  - simpl. unfold script_open. intros c. by destruct (sn_opens c).
  - simpl. unfold script_accept. intros c id c' Hp. destruct (sn_accepts c) as [|e l] eqn:E; [done|].
    injection Hp as _ <-. simpl. lia.
  - simpl. unfold script_next. intros id c b c' Hp.
    destruct (sn_chunks c !! id) as [[|x l]|] eqn:E; [done| |done]. injection Hp as _ <-. simpl.
    rewrite lookup_insert_eq. simpl. lia.
  - simpl. unfold script_next. intros id c b c' Hp.
    destruct (sn_chunks c !! id) as [[|x l]|] eqn:E; [done| |done]. destruct x; try done.
    case_bool_decide; [|done]. by injection Hp as <- _.
  - simpl. unfold script_transmit. intros now c t c' Hp. destruct (sn_transmits c) as [|e l] eqn:E; [done|].
    injection Hp as _ <-. simpl. lia.
  - simpl. unfold script_write. intros id b c n c' [= <- _]. pose proof (zlen_nonneg b). lia.
Qed.
Lemma script_events_bounded (c : Script) : Z.of_nat (length (eq_list (sn_events c))) <= 8.
Proof. pose proof (proj1 (Nat.leb_le _ _) (eq_bound (sn_events c))). lia. Qed.

(** A connection that has nothing to report. *)
Definition quiet_script : Script := {|
  sn_events := event_queue []; sn_opens := [0; 4; 8; 12; 16]; sn_accepts := []; sn_chunks := ∅;
  sn_window := 1000; sn_log := []; sn_transmits := []; sn_has_0rtt := false;
  sn_accepted_0rtt := false;
|}.

(** An endpoint with one connection: the handshake, a CONNACK on the control stream, a PUBACK on
    the first data stream, a reset of the second, and a malformed packet on the third. *)
Definition sample_endpoint : ScriptEndpoint := {|
  se_connections := [quiet_script; quiet_script];
  se_arrivals :=
    [([EvConnected], ∅);
     ([], {[ 0 := [RcChunk [32; 3; 0]; RcChunk [0; 0]; RcBlocked] ]});
     ([], {[ 4 := [RcChunk [64; 2; 0; 1]; RcBlocked] ]});
     ([EvStopped 8 7], {[ 4 := [RcFin] ]});
     ([EvConnectionLost CeTimedOut], ∅)];
|}.
