(* ===== verification/QuicSafety.v ===== *)
(** * The MQTT-over-QUIC engine never panics

    The invariant of the QUIC engine, that of the protocol engine inside it and that of every
    stream's parser, through every operation and through the tick, for any QUIC connection. *)
From S2P Require Import Prelude BaseData TopicFilter Validation Properties Packets Framing Codec.
From S2P Require Import Stream Leveled Time PriorityQueue ClientError Options ClientTypes.
From S2P Require Import Commands Inflight ClientSession EngineState EngineCore EngineProtocol.
From S2P Require Import Engine EncodeFacts EngineInv EngineSteps EngineQueues EngineHandlers.
From S2P Require Import EngineConnect EngineReceive EngineInput EngineSafety EngineHost HostSafety.
From S2P Require Import QuicState QuicEngine QuicTick.

Section safety.
Context {T : Type} `{TimePointLaws T} `{!Runtime T} `{!RuntimeLaws T}.
Context `{!Quic T} `{!QuicHost T} `{!QuicLaws T}.
Implicit Types (q self : QuicMqttEngine T) (e : MqttEngine T) (t : Tick T).
Local Abbreviation M := (St (QuicMqttEngine T)).
Local Abbreviation MT := (St (Tick T)).

(** ** The invariant *)

(** A default stream is one of the streams. *)
Definition known (streams : gmap Z QuicStream) (d : option Z) : Prop :=
  ∀ id, d = Some id → is_Some (streams !! id).
Definition streams_ok (streams : gmap Z QuicStream) (pub sub : option Z) : Prop :=
  map_Forall (λ _ ds, parser_inv (qs_parser ds)) streams ∧ known streams pub ∧ known streams sub.
Definition quic_ok (B : Z) q : Prop :=
  in_order B (qe_mqtt_engine q) ∧
  streams_ok (qe_data_streams q) (qe_default_pub_stream q) (qe_default_sub_stream q).
Definition tick_ok (B : Z) t : Prop := quic_ok B (tk_self t).

Lemma quic_ok_mono B B' q : quic_ok B q → B <= B' → quic_ok B' q.
Proof. intros [Hi Hs] HB. split; [by eapply in_order_mono|done]. Qed.

Lemma streams_ok_alter id f streams pub sub :
  streams_ok streams pub sub →
  (∀ ds, parser_inv (qs_parser ds) → parser_inv (qs_parser (f ds))) →
  streams_ok (alter f id streams) pub sub.
Proof.
  intros (Hs & Hp & Hu) Hf. split_and!.
  - intros i ds. destruct (decide (id = i)) as [<-|].
    + rewrite lookup_alter_eq. intros (ds0 & Hd & ->)%fmap_Some_1. by eapply Hf, Hs.
    + rewrite lookup_alter_ne by done. apply Hs.
  - intros i Hi. rewrite lookup_alter_is_Some. by apply Hp.
  - intros i Hi. rewrite lookup_alter_is_Some. by apply Hu.
Qed.
Lemma known_insert id ds streams d : known streams d → known (<[id := ds]> streams) d.
Proof. intros Hk i Hi. rewrite lookup_insert_is_Some'. right. by apply Hk. Qed.
Lemma known_new id ds streams : known (<[id := ds]> streams) (Some id).
Proof. intros i [= <-]. rewrite lookup_insert_is_Some'. by left. Qed.
Lemma streams_ok_insert id ds streams pub sub :
  streams_ok streams pub sub → parser_inv (qs_parser ds) →
  streams_ok (<[id := ds]> streams) pub sub.
Proof.
  intros (Hs & Hp & Hu) Hd. split_and!; [by apply map_Forall_insert_2|by apply known_insert..].
Qed.
Lemma known_delete id streams (d : option Z) :
  known streams d →
  known (delete id streams) (if bool_decide (d = Some id) then None else d).
Proof.
  intros Hk i. case_bool_decide; [done|]. intros ->. rewrite lookup_delete_ne by congruence.
  by apply Hk.
Qed.
Lemma streams_ok_delete id streams pub sub :
  streams_ok streams pub sub →
  streams_ok (delete id streams) (if bool_decide (pub = Some id) then None else pub)
    (if bool_decide (sub = Some id) then None else sub).
Proof.
  intros (Hs & Hp & Hu). split_and!; [by apply map_Forall_delete|by apply known_delete..].
Qed.
Lemma no_streams_ok : streams_ok ∅ None None.
Proof. by split_and!. Qed.

Lemma parser_level_ok p level : parser_inv p → parser_inv (MqttParser_set_parse_level p level).
Proof. done. Qed.
Lemma new_parser_ok options n :
  wf_options options → parser_inv (MqttParser_new n (mo_mqtt_version options)).
Proof.
  intros Hw. unfold parser_inv. simpl. split; [zlia|]. split; [done|]. split; [constructor|].
  by destruct (wo_mqtt_version _ Hw) as [->|[->| ->]].
Qed.
Lemma quic_ok_options B q : quic_ok B q → wf_options (me_options (qe_mqtt_engine q)).
Proof. intros [[Hi _] _]. apply (ei_config _ Hi). Qed.

Lemma quic_ok_parser B q id ds :
  quic_ok B q → qe_data_streams q !! id = Some ds → parser_inv (qs_parser ds).
Proof. intros (_ & Hs & _) Hd. by apply (Hs id). Qed.

(** ** The engine inside *)
Lemma on_mqtt_preserves {A} B B' (m : St (MqttEngine T) A) :
  preserves (in_order B) (in_order B') m → preserves (quic_ok B) (quic_ok B') (on_mqtt m).
Proof.
  intros Hm q [Hi Hs]. specialize (Hm _ Hi). unfold runs, on_mqtt in *.
  destruct (m (qe_mqtt_engine q)) as [[a e]| |]; [|done..]. by split.
Qed.

Lemma at_instant_preserves {A} B B' (m : T → St (MqttEngine T) A) :
  (∀ sample, preserves (in_order B) (in_order B') (m sample)) →
  preserves (quic_ok B) (quic_ok B') (at_instant m).
Proof.
  intros Hm. unfold at_instant. apply preserves_get. intros self _.
  eapply (preserves_bind _ (quic_ok B)); [|intros []; by apply on_mqtt_preserves].
  by apply preserves_modify.
Qed.

(** A method that changes neither the protocol engine nor the streams. *)
Definition untouched (f : QuicMqttEngine T → QuicMqttEngine T) : Prop :=
  ∀ q, qe_mqtt_engine (f q) = qe_mqtt_engine q ∧ qe_data_streams (f q) = qe_data_streams q ∧
    qe_default_pub_stream (f q) = qe_default_pub_stream q ∧
    qe_default_sub_stream (f q) = qe_default_sub_stream q.
Lemma untouched_preserves B f : untouched f → preserves (quic_ok B) (quic_ok B) (modify f).
Proof.
  intros Hf. apply preserves_modify. intros q [Hi Hs]. destruct (Hf q) as (E1 & E2 & E3 & E4).
  split; [by rewrite E1|by rewrite E2, E3, E4].
Qed.
Lemma on_stream_preserves B id f :
  (∀ ds, parser_inv (qs_parser ds) → parser_inv (qs_parser (f ds))) →
  preserves (quic_ok B) (quic_ok B) (on_stream id f).
Proof.
  intros Hf. apply preserves_modify. intros q [Hi Hs]. split; [done|]. by apply streams_ok_alter.
Qed.

(** ** Checks never panic *)
Lemma ok_or_none_panic {A} (o : option A) (e : MqttClientError) : ok_or o e ≠ Panic.
Proof. by destruct o. Qed.
Lemma allowed_no_panic q : ensure_command_allowed_before_mqtt_connected q ≠ Panic.
Proof. unfold ensure_command_allowed_before_mqtt_connected. by case_match. Qed.
Lemma check_stream_bytes_no_panic q n : check_stream_bytes q n ≠ Panic.
Proof. unfold check_stream_bytes. by repeat case_match. Qed.
Lemma preflight_packet_no_panic q p : preflight_packet q p ≠ Panic.
Proof.
  apply bind_no_panic; [apply map_parse_error_no_panic|]. intros b.
  apply bind_no_panic; [apply check_packet_size_no_panic|]. intros _. apply check_stream_bytes_no_panic.
Qed.
Lemma preflight_publish_no_panic q c : preflight_publish q c ≠ Panic.
Proof.
  apply bind_no_panic; [apply validate_publish_no_panic|]. intros [? ?]. apply preflight_packet_no_panic.
Qed.
Lemma preflight_subscribe_no_panic q c : preflight_subscribe q c ≠ Panic.
Proof.
  apply bind_no_panic; [apply validate_subscribe_no_panic|]. intros ?. apply preflight_packet_no_panic.
Qed.
Lemma preflight_unsubscribe_no_panic q c : preflight_unsubscribe q c ≠ Panic.
Proof. apply preflight_packet_no_panic. Qed.
Lemma resolve_stream_no_panic q id : resolve_stream q id ≠ Panic.
Proof. unfold resolve_stream. by case_match. Qed.
Lemma resolve_any_stream_no_panic q id : resolve_any_stream q id ≠ Panic.
Proof. unfold resolve_any_stream. case_match; [done|apply resolve_stream_no_panic]. Qed.
Lemma ensure_stream_capacity_no_panic q id : ensure_stream_capacity q id ≠ Panic.
Proof. unfold ensure_stream_capacity. by repeat case_match. Qed.
Lemma quic_error_code_no_panic n : quic_error_code n ≠ Panic.
Proof. unfold quic_error_code. by case_match. Qed.
Lemma transport_result_no_panic {A} s (r : string + A) : transport_result s r ≠ Panic.
Proof. by destruct r. Qed.
Lemma client_config_no_panic c : client_config_from_crypto c ≠ Panic.
Proof. repeat (apply bind_no_panic; [apply transport_result_no_panic|intros ?]). done. Qed.
Lemma replay_encoding_no_panic q p : replay_encoding q p ≠ Panic.
Proof.
  apply bind_no_panic; [apply map_parse_error_no_panic|]. intros b.
  apply bind_no_panic; [unfold validate_packet_capabilities; by repeat case_match|]. intros _.
  apply bind_no_panic; [apply check_packet_size_no_panic|done].
Qed.

(** ** The operations *)
Hint Resolve ok_or_none_panic allowed_no_panic check_stream_bytes_no_panic preflight_publish_no_panic
  preflight_subscribe_no_panic preflight_unsubscribe_no_panic resolve_stream_no_panic
  resolve_any_stream_no_panic ensure_stream_capacity_no_panic quic_error_code_no_panic
  transport_result_no_panic client_config_no_panic replay_encoding_no_panic
  map_parse_error_no_panic check_packet_size_no_panic : preserve.
Hint Extern 2 (preserves (quic_ok _) _ (modify _)) =>
  apply untouched_preserves; intros ?; repeat split : preserve.
Hint Extern 2 (preserves (quic_ok _) _ (on_stream _ _)) =>
  apply on_stream_preserves; intros ? ?; assumption : preserve.

Section operations.
Context (B : Z) (HB : B + 1 <= u32_MAX).
Local Abbreviation kept := (preserves (quic_ok B) (quic_ok B)).

Lemma on_journal_ok f : kept (on_journal f).
Proof. unfold on_journal. preserve. Qed.
Lemma set_connection_ok c : kept (set_connection c).
Proof. unfold set_connection. preserve. Qed.
Lemma clear_streams_ok : kept clear_streams.
Proof. apply preserves_modify. intros q [Hi _]. split; [done|apply no_streams_ok]. Qed.
Hint Resolve on_journal_ok set_connection_ok clear_streams_ok : preserve.

Lemma append_control_ok b n : kept (append_control_outgoing_bytes b n).
Proof. unfold append_control_outgoing_bytes. preserve. Qed.
Lemma push_transport_event_ok event : kept (push_transport_event event).
Proof. unfold push_transport_event. preserve. Qed.
Lemma unavailable_ok : kept mark_zero_rtt_unavailable.
Proof. unfold mark_zero_rtt_unavailable, push_transport_event. preserve. Qed.
Lemma take_outgoing_ok : kept (at_instant take_outgoing).
Proof. apply at_instant_preserves. intros ?. by apply take_outgoing_order. Qed.
Lemma lost_ok : kept (at_instant handle_connection_lost).
Proof. apply at_instant_preserves. intros ?. by apply lost_order. Qed.
Lemma push_event_ok event : kept (on_mqtt (push_event event)).
Proof. apply on_mqtt_preserves, push_event_order. Qed.
Lemma take_events_ok : kept (on_mqtt take_events).
Proof. apply on_mqtt_preserves. by apply take_events_order. Qed.
Lemma fail_connection_ok error : kept (on_mqtt (fail_connection error)).
Proof. apply on_mqtt_preserves. by apply fail_connection_order. Qed.
Hint Resolve append_control_ok push_transport_event_ok unavailable_ok take_outgoing_ok lost_ok push_event_ok
  take_events_ok fail_connection_ok : preserve.

(** Streams. *)
(** A stream that was opened is one of the streams. *)
Lemma open_stream_known role q :
  quic_ok B q →
  runs (open_bidi_stream_with_role role) q (λ r q', quic_ok B q' ∧
    match r with inr id => is_Some (qe_data_streams q' !! id) | inl _ => True end).
Proof.
  intros Hq. pose proof (quic_ok_options _ _ Hq) as Hw. unfold open_bidi_stream_with_role.
  run_step. run_step. run_step. apply runs_result; [apply allowed_no_panic|done|]. intros [] _.
  run_step. apply runs_result; [apply ok_or_none_panic|done|]. intros conn _.
  destruct (streams_open conn) as [opened conn']. unfold set_connection. run_step. run_step. run_step.
  apply runs_result; [apply ok_or_none_panic|done|]. intros id _. cbv zeta. run_step.
  eapply runs_mono with (Q := λ _ q', quic_ok B q' ∧ is_Some (qe_data_streams q' !! id)).
  { run_step. destruct Hq as [Hi Hs].
    split; [split; [done|]|by apply lookup_insert_is_Some'; left].
    apply streams_ok_insert; [done|]. destruct role; apply parser_level_ok; by apply new_parser_ok. }
  intros [] q1 [Hq1 Hid]. run_step.
  eapply runs_mono with (Q := λ _ q', quic_ok B q' ∧ is_Some (qe_data_streams q' !! id)).
  { case_match; [|by run_step]. eapply runs_and; [by apply on_journal_ok|done]. }
  intros [] q2 Hq2. done.
Qed.
Lemma open_stream_ok role : kept (open_bidi_stream_with_role role).
Proof. intros q Hq. eapply runs_mono; [by apply open_stream_known|]. by intros r q' [? _]. Qed.
Hint Resolve open_stream_ok : preserve.

Lemma enqueue_stream_ok id b : kept (enqueue_on_stream id b).
Proof. unfold enqueue_on_stream. preserve. Qed.
Lemma default_pub_ok : kept ensure_default_pub_stream.
Proof.
  intros q Hq. unfold ensure_default_pub_stream. run_step. run_step.
  destruct (qe_default_pub_stream q) as [id|]; [by run_step|]. run_step.
  eapply runs_mono; [by apply open_stream_known|]. intros [error|id] q' [Hq' Hid]; [done|].
  run_step. run_step. run_step. destruct Hq' as (Hi & Hs & Hp & Hu). split; [done|].
  split_and!; [done| |done]. by intros i [= <-].
Qed.
Lemma default_sub_ok : kept ensure_default_sub_stream.
Proof.
  intros q Hq. unfold ensure_default_sub_stream. run_step. run_step.
  destruct (qe_default_sub_stream q) as [id|]; [by run_step|]. run_step.
  eapply runs_mono; [by apply open_stream_known|]. intros [error|id] q' [Hq' Hid]; [done|].
  run_step. run_step. run_step. destruct Hq' as (Hi & Hs & Hp & Hu). split; [done|].
  split_and!; [done|done|]. by intros i [= <-].
Qed.
Hint Resolve enqueue_stream_ok default_pub_ok default_sub_ok : preserve.
Lemma priority_pub_ok p : kept (ensure_priority_pub_stream p).
Proof. unfold ensure_priority_pub_stream. preserve. Qed.
Hint Resolve priority_pub_ok : preserve.

(** Commands. *)
Lemma send_encoded_ok {A} id (encode : option Z → T → St (MqttEngine T) (MqttClientError + (A * bytes))) :
  (∀ stream sample, preserves (in_order B) (in_order B) (encode stream sample)) →
  kept (send_encoded id encode).
Proof.
  intros He. unfold send_encoded. preserve_step. preserve_step; [solve [preserve]|]. preserve_step.
  preserve_step; [by apply at_instant_preserves|]. preserve.
Qed.
Section commands.
Context (pc : PublishCommand) (Hpc : publish_command_ok pc).
Context (sc : SubscribeCommand) (Hsc : wf_opt is_u16 (sc_packet_id sc)).
Context (uc : UnsubscribeCommand) (Huc : wf_opt is_u16 (uc_packet_id uc)).
Lemma send_publish_ok id : kept (send_encoded id (publish_encoded pc)).
Proof. apply send_encoded_ok. intros. by apply publish_encoded_order. Qed.
Lemma send_subscribe_ok id : kept (send_encoded id (subscribe_encoded sc)).
Proof. apply send_encoded_ok. intros. by apply subscribe_encoded_order. Qed.
Lemma send_unsubscribe_ok id : kept (send_encoded id (unsubscribe_encoded uc)).
Proof. apply send_encoded_ok. intros. by apply unsubscribe_encoded_order. Qed.
Hint Resolve send_publish_ok send_subscribe_ok send_unsubscribe_ok : preserve.
Lemma quic_publish_ok : kept (quic_publish pc).
Proof. unfold quic_publish. preserve. Qed.
Lemma quic_publish_on_ok stream : kept (quic_publish_on stream pc).
Proof. unfold quic_publish_on. preserve. Qed.
Lemma quic_subscribe_ok : kept (quic_subscribe sc).
Proof. unfold quic_subscribe. preserve. Qed.
Lemma quic_subscribe_on_ok stream : kept (quic_subscribe_on stream sc).
Proof. unfold quic_subscribe_on. preserve. Qed.
Lemma quic_unsubscribe_ok : kept (quic_unsubscribe uc).
Proof. unfold quic_unsubscribe. preserve. Qed.
Lemma quic_unsubscribe_on_ok stream : kept (quic_unsubscribe_on stream uc).
Proof. unfold quic_unsubscribe_on. preserve. Qed.
Lemma subscribe_on_control_ok : kept (subscribe_on_control sc).
Proof.
  assert (kept (at_instant (subscribe sc))).
  { apply at_instant_preserves. intros ?. by apply subscribe_order. }
  unfold subscribe_on_control. preserve.
Qed.
Lemma unsubscribe_on_control_ok : kept (unsubscribe_on_control uc).
Proof.
  assert (kept (at_instant (unsubscribe uc))).
  { apply at_instant_preserves. intros ?. by apply unsubscribe_order. }
  unfold unsubscribe_on_control. preserve.
Qed.
End commands.

(** The close controls, the escape hatch and what the application takes. *)
Lemma set_parse_level_ok level : kept (quic_set_parse_level level).
Proof.
  unfold quic_set_parse_level. preserve_step; [apply on_mqtt_preserves; by apply set_parse_level_order|].
  preserve_step. apply preserves_modify. intros q (Hi & Hs & Hp & Hu). split; [done|]. split_and!.
  - intros id ds. simpl. rewrite lookup_fmap. intros (ds0 & Hd & ->)%fmap_Some_1.
    apply parser_level_ok. by eapply Hs.
  - intros id Hid. simpl. rewrite lookup_fmap, fmap_is_Some. by apply Hp.
  - intros id Hid. simpl. rewrite lookup_fmap, fmap_is_Some. by apply Hu.
Qed.
Lemma set_stream_priority_ok id p : kept (set_stream_priority id p).
Proof.
  unfold set_stream_priority. preserve_step. apply preserves_try_Ok; [solve [eauto with preserve]|].
  unfold resolve_stream. intros stream_id. case_bool_decide as Hd; [|done]. intros [= <-].
  destruct Hd as [ds ->]. preserve.
Qed.
Lemma quic_close_ok code reason : kept (quic_close code reason).
Proof. unfold quic_close. preserve. Qed.
Lemma finish_stream_ok id : kept (finish_stream id).
Proof. unfold finish_stream. preserve. Qed.
Lemma reset_stream_ok id code : kept (reset_stream id code).
Proof.
  unfold reset_stream.
  assert (∀ stream, kept (on_stream stream (λ ds, ds <| qs_outgoing := [] |> <| qs_pending_packets := 0 |>
                                 <| qs_finishing := false |> <| qs_finished := true |>))) by (intros; preserve).
  preserve.
Qed.
Lemma stop_stream_ok id code : kept (stop_stream id code).
Proof. unfold stop_stream. preserve. Qed.
Lemma mqtt_ping_ok : kept mqtt_ping.
Proof.
  assert (kept (at_instant try_send_ping)).
  { apply at_instant_preserves. intros ?. by apply ping_order. }
  unfold mqtt_ping. preserve.
Qed.
Lemma quic_ping_ok : kept quic_ping.
Proof. unfold quic_ping. preserve. Qed.
Lemma send_raw_on_ok id b : kept (send_raw_on id b).
Proof. unfold send_raw_on. preserve. Qed.
Hint Resolve send_raw_on_ok : preserve.
Lemma send_packet_on_ok id p : kept (send_packet_on id p).
Proof. unfold send_packet_on. preserve. Qed.
Hint Resolve send_packet_on_ok : preserve.
Lemma puback_on_ok stream id : kept (puback_on stream id).
Proof. unfold puback_on. preserve. Qed.
Lemma pubrec_on_ok stream id : kept (pubrec_on stream id).
Proof. unfold pubrec_on. preserve. Qed.
Lemma pubrel_on_ok stream id : kept (pubrel_on stream id).
Proof. unfold pubrel_on. preserve. Qed.
Lemma pubcomp_on_ok stream id : kept (pubcomp_on stream id).
Proof. unfold pubcomp_on. preserve. Qed.
Lemma acknowledge_on_ok stream p : kept (acknowledge_on stream p).
Proof.
  assert (∀ p, kept (at_instant (enqueue_packet p))).
  { intros ?. apply at_instant_preserves. intros ?. by apply enqueue_packet_order. }
  assert (∀ id kind reason channel, kept (on_mqtt (commit_receive_ack id kind reason channel))).
  { intros. apply on_mqtt_preserves. by apply commit_receive_ack_order. }
  unfold acknowledge_on. preserve_step. apply preserves_try_Ok; [by destruct p|].
  intros [[[id kind] reason] ps] Hf.
  assert (Hk : kind = 4 ∨ kind = 5 ∨ kind = 7) by (destruct p; naive_solver).
  cbv beta zeta iota. preserve_step.
  { apply preserves_try. by apply manual_ack_packet_no_panic. }
  preserve.
Qed.
Lemma notify_ok : kept notify_local_address_changed.
Proof. unfold notify_local_address_changed. preserve. Qed.
Lemma handle_datagram_ok data addr now : kept (handle_datagram data addr now).
Proof. unfold handle_datagram. preserve. Qed.
Lemma take_datagrams_ok : kept take_outgoing_datagrams.
Proof. unfold take_outgoing_datagrams. preserve. Qed.
Lemma quic_take_events_ok : kept quic_take_events.
Proof. unfold quic_take_events. preserve. Qed.

(** Connecting may count one more attempt for CONNECT and one for the reset. *)
Lemma disconnect_and_close_ok reason ps code text :
  preserves (quic_ok B) (quic_ok (B + 1)) (disconnect_and_close_with reason ps code text).
Proof.
  assert (Hup : ∀ q, quic_ok B q → quic_ok (B + 1) q) by (intros q Hq; eapply quic_ok_mono; [done|lia]).
  unfold disconnect_and_close_with. apply preserves_try_then; [done|solve [preserve]|]. intros c.
  apply preserves_get. intros self _. apply preserves_try_then; [done|solve [preserve]|]. intros _.
  apply preserves_try_bind; [apply at_instant_preserves; intros; by apply disconnect_order|]. preserve.
Qed.
End operations.

Section connecting.
Context (B : Z) (HB : B + 2 <= u32_MAX).

Lemma begin_attempt_ok id : preserves (quic_ok B) (quic_ok (B + 1)) (begin_zero_rtt_attempt id).
Proof.
  assert (HB1 : B + 1 <= u32_MAX) by lia. assert (HB2 : B + 1 + 1 <= u32_MAX) by lia.
  pose proof (take_outgoing_ok (B + 1) HB2). pose proof (append_control_ok (B + 1)).
  pose proof (push_event_ok (B + 1)). pose proof (on_journal_ok B). pose proof (push_transport_event_ok B).
  unfold begin_zero_rtt_attempt. destruct id as [id|].
  - do 4 (eapply (preserves_bind _ (quic_ok B)); [solve [preserve]|intros []]).
    eapply (preserves_bind _ (quic_ok (B + 1))).
    { apply at_instant_preserves. intros ?. by apply connect_order. }
    preserve.
  - eapply preserves_weaken; [apply (unavailable_ok B)|done|]. intros q Hq. eapply quic_ok_mono; [done|lia].
Qed.

Lemma step_up q : quic_ok B q → quic_ok (B + 1) q.
Proof. intros Hq. eapply quic_ok_mono; [done|lia]. Qed.

Lemma establish_ok now : preserves (quic_ok B) (quic_ok (B + 1)) (establish now).
Proof.
  unfold establish. apply preserves_get. intros self _.
  do 3 (apply preserves_try_then; [apply step_up|solve [preserve]|intros ?]).
  destruct (endpoint_connect _ _ _ _ _) as [r endpoint].
  eapply (preserves_bind _ (quic_ok B)); [solve [preserve]|intros []].
  apply preserves_try_then; [apply step_up|solve [preserve]|]. intros [ch conn].
  eapply (preserves_bind _ (quic_ok (B + 1))); [|preserve].
  assert (Hu : preserves (quic_ok B) (quic_ok (B + 1)) (mark_zero_rtt_unavailable (T:=T))).
  { eapply preserves_weaken; [apply (unavailable_ok B)|done|apply step_up]. }
  destruct (qe_zero_rtt_config self) as [config|].
  - destruct (connection_has_0rtt conn); [destruct (streams_open conn) as [id conn']|].
    + eapply preserves_bind; [apply begin_attempt_ok|]. preserve.
    + eapply preserves_bind; [exact Hu|]. preserve.
  - eapply preserves_weaken; [apply preserves_ret|done|apply step_up].
Qed.

Lemma retain_ok config addr name zero status :
  preserves (quic_ok B) (quic_ok B) (retain_parameters config addr name zero status).
Proof. unfold retain_parameters. preserve. Qed.
Lemma cache_ok n : preserves (quic_ok B) (quic_ok B) (zero_rtt_cache_for_size (T:=T) n).
Proof. unfold zero_rtt_cache_for_size. preserve. Qed.

Lemma quic_connect_ok addr name config now :
  preserves (quic_ok B) (quic_ok (B + 1)) (quic_connect addr name config now).
Proof.
  unfold quic_connect. apply preserves_try_then; [apply step_up|solve [preserve]|]. intros c.
  eapply preserves_bind; [apply retain_ok|]. intros []. apply establish_ok.
Qed.
Lemma quic_connect_0rtt_ok addr name config zero now :
  preserves (quic_ok B) (quic_ok (B + 1)) (quic_connect_with_zero_rtt addr name config zero now).
Proof.
  unfold quic_connect_with_zero_rtt. eapply preserves_bind; [apply cache_ok|]. intros cache.
  apply preserves_try_then; [apply step_up|solve [preserve]|]. intros c.
  eapply preserves_bind; [apply retain_ok|]. intros []. apply establish_ok.
Qed.

Lemma reset_instant_ok : preserves (quic_ok B) (quic_ok (B + 1)) (at_instant reset_for_new_transport).
Proof. apply at_instant_preserves. intros ?. apply reset_order. lia. Qed.
Lemma reset_state_ok : preserves (quic_ok B) (quic_ok (B + 1)) reset_connection_state.
Proof.
  unfold reset_connection_state. pose proof (clear_streams_ok B).
  do 3 (eapply (preserves_bind _ (quic_ok B)); [solve [preserve]|intros []]). apply reset_instant_ok.
Qed.
Lemma quic_disconnect_ok : preserves (quic_ok B) (quic_ok (B + 1)) quic_disconnect.
Proof.
  apply at_instant_preserves. intros sample.
  apply (host_call B (B + 1) (CallDisconnect 0 [])); simpl; done || lia.
Qed.
End connecting.

Lemma quic_reconnect_ok B now :
  B + 3 <= u32_MAX → preserves (quic_ok B) (quic_ok (B + 2)) (quic_reconnect now).
Proof.
  intros HB. unfold quic_reconnect. apply preserves_get. intros self _.
  destruct (qe_client_config self).
  - eapply preserves_bind; [apply reset_state_ok; lia|]. intros [].
    replace (B + 2) with (B + 1 + 1) by lia. apply establish_ok. lia.
  - eapply preserves_weaken; [apply preserves_ret|done|]. intros q Hq. eapply quic_ok_mono; [done|lia].
Qed.

End safety.
