(* ===== verification/QuicTickSafety.v ===== *)
(** * The tick never panics

    The invariant of [QuicSafety] through the tick: every loop over the connection's events,
    streams, chunks and datagrams ends, no [unwrap] fails, and the streams' parsers stay well
    formed; and with it through every sequence of calls of the engine. *)
From stdpp Require Import sorting.
From S2P Require Import Prelude BaseData TopicFilter Validation Properties Packets Framing Codec.
From S2P Require Import Stream Leveled Time PriorityQueue ClientError Options ClientTypes.
From S2P Require Import Commands Inflight ClientSession EngineState EngineCore EngineProtocol.
From S2P Require Import Engine EncodeFacts EngineInv EngineSteps EngineQueues EngineHandlers.
From S2P Require Import EngineConnect EngineReceive EngineInput EngineSafety EngineHost HostSafety.
From S2P Require Import QuicState QuicEngine QuicTick QuicScript QuicSafety.

Section tick.
Context {T : Type} `{TimePointLaws T} `{!Runtime T} `{!RuntimeLaws T}.
Context `{!Quic T} `{!QuicHost T} `{!QuicLaws T}.
Implicit Types (q self : QuicMqttEngine T) (e : MqttEngine T) (t : Tick T) (c : Connection).
Local Abbreviation M := (St (QuicMqttEngine T)).
Local Abbreviation MT := (St (Tick T)).

(** ** Moving between the tick and its parts *)

(** The invariant in a tick whose connection satisfies [P]. *)
Definition tick_at (P : Connection → Prop) (B : Z) t : Prop := tick_ok B t ∧ P (tk_conn t).
Definition any_conn : Connection → Prop := λ _, True.

Lemma tick_at_ok P B t : tick_at P B t → tick_ok B t.
Proof. by intros []. Qed.
Lemma tick_at_mono P B B' t : tick_at P B t → B <= B' → tick_at P B' t.
Proof. intros [Ht HP] HB. split; [by eapply quic_ok_mono|done]. Qed.

Lemma on_self_preserves {A} P B B' (m : M A) :
  preserves (quic_ok B) (quic_ok B') m → preserves (tick_at P B) (tick_at P B') (on_self m).
Proof.
  intros Hm t [Hq HP]. specialize (Hm _ Hq). unfold runs, on_self in *.
  destruct (m (tk_self t)) as [[a q]| |]; done.
Qed.
Lemma on_conn_preserves {A} (P Q : Connection → Prop) B (f : Connection → A * Connection) :
  (∀ c, P c → Q (f c).2) → preserves (tick_at P B) (tick_at Q B) (on_conn f).
Proof.
  intros Hf t [Hq HP]. specialize (Hf _ HP). unfold runs, on_conn. by destruct (f (tk_conn t)).
Qed.
Lemma on_any_conn {A} B (f : Connection → A * Connection) :
  preserves (tick_at any_conn B) (tick_at any_conn B) (on_conn f).
Proof. by apply on_conn_preserves. Qed.
Lemma do_any_conn B f : preserves (tick_at any_conn B) (tick_at any_conn B) (do_conn f).
Proof. apply on_any_conn. Qed.
Lemma push_tick_ok P B event : preserves (tick_at P B) (tick_at P B) (push_tick_event event).
Proof. by apply preserves_modify. Qed.
Lemma extend_tick_ok P B events : preserves (tick_at P B) (tick_at P B) (extend_tick_events events).
Proof. by apply preserves_modify. Qed.
Lemma on_fields_ok P B f : untouched f → preserves (tick_at P B) (tick_at P B) (on_fields f).
Proof. intros Hf. by apply on_self_preserves, untouched_preserves. Qed.
Hint Resolve on_any_conn do_any_conn push_tick_ok extend_tick_ok : preserve.
Hint Extern 2 (preserves (tick_at _ _) _ (on_fields _)) =>
  apply on_fields_ok; intros ?; split; reflexivity : preserve.
Hint Extern 2 (preserves (tick_at _ _) _ (on_self (on_stream _ _))) =>
  apply on_self_preserves, on_stream_preserves; intros ? ?; assumption : preserve.

(** ** Streams that end, and the events of the connection *)
Section bound.
Context (P : Connection → Prop) (B : Z) (HB : B + 1 <= u32_MAX).
Local Abbreviation kept := (preserves (tick_at P B) (tick_at P B)).

Lemma drain_events_ok : kept drain_mqtt_events.
Proof.
  unfold drain_mqtt_events. eapply preserves_bind; [by apply on_self_preserves, take_events_ok|].
  intros l. apply extend_tick_ok.
Qed.
Lemma clear_refs_ok id : kept (clear_data_stream_refs id).
Proof.
  apply on_self_preserves, preserves_modify. intros q [Hi Hs]. split; [done|]. by apply streams_ok_delete.
Qed.
Lemma terminal_ok : kept handle_control_stream_terminal.
Proof.
  unfold handle_control_stream_terminal. pose proof (on_self_preserves P B B _ (lost_ok B HB)). preserve.
Qed.
Hint Resolve clear_refs_ok terminal_ok : preserve.
Lemma stream_ended_ok event id : kept (handle_stream_ended event id).
Proof. unfold handle_stream_ended. preserve. Qed.
Lemma stream_closed_ok id reason by_peer : kept (handle_stream_closed id reason by_peer).
Proof.
  unfold handle_stream_closed.
  assert (∀ id, kept (on_self (on_stream id (λ ds, if by_peer then ds <| qs_recv_closed := true |>
                                                    else ds <| qs_finished := true |>)))).
  { intros i. apply on_self_preserves, on_stream_preserves. by destruct by_peer. }
  preserve.
Qed.
End bound.

Section events.
Context (n : nat).
Definition polling c : Prop := (events_left c <= n)%nat.

Lemma open_polling B : preserves (tick_at polling B) (tick_at polling B) (on_conn streams_open).
Proof. apply on_conn_preserves. unfold polling. intros c Hc. pose proof (open_events c). lia. Qed.
Hint Resolve open_polling : preserve.

Lemma replay_journal_ok B options level id j q :
  wf_options options → quic_ok B q → quic_ok B (replay_journal options level id j q).
Proof.
  intros Hw [Hi Hs].
  assert (Hp : parser_inv (qs_parser (replay_stream options level j))).
  { unfold replay_stream. destruct (ej_role j); apply parser_level_ok; by apply new_parser_ok. }
  pose proof (streams_ok_insert id _ _ _ _ Hs Hp) as (Hm & Hd & Hu).
  unfold replay_journal. destruct (ej_role j); (split; [done|]); simpl; try done;
    split_and!; done || apply known_new.
Qed.

Lemma replay_ok B options level journals :
  wf_options options →
  preserves (tick_at polling B) (tick_at polling B) (replay_early_stream_journals options level journals).
Proof.
  intros Hw. induction journals as [|j journals IH]; simpl; [apply preserves_ret|].
  eapply preserves_bind; [apply open_polling|]. intros [id|]; [|apply push_tick_ok].
  eapply (preserves_bind _ (tick_at polling B)); [destruct (negb _); preserve|]. intros [].
  eapply (preserves_bind _ (tick_at polling B)); [|by intros []].
  apply on_self_preserves, preserves_modify. intros q Hq. by apply replay_journal_ok.
Qed.

Lemma zero_rtt_outcome_ok B options level :
  wf_options options →
  preserves (tick_at polling B) (tick_at polling B) (handle_zero_rtt_outcome options level).
Proof.
  intros Hw. unfold handle_zero_rtt_outcome.
  pose proof (on_self_preserves polling B B _ (clear_streams_ok B)).
  pose proof (λ j, replay_ok B options level j Hw). preserve.
Qed.

Lemma transport_event_ok B options level event :
  wf_options options → B + 1 <= u32_MAX →
  preserves (tick_at polling B) (tick_at polling (B + 1)) (handle_transport_event options level event).
Proof.
  intros Hw HB. assert (Hup : ∀ t, tick_at polling B t → tick_at polling (B + 1) t).
  { intros t Ht. eapply tick_at_mono; [done|lia]. }
  destruct event as [id|id code| | |reason|]; cbn [handle_transport_event].
  - eapply preserves_weaken; [by apply (stream_closed_ok polling B HB)|done..].
  - eapply preserves_weaken; [by apply (stream_ended_ok polling B HB)|done..].
  - eapply preserves_weaken; [apply preserves_ret|done..].
  - unfold handle_connected. apply preserves_get. intros t _.
    eapply (preserves_bind _ (tick_at polling B)).
    { destruct (attempting _); [by apply zero_rtt_outcome_ok|apply preserves_ret]. }
    intros []. apply preserves_get. intros t' _.
    destruct (_ && _); [|eapply preserves_weaken; [apply preserves_ret|done..]].
    eapply preserves_bind; [apply open_polling|]. intros [id|].
    + eapply (preserves_bind _ (tick_at polling B)); [solve [preserve]|]. intros [].
      eapply (preserves_bind _ (tick_at polling (B + 1))); [|preserve].
      apply on_self_preserves, at_instant_preserves. intros ?. by apply connect_order.
    + eapply preserves_weaken; [apply preserves_ret|done..].
  - unfold handle_transport_lost. eapply (preserves_bind _ (tick_at polling (B + 1))).
    { apply on_self_preserves, at_instant_preserves. intros ?. by apply reset_order. }
    intros []. pose proof (on_self_preserves polling (B + 1) (B + 1) _ (clear_streams_ok (B + 1))). preserve.
  - eapply preserves_weaken; [apply preserves_ret|done..].
Qed.
End events.

Lemma poll_events_ok options level fuel : ∀ B,
  wf_options options → B + Z.of_nat fuel <= u32_MAX →
  preserves (tick_at (λ c, (events_left c < fuel)%nat) B) (tick_at any_conn (B + Z.of_nat fuel))
    (poll_events options level fuel).
Proof.
  induction fuel as [|fuel IH]; intros B Hw HB; cbn [poll_events].
  { intros t [_ Ht]. lia. }
  intros t [Ht Hf]. run_step. unfold runs at 1, on_conn.
  destruct (connection_poll (tk_conn t)) as [[event|] c'] eqn:Hp.
  - pose proof (poll_progress _ _ _ Hp). run_step.
    eapply runs_mono; [apply (transport_event_ok (pred fuel) B options level event Hw); [lia|]|].
    { split; [exact Ht|]. unfold polling. simpl. lia. }
    intros [] t1 [Ht1 Hp1]. unfold polling in Hp1.
    replace (B + Z.of_nat (S fuel)) with (B + 1 + Z.of_nat fuel) by lia.
    apply IH; [done|lia|]. split; [done|lia].
  - split; [|done]. eapply quic_ok_mono; [exact Ht|lia].
Qed.
Lemma accept_streams_ok options level fuel B :
  wf_options options →
  preserves (tick_at (λ c, (incoming_left c < fuel)%nat) B) (tick_at any_conn B)
    (accept_streams options level fuel).
Proof.
  intros Hw. induction fuel as [|fuel IH]; cbn [accept_streams]; intros t [Ht Hf]; [lia|].
  run_step. unfold runs at 1, on_conn.
  destruct (streams_accept (tk_conn t)) as [[id|] c'] eqn:Hp; [|by split].
  pose proof (accept_progress _ _ _ Hp). run_step. unfold on_fields, runs at 1, on_self, modify.
  apply IH. split; [|simpl; lia]. destruct Ht as [Hi Hs]. split; [exact Hi|]. simpl.
  case_match; [done|]. apply streams_ok_insert; [done|]. apply parser_level_ok. by apply new_parser_ok.
Qed.

(** ** Reading *)
Section reading.
Context (B : Z) (HB : B + 1 <= u32_MAX).
Local Abbreviation kept := (preserves (tick_at any_conn B) (tick_at any_conn B)).
Definition readable (id : Z) (fuel : nat) c : Prop := (chunks_left id c < fuel)%nat.

Lemma control_chunks_ok id fuel :
  preserves (tick_at (readable id fuel) B) (tick_at any_conn B) (read_control_chunks id fuel).
Proof.
  unfold readable. induction fuel as [|fuel IH]; cbn [read_control_chunks]; intros t [Ht Hf]; [lia|].
  run_step. unfold runs at 1, on_conn.
  destruct (chunks_next id (tk_conn t)) as [[b| |code|] c'] eqn:Hp; try (by split).
  pose proof (next_progress _ _ _ _ Hp). pose proof (next_bytes _ _ _ _ Hp) as Hb.
  run_step. eapply runs_mono; [apply (on_self_preserves (readable id fuel) B B)|].
  - apply at_instant_preserves. intros ?. by apply handle_incoming_order.
  - split; [exact Ht|]. unfold readable. simpl. lia.
  - intros events t1 [Ht1 Hc1]. run_step. unfold extend_tick_events. run_step. apply IH. by split.
Qed.

(** One chunk more in a stream's parser. *)
Lemma data_chunks_ok id fuel :
  preserves (tick_at (readable id fuel) B) (tick_at any_conn B) (read_data_chunks id fuel).
Proof.
  unfold readable. induction fuel as [|fuel IH]; cbn [read_data_chunks]; intros t [Ht Hf]; [lia|].
  run_step. unfold runs at 1, on_conn.
  destruct (chunks_next id (tk_conn t)) as [[b| |code|] c'] eqn:Hp; try (by split).
  pose proof (next_progress _ _ _ _ Hp). pose proof (next_bytes _ _ _ _ Hp) as Hb.
  run_step. run_step. simpl. destruct (qe_data_streams (tk_self t) !! id) as [ds|] eqn:Hds.
  2: { apply IH. split; [exact Ht|]. simpl. lia. }
  pose proof (quic_ok_parser _ _ _ _ Ht Hds) as Hparser. run_step.
  apply runs_expect. exists (unread (qs_parser ds)). split; [by apply unread_buffer|].
  destruct (input_overflow _ _ _) as [limit|].
  - assert (Ht' : tick_at any_conn B (t <| tk_conn := c' |>)) by (split; [exact Ht|done]).
    pose proof (on_self_preserves any_conn B B _ (fail_connection_ok B HB (BufferFull "QUIC incoming bytes" limit))).
    pose proof (drain_events_ok any_conn B HB).
    assert (Hk : kept (
      on_self (on_mqtt (fail_connection (BufferFull "QUIC incoming bytes" limit)));;
      drain_mqtt_events;;
      on_self (on_stream id (λ ds, ds <| qs_recv_closed := true |>));;
      mret (false, None : option Z))) by preserve.
    exact (Hk _ Ht').
  - destruct (feed_spec (qs_parser ds) Hparser b Hb) as (p & Hfeed & Hp' & _).
    run_step. apply runs_expect. exists p. split; [done|]. run_step.
    eapply runs_mono; [apply (on_self_preserves (readable id fuel) B B)|].
    + by apply on_stream_preserves.
    + split; [exact Ht|]. unfold readable. simpl. lia.
    + intros [] t1 Ht1. by apply IH.
Qed.

Lemma with_chunks_ok id (read : nat → MT (bool * option Z)) :
  (∀ fuel, preserves (tick_at (readable id fuel) B) (tick_at any_conn B) (read fuel)) →
  kept (with_chunks id read).
Proof.
  intros Hr. unfold with_chunks. eapply (preserves_bind _ (tick_at any_conn B)); [apply on_any_conn|].
  intros [|]; [|apply preserves_ret]. intros t Ht. run_step. run_step. run_step.
  eapply runs_mono; [apply Hr; split; [apply Ht|unfold readable; lia]|]. intros r.
  eapply (preserves_bind _ (tick_at any_conn B)); [apply do_any_conn|]. intros ?. apply preserves_ret.
Qed.

Lemma read_control_ok : kept read_control_stream.
Proof.
  unfold read_control_stream. pose proof (λ event i, stream_ended_ok any_conn B HB event i).
  pose proof (λ i r b, stream_closed_ok any_conn B HB i r b).
  pose proof (λ i, with_chunks_ok i _ (control_chunks_ok i)). unfold handle_stream_reset. preserve.
Qed.

(** ** The packets of a data stream *)
Lemma stream_parsed ds :
  parser_inv (qs_parser ds) →
  let '(r, p) := MqttParser_next_parsed (qs_parser ds) in
  match r with
  | Ok (Some packet) => parser_inv p ∧ zlen (unread p) < zlen (unread (qs_parser ds)) ∧
      match packet with ParsedFull q => wf_packet q | _ => True end
  | Ok None | Err _ => parser_inv p
  | Panic => False
  end.
Proof.
  intros Hp. pose proof (next_parsed_spec (qs_parser ds) Hp) as Hn. pose proof (unread_u8s _ Hp) as Hu.
  destruct (MqttParser_next_parsed (qs_parser ds)) as [[[packet|]|error|] p]; cbn in Hn; [..|done].
  - destruct Hn as (n & flags & Hf & Hl & _ & (Hp' & Hu' & _)).
    destruct (frame_len_take_zlen _ _ Hf Hu) as [H2' _].
    pose proof (safe_Ok_inv _ _ _ (packet_frame_len_spec _ Hu) Hf) as [_ Hle].
    split; [done|]. split; [rewrite Hu', zlen_drop; lia|].
    destruct packet; try done. eapply parsed_full_wf; [|exact Hl]. by apply Forall_take.
  - by destruct Hn as [-> _].
  - unfold after_error in Hn. destruct (packet_frame_len _) as [[n|]| |]; [|by subst..].
    destruct (drops_bad_frames _); destruct Hn as [_ Hn]; [apply Hn|by subst].
Qed.

(** The unread bytes of a stream, nothing when it is gone. *)
Definition stream_left (id : Z) t : Z :=
  from_option (λ ds, zlen (unread (qs_parser ds))) 0 (qe_data_streams (tk_self t) !! id).

Lemma answered_parser resp ds : qs_parser (answered resp ds) = qs_parser ds.
Proof. unfold answered. by destruct (negb _). Qed.

Lemma on_self_streams {A} (m : St (MqttEngine T) A) t :
  preserves (in_order B) (in_order B) m → tick_ok B t →
  runs (on_self (on_mqtt m)) t (λ _ t', tick_ok B t' ∧
    qe_data_streams (tk_self t') = qe_data_streams (tk_self t)).
Proof.
  intros Hm [Hi Hs]. specialize (Hm _ Hi). unfold runs, on_self, on_mqtt in *.
  destruct (m (qe_mqtt_engine (tk_self t))) as [[a e]| |]; done.
Qed.
Lemma on_stream_left (f : QuicStream → QuicStream) id t :
  (∀ ds, qs_parser (f ds) = qs_parser ds) → tick_at any_conn B t →
  runs (on_self (on_stream id f)) t (λ _ t', tick_at any_conn B t' ∧ stream_left id t' = stream_left id t).
Proof.
  intros Hf [[Hi Hs] _]. split; [split; [split; [done|]|done]|].
  - apply streams_ok_alter; [done|]. intros ds. by rewrite Hf.
  - unfold stream_left. simpl. rewrite lookup_alter_eq.
    destruct (qe_data_streams (tk_self t) !! id) as [ds|]; simpl; [by rewrite Hf|done].
Qed.
Lemma drain_loop_ok id fuel : ∀ t,
  tick_at any_conn B t → stream_left id t < Z.of_nat fuel →
  runs (drain_data_stream_loop id fuel) t (λ _ t', tick_at any_conn B t').
Proof.
  induction fuel as [|fuel IH]; intros t Ht Hf; cbn [drain_data_stream_loop].
  { unfold stream_left in Hf. destruct (_ !! _) as [ds|]; simpl in Hf; [pose proof (zlen_nonneg (unread (qs_parser ds)))|]; lia. }
  run_step. run_step. cbv zeta. unfold stream_left in Hf.
  destruct (qe_data_streams (tk_self t) !! id) as [ds|] eqn:Hds; simpl in Hf.
  2: { destruct (ps_input_closed _); [by run_step|]. destruct (_ <=? _); [by run_step|]. run_step. run_step.
       run_step. run_step. destruct (ps_connecting _); [by run_step|].
       destruct (response_capacity_full _ _); by run_step. }
  pose proof (quic_ok_parser _ _ _ _ (proj1 Ht) Hds) as Hp.
  assert (Hstream : ∀ (f : QuicStream → QuicStream), (∀ ds, parser_inv (qs_parser ds) → parser_inv (qs_parser (f ds))) →
    kept (on_self (on_stream id f))).
  { intros f Hf'. by apply on_self_preserves, on_stream_preserves. }
  destruct (ps_input_closed _).
  { destruct (compact_spec (qs_parser ds) Hp) as (p & Hc & (Hp' & _) & _). run_step.
    apply runs_expect. exists p. split; [done|]. apply Hstream; [|done]. intros ds' _.
    unfold parser_inv, with_buffer. simpl. split; [zlia|]. split; [done|]. split; [constructor|]. apply Hp'. }
  destruct (_ <=? _); [by run_step|]. run_step. apply runs_expect. exists (unread (qs_parser ds)).
  split; [by apply unread_buffer|]. run_step.
  apply runs_result; [apply validate_input_buffer_no_panic| |].
  { intros error _. pose proof (on_self_preserves any_conn B B _ (fail_connection_ok B HB error)).
    pose proof (drain_events_ok any_conn B HB).
    assert (Hk : kept (on_self (on_mqtt (fail_connection error));; drain_mqtt_events;;
      on_self (on_stream id (λ ds, ds <| qs_recv_closed := true |>)))) by preserve.
    by apply Hk. }
  intros [] _. destruct (ps_connecting _); [by run_step|]. destruct (response_capacity_full _ _); [by run_step|].
  destruct (_ && _); [|by run_step]. pose proof (stream_parsed ds Hp) as Hn.
  destruct (MqttParser_next_parsed (qs_parser ds)) as [r p]. run_step.
  assert (Hp' : parser_inv p) by (destruct r as [[?|]| |]; [apply Hn|done..]).
  set (t1 := t <| tk_self ::= λ self, self <| qe_data_streams ::= alter (λ ds, ds <| qs_parser := p |>) id |> |>).
  assert (Ht1 : tick_at any_conn B t1).
  { split; [|done]. destruct Ht as [[Hi Hs] _]. split; [done|]. by apply streams_ok_alter. }
  change (runs (mret ()) t1 (λ _ s, runs (r ← try r; match r with
    | inr (Some packet) =>
        '(events, resp) ← on_self (on_mqtt (ingest_parsed_stream_packet_into packet id (tk_events t)));
        modify (λ t, t <| tk_events := events |>);;
        (if negb (bool_decide (resp = [])) then on_self (on_stream id (answered resp)) else mret ());;
        drain_data_stream_loop id fuel
    | inr None => mret ()
    | inl error => push_tick_event (ErrorEvent (from_parse_error error))
    end) s (λ _ t', tick_at any_conn B t'))). run_step. run_step.
  apply runs_result; [by intros ->|intros error _; by apply push_tick_ok|].
  intros [packet|] ->; [|by run_step]. destruct Hn as (_ & Hlt & Hwf). run_step.
  eapply runs_mono; [apply on_self_streams; [by apply ingest_order|apply Ht1]|].
  intros [events resp] t2 [Ht2 Hd2]. run_step. run_step. run_step.
  assert (Hleft : stream_left id t2 = zlen (unread p)).
  { unfold stream_left. rewrite Hd2. simpl. by rewrite lookup_alter_eq, Hds. }
  destruct (negb _); [|run_step; apply IH; [by split|]; change (stream_left id t2 < Z.of_nat fuel); lia].
  eapply runs_mono; [apply (on_stream_left (answered resp)); [intros ?; apply answered_parser|by split]|].
  intros [] t3 [Ht3 Hl3]. apply IH; [done|]. rewrite Hl3. change (stream_left id t2 < Z.of_nat fuel). lia.
Qed.

Lemma drain_stream_ok id : kept (drain_data_stream id).
Proof.
  unfold drain_data_stream. intros t Ht. run_step. run_step. apply drain_loop_ok; [done|].
  unfold stream_left. destruct (qe_data_streams (tk_self t) !! id) as [ds|]; simpl; [|lia].
  unfold unread, zlen. rewrite length_drop. lia.
Qed.

Lemma read_stream_ok id ds : kept (read_data_stream id ds).
Proof.
  unfold read_data_stream. pose proof (λ event i, stream_ended_ok any_conn B HB event i).
  pose proof (λ i r b, stream_closed_ok any_conn B HB i r b).
  pose proof (λ i, with_chunks_ok i _ (data_chunks_ok i)). unfold handle_stream_reset. preserve.
Qed.
Lemma read_streams_ok n ids : kept (read_data_streams n ids).
Proof.
  pose proof (λ event i, stream_ended_ok any_conn B HB event i). pose proof read_stream_ok.
  pose proof drain_stream_ok. unfold handle_stream_reset in *.
  induction ids as [|id ids IH]; cbn [read_data_streams]; preserve.
Qed.

(** ** Flushing *)
Lemma drain_written_ok id b c n c' :
  stream_write id b c = (n, c') → ∃ rest, drain_written b n = Ok rest.
Proof.
  intros Hw. unfold drain_written. destruct n as [n|]; [|eauto]. apply write_accepts in Hw.
  replace (zlen b <? n) with false by lia. eauto.
Qed.

(** What is written is taken off the buffer, whatever the connection accepts of it. *)
Lemma write_ok {A} I id b (k : bytes → MT A) :
  (∀ rest, preserves I I (k rest)) →
  (∀ t c', I t → I (t <| tk_conn := c' |>)) →
  preserves I I (written ← on_conn (stream_write id b); rest ← lift (drain_written b written); k rest).
Proof.
  intros Hk Hconn t Ht. run_step. unfold runs at 1, on_conn.
  destruct (stream_write id b (tk_conn t)) as [n c'] eqn:Hw.
  destruct (drain_written_ok _ _ _ _ _ Hw) as [rest Hr]. run_step. apply runs_lift. exists rest.
  split; [done|]. by apply Hk, Hconn.
Qed.

Lemma flush_control_ok : kept flush_control.
Proof.
  unfold flush_control. pose proof (on_self_preserves any_conn B B _ (take_outgoing_ok B HB)).
  pose proof (λ b, on_self_preserves any_conn B B _ (append_control_ok B b 0)).
  apply preserves_get. intros t0 _. eapply (preserves_bind _ (tick_at any_conn B)); [solve [preserve]|]. intros [].
  apply preserves_get. intros t _. destruct (qe_control_stream (tk_self t)) as [id|]; [|preserve].
  eapply preserves_bind; [apply do_any_conn|]. intros [].
  eapply (preserves_bind _ (tick_at any_conn B)); [|solve [preserve]].
  destruct (_ && _); [|preserve]. apply write_ok; [intros rest; preserve|done].
Qed.

(** The streams that are flushed exist, and stay. *)
Definition streams_exist (ids : list Z) t : Prop :=
  tick_at any_conn B t ∧ ∀ id, id ∈ ids → is_Some (qe_data_streams (tk_self t) !! id).

Lemma exist_put ids id ds t :
  streams_exist ids t → parser_inv (qs_parser ds) →
  runs (on_self (on_stream id (λ _, ds))) t (λ _ t', streams_exist ids t').
Proof.
  intros [[[Hi Hs] _] Hids] Hp. split; [split; [split; [done|]|done]|].
  - by apply streams_ok_alter.
  - intros i Hin. simpl. rewrite lookup_alter. case_decide; [|by apply Hids].
    destruct (Hids i Hin) as [d Hd]. subst. rewrite Hd. simpl. eauto.
Qed.

Lemma flush_stream_ok ids id :
  id ∈ ids → preserves (streams_exist ids) (streams_exist ids) (flush_stream id).
Proof.
  intros Hid t Ht. unfold flush_stream. run_step. run_step. run_step.
  destruct (proj2 Ht id Hid) as [ds Hds]. apply runs_expect. exists ds. rewrite Hds. split; [done|].
  pose proof (quic_ok_parser _ _ _ _ (proj1 (proj1 Ht)) Hds) as Hp.
  assert (Hdo : ∀ f, preserves (streams_exist ids) (streams_exist ids) (do_conn f)).
  { intros f t' [[Ht' ?] Hids]. split; [by split|done]. }
  assert (Hend : ∀ ds', qs_parser ds' = qs_parser ds → preserves (streams_exist ids) (streams_exist ids)
    (ds ← (if qs_finishing ds' && negb (qs_finished ds') && bool_decide (qs_outgoing ds' = []) then
             do_conn (stream_finish id);;
             mret (ds' <| qs_finishing := false |> <| qs_finished := true |>)
           else mret ds');
     on_self (on_stream id (λ _, ds)))).
  { intros ds' Heq t' Ht'. run_step. destruct (_ && _ && _).
    - run_step. eapply runs_mono; [by apply Hdo|]. intros [] t1 Ht1. run_step.
      apply exist_put; [done|]. simpl. by rewrite Heq.
    - run_step. apply exist_put; [done|]. by rewrite Heq. }
  run_step. eapply runs_mono; [by apply Hdo|]. intros [] t1 Ht1. run_step.
  destruct (negb _); [|run_step; by apply Hend].
  run_step. unfold runs at 1, on_conn.
  destruct (stream_write id (qs_outgoing ds) (tk_conn t1)) as [n c'] eqn:Hw.
  destruct (drain_written_ok _ _ _ _ _ Hw) as [rest Hr]. run_step. apply runs_lift. exists rest.
  split; [done|]. run_step. apply Hend; [by case_bool_decide|].
  destruct Ht1 as [[Ht1 ?] Hids]. split; [by split|done].
Qed.

Lemma for_each_preserves {S A} (I : S → Prop) (f : A → St S ()) l :
  (∀ a, a ∈ l → preserves I I (f a)) → preserves I I (for_each_st l f).
Proof.
  induction l as [|a l IH]; intros Hf; cbn [for_each_st]; [apply preserves_ret|].
  apply (preserves_bind I I I); [apply Hf; by left|]. intros []. apply IH. intros x Hx. apply Hf. by right.
Qed.

Lemma send_order_perm streams : stream_send_order streams ≡ₚ (map_to_list streams).*1.
Proof. unfold stream_send_order. rewrite merge_sort_Permutation. apply iter_streams_perm. Qed.
Lemma send_order_elem streams id : id ∈ stream_send_order streams ↔ is_Some (streams !! id).
Proof.
  rewrite (elem_of_Permutation_proper id _ _ (send_order_perm streams)), list_elem_of_fmap. split.
  - intros ([i ds] & -> & Hin). apply elem_of_map_to_list in Hin. simpl. eauto.
  - intros [ds Hd]. exists (id, ds). split; [done|]. by apply elem_of_map_to_list.
Qed.

Lemma flush_streams_ok : kept flush_streams.
Proof.
  intros t Ht. unfold flush_streams. run_step. run_step.
  set (ids := stream_send_order _). eapply runs_mono.
  - apply (for_each_preserves (streams_exist ids)); [intros id; apply flush_stream_ok|].
    split; [done|]. intros id. apply send_order_elem.
  - by intros [] t' [Ht' _].
Qed.

(** ** Datagrams, and the deferred close *)
Lemma datagrams_ok now fuel :
  preserves (tick_at (λ c, (transmits_left now c < fuel)%nat) B) (tick_at any_conn B) (collect_datagrams now fuel).
Proof.
  induction fuel as [|fuel IH]; cbn [collect_datagrams]; intros t [Ht Hf]; [lia|].
  run_step. unfold runs at 1, on_conn.
  destruct (connection_poll_transmit now (tk_conn t)) as [[d|] c'] eqn:Hp; [|by split].
  pose proof (transmit_progress _ _ _ _ Hp). run_step.
  eapply runs_mono; [apply (on_fields_ok (λ c, (transmits_left now c < fuel)%nat) B)|].
  - by intros ?.
  - split; [exact Ht|]. simpl. lia.
  - intros [] t1 Ht1. by apply IH.
Qed.
Lemma all_datagrams_ok now : kept (collect_all_datagrams now).
Proof.
  intros t Ht. unfold collect_all_datagrams. run_step. run_step. apply datagrams_ok.
  split; [apply Ht|]. lia.
Qed.
Lemma pending_close_ok now : kept (apply_pending_close now).
Proof.
  unfold apply_pending_close. pose proof (on_self_preserves any_conn B B _ (lost_ok B HB)).
  pose proof all_datagrams_ok. preserve.
Qed.
End reading.

(** ** The connection's part of the tick *)
Lemma drive_connection_ok B N now :
  (∀ c, Z.of_nat (events_left c) <= N) → B + N + 2 <= u32_MAX →
  preserves (tick_at any_conn B) (tick_at any_conn (B + N + 1)) (drive_connection now).
Proof.
  intros HN HB. unfold drive_connection. apply preserves_get. intros t0 Ht0.
  pose proof (quic_ok_options _ _ (tick_at_ok _ _ _ Ht0)) as Hw. cbv zeta.
  eapply preserves_bind; [apply do_any_conn|]. intros [] t1 Ht1. run_step. run_step. run_step.
  set (fuel := S (events_left (tk_conn t1))). pose proof (HN (tk_conn t1)).
  eapply runs_mono; [apply (poll_events_ok _ _ fuel B Hw); [lia|split; [apply Ht1|lia]]|].
  intros [] t2 Ht2. run_step. run_step. run_step.
  eapply runs_mono; [apply (accept_streams_ok _ _ (S (incoming_left (tk_conn t2))) (B + Z.of_nat fuel)); [done|]|].
  { split; [apply Ht2|lia]. }
  intros [] t3 Ht3. assert (Ht4 : tick_at any_conn (B + N + 1) t3) by (eapply tick_at_mono; [exact Ht3|lia]).
  revert t3 Ht3 Ht4. assert (HB' : B + N + 1 + 1 <= u32_MAX) by lia.
  assert (Hk : preserves (tick_at any_conn (B + N + 1)) (tick_at any_conn (B + N + 1)) (read_control_stream;;
    t ← get_st;
    read_data_streams (mo_max_event_count (me_options (qe_mqtt_engine (tk_self t))))
      (iter_streams (qe_data_streams (tk_self t)));;
    flush_control;; flush_streams;; collect_all_datagrams now;; apply_pending_close now)).
  { pose proof (read_control_ok _ HB'). pose proof (read_streams_ok _ HB'). pose proof (flush_control_ok _ HB').
    pose proof (flush_streams_ok (B + N + 1)). pose proof (all_datagrams_ok (B + N + 1)).
    pose proof (pending_close_ok _ HB'). preserve. }
  intros t3 _ Ht4. by apply Hk.
Qed.

Lemma with_connection_ok B B' events body :
  B <= B' → preserves (tick_at any_conn B) (tick_at any_conn B') body →
  preserves (quic_ok B) (quic_ok B') (with_connection events body).
Proof.
  intros HB Hb q Hq. unfold runs, with_connection. destruct (qe_connection q) as [c|].
  - specialize (Hb {| tk_self := q; tk_conn := c; tk_events := events |} (conj Hq I)). unfold runs in Hb.
    destruct (body _) as [[[] t]| |]; [|done..]. destruct Hb as [[Hi Hs] _]. by split.
  - by eapply quic_ok_mono.
Qed.

(** ** Session work *)
Lemma start_deadline_pop op (id : option Z) e :
  (start_deadline op id;; pop_session_replay) e = (pop_session_replay;; start_deadline op id) e.
Proof.
  unfold start_deadline, pop_session_replay, on_state, mbind, St_bind, get_st, modify, lift. cbv beta iota.
  change (me_options (e <| me_session_replay ::= tail |>)) with (me_options e).
  change (me_now (e <| me_session_replay ::= tail |>)) with (me_now e).
  destruct (match op with OpConnect => _ | _ => _ end) as [d|]; [|done].
  destruct (deadline_from (me_now e) d) as [x| |]; simpl; [|done..]. by destruct id.
Qed.

Lemma start_deadline_replay op (id : option Z) e e' :
  start_deadline op id e = Ok ((), e') → me_session_replay e' = me_session_replay e.
Proof.
  unfold start_deadline, on_state, mbind, St_bind, get_st, modify, lift. cbv beta iota.
  destruct (match op with OpConnect => _ | _ => _ end) as [d|]; [|by intros [= <-]].
  destruct (deadline_from (me_now e) d) as [x| |]; simpl; [|done..]. by intros [= <-].
Qed.

(** The head of the replay can always be tracked: nothing else holds its identifier. *)
Lemma replay_track_ok B e id p l stream :
  B + 1 <= u32_MAX → in_order B e → me_session_replay e = (id, p) :: l →
  is_publish p && negb (InflightQueue_can_push_publish (me_inflight_queue e)) = false →
  ∃ queue, InflightQueue_push_with_stream_at (me_inflight_queue e) id p (replay_qos p) stream (me_now e)
           = Ok queue ∧
    runs (modify (λ e, e <| me_inflight_queue := queue |>);; start_deadline OpPublish (Some id);;
          pop_session_replay) e (λ _ e', in_order B e').
Proof.
  intros HB He Hl Hpub. apply in_order_good in He.
  destruct (pop_replay (me_now e) B _ ltac:(lia) _ e id p l He Hl) as (He1 & (Hu1 & Hu2 & _) & HR & HE).
  set (e1 := e <| me_session_replay ::= tail |>) in *.
  pose proof (track_step _ _ _ _ e1 id p (replay_qos p) stream He1 HR Hu1 Hu2) as Ht.
  change (me_inflight_queue e1) with (me_inflight_queue e) in Ht. change (me_now e1) with (me_now e) in Ht.
  destruct (InflightQueue_push_with_stream_at _ _ _ _ _ _) as [queue|error|]; [|exfalso|done].
  - destruct Ht as [He2 _]. exists queue. split; [done|]. run_step. run_step.
    unfold runs. rewrite start_deadline_pop. change (runs (pop_session_replay;; start_deadline OpPublish (Some id))
      (e <| me_inflight_queue := queue |>) (λ _ e', in_order B e')).
    run_step. unfold pop_session_replay. run_step. eapply runs_mono; [apply start_deadline_keeps; exact He2|].
    intros [] e3 He3. exact (good_in_order _ _ _ _ _ He3).
  - destruct (ei_ids _ (gd_inv _ _ _ _ _ He)) as [Hown _]. rewrite Hl in Hown.
    destruct (io_replay _ _ _ _ _ Hown id) as (Hid & _ & HE'); [by left|].
    destruct Ht as [?|[[x Hx]|[Hp Hq]]]; [done| |].
    + change (iq_entries (me_inflight_queue e) !! id = Some x) in Hx. by rewrite HE' in Hx.
    + by rewrite Hp, Hq in Hpub.
Qed.

(** Opening streams and buffering bytes leave the protocol engine alone. *)
Definition engine_is e q : Prop := qe_mqtt_engine q = e.
Hint Resolve ok_or_none_panic allowed_no_panic check_stream_bytes_no_panic ensure_stream_capacity_no_panic
  replay_encoding_no_panic : preserve.
Hint Extern 2 (preserves (engine_is _) _ (modify _)) => by apply preserves_modify : preserve.

Lemma enqueue_engine e id b : preserves (engine_is e) (engine_is e) (enqueue_on_stream id b).
Proof. unfold enqueue_on_stream, on_stream, on_journal. preserve. Qed.
Lemma open_engine e role : preserves (engine_is e) (engine_is e) (open_bidi_stream_with_role role).
Proof. unfold open_bidi_stream_with_role, set_connection, on_journal. preserve. Qed.
Lemma default_pub_engine e : preserves (engine_is e) (engine_is e) ensure_default_pub_stream.
Proof. unfold ensure_default_pub_stream. pose proof (open_engine e). preserve. Qed.

Lemma route_replay_ok B fuel : ∀ q,
  B + 1 <= u32_MAX → quic_ok B q → (length (me_session_replay (qe_mqtt_engine q)) < fuel)%nat →
  runs (route_replay fuel) q (λ _ q', quic_ok B q').
Proof.
  induction fuel as [|fuel IH]; intros q HB Hq Hf; [lia|]. cbn [route_replay]. run_step. run_step.
  destruct (me_session_replay (qe_mqtt_engine q)) as [|[id p] l] eqn:Hl; [by run_step|]. simpl in Hf.
  run_step. apply runs_result; [apply replay_encoding_no_panic| |].
  - intros error _. pose proof Hq as [Hi Hs]. apply in_order_good in Hi.
    destruct (pop_replay _ B _ ltac:(lia) _ _ id p l Hi Hl) as (He1 & Hu1 & _).
    set (e1 := qe_mqtt_engine q <| me_session_replay ::= tail |>) in *.
    pose proof (fail_operation_step _ _ _ _ e1 id p error He1 Hu1) as Hfail.
    run_step. unfold runs at 1, on_mqtt at 1, pop_session_replay, modify. cbv beta iota. run_step.
    unfold runs at 1, on_mqtt. change (qe_mqtt_engine (q <| qe_mqtt_engine := _ |>)) with e1.
    unfold runs in Hfail. destruct (fail_operation id p error e1) as [[[] e2]| |]; [|done..].
    destruct Hfail as [He2 (_ & Hrep & _)]. apply IH; [done| |].
    + split; [exact (good_in_order _ _ _ _ _ He2)|exact Hs].
    + simpl. rewrite Hrep. unfold e1. simpl. rewrite Hl. simpl. lia.
  - intros b _. destruct (_ && _) eqn:Hpub; [by run_step|]. set (e := qe_mqtt_engine q) in *.
    assert (Hqe : quic_ok B q ∧ engine_is e q) by done. clearbody e. clear Hq.
    pose proof (preserves_and _ _ _ _ _ (default_pub_ok B) (default_pub_engine e)) as Hdef.
    run_step. eapply runs_mono; [by apply Hdef|]. intros [error|stream] q1 Hq1; [apply Hq1|].
    run_step. run_step. run_step. apply runs_result; [apply ensure_stream_capacity_no_panic|by intros; apply Hq1|].
    intros [] _. run_step.
    eapply runs_mono; [apply (preserves_and _ _ _ _ _ (enqueue_stream_ok B stream b) (enqueue_engine e stream b)); exact Hq1|].
    intros [error|[]] q2 [Hq2 Heq]; [done|]. unfold engine_is in Heq. run_step. run_step. rewrite Heq.
    destruct (replay_track_ok B e id p l (Some stream) HB) as (queue & Hpush & Hrun); [|done..|].
    { rewrite <- Heq. apply Hq2. }
    rewrite Hpush. run_step. apply runs_result; [done..|]. intros ? [= <-]. run_step.
    unfold runs at 1, on_mqtt, modify. cbv beta iota. rewrite Heq.
    unfold runs, mbind, St_bind, modify in Hrun. cbv beta iota in Hrun.
    set (e1 := e <| me_inflight_queue := queue |>) in *. run_step. unfold runs at 1, on_mqtt.
    change (qe_mqtt_engine (q2 <| qe_mqtt_engine := e1 |>)) with e1.
    destruct (start_deadline OpPublish (Some id) e1) as [[[] e2]| |] eqn:Hd; [|done..]. run_step.
    unfold runs at 1, pop_session_replay, modify. cbv beta iota. unfold pop_session_replay, modify in Hrun.
    apply IH; [done| |].
    + split; [exact Hrun|]. apply Hq2.
    + simpl. replace (me_session_replay e2) with (me_session_replay e1); [|symmetry; by apply (start_deadline_replay _ _ _ _ Hd)].
      unfold e1. simpl. rewrite Hl. simpl. lia.
Qed.

Lemma route_session_ok B : B + 1 <= u32_MAX → preserves (quic_ok B) (quic_ok B) route_session_events.
Proof.
  intros HB. unfold route_session_events. apply preserves_get. intros self _.
  destruct (quic_is_connected self); [|apply preserves_ret].
  apply (preserves_bind _ (quic_ok B)); [|intros r; apply preserves_ret].
  unfold route_session_work. apply preserves_get. intros self' _. apply preserves_try_bind.
  - destruct (me_configured_subscriptions_pending _); [|apply preserves_ret].
    apply preserves_try_bind; [by apply quic_subscribe_ok|]. intros _.
    apply (preserves_bind _ (quic_ok B)); [|intros []; apply preserves_ret].
    apply on_mqtt_preserves, order_of_keeps. intros now U K e He. run_step.
    apply (good_in_order now B U K). frame.
  - intros _ q Hq. run_step. run_step. apply route_replay_ok; [done..|lia].
Qed.

(** ** The tick *)
Lemma route_retransmission_ok B r : preserves (quic_ok B) (quic_ok B) (route_retransmission r).
Proof. destruct r as [id b]. unfold route_retransmission. pose proof (enqueue_stream_ok B id b). preserve. Qed.

Lemma quic_handle_tick_ok B N now :
  (∀ c, Z.of_nat (events_left c) <= N) → 0 <= N → B + N + 3 <= u32_MAX →
  preserves (quic_ok B) (quic_ok (B + N + 2)) (quic_handle_tick now).
Proof.
  intros HN H0N HB q Hq. unfold quic_handle_tick. run_step. run_step. cbv zeta. run_step.
  set (n := ord_max _ _).
  assert (Hbu : preserves (in_order B) (in_order B) (begin_update n)).
  { intros e He. eapply runs_mono; [by apply begin_update_step|]. intros [x|[]] e'; [by intros ->|].
    intros [-> He']. exact (good_in_order _ _ _ _ _ He'). }
  eapply runs_mono; [apply (on_mqtt_preserves B B _ Hbu); exact Hq|]. intros [error|[]] q1 Hq1.
  { run_step. eapply quic_ok_mono; [done|lia]. }
  revert q1 Hq1.
  assert (Hk : preserves (quic_ok B) (quic_ok (B + N + 2)) (self ← get_st;
      modify (λ self, self <| qe_pending_transport_events := [] |>);;
      events ← with_connection (qe_pending_transport_events self) (drive_connection n);
      session_events ← route_session_events;
      self ← get_st;
      tick_events ← on_mqtt (handle_tick (ord_max n (me_now (qe_mqtt_engine self))));
      retransmissions ← on_mqtt take_stream_retransmissions;
      for_each_st retransmissions route_retransmission;;
      mret (events ++ session_events ++ tick_events))); [|exact Hk].
  apply preserves_get. intros self _.
  eapply (preserves_bind _ (quic_ok B)); [apply untouched_preserves; by split|]. intros [].
  eapply preserves_bind; [apply (with_connection_ok B (B + N + 1)); [lia|apply drive_connection_ok; [done|lia]]|].
  intros events. eapply preserves_bind; [apply route_session_ok; lia|]. intros session_events.
  apply preserves_get. intros self' _. replace (B + N + 2) with (B + N + 1 + 1) by lia.
  eapply preserves_bind; [apply on_mqtt_preserves, handle_tick_order; lia|]. intros tick_events.
  eapply preserves_bind; [apply on_mqtt_preserves, take_retransmissions_order; lia|]. intros retransmissions.
  eapply preserves_bind; [apply for_each_preserves; intros; apply route_retransmission_ok|]. intros [].
  apply preserves_ret.
Qed.
End tick.

(** ** Every sequence of calls *)
Inductive QuicCall (T : Type) `{Quic T} : Type :=
  | QuicConnect (addr : SocketAddr) (name : bytes) (config : CryptoConfig) (now : T)
  | QuicConnectZeroRtt (addr : SocketAddr) (name : bytes) (config : CryptoConfig)
      (zero_rtt : QuicZeroRttConfig) (now : T)
  | QuicReconnect (now : T)
  | QuicNotifyAddress
  | QuicDatagram (data : bytes) (addr : SocketAddr) (now : T)
  | QuicTick (now : T)
  | QuicTakeDatagrams
  | QuicTakeEvents
  | QuicSetParseLevel (level : ParseLevel)
  | QuicOpenStream
  | QuicSetPriority (stream priority : Z)
  | QuicPublish (command : PublishCommand)
  | QuicPublishOn (stream : Z) (command : PublishCommand)
  | QuicSubscribe (command : SubscribeCommand)
  | QuicSubscribeOn (stream : Z) (command : SubscribeCommand)
  | QuicSubscribeControl (command : SubscribeCommand)
  | QuicUnsubscribe (command : UnsubscribeCommand)
  | QuicUnsubscribeOn (stream : Z) (command : UnsubscribeCommand)
  | QuicUnsubscribeControl (command : UnsubscribeCommand)
  | QuicClose (error_code : Z) (reason : bytes)
  | QuicDisconnectAndClose (reason_code : Z) (properties : list Property) (error_code : Z)
      (reason : bytes)
  | QuicCloseSilent
  | QuicFinish (stream : Z)
  | QuicReset (stream error_code : Z)
  | QuicStop (stream error_code : Z)
  | QuicMqttPing
  | QuicTransportPing
  | QuicSendRaw (stream : Z) (b : bytes)
  | QuicSendPacket (stream : Z) (packet : MqttPacket)
  | QuicAcknowledge (stream : Z) (packet : MqttPacket)
  | QuicPuback (stream packet_id : Z)
  | QuicPubrec (stream packet_id : Z)
  | QuicPubrel (stream packet_id : Z)
  | QuicPubcomp (stream packet_id : Z)
  | QuicDisconnect.
Arguments QuicConnect {_ _} _ _ _ _.
Arguments QuicConnectZeroRtt {_ _} _ _ _ _ _.
Arguments QuicReconnect {_ _} _.
Arguments QuicNotifyAddress {_ _}.
Arguments QuicDatagram {_ _} _ _ _.
Arguments QuicTick {_ _} _.
Arguments QuicTakeDatagrams {_ _}.
Arguments QuicTakeEvents {_ _}.
Arguments QuicSetParseLevel {_ _} _.
Arguments QuicOpenStream {_ _}.
Arguments QuicSetPriority {_ _} _ _.
Arguments QuicPublish {_ _} _.
Arguments QuicPublishOn {_ _} _ _.
Arguments QuicSubscribe {_ _} _.
Arguments QuicSubscribeOn {_ _} _ _.
Arguments QuicSubscribeControl {_ _} _.
Arguments QuicUnsubscribe {_ _} _.
Arguments QuicUnsubscribeOn {_ _} _ _.
Arguments QuicUnsubscribeControl {_ _} _.
Arguments QuicClose {_ _} _ _.
Arguments QuicDisconnectAndClose {_ _} _ _ _ _.
Arguments QuicCloseSilent {_ _}.
Arguments QuicFinish {_ _} _.
Arguments QuicReset {_ _} _ _.
Arguments QuicStop {_ _} _ _.
Arguments QuicMqttPing {_ _}.
Arguments QuicTransportPing {_ _}.
Arguments QuicSendRaw {_ _} _ _.
Arguments QuicSendPacket {_ _} _ _.
Arguments QuicAcknowledge {_ _} _ _.
Arguments QuicPuback {_ _} _ _.
Arguments QuicPubrec {_ _} _ _.
Arguments QuicPubrel {_ _} _ _.
Arguments QuicPubcomp {_ _} _ _.
Arguments QuicDisconnect {_ _}.

Definition quic_call_ok {T} `{Quic T} (call : QuicCall T) : Prop :=
  match call with
  | QuicPublish c | QuicPublishOn _ c => publish_command_ok c
  | QuicSubscribe c | QuicSubscribeOn _ c | QuicSubscribeControl c => wf_opt is_u16 (sc_packet_id c)
  | QuicUnsubscribe c | QuicUnsubscribeOn _ c | QuicUnsubscribeControl c =>
      wf_opt is_u16 (uc_packet_id c)
  | _ => True
  end.

Section runs.
Context {T : Type} `{TimePoint T, !Runtime T, !Quic T, !QuicHost T}.
Local Abbreviation M := (St (QuicMqttEngine T)).

Definition forget {A} (m : M A) : M () := m;; mret ().

Definition run_quic_call (call : QuicCall T) : M () :=
  match call with
  | QuicConnect addr name config now => forget (quic_connect addr name config now)
  | QuicConnectZeroRtt addr name config zero now =>
      forget (quic_connect_with_zero_rtt addr name config zero now)
  | QuicReconnect now => forget (quic_reconnect now)
  | QuicNotifyAddress => forget notify_local_address_changed
  | QuicDatagram data addr now => handle_datagram data addr now
  | QuicTick now => forget (quic_handle_tick now)
  | QuicTakeDatagrams => forget take_outgoing_datagrams
  | QuicTakeEvents => forget quic_take_events
  | QuicSetParseLevel level => quic_set_parse_level level
  | QuicOpenStream => forget open_data_stream
  | QuicSetPriority stream priority => forget (set_stream_priority stream priority)
  | QuicPublish c => forget (quic_publish c)
  | QuicPublishOn stream c => forget (quic_publish_on stream c)
  | QuicSubscribe c => forget (quic_subscribe c)
  | QuicSubscribeOn stream c => forget (quic_subscribe_on stream c)
  | QuicSubscribeControl c => forget (subscribe_on_control c)
  | QuicUnsubscribe c => forget (quic_unsubscribe c)
  | QuicUnsubscribeOn stream c => forget (quic_unsubscribe_on stream c)
  | QuicUnsubscribeControl c => forget (unsubscribe_on_control c)
  | QuicClose code reason => forget (quic_close code reason)
  | QuicDisconnectAndClose reason ps code text =>
      forget (disconnect_and_close_with reason ps code text)
  | QuicCloseSilent => close_silent
  | QuicFinish stream => forget (finish_stream stream)
  | QuicReset stream code => forget (reset_stream stream code)
  | QuicStop stream code => forget (stop_stream stream code)
  | QuicMqttPing => forget mqtt_ping
  | QuicTransportPing => forget quic_ping
  | QuicSendRaw stream b => forget (send_raw_on stream b)
  | QuicSendPacket stream p => forget (send_packet_on stream p)
  | QuicAcknowledge stream p => forget (acknowledge_on stream p)
  | QuicPuback stream id => forget (puback_on stream id)
  | QuicPubrec stream id => forget (pubrec_on stream id)
  | QuicPubrel stream id => forget (pubrel_on stream id)
  | QuicPubcomp stream id => forget (pubcomp_on stream id)
  | QuicDisconnect => forget quic_disconnect
  end.

Definition run_quic (calls : list (QuicCall T)) : M () := for_each_st calls run_quic_call.
End runs.

Section all.
Context {T : Type} `{TimePointLaws T} `{!Runtime T} `{!RuntimeLaws T}.
Context `{!Quic T} `{!QuicHost T} `{!QuicLaws T}.
Context (N : Z) (HN : ∀ c : Connection, Z.of_nat (events_left c) <= N) (H0N : 0 <= N).
Implicit Types (q : QuicMqttEngine T).

Lemma forget_ok {A} I J (m : St (QuicMqttEngine T) A) : preserves I J m → preserves I J (forget m).
Proof. intros Hm. eapply preserves_bind; [exact Hm|]. intros a. apply preserves_ret. Qed.

Lemma run_quic_call_ok B call :
  quic_call_ok call → B + N + 3 <= u32_MAX →
  preserves (quic_ok B) (quic_ok (B + N + 2)) (run_quic_call call).
Proof.
  intros Hok HB. assert (HB' : B + 1 <= u32_MAX) by lia.
  assert (Hup : ∀ {A} d (m : St (QuicMqttEngine T) A), d <= N + 2 →
    preserves (quic_ok B) (quic_ok (B + d)) m → preserves (quic_ok B) (quic_ok (B + N + 2)) (forget m)).
  { intros A d m Hd Hm. apply forget_ok. eapply preserves_weaken; [exact Hm|done|]. intros q Hq.
    eapply quic_ok_mono; [done|lia]. }
  assert (Hsame : ∀ {A} (m : St (QuicMqttEngine T) A), preserves (quic_ok B) (quic_ok B) m →
    preserves (quic_ok B) (quic_ok (B + N + 2)) (forget m)).
  { intros A m Hm. apply (Hup A 0); [lia|]. by rewrite Z.add_0_r. }
  assert (Hsame' : ∀ m : St (QuicMqttEngine T) (), preserves (quic_ok B) (quic_ok B) m →
    preserves (quic_ok B) (quic_ok (B + N + 2)) m).
  { intros m Hm. eapply preserves_weaken; [exact Hm|done|]. intros q Hq. eapply quic_ok_mono; [done|lia]. }
  destruct call; cbn [quic_call_ok run_quic_call] in *.
  - apply (Hup _ 1); [lia|]. apply quic_connect_ok. lia.
  - apply (Hup _ 1); [lia|]. apply quic_connect_0rtt_ok. lia.
  - apply (Hup _ 2); [lia|]. apply quic_reconnect_ok. lia.
  - by apply Hsame, notify_ok.
  - by apply Hsame', handle_datagram_ok.
  - apply forget_ok. by apply quic_handle_tick_ok.
  - by apply Hsame, take_datagrams_ok.
  - by apply Hsame, quic_take_events_ok.
  - by apply Hsame', set_parse_level_ok.
  - by apply Hsame, open_stream_ok.
  - by apply Hsame, set_stream_priority_ok.
  - by apply Hsame, quic_publish_ok.
  - by apply Hsame, quic_publish_on_ok.
  - by apply Hsame, quic_subscribe_ok.
  - by apply Hsame, quic_subscribe_on_ok.
  - by apply Hsame, subscribe_on_control_ok.
  - by apply Hsame, quic_unsubscribe_ok.
  - by apply Hsame, quic_unsubscribe_on_ok.
  - by apply Hsame, unsubscribe_on_control_ok.
  - by apply Hsame, quic_close_ok.
  - apply (Hup _ 1); [lia|]. by apply disconnect_and_close_ok.
  - eapply preserves_weaken; [apply (reset_state_ok B); lia|done|]. intros q Hq. eapply quic_ok_mono; [done|lia].
  - by apply Hsame, finish_stream_ok.
  - by apply Hsame, reset_stream_ok.
  - by apply Hsame, stop_stream_ok.
  - by apply Hsame, mqtt_ping_ok.
  - by apply Hsame, quic_ping_ok.
  - by apply Hsame, send_raw_on_ok.
  - by apply Hsame, send_packet_on_ok.
  - by apply Hsame, acknowledge_on_ok.
  - by apply Hsame, puback_on_ok.
  - by apply Hsame, pubrec_on_ok.
  - by apply Hsame, pubrel_on_ok.
  - by apply Hsame, pubcomp_on_ok.
  - apply (Hup _ 1); [lia|]. apply quic_disconnect_ok. lia.
Qed.

Lemma run_quic_ok calls : ∀ B,
  Forall quic_call_ok calls → B + zlen calls * (N + 2) + 1 <= u32_MAX →
  preserves (quic_ok B) (quic_ok (B + zlen calls * (N + 2))) (run_quic calls).
Proof.
  induction calls as [|call calls IH]; intros B Hc HB.
  { replace (B + zlen (@nil (QuicCall T)) * (N + 2)) with B by (change (zlen (@nil (QuicCall T))) with 0; lia). apply preserves_ret. }
  rewrite zlen_cons in *. pose proof (zlen_nonneg calls). apply Forall_cons_1 in Hc as [Hcall Hc].
  unfold run_quic. cbn [for_each_st].
  eapply preserves_bind; [apply run_quic_call_ok; [done|nia]|]. intros [].
  replace (B + (1 + zlen calls) * (N + 2)) with (B + N + 2 + zlen calls * (N + 2)) by lia.
  apply IH; [done|lia].
Qed.

Lemma new_quic_ok options :
  wf_options options → mo_sessionless options = false →
  check_time_range options (instant_now 0) = Ok () → quic_ok 1 (QuicMqttEngine_new options).
Proof.
  intros Hw Hs Ht. split; [|apply no_streams_ok].
  pose proof (new_in_order options (instant_now 0) Hw Hs Ht) as He%in_order_good.
  unfold MqttEngine_new. simpl.
  set (e := MqttEngine_new_at options (instant_now 0)) in *.
  apply (good_in_order (me_now e) 1 (zlen (unread (me_parser e))) (potential e)). frame.
Qed.
End all.

(** ** Theorems *)

(** C5: the MQTT-over-QUIC engine never panics and never loops.  For every well-typed
    configuration with a persistent session ([sessionless] off) whose deadlines are representable
    from the first reading of the clock on, every QUIC connection and endpoint that keep the
    documented promises of [quinn-proto] (a polling loop ends, a write accepts a prefix) and have
    at most [N] events ready at a time, every iteration order of the stream map, every clock, and
    every sequence of calls (connecting with or without 0-RTT, datagrams, ticks with any events,
    resets, streams and bytes from the peer, well-typed commands on any stream except a QoS 0
    PUBLISH that carries a packet identifier, close controls, raw bytes) short enough that calls
    times events stays below [u32::MAX]: every call returns, no [unwrap], [drain] or counter
    fails, the invariant of the protocol engine and of every stream's parser holds at the end,
    and a default stream is one of the streams. *)
Theorem quic_never_panics {T} `{TimePointLaws T} `{!Runtime T} `{!RuntimeLaws T}
    `{!Quic T} `{!QuicHost T} `{!QuicLaws T} N options calls :
  (∀ c : Connection, Z.of_nat (events_left c) <= N) → 0 <= N →
  wf_options options → mo_sessionless options = false →
  check_time_range options (instant_now 0) = Ok () →
  Forall quic_call_ok calls → (zlen calls + 1) * (N + 2) < u32_MAX →
  ∃ q, run_quic calls (QuicMqttEngine_new options) = Ok ((), q) ∧
    engine_inv (qe_mqtt_engine q) ∧
    streams_ok (qe_data_streams q) (qe_default_pub_stream q) (qe_default_sub_stream q).
Proof.
  intros HN H0N Hw Hs Ht Hc Hlen.
  pose proof (run_quic_ok N HN H0N calls 1 Hc ltac:(lia) _ (new_quic_ok options Hw Hs Ht)) as Hrun.
  apply runs_Ok in Hrun as ([] & q & Hrun & [[Hi _] Hst]). by exists q.
Qed.

#[local] Existing Instance Runtime_ordered.
#[local] Existing Instance RuntimeLaws_ordered.
#[local] Instance Quic_sample : Quic Timestamp := Quic_script sample_endpoint.
#[local] Existing Instance QuicHost_script.
#[local] Instance QuicLaws_sample : QuicLaws Timestamp := QuicLaws_script sample_endpoint.

Definition sample_tick (n : Z) : QuicCall Timestamp := QuicTick (Timestamp_from_nanos n).
Definition sample_datagram : QuicCall Timestamp := QuicDatagram [] 0 (Timestamp_from_nanos 0).
Definition sample_quic_calls : list (QuicCall Timestamp) :=
  [QuicConnect 0 (str "broker") [] (Timestamp_from_nanos 1); sample_tick 2; sample_datagram;
   sample_tick 3; sample_datagram; sample_tick 4; QuicPublish sample_command; QuicOpenStream;
   QuicPublishOn 8 sample_command; sample_tick 5; sample_datagram; sample_tick 6; sample_datagram;
   QuicSubscribe (SubscribeCommand_single (str "a") 1); QuicFinish 4; sample_tick 7;
   QuicMqttPing; QuicSendRaw 0 [255]; QuicReset 4 3; sample_datagram; sample_tick 8;
   QuicReconnect (Timestamp_from_nanos 9); sample_tick 10; QuicCloseSilent; sample_tick 11].

Lemma quic_never_panics_witness :
  ∃ q, run_quic sample_quic_calls (QuicMqttEngine_new MqttClientOptions_default) = Ok ((), q) ∧
    engine_inv (qe_mqtt_engine q) ∧
    streams_ok (qe_data_streams q) (qe_default_pub_stream q) (qe_default_sub_stream q).
Proof.
  apply (quic_never_panics 8).
  - exact script_events_bounded.
  - lia.
  - exact default_options_wf.
  - reflexivity.
  - reflexivity.
  - unfold sample_quic_calls.
    repeat (apply Forall_cons_2; [first [exact I|exact sample_command_ok|done]|]).
    apply Forall_nil_2.
  - vm_compute. done.
Defined.
