(* ===== verification/QuicFacts.v ===== *)
(** * Commands on QUIC streams

    What [publish], [subscribe] and [unsubscribe] of the MQTT-over-QUIC engine do to the streams:
    a refused command reserves no packet identifier and buffers no byte, an accepted one puts
    its encoding on exactly one data stream and tracks it there.  The check made before anything
    is reserved measures a packet with another identifier than the one that is sent, so the
    proofs show that encodings do not vary in length with the identifier. *)
From S2P Require Import Prelude BaseData TopicFilter Validation Properties Packets Framing Codec.
From S2P Require Import PublishCodec SubscribeCodec.
From S2P Require Import Stream Leveled Time PriorityQueue ClientError Options ClientTypes.
From S2P Require Import Commands Inflight ClientSession EngineState EngineCore EngineProtocol.
From S2P Require Import Engine EncodeFacts EngineInv EngineSteps EngineQueues EngineHandlers.
From S2P Require Import EngineSafety EngineHost.
From S2P Require Import QuicState QuicEngine QuicTick QuicScript QuicSafety QuicTickSafety.

(** ** Encodings do not vary in length with the packet identifier *)
Lemma to_bytes_size {P} (impl : MqttControlPacket P) p p' bs bs' :
  (∀ vh vh', mcp_variable_header impl p = Ok vh → mcp_variable_header impl p' = Ok vh' →
     zlen vh = zlen vh') →
  mcp_payload impl p = mcp_payload impl p' →
  to_bytes impl p = Ok bs → to_bytes impl p' = Ok bs' → zlen bs = zlen bs'.
Proof.
  unfold to_bytes. intros Hv Hp H1 H2.
  apply bind_Ok_inv in H1 as (_ & _ & H1). apply bind_Ok_inv in H1 as (vh & Hvh & H1).
  apply bind_Ok_inv in H1 as (pl & Hpl & <-%Ok_inj).
  apply bind_Ok_inv in H2 as (_ & _ & H2). apply bind_Ok_inv in H2 as (vh' & Hvh' & H2).
  apply bind_Ok_inv in H2 as (pl' & Hpl' & <-%Ok_inj).
  assert (pl' = pl) as -> by congruence. rewrite !fixed_header_eq, <- !app_comm_cons.
  rewrite !zlen_cons, !zlen_app, (Hv _ _ Hvh Hvh'). lia.
Qed.

Lemma publish_wire_size flags topic i j plen paylen b :
  zlen (encode_publish_header_into flags topic (Some i) plen paylen b)
  = zlen (encode_publish_header_into flags topic (Some j) plen paylen b).
Proof. rewrite !encode_publish_header_into_eq. simpl. zlia. Qed.

(** The two packets differ in the identifier only. *)
Definition same_but_id5 (p p' : MqttPublish5) : Prop :=
  p5_topic_name p = p5_topic_name p' ∧ p5_qos p = p5_qos p' ∧ p5_dup p = p5_dup p' ∧
  p5_retain p = p5_retain p' ∧ p5_payload p = p5_payload p' ∧ p5_properties p = p5_properties p' ∧
  (is_Some (p5_packet_id p) ↔ is_Some (p5_packet_id p')).
Definition same_but_id3 (p p' : MqttPublish3) : Prop :=
  p3_topic_name p = p3_topic_name p' ∧ p3_qos p = p3_qos p' ∧ p3_dup p = p3_dup p' ∧
  p3_retain p = p3_retain p' ∧ p3_payload p = p3_payload p' ∧
  (is_Some (p3_message_id p) ↔ is_Some (p3_message_id p')).

Lemma wire_id {E} qos (i j : option Z) (e : E) x y :
  (is_Some i ↔ is_Some j) →
  (if 0 <? qos then id ← ok_or i e; Ok (Some id) else Ok None) = Ok x →
  (if 0 <? qos then id ← ok_or j e; Ok (Some id) else Ok None) = Ok y →
  (is_Some x ↔ is_Some y).
Proof.
  intros Hij. destruct (0 <? qos); [|intros [= <-] [= <-]; done].
  destruct i, j; simpl; intros [= <-] [= <-]; naive_solver.
Qed.
Lemma publish_header_size flags topic x y plen paylen b :
  (is_Some x ↔ is_Some y) →
  zlen (encode_publish_header_into flags topic x plen paylen b)
  = zlen (encode_publish_header_into flags topic y plen paylen b).
Proof.
  intros Hxy. destruct x as [i|], y as [j|]; [apply publish_wire_size| | |done];
    [destruct (proj1 Hxy ltac:(eauto)); done|destruct (proj2 Hxy ltac:(eauto)); done].
Qed.

Lemma publish5_size p p' bs bs' :
  same_but_id5 p p' → MqttPublish5_to_bytes p = Ok bs → MqttPublish5_to_bytes p' = Ok bs' →
  zlen bs = zlen bs'.
Proof.
  intros (Ht & Hq & Hd & Hr & Hpl & Hps & Hid).
  assert (Hfl : MqttPublish5_flags p = MqttPublish5_flags p') by (unfold MqttPublish5_flags; by rewrite Hq, Hd, Hr).
  unfold MqttPublish5_to_bytes, MqttPublish5_encode_to_buffer. rewrite <- Ht, <- Hq, <- Hpl, <- Hps, <- Hfl.
  intros ([] & _ & H1)%bind_Ok_inv ([] & _ & H2)%bind_Ok_inv.
  destruct (u16_MAX <? _); [done|]. apply bind_Ok_inv in H1 as (x & Hx & H1).
  apply bind_Ok_inv in H2 as (y & Hy & H2). pose proof (wire_id _ _ _ _ _ _ Hid Hx Hy) as Hxy.
  case_bool_decide.
  - apply Ok_inj in H1 as <-, H2 as <-. unfold encode_publish_into. rewrite !zlen_app.
    by rewrite (publish_header_size _ _ _ _ _ _ _ Hxy).
  - apply bind_Ok_inv in H1 as (props & Hp & <-%Ok_inj). rewrite Hp in H2. apply Ok_inj in H2 as <-.
    rewrite !PropertyEncoder_encode_into_app, !zlen_app. by rewrite (publish_header_size _ _ _ _ _ _ _ Hxy).
Qed.
Lemma publish3_size p p' bs bs' :
  same_but_id3 p p' → MqttPublish3_to_bytes p = Ok bs → MqttPublish3_to_bytes p' = Ok bs' →
  zlen bs = zlen bs'.
Proof.
  intros (Ht & Hq & Hd & Hr & Hpl & Hid).
  assert (Hfl : MqttPublish3_flags p = MqttPublish3_flags p') by (unfold MqttPublish3_flags; by rewrite Hq, Hd, Hr).
  unfold MqttPublish3_to_bytes, MqttPublish3_encode_to_buffer. rewrite <- Ht, <- Hq, <- Hpl, <- Hfl.
  intros ([] & _ & H1)%bind_Ok_inv ([] & _ & H2)%bind_Ok_inv.
  apply bind_Ok_inv in H1 as (x & Hx & <-%Ok_inj). apply bind_Ok_inv in H2 as (y & Hy & <-%Ok_inj).
  pose proof (wire_id _ _ _ _ _ _ Hid Hx Hy) as Hxy. unfold encode_publish_into.
  rewrite !zlen_app. by rewrite (publish_header_size _ _ _ _ _ _ _ Hxy).
Qed.

Section packet_sizes.
Context {T : Type} `{TimePoint T}.
Implicit Types (e : MqttEngine T).

(** The command as it is measured, and as it is sent. *)
Definition identified (id : Z) (c : PublishCommand) : PublishCommand :=
  if 0 <? pc_qos c then c <| pc_packet_id := Some id |> else c.

Lemma publish_packet_size e c i j bs bs' :
  MqttPacket_to_bytes (publish_packet e (identified i c)) = Ok bs →
  MqttPacket_to_bytes (publish_packet e (identified j c)) = Ok bs' → zlen bs = zlen bs'.
Proof.
  unfold publish_packet, identified. destruct (0 <? pc_qos c); [|intros -> [= <-]; done].
  destruct (_ =? 5); cbn [MqttPacket_to_bytes].
  - apply publish5_size. by split_and!.
  - apply publish3_size. by split_and!.
Qed.
Lemma subscribe_packet_size e c i j bs bs' :
  MqttPacket_to_bytes (subscribe_packet e i c) = Ok bs →
  MqttPacket_to_bytes (subscribe_packet e j c) = Ok bs' → zlen bs = zlen bs'.
Proof.
  unfold subscribe_packet. destruct (_ =? 5); cbn [MqttPacket_to_bytes]; apply to_bytes_size; try done.
  - simpl. unfold MqttSubscribe5_variable_header. simpl. intros vh vh' H1 H2.
    destruct (i =? 0); [done|]. destruct (j =? 0); [done|].
    apply bind_Ok_inv in H1 as (ps & Hps & <-%Ok_inj). rewrite Hps in H2. apply Ok_inj in H2 as <-. zlia.
  - by intros vh vh' <-%Ok_inj <-%Ok_inj.
Qed.
Lemma unsubscribe_packet_size e c i j bs bs' :
  MqttPacket_to_bytes (unsubscribe_packet e i c) = Ok bs →
  MqttPacket_to_bytes (unsubscribe_packet e j c) = Ok bs' → zlen bs = zlen bs'.
Proof.
  unfold unsubscribe_packet. destruct (_ =? 5); cbn [MqttPacket_to_bytes]; apply to_bytes_size; try done.
  - simpl. unfold MqttUnsubscribe5_variable_header. simpl. intros vh vh' H1 H2.
    destruct (i =? 0); [done|]. destruct (j =? 0); [done|].
    apply bind_Ok_inv in H1 as (ps & Hps & <-%Ok_inj). rewrite Hps in H2. apply Ok_inj in H2 as <-. zlia.
  - by intros vh vh' <-%Ok_inj <-%Ok_inj.
Qed.
End packet_sizes.

(** ** What the encoding commands do to the protocol engine *)
Section encoded.
Context {T : Type} `{TimePointLaws T} `{!Runtime T} `{!RuntimeLaws T}.
Implicit Types (e : MqttEngine T).

(** Nothing is queued for the control stream. *)
Definition same_output e e' : Prop :=
  me_options e' = me_options e ∧ me_outgoing_buffer e' = me_outgoing_buffer e ∧
  ps_queued_bytes (me_state e') = ps_queued_bytes (me_state e).
Definition tracked_on (id : Z) (packet : MqttPacket) (stream : option Z) e : Prop :=
  ∃ x, iq_entries (me_inflight_queue e) !! id = Some x ∧ ie_packet x = packet ∧
       ie_stream x = stream.
(** All but the queues of packets and their buffers. *)
Definition only_ids e e' : Prop :=
  same_output e e' ∧ me_inflight_queue e' = me_inflight_queue e.

Lemma start_deadline_ids op (id : option Z) e : gives (start_deadline op id) e (λ _ e', only_ids e e').
Proof.
  unfold start_deadline. gives_step. gives_step. case_match; [|by gives_step].
  gives_step. unfold gives, lift. by destruct (deadline_from _ _).
Qed.
Lemma register_alias_ids alias e : gives (register_alias alias) e (λ _ e', only_ids e e').
Proof. unfold register_alias. by destruct alias as [[]|]. Qed.
Lemma candidate_ids requested e : gives (candidate_id requested) e (λ _ e', only_ids e e').
Proof.
  unfold candidate_id. destruct requested as [id|].
  - gives_step. gives_step. by destruct (_ || _).
  - unfold next_packet_id. gives_step. gives_step. gives_step. apply gives_try; [done|].
    intros session _. clear. generalize (Z.to_nat u16_MAX), session. intros n.
    revert e. induction n as [|n IH]; intros e s; cbn [engine_next_packet_id_loop].
    + by repeat gives_step.
    + destruct (ClientSession_next_packet_id s) as [id s']. gives_step. gives_step.
      destruct (_ && _); [by repeat gives_step|apply IH].
Qed.

Lemma push_tracked e id packet qos stream queue :
  InflightQueue_push_with_stream_at (me_inflight_queue e) id packet qos stream (me_now e) = Ok queue →
  tracked_on id packet stream (e <| me_inflight_queue := queue |>).
Proof.
  unfold InflightQueue_push_with_stream_at. intros ([] & _ & Hp)%bind_Ok_inv.
  destruct (_ || _); [done|]. destruct (_ && _); [done|]. unfold InflightQueue_refresh_deadline in Hp.
  assert (Hq : iq_entries queue !! id = Some (new_entry id packet qos stream (me_now e))).
  { destruct (negb _).
    - destruct (tp_checked_add _ _); [|done]. simpl in Hp. apply Ok_inj in Hp as <-. simpl.
      destruct (is_publish packet); simpl; by rewrite lookup_insert_eq.
    - apply Ok_inj in Hp as <-. simpl. destruct (is_publish packet); simpl; by rewrite lookup_insert_eq. }
  by eexists.
Qed.
Lemma tracked_ids id packet stream e e' :
  only_ids e e' → tracked_on id packet stream e → tracked_on id packet stream e'.
Proof. intros [_ Hq]. unfold tracked_on. by rewrite Hq. Qed.

(** What a command sent, and to which stream it is bound. *)
Definition encoded_publish (c : PublishCommand) (stream : option Z) e (r : option Z * bytes) e' : Prop :=
  same_output e e' ∧
  ∃ alias c1 id, validate_publish e c = Ok (alias, c1) ∧
    MqttPacket_to_bytes (publish_packet e (identified id c1)) = Ok r.2 ∧
    r.1 = (if 0 <? pc_qos c1 then Some id else None) ∧
    (r.1 = Some id → tracked_on id (publish_packet e (identified id c1)) stream e').
Definition encoded_tracked (packet : Z → MqttPacket) (stream : option Z) e (r : Z * bytes) e' : Prop :=
  same_output e e' ∧ MqttPacket_to_bytes (packet r.1) = Ok r.2 ∧ tracked_on r.1 (packet r.1) stream e'.

Lemma publish_id_gives c e :
  gives (publish_id c) e (λ r e', only_ids e e' ∧
    match r with
    | inl _ => True
    | inr (pid, c') => ∃ id, c' = identified id c ∧ pid = (if 0 <? pc_qos c then Some id else None)
    end).
Proof.
  unfold publish_id, identified. destruct (0 <? pc_qos c).
  - gives_step. eapply gives_mono; [apply candidate_ids|]. intros [error|id] e' He; [done|].
    gives_step. eauto.
  - gives_step. split; [done|]. by exists 0.
Qed.

Lemma publish_encoded_gives c stream e :
  gives (publish_encoded_inner c stream) e (λ r e',
    match r with inl _ => True | inr r => encoded_publish c stream e r e' end).
Proof.
  unfold publish_encoded_inner. gives_step. gives_step. gives_step. gives_step; [done|]. intros _ _.
  gives_step. eapply gives_mono with (Q := λ _ e', e' = e).
  { destruct (0 <? pc_qos c); gives_step; done. }
  intros [error|[]] ? ->; [done|]. gives_step. gives_step; [done|]. intros [alias c1] Hv.
  gives_step. eapply gives_mono; [apply publish_id_gives|]. intros [error|[pid c2]] e1 [He1 Hid]; [done|].
  destruct Hid as (id & -> & ->). assert (Hqos : pc_qos (identified id c1) = pc_qos c1).
  { unfold identified. by destruct (0 <? _). }
  rewrite Hqos. gives_step. gives_step; [done|]. intros b Hb%map_parse_error_Ok. gives_step. gives_step.
  gives_step. gives_step; [done|]. intros _ _.
  set (packet := publish_packet e (identified id c1)) in *.
  assert (Hend : ∀ pid e2, same_output e e2 → pid = (if 0 <? pc_qos c1 then Some id else None) →
    (pid = Some id → tracked_on id packet stream e2) →
    gives (register_alias alias;; modify (λ e, e <| me_last_packet_sent := me_now e |>);;
           ok (E:=MqttClientError) (pid, b)) e2
      (λ r e', match r with inl _ => True | inr r => encoded_publish c stream e r e' end)).
  { intros pid e2 Hs Hp Ht. gives_step. eapply gives_mono; [apply register_alias_ids|]. intros [] e3 He3.
    gives_step. gives_step. gives_step. split.
    - destruct He3 as [(? & ? & ?) _], Hs as (? & ? & ?). split_and!; simpl; congruence.
    - exists alias, c1, id. split_and!; [done..|]. intros Hpid. destruct (Ht Hpid) as (x & Hx & ?).
      exists x. destruct He3 as [_ Hq]. simpl. by rewrite Hq. }
  destruct (0 <? pc_qos c1).
  - gives_step. gives_step. gives_step; [|done..]. intros ? [= <-]. gives_step. gives_step; [done|].
    intros queue Hq%push_tracked. gives_step. gives_step. gives_step. unfold reserve_id, on_state.
    gives_step. gives_step. gives_step. eapply gives_mono; [apply start_deadline_ids|]. intros [] e2 He2.
    apply Hend; [|done|]. 
    + destruct He2 as [(? & ? & ?) _], He1 as [(? & ? & ?) _]. simpl in *. split_and!; simpl; congruence.
    + intros _. eapply tracked_ids; [exact He2|]. done.
  - gives_step. gives_step. gives_step. gives_step. apply Hend; [apply He1|done|done].
Qed.

Lemma encode_tracked_gives packet op stream e requested (e0 : MqttEngine T) :
  only_ids e0 e →
  gives (pid ←? candidate_id requested; encode_tracked pid (packet pid) op stream) e (λ r e',
    match r with inl _ => True | inr r => encoded_tracked packet stream e0 r e' end).
Proof.
  intros H0'. gives_step. eapply gives_mono; [apply candidate_ids|]. intros [error|id] e1 He1; [done|].
  unfold encode_tracked. gives_step. gives_step; [done|]. intros b Hb%map_parse_error_Ok. gives_step.
  gives_step. gives_step. gives_step; [done|]. intros _ _. gives_step. gives_step; [done|].
  intros queue Hq%push_tracked. unfold on_state. do 5 gives_step.
  eapply gives_mono; [apply start_deadline_ids|]. intros [] e2 He2. do 3 gives_step. split_and!.
  - destruct He2 as [(? & ? & ?) _], He1 as [(? & ? & ?) _], H0' as [(? & ? & ?) _]. simpl in *.
    split_and!; simpl; congruence.
  - done.
  - eapply tracked_ids in Hq; [exact Hq|]. done.
Qed.

Lemma subscribe_encoded_gives c stream e :
  gives (subscribe_encoded_inner c stream) e (λ r e',
    match r with inl _ => True | inr r => encoded_tracked (λ id, subscribe_packet e id c) stream e r e' end).
Proof.
  unfold subscribe_encoded_inner. do 3 gives_step. gives_step; [done|]. intros _ _.
  do 2 gives_step; [done|]. intros _ _. do 2 gives_step; [done|]. intros _ _.
  by apply encode_tracked_gives.
Qed.
Lemma unsubscribe_encoded_gives c stream e :
  gives (unsubscribe_encoded_inner c stream) e (λ r e',
    match r with inl _ => True | inr r => encoded_tracked (λ id, unsubscribe_packet e id c) stream e r e' end).
Proof.
  unfold unsubscribe_encoded_inner. do 3 gives_step. gives_step; [done|]. intros _ _.
  do 2 gives_step; [done|]. intros _ _. by apply encode_tracked_gives.
Qed.

Lemma timed_gives {A} sample (m : St (MqttEngine T) (MqttClientError + A)) (Q : A → MqttEngine T → Prop) e :
  (∀ now, gives m (e <| me_now := now |>) (λ r e', match r with inl _ => True | inr a => Q a e' end)) →
  gives (at_host sample (λ now, timed_try now m)) e (λ r e',
    match r with inl _ => True | inr a => Q a e' end).
Proof.
  intros Hm. unfold at_host. gives_step. gives_step. unfold timed_try. gives_step.
  unfold begin_update. gives_step. gives_step. destruct (ord_lt _ _); [by gives_step|].
  gives_step. gives_step; [done|]. intros _ _. gives_step. gives_step. gives_step. apply Hm.
Qed.
End encoded.

(** ** The streams *)
Section streams.
Context {T : Type} `{TimePointLaws T} `{!Runtime T} `{!RuntimeLaws T}.
Context `{!Quic T} `{!QuicHost T} `{!QuicLaws T}.
Implicit Types (q self : QuicMqttEngine T) (e : MqttEngine T).

Lemma streams_len_delete id streams :
  streams_len streams
  = from_option (λ ds, zlen (qs_outgoing ds)) 0 (streams !! id) + streams_len (delete id streams).
Proof.
  unfold streams_len. destruct (streams !! id) as [ds|] eqn:Hd; simpl.
  - rewrite (map_fold_delete_L _ 0 id ds streams); [done| |done]. intros. lia.
  - by rewrite delete_id.
Qed.
Lemma streams_len_insert id ds streams :
  streams_len (<[id := ds]> streams) = zlen (qs_outgoing ds) + streams_len (delete id streams).
Proof. rewrite (streams_len_delete id), lookup_insert_eq, delete_insert_eq. done. Qed.
Lemma streams_len_new id ds streams :
  qs_outgoing ds = [] → streams_len (<[id := ds]> streams) <= streams_len streams.
Proof.
  intros Hd. rewrite streams_len_insert, Hd, (streams_len_delete id streams).
  destruct (streams !! id) as [d|]; simpl; [pose proof (zlen_nonneg (qs_outgoing d))|]; zlia.
Qed.
Lemma streams_len_append id b streams :
  is_Some (streams !! id) →
  streams_len (alter (λ ds, ds <| qs_outgoing ::= λ l, l ++ b |> <| qs_pending_packets ::= λ n, n + 1 |>) id streams)
  = streams_len streams + zlen b.
Proof.
  intros [ds Hd]. rewrite (streams_len_delete id (alter _ _ _)), (streams_len_delete id streams).
  rewrite lookup_alter_eq, Hd, delete_alter, decide_True by done. simpl. zlia.
Qed.

(** The bytes waiting to be sent, on the control stream and on the data streams. *)
Definition used_bytes self : Z :=
  outgoing_bytes (qe_mqtt_engine self) + zlen (qe_control_outgoing self)
  + streams_len (qe_data_streams self).
Lemma check_stream_bytes_mono q q' n :
  me_options (qe_mqtt_engine q') = me_options (qe_mqtt_engine q) → used_bytes q' <= used_bytes q →
  check_stream_bytes q n = Ok () → check_stream_bytes q' n = Ok ().
Proof.
  unfold check_stream_bytes. intros -> Hu. destruct (mo_max_outgoing_buffer_bytes _) as [c|]; [|done].
  fold (used_bytes q) (used_bytes q'). unfold usize_saturating_add.
  destruct (Z.ltb_spec c (u64_MAX `min` (used_bytes q + n))) as [|Hle]; [done|].
  destruct (Z.ltb_spec c (u64_MAX `min` (used_bytes q' + n))); [lia|done].
Qed.

(** At most one stream has been opened: the one the connection gave, empty. *)
Definition fresh_stream (ds : QuicStream) : Prop := qs_outgoing ds = [] ∧ qs_pending_packets ds = 0.
Definition opened q q' : Prop :=
  qe_data_streams q' = qe_data_streams q ∨
  ∃ conn id conn' ds, qe_connection q = Some conn ∧ streams_open conn = (Some id, conn') ∧
    fresh_stream ds ∧ qe_data_streams q' = <[id := ds]> (qe_data_streams q).
Definition journal_bytes self : bytes := concat (ej_bytes <$> qe_early_stream_journal self).
Record opens q q' : Prop := {
  op_engine : qe_mqtt_engine q' = qe_mqtt_engine q;
  op_control : qe_control_outgoing q' = qe_control_outgoing q;
  op_streams : opened q q';
  op_status : qe_zero_rtt_status q' = qe_zero_rtt_status q;
  op_journal : journal_bytes q' = journal_bytes q;
}.
Lemma opens_refl q : opens q q.
Proof. split; by try left. Qed.
Lemma opens_check q q' n : opens q q' → check_stream_bytes q n = Ok () → check_stream_bytes q' n = Ok ().
Proof.
  intros [He Hc Hs _ _]. apply check_stream_bytes_mono; [by rewrite He|].
  unfold used_bytes. rewrite He, Hc. destruct Hs as [->|(conn & id & conn' & ds & _ & _ & [Hd _] & ->)]; [done|].
  pose proof (streams_len_new id ds (qe_data_streams q) Hd). lia.
Qed.

Lemma open_gives role q :
  gives (open_bidi_stream_with_role role) q (λ r q', opens q q').
Proof.
  unfold open_bidi_stream_with_role. do 3 gives_step. gives_step; [by intros; apply opens_refl|]. intros _ _.
  gives_step. gives_step; [by intros; apply opens_refl|].
  intros conn Hconn. destruct (streams_open conn) as [o conn'] eqn:Ho. unfold set_connection.
  gives_step. gives_step. gives_step. gives_step; [intros _ _; split; by try left|]. intros id Hid.
  set (ds := match role with RolePriorityPub _ => _ | _ => _ end).
  assert (Hds : fresh_stream ds) by (by destruct role).
  assert (Hc : qe_connection q = Some conn).
  { unfold require_connection in Hconn. destruct (qe_connection q); [|done]. by injection Hconn as ->. }
  assert (Ho' : streams_open conn = (Some id, conn')).
  { destruct o; [|done]. by injection Hid as ->. }
  assert (Hs : opened q (q <| qe_data_streams ::= <[id := ds]> |>)) by (right; eauto 10).
  gives_step. gives_step. gives_step. destruct (attempting q).
  - unfold on_journal. gives_step. gives_step. split; [done|done|exact Hs|done|]. unfold journal_bytes. simpl.
    unfold journal_stream_open. rewrite fmap_app, concat_app. simpl. by rewrite app_nil_r.
  - gives_step. gives_step. split; [done|done|exact Hs|done|done].
Qed.

Lemma opens_default_pub q q' d : opens q q' → opens q (q' <| qe_default_pub_stream := d |>).
Proof. intros []. by split. Qed.
Lemma opens_default_sub q q' d : opens q q' → opens q (q' <| qe_default_sub_stream := d |>).
Proof. intros []. by split. Qed.
Lemma default_pub_gives q : gives ensure_default_pub_stream q (λ _ q', opens q q').
Proof.
  unfold ensure_default_pub_stream. do 2 gives_step.
  destruct (qe_default_pub_stream q); [gives_step; apply opens_refl|]. gives_step.
  eapply gives_mono; [apply open_gives|]. intros [error|id] q' Hq'; [done|]. do 3 gives_step.
  by apply opens_default_pub.
Qed.
Lemma default_sub_gives q : gives ensure_default_sub_stream q (λ _ q', opens q q').
Proof.
  unfold ensure_default_sub_stream. do 2 gives_step.
  destruct (qe_default_sub_stream q); [gives_step; apply opens_refl|]. gives_step.
  eapply gives_mono; [apply open_gives|]. intros [error|id] q' Hq'; [done|]. do 3 gives_step.
  by apply opens_default_sub.
Qed.
Lemma priority_pub_gives p q : gives (ensure_priority_pub_stream p) q (λ _ q', opens q q').
Proof.
  unfold ensure_priority_pub_stream. destruct (p =? 128); [apply default_pub_gives|]. do 2 gives_step.
  destruct (List.find _ _); [gives_step; apply opens_refl|]. apply open_gives.
Qed.

(** The stream a command is given is one of the streams. *)
Lemma default_pub_known B q :
  B + 1 <= u32_MAX → quic_ok B q →
  gives ensure_default_pub_stream q (λ r q',
    match r with inr id => is_Some (qe_data_streams q' !! id) | inl _ => True end).
Proof.
  intros HB Hq. unfold ensure_default_pub_stream. do 2 gives_step.
  destruct (qe_default_pub_stream q) as [id|] eqn:Hd.
  - gives_step. destruct Hq as (_ & _ & Hp & _). by apply Hp.
  - gives_step. eapply gives_mono; [apply runs_gives; by apply (open_stream_known B)|].
    intros [error|id] q' [_ Hid]; [done|]. by do 3 gives_step.
Qed.
Lemma default_sub_known B q :
  B + 1 <= u32_MAX → quic_ok B q →
  gives ensure_default_sub_stream q (λ r q',
    match r with inr id => is_Some (qe_data_streams q' !! id) | inl _ => True end).
Proof.
  intros HB Hq. unfold ensure_default_sub_stream. do 2 gives_step.
  destruct (qe_default_sub_stream q) as [id|] eqn:Hd.
  - gives_step. destruct Hq as (_ & _ & _ & Hu). by apply Hu.
  - gives_step. eapply gives_mono; [apply runs_gives; by apply (open_stream_known B)|].
    intros [error|id] q' [_ Hid]; [done|]. by do 3 gives_step.
Qed.
Lemma priority_pub_known B p q :
  B + 1 <= u32_MAX → quic_ok B q →
  gives (ensure_priority_pub_stream p) q (λ r q',
    match r with inr id => is_Some (qe_data_streams q' !! id) | inl _ => True end).
Proof.
  intros HB Hq. unfold ensure_priority_pub_stream. destruct (p =? 128); [by eapply default_pub_known|].
  do 2 gives_step. destruct (List.find _ _) as [id|] eqn:Hf.
  - gives_step. apply List.find_some in Hf as [_ Hf]. unfold carries_priority in Hf.
    destruct (qe_data_streams q !! id); [eauto|done].
  - eapply gives_mono; [apply runs_gives; by apply (open_stream_known B)|]. by intros r q' [_ ?].
Qed.

(** ** Outcomes of a command *)

(** Refused: at most an empty stream has been opened. *)
Record unsent q q' : Prop := {
  un_engine : no_effect (qe_mqtt_engine q) (qe_mqtt_engine q');
  un_control : qe_control_outgoing q' = qe_control_outgoing q;
  un_streams : opened q q';
  un_journal : journal_bytes q' = journal_bytes q;
}.
(** Accepted: the bytes are on one stream, and in the journal while 0-RTT is attempted. *)
Record sent (id : Z) (b : bytes) q q' : Prop := {
  se_open : ∃ ds, qe_data_streams q !! id = Some ds ∧ stream_ended ds = false ∧
                  qs_pending_packets ds < qs_max_packets ds;
  se_streams : qe_data_streams q' =
    alter (λ ds, ds <| qs_outgoing ::= λ l, l ++ b |> <| qs_pending_packets ::= λ n, n + 1 |>) id
      (qe_data_streams q);
  se_control : qe_control_outgoing q' = qe_control_outgoing q;
  se_engine : same_output (qe_mqtt_engine q) (qe_mqtt_engine q');
  se_room : check_stream_bytes q (zlen b) = Ok ();
  se_journal : qe_early_stream_journal q' =
    if attempting q then journal_stream_bytes (qe_early_stream_journal q) id b 1
    else qe_early_stream_journal q;
}.

Lemma unsent_opens q q1 q' : opens q q1 → unsent q1 q' → qe_data_streams q' = qe_data_streams q1 → unsent q q'.
Proof.
  intros [He Hc Hs _ Hj] [Hn Hc' _ Hj'] Hd. split; [by rewrite <- He| |unfold opened in *; by rewrite Hd|]; congruence.
Qed.
Lemma opens_unsent q q' : opens q q' → unsent q q'.
Proof. intros [He Hc Hs _ Hj]. split; [rewrite He; apply no_effect_refl|done..]. Qed.

Lemma same_output_check e q n :
  same_output (qe_mqtt_engine q) e → check_stream_bytes q n = Ok () →
  check_stream_bytes (q <| qe_mqtt_engine := e |>) n = Ok ().
Proof.
  intros (Ho & Hb & Hq). apply check_stream_bytes_mono; [done|]. unfold used_bytes, outgoing_bytes. simpl.
  rewrite Hb, Hq. lia.
Qed.

Lemma send_encoded_gives {A} id (encode : option Z → T → St (MqttEngine T) (MqttClientError + (A * bytes)))
    q n (R : A → bytes → MqttEngine T → Prop) :
  is_Some (qe_data_streams q !! id) → check_stream_bytes q n = Ok () →
  (∀ sample, gives (encode (Some id) sample) (qe_mqtt_engine q) (λ r e',
     match r with
     | inl _ => no_effect (qe_mqtt_engine q) e'
     | inr (a, b) => zlen b = n ∧ same_output (qe_mqtt_engine q) e' ∧ R a b e'
     end)) →
  gives (send_encoded id encode) q (λ r q',
    match r with
    | inl _ => unsent q q' ∧ qe_data_streams q' = qe_data_streams q
    | inr a => ∃ b, R a b (qe_mqtt_engine q') ∧ sent id b q q'
    end).
Proof.
  intros [ds Hd] Hn He. unfold send_encoded. do 3 gives_step.
  gives_step; [intros; split; [apply opens_unsent, opens_refl|done]|].
  unfold ensure_stream_capacity. rewrite Hd. destruct (stream_ended ds) eqn:Hend; [done|].
  destruct (stream_full ds) eqn:Hfull; [done|]. intros [] _. gives_step. unfold at_instant.
  do 4 gives_step. unfold gives at 1, on_mqtt. simpl. specialize (He (instant_now (qe_readings q))).
  unfold gives in He. destruct (encode _ _ _) as [[[error|[a b]] e]| |]; [|..|done]; [| |done].
  - split; [|done]. split; [exact He|done|by left|done].
  - destruct He as (Hb & Hs & Ha). gives_step. unfold enqueue_on_stream. do 3 gives_step.
    rewrite Hb. gives_step.
    { intros error Hc. exfalso. pose proof (same_output_check e (q <| qe_readings ::= S |>) n Hs Hn) as Hok.
      discriminate (eq_trans (eq_sym Hok) Hc). }
    intros [] _. simpl. rewrite Hd, Hend, Hfull. unfold on_stream. do 2 gives_step.
    destruct (attempting _) eqn:Hat; unfold on_journal; repeat gives_step.
    + exists b. split; [done|]. split; [|done|done|done|by rewrite Hb|].
      { exists ds. unfold stream_full in Hfull. split_and!; [done..|lia]. }
      change (attempting _) with (attempting q) in Hat. by rewrite Hat.
    + exists b. split; [done|]. split; [|done|done|done|by rewrite Hb|].
      { exists ds. unfold stream_full in Hfull. split_and!; [done..|lia]. }
      change (attempting _) with (attempting q) in Hat. by rewrite Hat.
Qed.

(** What the preflight check of a command is good for: the encoding that is then made has the
    measured length. *)
Definition ready {A} q (encode : option Z → T → St (MqttEngine T) (MqttClientError + (A * bytes)))
    (R : option Z → A → bytes → MqttEngine T → Prop) : Prop :=
  ∃ n, check_stream_bytes q n = Ok () ∧ ∀ stream sample,
    gives (encode stream sample) (qe_mqtt_engine q) (λ r e',
      match r with
      | inl _ => no_effect (qe_mqtt_engine q) e'
      | inr (a, b) => zlen b = n ∧ same_output (qe_mqtt_engine q) e' ∧ R stream a b e'
      end).

Lemma preflight_inv q packet :
  preflight_packet q packet = Ok () →
  ∃ b, MqttPacket_to_bytes packet = Ok b ∧ check_stream_bytes q (zlen b) = Ok ().
Proof.
  unfold preflight_packet. intros (b & Hb%map_parse_error_Ok & H2)%bind_Ok_inv.
  apply bind_Ok_inv in H2 as ([] & _ & H2). eauto.
Qed.

(** An encoding command at the host's time, with what it gives and what its refusal does. *)
Lemma host_encoding {A} call (m : T → St (MqttEngine T) (MqttClientError + A)) e sample (Q : A → MqttEngine T → Prop) :
  in_order (u32_MAX - 1) e → call_ok call →
  (∀ now error e', m now e = Ok (inl error, e') → refuses call now e e') →
  gives (at_host sample m) e (λ r e', match r with inl _ => True | inr a => Q a e' end) →
  gives (at_host sample m) e (λ r e', match r with inl _ => no_effect e e' | inr a => Q a e' end).
Proof.
  intros He Hc Hr Hq. unfold gives, at_host, get_st, mbind, St_bind in *.
  destruct (m (host_now e sample) e) as [[[error|a] e']| |] eqn:Hm; [|done..].
  eapply refuses_in_order; [exact He|exact Hc|]. by eapply Hr.
Qed.

Definition publish_sent (c : PublishCommand) e (stream : option Z) (pid : option Z) (b : bytes) e' : Prop :=
  ∃ alias c1 id, validate_publish e c = Ok (alias, c1) ∧
    MqttPacket_to_bytes (publish_packet e (identified id c1)) = Ok b ∧
    pid = (if 0 <? pc_qos c1 then Some id else None) ∧
    (pid = Some id → tracked_on id (publish_packet e (identified id c1)) stream e').
Definition tracked_sent (packet : Z → MqttPacket) (stream : option Z) (id : Z) (b : bytes) e' : Prop :=
  MqttPacket_to_bytes (packet id) = Ok b ∧ tracked_on id (packet id) stream e'.

Lemma publish_ready q c :
  in_order (u32_MAX - 1) (qe_mqtt_engine q) → publish_command_ok c → preflight_publish q c = Ok () →
  ready q (publish_encoded c) (publish_sent c (qe_mqtt_engine q)).
Proof.
  intros He Hc Hp. unfold preflight_publish in Hp. apply bind_Ok_inv in Hp as ([alias c1] & Hv & Hp).
  assert (Hp' : preflight_packet q (publish_packet (qe_mqtt_engine q)
                  (identified (default 1 (pc_packet_id c1)) c1)) = Ok ()).
  { unfold identified. destruct (0 <? pc_qos c1); exact Hp. }
  apply preflight_inv in Hp' as (b0 & Hb0 & Hcheck). exists (zlen b0). split; [done|]. intros stream sample.
  eapply gives_mono.
  - apply (host_encoding (CallPublishEncoded c stream) (publish_encoded_at c stream) _ sample
      (encoded_publish c stream (qe_mqtt_engine q)) He Hc); [by eexists|].
    apply timed_gives. intros now.
    eapply gives_mono; [apply publish_encoded_gives|]. intros [error|r] e'; [done|].
    exact id.
  - intros [error|[pid b]] e'; [done|]. intros (Hs & al & c2 & id & Hv' & Hb & Hpid & Ht). simpl in *.
    assert (c2 = c1) as -> by congruence.
    split; [by eapply publish_packet_size|]. split; [done|]. by exists al, c1, id.
Qed.

Lemma subscribe_ready q c :
  in_order (u32_MAX - 1) (qe_mqtt_engine q) → wf_opt is_u16 (sc_packet_id c) →
  preflight_subscribe q c = Ok () →
  ready q (subscribe_encoded c) (tracked_sent (λ id, subscribe_packet (qe_mqtt_engine q) id c)).
Proof.
  intros He Hc Hp. unfold preflight_subscribe in Hp. apply bind_Ok_inv in Hp as ([] & _ & Hp).
  apply preflight_inv in Hp as (b0 & Hb0 & Hcheck). exists (zlen b0). split; [done|]. intros stream sample.
  eapply gives_mono.
  - apply (host_encoding (CallSubscribeEncoded c stream) (subscribe_encoded_at c stream) _ sample
      (encoded_tracked (λ id, subscribe_packet (qe_mqtt_engine q) id c) stream (qe_mqtt_engine q)) He Hc); [by eexists|].
    apply timed_gives. intros now.
    eapply gives_mono; [apply subscribe_encoded_gives|]. intros [error|r] e'; [done|].
    exact id.
  - intros [error|[id b]] e'; [done|]. intros (Hs & Hb & Ht). simpl in *.
    split; [by eapply subscribe_packet_size|]. done.
Qed.
Lemma unsubscribe_ready q c :
  in_order (u32_MAX - 1) (qe_mqtt_engine q) → wf_opt is_u16 (uc_packet_id c) →
  preflight_unsubscribe q c = Ok () →
  ready q (unsubscribe_encoded c) (tracked_sent (λ id, unsubscribe_packet (qe_mqtt_engine q) id c)).
Proof.
  intros He Hc Hp. unfold preflight_unsubscribe in Hp.
  apply preflight_inv in Hp as (b0 & Hb0 & Hcheck). exists (zlen b0). split; [done|]. intros stream sample.
  eapply gives_mono.
  - apply (host_encoding (CallUnsubscribeEncoded c stream) (unsubscribe_encoded_at c stream) _ sample
      (encoded_tracked (λ id, unsubscribe_packet (qe_mqtt_engine q) id c) stream (qe_mqtt_engine q)) He Hc); [by eexists|].
    apply timed_gives. intros now.
    eapply gives_mono; [apply unsubscribe_encoded_gives|]. intros [error|r] e'; [done|].
    exact id.
  - intros [error|[id b]] e'; [done|]. intros (Hs & Hb & Ht). simpl in *.
    split; [by eapply unsubscribe_packet_size|]. done.
Qed.

(** The outcome of a command that sends on the stream [stream] names, or on one it chooses. *)
Definition outcome {A} (R : option Z → A → bytes → MqttEngine T → Prop) (stream : option Z) q
    (r : MqttClientError + A) q' : Prop :=
  match r with
  | inl _ => unsent q q'
  | inr a => ∃ id b q1, opens q q1 ∧ sent id b q1 q' ∧ R (Some id) a b (qe_mqtt_engine q') ∧
                        (∀ s, stream = Some s → id = s ∧ q1 = q)
  end.

Lemma send_ready {A} q q1 id (encode : option Z → T → St (MqttEngine T) (MqttClientError + (A * bytes))) R stream :
  ready q encode R → opens q q1 → is_Some (qe_data_streams q1 !! id) →
  (∀ s, stream = Some s → id = s ∧ q1 = q) →
  gives (send_encoded id encode) q1 (outcome R stream q).
Proof.
  intros (n & Hn & Hg) Ho Hid Hst. eapply gives_mono.
  - apply (send_encoded_gives id encode q1 n (R (Some id))); [done|by eapply opens_check|].
    intros sample. rewrite (op_engine _ _ Ho). apply Hg.
  - intros [error|a] q' H'; simpl.
    + destruct H' as [Hu Hd]. by eapply unsent_opens.
    + destruct H' as (b & HR & Hs). exists id, b, q1. done.
Qed.

(** A command on the stream [choose] opens or finds. *)
Lemma chosen_outcome {A} q (choose : St (QuicMqttEngine T) (MqttClientError + Z))
    (encode : option Z → T → St (MqttEngine T) (MqttClientError + (A * bytes))) R :
  ready q encode R → gives choose q (λ _ q', opens q q') →
  gives choose q (λ r q', match r with inr id => is_Some (qe_data_streams q' !! id) | inl _ => True end) →
  gives (stream_id ←? choose; send_encoded stream_id encode) q (outcome R None q).
Proof.
  intros Hr Ho Hk. gives_step. eapply gives_mono; [exact (gives_and _ _ _ _ Ho Hk)|].
  intros [error|id] q1 [Ho1 Hid]; [by apply opens_unsent|]. by apply send_ready.
Qed.
(** A command on a given stream. *)
Lemma given_outcome {A} q stream
    (encode : option Z → T → St (MqttEngine T) (MqttClientError + (A * bytes))) R :
  ready q encode R →
  gives (stream_id ←? try (resolve_stream q stream); send_encoded stream_id encode) q
    (outcome R (Some stream) q).
Proof.
  intros Hr. gives_step. gives_step; [intros; apply opens_unsent, opens_refl|].
  unfold resolve_stream. intros id. case_bool_decide as Hs; [|done]. intros [= <-].
  apply send_ready; [done|apply opens_refl|done|]. by intros s [= <-].
Qed.

Lemma sent_bytes id b q q' : sent id b q q' → used_bytes q' = used_bytes q + zlen b.
Proof.
  intros [(ds & Hd & _) Hs Hc (_ & Hb & Hq) _ _]. unfold used_bytes, outgoing_bytes.
  rewrite Hs, Hc, Hb, Hq, streams_len_append by eauto. lia.
Qed.
Lemma sent_bound id b q q' cap :
  sent id b q q' → mo_max_outgoing_buffer_bytes (me_options (qe_mqtt_engine q')) = Some cap →
  cap < u64_MAX → used_bytes q' <= cap.
Proof.
  intros Hs. pose proof (sent_bytes _ _ _ _ Hs) as ->. destruct Hs as [_ _ _ (Ho & _) Hr _].
  rewrite Ho. intros Hm Hlt. unfold check_stream_bytes in Hr. rewrite Hm in Hr. fold (used_bytes q) in Hr.
  unfold usize_saturating_add in Hr.
  destruct (Z.ltb_spec cap (u64_MAX `min` (used_bytes q + zlen b))); [done|lia].
Qed.

(** ** Runs *)
Definition quic_reachable q : Prop :=
  ∃ N options calls,
    (∀ c : Connection, Z.of_nat (events_left c) <= N) ∧ 0 <= N ∧ wf_options options ∧
    mo_sessionless options = false ∧ check_time_range options (instant_now 0) = Ok () ∧
    Forall quic_call_ok calls ∧ (zlen calls + 1) * (N + 2) < u32_MAX ∧
    run_quic calls (QuicMqttEngine_new options) = Ok ((), q).

Lemma quic_reachable_ok q : quic_reachable q → quic_ok (u32_MAX - 1) q.
Proof.
  intros (N & options & calls & HN & H0N & Hw & Hs & Ht & Hc & Hlen & Hrun).
  pose proof (run_quic_ok N HN H0N calls 1 Hc ltac:(lia) _ (new_quic_ok options Hw Hs Ht)) as Hr.
  unfold runs in Hr. rewrite Hrun in Hr. eapply quic_ok_mono; [exact Hr|nia].
Qed.

(** The commands for data streams, their result, and the stream the caller names. *)
Definition quic_refuses (call : QuicCall T) q q' : Prop :=
  match call with
  | QuicPublish c => ∃ error, quic_publish c q = Ok (inl error, q')
  | QuicPublishOn s c => ∃ error, quic_publish_on s c q = Ok (inl error, q')
  | QuicSubscribe c => ∃ error, quic_subscribe c q = Ok (inl error, q')
  | QuicSubscribeOn s c => ∃ error, quic_subscribe_on s c q = Ok (inl error, q')
  | QuicUnsubscribe c => ∃ error, quic_unsubscribe c q = Ok (inl error, q')
  | QuicUnsubscribeOn s c => ∃ error, quic_unsubscribe_on s c q = Ok (inl error, q')
  | _ => False
  end.
Definition quic_accepts (call : QuicCall T) q q' : Prop :=
  match call with
  | QuicPublish c => ∃ pid, quic_publish c q = Ok (inr pid, q')
  | QuicPublishOn s c => ∃ pid, quic_publish_on s c q = Ok (inr pid, q')
  | QuicSubscribe c => ∃ pid, quic_subscribe c q = Ok (inr pid, q')
  | QuicSubscribeOn s c => ∃ pid, quic_subscribe_on s c q = Ok (inr pid, q')
  | QuicUnsubscribe c => ∃ pid, quic_unsubscribe c q = Ok (inr pid, q')
  | QuicUnsubscribeOn s c => ∃ pid, quic_unsubscribe_on s c q = Ok (inr pid, q')
  | _ => False
  end.
Definition command_stream (call : QuicCall T) : option Z :=
  match call with
  | QuicPublishOn s _ | QuicSubscribeOn s _ | QuicUnsubscribeOn s _ => Some s
  | _ => None
  end.

(** The packet of a command, and that the engine tracks it on [stream]. *)
Definition carries (call : QuicCall T) e (packet : MqttPacket) (stream : option Z) e' : Prop :=
  match call with
  | QuicPublish c | QuicPublishOn _ c =>
      ∃ alias c1 id, validate_publish e c = Ok (alias, c1) ∧
        packet = publish_packet e (identified id c1) ∧
        (0 < pc_qos c1 → tracked_on id packet stream e')
  | QuicSubscribe c | QuicSubscribeOn _ c =>
      ∃ id, packet = subscribe_packet e id c ∧ tracked_on id packet stream e'
  | QuicUnsubscribe c | QuicUnsubscribeOn _ c =>
      ∃ id, packet = unsubscribe_packet e id c ∧ tracked_on id packet stream e'
  | _ => False
  end.
Definition routed (call : QuicCall T) q q' : Prop :=
  ∃ id b packet q1, opens q q1 ∧ sent id b q1 q' ∧ MqttPacket_to_bytes packet = Ok b ∧
    carries call (qe_mqtt_engine q) packet (Some id) (qe_mqtt_engine q') ∧
    (∀ s, command_stream call = Some s → id = s ∧ q1 = q).

Lemma publish_outcome call c q stream r q' :
  (call = QuicPublish c ∧ stream = None) ∨ (∃ s, call = QuicPublishOn s c ∧ stream = Some s) →
  outcome (publish_sent c (qe_mqtt_engine q)) stream q r q' →
  match r with inl _ => unsent q q' | inr _ => routed call q q' end.
Proof.
  intros Hcall. destruct r as [error|pid]; [done|].
  intros (id & b & q1 & Ho & Hs & (alias & c1 & i & Hv & Hb & Hp & Ht) & Hst).
  exists id, b, (publish_packet (qe_mqtt_engine q) (identified i c1)), q1. split_and!; [done..| |].
  - assert (Hq : 0 < pc_qos c1 → tracked_on i (publish_packet (qe_mqtt_engine q) (identified i c1)) (Some id)
                              (qe_mqtt_engine q')).
    { intros Hq. apply Ht. rewrite Hp. by destruct (Z.ltb_spec 0 (pc_qos c1)); [|lia]. }
    destruct Hcall as [[-> _]|(s & -> & _)]; by exists alias, c1, i.
  - intros s Hs'. apply Hst. destruct Hcall as [[-> ->]|(s' & -> & ->)]; done.
Qed.
Lemma tracked_outcome call packet q stream r q' :
  (∀ p s e', carries call (qe_mqtt_engine q) p s e' ↔ ∃ id, p = packet id ∧ tracked_on id p s e') →
  command_stream call = stream → outcome (tracked_sent packet) stream q r q' →
  match r with inl _ => unsent q q' | inr _ => routed call q q' end.
Proof.
  intros Hcar <-. destruct r as [error|pid]; [done|].
  intros (id & b & q1 & Ho & Hs & [Hb Ht] & Hst). exists id, b, (packet pid), q1.
  split_and!; [done..| |done]. apply Hcar. eauto.
Qed.

(** Every command for a data stream is refused or routed. *)
Section commands.
Context q (Hq : quic_ok (u32_MAX - 1) q).
Context (pc : PublishCommand) (Hpc : publish_command_ok pc).
Context (sc : SubscribeCommand) (Hsc : wf_opt is_u16 (sc_packet_id sc)).
Context (uc : UnsubscribeCommand) (Huc : wf_opt is_u16 (uc_packet_id uc)).
Local Abbreviation settles call m :=
  (gives m q (λ r q', match r with inl _ => unsent q q' | inr _ => routed call q q' end)).

(** The checks every command starts with. *)
Lemma checked {A} (allowed preflight : result MqttClientError ()) (body : St (QuicMqttEngine T) (MqttClientError + A))
    (P : A → QuicMqttEngine T → Prop) :
  (preflight = Ok () → gives body q (λ r q', match r with inl _ => unsent q q' | inr a => P a q' end)) →
  gives (_ ←? try allowed; _ ←? try preflight; body) q
    (λ r q', match r with inl _ => unsent q q' | inr a => P a q' end).
Proof.
  intros Hb. pose proof (opens_unsent _ _ (opens_refl q)). gives_step. gives_step; [done|]. intros _ _.
  gives_step. gives_step; [done|]. intros [] Hp. by apply Hb.
Qed.

Lemma publish_settles : settles (QuicPublish pc) (quic_publish pc).
Proof.
  unfold quic_publish. do 2 gives_step. apply checked. intros Hp. eapply gives_mono.
  - apply chosen_outcome; [by apply publish_ready; [apply Hq|..]|apply priority_pub_gives|].
    by apply (priority_pub_known (u32_MAX - 1)); [lia|].
  - intros r q'. apply publish_outcome. by left.
Qed.
Lemma publish_on_settles s : settles (QuicPublishOn s pc) (quic_publish_on s pc).
Proof.
  unfold quic_publish_on. do 2 gives_step. apply checked. intros Hp. eapply gives_mono.
  - apply given_outcome. by apply publish_ready; [apply Hq|..].
  - intros r q'. apply publish_outcome. right. eauto.
Qed.
Lemma subscribe_settles : settles (QuicSubscribe sc) (quic_subscribe sc).
Proof.
  unfold quic_subscribe. do 2 gives_step. apply checked. intros Hp. eapply gives_mono.
  - apply chosen_outcome; [by apply subscribe_ready; [apply Hq|..]|apply default_sub_gives|].
    by apply (default_sub_known (u32_MAX - 1)); [lia|].
  - intros r q'. by apply tracked_outcome.
Qed.
Lemma subscribe_on_settles s : settles (QuicSubscribeOn s sc) (quic_subscribe_on s sc).
Proof.
  unfold quic_subscribe_on. do 2 gives_step. apply checked. intros Hp. eapply gives_mono.
  - apply given_outcome. by apply subscribe_ready; [apply Hq|..].
  - intros r q'. by apply tracked_outcome.
Qed.
Lemma unsubscribe_settles : settles (QuicUnsubscribe uc) (quic_unsubscribe uc).
Proof.
  unfold quic_unsubscribe. do 2 gives_step. apply checked. intros Hp. eapply gives_mono.
  - apply chosen_outcome; [by apply unsubscribe_ready; [apply Hq|..]|apply default_sub_gives|].
    by apply (default_sub_known (u32_MAX - 1)); [lia|].
  - intros r q'. by apply tracked_outcome.
Qed.
Lemma unsubscribe_on_settles s : settles (QuicUnsubscribeOn s uc) (quic_unsubscribe_on s uc).
Proof.
  unfold quic_unsubscribe_on. do 2 gives_step. apply checked. intros Hp. eapply gives_mono.
  - apply given_outcome. by apply unsubscribe_ready; [apply Hq|..].
  - intros r q'. by apply tracked_outcome.
Qed.
End commands.

Lemma settled {A} (m : St (QuicMqttEngine T) (MqttClientError + A)) q q' (I J : QuicMqttEngine T → Prop) :
  gives m q (λ r q', match r with inl _ => I q' | inr _ => J q' end) →
  ((∃ error, m q = Ok (inl error, q')) → I q') ∧ ((∃ a, m q = Ok (inr a, q')) → J q').
Proof. unfold gives. intros Hm. split; intros [x Hx]; by rewrite Hx in Hm. Qed.

Lemma command_outcome call q q' :
  quic_ok (u32_MAX - 1) q → quic_call_ok call →
  (quic_refuses call q q' → unsent q q') ∧ (quic_accepts call q q' → routed call q q').
Proof.
  intros Hq Hc. destruct call; try done; simpl in Hc;
    apply (settled _ q q' (unsent q) (routed _ q)).
  - by apply publish_settles.
  - by apply publish_on_settles.
  - by apply subscribe_settles.
  - by apply subscribe_on_settles.
  - by apply unsubscribe_settles.
  - by apply unsubscribe_on_settles.
Qed.
End streams.

(** ** Theorems *)

(** C19: a refused command leaves nothing behind.  Whenever [publish], [subscribe] or
    [unsubscribe] of the QUIC engine, on the default or on a given stream, returns an error on a
    state a run leads to, the protocol engine is the one before up to its clock and the counter
    packet identifiers are drawn from (so no identifier is reserved, nothing is inflight, and
    the session is there exactly if it was, with both its maps),
    no byte is added to the control stream, to a data stream or to the 0-RTT journal, and at
    most one new, empty stream has been opened. *)
Theorem quic_refused_commands {T} `{TimePointLaws T} `{!Runtime T} `{!RuntimeLaws T}
    `{!Quic T} `{!QuicHost T} `{!QuicLaws T} (q : QuicMqttEngine T) call q' :
  quic_reachable q → quic_call_ok call → quic_refuses call q q' →
  no_effect (qe_mqtt_engine q) (qe_mqtt_engine q') ∧
  qe_control_outgoing q' = qe_control_outgoing q ∧ opened q q' ∧
  journal_bytes q' = journal_bytes q.
Proof. intros Hq%quic_reachable_ok Hc Hr. by destruct (proj1 (command_outcome call q q' Hq Hc) Hr). Qed.

(** C20: an accepted command is on exactly one data stream.  Its packet is the encoding of the
    command; the bytes are appended to one open stream below its packet limit, to the one the
    caller named if any, every other stream and the control stream are as before; the packet is
    tracked as inflight on that stream (unless it is a QoS 0 message), while 0-RTT is attempted
    the same bytes are in the stream's journal, and the bytes waiting on all streams together
    stay within the configured limit. *)
Theorem quic_routed_commands {T} `{TimePointLaws T} `{!Runtime T} `{!RuntimeLaws T}
    `{!Quic T} `{!QuicHost T} `{!QuicLaws T} (q : QuicMqttEngine T) call q' :
  quic_reachable q → quic_call_ok call → quic_accepts call q q' →
  ∃ id b packet q1, opens q q1 ∧ sent id b q1 q' ∧ MqttPacket_to_bytes packet = Ok b ∧
    carries call (qe_mqtt_engine q) packet (Some id) (qe_mqtt_engine q') ∧
    (∀ s, command_stream call = Some s → id = s ∧ q1 = q) ∧
    (∀ cap, mo_max_outgoing_buffer_bytes (me_options (qe_mqtt_engine q')) = Some cap →
       cap < u64_MAX → used_bytes q' <= cap).
Proof.
  intros Hq%quic_reachable_ok Hc Ha.
  destruct (proj2 (command_outcome call q q' Hq Hc) Ha) as (id & b & packet & q1 & Ho & Hs & Hb & Hcar & Hst).
  exists id, b, packet, q1. split_and!; [done..|]. intros cap. by eapply sent_bound.
Qed.

#[local] Existing Instance Runtime_ordered.
#[local] Existing Instance RuntimeLaws_ordered.
#[local] Existing Instance Quic_sample.
#[local] Existing Instance QuicHost_script.
#[local] Existing Instance QuicLaws_sample.

(** A connected engine with two data streams. *)
Definition sample_prefix : list (QuicCall Timestamp) := take 9 sample_quic_calls.
Definition sample_quic : QuicMqttEngine Timestamp :=
  match run_quic sample_prefix (QuicMqttEngine_new MqttClientOptions_default) with
  | Ok (_, q) => q
  | _ => QuicMqttEngine_new MqttClientOptions_default
  end.
Lemma sample_quic_reachable : quic_reachable sample_quic.
Proof.
  exists 8, MqttClientOptions_default, sample_prefix. split_and!.
  - exact script_events_bounded.
  - lia.
  - exact default_options_wf.
  - reflexivity.
  - reflexivity.
  - unfold sample_prefix, sample_quic_calls. cbn [take].
    repeat (apply Forall_cons_2; [first [exact I|exact sample_command_ok|done]|]). apply Forall_nil_2.
  - vm_compute. done.
  - vm_compute. reflexivity.
Qed.

(** The state a call leads to. *)
Definition after {A} (m : St (QuicMqttEngine Timestamp) A) : QuicMqttEngine Timestamp :=
  match m sample_quic with Ok (_, q) => q | _ => sample_quic end.
Definition sample_taken : PublishCommand := sample_command <| pc_packet_id := Some 1 |>.
Lemma sample_taken_ok : publish_command_ok sample_taken.
Proof.
  pose proof sample_command_ok as (? & ? & _ & ? & ? & _). split; [done|]. split; [done|].
  split; [by split; vm_compute|]. by split_and!.
Qed.
Lemma sample_refused :
  quic_publish_on 8 sample_taken sample_quic
  = Ok (inl (InvalidPacketId 1), after (quic_publish_on 8 sample_taken)).
Proof. vm_compute. reflexivity. Qed.
Lemma sample_accepted :
  quic_publish_on 8 sample_command sample_quic
  = Ok (inr (Some 3), after (quic_publish_on 8 sample_command)).
Proof. vm_compute. reflexivity. Qed.

Lemma quic_refused_commands_witness :
  ∃ q', quic_publish_on 8 sample_taken sample_quic = Ok (inl (InvalidPacketId 1), q') ∧
  no_effect (qe_mqtt_engine sample_quic) (qe_mqtt_engine q') ∧
  qe_control_outgoing q' = qe_control_outgoing sample_quic.
Proof.
  exists (after (quic_publish_on 8 sample_taken)). split; [exact sample_refused|].
  pose proof (quic_refused_commands sample_quic (QuicPublishOn 8 sample_taken)
    (after (quic_publish_on 8 sample_taken)) sample_quic_reachable sample_taken_ok
    (ex_intro _ (InvalidPacketId 1) sample_refused)) as (Hn & Hc & _).
  split; [exact Hn|exact Hc].
Defined.

Lemma quic_routed_commands_witness :
  ∃ q', quic_publish_on 8 sample_command sample_quic = Ok (inr (Some 3), q') ∧
  ∃ b q1, sent 8 b q1 q'.
Proof.
  exists (after (quic_publish_on 8 sample_command)). split; [exact sample_accepted|].
  pose proof (quic_routed_commands sample_quic (QuicPublishOn 8 sample_command)
    (after (quic_publish_on 8 sample_command)) sample_quic_reachable sample_command_ok
    (ex_intro _ (Some 3) sample_accepted)) as (id & b & packet & q1 & _ & Hs & _ & _ & Hst & _).
  exists b, q1. destruct (Hst 8 eq_refl) as [Hid _]. rewrite Hid in Hs. exact Hs.
Defined.
