(* ===== verification/TlsEngine.v ===== *)
(** * The MQTT-over-TLS engine

    Models [src/mqtt_client/tls_engine.rs]: the protocol engine behind a TLS connection, without
    I/O.  [rustls] is not part of the repository: the class [Tls] has the operations the engine
    calls, over abstract connections and configurations, and [TlsLaws] what is relied on: reading
    takes a prefix of what it is given, the plaintext ready to be read is finite, and the writer
    accepts a prefix.  [tls_plaintext] is the plaintext a connection's writer has accepted so
    far. *)
From S2P Require Import Prelude BaseData TopicFilter Validation Properties Packets Framing Codec.
From S2P Require Import Stream Leveled Time PriorityQueue ClientError Options ClientTypes.
From S2P Require Import Commands Inflight ClientSession EngineState EngineCore EngineProtocol.
From S2P Require Import Engine EncodeFacts EngineInv EngineSteps EngineSafety EngineHost.

(** ** The TLS library *)

(** What [Reader::read] and [Writer::write] return. *)
Inductive TlsRead : Type := TrBytes (b : bytes) | TrWouldBlock | TrError (text : string).
Inductive TlsWrite : Type := TwWritten (n : Z) | TwWouldBlock | TwError (text : string).

Class Tls : Type := {
  TlsConfig : Type;
  TlsConnection : Type;
  ServerName : Type;
  server_name_try_from : bytes → string + ServerName;
  client_connection_new : TlsConfig → ServerName → string + TlsConnection;
  tls_read_tls : bytes → TlsConnection → (string + Z) * TlsConnection;
  tls_process_new_packets : TlsConnection → (string + ()) * TlsConnection;
  tls_reader_read : Z → TlsConnection → TlsRead * TlsConnection;
  tls_write_tls : TlsConnection → bytes * TlsConnection;
  tls_writer_write : bytes → TlsConnection → TlsWrite * TlsConnection;
  tls_wants_write : TlsConnection → bool;
  (** The plaintext ready to be read, and the plaintext accepted from the writer so far. *)
  tls_reads_left : TlsConnection → nat;
  tls_plaintext : TlsConnection → bytes;
}.

Class TlsLaws `{Tls} : Prop := {
  tls_read_prefix data c n c' : tls_read_tls data c = (inr n, c') → 0 <= n <= zlen data;
  tls_reader_progress n c b c' :
    tls_reader_read n c = (TrBytes b, c') → b ≠ [] → (tls_reads_left c' < tls_reads_left c)%nat;
  tls_reader_bytes n c b c' : tls_reader_read n c = (TrBytes b, c') → u8s b;
  tls_write_accepts b c n c' : tls_writer_write b c = (TwWritten n, c') → 0 <= n <= zlen b;
  tls_plaintext_new config name c : client_connection_new config name = inr c → tls_plaintext c = [];
  tls_plaintext_write b c :
    tls_plaintext (tls_writer_write b c).2 =
      tls_plaintext c ++ match (tls_writer_write b c).1 with
                         | TwWritten n => take (Z.to_nat n) b
                         | _ => []
                         end;
  tls_plaintext_read_tls data c : tls_plaintext (tls_read_tls data c).2 = tls_plaintext c;
  tls_plaintext_process c : tls_plaintext (tls_process_new_packets c).2 = tls_plaintext c;
  tls_plaintext_reader n c : tls_plaintext (tls_reader_read n c).2 = tls_plaintext c;
  tls_plaintext_write_tls c : tls_plaintext (tls_write_tls c).2 = tls_plaintext c;
}.

(** ** The engine *)
Record TlsMqttEngine (T : Type) `{Tls} : Type := {
  tq_mqtt_engine : MqttEngine T;
  tq_tls_connection : TlsConnection;
  tq_tls_config : TlsConfig;
  tq_server_name : ServerName;
  tq_incoming_plaintext : bytes;
  tq_outgoing_plaintext : bytes;
  (** The readings of the clock so far. *)
  tq_readings : nat;
}.
Arguments tq_mqtt_engine {_ _} _.
Arguments tq_tls_connection {_ _} _.
Arguments tq_tls_config {_ _} _.
Arguments tq_server_name {_ _} _.
Arguments tq_incoming_plaintext {_ _} _.
Arguments tq_outgoing_plaintext {_ _} _.
Arguments tq_readings {_ _} _.

#[export] Instance Rebuild_TlsMqttEngine T `{Tls} : Rebuild (TlsMqttEngine T) := λ s, {|
  tq_mqtt_engine := tq_mqtt_engine s; tq_tls_connection := tq_tls_connection s;
  tq_tls_config := tq_tls_config s; tq_server_name := tq_server_name s;
  tq_incoming_plaintext := tq_incoming_plaintext s;
  tq_outgoing_plaintext := tq_outgoing_plaintext s; tq_readings := tq_readings s;
|}.

Definition tls_error (context text : string) : MqttClientError :=
  InternalClientError (context +:+ text).

(** [MqttEngine::defer_events] of [engine/protocol_state.rs]. *)
Definition defer_events {T} `{TimePoint T} (events : list MqttEvent) : St (MqttEngine T) () :=
  modify (λ e, e <| me_events ::= λ l, l ++ events |>).

Section TlsEngine.
Context {T : Type} `{TimePoint T, !Runtime T, !Tls, !HostClock T}.
Implicit Types (self : TlsMqttEngine T).
Local Abbreviation M := (St (TlsMqttEngine T)).

(** [self.mqtt_engine.f()] and [self.tls_connection.f()]. *)
Definition on_tls_mqtt {A} (m : St (MqttEngine T) A) : M A :=
  zoom tq_mqtt_engine (λ engine self, self <| tq_mqtt_engine := engine |>) m.
Definition at_reading {A} (m : T → St (MqttEngine T) A) : M A :=
  self ← get_st;
  modify (λ self, self <| tq_readings ::= S |>);;
  on_tls_mqtt (m (clock_reading (tq_readings self))).
Definition on_tls {A} (f : TlsConnection → A * TlsConnection) : M A := λ self,
  let '(a, c) := f (tq_tls_connection self) in Ok (a, self <| tq_tls_connection := c |>).
Definition tls_try {A} (context : string) (r : string + A) : M (MqttClientError + A) :=
  mret match r with inl text => inl (tls_error context text) | inr a => inr a end.

(** [readings] is the number of readings of the clock before. *)
Definition TlsMqttEngine_new (options : MqttClientOptions) (server_name : bytes)
    (config : TlsConfig) (readings : nat) : MqttClientError + TlsMqttEngine T :=
  let mqtt_engine := MqttEngine_new options (clock_reading readings) in
  match server_name_try_from server_name with
  | inl e => inl (tls_error "Invalid server name: " e)
  | inr server_name =>
      match client_connection_new config server_name with
      | inl e => inl (tls_error "Failed to create TLS connection: " e)
      | inr tls_connection => inr {|
          tq_mqtt_engine := mqtt_engine; tq_tls_connection := tls_connection;
          tq_tls_config := config; tq_server_name := server_name;
          tq_incoming_plaintext := []; tq_outgoing_plaintext := []; tq_readings := S readings |}
      end
  end.

Definition tls_reset_for_new_transport : M (MqttClientError + ()) :=
  self ← get_st;
  tls_connection ←? tls_try "" (client_connection_new (tq_tls_config self) (tq_server_name self));
  modify (λ self, self <| tq_tls_connection := tls_connection |> <| tq_incoming_plaintext := [] |>
                       <| tq_outgoing_plaintext := [] |>);;
  at_reading reset_for_new_transport;;
  ok ().

Definition tls_handle_connection_lost : M () := at_reading handle_connection_lost.

(** The loop over the plaintext that is ready; the buffer has 4096 bytes. *)
Fixpoint drain_plaintext_loop (fuel : nat) : M (MqttClientError + ()) :=
  match fuel with
  | O => λ _, Panic
  | S fuel =>
      r ← on_tls (tls_reader_read 4096);
      match r with
      | TrBytes [] => ok ()
      | TrBytes b =>
          events ← at_reading (handle_incoming b);
          on_tls_mqtt (defer_events events);;
          drain_plaintext_loop fuel
      | TrWouldBlock => ok ()
      | TrError e => err (tls_error "Plaintext read error: " e)
      end
  end.

Definition drain_plaintext : M (MqttClientError + ()) :=
  self ← get_st; drain_plaintext_loop (S (tls_reads_left (tq_tls_connection self))).

Fixpoint handle_socket_data_loop (data : bytes) (fuel : nat) : M (MqttClientError + ()) :=
  match fuel with
  | O => λ _, Panic
  | S fuel =>
      if bool_decide (data = []) then ok () else
      r ← on_tls (tls_read_tls data);
      n ←? tls_try "TLS read error: " r;
      if n =? 0 then ok () else
      r ← on_tls tls_process_new_packets;
      _ ←? tls_try "TLS process error: " r;
      _ ←? drain_plaintext;
      handle_socket_data_loop (drop (Z.to_nat n) data) fuel
  end.

Definition handle_socket_data (data : bytes) : M (MqttClientError + ()) :=
  handle_socket_data_loop data (S (length data)).

Definition take_socket_data : M bytes := on_tls tls_write_tls.

(** Drive both engines. *)
Definition tls_handle_tick (now : T) : M (list MqttEvent) :=
  self ← get_st;
  mqtt_events ← at_reading (handle_incoming (tq_incoming_plaintext self));
  modify (λ self, self <| tq_incoming_plaintext := [] |>);;
  tick_events ← on_tls_mqtt (handle_tick now);
  self ← get_st;
  (if bool_decide (tq_outgoing_plaintext self = [])
   then plaintext ← at_reading take_outgoing;
        modify (λ self, self <| tq_outgoing_plaintext := plaintext |>)
   else mret ());;
  self ← get_st;
  write_events ←
    (if bool_decide (tq_outgoing_plaintext self ≠ []) then
       w ← on_tls (tls_writer_write (tq_outgoing_plaintext self));
       match w with
       | TwWritten written =>
           if written <=? zlen (tq_outgoing_plaintext self) then
             modify (λ self, self <| tq_outgoing_plaintext ::= drop (Z.to_nat written) |>);; mret []
           else λ _, Panic
       | TwWouldBlock => mret []
       | TwError error => mret [ErrorEvent (tls_error "TLS plaintext write failed: " error)]
       end
     else mret []);
  engine_events ← on_tls_mqtt take_events;
  mret (mqtt_events ++ tick_events ++ write_events ++ engine_events).

Definition tls_connect : M (MqttClientError + ()) := at_reading connect.
Definition tls_publish (command : PublishCommand) : M (MqttClientError + option Z) :=
  at_reading (publish command).
Definition tls_subscribe (command : SubscribeCommand) : M (MqttClientError + Z) :=
  at_reading (subscribe command).
Definition tls_unsubscribe (command : UnsubscribeCommand) : M (MqttClientError + Z) :=
  at_reading (unsubscribe command).
Definition tls_disconnect : M (MqttClientError + ()) := at_reading disconnect.
Definition tls_try_disconnect : M (MqttClientError + ()) := at_reading try_disconnect.
Definition tls_try_disconnect_with (reason_code : Z) (properties : list Property)
    : M (MqttClientError + ()) :=
  at_reading (try_disconnect_with reason_code properties).
Definition tls_is_connected self : bool := MqttEngine_is_connected (tq_mqtt_engine self).
Definition tls_disconnect_complete self : bool :=
  negb (tls_is_connected self) && bool_decide (tq_outgoing_plaintext self = [])
  && negb (has_pending_output (tq_mqtt_engine self)) && negb (tls_wants_write (tq_tls_connection self)).
Definition tls_mqtt_version self : Z := MqttEngine_mqtt_version (tq_mqtt_engine self).
Definition tls_try_send_ping : M (MqttClientError + ()) := at_reading try_send_ping.
Definition tls_try_auth (reason_code : Z) (properties : list Property) : M (MqttClientError + ()) :=
  at_reading (try_auth reason_code properties).
Definition tls_take_events : M (list MqttEvent) := on_tls_mqtt take_events.
End TlsEngine.
