(* ===== verification/TlsSafety.v ===== *)
(** * The MQTT-over-TLS engine never panics and sends whole packets

    The invariant of [TlsMqttEngine] through every method and every sequence of calls, for any
    TLS connection that keeps [TlsLaws]; an instance with a scripted peer. *)
From S2P Require Import Prelude BaseData TopicFilter Validation Properties Packets Framing Codec.
From S2P Require Import Stream Leveled Time PriorityQueue ClientError Options ClientTypes.
From S2P Require Import Commands Inflight ClientSession EngineState EngineCore EngineProtocol.
From S2P Require Import Engine EncodeFacts EngineInv EngineSteps EngineQueues EngineHandlers.
From S2P Require Import EngineConnect EngineReceive EngineInput EngineSafety EngineHost HostSafety.
From S2P Require Import EngineSession TlsEngine.

Section safety.
Context {T : Type} `{TimePointLaws T} `{!Runtime T} `{!RuntimeLaws T}.
Context `{!Tls} `{!TlsLaws} `{!HostClock T}.
Implicit Types (self : TlsMqttEngine T) (e : MqttEngine T) (c : TlsConnection).
Local Abbreviation M := (St (TlsMqttEngine T)).

(** ** The invariant *)

(** What was handed to the TLS connection and what waits to be is a sequence of whole packets. *)
Definition tls_ok (B : Z) self : Prop :=
  in_order B (tq_mqtt_engine self) ∧ tq_incoming_plaintext self = [] ∧
  encoded_packets (tls_plaintext (tq_tls_connection self) ++ tq_outgoing_plaintext self).

Lemma tls_ok_mono B B' self : tls_ok B self → B <= B' → tls_ok B' self.
Proof. intros (Hi & Hrest) HB. split; [by eapply in_order_mono|done]. Qed.
Lemma encoded_packets_nil : encoded_packets [].
Proof. by exists []. Qed.
Lemma encoded_packets_join b b' :
  encoded_packets b → encoded_packets b' → encoded_packets (b ++ b').
Proof. intros Hb (l & -> & Hl). by apply encoded_packets_app. Qed.

Lemma on_engine_ok {A} B B' (m : St (MqttEngine T) A) :
  preserves (in_order B) (in_order B') m → preserves (tls_ok B) (tls_ok B') (on_tls_mqtt m).
Proof.
  intros Hm. apply (preserves_zoom _ _ _ _ _ _ _ Hm); [by intros self []|].
  by intros self e (_ & Hin & Hout) He.
Qed.
Lemma at_reading_ok {A} B B' (m : T → St (MqttEngine T) A) :
  (∀ sample, preserves (in_order B) (in_order B') (m sample)) →
  preserves (tls_ok B) (tls_ok B') (at_reading m).
Proof.
  intros Hm. unfold at_reading. apply preserves_get. intros self _.
  eapply (preserves_bind _ (tls_ok B)); [by apply preserves_modify|]. intros []. by apply on_engine_ok.
Qed.
(** A call on the connection that does not write plaintext. *)
Lemma on_tls_ok {A} B (f : TlsConnection → A * TlsConnection) :
  (∀ c, tls_plaintext (f c).2 = tls_plaintext c) → preserves (tls_ok B) (tls_ok B) (on_tls f).
Proof.
  intros Hf self (Hi & Hin & Hout). unfold runs, on_tls. specialize (Hf (tq_tls_connection self)).
  destruct (f (tq_tls_connection self)) as [a c]. split; [done|]. split; [done|]. simpl in *. by rewrite Hf.
Qed.

Section bound.
Context (B : Z) (HB : B + 1 <= u32_MAX).

Lemma defer_events_order events : preserves (in_order B) (in_order B) (defer_events events).
Proof.
  intros e He%in_order_good. unfold defer_events. run_step.
  apply (good_in_order (me_now e) B (zlen (unread (me_parser e))) (potential e)). frame.
Qed.
Lemma next_order call sample :
  call_ok call → preserves (in_order B) (in_order (B + 1)) (run_call call sample).
Proof. intros Hc. apply run_call_order; [lia..|done|destruct call; simpl; lia]. Qed.

(** ** Input *)
Lemma reader_spec n self Q :
  (∀ r c, tls_reader_read n (tq_tls_connection self) = (r, c) →
    Q r (self <| tq_tls_connection := c |>)) →
  runs (on_tls (tls_reader_read n)) self Q.
Proof. unfold runs, on_tls. destruct (tls_reader_read _ _) as [r c]. by auto. Qed.

Lemma deliver_ok b self :
  tls_ok B self → u8s b →
  runs (events ← at_reading (handle_incoming b); on_tls_mqtt (defer_events events)) self
    (λ _ self', tls_ok B self' ∧ tq_tls_connection self' = tq_tls_connection self).
Proof.
  intros Hs Hb. apply runs_and.
  - assert (Hp : preserves (tls_ok B) (tls_ok B)
      (events ← at_reading (handle_incoming b); on_tls_mqtt (defer_events events))).
    { eapply preserves_bind; [by apply at_reading_ok; intros; apply handle_incoming_order|].
      intros events. apply on_engine_ok, defer_events_order. }
    exact (Hp self Hs).
  - destruct Hs as [Hi _]. run_step. unfold at_reading. run_step. run_step. run_step. run_step.
    apply runs_zoom. eapply runs_mono; [by apply handle_incoming_order|]. intros events e He.
    apply runs_zoom. eapply runs_mono; [by apply defer_events_order|]. done.
Qed.

Lemma drain_plaintext_loop_ok fuel self :
  tls_ok B self → (tls_reads_left (tq_tls_connection self) < fuel)%nat →
  runs (drain_plaintext_loop fuel) self (λ _ self', tls_ok B self').
Proof.
  revert self. induction fuel as [|fuel IH]; intros self Hs Hfuel; [lia|]. cbn [drain_plaintext_loop].
  run_step. apply reader_spec. intros r c Hr.
  assert (Hs' : tls_ok B (self <| tq_tls_connection := c |>)).
  { pose proof (tls_plaintext_reader 4096 (tq_tls_connection self)) as Hp. rewrite Hr in Hp. simpl in Hp.
    destruct Hs as (Hi & Hin & Hout). split; [done|]. split; [done|]. simpl. by rewrite Hp. }
  destruct r as [[|x b]| |e]; try by run_step.
  pose proof (deliver_ok (x :: b) _ Hs' (tls_reader_bytes _ _ _ _ Hr)) as Hd.
  apply runs_bind_inv in Hd. run_step. eapply runs_mono; [exact Hd|]. intros events s1 Hd1.
  run_step. eapply runs_mono; [exact Hd1|]. intros [] s2 [Hs2 Hc]. apply IH; [done|]. rewrite Hc.
  pose proof (tls_reader_progress _ _ _ _ Hr ltac:(done)). simpl. lia.
Qed.

Lemma drain_plaintext_ok : preserves (tls_ok B) (tls_ok B) drain_plaintext.
Proof. intros self Hs. unfold drain_plaintext. run_step. run_step. apply drain_plaintext_loop_ok; [done|lia]. Qed.

Lemma socket_loop_ok fuel : ∀ data,
  (length data < fuel)%nat → preserves (tls_ok B) (tls_ok B) (handle_socket_data_loop data fuel).
Proof.
  induction fuel as [|fuel IH]; intros data Hfuel self Hs; [lia|]. cbn [handle_socket_data_loop].
  case_bool_decide as Hd; [by run_step|]. run_step.
  unfold runs at 1, on_tls. destruct (tls_read_tls data (tq_tls_connection self)) as [r c] eqn:Hr.
  assert (Hs' : tls_ok B (self <| tq_tls_connection := c |>)).
  { pose proof (tls_plaintext_read_tls data (tq_tls_connection self)) as Hp. rewrite Hr in Hp.
    destruct Hs as (Hi & Hin & Hout). split; [done|]. split; [done|]. simpl in *. by rewrite Hp. }
  destruct r as [e|n]; [done|]. pose proof (tls_read_prefix _ _ _ _ Hr) as Hn.
  unfold tls_try. run_step. run_step. destruct (Z.eqb_spec n 0); [by run_step|].
  run_step. eapply runs_mono; [by apply (on_tls_ok B); [apply tls_plaintext_process|]|].
  intros [e|[]] s1 Hs1; run_step; run_step; [done|]. run_step.
  eapply runs_mono; [by apply drain_plaintext_ok|]. intros [e|[]] s2 Hs2; [done|].
  apply IH; [|done]. rewrite length_drop. unfold zlen in Hn. destruct data; [done|]. simpl in *. lia.
Qed.

Lemma socket_data_ok data : preserves (tls_ok B) (tls_ok B) (handle_socket_data data).
Proof. apply socket_loop_ok. lia. Qed.

(** ** Output *)
Lemma take_packets sample e :
  in_order B e → runs (take_outgoing sample) e (λ bs e', in_order B e' ∧ encoded_packets bs).
Proof.
  intros He. apply runs_and; [by apply take_outgoing_order|].
  unfold take_outgoing, report_error, at_host, take_outgoing_at, timed. run_step. run_step. run_step. run_step.
  eapply runs_mono; [by apply begin_update_step|]. intros [error|[]] e1.
  { intros ->. run_step. unfold push_event. run_step. apply encoded_packets_nil. }
  intros [-> He1]. run_step. eapply runs_mono; [eapply take_outgoing_step; [|exact He1]; lia|].
  intros bs e2 (_ & Hbs & _). run_step. by run_step.
Qed.

Lemma refill_ok self :
  tls_ok B self → tq_outgoing_plaintext self = [] →
  runs (plaintext ← at_reading take_outgoing;
        modify (λ self, self <| tq_outgoing_plaintext := plaintext |>)) self (λ _ self', tls_ok B self').
Proof.
  intros (Hi & Hin & Hout) Hempty. rewrite Hempty, app_nil_r in Hout. run_step. unfold at_reading.
  run_step. run_step. run_step. run_step. apply runs_zoom.
  eapply runs_mono; [by apply take_packets|]. intros bs e [He Hbs]. run_step.
  split; [done|]. split; [done|]. by apply encoded_packets_join.
Qed.

Lemma write_plaintext_ok self :
  tls_ok B self →
  runs (w ← on_tls (tls_writer_write (tq_outgoing_plaintext self));
        match w with
        | TwWritten written =>
            if written <=? zlen (tq_outgoing_plaintext self) then
              modify (λ self, self <| tq_outgoing_plaintext ::= drop (Z.to_nat written) |>);; mret []
            else λ _, Panic
        | TwWouldBlock => mret []
        | TwError error => mret [ErrorEvent (tls_error "TLS plaintext write failed: " error)]
        end) self (λ _ self', tls_ok B self').
Proof.
  intros (Hi & Hin & Hout). run_step. unfold runs at 1, on_tls.
  pose proof (tls_plaintext_write (tq_outgoing_plaintext self) (tq_tls_connection self)) as Hp.
  destruct (tls_writer_write _ _) as [w c] eqn:Hw. simpl in Hp. destruct w as [n| |text].
  - pose proof (tls_write_accepts _ _ _ _ Hw). destruct (Z.leb_spec n (zlen (tq_outgoing_plaintext self))); [|lia].
    run_step. run_step. run_step. split; [done|]. split; [done|]. simpl. by rewrite Hp, <- app_assoc, take_drop.
  - run_step. split; [done|]. split; [done|]. simpl. by rewrite Hp, app_nil_r.
  - run_step. split; [done|]. split; [done|]. simpl. by rewrite Hp, app_nil_r.
Qed.
End bound.

Lemma tls_tick_ok B now :
  B + 2 <= u32_MAX → preserves (tls_ok B) (tls_ok (B + 1)) (tls_handle_tick now).
Proof.
  intros HB self Hs. unfold tls_handle_tick. run_step. run_step. run_step.
  eapply runs_mono; [eapply (at_reading_ok B B); [|exact Hs]|].
  { intros sample. apply handle_incoming_order; [lia|]. destruct Hs as (_ & -> & _). constructor. }
  intros ev1 s1 Hs1. run_step. run_step.
  assert (Hs1' : tls_ok B (s1 <| tq_incoming_plaintext := [] |>)) by (destruct Hs1 as (? & ? & ?); by split_and!).
  run_step. eapply runs_mono; [eapply (on_engine_ok B (B + 1)); [|exact Hs1']|].
  { apply handle_tick_order. lia. }
  intros ev2 s2 Hs2. run_step. run_step. run_step.
  assert (Hre : runs (if bool_decide (tq_outgoing_plaintext s2 = [])
    then plaintext ← at_reading take_outgoing; modify (λ self, self <| tq_outgoing_plaintext := plaintext |>)
    else mret ()) s2 (λ _ s', tls_ok (B + 1) s')).
  { case_bool_decide; [|by run_step]. apply refill_ok; [lia|done..]. }
  eapply runs_mono; [exact Hre|]. clear Hre. intros [] s3 Hs3. run_step. run_step. run_step.
  eapply runs_mono.
  { instantiate (1 := λ _ s', tls_ok (B + 1) s'). case_bool_decide; [|by run_step]. by apply write_plaintext_ok. }
  intros ev3 s4 Hs4. run_step.
  eapply runs_mono; [eapply (on_engine_ok (B + 1) (B + 1)); [|exact Hs4]; apply take_events_order; lia|].
  intros ev4 s5 Hs5. by run_step.
Qed.

Lemma tls_reset_ok B :
  B + 1 <= u32_MAX → preserves (tls_ok B) (tls_ok (B + 1)) tls_reset_for_new_transport.
Proof.
  intros HB self Hs. unfold tls_reset_for_new_transport, tls_try. run_step. run_step. run_step. run_step.
  destruct (client_connection_new _ _) as [text|c] eqn:Hc; [eapply tls_ok_mono; [done|lia]|].
  run_step. run_step. run_step. eapply runs_mono.
  - apply (at_reading_ok B (B + 1)); [intros; by apply reset_order|]. destruct Hs as (Hi & _ & _).
    split; [done|]. split; [done|]. simpl. rewrite (tls_plaintext_new _ _ _ Hc). apply encoded_packets_nil.
  - intros [] s' Hs'. by run_step.
Qed.
End safety.

(** ** Sequences of calls *)

(** [engine_mut()] gives every method of the protocol engine, and restoring a checkpoint. *)
Inductive TlsCall (T : Type) : Type :=
  | TlsConnect
  | TlsPublish (command : PublishCommand)
  | TlsSubscribe (command : SubscribeCommand)
  | TlsUnsubscribe (command : UnsubscribeCommand)
  | TlsDisconnect
  | TlsDisconnectWith (reason_code : Z) (properties : list Property)
  | TlsPing
  | TlsAuth (reason_code : Z) (properties : list Property)
  | TlsTakeEvents
  | TlsTick (now : T)
  | TlsSocketData (data : bytes)
  | TlsTakeSocketData
  | TlsConnectionLost
  | TlsResetForNewTransport
  | TlsEngineMut (call : EngineCall) (now : T)
  | TlsRestore (state : ClientSessionState).
Arguments TlsConnect {_}.
Arguments TlsPublish {_} _.
Arguments TlsSubscribe {_} _.
Arguments TlsUnsubscribe {_} _.
Arguments TlsDisconnect {_}.
Arguments TlsDisconnectWith {_} _ _.
Arguments TlsPing {_}.
Arguments TlsAuth {_} _ _.
Arguments TlsTakeEvents {_}.
Arguments TlsTick {_} _.
Arguments TlsSocketData {_} _.
Arguments TlsTakeSocketData {_}.
Arguments TlsConnectionLost {_}.
Arguments TlsResetForNewTransport {_}.
Arguments TlsEngineMut {_} _ _.
Arguments TlsRestore {_} _.

Definition tls_call_ok {T} (call : TlsCall T) : Prop :=
  match call with
  | TlsPublish c => publish_command_ok c
  | TlsSubscribe c => wf_opt is_u16 (sc_packet_id c)
  | TlsUnsubscribe c => wf_opt is_u16 (uc_packet_id c)
  | TlsEngineMut c _ => call_ok c
  | TlsRestore state => typed_saved state
  | _ => True
  end.

Section runs.
Context {T : Type} `{TimePoint T, !Runtime T, !Tls, !HostClock T}.
Local Abbreviation M := (St (TlsMqttEngine T)).

Definition drop_result {A} (m : M A) : M () := m;; mret ().

Definition run_tls_call (call : TlsCall T) : M () :=
  match call with
  | TlsConnect => drop_result tls_connect
  | TlsPublish c => drop_result (tls_publish c)
  | TlsSubscribe c => drop_result (tls_subscribe c)
  | TlsUnsubscribe c => drop_result (tls_unsubscribe c)
  | TlsDisconnect => drop_result tls_disconnect
  | TlsDisconnectWith r ps => drop_result (tls_try_disconnect_with r ps)
  | TlsPing => drop_result tls_try_send_ping
  | TlsAuth r ps => drop_result (tls_try_auth r ps)
  | TlsTakeEvents => drop_result tls_take_events
  | TlsTick now => drop_result (tls_handle_tick now)
  | TlsSocketData data => drop_result (handle_socket_data data)
  | TlsTakeSocketData => drop_result take_socket_data
  | TlsConnectionLost => tls_handle_connection_lost
  | TlsResetForNewTransport => drop_result tls_reset_for_new_transport
  | TlsEngineMut c now => on_tls_mqtt (run_call c now)
  | TlsRestore state => drop_result (on_tls_mqtt (restore_session_state state))
  end.
Definition run_tls (calls : list (TlsCall T)) : M () := for_each_st calls run_tls_call.
End runs.

Section all.
Context {T : Type} `{TimePointLaws T} `{!Runtime T} `{!RuntimeLaws T}.
Context `{!Tls} `{!TlsLaws} `{!HostClock T}.
Implicit Types (self : TlsMqttEngine T).

Lemma run_tls_call_ok B call :
  B + 2 <= u32_MAX → tls_call_ok call → preserves (tls_ok B) (tls_ok (B + 1)) (run_tls_call call).
Proof.
  intros HB Hok.
  assert (Hdrop : ∀ {A} (m : St (TlsMqttEngine T) A), preserves (tls_ok B) (tls_ok (B + 1)) m →
    preserves (tls_ok B) (tls_ok (B + 1)) (drop_result m)).
  { intros A m Hm. eapply preserves_bind; [exact Hm|]. intros a. apply preserves_ret. }
  assert (Hup : ∀ {A} (m : St (TlsMqttEngine T) A), preserves (tls_ok B) (tls_ok B) m →
    preserves (tls_ok B) (tls_ok (B + 1)) m).
  { intros A m Hm. eapply preserves_weaken; [exact Hm|done|]. intros s Hs. eapply tls_ok_mono; [done|lia]. }
  assert (Hcall : ∀ {A} (c : EngineCall) (m : T → St (MqttEngine T) A), call_ok c →
    (∀ now, run_call c now = ignore (m now)) →
    preserves (tls_ok B) (tls_ok (B + 1)) (drop_result (at_reading (λ sample, at_host sample m)))).
  { intros A c m Hc Hm. apply Hdrop, at_reading_ok. intros sample.
    apply (host_call B (B + 1) c); try done; [lia..|destruct c; simpl; lia]. }
  destruct call; cbn [tls_call_ok run_tls_call] in *.
  - by apply (Hcall _ CallConnect connect_at).
  - by apply (Hcall _ (CallPublish command) (publish_at command)).
  - by apply (Hcall _ (CallSubscribe command) (subscribe_at command)).
  - by apply (Hcall _ (CallUnsubscribe command) (unsubscribe_at command)).
  - by apply (Hcall _ (CallDisconnect 0 []) disconnect_at).
  - by apply (Hcall _ (CallDisconnect reason_code properties) (try_disconnect_with_at reason_code properties)).
  - by apply (Hcall _ CallPing try_send_ping_at).
  - by apply (Hcall _ (CallAuth reason_code properties) (try_auth_at reason_code properties)).
  - apply Hdrop, Hup, on_engine_ok, take_events_order. lia.
  - apply Hdrop, tls_tick_ok. lia.
  - apply Hdrop, Hup, socket_data_ok. lia.
  - apply Hdrop, Hup, on_tls_ok. intros c. apply tls_plaintext_write_tls.
  - apply Hup, at_reading_ok. intros sample. apply lost_order. lia.
  - apply Hdrop, tls_reset_ok. lia.
  - apply on_engine_ok, next_order; [lia|done].
  - apply Hdrop, Hup, on_engine_ok. intros e He. destruct (restore_in_order B e state He Hok) as (r & e' & Hr & Ho & _).
    unfold runs. by rewrite Hr.
Qed.

Lemma run_tls_ok calls : ∀ B,
  Forall tls_call_ok calls → B + zlen calls + 1 <= u32_MAX →
  preserves (tls_ok B) (tls_ok (B + zlen calls)) (run_tls calls).
Proof.
  induction calls as [|call calls IH]; intros B Hc HB.
  { change (zlen (@nil (TlsCall T))) with 0. rewrite Z.add_0_r. apply preserves_ret. }
  rewrite zlen_cons in *. pose proof (zlen_nonneg calls). apply Forall_cons_1 in Hc as [Hcall Hc].
  unfold run_tls. cbn [for_each_st]. eapply preserves_bind; [apply run_tls_call_ok; [lia|done]|]. intros [].
  replace (B + (1 + zlen calls)) with (B + 1 + zlen calls) by lia. apply IH; [done|lia].
Qed.

Lemma new_tls_ok options name config n self :
  wf_options options → mo_sessionless options = false →
  check_time_range options (clock_reading n) = Ok () →
  TlsMqttEngine_new options name config n = inr self → tls_ok 1 self.
Proof.
  unfold TlsMqttEngine_new. intros Hw Hs Ht Hnew.
  destruct (server_name_try_from name) as [|sn]; [done|].
  destruct (client_connection_new config sn) as [|c] eqn:Hc; [done|]. injection Hnew as <-.
  split; [by apply new_in_order|]. split; [done|]. simpl. rewrite (tls_plaintext_new _ _ _ Hc).
  apply encoded_packets_nil.
Qed.
End all.

(** ** A scripted peer *)

(** A connection that hands out the given plaintexts, one per record it reads, and whose writer
    accepts at most so many bytes at a time; it encrypts nothing. *)
Record ScriptTls : Type := {
  st_incoming : list (list bytes);
  st_ready : list bytes;
  st_window : Z;
  st_plaintext : bytes;
  st_records : bytes;
}.

#[export] Instance Rebuild_ScriptTls : Rebuild ScriptTls := λ s, {|
  st_incoming := st_incoming s; st_ready := st_ready s; st_window := st_window s;
  st_plaintext := st_plaintext s; st_records := st_records s;
|}.

Definition Tls_script (connection : ScriptTls) : Tls := {|
  TlsConfig := ();
  TlsConnection := ScriptTls;
  ServerName := bytes;
  server_name_try_from name := if bool_decide (name = []) then inl "empty" else inr name;
  client_connection_new _ _ := inr (connection <| st_plaintext := [] |>);
  tls_read_tls data c := (inr (Z.min 2 (zlen data)), c);
  tls_process_new_packets c :=
    match st_incoming c with
    | l :: incoming => (inr (), c <| st_incoming := incoming |> <| st_ready ::= λ r, r ++ l |>)
    | [] => (inr (), c)
    end;
  tls_reader_read _ c :=
    match st_ready c with
    | b :: ready => ((if bool_decide (u8s b) then TrBytes b else TrWouldBlock), c <| st_ready := ready |>)
    | [] => (TrWouldBlock, c)
    end;
  tls_write_tls c := (st_records c, c <| st_records := [] |>);
  tls_writer_write b c :=
    let n := Z.max 0 (Z.min (st_window c) (zlen b)) in
    (TwWritten n, c <| st_plaintext ::= λ l, l ++ take (Z.to_nat n) b |>
                    <| st_records ::= λ l, l ++ take (Z.to_nat n) b |>);
  tls_wants_write c := negb (bool_decide (st_records c = []));
  tls_reads_left c := length (st_ready c);
  tls_plaintext := st_plaintext;
|}.

Lemma TlsLaws_script connection : @TlsLaws (Tls_script connection).
Proof.
  split; simpl.
  - intros data c n c' [= <- _]. pose proof (zlen_nonneg data). lia.
  - intros n c b c' Hr Hb. destruct (st_ready c) as [|x l] eqn:E; [done|].
    injection Hr as _ <-. simpl. lia.
  - intros n c b c' Hr. destruct (st_ready c) as [|x l]; [done|].
    case_bool_decide; [|done]. by injection Hr as <- _.
  - intros b c n c' [= <- _]. pose proof (zlen_nonneg b). lia.
  - by intros config name c [= <-].
  - done.
  - done.
  - intros c. by destruct (st_incoming c).
  - intros n c. by destruct (st_ready c).
  - done.
Qed.

(** ** Theorems *)

(** C7: the MQTT-over-TLS engine never panics, and what it hands to TLS is whole packets.  For
    every well-typed configuration with a persistent session ([sessionless] off) whose deadlines
    are representable from the first reading of the clock on, every TLS connection that keeps the
    promises of [TlsLaws] (so any records, any cut of the plaintext, writers that accept part of
    the output, and failures at any point), every clock and every sequence of fewer than
    [u32::MAX - 1] calls, those through [engine_mut] included, with well-typed commands except a
    QoS 0 PUBLISH that carries a packet identifier: every call returns, the invariant of the
    protocol engine holds at the end, and the plaintext the connection has accepted, followed by
    what still waits, is a sequence of whole encoded packets: none is torn, repeated or mixed with
    another transport's.  When [disconnect_complete] says so, neither the engine nor the
    transport has output waiting, and the plaintext the connection accepted is itself a
    sequence of whole packets. *)
Theorem tls_whole_packets {T} `{TimePointLaws T} `{!Runtime T} `{!RuntimeLaws T}
    `{!Tls} `{!TlsLaws} `{!HostClock T} options server_name config readings self calls :
  wf_options options → mo_sessionless options = false →
  check_time_range options (clock_reading readings) = Ok () →
  TlsMqttEngine_new options server_name config readings = inr self →
  Forall tls_call_ok calls → zlen calls < u32_MAX - 1 →
  ∃ self', run_tls calls self = Ok ((), self') ∧ engine_inv (tq_mqtt_engine self') ∧
    encoded_packets (tls_plaintext (tq_tls_connection self') ++ tq_outgoing_plaintext self') ∧
    (tls_disconnect_complete self' = true →
       tq_outgoing_plaintext self' = [] ∧ has_pending_output (tq_mqtt_engine self') = false ∧
       encoded_packets (tls_plaintext (tq_tls_connection self'))).
Proof.
  intros Hw Hs Ht Hnew Hc Hlen.
  pose proof (run_tls_ok calls 1 Hc ltac:(lia) _ (new_tls_ok _ _ _ _ _ Hw Hs Ht Hnew)) as Hrun.
  apply runs_Ok in Hrun as ([] & self' & Hrun & [Hi _] & _ & Hout). exists self'. split_and!; try done.
  unfold tls_disconnect_complete. intros Hd. apply andb_prop in Hd as [Hd _].
  apply andb_prop in Hd as [Hd Hpend%negb_true_iff]. apply andb_prop in Hd as [_ Hd].
  apply bool_decide_eq_true in Hd. rewrite Hd, app_nil_r in Hout. done.
Qed.

#[local] Existing Instance Runtime_ordered.
#[local] Existing Instance RuntimeLaws_ordered.

(** A peer that answers the CONNECT in two reads and takes ten bytes of output at a time. *)
Definition sample_script_tls : ScriptTls := {|
  st_incoming := [[]; [[32; 3; 0]; [0; 0]]; [[255]]]; st_ready := []; st_window := 10;
  st_plaintext := []; st_records := [] |}.
#[local] Instance Tls_sample : Tls := Tls_script sample_script_tls.
#[local] Instance TlsLaws_sample : TlsLaws := TlsLaws_script sample_script_tls.
#[local] Instance HostClock_sample : HostClock Timestamp := λ n, Timestamp_from_nanos (Z.of_nat n).

Definition sample_tls_config : @TlsConfig Tls_sample := ().

Definition sample_tls_tick (n : Z) : TlsCall Timestamp := TlsTick (Timestamp_from_nanos n).
Definition sample_tls_calls : list (TlsCall Timestamp) :=
  [TlsRestore sample_saved; TlsConnect; sample_tls_tick 9; TlsTakeSocketData;
   TlsSocketData [1; 2; 3; 4]; sample_tls_tick 11; TlsPublish sample_command; sample_tls_tick 12;
   TlsEngineMut (CallSetReconnect true) (Timestamp_from_nanos 0); TlsSocketData [5];
   sample_tls_tick 13; TlsTakeEvents; TlsConnectionLost; TlsResetForNewTransport; TlsConnect;
   sample_tls_tick 14].

Lemma tls_whole_packets_witness :
  ∃ self, TlsMqttEngine_new resumed_options (str "broker") sample_tls_config 0 = inr self ∧
  ∃ self', run_tls sample_tls_calls self = Ok ((), self') ∧ engine_inv (tq_mqtt_engine self') ∧
    encoded_packets (tls_plaintext (tq_tls_connection self') ++ tq_outgoing_plaintext self') ∧
    (tls_disconnect_complete self' = true →
       tq_outgoing_plaintext self' = [] ∧ has_pending_output (tq_mqtt_engine self') = false ∧
       encoded_packets (tls_plaintext (tq_tls_connection self'))).
Proof.
  eexists. split; [reflexivity|].
  eapply (tls_whole_packets resumed_options (str "broker") sample_tls_config 0).
  - exact resumed_options_wf.
  - reflexivity.
  - reflexivity.
  - reflexivity.
  - unfold sample_tls_calls.
    repeat (apply Forall_cons_2; [first [exact I|exact sample_command_ok|exact sample_saved_typed]|]).
    apply Forall_nil_2.
  - vm_compute. done.
Defined.
