(* ===== verification/FfiTypes.v ===== *)
(** * The foreign-function interface: types, validation, options

    Models [src/flowsdk_ffi/src/engine/properties.rs], the records of [engine/ffi_types.rs] and
    the option handling of [engine/runtime.rs]: the properties, commands and options of the
    bindings, the checks before anything reaches the engine, and the conversion to the core's
    types.  Only messages for humans come out of the derived [Debug] of the properties and of
    the client's errors: the class [FfiText]. *)
From S2P Require Import Prelude BaseData TopicFilter Validation Properties Packets.
From S2P Require Import Time ClientError Options ClientTypes Commands EngineState.

(** ** [MqttPropertyFFI] *)
Inductive MqttPropertyFFI : Type :=
  | FPayloadFormatIndicator (value : Z)
  | FMessageExpiryInterval (value : Z)
  | FContentType (value : bytes)
  | FResponseTopic (value : bytes)
  | FCorrelationData (value : bytes)
  | FSubscriptionIdentifier (value : Z)
  | FSessionExpiryInterval (value : Z)
  | FAssignedClientIdentifier (value : bytes)
  | FServerKeepAlive (value : Z)
  | FAuthenticationMethod (value : bytes)
  | FAuthenticationData (value : bytes)
  | FRequestProblemInformation (value : Z)
  | FWillDelayInterval (value : Z)
  | FRequestResponseInformation (value : Z)
  | FResponseInformation (value : bytes)
  | FServerReference (value : bytes)
  | FReasonString (value : bytes)
  | FReceiveMaximum (value : Z)
  | FTopicAliasMaximum (value : Z)
  | FTopicAlias (value : Z)
  | FMaximumQoS (value : Z)
  | FRetainAvailable (value : Z)
  | FUserProperty (key value : bytes)
  | FMaximumPacketSize (value : Z)
  | FWildcardSubscriptionAvailable (value : Z)
  | FSubscriptionIdentifierAvailable (value : Z)
  | FSharedSubscriptionAvailable (value : Z).

#[export] Instance MqttPropertyFFI_eq_dec : EqDecision MqttPropertyFFI.
Proof. solve_decision. Defined.

(** [impl From<MqttPropertyFFI> for Property] *)
Definition Property_from_ffi (property : MqttPropertyFFI) : Property :=
  match property with
  | FPayloadFormatIndicator value => PayloadFormatIndicator value
  | FMessageExpiryInterval value => MessageExpiryInterval value
  | FContentType value => ContentType value
  | FResponseTopic value => ResponseTopic value
  | FCorrelationData value => CorrelationData value
  | FSubscriptionIdentifier value => SubscriptionIdentifier value
  | FSessionExpiryInterval value => SessionExpiryInterval value
  | FAssignedClientIdentifier value => AssignedClientIdentifier value
  | FServerKeepAlive value => ServerKeepAlive value
  | FAuthenticationMethod value => AuthenticationMethod value
  | FAuthenticationData value => AuthenticationData value
  | FRequestProblemInformation value => RequestProblemInformation value
  | FWillDelayInterval value => WillDelayInterval value
  | FRequestResponseInformation value => RequestResponseInformation value
  | FResponseInformation value => ResponseInformation value
  | FServerReference value => ServerReference value
  | FReasonString value => ReasonString value
  | FReceiveMaximum value => ReceiveMaximum value
  | FTopicAliasMaximum value => TopicAliasMaximum value
  | FTopicAlias value => TopicAlias value
  | FMaximumQoS value => MaximumQoS value
  | FRetainAvailable value => RetainAvailable value
  | FUserProperty key value => UserProperty key value
  | FMaximumPacketSize value => MaximumPacketSize value
  | FWildcardSubscriptionAvailable value => WildcardSubscriptionAvailable value
  | FSubscriptionIdentifierAvailable value => SubscriptionIdentifierAvailable value
  | FSharedSubscriptionAvailable value => SharedSubscriptionAvailable value
  end.

(** [impl From<Property> for MqttPropertyFFI] *)
Definition MqttPropertyFFI_from (property : Property) : MqttPropertyFFI :=
  match property with
  | PayloadFormatIndicator value => FPayloadFormatIndicator value
  | MessageExpiryInterval value => FMessageExpiryInterval value
  | ContentType value => FContentType value
  | ResponseTopic value => FResponseTopic value
  | CorrelationData value => FCorrelationData value
  | SubscriptionIdentifier value => FSubscriptionIdentifier value
  | SessionExpiryInterval value => FSessionExpiryInterval value
  | AssignedClientIdentifier value => FAssignedClientIdentifier value
  | ServerKeepAlive value => FServerKeepAlive value
  | AuthenticationMethod value => FAuthenticationMethod value
  | AuthenticationData value => FAuthenticationData value
  | RequestProblemInformation value => FRequestProblemInformation value
  | WillDelayInterval value => FWillDelayInterval value
  | RequestResponseInformation value => FRequestResponseInformation value
  | ResponseInformation value => FResponseInformation value
  | ServerReference value => FServerReference value
  | ReasonString value => FReasonString value
  | ReceiveMaximum value => FReceiveMaximum value
  | TopicAliasMaximum value => FTopicAliasMaximum value
  | TopicAlias value => FTopicAlias value
  | MaximumQoS value => FMaximumQoS value
  | RetainAvailable value => FRetainAvailable value
  | UserProperty key value => FUserProperty key value
  | MaximumPacketSize value => FMaximumPacketSize value
  | WildcardSubscriptionAvailable value => FWildcardSubscriptionAvailable value
  | SubscriptionIdentifierAvailable value => FSubscriptionIdentifierAvailable value
  | SharedSubscriptionAvailable value => FSharedSubscriptionAvailable value
  end.

(** [std::mem::discriminant] *)
Definition discriminant (property : MqttPropertyFFI) : nat :=
  match property with
  | FPayloadFormatIndicator _ => 0 | FMessageExpiryInterval _ => 1 | FContentType _ => 2
  | FResponseTopic _ => 3 | FCorrelationData _ => 4 | FSubscriptionIdentifier _ => 5
  | FSessionExpiryInterval _ => 6 | FAssignedClientIdentifier _ => 7 | FServerKeepAlive _ => 8
  | FAuthenticationMethod _ => 9 | FAuthenticationData _ => 10
  | FRequestProblemInformation _ => 11 | FWillDelayInterval _ => 12
  | FRequestResponseInformation _ => 13 | FResponseInformation _ => 14
  | FServerReference _ => 15 | FReasonString _ => 16 | FReceiveMaximum _ => 17
  | FTopicAliasMaximum _ => 18 | FTopicAlias _ => 19 | FMaximumQoS _ => 20
  | FRetainAvailable _ => 21 | FUserProperty _ _ => 22 | FMaximumPacketSize _ => 23
  | FWildcardSubscriptionAvailable _ => 24 | FSubscriptionIdentifierAvailable _ => 25
  | FSharedSubscriptionAvailable _ => 26
  end.

Definition is_user_ffi (property : MqttPropertyFFI) : bool :=
  match property with FUserProperty _ _ => true | _ => false end.

(** ** Errors *)
Inductive MqttErrorFFI : Type :=
  | FfiConfiguration (detail : string)
  | FfiInvalidArgument (detail : string)
  | FfiEngineError (detail : string)
  | FfiUnsupported (detail : string).

#[export] Instance MqttErrorFFI_eq_dec : EqDecision MqttErrorFFI.
Proof. solve_decision. Defined.

Class FfiText : Type := {
  property_ffi_debug : MqttPropertyFFI → string;
  client_error_debug : MqttClientError → string;
}.

Definition MqttErrorFFI_to_string (self : MqttErrorFFI) : string :=
  match self with
  | FfiConfiguration detail => "Invalid configuration: " +:+ detail
  | FfiInvalidArgument detail => "Invalid argument: " +:+ detail
  | FfiEngineError detail => "MQTT engine error: " +:+ detail
  | FfiUnsupported detail => "Unsupported operation: " +:+ detail
  end.

Definition MqttErrorFFI_from `{!ErrorText} (error : MqttClientError) : MqttErrorFFI :=
  FfiEngineError (user_message error).

Definition invalid_ffi {A} (message : string) : result MqttErrorFFI A := Err (FfiInvalidArgument message).

(** ** Option records *)
Record MqttPublishOptionsFFI : Type := {
  fp_qos : Z;
  fp_retain : bool;
  fp_priority : option Z;
  fp_properties : list MqttPropertyFFI;
}.

Record MqttSubscriptionFFI : Type := {
  fs_topic_filter : bytes;
  fs_qos : Z;
  fs_no_local : bool;
  fs_retain_as_published : bool;
  fs_retain_handling : Z;
}.

Record MqttSubscribeOptionsFFI : Type := {
  fso_subscriptions : list MqttSubscriptionFFI;
  fso_properties : list MqttPropertyFFI;
}.

Record MqttUnsubscribeOptionsFFI : Type := {
  fuo_topics : list bytes;
  fuo_properties : list MqttPropertyFFI;
}.

Record MqttDisconnectOptionsFFI : Type := {
  fd_reason_code : Z;
  fd_properties : list MqttPropertyFFI;
}.

Record MqttWillFFI : Type := {
  fw_topic : bytes;
  fw_payload : bytes;
  fw_qos : Z;
  fw_retain : bool;
  fw_properties : list MqttPropertyFFI;
}.

Record MqttEngineOptionsFFI : Type := {
  feo_retransmission_timeout_ms : option Z;
  feo_ping_timeout_multiplier : option Z;
  feo_max_outgoing_packet_count : option Z;
  feo_max_event_count : option Z;
  feo_parser_buffer_size : option Z;
  feo_max_inflight : option Z;
  feo_auto_keepalive : option bool;
  feo_auto_ack : option bool;
  feo_sessionless : option bool;
  feo_subscriptions : list MqttSubscriptionFFI;
}.

Record MqttOptionsFFI : Type := {
  fmo_client_id : bytes;
  fmo_mqtt_version : Z;
  fmo_clean_start : bool;
  fmo_keep_alive : Z;
  fmo_username : option bytes;
  fmo_password : option bytes;
  fmo_reconnect_base_delay_ms : Z;
  fmo_reconnect_max_delay_ms : Z;
  fmo_max_reconnect_attempts : Z;
}.

Record MqttConnectOptionsFFI : Type := {
  fc_options : MqttOptionsFFI;
  fc_properties : list MqttPropertyFFI;
  fc_will : option MqttWillFFI;
  fc_binary_password : option bytes;
  fc_engine_options : option MqttEngineOptionsFFI;
}.

Record MqttOperationTimeoutsFFI : Type := {
  ft_connect_ms : option Z;
  ft_publish_ms : option Z;
  ft_subscribe_ms : option Z;
  ft_unsubscribe_ms : option Z;
}.

Record MqttRuntimeOptionsFFI : Type := {
  fr_peer : option bytes;
  fr_operation_timeouts : option MqttOperationTimeoutsFFI;
  fr_incoming_receive_maximum : option Z;
  fr_max_incoming_packet_size : option Z;
  fr_max_incoming_buffer_bytes : option Z;
  fr_max_outgoing_buffer_bytes : option Z;
  fr_reconnect : option bool;
}.

(** The derived and the written defaults, and [mqtt_cloud_timeouts]. *)
Definition MqttPublishOptionsFFI_default : MqttPublishOptionsFFI :=
  {| fp_qos := 0; fp_retain := false; fp_priority := None; fp_properties := [] |}.
Definition MqttSubscriptionFFI_default : MqttSubscriptionFFI :=
  {| fs_topic_filter := []; fs_qos := 0; fs_no_local := false; fs_retain_as_published := false;
     fs_retain_handling := 0 |}.
Definition MqttDisconnectOptionsFFI_default : MqttDisconnectOptionsFFI :=
  {| fd_reason_code := 0; fd_properties := [] |}.
Definition MqttRuntimeOptionsFFI_default : MqttRuntimeOptionsFFI :=
  {| fr_peer := None; fr_operation_timeouts := None; fr_incoming_receive_maximum := None;
     fr_max_incoming_packet_size := None; fr_max_incoming_buffer_bytes := None;
     fr_max_outgoing_buffer_bytes := None; fr_reconnect := None |}.
Definition MqttOptionsFFI_default : MqttOptionsFFI :=
  {| fmo_client_id := str "mqtt_client"; fmo_mqtt_version := 5; fmo_clean_start := true;
     fmo_keep_alive := 60; fmo_username := None; fmo_password := None;
     fmo_reconnect_base_delay_ms := 1000; fmo_reconnect_max_delay_ms := 60000;
     fmo_max_reconnect_attempts := 0 |}.
Definition mqtt_cloud_timeouts : MqttOperationTimeoutsFFI :=
  {| ft_connect_ms := Some 30000; ft_publish_ms := Some 10000; ft_subscribe_ms := Some 10000;
     ft_unsubscribe_ms := Some 10000 |}.
(** [impl From<MqttOptionsFFI> for MqttConnectOptionsFFI] *)
Definition MqttConnectOptionsFFI_from (options : MqttOptionsFFI) : MqttConnectOptionsFFI :=
  {| fc_options := options; fc_properties := []; fc_will := None; fc_binary_password := None;
     fc_engine_options := None |}.

(** ** Checks *)
Definition check (valid : bool) (message : string) : result MqttErrorFFI () :=
  if valid then Ok () else invalid_ffi message.

Definition text (value : bytes) : result MqttErrorFFI () :=
  check (negb ((u16_MAX <? zlen value) || contains_char value 0))
    "MQTT strings must be at most 65535 bytes and contain no NUL".

Definition topic (value : bytes) (allow_empty : bool) : result MqttErrorFFI () :=
  _ ← text value;
  check (negb ((negb allow_empty && bool_decide (value = []))
               || (contains_char value PLUS || contains_char value HASH)))
    "A topic name must be nonempty and contain no wildcards".

(** The check of the value in the loop of [validate]. *)
Definition validate_value (property : MqttPropertyFFI) : result MqttErrorFFI () :=
  match property with
  | FPayloadFormatIndicator value | FRequestProblemInformation value
  | FRequestResponseInformation value | FMaximumQoS value | FRetainAvailable value
  | FWildcardSubscriptionAvailable value | FSubscriptionIdentifierAvailable value
  | FSharedSubscriptionAvailable value => check (negb (1 <? value)) "Boolean property must be 0 or 1"
  | FSubscriptionIdentifier value =>
      check (negb ((value =? 0) || (268435455 <? value)))
        "Subscription identifier must be in 1..268435455"
  | FReceiveMaximum value | FTopicAlias value | FMaximumPacketSize value =>
      check (negb (value =? 0)) "Property value must be nonzero"
  | FContentType value | FAssignedClientIdentifier value | FAuthenticationMethod value
  | FResponseInformation value | FServerReference value | FReasonString value => text value
  | FResponseTopic value => topic value false
  | FUserProperty key value => _ ← text key; text value
  | FCorrelationData value | FAuthenticationData value =>
      check (negb (65535 <? zlen value)) "Binary property exceeds 65535 bytes"
  | _ => Ok ()
  end.

Section validate.
Context `{!FfiText}.

Fixpoint validate_loop (allowed : MqttPropertyFFI → bool) (properties : list MqttPropertyFFI)
    (seen : gset nat) : result MqttErrorFFI () :=
  match properties with
  | [] => Ok ()
  | property :: properties =>
      _ ← check (allowed property)
            ("Property " +:+ property_ffi_debug property +:+ " is not allowed in this packet");
      seen ← (if is_user_ffi property then Ok seen
              else if bool_decide (discriminant property ∈ seen)
              then invalid_ffi "Only user properties may be repeated in outgoing client packets"
              else Ok ({[discriminant property]} ∪ seen));
      _ ← validate_value property;
      validate_loop allowed properties seen
  end.

Definition validate (properties : list MqttPropertyFFI) (version : Z)
    (allowed : MqttPropertyFFI → bool) : result MqttErrorFFI (list Property) :=
  _ ← check (negb (negb (version =? 5) && negb (bool_decide (properties = []))))
        "Properties require MQTT 5";
  _ ← validate_loop allowed properties ∅;
  Ok (Property_from_ffi <$> properties).

(** ** Commands *)
Definition publish_allowed (p : MqttPropertyFFI) : bool :=
  match p with
  | FPayloadFormatIndicator _ | FMessageExpiryInterval _ | FContentType _ | FResponseTopic _
  | FCorrelationData _ | FTopicAlias _ | FUserProperty _ _ => true
  | _ => false
  end.

(** [MqttPublishOptionsFFI::command] *)
Definition publish_command_ffi (self : MqttPublishOptionsFFI) (topic_name payload : bytes)
    (version : Z) (priority_supported : bool) : result MqttErrorFFI PublishCommand :=
  _ ← check (negb (2 <? fp_qos self)) "QoS must be 0, 1, or 2";
  _ ← (if negb priority_supported && bool_decide (is_Some (fp_priority self))
       then Err (FfiUnsupported "Publish priority is not supported on QUIC") else Ok ());
  properties ← validate (fp_properties self) version publish_allowed;
  let has_alias := existsb (λ p, match p with TopicAlias _ => true | _ => false end) properties in
  _ ← topic topic_name has_alias;
  Ok (PublishCommand_new topic_name payload (fp_qos self) (fp_retain self) false None properties
        (default 128 (fp_priority self))).
End validate.

(** The properties that [auth_with_properties], [disconnect_with_options] and
    [acknowledgement_properties] let through. *)
Definition auth_allowed (p : MqttPropertyFFI) : bool :=
  match p with
  | FAuthenticationMethod _ | FAuthenticationData _ | FReasonString _ | FUserProperty _ _ => true
  | _ => false
  end.
Definition disconnect_allowed (p : MqttPropertyFFI) : bool :=
  match p with FSessionExpiryInterval _ | FReasonString _ | FUserProperty _ _ => true | _ => false end.
Definition ack_allowed (p : MqttPropertyFFI) : bool :=
  match p with FReasonString _ | FUserProperty _ _ => true | _ => false end.

Section conversions.
Context {T : Type} `{TimePoint T, !Runtime T, !FfiText, !ErrorText}.

(** [.map_err(|e| invalid(e.to_string()))] *)
Definition invalid_parse {A} (r : res A) : result MqttErrorFFI A :=
  match r with
  | Ok a => Ok a
  | Err e => invalid_ffi (ParseError_to_string e)
  | Panic => Panic
  end.

Definition SHARE : bytes := str "$share/".

Definition topic_filter_ffi (value : bytes) : result MqttErrorFFI () :=
  _ ← text value;
  _ ← invalid_parse (validate_topic_filter value);
  _ ← invalid_parse (validate_shared_subscription value);
  if starts_with value SHARE then
    let name := default [] (head (split_on SLASH (drop (length SHARE) value))) in
    check (negb (contains_char name PLUS || contains_char name HASH))
      "Shared subscription group must not contain wildcards"
  else Ok ().

(** The body of the loop over the subscriptions. *)
Definition subscription_ffi (version : Z) (sub : MqttSubscriptionFFI)
    : result MqttErrorFFI TopicSubscription :=
  _ ← topic_filter_ffi (fs_topic_filter sub);
  _ ← check (negb ((2 <? fs_qos sub) || (2 <? fs_retain_handling sub)))
        "QoS and retain_handling must be 0, 1, or 2";
  _ ← check (negb (negb (version =? 5)
               && (fs_no_local sub || fs_retain_as_published sub || negb (fs_retain_handling sub =? 0))))
        "Subscription options require MQTT 5";
  _ ← check (negb (fs_no_local sub && starts_with (fs_topic_filter sub) SHARE))
        "No Local cannot be used with shared subscriptions";
  Ok (TopicSubscription_new (fs_topic_filter sub) (fs_qos sub) (fs_no_local sub)
        (fs_retain_as_published sub) (fs_retain_handling sub)).

Fixpoint subscriptions_ffi (version : Z) (subs : list MqttSubscriptionFFI)
    : result MqttErrorFFI (list TopicSubscription) :=
  match subs with
  | [] => Ok []
  | sub :: subs =>
      s ← subscription_ffi version sub;
      rest ← subscriptions_ffi version subs;
      Ok (s :: rest)
  end.

Definition subscribe_allowed (p : MqttPropertyFFI) : bool :=
  match p with FSubscriptionIdentifier _ | FUserProperty _ _ => true | _ => false end.

(** [MqttSubscribeOptionsFFI::command] *)
Definition subscribe_command_ffi (self : MqttSubscribeOptionsFFI) (version : Z)
    : result MqttErrorFFI SubscribeCommand :=
  _ ← check (negb (bool_decide (fso_subscriptions self = []))) "At least one subscription is required";
  properties ← validate (fso_properties self) version subscribe_allowed;
  subscriptions ← subscriptions_ffi version (fso_subscriptions self);
  Ok (SubscribeCommand_new None subscriptions properties).

Fixpoint topic_filters_ffi (topics : list bytes) : result MqttErrorFFI () :=
  match topics with
  | [] => Ok ()
  | topic :: topics => _ ← topic_filter_ffi topic; topic_filters_ffi topics
  end.

(** [MqttUnsubscribeOptionsFFI::command] *)
Definition unsubscribe_command_ffi (self : MqttUnsubscribeOptionsFFI) (version : Z)
    : result MqttErrorFFI UnsubscribeCommand :=
  _ ← check (negb (bool_decide (fuo_topics self = []))) "At least one topic is required";
  _ ← topic_filters_ffi (fuo_topics self);
  properties ← validate (fuo_properties self) version is_user_ffi;
  Ok (UnsubscribeCommand_new None (fuo_topics self) properties).

(** ** Options *)

(** [impl From<MqttOptionsFFI> for MqttClientOptions] *)
Definition MqttClientOptions_from_ffi (opts : MqttOptionsFFI) : panics MqttClientOptions :=
  build_options MqttClientOptions_default
    ([Set_client_id (fmo_client_id opts); Set_mqtt_version (fmo_mqtt_version opts);
      Set_clean_start (fmo_clean_start opts); Set_keep_alive (fmo_keep_alive opts);
      Set_reconnect_base_delay_ms (fmo_reconnect_base_delay_ms opts);
      Set_reconnect_max_delay_ms (fmo_reconnect_max_delay_ms opts);
      Set_max_reconnect_attempts (fmo_max_reconnect_attempts opts)]
     ++ from_option (λ username, [Set_username username]) [] (fmo_username opts)
     ++ from_option (λ password, [Set_password password]) [] (fmo_password opts)).

Fixpoint deduplicate_connect_loop (properties result_ : list MqttPropertyFFI)
    : result MqttErrorFFI (list MqttPropertyFFI) :=
  match properties with
  | [] => Ok result_
  | property :: properties =>
      if is_user_ffi property then deduplicate_connect_loop properties (result_ ++ [property])
      else match List.find (λ p, Nat.eqb (discriminant p) (discriminant property)) result_ with
           | Some previous =>
               if bool_decide (previous ≠ property)
               then invalid_ffi "Conflicting CONNECT property values"
               else deduplicate_connect_loop properties result_
           | None => deduplicate_connect_loop properties (result_ ++ [property])
           end
  end.
Definition deduplicate_connect (properties : list MqttPropertyFFI)
    : result MqttErrorFFI (list MqttPropertyFFI) :=
  deduplicate_connect_loop properties [].

Definition connect_allowed (p : MqttPropertyFFI) : bool :=
  match p with
  | FSessionExpiryInterval _ | FReceiveMaximum _ | FMaximumPacketSize _ | FTopicAliasMaximum _
  | FRequestResponseInformation _ | FRequestProblemInformation _ | FUserProperty _ _
  | FAuthenticationMethod _ | FAuthenticationData _ => true
  | _ => false
  end.

Definition will_allowed (p : MqttPropertyFFI) : bool :=
  match p with
  | FWillDelayInterval _ | FPayloadFormatIndicator _ | FMessageExpiryInterval _ | FContentType _
  | FResponseTopic _ | FCorrelationData _ | FUserProperty _ _ => true
  | _ => false
  end.

(** The body of the loop over the properties of the will; the other ones are [unreachable!]. *)
Definition set_will_ffi (w : panics WillProperties) (p : Property) : panics WillProperties :=
  w ← w;
  match p with
  | WillDelayInterval v => Ok (w <| wp_will_delay_interval := Some v |>)
  | PayloadFormatIndicator v => Ok (w <| wp_payload_format_indicator := Some v |>)
  | MessageExpiryInterval v => Ok (w <| wp_message_expiry_interval := Some v |>)
  | ContentType v => Ok (w <| wp_content_type := Some v |>)
  | ResponseTopic v => Ok (w <| wp_response_topic := Some v |>)
  | CorrelationData v => Ok (w <| wp_correlation_data := Some v |>)
  | UserProperty k v => Ok (w <| wp_user_properties ::= λ l, l ++ [UserProperty k v] |>)
  | _ => Panic
  end.

(** A computation that can only panic, inside one that returns errors. *)
Definition never_fails {E A} (r : panics A) : result E A :=
  match r with Ok a => Ok a | _ => Panic end.

(** [MqttWillFFI::into_core] *)
Definition will_into_core (self : MqttWillFFI) (version : Z) : result MqttErrorFFI Will5 :=
  _ ← topic (fw_topic self) false;
  _ ← check (negb ((2 <? fw_qos self) || (65535 <? zlen (fw_payload self))))
        "Invalid Will QoS or payload length";
  properties ← validate (fw_properties self) version will_allowed;
  will_properties ← never_fails (fold_left set_will_ffi properties (Ok WillProperties_new));
  Ok {| w5_will_qos := fw_qos self; w5_will_retain := fw_retain self;
        w5_will_topic := fw_topic self; w5_will_message := fw_payload self;
        w5_properties := will_properties |}.

(** The macro [nonzero!]. *)
Definition nonzero (value : option Z) (name : string) (set : Z → MqttClientOptions → MqttClientOptions)
    (options : MqttClientOptions) : result MqttErrorFFI MqttClientOptions :=
  match value with
  | Some value =>
      if value =? 0 then invalid_ffi (name +:+ " must be greater than zero") else Ok (set value options)
  | None => Ok options
  end.

(** [MqttEngineOptionsFFI::apply] *)
Definition engine_options_apply (self : MqttEngineOptionsFFI) (options : MqttClientOptions)
    : result MqttErrorFFI MqttClientOptions :=
  options ← nonzero (feo_retransmission_timeout_ms self) "retransmission_timeout_ms"
              (λ v o, o <| mo_retransmission_timeout_ms := v |>) options;
  options ← nonzero (feo_ping_timeout_multiplier self) "ping_timeout_multiplier"
              (λ v o, o <| mo_ping_timeout_multiplier := v |>) options;
  options ← nonzero (feo_max_outgoing_packet_count self) "max_outgoing_packet_count"
              (λ v o, o <| mo_max_outgoing_packet_count := v |>) options;
  options ← nonzero (feo_max_event_count self) "max_event_count"
              (λ v o, o <| mo_max_event_count := v |>) options;
  options ← nonzero (feo_parser_buffer_size self) "parser_buffer_size"
              (λ v o, o <| mo_parser_buffer_size := v |>) options;
  options ← nonzero (feo_max_inflight self) "max_inflight"
              (λ v o, o <| mo_receive_maximum := v |>) options;
  let options := from_option (λ v, options <| mo_auto_keepalive := v |>) options
                   (feo_auto_keepalive self) in
  let options := from_option (λ v, options <| mo_auto_ack := v |>) options (feo_auto_ack self) in
  let options := from_option (λ v, options <| mo_sessionless := v |>) options
                   (feo_sessionless self) in
  _ ← check (negb (mo_sessionless options
               && (negb (mo_clean_start options)
                   || negb (default 0 (mo_session_expiry_interval options) =? 0))))
        "Sessionless mode requires clean_start=True and zero session expiry";
  if bool_decide (feo_subscriptions self = []) then Ok options else
  command ← subscribe_command_ffi {| fso_subscriptions := feo_subscriptions self; fso_properties := [] |}
              (mo_mqtt_version options);
  Ok (options <| mo_subscription_topics := sc_subscriptions command |>).

(** The body of the loop over the validated CONNECT properties. *)
Definition set_connect_property (options : MqttClientOptions) (p : Property) : MqttClientOptions :=
  match p with
  | SessionExpiryInterval value => options <| mo_session_expiry_interval := Some value |>
  | MaximumPacketSize value => options <| mo_maximum_packet_size := Some value |>
  | RequestResponseInformation value =>
      options <| mo_request_response_information := Some (negb (value =? 0)) |>
  | RequestProblemInformation value =>
      options <| mo_request_problem_information := Some (negb (value =? 0)) |>
  | _ => options
  end.

Definition opt_check {A} (f : A → result MqttErrorFFI ()) (o : option A) : result MqttErrorFFI () :=
  match o with Some a => f a | None => Ok () end.
Definition is_authentication_data (p : Property) : bool :=
  match p with AuthenticationData _ => true | _ => false end.
Definition is_authentication_method (p : Property) : bool :=
  match p with AuthenticationMethod _ => true | _ => false end.

(** [MqttConnectOptionsFFI::into_core] *)
Definition into_core (self : MqttConnectOptionsFFI) : result MqttErrorFFI MqttClientOptions :=
  let version := fmo_mqtt_version (fc_options self) in
  _ ← check ((version =? 3) || (version =? 4) || (version =? 5)) "MQTT version must be 3, 4, or 5";
  _ ← text (fmo_client_id (fc_options self));
  _ ← opt_check text (fmo_username (fc_options self));
  _ ← check (negb (bool_decide (is_Some (fc_binary_password self))
               && bool_decide (is_Some (fmo_password (fc_options self)))))
        "Provide either a string or binary password";
  let password := match fc_binary_password self with
                  | Some p => Some p
                  | None => fmo_password (fc_options self)
                  end in
  _ ← opt_check (λ p, check (negb (65535 <? zlen p)) "Password exceeds 65535 bytes") password;
  deduplicated ← deduplicate_connect (fc_properties self);
  properties ← validate deduplicated version connect_allowed;
  _ ← check (negb (existsb is_authentication_data properties
               && negb (existsb is_authentication_method properties)))
        "CONNECT authentication data requires an authentication method";
  options ← never_fails (MqttClientOptions_from_ffi (fc_options self));
  let options := options <| mo_password := password |> in
  let options := fold_left set_connect_property properties options in
  let options := options <| mo_connect_properties := properties |> in
  options ← match fc_will self with
            | Some will => will ← will_into_core will version; Ok (options <| mo_will := Some will |>)
            | None => Ok options
            end;
  match fc_engine_options self with
  | Some tuning => engine_options_apply tuning options
  | None => Ok options
  end.

(** ** Runtime options *)

(** [instant_at] of [runtime.rs]. *)
Definition instant_at (origin : T) (ms : Z) : result MqttErrorFFI T :=
  match tp_checked_add origin (Duration_from_millis ms) with
  | Some at_ => Ok at_
  | None => invalid_ffi "Time is outside the supported clock range"
  end.

(** [s.trim().is_empty()]: every character is white space of Unicode. *)
Fixpoint blank (s : bytes) : bool :=
  match s with
  | [] => true
  | 194 :: c :: s => ((c =? 133) || (c =? 160)) && blank s
  | 225 :: 154 :: 128 :: s => blank s
  | 226 :: 128 :: c :: s =>
      (((128 <=? c) && (c <=? 138)) || (c =? 168) || (c =? 169) || (c =? 175)) && blank s
  | 226 :: 129 :: 159 :: s => blank s
  | 227 :: 128 :: 128 :: s => blank s
  | c :: s => (((9 <=? c) && (c <=? 13)) || (c =? 32)) && blank s
  end.

(** The closures [duration], at a reading of the clock, and [size]. *)
Definition duration_ffi (reading : T) (ms : option Z) : result MqttErrorFFI (option Z) :=
  match ms with
  | Some ms => _ ← instant_at reading ms; Ok (Some (Duration_from_millis ms))
  | None => Ok None
  end.
Definition isize_MAX : Z := 9223372036854775807.
Definition size_ffi (value : option Z) : result MqttErrorFFI (option Z) :=
  match value with
  | Some n =>
      if (0 <? n) && (n <=? isize_MAX) then Ok (Some n)
      else invalid_ffi "Byte limit is outside the supported size range"
  | None => Ok None
  end.

(** [MqttRuntimeOptionsFFI::apply]; [readings] is the number of readings of the clock before:
    the closure [duration] reads it for each timeout that is set. *)
Definition timeouts_ffi (clock : nat → T) (timeouts : MqttOperationTimeoutsFFI) (readings : nat)
    : result MqttErrorFFI (OperationTimeouts * nat) :=
  let next (ms : option Z) (n : nat) := match ms with Some _ => S n | None => n end in
  connect ← duration_ffi (clock readings) (ft_connect_ms timeouts);
  let readings := next (ft_connect_ms timeouts) readings in
  publish ← duration_ffi (clock readings) (ft_publish_ms timeouts);
  let readings := next (ft_publish_ms timeouts) readings in
  subscribe ← duration_ffi (clock readings) (ft_subscribe_ms timeouts);
  let readings := next (ft_subscribe_ms timeouts) readings in
  unsubscribe ← duration_ffi (clock readings) (ft_unsubscribe_ms timeouts);
  let readings := next (ft_unsubscribe_ms timeouts) readings in
  Ok ({| ot_connect := connect; ot_publish := publish; ot_subscribe := subscribe;
         ot_unsubscribe := unsubscribe |}, readings).

Definition runtime_options_apply (clock : nat → T) (self : MqttRuntimeOptionsFFI)
    (options : MqttClientOptions) (readings : nat) : result MqttErrorFFI (MqttClientOptions * nat) :=
  options ← match fr_peer self with
            | Some peer =>
                _ ← check (negb (blank peer || contains_char peer 0))
                      "peer must be nonempty and contain no NUL";
                Ok (options <| mo_peer := peer |>)
            | None => Ok options
            end;
  '(options, readings) ←
    match fr_operation_timeouts self with
    | Some timeouts =>
        '(timeouts, readings) ← timeouts_ffi clock timeouts readings;
        Ok (options <| mo_operation_timeouts := timeouts |>, readings)
    | None => Ok (options, readings)
    end;
  options ← match fr_incoming_receive_maximum self with
            | Some value =>
                _ ← check (negb (value =? 0)) "incoming_receive_maximum must be positive";
                Ok (options <| mo_incoming_receive_maximum := Some value |>)
            | None => Ok options
            end;
  packet_size ← size_ffi (fr_max_incoming_packet_size self);
  incoming_bytes ← size_ffi (fr_max_incoming_buffer_bytes self);
  outgoing_bytes ← size_ffi (fr_max_outgoing_buffer_bytes self);
  let options := options <| mo_max_incoming_packet_size := packet_size |>
                         <| mo_max_incoming_buffer_bytes := incoming_bytes |>
                         <| mo_max_outgoing_buffer_bytes := outgoing_bytes |> in
  Ok (from_option (λ enabled, options <| mo_reconnect := enabled |>) options (fr_reconnect self),
      readings).
End conversions.
