(* ===== verification/FfiFacts.v ===== *)
(** * The checks of the foreign-function interface agree with the core's

    What the bindings accept is what the core's validation accepts: property by property, for
    whole commands and for the options of a connection.  So a command the bindings let through
    makes packets that the encoders take. *)
From S2P Require Import Prelude BaseData TopicFilter Validation Properties Packets Framing.
From S2P Require Import Time PriorityQueue ClientError Options ClientTypes Commands Inflight.
From S2P Require Import ClientSession EngineState EngineCore EngineProtocol Engine EngineHandlers.
From S2P Require Import FfiTypes.

(** ** Properties *)
Lemma property_ffi_roundtrip p : Property_from_ffi (MqttPropertyFFI_from p) = p.
Proof. by destruct p. Qed.
Lemma property_ffi_roundtrip' p : MqttPropertyFFI_from (Property_from_ffi p) = p.
Proof. by destruct p. Qed.
#[export] Instance Property_from_ffi_inj : Inj (=) (=) Property_from_ffi.
Proof. intros p q E. by rewrite <- (property_ffi_roundtrip' p), E, property_ffi_roundtrip'. Qed.

Definition wf_property_ffi (p : MqttPropertyFFI) : Prop := wf_property (Property_from_ffi p).

Lemma check_Ok valid message : check valid message = Ok () ↔ valid = true.
Proof. by destruct valid. Qed.
Lemma check_bind {A} valid message (k : () → result MqttErrorFFI A) a :
  (x ← check valid message; k x) = Ok a ↔ valid = true ∧ k () = Ok a.
Proof. destruct valid; simpl; naive_solver. Qed.
Lemma check_no_panic valid message : check valid message ≠ Panic.
Proof. by destruct valid. Qed.

Lemma text_spec v : text v = Ok () ↔ validation_string v = Ok ().
Proof.
  unfold text, validation_string, validate_mqtt_utf8_string. rewrite check_Ok.
  destruct (u16_MAX <? zlen v), (contains_char v 0); simpl; naive_solver.
Qed.
Lemma unit_result (r : result MqttErrorFFI ()) (Q : Prop) : (r = Ok () → Q) → (∃ u, r = Ok u) → Q.
Proof. intros HQ [[] Hr]. by apply HQ. Qed.
Lemma text_bind {A} v (k : () → result MqttErrorFFI A) a :
  (x ← text v; k x) = Ok a ↔ validation_string v = Ok () ∧ k () = Ok a.
Proof. rewrite <- text_spec. destruct (text v) as [[]| |]; simpl; naive_solver. Qed.
Lemma string_bind {A} v (k : () → res A) a :
  (x ← validation_string v; k x) = Ok a ↔ validation_string v = Ok () ∧ k () = Ok a.
Proof. destruct (validation_string v) as [[]| |]; simpl; naive_solver. Qed.
Lemma require_bind {A} valid message (k : () → res A) a :
  (x ← validation_require valid message; k x) = Ok a ↔ valid = true ∧ k () = Ok a.
Proof. destruct valid; simpl; naive_solver. Qed.

Lemma topic_nonempty v : topic v false = Ok () ↔ validation_topic v = Ok ().
Proof.
  unfold topic, validation_topic. rewrite text_bind, string_bind, require_bind, check_Ok.
  rewrite validation_require_Ok. destruct (bool_decide (v = [])), (contains_char v PLUS), (contains_char v HASH); simpl; naive_solver.
Qed.
Lemma topic_allowed v b :
  topic v b = Ok () ↔ (if bool_decide (v = []) then b = true else validation_topic v = Ok ()).
Proof.
  destruct (bool_decide (v = [])) eqn:Hv.
  - apply bool_decide_eq_true in Hv as ->. destruct b; vm_compute; naive_solver.
  - unfold topic, validation_topic. rewrite text_bind, string_bind, require_bind, check_Ok, validation_require_Ok, Hv.
    destruct b, (contains_char v PLUS), (contains_char v HASH); simpl; naive_solver.
Qed.

Definition assigned_identifier (p : MqttPropertyFFI) : bool :=
  match p with FAssignedClientIdentifier _ => true | _ => false end.

Lemma binary_spec n (message : string) :
  check (negb (65535 <? n)) message = Ok () ↔ (if u16_MAX <? n then Err StringTooLong else Ok ()) = Ok ().
Proof. unfold u16_MAX. destruct (65535 <? n); simpl; naive_solver. Qed.

Lemma validate_value_spec p :
  wf_property_ffi p → assigned_identifier p = false →
  validate_value p = Ok () ↔ validation_property_value (Property_from_ffi p) = Ok ().
Proof.
  unfold wf_property_ffi. intros Hw Ha. destruct p; simpl in *; try done;
    rewrite ?check_Ok, ?validation_require_Ok, ?text_spec, ?topic_nonempty, ?binary_spec;
    unfold is_u8, is_u16, is_u32 in *; rewrite ?text_bind, ?string_bind, ?text_spec; try done;
    repeat match goal with
    | |- context [?a <? ?b] => destruct (Z.ltb_spec a b)
    | |- context [?a <=? ?b] => destruct (Z.leb_spec a b)
    | |- context [?a =? ?b] => destruct (Z.eqb_spec a b)
    end; simpl; unfold u16_MAX in *; done || lia.
Qed.

(** ** [validate] *)

(** The properties the bindings let a client put into each kind of packet. *)
Definition ffi_allowed (context : PropertyContext) : MqttPropertyFFI → bool :=
  match context with
  | CtxConnect => connect_allowed
  | CtxPublish => publish_allowed
  | CtxWill => will_allowed
  | CtxSubscribe => subscribe_allowed
  | CtxUnsubscribe => is_user_ffi
  | CtxDisconnect => disconnect_allowed
  | CtxAuth => auth_allowed
  | CtxAck => ack_allowed
  | CtxConnAck => λ _, false
  end.

Lemma ffi_allowed_core context p :
  ffi_allowed context p = true →
  property_allowed context (Property_from_ffi p) = true ∧ assigned_identifier p = false ∧
  property_repeatable context (property_id_of (Property_from_ffi p)) = is_user_ffi p.
Proof. by destruct context, p. Qed.

Definition singletons (ps : list MqttPropertyFFI) : list nat :=
  discriminant <$> filter (λ p, is_user_ffi p = false) ps.

Lemma discriminant_id p q :
  discriminant p = discriminant q ↔ property_id_of (Property_from_ffi p) = property_id_of (Property_from_ffi q).
Proof. destruct p, q; simpl; split; (done || lia). Qed.

Section validate.
Context `{!FfiText}.

Lemma validate_loop_spec allowed ps : ∀ seen,
  validate_loop allowed ps seen = Ok () ↔
  Forall (λ p, allowed p = true ∧ validate_value p = Ok ()) ps ∧ NoDup (singletons ps) ∧
  (∀ d, d ∈ singletons ps → d ∉ seen).
Proof.
  induction ps as [|p ps IH]; intros seen; cbn [validate_loop].
  { split; [intros _|done]. split; [done|]. split; [constructor|]. intros d []%not_elem_of_nil. }
  rewrite check_bind, Forall_cons. unfold singletons in *. rewrite filter_cons.
  assert (Hv : ∀ s, (_ ← validate_value p; validate_loop allowed ps s) = Ok () ↔
    validate_value p = Ok () ∧ validate_loop allowed ps s = Ok ()).
  { intros s. destruct (validate_value p) as [[]| |]; simpl; naive_solver. }
  destruct (is_user_ffi p) eqn:Hu.
  - rewrite decide_False by done. simpl. rewrite Hv, IH. naive_solver.
  - rewrite decide_True by done. rewrite fmap_cons, NoDup_cons. case_bool_decide as Hs; simpl.
    + split; [naive_solver|]. intros (_ & _ & Hd). exfalso. by apply (Hd (discriminant p)); [left|].
    + rewrite Hv, IH. split.
      * intros (Ha & Hval & Hps & Hnd & Hd). split_and!; try done.
        -- intros Hin. apply (Hd _ Hin). set_solver.
        -- intros d [->|Hin]%elem_of_cons; [done|]. specialize (Hd _ Hin). set_solver.
      * intros (((Ha & Hval) & Hps) & (Hni & Hnd) & Hd). split_and!; try done.
        intros d Hin [->%elem_of_singleton|Hse]%elem_of_union; [done|]. by apply (Hd d); [right|].
Qed.

Lemma validate_value_no_panic p : validate_value p ≠ Panic.
Proof.
  destruct p; simpl; unfold topic, text; try apply check_no_panic; try done;
    (apply bind_no_panic; [apply check_no_panic|intros _; apply check_no_panic]).
Qed.
Lemma validate_no_panic ps version allowed : validate ps version allowed ≠ Panic.
Proof.
  apply bind_no_panic; [apply check_no_panic|]. intros _. apply bind_no_panic; [|done].
  generalize (∅ : gset nat). induction ps as [|p ps IH]; intros seen; cbn [validate_loop]; [done|].
  apply bind_no_panic; [apply check_no_panic|]. intros _.
  apply bind_no_panic; [by repeat case_match|]. intros s.
  apply bind_no_panic; [apply validate_value_no_panic|]. intros _. apply IH.
Qed.

Lemma validate_spec ps version allowed l :
  validate ps version allowed = Ok l ↔
  l = Property_from_ffi <$> ps ∧ (version = 5 ∨ ps = []) ∧
  Forall (λ p, allowed p = true ∧ validate_value p = Ok ()) ps ∧ NoDup (singletons ps).
Proof.
  unfold validate. rewrite check_bind.
  assert (Hl : (_ ← validate_loop allowed ps ∅; Ok (Property_from_ffi <$> ps)) = Ok l ↔
    validate_loop allowed ps ∅ = Ok () ∧ l = Property_from_ffi <$> ps).
  { destruct (validate_loop allowed ps ∅) as [[]| |]; simpl; naive_solver. }
  rewrite Hl, validate_loop_spec.
  assert (Hd : (∀ d, d ∈ singletons ps → d ∉ (∅ : gset nat)) ↔ True) by set_solver.
  rewrite Hd. destruct (Z.eqb_spec version 5), (bool_decide_reflect (ps = [])); simpl; naive_solver.
Qed.

Lemma singletons_core context ps :
  Forall (λ p, ffi_allowed context p = true) ps →
  NoDup (singletons ps) ↔ NoDup (singleton_ids context (Property_from_ffi <$> ps)).
Proof.
  unfold singletons, singleton_ids. induction 1 as [|p ps Hp Hps IH]; [split; intros _; constructor|].
  destruct (ffi_allowed_core _ _ Hp) as (_ & _ & Hr). rewrite !fmap_cons, !filter_cons, Hr.
  destruct (is_user_ffi p) eqn:Hu; [by rewrite !decide_False|]. rewrite !decide_True, fmap_cons, !NoDup_cons, IH by done.
  f_equiv. f_equiv. rewrite !list_elem_of_fmap, list_elem_of_filter, list_elem_of_fmap. split.
  - intros (q & Hq & Hin%list_elem_of_filter). destruct Hin as [Hqu Hin].
    rewrite Forall_forall in Hps. destruct (ffi_allowed_core _ _ (Hps q Hin)) as (_ & _ & Hqr).
    apply discriminant_id in Hq. split; [by rewrite Hq, Hqr|]. exists (Property_from_ffi q). split; [done|].
    apply list_elem_of_fmap. eauto.
  - intros (Hrep & q' & Hq & Hin). apply list_elem_of_fmap in Hin as (q & -> & Hin).
    exists q. split; [by apply discriminant_id|]. apply list_elem_of_filter. split; [|done].
    rewrite Forall_forall in Hps. destruct (ffi_allowed_core _ _ (Hps q Hin)) as (_ & _ & Hqr).
    by rewrite <- Hqr, <- Hq.
Qed.

(** [validate] decides the core's rule, on the properties the bindings know for the packet. *)
Lemma validate_core context ps version l :
  Forall wf_property_ffi ps →
  validate ps version (ffi_allowed context) = Ok l ↔
  l = Property_from_ffi <$> ps ∧ (version = 5 ∨ ps = []) ∧
  Forall (λ p, ffi_allowed context p = true) ps ∧
  Forall (λ p, property_allowed context p = true ∧ validation_property_value p = Ok ()) l ∧
  NoDup (singleton_ids context l).
Proof.
  intros Hw. rewrite validate_spec. split.
  - intros (-> & Hv & Hps & Hnd). split; [done|]. split; [done|].
    assert (Hall : Forall (λ p, ffi_allowed context p = true) ps) by (eapply Forall_impl; [exact Hps|]; naive_solver).
    split; [done|]. split; [|by apply singletons_core]. apply Forall_fmap, Forall_forall. intros p Hin.
    rewrite Forall_forall in Hw, Hps. destruct (Hps p Hin) as [Ha Hval].
    destruct (ffi_allowed_core _ _ Ha) as (Hc & Hni & _). split; [done|]. apply validate_value_spec; [by apply Hw|done..].
  - intros (-> & Hv & Hall & Hps & Hnd). split; [done|]. split; [done|]. split; [|by eapply singletons_core].
    apply Forall_forall. intros p Hin. rewrite Forall_fmap in Hps. rewrite Forall_forall in Hw, Hall, Hps.
    destruct (ffi_allowed_core _ _ (Hall p Hin)) as (_ & Hni & _). split; [by apply Hall|].
    apply validate_value_spec; [by apply Hw|done|]. by apply (Hps p Hin).
Qed.

Lemma validate_valid context ps version l :
  Forall wf_property_ffi ps → context ≠ CtxConnect →
  validate ps version (ffi_allowed context) = Ok l →
  validation_properties l context = Ok () ∧ Forall wf_property l ∧ (version = 5 ∨ l = []).
Proof.
  intros Hw Hc Hv. apply (validate_core context) in Hv as (-> & Hver & _ & Hps & Hnd); [|done].
  split; [by apply validation_properties_spec|]. split; [by apply Forall_fmap|].
  destruct Hver as [?| ->]; [by left|by right].
Qed.
End validate.

(** ** Commands *)
Section commands.
Context {T : Type} `{TimePoint T, !Runtime T, !FfiText, !ErrorText}.
Implicit Types (e : MqttEngine T).

Lemma invalid_parse_bind {A B} (r : res A) (k : A → result MqttErrorFFI B) b :
  (x ← invalid_parse r; k x) = Ok b ↔ ∃ a, r = Ok a ∧ k a = Ok b.
Proof. destruct r as [a|e|]; simpl; naive_solver. Qed.

Lemma topic_filter_ffi_Ok value :
  topic_filter_ffi value = Ok () →
  validate_topic_filter value = Ok () ∧ validate_shared_subscription value = Ok ().
Proof.
  unfold topic_filter_ffi. rewrite text_bind. intros (_ & Hr).
  apply invalid_parse_bind in Hr as ([] & Hf & Hr). apply invalid_parse_bind in Hr as ([] & Hs & _). done.
Qed.
Lemma topic_filter_ffi_no_panic value : topic_filter_ffi value ≠ Panic.
Proof.
  unfold topic_filter_ffi. apply bind_no_panic; [apply check_no_panic|]. intros _.
  apply bind_no_panic.
  { pose proof (validate_topic_filter_no_panic value). by destruct (validate_topic_filter value). }
  intros _. apply bind_no_panic.
  { pose proof (safe_no_panic _ _ (safe_validate_shared_subscription value)).
    by destruct (validate_shared_subscription value). }
  intros _. case_match; [apply check_no_panic|done].
Qed.

Definition wf_subscription_ffi (s : MqttSubscriptionFFI) : Prop :=
  wf_str (fs_topic_filter s) ∧ is_u8 (fs_qos s) ∧ is_u8 (fs_retain_handling s).
Definition wf_publish_ffi (o : MqttPublishOptionsFFI) : Prop :=
  is_u8 (fp_qos o) ∧ wf_opt is_u8 (fp_priority o) ∧ Forall wf_property_ffi (fp_properties o).
Definition wf_subscribe_ffi (o : MqttSubscribeOptionsFFI) : Prop :=
  Forall wf_subscription_ffi (fso_subscriptions o) ∧ Forall wf_property_ffi (fso_properties o).
Definition wf_unsubscribe_ffi (o : MqttUnsubscribeOptionsFFI) : Prop :=
  Forall wf_str (fuo_topics o) ∧ Forall wf_property_ffi (fuo_properties o).

Lemma has_alias_core l :
  existsb (λ p, match p with TopicAlias _ => true | _ => false end) l = existsb is_TopicAlias l.
Proof. induction l as [|p l IH]; [done|]. simpl. by rewrite IH. Qed.

Lemma publish_command_ffi_Ok o topic_name payload version prio c :
  wf_publish_ffi o → wf_str topic_name → u8s payload →
  publish_command_ffi o topic_name payload version prio = Ok c →
  publish_command_ok c ∧ pc_packet_id c = None ∧ pc_dup c = false ∧ pc_qos c = fp_qos o ∧ 0 <= pc_qos c <= 2 ∧
  pc_topic_name c = topic_name ∧ pc_payload c = payload ∧
  validation_properties (pc_properties c) CtxPublish = Ok () ∧
  (version = 5 ∨ pc_properties c = []) ∧
  (if bool_decide (topic_name = []) then existsb is_TopicAlias (pc_properties c) = true
   else validation_topic topic_name = Ok ()).
Proof.
  unfold publish_command_ffi. intros (Hq & _ & Hps) Ht Hp. rewrite check_bind. intros [Hqos Hr].
  apply bind_Ok_inv in Hr as ([] & _ & Hr). apply bind_Ok_inv in Hr as (l & Hl & Hr).
  apply bind_Ok_inv in Hr as ([] & Htop & Hr). injection Hr as <-.
  apply (validate_valid CtxPublish) in Hl as (Hval & Hwl & Hver); [|done..].
  rewrite has_alias_core in Htop. apply topic_allowed in Htop.
  apply negb_true_iff, Z.ltb_ge in Hqos. split; [by repeat split; try apply Ht; try apply Hq|].
  unfold is_u8 in Hq. simpl. split_and!; done || lia.
Qed.

Lemma publish_valid e c id :
  wf_opt is_u16 (Some id) → 0 < id → mo_mqtt_version (me_options e) = 5 ∨ pc_properties c = [] →
  publish_command_ok c → pc_dup c = false → 0 <= pc_qos c <= 2 →
  validation_properties (pc_properties c) CtxPublish = Ok () →
  (if bool_decide (pc_topic_name c = []) then existsb is_TopicAlias (pc_properties c) = true
   else validation_topic (pc_topic_name c) = Ok ()) →
  MqttPacket_validate (publish_packet e
    (if 0 <? pc_qos c then c <| pc_packet_id := Some id |> else c)) = Ok ().
Proof.
  intros Hw Hid Hver Hok Hdup Hq Hps Ht.
  set (c' := if 0 <? pc_qos c then c <| pc_packet_id := Some id |> else c).
  assert (Hpub : validation_publish (pc_qos c) (pc_dup c) (pc_packet_id c') = Ok ()).
  { unfold validation_publish, validation_packet_id, c'. rewrite Hdup, orb_true_r.
    destruct (Z.leb_spec (pc_qos c) 2); [|lia]. simpl.
    destruct (0 <? pc_qos c) eqn:E; simpl; [|done]. by destruct (Z.eqb_spec id 0); [lia|]. }
  assert (Hc : pc_qos c' = pc_qos c ∧ pc_dup c' = pc_dup c ∧ pc_topic_name c' = pc_topic_name c ∧
    pc_properties c' = pc_properties c) by (unfold c'; by destruct (0 <? pc_qos c)).
  destruct Hc as (Eq & Ed & Et & Ep). unfold publish_packet. destruct (Z.eqb_spec (mo_mqtt_version (me_options e)) 5); simpl.
  - unfold MqttPublish5_validate. simpl. rewrite Eq, Ed, Et, Ep, Hpub, Hps. simpl.
    case_bool_decide; [by rewrite Ht|done].
  - destruct Hver as [?|Hnil]; [done|]. unfold MqttPublish3_validate. simpl. rewrite Eq, Ed, Et, Hpub. simpl.
    rewrite Hnil in Ht. by destruct (bool_decide _).
Qed.

Lemma subscriptions_ffi_Ok version subs l :
  Forall wf_subscription_ffi subs → subscriptions_ffi version subs = Ok l →
  length l = length subs ∧ Forall wf_subscription l ∧ Forall (λ s, validation_subscription s = Ok ()) l.
Proof.
  intros Hw. revert l. induction Hw as [|s subs Hs _ IH]; cbn [subscriptions_ffi]; intros l Hl.
  { injection Hl as <-. by split_and!. }
  apply bind_Ok_inv in Hl as (x & Hx & Hl). apply bind_Ok_inv in Hl as (rest & Hrest & Hl).
  injection Hl as <-. destruct (IH _ Hrest) as (Hlen & Hwl & Hval). unfold subscription_ffi in Hx.
  apply bind_Ok_inv in Hx as ([] & Hf & Hx). rewrite !check_bind in Hx. destruct Hx as (Hq & _ & Hnl & Hx).
  injection Hx as <-. apply topic_filter_ffi_Ok in Hf as [Hf Hsh].
  split; [simpl; by rewrite Hlen|]. split; [by constructor|]. constructor; [|done].
  unfold validation_subscription. simpl. rewrite Hf, Hsh. simpl. rewrite !require_bind, validation_require_Ok.
  change (str "$share/") with SHARE.
  destruct (Z.leb_spec (fs_qos s) 2), (Z.leb_spec (fs_retain_handling s) 2), (Z.ltb_spec 2 (fs_qos s)),
    (Z.ltb_spec 2 (fs_retain_handling s)); try lia; try done.
  by destruct (fs_no_local s), (starts_with _ SHARE).
Qed.
Lemma subscriptions_ffi_no_panic version subs : subscriptions_ffi version subs ≠ Panic.
Proof.
  induction subs as [|s subs IH]; cbn [subscriptions_ffi]; [done|].
  apply bind_no_panic; [|intros x; by apply bind_no_panic].
  unfold subscription_ffi. apply bind_no_panic; [apply topic_filter_ffi_no_panic|]. intros _.
  do 3 (apply bind_no_panic; [apply check_no_panic|]; intros _). done.
Qed.

Lemma for_each_all {A} (f : A → res ()) l : Forall (λ a, f a = Ok ()) l → for_each f l = Ok ().
Proof. induction 1 as [|a l Ha _ IH]; simpl; [done|]. by rewrite Ha. Qed.

Lemma subscribe_command_ffi_Ok o version c :
  wf_subscribe_ffi o → subscribe_command_ffi o version = Ok c →
  sc_packet_id c = None ∧ sc_subscriptions c ≠ [] ∧ Forall wf_subscription (sc_subscriptions c) ∧
  Forall wf_property (sc_properties c) ∧
  Forall (λ s, validation_subscription s = Ok ()) (sc_subscriptions c) ∧
  validation_properties (sc_properties c) CtxSubscribe = Ok ().
Proof.
  unfold subscribe_command_ffi. intros [Hs Hp]. rewrite check_bind. intros [Hne Hr].
  apply bind_Ok_inv in Hr as (l & Hl & Hr). apply bind_Ok_inv in Hr as (subs & Hsubs & Hr).
  injection Hr as <-. apply (validate_valid CtxSubscribe) in Hl as (Hval & Hwl & _); [|done..].
  apply subscriptions_ffi_Ok in Hsubs as (Hlen & Hws & Hvs); [|done]. split_and!; try done. simpl.
  intros ->. apply negb_true_iff, bool_decide_eq_false in Hne. by destruct (fso_subscriptions o).
Qed.

Lemma subscribe_valid e c id :
  0 < id → sc_subscriptions c ≠ [] →
  Forall (λ s, validation_subscription s = Ok ()) (sc_subscriptions c) →
  validation_properties (sc_properties c) CtxSubscribe = Ok () →
  MqttPacket_validate (subscribe_packet e id c) = Ok ().
Proof.
  intros Hid Hne Hs Hp. unfold subscribe_packet.
  assert (Hi : validation_packet_id id = Ok ()) by (unfold validation_packet_id; by destruct (Z.eqb_spec id 0); [lia|]).
  destruct (_ =? 5); simpl.
  - unfold MqttSubscribe5_validate. simpl. rewrite Hi, Hp, bool_decide_eq_false_2 by done. simpl.
    by apply for_each_all.
  - unfold MqttSubscribe3_validate. simpl. rewrite Hi. simpl.
    rewrite bool_decide_eq_false_2 by (by destruct (sc_subscriptions c)). simpl. apply for_each_all, Forall_fmap.
    eapply Forall_impl; [exact Hs|]. intros s Hv. simpl. unfold validation_subscription in Hv.
    apply bind_Ok_inv in Hv as ([] & -> & Hv). apply bind_Ok_inv in Hv as ([] & _ & Hv).
    rewrite require_bind in Hv. destruct Hv as [Hq _]. simpl. by rewrite Hq.
Qed.

Lemma topic_filters_ffi_Ok l :
  topic_filters_ffi l = Ok () →
  Forall (λ f, validate_topic_filter f = Ok () ∧ validate_shared_subscription f = Ok ()) l.
Proof.
  induction l as [|f l IH]; cbn [topic_filters_ffi]; [done|]. intros Hr.
  apply bind_Ok_inv in Hr as ([] & Hf & Hr). constructor; [by apply topic_filter_ffi_Ok|by apply IH].
Qed.
Lemma topic_filters_ffi_no_panic l : topic_filters_ffi l ≠ Panic.
Proof.
  induction l as [|f l IH]; cbn [topic_filters_ffi]; [done|].
  by apply bind_no_panic; [apply topic_filter_ffi_no_panic|].
Qed.

Lemma unsubscribe_command_ffi_Ok o version c :
  wf_unsubscribe_ffi o → unsubscribe_command_ffi o version = Ok c →
  uc_packet_id c = None ∧ uc_topics c ≠ [] ∧ Forall wf_str (uc_topics c) ∧
  Forall wf_property (uc_properties c) ∧
  Forall (λ f, validate_topic_filter f = Ok () ∧ validate_shared_subscription f = Ok ()) (uc_topics c) ∧
  validation_properties (uc_properties c) CtxUnsubscribe = Ok ().
Proof.
  unfold unsubscribe_command_ffi. intros [Hs Hp]. rewrite check_bind. intros [Hne Hr].
  apply bind_Ok_inv in Hr as ([] & Hf & Hr). apply bind_Ok_inv in Hr as (l & Hl & Hr). injection Hr as <-.
  apply (validate_valid CtxUnsubscribe) in Hl as (Hval & Hwl & _); [|done..].
  apply topic_filters_ffi_Ok in Hf. split_and!; try done. simpl.
  by apply negb_true_iff, bool_decide_eq_false in Hne.
Qed.

Lemma unsubscribe_valid e c id :
  0 < id → uc_topics c ≠ [] →
  Forall (λ f, validate_topic_filter f = Ok () ∧ validate_shared_subscription f = Ok ()) (uc_topics c) →
  validation_properties (uc_properties c) CtxUnsubscribe = Ok () →
  MqttPacket_validate (unsubscribe_packet e id c) = Ok ().
Proof.
  intros Hid Hne Hs Hp. unfold unsubscribe_packet.
  assert (Hi : validation_packet_id id = Ok ()) by (unfold validation_packet_id; by destruct (Z.eqb_spec id 0); [lia|]).
  destruct (_ =? 5); simpl.
  - unfold MqttUnsubscribe5_validate. simpl. rewrite Hi, Hp, bool_decide_eq_false_2 by done. simpl.
    apply for_each_all. eapply Forall_impl; [exact Hs|]. intros f [-> Hf]. exact Hf.
  - unfold MqttUnsubscribe3_validate. simpl. rewrite Hi, bool_decide_eq_false_2 by done. simpl.
    apply for_each_all. eapply Forall_impl; [exact Hs|]. by intros f [? _].
Qed.

Lemma publish_command_ffi_no_panic o topic_name payload version prio :
  publish_command_ffi o topic_name payload version prio ≠ Panic.
Proof.
  apply bind_no_panic; [apply check_no_panic|]. intros _. apply bind_no_panic; [by case_match|]. intros _.
  apply bind_no_panic; [apply validate_no_panic|]. intros l. apply bind_no_panic; [|done].
  unfold topic, text. apply bind_no_panic; [apply check_no_panic|intros _; apply check_no_panic].
Qed.
Lemma subscribe_command_ffi_no_panic o version : subscribe_command_ffi o version ≠ Panic.
Proof.
  apply bind_no_panic; [apply check_no_panic|]. intros _. apply bind_no_panic; [apply validate_no_panic|].
  intros l. by apply bind_no_panic; [apply subscriptions_ffi_no_panic|].
Qed.
Lemma unsubscribe_command_ffi_no_panic o version : unsubscribe_command_ffi o version ≠ Panic.
Proof.
  apply bind_no_panic; [apply check_no_panic|]. intros _. apply bind_no_panic; [apply topic_filters_ffi_no_panic|].
  intros _. by apply bind_no_panic; [apply validate_no_panic|].
Qed.
End commands.

(** ** Theorems *)

(** C25: property lists are accepted by the bindings exactly when the core accepts them.  For every
    packet but CONNECT, [validate] never panics, and it accepts a list exactly when the protocol
    is MQTT 5 or the list is empty, every property is one the bindings know for the packet, and
    the core's validation accepts the translated list, which is then the result: the two rules,
    written apart, cannot drift on a value, on a repetition or on the context of a property.  CONNECT
    is excluded because [validate] alone accepts Authentication Data without an Authentication
    Method, which the core refuses; there [into_core] adds that rule after [validate]. *)
Theorem ffi_properties_agree `{!FfiText} context ps version :
  Forall wf_property_ffi ps → context ≠ CtxConnect →
  validate ps version (ffi_allowed context) ≠ Panic ∧
  ∀ l, validate ps version (ffi_allowed context) = Ok l ↔
    l = Property_from_ffi <$> ps ∧ (version = 5 ∨ ps = []) ∧
    Forall (λ p, ffi_allowed context p = true) ps ∧ validation_properties l context = Ok ().
Proof.
  intros Hw Hc. split; [apply validate_no_panic|]. intros l.
  rewrite (validate_core context), validation_properties_spec by done. unfold properties_ok. naive_solver.
Qed.

#[export] Instance FfiText_sample : FfiText := {
  property_ffi_debug _ := EmptyString; client_error_debug _ := EmptyString;
}.

Lemma ffi_properties_agree_witness :
  validate [FMessageExpiryInterval 60; FUserProperty (str "k") (str "v"); FUserProperty (str "k") (str "v")]
    5 (ffi_allowed CtxPublish)
  = Ok [MessageExpiryInterval 60; UserProperty (str "k") (str "v"); UserProperty (str "k") (str "v")].
Proof.
  apply (ffi_properties_agree CtxPublish
    [FMessageExpiryInterval 60; FUserProperty (str "k") (str "v"); FUserProperty (str "k") (str "v")] 5).
  - repeat constructor; try done; u8s_lit.
  - done.
  - split_and!; [done|by left|by repeat constructor|by vm_compute].
Defined.

(** The commands of the bindings make valid packets.  Whatever a foreign caller passes, making
    the command never panics, and a command that is made is well typed and carries its values
    unchanged, so that the packet the engine builds of it, with any packet identifier it can
    assign, passes the validation every encoder starts with: for PUBLISH, SUBSCRIBE and
    UNSUBSCRIBE, and for each version of the protocol. *)
Theorem ffi_commands_valid {T : Type} `{TimePoint T, !Runtime T, !FfiText, !ErrorText}
    (e : MqttEngine T) (id : Z) :
  1 <= id <= 65535 →
  (∀ o topic_name payload prio, wf_publish_ffi o → wf_str topic_name → u8s payload →
     let r := publish_command_ffi o topic_name payload (mo_mqtt_version (me_options e)) prio in
     r ≠ Panic ∧
     ∀ c, r = Ok c →
       publish_command_ok c ∧ pc_topic_name c = topic_name ∧ pc_payload c = payload ∧
       pc_qos c = fp_qos o ∧
       MqttPacket_validate (publish_packet e
         (if 0 <? pc_qos c then c <| pc_packet_id := Some id |> else c)) = Ok ()) ∧
  (∀ o, wf_subscribe_ffi o →
     let r := subscribe_command_ffi o (mo_mqtt_version (me_options e)) in
     r ≠ Panic ∧
     ∀ c, r = Ok c →
       Forall wf_subscription (sc_subscriptions c) ∧ Forall wf_property (sc_properties c) ∧
       MqttPacket_validate (subscribe_packet e id c) = Ok ()) ∧
  (∀ o, wf_unsubscribe_ffi o →
     let r := unsubscribe_command_ffi o (mo_mqtt_version (me_options e)) in
     r ≠ Panic ∧
     ∀ c, r = Ok c →
       Forall wf_str (uc_topics c) ∧ Forall wf_property (uc_properties c) ∧
       MqttPacket_validate (unsubscribe_packet e id c) = Ok ()).
Proof.
  intros Hid. split_and!.
  - intros o topic_name payload prio Ho Ht Hp. split; [apply publish_command_ffi_no_panic|]. intros c Hc.
    apply publish_command_ffi_Ok in Hc as (Hok & _ & Hd & Hq & Hq2 & Etn & Ep & Hps & Hver & Htop); [|done..].
    split_and!; try done. apply publish_valid; try done; [by split; lia|lia|by rewrite Etn].
  - intros o Ho. split; [apply subscribe_command_ffi_no_panic|]. intros c Hc.
    apply subscribe_command_ffi_Ok in Hc as (_ & Hne & Hs & Hp & Hvs & Hvp); [|done].
    split_and!; try done. apply subscribe_valid; try done; lia.
  - intros o Ho. split; [apply unsubscribe_command_ffi_no_panic|]. intros c Hc.
    apply unsubscribe_command_ffi_Ok in Hc as (_ & Hne & Hs & Hp & Hvs & Hvp); [|done].
    split_and!; try done. apply unsubscribe_valid; try done; lia.
Qed.

#[export] Instance ErrorText_sample : ErrorText := {
  kind_debug _ := EmptyString; str_debug s := s; hex_encode _ := EmptyString;
}.
#[local] Existing Instance Runtime_ordered.
Definition sample_ffi_engine : MqttEngine Timestamp :=
  MqttEngine_new_at MqttClientOptions_default (Timestamp_from_nanos 0).
Definition sample_ffi_subscribe : MqttSubscribeOptionsFFI := {|
  fso_subscriptions := [{| fs_topic_filter := str "$share/g/a/+"; fs_qos := 1; fs_no_local := false;
                           fs_retain_as_published := true; fs_retain_handling := 2 |}];
  fso_properties := [FSubscriptionIdentifier 7] |}.

(** A shared subscription, made and validated. *)
Lemma ffi_commands_valid_witness :
  ∃ c, subscribe_command_ffi (T:=Timestamp) sample_ffi_subscribe 5 = Ok c ∧
    MqttPacket_validate (subscribe_packet sample_ffi_engine 9 c) = Ok ().
Proof.
  assert (Hw : wf_subscribe_ffi sample_ffi_subscribe).
  { unfold wf_subscribe_ffi, wf_subscription_ffi, wf_str, is_u8. simpl.
    repeat constructor; try done; try u8s_lit; simpl; lia. }
  destruct (ffi_commands_valid sample_ffi_engine 9 ltac:(lia)) as (_ & Hs & _).
  destruct (Hs _ Hw) as [_ Hc]. eexists. split; [reflexivity|]. apply Hc. reflexivity.
Defined.
