(* ===== verification/FfiOptions.v ===== *)
(** * The options of the foreign-function interface make a valid CONNECT

    [MqttConnectOptionsFFI::into_core] and [MqttRuntimeOptionsFFI::apply] check what a foreign
    caller passes; what they accept is well formed, and the engine configured with it can build
    its CONNECT packet, which is valid. *)
From S2P Require Import Prelude BaseData TopicFilter Validation Properties Packets Framing ConnectCodec.
From S2P Require Import Time PriorityQueue ClientError Options ClientTypes Commands Inflight.
From S2P Require Import ClientSession EngineState EngineCore EngineProtocol Engine.
From S2P Require Import FfiTypes FfiFacts.

(** ** The will *)
Lemma set_will_ffi_core w p :
  property_allowed CtxWill p = true → set_will_ffi (Ok w) p = Ok (set_will_property w p).
Proof. by destruct p, w. Qed.

Lemma set_will_ffi_fold ps : ∀ w,
  Forall (λ p, property_allowed CtxWill p = true) ps →
  fold_left set_will_ffi ps (Ok w) = Ok (fold_left set_will_property ps w).
Proof.
  induction ps as [|p ps IH]; intros w; cbn [fold_left]; [done|]. intros [Hp Hps]%Forall_cons.
  rewrite set_will_ffi_core by done. by apply IH.
Qed.

(** Proves a disjunction one of whose parts is reflexive. *)
Ltac among := first [reflexivity | left; among | right; among].

Lemma set_will_property_perm w p :
  property_allowed CtxWill p = true →
  (property_repeatable CtxWill (property_id_of p) = false →
   property_id_of p ∉ (property_id_of <$> will_properties w)) →
  will_properties (set_will_property w p) ≡ₚ will_properties w ++ [p].
Proof.
  intros Hp Hd. destruct w as [wdi pfi mei ct rt cd ups]. unfold will_properties in *.
  destruct p; try done; simpl in *; try specialize (Hd eq_refl);
    [destruct pfi|destruct mei|destruct ct|destruct rt|destruct cd|destruct wdi|];
    try (exfalso; apply Hd; rewrite ?fmap_app; simpl; rewrite ?elem_of_app, ?elem_of_cons; clear; among);
    clear Hd; simpl;
    repeat match goal with |- context [push_some ?c ?o] => is_var o; generalize (push_some c o); intros ? end;
    rewrite <- ?app_assoc; repeat apply Permutation_app_head; try done;
    rewrite ?app_assoc; apply Permutation_cons_append.
Qed.

Lemma singleton_ids_app context l l' :
  singleton_ids context (l ++ l') = singleton_ids context l ++ singleton_ids context l'.
Proof. unfold singleton_ids. by rewrite fmap_app, filter_app. Qed.
#[export] Instance singleton_ids_perm context : Proper ((≡ₚ) ==> (≡ₚ)) (singleton_ids context).
Proof. intros l l' Hl. unfold singleton_ids. by rewrite Hl. Qed.
Lemma properties_ok_perm context l l' : l ≡ₚ l' → properties_ok context l → properties_ok context l'.
Proof.
  intros Hl (Ha & Hnd & Hc). assert (Hid : property_id_of <$> l ≡ₚ property_id_of <$> l') by by rewrite Hl.
  split; [by rewrite <- (Forall_Permutation _ _ (λ _, reflexivity _) _ _ Hl)|]. split.
  - by rewrite <- (NoDup_Permutation_proper _ _ (singleton_ids_perm context _ _ Hl)).
  - intros E Hin. rewrite <- (elem_of_Permutation_proper _ _ _ Hid). apply Hc; [done|].
    by rewrite (elem_of_Permutation_proper _ _ _ Hid).
Qed.
Lemma elem_of_singleton_ids context l id :
  id ∈ singleton_ids context l ↔ property_repeatable context id = false ∧ id ∈ (property_id_of <$> l).
Proof. unfold singleton_ids. by rewrite list_elem_of_filter. Qed.

(** Setting the properties of a will one by one keeps exactly the validated list. *)
Lemma set_will_properties_perm ps : ∀ w,
  Forall (λ p, property_allowed CtxWill p = true) ps →
  NoDup (singleton_ids CtxWill (will_properties w ++ ps)) →
  will_properties (fold_left set_will_property ps w) ≡ₚ will_properties w ++ ps.
Proof.
  induction ps as [|p ps IH]; intros w Hps Hnd; simpl; [by rewrite app_nil_r|].
  apply Forall_cons in Hps as [Hp Hps].
  assert (Hset : will_properties (set_will_property w p) ≡ₚ will_properties w ++ [p]).
  { apply set_will_property_perm; [done|]. intros Hr Hin. rewrite singleton_ids_app, NoDup_app in Hnd.
    destruct Hnd as (_ & Hd & _). apply (Hd (property_id_of p)); apply elem_of_singleton_ids; [done|].
    split; [done|]. by left. }
  rewrite IH, Hset, <- app_assoc; [done|done|]. by rewrite Hset, <- app_assoc.
Qed.

Lemma set_will_ffi_wf w p :
  wf_property p → wf_will_properties w → wf_will_properties (set_will_property w p).
Proof.
  destruct w as [wdi pfi mei ct rt cd ups]. unfold wf_will_properties. intros Hp (H1 & H2 & H3 & H4 & H5 & H6 & H7).
  destruct p; simpl in *; split_and!; try done. apply Forall_app. by split; [|apply Forall_singleton].
Qed.
Lemma set_will_properties_wf ps : ∀ w,
  Forall wf_property ps → wf_will_properties w → wf_will_properties (fold_left set_will_property ps w).
Proof.
  induction ps as [|p ps IH]; intros w; simpl; [done|]. intros [Hp Hps]%Forall_cons Hw.
  apply IH; [done|by apply set_will_ffi_wf].
Qed.

Definition wf_will_ffi (w : MqttWillFFI) : Prop :=
  wf_str (fw_topic w) ∧ u8s (fw_payload w) ∧ is_u8 (fw_qos w) ∧ Forall wf_property_ffi (fw_properties w).

(** What the bindings accept as a will. *)
Definition will_ok (w : Will5) : Prop :=
  wf_will5 w ∧ w5_will_qos w <= 2 ∧ zlen (w5_will_message w) <= 65535 ∧
  validation_topic (w5_will_topic w) = Ok () ∧
  validation_properties (will_properties (w5_properties w)) CtxWill = Ok ().

Section options.
Context `{!FfiText}.

Lemma will_into_core_spec w version :
  wf_will_ffi w →
  will_into_core w version ≠ Panic ∧ ∀ will, will_into_core w version = Ok will → will_ok will.
Proof.
  intros (Ht & Hm & Hq & Hps). unfold will_into_core.
  pose proof (validate_no_panic (fw_properties w) version will_allowed) as Hnp.
  assert (Hv : ∀ l, validate (fw_properties w) version will_allowed = Ok l →
    validation_properties l CtxWill = Ok () ∧ Forall wf_property l).
  { intros l Hl. by apply (validate_valid CtxWill) in Hl as (? & ? & _). }
  assert (Htopic := topic_nonempty (fw_topic w)).
  assert (topic (fw_topic w) false ≠ Panic).
  { unfold topic, text. apply bind_no_panic; [apply check_no_panic|intros _; apply check_no_panic]. }
  destruct (topic (fw_topic w) false) as [[]| |]; simpl; [|by split|done].
  destruct (check _ _) as [[]| |] eqn:Hc; simpl; [|by split|by apply check_no_panic in Hc].
  apply check_Ok, negb_true_iff, orb_false_iff in Hc as [Hq2%Z.ltb_ge Hm2%Z.ltb_ge].
  destruct (validate (fw_properties w) version will_allowed) as [l| |]; simpl; [|by split|done].
  destruct (Hv l eq_refl) as [Hval Hwl]. apply validation_properties_spec in Hval.
  assert (Hall : Forall (λ p, property_allowed CtxWill p = true) l).
  { destruct Hval as (Ha & _). eapply Forall_impl; [exact Ha|]. naive_solver. }
  rewrite set_will_ffi_fold by done. simpl. split; [done|]. intros will [= <-].
  split; [|split; [done|split; [done|split; [by apply Htopic|]]]].
  - split; [done|]. split; [done|]. split; [done|]. simpl. apply set_will_properties_wf; [done|].
    by repeat split.
  - simpl. apply validation_properties_spec. eapply properties_ok_perm; [symmetry; apply set_will_properties_perm|];
      [done| |done]. by destruct Hval as (_ & Hnd & _).
Qed.

(** ** The connection *)
Definition wf_connection_ffi (o : MqttOptionsFFI) : Prop :=
  wf_str (fmo_client_id o) ∧ is_u8 (fmo_mqtt_version o) ∧ is_u16 (fmo_keep_alive o) ∧
  wf_opt wf_str (fmo_username o) ∧ wf_opt wf_str (fmo_password o) ∧
  is_u64 (fmo_reconnect_base_delay_ms o) ∧ is_u64 (fmo_reconnect_max_delay_ms o) ∧
  is_u32 (fmo_max_reconnect_attempts o).
Definition wf_engine_options_ffi (o : MqttEngineOptionsFFI) : Prop :=
  wf_opt is_u64 (feo_retransmission_timeout_ms o) ∧ wf_opt is_u32 (feo_ping_timeout_multiplier o) ∧
  wf_opt is_usize (feo_max_outgoing_packet_count o) ∧ wf_opt is_usize (feo_max_event_count o) ∧
  wf_opt is_usize (feo_parser_buffer_size o) ∧ wf_opt is_u16 (feo_max_inflight o) ∧
  Forall wf_subscription_ffi (feo_subscriptions o).
Definition wf_connect_ffi (o : MqttConnectOptionsFFI) : Prop :=
  wf_connection_ffi (fc_options o) ∧ Forall wf_property_ffi (fc_properties o) ∧
  wf_opt wf_will_ffi (fc_will o) ∧ wf_opt u8s (fc_binary_password o) ∧
  wf_opt wf_engine_options_ffi (fc_engine_options o).

(** The settings that [connect_properties] adds to the configured properties. *)
Definition option_settings (o : MqttClientOptions) : list Property :=
  (SessionExpiryInterval <$> option_list (mo_session_expiry_interval o))
  ++ (MaximumPacketSize <$> option_list (mo_maximum_packet_size o))
  ++ ((λ b, RequestResponseInformation (bool_as_u8 b))
        <$> option_list (mo_request_response_information o))
  ++ ((λ b, RequestProblemInformation (bool_as_u8 b))
        <$> option_list (mo_request_problem_information o)).

(** What the options accepted by the bindings satisfy. *)
Record accepted_options (o : MqttClientOptions) : Prop := {
  ao_wf : wf_options o;
  ao_client_id : validation_string (mo_client_id o) = Ok ();
  ao_username : wf_opt (λ u, validation_string u = Ok ()) (mo_username o);
  ao_password : wf_opt (λ p, zlen p <= 65535) (mo_password o);
  ao_will : wf_opt will_ok (mo_will o);
  ao_properties : validation_properties (mo_connect_properties o) CtxConnect = Ok ();
  ao_version : mo_mqtt_version o = 5 ∨ mo_connect_properties o = [];
  ao_settings : Forall (λ p, p ∈ mo_connect_properties o) (option_settings o);
  ao_subscriptions : Forall (λ s, validation_subscription s = Ok ()) (mo_subscription_topics o);
  ao_sessionless : mo_sessionless o = true →
    mo_clean_start o = true ∧ default 0 (mo_session_expiry_interval o) = 0;
}.

Lemma from_ffi_spec (o : MqttOptionsFFI) :
  wf_connection_ffi o →
  (fmo_mqtt_version o =? 3) || (fmo_mqtt_version o =? 4) || (fmo_mqtt_version o =? 5) = true →
  ∃ o', MqttClientOptions_from_ffi o = Ok o' ∧ wf_options o' ∧
    mo_client_id o' = fmo_client_id o ∧ mo_username o' = fmo_username o ∧
    mo_mqtt_version o' = fmo_mqtt_version o ∧ mo_clean_start o' = fmo_clean_start o ∧
    mo_will o' = None ∧ mo_connect_properties o' = [] ∧ option_settings o' = [] ∧
    mo_subscription_topics o' = [] ∧ mo_sessionless o' = false ∧ mo_incoming_receive_maximum o' = None.
Proof.
  intros (H1 & H2 & H3 & H4 & H5 & H6 & H7 & H8) Hv. unfold MqttClientOptions_from_ffi.
  set (setters := _ ++ _ ++ _).
  assert (Ht : Forall typed_setter setters).
  { unfold setters. destruct (fmo_username o), (fmo_password o); simpl in *;
      repeat (apply Forall_cons_2; [done || apply H5|]); apply Forall_nil_2. }
  assert (Ha : forallb accepted_setter setters = true).
  { unfold setters. rewrite !forallb_app. simpl. rewrite Hv. by destruct (fmo_username o), (fmo_password o). }
  pose proof (build_options_wf setters _ default_options_wf Ht) as Hb. rewrite Ha in Hb.
  destruct Hb as (o' & Hb & Hwf). exists o'. split; [done|]. split; [done|]. clear Ht Ha. subst setters.
  destruct o as [id v cs ka [user|] [pass|] bd md at_]; simpl in *;
    (replace (negb (v =? 3) && negb (v =? 4) && negb (v =? 5)) with false in Hb
       by (by destruct (v =? 3), (v =? 4), (v =? 5)));
    simpl in Hb; injection Hb as <-; by split_and!.
Qed.

Lemma deduplicate_connect_no_panic ps : deduplicate_connect ps ≠ Panic.
Proof.
  unfold deduplicate_connect. generalize (@nil MqttPropertyFFI).
  induction ps as [|p ps IH]; intros acc; cbn [deduplicate_connect_loop]; [done|]. repeat case_match; done || apply IH.
Qed.
Lemma deduplicate_connect_wf ps l :
  Forall wf_property_ffi ps → deduplicate_connect ps = Ok l → Forall wf_property_ffi l.
Proof.
  unfold deduplicate_connect. intros Hps. assert (Hn : Forall wf_property_ffi []) by constructor. revert Hn l.
  generalize (@nil MqttPropertyFFI). induction Hps as [|p ps Hp _ IH]; intros acc Hacc l; cbn [deduplicate_connect_loop].
  { by intros [= <-]. }
  repeat case_match; try done; apply IH; try done; apply Forall_app; by split; [|apply Forall_singleton].
Qed.

(** ** The CONNECT properties *)
(** The options that the loop over the properties leaves alone. *)
Definition unrelated (o : MqttClientOptions) :=
  (mo_client_id o, mo_username o, mo_password o, mo_mqtt_version o, mo_clean_start o, mo_will o,
   mo_connect_properties o, mo_subscription_topics o, mo_sessionless o, mo_incoming_receive_maximum o).

Lemma set_connect_property_spec o p :
  property_allowed CtxConnect p = true → validation_property_value p = Ok () → wf_property p →
  wf_options o →
  wf_options (set_connect_property o p) ∧ unrelated (set_connect_property o p) = unrelated o ∧
  ∀ q, q ∈ option_settings (set_connect_property o p) → q ∈ option_settings o ++ [p].
Proof.
  intros Hp Hv Hw Ho.
  assert (Hb : ∀ v, v <=? 1 = true → 0 <= v → bool_as_u8 (negb (v =? 0)) = v).
  { intros v Hv1%Z.leb_le Hv0. destruct (Z.eqb_spec v 0) as [->|]; simpl; [done|lia]. }
  split; [|split; [by destruct p|]].
  - destruct p; try done; destruct Ho; split; simpl; try done.
    simpl in Hv. apply validation_require_Ok, negb_true_iff, Z.eqb_neq in Hv. unfold wf_property, is_u32 in Hw. lia.
  - intros q. unfold option_settings. destruct p; try done; simpl in *;
      try (apply validation_require_Ok in Hv; rewrite Hb by (done || apply Hw));
      destruct (mo_session_expiry_interval o), (mo_maximum_packet_size o),
        (mo_request_response_information o), (mo_request_problem_information o); simpl;
      rewrite ?elem_of_cons, ?elem_of_nil; tauto.
Qed.

Lemma set_connect_properties_spec ps : ∀ o,
  Forall (λ p, property_allowed CtxConnect p = true ∧ validation_property_value p = Ok ()) ps →
  Forall wf_property ps → wf_options o →
  wf_options (fold_left set_connect_property ps o) ∧
  unrelated (fold_left set_connect_property ps o) = unrelated o ∧
  ∀ q, q ∈ option_settings (fold_left set_connect_property ps o) → q ∈ option_settings o ++ ps.
Proof.
  induction ps as [|p ps IH]; intros o; cbn [fold_left].
  { intros _ _ Ho. split; [done|]. split; [done|]. intros q. by rewrite app_nil_r. }
  intros [[Hp Hv] Hps]%Forall_cons [Hw Hws]%Forall_cons Ho.
  destruct (set_connect_property_spec o p Hp Hv Hw Ho) as (Ho1 & Hu1 & Hs1).
  destruct (IH _ Hps Hws Ho1) as (Ho2 & Hu2 & Hs2). split; [done|]. split; [by rewrite Hu2|].
  intros q [Hq|Hq]%Hs2%elem_of_app; apply elem_of_app; [|right; by right].
  apply Hs1, elem_of_app in Hq as [Hq|Hq]; [by left|right].
  apply list_elem_of_singleton in Hq as ->. by left.
Qed.

(** ** [into_core] *)
Lemma safe_intro {E A} (r : result E A) (Q : A → Prop) : r ≠ Panic → (∀ a, r = Ok a → Q a) → safe r Q.
Proof. destruct r; simpl; naive_solver. Qed.
Lemma safe_check valid message : safe (check valid message) (λ _, valid = true).
Proof. by destruct valid. Qed.
Lemma safe_text v : safe (text v) (λ _, validation_string v = Ok ()).
Proof. apply safe_intro; [apply check_no_panic|]. by intros [] Ht%text_spec. Qed.
Lemma safe_opt_check {A} (f : A → result MqttErrorFFI ()) (Q : A → Prop) o :
  (∀ a, safe (f a) (λ _, Q a)) → safe (opt_check f o) (λ _, wf_opt Q o).
Proof. by destruct o; simpl. Qed.

Lemma safe_nonzero value name set o (P : MqttClientOptions → Prop) :
  P o → (∀ v, value = Some v → v ≠ 0 → P (set v o)) → safe (nonzero value name set o) P.
Proof. destruct value as [v|]; simpl; [|done]. intros _ HP. destruct (Z.eqb_spec v 0); simpl; [done|by apply HP]. Qed.

(** Subscriptions given in the options. *)
Lemma safe_engine_subscriptions {T} `{!Runtime T} subs version :
  Forall wf_subscription_ffi subs →
  safe (subscribe_command_ffi {| fso_subscriptions := subs; fso_properties := [] |} version)
    (λ c, Forall wf_subscription (sc_subscriptions c) ∧
          Forall (λ s, validation_subscription s = Ok ()) (sc_subscriptions c)).
Proof.
  intros Hs. apply safe_intro; [apply subscribe_command_ffi_no_panic|]. intros c Hc.
  apply subscribe_command_ffi_Ok in Hc as (_ & _ & H1 & _ & H2 & _); [done|]. split; [done|constructor].
Qed.

Definition base_options (o : MqttClientOptions) : Prop :=
  accepted_options o ∧ mo_sessionless o = false ∧ mo_incoming_receive_maximum o = None.

Lemma safe_engine_options_apply {T} `{!Runtime T} self o :
  wf_engine_options_ffi self → base_options o →
  safe (engine_options_apply self o)
    (λ o', accepted_options o' ∧ mo_incoming_receive_maximum o' = None).
Proof.
  intros (H1 & H2 & H3 & H4 & H5 & H6 & H7) Hb. unfold engine_options_apply.
  do 6 (eapply (safe_bind _ _ base_options);
    [apply safe_nonzero; [done|]; intros v Ev _;
     destruct Hb as ([[] ] & ? & ?); rewrite Ev in *; split; [|done]; split; try done; split; done
    |intros o' Hb' _; clear dependent o; rename o' into o, Hb' into Hb]).
  destruct Hb as (Ha & Hs & Hr).
  set (o1 := from_option _ o (feo_auto_keepalive self)).
  assert (H1' : base_options o1).
  { unfold o1. destruct (feo_auto_keepalive self); [|done]. destruct Ha as [[] ]. split; [|done]. split; done. }
  clearbody o1. set (o2 := from_option _ o1 (feo_auto_ack self)).
  assert (H2' : base_options o2).
  { unfold o2. destruct (feo_auto_ack self); [|done]. destruct H1' as ([[] ] & ? & ?). split; [|done]. split; done. }
  clearbody o2. clear o o1 Ha Hs Hr H1'. destruct H2' as (Ha & Hs & Hr).
  eapply safe_bind; [apply safe_check|]. intros [] Hc _. set (o3 := from_option _ o2 (feo_sessionless self)) in *.
  assert (H3' : accepted_options o3 ∧ mo_incoming_receive_maximum o3 = None).
  { unfold o3 in *. destruct (feo_sessionless self) as [b|]; simpl in *; [|done].
    split; [|done]. destruct Ha as [[] ]; split; try done. simpl. intros ->. simpl in Hc.
    destruct (mo_clean_start o2); simpl in Hc; [|done]. rewrite negb_involutive in Hc.
    split; [done|by apply Z.eqb_eq]. }
  clearbody o3.
  case_bool_decide; simpl; [done|].
  eapply safe_bind; [by apply safe_engine_subscriptions|]. intros c [Hc1 Hc2] _. simpl.
  destruct H3' as [[[] ] Hr3]. split; [|done]. by split.
Qed.

Lemma existsb_ids f n l :
  (∀ p, f p = true ↔ property_id_of p = n) → existsb f l = true ↔ n ∈ (property_id_of <$> l).
Proof.
  intros Hf. rewrite existsb_exists, list_elem_of_fmap. split.
  - intros (p & Hin & Hp%Hf). exists p. split; [done|]. by apply list_elem_of_In.
  - intros (p & -> & Hin). exists p. split; [by apply list_elem_of_In|by apply Hf].
Qed.

(** The CONNECT properties: validated, and authentication data comes with its method. *)
Lemma connect_properties_ok l :
  Forall (λ p, property_allowed CtxConnect p = true ∧ validation_property_value p = Ok ()) l →
  NoDup (singleton_ids CtxConnect l) →
  negb (existsb is_authentication_data l && negb (existsb is_authentication_method l)) = true →
  validation_properties l CtxConnect = Ok ().
Proof.
  intros Hps Hnd Ha. apply validation_properties_spec. split; [done|]. split; [done|]. intros _ Hd.
  apply (existsb_ids is_authentication_method 21); [by intros []|].
  assert (existsb is_authentication_data l = true) as Hd'.
  { apply (existsb_ids _ 22); [by intros []|done]. }
  rewrite Hd' in Ha. by destruct (existsb is_authentication_method l).
Qed.

Lemma safe_connect_validate ps version :
  Forall wf_property_ffi ps →
  safe (validate ps version connect_allowed) (λ l,
    Forall wf_property l ∧ (version = 5 ∨ l = []) ∧ NoDup (singleton_ids CtxConnect l) ∧
    Forall (λ p, property_allowed CtxConnect p = true ∧ validation_property_value p = Ok ()) l).
Proof.
  intros Hw. apply safe_intro; [apply validate_no_panic|]. intros l Hl.
  apply (validate_core CtxConnect) in Hl as (-> & Hver & _ & Hps & Hnd); [|done].
  split_and!; [by apply Forall_fmap| |done..]. destruct Hver as [?| ->]; [by left|by right].
Qed.

Lemma safe_will_into_core w version :
  wf_will_ffi w → safe (will_into_core w version) will_ok.
Proof. intros Hw. apply safe_intro; apply will_into_core_spec; done. Qed.

(** The options before the will and the tuning are set. *)
Lemma safe_into_core {T} `{!Runtime T} self :
  wf_connect_ffi self →
  safe (into_core self) (λ o, accepted_options o ∧ mo_incoming_receive_maximum o = None).
Proof.
  intros (Hco & Hps & Hwill & Hpw & Heng). unfold into_core.
  eapply safe_bind; [apply safe_check|]. intros [] Hver _.
  eapply safe_bind; [apply safe_text|]. intros [] Hid _.
  eapply safe_bind; [apply safe_opt_check, safe_text|]. intros [] Huser _.
  eapply safe_bind; [apply safe_check|]. intros [] _ _.
  set (password := match fc_binary_password self with Some p => Some p | None => _ end).
  assert (Hpwf : wf_opt u8s password).
  { unfold password. destruct Hco as (_ & _ & _ & _ & Hp & _).
    destruct (fc_binary_password self); [done|]. destruct (fmo_password (fc_options self)); [apply Hp|done]. }
  eapply (safe_bind _ _ (λ _, wf_opt (λ p, zlen p <= 65535) password)).
  { apply safe_opt_check. intros p. eapply safe_mono; [apply safe_check|].
    by intros [] ?%negb_true_iff%Z.ltb_ge. }
  intros [] Hplen _.
  eapply (safe_bind _ _ (Forall wf_property_ffi)).
  { apply safe_intro; [apply deduplicate_connect_no_panic|]. intros l. by apply deduplicate_connect_wf. }
  intros deduplicated Hdw _.
  eapply safe_bind; [by apply safe_connect_validate|]. intros properties (Hwf & Hv5 & Hnd & Hpok) _.
  eapply safe_bind; [apply safe_check|]. intros [] Hauth _.
  destruct (from_ffi_spec (fc_options self) Hco Hver)
    as (o0 & -> & Ho0 & E1 & E2 & E3 & E4 & E5 & E6 & E7 & E8 & E9 & E10). simpl.
  assert (Ho1 : wf_options (o0 <| mo_password := password |>)) by (destruct Ho0; split; done).
  destruct (set_connect_properties_spec properties _ Hpok Hwf Ho1) as (Ho2 & Hun & Hset).
  set (o2 := fold_left set_connect_property properties _) in *. clearbody o2.
  unfold unrelated in Hun. simpl in Hun. injection Hun as F1 F2 F3 F4 F5 F6 F7 F8 F9 F10.
  set (o3 := o2 <| mo_connect_properties := properties |>).
  assert (Ho3 : base_options o3).
  { split; [|by split; simpl; congruence]. split; simpl.
    - destruct Ho2; split; done.
    - by rewrite F1, E1.
    - by rewrite F2, E2.
    - by rewrite F3.
    - by rewrite F6, E5.
    - by apply connect_properties_ok.
    - by rewrite F4, E3.
    - apply Forall_forall. intros q Hq. specialize (Hset q Hq). unfold option_settings in Hset, E7.
      simpl in Hset. rewrite E7 in Hset. done.
    - rewrite F8, E8. constructor.
    - rewrite F9, E9. done. }
  clearbody o3.
  eapply (safe_bind _ _ base_options).
  { destruct (fc_will self) as [w|]; [|done]. eapply safe_bind; [by apply safe_will_into_core|].
    intros will Hw _. simpl. destruct Ho3 as ([[] ] & ? & ?). split; [|done]. split; try done.
    split; try done. apply Hw. }
  intros o Ho _. destruct (fc_engine_options self) as [tuning|]; [by apply safe_engine_options_apply|].
  destruct Ho as (? & _ & ?). done.
Qed.
End options.

(** ** Runtime options *)
Section runtime.
Context {T : Type} `{TimePoint T, !Runtime T, !FfiText}.
Implicit Types (clock : nat → T) (e : MqttEngine T).

Definition wf_timeouts_ffi (t : MqttOperationTimeoutsFFI) : Prop :=
  wf_opt is_u64 (ft_connect_ms t) ∧ wf_opt is_u64 (ft_publish_ms t) ∧
  wf_opt is_u64 (ft_subscribe_ms t) ∧ wf_opt is_u64 (ft_unsubscribe_ms t).
Definition wf_runtime_ffi (r : MqttRuntimeOptionsFFI) : Prop :=
  wf_opt wf_str (fr_peer r) ∧ wf_opt wf_timeouts_ffi (fr_operation_timeouts r) ∧
  wf_opt is_u16 (fr_incoming_receive_maximum r).

Lemma safe_duration_ffi reading ms :
  wf_opt is_u64 ms → safe (duration_ffi reading ms) (wf_opt (λ d, 0 <= d)).
Proof.
  destruct ms as [ms|]; simpl; [|done]. intros Hms. unfold instant_at, Duration_from_millis.
  destruct (tp_checked_add _ _); simpl; [|done]. unfold is_u64 in Hms. lia.
Qed.
Lemma safe_size_ffi n : safe (size_ffi n) (wf_opt is_usize).
Proof.
  destruct n as [n|]; simpl; [|done]. unfold isize_MAX, is_usize, is_u64.
  destruct (Z.ltb_spec 0 n), (Z.leb_spec n 9223372036854775807); simpl; try done. lia.
Qed.
Lemma safe_timeouts_ffi clock t n :
  wf_timeouts_ffi t → safe (timeouts_ffi clock t n) (λ r, wf_timeouts r.1).
Proof.
  intros (? & ? & ? & ?). unfold timeouts_ffi.
  do 4 (eapply safe_bind; [by apply safe_duration_ffi|]; intros ? ? _). done.
Qed.

Definition with_incoming (o : MqttClientOptions) (m : option Z) : Prop :=
  accepted_options o ∧ mo_incoming_receive_maximum o = m.

Lemma safe_runtime_options_apply clock self o n :
  wf_runtime_ffi self → with_incoming o None →
  safe (runtime_options_apply clock self o n)
    (λ r, with_incoming r.1 (fr_incoming_receive_maximum self) ∧
          wf_opt (λ m, 0 < m) (fr_incoming_receive_maximum self)).
Proof.
  intros (Hp & Ht & Hm) Ho. unfold runtime_options_apply.
  eapply (safe_bind _ _ (λ o, with_incoming o None)).
  { destruct (fr_peer self) as [peer|]; [|done]. eapply safe_bind; [apply safe_check|]. intros _ _ _.
    destruct Ho as [[[] ] Hn]; split; [|done]; split; try done; by split. }
  intros o' Ho' _. clear dependent o. rename o' into o, Ho' into Ho.
  eapply (safe_bind _ _ (λ r, with_incoming r.1 None)).
  { destruct (fr_operation_timeouts self) as [t|]; [|done]. eapply safe_bind; [by apply safe_timeouts_ffi|].
    intros [t' n'] Ht' _. destruct Ho as [[[] ] Hn]; split; [|done]; split; try done; by split. }
  intros [o' n'] Ho' _. clear dependent o. rename o' into o, Ho' into Ho. simpl in Ho.
  eapply (safe_bind _ _ (λ o, with_incoming o (fr_incoming_receive_maximum self) ∧
    wf_opt (λ m, 0 < m) (fr_incoming_receive_maximum self))).
  { destruct (fr_incoming_receive_maximum self) as [m|]; [|done].
    eapply safe_bind; [apply safe_check|]. intros [] Hm0%negb_true_iff%Z.eqb_neq _. simpl.
    destruct Hm as [Hm1 Hm2]. split; [|lia].
    destruct Ho as [[[] ] Hn]; split; [|done]; split; try done; by split. }
  intros o' [Ho' Hpos] _. clear dependent o. rename o' into o, Ho' into Ho.
  do 3 (eapply safe_bind; [apply safe_size_ffi|]; intros ? ? _). simpl. split; [|done].
  destruct (fr_reconnect self); simpl; destruct Ho as [[[] ] Hn]; split; try done; split; try done; by split.
Qed.

(** ** The CONNECT packet *)

(** The properties CONNECT can carry, each one at most once but the user properties. *)
Lemma connect_property_ok p :
  property_allowed CtxConnect p = true → validation_property_value p = Ok () →
  connect_property_error p = None.
Proof.
  intros Hp Hv. destruct p as [v|v|v|v|v|v|v|v|v|v|v|v|v|v|v|v|v|v|v|v|v|v|v|v|v|v|v]; try done; simpl in *;
    apply validation_require_Ok in Hv; try (destruct (Z.ltb_spec 1 v); [lia|done]); by destruct v.
Qed.

Lemma connect_repeatable p :
  property_repeatable CtxConnect (property_id_of p) = is_user_property p.
Proof. by destruct p. Qed.

Lemma merge_properties_distinct ps rest : ∀ merged,
  Forall (λ p, connect_property_error p = None) ps →
  NoDup (singleton_ids CtxConnect (merged ++ ps)) →
  merge_properties (ps ++ rest) merged = merge_properties rest (merged ++ ps).
Proof.
  induction ps as [|p ps IH]; intros merged; cbn [merge_properties app]; [by rewrite app_nil_r|].
  intros [Hp Hps]%Forall_cons Hnd. rewrite Hp.
  assert (E : (if is_user_property p then None else List.find (λ q, same_variant q p) merged) = None).
  { destruct (is_user_property p) eqn:Hu; [done|]. destruct (List.find _ merged) as [q|] eqn:Hf; [|done].
    apply find_some in Hf as [Hin Hq%Z.eqb_eq]. apply list_elem_of_In in Hin. exfalso.
    rewrite singleton_ids_app, NoDup_app in Hnd. destruct Hnd as (_ & Hd & _).
    apply (Hd (property_id_of p)); apply elem_of_singleton_ids; rewrite connect_repeatable.
    - split; [done|]. rewrite <- Hq. apply list_elem_of_fmap. eauto.
    - split; [done|]. by left. }
  rewrite E, IH; rewrite <- ?app_assoc; done.
Qed.

Lemma singleton_unique context l p q :
  NoDup (singleton_ids context l) → p ∈ l → q ∈ l → property_id_of p = property_id_of q →
  property_repeatable context (property_id_of p) = false → p = q.
Proof.
  induction l as [|x l IH]; [by intros _ ?%elem_of_nil|]. unfold singleton_ids. rewrite fmap_cons, filter_cons.
  intros Hnd [->|Hp]%elem_of_cons [->|Hq]%elem_of_cons E Hr; try done.
  - exfalso. rewrite decide_True in Hnd by done. apply NoDup_cons in Hnd as [Hni _]. apply Hni.
    apply list_elem_of_filter. split; [done|]. rewrite E. apply list_elem_of_fmap. eauto.
  - exfalso. rewrite decide_True in Hnd by by rewrite <- E. apply NoDup_cons in Hnd as [Hni _]. apply Hni.
    apply list_elem_of_filter. rewrite <- E. split; [done|]. apply list_elem_of_fmap. eauto.
  - apply IH; try done. case_decide; [by apply NoDup_cons in Hnd as [_ ?]|done].
Qed.

Lemma merge_properties_known ps rest merged :
  NoDup (singleton_ids CtxConnect merged) →
  Forall (λ p, connect_property_error p = None ∧ is_user_property p = false ∧ p ∈ merged) ps →
  merge_properties (ps ++ rest) merged = merge_properties rest merged.
Proof.
  intros Hnd. induction 1 as [|p ps (Hp & Hu & Hin) _ IH]; [done|]. cbn [merge_properties app]. rewrite Hp, Hu.
  destruct (List.find _ merged) as [q|] eqn:Hf.
  - apply find_some in Hf as [Hq Hid%Z.eqb_eq]. apply list_elem_of_In in Hq.
    rewrite bool_decide_eq_false_2; [done|]. intros Hne. apply Hne.
    by apply (singleton_unique CtxConnect merged); try done; rewrite Hid, connect_repeatable.
  - apply list_elem_of_In in Hin. apply (find_none _ _ Hf) in Hin. unfold same_variant in Hin.
    by rewrite Z.eqb_refl in Hin.
Qed.

Lemma option_settings_facts o p :
  p ∈ option_settings o → is_user_property p = false.
Proof.
  unfold option_settings. rewrite !elem_of_app, !list_elem_of_fmap.
  by intros [(v & -> & _)|[(v & -> & _)|[(v & -> & _)|(v & -> & _)]]].
Qed.

Lemma merge_incoming m ps :
  properties_ok CtxConnect ps → wf_opt (λ n, 0 < n) m →
  (∀ n n', m = Some n → ReceiveMaximum n' ∈ ps → n' = n) →
  ∃ l, merge_properties (ReceiveMaximum <$> option_list m) ps = Ok l ∧ properties_ok CtxConnect l.
Proof.
  intros Hps Hpos Hagree. destruct m as [n|]; simpl; [|by exists ps]. simpl in Hpos.
  assert (En : connect_property_error (ReceiveMaximum n) = None) by by destruct n.
  simpl in En. rewrite En. destruct (List.find _ ps) as [q|] eqn:Hf.
  - apply find_some in Hf as [Hq Hid%Z.eqb_eq]. apply list_elem_of_In in Hq.
    destruct q as [v|v|v|v|v|v|v|v|v|v|v|v|v|v|v|v|v|v|v|v|v|v|v|v|v|v|v]; try done.
    rewrite (Hagree n v eq_refl Hq), bool_decide_eq_false_2 by naive_solver. eauto.
  - eexists. split; [done|]. destruct Hps as (Ha & Hnd & Hc). split; [|split].
    + apply Forall_app. split; [done|]. apply Forall_singleton. split; [done|]. simpl.
      destruct (Z.eqb_spec n 0); [lia|done].
    + rewrite singleton_ids_app. apply NoDup_app. split; [done|]. split; [|by apply NoDup_singleton].
      intros id [_ Hin]%elem_of_singleton_ids Hr. apply list_elem_of_singleton in Hr as ->.
      apply list_elem_of_fmap in Hin as (p & Hid & Hp). apply list_elem_of_In in Hp.
      apply (find_none _ _ Hf) in Hp. unfold same_variant in Hp. rewrite <- Hid in Hp. by rewrite Z.eqb_refl in Hp.
    + intros E. rewrite fmap_app, !elem_of_app. intros [H22|H22%list_elem_of_singleton]; [|done]. left. by apply Hc.
Qed.

Lemma connect_properties_valid e m :
  with_incoming (me_options e) m → wf_opt (λ n, 0 < n) m →
  (∀ n n', m = Some n → ReceiveMaximum n' ∈ mo_connect_properties (me_options e) → n' = n) →
  ∃ l, connect_properties e = Ok l ∧ validation_properties l CtxConnect = Ok ().
Proof.
  intros [[_ _ _ _ _ Hps _ Hset _ _] <-] Hpos Hagree. apply validation_properties_spec in Hps.
  unfold connect_properties. set (o := me_options e) in *.
  assert (Herr : Forall (λ p, connect_property_error p = None) (mo_connect_properties o)).
  { destruct Hps as (Ha & _). eapply Forall_impl; [exact Ha|]. intros p [? ?]. by apply connect_property_ok. }
  rewrite merge_properties_distinct by (done || apply Hps). rewrite app_nil_l.
  rewrite !(app_assoc _ _ (ReceiveMaximum <$> _)).
  rewrite merge_properties_known.
  2: by destruct Hps as (_ & ? & _).
  2: { apply Forall_forall. intros p Hp.
       rewrite Forall_forall in Hset, Herr. specialize (Hset p Hp). split; [by apply Herr|].
       split; [by eapply option_settings_facts|done]. }
  destruct (merge_incoming _ _ Hps Hpos Hagree) as (l & -> & Hl). simpl.
  assert (Hauth : existsb is_auth_data l && negb (existsb is_auth_method l) = false).
  { destruct (existsb is_auth_data l) eqn:Hd; [|done]. apply (existsb_ids _ 22) in Hd; [|by intros []].
    destruct Hl as (_ & _ & Hc). apply Hc in Hd; [|done].
    apply (existsb_ids is_auth_method 21) in Hd; [by rewrite Hd|by intros []]. }
  rewrite Hauth. exists l. split; [done|]. by apply validation_properties_spec.
Qed.

Lemma connect_packet_valid e m :
  with_incoming (me_options e) m → wf_opt (λ n, 0 < n) m →
  (∀ n n', m = Some n → ReceiveMaximum n' ∈ mo_connect_properties (me_options e) → n' = n) →
  ∃ p, connect_packet e = Ok p ∧ MqttPacket_validate p = Ok ().
Proof.
  intros Hin Hpos Hagree. pose proof (connect_properties_valid e m Hin Hpos Hagree) as (l & Hl & Hval).
  destruct Hin as [[_ Hid Huser _ Hwill _ _ _ _ _] _]. unfold connect_packet.
  assert (Hu : if_some (mo_username (me_options e)) validation_string = Ok ()).
  { by destruct (mo_username (me_options e)). }
  assert (Hw : wf_opt (λ w, w5_will_qos w <=? 2 = true ∧ validation_topic (w5_will_topic w) = Ok ())
    (mo_will (me_options e))).
  { destruct (mo_will (me_options e)) as [w|]; [|done]. destruct Hwill as (_ & Hq & _ & Ht & _). simpl.
    split; [by apply Z.leb_le|done]. }
  destruct (mo_mqtt_version (me_options e) =? 5); rewrite ?Hl; eexists; (split; [done|]); simpl;
    unfold MqttConnect5_validate, MqttConnect3_validate; simpl; rewrite Hid; simpl; rewrite Hu; simpl;
    destruct (mo_will (me_options e)) as [w|]; simpl in *; rewrite ?Hval; try done;
    destruct Hw as [-> Ht]; simpl; rewrite Ht; simpl; by rewrite ?Hval.
Qed.
End runtime.

(** ** Theorems *)

(** C26: options the bindings accept make a valid CONNECT.  For whatever a foreign caller passes,
    [into_core] and then [apply] of the runtime options never panic, and what they accept is well
    formed: strings and passwords that fit, a will whose topic, QoS and properties pass the core's
    validation, properties valid for CONNECT and empty before MQTT 5, valid subscriptions, and a
    sessionless engine only with a clean start and no expiry.  An engine with these options then
    builds its CONNECT packet, and the packet passes the validation of the encoder, unless the
    runtime options and the property list set two different receive maximums. *)
Theorem ffi_options_valid {T : Type} `{TimePoint T, !Runtime T, !FfiText}
    (clock : nat → T) (opts : MqttConnectOptionsFFI) (runtime : MqttRuntimeOptionsFFI) (n : nat) :
  wf_connect_ffi opts → wf_runtime_ffi runtime →
  into_core opts ≠ Panic ∧
  ∀ o, into_core opts = Ok o →
    accepted_options o ∧ runtime_options_apply clock runtime o n ≠ Panic ∧
    ∀ o' n', runtime_options_apply clock runtime o n = Ok (o', n') →
      accepted_options o' ∧
      ∀ e : MqttEngine T, me_options e = o' →
        (∀ m v, fr_incoming_receive_maximum runtime = Some m →
                ReceiveMaximum v ∈ mo_connect_properties o' → v = m) →
        ∃ p, connect_packet e = Ok p ∧ MqttPacket_validate p = Ok ().
Proof.
  intros Hw Hr. pose proof (safe_into_core opts Hw) as Hs. split; [by eapply safe_no_panic|]. intros o Ho.
  apply (safe_Ok_inv _ _ _ Hs) in Ho as Hin. split; [apply Hin|].
  pose proof (safe_runtime_options_apply clock runtime o n Hr Hin) as Ha.
  split; [by eapply safe_no_panic|]. intros o' n' Ho'.
  apply (safe_Ok_inv _ _ _ Ha) in Ho' as [Hin' Hpos]. simpl in Hin'. split; [apply Hin'|].
  intros e <- Hagree. by eapply connect_packet_valid.
Qed.

#[local] Existing Instance Runtime_ordered.
Definition sample_ffi_options : MqttConnectOptionsFFI := {|
  fc_options := MqttOptionsFFI_default;
  fc_properties := [FSessionExpiryInterval 30; FReceiveMaximum 8; FRequestProblemInformation 1;
                    FSessionExpiryInterval 30; FUserProperty (str "k") (str "v")];
  fc_will := Some {| fw_topic := str "w/t"; fw_payload := [1; 2]; fw_qos := 1; fw_retain := false;
                     fw_properties := [FWillDelayInterval 5; FContentType (str "x")] |};
  fc_binary_password := Some [0; 255]; fc_engine_options := None |}.
Definition sample_ffi_runtime : MqttRuntimeOptionsFFI :=
  {| fr_peer := Some (str "broker"); fr_operation_timeouts := Some mqtt_cloud_timeouts;
     fr_incoming_receive_maximum := Some 8; fr_max_incoming_packet_size := None;
     fr_max_incoming_buffer_bytes := None; fr_max_outgoing_buffer_bytes := None;
     fr_reconnect := Some true |}.
Definition sample_clock (n : nat) : Timestamp := Timestamp_from_nanos (Z.of_nat n).
Definition sample_core_options : MqttClientOptions :=
  match into_core (T:=Timestamp) sample_ffi_options with Ok o => o | _ => MqttClientOptions_default end.
Definition sample_runtime_options : MqttClientOptions :=
  match runtime_options_apply sample_clock sample_ffi_runtime sample_core_options 0 with
  | Ok (o, _) => o
  | _ => MqttClientOptions_default
  end.

Lemma ffi_options_valid_witness :
  let e := MqttEngine_new_at sample_runtime_options (Timestamp_from_nanos 0) in
  mo_connect_properties (me_options e)
  = [SessionExpiryInterval 30; ReceiveMaximum 8; RequestProblemInformation 1;
     UserProperty (str "k") (str "v")] ∧
  ∃ p, connect_packet e = Ok p ∧ MqttPacket_validate p = Ok ().
Proof.
  intros e. split; [vm_compute; reflexivity|].
  assert (Hw : wf_connect_ffi sample_ffi_options).
  { unfold wf_connect_ffi, wf_connection_ffi, wf_will_ffi, wf_str, is_u8, is_u16, is_u32, is_u64. simpl.
    repeat constructor; try done; try u8s_lit; simpl; lia. }
  assert (Hr : wf_runtime_ffi sample_ffi_runtime).
  { unfold wf_runtime_ffi, wf_str, is_u16. simpl. repeat constructor; try done; try u8s_lit; simpl; lia. }
  destruct (ffi_options_valid sample_clock sample_ffi_options sample_ffi_runtime 0 Hw Hr) as (_ & Ho).
  destruct (Ho sample_core_options) as (_ & _ & Ha); [vm_compute; reflexivity|].
  destruct (Ha sample_runtime_options 4%nat) as (_ & Hc); [vm_compute; reflexivity|].
  apply Hc; [reflexivity|]. intros m v Hm Hv. injection Hm as <-.
  vm_compute in Hv. repeat (apply elem_of_cons in Hv as [Hv|Hv]; [by injection Hv || done|]).
  by apply elem_of_nil in Hv.
Defined.
