(* ===== verification/FfiEvents.v ===== *)
(** * The events of the foreign-function interface

    Models the event types of [flowsdk_ffi/src/engine/ffi_types.rs], [map_event] and [map_events]
    of [flowsdk_ffi/src/engine.rs], the list object and the C accessors that take an event apart.
    A pointer is an [option]: [None] is null.  An accessor that allocates a string panics on a
    byte 0 in it, as [CString::new(..).unwrap()] does. *)
From S2P Require Import Prelude BaseData TopicFilter Validation Properties Packets Framing.
From S2P Require Import Time PriorityQueue ClientError Options ClientTypes Commands Inflight.
From S2P Require Import ClientSession EngineState FfiTypes FfiFacts.

(** ** Types *)
Inductive QuicZeroRttStatusFFI : Type := FDisabled | FUnavailable | FAttempted | FAccepted | FRejected.
Inductive MqttOperationKindFFI : Type := FConnect | FPublish | FSubscribe | FUnsubscribe.
Inductive MqttFailureKindFFI : Type := FTimeout | FSessionExpired | FCancelled | FOther.

Record MqttMessageFFI : Type := {
  fm_stream_id : option Z;
  fm_topic : bytes;
  fm_payload : bytes;
  fm_qos : Z;
  fm_retain : bool;
  fm_dup : bool;
  fm_packet_id : option Z;
  fm_properties : list MqttPropertyFFI;
}.
Record ConnectionResultFFI : Type := {
  fcr_reason_code : Z; fcr_session_present : bool; fcr_properties : list MqttPropertyFFI;
}.
Record AuthResultFFI : Type := { far_reason_code : Z; far_properties : list MqttPropertyFFI }.
Record PublishResultFFI : Type := {
  fpr_packet_id : option Z; fpr_reason_code : option Z; fpr_qos : Z;
  fpr_properties : list MqttPropertyFFI;
}.
Record SubscribeResultFFI : Type := {
  fsr_packet_id : Z; fsr_reason_codes : list Z; fsr_properties : list MqttPropertyFFI;
}.
Record UnsubscribeResultFFI : Type := {
  fur_packet_id : Z; fur_reason_codes : list Z; fur_properties : list MqttPropertyFFI;
}.

Inductive MqttEventFFI : Type :=
  | FTransportClosed (reason : string) (by_peer : bool) (error_code : option Z)
  | FZeroRttStatusChanged (status : QuicZeroRttStatusFFI)
  | FPublishReceived (packet_id stream_id : option Z)
  | FPubRelReceived (packet_id : Z) (stream_id : option Z)
  | FConnected (result : ConnectionResultFFI)
  | FAuthReceived (result : AuthResultFFI)
  | FDisconnected (reason_code : option Z) (properties : list MqttPropertyFFI)
  | FMessageReceived (message : MqttMessageFFI)
  | FPublished (result : PublishResultFFI)
  | FSubscribed (result : SubscribeResultFFI)
  | FUnsubscribed (result : UnsubscribeResultFFI)
  | FPingResponse (success : bool)
  | FError (message : string)
  | FStreamClosed (stream_id : Z) (reason : string) (by_peer : bool)
  | FStreamReset (stream_id error_code : Z)
  | FStreamStopped (stream_id error_code : Z)
  | FOperationFailed (operation : MqttOperationKindFFI) (packet_id : option Z)
      (kind : MqttFailureKindFFI) (detail : string) (timeout_ms : option Z)
  | FReconnectNeeded
  | FReconnectScheduled (attempt delay_ms : Z).

(** ** The translation *)

(** [impl From<QuicZeroRttStatus> for QuicZeroRttStatusFFI] *)
Definition QuicZeroRttStatusFFI_from (status : QuicZeroRttStatus) : QuicZeroRttStatusFFI :=
  match status with
  | Disabled => FDisabled
  | Unavailable => FUnavailable
  | Attempted => FAttempted
  | Accepted => FAccepted
  | Rejected => FRejected
  end.

Definition properties_ffi (properties : list Property) : list MqttPropertyFFI :=
  MqttPropertyFFI_from <$> properties.

Definition operation_kind_ffi (operation : OperationKind) : MqttOperationKindFFI :=
  match operation with
  | OpConnect => FConnect
  | OpPublish => FPublish
  | OpSubscribe => FSubscribe
  | OpUnsubscribe => FUnsubscribe
  end.

Definition failure_kind_ffi (error : MqttClientError) : MqttFailureKindFFI * option Z :=
  match error with
  | OperationTimeout _ timeout_ms => (FTimeout, Some timeout_ms)
  | SessionExpired => (FSessionExpired, None)
  | OperationCancelled _ => (FCancelled, None)
  | _ => (FOther, None)
  end.

Definition message_ffi (msg : MqttPublish5) : MqttMessageFFI := {|
  fm_stream_id := None; fm_topic := p5_topic_name msg; fm_payload := p5_payload msg;
  fm_qos := p5_qos msg; fm_retain := p5_retain msg; fm_dup := p5_dup msg;
  fm_packet_id := p5_packet_id msg; fm_properties := properties_ffi (p5_properties msg) |}.

Section translation.
Context `{!ErrorText, !FfiText}.

Definition map_event (event : MqttEvent) : option MqttEventFFI :=
  match event with
  | AuthReceived res => Some (FAuthReceived {|
      far_reason_code := ar_reason_code res; far_properties := properties_ffi (ar_properties res) |})
  | Connected res => Some (FConnected {|
      fcr_reason_code := cr_reason_code res; fcr_session_present := cr_session_present res;
      fcr_properties := properties_ffi (default [] (cr_properties res)) |})
  | Disconnected code => Some (FDisconnected code [])
  | DisconnectReceived reason_code properties =>
      Some (FDisconnected (Some reason_code) (properties_ffi properties))
  | PublishReceived packet_id stream => Some (FPublishReceived packet_id stream)
  | PubRelReceived packet_id stream => Some (FPubRelReceived packet_id stream)
  | MessageReceived msg => Some (FMessageReceived (message_ffi msg))
  | Published res => Some (FPublished {|
      fpr_packet_id := pr_packet_id res; fpr_reason_code := pr_reason_code res;
      fpr_qos := pr_qos res; fpr_properties := properties_ffi (default [] (pr_properties res)) |})
  | Subscribed res => Some (FSubscribed {|
      fsr_packet_id := sr_packet_id res; fsr_reason_codes := sr_reason_codes res;
      fsr_properties := properties_ffi (sr_properties res) |})
  | Unsubscribed res => Some (FUnsubscribed {|
      fur_packet_id := ur_packet_id res; fur_reason_codes := ur_reason_codes res;
      fur_properties := properties_ffi (ur_properties res) |})
  | PingResponse res => Some (FPingResponse (pg_success res))
  | OperationFailed operation packet_id error =>
      let '(kind, timeout_ms) := failure_kind_ffi error in
      Some (FOperationFailed (operation_kind_ffi operation) packet_id kind (user_message error) timeout_ms)
  | ErrorEvent err => Some (FError (client_error_debug err))
  | TransportClosed reason by_peer error_code => Some (FTransportClosed reason by_peer error_code)
  | StreamClosed stream_id reason by_peer => Some (FStreamClosed stream_id reason by_peer)
  | StreamReset stream_id error_code => Some (FStreamReset stream_id error_code)
  | StreamStopped stream_id error_code => Some (FStreamStopped stream_id error_code)
  | ZeroRttStatusChanged status => Some (FZeroRttStatusChanged (QuicZeroRttStatusFFI_from status))
  | ReconnectNeeded => Some FReconnectNeeded
  | ReconnectScheduled attempt delay => Some (FReconnectScheduled attempt ((delay / 1000000) `mod` 18446744073709551616))
  end.

(** [map_events]: a message takes the stream of the PUBLISH notice before it. *)
Fixpoint map_events_from (stream : option Z) (events : list MqttEvent) : list MqttEventFFI :=
  match events with
  | [] => []
  | event :: events =>
      match map_event event with
      | None => map_events_from stream events
      | Some event =>
          let stream := match event with FPublishReceived _ stream_id => stream_id | _ => stream end in
          match event with
          | FMessageReceived message =>
              FMessageReceived {|
                fm_stream_id := stream; fm_topic := fm_topic message; fm_payload := fm_payload message;
                fm_qos := fm_qos message; fm_retain := fm_retain message; fm_dup := fm_dup message;
                fm_packet_id := fm_packet_id message; fm_properties := fm_properties message |}
              :: map_events_from None events
          | event => event :: map_events_from stream events
          end
      end
  end.
Definition map_events (events : list MqttEvent) : list MqttEventFFI := map_events_from None events.
End translation.

(** ** The list object and the C accessors *)
Record MqttEventListFFI : Type := { el_events : list MqttEventFFI }.

Definition event_list_len (self : MqttEventListFFI) : Z := as_u32 (zlen (el_events self)).
Definition event_list_is_empty (self : MqttEventListFFI) : bool := bool_decide (el_events self = []).
Definition event_list_get (self : MqttEventListFFI) (index : Z) : option MqttEventFFI :=
  el_events self !! Z.to_nat index.

(** [if let Some(list) = ptr.as_ref() { if let Some(event) = list.events.get(index) { .. } }] *)
Definition event_at (ptr : option MqttEventListFFI) (index : Z) : option MqttEventFFI :=
  list ← ptr; el_events list !! Z.to_nat index.

(** [CString::new(text).unwrap().into_raw()] *)
Definition c_string (text : bytes) : panics bytes := if contains_char text 0 then Panic else Ok text.

Definition mqtt_event_list_len (ptr : option MqttEventListFFI) : Z :=
  match ptr with Some list => zlen (el_events list) | None => 0 end.

Definition mqtt_event_list_get_tag (ptr : option MqttEventListFFI) (index : Z) : Z :=
  match event_at ptr index with
  | Some (FConnected _) => 1
  | Some (FDisconnected _ _) => 2
  | Some (FMessageReceived _) => 3
  | Some (FPublished _) => 4
  | Some (FSubscribed _) => 5
  | Some (FUnsubscribed _) => 6
  | Some (FPingResponse _) => 7
  | Some (FError _) => 8
  | Some FReconnectNeeded => 9
  | Some (FReconnectScheduled _ _) => 10
  | Some (FStreamClosed _ _ _) => 11
  | Some (FStreamReset _ _) => 12
  | Some (FStreamStopped _ _) => 13
  | Some (FAuthReceived _) => 14
  | Some (FPublishReceived _ _) => 15
  | Some (FPubRelReceived _ _) => 16
  | Some (FTransportClosed _ _ _) => 17
  | Some (FZeroRttStatusChanged _) => 18
  | Some (FOperationFailed _ _ _ _ _) => 19
  | None => 0
  end.

Definition mqtt_event_list_get_connected_rc (ptr : option MqttEventListFFI) (index : Z) : Z :=
  match event_at ptr index with Some (FConnected res) => fcr_reason_code res | _ => 0 end.

Definition mqtt_event_list_get_message_topic (ptr : option MqttEventListFFI) (index : Z)
    : panics (option bytes) :=
  match event_at ptr index with
  | Some (FMessageReceived msg) => s ← c_string (fm_topic msg); Ok (Some s)
  | _ => Ok None
  end.

(** The buffer and what is written to [out_len]. *)
Definition mqtt_event_list_get_message_payload (ptr : option MqttEventListFFI) (index : Z)
    : option (bytes * Z) :=
  match event_at ptr index with
  | Some (FMessageReceived msg) => Some (fm_payload msg, zlen (fm_payload msg))
  | _ => None
  end.

Definition mqtt_event_list_get_published_pid (ptr : option MqttEventListFFI) (index : Z) : Z :=
  match event_at ptr index with Some (FPublished res) => default 0 (fpr_packet_id res) | _ => -1 end.
Definition mqtt_event_list_get_subscribed_pid (ptr : option MqttEventListFFI) (index : Z) : Z :=
  match event_at ptr index with Some (FSubscribed res) => fsr_packet_id res | _ => -1 end.

Definition mqtt_event_list_get_stream_id (ptr : option MqttEventListFFI) (index : Z) : Z :=
  match event_at ptr index with
  | Some (FStreamClosed stream_id _ _) | Some (FStreamReset stream_id _)
  | Some (FStreamStopped stream_id _) => stream_id
  | _ => 0
  end.
Definition mqtt_event_list_get_stream_error_code (ptr : option MqttEventListFFI) (index : Z) : Z :=
  match event_at ptr index with
  | Some (FStreamReset _ error_code) | Some (FStreamStopped _ error_code) => error_code
  | _ => 0
  end.
Definition mqtt_event_list_get_stream_closed_by_peer (ptr : option MqttEventListFFI) (index : Z) : Z :=
  match event_at ptr index with
  | Some (FStreamClosed _ _ by_peer) => if by_peer then 1 else 0
  | _ => -1
  end.
(** The two accessors over text that the library makes; a text is its list of bytes. *)
Definition mqtt_event_list_get_error_message (ptr : option MqttEventListFFI) (index : Z)
    : panics (option bytes) :=
  match event_at ptr index with
  | Some (FError message) => s ← c_string (str message); Ok (Some s)
  | _ => Ok None
  end.
Definition mqtt_event_list_get_stream_close_reason (ptr : option MqttEventListFFI) (index : Z)
    : panics (option bytes) :=
  match event_at ptr index with
  | Some (FStreamClosed _ reason _) => s ← c_string (str reason); Ok (Some s)
  | _ => Ok None
  end.

(** ** What the translation keeps *)

(** The stream that the PUBLISH notices among [events] leave for the next message. *)
Definition noted_stream (events : list MqttEvent) (stream : option Z) : option Z :=
  fold_left (λ stream event,
    match event with
    | PublishReceived _ stream => stream
    | MessageReceived _ => None
    | _ => stream
    end) events stream.

Definition with_stream (stream : option Z) (event : MqttEventFFI) : MqttEventFFI :=
  match event with
  | FMessageReceived m => FMessageReceived {|
      fm_stream_id := stream; fm_topic := fm_topic m; fm_payload := fm_payload m; fm_qos := fm_qos m;
      fm_retain := fm_retain m; fm_dup := fm_dup m; fm_packet_id := fm_packet_id m;
      fm_properties := fm_properties m |}
  | event => event
  end.

Section kept.
Context `{!ErrorText, !FfiText}.

Lemma map_event_total event : ∃ f, map_event event = Some f.
Proof. destruct event; simpl; eauto. destruct (failure_kind_ffi error). eauto. Qed.

Lemma map_events_cons stream event events f :
  map_event event = Some f →
  map_events_from stream (event :: events) =
    with_stream stream f :: map_events_from (noted_stream [event] stream) events.
Proof.
  intros Hf. cbn [map_events_from]. rewrite Hf. destruct event; simpl in Hf; try by injection Hf as <-.
  destruct (failure_kind_ffi error). by injection Hf as <-.
Qed.

Lemma map_events_lookup events : ∀ stream i event,
  events !! i = Some event →
  ∃ f, map_event event = Some f ∧
    map_events_from stream events !! i = Some (with_stream (noted_stream (take i events) stream) f).
Proof.
  induction events as [|x events IH]; intros stream i event; [done|]. destruct (map_event_total x) as [f Hf].
  rewrite (map_events_cons _ _ _ _ Hf). destruct i as [|i]; simpl.
  - intros [= <-]. eauto.
  - intros Hi. by apply IH.
Qed.

Lemma map_events_length stream events : length (map_events_from stream events) = length events.
Proof.
  revert stream. induction events as [|x events IH]; intros stream; [done|].
  destruct (map_event_total x) as [f Hf]. rewrite (map_events_cons _ _ _ _ Hf). simpl. by rewrite IH.
Qed.
End kept.

(** No event is lost, added or reordered on the way to a foreign program.  The translated list
    is as long as the engine's, and its [i]-th event is the translation of the engine's [i]-th
    event; a message carries the stream of the last PUBLISH notice before it, unless another
    message came in between, and no other event is changed by what surrounds it. *)
Theorem ffi_events_faithful `{!ErrorText, !FfiText} events :
  length (map_events events) = length events ∧
  ∀ i event, events !! i = Some event →
    ∃ f, map_event event = Some f ∧
      map_events events !! i = Some (with_stream (noted_stream (take i events) None) f).
Proof. split; [apply map_events_length|]. intros i event. apply map_events_lookup. Qed.

(** Two messages on two streams, each after its notice; the second notice is repeated. *)
Definition sample_event_message (topic : string) : MqttPublish5 := {|
  p5_topic_name := str topic; p5_qos := 1; p5_dup := false; p5_retain := false;
  p5_packet_id := Some 3; p5_payload := [7]; p5_properties := [] |}.
Definition sample_ffi_events : list MqttEvent :=
  [PublishReceived (Some 3) (Some 4); MessageReceived (sample_event_message "a");
   PublishReceived (Some 3) (Some 8); ReconnectNeeded; MessageReceived (sample_event_message "b")].

Lemma ffi_events_faithful_witness :
  map_events sample_ffi_events !! 4%nat
  = Some (with_stream (Some 8) (FMessageReceived (message_ffi (sample_event_message "b")))).
Proof.
  destruct (ffi_events_faithful sample_ffi_events) as [_ Hlook].
  destruct (Hlook 4%nat (MessageReceived (sample_event_message "b")) eq_refl) as (f & Hf & Hl).
  injection Hf as <-. exact Hl.
Defined.
