(* ===== verification/FfiEngine.v ===== *)
(** * The objects of the foreign-function interface

    Models [flowsdk_ffi/src/engine.rs], [engine/advanced.rs], [engine/runtime.rs],
    [engine/session.rs] and [engine/quic.rs]: the three objects a foreign program holds, each one
    a core engine behind a lock, with the origin of its clock, the events not taken yet and the
    state of its checkpoint.  What the three share is written once, over the interface
    [HostEngine] that each core engine implements; the types are [MqttEngineFFI],
    [TlsMqttEngineFFI] and [QuicMqttEngineFFI].  A lock is held for one call at a time and is not
    modelled.  [serde_json] is the class [SessionCodec]; building a [rustls]
    configuration from files ([tls_config.rs]) and printing and parsing socket addresses are the
    classes [TlsFiles] and [QuicFiles]. *)
From S2P Require Import Prelude BaseData TopicFilter Validation Properties Packets Framing Codec.
From S2P Require Import Stream Leveled Time PriorityQueue ClientError Options ClientTypes.
From S2P Require Import Commands Inflight ClientSession EngineState EngineCore EngineProtocol.
From S2P Require Import Engine EncodeFacts EngineInv EngineSteps EngineSafety EngineHost.
From S2P Require Import EngineSession QuicState QuicEngine QuicTick TlsEngine.
From S2P Require Import FfiTypes FfiEvents.

(** ** Checkpoints: [session.rs] *)
Record SessionAccess : Type := { sa_explicit_peer : bool; sa_used : bool; sa_restored : bool }.
#[export] Instance Rebuild_SessionAccess : Rebuild SessionAccess := λ s, {|
  sa_explicit_peer := sa_explicit_peer s; sa_used := sa_used s; sa_restored := sa_restored s |}.

Definition SessionAccess_new (explicit_peer : bool) : SessionAccess :=
  {| sa_explicit_peer := explicit_peer; sa_used := false; sa_restored := false |}.
Definition check_identity (self : SessionAccess) : result MqttErrorFFI () :=
  if negb (sa_explicit_peer self)
  then Err (FfiConfiguration "Persistence requires an explicit runtime peer identity") else Ok ().

Class SessionCodec : Type := {
  serde_from_slice : bytes → option ClientSessionState;
  serde_to_vec : ClientSessionState → option bytes;
}.

Record MqttSessionInfoFFI : Type := {
  si_version : Z; si_peer : bytes; si_client_id : bytes; si_mqtt_version : Z;
  si_has_session : bool; si_session_expiry_interval : Z;
}.

Section codec.
Context `{!SessionCodec}.

Definition decode_session (b : bytes) : result MqttErrorFFI ClientSessionState :=
  saved ← (match serde_from_slice b with
           | Some saved => Ok saved
           | None => invalid_ffi "Malformed session checkpoint"
           end);
  if negb (css_version saved =? VERSION)
  then Err (FfiConfiguration "Unsupported session checkpoint version") else Ok saved.

Definition encode_session (saved : ClientSessionState) : result MqttErrorFFI bytes :=
  ok_or (serde_to_vec saved) (FfiEngineError "Session encoding failed").

Definition inspect_session_state (state : bytes) : result MqttErrorFFI MqttSessionInfoFFI :=
  state ← decode_session state;
  Ok {| si_version := css_version state; si_peer := css_peer state;
        si_client_id := css_client_id state; si_mqtt_version := css_mqtt_version state;
        si_has_session := css_has_session state;
        si_session_expiry_interval := css_session_expiry_interval state |}.
End codec.

(** ** What the objects ask of a core engine *)
Class HostEngine (T : Type) `{TimePoint T} (E : Type) : Type := {
  (** [engine()], [engine_mut()] and a method of it that reads the host's clock *)
  he_mqtt : E → MqttEngine T;
  he_mut {A} : St (MqttEngine T) A → St E A;
  he_at {A} : (T → St (MqttEngine T) A) → St E A;
  he_publish : PublishCommand → St E (MqttClientError + option Z);
  he_subscribe : SubscribeCommand → St E (MqttClientError + Z);
  he_unsubscribe : UnsubscribeCommand → St E (MqttClientError + Z);
  he_disconnect_with : Z → list Property → St E (MqttClientError + ());
  he_ping : St E (MqttClientError + ());
  he_take_events : St E (list MqttEvent);
  he_tick : T → St E (list MqttEvent);
  he_set_parse_level : ParseLevel → St E (MqttClientError + ());
}.

Section hosts.
Context {T : Type} `{TimePoint T, !Runtime T}.

#[export] Instance HostEngine_mqtt `{!HostClock T} : HostEngine T (HostedEngine T) := {
  he_mqtt := hd_engine;
  he_mut A := on_hosted;
  he_at A := at_host_reading;
  he_publish command := at_host_reading (publish command);
  he_subscribe command := at_host_reading (subscribe command);
  he_unsubscribe command := at_host_reading (unsubscribe command);
  he_disconnect_with reason ps := at_host_reading (try_disconnect_with reason ps);
  he_ping := at_host_reading try_send_ping;
  he_take_events := on_hosted take_events;
  he_tick now :=
    events ← at_host_reading (handle_incoming []);
    tick_events ← on_hosted (handle_tick now);
    mret (events ++ tick_events);
  he_set_parse_level level := on_hosted (try_set_parse_level level);
}.

#[export] Instance HostEngine_tls `{!Tls, !HostClock T} : HostEngine T (TlsMqttEngine T) := {
  he_mqtt := tq_mqtt_engine;
  he_mut A := on_tls_mqtt;
  he_at A := at_reading;
  he_publish := tls_publish;
  he_subscribe := tls_subscribe;
  he_unsubscribe := tls_unsubscribe;
  he_disconnect_with := tls_try_disconnect_with;
  he_ping := tls_try_send_ping;
  he_take_events := tls_take_events;
  he_tick := tls_handle_tick;
  he_set_parse_level level := on_tls_mqtt (try_set_parse_level level);
}.

#[export] Instance HostEngine_quic `{!Quic T, !QuicHost T} : HostEngine T (QuicMqttEngine T) := {
  he_mqtt := qe_mqtt_engine;
  he_mut A := on_mqtt;
  he_at A := at_instant;
  he_publish := quic_publish;
  he_subscribe := quic_subscribe;
  he_unsubscribe := quic_unsubscribe;
  he_disconnect_with reason ps := disconnect_and_close_with reason ps 0 [];
  he_ping := mqtt_ping;
  he_take_events := quic_take_events;
  he_tick := quic_handle_tick;
  he_set_parse_level level :=
    _ ←? on_mqtt (try_set_parse_level level);
    quic_set_parse_level level;;
    ok ();
}.
End hosts.

(** ** The objects *)
Record FfiObject (T E : Type) : Type := {
  fo_engine : E;
  fo_session : SessionAccess;
  fo_start_time : T;
  fo_events : list MqttEventFFI;
}.
Arguments fo_engine {_ _} _.
Arguments fo_session {_ _} _.
Arguments fo_start_time {_ _} _.
Arguments fo_events {_ _} _.
#[export] Instance Rebuild_FfiObject T E : Rebuild (FfiObject T E) := λ s, {|
  fo_engine := fo_engine s; fo_session := fo_session s; fo_start_time := fo_start_time s;
  fo_events := fo_events s |}.

Definition MqttEngineFFI (T : Type) : Type := FfiObject T (HostedEngine T).
Definition TlsMqttEngineFFI (T : Type) `{Tls} : Type := FfiObject T (TlsMqttEngine T).
Definition QuicMqttEngineFFI (T : Type) `{Quic T} : Type := FfiObject T (QuicMqttEngine T).

Inductive MqttParseLevelFFI : Type := FFull | FHeadersParsed | FTypeOnly.
Definition ParseLevel_from_ffi (level : MqttParseLevelFFI) : ParseLevel :=
  match level with FFull => Full | FHeadersParsed => HeadersParsed | FTypeOnly => TypeOnly end.
Inductive MqttAcknowledgementFFI : Type := FPubAck | FPubRec | FPubComp.

Section object.
Context {T : Type} `{TimePoint T, !Runtime T, !ErrorText, !FfiText, !SessionCodec}.
Context {E : Type} `{!HostEngine T E}.
Implicit Types (self : FfiObject T E).
Local Abbreviation M := (St (FfiObject T E)).

(** [self.engine.lock().unwrap().f()], and with [.map_err(Into::into)]. *)
Definition on_core {A} (m : St E A) : M A :=
  zoom fo_engine (λ engine self, self <| fo_engine := engine |>) m.
Definition core_try {A} (m : St E (MqttClientError + A)) : M (MqttErrorFFI + A) :=
  r ← on_core m; mret match r with inl error => inl (MqttErrorFFI_from error) | inr a => inr a end.
(** [f()?] of a check of the bindings. *)
Definition checked {A} (r : result MqttErrorFFI A) : M (MqttErrorFFI + A) :=
  match r with Ok a => mret (inr a) | Err e => mret (inl e) | Panic => λ _, Panic end.
Definition started : M () := modify (λ self, self <| fo_session ::= λ s, s <| sa_used := true |> |>).
Definition on_events (f : list MqttEventFFI → list MqttEventFFI) : M () :=
  modify (λ self, self <| fo_events ::= f |>).
Definition push_event_ffi (event : MqttEventFFI) : M () := on_events (λ l, l ++ [event]).

Definition core self : MqttEngine T := he_mqtt (fo_engine self).
Definition get_version self : Z := MqttEngine_mqtt_version (core self).
Definition ffi_is_connected self : bool := MqttEngine_is_connected (core self).

(** A [u16] as the [i32] that the short calls return; -1 stands for any error. *)
Definition packet_code (r : MqttErrorFFI + Z) : Z := match r with inr id => id | inl _ => -1 end.

Definition elapsed_ms (reading : T) self : Z :=
  (tp_saturating_duration_since reading (fo_start_time self) / 1000000) `mod` 18446744073709551616.

(** Events that a call returns stay queued for [take_events]. *)
Definition deliver (events : list MqttEvent) : M (list MqttEventFFI) :=
  let mapped := map_events events in
  on_events (λ l, l ++ mapped);;
  mret mapped.

Definition ffi_handle_tick (now_ms : Z) : M (list MqttEventFFI) :=
  started;;
  self ← get_st;
  match instant_at (fo_start_time self) now_ms with
  | Ok now =>
      events ← on_core (he_tick now);
      deliver events
  | Err error =>
      let events := [FError (MqttErrorFFI_to_string error)] in
      on_events (λ l, l ++ events);;
      mret events
  | Panic => λ _, Panic
  end.

Definition ffi_take_events : M (list MqttEventFFI) :=
  self ← get_st;
  on_events (λ _, []);;
  engine_events ← on_core he_take_events;
  mret (fo_events self ++ map_events engine_events).

Definition ffi_ping : M (MqttErrorFFI + ()) := core_try he_ping.

Definition auth_with_properties (reason_code : Z) (properties : list MqttPropertyFFI)
    : M (MqttErrorFFI + ()) :=
  self ← get_st;
  properties ←? checked (validate properties (get_version self) auth_allowed);
  core_try (he_at (try_auth reason_code properties)).
Definition ffi_auth (reason_code : Z) : M (MqttErrorFFI + ()) := auth_with_properties reason_code [].

Definition publish_with_options (topic payload : bytes) (options : MqttPublishOptionsFFI)
    : M (MqttErrorFFI + option Z) :=
  self ← get_st;
  command ←? checked (publish_command_ffi options topic payload (get_version self) true);
  core_try (he_publish command).
Definition ffi_publish (topic payload : bytes) (qos : Z) (priority : option Z) : M Z :=
  r ← publish_with_options topic payload
        {| fp_qos := qos; fp_retain := fp_retain MqttPublishOptionsFFI_default;
           fp_priority := priority; fp_properties := fp_properties MqttPublishOptionsFFI_default |};
  mret match r with inr pid => default 0 pid | inl _ => -1 end.

Definition subscribe_with_options (options : MqttSubscribeOptionsFFI) : M (MqttErrorFFI + Z) :=
  self ← get_st;
  command ←? checked (subscribe_command_ffi options (get_version self));
  core_try (he_subscribe command).
Definition ffi_subscribe (topic_filter : bytes) (qos : Z) : M Z :=
  r ← subscribe_with_options
    {| fso_subscriptions :=
         [{| fs_topic_filter := topic_filter; fs_qos := qos;
             fs_no_local := fs_no_local MqttSubscriptionFFI_default;
             fs_retain_as_published := fs_retain_as_published MqttSubscriptionFFI_default;
             fs_retain_handling := fs_retain_handling MqttSubscriptionFFI_default |}];
       fso_properties := [] |};
  mret (packet_code r).

Definition unsubscribe_with_options (options : MqttUnsubscribeOptionsFFI) : M (MqttErrorFFI + Z) :=
  self ← get_st;
  command ←? checked (unsubscribe_command_ffi options (get_version self));
  core_try (he_unsubscribe command).
Definition ffi_unsubscribe (topic_filter : bytes) : M Z :=
  r ← unsubscribe_with_options {| fuo_topics := [topic_filter]; fuo_properties := [] |};
  mret (packet_code r).

Definition disconnect_with_options (options : MqttDisconnectOptionsFFI) : M (MqttErrorFFI + ()) :=
  self ← get_st;
  properties ←? checked (validate (fd_properties options) (get_version self) disconnect_allowed);
  core_try (he_disconnect_with (fd_reason_code options) properties).
Definition ffi_disconnect : M (MqttErrorFFI + ()) :=
  disconnect_with_options MqttDisconnectOptionsFFI_default.

(** *** [runtime.rs] *)
Definition clear_reconnect_events : M () :=
  on_events (List.filter (λ e,
    match e with FReconnectNeeded | FReconnectScheduled _ _ => false | _ => true end)).
Definition ffi_set_reconnect (enabled : bool) : M () :=
  on_core (he_mut (set_reconnect enabled));;
  if negb enabled then clear_reconnect_events else mret ().

(** *** [advanced.rs] *)
Definition ffi_set_parse_level (level : MqttParseLevelFFI) : M (MqttErrorFFI + ()) :=
  core_try (he_set_parse_level (ParseLevel_from_ffi level)).

Definition acknowledgement_properties (engine : MqttEngine T) (kind : MqttAcknowledgementFFI)
    (packet_id reason_code : Z) (properties : list MqttPropertyFFI)
    : result MqttErrorFFI (list Property) :=
  if mo_auto_ack (me_options engine)
  then invalid_ffi "Manual acknowledgements require auto_ack=False" else
  if packet_id =? 0 then invalid_ffi "Packet ID must be nonzero" else
  properties ← validate properties (MqttEngine_mqtt_version engine) ack_allowed;
  let valid := match kind with
               | FPubComp => bool_decide (reason_code ∈ [0; 146])
               | _ => bool_decide (reason_code ∈ [0; 16; 128; 131; 135; 144; 145; 151; 153])
               end in
  if negb valid || (negb (MqttEngine_mqtt_version engine =? 5) && negb (reason_code =? 0))
  then invalid_ffi "Invalid acknowledgement reason code for this packet/version" else
  Ok properties.

Definition acknowledge_received (kind : MqttAcknowledgementFFI) (packet_id reason_code : Z)
    (properties : list MqttPropertyFFI) : M (MqttErrorFFI + ()) :=
  self ← get_st;
  properties ←? checked (acknowledgement_properties (core self) kind packet_id reason_code properties);
  core_try match kind with
           | FPubAck => he_at (puback packet_id reason_code properties)
           | FPubRec => he_at (pubrec packet_id reason_code properties)
           | FPubComp => he_at (pubcomp packet_id reason_code properties)
           end.

(** Of the objects without streams. *)
Definition ffi_acknowledge (kind : MqttAcknowledgementFFI) (packet_id reason_code : Z)
    (properties : list MqttPropertyFFI) (stream_id : option Z) : M (MqttErrorFFI + ()) :=
  match stream_id with
  | Some _ => mret (inl (FfiInvalidArgument "Stream IDs require QUIC"))
  | None => acknowledge_received kind packet_id reason_code properties
  end.

(** *** [session.rs] *)

(** [SessionAccess::restore] *)
Definition session_restore (saved : ClientSessionState) : M (MqttErrorFFI + ()) :=
  self ← get_st;
  _ ←? checked (check_identity (fo_session self));
  if sa_used (fo_session self) || sa_restored (fo_session self)
  then mret (inl (FfiEngineError "Restore requires a fresh engine before transport startup")) else
  r ← on_core (he_mut (restore_session_state saved));
  match r with
  | inl (InvalidConfiguration _ _ as error) => mret (inl (FfiConfiguration (user_message error)))
  | inl error => mret (inl (MqttErrorFFI_from error))
  | inr () =>
      modify (λ self, self <| fo_session ::= λ s, s <| sa_restored := true |> |>);;
      mret (inr ())
  end.

Definition ffi_snapshot_session self : result MqttErrorFFI bytes :=
  _ ← check_identity (fo_session self);
  saved ← (match snapshot_session (core self) with
           | Ok saved => Ok saved
           | Err error => Err (MqttErrorFFI_from error)
           | Panic => Panic
           end);
  encode_session saved.

Definition ffi_restore_session_state (state : bytes) : M (MqttErrorFFI + ()) :=
  saved ←? checked (decode_session state);
  session_restore saved.
End object.

(** ** [MqttEngineFFI] *)
Definition MqttOptionsFFI_named (client_id : option bytes) (mqtt_version : Z) : MqttOptionsFFI :=
  {| fmo_client_id := default (str "mqtt_client") client_id; fmo_mqtt_version := mqtt_version;
     fmo_clean_start := true; fmo_keep_alive := 60; fmo_username := None; fmo_password := None;
     fmo_reconnect_base_delay_ms := 1000; fmo_reconnect_max_delay_ms := 60000;
     fmo_max_reconnect_attempts := 0 |}.

Section mqtt_object.
Context {T : Type} `{TimePoint T, !Runtime T, !ErrorText, !FfiText, !SessionCodec, !HostClock T}.
Implicit Types (self : MqttEngineFFI T).
Local Abbreviation M := (St (MqttEngineFFI T)).

(** The readings of the clock: those of the timeouts, the engine's and the origin's. *)
Definition ffi_new_with_runtime_options (opts : MqttConnectOptionsFFI)
    (runtime : MqttRuntimeOptionsFFI) : result MqttErrorFFI (MqttEngineFFI T) :=
  options ← into_core opts;
  let session := SessionAccess_new (bool_decide (is_Some (fr_peer runtime))) in
  '(options, readings) ← runtime_options_apply clock_reading runtime options 0;
  let engine := MqttEngine_new options (clock_reading readings) in
  Ok {| fo_engine := {| hd_engine := engine; hd_readings := S (S readings) |};
        fo_session := session; fo_start_time := clock_reading (S readings); fo_events := [] |}.
Definition ffi_new_with_options (opts : MqttConnectOptionsFFI) : result MqttErrorFFI (MqttEngineFFI T) :=
  ffi_new_with_runtime_options opts MqttRuntimeOptionsFFI_default.
Definition ffi_new_with_opts (opts : MqttOptionsFFI) : result MqttErrorFFI (MqttEngineFFI T) :=
  ffi_new_with_options (MqttConnectOptionsFFI_from opts).
Definition ffi_new (client_id : option bytes) (mqtt_version : Z)
    : result MqttErrorFFI (MqttEngineFFI T) :=
  ffi_new_with_opts (MqttOptionsFFI_named client_id mqtt_version).

Definition ffi_handle_connection_lost : M () := on_core (he_at handle_connection_lost).

Definition ffi_connect : M () :=
  started;;
  on_core (he_at reset_for_new_transport);;
  on_events (λ _, []);;
  r ← on_core (he_at connect);
  match r with
  | inl error => on_events (λ l, l ++ map_events [ErrorEvent error])
  | inr () => mret ()
  end.

Definition ffi_handle_incoming (data : bytes) : M (list MqttEventFFI) :=
  started;;
  events ← on_core (he_at (handle_incoming data));
  deliver events.

(** [as i64] of the milliseconds. *)
Definition next_tick_ms self : panics Z :=
  tick ← next_tick_at (core self);
  Ok match tick with
     | Some tick =>
         if ord_le tick (fo_start_time self) then 0
         else (tp_saturating_duration_since tick (fo_start_time self) / 1000000 + 9223372036854775808)
                `mod` 18446744073709551616 - 9223372036854775808
     | None => -1
     end.

Definition ffi_take_outgoing : M bytes := on_core (he_at take_outgoing).
Definition ffi_disconnect_complete self : bool := negb (ffi_is_connected self).

(** Does not reset transport state or discard pending events on error. *)
Definition connect_checked : M (MqttErrorFFI + ()) := started;; core_try (he_at connect).
Definition ffi_reset_for_new_transport : M () :=
  started;; on_core (he_at reset_for_new_transport).
Definition ffi_has_pending_output self : bool := has_pending_output (core self).
Definition ffi_schedule_reconnect (now_ms : Z) : M (MqttErrorFFI + ()) :=
  self ← get_st;
  now ←? checked (instant_at (fo_start_time self) now_ms);
  on_core (he_mut (schedule_reconnect now));;
  mret (inr ()).
End mqtt_object.

(** ** [TlsMqttEngineFFI] *)
Record MqttTlsOptionsFFI : Type := {
  fto_ca_cert_file : option bytes;
  fto_client_cert_file : option bytes;
  fto_client_key_file : option bytes;
  fto_insecure_skip_verify : bool;
  fto_alpn_protocols : list bytes;
  fto_enable_key_log : bool;
}.

Class TlsFiles `{Tls} : Type := tls_client_config : MqttTlsOptionsFFI → result MqttErrorFFI TlsConfig.

Section tls_object.
Context {T : Type} `{TimePoint T, !Runtime T, !ErrorText, !FfiText, !SessionCodec, !HostClock T}.
Context `{!Tls, !TlsFiles}.
Implicit Types (self : TlsMqttEngineFFI T).
Local Abbreviation M := (St (TlsMqttEngineFFI T)).

Definition tls_ffi_new_with_runtime_options (opts : MqttConnectOptionsFFI)
    (runtime : MqttRuntimeOptionsFFI) (tls_opts : MqttTlsOptionsFFI) (server_name : bytes)
    : result MqttErrorFFI (TlsMqttEngineFFI T) :=
  config ← tls_client_config tls_opts;
  options ← into_core opts;
  let session := SessionAccess_new (bool_decide (is_Some (fr_peer runtime))) in
  '(options, readings) ← runtime_options_apply clock_reading runtime options 0;
  match TlsMqttEngine_new options server_name config readings with
  | inl error => Err (MqttErrorFFI_from error)
  | inr engine =>
      Ok {| fo_engine := engine <| tq_readings ::= S |>; fo_session := session;
            fo_start_time := clock_reading (tq_readings engine); fo_events := [] |}
  end.
Definition tls_ffi_new_with_options (opts : MqttConnectOptionsFFI) (tls_opts : MqttTlsOptionsFFI)
    (server_name : bytes) : result MqttErrorFFI (TlsMqttEngineFFI T) :=
  tls_ffi_new_with_runtime_options opts MqttRuntimeOptionsFFI_default tls_opts server_name.
Definition tls_ffi_new (opts : MqttOptionsFFI) (tls_opts : MqttTlsOptionsFFI) (server_name : bytes)
    : result MqttErrorFFI (TlsMqttEngineFFI T) :=
  tls_ffi_new_with_options (MqttConnectOptionsFFI_from opts) tls_opts server_name.

Definition ffi_handle_socket_data (data : bytes) : M (MqttErrorFFI + ()) :=
  started;; core_try (handle_socket_data data).
Definition ffi_take_socket_data : M bytes := started;; on_core take_socket_data.

Definition tls_ffi_connect : M (MqttErrorFFI + ()) :=
  started;;
  _ ←? core_try tls_reset_for_new_transport;
  on_events (λ _, []);;
  core_try tls_connect.
Definition tls_ffi_handle_connection_lost : M () := on_core tls_handle_connection_lost.
Definition tls_ffi_disconnect_complete self : bool := tls_disconnect_complete (fo_engine self).

Definition tls_ffi_connect_checked : M (MqttErrorFFI + ()) := started;; core_try tls_connect.
(** Recreates TLS state as well as the MQTT transport state. *)
Definition tls_ffi_reset_for_new_transport : M (MqttErrorFFI + ()) :=
  started;; core_try tls_reset_for_new_transport.

(** The methods whose text is that of [MqttEngineFFI]. *)
Definition tls_ffi_handle_tick : Z → M (list MqttEventFFI) := ffi_handle_tick.
Definition tls_ffi_take_events : M (list MqttEventFFI) := ffi_take_events.
Definition tls_ffi_ping : M (MqttErrorFFI + ()) := ffi_ping.
Definition tls_ffi_auth_with_properties : Z → list MqttPropertyFFI → M (MqttErrorFFI + ()) :=
  auth_with_properties.
Definition tls_ffi_auth : Z → M (MqttErrorFFI + ()) := ffi_auth.
Definition tls_ffi_publish (topic payload : bytes) (qos : Z) : M Z := ffi_publish topic payload qos None.
Definition tls_ffi_publish_with_options
    : bytes → bytes → MqttPublishOptionsFFI → M (MqttErrorFFI + option Z) := publish_with_options.
Definition tls_ffi_subscribe : bytes → Z → M Z := ffi_subscribe.
Definition tls_ffi_subscribe_with_options : MqttSubscribeOptionsFFI → M (MqttErrorFFI + Z) :=
  subscribe_with_options.
Definition tls_ffi_unsubscribe : bytes → M Z := ffi_unsubscribe.
Definition tls_ffi_unsubscribe_with_options : MqttUnsubscribeOptionsFFI → M (MqttErrorFFI + Z) :=
  unsubscribe_with_options.
Definition tls_ffi_disconnect : M (MqttErrorFFI + ()) := ffi_disconnect.
Definition tls_ffi_disconnect_with_options : MqttDisconnectOptionsFFI → M (MqttErrorFFI + ()) :=
  disconnect_with_options.
Definition tls_ffi_is_connected : TlsMqttEngineFFI T → bool := ffi_is_connected.
Definition tls_ffi_set_reconnect : bool → M () := ffi_set_reconnect.
Definition tls_ffi_set_parse_level : MqttParseLevelFFI → M (MqttErrorFFI + ()) := ffi_set_parse_level.
Definition tls_ffi_acknowledge
    : MqttAcknowledgementFFI → Z → Z → list MqttPropertyFFI → option Z → M (MqttErrorFFI + ()) :=
  ffi_acknowledge.
Definition tls_ffi_snapshot_session : TlsMqttEngineFFI T → result MqttErrorFFI bytes :=
  ffi_snapshot_session.
Definition tls_ffi_restore_session_state : bytes → M (MqttErrorFFI + ()) := ffi_restore_session_state.
End tls_object.

(** ** [QuicMqttEngineFFI] *)
Record QuicZeroRttOptionsFFI : Type := { fz_session_cache_size : Z; fz_replay_on_reject : bool }.
Record MqttDatagramFFI : Type := { dg_addr : bytes; dg_data : bytes }.

Class QuicFiles (T : Type) `{Quic T} : Type := {
  quic_crypto_config : MqttTlsOptionsFFI → result MqttErrorFFI CryptoConfig;
  socket_addr_parse : bytes → string + SocketAddr;
  socket_addr_to_string : SocketAddr → bytes;
}.

Section quic_object.
Context {T : Type} `{TimePoint T, !Runtime T, !ErrorText, !FfiText, !SessionCodec}.
Context `{!Quic T, !QuicHost T, !QuicFiles T}.
Implicit Types (self : QuicMqttEngineFFI T).
Local Abbreviation M := (St (QuicMqttEngineFFI T)).

(** [clock] has the readings that check the timeouts, before the engine's first one. *)
Definition quic_ffi_new_with_runtime_options (clock : nat → T) (opts : MqttConnectOptionsFFI)
    (runtime : MqttRuntimeOptionsFFI) : result MqttErrorFFI (QuicMqttEngineFFI T) :=
  options ← into_core opts;
  let session := SessionAccess_new (bool_decide (is_Some (fr_peer runtime))) in
  '(options, _) ← runtime_options_apply clock runtime options 0;
  let engine := QuicMqttEngine_new options in
  Ok {| fo_engine := engine <| qe_readings ::= S |>; fo_session := session;
        fo_start_time := instant_now (qe_readings engine); fo_events := [] |}.
Definition quic_ffi_new_with_options (clock : nat → T) (opts : MqttConnectOptionsFFI)
    : result MqttErrorFFI (QuicMqttEngineFFI T) :=
  quic_ffi_new_with_runtime_options clock opts MqttRuntimeOptionsFFI_default.
Definition quic_ffi_new (clock : nat → T) (opts : MqttOptionsFFI)
    : result MqttErrorFFI (QuicMqttEngineFFI T) :=
  quic_ffi_new_with_options clock (MqttConnectOptionsFFI_from opts).

Definition parse_addr (addr : bytes) : result MqttErrorFFI SocketAddr :=
  match socket_addr_parse addr with inl e => Err (FfiInvalidArgument e) | inr addr => Ok addr end.

Definition transport_active {A} : MqttErrorFFI + A :=
  inl (FfiEngineError "QUIC transport is already active; close it before connecting").

Definition quic_ffi_connect (server_addr server_name : bytes) (tls_opts : MqttTlsOptionsFFI)
    (now_ms : Z) : M (MqttErrorFFI + ()) :=
  started;;
  addr ←? checked (parse_addr server_addr);
  self ← get_st;
  now ←? checked (instant_at (fo_start_time self) now_ms);
  config ←? checked (quic_crypto_config tls_opts);
  if negb (disconnect_complete (fo_engine self)) then mret transport_active else
  core_try (quic_connect addr server_name config now).

Definition connect_with_zero_rtt (server_addr server_name : bytes) (tls_opts : MqttTlsOptionsFFI)
    (options : QuicZeroRttOptionsFFI) (now_ms : Z) : M (MqttErrorFFI + ()) :=
  started;;
  if fz_session_cache_size options =? 0
  then mret (inl (FfiInvalidArgument "Session cache size must be positive")) else
  addr ←? checked (parse_addr server_addr);
  config ←? checked (quic_crypto_config tls_opts);
  self ← get_st;
  if negb (disconnect_complete (fo_engine self)) then mret transport_active else
  now ←? checked (instant_at (fo_start_time self) now_ms);
  core_try (quic_connect_with_zero_rtt addr server_name config
    {| zc_session_cache_size := fz_session_cache_size options;
       zc_replay_on_reject := fz_replay_on_reject options |} now).

Definition ffi_handle_datagram (data remote_addr : bytes) (now_ms : Z) : M (MqttErrorFFI + ()) :=
  started;;
  addr ←? checked (parse_addr remote_addr);
  self ← get_st;
  now ←? checked (instant_at (fo_start_time self) now_ms);
  on_core (handle_datagram data addr now);;
  mret (inr ()).

Definition ffi_take_outgoing_datagrams : M (list MqttDatagramFFI) :=
  started;;
  datagrams ← on_core take_outgoing_datagrams;
  mret ((λ '(addr, data), {| dg_addr := socket_addr_to_string addr; dg_data := data |}) <$> datagrams).

Definition ffi_zero_rtt_status self : QuicZeroRttStatusFFI :=
  QuicZeroRttStatusFFI_from (zero_rtt_status (fo_engine self)).
Definition ffi_reconnect (now_ms : Z) : M (MqttErrorFFI + ()) :=
  started;;
  self ← get_st;
  now ←? checked (instant_at (fo_start_time self) now_ms);
  core_try (quic_reconnect now).
Definition ffi_notify_local_address_changed : M (MqttErrorFFI + ()) := core_try notify_local_address_changed.
Definition ffi_quic_ping : M (MqttErrorFFI + ()) := core_try quic_ping.
Definition ffi_open_data_stream : M (MqttErrorFFI + Z) := core_try open_data_stream.
Definition ffi_control_stream_id self : option Z := control_stream_id (fo_engine self).
Definition ffi_data_stream_count self : Z := data_stream_count (fo_engine self).
Definition ffi_set_stream_priority (stream_id priority : Z) : M (MqttErrorFFI + ()) :=
  core_try (set_stream_priority stream_id priority).
Definition ffi_finish_stream (stream_id : Z) : M (MqttErrorFFI + ()) := core_try (finish_stream stream_id).
Definition ffi_reset_stream (stream_id error_code : Z) : M (MqttErrorFFI + ()) :=
  core_try (reset_stream stream_id error_code).
Definition ffi_stop_stream (stream_id error_code : Z) : M (MqttErrorFFI + ()) :=
  core_try (stop_stream stream_id error_code).
Definition close_transport (error_code : Z) (reason : bytes) : M (MqttErrorFFI + ()) :=
  core_try (quic_close error_code reason).
Definition ffi_close_silent : M () := on_core close_silent.

Definition ffi_publish_on (stream_id : Z) (topic payload : bytes) (options : MqttPublishOptionsFFI)
    : M (MqttErrorFFI + option Z) :=
  self ← get_st;
  command ←? checked (publish_command_ffi options topic payload (get_version self) true);
  _ ←? match fp_priority options with
       | Some priority => core_try (set_stream_priority stream_id priority)
       | None => mret (inr ())
       end;
  core_try (quic_publish_on stream_id command).
Definition ffi_subscribe_on (stream_id : Z) (options : MqttSubscribeOptionsFFI) : M (MqttErrorFFI + Z) :=
  self ← get_st;
  command ←? checked (subscribe_command_ffi options (get_version self));
  core_try (quic_subscribe_on stream_id command).
Definition ffi_unsubscribe_on (stream_id : Z) (options : MqttUnsubscribeOptionsFFI)
    : M (MqttErrorFFI + Z) :=
  self ← get_st;
  command ←? checked (unsubscribe_command_ffi options (get_version self));
  core_try (quic_unsubscribe_on stream_id command).
Definition ffi_subscribe_on_control (options : MqttSubscribeOptionsFFI) : M (MqttErrorFFI + Z) :=
  self ← get_st;
  command ←? checked (subscribe_command_ffi options (get_version self));
  core_try (subscribe_on_control command).
Definition ffi_unsubscribe_on_control (options : MqttUnsubscribeOptionsFFI) : M (MqttErrorFFI + Z) :=
  self ← get_st;
  command ←? checked (unsubscribe_command_ffi options (get_version self));
  core_try (unsubscribe_on_control command).

(** The packet that [acknowledge] sends on a stream. *)
Definition acknowledgement_packet (version : Z) (kind : MqttAcknowledgementFFI)
    (packet_id reason_code : Z) (properties : list Property) : MqttPacket :=
  let v5 := {| a5_packet_id := packet_id; a5_reason_code := reason_code; a5_properties := properties |} in
  let v3 := {| a3_message_id := packet_id |} in
  if version =? 5 then
    match kind with FPubAck => PubAck5 v5 | FPubRec => PubRec5 v5 | FPubComp => PubComp5 v5 end
  else match kind with FPubAck => PubAck3 v3 | FPubRec => PubRec3 v3 | FPubComp => PubComp3 v3 end.

Definition quic_ffi_acknowledge (kind : MqttAcknowledgementFFI) (packet_id reason_code : Z)
    (properties : list MqttPropertyFFI) (stream_id : option Z) : M (MqttErrorFFI + ()) :=
  self ← get_st;
  properties ←? checked (acknowledgement_properties (core self) kind packet_id reason_code properties);
  let packet := acknowledgement_packet (get_version self) kind packet_id reason_code properties in
  match (match stream_id with Some id => Some id | None => control_stream_id (fo_engine self) end) with
  | Some stream => core_try (acknowledge_on stream packet)
  | None => mret (inl (FfiInvalidArgument "QUIC has no control stream"))
  end.

Definition quic_ffi_disconnect_complete self : bool := disconnect_complete (fo_engine self).

(** The methods whose text is that of [MqttEngineFFI]. *)
Definition quic_ffi_handle_tick : Z → M (list MqttEventFFI) := ffi_handle_tick.
Definition quic_ffi_take_events : M (list MqttEventFFI) := ffi_take_events.
Definition quic_ffi_ping : M (MqttErrorFFI + ()) := ffi_ping.
Definition quic_ffi_auth_with_properties : Z → list MqttPropertyFFI → M (MqttErrorFFI + ()) :=
  auth_with_properties.
Definition quic_ffi_auth : Z → M (MqttErrorFFI + ()) := ffi_auth.
Definition quic_ffi_publish (topic payload : bytes) (qos : Z) : M Z := ffi_publish topic payload qos None.
Definition quic_ffi_publish_with_options
    : bytes → bytes → MqttPublishOptionsFFI → M (MqttErrorFFI + option Z) := publish_with_options.
Definition quic_ffi_subscribe : bytes → Z → M Z := ffi_subscribe.
Definition quic_ffi_subscribe_with_options : MqttSubscribeOptionsFFI → M (MqttErrorFFI + Z) :=
  subscribe_with_options.
Definition quic_ffi_unsubscribe : bytes → M Z := ffi_unsubscribe.
Definition quic_ffi_unsubscribe_with_options : MqttUnsubscribeOptionsFFI → M (MqttErrorFFI + Z) :=
  unsubscribe_with_options.
Definition quic_ffi_disconnect : M (MqttErrorFFI + ()) := ffi_disconnect.
Definition quic_ffi_disconnect_with_options : MqttDisconnectOptionsFFI → M (MqttErrorFFI + ()) :=
  disconnect_with_options.
Definition quic_ffi_is_connected : QuicMqttEngineFFI T → bool := ffi_is_connected.
Definition quic_ffi_set_reconnect : bool → M () := ffi_set_reconnect.
Definition quic_ffi_set_parse_level : MqttParseLevelFFI → M (MqttErrorFFI + ()) := ffi_set_parse_level.
Definition quic_ffi_snapshot_session : QuicMqttEngineFFI T → result MqttErrorFFI bytes :=
  ffi_snapshot_session.
Definition quic_ffi_restore_session_state : bytes → M (MqttErrorFFI + ()) := ffi_restore_session_state.
End quic_object.
