(* ===== verification/FfiSafety.v ===== *)
(** * The objects of the foreign-function interface never panic

    [HostEngineLaws] is what an object needs of its core engine: an invariant that every
    operation keeps.  The methods the objects share are proved once against it; the protocol
    engine, the engine over TLS and the engine over QUIC discharge it, and each object's own
    methods follow. *)
From S2P Require Import Prelude BaseData TopicFilter Validation Properties Packets Framing Codec.
From S2P Require Import Stream Leveled Time PriorityQueue ClientError Options ClientTypes.
From S2P Require Import Commands Inflight ClientSession EngineState EngineCore EngineProtocol.
From S2P Require Import Engine EncodeFacts EngineInv EngineSteps EngineQueues EngineHandlers.
From S2P Require Import EngineConnect EngineReceive EngineInput EngineSafety EngineTimers EngineHost HostSafety.
From S2P Require Import EngineSession QuicState QuicEngine QuicTick QuicScript QuicSafety QuicTickSafety.
From S2P Require Import TlsEngine TlsSafety FfiTypes FfiFacts FfiOptions FfiEvents FfiEngine.

(** ** The interface *)
Class HostEngineLaws (T : Type) `{TimePoint T} (E : Type) `{!HostEngine T E} : Type := {
  he_ok : Z → E → Prop;
  (** What one call can add to the reconnection attempts, which the bound [B] limits. *)
  he_step : Z;
  he_step_pos : 2 <= he_step;
  he_ok_mono B B' e : he_ok B e → B <= B' → he_ok B' e;
  he_ok_engine B e : he_ok B e → in_order B (he_mqtt e);
  he_mut_ok {A} B B' (m : St (MqttEngine T) A) :
    preserves (in_order B) (in_order B') m → preserves (he_ok B) (he_ok B') (he_mut m);
  he_at_ok {A} B B' (m : T → St (MqttEngine T) A) :
    (∀ sample, preserves (in_order B) (in_order B') (m sample)) →
    preserves (he_ok B) (he_ok B') (he_at m);
  he_publish_ok B c : B + he_step < u32_MAX → publish_command_ok c →
    preserves (he_ok B) (he_ok (B + he_step)) (he_publish c);
  he_subscribe_ok B c : B + he_step < u32_MAX → wf_opt is_u16 (sc_packet_id c) →
    preserves (he_ok B) (he_ok (B + he_step)) (he_subscribe c);
  he_unsubscribe_ok B c : B + he_step < u32_MAX → wf_opt is_u16 (uc_packet_id c) →
    preserves (he_ok B) (he_ok (B + he_step)) (he_unsubscribe c);
  he_disconnect_ok B reason ps : B + he_step < u32_MAX →
    preserves (he_ok B) (he_ok (B + he_step)) (he_disconnect_with reason ps);
  he_ping_ok B : B + he_step < u32_MAX → preserves (he_ok B) (he_ok (B + he_step)) he_ping;
  he_take_events_ok B : B + he_step < u32_MAX →
    preserves (he_ok B) (he_ok (B + he_step)) he_take_events;
  he_tick_ok B now : B + he_step < u32_MAX → preserves (he_ok B) (he_ok (B + he_step)) (he_tick now);
  he_set_parse_level_ok B level : B + he_step < u32_MAX →
    preserves (he_ok B) (he_ok (B + he_step)) (he_set_parse_level level);
}.

(** An error of the first part leaves what the first part left. *)
Lemma preserves_try_steps {S X A C} (I J K : S → Prop) (m : St S (X + A)) (f : A → St S (X + C)) :
  preserves I J m → (∀ s, J s → K s) → (∀ a, preserves J K (f a)) → preserves I K (try_bind f m).
Proof.
  intros Hm HJK Hf s Hs. apply runs_try_bind. eapply runs_mono; [by apply Hm|].
  intros [x|a] s' Hs'; [by apply HJK|by apply Hf].
Qed.

(** ** Methods of the protocol engine that the objects call directly *)
Section direct.
Context {T : Type} `{TimePointLaws T} `{!Runtime T} `{!RuntimeLaws T}.
Context (B : Z) (HB : B + 1 < u32_MAX).

Lemma host_up {A} (m : St (MqttEngine T) A) :
  preserves (in_order B) (in_order B) m → preserves (in_order B) (in_order (B + 1)) m.
Proof. intros Hm. eapply preserves_weaken; [exact Hm|done|]. intros e He. eapply in_order_mono; [done|lia]. Qed.
Lemma call_up {A} call sample (m : T → St (MqttEngine T) A) :
  (∀ now, run_call call now = ignore (m now)) → call_ok call →
  preserves (in_order B) (in_order (B + 1)) (at_host sample m).
Proof. intros Hm Hc. apply (host_call B (B + 1) call); try done; [lia..|destruct call; simpl; lia]. Qed.
Lemma restore_order state :
  typed_saved state → preserves (in_order B) (in_order B) (restore_session_state (T:=T) state).
Proof.
  intros Ht e He. destruct (restore_in_order B e state He Ht) as (r & e' & Hr & Ho & _).
  unfold runs. by rewrite Hr.
Qed.
Lemma set_reconnect_order enabled :
  preserves (in_order B) (in_order (B + 1)) (set_reconnect (T:=T) enabled).
Proof.
  intros e He. by apply (run_call_order B (B + 1) ltac:(lia) ltac:(lia) (CallSetReconnect enabled) (me_now e)); simpl; try lia.
Qed.
Lemma try_set_parse_level_order level :
  preserves (in_order B) (in_order B) (try_set_parse_level (T:=T) level).
Proof.
  apply ignored. intros e He.
  by apply (run_call_order B B ltac:(lia) ltac:(lia) (CallTrySetParseLevel level) (me_now e)); simpl; try lia.
Qed.
Lemma schedule_order now : preserves (in_order B) (in_order (B + 1)) (schedule_reconnect (T:=T) now).
Proof. apply report_error_preserves. by apply (call_up CallScheduleReconnect). Qed.
End direct.

(** ** The three core engines *)

(** A connection has at most [quic_events] events ready at a time. *)
Class QuicEventBound (T : Type) `{Quic T} : Type := {
  quic_events : Z;
  quic_events_nonneg : 0 <= quic_events;
  quic_events_bound (c : Connection) : Z.of_nat (events_left c) <= quic_events;
}.
Arguments quic_events _ {_ _}.
Arguments quic_events_nonneg _ {_ _}.

Section engines.
Context {T : Type} `{TimePointLaws T} `{!Runtime T} `{!RuntimeLaws T}.

Section mqtt.
Context `{!HostClock T}.
#[export] Program Instance HostEngineLaws_mqtt : HostEngineLaws T (HostedEngine T) := {
  he_ok := hosted_ok; he_step := 2 }.
Next Obligation. done. Qed.
Next Obligation. intros B B' e He HB. by eapply in_order_mono. Qed.
Next Obligation. done. Qed.
Next Obligation. intros A B B' m Hm. by apply on_hosted_ok. Qed.
Next Obligation. intros A B B' m Hm. by apply at_host_reading_ok. Qed.
Next Obligation. intros B c HB Hc. by apply (hosted_call B (CallPublish c)). Qed.
Next Obligation. intros B c HB Hc. by apply (hosted_call B (CallSubscribe c)). Qed.
Next Obligation. intros B c HB Hc. by apply (hosted_call B (CallUnsubscribe c)). Qed.
Next Obligation. intros B reason ps HB. by apply (hosted_call B (CallDisconnect reason ps)). Qed.
Next Obligation. intros B HB. by apply (hosted_call B CallPing). Qed.
Next Obligation. intros B HB. apply hosted_up; [lia|]. apply on_hosted_ok, take_events_order. lia. Qed.
Next Obligation.
  intros B now HB. simpl. eapply (preserves_bind _ (hosted_ok B)).
  { apply at_host_reading_ok. intros sample. apply handle_incoming_order; [lia|constructor]. }
  intros events. eapply (preserves_bind _ (hosted_ok (B + 1))).
  { apply on_hosted_ok, handle_tick_order. lia. }
  intros tick_events. eapply preserves_weaken; [apply preserves_ret|done|].
  intros e He. eapply in_order_mono; [done|lia].
Qed.
Next Obligation.
  intros B level HB. apply hosted_up; [lia|]. apply on_hosted_ok, try_set_parse_level_order. lia.
Qed.
End mqtt.

Section tls.
Context `{!Tls} `{!TlsLaws} `{!HostClock T}.

Lemma tls_up {A} B B' B'' (m : St (TlsMqttEngine T) A) :
  B' <= B'' → preserves (tls_ok B) (tls_ok B') m → preserves (tls_ok B) (tls_ok B'') m.
Proof. intros HB Hm. eapply preserves_weaken; [exact Hm|done|]. intros e He. by eapply tls_ok_mono. Qed.
Lemma tls_call {A} B call (m : T → St (MqttEngine T) A) :
  B + 2 < u32_MAX → (∀ now, run_call call now = ignore (m now)) → call_ok call →
  preserves (tls_ok B) (tls_ok (B + 2)) (at_reading (λ sample, at_host sample m)).
Proof.
  intros HB Hm Hc. apply at_reading_ok. intros sample.
  apply (host_call B (B + 2) call); try done; [lia..|destruct call; simpl; lia].
Qed.

#[export] Program Instance HostEngineLaws_tls : HostEngineLaws T (TlsMqttEngine T) := {
  he_ok := tls_ok; he_step := 2 }.
Next Obligation. done. Qed.
Next Obligation. intros B B' e He HB. by eapply tls_ok_mono. Qed.
Next Obligation. by intros B e []. Qed.
Next Obligation. intros A B B' m Hm. by apply on_engine_ok. Qed.
Next Obligation. intros A B B' m Hm. by apply at_reading_ok. Qed.
Next Obligation. intros B c HB Hc. by apply (tls_call B (CallPublish c)). Qed.
Next Obligation. intros B c HB Hc. by apply (tls_call B (CallSubscribe c)). Qed.
Next Obligation. intros B c HB Hc. by apply (tls_call B (CallUnsubscribe c)). Qed.
Next Obligation. intros B reason ps HB. by apply (tls_call B (CallDisconnect reason ps)). Qed.
Next Obligation. intros B HB. by apply (tls_call B CallPing). Qed.
Next Obligation. intros B HB. apply (tls_up B B); [lia|]. apply on_engine_ok, take_events_order. lia. Qed.
Next Obligation. intros B now HB. apply (tls_up B (B + 1)); [lia|]. apply tls_tick_ok. lia. Qed.
Next Obligation.
  intros B level HB. apply (tls_up B B); [lia|]. apply on_engine_ok, try_set_parse_level_order. lia.
Qed.
End tls.

Section quic.
Context `{!Quic T} `{!QuicHost T} `{!QuicLaws T} `{!QuicEventBound T}.

Lemma quic_up {A} B B' B'' (m : St (QuicMqttEngine T) A) :
  B' <= B'' → preserves (quic_ok B) (quic_ok B') m → preserves (quic_ok B) (quic_ok B'') m.
Proof. intros HB Hm. eapply preserves_weaken; [exact Hm|done|]. intros e He. by eapply quic_ok_mono. Qed.

#[export] Program Instance HostEngineLaws_quic : HostEngineLaws T (QuicMqttEngine T) := {
  he_ok := quic_ok; he_step := quic_events T + 2 }.
Next Obligation. pose proof (quic_events_nonneg T). lia. Qed.
Next Obligation. intros B B' e He HB. by eapply quic_ok_mono. Qed.
Next Obligation. by intros B e []. Qed.
Next Obligation. intros A B B' m Hm. by apply on_mqtt_preserves. Qed.
Next Obligation. intros A B B' m Hm. by apply at_instant_preserves. Qed.
Next Obligation.
  intros B c HB Hc. pose proof (quic_events_nonneg T). apply (quic_up B B); [lia|]. apply quic_publish_ok; [lia|done].
Qed.
Next Obligation.
  intros B c HB Hc. pose proof (quic_events_nonneg T). apply (quic_up B B); [lia|]. apply quic_subscribe_ok; [lia|done].
Qed.
Next Obligation.
  intros B c HB Hc. pose proof (quic_events_nonneg T). apply (quic_up B B); [lia|]. apply quic_unsubscribe_ok; [lia|done].
Qed.
Next Obligation.
  intros B reason ps HB. pose proof (quic_events_nonneg T). apply (quic_up B (B + 1)); [lia|].
  assert (HB' : B + 1 <= u32_MAX) by lia. exact (disconnect_and_close_ok B HB' reason ps 0 []).
Qed.
Next Obligation. intros B HB. pose proof (quic_events_nonneg T). apply (quic_up B B); [lia|]. apply mqtt_ping_ok. lia. Qed.
Next Obligation. intros B HB. pose proof (quic_events_nonneg T). apply (quic_up B B); [lia|]. apply quic_take_events_ok. lia. Qed.
Next Obligation.
  intros B now HB. pose proof (quic_events_nonneg T).
  replace (B + (quic_events T + 2)) with (B + quic_events T + 2) by lia.
  apply quic_handle_tick_ok; [apply quic_events_bound|lia..].
Qed.
Next Obligation.
  intros B level HB. pose proof (quic_events_nonneg T). apply (quic_up B B); [lia|].
  apply preserves_try_bind; [apply on_mqtt_preserves, try_set_parse_level_order; lia|]. intros [].
  eapply preserves_bind; [apply set_parse_level_ok; lia|]. intros []. apply preserves_ret.
Qed.
End quic.
End engines.

(** ** The methods the objects share *)
Class SessionCodecLaws `{SessionCodec} : Prop := {
  serde_typed b saved : serde_from_slice b = Some saved → typed_saved saved;
  serde_roundtrip saved b : serde_to_vec saved = Some b → serde_from_slice b = Some saved;
}.

Inductive FfiCall : Type :=
  | FfiTick (now_ms : Z)
  | FfiTakeEvents
  | FfiPushEvent (event : MqttEventFFI)
  | FfiPing
  | FfiAuth (reason_code : Z) (properties : list MqttPropertyFFI)
  | FfiPublish (topic payload : bytes) (qos : Z) (priority : option Z)
  | FfiPublishWith (topic payload : bytes) (options : MqttPublishOptionsFFI)
  | FfiSubscribe (topic_filter : bytes) (qos : Z)
  | FfiSubscribeWith (options : MqttSubscribeOptionsFFI)
  | FfiUnsubscribe (topic_filter : bytes)
  | FfiUnsubscribeWith (options : MqttUnsubscribeOptionsFFI)
  | FfiDisconnect (options : MqttDisconnectOptionsFFI)
  | FfiSetReconnect (enabled : bool)
  | FfiSetParseLevel (level : MqttParseLevelFFI)
  | FfiRestore (state : bytes).

(** Arguments of the types that the bindings generator declares. *)
Definition ffi_call_ok (call : FfiCall) : Prop :=
  match call with
  | FfiPublish topic payload qos priority =>
      wf_str topic ∧ u8s payload ∧ is_u8 qos ∧ wf_opt is_u8 priority
  | FfiPublishWith topic payload options => wf_str topic ∧ u8s payload ∧ wf_publish_ffi options
  | FfiSubscribe topic_filter qos => wf_str topic_filter ∧ is_u8 qos
  | FfiSubscribeWith options => wf_subscribe_ffi options
  | FfiUnsubscribe topic_filter => wf_str topic_filter
  | FfiUnsubscribeWith options => wf_unsubscribe_ffi options
  | _ => True
  end.

Section shared.
Context {T : Type} `{TimePoint T, !Runtime T, !ErrorText, !FfiText, !SessionCodec}.
Context {E : Type} `{!HostEngine T E}.

(** The call without its result. *)
Definition unit_of {S A} (m : St S A) : St S () := m;; mret ().

Definition run_ffi_call (call : FfiCall) : St (FfiObject T E) () :=
  match call with
  | FfiTick now_ms => unit_of (ffi_handle_tick now_ms)
  | FfiTakeEvents => unit_of ffi_take_events
  | FfiPushEvent event => push_event_ffi event
  | FfiPing => unit_of ffi_ping
  | FfiAuth reason_code properties => unit_of (auth_with_properties reason_code properties)
  | FfiPublish topic payload qos priority => unit_of (ffi_publish topic payload qos priority)
  | FfiPublishWith topic payload options => unit_of (publish_with_options topic payload options)
  | FfiSubscribe topic_filter qos => unit_of (ffi_subscribe topic_filter qos)
  | FfiSubscribeWith options => unit_of (subscribe_with_options options)
  | FfiUnsubscribe topic_filter => unit_of (ffi_unsubscribe topic_filter)
  | FfiUnsubscribeWith options => unit_of (unsubscribe_with_options options)
  | FfiDisconnect options => unit_of (disconnect_with_options options)
  | FfiSetReconnect enabled => ffi_set_reconnect enabled
  | FfiSetParseLevel level => unit_of (ffi_set_parse_level level)
  | FfiRestore state => unit_of (ffi_restore_session_state state)
  end.
End shared.

Section shared_safety.
Context {T : Type} `{TimePointLaws T} `{!Runtime T} `{!RuntimeLaws T}.
Context `{!ErrorText, !FfiText, !SessionCodec, !SessionCodecLaws}.
Context {E : Type} `{!HostEngine T E, !HostEngineLaws T E}.
Implicit Types (self : FfiObject T E).
Local Abbreviation M := (St (FfiObject T E)).

Definition ffi_ok (B : Z) self : Prop := he_ok B (fo_engine self).

Lemma unit_of_ok {S A} (I J : S → Prop) (m : St S A) : preserves I J m → preserves I J (unit_of m).
Proof. intros Hm. eapply preserves_bind; [exact Hm|]. intros a. apply preserves_ret. Qed.
Lemma on_core_ok {A} B B' (m : St E A) :
  preserves (he_ok B) (he_ok B') m → preserves (ffi_ok B) (ffi_ok B') (on_core m).
Proof. intros Hm. by apply (preserves_zoom _ _ _ _ _ _ _ Hm). Qed.
Lemma core_try_ok {A} B B' (m : St E (MqttClientError + A)) :
  preserves (he_ok B) (he_ok B') m → preserves (ffi_ok B) (ffi_ok B') (core_try m).
Proof. intros Hm. eapply preserves_bind; [by apply on_core_ok|]. intros r. apply preserves_ret. Qed.
Lemma ffi_up {A} B B' B'' (m : M A) :
  B' <= B'' → preserves (ffi_ok B) (ffi_ok B') m → preserves (ffi_ok B) (ffi_ok B'') m.
Proof. intros HB Hm. eapply preserves_weaken; [exact Hm|done|]. intros s Hs. by eapply he_ok_mono. Qed.
Lemma checked_bind {A C} (I J : FfiObject T E → Prop) (r : result MqttErrorFFI A)
    (f : A → M (MqttErrorFFI + C)) :
  (∀ s, I s → J s) → r ≠ Panic → (∀ a, r = Ok a → preserves I J (f a)) →
  preserves I J (try_bind f (checked r)).
Proof. intros HIJ Hr Hf s Hs. destruct r as [a|e|]; [by apply Hf|by apply HIJ|done]. Qed.

Lemma on_events_ok B f : preserves (ffi_ok B) (ffi_ok B) (on_events f).
Proof. by apply preserves_modify. Qed.
Lemma started_ok B : preserves (ffi_ok B) (ffi_ok B) started.
Proof. by apply preserves_modify. Qed.
Lemma deliver_ok_ffi B events : preserves (ffi_ok B) (ffi_ok B) (deliver events).
Proof. eapply preserves_bind; [apply on_events_ok|]. intros []. apply preserves_ret. Qed.

(** A step of the core engine, and a method made of the host clock's methods. *)
Section step.
Context (B : Z) (HB : B + he_step < u32_MAX).
Local Abbreviation up := (ffi_ok B) (only parsing).

Lemma ffi_step_up self : ffi_ok B self → ffi_ok (B + he_step) self.
Proof. intros Hs. pose proof he_step_pos. eapply he_ok_mono; [exact Hs|lia]. Qed.
Lemma he_at_call {A} call (m : T → St (MqttEngine T) A) :
  (∀ now, run_call call now = ignore (m now)) → call_ok call →
  preserves (he_ok B) (he_ok (B + he_step)) (he_at (λ sample, at_host sample m)).
Proof.
  intros Hm Hc. pose proof he_step_pos. apply he_at_ok. intros sample.
  apply (host_call B (B + he_step) call); try done; [lia..|destruct call; simpl; lia].
Qed.
Lemma step_1 self : ffi_ok (B + 1) self → ffi_ok (B + he_step) self.
Proof. intros Hs. pose proof he_step_pos. eapply he_ok_mono; [exact Hs|lia]. Qed.

Lemma publish_with_ok topic payload options :
  wf_str topic → u8s payload → wf_publish_ffi options →
  preserves (ffi_ok B) (ffi_ok (B + he_step)) (publish_with_options topic payload options).
Proof.
  intros Ht Hp Ho. unfold publish_with_options. apply preserves_get. intros self _.
  apply checked_bind; [apply ffi_step_up|apply publish_command_ffi_no_panic|]. intros c Hc.
  apply publish_command_ffi_Ok in Hc as [Hc _]; [|done..]. by apply core_try_ok, he_publish_ok.
Qed.
Lemma subscribe_with_ok options :
  wf_subscribe_ffi options → preserves (ffi_ok B) (ffi_ok (B + he_step)) (subscribe_with_options options).
Proof.
  intros Ho. unfold subscribe_with_options. apply preserves_get. intros self _.
  apply checked_bind; [apply ffi_step_up|apply subscribe_command_ffi_no_panic|]. intros c Hc.
  apply subscribe_command_ffi_Ok in Hc as [Hid _]; [|done..]. apply core_try_ok, he_subscribe_ok; [done|].
  by rewrite Hid.
Qed.
Lemma unsubscribe_with_ok options :
  wf_unsubscribe_ffi options →
  preserves (ffi_ok B) (ffi_ok (B + he_step)) (unsubscribe_with_options options).
Proof.
  intros Ho. unfold unsubscribe_with_options. apply preserves_get. intros self _.
  apply checked_bind; [apply ffi_step_up|apply unsubscribe_command_ffi_no_panic|]. intros c Hc.
  apply unsubscribe_command_ffi_Ok in Hc as [Hid _]; [|done..]. apply core_try_ok, he_unsubscribe_ok; [done|].
  by rewrite Hid.
Qed.
Lemma ffi_tick_ok now_ms : preserves (ffi_ok B) (ffi_ok (B + he_step)) (ffi_handle_tick now_ms).
Proof.
  eapply preserves_bind; [apply started_ok|]. intros []. apply preserves_get. intros self _.
  unfold instant_at. destruct (tp_checked_add _ _) as [now|]; simpl.
  - eapply preserves_bind; [by apply on_core_ok, he_tick_ok|]. intros events. apply deliver_ok_ffi.
  - eapply preserves_weaken; [|done|apply ffi_step_up]. eapply preserves_bind; [apply on_events_ok|].
    intros []. apply preserves_ret.
Qed.
Lemma ffi_restore_ok state : preserves (ffi_ok B) (ffi_ok (B + he_step)) (ffi_restore_session_state state).
Proof.
  eapply preserves_weaken; [|done|apply ffi_step_up]. unfold ffi_restore_session_state.
  apply checked_bind; [done| |].
  { unfold decode_session. destruct (serde_from_slice state); simpl; [by case_match|done]. }
  intros saved Hsaved. assert (Ht : typed_saved saved).
  { unfold decode_session in Hsaved. destruct (serde_from_slice state) as [saved'|] eqn:Hd; simpl in Hsaved; [|done].
    case_match; [done|]. injection Hsaved as ->. by eapply serde_typed. }
  unfold session_restore. apply preserves_get. intros self _.
  apply checked_bind; [done|unfold check_identity; by case_match|]. intros [] _.
  case_match; [apply preserves_ret|]. eapply preserves_bind.
  { by apply on_core_ok, he_mut_ok, restore_order. }
  intros [error|[]].
  - destruct error; apply preserves_ret.
  - eapply preserves_bind; [by apply (preserves_modify _ (ffi_ok B))|]. intros []. apply preserves_ret.
Qed.
End step.

Lemma simple_publish_wf qos priority :
  is_u8 qos → wf_opt is_u8 priority →
  wf_publish_ffi {| fp_qos := qos; fp_retain := fp_retain MqttPublishOptionsFFI_default;
                    fp_priority := priority; fp_properties := fp_properties MqttPublishOptionsFFI_default |}.
Proof. intros Hq Hp. split; [done|]. split; [done|constructor]. Qed.

Lemma run_ffi_call_ok B call :
  B + he_step < u32_MAX → ffi_call_ok call →
  preserves (ffi_ok B) (ffi_ok (B + he_step)) (run_ffi_call call).
Proof.
  intros HB Hok. pose proof he_step_pos.
  assert (Hkeep : ∀ {A} (m : M A), preserves (ffi_ok B) (ffi_ok B) m → preserves (ffi_ok B) (ffi_ok (B + he_step)) m)
    by (intros A m; apply ffi_up; lia).
  destruct call; cbn [ffi_call_ok run_ffi_call] in *; try apply unit_of_ok.
  - by apply ffi_tick_ok.
  - unfold ffi_take_events. apply preserves_get. intros self _.
    eapply preserves_bind; [apply on_events_ok|]. intros [].
    eapply preserves_bind; [by apply on_core_ok, he_take_events_ok|]. intros events. apply preserves_ret.
  - apply Hkeep, on_events_ok.
  - by apply core_try_ok, he_ping_ok.
  - unfold auth_with_properties. apply preserves_get. intros self _.
    apply checked_bind; [by apply ffi_step_up|apply validate_no_panic|]. intros ps _.
    apply core_try_ok. by apply (he_at_call B HB (CallAuth reason_code ps) (try_auth_at reason_code ps)).
  - destruct Hok as (Ht & Hp & Hq & Hpr). eapply preserves_bind; [|intros r; apply preserves_ret].
    by apply publish_with_ok, simple_publish_wf.
  - destruct Hok as (Ht & Hp & Ho). by apply publish_with_ok.
  - eapply preserves_bind; [|intros r; apply preserves_ret]. apply subscribe_with_ok; [done|].
    destruct Hok as [Ht Hq]. split; [|constructor]. repeat constructor; simpl; done || apply Ht || apply Hq || lia.
  - by apply subscribe_with_ok.
  - eapply preserves_bind; [|intros r; apply preserves_ret]. apply unsubscribe_with_ok; [done|].
    split; [|constructor]. by apply Forall_singleton.
  - by apply unsubscribe_with_ok.
  - unfold disconnect_with_options. apply preserves_get. intros self _.
    apply checked_bind; [by apply ffi_step_up|apply validate_no_panic|]. intros ps _.
    by apply core_try_ok, he_disconnect_ok.
  - eapply (preserves_bind _ (ffi_ok (B + 1))).
    { apply on_core_ok, he_mut_ok, set_reconnect_order. lia. }
    intros []. eapply preserves_weaken; [|done|apply step_1].
    destruct (negb enabled); [apply on_events_ok|apply preserves_ret].
  - by apply core_try_ok, he_set_parse_level_ok.
  - by apply ffi_restore_ok.
Qed.

(** Sequences of the calls of an object. *)
Lemma run_all_ok {C} (ok : C → Prop) (run : C → M ()) calls :
  (∀ B call, B + he_step < u32_MAX → ok call → preserves (ffi_ok B) (ffi_ok (B + he_step)) (run call)) →
  ∀ B, Forall ok calls → B + zlen calls * he_step < u32_MAX →
  preserves (ffi_ok B) (ffi_ok (B + zlen calls * he_step)) (for_each_st calls run).
Proof.
  intros Hrun. pose proof he_step_pos. induction calls as [|call calls IH]; intros B Hc HB.
  { change (zlen (@nil C)) with 0. rewrite Z.mul_0_l, Z.add_0_r. apply preserves_ret. }
  rewrite zlen_cons in *. pose proof (zlen_nonneg calls). apply Forall_cons_1 in Hc as [Hcall Hc].
  cbn [for_each_st]. eapply preserves_bind; [apply Hrun; [nia|done]|]. intros [].
  replace (B + (1 + zlen calls) * he_step) with (B + he_step + zlen calls * he_step) by lia.
  apply IH; [done|lia].
Qed.
End shared_safety.
