(* ===== verification/FfiObjects.v ===== *)
(** * The three objects, call by call

    Every method of [MqttEngineFFI], [TlsMqttEngineFFI] and [QuicMqttEngineFFI] in any sequence,
    from the constructor: no call panics, whatever the foreign program passes. *)
From S2P Require Import Prelude BaseData TopicFilter Validation Properties Packets Framing Codec.
From S2P Require Import Stream Leveled Time PriorityQueue ClientError Options ClientTypes.
From S2P Require Import Commands Inflight ClientSession EngineState EngineCore EngineProtocol.
From S2P Require Import Engine EncodeFacts EngineInv EngineSteps EngineQueues EngineHandlers.
From S2P Require Import EngineConnect EngineReceive EngineInput EngineSafety EngineTimers EngineHost HostSafety.
From S2P Require Import EngineSession QuicState QuicEngine QuicTick QuicScript QuicSafety QuicTickSafety.
From S2P Require Import TlsEngine TlsSafety FfiTypes FfiFacts FfiOptions FfiEvents FfiEngine FfiSafety.

(** ** Acknowledgements and checkpoints *)
Section common.
Context {T : Type} `{TimePointLaws T} `{!Runtime T} `{!RuntimeLaws T}.
Context `{!ErrorText, !FfiText, !SessionCodec, !SessionCodecLaws}.

Lemma acknowledgement_no_panic (e : MqttEngine T) kind id reason ps :
  acknowledgement_properties e kind id reason ps ≠ Panic.
Proof.
  unfold acknowledgement_properties. do 2 (case_match; [done|]).
  apply bind_no_panic; [apply validate_no_panic|]. intros l. by case_match.
Qed.

Lemma snapshot_no_panic (e : MqttEngine T) : engine_inv e → snapshot_session e ≠ Panic.
Proof.
  intros Hi. unfold snapshot_session. case_match; [done|].
  set (outbound := filter _ (me_previous_inflight e)).
  destruct (refresh_previous_ok (InflightQueue_snapshot_for_reconnect (me_inflight_queue e) ++ me_session_replay e)
    (positions_of outbound) outbound) as (r & -> & _); [|done].
  apply positions_indexes. unfold outbound. apply NoDup_fmap_filter.
  apply (io_nodup_previous _ _ _ _ _ (proj1 (ei_ids e Hi))).
Qed.

Context {E : Type} `{!HostEngine T E, !HostEngineLaws T E}.
Lemma acknowledge_received_ok B kind id reason ps :
  B + he_step < u32_MAX →
  preserves (ffi_ok (E:=E) B) (ffi_ok (B + he_step)) (acknowledge_received kind id reason ps).
Proof.
  intros HB. unfold acknowledge_received. apply preserves_get. intros self _.
  apply checked_bind; [by apply ffi_step_up|apply acknowledgement_no_panic|]. intros l _.
  apply core_try_ok. destruct kind.
  - by apply (he_at_call B HB (CallPuback id reason l) (puback_at id reason l)).
  - by apply (he_at_call B HB (CallPubrec id reason l) (pubrec_at id reason l)).
  - by apply (he_at_call B HB (CallPubcomp id reason l) (pubcomp_at id reason l)).
Qed.
Lemma ffi_acknowledge_ok B kind id reason ps stream :
  B + he_step < u32_MAX →
  preserves (ffi_ok (E:=E) B) (ffi_ok (B + he_step)) (ffi_acknowledge kind id reason ps stream).
Proof.
  intros HB. destruct stream; [|by apply acknowledge_received_ok].
  eapply preserves_weaken; [apply preserves_ret|done|by apply ffi_step_up].
Qed.

(** Taking a checkpoint never panics. *)
Lemma ffi_snapshot_no_panic B (self : FfiObject T E) : ffi_ok B self → ffi_snapshot_session self ≠ Panic.
Proof.
  intros Hs. apply he_ok_engine in Hs as [Hi _]. unfold ffi_snapshot_session.
  apply bind_no_panic; [unfold check_identity; by case_match|]. intros _. apply bind_no_panic.
  - pose proof (snapshot_no_panic _ Hi) as Hn. unfold core. by destruct (snapshot_session _).
  - intros saved. unfold encode_session. by destruct (serde_to_vec saved).
Qed.
End common.

(** ** [MqttEngineFFI] *)
Inductive MqttFfiCall : Type :=
  | MqttShared (call : FfiCall)
  | MqttConnect
  | MqttHandleIncoming (data : bytes)
  | MqttTakeOutgoing
  | MqttConnectionLost
  | MqttConnectChecked
  | MqttResetForNewTransport
  | MqttScheduleReconnect (now_ms : Z)
  | MqttAcknowledge (kind : MqttAcknowledgementFFI) (packet_id reason_code : Z)
      (properties : list MqttPropertyFFI) (stream_id : option Z).

Definition mqtt_ffi_call_ok (call : MqttFfiCall) : Prop :=
  match call with
  | MqttShared call => ffi_call_ok call
  | MqttHandleIncoming data => u8s data
  | _ => True
  end.

Section mqtt_runs.
Context {T : Type} `{TimePoint T, !Runtime T, !ErrorText, !FfiText, !SessionCodec, !HostClock T}.
Local Abbreviation M := (St (MqttEngineFFI T)).

Definition run_mqtt_ffi_call (call : MqttFfiCall) : M () :=
  match call with
  | MqttShared call => run_ffi_call call
  | MqttConnect => ffi_connect
  | MqttHandleIncoming data => unit_of (ffi_handle_incoming data)
  | MqttTakeOutgoing => unit_of ffi_take_outgoing
  | MqttConnectionLost => ffi_handle_connection_lost
  | MqttConnectChecked => unit_of connect_checked
  | MqttResetForNewTransport => ffi_reset_for_new_transport
  | MqttScheduleReconnect now_ms => unit_of (ffi_schedule_reconnect now_ms)
  | MqttAcknowledge kind id reason ps stream => unit_of (ffi_acknowledge kind id reason ps stream)
  end.
Definition run_mqtt_ffi (calls : list MqttFfiCall) : M () := for_each_st calls run_mqtt_ffi_call.
End mqtt_runs.

Section mqtt_object.
Context {T : Type} `{TimePointLaws T} `{!Runtime T} `{!RuntimeLaws T}.
Context `{!ErrorText, !FfiText, !SessionCodec, !SessionCodecLaws, !HostClock T}.
Implicit Types (self : MqttEngineFFI T).

Lemma mqtt_core_ok {A} B d (m : T → St (MqttEngine T) A) :
  0 <= d <= 2 → (∀ sample, preserves (in_order B) (in_order (B + d)) (m sample)) →
  preserves (ffi_ok B) (ffi_ok (B + 2)) (on_core (he_at (E:=HostedEngine T) m)).
Proof. intros Hd Hm. apply (ffi_up B (B + d)); [lia|]. by apply on_core_ok, at_host_reading_ok. Qed.

Lemma run_mqtt_ffi_call_ok B call :
  B + 2 < u32_MAX → mqtt_ffi_call_ok call →
  preserves (ffi_ok B) (ffi_ok (B + 2)) (run_mqtt_ffi_call (T:=T) call).
Proof.
  intros HB Hok. assert (HB' : B + he_step (E:=HostedEngine T) < u32_MAX) by done.
  destruct call; cbn [mqtt_ffi_call_ok run_mqtt_ffi_call] in *; try apply unit_of_ok.
  - exact (run_ffi_call_ok B call HB' Hok).
  - eapply preserves_bind; [apply started_ok|]. intros [].
    eapply (preserves_bind _ (ffi_ok (B + 1))).
    { apply on_core_ok, at_host_reading_ok. intros. apply reset_order. lia. }
    intros []. eapply preserves_bind; [apply on_events_ok|]. intros [].
    eapply (preserves_bind _ (ffi_ok (B + 1 + 1))).
    { apply on_core_ok, at_host_reading_ok. intros. apply connect_order. lia. }
    replace (B + 1 + 1) with (B + 2) by lia. intros [error|[]]; [apply on_events_ok|apply preserves_ret].
  - eapply preserves_bind; [apply started_ok|]. intros [].
    eapply preserves_bind; [|intros events; apply deliver_ok_ffi].
    apply (mqtt_core_ok B 0); [done|]. intros. rewrite Z.add_0_r. apply handle_incoming_order; [lia|done].
  - apply (mqtt_core_ok B 0); [done|]. intros. rewrite Z.add_0_r. apply take_outgoing_order. lia.
  - apply (mqtt_core_ok B 0); [done|]. intros. rewrite Z.add_0_r. apply lost_order. lia.
  - eapply preserves_bind; [apply started_ok|]. intros [].
    eapply preserves_bind; [|intros r; apply preserves_ret].
    apply (mqtt_core_ok B 1); [done|]. intros. apply connect_order. lia.
  - eapply preserves_bind; [apply started_ok|]. intros [].
    apply (mqtt_core_ok B 1); [done|]. intros. apply reset_order. lia.
  - unfold ffi_schedule_reconnect. apply preserves_get. intros self _.
    apply checked_bind; [exact (ffi_step_up B)|unfold instant_at; by case_match|]. intros now _.
    eapply preserves_bind; [|intros []; apply preserves_ret].
    apply (ffi_up B (B + 1)); [lia|]. apply on_core_ok, on_hosted_ok, schedule_order. lia.
  - exact (ffi_acknowledge_ok B kind packet_id reason_code properties stream_id HB').
Qed.

(** What the constructors make of the options. *)
Lemma constructor_options clock (opts : MqttConnectOptionsFFI) (runtime : MqttRuntimeOptionsFFI) n
    (X : Type) (k : MqttClientOptions → nat → result MqttErrorFFI X) (Q : X → Prop) :
  wf_connect_ffi opts → wf_runtime_ffi runtime →
  (∀ o n', wf_options o → safe (k o n') Q) →
  safe (options ← into_core (T:=T) opts;
        '(options, readings) ← runtime_options_apply clock runtime options n;
        k options readings) Q.
Proof.
  intros Hw Hr Hk. eapply safe_bind; [by apply safe_into_core|]. intros o Ho _.
  eapply safe_bind; [by apply safe_runtime_options_apply|]. intros [o' n'] [[Ho' _] _] _. apply Hk. apply Ho'.
Qed.

Lemma safe_ffi_new opts runtime :
  wf_connect_ffi opts → wf_runtime_ffi runtime →
  safe (ffi_new_with_runtime_options (T:=T) opts runtime) (λ self,
    ∃ o now, wf_options o ∧ hd_engine (fo_engine self) = MqttEngine_new_at o now).
Proof.
  intros Hw Hr. unfold ffi_new_with_runtime_options.
  apply (constructor_options _ _ _ _ _ (λ options readings, Ok _)); [done..|].
  intros o n Ho. simpl. eauto.
Qed.
End mqtt_object.

(** ** Theorems *)

(** C6: a foreign program cannot make [MqttEngineFFI] panic.  For whatever connection and runtime
    options, the constructor returns an object or an error.  On an object with a persistent
    session (an object made with [sessionless] is excluded, see [EngineFindings]) whose deadlines
    are representable from its starting time on, whatever sequence of fewer than half of
    [u32::MAX - 1] methods is called with whatever strings, payloads, properties, options, times,
    checkpoints and network bytes, in whatever state of the connection, every call returns, the
    invariant of the protocol engine holds at the end, the next deadline is defined and a
    checkpoint can be taken: no lock is ever poisoned.  The bindings give every message its
    packet identifier through the engine, so the engine's condition on QoS 0 holds of itself. *)
Theorem ffi_never_panics {T} `{TimePointLaws T} `{!Runtime T} `{!RuntimeLaws T}
    `{!ErrorText, !FfiText, !SessionCodec, !SessionCodecLaws, !HostClock T} opts runtime :
  wf_connect_ffi opts → wf_runtime_ffi runtime →
  ffi_new_with_runtime_options opts runtime ≠ Panic ∧
  ∀ (self : MqttEngineFFI T) calls,
    ffi_new_with_runtime_options opts runtime = Ok self →
    mo_sessionless (me_options (core self)) = false →
    check_time_range (me_options (core self)) (me_now (core self)) = Ok () →
    Forall mqtt_ffi_call_ok calls → 2 * zlen calls < u32_MAX - 1 →
    ∃ self', run_mqtt_ffi calls self = Ok ((), self') ∧ engine_inv (core self') ∧
      (∃ ms, next_tick_ms self' = Ok ms) ∧ ffi_snapshot_session self' ≠ Panic.
Proof.
  intros Hw Hr. pose proof (safe_ffi_new opts runtime Hw Hr) as Hnew. split; [by eapply safe_no_panic|].
  intros self calls Hself Hs Ht Hc Hlen. apply (safe_Ok_inv _ _ _ Hnew) in Hself as (o & now & Ho & Heq).
  assert (Hin : ffi_ok 1 self).
  { change (in_order 1 (hd_engine (fo_engine self))). unfold core in Hs, Ht. simpl in Hs, Ht.
    rewrite Heq in *. by apply new_in_order. }
  pose proof (run_all_ok mqtt_ffi_call_ok run_mqtt_ffi_call calls run_mqtt_ffi_call_ok 1 Hc) as Hrun.
  change (he_step (E:=HostedEngine T)) with 2 in Hrun. specialize (Hrun ltac:(lia) self Hin).
  apply runs_Ok in Hrun as ([] & self' & Hrun & Hok). exists self'. split; [done|].
  pose proof (he_ok_engine _ _ Hok) as [Hi _]. split; [done|]. split; [|by eapply ffi_snapshot_no_panic].
  destruct (next_tick_defined _ Hi) as [tick Htick]. unfold next_tick_ms, core. rewrite Htick. simpl. eauto.
Qed.

#[local] Existing Instance Runtime_ordered.
#[local] Existing Instance RuntimeLaws_ordered.

(** A store that keeps one checkpoint. *)
#[local] Instance SessionCodec_sample : SessionCodec := {
  serde_from_slice b := if bool_decide (b = [1]) then Some sample_saved else None;
  serde_to_vec saved := None;
}.
#[local] Instance SessionCodecLaws_sample : SessionCodecLaws.
Proof.
  split; [|done]. intros b saved. simpl. case_bool_decide; [|done]. intros [= <-]. exact sample_saved_typed.
Qed.
#[local] Instance FfiClock_sample : HostClock Timestamp := λ n, Timestamp_from_nanos (Z.of_nat n).

(** A session is restored, the engine connects, the broker answers, and a message is published
    with a priority; then the transport is replaced. *)
Definition sample_object_options : MqttConnectOptionsFFI :=
  MqttConnectOptionsFFI_from
    {| fmo_client_id := str "mqtt_client"; fmo_mqtt_version := 5; fmo_clean_start := false;
       fmo_keep_alive := 60; fmo_username := None; fmo_password := None;
       fmo_reconnect_base_delay_ms := 1000; fmo_reconnect_max_delay_ms := 60000;
       fmo_max_reconnect_attempts := 0 |}.
Definition sample_object_runtime : MqttRuntimeOptionsFFI :=
  {| fr_peer := Some (str "localhost:1883"); fr_operation_timeouts := Some mqtt_cloud_timeouts;
     fr_incoming_receive_maximum := None; fr_max_incoming_packet_size := None;
     fr_max_incoming_buffer_bytes := None; fr_max_outgoing_buffer_bytes := None;
     fr_reconnect := Some true |}.
Definition sample_object_calls : list MqttFfiCall :=
  [MqttShared (FfiRestore [1]); MqttShared (FfiRestore [2]); MqttConnect; MqttTakeOutgoing;
   MqttHandleIncoming [32; 3; 1; 0; 0]; MqttShared (FfiPublish (str "a/b") [1; 2] 1 (Some 7));
   MqttShared (FfiSubscribe (str "#") 3); MqttShared (FfiTick 5); MqttTakeOutgoing;
   MqttAcknowledge FPubAck 1 0 [] (Some 4); MqttConnectionLost; MqttShared (FfiTick 70000);
   MqttShared FfiTakeEvents; MqttResetForNewTransport; MqttConnectChecked;
   MqttShared (FfiSetReconnect false)].
Definition sample_object : result MqttErrorFFI (MqttEngineFFI Timestamp) :=
  ffi_new_with_runtime_options sample_object_options sample_object_runtime.

Lemma sample_object_options_wf : wf_connect_ffi sample_object_options.
Proof.
  unfold wf_connect_ffi, wf_connection_ffi, wf_str, is_u8, is_u16, is_u32, is_u64. simpl.
  repeat constructor; try done; try u8s_lit; simpl; lia.
Qed.
Lemma sample_object_runtime_wf : wf_runtime_ffi sample_object_runtime.
Proof.
  unfold wf_runtime_ffi, wf_timeouts_ffi, wf_str, is_u64. simpl. repeat constructor; try done; try u8s_lit; simpl; lia.
Qed.

Lemma ffi_never_panics_witness :
  ∃ self self', sample_object = Ok self ∧ run_mqtt_ffi sample_object_calls self = Ok ((), self') ∧
    engine_inv (core self') ∧ (∃ ms, next_tick_ms self' = Ok ms) ∧ ffi_snapshot_session self' ≠ Panic.
Proof.
  destruct (ffi_never_panics sample_object_options sample_object_runtime
    sample_object_options_wf sample_object_runtime_wf) as [_ Hrun].
  eexists. destruct (Hrun _ sample_object_calls eq_refl) as (self' & Hcalls).
  - reflexivity.
  - reflexivity.
  - unfold sample_object_calls, wf_str, is_u8.
    repeat (apply Forall_cons_2; [simpl; unfold wf_str, is_u8; first [done|u8s_lit|repeat split; try done; try u8s_lit; simpl; lia]|]).
    apply Forall_nil_2.
  - vm_compute. done.
  - exists self'. split; [reflexivity|]. exact Hcalls.
Defined.
