(* ===== verification/FfiHistory.v ===== *)
(** * Histories of the protocol engine's object

    What a foreign program sees of [MqttEngineFFI] over a sequence of calls: every event it was
    handed is handed over by [take_events] too, in order; and a checkpoint is restored at most
    once, before the transport starts. *)
From S2P Require Import Prelude BaseData TopicFilter Validation Properties Packets Framing Codec.
From S2P Require Import Stream Leveled Time PriorityQueue ClientError Options ClientTypes.
From S2P Require Import Commands Inflight ClientSession EngineState EngineCore EngineProtocol.
From S2P Require Import Engine EncodeFacts EngineInv EngineSteps EngineSafety EngineHost EngineSession.
From S2P Require Import TlsEngine FfiTypes FfiFacts FfiOptions FfiEvents FfiEngine FfiSafety FfiObjects.

(** ** Relations between the states before and after a computation *)
Definition relates {S A} (R : S → S → Prop) (m : St S A) : Prop :=
  ∀ s a s', m s = Ok (a, s') → R s s'.

Section relates.
Context {S : Type} (R : S → S → Prop) `{!Reflexive R, !Transitive R}.

Lemma relates_ret {A} (a : A) : relates R (mret a).
Proof. intros s a' s' [= _ <-]. reflexivity. Qed.
Lemma relates_panic {A} : relates R ((λ _, Panic) : St S A).
Proof. by intros s a s'. Qed.
Lemma relates_bind {A B} (m : St S A) (f : A → St S B) :
  relates R m → (∀ a, relates R (f a)) → relates R (m ≫= f).
Proof.
  intros Hm Hf s b s'. unfold mbind, St_bind. destruct (m s) as [[a s1]| |] eqn:E; [|done..].
  intros Hb. etrans; [by eapply Hm|by eapply Hf].
Qed.
Lemma relates_try_bind {X A B} (m : St S (X + A)) (f : A → St S (X + B)) :
  relates R m → (∀ a, relates R (f a)) → relates R (try_bind f m).
Proof. intros Hm Hf. apply relates_bind; [done|]. intros [x|a]; [apply relates_ret|apply Hf]. Qed.
Lemma relates_get {A} (f : S → St S A) : (∀ s, relates R (f s)) → relates R (get_st ≫= f).
Proof. intros Hf s a s' Hs. by eapply (Hf s). Qed.
Lemma relates_modify f : (∀ s, R s (f s)) → relates R (modify f).
Proof. intros Hf s a s' [= _ <-]. apply Hf. Qed.
End relates.

Section history.
Context {T : Type} `{TimePoint T, !Runtime T, !ErrorText, !FfiText, !SessionCodec, !HostClock T}.
Implicit Types (self : MqttEngineFFI T).
Local Abbreviation M := (St (MqttEngineFFI T)).

(** A relation that no call of the core engine and no mark on the session breaks. *)
Class ObjectFrame (R : MqttEngineFFI T → MqttEngineFFI T → Prop) : Prop := {
  frame_refl :: Reflexive R;
  frame_trans :: Transitive R;
  frame_engine self e : R self (self <| fo_engine := e |>);
  frame_used self : R self (self <| fo_session ::= λ s, s <| sa_used := true |> |>);
  frame_restored self : R self (self <| fo_session ::= λ s, s <| sa_restored := true |> |>);
}.

Section frames.
Context (R : MqttEngineFFI T → MqttEngineFFI T → Prop) `{!ObjectFrame R}.

Lemma on_core_frame {A} (m : St (HostedEngine T) A) : relates R (on_core m).
Proof.
  intros s a s'. unfold on_core, zoom. destruct (m (fo_engine s)) as [[b e]| |]; [|done..].
  intros [= _ <-]. apply frame_engine.
Qed.
Lemma core_try_frame {A} (m : St (HostedEngine T) (MqttClientError + A)) : relates R (core_try m).
Proof. apply relates_bind; [apply _|apply on_core_frame|]. intros r. apply relates_ret, _. Qed.
Lemma checked_frame {A} (r : result MqttErrorFFI A) : relates R (checked (E:=HostedEngine T) r).
Proof. destruct r; [apply relates_ret, _|apply relates_ret, _|apply relates_panic]. Qed.
Lemma started_frame : relates R started.
Proof. apply relates_modify, frame_used. Qed.
Lemma restored_frame : relates R (modify (λ self, self <| fo_session ::= λ s, s <| sa_restored := true |> |>)).
Proof. apply relates_modify, frame_restored. Qed.
Lemma ret_frame {A} (a : A) : relates R (mret a).
Proof. apply relates_ret, _. Qed.
Lemma bind_frame {A B} (m : M A) (f : A → M B) :
  relates R m → (∀ a, relates R (f a)) → relates R (m ≫= f).
Proof. apply relates_bind, _. Qed.
Lemma try_frame {X A B} (m : M (X + A)) (f : A → M (X + B)) :
  relates R m → (∀ a, relates R (f a)) → relates R (try_bind f m).
Proof. apply relates_try_bind; apply _. Qed.
End frames.

(** Follows the text of a method. *)
Ltac frame_step :=
  lazymatch goal with
  | |- relates _ (mret _) => apply ret_frame; apply _
  | |- relates _ (on_core _) => apply on_core_frame; apply _
  | |- relates _ (core_try _) => apply core_try_frame; apply _
  | |- relates _ (checked _) => apply checked_frame; apply _
  | |- relates _ started => apply started_frame; apply _
  | |- relates _ (modify _) => apply restored_frame; apply _
  | |- relates _ (get_st ≫= _) => apply relates_get; intros ?
  | |- relates _ (try_bind _ _) => apply try_frame; [apply _| |intros ?]
  | |- relates _ (_ ≫= _) => apply bind_frame; [apply _| |intros ?]
  end.

(** The calls that leave the waiting events alone but for the ones they deliver. *)
Definition keeps_events (call : MqttFfiCall) : bool :=
  match call with
  | MqttConnect | MqttShared FfiTakeEvents | MqttShared (FfiPushEvent _)
  | MqttShared (FfiSetReconnect false) => false
  | _ => true
  end.

(** A call with the events it hands to its caller. *)
Definition observed (call : MqttFfiCall) : M (list MqttEventFFI) :=
  match call with
  | MqttShared (FfiTick now_ms) => ffi_handle_tick now_ms
  | MqttHandleIncoming data => ffi_handle_incoming data
  | call => run_mqtt_ffi_call call;; mret []
  end.
Fixpoint observe (calls : list MqttFfiCall) : M (list MqttEventFFI) :=
  match calls with
  | [] => mret []
  | call :: calls => events ← observed call; later ← observe calls; mret (events ++ later)
  end.

Lemma framed_call R `{!ObjectFrame R} call :
  keeps_events call = true →
  match call with MqttShared (FfiTick _) | MqttHandleIncoming _ => True
  | _ => relates R (run_mqtt_ffi_call call) end.
Proof.
  intros Hk. destruct call as [call| | | | | | | |kind id reason ps stream]; try done.
  - destruct call; try done; cbn [run_mqtt_ffi_call run_ffi_call]; unfold unit_of, ffi_ping,
      auth_with_properties, ffi_publish, publish_with_options, ffi_subscribe,
      subscribe_with_options, ffi_unsubscribe, unsubscribe_with_options, disconnect_with_options,
      ffi_set_reconnect, ffi_set_parse_level, ffi_restore_session_state, session_restore;
      repeat frame_step.
    + destruct enabled; [apply ret_frame; apply _|done].
    + case_match; repeat frame_step.
      match goal with |- relates _ (match ?r with inl _ => _ | inr _ => _ end) => destruct r as [error|[]] end;
        [destruct error|]; repeat frame_step.
  - cbn [run_mqtt_ffi_call]. unfold unit_of, ffi_take_outgoing. repeat frame_step.
  - apply on_core_frame, _.
  - cbn [run_mqtt_ffi_call]. unfold unit_of, connect_checked. repeat frame_step.
  - cbn [run_mqtt_ffi_call]. unfold ffi_reset_for_new_transport. repeat frame_step.
  - cbn [run_mqtt_ffi_call]. unfold unit_of, ffi_schedule_reconnect. repeat frame_step.
  - cbn [run_mqtt_ffi_call]. unfold unit_of, ffi_acknowledge, acknowledge_received.
    destruct stream; repeat frame_step.
Qed.

(** The events wait as they were. *)
Definition same_events self self' : Prop := fo_events self' = fo_events self.
#[export] Instance same_events_frame : ObjectFrame same_events.
Proof. split; try done. intros s1 s2 s3. unfold same_events. congruence. Qed.

Lemma bind_inv {A B} (m : M A) (f : A → M B) s b s' :
  (m ≫= f) s = Ok (b, s') → ∃ a s1, m s = Ok (a, s1) ∧ f a s1 = Ok (b, s').
Proof. unfold mbind, St_bind. destruct (m s) as [[a s1]| |]; [|done..]. eauto. Qed.

Lemma deliver_events events (s : MqttEngineFFI T) out s' :
  deliver events s = Ok (out, s') → fo_events s' = fo_events s ++ out.
Proof. unfold deliver. intros Hd. apply bind_inv in Hd as ([] & s1 & [= <-] & [= <- <-]). done. Qed.

Lemma observed_events call s out s' :
  keeps_events call = true → observed call s = Ok (out, s') → fo_events s' = fo_events s ++ out.
Proof.
  intros Hk Ho. pose proof (framed_call same_events call Hk) as Hq.
  assert (Hother : (run_mqtt_ffi_call call;; mret []) s = Ok (out, s') →
    relates same_events (run_mqtt_ffi_call call) → fo_events s' = fo_events s ++ out).
  { intros Hr Hrel. apply bind_inv in Hr as ([] & s1 & Hr & [= <- <-]). rewrite app_nil_r. by eapply Hrel. }
  destruct call as [[]| |data| | | | | |]; try (by apply Hother); clear Hother Hq; cbn [observed] in Ho.
  - unfold ffi_handle_tick in Ho. apply bind_inv in Ho as ([] & s1 & [= <-] & Ho).
    apply bind_inv in Ho as (self & s1 & [= <- <-] & Ho). revert Ho. unfold instant_at.
    destruct (tp_checked_add _ _); cbn [invalid_ffi]; intros Ho; apply bind_inv in Ho as (r & s2 & Hr & Ho).
    + apply (on_core_frame same_events) in Hr. apply deliver_events in Ho. unfold same_events in Hr. by rewrite Ho, Hr.
    + injection Hr as <- <-. injection Ho as <- <-. done.
  - unfold ffi_handle_incoming in Ho. apply bind_inv in Ho as ([] & s1 & [= <-] & Ho).
    apply bind_inv in Ho as (r & s2 & Hr & Ho). apply (on_core_frame same_events) in Hr. apply deliver_events in Ho.
    unfold same_events in Hr. by rewrite Ho, Hr.
Qed.

Lemma observe_events calls : ∀ s out s',
  forallb keeps_events calls = true → observe calls s = Ok (out, s') → fo_events s' = fo_events s ++ out.
Proof.
  induction calls as [|call calls IH]; intros s out s'; cbn [observe forallb].
  { intros _ [= <- <-]. by rewrite app_nil_r. }
  intros [Hc Hcs]%andb_prop Ho. apply bind_inv in Ho as (events & s1 & Hone & Ho).
  apply bind_inv in Ho as (later & s2 & Hrest & Ho). injection Ho as <- <-.
  apply observed_events in Hone; [|done]. apply IH in Hrest; [|done]. by rewrite Hrest, Hone, app_assoc.
Qed.
(** ** Sessions *)
(** A session's marks are only ever set, and its identity stays. *)
Definition session_grows self self' : Prop :=
  let s := fo_session self in let s' := fo_session self' in
  sa_explicit_peer s' = sa_explicit_peer s ∧
  (sa_used s = true → sa_used s' = true) ∧ (sa_restored s = true → sa_restored s' = true).
#[export] Instance session_grows_frame : ObjectFrame session_grows.
Proof.
  split; unfold session_grows; try done. intros s1 s2 s3 (E1 & U1 & R1) (E2 & U2 & R2).
  split; [congruence|]. split; auto.
Qed.

Lemma on_events_grows f : relates session_grows (on_events f).
Proof. apply relates_modify. done. Qed.
Ltac grows_step := lazymatch goal with |- relates _ (on_events _) => apply on_events_grows | _ => frame_step end.

Lemma run_call_grows call : relates session_grows (run_mqtt_ffi_call call).
Proof.
  destruct (keeps_events call) eqn:Hk.
  - pose proof (framed_call session_grows call Hk) as Hf.
    destruct call as [[]| | | | | | | |]; try exact Hf; cbn [run_mqtt_ffi_call run_ffi_call];
      unfold unit_of, ffi_handle_tick, ffi_handle_incoming, deliver; repeat grows_step.
    destruct (instant_at _ _); [| |apply relates_panic]; repeat grows_step.
  - destruct call as [[]| | | | | | | |]; try done; cbn [run_mqtt_ffi_call run_ffi_call];
      unfold unit_of, ffi_take_events, push_event_ffi, ffi_set_reconnect, clear_reconnect_events, ffi_connect;
      repeat grows_step.
    + destruct (negb enabled); repeat grows_step.
    + match goal with |- relates _ (match ?r with inl _ => _ | inr _ => _ end) => destruct r as [error|[]] end;
        repeat grows_step.
Qed.
Lemma run_grows calls : relates session_grows (run_mqtt_ffi calls).
Proof.
  induction calls as [|call calls IH]; [apply relates_ret, _|].
  apply relates_bind; [apply _|apply run_call_grows|]. intros []. exact IH.
Qed.

(** The calls that start the transport. *)
Definition starts_transport (call : MqttFfiCall) : bool :=
  match call with
  | MqttConnect | MqttConnectChecked | MqttHandleIncoming _ | MqttResetForNewTransport
  | MqttShared (FfiTick _) => true
  | _ => false
  end.

Definition sets_used {A} (m : M A) : Prop :=
  ∀ s a s', m s = Ok (a, s') → sa_used (fo_session s') = true.
Lemma started_first {A} (m : M A) : relates session_grows m → sets_used (started;; m).
Proof. intros Hm s a s' Hs. apply bind_inv in Hs as ([] & s1 & [= <-] & Hs). by apply Hm in Hs as (_ & Hu & _); apply Hu. Qed.
Lemma unit_of_used {A} (m : M A) : sets_used m → sets_used (unit_of m).
Proof. intros Hm s [] s' Hs. apply bind_inv in Hs as (a & s1 & Hs & [= <-]). by eapply Hm. Qed.

Lemma starts_used call : starts_transport call = true → sets_used (run_mqtt_ffi_call call).
Proof.
  intros Hc. destruct call as [[]| | | | | | | |]; try done; cbn [run_mqtt_ffi_call run_ffi_call];
    try apply unit_of_used;
    unfold ffi_handle_tick, ffi_handle_incoming, ffi_connect, connect_checked, ffi_reset_for_new_transport, deliver;
    apply started_first; repeat grows_step.
  - destruct (instant_at _ _); [| |apply relates_panic]; repeat grows_step.
  - match goal with |- relates _ (match ?r with inl _ => _ | inr _ => _ end) => destruct r as [error|[]] end;
      repeat grows_step.
Qed.

Lemma run_not_started calls : ∀ s s',
  run_mqtt_ffi calls s = Ok ((), s') → sa_used (fo_session s') = false → existsb starts_transport calls = false.
Proof.
  induction calls as [|call calls IH]; intros s s' Hrun Hu; [done|].
  change ((run_mqtt_ffi_call call;; run_mqtt_ffi calls) s = Ok ((), s')) in Hrun.
  apply bind_inv in Hrun as ([] & s1 & Ha & Hb). cbn [existsb]. rewrite (IH _ _ Hb Hu), orb_false_r.
  destruct (starts_transport call) eqn:E; [|done]. apply starts_used in Ha; [|done].
  apply run_grows in Hb as (_ & Hg & _). by rewrite (Hg Ha) in Hu.
Qed.

(** The branches of [restore_session_state]. *)
Lemma restore_branches data self r self' :
  ffi_restore_session_state data self = Ok (r, self') →
  match r with
  | inl _ => self' = self
  | inr () => sa_explicit_peer (fo_session self) = true ∧ sa_used (fo_session self) = false ∧
      sa_restored (fo_session self) = false ∧ sa_restored (fo_session self') = true
  end.
Proof.
  unfold ffi_restore_session_state. intros Hr. apply bind_inv in Hr as (d & s1 & Hd & Hr). revert Hd.
  destruct (decode_session data) as [saved|error|]; [|intros [= <- <-]; by injection Hr as <- <-|done].
  intros [= <- <-]. unfold session_restore, check_identity in Hr.
  apply bind_inv in Hr as (? & ? & [= <- <-] & Hr). apply bind_inv in Hr as (c & s1 & Hc & Hr). revert Hc.
  destruct (sa_explicit_peer _) eqn:Ep; cbn [negb]; intros [= <- <-]; [|by injection Hr as <- <-].
  destruct (sa_used _) eqn:Eu; [by injection Hr as <- <-|].
  destruct (sa_restored _) eqn:Er; [by injection Hr as <- <-|]. cbn [orb] in Hr.
  apply bind_inv in Hr as (res & s1 & Hres & Hr). revert Hres. unfold on_core, he_mut, HostEngine_mqtt, on_hosted, zoom.
  rewrite restore_run. destruct (check_saved _ _) as [[[[[[R rr] q] qb] cr] m]|x|]; [| |done]; intros [= <- <-].
  - apply bind_inv in Hr as ([] & s1 & [= <-] & [= <- <-]). done.
  - destruct x; injection Hr as <- <-; destruct self as [[] ? ? ?]; done.
Qed.
End history.

(** ** Theorems *)

(** C24: an event is handed over twice and never lost.  Every event that [handle_incoming] and
    [handle_tick] return to their caller also waits for [take_events]: after any calls that
    neither start a connection nor take, push or clear events, the next [take_events] returns
    what waited before, then exactly the events these calls returned, in order, then what the
    engine itself still holds; and nothing waits afterwards. *)
Theorem ffi_events_in_order {T} `{TimePoint T, !Runtime T, !ErrorText, !FfiText, !SessionCodec, !HostClock T}
    (self self1 self2 : MqttEngineFFI T) calls out events :
  forallb keeps_events calls = true →
  observe calls self = Ok (out, self1) → ffi_take_events self1 = Ok (events, self2) →
  fo_events self2 = [] ∧
  ∃ held engine', take_events (core self1) = Ok (held, engine') ∧ core self2 = engine' ∧
    events = fo_events self ++ out ++ map_events held.
Proof.
  intros Hk Ho Ht. apply observe_events in Ho; [|done]. unfold ffi_take_events in Ht.
  apply bind_inv in Ht as (s & s1 & [= <- <-] & Ht). apply bind_inv in Ht as ([] & s1 & [= <-] & Ht).
  apply bind_inv in Ht as (held & s2 & Hh & Ht). injection Ht as <- <-.
  pose proof (on_core_frame same_events _ _ _ _ Hh) as Hq. split; [exact Hq|]. revert Hh.
  unfold on_core, zoom, he_take_events, HostEngine_mqtt, on_hosted, zoom. simpl. unfold core. simpl.
  intros [= <- <-]. eexists _, _. split; [reflexivity|]. split; [done|]. by rewrite Ho, <- app_assoc.
Qed.

(** C23: a checkpoint is restored at most once, and only into a fresh object.  Whatever calls were
    made before, [restore_session_state] either refuses and leaves the object as it was, or it
    succeeds; it succeeds only on an object with an explicit peer identity, when no call that
    starts the transport came before it, and after that every further attempt, with any data and
    after any calls, is refused and changes nothing. *)
Theorem ffi_restore_gated {T} `{TimePoint T, !Runtime T, !ErrorText, !FfiText, !SessionCodec, !HostClock T}
    (self self1 self2 : MqttEngineFFI T) calls data r :
  run_mqtt_ffi calls self = Ok ((), self1) → ffi_restore_session_state data self1 = Ok (r, self2) →
  match r with
  | inl _ => self2 = self1
  | inr () =>
      sa_explicit_peer (fo_session self) = true ∧ sa_restored (fo_session self) = false ∧
      existsb starts_transport calls = false ∧
      ∀ later self3 again r' self4,
        run_mqtt_ffi later self2 = Ok ((), self3) → ffi_restore_session_state again self3 = Ok (r', self4) →
        (∃ error, r' = inl error) ∧ self4 = self3
  end.
Proof.
  intros Hrun Hr. apply restore_branches in Hr. destruct r as [error|[]]; [done|].
  destruct Hr as (Hp & Hu & Hr & Hr2). pose proof (run_not_started _ _ _ Hrun Hu) as Hs.
  apply run_grows in Hrun as (Ep & _ & Rg). rewrite Ep in Hp. split; [done|].
  split; [destruct (sa_restored (fo_session self)); [by rewrite Rg in Hr|done]|]. split; [done|].
  intros later self3 again r' self4 Hl Ha. apply run_grows in Hl as (_ & _ & Rg2). apply restore_branches in Ha.
  destruct r' as [error|[]]; [by eauto|]. destruct Ha as (_ & _ & Ha & _). by rewrite (Rg2 Hr2) in Ha.
Qed.

#[local] Existing Instance Runtime_ordered.
#[local] Existing Instance SessionCodec_sample.
#[local] Existing Instance FfiClock_sample.

(** The engine of [sample_object], connected; a message arrives, and a tick is asked for at a time
    that no clock reaches. *)
Definition sample_connected : MqttEngineFFI Timestamp :=
  match sample_object with
  | Ok self =>
      match run_mqtt_ffi [MqttConnect; MqttTakeOutgoing; MqttHandleIncoming [32; 3; 0; 0; 0]] self with
      | Ok (_, self') => self'
      | _ => self
      end
  | _ => {| fo_engine := {| hd_engine := sample_ffi_engine; hd_readings := 0 |};
            fo_session := SessionAccess_new false; fo_start_time := Timestamp_from_nanos 0;
            fo_events := [] |}
  end.
Definition sample_event_calls : list MqttFfiCall :=
  [MqttHandleIncoming [48; 5; 0; 1; 97; 0; 7]; MqttShared (FfiTick 18446744073709551615);
   MqttShared (FfiPublish (str "b") [1] 1 None); MqttTakeOutgoing].

Lemma ffi_events_in_order_witness :
  ∃ out self1 events self2, observe sample_event_calls sample_connected = Ok (out, self1) ∧
    length out = 3%nat ∧ ffi_take_events self1 = Ok (events, self2) ∧ fo_events self2 = [] ∧
    ∃ held engine', take_events (core self1) = Ok (held, engine') ∧ core self2 = engine' ∧
      events = fo_events sample_connected ++ out ++ map_events held.
Proof.
  do 4 eexists. split; [vm_compute; reflexivity|]. split; [vm_compute; reflexivity|].
  split; [vm_compute; reflexivity|].
  eapply (ffi_events_in_order sample_connected _ _ sample_event_calls); vm_compute; reflexivity.
Defined.

(** The engine of [sample_object], which restores a checkpoint, connects and is asked to restore
    again. *)
Definition sample_fresh : MqttEngineFFI Timestamp :=
  match sample_object with Ok self => self | _ => sample_connected end.
Definition object_after {A} (m : St (MqttEngineFFI Timestamp) A) (self : MqttEngineFFI Timestamp) : MqttEngineFFI Timestamp :=
  match m self with Ok (_, self') => self' | _ => self end.
Definition sample_polled := object_after (run_mqtt_ffi [MqttTakeOutgoing]) sample_fresh.
Definition sample_restored := object_after (ffi_restore_session_state [1]) sample_polled.
Definition sample_running := object_after (run_mqtt_ffi [MqttConnect; MqttTakeOutgoing]) sample_restored.

Lemma ffi_restore_gated_witness :
  ffi_restore_session_state [1] sample_polled = Ok (inr (), sample_restored) ∧
  ∃ error, ffi_restore_session_state [1] sample_running = Ok (inl error, sample_running).
Proof.
  assert (Hp : run_mqtt_ffi [MqttTakeOutgoing] sample_fresh = Ok ((), sample_polled)) by (vm_compute; reflexivity).
  assert (Hr : ffi_restore_session_state [1] sample_polled = Ok (inr (), sample_restored)) by (vm_compute; reflexivity).
  assert (Hc : run_mqtt_ffi [MqttConnect; MqttTakeOutgoing] sample_restored = Ok ((), sample_running))
    by (vm_compute; reflexivity).
  split; [exact Hr|]. destruct (ffi_restore_gated _ _ _ _ _ _ Hp Hr) as (_ & _ & _ & Hlater).
  destruct (ffi_restore_session_state [1] sample_running) as [[r' s4]| |] eqn:Ha; [|by vm_compute in Ha..].
  destruct (Hlater _ _ _ _ _ Hc Ha) as [[error ->] ->]. by exists error.
Defined.
