(* ===== verification/FfiTransports.v ===== *)
(** * The objects over TLS and QUIC, call by call

    Every method of [TlsMqttEngineFFI] and [QuicMqttEngineFFI] in any sequence, from the
    constructor, for any TLS or QUIC library that keeps its promises. *)
From S2P Require Import Prelude BaseData TopicFilter Validation Properties Packets Framing Codec.
From S2P Require Import Stream Leveled Time PriorityQueue ClientError Options ClientTypes.
From S2P Require Import Commands Inflight ClientSession EngineState EngineCore EngineProtocol.
From S2P Require Import Engine EncodeFacts EngineInv EngineSteps EngineQueues EngineHandlers.
From S2P Require Import EngineConnect EngineReceive EngineInput EngineSafety EngineTimers EngineHost HostSafety.
From S2P Require Import EngineSession QuicState QuicEngine QuicTick QuicScript QuicSafety QuicTickSafety.
From S2P Require Import TlsEngine TlsSafety FfiTypes FfiFacts FfiOptions FfiEvents FfiEngine FfiSafety.
From S2P Require Import FfiObjects.

(** ** [TlsMqttEngineFFI] *)
Inductive TlsFfiCall : Type :=
  | TlsShared (call : FfiCall)
  | TlsFfiConnect
  | TlsFfiSocketData (data : bytes)
  | TlsFfiTakeSocketData
  | TlsFfiConnectionLost
  | TlsFfiConnectChecked
  | TlsFfiReset
  | TlsFfiAcknowledge (kind : MqttAcknowledgementFFI) (packet_id reason_code : Z)
      (properties : list MqttPropertyFFI) (stream_id : option Z).

Definition tls_ffi_call_ok (call : TlsFfiCall) : Prop :=
  match call with TlsShared call => ffi_call_ok call | _ => True end.

Section tls_runs.
Context {T : Type} `{TimePoint T, !Runtime T, !ErrorText, !FfiText, !SessionCodec, !HostClock T}.
Context `{!Tls}.
Local Abbreviation M := (St (TlsMqttEngineFFI T)).

Definition run_tls_ffi_call (call : TlsFfiCall) : M () :=
  match call with
  | TlsShared call => run_ffi_call call
  | TlsFfiConnect => unit_of tls_ffi_connect
  | TlsFfiSocketData data => unit_of (ffi_handle_socket_data data)
  | TlsFfiTakeSocketData => unit_of ffi_take_socket_data
  | TlsFfiConnectionLost => tls_ffi_handle_connection_lost
  | TlsFfiConnectChecked => unit_of tls_ffi_connect_checked
  | TlsFfiReset => unit_of tls_ffi_reset_for_new_transport
  | TlsFfiAcknowledge kind id reason ps stream => unit_of (tls_ffi_acknowledge kind id reason ps stream)
  end.
Definition run_tls_ffi (calls : list TlsFfiCall) : M () := for_each_st calls run_tls_ffi_call.
End tls_runs.

Section tls_object.
Context {T : Type} `{TimePointLaws T} `{!Runtime T} `{!RuntimeLaws T}.
Context `{!ErrorText, !FfiText, !SessionCodec, !SessionCodecLaws, !HostClock T}.
Context `{!Tls, !TlsLaws, !TlsFiles}.
Implicit Types (self : TlsMqttEngineFFI T).

Lemma tls_core_ok {A} B d (m : St (TlsMqttEngine T) A) :
  0 <= d <= 2 → preserves (tls_ok B) (tls_ok (B + d)) m →
  preserves (ffi_ok B) (ffi_ok (B + 2)) (on_core m).
Proof. intros Hd Hm. apply (ffi_up B (B + d)); [lia|]. by apply on_core_ok. Qed.
Lemma tls_core_try {A} B d (m : St (TlsMqttEngine T) (MqttClientError + A)) :
  0 <= d <= 2 → preserves (tls_ok B) (tls_ok (B + d)) m →
  preserves (ffi_ok B) (ffi_ok (B + 2)) (core_try m).
Proof. intros Hd Hm. eapply preserves_bind; [by apply (tls_core_ok B d)|]. intros r. apply preserves_ret. Qed.

Lemma tls_connect_one B : B + 1 <= u32_MAX → preserves (tls_ok B) (tls_ok (B + 1)) (tls_connect (T:=T)).
Proof. intros HB. apply at_reading_ok. intros. by apply connect_order. Qed.

Lemma run_tls_ffi_call_ok B call :
  B + 2 < u32_MAX → tls_ffi_call_ok call →
  preserves (ffi_ok B) (ffi_ok (B + 2)) (run_tls_ffi_call (T:=T) call).
Proof.
  intros HB Hok. assert (HB' : B + he_step (E:=TlsMqttEngine T) < u32_MAX) by done.
  destruct call; cbn [tls_ffi_call_ok run_tls_ffi_call] in *; try apply unit_of_ok.
  - exact (run_ffi_call_ok B call HB' Hok).
  - eapply preserves_bind; [apply started_ok|]. intros [].
    apply (preserves_try_steps _ (ffi_ok (B + 1))).
    + apply core_try_ok, tls_reset_ok. lia.
    + intros s Hs. eapply he_ok_mono; [exact Hs|lia].
    + intros []. eapply preserves_bind; [apply on_events_ok|]. intros [].
      replace (B + 2) with (B + 1 + 1) by lia. apply core_try_ok, tls_connect_one. lia.
  - eapply preserves_bind; [apply started_ok|]. intros [].
    apply (tls_core_try B 0); [done|]. rewrite Z.add_0_r. apply socket_data_ok. lia.
  - eapply preserves_bind; [apply started_ok|]. intros [].
    apply (tls_core_ok B 0); [done|]. rewrite Z.add_0_r. apply on_tls_ok. intros c. apply tls_plaintext_write_tls.
  - apply (tls_core_ok B 0); [done|]. rewrite Z.add_0_r. apply at_reading_ok. intros. apply lost_order. lia.
  - eapply preserves_bind; [apply started_ok|]. intros [].
    apply (tls_core_try B 1); [done|]. apply tls_connect_one. lia.
  - eapply preserves_bind; [apply started_ok|]. intros [].
    apply (tls_core_try B 1); [done|]. apply tls_reset_ok. lia.
  - exact (ffi_acknowledge_ok B kind packet_id reason_code properties stream_id HB').
Qed.

Lemma safe_tls_ffi_new opts runtime tls_opts server_name :
  wf_connect_ffi opts → wf_runtime_ffi runtime → tls_client_config tls_opts ≠ Panic →
  safe (tls_ffi_new_with_runtime_options (T:=T) opts runtime tls_opts server_name) (λ self,
    mo_sessionless (me_options (core self)) = false →
    check_time_range (me_options (core self)) (me_now (core self)) = Ok () → ffi_ok 1 self).
Proof.
  intros Hw Hr Hc. unfold tls_ffi_new_with_runtime_options.
  eapply safe_bind; [by apply (safe_intro _ (λ _, True))|]. intros config _ _.
  apply (constructor_options _ _ _ _ _ (λ options readings,
    match TlsMqttEngine_new options server_name config readings with
    | inl error => Err (MqttErrorFFI_from error) | inr engine => Ok _ end)); [done..|].
  intros o n Ho. destruct (TlsMqttEngine_new o server_name config n) as [|engine] eqn:Hnew; [done|]. simpl.
  intros Hs Ht. assert (Hok : tls_ok 1 engine).
  { unfold TlsMqttEngine_new in Hnew. destruct (server_name_try_from server_name); [done|].
    destruct (client_connection_new config s) as [|c] eqn:Hcc; [done|]. injection Hnew as <-.
    unfold core in Hs, Ht. simpl in Hs, Ht. split; [by apply new_in_order|]. split; [done|]. simpl.
    rewrite (tls_plaintext_new _ _ _ Hcc). apply encoded_packets_nil. }
  exact Hok.
Qed.
End tls_object.

(** ** [QuicMqttEngineFFI] *)
Inductive QuicFfiCall : Type :=
  | QuicShared (call : FfiCall)
  | QuicFfiConnect (server_addr server_name : bytes) (tls_opts : MqttTlsOptionsFFI) (now_ms : Z)
  | QuicFfiConnectZeroRtt (server_addr server_name : bytes) (tls_opts : MqttTlsOptionsFFI)
      (options : QuicZeroRttOptionsFFI) (now_ms : Z)
  | QuicFfiDatagram (data remote_addr : bytes) (now_ms : Z)
  | QuicFfiTakeDatagrams
  | QuicFfiReconnect (now_ms : Z)
  | QuicFfiNotifyAddress
  | QuicFfiTransportPing
  | QuicFfiOpenStream
  | QuicFfiSetPriority (stream_id priority : Z)
  | QuicFfiFinish (stream_id : Z)
  | QuicFfiReset (stream_id error_code : Z)
  | QuicFfiStop (stream_id error_code : Z)
  | QuicFfiClose (error_code : Z) (reason : bytes)
  | QuicFfiCloseSilent
  | QuicFfiPublishOn (stream_id : Z) (topic payload : bytes) (options : MqttPublishOptionsFFI)
  | QuicFfiSubscribeOn (stream_id : Z) (options : MqttSubscribeOptionsFFI)
  | QuicFfiUnsubscribeOn (stream_id : Z) (options : MqttUnsubscribeOptionsFFI)
  | QuicFfiSubscribeControl (options : MqttSubscribeOptionsFFI)
  | QuicFfiUnsubscribeControl (options : MqttUnsubscribeOptionsFFI)
  | QuicFfiAcknowledge (kind : MqttAcknowledgementFFI) (packet_id reason_code : Z)
      (properties : list MqttPropertyFFI) (stream_id : option Z).

Definition quic_ffi_call_ok (call : QuicFfiCall) : Prop :=
  match call with
  | QuicShared call => ffi_call_ok call
  | QuicFfiPublishOn _ topic payload options => wf_str topic ∧ u8s payload ∧ wf_publish_ffi options
  | QuicFfiSubscribeOn _ options | QuicFfiSubscribeControl options => wf_subscribe_ffi options
  | QuicFfiUnsubscribeOn _ options | QuicFfiUnsubscribeControl options => wf_unsubscribe_ffi options
  | _ => True
  end.

Section quic_runs.
Context {T : Type} `{TimePoint T, !Runtime T, !ErrorText, !FfiText, !SessionCodec}.
Context `{!Quic T, !QuicHost T, !QuicFiles T}.
Local Abbreviation M := (St (QuicMqttEngineFFI T)).

Definition run_quic_ffi_call (call : QuicFfiCall) : M () :=
  match call with
  | QuicShared call => run_ffi_call call
  | QuicFfiConnect addr name tls now_ms => unit_of (quic_ffi_connect addr name tls now_ms)
  | QuicFfiConnectZeroRtt addr name tls options now_ms =>
      unit_of (connect_with_zero_rtt addr name tls options now_ms)
  | QuicFfiDatagram data addr now_ms => unit_of (ffi_handle_datagram data addr now_ms)
  | QuicFfiTakeDatagrams => unit_of ffi_take_outgoing_datagrams
  | QuicFfiReconnect now_ms => unit_of (ffi_reconnect now_ms)
  | QuicFfiNotifyAddress => unit_of ffi_notify_local_address_changed
  | QuicFfiTransportPing => unit_of ffi_quic_ping
  | QuicFfiOpenStream => unit_of ffi_open_data_stream
  | QuicFfiSetPriority stream priority => unit_of (ffi_set_stream_priority stream priority)
  | QuicFfiFinish stream => unit_of (ffi_finish_stream stream)
  | QuicFfiReset stream code => unit_of (ffi_reset_stream stream code)
  | QuicFfiStop stream code => unit_of (ffi_stop_stream stream code)
  | QuicFfiClose code reason => unit_of (close_transport code reason)
  | QuicFfiCloseSilent => ffi_close_silent
  | QuicFfiPublishOn stream topic payload options =>
      unit_of (ffi_publish_on stream topic payload options)
  | QuicFfiSubscribeOn stream options => unit_of (ffi_subscribe_on stream options)
  | QuicFfiUnsubscribeOn stream options => unit_of (ffi_unsubscribe_on stream options)
  | QuicFfiSubscribeControl options => unit_of (ffi_subscribe_on_control options)
  | QuicFfiUnsubscribeControl options => unit_of (ffi_unsubscribe_on_control options)
  | QuicFfiAcknowledge kind id reason ps stream =>
      unit_of (quic_ffi_acknowledge kind id reason ps stream)
  end.
Definition run_quic_ffi (calls : list QuicFfiCall) : M () := for_each_st calls run_quic_ffi_call.
End quic_runs.

Section quic_object.
Context {T : Type} `{TimePointLaws T} `{!Runtime T} `{!RuntimeLaws T}.
Context `{!ErrorText, !FfiText, !SessionCodec, !SessionCodecLaws}.
Context `{!Quic T, !QuicHost T, !QuicLaws T, !QuicEventBound T, !QuicFiles T}.
Context (Hfiles : ∀ tls_opts, quic_crypto_config (T:=T) tls_opts ≠ Panic).
Implicit Types (self : QuicMqttEngineFFI T).
Local Abbreviation step := (quic_events T + 2).

Lemma instant_at_no_panic (origin : T) ms : instant_at origin ms ≠ Panic.
Proof. unfold instant_at. by case_match. Qed.
Lemma parse_addr_no_panic addr : parse_addr (T:=T) addr ≠ Panic.
Proof. unfold parse_addr. by case_match. Qed.

Section call.
Context (B : Z) (HB : B + step < u32_MAX).
Local Abbreviation one m := (preserves (ffi_ok B) (ffi_ok (B + step)) m).

Lemma HB_host : B + he_step (E:=QuicMqttEngine T) < u32_MAX.
Proof. exact HB. Qed.
Lemma quic_step_up self : ffi_ok B self → ffi_ok (B + step) self.
Proof. exact (ffi_step_up B self). Qed.
Lemma quic_core_try {A} d (m : St (QuicMqttEngine T) (MqttClientError + A)) :
  0 <= d <= 2 → preserves (quic_ok B) (quic_ok (B + d)) m → one (core_try m).
Proof.
  intros Hd Hm. pose proof (quic_events_nonneg T). apply (ffi_up B (B + d)); [lia|]. by apply core_try_ok.
Qed.
Lemma quic_core_kept {A} (m : St (QuicMqttEngine T) (MqttClientError + A)) :
  preserves (quic_ok B) (quic_ok B) m → one (core_try m).
Proof. intros Hm. apply (quic_core_try 0); [done|]. by rewrite Z.add_0_r. Qed.
Lemma quic_checked {A C} (r : result MqttErrorFFI A) (f : A → St (QuicMqttEngineFFI T) (MqttErrorFFI + C)) :
  r ≠ Panic → (∀ a, r = Ok a → one (f a)) → one (try_bind f (checked r)).
Proof. intros Hr Hf. apply checked_bind; [exact quic_step_up|done|done]. Qed.
Lemma quic_error {A} (r : MqttErrorFFI + A) : one (mret r).
Proof. eapply preserves_weaken; [apply preserves_ret|done|exact quic_step_up]. Qed.
Lemma after_start {A} (m : St (QuicMqttEngineFFI T) A) : one m → one (started;; m).
Proof. intros Hm. eapply preserves_bind; [apply started_ok|]. by intros []. Qed.
Lemma HB1 : B + 1 <= u32_MAX.
Proof. pose proof (quic_events_nonneg T). lia. Qed.
Lemma HB2 : B + 2 <= u32_MAX.
Proof. pose proof (quic_events_nonneg T). lia. Qed.

Lemma quic_ffi_connect_ok addr name tls now_ms : one (quic_ffi_connect addr name tls now_ms).
Proof.
  apply after_start, quic_checked; [apply parse_addr_no_panic|]. intros a _.
  apply preserves_get. intros self _. apply quic_checked; [apply instant_at_no_panic|]. intros now _.
  apply quic_checked; [apply Hfiles|]. intros config _. case_match; [apply quic_error|].
  apply (quic_core_try 1); [done|]. apply quic_connect_ok, HB2.
Qed.
Lemma quic_ffi_0rtt_ok addr name tls options now_ms :
  one (connect_with_zero_rtt addr name tls options now_ms).
Proof.
  apply after_start. case_match; [apply quic_error|].
  apply quic_checked; [apply parse_addr_no_panic|]. intros a _.
  apply quic_checked; [apply Hfiles|]. intros config _. apply preserves_get. intros self _.
  case_match; [apply quic_error|]. apply quic_checked; [apply instant_at_no_panic|]. intros now _.
  apply (quic_core_try 1); [done|]. apply quic_connect_0rtt_ok, HB2.
Qed.
Lemma quic_ffi_datagram_ok data addr now_ms : one (ffi_handle_datagram data addr now_ms).
Proof.
  apply after_start, quic_checked; [apply parse_addr_no_panic|]. intros a _.
  apply preserves_get. intros self _. apply quic_checked; [apply instant_at_no_panic|]. intros now _.
  eapply (preserves_bind _ (ffi_ok B)); [|intros []; apply quic_error].
  apply on_core_ok, handle_datagram_ok.
Qed.
Lemma quic_ffi_datagrams_ok : one ffi_take_outgoing_datagrams.
Proof.
  apply after_start. eapply (preserves_bind _ (ffi_ok B)).
  - apply on_core_ok, take_datagrams_ok.
  - intros l. eapply preserves_weaken; [apply preserves_ret|done|exact quic_step_up].
Qed.
Lemma quic_ffi_reconnect_ok now_ms : one (ffi_reconnect now_ms).
Proof.
  apply after_start, preserves_get. intros self _. apply quic_checked; [apply instant_at_no_panic|].
  intros now _. apply (quic_core_try 2); [done|]. apply quic_reconnect_ok. pose proof (quic_events_nonneg T). lia.
Qed.
Lemma quic_ffi_publish_on_ok stream topic payload options :
  wf_str topic → u8s payload → wf_publish_ffi options → one (ffi_publish_on stream topic payload options).
Proof.
  intros Ht Hp Ho. unfold ffi_publish_on. apply preserves_get. intros self _.
  apply quic_checked; [apply publish_command_ffi_no_panic|]. intros c Hc.
  apply publish_command_ffi_Ok in Hc as [Hc _]; [|done..].
  apply (preserves_try_steps _ (ffi_ok B)).
  - destruct (fp_priority options); [|apply preserves_ret]. apply core_try_ok, set_stream_priority_ok.
  - exact quic_step_up.
  - intros []. apply quic_core_kept. apply quic_publish_on_ok; [exact HB1|done].
Qed.
Lemma quic_ffi_subscribe_ok (f : SubscribeCommand → St (QuicMqttEngine T) (MqttClientError + Z)) options :
  wf_subscribe_ffi options →
  (∀ c, wf_opt is_u16 (sc_packet_id c) → preserves (quic_ok B) (quic_ok B) (f c)) →
  one (self ← get_st; command ←? checked (subscribe_command_ffi options (get_version self)); core_try (f command)).
Proof.
  intros Ho Hf. apply preserves_get. intros self _. apply quic_checked; [apply subscribe_command_ffi_no_panic|].
  intros c Hc. apply subscribe_command_ffi_Ok in Hc as [Hid _]; [|done]. apply quic_core_kept, Hf. by rewrite Hid.
Qed.
Lemma quic_ffi_unsubscribe_ok (f : UnsubscribeCommand → St (QuicMqttEngine T) (MqttClientError + Z)) options :
  wf_unsubscribe_ffi options →
  (∀ c, wf_opt is_u16 (uc_packet_id c) → preserves (quic_ok B) (quic_ok B) (f c)) →
  one (self ← get_st; command ←? checked (unsubscribe_command_ffi options (get_version self)); core_try (f command)).
Proof.
  intros Ho Hf. apply preserves_get. intros self _. apply quic_checked; [apply unsubscribe_command_ffi_no_panic|].
  intros c Hc. apply unsubscribe_command_ffi_Ok in Hc as [Hid _]; [|done]. apply quic_core_kept, Hf. by rewrite Hid.
Qed.
Lemma quic_ffi_acknowledge_ok kind id reason ps stream : one (quic_ffi_acknowledge kind id reason ps stream).
Proof.
  unfold quic_ffi_acknowledge. apply preserves_get. intros self _.
  apply quic_checked; [apply acknowledgement_no_panic|]. intros l _.
  case_match; [|apply quic_error]. apply quic_core_kept, acknowledge_on_ok. exact HB1.
Qed.
End call.

Lemma run_quic_ffi_call_ok B call :
  B + step < u32_MAX → quic_ffi_call_ok call →
  preserves (ffi_ok B) (ffi_ok (B + step)) (run_quic_ffi_call call).
Proof.
  intros HB Hok. pose proof (HB1 B HB) as H1B. pose proof (HB2 B HB) as H2B.
  destruct call; cbn [quic_ffi_call_ok run_quic_ffi_call] in *; try apply unit_of_ok.
  - exact (run_ffi_call_ok B call HB Hok).
  - by apply quic_ffi_connect_ok.
  - by apply quic_ffi_0rtt_ok.
  - by apply quic_ffi_datagram_ok.
  - by apply quic_ffi_datagrams_ok.
  - by apply quic_ffi_reconnect_ok.
  - apply quic_core_kept, notify_ok.
  - by apply quic_core_kept, quic_ping_ok.
  - by apply quic_core_kept, open_stream_ok.
  - by apply quic_core_kept, set_stream_priority_ok.
  - by apply quic_core_kept, finish_stream_ok.
  - by apply quic_core_kept, reset_stream_ok.
  - by apply quic_core_kept, stop_stream_ok.
  - by apply quic_core_kept, quic_close_ok.
  - pose proof (quic_events_nonneg T). apply (ffi_up B (B + 1)); [lia|]. apply on_core_ok.
    exact (reset_state_ok B H2B).
  - destruct Hok as (Ht & Hp & Ho). by apply quic_ffi_publish_on_ok.
  - apply quic_ffi_subscribe_ok; [done|]. intros c Hc. by apply quic_subscribe_on_ok.
  - apply quic_ffi_unsubscribe_ok; [done|]. intros c Hc. by apply quic_unsubscribe_on_ok.
  - apply quic_ffi_subscribe_ok; [done|]. intros c Hc. by apply subscribe_on_control_ok.
  - apply quic_ffi_unsubscribe_ok; [done|]. intros c Hc. by apply unsubscribe_on_control_ok.
  - by apply quic_ffi_acknowledge_ok.
Qed.

Lemma safe_quic_ffi_new clock opts runtime :
  wf_connect_ffi opts → wf_runtime_ffi runtime →
  safe (quic_ffi_new_with_runtime_options (T:=T) clock opts runtime) (λ self,
    mo_sessionless (me_options (core self)) = false →
    check_time_range (me_options (core self)) (me_now (core self)) = Ok () → ffi_ok 1 self).
Proof.
  intros Hw Hr. unfold quic_ffi_new_with_runtime_options.
  apply (constructor_options _ _ _ _ _ (λ options _, Ok _)); [done..|]. intros o n Ho. simpl. intros Hs Ht.
  exact (new_quic_ok o Ho Hs Ht).
Qed.
End quic_object.

(** ** Theorems *)

(** A foreign program cannot make the object over TLS panic, nor tear a packet.  For whatever
    options, the constructor returns an object or an error; on an object with a persistent
    session, whatever sequence of methods is called with whatever arguments, and whatever the TLS
    connection does within [TlsLaws], every call returns, the invariant of the protocol engine
    holds at the end, a checkpoint can be taken, and the plaintext the connection accepted,
    followed by what waits, is a sequence of whole packets. *)
Theorem tls_ffi_never_panics {T} `{TimePointLaws T} `{!Runtime T} `{!RuntimeLaws T}
    `{!ErrorText, !FfiText, !SessionCodec, !SessionCodecLaws, !HostClock T}
    `{!Tls, !TlsLaws, !TlsFiles} opts runtime tls_opts server_name :
  wf_connect_ffi opts → wf_runtime_ffi runtime → tls_client_config tls_opts ≠ Panic →
  tls_ffi_new_with_runtime_options opts runtime tls_opts server_name ≠ Panic ∧
  ∀ (self : TlsMqttEngineFFI T) calls,
    tls_ffi_new_with_runtime_options opts runtime tls_opts server_name = Ok self →
    mo_sessionless (me_options (core self)) = false →
    check_time_range (me_options (core self)) (me_now (core self)) = Ok () →
    Forall tls_ffi_call_ok calls → 2 * zlen calls < u32_MAX - 1 →
    ∃ self', run_tls_ffi calls self = Ok ((), self') ∧ engine_inv (core self') ∧
      ffi_snapshot_session self' ≠ Panic ∧
      encoded_packets (tls_plaintext (tq_tls_connection (fo_engine self'))
                       ++ tq_outgoing_plaintext (fo_engine self')).
Proof.
  intros Hw Hr Hf. pose proof (safe_tls_ffi_new opts runtime tls_opts server_name Hw Hr Hf) as Hnew.
  split; [by eapply safe_no_panic|]. intros self calls Hself Hs Ht Hc Hlen.
  pose proof (safe_Ok_inv _ _ _ Hnew Hself Hs Ht) as Hin.
  pose proof (run_all_ok tls_ffi_call_ok run_tls_ffi_call calls run_tls_ffi_call_ok 1 Hc) as Hrun.
  change (he_step (E:=TlsMqttEngine T)) with 2 in Hrun. specialize (Hrun ltac:(lia) self Hin).
  apply runs_Ok in Hrun as ([] & self' & Hrun & Hok). exists self'. split; [done|].
  pose proof (he_ok_engine _ _ Hok) as [Hi _]. split; [done|]. split; [by eapply ffi_snapshot_no_panic|].
  by destruct Hok as (_ & _ & Hout).
Qed.

(** C14: a foreign program cannot make the object over QUIC panic.  For whatever options, and for
    a reader of certificates that returns a configuration or an error, the constructor returns an
    object or an error.  On an object with a persistent session (an object made with
    [sessionless] is excluded, see [EngineFindings]) whose deadlines are representable from its
    starting time on, whatever sequence of methods is called (connecting with or without 0-RTT,
    datagrams from anywhere, ticks, commands on any stream, stream and close controls,
    acknowledgements, checkpoints) with whatever arguments, whatever the QUIC connection does
    within [QuicLaws] and [QuicEventBound], as long as calls times events stays below
    [u32::MAX - 1]: every call returns, the invariants of the protocol engine and of every stream
    hold at the end, and a checkpoint can be taken. *)
Theorem quic_ffi_never_panics {T} `{TimePointLaws T} `{!Runtime T} `{!RuntimeLaws T}
    `{!ErrorText, !FfiText, !SessionCodec, !SessionCodecLaws}
    `{!Quic T, !QuicHost T, !QuicLaws T, !QuicEventBound T, !QuicFiles T} clock opts runtime :
  wf_connect_ffi opts → wf_runtime_ffi runtime →
  (∀ tls_opts, quic_crypto_config (T:=T) tls_opts ≠ Panic) →
  quic_ffi_new_with_runtime_options (T:=T) clock opts runtime ≠ Panic ∧
  ∀ (self : QuicMqttEngineFFI T) calls,
    quic_ffi_new_with_runtime_options clock opts runtime = Ok self →
    mo_sessionless (me_options (core self)) = false →
    check_time_range (me_options (core self)) (me_now (core self)) = Ok () →
    Forall quic_ffi_call_ok calls → zlen calls * (quic_events T + 2) < u32_MAX - 1 →
    ∃ self', run_quic_ffi calls self = Ok ((), self') ∧ engine_inv (core self') ∧
      ffi_snapshot_session self' ≠ Panic ∧
      streams_ok (qe_data_streams (fo_engine self')) (qe_default_pub_stream (fo_engine self'))
        (qe_default_sub_stream (fo_engine self')).
Proof.
  intros Hw Hr Hf. pose proof (safe_quic_ffi_new clock opts runtime Hw Hr) as Hnew.
  split; [by eapply safe_no_panic|]. intros self calls Hself Hs Ht Hc Hlen.
  pose proof (safe_Ok_inv _ _ _ Hnew Hself Hs Ht) as Hin.
  pose proof (run_all_ok quic_ffi_call_ok run_quic_ffi_call calls (run_quic_ffi_call_ok Hf) 1 Hc) as Hrun.
  change (he_step (E:=QuicMqttEngine T)) with (quic_events T + 2) in Hrun.
  specialize (Hrun ltac:(lia) self Hin).
  apply runs_Ok in Hrun as ([] & self' & Hrun & Hok). exists self'. split; [done|].
  pose proof (he_ok_engine _ _ Hok) as [Hi _]. split; [done|]. split; [by eapply ffi_snapshot_no_panic|].
  by destruct Hok as [_ Hst].
Qed.

#[local] Existing Instance Runtime_ordered.
#[local] Existing Instance RuntimeLaws_ordered.
#[local] Existing Instance SessionCodec_sample.
#[local] Existing Instance SessionCodecLaws_sample.
#[local] Existing Instance FfiClock_sample.

Definition sample_tls_options : MqttTlsOptionsFFI :=
  {| fto_ca_cert_file := None; fto_client_cert_file := None; fto_client_key_file := None;
     fto_insecure_skip_verify := false; fto_alpn_protocols := [str "mqtt"]; fto_enable_key_log := false |}.

(** A peer that answers the CONNECT in two reads and takes ten bytes of output at a time. *)
#[local] Instance Tls_ffi_sample : Tls := Tls_script sample_script_tls.
#[local] Instance TlsLaws_ffi_sample : TlsLaws := TlsLaws_script sample_script_tls.
#[local] Instance TlsFiles_sample : TlsFiles := λ _, Ok ().

Definition sample_tls_object_calls : list TlsFfiCall :=
  [TlsShared (FfiRestore [1]); TlsFfiConnect; TlsShared (FfiRestore [1]); TlsShared (FfiTick 9);
   TlsFfiTakeSocketData; TlsFfiSocketData [1; 2; 3; 4]; TlsShared (FfiTick 11);
   TlsShared (FfiPublish (str "a/b") [1; 2] 1 None); TlsShared (FfiTick 12); TlsFfiSocketData [5];
   TlsShared FfiTakeEvents; TlsFfiConnectionLost; TlsFfiReset; TlsFfiConnectChecked;
   TlsShared (FfiTick 14)].
Definition sample_tls_object : result MqttErrorFFI (TlsMqttEngineFFI Timestamp) :=
  tls_ffi_new_with_runtime_options sample_object_options sample_object_runtime sample_tls_options
    (str "broker").

Lemma tls_ffi_never_panics_witness :
  ∃ self self', sample_tls_object = Ok self ∧ run_tls_ffi sample_tls_object_calls self = Ok ((), self') ∧
    engine_inv (core self') ∧ ffi_snapshot_session self' ≠ Panic ∧
    encoded_packets (tls_plaintext (tq_tls_connection (fo_engine self'))
                     ++ tq_outgoing_plaintext (fo_engine self')).
Proof.
  assert (Hf : tls_client_config sample_tls_options ≠ Panic) by (by vm_compute).
  destruct (tls_ffi_never_panics sample_object_options sample_object_runtime sample_tls_options (str "broker")
    sample_object_options_wf sample_object_runtime_wf Hf) as [_ Hrun].
  eexists. destruct (Hrun _ sample_tls_object_calls eq_refl) as (self' & Hcalls).
  - reflexivity.
  - reflexivity.
  - unfold sample_tls_object_calls.
    repeat (apply Forall_cons_2; [simpl; unfold wf_str, is_u8; first [done|repeat split; try done; try u8s_lit; simpl; lia]|]).
    apply Forall_nil_2.
  - vm_compute. done.
  - exists self'. split; [reflexivity|]. exact Hcalls.
Defined.

#[local] Instance Quic_ffi_sample : Quic Timestamp := Quic_script sample_endpoint.
#[local] Existing Instance QuicHost_script.
#[local] Instance QuicLaws_ffi_sample : QuicLaws Timestamp := QuicLaws_script sample_endpoint.
#[local] Instance QuicEventBound_sample : QuicEventBound Timestamp :=
  {| quic_events := 8; quic_events_nonneg := ltac:(done); quic_events_bound := script_events_bounded |}.
#[local] Instance QuicFiles_sample : QuicFiles Timestamp := {
  quic_crypto_config tls_opts := Ok (fto_alpn_protocols tls_opts);
  socket_addr_parse b := if bool_decide (b = str "bad") then inl "invalid socket address syntax" else inr 0;
  socket_addr_to_string _ := str "10.0.0.1:14567";
}.

Definition sample_datagram_ffi : QuicFfiCall := QuicFfiDatagram [] (str "10.0.0.1:14567") 3.
Definition sample_quic_object_calls : list QuicFfiCall :=
  [QuicFfiConnect (str "bad") (str "broker") sample_tls_options 1;
   QuicFfiConnect (str "10.0.0.1:14567") (str "broker") sample_tls_options 1; QuicShared (FfiTick 2);
   sample_datagram_ffi; QuicShared (FfiTick 3); sample_datagram_ffi; QuicShared (FfiTick 4);
   QuicFfiOpenStream; QuicFfiPublishOn 8 (str "a/b") [1] MqttPublishOptionsFFI_default;
   QuicShared (FfiSubscribe (str "a/#") 1); QuicShared (FfiTick 5); sample_datagram_ffi;
   QuicFfiTakeDatagrams; QuicFfiReset 8 3; QuicFfiAcknowledge FPubAck 1 0 [] None;
   QuicFfiCloseSilent; QuicShared (FfiTick 6)].
Definition sample_quic_object : result MqttErrorFFI (QuicMqttEngineFFI Timestamp) :=
  quic_ffi_new_with_runtime_options sample_clock sample_object_options sample_object_runtime.

Lemma quic_ffi_never_panics_witness :
  ∃ self self', sample_quic_object = Ok self ∧ run_quic_ffi sample_quic_object_calls self = Ok ((), self') ∧
    engine_inv (core self') ∧ ffi_snapshot_session self' ≠ Panic ∧
    streams_ok (qe_data_streams (fo_engine self')) (qe_default_pub_stream (fo_engine self'))
      (qe_default_sub_stream (fo_engine self')).
Proof.
  assert (Hf : ∀ tls_opts, quic_crypto_config (T:=Timestamp) tls_opts ≠ Panic) by (intros tls_opts; discriminate).
  destruct (quic_ffi_never_panics sample_clock sample_object_options sample_object_runtime
    sample_object_options_wf sample_object_runtime_wf Hf) as [_ Hrun].
  eexists. destruct (Hrun _ sample_quic_object_calls eq_refl) as (self' & Hcalls).
  - reflexivity.
  - reflexivity.
  - unfold sample_quic_object_calls.
    repeat (apply Forall_cons_2; [simpl; unfold wf_str, is_u8; first [done|repeat split; try done; try u8s_lit; simpl; first [lia|constructor]]|]).
    apply Forall_nil_2.
  - vm_compute. done.
  - exists self'. split; [reflexivity|]. exact Hcalls.
Defined.
