(* ===== verification/Grpc.v ===== *)
(** * The gRPC relay: MQTT packets as protocol-buffer messages

    Models [src/mqtt_grpc_duality/src/lib.rs], the conversions of the gRPC proxy between MQTT
    packets and the messages of [src/mqtt_grpc_duality/proto/{mqttv3,mqttv5,mqtt}.proto].  The
    message types are those the build generates from the [.proto] files; their [uint32] and enum
    fields hold [u32] and [i32] values, and casts to narrower types truncate.  A message type
    keeps its name, prefixed by [Pb3] or [Pb5] for its package; the acknowledgements, which
    have the same fields, share one record per shape, as the packets do.

    Proves that relaying a packet that can be encoded changes nothing on the wire, and that
    whatever message arrives is turned into a packet whose fields are in range. *)
From S2P Require Import Prelude BaseData TopicFilter Validation Properties Packets Framing.
From S2P Require Import AckCodec ControlCodec PublishCodec SubscribeCodec ConnectCodec Codec.
From S2P Require Import Stream Leveled EncodeFacts.

(** ** [mqttv5.proto] *)
Inductive PropertyType : Type :=
  | PtPayloadFormatIndicator (v : bool)
  | PtMessageExpiryInterval (v : Z)
  | PtContentType (v : bytes)
  | PtResponseTopic (v : bytes)
  | PtCorrelationData (v : bytes)
  | PtSubscriptionIdentifier (v : Z)
  | PtSessionExpiryInterval (v : Z)
  | PtAssignedClientIdentifier (v : bytes)
  | PtServerKeepAlive (v : Z)
  | PtAuthenticationMethod (v : bytes)
  | PtAuthenticationData (v : bytes)
  | PtRequestProblemInformation (v : bool)
  | PtWillDelayInterval (v : Z)
  | PtRequestResponseInformation (v : bool)
  | PtResponseInformation (v : bytes)
  | PtServerReference (v : bytes)
  | PtReasonString (v : bytes)
  | PtReceiveMaximum (v : Z)
  | PtTopicAliasMaximum (v : Z)
  | PtTopicAlias (v : Z)
  | PtMaximumQos (v : Z)
  | PtRetainAvailable (v : bool)
  | PtUserProperty (key value : bytes)
  | PtMaximumPacketSize (v : Z)
  | PtWildcardSubscriptionAvailable (v : bool)
  | PtSubscriptionIdentifiersAvailable (v : bool)
  | PtSharedSubscriptionAvailable (v : bool).

(** [message Property]: a [oneof] may be unset. *)
Record PbProperty : Type := { property_type : option PropertyType }.

Record Pb5Will : Type := {
  pb5w_topic : bytes;
  pb5w_payload : bytes;
  pb5w_qos : Z;
  pb5w_retain : bool;
  pb5w_properties : list PbProperty;
}.

Record Pb5Connect : Type := {
  pb5c_client_id : bytes;
  pb5c_protocol_name : bytes;
  pb5c_protocol_version : Z;
  pb5c_clean_start : bool;
  pb5c_keep_alive : Z;
  pb5c_username : bytes;
  pb5c_password : bytes;
  pb5c_will : option Pb5Will;
  pb5c_properties : list PbProperty;
}.

Record Pb5Connack : Type := {
  pb5ca_session_present : bool;
  pb5ca_reason_code : Z;
  pb5ca_properties : list PbProperty;
}.

Record Pb5Publish : Type := {
  pb5p_topic : bytes;
  pb5p_message_id : Z;
  pb5p_qos : Z;
  pb5p_retain : bool;
  pb5p_dup : bool;
  pb5p_payload : bytes;
  pb5p_properties : list PbProperty;
}.

(** [Puback], [Pubrec], [Pubrel] and [Pubcomp]. *)
Record Pb5PacketIdAck : Type := {
  pb5a_message_id : Z;
  pb5a_reason_code : Z;
  pb5a_properties : list PbProperty;
}.

Record Pb5TopicSubscription : Type := {
  pb5t_topic_filter : bytes;
  pb5t_qos : Z;
  pb5t_no_local : bool;
  pb5t_retain_as_published : bool;
  pb5t_retain_handling : Z;
}.

Record Pb5Subscribe : Type := {
  pb5s_message_id : Z;
  pb5s_subscriptions : list Pb5TopicSubscription;
  pb5s_properties : list PbProperty;
}.

(** [Suback] and [Unsuback]. *)
Record Pb5ReasonCodesAck : Type := {
  pb5r_message_id : Z;
  pb5r_reason_codes : list Z;
  pb5r_properties : list PbProperty;
}.

Record Pb5Unsubscribe : Type := {
  pb5u_message_id : Z;
  pb5u_topic_filters : list bytes;
  pb5u_properties : list PbProperty;
}.

(** [Disconnect] and [Auth]. *)
Record Pb5ReasonCode : Type := {
  pb5d_reason_code : Z;
  pb5d_properties : list PbProperty;
}.

Inductive Pb5Packet : Type :=
  | Pb5ConnectPacket (p : Pb5Connect)
  | Pb5ConnackPacket (p : Pb5Connack)
  | Pb5PublishPacket (p : Pb5Publish)
  | Pb5PubackPacket (p : Pb5PacketIdAck)
  | Pb5PubrecPacket (p : Pb5PacketIdAck)
  | Pb5PubrelPacket (p : Pb5PacketIdAck)
  | Pb5PubcompPacket (p : Pb5PacketIdAck)
  | Pb5SubscribePacket (p : Pb5Subscribe)
  | Pb5SubackPacket (p : Pb5ReasonCodesAck)
  | Pb5UnsubscribePacket (p : Pb5Unsubscribe)
  | Pb5UnsubackPacket (p : Pb5ReasonCodesAck)
  | Pb5PingreqPacket
  | Pb5PingrespPacket
  | Pb5DisconnectPacket (p : Pb5ReasonCode)
  | Pb5AuthPacket (p : Pb5ReasonCode).

Record Pb5MqttPacket : Type := { pb5_packet : option Pb5Packet }.

(** ** [mqttv3.proto] *)
Record Pb3Will : Type := {
  pb3w_topic : bytes;
  pb3w_payload : bytes;
  pb3w_qos : Z;
  pb3w_retain : bool;
}.

Record Pb3Connect : Type := {
  pb3c_client_id : bytes;
  pb3c_protocol_name : bytes;
  pb3c_protocol_version : Z;
  pb3c_clean_session : bool;
  pb3c_keep_alive : Z;
  pb3c_username : bytes;
  pb3c_password : bytes;
  pb3c_will : option Pb3Will;
}.

Record Pb3Connack : Type := {
  pb3ca_session_present : bool;
  pb3ca_return_code : Z;
}.

Record Pb3Publish : Type := {
  pb3p_topic : bytes;
  pb3p_message_id : Z;
  pb3p_qos : Z;
  pb3p_retain : bool;
  pb3p_dup : bool;
  pb3p_payload : bytes;
}.

(** [Puback], [Pubrec], [Pubrel], [Pubcomp] and [Unsuback]. *)
Record Pb3PacketIdAck : Type := { pb3a_message_id : Z }.

Record Pb3TopicSubscription : Type := {
  pb3t_topic_filter : bytes;
  pb3t_qos : Z;
}.

Record Pb3Subscribe : Type := {
  pb3s_message_id : Z;
  pb3s_subscriptions : list Pb3TopicSubscription;
}.

Record Pb3Suback : Type := {
  pb3sa_message_id : Z;
  pb3sa_return_codes : list Z;
}.

Record Pb3Unsubscribe : Type := {
  pb3u_message_id : Z;
  pb3u_topic_filters : list bytes;
}.

Inductive Pb3Packet : Type :=
  | Pb3ConnectPacket (p : Pb3Connect)
  | Pb3ConnackPacket (p : Pb3Connack)
  | Pb3PublishPacket (p : Pb3Publish)
  | Pb3PubackPacket (p : Pb3PacketIdAck)
  | Pb3PubrecPacket (p : Pb3PacketIdAck)
  | Pb3PubrelPacket (p : Pb3PacketIdAck)
  | Pb3PubcompPacket (p : Pb3PacketIdAck)
  | Pb3SubscribePacket (p : Pb3Subscribe)
  | Pb3SubackPacket (p : Pb3Suback)
  | Pb3UnsubscribePacket (p : Pb3Unsubscribe)
  | Pb3UnsubackPacket (p : Pb3PacketIdAck)
  | Pb3PingreqPacket
  | Pb3PingrespPacket
  | Pb3DisconnectPacket.

Record Pb3MqttPacket : Type := { pb3_packet : option Pb3Packet }.

(** ** [mqtt.proto] *)
Inductive ControlType : Type := Establishv3 | Establishv5 | Terminate | Heartbeat.

Definition ControlType_as_i32 (c : ControlType) : Z :=
  match c with Establishv3 => 0 | Establishv5 => 1 | Terminate => 2 | Heartbeat => 3 end.

Inductive MessageDirection : Type := ClientToBroker | BrokerToClient.

Definition MessageDirection_as_i32 (d : MessageDirection) : Z :=
  match d with ClientToBroker => 0 | BrokerToClient => 1 end.

Record SessionControl : Type := {
  ctl_control_type : Z;
  ctl_client_id : bytes;
}.

Inductive StreamPayload : Type :=
  | MqttV3Packet (p : Pb3MqttPacket)
  | MqttV5Packet (p : Pb5MqttPacket)
  | SessionControlPayload (c : SessionControl).

Record MqttStreamMessage : Type := {
  sm_sequence_id : Z;
  sm_direction : Z;
  sm_payload : option StreamPayload;
}.

(** ** Properties *)

(** [r.ok()] *)
Definition result_ok {E A} (r : result E A) : option A :=
  match r with Ok x => Some x | _ => None end.

(** The trait [TryInto] of the two property conversions; its error type is [()]. *)
Class TryInto (A B : Type) : Type := try_into : A → result () B.

#[export] Instance PbProperty_try_from : TryInto Property PbProperty := λ p,
  let property_type :=
    match p with
    | PayloadFormatIndicator val => Some (PtPayloadFormatIndicator (negb (val =? 0)))
    | MessageExpiryInterval val => Some (PtMessageExpiryInterval val)
    | ContentType val => Some (PtContentType val)
    | ResponseTopic val => Some (PtResponseTopic val)
    | CorrelationData val => Some (PtCorrelationData val)
    | SubscriptionIdentifier val => Some (PtSubscriptionIdentifier val)
    | SessionExpiryInterval val => Some (PtSessionExpiryInterval val)
    | AssignedClientIdentifier val => Some (PtAssignedClientIdentifier val)
    | ServerKeepAlive val => Some (PtServerKeepAlive val)
    | AuthenticationMethod val => Some (PtAuthenticationMethod val)
    | AuthenticationData val => Some (PtAuthenticationData val)
    | RequestProblemInformation val => Some (PtRequestProblemInformation (negb (val =? 0)))
    | WillDelayInterval val => Some (PtWillDelayInterval val)
    | RequestResponseInformation val => Some (PtRequestResponseInformation (negb (val =? 0)))
    | ResponseInformation val => Some (PtResponseInformation val)
    | ServerReference val => Some (PtServerReference val)
    | ReasonString val => Some (PtReasonString val)
    | ReceiveMaximum val => Some (PtReceiveMaximum val)
    | TopicAliasMaximum val => Some (PtTopicAliasMaximum val)
    | TopicAlias val => Some (PtTopicAlias val)
    | MaximumQoS val => Some (PtMaximumQos val)
    | RetainAvailable val => Some (PtRetainAvailable (negb (val =? 0)))
    | UserProperty key value => Some (PtUserProperty key value)
    | MaximumPacketSize val => Some (PtMaximumPacketSize val)
    | WildcardSubscriptionAvailable val =>
        Some (PtWildcardSubscriptionAvailable (negb (val =? 0)))
    | SubscriptionIdentifierAvailable val =>
        Some (PtSubscriptionIdentifiersAvailable (negb (val =? 0)))
    | SharedSubscriptionAvailable val => Some (PtSharedSubscriptionAvailable (negb (val =? 0)))
    end in
  Ok {| property_type := property_type |}.

#[export] Instance Property_try_from_pb : TryInto PbProperty Property := λ p,
  match property_type p with
  | Some (PtPayloadFormatIndicator val) => Ok (PayloadFormatIndicator (if val then 1 else 0))
  | Some (PtMessageExpiryInterval val) => Ok (MessageExpiryInterval val)
  | Some (PtContentType val) => Ok (ContentType val)
  | Some (PtResponseTopic val) => Ok (ResponseTopic val)
  | Some (PtCorrelationData val) => Ok (CorrelationData val)
  | Some (PtSubscriptionIdentifier val) => Ok (SubscriptionIdentifier val)
  | Some (PtSessionExpiryInterval val) => Ok (SessionExpiryInterval val)
  | Some (PtAssignedClientIdentifier val) => Ok (AssignedClientIdentifier val)
  | Some (PtServerKeepAlive val) => Ok (ServerKeepAlive (as_u16 val))
  | Some (PtAuthenticationMethod val) => Ok (AuthenticationMethod val)
  | Some (PtAuthenticationData val) => Ok (AuthenticationData val)
  | Some (PtRequestProblemInformation val) =>
      Ok (RequestProblemInformation (if val then 1 else 0))
  | Some (PtWillDelayInterval val) => Ok (WillDelayInterval val)
  | Some (PtRequestResponseInformation val) =>
      Ok (RequestResponseInformation (if val then 1 else 0))
  | Some (PtResponseInformation val) => Ok (ResponseInformation val)
  | Some (PtServerReference val) => Ok (ServerReference val)
  | Some (PtReasonString val) => Ok (ReasonString val)
  | Some (PtReceiveMaximum val) => Ok (ReceiveMaximum (as_u16 val))
  | Some (PtTopicAliasMaximum val) => Ok (TopicAliasMaximum (as_u16 val))
  | Some (PtTopicAlias val) => Ok (TopicAlias (as_u16 val))
  | Some (PtMaximumQos val) => Ok (MaximumQoS (as_u8 val))
  | Some (PtRetainAvailable val) => Ok (RetainAvailable (if val then 1 else 0))
  | Some (PtUserProperty key value) => Ok (UserProperty key value)
  | Some (PtMaximumPacketSize val) => Ok (MaximumPacketSize val)
  | Some (PtWildcardSubscriptionAvailable val) =>
      Ok (WildcardSubscriptionAvailable (if val then 1 else 0))
  | Some (PtSubscriptionIdentifiersAvailable val) =>
      Ok (SubscriptionIdentifierAvailable (if val then 1 else 0))
  | Some (PtSharedSubscriptionAvailable val) =>
      Ok (SharedSubscriptionAvailable (if val then 1 else 0))
  | None => Err ()
  end.

(** [properties.into_iter().filter_map(|p| p.try_into().ok()).collect()] *)
Definition convert_properties_to_pb {T} `{!TryInto T PbProperty} (properties : list T)
    : list PbProperty :=
  omap (λ p, result_ok (try_into p)) properties.

Definition convert_properties_from_pb {T} `{!TryInto PbProperty T}
    (properties : list PbProperty) : list T :=
  omap (λ p, result_ok (try_into p)) properties.

(** [if let Some(v) = o { if let Ok(prop) = mk(v).try_into() { properties.push(prop); } }] *)
Definition push_pb_property {A} (mk : A → Property) (o : option A)
    (properties : list PbProperty) : list PbProperty :=
  match o with
  | Some v =>
      match (try_into (mk v) : result () PbProperty) with
      | Ok prop => properties ++ [prop]
      | _ => properties
      end
  | None => properties
  end.

Definition convert_will_properties_to_pb (will_props : WillProperties) : list PbProperty :=
  let properties := [] in
  let properties :=
    push_pb_property WillDelayInterval (wp_will_delay_interval will_props) properties in
  let properties :=
    push_pb_property PayloadFormatIndicator (wp_payload_format_indicator will_props)
      properties in
  let properties :=
    push_pb_property MessageExpiryInterval (wp_message_expiry_interval will_props) properties in
  let properties := push_pb_property ContentType (wp_content_type will_props) properties in
  let properties := push_pb_property ResponseTopic (wp_response_topic will_props) properties in
  let properties :=
    push_pb_property CorrelationData (wp_correlation_data will_props) properties in
  properties ++ convert_properties_to_pb (wp_user_properties will_props).

(** The body of the loop of [convert_pb_to_will_properties]. *)
Definition set_pb_will_property (will_props : WillProperties) (pb_prop : PbProperty)
    : WillProperties :=
  match property_type pb_prop with
  | Some property_type =>
      match property_type with
      | PtWillDelayInterval val => will_props <| wp_will_delay_interval := Some val |>
      | PtPayloadFormatIndicator val =>
          will_props <| wp_payload_format_indicator := Some (if val then 1 else 0) |>
      | PtMessageExpiryInterval val => will_props <| wp_message_expiry_interval := Some val |>
      | PtContentType val => will_props <| wp_content_type := Some val |>
      | PtResponseTopic val => will_props <| wp_response_topic := Some val |>
      | PtCorrelationData val => will_props <| wp_correlation_data := Some val |>
      | PtUserProperty key value =>
          will_props <| wp_user_properties ::= λ l, l ++ [UserProperty key value] |>
      | _ => will_props
      end
  | None => will_props
  end.

Definition convert_pb_to_will_properties (pb_properties : list PbProperty) : WillProperties :=
  fold_left set_pb_will_property pb_properties WillProperties_new.

(** ** MQTT 5 packets *)
Definition MqttConnect5_is_clean_start (self : MqttConnect5) : bool := c5_clean_start self.

Definition Pb5Will_from (will : Will5) : Pb5Will := {|
  pb5w_qos := w5_will_qos will; pb5w_retain := w5_will_retain will;
  pb5w_topic := w5_will_topic will; pb5w_payload := w5_will_message will;
  pb5w_properties := convert_will_properties_to_pb (w5_properties will);
|}.

Definition Pb5Connect_from (connect : MqttConnect5) : Pb5Connect := {|
  pb5c_client_id := c5_client_id connect;
  pb5c_protocol_name := str "MQTT";
  pb5c_protocol_version := c5_protocol_version connect;
  pb5c_clean_start := MqttConnect5_is_clean_start connect;
  pb5c_keep_alive := c5_keep_alive connect;
  pb5c_username := default [] (c5_username connect);
  pb5c_password := default [] (c5_password connect);
  pb5c_will := Pb5Will_from <$> c5_will connect;
  pb5c_properties := convert_properties_to_pb (c5_properties connect);
|}.

(** [if s.is_empty() { None } else { Some(s) }] *)
Definition non_empty (s : bytes) : option bytes :=
  if bool_decide (s = []) then None else Some s.

Definition Will5_from_pb (will : Pb5Will) : Will5 := {|
  w5_will_qos := as_u8 (pb5w_qos will); w5_will_retain := pb5w_retain will;
  w5_will_topic := pb5w_topic will; w5_will_message := pb5w_payload will;
  w5_properties := convert_pb_to_will_properties (pb5w_properties will);
|}.

Definition MqttConnect5_from_pb (connect : Pb5Connect) : MqttConnect5 :=
  let properties := convert_properties_from_pb (pb5c_properties connect) in
  MqttConnect5_new (pb5c_client_id connect) (non_empty (pb5c_username connect))
    (non_empty (pb5c_password connect)) (Will5_from_pb <$> pb5c_will connect)
    (as_u16 (pb5c_keep_alive connect)) (pb5c_clean_start connect) properties.

Definition Pb5Connack_from (connack : MqttConnAck5) : Pb5Connack := {|
  pb5ca_session_present := ca5_session_present connack;
  pb5ca_reason_code := ca5_reason_code connack;
  pb5ca_properties := default [] (convert_properties_to_pb <$> ca5_properties connack);
|}.

Definition MqttConnAck5_from_pb (connack : Pb5Connack) : MqttConnAck5 :=
  let properties := convert_properties_from_pb (pb5ca_properties connack) in {|
  ca5_session_present := pb5ca_session_present connack;
  ca5_reason_code := as_u8 (pb5ca_reason_code connack);
  ca5_properties := Some properties;
|}.

Definition MqttPublish5_new (qos : Z) (topic_name : bytes) (packet_id : option Z)
    (payload : bytes) (retain dup : bool) : MqttPublish5 := {|
  p5_topic_name := topic_name; p5_qos := qos; p5_dup := dup; p5_retain := retain;
  p5_packet_id := packet_id; p5_payload := payload; p5_properties := [];
|}.

#[export] Instance Rebuild_MqttPublish5 : Rebuild MqttPublish5 := λ p, {|
  p5_topic_name := p5_topic_name p; p5_qos := p5_qos p; p5_dup := p5_dup p;
  p5_retain := p5_retain p; p5_packet_id := p5_packet_id p; p5_payload := p5_payload p;
  p5_properties := p5_properties p;
|}.

Definition Pb5Publish_from (publish : MqttPublish5) : Pb5Publish := {|
  pb5p_topic := p5_topic_name publish;
  pb5p_payload := p5_payload publish;
  pb5p_qos := p5_qos publish;
  pb5p_retain := p5_retain publish;
  pb5p_dup := p5_dup publish;
  pb5p_message_id := default 0 (p5_packet_id publish);
  pb5p_properties := convert_properties_to_pb (p5_properties publish);
|}.

Definition MqttPublish5_from_pb (publish : Pb5Publish) : MqttPublish5 :=
  let mqtt_publish :=
    MqttPublish5_new (as_u8 (pb5p_qos publish)) (pb5p_topic publish)
      (Some (as_u16 (pb5p_message_id publish))) (pb5p_payload publish)
      (pb5p_retain publish) (pb5p_dup publish) in
  mqtt_publish <| p5_properties := convert_properties_from_pb (pb5p_properties publish) |>.

Definition Pb5PacketIdAck_from (ack : PacketIdAck5) : Pb5PacketIdAck := {|
  pb5a_message_id := a5_packet_id ack;
  pb5a_reason_code := a5_reason_code ack;
  pb5a_properties := convert_properties_to_pb (a5_properties ack);
|}.

Definition PacketIdAck5_from_pb (ack : Pb5PacketIdAck) : PacketIdAck5 := {|
  a5_packet_id := as_u16 (pb5a_message_id ack);
  a5_reason_code := as_u8 (pb5a_reason_code ack);
  a5_properties := convert_properties_from_pb (pb5a_properties ack);
|}.

Definition Pb5TopicSubscription_from (sub : TopicSubscription) : Pb5TopicSubscription := {|
  pb5t_topic_filter := ts_topic_filter sub;
  pb5t_qos := ts_qos sub;
  pb5t_no_local := ts_no_local sub;
  pb5t_retain_as_published := ts_retain_as_published sub;
  pb5t_retain_handling := ts_retain_handling sub;
|}.

Definition TopicSubscription_from_pb (s : Pb5TopicSubscription) : TopicSubscription := {|
  ts_topic_filter := pb5t_topic_filter s;
  ts_qos := as_u8 (pb5t_qos s);
  ts_no_local := pb5t_no_local s;
  ts_retain_as_published := pb5t_retain_as_published s;
  ts_retain_handling := as_u8 (pb5t_retain_handling s);
|}.

Definition Pb5Subscribe_from (subscribe : MqttSubscribe5) : Pb5Subscribe := {|
  pb5s_message_id := s5_packet_id subscribe;
  pb5s_subscriptions := map Pb5TopicSubscription_from (s5_subscriptions subscribe);
  pb5s_properties := convert_properties_to_pb (s5_properties subscribe);
|}.

Definition MqttSubscribe5_from_pb (subscribe : Pb5Subscribe) : MqttSubscribe5 := {|
  s5_packet_id := as_u16 (pb5s_message_id subscribe);
  s5_properties := convert_properties_from_pb (pb5s_properties subscribe);
  s5_subscriptions := map TopicSubscription_from_pb (pb5s_subscriptions subscribe);
|}.

Definition Pb5ReasonCodesAck_from (ack : ReasonCodesAck5) : Pb5ReasonCodesAck := {|
  pb5r_message_id := r5_packet_id ack;
  pb5r_reason_codes := r5_reason_codes ack;
  pb5r_properties := convert_properties_to_pb (r5_properties ack);
|}.

Definition ReasonCodesAck5_from_pb (ack : Pb5ReasonCodesAck) : ReasonCodesAck5 := {|
  r5_packet_id := as_u16 (pb5r_message_id ack);
  r5_reason_codes := map as_u8 (pb5r_reason_codes ack);
  r5_properties := convert_properties_from_pb (pb5r_properties ack);
|}.

Definition Pb5Unsubscribe_from (unsubscribe : MqttUnsubscribe5) : Pb5Unsubscribe := {|
  pb5u_message_id := u5_packet_id unsubscribe;
  pb5u_topic_filters := u5_topic_filters unsubscribe;
  pb5u_properties := convert_properties_to_pb (u5_properties unsubscribe);
|}.

Definition MqttUnsubscribe5_from_pb (unsubscribe : Pb5Unsubscribe) : MqttUnsubscribe5 := {|
  u5_packet_id := as_u16 (pb5u_message_id unsubscribe);
  u5_properties := convert_properties_from_pb (pb5u_properties unsubscribe);
  u5_topic_filters := pb5u_topic_filters unsubscribe;
|}.

Definition Pb5Disconnect_from (disconnect : MqttDisconnect5) : Pb5ReasonCode := {|
  pb5d_reason_code := d5_reason_code disconnect;
  pb5d_properties := convert_properties_to_pb (d5_properties disconnect);
|}.

Definition MqttDisconnect5_from_pb (disconnect : Pb5ReasonCode) : MqttDisconnect5 := {|
  d5_reason_code := as_u8 (pb5d_reason_code disconnect);
  d5_properties := convert_properties_from_pb (pb5d_properties disconnect);
|}.

Definition Pb5Auth_from (auth : MqttAuth) : Pb5ReasonCode := {|
  pb5d_reason_code := au_reason_code auth;
  pb5d_properties := convert_properties_to_pb (au_properties auth);
|}.

Definition MqttAuth_from_pb (auth : Pb5ReasonCode) : MqttAuth := {|
  au_reason_code := as_u8 (pb5d_reason_code auth);
  au_properties := convert_properties_from_pb (pb5d_properties auth);
|}.

(** ** MQTT 3.1.1 packets *)
Definition Pb3Will_from (will : Will3) : Pb3Will := {|
  pb3w_qos := w3_qos will; pb3w_retain := w3_retain will; pb3w_topic := w3_topic will;
  pb3w_payload := w3_message will;
|}.

Definition Pb3Connect_from (connect : MqttConnect3) : Pb3Connect := {|
  pb3c_client_id := c3_client_id connect;
  pb3c_protocol_name := c3_protocol_name connect;
  pb3c_protocol_version := c3_protocol_version connect;
  pb3c_clean_session := c3_clean_session connect;
  pb3c_keep_alive := c3_keep_alive connect;
  pb3c_username := default [] (c3_username connect);
  pb3c_password := default [] (c3_password connect);
  pb3c_will := Pb3Will_from <$> c3_will connect;
|}.

Definition Will3_from_pb (w : Pb3Will) : Will3 := {|
  w3_qos := as_u8 (pb3w_qos w); w3_retain := pb3w_retain w; w3_topic := pb3w_topic w;
  w3_message := pb3w_payload w;
|}.

Definition MqttConnect3_from_pb (connect : Pb3Connect) : MqttConnect3 :=
  let will := Will3_from_pb <$> pb3c_will connect in {|
  c3_protocol_name := pb3c_protocol_name connect;
  c3_protocol_version := as_u8 (pb3c_protocol_version connect);
  c3_client_id := pb3c_client_id connect;
  c3_clean_session := pb3c_clean_session connect;
  c3_keep_alive := as_u16 (pb3c_keep_alive connect);
  c3_username := non_empty (pb3c_username connect);
  c3_password := non_empty (pb3c_password connect);
  c3_will := will;
|}.

Definition Pb3Connack_from (connack : MqttConnAck3) : Pb3Connack := {|
  pb3ca_session_present := ca3_session_present connack;
  pb3ca_return_code := ca3_return_code connack;
|}.

Definition MqttConnAck3_from_pb (connack : Pb3Connack) : MqttConnAck3 := {|
  ca3_session_present := pb3ca_session_present connack;
  ca3_return_code := as_u8 (pb3ca_return_code connack);
|}.

Definition Pb3Publish_from (publish : MqttPublish3) : Pb3Publish := {|
  pb3p_topic := p3_topic_name publish;
  pb3p_payload := p3_payload publish;
  pb3p_qos := p3_qos publish;
  pb3p_retain := p3_retain publish;
  pb3p_dup := p3_dup publish;
  pb3p_message_id := default 0 (p3_message_id publish);
|}.

Definition MqttPublish3_from_pb (publish : Pb3Publish) : MqttPublish3 := {|
  p3_topic_name := pb3p_topic publish;
  p3_payload := pb3p_payload publish;
  p3_qos := as_u8 (pb3p_qos publish);
  p3_retain := pb3p_retain publish;
  p3_dup := pb3p_dup publish;
  p3_message_id :=
    if pb3p_message_id publish =? 0 then None else Some (as_u16 (pb3p_message_id publish));
|}.

Definition Pb3PacketIdAck_from (ack : PacketIdAck3) : Pb3PacketIdAck :=
  {| pb3a_message_id := a3_message_id ack |}.

Definition PacketIdAck3_from_pb (ack : Pb3PacketIdAck) : PacketIdAck3 :=
  {| a3_message_id := as_u16 (pb3a_message_id ack) |}.

Definition Pb3TopicSubscription_from (sub : SubscriptionTopic) : Pb3TopicSubscription :=
  {| pb3t_topic_filter := st_topic_filter sub; pb3t_qos := st_qos sub |}.

Definition SubscriptionTopic_from_pb (sub : Pb3TopicSubscription) : SubscriptionTopic :=
  {| st_topic_filter := pb3t_topic_filter sub; st_qos := as_u8 (pb3t_qos sub) |}.

Definition Pb3Subscribe_from (subscribe : MqttSubscribe3) : Pb3Subscribe := {|
  pb3s_message_id := s3_message_id subscribe;
  pb3s_subscriptions := map Pb3TopicSubscription_from (s3_subscriptions subscribe);
|}.

Definition MqttSubscribe3_from_pb (subscribe : Pb3Subscribe) : MqttSubscribe3 := {|
  s3_message_id := as_u16 (pb3s_message_id subscribe);
  s3_subscriptions := map SubscriptionTopic_from_pb (pb3s_subscriptions subscribe);
|}.

Definition Pb3Suback_from (suback : MqttSubAck3) : Pb3Suback := {|
  pb3sa_message_id := sa3_message_id suback;
  pb3sa_return_codes := sa3_return_codes suback;
|}.

Definition MqttSubAck3_from_pb (suback : Pb3Suback) : MqttSubAck3 := {|
  sa3_message_id := as_u16 (pb3sa_message_id suback);
  sa3_return_codes := map as_u8 (pb3sa_return_codes suback);
|}.

Definition Pb3Unsubscribe_from (unsubscribe : MqttUnsubscribe3) : Pb3Unsubscribe := {|
  pb3u_message_id := u3_message_id unsubscribe;
  pb3u_topic_filters := u3_topic_filters unsubscribe;
|}.

Definition MqttUnsubscribe3_from_pb (unsubscribe : Pb3Unsubscribe) : MqttUnsubscribe3 := {|
  u3_message_id := as_u16 (pb3u_message_id unsubscribe);
  u3_topic_filters := pb3u_topic_filters unsubscribe;
|}.

(** ** Stream messages *)
Definition v3_payload (packet : Pb3Packet) : option StreamPayload :=
  Some (MqttV3Packet {| pb3_packet := Some packet |}).

Definition v5_payload (packet : Pb5Packet) : option StreamPayload :=
  Some (MqttV5Packet {| pb5_packet := Some packet |}).

Definition convert_mqtt_to_stream_message (packet : MqttPacket) (sequence_id : Z)
    (direction : MessageDirection) : option MqttStreamMessage :=
  let payload :=
    match packet with
    | Connect3 p => v3_payload (Pb3ConnectPacket (Pb3Connect_from p))
    | ConnAck3 p => v3_payload (Pb3ConnackPacket (Pb3Connack_from p))
    | Publish3 p => v3_payload (Pb3PublishPacket (Pb3Publish_from p))
    | PubAck3 p => v3_payload (Pb3PubackPacket (Pb3PacketIdAck_from p))
    | PubRec3 p => v3_payload (Pb3PubrecPacket (Pb3PacketIdAck_from p))
    | PubRel3 p => v3_payload (Pb3PubrelPacket (Pb3PacketIdAck_from p))
    | PubComp3 p => v3_payload (Pb3PubcompPacket (Pb3PacketIdAck_from p))
    | Subscribe3 p => v3_payload (Pb3SubscribePacket (Pb3Subscribe_from p))
    | SubAck3 p => v3_payload (Pb3SubackPacket (Pb3Suback_from p))
    | Unsubscribe3 p => v3_payload (Pb3UnsubscribePacket (Pb3Unsubscribe_from p))
    | UnsubAck3 p => v3_payload (Pb3UnsubackPacket (Pb3PacketIdAck_from p))
    | PingReq3 => v3_payload Pb3PingreqPacket
    | PingResp3 => v3_payload Pb3PingrespPacket
    | Disconnect3 => v3_payload Pb3DisconnectPacket
    | Connect5 p => v5_payload (Pb5ConnectPacket (Pb5Connect_from p))
    | ConnAck5 p => v5_payload (Pb5ConnackPacket (Pb5Connack_from p))
    | Publish5 p => v5_payload (Pb5PublishPacket (Pb5Publish_from p))
    | PubAck5 p => v5_payload (Pb5PubackPacket (Pb5PacketIdAck_from p))
    | PubRec5 p => v5_payload (Pb5PubrecPacket (Pb5PacketIdAck_from p))
    | PubRel5 p => v5_payload (Pb5PubrelPacket (Pb5PacketIdAck_from p))
    | PubComp5 p => v5_payload (Pb5PubcompPacket (Pb5PacketIdAck_from p))
    | Subscribe5 p => v5_payload (Pb5SubscribePacket (Pb5Subscribe_from p))
    | SubAck5 p => v5_payload (Pb5SubackPacket (Pb5ReasonCodesAck_from p))
    | Unsubscribe5 p => v5_payload (Pb5UnsubscribePacket (Pb5Unsubscribe_from p))
    | UnsubAck5 p => v5_payload (Pb5UnsubackPacket (Pb5ReasonCodesAck_from p))
    | PingReq5 => v5_payload Pb5PingreqPacket
    | PingResp5 => v5_payload Pb5PingrespPacket
    | Disconnect5 p => v5_payload (Pb5DisconnectPacket (Pb5Disconnect_from p))
    | Auth p => v5_payload (Pb5AuthPacket (Pb5Auth_from p))
    end in
  (λ p, {| sm_sequence_id := sequence_id; sm_direction := MessageDirection_as_i32 direction;
           sm_payload := Some p |}) <$> payload.

Definition MqttPacket_from_pb3 (packet : Pb3Packet) : MqttPacket :=
  match packet with
  | Pb3ConnectPacket p => Connect3 (MqttConnect3_from_pb p)
  | Pb3ConnackPacket p => ConnAck3 (MqttConnAck3_from_pb p)
  | Pb3PublishPacket p => Publish3 (MqttPublish3_from_pb p)
  | Pb3PubackPacket p => PubAck3 (PacketIdAck3_from_pb p)
  | Pb3PubrecPacket p => PubRec3 (PacketIdAck3_from_pb p)
  | Pb3PubrelPacket p => PubRel3 (PacketIdAck3_from_pb p)
  | Pb3PubcompPacket p => PubComp3 (PacketIdAck3_from_pb p)
  | Pb3SubscribePacket p => Subscribe3 (MqttSubscribe3_from_pb p)
  | Pb3SubackPacket p => SubAck3 (MqttSubAck3_from_pb p)
  | Pb3UnsubscribePacket p => Unsubscribe3 (MqttUnsubscribe3_from_pb p)
  | Pb3UnsubackPacket p => UnsubAck3 (PacketIdAck3_from_pb p)
  | Pb3PingreqPacket => PingReq3
  | Pb3PingrespPacket => PingResp3
  | Pb3DisconnectPacket => Disconnect3
  end.

Definition MqttPacket_from_pb5 (packet : Pb5Packet) : MqttPacket :=
  match packet with
  | Pb5ConnectPacket p => Connect5 (MqttConnect5_from_pb p)
  | Pb5ConnackPacket p => ConnAck5 (MqttConnAck5_from_pb p)
  | Pb5PublishPacket p => Publish5 (MqttPublish5_from_pb p)
  | Pb5PubackPacket p => PubAck5 (PacketIdAck5_from_pb p)
  | Pb5PubrecPacket p => PubRec5 (PacketIdAck5_from_pb p)
  | Pb5PubrelPacket p => PubRel5 (PacketIdAck5_from_pb p)
  | Pb5PubcompPacket p => PubComp5 (PacketIdAck5_from_pb p)
  | Pb5SubscribePacket p => Subscribe5 (MqttSubscribe5_from_pb p)
  | Pb5SubackPacket p => SubAck5 (ReasonCodesAck5_from_pb p)
  | Pb5UnsubscribePacket p => Unsubscribe5 (MqttUnsubscribe5_from_pb p)
  | Pb5UnsubackPacket p => UnsubAck5 (ReasonCodesAck5_from_pb p)
  | Pb5PingreqPacket => PingReq5
  | Pb5PingrespPacket => PingResp5
  | Pb5DisconnectPacket p => Disconnect5 (MqttDisconnect5_from_pb p)
  | Pb5AuthPacket p => Auth (MqttAuth_from_pb p)
  end.

Definition convert_stream_message_to_mqtt_packet (msg : MqttStreamMessage) : option MqttPacket :=
  match sm_payload msg with
  | Some (MqttV3Packet v3_packet) => MqttPacket_from_pb3 <$> pb3_packet v3_packet
  | Some (MqttV5Packet v5_packet) => MqttPacket_from_pb5 <$> pb5_packet v5_packet
  | _ => None
  end.

(** ** [MqttConnectPacket] *)
Inductive MqttConnectPacket : Type :=
  | ConnectV3 (p : MqttConnect3)
  | ConnectV5 (p : MqttConnect5).

Definition MqttConnectPacket_client_id (self : MqttConnectPacket) : bytes :=
  match self with
  | ConnectV3 p => c3_client_id p
  | ConnectV5 p => c5_client_id p
  end.

Definition MqttConnectPacket_version (self : MqttConnectPacket) : Z :=
  match self with
  | ConnectV3 _ => 3
  | ConnectV5 _ => 5
  end.

(** ** What a relay does to a packet

    [relay] is the path of a packet through one proxy into the other. *)
Definition relay (packet : MqttPacket) (sequence_id : Z) (direction : MessageDirection)
    : option MqttPacket :=
  msg ← convert_mqtt_to_stream_message packet sequence_id direction;
  convert_stream_message_to_mqtt_packet msg.

(** The packet that comes out: an absent field that the message cannot express becomes its
    default, an empty credential becomes an absent one, and a CONNECT of MQTT 5 is built anew. *)
Definition relayed (p : MqttPacket) : MqttPacket :=
  match p with
  | Connect5 p => Connect5 (MqttConnect5_new (c5_client_id p)
      (non_empty (default [] (c5_username p))) (non_empty (default [] (c5_password p)))
      (c5_will p) (c5_keep_alive p) (c5_clean_start p) (c5_properties p))
  | ConnAck5 p => ConnAck5 {|
      ca5_session_present := ca5_session_present p; ca5_reason_code := ca5_reason_code p;
      ca5_properties := Some (default [] (ca5_properties p)) |}
  | Publish5 p => Publish5 (MqttPublish5_new (p5_qos p) (p5_topic_name p)
      (Some (default 0 (p5_packet_id p))) (p5_payload p) (p5_retain p) (p5_dup p)
      <| p5_properties := p5_properties p |>)
  | Connect3 p => Connect3 {|
      c3_protocol_name := c3_protocol_name p; c3_protocol_version := c3_protocol_version p;
      c3_clean_session := c3_clean_session p; c3_keep_alive := c3_keep_alive p;
      c3_client_id := c3_client_id p; c3_will := c3_will p;
      c3_username := non_empty (default [] (c3_username p));
      c3_password := non_empty (default [] (c3_password p)) |}
  | Publish3 p => Publish3 {|
      p3_dup := p3_dup p; p3_qos := p3_qos p; p3_retain := p3_retain p;
      p3_topic_name := p3_topic_name p;
      p3_message_id := if default 0 (p3_message_id p) =? 0 then None else p3_message_id p;
      p3_payload := p3_payload p |}
  | p => p
  end.

(** What the relay cannot carry: another protocol version in a CONNECT of MQTT 5, and, for
    MQTT 3.1.1, a credential that is there and empty ([encodable] excludes it for MQTT 5). *)
Definition relayable (p : MqttPacket) : Prop :=
  match p with
  | Connect5 p => c5_protocol_version p = 5
  | Connect3 p => c3_username p ≠ Some [] ∧ c3_password p ≠ Some []
  | _ => True
  end.

(** The properties of a packet, those of its will included. *)
Definition packet_properties (p : MqttPacket) : list Property :=
  match p with
  | Connect5 p => c5_properties p ++
      from_option (λ w, will_properties (w5_properties w)) [] (c5_will p)
  | ConnAck5 p => default [] (ca5_properties p)
  | Publish5 p => p5_properties p
  | PubAck5 p | PubRec5 p | PubRel5 p | PubComp5 p => a5_properties p
  | Subscribe5 p => s5_properties p
  | SubAck5 p | UnsubAck5 p => r5_properties p
  | Unsubscribe5 p => u5_properties p
  | Disconnect5 p => d5_properties p
  | Auth p => au_properties p
  | _ => []
  end.

Definition value_ok (p : Property) : Prop := validation_property_value p = Ok ().

(** ** Casts between the field types *)
#[local] Arguments as_u8 _ : simpl never.
#[local] Arguments as_u16 _ : simpl never.
#[local] Arguments convert_properties_to_pb {_ _} _ : simpl never.
#[local] Arguments convert_properties_from_pb {_ _} _ : simpl never.

Lemma as_u8_u8 v : is_u8 v → as_u8 v = v.
Proof. intros. by apply Z.mod_small. Qed.
Lemma as_u16_u16 v : is_u16 v → as_u16 v = v.
Proof. intros. by apply Z.mod_small. Qed.
Lemma as_u8_is_u8 v : is_u8 (as_u8 v).
Proof. unfold is_u8, as_u8. by apply Z.mod_pos_bound. Qed.
Lemma as_u16_is_u16 v : is_u16 (as_u16 v).
Proof. unfold is_u16, as_u16. by apply Z.mod_pos_bound. Qed.
Lemma map_as_u8 l : u8s l → map as_u8 l = l.
Proof. induction 1; simpl; [done|]. by rewrite as_u8_u8, IHForall by done. Qed.
Lemma map_as_u8_u8s l : u8s (map as_u8 l).
Proof. induction l; constructor; [apply as_u8_is_u8|done]. Qed.
#[local] Hint Resolve as_u8_is_u8 as_u16_is_u16 map_as_u8_u8s : core.

Lemma flag_value v : 0 <= v → v <= 1 → (if negb (v =? 0) then 1 else 0) = v.
Proof. intros. destruct (v =? 0) eqn:E; simpl; lia. Qed.

Lemma non_empty_default o : o ≠ Some [] → non_empty (default [] o) = o.
Proof. destruct o as [[]|]; done. Qed.

(** ** Properties survive the trip *)
Lemma property_relayed p :
  wf_property p → value_ok p →
  ∃ q : PbProperty, try_into p = Ok q ∧ try_into q = Ok p.
Proof.
  unfold try_into, PbProperty_try_from, Property_try_from_pb, value_ok.
  intros Hwf Hv. eexists. split; [reflexivity|].
  destruct p; cbn [property_type wf_property validation_property_value] in *;
    try apply validation_require_Ok, Z.leb_le in Hv;
    by rewrite ?flag_value, ?as_u16_u16, ?as_u8_u8 by (unfold is_u8 in *; lia || done).
Qed.

Lemma properties_relayed (ps : list Property) :
  Forall wf_property ps → Forall value_ok ps →
  convert_properties_from_pb (convert_properties_to_pb ps) = ps.
Proof.
  induction 1 as [|p ps Hp _ IH]; [done|]. intros [Hv Hvs]%Forall_cons.
  destruct (property_relayed p Hp Hv) as (q & E & E').
  unfold convert_properties_from_pb, convert_properties_to_pb in *.
  cbn [omap list_omap]. rewrite E. cbn [result_ok omap list_omap]. rewrite E'.
  cbn [result_ok]. by rewrite IH.
Qed.

(** The will's list of properties is the one the CONNECT encoder builds, converted. *)
Lemma push_pb_property_spec {A} (mk : A → Property) o properties :
  push_pb_property mk o properties = properties ++ convert_properties_to_pb (push_some mk o).
Proof. destruct o; [done|]. by rewrite app_nil_r. Qed.

Lemma convert_to_pb_app (l k : list Property) :
  convert_properties_to_pb (l ++ k) = convert_properties_to_pb l ++ convert_properties_to_pb k.
Proof. apply omap_app. Qed.

Lemma convert_will_properties_spec w :
  convert_will_properties_to_pb w = convert_properties_to_pb (will_properties w).
Proof.
  unfold convert_will_properties_to_pb, will_properties.
  rewrite !push_pb_property_spec, !convert_to_pb_app, <- !app_assoc. done.
Qed.

(** Reading them back is the loop of the CONNECT decoder over the converted properties. *)
Lemma set_pb_will_property_spec w q :
  set_pb_will_property w q
  = match (try_into q : result () Property) with
    | Ok p => set_will_property w p
    | _ => w
    end.
Proof. destruct q as [[[]|]], w; done. Qed.

Lemma convert_pb_to_will_spec qs :
  convert_pb_to_will_properties qs
  = fold_left set_will_property (convert_properties_from_pb qs) WillProperties_new.
Proof.
  unfold convert_pb_to_will_properties, convert_properties_from_pb.
  generalize WillProperties_new. induction qs as [|q qs IH]; intros w; [done|].
  cbn [fold_left omap list_omap]. rewrite IH, set_pb_will_property_spec.
  by destruct (try_into q).
Qed.

Lemma will_relayed w :
  wf_will5 w → Forall value_ok (will_properties (w5_properties w)) →
  Forall (λ p, is_UserProperty p = true) (wp_user_properties (w5_properties w)) →
  Will5_from_pb (Pb5Will_from w) = w.
Proof.
  intros (Hq & _ & _ & Hp) Hv Hu. destruct w as [q r t m ps]. unfold Will5_from_pb, Pb5Will_from.
  cbn [w5_will_qos w5_will_retain w5_will_topic w5_will_message w5_properties pb5w_qos
       pb5w_retain pb5w_topic pb5w_payload pb5w_properties] in *.
  rewrite convert_will_properties_spec, convert_pb_to_will_spec, properties_relayed
    by (done || by apply wf_will_properties_list).
  by rewrite will_properties_roundtrip, as_u8_u8 by done.
Qed.

Lemma map_relayed {A B} (wf : A → Prop) (f : A → B) (g : B → A) l :
  (∀ x, wf x → g (f x) = x) → Forall wf l → map g (map f l) = l.
Proof. intros Hgf. induction 1 as [|x l Hx _ IH]; [done|]. cbn. by rewrite Hgf, IH. Qed.

Lemma subscription_relayed s :
  wf_subscription s → TopicSubscription_from_pb (Pb5TopicSubscription_from s) = s.
Proof.
  destruct s. intros (_ & Hq & Hr). unfold TopicSubscription_from_pb.
  by rewrite !as_u8_u8 by done.
Qed.

Lemma subscription3_relayed s :
  wf_subscription3 s → SubscriptionTopic_from_pb (Pb3TopicSubscription_from s) = s.
Proof.
  destruct s. intros (_ & Hq). unfold SubscriptionTopic_from_pb. by rewrite as_u8_u8.
Qed.

Lemma will3_relayed w : wf_will3 w → Will3_from_pb (Pb3Will_from w) = w.
Proof. destruct w. intros (Hq & _). unfold Will3_from_pb. by rewrite as_u8_u8. Qed.

Lemma option_relayed {A B} (wf : A → Prop) (f : A → B) (g : B → A) (o : option A) :
  (∀ x, wf x → g (f x) = x) → wf_opt wf o → g <$> (f <$> o) = o.
Proof. intros Hgf. destruct o; simpl; intros; by rewrite ?Hgf. Qed.

Create HintDb relay.
#[local] Hint Unfold wf_ack5 wf_subscribe5 wf_reason_codes5 wf_unsubscribe5 wf_disconnect5
  wf_auth wf_connect3 wf_publish3 PacketIdAck5_from_pb MqttSubscribe5_from_pb
  ReasonCodesAck5_from_pb MqttUnsubscribe5_from_pb MqttDisconnect5_from_pb MqttAuth_from_pb
  MqttConnect3_from_pb MqttConnAck3_from_pb MqttPublish3_from_pb PacketIdAck3_from_pb
  MqttSubscribe3_from_pb MqttSubAck3_from_pb MqttUnsubscribe3_from_pb : relay.

(** Rewrites the casts and the converted lists of a packet taken apart. *)
Ltac relayed_fields :=
  cbn [wf_packet packet_properties relayed] in *; autounfold with relay in *;
  repeat match goal with H : _ ∧ _ |- _ => destruct H end; cbn in *;
  rewrite ?properties_relayed, ?as_u8_u8, ?as_u16_u16, ?map_as_u8,
    ?(map_relayed _ _ _ _ subscription_relayed), ?(map_relayed _ _ _ _ subscription3_relayed),
    ?(option_relayed _ _ _ _ will3_relayed) by done.

Lemma connect5_relayed p :
  wf_connect5 p → connect5_encodable p → Forall value_ok (packet_properties (Connect5 p)) →
  Connect5 (MqttConnect5_from_pb (Pb5Connect_from p)) = relayed (Connect5 p).
Proof.
  intros Hwf (_ & Hw & _) [Hv Hvw]%Forall_app.
  destruct Hwf as (_ & _ & Hka & _ & Hwill & _ & _ & Hps). unfold MqttConnect5_from_pb. cbn.
  rewrite properties_relayed, as_u16_u16 by done. repeat f_equal.
  destruct (c5_will p) as [w|]; [|done]. cbn in *. by rewrite will_relayed by naive_solver.
Qed.

Lemma message_id_relayed o :
  wf_opt is_u16 o →
  (if default 0 o =? 0 then None else Some (as_u16 (default 0 o)))
  = (if default 0 o =? 0 then None else o).
Proof. destruct o; simpl; intros; by rewrite ?as_u16_u16. Qed.

Lemma default_u16 o : wf_opt is_u16 o → is_u16 (default 0 o).
Proof. by destruct o. Qed.

(** Every conversion and its inverse, on a packet whose property values are valid. *)
Lemma relay_relayed p sequence_id direction :
  wf_packet p → encodable p → Forall value_ok (packet_properties p) →
  relay p sequence_id direction = Some (relayed p).
Proof.
  intros Hwf Henc Hv.
  destruct p as [p|p|p|p|p|p|p|p|p|p|p| | |p|p|p|p|p|p|p|p|p|p|p|p|p| | |]; try reflexivity;
    unfold relay; cbn [convert_mqtt_to_stream_message v3_payload v5_payload fmap option_fmap
      option_map mbind option_bind convert_stream_message_to_mqtt_packet sm_payload
      pb3_packet pb5_packet MqttPacket_from_pb3 MqttPacket_from_pb5]; f_equal.
  { by apply connect5_relayed. }
  { destruct p as [sp rc [ps|]], Hwf as [? ?]; cbn in *; unfold MqttConnAck5_from_pb; cbn;
      by rewrite ?properties_relayed, as_u8_u8 by done. }
  { destruct p as [? ? ? ? pid ? ?], Hwf as (? & ? & ? & ? & ?). cbn in *.
    unfold MqttPublish5_from_pb. cbn.
    by rewrite properties_relayed, as_u8_u8, as_u16_u16 by (done || by apply default_u16). }
  all: destruct p; relayed_fields; try done.
  by rewrite message_id_relayed.
Qed.

(** ** On the wire *)
Lemma encoded_valid p bs :
  wf_packet p → MqttPacket_to_bytes p = Ok bs →
  MqttPacket_validate p = Ok () ∧ ∃ pl, packet_payload p = Ok pl.
Proof.
  intros Hwf Hbs. rewrite to_bytes_default in Hbs by done.
  destruct p; cbn [packet_with] in Hbs; unfold to_bytes in Hbs;
    apply bind_Ok_inv in Hbs as ([] & Hv & Hbs); apply bind_Ok_inv in Hbs as (? & _ & Hbs);
    apply bind_Ok_inv in Hbs as (? & Hp & _); (split; [exact Hv|eexists; exact Hp]).
Qed.

Lemma encoded_will_values w bs :
  Will5_payload w = Ok bs → Forall value_ok (will_properties (w5_properties w)).
Proof.
  unfold Will5_payload. intros H. apply bind_Ok_inv in H as ([] & Hv & _).
  by eapply validated_property_values.
Qed.

(** The property check of a packet's [validate]. *)
Ltac validated_values H :=
  unfold MqttConnect5_validate, MqttConnAck5_validate, MqttPublish5_validate,
    PacketIdAck5_validate, MqttSubscribe5_validate, MqttSubAck5_validate,
    MqttUnsubscribe5_validate, MqttUnsubAck5_validate, MqttDisconnect5_validate,
    MqttAuth_validate in H;
  repeat first [ solve [eapply validated_property_values; eassumption]
               | apply bind_Ok_inv in H as ([] & ? & H) ].

Lemma encoded_values p bs :
  wf_packet p → MqttPacket_to_bytes p = Ok bs → Forall value_ok (packet_properties p).
Proof.
  intros Hwf Hbs. destruct (encoded_valid p bs Hwf Hbs) as (Hv & pl & Hp). clear Hbs.
  destruct p as [p|p|p|p|p|p|p|p|p|p|p| | |p|p|p|p|p|p|p|p|p|p|p|p|p| | |];
    try apply Forall_nil_2; cbn [MqttPacket_validate packet_properties] in *;
    try validated_values Hv.
  apply Forall_app. split; [validated_values Hv|].
  cbv [packet_payload packet_with mcp_payload MqttConnect5_impl MqttConnect5_payload] in Hp.
  apply bind_Ok_inv in Hp as (? & _ & Hp). apply bind_Ok_inv in Hp as (wb & Hw & _).
  destruct (c5_will p) as [w|]; [|apply Forall_nil_2]. by eapply encoded_will_values.
Qed.

(** The relayed packet is the same one on the wire. *)
Lemma relayed_norm p :
  wf_packet p → MqttPacket_validate p = Ok () → encodable p → relayable p →
  wire_form (relayed p) = wire_form p.
Proof.
  intros Hwf Hv Henc Hrel.
  destruct p as [p|p|p|p|p|p|p|p|p|p|p| | |p|p|p|p|p|p|p|p|p|p|p|p|p| | |]; try done; cbn in *.
  - destruct Henc as (Hn & _ & Hu & Hp). destruct p; cbn in *.
    by rewrite !non_empty_default, Hrel, Hn.
  - destruct p as [sp rc [[|]|]]; done.
  - destruct (MqttPublish5_validate_inv _ Hv) as (Hp & _).
    destruct (validation_publish_pid _ _ _ InvalidLength Hp) as [_ Hid].
    unfold MqttPublish5_norm, publish_pid. cbn. destruct (0 <? p5_qos p); [|done].
    destruct (Hid eq_refl) as [i ->]. done.
  - destruct Hrel. destruct p; cbn in *. by rewrite !non_empty_default.
  - destruct (MqttPublish3_validate_inv _ Hv) as (Hp & _).
    destruct (validation_publish_pid _ _ _ InvalidLength Hp) as [_ Hid].
    unfold MqttPublish3_norm, publish_pid. cbn.
    destruct (Z.ltb_spec 0 (p3_qos p)) as [Hq|]; [|done]. destruct (Hid eq_refl) as [i Hi].
    apply (safe_Ok_inv _ _ _ (safe_publish _ _ _)) in Hp as (_ & _ & Hp).
    destruct (Hp Hq) as (j & Hj & Hj0). rewrite Hj. cbn. by destruct (Z.eqb_spec j 0).
Qed.

Lemma wf_wire_form p : wf_packet p → wf_packet (wire_form p).
Proof.
  destruct p as [p|p|p| | | | | | | | | | | | | | |p| | | | | | | | | | |]; try done; cbn.
  - intros [? ?]. split; [done|]. cbn. by case_bool_decide.
  - intros (? & ? & ? & ? & ?). split_and!; try done. cbn. unfold publish_pid. by case_match.
  - intros (? & ? & ? & ?). split_and!; try done. cbn. unfold publish_pid. by case_match.
Qed.

Lemma to_bytes_wire_form p :
  wf_packet p → MqttPacket_validate p = Ok () →
  MqttPacket_to_bytes (wire_form p) = MqttPacket_to_bytes p.
Proof.
  intros Hwf Hv. pose proof (wf_wire_form p Hwf) as Hwf'.
  destruct p as [p|p|p| | | | | | | | | | | | | | |p| | | | | | | | | | |]; try done; cbn in *.
  - unfold to_bytes. cbn. rewrite MqttConnAck5_norm_validate. by destruct p as [sp rc [[|]|]].
  - unfold MqttPublish5_to_bytes. rewrite !MqttPublish5_encode_single_pass; try done.
    + cbn. unfold publish_pid. by destruct (0 <? p5_qos p).
    + by rewrite MqttPublish5_norm_validate.
  - unfold MqttPublish3_to_bytes, MqttPublish3_encode_to_buffer.
    rewrite MqttPublish3_norm_validate. unfold publish_pid.
    cbn [MqttPublish3_norm p3_qos p3_message_id]. unfold publish_pid.
    by destruct (0 <? p3_qos p).
Qed.

Lemma wire_form_validate p : MqttPacket_validate (wire_form p) = MqttPacket_validate p.
Proof.
  destruct p; try done; cbn;
    [apply MqttConnAck5_norm_validate | apply MqttPublish5_norm_validate
    | apply MqttPublish3_norm_validate].
Qed.

Lemma wf_relayed p : wf_packet p → encodable p → relayable p → wf_packet (relayed p).
Proof.
  intros Hwf Henc Hrel.
  destruct p as [p|p|p| | | | | | | | | | | | |p| |p| | | | | | | | | | |]; try done; cbn in *.
  - destruct Hwf as (Hn & Hver & ? & ? & ? & ? & ? & ?), Henc as (Hn' & _ & Hu & Hp).
    rewrite !non_empty_default by done. split_and!; try done.
    change (wf_str (str "MQTT")). by rewrite <- Hn'.
  - destruct Hwf as [? ?]. split; [done|]. cbn. by destruct (ca5_properties p).
  - destruct Hwf as (? & ? & ? & ? & ?). split_and!; try done. by apply default_u16.
  - destruct Hrel. rewrite !non_empty_default by done. done.
  - destruct Hwf as (? & ? & ? & ?). split_and!; try done. cbn. by case_match.
Qed.

(** What a packet becomes on the far side of the relay: the same bytes. *)
Lemma relay_bytes p bs sequence_id direction :
  wf_packet p → encodable p → relayable p → MqttPacket_to_bytes p = Ok bs →
  ∃ msg, convert_mqtt_to_stream_message p sequence_id direction = Some msg ∧
    sm_sequence_id msg = sequence_id ∧ sm_direction msg = MessageDirection_as_i32 direction ∧
    convert_stream_message_to_mqtt_packet msg = Some (relayed p) ∧
    MqttPacket_to_bytes (relayed p) = Ok bs ∧ wire_form (relayed p) = wire_form p.
Proof.
  intros Hwf Henc Hrel Hbs. destruct (encoded_valid p bs Hwf Hbs) as [Hv _].
  pose proof (relay_relayed p sequence_id direction Hwf Henc (encoded_values p bs Hwf Hbs)) as H.
  pose proof (relayed_norm p Hwf Hv Henc Hrel) as Hn.
  assert (MqttPacket_validate (relayed p) = Ok ()) as Hv'.
  { by rewrite <- wire_form_validate, Hn, wire_form_validate. }
  unfold relay in H. apply bind_Some in H as (msg & Hm & Hc). exists msg.
  split_and!; try done.
  1-2: unfold convert_mqtt_to_stream_message in Hm; apply fmap_Some in Hm as (? & _ & ->); done.
  by rewrite <- to_bytes_wire_form, Hn, to_bytes_wire_form by (done || by apply wf_relayed).
Qed.

Lemma relay_encodes version p bs sequence_id direction :
  encodes version p bs → relayable p →
  ∃ msg, convert_mqtt_to_stream_message p sequence_id direction = Some msg ∧
    convert_stream_message_to_mqtt_packet msg = Some (relayed p) ∧
    encodes version (relayed p) bs.
Proof.
  intros (Hwf & Henc & Hver & Hbs & Hl) Hrel.
  destruct (relay_bytes p bs sequence_id direction Hwf Henc Hrel Hbs)
    as (msg & Hm & _ & _ & Hc & Hb & _).
  exists msg. split_and!; try done. split_and!; try done; [by apply wf_relayed| |by destruct p].
  destruct p as [p|p|p| | | | | | | | | | | | |p| |p| | | | | | | | | | |]; try done; cbn in *.
  - destruct Henc as (_ & ? & ? & ?). by rewrite !non_empty_default.
  - destruct Hrel, Henc as (? & ? & ? & ?). by rewrite !non_empty_default.
Qed.

(** ** Messages from the network

    What the generated types guarantee of a decoded message: [string] fields are UTF-8,
    [uint32] fields are 32 bits wide.  Nothing is known of the value of an enum field. *)
Definition wf_property_type (p : PropertyType) : Prop :=
  match p with
  | PtMessageExpiryInterval v | PtSubscriptionIdentifier v | PtSessionExpiryInterval v
  | PtServerKeepAlive v | PtWillDelayInterval v | PtReceiveMaximum v | PtTopicAliasMaximum v
  | PtTopicAlias v | PtMaximumQos v | PtMaximumPacketSize v => is_u32 v
  | PtContentType v | PtResponseTopic v | PtAssignedClientIdentifier v
  | PtAuthenticationMethod v | PtResponseInformation v | PtServerReference v
  | PtReasonString v => wf_str v
  | PtCorrelationData v | PtAuthenticationData v => u8s v
  | PtUserProperty key value => wf_str key ∧ wf_str value
  | PtPayloadFormatIndicator _ | PtRequestProblemInformation _ | PtRequestResponseInformation _
  | PtRetainAvailable _ | PtWildcardSubscriptionAvailable _
  | PtSubscriptionIdentifiersAvailable _ | PtSharedSubscriptionAvailable _ => True
  end.

Definition wf_pb_property (p : PbProperty) : Prop := wf_opt wf_property_type (property_type p).

Definition wf_pb5_will (w : Pb5Will) : Prop :=
  wf_str (pb5w_topic w) ∧ u8s (pb5w_payload w) ∧ Forall wf_pb_property (pb5w_properties w).

Definition wf_pb5 (p : Pb5Packet) : Prop :=
  match p with
  | Pb5ConnectPacket p => wf_str (pb5c_client_id p) ∧ wf_str (pb5c_username p) ∧
      u8s (pb5c_password p) ∧ wf_opt wf_pb5_will (pb5c_will p) ∧
      Forall wf_pb_property (pb5c_properties p)
  | Pb5ConnackPacket p => Forall wf_pb_property (pb5ca_properties p)
  | Pb5PublishPacket p => wf_str (pb5p_topic p) ∧ u8s (pb5p_payload p) ∧
      Forall wf_pb_property (pb5p_properties p)
  | Pb5PubackPacket p | Pb5PubrecPacket p | Pb5PubrelPacket p | Pb5PubcompPacket p =>
      Forall wf_pb_property (pb5a_properties p)
  | Pb5SubscribePacket p => Forall (λ s, wf_str (pb5t_topic_filter s)) (pb5s_subscriptions p) ∧
      Forall wf_pb_property (pb5s_properties p)
  | Pb5SubackPacket p | Pb5UnsubackPacket p => Forall wf_pb_property (pb5r_properties p)
  | Pb5UnsubscribePacket p => Forall wf_str (pb5u_topic_filters p) ∧
      Forall wf_pb_property (pb5u_properties p)
  | Pb5DisconnectPacket p | Pb5AuthPacket p => Forall wf_pb_property (pb5d_properties p)
  | Pb5PingreqPacket | Pb5PingrespPacket => True
  end.

Definition wf_pb3_will (w : Pb3Will) : Prop := wf_str (pb3w_topic w) ∧ u8s (pb3w_payload w).

Definition wf_pb3 (p : Pb3Packet) : Prop :=
  match p with
  | Pb3ConnectPacket p => wf_str (pb3c_client_id p) ∧ wf_str (pb3c_protocol_name p) ∧
      wf_str (pb3c_username p) ∧ u8s (pb3c_password p) ∧ wf_opt wf_pb3_will (pb3c_will p)
  | Pb3PublishPacket p => wf_str (pb3p_topic p) ∧ u8s (pb3p_payload p)
  | Pb3SubscribePacket p => Forall (λ s, wf_str (pb3t_topic_filter s)) (pb3s_subscriptions p)
  | Pb3UnsubscribePacket p => Forall wf_str (pb3u_topic_filters p)
  | _ => True
  end.

Definition wf_stream_message (msg : MqttStreamMessage) : Prop :=
  match sm_payload msg with
  | Some (MqttV3Packet p) => wf_opt wf_pb3 (pb3_packet p)
  | Some (MqttV5Packet p) => wf_opt wf_pb5 (pb5_packet p)
  | _ => True
  end.

Lemma property_from_pb_wf q p :
  wf_pb_property q → (try_into q : result () Property) = Ok p → wf_property p.
Proof.
  destruct q as [[q|]]; [|done]. unfold wf_pb_property, wf_str, try_into, Property_try_from_pb.
  cbn [property_type wf_opt]. intros Hq Hp.
  destruct q; injection Hp as <-; cbn [wf_property wf_property_type] in *; try done;
    try apply as_u16_is_u16; try apply as_u8_is_u8; try (case_match; done).
  unfold wf_str in *. naive_solver.
Qed.

Lemma properties_from_pb_wf qs :
  Forall wf_pb_property qs → Forall wf_property (convert_properties_from_pb qs).
Proof.
  unfold convert_properties_from_pb. induction 1 as [|q qs Hq _ IH]; [constructor|].
  cbn [omap list_omap]. destruct (try_into q) as [p| |] eqn:E; cbn [result_ok]; try done.
  constructor; [by eapply property_from_pb_wf|done].
Qed.

Lemma non_empty_wf (P : bytes → Prop) s : P s → wf_opt P (non_empty s).
Proof. unfold non_empty. by case_bool_decide. Qed.

Lemma will_from_pb_wf w : wf_pb5_will w → wf_will5 (Will5_from_pb w).
Proof.
  intros (Ht & Hm & Hp). split_and!; try done; cbn; [apply as_u8_is_u8|].
  rewrite convert_pb_to_will_spec. apply set_will_property_wf; [by apply properties_from_pb_wf|].
  split_and!; try done.
Qed.

Lemma wf_str_MQTT : wf_str (str "MQTT").
Proof. split; [u8s_lit|reflexivity]. Qed.

Lemma connect5_from_pb_wf p : wf_pb5 (Pb5ConnectPacket p) → wf_connect5 (MqttConnect5_from_pb p).
Proof.
  intros (Hi & Hu & Hp & Hw & Hps).
  split_and!; try done; try (by apply non_empty_wf);
    [apply wf_str_MQTT|apply as_u16_is_u16| |by apply properties_from_pb_wf].
  cbn. destruct (pb5c_will p); [|done]. by apply will_from_pb_wf.
Qed.

Lemma connect3_from_pb_wf p : wf_pb3 (Pb3ConnectPacket p) → wf_connect3 (MqttConnect3_from_pb p).
Proof.
  intros (Hi & Hn & Hu & Hp & Hw).
  split_and!; try done; try (by apply non_empty_wf);
    [apply as_u8_is_u8|apply as_u16_is_u16|].
  cbn. destruct (pb3c_will p); [|done]. destruct Hw. split_and!; try done. apply as_u8_is_u8.
Qed.

Lemma map_Forall {A B} (P : A → Prop) (Q : B → Prop) (f : A → B) l :
  (∀ x, P x → Q (f x)) → Forall P l → Forall Q (map f l).
Proof. intros H. induction 1; constructor; auto. Qed.

Lemma packet_from_pb5_wf p : wf_pb5 p → wf_packet (MqttPacket_from_pb5 p).
Proof.
  destruct p as [p|p|p|p|p|p|p|p|p|p|p| | |p|p]; try done; [by apply connect5_from_pb_wf|..];
    cbn [wf_pb5 MqttPacket_from_pb5 wf_packet]; intros H;
    repeat match goal with H : _ ∧ _ |- _ => destruct H end;
    repeat match goal with H : Forall wf_pb_property _ |- _ =>
      apply properties_from_pb_wf in H end;
    split_and!; cbn; auto using as_u8_is_u8, as_u16_is_u16, map_as_u8_u8s.
  eapply map_Forall; [|eassumption]. intros s Hs. by split_and!; [|apply as_u8_is_u8..].
Qed.

Lemma packet_from_pb3_wf p : wf_pb3 p → wf_packet (MqttPacket_from_pb3 p).
Proof.
  destruct p as [p|p|p|p|p|p|p|p|p|p|p| | |]; try done; [by apply connect3_from_pb_wf|..];
    cbn [wf_pb3 MqttPacket_from_pb3 wf_packet]; intros H;
    repeat match goal with H : _ ∧ _ |- _ => destruct H end;
    try apply as_u16_is_u16; try apply as_u8_is_u8; split_and!; cbn;
    auto using as_u8_is_u8, as_u16_is_u16, map_as_u8_u8s.
  - case_match; [done|]. apply as_u16_is_u16.
  - eapply map_Forall; [|eassumption]. intros s Hs. split; [done|apply as_u8_is_u8].
Qed.

Lemma message_packet_wf msg p :
  wf_stream_message msg → convert_stream_message_to_mqtt_packet msg = Some p → wf_packet p.
Proof.
  unfold wf_stream_message, convert_stream_message_to_mqtt_packet. intros Hwf.
  destruct (sm_payload msg) as [[[[q|]]|[[q|]]|]|]; try done; intros [= <-];
    [by apply packet_from_pb3_wf|by apply packet_from_pb5_wf].
Qed.

(** ** Theorems *)

(** C27: the relay is transparent.  A packet that can be encoded and that the relay can carry is
    turned into a message with the given number and direction, and that message into a packet
    with the same bytes: the conversions of all 29 packet types, their properties and the will
    invert each other up to what the wire does not show. *)
Theorem relay_transparent p bs sequence_id direction :
  wf_packet p → encodable p → relayable p → MqttPacket_to_bytes p = Ok bs →
  ∃ msg p', convert_mqtt_to_stream_message p sequence_id direction = Some msg ∧
    sm_sequence_id msg = sequence_id ∧ sm_direction msg = MessageDirection_as_i32 direction ∧
    convert_stream_message_to_mqtt_packet msg = Some p' ∧
    MqttPacket_to_bytes p' = Ok bs ∧ wire_form p' = wire_form p.
Proof.
  intros Hwf Henc Hrel Hbs.
  destruct (relay_bytes p bs sequence_id direction Hwf Henc Hrel Hbs)
    as (msg & H1 & H2 & H3 & H4 & H5). eauto 8.
Qed.

(** A CONNECT with a will and credentials. *)
Definition sample_will_properties : WillProperties := {|
  wp_will_delay_interval := Some 30; wp_payload_format_indicator := Some 1;
  wp_message_expiry_interval := None; wp_content_type := Some (str "text");
  wp_response_topic := None; wp_correlation_data := Some [0; 255];
  wp_user_properties := [UserProperty (str "k") (str "v")];
|}.
Definition sample_will : Will5 := {|
  w5_will_qos := 2; w5_will_retain := true; w5_will_topic := str "w"; w5_will_message := [1];
  w5_properties := sample_will_properties;
|}.
Definition sample_connect_full : MqttPacket :=
  Connect5 (MqttConnect5_new (str "c1") (Some (str "u")) (Some [0; 255]) (Some sample_will) 60
    true [ReceiveMaximum 20; RequestProblemInformation 1]).
Definition bytes_of (p : MqttPacket) : bytes :=
  match MqttPacket_to_bytes p with Ok bs => bs | _ => [] end.

Lemma sample_connect_full_wf : wf_packet sample_connect_full.
Proof.
  unfold wf_packet, sample_connect_full, wf_connect5. cbn -[wf_str u8s].
  split_and!; try (repeat constructor; unfold is_u8, is_u16, is_u32; lia);
    try (split; [u8s_lit|reflexivity]); try u8s_lit.
  unfold wf_will5, wf_will_properties, sample_will. cbn -[wf_str u8s].
  split_and!; try (unfold is_u8, is_u32; lia); try (split; [u8s_lit|reflexivity]); try u8s_lit;
    try done.
Qed.

Lemma relay_transparent_witness :
  ∃ msg p', convert_mqtt_to_stream_message sample_connect_full 7 ClientToBroker = Some msg ∧
    sm_sequence_id msg = 7 ∧ convert_stream_message_to_mqtt_packet msg = Some p' ∧
    MqttPacket_to_bytes p' = Ok (bytes_of sample_connect_full).
Proof.
  destruct (relay_transparent sample_connect_full (bytes_of sample_connect_full) 7 ClientToBroker)
    as (msg & p' & H1 & H2 & _ & H3 & H4 & _).
  - exact sample_connect_full_wf.
  - split_and!; try done. split; [done|]. repeat constructor.
  - reflexivity.
  - vm_compute. reflexivity.
  - exists msg, p'. split_and!; [exact H1|exact H2|exact H3|exact H4].
Defined.

(** Whatever message arrives, the packet made of it is well typed.  Integers of the message
    that are too wide are cut to the width of their field, properties without a value are
    dropped, and what is left is inside the types of the packet; nothing is checked further,
    so encoding it can still be refused. *)
Theorem message_packet_typed msg p :
  wf_stream_message msg → convert_stream_message_to_mqtt_packet msg = Some p → wf_packet p.
Proof. apply message_packet_wf. Qed.

(** A SUBSCRIBE whose identifier and QoS are too wide, with an unset property. *)
Definition wide_message : MqttStreamMessage := {|
  sm_sequence_id := 0; sm_direction := 0;
  sm_payload := Some (MqttV5Packet {| pb5_packet := Some (Pb5SubscribePacket {|
    pb5s_message_id := 65537;
    pb5s_subscriptions := [{| pb5t_topic_filter := str "a"; pb5t_qos := 258;
      pb5t_no_local := false; pb5t_retain_as_published := false; pb5t_retain_handling := 0 |}];
    pb5s_properties := [{| property_type := None |};
      {| property_type := Some (PtSubscriptionIdentifier 9) |}] |}) |}) |}.
Definition wide_packet : MqttPacket := Subscribe5 {|
  s5_packet_id := 1;
  s5_subscriptions := [{| ts_topic_filter := str "a"; ts_qos := 2; ts_no_local := false;
    ts_retain_as_published := false; ts_retain_handling := 0 |}];
  s5_properties := [SubscriptionIdentifier 9] |}.

Lemma message_packet_typed_witness :
  convert_stream_message_to_mqtt_packet wide_message = Some wide_packet ∧ wf_packet wide_packet.
Proof.
  assert (convert_stream_message_to_mqtt_packet wide_message = Some wide_packet) as E
    by reflexivity.
  split; [exact E|]. apply (message_packet_typed wide_message); [|exact E].
  split; [repeat constructor; lia|]. repeat constructor; unfold is_u32; lia.
Defined.
