(* ===== verification/RawPacket.v ===== *)
(** * The raw packet tool

    Models [RawPacketBuilder] of [src/mqtt_client/raw_packet.rs] and the generators of
    [raw_packet/malformed.rs]: packets edited byte by byte, to test how a broker refuses them.
    The client that sends them ([raw_packet/test_client.rs]) is I/O.

    Proves what the edits do and what the library's own decoder makes of every generated packet,
    which shows that some generators miss the violation they are named after. *)
From S2P Require Import Prelude BaseData TopicFilter Validation Properties Packets Framing.
From S2P Require Import AckCodec ControlCodec PublishCodec SubscribeCodec ConnectCodec Codec.
From S2P Require Import Stream Leveled Time ClientError Options ClientTypes Commands EngineState EncodeFacts Grpc.

(** ** [RawPacketBuilder] *)
Record RawPacketBuilder : Type := { rb_bytes : bytes }.

Definition RawPacketBuilder_new : RawPacketBuilder := {| rb_bytes := [] |}.

(** [bytes[index] = f(bytes[index])] behind the test that the index is in range. *)
Definition update_byte (index : Z) (f : Z → Z) (self : RawPacketBuilder) : RawPacketBuilder :=
  if index <? zlen (rb_bytes self)
  then {| rb_bytes := alter f (Z.to_nat index) (rb_bytes self) |} else self.

Definition set_byte (index value : Z) (self : RawPacketBuilder) : RawPacketBuilder :=
  update_byte index (λ _, value) self.

Definition set_fixed_header_flags (flags : Z) (self : RawPacketBuilder) : RawPacketBuilder :=
  update_byte 0 (λ b, Z.lor (Z.land b 240) (Z.land flags 15)) self.

(** [packet_type << 4] drops the upper bits. *)
Definition set_packet_type (packet_type_ : Z) (self : RawPacketBuilder) : RawPacketBuilder :=
  update_byte 0 (λ b, Z.lor (as_u8 (Z.shiftl packet_type_ 4)) (Z.land b 15)) self.

Definition corrupt_variable_length (position : Z) (self : RawPacketBuilder) : RawPacketBuilder :=
  update_byte position (λ b, Z.lor b 128) self.

(** [splice(position..position, bytes)] *)
Definition insert_bytes {E} (position : Z) (b : bytes) (self : RawPacketBuilder)
    : result E RawPacketBuilder :=
  if position <=? zlen (rb_bytes self)
  then Ok {| rb_bytes := take (Z.to_nat position) (rb_bytes self) ++ b
                           ++ drop (Z.to_nat position) (rb_bytes self) |}
  else Panic.

(** [drain(position..end)]; the addition of the two [usize] arguments can overflow. *)
Definition remove_bytes {E} (position count : Z) (self : RawPacketBuilder)
    : result E RawPacketBuilder :=
  if u64_MAX <? position + count then Panic else
  let end_ := Z.min (position + count) (zlen (rb_bytes self)) in
  if position <=? end_
  then Ok {| rb_bytes := take (Z.to_nat position) (rb_bytes self) ++ drop (Z.to_nat end_) (rb_bytes self) |}
  else Panic.

Definition truncate (len : Z) (self : RawPacketBuilder) : RawPacketBuilder :=
  {| rb_bytes := take (Z.to_nat len) (rb_bytes self) |}.

Definition append_bytes (b : bytes) (self : RawPacketBuilder) : RawPacketBuilder :=
  {| rb_bytes := rb_bytes self ++ b |}.

Definition raw_build (self : RawPacketBuilder) : bytes := rb_bytes self.
Definition raw_len (self : RawPacketBuilder) : Z := zlen (rb_bytes self).
Definition raw_is_empty (self : RawPacketBuilder) : bool := bool_decide (rb_bytes self = []).

Section generators.
Context {T : Type} `{!Runtime T}.

Definition from_packet (packet : MqttPacket) : result IoErrorValue RawPacketBuilder :=
  match MqttPacket_to_bytes packet with
  | Ok b => Ok {| rb_bytes := b |}
  | Err e => Err (io_error_new InvalidData (ParseError_to_string (T:=T) e))
  | Panic => Panic
  end.

(** ** [MalformedPacketGenerator] *)
Definition test_connect (will : option Will5) : MqttConnect5 :=
  MqttConnect5_new (str "test_client") None None will 60 true [].

Definition connect_reserved_flag : result IoErrorValue bytes :=
  builder ← from_packet (Connect5 (test_connect None));
  Ok (raw_build (set_fixed_header_flags 1 builder)).

Definition non_minimal_variable_length : result IoErrorValue bytes :=
  Ok (raw_build (append_bytes [128; 0] (append_bytes [192] RawPacketBuilder_new))).

Definition qos0_with_packet_id : result IoErrorValue bytes :=
  builder ← from_packet (Publish5 (MqttPublish5_new 0 (str "test") None [] false false));
  builder ← insert_bytes 9 [0; 1] builder;
  Ok (raw_build builder).

Definition invalid_qos_both_bits : result IoErrorValue bytes :=
  builder ← from_packet (Publish5 (MqttPublish5_new 1 (str "test") (Some 1) [] false false));
  b0 ← index_at (rb_bytes builder) 0;
  let current_flags := Z.land b0 15 in
  let new_flags := Z.lor (Z.land current_flags (255 - 6)) 6 in
  Ok (raw_build (set_fixed_header_flags new_flags builder)).

Definition topic_alias_zero : result IoErrorValue bytes :=
  Ok (raw_build (append_bytes [0; 0] (append_bytes [35] (append_bytes [3] (append_bytes (str "test")
       (append_bytes [0; 4] (append_bytes [12] (append_bytes [48] RawPacketBuilder_new)))))))).

Definition will_flag_without_payload : result IoErrorValue bytes :=
  let will := Will5_new (str "will/topic") [1; 2; 3] 0 false in
  builder ← from_packet (Connect5 (test_connect (Some will)));
  let new_len := Z.max 0 (raw_len builder - 5) in
  Ok (raw_build (truncate new_len builder)).

Definition incorrect_protocol_name : result IoErrorValue bytes :=
  builder ← from_packet (Connect5 (test_connect None));
  Ok (raw_build (set_byte 10 71 (set_byte 9 78 (set_byte 8 79 (set_byte 7 82 (set_byte 6 87
       (set_byte 5 5 (set_byte 4 0 builder)))))))).

Definition second_connect : result IoErrorValue bytes :=
  builder ← from_packet (Connect5 (test_connect None));
  Ok (raw_build builder).

Definition subscribe_reserved_bits : result IoErrorValue bytes :=
  let subscription := TopicSubscription_new_simple (str "test/topic") 0 in
  builder ← from_packet (Subscribe5 {| s5_packet_id := 1; s5_subscriptions := [subscription];
                                       s5_properties := [] |});
  let len := raw_len builder in
  let builder := if 0 <? len then update_byte (len - 1) (λ b, Z.lor b 192) builder else builder in
  Ok (raw_build builder).

Definition subscription_identifier_zero : result IoErrorValue bytes :=
  Ok (raw_build (append_bytes [0] (append_bytes [11] (append_bytes [2] (append_bytes (str "test")
       (append_bytes [0; 4] (append_bytes [11] (append_bytes [48] RawPacketBuilder_new)))))))).

Definition invalid_protocol_version : result IoErrorValue bytes :=
  builder ← from_packet (Connect5 (test_connect None));
  Ok (raw_build (set_byte 11 99 builder)).

Definition remaining_length_too_large : result IoErrorValue bytes :=
  Ok (raw_build (append_bytes [128; 128; 128; 128; 1] (append_bytes [192] RawPacketBuilder_new))).

Definition duplicate_topic_alias : result IoErrorValue bytes :=
  Ok (raw_build (append_bytes [0; 2] (append_bytes [35] (append_bytes [0; 1] (append_bytes [35]
       (append_bytes [7] (append_bytes (str "test") (append_bytes [0; 4] (append_bytes [16]
       (append_bytes [48] RawPacketBuilder_new)))))))))).

Definition client_id_too_long : result IoErrorValue bytes :=
  let connect := test_connect None in
  let connect :=
    MqttConnect5_new (replicate (Z.to_nat 65536) 65) (c5_username connect) (c5_password connect)
      (c5_will connect) (c5_keep_alive connect) (c5_clean_start connect) (c5_properties connect) in
  builder ← from_packet (Connect5 connect);
  Ok (raw_build builder).

Definition empty_topic_name : result IoErrorValue bytes :=
  Ok (raw_build (append_bytes [0] (append_bytes [0; 0] (append_bytes [3] (append_bytes [48]
       RawPacketBuilder_new))))).

Definition topic_with_wildcards : result IoErrorValue bytes :=
  Ok ([48; 17; 0; 14] ++ str "test/+/topic/#" ++ [0]).

Definition reserved_packet_type : result IoErrorValue bytes :=
  Ok (raw_build (append_bytes [0; 0] RawPacketBuilder_new)).

Definition valid_connect : result IoErrorValue bytes :=
  builder ← from_packet (Connect5 (test_connect None));
  Ok (raw_build builder).

Definition valid_pingreq : result IoErrorValue bytes := Ok [192; 0].
End generators.

(** ** Facts about edits *)
Lemma update_head f self b0 rest :
  rb_bytes self = b0 :: rest → rb_bytes (update_byte 0 f self) = f b0 :: rest.
Proof.
  intros E. unfold update_byte. rewrite E. destruct (Z.ltb_spec 0 (zlen (b0 :: rest))) as [_|Hl]; [done|].
  rewrite zlen_cons in Hl. pose proof (zlen_nonneg rest). lia.
Qed.

(** The nibbles of a byte put together. *)
Lemma nibbles_joined hi lo :
  0 <= hi < 16 → 0 <= lo < 16 →
  Z.shiftr (Z.lor (Z.shiftl hi 4) lo) 4 = hi ∧ Z.land (Z.lor (Z.shiftl hi 4) lo) 15 = lo.
Proof.
  intros Hh Hl. change 15 with (Z.ones 4). rewrite Z.shiftr_lor, Z.shiftr_shiftl_l, Z.sub_diag, Z.shiftl_0_r by lia.
  rewrite Z.shiftr_div_pow2, (Z.div_small lo) by (simpl; lia). rewrite Z.lor_0_r. split; [done|].
  rewrite Z.land_lor_distr_l, !Z.land_ones, Z.shiftl_mul_pow2, Z.mod_mul, Z.mod_small by (simpl; lia). done.
Qed.

Lemma land_15 v : 0 <= Z.land v 15 < 16.
Proof. change 15 with (Z.ones 4). rewrite Z.land_ones by lia. apply Z.mod_pos_bound. lia. Qed.
Lemma nibbles_flags b0 v :
  is_u8 b0 → Z.lor (Z.land b0 240) (Z.land v 15) = Z.lor (Z.shiftl (Z.shiftr b0 4) 4) (Z.land v 15).
Proof.
  intros H0. f_equal. rewrite <- Z.ldiff_ones_r by lia. apply Z.bits_inj'. intros i Hi.
  rewrite Z.land_spec, Z.ldiff_spec. destruct (Z.testbit b0 i) eqn:E; [|done].
  assert (i < 8).
  { destruct (Z.lt_ge_cases i 8) as [|Hg]; [done|]. unfold is_u8 in H0.
    destruct (decide (b0 = 0)) as [->|]; [by rewrite Z.bits_0 in E|].
    rewrite Z.bits_above_log2 in E; [done|lia|]. pose proof (Z.log2_lt_pow2 b0 8). lia. }
  assert (i = 0 ∨ i = 1 ∨ i = 2 ∨ i = 3 ∨ i = 4 ∨ i = 5 ∨ i = 6 ∨ i = 7) as Hcase by lia.
  by destruct Hcase as [->|[->|[->|[->|[->|[->|[->| ->]]]]]]].
Qed.
Lemma packet_type_shift v b0 :
  Z.lor (as_u8 (Z.shiftl v 4)) b0 = Z.lor (Z.shiftl (Z.land v 15) 4) b0.
Proof.
  f_equal. unfold as_u8. change 256 with (2 ^ 8). change 15 with (Z.ones 4).
  rewrite <- Z.land_ones by lia. apply Z.bits_inj'. intros i Hi. rewrite Z.land_spec, !Z.shiftl_spec by lia.
  rewrite Z.land_spec. destruct (Z.lt_ge_cases i 4); [by rewrite Z.testbit_neg_r by lia|].
  rewrite !Z.testbit_ones by lia. f_equal.
  destruct (Z.leb_spec 0 i), (Z.ltb_spec i 8), (Z.leb_spec 0 (i - 4)), (Z.ltb_spec (i - 4) 4); try done; lia.
Qed.

Lemma insert_remove self position b :
  0 <= position → position + zlen b <= u64_MAX →
  ∀ self', insert_bytes (E:=IoErrorValue) position b self = Ok self' →
    raw_len self' = raw_len self + zlen b ∧
    remove_bytes (E:=IoErrorValue) position (zlen b) self' = Ok self.
Proof.
  intros Hp Hb self'. unfold insert_bytes. destruct (Z.leb_spec position (zlen (rb_bytes self))) as [Hl|]; [|done].
  intros [= <-]. unfold raw_len, remove_bytes. cbn [rb_bytes]. set (n := Z.to_nat position).
  assert (Hn : length (take n (rb_bytes self)) = n) by (rewrite length_take; unfold n, zlen in *; lia).
  assert (Hlen : zlen (take n (rb_bytes self) ++ b ++ drop n (rb_bytes self)) = zlen (rb_bytes self) + zlen b).
  { rewrite <- (take_drop n (rb_bytes self)) at 3. rewrite !zlen_app. lia. }
  split; [exact Hlen|]. rewrite Hlen. destruct (Z.ltb_spec u64_MAX (position + zlen b)); [lia|].
  pose proof (zlen_nonneg b). rewrite Z.min_l by lia. destruct (Z.leb_spec position (position + zlen b)); [|lia].
  rewrite take_app_le, take_take, Nat.min_id by lia. rewrite drop_app_ge by (unfold n, zlen in *; lia).
  rewrite drop_app_length' by (unfold n, zlen in *; lia).
  rewrite take_drop. by destruct self.
Qed.

(** Positions in range and insertion: what is inserted can be removed again, and nothing else
    changes; the editors of the fixed header change only their half of the first byte; an edit
    out of range changes nothing, an insertion or removal out of range panics. *)
Theorem raw_edits self position b :
  u8s (rb_bytes self) → 0 <= position → position + zlen b <= u64_MAX →
  (insert_bytes (E:=IoErrorValue) position b self = Panic ↔ raw_len self < position) ∧
  (∀ self', insert_bytes (E:=IoErrorValue) position b self = Ok self' →
     raw_len self' = raw_len self + zlen b ∧
     remove_bytes (E:=IoErrorValue) position (zlen b) self' = Ok self) ∧
  (raw_len self <= position → ∀ f, update_byte position f self = self) ∧
  (∀ b0 rest v, rb_bytes self = b0 :: rest → is_u8 v →
     (∃ b1, rb_bytes (set_fixed_header_flags v self) = b1 :: rest ∧
        Z.shiftr b1 4 = Z.shiftr b0 4 ∧ Z.land b1 15 = Z.land v 15) ∧
     (∃ b1, rb_bytes (set_packet_type v self) = b1 :: rest ∧
        Z.shiftr b1 4 = Z.land v 15 ∧ Z.land b1 15 = Z.land b0 15)).
Proof.
  intros Hu Hp Hb. split; [|split; [apply insert_remove; lia|split]].
  - unfold insert_bytes, raw_len. destruct (Z.leb_spec position (zlen (rb_bytes self))); [split; [done|lia]|done].
  - intros Hl f. unfold update_byte, raw_len in *. destruct (Z.ltb_spec position (zlen (rb_bytes self))); [lia|done].
  - intros b0 rest v E Hv. rewrite E in Hu. apply Forall_cons in Hu as [H0 _].
    split; (eexists; split; [by apply update_head|]).
    + rewrite (nibbles_flags b0) by done. apply nibbles_joined; [|apply land_15].
      unfold is_u8 in H0. rewrite Z.shiftr_div_pow2 by lia. change (2 ^ 4) with 16.
      split; [apply Z.div_pos; lia|apply Z.div_lt_upper_bound; lia].
    + rewrite packet_type_shift. apply nibbles_joined; apply land_15.
Qed.

(** What the library's own decoder makes of a generated packet. *)
Definition decoded_as (r : result IoErrorValue bytes) (d : res ParseOk) : Prop :=
  ∃ b, r = Ok b ∧ MqttPacket_from_bytes_v5 b = d.
Definition decoder_refuses (r : result IoErrorValue bytes) : Prop :=
  ∃ b e, r = Ok b ∧ MqttPacket_from_bytes_v5 b = Err e.
Ltac run_generator := unfold decoded_as, decoder_refuses; repeat eexists; vm_compute; reflexivity.

(** The generators that do what they are named after: the library's own decoder refuses their
    packets, and accepts the valid ones. *)
Theorem malformed_refused {T} `{!Runtime T} :
  decoder_refuses (connect_reserved_flag (T:=T)) ∧ decoder_refuses non_minimal_variable_length ∧
  decoder_refuses (invalid_qos_both_bits (T:=T)) ∧ decoder_refuses (subscribe_reserved_bits (T:=T)) ∧
  decoder_refuses remaining_length_too_large ∧ decoder_refuses empty_topic_name ∧ decoder_refuses topic_with_wildcards ∧
  decoder_refuses reserved_packet_type ∧ decoder_refuses (incorrect_protocol_name (T:=T)) ∧
  decoded_as (valid_connect (T:=T)) (Ok (Packet (Connect5 (test_connect None)) 26)) ∧
  decoded_as valid_pingreq (Ok (Packet PingReq5 2)).
Proof. repeat split; run_generator. Qed.

(** The generators that miss their violation.  [invalid_protocol_version] changes the keep alive
    interval of a valid CONNECT; [qos0_with_packet_id] puts the identifier behind the announced
    frame, which stays a valid PUBLISH; the packets of [topic_alias_zero],
    [subscription_identifier_zero], [duplicate_topic_alias] and [will_flag_without_payload] are
    shorter than they announce, so that a decoder waits for more bytes and never sees the
    violation; [client_id_too_long] always returns an error; and [incorrect_protocol_name] leaves
    the length of the name and overwrites the name itself and the fields behind it. *)
Theorem generator_defects {T} `{!Runtime T} :
  decoded_as (invalid_protocol_version (T:=T))
    (Ok (Packet (Connect5 (MqttConnect5_new (str "test_client") None None None 99 true [])) 26)) ∧
  decoded_as (qos0_with_packet_id (T:=T))
    (Ok (Packet (Publish5 (MqttPublish5_new 0 (str "test") None [] false false)) 9)) ∧
  decoded_as topic_alias_zero (Ok (Continue 2 0)) ∧
  decoded_as subscription_identifier_zero (Ok (Continue 2 0)) ∧
  decoded_as duplicate_topic_alias (Ok (Continue 3 0)) ∧
  decoded_as (will_flag_without_payload (T:=T)) (Ok (Continue 5 0)) ∧
  client_id_too_long (T:=T) = Err (io_error_new InvalidData "String Too Long") ∧
  (∃ b, incorrect_protocol_name (T:=T) = Ok b ∧ take 11 b = [16; 24; 0; 4; 0; 5; 87; 82; 79; 78; 71]).
Proof. do 6 (split; [run_generator|]). split; [vm_compute; reflexivity|]. run_generator. Qed.
