(* ===== verification/Proxy.v ===== *)
(** * The gRPC proxies

    Models the packet handling of [src/mqtt_grpc_duality/src/bin/r-proxy.rs], which faces the
    MQTT clients, and of [src/mqtt_grpc_duality/src/bin/s-proxy.rs], which faces the broker.
    Sockets, gRPC streams and channels are the sequence of what they deliver: [wait_for_mqtt_connect]
    takes the script of its reads, the two forwarding loops one event per round of their
    [select!], in any order; what a proxy sends or writes is collected in its state, which also
    has the script of what each further send into a channel and each further write to a socket
    does ([cn_sends], [cn_writes], [bc_sends], [bc_writes]).  A channel that is full only delays
    its sender.  The channels from the relay to its broker loops are taken to have their
    receiver ([forward_to_broker]); where one is gone the code logs the failure and drops the
    packet.

    Proves that the two proxies together hand the broker the bytes the client sent and the
    client the bytes the broker sent, however both are cut, as long as no send or write fails;
    that nothing a client or the broker sends and no failing send or write makes a forwarding
    loop panic, except a packet that cannot be encoded at the s-proxy ([proxy_defects]); and how
    the r-proxy finds the CONNECT. *)
From S2P Require Import Prelude BaseData TopicFilter Validation Properties Packets Framing.
From S2P Require Import AckCodec ControlCodec PublishCodec SubscribeCodec ConnectCodec Codec.
From S2P Require Import Stream Leveled Grpc.

(** [stream.read_buf(parser.buffer_mut())]: the bytes read are appended to the buffer. *)
Definition read_buf (parser : MqttParser) (data : bytes) : res MqttParser :=
  parser ← MqttParser_buffer_mut parser;
  Ok (with_buffer parser (mp_buffer parser ++ data) (mp_read_offset parser)).

(** [fetch_add] wraps around. *)
Definition fetch_add_u64 (n : Z) : Z := (n + 1) mod (u64_MAX + 1).

(** [tx.send(..).await] into a channel: the next entry of the script says whether the receiver
    is still there; it is, when the script is over. *)
Definition channel_send (sends : list bool) : bool * list bool := (default true (head sends), tail sends).

(** [write_all(..).await]: the next entry of the script is [None] for a write that succeeds and
    [Some n] for one that fails after [n] bytes; writes succeed when the script is over.  The
    answer is what was written, whether the write succeeded, and the rest of the script. *)
Definition socket_write_all (writes : list (option nat)) (data : bytes)
    : bytes * bool * list (option nat) :=
  match mjoin (head writes) with
  | None => (data, true, tail writes)
  | Some n => (take n data, false, tail writes)
  end.

(** ** r-proxy: the CONNECT

    A [tonic::Status] is its code and its message. *)
Inductive Status : Type :=
  | StatusInternal (message : string)
  | StatusUnavailable (message : string)
  | StatusInvalidArgument (message : string).

(** One pass over the bytes received: the version is found and written into the parser, then
    the CONNECT is parsed.  The answer is the CONNECT, or how many bytes to wait for. *)
Definition try_connect (parser : MqttParser)
    : result Status ((MqttConnectPacket * MqttParser) + (MqttParser * Z)) :=
  match MqttParser_set_mqtt_vsn parser 0 with
  | Ok (_, parser) =>
      match MqttParser_next_packet parser with
      | Ok (Some (Connect5 connect), parser) => Ok (inl (ConnectV5 connect, parser))
      | Ok (Some (Connect3 connect), parser) => Ok (inl (ConnectV3 connect, parser))
      | Ok (Some _, _) =>
          Err (StatusInvalidArgument "Expected CONNECT packet, got something else")
      | Ok (None, parser) => Ok (inr (parser, 0))
      | Err (More hint _) => Ok (inr (parser, hint))
      | Err _ => Err (StatusInvalidArgument "Failed to parse CONNECT packet")
      | Panic => Panic
      end
  | Err (More hint _) => Ok (inr (parser, hint))
  | Err _ => Err (StatusInternal "Failed to set MQTT version")
  | Panic => Panic
  end.

(** [wait_for_mqtt_connect]: the script [reads] says what each read brings, an empty one being
    the end of the stream.  The CONNECT is returned with the parser and the reads not made
    yet, or [None] when the script ends and the proxy still waits. *)
Fixpoint wait_for_mqtt_connect_loop (reads : list (result string bytes)) (parser : MqttParser)
    (read_hint : Z)
    : result Status (option (MqttConnectPacket * MqttParser * list (result string bytes))) :=
  match reads with
  | [] => Ok None
  | Panic :: _ => Panic
  | Err e :: _ => Err (StatusInternal e)
  | Ok data :: reads =>
      match read_buf parser data with
      | Ok parser =>
          let n := zlen data in
          if n =? 0 then Err (StatusUnavailable "Connection closed by the client") else
          if n <? read_hint then wait_for_mqtt_connect_loop reads parser (read_hint - n) else
          attempt ← try_connect parser;
          match attempt with
          | inl (connect, parser) => Ok (Some (connect, parser, reads))
          | inr (parser, hint) => wait_for_mqtt_connect_loop reads parser hint
          end
      | _ => Panic
      end
  end.

Definition wait_for_mqtt_connect (reads : list (result string bytes)) (parser : MqttParser)
    : result Status (option (MqttConnectPacket * MqttParser * list (result string bytes))) :=
  wait_for_mqtt_connect_loop reads parser 7.

(** ** r-proxy: the forwarding loop *)

(** What a round of the [select!] brings: a read from the client, or the next message of the
    gRPC stream, [None] being its end. *)
Inductive LoopEvent : Type :=
  | ClientRead (r : result string bytes)
  | GrpcMessage (msg : option (result string MqttStreamMessage)).

(** [StreamingClientConnection] with the locals of [start_streaming_loop]: what was sent to the
    gRPC stream and written to the client, whether the loop still runs, and what the sends and
    writes to come do. *)
Record StreamingConn : Type := {
  cn_parser : MqttParser;
  cn_sequence_counter : Z;
  cn_sent : list MqttStreamMessage;
  cn_written : bytes;
  cn_running : bool;
  cn_sends : list bool;
  cn_writes : list (option nat);
}.

#[export] Instance Rebuild_StreamingConn : Rebuild StreamingConn := λ c, {|
  cn_parser := cn_parser c; cn_sequence_counter := cn_sequence_counter c;
  cn_sent := cn_sent c; cn_written := cn_written c; cn_running := cn_running c;
  cn_sends := cn_sends c; cn_writes := cn_writes c;
|}.

Definition StreamingConn_new (parser : MqttParser) (sent : list MqttStreamMessage)
    (sends : list bool) (writes : list (option nat)) : StreamingConn := {|
  cn_parser := parser; cn_sequence_counter := 1; cn_sent := sent; cn_written := [];
  cn_running := true; cn_sends := sends; cn_writes := writes;
|}.

(** One packet of the inner loop: converted with the next sequence number and sent; the answer
    is whether the inner loop goes on. *)
Definition forward_packet (packet : MqttPacket) (parser : MqttParser) (c : StreamingConn)
    : bool * StreamingConn :=
  let stream_msg :=
    convert_mqtt_to_stream_message packet (cn_sequence_counter c) ClientToBroker in
  let c := c <| cn_parser := parser |>
             <| cn_sequence_counter := fetch_add_u64 (cn_sequence_counter c) |> in
  match stream_msg with
  | Some msg =>
      let '(received, sends) := channel_send (cn_sends c) in
      let c := c <| cn_sends := sends |> in
      if received then (true, c <| cn_sent ::= λ l, l ++ [msg] |>) else (false, c)
  | None => (true, c)
  end.

(** The inner loop over the packets in the buffer. *)
Fixpoint forward_client_packets (fuel : nat) (c : StreamingConn) : res StreamingConn :=
  match fuel with
  | O => Panic
  | S fuel =>
      match MqttParser_next_packet (cn_parser c) with
      | Ok (Some packet, parser) =>
          let '(continue, c) := forward_packet packet parser c in
          if negb continue then Ok c else
          unread ← MqttParser_buffer (cn_parser c);
          if bool_decide (unread = []) then Ok c else forward_client_packets fuel c
      | Ok (None, parser) => Ok (c <| cn_parser := parser |>)
      | Err _ => Ok (c <| cn_running := false |>)
      | Panic => Panic
      end
  end.

Definition handle_client_read (r : result string bytes) (c : StreamingConn) : res StreamingConn :=
  match r with
  | Ok data =>
      parser ← read_buf (cn_parser c) data;
      let c := c <| cn_parser := parser |> in
      if bool_decide (data = []) then Ok (c <| cn_running := false |>)
      else forward_client_packets (S (length (mp_buffer parser))) c
  | _ => Ok (c <| cn_running := false |>)
  end.

Definition handle_grpc_message (msg : option (result string MqttStreamMessage))
    (c : StreamingConn) : res StreamingConn :=
  match msg with
  | Some (Ok stream_msg) =>
      match convert_stream_message_to_mqtt_packet stream_msg with
      | Some packet =>
          match MqttPacket_to_bytes packet with
          | Ok mqtt_bytes =>
              let '(written, success, writes) := socket_write_all (cn_writes c) mqtt_bytes in
              let c := c <| cn_writes := writes |> <| cn_written ::= λ w, w ++ written |> in
              Ok (if success then c else c <| cn_running := false |>)
          | Err _ => Ok c
          | Panic => Panic
          end
      | None => Ok c
      end
  | _ => Ok (c <| cn_running := false |>)
  end.

Definition streaming_step (ev : LoopEvent) (c : StreamingConn) : res StreamingConn :=
  if negb (cn_running c) then Ok c else
  match ev with
  | ClientRead r => handle_client_read r c
  | GrpcMessage msg => handle_grpc_message msg c
  end.

Fixpoint start_streaming_loop (events : list LoopEvent) (c : StreamingConn)
    : res StreamingConn :=
  match events with
  | [] => Ok c
  | ev :: events => c ← streaming_step ev c; start_streaming_loop events c
  end.

(** [handle_new_incoming_tcp] up to the loop: the messages sent to the new gRPC stream, the
    connection the loop starts with, and the reads left for it.  Its boxed errors are a
    [Status] or a text. *)
Inductive ProxyError : Type :=
  | PeStatus (s : Status)
  | PeText (message : string).

Definition channel_closed : ProxyError := PeText "channel closed".
Definition open_session (connect : MqttConnectPacket) (sends : list bool)
    : result ProxyError (list MqttStreamMessage * list bool) :=
  control_type ←
    match MqttConnectPacket_version connect with
    | 5 => Ok Establishv5
    | 3 => Ok Establishv3
    | _ => Err (PeText "Unsupported MQTT version")
    end;
  let session_control := {|
    ctl_control_type := ControlType_as_i32 control_type;
    ctl_client_id := MqttConnectPacket_client_id connect |} in
  let session_control_msg := {|
    sm_sequence_id := 0; sm_direction := MessageDirection_as_i32 ClientToBroker;
    sm_payload := Some (SessionControlPayload session_control) |} in
  let '(received, sends) := channel_send sends in
  if negb received then Err channel_closed else
  let connect_packet :=
    match connect with
    | ConnectV5 v5_connect => Connect5 v5_connect
    | ConnectV3 v3_connect => Connect3 v3_connect
    end in
  msg ← ok_or (convert_mqtt_to_stream_message connect_packet 0 ClientToBroker)
          (PeText "Failed to convert connect packet to stream message");
  let '(received, sends) := channel_send sends in
  if negb received then Err channel_closed else
  Ok ([session_control_msg; msg], sends).

Definition handle_new_incoming_tcp (reads : list (result string bytes)) (sends : list bool)
    (writes : list (option nat))
    : result ProxyError (option (StreamingConn * list (result string bytes))) :=
  let parser := MqttParser_new 16384 0 in
  match wait_for_mqtt_connect reads parser with
  | Ok (Some (connect, parser, reads)) =>
      '(sent, sends) ← open_session connect sends;
      Ok (Some (StreamingConn_new parser sent sends writes, reads))
  | Ok None => Ok None
  | Err status => Err (PeStatus status)
  | Panic => Panic
  end.

(** ** s-proxy: the loop that faces the broker *)
Inductive BrokerEvent : Type :=
  | Cancelled
  | BrokerControl (packet : MqttPacket)
  | BrokerRead (r : result string bytes).

(** The locals of [mqtt_client_loop_simple], what was sent to the r-proxy and written to the
    broker, whether it still runs, and what the sends and writes to come do. *)
Record BrokerConn : Type := {
  bc_parser : MqttParser;
  bc_sequence_counter : Z;
  bc_sent : list MqttStreamMessage;
  bc_written : bytes;
  bc_running : bool;
  bc_sends : list bool;
  bc_writes : list (option nat);
}.

#[export] Instance Rebuild_BrokerConn : Rebuild BrokerConn := λ c, {|
  bc_parser := bc_parser c; bc_sequence_counter := bc_sequence_counter c;
  bc_sent := bc_sent c; bc_written := bc_written c; bc_running := bc_running c;
  bc_sends := bc_sends c; bc_writes := bc_writes c;
|}.

Definition BrokerConn_new (mqtt_version : Z) (sends : list bool) (writes : list (option nat))
    : BrokerConn := {|
  bc_parser := MqttParser_new 16384 mqtt_version; bc_sequence_counter := 1; bc_sent := [];
  bc_written := []; bc_running := true; bc_sends := sends; bc_writes := writes;
|}.

(** [while let Ok(Some(packet)) = parser.next_packet()]; a send that fails ends this loop only. *)
Fixpoint forward_broker_packets (fuel : nat) (c : BrokerConn) : res BrokerConn :=
  match fuel with
  | O => Panic
  | S fuel =>
      match MqttParser_next_packet (bc_parser c) with
      | Ok (Some packet, parser) =>
          let c := c <| bc_parser := parser |> in
          match convert_mqtt_to_stream_message packet (bc_sequence_counter c) BrokerToClient with
          | Some stream_msg =>
              if bc_sequence_counter c =? u64_MAX then Panic else
              let '(received, sends) := channel_send (bc_sends c) in
              let c := c <| bc_sequence_counter := bc_sequence_counter c + 1 |>
                         <| bc_sends := sends |> in
              if received
              then forward_broker_packets fuel (c <| bc_sent ::= λ l, l ++ [stream_msg] |>)
              else Ok c
          | None => forward_broker_packets fuel c
          end
      | Panic => Panic
      | _ => Ok c
      end
  end.

Definition broker_step (ev : BrokerEvent) (c : BrokerConn) : res BrokerConn :=
  if negb (bc_running c) then Ok c else
  match ev with
  | Cancelled => Ok (c <| bc_running := false |>)
  | BrokerControl packet =>
      match MqttPacket_to_bytes packet with
      | Ok mqtt_bytes =>
          let '(written, success, writes) := socket_write_all (bc_writes c) mqtt_bytes in
          let c := c <| bc_writes := writes |> <| bc_written ::= λ w, w ++ written |> in
          Ok (if success then c else c <| bc_running := false |>)
      | _ => Panic
      end
  | BrokerRead (Ok data) =>
      parser ← read_buf (bc_parser c) data;
      let c := c <| bc_parser := parser |> in
      if bool_decide (data = []) then Ok (c <| bc_running := false |>)
      else forward_broker_packets (S (length (mp_buffer parser))) c
  | BrokerRead _ => Ok (c <| bc_running := false |>)
  end.

Fixpoint mqtt_client_loop_simple (events : list BrokerEvent) (c : BrokerConn) : res BrokerConn :=
  match events with
  | [] => Ok c
  | ev :: events => c ← broker_step ev c; mqtt_client_loop_simple events c
  end.

(** ** s-proxy: the gRPC service

    [MyRelay]: its [connections] are keyed by client identifier.  An entry holds the channel to
    the broker loop, here what was sent into it, and the identifier of the session that made it.
    [spawned] are the broker loops started: client, protocol version and session. *)
Record ConnectionInfo : Type := {
  ci_broker_tx : list MqttPacket;
  ci_session_id : bytes;
}.

Record MyRelay : Type := {
  rl_connections : gmap bytes ConnectionInfo;
  rl_spawned : list (bytes * Z * bytes);
}.

Section relay_service.
(** [connections.iter()] visits the entries in some order. *)
Context (iter : gmap bytes ConnectionInfo → list (bytes * ConnectionInfo)).

Definition find_client_by_session (connections : gmap bytes ConnectionInfo)
    (session_id : bytes) : option bytes :=
  fst <$> List.find (λ '(_, info), bool_decide (ci_session_id info = session_id)) (iter connections).

Definition forward_to_broker (session_id : bytes) (packet : MqttPacket) (self : MyRelay)
    : MyRelay :=
  match find_client_by_session (rl_connections self) session_id with
  | Some client_id =>
      match rl_connections self !! client_id with
      | Some info => {|
          rl_connections := <[client_id := {|
            ci_broker_tx := ci_broker_tx info ++ [packet];
            ci_session_id := ci_session_id info |}]> (rl_connections self);
          rl_spawned := rl_spawned self |}
      | None => self
      end
  | None => self
  end.

(** One message of the gRPC stream of [session_id]. *)
Definition handle_stream_message (session_id : bytes) (stream_msg : MqttStreamMessage)
    (self : MyRelay) : MyRelay :=
  match sm_payload stream_msg with
  | Some (MqttV3Packet packet) =>
      match pb3_packet packet with
      | Some p => forward_to_broker session_id (MqttPacket_from_pb3 p) self
      | None => self
      end
  | Some (MqttV5Packet packet) =>
      match pb5_packet packet with
      | Some p => forward_to_broker session_id (MqttPacket_from_pb5 p) self
      | None => self
      end
  | Some (SessionControlPayload control) =>
      let x := ctl_control_type control in
      if (x =? ControlType_as_i32 Establishv3) || (x =? ControlType_as_i32 Establishv5) then
        let client_id := ctl_client_id control in
        let mqtt_version :=
          if x =? ControlType_as_i32 Establishv3 then 3
          else if x =? ControlType_as_i32 Establishv5 then 5 else 0 in
        {| rl_connections := <[client_id := {|
             ci_broker_tx := []; ci_session_id := session_id |}]> (rl_connections self);
           rl_spawned := rl_spawned self ++ [(client_id, mqtt_version, session_id)] |}
      else if x =? ControlType_as_i32 Terminate then
        match find_client_by_session (rl_connections self) session_id with
        | Some client_id => {|
            rl_connections := delete client_id (rl_connections self);
            rl_spawned := rl_spawned self |}
        | None => self
        end
      else self
  | None => self
  end.

(** The messages of the streams of several sessions, in the order they are handled. *)
Definition run_relay (msgs : list (bytes * MqttStreamMessage)) (self : MyRelay) : MyRelay :=
  fold_left (λ self '(session_id, msg), handle_stream_message session_id msg self) msgs self.
End relay_service.

(** What a broker loop that ends does to the table: [connections.remove(&session_id)]. *)
Definition broker_loop_closed (session_id : bytes) (self : MyRelay) : MyRelay := {|
  rl_connections := delete session_id (rl_connections self);
  rl_spawned := rl_spawned self;
|}.

(** ** Reading into a parser *)
Lemma read_buf_spec parser data :
  parser_inv parser → u8s data →
  ∃ parser', read_buf parser data = Ok parser' ∧
    parser_at parser parser' (unread parser ++ data) ∧ mp_buffer parser' = unread parser ++ data.
Proof.
  intros Hinv Hd. unfold read_buf, MqttParser_buffer_mut.
  destruct (compact_spec parser Hinv) as (p & -> & (Hp & Hu & Hv & Hl) & Ho).
  cbn [mbind result_bind]. eexists. split; [done|].
  assert (mp_buffer p = unread parser) as Hb by (rewrite <- Hu; unfold unread; by rewrite Ho).
  rewrite <- Hb, Ho. split; [|done]. destruct Hp as (Hp1 & Hp2 & Hp3 & Hp4).
  apply (parser_at_trans parser p _ (unread p)); [by split_and!|].
  apply (parser_at_intro p (mp_buffer p ++ data) 0);
    [by apply Forall_app|rewrite zlen_app; zlia| |done].
  intros E. symmetry in E. by apply zlen_0_nil.
Qed.

(** ** Both forwarding loops deliver the packets of [scan] *)

(** The messages for packets numbered from [sequence_id] on. *)
Fixpoint stream_messages (direction : MessageDirection) (sequence_id : Z) (ps : list MqttPacket)
    : list MqttStreamMessage :=
  match ps with
  | [] => []
  | p :: ps =>
      option_list (convert_mqtt_to_stream_message p sequence_id direction)
        ++ stream_messages direction (fetch_add_u64 sequence_id) ps
  end.

Lemma convert_total p sequence_id direction :
  ∃ msg, convert_mqtt_to_stream_message p sequence_id direction = Some msg.
Proof. unfold convert_mqtt_to_stream_message. destruct p; eauto. Qed.

(** What one packet adds to the number and the messages. *)
Definition advance_id (sequence_id : Z) (n : nat) : Z := Nat.iter n fetch_add_u64 sequence_id.

Lemma advance_id_succ i n : advance_id i (S n) = advance_id (fetch_add_u64 i) n.
Proof. unfold advance_id. by rewrite Nat.iter_succ_r. Qed.

Lemma stream_messages_app direction i ps qs :
  stream_messages direction i (ps ++ qs)
  = stream_messages direction i ps ++ stream_messages direction (advance_id i (length ps)) qs.
Proof.
  revert i. induction ps as [|p ps IH]; intros i; [done|].
  cbn [app stream_messages length]. by rewrite IH, advance_id_succ, app_assoc.
Qed.

Lemma advance_id_add i n m : advance_id i (n + m) = advance_id (advance_id i n) m.
Proof. unfold advance_id. rewrite Nat.add_comm. apply Nat.iter_add. Qed.

(** What a pass over the buffer of [c] in which no send fails leaves: the packets [ps] forwarded, the rest unread, or
    the loop stopped at an error. *)
Definition client_forwarded (c c' : StreamingConn) (ps : list MqttPacket) (o : res bytes) : Prop :=
  parser_inv (cn_parser c') ∧
  mp_mqtt_version (cn_parser c') = mp_mqtt_version (cn_parser c) ∧
  cn_sequence_counter c' = advance_id (cn_sequence_counter c) (length ps) ∧
  cn_sent c' = cn_sent c ++ stream_messages ClientToBroker (cn_sequence_counter c) ps ∧
  cn_written c' = cn_written c ∧ cn_sends c' = [] ∧ cn_writes c' = cn_writes c ∧
  match o with
  | Ok s => cn_running c' = cn_running c ∧ unread (cn_parser c') = s
  | Err _ => cn_running c' = false
  | Panic => False
  end.

Lemma forward_packet_spec p parser c :
  cn_sends c = [] →
  ∃ c', forward_packet p parser c = (true, c') ∧ cn_parser c' = parser ∧
    cn_sequence_counter c' = fetch_add_u64 (cn_sequence_counter c) ∧
    cn_sent c' = cn_sent c ++
      option_list (convert_mqtt_to_stream_message p (cn_sequence_counter c) ClientToBroker) ∧
    cn_written c' = cn_written c ∧ cn_running c' = cn_running c ∧ cn_sends c' = [] ∧
    cn_writes c' = cn_writes c.
Proof.
  intros Hs. unfold forward_packet, channel_send.
  destruct (convert_total p (cn_sequence_counter c) ClientToBroker) as [msg ->].
  destruct c. cbn in Hs. subst. by eexists.
Qed.

Lemma forward_client_scan fuel c :
  parser_inv (cn_parser c) → cn_sends c = [] → (length (unread (cn_parser c)) < fuel)%nat →
  ∃ c' ps o, forward_client_packets fuel c = Ok c' ∧
    scan_loop fuel (mp_mqtt_version (cn_parser c)) (unread (cn_parser c)) = Some (ps, o) ∧
    client_forwarded c c' ps o.
Proof.
  revert c. induction fuel as [|fuel IH]; intros c Hinv Hsd Hf; [lia|].
  cbn [forward_client_packets scan_loop].
  pose proof (next_packet_spec (cn_parser c) Hinv) as Hn.
  pose proof (unread_u8s _ Hinv) as Hu.
  destruct (stream_step _ (unread (cn_parser c))) as [[[p r]|]|e|] eqn:Es; [| | |done].
  - destruct Hn as (parser & Hn & Hp & Hr & Hv & _). rewrite Hn.
    destruct (stream_step_u8s _ _ _ _ Hu Es) as [_ Hlen].
    destruct (forward_packet_spec p parser c Hsd) as (c1 & -> & Ep & Ei & Em & Ew & Er & Esd & Ewr).
    cbn [negb]. rewrite Ep, (unread_buffer _ Hp), Hr. cbn [mbind result_bind].
    assert (∃ c' ps o,
      (if bool_decide (r = []) then Ok c1 else forward_client_packets fuel c1) = Ok c' ∧
      scan_loop fuel (mp_mqtt_version (cn_parser c)) r = Some (ps, o) ∧
      client_forwarded c1 c' ps o) as (c' & ps & o & Hc & Hs & Hfw).
    { case_bool_decide as Hnil.
      - exists c1, [], (Ok []). subst r. destruct fuel as [|fuel]; [lia|].
        split_and!; [done|by rewrite Hnil|].
        split_and!; try done; rewrite ?Ep, ?app_nil_r; done.
      - specialize (IH c1). rewrite Ep, Hv, Hr in IH. apply IH; [done|done|lia]. }
    exists c', (p :: ps), o. split_and!; [done|by rewrite Hs|].
    destruct Hfw as (H1 & H2 & H3 & H4 & H5 & H6 & H7 & H8).
    split_and!; [done| | | | |done|congruence|].
    + by rewrite H2, Ep.
    + by rewrite H3, Ei, <- advance_id_succ.
    + rewrite H4, Em, Ei. cbn [stream_messages]. by rewrite <- app_assoc.
    + congruence.
    + by rewrite <- Er.
  - rewrite Hn. eexists _, [], _. split_and!; [done|done|].
    split_and!; try done. by rewrite app_nil_r.
  - rewrite Hn. eexists _, [], _. split_and!; [done|done|].
    split_and!; try done. by rewrite app_nil_r.
Qed.

(** No send can make the loop panic either. *)
Lemma forward_client_total fuel c :
  parser_inv (cn_parser c) → (length (unread (cn_parser c)) < fuel)%nat →
  ∃ c', forward_client_packets fuel c = Ok c' ∧ parser_inv (cn_parser c').
Proof.
  revert c. induction fuel as [|fuel IH]; intros c Hinv Hf; [lia|]. cbn [forward_client_packets].
  pose proof (next_packet_spec (cn_parser c) Hinv) as Hn. pose proof (unread_u8s _ Hinv) as Hu.
  destruct (stream_step _ (unread (cn_parser c))) as [[[p r]|]|e|] eqn:Es; [| | |done].
  - destruct Hn as (parser & Hn & Hp & Hr & _). rewrite Hn.
    destruct (stream_step_u8s _ _ _ _ Hu Es) as [_ Hlen].
    assert (cn_parser (forward_packet p parser c).2 = parser) as Ep.
    { unfold forward_packet, channel_send. repeat case_match; done. }
    destruct (forward_packet p parser c) as [go c1]. cbn [snd] in Ep. rewrite Ep.
    destruct go; cbn [negb]; [|exists c1; by rewrite Ep]. rewrite (unread_buffer _ Hp).
    cbn [mbind result_bind]. case_bool_decide; [exists c1; by rewrite Ep|].
    apply IH; rewrite Ep; [done|]. rewrite Hr. lia.
  - rewrite Hn. by eexists.
  - rewrite Hn. by eexists.
Qed.

Definition broker_forwarded (c c' : BrokerConn) (ps : list MqttPacket) (o : res bytes) : Prop :=
  parser_inv (bc_parser c') ∧
  mp_mqtt_version (bc_parser c') = mp_mqtt_version (bc_parser c) ∧
  bc_sequence_counter c' = advance_id (bc_sequence_counter c) (length ps) ∧
  bc_sent c' = bc_sent c ++ stream_messages BrokerToClient (bc_sequence_counter c) ps ∧
  bc_written c' = bc_written c ∧ bc_running c' = bc_running c ∧
  bc_sends c' = [] ∧ bc_writes c' = bc_writes c ∧
  bc_sequence_counter c' + zlen (unread (bc_parser c'))
    <= bc_sequence_counter c + zlen (unread (bc_parser c)) ∧
  match o with Ok s => unread (bc_parser c') = s | Err _ => True | Panic => False end.

Lemma fetch_add_small i : 0 <= i < u64_MAX → fetch_add_u64 i = i + 1.
Proof. intros. unfold fetch_add_u64. apply Z.mod_small. unfold u64_MAX in *. lia. Qed.

Lemma forward_broker_scan fuel c :
  parser_inv (bc_parser c) → bc_sends c = [] → (length (unread (bc_parser c)) < fuel)%nat →
  0 <= bc_sequence_counter c → bc_sequence_counter c + zlen (unread (bc_parser c)) <= u64_MAX →
  ∃ c' ps o, forward_broker_packets fuel c = Ok c' ∧
    scan_loop fuel (mp_mqtt_version (bc_parser c)) (unread (bc_parser c)) = Some (ps, o) ∧
    broker_forwarded c c' ps o.
Proof.
  revert c. induction fuel as [|fuel IH]; intros c Hinv Hsd Hf Hi Hm; [lia|].
  cbn [forward_broker_packets scan_loop].
  pose proof (next_packet_spec (bc_parser c) Hinv) as Hn.
  pose proof (unread_u8s _ Hinv) as Hu.
  destruct (stream_step _ (unread (bc_parser c))) as [[[p r]|]|e|] eqn:Es; [| | |done].
  - destruct Hn as (parser & Hn & Hp & Hr & Hv & _). rewrite Hn.
    destruct (stream_step_u8s _ _ _ _ Hu Es) as [_ Hlen].
    set (i := bc_sequence_counter c) in *.
    change (bc_sequence_counter (c <| bc_parser := parser |>)) with i.
    destruct (convert_total p i BrokerToClient) as [msg Hmsg]. rewrite Hmsg.
    assert (i < u64_MAX) as Hlt by (unfold zlen in Hm; lia).
    replace (i =? u64_MAX) with false by lia. unfold channel_send.
    change (bc_sends (c <| bc_parser := parser |>)) with (bc_sends c). rewrite Hsd.
    cbn [head default tail].
    set (c1 := c <| bc_parser := parser |> <| bc_sequence_counter := i + 1 |> <| bc_sends := [] |>
      <| bc_sent ::= λ l, l ++ [msg] |>).
    destruct (IH c1) as (c' & ps & o & Hc & Hs & H1 & H2 & H3 & H4 & H5 & H6 & H9 & H10 & H7 & H8).
    { done. } { done. } { change (bc_parser c1) with parser. rewrite Hr. lia. }
    { change (bc_sequence_counter c1) with (i + 1). lia. }
    { change (bc_parser c1) with parser. change (bc_sequence_counter c1) with (i + 1).
      rewrite Hr. unfold zlen in *. lia. }
    change (bc_parser c1) with parser in *. change (bc_sequence_counter c1) with (i + 1) in *.
    rewrite Hr, Hv in Hs.
    exists c', (p :: ps), o. split_and!; [exact Hc|by rewrite Hs|].
    rewrite <- fetch_add_small in H3, H4 by lia.
    change (bc_parser c1) with parser in H7. change (bc_sequence_counter c1) with (i + 1) in H7.
    split_and!; try done; [by rewrite H2| | |].
    + by rewrite H3, <- advance_id_succ.
    + rewrite H4. cbn [stream_messages]. fold i. rewrite Hmsg.
      change (bc_sent c1) with (bc_sent c ++ [msg]). by rewrite <- app_assoc.
    + fold i. rewrite Hr in H7. unfold zlen in *. lia.
  - rewrite Hn. eexists _, [], _. split_and!; [done|done|].
    split_and!; try done. by rewrite app_nil_r.
  - rewrite Hn. eexists _, [], _. split_and!; [done|done|].
    split_and!; try done. by rewrite app_nil_r.
Qed.

(** The room the counter keeps when a send may fail. *)
Lemma forward_broker_total fuel c :
  parser_inv (bc_parser c) → (length (unread (bc_parser c)) < fuel)%nat →
  0 <= bc_sequence_counter c → bc_sequence_counter c + zlen (unread (bc_parser c)) <= u64_MAX →
  ∃ c', forward_broker_packets fuel c = Ok c' ∧ parser_inv (bc_parser c') ∧
    0 <= bc_sequence_counter c' ∧
    bc_sequence_counter c' + zlen (unread (bc_parser c'))
      <= bc_sequence_counter c + zlen (unread (bc_parser c)).
Proof.
  revert c. induction fuel as [|fuel IH]; intros c Hinv Hf Hi Hm; [lia|]. cbn [forward_broker_packets].
  pose proof (next_packet_spec (bc_parser c) Hinv) as Hn. pose proof (unread_u8s _ Hinv) as Hu.
  destruct (stream_step _ (unread (bc_parser c))) as [[[p r]|]|e|] eqn:Es; [| | |done].
  - destruct Hn as (parser & Hn & Hp & Hr & _). rewrite Hn.
    destruct (stream_step_u8s _ _ _ _ Hu Es) as [_ Hlen].
    set (i := bc_sequence_counter c) in *.
    change (bc_sequence_counter (c <| bc_parser := parser |>)) with i.
    destruct (convert_total p i BrokerToClient) as [msg Hmsg]. rewrite Hmsg.
    assert (i < u64_MAX) as Hlt by (unfold zlen in Hm; lia).
    replace (i =? u64_MAX) with false by lia. unfold channel_send.
    destruct (default true _).
    + match goal with |- ∃ c', forward_broker_packets fuel ?x = _ ∧ _ => set (c1 := x) end.
      destruct (IH c1) as (c' & Hc & H1 & H2 & H3); change (bc_parser c1) with parser in *;
        change (bc_sequence_counter c1) with (i + 1) in *; rewrite ?Hr in *; try done;
        [lia|lia|unfold zlen in *; lia|].
      exists c'. split_and!; [done..|]. unfold zlen in *. lia.
    + eexists. split; [done|]. change (parser_inv parser ∧ 0 <= i + 1 ∧
        i + 1 + zlen (unread parser) <= i + zlen (unread (bc_parser c))).
      rewrite Hr. split_and!; [done|lia|unfold zlen in *; lia].
  - rewrite Hn. exists c. by split_and!.
  - rewrite Hn. exists c. by split_and!.
Qed.

(** ** Scanning a part of an encoded stream *)

(** Whatever part of the encoded packets has arrived, the scan delivers the packets that are
    complete and leaves the rest of the stream in front of the bytes to come. *)
Lemma scan_part version ps bss s x fuel :
  u8s s → Forall2 (encodes version) ps bss → s ++ x = concat bss → (length s < fuel)%nat →
  ∃ n s', scan_loop fuel version s = Some (wire_form <$> take n ps, Ok s') ∧
    (n <= length ps)%nat ∧ s' ++ x = concat (drop n bss) ∧ (x = [] → n = length ps ∧ s' = []).
Proof.
  intros Hs Henc. revert s Hs fuel.
  induction Henc as [|p bs ps bss Hp Henc IH]; intros s Hs [|fuel] Heq Hf; try lia.
  - apply app_nil in Heq as [-> ->]. by exists 0%nat, [].
  - cbn [scan_loop]. pose proof (stream_step_app version s x) as Happ. rewrite Heq in Happ.
    cbn [concat] in Happ. rewrite (stream_step_encoded version p bs _ Hp) in Happ.
    destruct (stream_step version s) as [[[q r]|]|e|] eqn:Es; [| |done|].
    + injection Happ as [= <- Hr].
      destruct (stream_step_u8s _ _ _ _ Hs Es) as [Hu Hlen].
      destruct (IH r Hu fuel ltac:(done) ltac:(lia)) as (n & s' & Hsc & Hn & Hs' & Hx).
      exists (S n), s'. rewrite Hsc. split_and!; [done|simpl; lia|done|].
      intros Hx0. destruct (Hx Hx0). split; [simpl; lia|done].
    + exists 0%nat, s. split_and!; [done|lia|done|]. intros ->. exfalso.
      rewrite app_nil_r in Heq. rewrite Heq in Es. cbn [concat] in Es.
      by rewrite (stream_step_encoded version p bs _ Hp) in Es.
    + pose proof (stream_step_spec version s Hs) as Hsafe. by rewrite Es in Hsafe.
Qed.

(** ** The loop of the r-proxy, whatever the interleaving *)
Definition client_reads (evs : list LoopEvent) : list bytes :=
  omap (λ ev, match ev with ClientRead (Ok data) => Some data | _ => None end) evs.

Definition grpc_messages (evs : list LoopEvent) : list MqttStreamMessage :=
  omap (λ ev, match ev with GrpcMessage (Some (Ok msg)) => Some msg | _ => None end) evs.

(** An event of a connection that is up on both sides. *)
Definition live_event (ev : LoopEvent) : Prop :=
  match ev with
  | ClientRead (Ok data) => data ≠ [] ∧ u8s data
  | GrpcMessage (Some (Ok _)) => True
  | _ => False
  end.

(** The bytes the r-proxy writes to its client for a message. *)
Definition message_bytes (msg : MqttStreamMessage) : bytes :=
  match convert_stream_message_to_mqtt_packet msg with
  | Some p => default [] (result_ok (MqttPacket_to_bytes p))
  | None => []
  end.

Lemma handle_grpc_message_spec msg c :
  cn_writes c = [] →
  handle_grpc_message (Some (Ok msg)) c = Ok (c <| cn_written ::= λ w, w ++ message_bytes msg |>).
Proof.
  intros Hw. unfold handle_grpc_message, message_bytes, socket_write_all. destruct c.
  cbn [cn_writes] in *. subst.
  destruct (convert_stream_message_to_mqtt_packet msg) as [p|]; [|by rewrite <- (app_nil_r cn_written0) at 1].
  pose proof (EncodeFacts.to_bytes_no_panic p) as Hp.
  destruct (MqttPacket_to_bytes p); [done|by rewrite <- (app_nil_r cn_written0) at 1|done].
Qed.

Lemma handle_grpc_message_total msg c :
  ∃ c', handle_grpc_message msg c = Ok c' ∧ cn_parser c' = cn_parser c.
Proof.
  unfold handle_grpc_message, socket_write_all. destruct msg as [[msg| |]|]; try by eexists.
  destruct (convert_stream_message_to_mqtt_packet msg) as [p|]; [|by eexists].
  pose proof (EncodeFacts.to_bytes_no_panic p) as Hp.
  destruct (MqttPacket_to_bytes p); [|by eexists|done].
  by destruct (mjoin _); eexists.
Qed.

(** A connection that has the packets [ps] still to forward, their bytes being what is unread
    and the reads to come, and on which no send or write fails. *)
Record forwarding (version : Z) (c : StreamingConn) (x : bytes) (ps : list MqttPacket)
    (bss : list bytes) : Prop := {
  fw_inv : parser_inv (cn_parser c);
  fw_version : mp_mqtt_version (cn_parser c) = version;
  fw_running : cn_running c = true;
  fw_bytes : unread (cn_parser c) ++ x = concat bss;
  fw_encodes : Forall2 (encodes version) ps bss;
  fw_sends : cn_sends c = [];
  fw_writes : cn_writes c = [];
}.

(** What a part of the loop adds: [n] packets forwarded, [w] written to the client. *)
Definition forwarded (c c' : StreamingConn) (ps : list MqttPacket) (n : nat) (w : bytes) : Prop :=
  cn_sequence_counter c' = advance_id (cn_sequence_counter c) n ∧
  cn_sent c' = cn_sent c
    ++ stream_messages ClientToBroker (cn_sequence_counter c) (wire_form <$> take n ps) ∧
  cn_written c' = cn_written c ++ w.

Lemma handle_client_read_spec version c data x ps bss :
  data ≠ [] → u8s data → forwarding version c (data ++ x) ps bss →
  ∃ c' n, handle_client_read (Ok data) c = Ok c' ∧ (n <= length ps)%nat ∧
    forwarding version c' x (drop n ps) (drop n bss) ∧ forwarded c c' ps n [] ∧
    (x = [] → n = length ps ∧ unread (cn_parser c') = []).
Proof.
  intros Hd Hu8 [Hinv Hver Hrun Hb Henc Hsd Hwr]. unfold handle_client_read.
  destruct (read_buf_spec (cn_parser c) data Hinv Hu8) as (parser & -> & (Hp & Hun & Hv & _) & Hbuf).
  cbn [mbind result_bind]. rewrite bool_decide_eq_false_2 by done.
  set (c1 := c <| cn_parser := parser |>).
  assert (length (unread (cn_parser c1)) < S (length (mp_buffer parser)))%nat as Hfuel.
  { change (cn_parser c1) with parser. rewrite Hun, <- Hbuf. lia. }
  destruct (forward_client_scan _ c1 Hp Hsd Hfuel) as (c' & qs & o & Hc & Hs & Hfw).
  change (cn_parser c1) with parser in *. rewrite Hv, Hver, Hun in Hs.
  assert (u8s (unread (cn_parser c) ++ data)) as Hu.
  { rewrite <- Hun. by apply unread_u8s. }
  rewrite app_assoc in Hb.
  destruct (scan_part version ps bss _ x (S (length (mp_buffer parser))) Hu Henc Hb)
    as (n & s' & Hs' & Hn & Hx & Hlast); [rewrite <- Hbuf; lia|].
  rewrite Hs in Hs'. injection Hs' as -> ->.
  destruct Hfw as (H1 & H2 & H3 & H4 & H5 & H8 & H9 & H6 & H7).
  change (cn_parser c1) with parser in *. change (cn_sequence_counter c1) with (cn_sequence_counter c) in *.
  exists c', n. split_and!; [done|done| | |].
  - split; [done|by rewrite H2, Hv|by rewrite H6|by rewrite H7|by apply Forall2_drop|done|by rewrite H9].
  - split_and!; [|done|by rewrite H5, app_nil_r].
    by rewrite H3, length_fmap, length_take_le by done.
  - intros E. destruct (Hlast E). by rewrite H7.
Qed.

Lemma forwarded_trans c1 c2 c3 ps n m w v :
  (n <= length ps)%nat →
  forwarded c1 c2 ps n w → forwarded c2 c3 (drop n ps) m v → forwarded c1 c3 ps (n + m) (w ++ v).
Proof.
  intros Hn (H1 & H2 & H3) (H4 & H5 & H6). split_and!.
  - by rewrite H4, H1, advance_id_add.
  - rewrite H5, H2, H1, <- take_take_drop, fmap_app, stream_messages_app, <- app_assoc.
    by rewrite length_fmap, length_take_le.
  - by rewrite H6, H3, app_assoc.
Qed.

Lemma streaming_loop_spec version evs c ps bss :
  Forall live_event evs → forwarding version c (concat (client_reads evs)) ps bss →
  ∃ c' n, start_streaming_loop evs c = Ok c' ∧ (n <= length ps)%nat ∧
    forwarding version c' [] (drop n ps) (drop n bss) ∧
    forwarded c c' ps n (concat (message_bytes <$> grpc_messages evs)) ∧
    (client_reads evs ≠ [] → n = length ps ∧ unread (cn_parser c') = []).
Proof.
  intros Hlive. revert c ps bss. induction Hlive as [|ev evs Hev _ IH]; intros c ps bss Hfw.
  { exists c, 0%nat. split_and!; [done|lia|done| |done].
    split_and!; [done|by rewrite app_nil_r|by rewrite app_nil_r]. }
  cbn [start_streaming_loop]. unfold streaming_step. rewrite (fw_running _ _ _ _ _ Hfw).
  cbn [negb]. destruct ev as [[data| |]|[[msg| |]|]]; try done.
  - destruct Hev as [Hd Hu].
    change (client_reads (ClientRead (Ok data) :: evs)) with (data :: client_reads evs) in *.
    destruct (handle_client_read_spec _ _ _ _ _ _ Hd Hu Hfw) as (c1 & n & -> & Hn & Hfw1 & H1 & Hl).
    cbn [mbind result_bind].
    destruct (IH _ _ _ Hfw1) as (c2 & m & -> & Hm & Hfw2 & H2 & Hl2).
    rewrite length_drop in Hm. rewrite !drop_drop in Hfw2. exists c2, (n + m)%nat.
    split_and!; [done|lia|done|by apply (forwarded_trans _ _ _ _ _ _ [] _ Hn H1 H2)|].
    intros _. destruct (client_reads evs) as [|d ds] eqn:E.
    + destruct (Hl eq_refl) as [-> Hnil]. split; [lia|].
      pose proof (fw_bytes _ _ _ _ _ Hfw2) as Hb. rewrite app_nil_r in Hb.
      rewrite Hb. by rewrite drop_ge by (rewrite <- (Forall2_length _ _ _ (fw_encodes _ _ _ _ _ Hfw)); lia).
    + destruct (Hl2 ltac:(done)) as [-> ?]. rewrite length_drop. split; [lia|done].
  - rewrite handle_grpc_message_spec by apply Hfw. cbn [mbind result_bind].
    set (c1 := c <| cn_written ::= λ w, w ++ message_bytes msg |>).
    destruct (IH c1 ps bss) as (c2 & m & -> & Hm & Hfw2 & H2 & Hl2); [by destruct Hfw|].
    exists c2, m. split_and!; [done|done|done| |done].
    change (grpc_messages (GrpcMessage (Some (Ok msg)) :: evs)) with (msg :: grpc_messages evs).
    cbn [fmap list_fmap concat].
    apply (forwarded_trans c c1 c2 ps 0 m (message_bytes msg)); [lia| |done].
    split_and!; [done|by rewrite app_nil_r|done].
Qed.

(** ** The loop of the s-proxy, whatever the interleaving *)
Definition broker_reads (evs : list BrokerEvent) : list bytes :=
  omap (λ ev, match ev with BrokerRead (Ok data) => Some data | _ => None end) evs.

Definition broker_controls (evs : list BrokerEvent) : list MqttPacket :=
  omap (λ ev, match ev with BrokerControl p => Some p | _ => None end) evs.

Definition live_broker_event (ev : BrokerEvent) : Prop :=
  match ev with
  | BrokerRead (Ok data) => data ≠ [] ∧ u8s data
  | BrokerControl p => is_Ok (MqttPacket_to_bytes p) = true
  | _ => False
  end.

Definition packet_bytes (p : MqttPacket) : bytes :=
  default [] (result_ok (MqttPacket_to_bytes p)).

Record broker_forwarding (version : Z) (c : BrokerConn) (x : bytes) (ps : list MqttPacket)
    (bss : list bytes) : Prop := {
  bf_inv : parser_inv (bc_parser c);
  bf_version : mp_mqtt_version (bc_parser c) = version;
  bf_running : bc_running c = true;
  bf_bytes : unread (bc_parser c) ++ x = concat bss;
  bf_encodes : Forall2 (encodes version) ps bss;
  bf_counter : 0 <= bc_sequence_counter c;
  bf_room : bc_sequence_counter c + zlen (concat bss) <= u64_MAX;
  bf_sends : bc_sends c = [];
  bf_writes : bc_writes c = [];
}.

Definition broker_sent (c c' : BrokerConn) (ps : list MqttPacket) (n : nat) (w : bytes) : Prop :=
  bc_sequence_counter c' = advance_id (bc_sequence_counter c) n ∧
  bc_sent c' = bc_sent c
    ++ stream_messages BrokerToClient (bc_sequence_counter c) (wire_form <$> take n ps) ∧
  bc_written c' = bc_written c ++ w.

Lemma advance_id_small i n : 0 <= i → i + Z.of_nat n <= u64_MAX → advance_id i n = i + Z.of_nat n.
Proof.
  revert i. induction n as [|n IH]; intros i Hi Hn; [simpl; lia|].
  rewrite advance_id_succ, fetch_add_small, IH by lia. lia.
Qed.

Lemma encoded_room version ps bss n :
  Forall2 (encodes version) ps bss → (n <= length ps)%nat →
  Z.of_nat n + zlen (concat (drop n bss)) <= zlen (concat bss).
Proof.
  intros H Hn. rewrite <- (take_drop n bss) at 2. rewrite concat_app, zlen_app.
  pose proof (encodes_length version _ _ (Forall2_take _ _ _ n H)) as Hl.
  rewrite length_take in Hl. rewrite (Forall2_length _ _ _ H) in Hn. unfold zlen at 2. lia.
Qed.

Lemma broker_read_spec version c data x ps bss :
  data ≠ [] → u8s data → broker_forwarding version c (data ++ x) ps bss →
  ∃ c' n, broker_step (BrokerRead (Ok data)) c = Ok c' ∧ (n <= length ps)%nat ∧
    broker_forwarding version c' x (drop n ps) (drop n bss) ∧ broker_sent c c' ps n [] ∧
    (x = [] → n = length ps ∧ unread (bc_parser c') = []).
Proof.
  intros Hd Hu8 [Hinv Hver Hrun Hb Henc Hi Hroom Hsd Hwr]. unfold broker_step. rewrite Hrun. cbn [negb].
  destruct (read_buf_spec (bc_parser c) data Hinv Hu8) as (parser & -> & (Hp & Hun & Hv & _) & Hbuf).
  cbn [mbind result_bind]. rewrite bool_decide_eq_false_2 by done.
  set (c1 := c <| bc_parser := parser |>).
  change (mp_buffer parser) with (mp_buffer (bc_parser c1)).
  destruct (forward_broker_scan (S (length (mp_buffer parser))) c1 Hp Hsd)
    as (c' & qs & o & Hc & Hs & Hfw).
  { change (bc_parser c1) with parser. rewrite Hun, <- Hbuf. lia. }
  { done. }
  { change (bc_parser c1) with parser. change (bc_sequence_counter c1) with (bc_sequence_counter c).
    rewrite Hun. rewrite <- Hb in Hroom. rewrite !zlen_app in *. zlen_pos. lia. }
  change (bc_parser c1) with parser in *. rewrite Hv, Hver, Hun in Hs.
  assert (u8s (unread (bc_parser c) ++ data)) as Hu.
  { rewrite <- Hun. by apply unread_u8s. }
  rewrite app_assoc in Hb.
  destruct (scan_part version ps bss _ x (S (length (mp_buffer parser))) Hu Henc Hb)
    as (n & s' & Hs' & Hn & Hx & Hlast); [rewrite <- Hbuf; lia|].
  rewrite Hs in Hs'. injection Hs' as -> ->.
  destruct Hfw as (H1 & H2 & H3 & H4 & H5 & H6 & H8 & H9 & _ & H7).
  change (bc_parser c1) with parser in *. change (bc_sequence_counter c1) with (bc_sequence_counter c) in *.
  pose proof (encoded_room _ _ _ n Henc Hn) as Hr.
  rewrite length_fmap, length_take_le in H3 by done.
  exists c', n. split_and!; [done|done| | |].
  - rewrite advance_id_small in H3 by (zlen_pos; lia).
    split; [done|by rewrite H2, Hv|by rewrite H6|by rewrite H7|by apply Forall2_drop|lia|lia|done|by rewrite H9].
  - split_and!; [done|done|by rewrite H5, app_nil_r].
  - intros E. destruct (Hlast E). by rewrite H7.
Qed.

Lemma broker_sent_trans c1 c2 c3 ps n m w v :
  (n <= length ps)%nat →
  broker_sent c1 c2 ps n w → broker_sent c2 c3 (drop n ps) m v →
  broker_sent c1 c3 ps (n + m) (w ++ v).
Proof.
  intros Hn (H1 & H2 & H3) (H4 & H5 & H6). split_and!.
  - by rewrite H4, H1, advance_id_add.
  - rewrite H5, H2, H1, <- take_take_drop, fmap_app, stream_messages_app, <- app_assoc.
    by rewrite length_fmap, length_take_le.
  - by rewrite H6, H3, app_assoc.
Qed.

Lemma broker_loop_spec version evs c ps bss :
  Forall live_broker_event evs →
  broker_forwarding version c (concat (broker_reads evs)) ps bss →
  ∃ c' n, mqtt_client_loop_simple evs c = Ok c' ∧ (n <= length ps)%nat ∧
    broker_forwarding version c' [] (drop n ps) (drop n bss) ∧
    broker_sent c c' ps n (concat (packet_bytes <$> broker_controls evs)) ∧
    (broker_reads evs ≠ [] → n = length ps ∧ unread (bc_parser c') = []).
Proof.
  intros Hlive. revert c ps bss. induction Hlive as [|ev evs Hev _ IH]; intros c ps bss Hfw.
  { exists c, 0%nat. split_and!; [done|lia|done| |done].
    split_and!; [done|by rewrite app_nil_r|by rewrite app_nil_r]. }
  cbn [mqtt_client_loop_simple]. destruct ev as [|p|[data| |]]; try done.
  - unfold broker_step. rewrite (bf_running _ _ _ _ _ Hfw). cbn [negb].
    cbn [live_broker_event] in Hev. destruct (MqttPacket_to_bytes p) as [b| |] eqn:E; try done.
    unfold socket_write_all. rewrite (bf_writes _ _ _ _ _ Hfw). cbn [head mjoin option_join tail mbind result_bind].
    set (c1 := c <| bc_writes := [] |> <| bc_written ::= λ w, w ++ b |>).
    destruct (IH c1 ps bss) as (c2 & m & -> & Hm & Hfw2 & H2 & Hl2); [by destruct Hfw|].
    exists c2, m. split_and!; [done|done|done| |done].
    change (broker_controls (BrokerControl p :: evs)) with (p :: broker_controls evs).
    cbn [fmap list_fmap concat].
    apply (broker_sent_trans c c1 c2 ps 0 m (packet_bytes p)); [lia| |done].
    split_and!; [done|by rewrite app_nil_r|]. unfold packet_bytes. by rewrite E.
  - destruct Hev as [Hd Hu].
    change (broker_reads (BrokerRead (Ok data) :: evs)) with (data :: broker_reads evs) in *.
    destruct (broker_read_spec _ _ _ _ _ _ Hd Hu Hfw) as (c1 & n & -> & Hn & Hfw1 & H1 & Hl).
    cbn [mbind result_bind].
    destruct (IH _ _ _ Hfw1) as (c2 & m & -> & Hm & Hfw2 & H2 & Hl2).
    rewrite length_drop in Hm. rewrite !drop_drop in Hfw2. exists c2, (n + m)%nat.
    split_and!; [done|lia|done|by apply (broker_sent_trans _ _ _ _ _ _ [] _ Hn H1 H2)|].
    intros _. destruct (broker_reads evs) as [|d ds] eqn:E.
    + destruct (Hl eq_refl) as [-> Hnil]. split; [lia|].
      pose proof (bf_bytes _ _ _ _ _ Hfw2) as Hb. rewrite app_nil_r in Hb.
      rewrite Hb. by rewrite drop_ge
        by (rewrite <- (Forall2_length _ _ _ (bf_encodes _ _ _ _ _ Hfw)); lia).
    + destruct (Hl2 ltac:(done)) as [-> ?]. rewrite length_drop. split; [lia|done].
Qed.

(** ** What arrives at the far side *)
Lemma encodes_wire_form version p bs : encodes version p bs → encodes version (wire_form p) bs.
Proof.
  intros (Hwf & Henc & Hver & Hbs & Hl). destruct (encoded_valid p bs Hwf Hbs) as [Hv _].
  split_and!; [by apply wf_wire_form|by destruct p|by destruct p| |done].
  by rewrite to_bytes_wire_form.
Qed.

Lemma relayable_wire_form p : relayable p → relayable (wire_form p).
Proof. by destruct p. Qed.

(** The packets the s-proxy hands to its broker loop for the messages it receives. *)
Definition controls_of (msgs : list MqttStreamMessage) : list MqttPacket :=
  omap convert_stream_message_to_mqtt_packet msgs.

Lemma relayed_stream version direction i ps bss :
  Forall2 (encodes version) ps bss → Forall relayable ps →
  let msgs := stream_messages direction i (wire_form <$> ps) in
  concat (message_bytes <$> msgs) = concat bss ∧
  concat (packet_bytes <$> controls_of msgs) = concat bss ∧
  Forall (λ p, is_Ok (MqttPacket_to_bytes p) = true) (controls_of msgs).
Proof.
  intros Henc. revert i. induction Henc as [|p bs ps bss Hp _ IH]; intros i Hrel; [done|].
  apply Forall_cons in Hrel as [Hr Hrel].
  destruct (relay_encodes version (wire_form p) bs i direction (encodes_wire_form _ _ _ Hp)
    (relayable_wire_form _ Hr)) as (msg & Hm & Hc & (_ & _ & _ & Hb & _)).
  specialize (IH (fetch_add_u64 i) Hrel) as (IH1 & IH2 & IH3).
  cbn [fmap list_fmap stream_messages concat]. rewrite Hm.
  set (l := stream_messages direction (fetch_add_u64 i) _) in *.
  change (option_list (Some msg) ++ l) with (msg :: l). cbn [fmap list_fmap concat].
  assert (message_bytes msg = bs) as -> by (unfold message_bytes; by rewrite Hc, Hb).
  unfold controls_of in *. cbn [omap list_omap]. rewrite Hc. cbn [fmap list_fmap concat].
  assert (packet_bytes (relayed (wire_form p)) = bs) as -> by (unfold packet_bytes; by rewrite Hb).
  split_and!; [by f_equal|by f_equal|]. constructor; [by rewrite Hb|done].
Qed.

(** A connection whose broker is up; what is sent to the broker may be anything. *)
Definition open_broker_event (ev : BrokerEvent) : Prop :=
  match ev with
  | BrokerRead (Ok data) => data ≠ [] ∧ u8s data
  | BrokerControl _ => True
  | _ => False
  end.

Lemma open_broker_live evs :
  Forall open_broker_event evs →
  Forall (λ p, is_Ok (MqttPacket_to_bytes p) = true) (broker_controls evs) →
  Forall live_broker_event evs.
Proof.
  induction 1 as [|ev evs Hev _ IH]; [constructor|]. unfold broker_controls. cbn [omap list_omap].
  destruct ev as [|p|[data| |]]; try done; [|by constructor; auto].
  intros [? ?]%Forall_cons. by constructor; auto.
Qed.

(** The whole stream is forwarded when something is read, or nothing is to be forwarded. *)
Lemma forwarded_all {A B} (reads : list A) (ps : list B) n :
  (n <= length ps)%nat → (reads = [] → ps = []) →
  (reads ≠ [] → n = length ps) → take n ps = ps.
Proof.
  intros Hn Hnil Hall. destruct reads; [|by rewrite Hall, take_ge].
  rewrite Hnil in * by done. by destruct n.
Qed.

(** C17: the two proxies are transparent while everything works.  Take any interleaving of
    events at the r-proxy and any at the s-proxy in which each receives the messages the other
    sends, the client's packets [ups] arriving as the bytes [upbs] and the broker's packets
    [downs] as [downbs], both cut into reads anywhere.  The packets are encodable and relayable,
    no connection closes or fails, no send or write fails ([forwarding], [broker_forwarding]), the
    s-proxy's counter has room, and where packets wait in a parser's buffer at least one more
    read comes (without it they stay there, see [proxy_defects]).  Then both loops run on
    without a panic, the messages carry consecutive sequence numbers, one for each packet in
    its order, the bytes written to the broker are exactly the bytes of the client, and those
    written to the client exactly the bytes of the broker. *)
Theorem proxies_transparent version ups upbs downs downbs cevs bevs c b :
  forwarding version c (concat (client_reads cevs)) ups upbs →
  broker_forwarding version b (concat (broker_reads bevs)) downs downbs →
  Forall relayable ups → Forall relayable downs →
  Forall live_event cevs → Forall open_broker_event bevs →
  (client_reads cevs = [] → ups = []) → (broker_reads bevs = [] → downs = []) →
  let up := stream_messages ClientToBroker (cn_sequence_counter c) (wire_form <$> ups) in
  let down := stream_messages BrokerToClient (bc_sequence_counter b) (wire_form <$> downs) in
  grpc_messages cevs = down → broker_controls bevs = controls_of up →
  ∃ c' b', start_streaming_loop cevs c = Ok c' ∧ mqtt_client_loop_simple bevs b = Ok b' ∧
    cn_sent c' = cn_sent c ++ up ∧ bc_sent b' = bc_sent b ++ down ∧
    bc_written b' = bc_written b ++ concat upbs ∧
    cn_written c' = cn_written c ++ concat downbs ∧
    cn_running c' = true ∧ bc_running b' = true.
Proof.
  intros Hc Hb Hru Hrd Hlc Hlb Hnc Hnb up down Hgrpc Hctl.
  destruct (relayed_stream version ClientToBroker (cn_sequence_counter c) ups upbs
    (fw_encodes _ _ _ _ _ Hc) Hru) as (_ & Hup & Hok).
  destruct (relayed_stream version BrokerToClient (bc_sequence_counter b) downs downbs
    (bf_encodes _ _ _ _ _ Hb) Hrd) as (Hdown & _ & _).
  fold up in Hup, Hok. fold down in Hdown. rewrite <- Hctl in Hup, Hok. rewrite <- Hgrpc in Hdown.
  destruct (streaming_loop_spec _ _ _ _ _ Hlc Hc) as (c' & n & Ec & Hn & Hfc & (_ & Hs & Hw) & Hall).
  destruct (broker_loop_spec _ _ _ _ _ (open_broker_live _ Hlb Hok) Hb)
    as (b' & m & Eb & Hm & Hfb & (_ & Hs' & Hw') & Hall').
  rewrite (forwarded_all (client_reads cevs) ups n Hn Hnc) in Hs by (intros H; by apply Hall).
  rewrite (forwarded_all (broker_reads bevs) downs m Hm Hnb) in Hs' by (intros H; by apply Hall').
  rewrite Hdown in Hw. rewrite Hup in Hw'.
  exists c', b'. split_and!; try done; [apply Hfc|apply Hfb].
Qed.

(** A broker's PINGRESP crosses a PUBLISH of the client; both are cut in two. *)
Definition sample_conn : StreamingConn := StreamingConn_new (MqttParser_new 16384 5) [] [] [].
Definition sample_pong : MqttStreamMessage := {|
  sm_sequence_id := 1; sm_direction := 1;
  sm_payload := Some (MqttV5Packet {| pb5_packet := Some Pb5PingrespPacket |}) |}.
Definition sample_client_events : list LoopEvent :=
  [ClientRead (Ok (take 7 sample_publish_bytes)); GrpcMessage (Some (Ok sample_pong));
   ClientRead (Ok (drop 7 sample_publish_bytes))].
Definition sample_broker_events : list BrokerEvent :=
  [BrokerRead (Ok [208]); BrokerControl (relayed sample_publish); BrokerRead (Ok [0])].

Lemma sample_publish_encodes : encodes 5 sample_publish sample_publish_bytes.
Proof.
  split_and!; [exact sample_publish_wf|exact I|reflexivity|reflexivity|vm_compute; discriminate].
Qed.

Lemma pingresp_encodes : encodes 5 PingResp5 [208; 0].
Proof. split_and!; try exact I; try reflexivity. vm_compute. discriminate. Qed.

Lemma proxies_transparent_witness :
  ∃ c' b', start_streaming_loop sample_client_events sample_conn = Ok c' ∧
    mqtt_client_loop_simple sample_broker_events (BrokerConn_new 5 [] []) = Ok b' ∧
    bc_written b' = sample_publish_bytes ∧ cn_written c' = [208; 0] ∧ bc_sent b' = [sample_pong].
Proof.
  destruct (proxies_transparent 5 [sample_publish] [sample_publish_bytes] [PingResp5] [[208; 0]]
    sample_client_events sample_broker_events sample_conn (BrokerConn_new 5 [] []))
    as (c' & b' & H1 & H2 & _ & H3 & H4 & H5 & _).
  - split; try reflexivity; [by apply (new_parser_at 16384 5)|].
    repeat constructor; [apply sample_publish_encodes..].
  - split; try reflexivity; [by apply (new_parser_at 16384 5)| | |].
    + repeat constructor. apply pingresp_encodes.
    + done.
    + vm_compute. discriminate.
  - repeat constructor.
  - repeat constructor.
  - repeat constructor; try done; u8s_lit.
  - repeat constructor; try done; u8s_lit.
  - done.
  - done.
  - reflexivity.
  - reflexivity.
  - exists c', b'. split_and!; [exact H1|exact H2|exact H4|exact H5|exact H3].
Defined.

(** ** Nothing that arrives makes the loops panic *)
Definition typed_event (ev : LoopEvent) : Prop :=
  match ev with ClientRead (Ok data) => u8s data | _ => True end.

Lemma streaming_step_total ev c :
  typed_event ev → parser_inv (cn_parser c) →
  ∃ c', streaming_step ev c = Ok c' ∧ parser_inv (cn_parser c').
Proof.
  intros Hev Hinv. unfold streaming_step. destruct (cn_running c); [|by eauto]. cbn [negb].
  destruct ev as [[data| |]|msg]; try (by eexists; split; [reflexivity|]).
  - unfold handle_client_read.
    destruct (read_buf_spec (cn_parser c) data Hinv Hev) as (parser & -> & (Hp & Hun & _) & Hbuf).
    cbn [mbind result_bind]. case_bool_decide; [by eexists; split; [reflexivity|]|].
    apply forward_client_total; [done|].
    change (cn_parser _) with parser. rewrite Hun, <- Hbuf. lia.
  - destruct (handle_grpc_message_total msg c) as (c' & -> & Hc). exists c'. by rewrite Hc.
Qed.

Lemma streaming_loop_total evs c :
  Forall typed_event evs → parser_inv (cn_parser c) →
  ∃ c', start_streaming_loop evs c = Ok c' ∧ parser_inv (cn_parser c').
Proof.
  intros H. revert c. induction H as [|ev evs Hev _ IH]; intros c Hinv; [by exists c|].
  cbn [start_streaming_loop].
  destruct (streaming_step_total ev c Hev Hinv) as (c1 & -> & Hinv1). by apply IH.
Qed.

(** A broker loop whose counter has room for every packet in the bytes that arrive. *)
Definition typed_broker_event (ev : BrokerEvent) : Prop :=
  match ev with BrokerRead (Ok data) => u8s data | _ => True end.

Definition broker_inv (c : BrokerConn) (to_read : Z) : Prop :=
  parser_inv (bc_parser c) ∧ 0 <= bc_sequence_counter c ∧
  bc_sequence_counter c + zlen (unread (bc_parser c)) + to_read <= u64_MAX.

Lemma broker_inv_weaken c m n : n <= m → broker_inv c m → broker_inv c n.
Proof. intros ? (? & ? & ?). split_and!; [done|done|lia]. Qed.

Lemma broker_step_total ev c n :
  0 <= n → typed_broker_event ev → (∀ p, ev = BrokerControl p → is_Ok (MqttPacket_to_bytes p) = true) →
  broker_inv c (match ev with BrokerRead (Ok data) => zlen data + n | _ => n end) →
  ∃ c', broker_step ev c = Ok c' ∧ broker_inv c' n.
Proof.
  intros Hn0 Hev Hctl Hb.
  assert (broker_inv c n) as Hn.
  { destruct ev as [| |[data| |]]; try done. eapply broker_inv_weaken; [|done]. zlia. }
  unfold broker_step. destruct (bc_running c); [|by exists c]. cbn [negb].
  destruct ev as [|p|[data| |]]; try (eexists; split; [reflexivity|exact Hn]).
  - specialize (Hctl p eq_refl). destruct (MqttPacket_to_bytes p); [|done..].
    unfold socket_write_all. destruct (mjoin _); (eexists; split; [reflexivity|exact Hn]).
  - destruct Hb as (Hinv & Hi & Hroom).
    destruct (read_buf_spec (bc_parser c) data Hinv Hev) as (parser & -> & (Hp & Hun & _) & Hbuf).
    cbn [mbind result_bind]. set (c1 := c <| bc_parser := parser |>).
    assert (bc_sequence_counter c + zlen (unread parser) + n <= u64_MAX) as Hroom'.
    { rewrite Hun, zlen_app. lia. }
    case_bool_decide.
    { eexists; split; [reflexivity|]. by split_and!. }
    destruct (forward_broker_total (S (length (mp_buffer parser))) c1 Hp)
      as (c' & -> & H1 & H2 & H3).
    { change (bc_parser c1) with parser. rewrite Hun, <- Hbuf. lia. }
    { done. }
    { change (bc_parser c1) with parser. change (bc_sequence_counter c1) with
        (bc_sequence_counter c). lia. }
    change (bc_parser c1) with parser in *.
    change (bc_sequence_counter c1) with (bc_sequence_counter c) in *.
    exists c'. split; [done|]. split_and!; [done|done|lia].
Qed.

(** The bytes still to be read by the events. *)
Definition bytes_to_read (evs : list BrokerEvent) : Z := zlen (concat (broker_reads evs)).

Lemma broker_loop_total evs c :
  Forall typed_broker_event evs →
  Forall (λ p, is_Ok (MqttPacket_to_bytes p) = true) (broker_controls evs) →
  broker_inv c (bytes_to_read evs) → ∃ c', mqtt_client_loop_simple evs c = Ok c'.
Proof.
  intros H. revert c. induction H as [|ev evs Hev _ IH]; intros c Hctl Hinv; [by exists c|].
  cbn [mqtt_client_loop_simple].
  assert (Forall (λ p, is_Ok (MqttPacket_to_bytes p) = true) (broker_controls evs)) as Hctl'.
  { unfold broker_controls in Hctl. cbn [omap list_omap] in Hctl.
    destruct ev; by try apply Forall_cons in Hctl as [_ ?]. }
  destruct (broker_step_total ev c (bytes_to_read evs)) as (c1 & -> & Hinv1);
    [apply zlen_nonneg|done| | |].
  - intros p ->. by apply Forall_cons in Hctl as [? _].
  - destruct ev as [| |[data| |]]; try done. unfold bytes_to_read in *.
    change (broker_reads _) with (data :: broker_reads evs) in Hinv.
    cbn [concat] in Hinv. by rewrite zlen_app in Hinv.
  - by apply IH.
Qed.

(** ** Finding the CONNECT *)
Definition connect_packet_of (connect : MqttConnectPacket) : MqttPacket :=
  match connect with ConnectV3 p => Connect3 p | ConnectV5 p => Connect5 p end.

(** A parser that holds [s] from the start of its buffer. *)
Definition holds (parser : MqttParser) (s : bytes) (version : Z) : Prop :=
  mp_buffer parser = s ∧ mp_read_offset parser = 0 ∧ mp_mqtt_version parser = version.

Lemma holds_inv parser s version :
  holds parser s version → u8s s → version ≠ 0 → parser_inv parser ∧ unread parser = s.
Proof.
  intros (Hb & Ho & Hv) Hs Hv0. unfold parser_inv, unread. rewrite Hb, Ho, Hv.
  split_and!; try done; [zlia|]. intros E. symmetry in E. by apply zlen_0_nil.
Qed.

Lemma read_buf_holds parser s version data :
  holds parser s version → u8s s →
  ∃ parser', read_buf parser data = Ok parser' ∧ holds parser' (s ++ data) version.
Proof.
  intros (Hb & Ho & Hv) Hs. unfold read_buf, MqttParser_buffer_mut, MqttParser_compact.
  rewrite Ho. cbn [Z.eqb negb mbind result_bind]. eexists. split; [reflexivity|].
  by split_and!; [unfold with_buffer; cbn; by rewrite Hb|..].
Qed.

(** The bytes in front of the protocol version: type, remaining length and protocol name. *)
Definition connect_head (name : bytes) (remaining : Z) : bytes :=
  16 :: VariableByteInteger_encode remaining ++ Utf8String_encode name.

Lemma encoded_connect_head p bs version :
  connect_version p = Some version → encodes version p bs →
  ∃ name remaining rest, bs = connect_head name remaining ++ version :: rest ∧
    0 <= remaining <= MAX_REMAINING ∧ is_string name ∧ validation_string name = Ok () ∧
    zlen (connect_head name remaining) <= 13.
Proof.
  intros Hc (Hwf & Henc & Hver & Hbs & Hl).
  destruct (to_bytes_parts p bs Hwf Hbs Hl) as (Hv & vh & pl & Hvh & _ & Hlen & Ebs).
  pose proof (connect_start_bytes p vh Henc Hv Hvh) as Hs. rewrite Hc in Hs.
  destruct Hs as (name & s & Evh & Hn & Hns & Hn6 & E16). rewrite E16 in Ebs.
  exists name, (zlen (vh ++ pl)), (s ++ pl). pose proof (zlen_nonneg (vh ++ pl)).
  split_and!; try done.
  - rewrite Ebs. unfold frame, connect_head. rewrite Evh at 2.
    by rewrite <- app_comm_cons, <- !app_assoc.
  - unfold connect_head. rewrite zlen_cons, zlen_app, zlen_Utf8String_encode.
    pose proof (vbi_encode_bound (zlen (vh ++ pl)) ltac:(unfold MAX_REMAINING in *; lia)). lia.
Qed.

(** [set_mqtt_vsn] once the head is there: it finds the version or asks for its byte. *)
Lemma set_mqtt_vsn_head parser name remaining version t :
  0 <= remaining <= MAX_REMAINING → is_string name → validation_string name = Ok () →
  holds parser (connect_head name remaining ++ t) 0 → (t = [] ∨ ∃ t', t = version :: t') →
  MqttParser_set_mqtt_vsn parser 0 =
    match t with
    | [] => Err (More 1 "MQTT version")
    | v :: _ => Ok (v, {| mp_buffer := mp_buffer parser; mp_read_offset := mp_read_offset parser;
                          mp_mqtt_version := v; mp_parse_level := mp_parse_level parser |})
    end.
Proof.
  intros Hrem Hn Hns (Hb & Ho & Hv) Ht. unfold MqttParser_set_mqtt_vsn, MqttParser_buffer.
  rewrite Hv, Ho, Hb. rsimp. set (b := connect_head name remaining ++ t).
  rewrite (suffix_at_index_from _ 0 _ (suffix_at_0 b)). rsimp.
  assert (suffix_at b 0 (16 :: VariableByteInteger_encode remaining ++ Utf8String_encode name ++ t))
    as H0.
  { unfold b, connect_head. rewrite <- app_comm_cons, <- app_assoc. apply suffix_at_0. }
  rewrite (suffix_at_index_at _ _ _ _ H0). rsimp. apply suffix_at_cons in H0.
  rewrite (suffix_at_index_from _ _ _ H0). rsimp. unfold parse_vbi, vbi.
  rewrite VariableByteInteger_roundtrip by (unfold MAX_REMAINING in *; lia). rsimp.
  apply suffix_at_app in H0. rewrite (suffix_at_index_from _ _ _ H0). rsimp.
  rewrite parse_string_at by done. rsimp. apply suffix_at_app in H0.
  rewrite zlen_Utf8String_encode in H0. pose proof (suffix_at_len _ _ _ H0) as Hl.
  clearbody b. change (0 =? 0) with true. change (16 =? 16) with true. cbn [negb].
  destruct Ht as [-> |[t' ->]].
  - change (zlen []) with 0 in Hl. run_if. do 2 f_equal. lia.
  - rewrite zlen_cons in Hl. pose proof (zlen_nonneg t'). run_if.
    by rewrite (suffix_at_index_at _ _ _ _ H0).
Qed.

Lemma app_prefix {A} (s x l r : list A) :
  s ++ x = l ++ r → zlen l <= zlen s → ∃ t, s = l ++ t ∧ t ++ x = r.
Proof.
  intros E Hl. apply app_eq_app in E as (k & [[-> ->]|[-> ->]]); [by exists k|].
  rewrite zlen_app in Hl. assert (k = []) as -> by (apply zlen_0_nil; zlia).
  exists []. by rewrite !app_nil_r.
Qed.

Section connect.
(** An encoded CONNECT, and the bytes behind it. *)
Context (p : MqttPacket) (version : Z) (bs rest : bytes).
Hypotheses (Hc : connect_version p = Some version) (Henc : encodes version p bs).

Lemma connect_version_nonzero : version ≠ 0.
Proof. destruct Henc as (_ & _ & H & _). unfold version_for in H. destruct (is_v5 p); lia. Qed.

(** The parser has the version, or finds it, or waits for one byte. *)
Definition unread_connect (parser : MqttParser) (s : bytes) : Prop :=
  ∃ v0, holds parser s v0 ∧ (v0 = 0 ∨ v0 = version).

Lemma version_step parser s x :
  unread_connect parser s → s ++ x = bs ++ rest → 13 <= zlen s →
  (∃ parser', MqttParser_set_mqtt_vsn parser 0 = Ok (version, parser') ∧ holds parser' s version) ∨
  (MqttParser_set_mqtt_vsn parser 0 = Err (More 1 "MQTT version") ∧ zlen s < zlen bs).
Proof.
  intros (v0 & Hh & [-> | ->]) Hs Hlen.
  - destruct (encoded_connect_head p bs version Hc Henc) as (name & rem & r & E & Hr & Hn & Hns & H13).
    rewrite E, <- app_assoc in Hs. destruct (app_prefix _ _ _ _ Hs ltac:(lia)) as (t & -> & Ht).
    destruct Hh as (Hb & Ho & Hv).
    rewrite (set_mqtt_vsn_head parser name rem version t); try done.
    + destruct t as [|v t]; [right|left].
      * split; [done|]. rewrite E, app_nil_r, zlen_app, zlen_cons. zlia.
      * injection Ht as -> _. eexists. split; [done|]. by split_and!.
    + destruct t as [|v t]; [by left|]. injection Ht as -> _. eauto.
  - left. exists parser. split; [|done]. destruct Hh as (_ & _ & Hv).
    unfold MqttParser_set_mqtt_vsn. rewrite Hv.
    pose proof connect_version_nonzero as H0. apply Z.eqb_neq in H0. by rewrite H0.
Qed.

(** What [try_connect] answers on a part of the stream that holds the head. *)
Lemma try_connect_spec parser s x :
  unread_connect parser s → u8s s → s ++ x = bs ++ rest → 13 <= zlen s →
  (∃ connect parser', try_connect parser = Ok (inl (connect, parser')) ∧
     connect_packet_of connect = p ∧ parser_inv parser' ∧
     mp_mqtt_version parser' = version ∧ s = bs ++ unread parser') ∨
  (∃ parser' hint, try_connect parser = Ok (inr (parser', hint)) ∧
     unread_connect parser' s ∧ hint <= 1 ∧ zlen s < zlen bs).
Proof.
  intros Hu Hu8 Hs Hlen. unfold try_connect.
  destruct (version_step parser s x Hu Hs Hlen) as [(parser1 & -> & Hh)|[-> Hlt]].
  2:{ right. exists parser, 1. by split_and!. }
  destruct (holds_inv _ _ _ Hh Hu8 connect_version_nonzero) as [Hinv Hun].
  pose proof (next_packet_spec parser1 Hinv) as Hn. rewrite Hun in Hn.
  destruct Hh as (Hb & Ho & Hv). rewrite Hv in Hn.
  pose proof (stream_step_app version s x) as Happ. rewrite Hs in Happ.
  rewrite (stream_step_encoded version p bs rest Henc) in Happ.
  assert (wire_form p = p) as Hw by (by destruct p). rewrite Hw in Happ.
  destruct (stream_step version s) as [[[q r]|]|e|] eqn:Es; [| |done|done].
  - left. injection Happ as [= <- Hr]. destruct Hn as (parser2 & -> & Hp2 & Hun2 & Hv2 & _).
    subst r. rewrite Hr, app_assoc in Hs. apply app_inv_tail in Hs.
    destruct p; try done; eexists _, _; (split_and!; [reflexivity|done|done|congruence|done]).
  - right. rewrite Hn. exists parser1, 0. split_and!; [done|exists version; split; [by split_and!|by right]|lia|].
    destruct (Z.lt_ge_cases (zlen s) (zlen bs)) as [|Hge]; [done|exfalso].
    destruct (app_prefix _ _ _ _ Hs Hge) as (t & -> & _).
    by rewrite (stream_step_encoded version p bs t Henc) in Es.
Qed.

(** The reads after the one that brought the head. *)
Lemma wait_loop_spec cs parser s hint :
  unread_connect parser s → u8s s → Forall (λ c, c ≠ [] ∧ u8s c) cs →
  s ++ concat cs = bs ++ rest → 13 <= zlen s → zlen s < zlen bs → hint <= 1 →
  ∃ connect parser' used later,
    wait_for_mqtt_connect_loop (Ok <$> cs) parser hint = Ok (Some (connect, parser', Ok <$> later)) ∧
    connect_packet_of connect = p ∧ parser_inv parser' ∧ mp_mqtt_version parser' = version ∧
    cs = used ++ later ∧ unread parser' ++ concat later = rest.
Proof.
  revert parser s hint. induction cs as [|c cs IH]; intros parser s hint Hu Hs8 Hcs Hs H13 Hlt Hh.
  { rewrite app_nil_r in Hs. subst s. rewrite zlen_app in Hlt. zlia. }
  apply Forall_cons in Hcs as [[Hne Hc8] Hcs]. destruct Hu as (v0 & Hh0 & Hv0).
  cbn [fmap list_fmap wait_for_mqtt_connect_loop].
  destruct (read_buf_holds parser s v0 c Hh0 Hs8) as (parser1 & -> & Hh1).
  assert (1 <= zlen c) as Hn.
  { pose proof (zlen_nonneg c). destruct (Z.eq_dec (zlen c) 0) as [E|]; [|lia].
    by apply zlen_0_nil in E. }
  replace (zlen c =? 0) with false by lia. replace (zlen c <? hint) with false by lia.
  cbn [concat] in Hs. rewrite app_assoc in Hs.
  assert (u8s (s ++ c)) as Hu8 by by apply Forall_app.
  assert (13 <= zlen (s ++ c)) as H13' by (rewrite zlen_app; lia).
  destruct (try_connect_spec parser1 (s ++ c) (concat cs) ltac:(by exists v0) Hu8 Hs H13')
    as [(connect & parser' & -> & Hp & Hinv & Hv & E)|(parser' & h & -> & Hu' & Hh' & Hlt')];
    cbn [mbind result_bind].
  - exists connect, parser', [c], cs. split_and!; try done.
    rewrite E, <- app_assoc in Hs. by apply app_inv_head in Hs.
  - destruct (IH parser' (s ++ c) h Hu' Hu8 Hcs Hs H13' Hlt' Hh')
      as (connect & parser2 & used & later & Hw & H1 & H2 & H3 & -> & H5).
    by exists connect, parser2, (c :: used), later.
Qed.
End connect.

Lemma wait_spec p version bs rest c cs :
  connect_version p = Some version → encodes version p bs →
  Forall (λ c, c ≠ [] ∧ u8s c) (c :: cs) → concat (c :: cs) = bs ++ rest → 13 <= zlen c →
  ∃ connect parser used later,
    wait_for_mqtt_connect (Ok <$> c :: cs) (MqttParser_new 16384 0)
    = Ok (Some (connect, parser, Ok <$> later)) ∧
    connect_packet_of connect = p ∧ parser_inv parser ∧ mp_mqtt_version parser = version ∧
    c :: cs = used ++ later ∧ unread parser ++ concat later = rest.
Proof.
  intros Hc Henc Hcs Hs H13. pose proof (Forall_cons_1 _ _ _ Hcs) as [[_ Hu8] Hcs'].
  unfold wait_for_mqtt_connect. cbn [fmap list_fmap wait_for_mqtt_connect_loop].
  destruct (read_buf_holds (MqttParser_new 16384 0) [] 0 c) as (parser1 & -> & Hh1);
    [done|constructor|].
  replace (zlen c =? 0) with false by lia. replace (zlen c <? 7) with false by lia.
  cbn [concat] in Hs.
  destruct (try_connect_spec p version bs rest Hc Henc parser1 c (concat cs)
    ltac:(exists 0; auto) Hu8 Hs H13)
    as [(connect & parser' & -> & Hp & Hinv & Hv & E)|(parser' & h & -> & Hu' & Hh' & Hlt')];
    cbn [mbind result_bind].
  - exists connect, parser', [c], cs. split_and!; try done.
    rewrite E, <- app_assoc in Hs. by apply app_inv_head in Hs.
  - destruct (wait_loop_spec p version bs rest Hc Henc cs parser' c h Hu' Hu8 Hcs' Hs H13 Hlt' Hh')
      as (connect & parser2 & used & later & Hw & H1 & H2 & H3 & -> & H5).
    by exists connect, parser2, (c :: used), later.
Qed.

Definition control_type_of (version : Z) : ControlType :=
  if version =? 5 then Establishv5 else Establishv3.

(** The r-proxy takes the CONNECT and opens the session.  Whatever the cuts after the first
    read, if that read brings at least the 13 bytes that a protocol name and what is in front of
    it may take, [handle_new_incoming_tcp] finds the client's CONNECT and reads no further.  The
    first two messages are the request for a session of the client's identifier and version and
    the CONNECT, which the s-proxy turns back into the client's bytes; the loop starts with
    every byte after the CONNECT still to be forwarded. *)
Theorem proxy_accepts_connect p version bs ps bss c cs :
  connect_version p = Some version → encodes version p bs → relayable p →
  Forall2 (encodes version) ps bss →
  Forall (λ c, c ≠ [] ∧ u8s c) (c :: cs) → concat (c :: cs) = bs ++ concat bss →
  13 <= zlen c →
  ∃ conn later connect connect_msg,
    handle_new_incoming_tcp (Ok <$> c :: cs) [] [] = Ok (Some (conn, Ok <$> later)) ∧
    connect_packet_of connect = p ∧
    cn_sent conn = [{| sm_sequence_id := 0; sm_direction := 0;
                       sm_payload := Some (SessionControlPayload {|
                         ctl_control_type := ControlType_as_i32 (control_type_of version);
                         ctl_client_id := MqttConnectPacket_client_id connect |}) |}; connect_msg] ∧
    message_bytes connect_msg = bs ∧ cn_written conn = [] ∧ cn_sequence_counter conn = 1 ∧
    forwarding version conn (concat later) ps bss.
Proof.
  intros Hc Henc Hrel Hps Hcs Hs H13.
  destruct (wait_spec p version bs _ c cs Hc Henc Hcs Hs H13)
    as (connect & parser & used & later & Hw & Hp & Hinv & Hv & _ & Hrest).
  destruct (relay_encodes version p bs 0 ClientToBroker Henc Hrel)
    as (msg & Hm & Hcv & (_ & _ & _ & Hb & _)).
  unfold handle_new_incoming_tcp. rewrite Hw.
  exists (StreamingConn_new parser [{| sm_sequence_id := 0; sm_direction := 0;
                       sm_payload := Some (SessionControlPayload {|
                         ctl_control_type := ControlType_as_i32 (control_type_of version);
                         ctl_client_id := MqttConnectPacket_client_id connect |}) |}; msg] [] []),
    later, connect, msg.
  assert (MqttConnectPacket_version connect = if version =? 5 then 5 else 3) as Hver.
  { destruct Henc as (_ & _ & Hver & _). unfold version_for in Hver.
    destruct connect; rewrite <- Hp in Hver; cbn in *; [|by rewrite Hver].
    by destruct (orb_prop _ _ Hver) as [->%Z.eqb_eq| ->%Z.eqb_eq]. }
  split_and!; try done.
  - unfold open_session. rewrite Hver. unfold control_type_of.
    destruct connect; cbn in Hp; subst p; destruct (version =? 5);
      cbn [mbind result_bind]; rewrite Hm; done.
  - unfold message_bytes. by rewrite Hcv, Hb.
Qed.

(** A CONNECT in two reads, the second with a PUBLISH behind it. *)
Lemma proxy_accepts_connect_witness :
  ∃ conn later connect connect_msg,
    handle_new_incoming_tcp [Ok (take 13 sample_connect_bytes);
      Ok (drop 13 sample_connect_bytes ++ sample_publish_bytes)] [] [] = Ok (Some (conn, Ok <$> later)) ∧
    connect_packet_of connect = sample_connect ∧
    message_bytes connect_msg = sample_connect_bytes ∧
    unread (cn_parser conn) ++ concat later = sample_publish_bytes.
Proof.
  destruct (proxy_accepts_connect sample_connect 5 sample_connect_bytes [sample_publish]
    [sample_publish_bytes] (take 13 sample_connect_bytes)
    [drop 13 sample_connect_bytes ++ sample_publish_bytes])
    as (conn & later & connect & msg & H1 & H2 & _ & H4 & _ & _ & [_ _ _ H5 _ _ _]).
  - reflexivity.
  - exact sample_connect_encodes.
  - reflexivity.
  - repeat constructor; apply sample_publish_encodes.
  - repeat constructor; try done; u8s_lit.
  - reflexivity.
  - vm_compute. discriminate.
  - exists conn, later, connect, msg. split_and!; [exact H1|exact H2|exact H4|exact H5].
Defined.

(** ** Routing in the s-proxy *)
Section routing.
Context (iter : gmap bytes ConnectionInfo → list (bytes * ConnectionInfo)).
Hypothesis Hiter : ∀ m, iter m ≡ₚ map_to_list m.

Lemma find_client_spec m session_id :
  match find_client_by_session iter m session_id with
  | Some client_id => ∃ info, m !! client_id = Some info ∧ ci_session_id info = session_id
  | None => ∀ client_id info, m !! client_id = Some info → ci_session_id info ≠ session_id
  end.
Proof.
  unfold find_client_by_session. destruct (List.find _ _) as [[client_id info]|] eqn:E; simpl.
  - apply List.find_some in E as [Hin Hb]. apply bool_decide_eq_true in Hb.
    apply list_elem_of_In in Hin. rewrite Hiter in Hin. apply elem_of_map_to_list in Hin. eauto.
  - intros client_id info Hm Hs. apply elem_of_map_to_list in Hm. rewrite <- Hiter in Hm.
    apply list_elem_of_In in Hm. pose proof (List.find_none _ _ E _ Hm) as Hb. simpl in Hb.
    by apply bool_decide_eq_false in Hb.
Qed.

(** [client_id] is the one client of the session [session_id]. *)
Definition serves (m : gmap bytes ConnectionInfo) (session_id client_id : bytes)
    (queue : list MqttPacket) : Prop :=
  m !! client_id = Some {| ci_broker_tx := queue; ci_session_id := session_id |} ∧
  ∀ c info, m !! c = Some info → ci_session_id info = session_id → c = client_id.

Lemma find_client_serves m session_id client_id queue :
  serves m session_id client_id queue →
  find_client_by_session iter m session_id = Some client_id.
Proof.
  intros [Hm Hun]. pose proof (find_client_spec m session_id) as H.
  destruct (find_client_by_session iter m session_id) as [c|].
  - destruct H as (info & Hc & Hs). by rewrite (Hun c info Hc Hs).
  - exfalso. by eapply H.
Qed.

(** What the session [session_id] of client [client_id] must not see: another session that takes
    the client's entry over, and its own control messages. *)
Definition undisturbed (session_id client_id : bytes) (m : bytes * MqttStreamMessage) : Prop :=
  match sm_payload m.2 with
  | Some (SessionControlPayload control) => m.1 ≠ session_id ∧ ctl_client_id control ≠ client_id
  | _ => True
  end.

Lemma forward_serves m session_id client_id queue sid packet spawned :
  serves m session_id client_id queue →
  let r := {| rl_connections := m; rl_spawned := spawned |} in
  serves (rl_connections (forward_to_broker iter sid packet r)) session_id client_id
    (queue ++ if bool_decide (sid = session_id) then [packet] else []).
Proof.
  intros Hs r. unfold forward_to_broker, r. cbn [rl_connections].
  case_bool_decide as Hsid.
  - subst sid. rewrite (find_client_serves _ _ _ _ Hs). destruct Hs as [Hm Hun]. rewrite Hm.
    cbn [rl_connections]. split; [by rewrite lookup_insert_eq|].
    intros c info. destruct (decide (c = client_id)) as [|Hne]; [done|].
    rewrite lookup_insert_ne by done. apply Hun.
  - rewrite app_nil_r. pose proof (find_client_spec m sid) as Hf.
    destruct (find_client_by_session iter m sid) as [c|]; [|done].
    destruct Hf as (info & Hc & <-). rewrite Hc. cbn [rl_connections]. destruct Hs as [Hm Hun].
    assert (c ≠ client_id) as Hne by (intros ->; rewrite Hm in Hc; by simplify_eq).
    split; [by rewrite lookup_insert_ne|]. intros c' info'.
    destruct (decide (c' = c)) as [->|]; [|rewrite lookup_insert_ne by done; apply Hun].
    rewrite lookup_insert_eq. by intros [= <-].
Qed.

Lemma handle_serves r session_id client_id queue m :
  serves (rl_connections r) session_id client_id queue → undisturbed session_id client_id m →
  serves (rl_connections (handle_stream_message iter m.1 m.2 r)) session_id client_id
    (queue ++ if bool_decide (m.1 = session_id) then controls_of [m.2] else []).
Proof.
  destruct m as [sid msg], r as [conns spawned]. unfold undisturbed, handle_stream_message.
  unfold controls_of, convert_stream_message_to_mqtt_packet. cbn [fst snd omap list_omap].
  intros Hs Hu.
  destruct (sm_payload msg) as [[[[p|]]|[[p|]]|control]|];
    cbn [pb3_packet pb5_packet fmap option_fmap option_map];
    try (by apply forward_serves); try (by case_bool_decide; rewrite app_nil_r).
  destruct Hu as [Hne Hcl]. rewrite bool_decide_eq_false_2, app_nil_r by done.
  destruct Hs as [Hm Hun]. repeat case_match; cbn [rl_connections] in *; try done.
  1-2: split; [by rewrite lookup_insert_ne|]; intros c info;
    destruct (decide (c = ctl_client_id control)) as [->|];
    [rewrite lookup_insert_eq; by intros [= <-]|rewrite lookup_insert_ne by done; apply Hun].
  - match goal with H : find_client_by_session _ _ _ = Some ?c |- _ =>
      pose proof (find_client_spec conns sid) as Hf; rewrite H in Hf; rename c into c0 end.
    destruct Hf as (info & Hc & Hsid).
    assert (c0 ≠ client_id) by (intros ->; rewrite Hm in Hc; by simplify_eq).
    split; [by rewrite lookup_delete_ne|]. intros c info' Hl.
    apply lookup_delete_Some in Hl as [_ Hl]. by apply (Hun c info').
Qed.

(** C28: packets reach the broker loop of their own session, and no other.  For a session that
    has an entry in the table, and no second one, let any messages of any
    sessions be handled in any order, short of a control message that names the session's client
    (by which another session takes the entry over) and of the session's own control messages:
    what was sent into the session's broker loop is exactly the packets of the session's own
    messages, in order, in whatever order the table is searched. *)
Theorem relay_routes msgs r session_id client_id queue :
  serves (rl_connections r) session_id client_id queue →
  Forall (undisturbed session_id client_id) msgs →
  serves (rl_connections (run_relay iter msgs r)) session_id client_id
    (queue ++ controls_of (snd <$> filter (λ m, m.1 = session_id) msgs)).
Proof.
  intros Hs Hu. revert r queue Hs. induction Hu as [|m msgs Hm _ IH]; intros r queue Hs.
  { by rewrite app_nil_r. }
  unfold run_relay in *. cbn [fold_left].
  pose proof (handle_serves r session_id client_id queue m Hs Hm) as Hs'.
  rewrite filter_cons. destruct m as [sid msg]. cbn [fst snd] in *.
  specialize (IH _ _ Hs'). destruct (decide (sid = session_id)) as [E|E].
  - rewrite bool_decide_eq_true_2, <- app_assoc in IH by done.
    cbn [fmap list_fmap snd]. change (msg :: ?l) with ([msg] ++ l).
    unfold controls_of in *. rewrite omap_app. exact IH.
  - rewrite bool_decide_eq_false_2, app_nil_r in IH by done. exact IH.
Qed.
End routing.

(** A session that opens has its entry, if no other client's entry is of the same session. *)
Lemma establish_serves iter r session_id client_id sequence_id direction version :
  (∀ c info, rl_connections r !! c = Some info → ci_session_id info = session_id → c = client_id) →
  let msg := {| sm_sequence_id := sequence_id; sm_direction := direction;
    sm_payload := Some (SessionControlPayload {|
      ctl_control_type := ControlType_as_i32 (control_type_of version);
      ctl_client_id := client_id |}) |} in
  serves (rl_connections (handle_stream_message iter session_id msg r)) session_id client_id [].
Proof.
  intros Hun msg. unfold handle_stream_message, msg, control_type_of.
  cbn [sm_payload ctl_control_type ctl_client_id].
  destruct (version =? 5); cbn; (split; [by rewrite lookup_insert_eq|]); intros c info;
    (destruct (decide (c = client_id)) as [|Hne]; [done|]);
    rewrite lookup_insert_ne by done; apply Hun.
Qed.

Definition sample_open (session_id client_id : bytes) : bytes * MqttStreamMessage :=
  (session_id, {| sm_sequence_id := 0; sm_direction := 0;
    sm_payload := Some (SessionControlPayload {|
      ctl_control_type := 1; ctl_client_id := client_id |}) |}).
Definition sample_ping (session_id : bytes) : bytes * MqttStreamMessage :=
  (session_id, {| sm_sequence_id := 1; sm_direction := 0;
    sm_payload := Some (MqttV5Packet {| pb5_packet := Some Pb5PingreqPacket |}) |}).
Definition sample_relay : MyRelay :=
  handle_stream_message map_to_list (str "a-1") (sample_open (str "a-1") (str "a")).2
    {| rl_connections := ∅; rl_spawned := [] |}.

Definition sample_messages : list (bytes * MqttStreamMessage) :=
  [sample_open (str "b-2") (str "b"); sample_ping (str "b-2"); sample_ping (str "a-1")].

Lemma relay_routes_witness :
  let own := controls_of (snd <$> filter (λ m, m.1 = str "a-1") sample_messages) in
  serves (rl_connections (run_relay map_to_list sample_messages sample_relay))
    (str "a-1") (str "a") ([] ++ own) ∧ own = [PingReq5].
Proof.
  split; [|reflexivity].
  apply (relay_routes map_to_list (λ m, reflexivity _) sample_messages sample_relay
    (str "a-1") (str "a") []).
  - apply (establish_serves map_to_list _ (str "a-1") (str "a") 0 0 5). intros c info H.
    by simplify_map_eq.
  - repeat constructor; done.
Defined.

(** The loops ignore what comes after their end. *)
Lemma streaming_loop_ended evs c : cn_running c = false → start_streaming_loop evs c = Ok c.
Proof.
  intros Hr. induction evs as [|ev evs IH]; [done|]. cbn [start_streaming_loop].
  unfold streaming_step. rewrite Hr. exact IH.
Qed.
Lemma broker_loop_ended evs c : bc_running c = false → mqtt_client_loop_simple evs c = Ok c.
Proof.
  intros Hr. induction evs as [|ev evs IH]; [done|]. cbn [mqtt_client_loop_simple].
  unfold broker_step. rewrite Hr. exact IH.
Qed.

(** C29: no panic and a clean end.  For any bytes from the client, any messages from the gRPC
    stream, in any order, and whatever sends and writes fail, [start_streaming_loop] returns.  So
    does [mqtt_client_loop_simple] for any bytes from the broker, if each packet it is handed can
    be encoded and its counter has room for the bytes still to be read; without the first the
    s-proxy panics ([proxy_defects]).  A write to the client or to the broker that fails ends the
    loop there: what part of the packet was written stays, and no later event has any effect. *)
Theorem forwarding_loops_total :
  (∀ evs c, Forall typed_event evs → parser_inv (cn_parser c) →
     ∃ c', start_streaming_loop evs c = Ok c') ∧
  (∀ evs c, Forall typed_broker_event evs →
     Forall (λ p, is_Ok (MqttPacket_to_bytes p) = true) (broker_controls evs) →
     parser_inv (bc_parser c) → 0 <= bc_sequence_counter c →
     bc_sequence_counter c + zlen (unread (bc_parser c)) + bytes_to_read evs <= u64_MAX →
     ∃ c', mqtt_client_loop_simple evs c = Ok c') ∧
  (∀ evs c msg p data n writes, cn_running c = true → cn_writes c = Some n :: writes →
     convert_stream_message_to_mqtt_packet msg = Some p → MqttPacket_to_bytes p = Ok data →
     start_streaming_loop (GrpcMessage (Some (Ok msg)) :: evs) c
     = Ok (c <| cn_writes := writes |> <| cn_written ::= λ w, w ++ take n data |>
             <| cn_running := false |>)) ∧
  (∀ evs c p data n writes, bc_running c = true → bc_writes c = Some n :: writes →
     MqttPacket_to_bytes p = Ok data →
     mqtt_client_loop_simple (BrokerControl p :: evs) c
     = Ok (c <| bc_writes := writes |> <| bc_written ::= λ w, w ++ take n data |>
             <| bc_running := false |>)).
Proof.
  split; [|split; [|split]].
  - intros evs c Hevs Hinv. destruct (streaming_loop_total evs c Hevs Hinv) as (c' & H & _). eauto.
  - intros evs c Hevs Hctl Hinv Hi Hroom. by apply broker_loop_total.
  - intros evs c msg p data n writes Hr Hw Hm Hp. cbn [start_streaming_loop].
    unfold streaming_step, handle_grpc_message, socket_write_all. rewrite Hr, Hm, Hp, Hw.
    cbn [negb head mjoin option_join tail mbind result_bind]. by apply streaming_loop_ended.
  - intros evs c p data n writes Hr Hw Hp. cbn [mqtt_client_loop_simple].
    unfold broker_step, socket_write_all. rewrite Hr, Hp, Hw.
    cbn [negb head mjoin option_join tail mbind result_bind]. by apply broker_loop_ended.
Qed.

(** A malformed frame and a message that cannot be encoded at the r-proxy, a malformed frame at
    the s-proxy; and a write that fails after one byte on either side. *)
Definition bad_message : MqttStreamMessage := {|
  sm_sequence_id := 0; sm_direction := 1;
  sm_payload := Some (MqttV3Packet {| pb3_packet := Some (Pb3PubackPacket
    {| pb3a_message_id := 65536 |}) |}) |}.

Lemma forwarding_loops_total_witness :
  (∃ c', start_streaming_loop [GrpcMessage (Some (Ok bad_message)); ClientRead (Ok [0; 0])]
     sample_conn = Ok c') ∧
  (∃ c', mqtt_client_loop_simple [BrokerRead (Ok [0; 0]); BrokerControl PingReq5]
     (BrokerConn_new 5 [false] [Some 1%nat]) = Ok c') ∧
  (∃ c', start_streaming_loop (GrpcMessage (Some (Ok sample_pong)) :: sample_client_events)
     (sample_conn <| cn_writes := [Some 1%nat] |>) = Ok c' ∧ cn_written c' = [208]) ∧
  (∃ c', mqtt_client_loop_simple (BrokerControl PingReq5 :: sample_broker_events)
     (BrokerConn_new 5 [] [Some 1%nat]) = Ok c' ∧ bc_written c' = [192]).
Proof.
  destruct forwarding_loops_total as (H1 & H2 & H3 & H4). split; [|split; [|split]].
  - apply H1; [repeat constructor; u8s_lit|by apply (new_parser_at 16384 5)].
  - apply H2; [repeat constructor; u8s_lit|repeat constructor|by apply (new_parser_at 16384 5)|done|].
    vm_compute. discriminate.
  - eexists. split; [apply (H3 _ _ sample_pong PingResp5 [208; 0] 1%nat []); reflexivity|reflexivity].
  - eexists. split; [apply (H4 _ _ PingReq5 [192; 0] 1%nat []); reflexivity|reflexivity].
Defined.

(** ** Defects *)

(** The bytes of a CONNECT with protocol version 0. *)
Definition connect_version_0 : bytes := [16; 13; 0; 4; 77; 81; 84; 84; 0; 2; 0; 60; 0; 1; 99].
Definition conn_of (reads : list (result string bytes)) : option StreamingConn :=
  match handle_new_incoming_tcp reads [] [] with Ok (Some (c, _)) => Some c | _ => None end.

(** What the proxies get wrong.  A client whose CONNECT comes in a first read of seven bytes,
    in the middle of the protocol name, is refused; the protocol version 0 makes the r-proxy
    panic; a packet that arrives in one read with the CONNECT stays in the buffer, through the
    broker's CONNACK, until the client sends something more; a message with a packet that
    cannot be encoded makes the s-proxy's loop panic; and when a broker loop ends, the entry of
    its session stays in the table. *)
Theorem proxy_defects :
  handle_new_incoming_tcp [Ok (take 7 sample_connect_bytes); Ok (drop 7 sample_connect_bytes)] [] []
  = Err (PeStatus (StatusInternal "Failed to set MQTT version")) ∧
  handle_new_incoming_tcp [Ok connect_version_0] [] [] = Panic ∧
  (∃ c c', conn_of [Ok (sample_connect_bytes ++ [192; 0])] = Some c ∧
     start_streaming_loop [GrpcMessage (Some (Ok sample_pong))] c = Ok c' ∧
     cn_sent c' = cn_sent c ∧ unread (cn_parser c') = [192; 0]) ∧
  mqtt_client_loop_simple (BrokerControl <$> controls_of [bad_message]) (BrokerConn_new 4 [] []) = Panic ∧
  serves (rl_connections (broker_loop_closed (str "a-1") sample_relay)) (str "a-1") (str "a") [].
Proof.
  split_and!; try (vm_compute; reflexivity).
  - eexists _, _. split; [vm_compute; reflexivity|]. split; [vm_compute; reflexivity|]. by split.
  - split; [done|]. intros c info. unfold sample_relay, broker_loop_closed. cbn [rl_connections].
    intros [_ H]%lookup_delete_Some. unfold handle_stream_message in H. cbn in H.
    destruct (decide (c = str "a")) as [|Hne]; [done|]. rewrite lookup_insert_ne in H by done.
    by rewrite lookup_empty in H.
Qed.
