(* ===== verification/NoIoClient.v ===== *)
(** * The sans-I/O client

    Models [src/mqtt_client/no_io_client.rs] and [no_io_client/host.rs]: the public client, a
    record around the engine whose methods call the engine's, with an explicit time ([.._at]) or
    on the host's clock.  The theorem composes the parts below it: the client, the host's clock,
    the checkpoints and the engine, over every sequence of calls of the public interface. *)
From S2P Require Import Prelude BaseData TopicFilter Validation Properties Packets Framing Codec.
From S2P Require Import Stream Leveled Time PriorityQueue ClientError Options ClientTypes.
From S2P Require Import Commands Inflight ClientSession EngineState EngineCore EngineProtocol.
From S2P Require Import Engine EncodeFacts EngineInv EngineSteps EngineHandlers EngineSafety.
From S2P Require Import EngineTimers EngineSession EngineHost.

Record NoIoMqttClient (T : Type) : Type := { nc_engine : MqttEngine T }.
Arguments nc_engine {_} _.

Module NoIoMqttClient.
Section client.
Context {T : Type} `{TimePoint T, !Runtime T}.
Implicit Types (self : NoIoMqttClient T) (now sample : T).
Local Abbreviation M := (St (NoIoMqttClient T)).

(** [self.engine.f()] *)
Definition on_engine {A} (m : St (MqttEngine T) A) : M A := λ self,
  match m (nc_engine self) with
  | Ok (a, engine) => Ok (a, {| nc_engine := engine |})
  | Err e => Err e
  | Panic => Panic
  end.

(** ** Explicit time *)
Definition client_new_at (options : MqttClientOptions) now : NoIoMqttClient T :=
  {| nc_engine := MqttEngine_new_at options now |}.
Definition client_try_new_at (options : MqttClientOptions) now
    : result MqttClientError (NoIoMqttClient T) :=
  engine ← MqttEngine_try_new_at options now; Ok {| nc_engine := engine |}.
Definition client_snapshot_session self : result MqttClientError ClientSessionState :=
  snapshot_session (nc_engine self).
Definition client_restore_session_state (state : ClientSessionState) : M (MqttClientError + ()) :=
  on_engine (restore_session_state state).
Definition client_handle_incoming_at (data : bytes) now := on_engine (handle_incoming_at data now).
Definition client_take_outgoing_at now := on_engine (take_outgoing_at now).
Definition client_handle_tick_at now := on_engine (handle_tick_at now).
Definition client_next_tick_at self : panics (option T) := next_tick_at (nc_engine self).
Definition client_take_events : M (list MqttEvent) := on_engine take_events.
Definition client_set_parse_level (level : ParseLevel) : M () := on_engine (set_parse_level level).
Definition client_parse_level self : ParseLevel := parse_level (nc_engine self).
Definition client_connect_at now := on_engine (connect_at now).
Definition client_publish_at (command : PublishCommand) now := on_engine (publish_at command now).
Definition client_subscribe_at (command : SubscribeCommand) now := on_engine (subscribe_at command now).
Definition client_unsubscribe_at (command : UnsubscribeCommand) now :=
  on_engine (unsubscribe_at command now).
Definition client_ping_at now := on_engine (try_send_ping_at now).
Definition client_disconnect_at now := on_engine (disconnect_at now).
Definition client_auth_at (reason_code : Z) (properties : list Property) now :=
  on_engine (auth_at reason_code properties now).
Definition client_reset_for_new_transport_at now := on_engine (reset_for_new_transport_at now).
Definition client_schedule_reconnect_at now := on_engine (schedule_reconnect_at now).
Definition client_has_pending_output self : bool := has_pending_output (nc_engine self).
Definition client_disconnect_with_at (reason_code : Z) (properties : list Property) now :=
  on_engine (try_disconnect_with_at reason_code properties now).
Definition client_puback_at (packet_id reason_code : Z) (properties : list Property) now :=
  on_engine (puback_at packet_id reason_code properties now).
Definition client_pubrec_at (packet_id reason_code : Z) (properties : list Property) now :=
  on_engine (pubrec_at packet_id reason_code properties now).
Definition client_pubcomp_at (packet_id reason_code : Z) (properties : list Property) now :=
  on_engine (pubcomp_at packet_id reason_code properties now).
Definition client_is_connected self : bool := MqttEngine_is_connected (nc_engine self).
Definition client_mqtt_version self : Z := MqttEngine_mqtt_version (nc_engine self).
Definition client_options self : MqttClientOptions := MqttEngine_options (nc_engine self).
Definition client_handle_connection_lost_at now := on_engine (handle_connection_lost_at now).

(** ** The host's clock *)
Definition client_new (options : MqttClientOptions) sample : NoIoMqttClient T :=
  {| nc_engine := MqttEngine_new options sample |}.
Definition client_handle_incoming (data : bytes) sample := on_engine (handle_incoming data sample).
Definition client_take_outgoing sample := on_engine (take_outgoing sample).
Definition client_handle_tick sample := on_engine (handle_tick sample).
Definition client_connect sample := on_engine (connect sample).
Definition client_publish (command : PublishCommand) sample := on_engine (publish command sample).
Definition client_subscribe (command : SubscribeCommand) sample := on_engine (subscribe command sample).
Definition client_unsubscribe (command : UnsubscribeCommand) sample :=
  on_engine (unsubscribe command sample).
Definition client_ping sample := on_engine (send_ping sample).
Definition client_disconnect sample := on_engine (disconnect sample).
Definition client_auth (reason_code : Z) (properties : list Property) sample :=
  on_engine (auth reason_code properties sample).
Definition client_reset_for_new_transport sample := on_engine (reset_for_new_transport sample).
Definition client_schedule_reconnect sample := on_engine (schedule_reconnect sample).
Definition client_disconnect_with (reason_code : Z) (properties : list Property) sample :=
  on_engine (try_disconnect_with reason_code properties sample).
Definition client_puback (packet_id reason_code : Z) (properties : list Property) sample :=
  on_engine (puback packet_id reason_code properties sample).
Definition client_pubrec (packet_id reason_code : Z) (properties : list Property) sample :=
  on_engine (pubrec packet_id reason_code properties sample).
Definition client_pubcomp (packet_id reason_code : Z) (properties : list Property) sample :=
  on_engine (pubcomp packet_id reason_code properties sample).
Definition client_handle_connection_lost sample := on_engine (handle_connection_lost sample).
End client.
End NoIoMqttClient.

(** ** Sequences of calls *)

(** A method with an explicit time, or on the host's clock. *)
Inductive Clock (T : Type) : Type := At (now : T) | Host (sample : T).
Arguments At {_} _.
Arguments Host {_} _.

Inductive ClientCall : Type :=
  | ClientConnect
  | ClientPublish (command : PublishCommand)
  | ClientSubscribe (command : SubscribeCommand)
  | ClientUnsubscribe (command : UnsubscribeCommand)
  | ClientPing
  | ClientDisconnect
  | ClientDisconnectWith (reason_code : Z) (properties : list Property)
  | ClientAuth (reason_code : Z) (properties : list Property)
  | ClientPuback (packet_id reason_code : Z) (properties : list Property)
  | ClientPubrec (packet_id reason_code : Z) (properties : list Property)
  | ClientPubcomp (packet_id reason_code : Z) (properties : list Property)
  | ClientHandleIncoming (data : bytes)
  | ClientHandleTick
  | ClientTakeOutgoing
  | ClientConnectionLost
  | ClientResetForNewTransport
  | ClientScheduleReconnect
  | ClientTakeEvents
  | ClientSetParseLevel (level : ParseLevel)
  | ClientNextTick
  | ClientRestore (state : ClientSessionState).

Definition client_call_ok (call : ClientCall) : Prop :=
  match call with
  | ClientPublish c => publish_command_ok c
  | ClientSubscribe c => wf_opt is_u16 (sc_packet_id c)
  | ClientUnsubscribe c => wf_opt is_u16 (uc_packet_id c)
  | ClientHandleIncoming data => u8s data
  | ClientRestore state => typed_saved state
  | _ => True
  end.

Section runs.
Context {T : Type} `{TimePointLaws T} `{!Runtime T} `{!RuntimeLaws T}.
Implicit Types (self : NoIoMqttClient T) (sample : T).
Import NoIoMqttClient.
Local Abbreviation M := (St (NoIoMqttClient T)).

Definition discard {A} (m : M A) : M () := m;; mret ().

Definition run_client_call (call : ClientCall) (clock : Clock T) : M () :=
  match call, clock with
  | ClientConnect, At now => discard (client_connect_at now)
  | ClientConnect, Host sample => discard (client_connect sample)
  | ClientPublish c, At now => discard (client_publish_at c now)
  | ClientPublish c, Host sample => discard (client_publish c sample)
  | ClientSubscribe c, At now => discard (client_subscribe_at c now)
  | ClientSubscribe c, Host sample => discard (client_subscribe c sample)
  | ClientUnsubscribe c, At now => discard (client_unsubscribe_at c now)
  | ClientUnsubscribe c, Host sample => discard (client_unsubscribe c sample)
  | ClientPing, At now => discard (client_ping_at now)
  | ClientPing, Host sample => discard (client_ping sample)
  | ClientDisconnect, At now => discard (client_disconnect_at now)
  | ClientDisconnect, Host sample => discard (client_disconnect sample)
  | ClientDisconnectWith r ps, At now => discard (client_disconnect_with_at r ps now)
  | ClientDisconnectWith r ps, Host sample => discard (client_disconnect_with r ps sample)
  | ClientAuth r ps, At now => discard (client_auth_at r ps now)
  | ClientAuth r ps, Host sample => discard (client_auth r ps sample)
  | ClientPuback id r ps, At now => discard (client_puback_at id r ps now)
  | ClientPuback id r ps, Host sample => discard (client_puback id r ps sample)
  | ClientPubrec id r ps, At now => discard (client_pubrec_at id r ps now)
  | ClientPubrec id r ps, Host sample => discard (client_pubrec id r ps sample)
  | ClientPubcomp id r ps, At now => discard (client_pubcomp_at id r ps now)
  | ClientPubcomp id r ps, Host sample => discard (client_pubcomp id r ps sample)
  | ClientHandleIncoming data, At now => discard (client_handle_incoming_at data now)
  | ClientHandleIncoming data, Host sample => discard (client_handle_incoming data sample)
  | ClientHandleTick, At now => discard (client_handle_tick_at now)
  | ClientHandleTick, Host sample => discard (client_handle_tick sample)
  | ClientTakeOutgoing, At now => discard (client_take_outgoing_at now)
  | ClientTakeOutgoing, Host sample => discard (client_take_outgoing sample)
  | ClientConnectionLost, At now => discard (client_handle_connection_lost_at now)
  | ClientConnectionLost, Host sample => discard (client_handle_connection_lost sample)
  | ClientResetForNewTransport, At now => discard (client_reset_for_new_transport_at now)
  | ClientResetForNewTransport, Host sample => discard (client_reset_for_new_transport sample)
  | ClientScheduleReconnect, At now => discard (client_schedule_reconnect_at now)
  | ClientScheduleReconnect, Host sample => discard (client_schedule_reconnect sample)
  | ClientTakeEvents, _ => discard client_take_events
  | ClientSetParseLevel level, _ => client_set_parse_level level
  | ClientNextTick, _ => self ← get_st; discard (lift (client_next_tick_at self))
  | ClientRestore state, _ => discard (client_restore_session_state state)
  end.

Definition run_client (calls : list (ClientCall * Clock T)) : M () :=
  for_each_st calls (λ '(call, clock), run_client_call call clock).

Lemma on_engine_order {A} B (m : St (MqttEngine T) A) self :
  keeps_order B (B + 1) (ignore m) → in_order B (nc_engine self) →
  runs (discard (on_engine m)) self (λ _ self', in_order (B + 1) (nc_engine self')).
Proof.
  intros Hm He. specialize (Hm _ He). unfold runs, discard, on_engine, ignore, mbind, St_bind in *.
  by destruct (m (nc_engine self)) as [[a e']| |].
Qed.

Section host_order.
Context (B : Z) (HB : B + 1 <= u32_MAX).

Lemma at_host_order {A} sample (f : T → St (MqttEngine T) A) :
  (∀ now, keeps_order B (B + 1) (ignore (f now))) → keeps_order B (B + 1) (ignore (at_host sample f)).
Proof. intros Hf. apply ignored, at_host_preserves. intros now. apply ignored, Hf. Qed.
Lemma or_else_order {A} (m : St (MqttEngine T) (MqttClientError + A)) default :
  keeps_order B (B + 1) (ignore m) → keeps_order B (B + 1) (ignore (or_else m default)).
Proof. intros Hm. by apply ignored, or_else_preserves, ignored. Qed.
Lemma report_error_order {A} (default : A) (m : St (MqttEngine T) (MqttClientError + A)) :
  keeps_order B (B + 1) (ignore m) → keeps_order B (B + 1) (ignore (report_error default m)).
Proof. intros Hm. by apply ignored, report_error_preserves, ignored. Qed.

(** ** One call *)
Lemma run_client_call_order call clock self :
  client_call_ok call → in_order B (nc_engine self) →
  runs (run_client_call call clock) self (λ _ self', in_order (B + 1) (nc_engine self')).
Proof.
  assert (Hcall : ∀ c now, call_ok c → keeps_order B (B + 1) (run_call c now)) by (intros c ??; apply run_call_order; [lia..|done|destruct c; simpl; lia]).
  assert (Hsame : ∀ {A} (f : T → St (MqttEngine T) A), (∀ now, keeps_order B (B + 1) (ignore (f now))) →
    in_order B (nc_engine self) →
    runs match clock with
         | At now => discard (on_engine (f now))
         | Host sample => discard (on_engine (at_host sample f))
         end self (λ _ self', in_order (B + 1) (nc_engine self'))).
  { intros A f Hf He. destruct clock; apply on_engine_order; try exact He; [apply Hf|by apply at_host_order]. }
  intros Hok He. destruct call; cbn [client_call_ok] in Hok.
  - exact (Hsame _ connect_at (λ now, Hcall CallConnect now I) He).
  - exact (Hsame _ (publish_at command) (λ now, Hcall (CallPublish command) now Hok) He).
  - exact (Hsame _ (subscribe_at command) (λ now, Hcall (CallSubscribe command) now Hok) He).
  - exact (Hsame _ (unsubscribe_at command) (λ now, Hcall (CallUnsubscribe command) now Hok) He).
  - destruct clock as [now|sample]; (apply on_engine_order; [|exact He]); [exact (Hcall CallPing now I)|].
    apply at_host_order. exact (λ now, Hcall CallPing now I).
  - exact (Hsame _ disconnect_at (λ now, Hcall (CallDisconnect 0 []) now I) He).
  - exact (Hsame _ (try_disconnect_with_at reason_code properties) (λ now, Hcall (CallDisconnect _ _) now I) He).
  - exact (Hsame _ (auth_at reason_code properties) (λ now, Hcall (CallAuth _ _) now I) He).
  - exact (Hsame _ (puback_at packet_id reason_code properties) (λ now, Hcall (CallPuback _ _ _) now I) He).
  - exact (Hsame _ (pubrec_at packet_id reason_code properties) (λ now, Hcall (CallPubrec _ _ _) now I) He).
  - exact (Hsame _ (pubcomp_at packet_id reason_code properties) (λ now, Hcall (CallPubcomp _ _ _) now I) He).
  - destruct clock as [now|sample]; (apply on_engine_order; [|exact He]); [exact (Hcall (CallIncoming data) now Hok)|].
    apply or_else_order, at_host_order. exact (λ now, Hcall (CallIncoming data) now Hok).
  - destruct clock as [now|sample]; (apply on_engine_order; [|exact He]); [exact (Hcall CallTick now I)|].
    apply or_else_order, at_host_order. exact (λ now, Hcall CallTick now I).
  - destruct clock as [now|sample]; (apply on_engine_order; [|exact He]); [exact (Hcall CallTakeOutgoing now I)|].
    apply report_error_order, at_host_order. exact (λ now, Hcall CallTakeOutgoing now I).
  - destruct clock as [now|sample]; (apply on_engine_order; [|exact He]); [exact (Hcall CallConnectionLost now I)|].
    apply report_error_order, at_host_order. exact (λ now, Hcall CallConnectionLost now I).
  - destruct clock as [now|sample]; (apply on_engine_order; [|exact He]); [exact (Hcall CallResetForNewTransport now I)|].
    apply report_error_order, at_host_order. exact (λ now, Hcall CallResetForNewTransport now I).
  - destruct clock as [now|sample]; (apply on_engine_order; [|exact He]); [exact (Hcall CallScheduleReconnect now I)|].
    apply report_error_order, at_host_order. exact (λ now, Hcall CallScheduleReconnect now I).
  - apply on_engine_order; [|exact He]. exact (Hcall CallTakeEvents (me_now (nc_engine self)) I).
  - pose proof (Hcall (CallSetParseLevel level) (me_now (nc_engine self)) I _ He) as Hs. exact Hs.
  - cbn [run_client_call]. run_step. run_step. unfold discard. run_step. apply runs_lift.
    destruct (next_tick_defined (nc_engine self) (proj1 He)) as [next Hnext]. exists next.
    split; [exact Hnext|]. run_step. eapply in_order_mono; [exact He|lia].
  - cbn [run_client_call]. destruct (restore_in_order B (nc_engine self) state He Hok) as (r & e' & Hr & Ho & _).
    unfold runs, discard, client_restore_session_state, on_engine, mbind, St_bind. rewrite Hr.
    eapply in_order_mono; [exact Ho|lia].
Qed.
End host_order.

Lemma run_client_order calls : ∀ B self,
  in_order B (nc_engine self) → Forall (λ c, client_call_ok c.1) calls → B + zlen calls <= u32_MAX →
  runs (run_client calls) self (λ _ self', in_order (B + zlen calls) (nc_engine self')).
Proof.
  induction calls as [|[call clock] calls IH]; intros B self He Hok Hlen.
  { apply runs_ret. by rewrite zlen_nil, Z.add_0_r. }
  rewrite zlen_cons in *. pose proof (zlen_nonneg calls). apply Forall_cons_1 in Hok as [Hcall Hok].
  unfold run_client. cbn [for_each_st]. run_step.
  eapply runs_mono; [apply (run_client_call_order B); [lia|exact Hcall|exact He]|]. intros [] self' He'.
  eapply runs_mono; [apply (IH (B + 1) self' He' Hok); lia|]. intros [] self'' He''.
  replace (B + (1 + zlen calls)) with (B + 1 + zlen calls) by lia. exact He''.
Qed.
End runs.

(** ** Theorems *)

(** C4: the public client never panics and never loops.  For every well-typed configuration with
    a persistent session ([sessionless] off) whose deadlines are representable from the starting
    time on, and every sequence of fewer than [u32::MAX - 1] calls of the sans-I/O client, each
    with an explicit time or on a host clock whose readings may be anything, including backward
    jumps, with any well-typed commands except a QoS 0 PUBLISH that carries a packet identifier
    ([client_call_ok]), any bytes from the network and any checkpoint from storage: every call
    returns, [next_tick_at] among them, and the engine's invariant holds at the end.
    [EngineFindings] shows that the conditions on the session and on QoS 0 are needed. *)
Theorem client_never_panics {T} `{TimePointLaws T} `{!Runtime T} `{!RuntimeLaws T}
    options (now : T) client calls :
  wf_options options → mo_sessionless options = false →
  NoIoMqttClient.client_try_new_at options now = Ok client →
  Forall (λ c, client_call_ok c.1) calls → zlen calls < u32_MAX - 1 →
  ∃ client', run_client calls client = Ok ((), client') ∧ engine_inv (nc_engine client').
Proof.
  intros Hw Hs Hnew Hc Hlen. apply bind_Ok_inv in Hnew as (engine & Hnew & [= <-]%Ok_inj).
  unfold MqttEngine_try_new_at in Hnew. destruct (_ || _); [done|].
  apply bind_Ok_inv in Hnew as ([] & Ht & [= <-]%Ok_inj).
  pose proof (run_client_order calls 1 {| nc_engine := MqttEngine_new_at options now |}
                (new_in_order options now Hw Hs Ht) Hc ltac:(lia)) as Hrun.
  apply runs_Ok in Hrun as ([] & client' & Hrun & He' & _). eauto.
Qed.

#[local] Existing Instance Runtime_ordered.
#[local] Existing Instance RuntimeLaws_ordered.

(** A client restores a session and connects while the host's clock jumps back. *)
Definition sample_client_calls : list (ClientCall * Clock Timestamp) :=
  [(ClientRestore sample_saved, At (Timestamp_from_nanos 0));
   (ClientConnect, Host (Timestamp_from_nanos 50)); (ClientNextTick, At (Timestamp_from_nanos 0));
   (ClientTakeOutgoing, Host (Timestamp_from_nanos 20));
   (ClientHandleIncoming [32; 3; 1; 0; 0], At (Timestamp_from_nanos 10));
   (ClientHandleIncoming [32; 3; 1; 0; 0], Host (Timestamp_from_nanos 10));
   (ClientPublish sample_command, Host (Timestamp_from_nanos 5));
   (ClientHandleTick, Host (Timestamp_from_nanos 90))].

Lemma client_never_panics_witness :
  ∃ client, NoIoMqttClient.client_try_new_at resumed_options (Timestamp_from_nanos 0) = Ok client ∧
  ∃ client', run_client sample_client_calls client = Ok ((), client') ∧ engine_inv (nc_engine client').
Proof.
  eexists. split; [reflexivity|].
  eapply (client_never_panics resumed_options (Timestamp_from_nanos 0)).
  - exact resumed_options_wf.
  - reflexivity.
  - reflexivity.
  - unfold sample_client_calls.
    repeat (apply Forall_cons_2; [first [exact I|exact sample_command_ok|exact sample_saved_typed|simpl; u8s_lit]|]).
    apply Forall_nil_2.
  - vm_compute. done.
Defined.
